(* ===== verification/_CoqProject ===== *)
-Q . S2P
Prelude.v
GoStrings.v
WireCodec.v
Router.v
ParserRoutes.v
Redact.v
Errs.v
Middleware.v
Cron.v
AgentSession.v
AgentRegistry.v
Http.v
EnvPolicy.v
EnvFile.v
Payload.v
RuntimeServer.v
WireServer.v
Mock.v
AgentServer.v
AuthTokens.v
AuthStore.v
AuthService.v
AuthLogic.v
AuthProofs.v
DevEvents.v
DashStore.v
DashProofs.v
Paths.v
AppConfig.v
LocalProxy.v
Fs.v
Toolchain.v
ToolchainProofs.v
StateM.v
DBBranch.v
DBBranchProofs.v
Globs.v
Tasks.v
TasksProofs.v
Validate.v
ValidateProofs.v
Seeds.v
SeedsProofs.v
Models.v
ModelsProofs.v
Workers.v
WorkersProofs.v
Watch.v
WatchProofs.v
Build.v
BuildProofs.v
Edge.v
EdgeProofs.v
