(* ===== verification/Prelude.v ===== *)
(** * A verification development for the scenery runtime and toolchain

    scenery is a Go runtime and command line tool for service applications.
    The parser ([internal/parse]) reads Go packages with scenery directives
    into an application model; generated code registers endpoints, middleware
    and cron jobs with the runtime ([runtime]), which routes HTTP requests to
    them, runs their middleware and turns errors into responses ([errs],
    [internal/redact]); clients may call through a binary wire format
    ([internal/wire]); standard authentication ([auth]) keeps users, sessions
    and organizations in a database.  The tool ([cmd/scenery]) builds an
    application in a workspace ([internal/build]), watches its files, runs its
    tasks and validations, manages database branches and seeds, and installs
    third-party programs ([internal/toolchain]); the local agent
    ([internal/agent]) keeps a registry of the development sessions of the
    machine and routes host names to them, behind a local proxy
    ([internal/localproxy]) or a privileged edge; a dashboard
    ([internal/devdash]) stores what the sessions report.

    ** Files, what they model, and what is shown

    Shared parts:

    - [Prelude]: outcomes of Go code (a value, an error or a panic), slices,
      integers at their width, stable sorting, tactics and shared lemmas.
    - [GoStrings]: the functions of Go's strings, unicode, utf8, strconv,
      path/filepath and net packages that the modelled code calls.  Unicode
      beyond ASCII is the class [UnicodeTables], so theorems hold for every
      version of the character database.
    - [Paths] (absolute paths as lists of elements), [Globs] (filepath.Match),
      [Fs] (a file system with symbolic links and failing calls), [StateM]
      (programs over a state that may fail, and rules for their invariants),
      [Http] (headers and response writers).

    The runtime:

    - [WireCodec] (module [Wire], internal/wire/wire.go): [Encode]/[Decode] of
      values, request and response frames, schema hashes, capabilities.
      Decoding inverts encoding for values and frames; decoding returns on
      every input, its single panic is characterised and shown to happen;
      nothing may follow a payload; hashes separate their parts up to SHA-256
      collisions and do not depend on the order of the endpoints.
    - [Router] (runtime/router.go, and [expandMethods] of runtime/server.go):
      patterns, matching, registration, dispatch.  A pattern matches exactly
      the paths obtained by filling it; a request is answered 404, 405 or by a
      most specific route; the Allow header is exact and sorted.
    - [ParserRoutes] (module [Parser], the parts of internal/parse/parser.go
      that work on text): directives, paths, methods, middleware targets and
      order, service roots, overlap and collision of routes.  The static
      overlap test is exact for the route table of [Router]; a clean collision
      report means no generated endpoint is ambiguous; the path parameters the
      parser declares are the ones the router binds.
    - [Redact] (internal/redact/redact.go): the traversal of values over a heap
      of pointers with its shared [seen] map.  It returns on cyclic pointers,
      and its result does not depend on anything below a sensitive key.
    - [Errs] (errs/error.go): error trees, builder, wrapping with the shared
      metadata maps in a store, codes, statuses, the error response.  Wrapping
      keeps the status, [WrapCode] sets the code, metadata is merged (and the
      original error is changed with it), responses keep secrets.
    - [Middleware] (runtime/middleware.go, middleware/middleware.go, parts of
      runtime/registry.go): the chain with its shared counter over middleware
      programs that may do anything, typed and raw endpoints, response
      writers.  The chain always answers, in order and with balanced events; it
      refines function composition for middleware that calls next at most
      once; a retry skips a rejecting middleware; results fit the declared
      types; captured and streamed responses agree.
    - [Cron] (runtime/cron.go, parts of runtime/registry.go): schedule
      parsing, next executions, the calendars for Temporal, validation.  The
      next execution is the earliest matching minute within the horizon; the
      calendars match the same minutes as the in-process schedule; a field has
      exactly the values its text selects; an oversized step panics.
    - [Http] (modules [Cors] and [Gzip], runtime/server.go, gzip.go): compressed
      responses are what the handler wrote; credentials are allowed only to
      configured origins.  [EnvPolicy], [EnvFile] (internal/envpolicy, envfile,
      runtime/secrets.go), [Mock] (runtime/mock.go).
    - [Payload] (runtime/decode.go, encode.go): decoding into typed values;
      every value that is set has its type, with integers at their width.
    - [RuntimeServer], [WireServer] (runtime/registry.go, server.go, wire.go):
      registration, route tables, handlers, internal calls, wire calls and the
      store of recoverable results.  The public server reaches public endpoints
      only; a result can be recovered for ten minutes.

    Authentication ([auth]):

    - [AuthTokens], [AuthStore], [AuthService]: the text formats, the statements
      on the database and one definition per operation; [AuthLogic] has rules
      for their monads, and [AuthProofs] shows, for every sequence of calls and
      faults, that one-time tokens are used once, that sessions end with a
      password reset, that tokens are issued to active members only, that
      workspaces keep an owner and that failed calls change nothing.

    The agent and its neighbours:

    - [AgentSession], [AgentRegistry] (internal/agent/session.go, owner.go,
      registry.go): sessions, owners, host names, and every operation of the
      registry as a step relation in arbitrary worlds; its reachable states are
      consistent.
    - [AgentServer] (server.go, router.go, edge.go, paths.go): the control API
      refines the registry's operations; only verified processes are
      interrupted; requests are routed to registered backends only.
    - [LocalProxy] (internal/localproxy): routes, rewrites and certificates.
    - [Edge], [EdgeProofs] (cmd/scenery/edge.go and the route names of
      watch.go): the privileged helper forwards exactly to safe targets,
      resolvers are installed as their status says, the name server serves
      exactly its domains, the helper keeps its options.
    - [DevEvents], [DashStore], [DashProofs] (internal/devdash): the events of
      processes and the store, whose invariant holds over all calls, faults and
      changes by other processes, and which reopening restores.

    The tool:

    - [AppConfig] (internal/app/root.go): the nearest configuration is found,
      and unknown fields are rejected exactly.
    - [Toolchain], [ToolchainProofs] (internal/toolchain): installation is all
      or nothing, extraction is confined.
    - [DBBranch], [DBBranchProofs] (cmd/scenery/db_branch_*.go): the parent
      database is never dropped or written, a reset copies the parent, leases of
      others stay.
    - [Tasks], [TasksProofs] (task.go, script.go): a task succeeds exactly when
      its plain reading does.  [Validate], [ValidateProofs] (validate.go):
      cycles, plans and runs of profiles are exact.
    - [Seeds], [SeedsProofs] (db_seed.go): a seed takes effect at most once and
      only if it is safe; diagnostics name the right lines.
    - [Models], [ModelsProofs] (internal/schemagen, parts of internal/parse and
      internal/model): generated seeds are accepted, generated endpoints are
      authenticated and distinct.
    - [Workers], [WorkersProofs] (internal/workers/manifest.go, bindings.go):
      manifests are accepted exactly when they satisfy a specification.
    - [Watch], [WatchProofs] (watch.go): a scan sees exactly the watched and
      embedded files, rebuilds wait until a change has settled, events on seen
      files are signals.
    - [Build], [BuildProofs] (internal/build): a prepared workspace is the mirror
      of the application, and a binary is reused exactly while it is current.

    The examples at the end of the proof files evaluate the models on concrete
    inputs and show where the code does not do what it means to.

    ** How Go is modelled

    A function that returns a value and an error is a function into [outcome]
    or a sum; a panic is a value of [outcome], so freedom from panics is a
    statement.  Strings are byte strings.  [int] is [Z] with its wrap-around
    written out where the code can reach it ([wrap_int 64] in frames, cron
    steps and process ids).  Structs are records; methods on pointers pass the
    state explicitly; shared maps (error metadata, the [seen] map) live in a
    store or a threaded state.  A Go map is a [gmap], or an entry list where
    its order is observable; the order of iteration is an argument (the
    [iterate] of [World], [ObjectOrder] of [AppConfig], the entry lists of
    [Redact]), constrained only to visit each entry once.  Loops that wait for
    channels and timers run on a trace of what they receive ([Watch]).

    Code that is not part of the repository is an argument, usually the field
    of a class: encoding/json and the parsing of floats ([JsonLib] and the
    sections of [WireCodec] and [Payload]), SHA-256, the process table, git, the
    working directory and the clock ([World], [Env]), UUIDs, Argon2 and tokens
    ([AuthLib]), url.Parse, certificates and listeners ([ProxyEnv]), downloads
    and archives ([ToolchainEnv]), Postgres and git ([BranchEnv], [SeedEnv]),
    processes and files ([TaskEnv], [ValidateEnv], [Processes]), the go command
    and the edits of go.mod ([BuildEnv]), user code (handlers, middleware,
    endpoints), reflection on types in [Middleware].  What is relied on is
    stated in a class of laws or a hypothesis beside it, and a witness
    instantiates it.

    ** Fuel and bounds

    Loops without a structural measure carry fuel that the data bounds:
    [Decode] one more than the length of the payload (every value consumes a
    byte: [Decode_total]); [Value] of [Redact] the number of cells of the heap
    (a cell is followed once: [Value_total]); the middleware chain one more
    than the number of middlewares; the next cron execution the horizon of the
    code itself, five years of minutes; [DiscoverRoot] one more than the length
    of the path; the resolution of links the 40 that the kernel allows; tasks
    and profiles one more than their number ([runConfiguredTask_spec],
    [plan_exact]); patterns, quoted texts, words, embed directives and
    sanitised SQL their length; the parents of a path one more than its
    length; a wait the length of its trace.

    ** Not modelled

    The traversal of Go syntax trees and types in the parser, the text of
    generated Go and TypeScript code, the supervisor of development processes
    and the services it starts, Temporal clients, the self-test harness,
    terminals and help texts, goroutines beyond what a trace or a step relation
    shows, the bytes of the network and of files.  Of the modelled packages:
    the reflective fallback of the wire encoder and [DecodeInto], [String] and
    [URL] of the redactor (regular expressions), the request metadata of
    middleware, the scheduling of cron jobs, [UniqueSessionID] (randomness),
    the fingerprint of the generator and the inspection files of a build, the
    start and stop of edge processes. *)
From stdpp Require Import base tactics list sorting gmap strings.
From Stdlib Require Import ZArith Lia Ascii.

#[global] Open Scope Z_scope.

(** ** Outcomes of Go code

    A Go function that returns a value and an error, and that may panic, is a
    function into [outcome E A]. *)
Inductive outcome (E A : Type) : Type :=
| Ret (a : A)
| Fail (e : E)
| Panic (msg : string).
Arguments Ret {E A} a.
Arguments Fail {E A} e.
Arguments Panic {E A} msg.

#[export] Instance outcome_ret E : MRet (outcome E) := fun A a => Ret a.
#[export] Instance outcome_bind E : MBind (outcome E) := fun A B f m =>
  match m with
  | Ret a => f a
  | Fail e => Fail e
  | Panic msg => Panic msg
  end.

Definition panics {E A} (o : outcome E A) : bool :=
  match o with Panic _ => true | _ => false end.

(** [l[i:j]], which panics when the bounds are out of range. *)
Definition slice_panic : string := "runtime error: slice bounds out of range".

Definition slice {A} (l : list A) (i j : nat) : outcome string (list A) :=
  if Nat.leb i j && Nat.leb j (length l) then Ret (take (j - i) (drop i l))
  else Panic slice_panic.

(** ** Machine integers *)
Definition wrap_uint (w z : Z) : Z := z mod 2 ^ w.
Definition wrap_int (w z : Z) : Z := (z + 2 ^ (w - 1)) mod 2 ^ w - 2 ^ (w - 1).

(** ** Stable sorting, as [slices.SortStableFunc] and [sort.SliceStable] do it

    [before x y] says that [x] is strictly before [y]. *)
Section stable_sort.
Context {A : Type} (before : A -> A -> bool).

Fixpoint insert_stable (x : A) (l : list A) : list A :=
  match l with
  | [] => [x]
  | y :: l' => if before y x then y :: insert_stable x l' else x :: y :: l'
  end.

Fixpoint sort_stable (l : list A) : list A :=
  match l with
  | [] => []
  | x :: l' => insert_stable x (sort_stable l')
  end.
End stable_sort.

(** ** Tactics *)

(** Case analysis on the scrutinee of a [match] or [if] of the goal or of a
    hypothesis, discharging the absurd branches. *)
Ltac break_match :=
  match goal with
  | |- context [match ?x with _ => _ end] => destruct x eqn:?
  | H : context [match ?x with _ => _ end] |- _ => destruct x eqn:?
  end; simplify_eq/=.

Ltac inv_outcome :=
  repeat match goal with
  | H : mbind _ ?m = Ret _ |- _ =>
      let E := fresh "E" in destruct m eqn:E; simpl in H; try discriminate H
  | H : Ret _ = Ret _ |- _ => injection H as H; subst
  end.

(** Linear arithmetic with division and remainder by constants. *)
Ltac divlia := Z.to_euclidean_division_equations; lia.

Create HintDb scenery.

(** ** Lemmas shared by the components *)
Section stable_sort_lemmas.
Context {A : Type} (before : A -> A -> bool).

Lemma insert_stable_perm x l : insert_stable before x l ≡ₚ x :: l.
Proof.
  induction l as [|y l IH]; simpl; [done|].
  destruct (before y x); [|done]. rewrite IH. apply Permutation_swap.
Qed.

Lemma sort_stable_perm l : sort_stable before l ≡ₚ l.
Proof.
  induction l as [|x l IH]; simpl; [done|]. by rewrite insert_stable_perm, IH.
Qed.

(** [not_after x y] is the order the sort establishes: [y] is not before [x]. *)
Definition not_after (x y : A) : Prop := before y x = false.

Context (before_asym : forall x y, before x y = true -> before y x = false)
        (before_neg_trans : forall x y z,
            before y x = false -> before z y = false -> before z x = false).

Lemma insert_stable_sorted x l :
  StronglySorted not_after l -> StronglySorted not_after (insert_stable before x l).
Proof.
  intros Hl. induction Hl as [|y l Hl IH Hy]; simpl.
  - by repeat constructor.
  - destruct (before y x) eqn:E.
    + constructor; [done|]. rewrite insert_stable_perm. constructor; [|done].
      by apply before_asym.
    + constructor; [by constructor|]. constructor; [done|].
      eapply Forall_impl; [exact Hy|]. intros z Hz. red in Hz |- *.
      eapply before_neg_trans; eauto.
Qed.

Lemma sort_stable_sorted l : StronglySorted not_after (sort_stable before l).
Proof. induction l; simpl; [constructor|by apply insert_stable_sorted]. Qed.

Lemma insert_stable_head x l :
  Forall (not_after x) l -> insert_stable before x l = x :: l.
Proof. intros Hl. destruct Hl as [|y l Hy Hl]; simpl; [done|]. by rewrite Hy. Qed.

Lemma sort_stable_id l : StronglySorted not_after l -> sort_stable before l = l.
Proof.
  induction 1 as [|x l Hl IH Hx]; simpl; [done|]. rewrite IH. by apply insert_stable_head.
Qed.

(** Sorting a list with one element appended places the element after those it
    is not before; so sorting again after every append is sorting once. *)
Fixpoint insert_after (x : A) (l : list A) : list A :=
  match l with
  | [] => [x]
  | y :: l' => if before x y then x :: y :: l' else y :: insert_after x l'
  end.

Lemma before_trans x y z : before x y = true -> before y z = true -> before x z = true.
Proof.
  intros Hxy Hyz. apply not_false_iff_true. intros Hxz. apply before_asym in Hyz.
  rewrite (before_neg_trans y z x Hyz Hxz) in Hxy. done.
Qed.

Lemma insert_stable_after x y l :
  insert_stable before y (insert_after x l) = insert_after x (insert_stable before y l).
Proof.
  induction l as [|z l IH]; simpl; [by destruct (before x y)|].
  destruct (before x z) eqn:Hxz; simpl; destruct (before z y) eqn:Hzy; simpl.
  - by rewrite (before_trans x z y), ?Hxz, ?Hzy.
  - by destruct (before x y); simpl; rewrite ?Hzy, ?Hxz.
  - by rewrite ?Hxz, IH.
  - by rewrite (before_neg_trans y z x), ?Hxz.
Qed.

Lemma sort_stable_snoc l x : sort_stable before (l ++ [x]) = insert_after x (sort_stable before l).
Proof.
  induction l as [|y l IH]; simpl; [done|]. by rewrite IH, insert_stable_after.
Qed.

Lemma sort_stable_resort l x :
  sort_stable before (sort_stable before l ++ [x]) = sort_stable before (l ++ [x]).
Proof.
  rewrite !sort_stable_snoc. f_equal. apply sort_stable_id, sort_stable_sorted.
Qed.
End stable_sort_lemmas.

(** ** [sort.Slice]

    The package sort does not say in which order it leaves elements that are
    equal, so it is any function that returns a sorted permutation. *)
Class SliceSort := {
  slice_sort : forall A, (A -> A -> bool) -> list A -> list A;
  slice_sort_perm : forall A before (l : list A), slice_sort A before l ≡ₚ l;
  slice_sort_sorted : forall A (before : A -> A -> bool) (l : list A),
    (forall x y, before x y = true -> before y x = false) ->
    (forall x y z, before y x = false -> before z y = false -> before z x = false) ->
    StronglySorted (not_after before) (slice_sort A before l)
}.
Arguments slice_sort {_ A} _ _.

Definition stable_slice_sort : SliceSort := {|
  slice_sort := @sort_stable;
  slice_sort_perm := @sort_stable_perm;
  slice_sort_sorted := fun A before l Ha Ht => sort_stable_sorted before Ha Ht l
|}.

(** The strict byte order on Go strings. *)
Definition str_lt (a b : string) : bool := String.ltb a b.

Lemma str_compare_refl a : (a ?= a)%string = Eq.
Proof.
  induction a as [|c a IH]; simpl; [done|].
  unfold Ascii.compare. by rewrite N.compare_refl.
Qed.

Lemma str_lt_spec a b : str_lt a b = true <-> String.le a b /\ a <> b.
Proof.
  unfold str_lt, String.ltb, String.le, String.leb. split.
  - intros E. destruct (a ?= b)%string eqn:C; try done. split; [done|].
    intros ->. by rewrite str_compare_refl in C.
  - intros [Hle Hne]. destruct (a ?= b)%string eqn:C; try done.
    by apply String.compare_eq_iff in C.
Qed.

Lemma str_lt_irrefl a : str_lt a a = false.
Proof. apply not_true_iff_false. rewrite str_lt_spec. by intros [_ ?]. Qed.

Lemma str_lt_asym a b : str_lt a b = true -> str_lt b a = false.
Proof.
  rewrite str_lt_spec. intros [Hab Hne]. apply not_true_iff_false.
  rewrite str_lt_spec. intros [Hba _]. by apply Hne, (anti_symm String.le).
Qed.

Lemma str_lt_trans a b c : str_lt a b = true -> str_lt b c = true -> str_lt a c = true.
Proof.
  rewrite !str_lt_spec. intros [Hab Hab'] [Hbc Hbc']. split; [by etrans|].
  intros ->. by apply Hab', (anti_symm String.le).
Qed.

Lemma str_lt_total a b : str_lt a b = true \/ a = b \/ str_lt b a = true.
Proof.
  destruct (decide (a = b)) as [->|Hne]; [auto|].
  rewrite !str_lt_spec. destruct (total String.le a b); [left|right; right]; auto using not_eq_sym.
Qed.

Lemma str_lt_neg_trans a b c :
  str_lt b a = false -> str_lt c b = false -> str_lt c a = false.
Proof.
  intros Hba Hcb. apply not_true_iff_false. intros Hca.
  destruct (str_lt_total b c) as [E|[->|E]]; [|congruence..].
  rewrite (str_lt_trans b c a) in Hba by done. done.
Qed.

(** Comparing by a string first, then by [rest], keeps the laws of an order. *)
Section by_key.
Context {A : Type} (key : A -> string) (rest : A -> A -> bool).

Definition by_key (a b : A) : bool :=
  if negb (String.eqb (key a) (key b)) then str_lt (key a) (key b) else rest a b.

Lemma by_key_asym : (forall a b, rest a b = true -> rest b a = false) ->
  forall a b, by_key a b = true -> by_key b a = false.
Proof.
  intros Hr a b. unfold by_key. rewrite (String.eqb_sym (key b)).
  destruct (String.eqb_spec (key a) (key b)); simpl; [apply Hr|apply str_lt_asym].
Qed.

Lemma by_key_neg_trans : (forall a b c, rest b a = false -> rest c b = false -> rest c a = false) ->
  forall a b c, by_key b a = false -> by_key c b = false -> by_key c a = false.
Proof.
  intros Hr a b c. unfold by_key.
  destruct (String.eqb_spec (key b) (key a)) as [Eb|Eb], (String.eqb_spec (key c) (key b)) as [Ec|Ec],
    (String.eqb_spec (key c) (key a)) as [E|E]; simpl; try congruence.
  - apply Hr.
  - intros H1 H2. destruct (str_lt_total (key a) (key b)) as [E1|[E1|E1]]; congruence.
  - apply str_lt_neg_trans.
Qed.
End by_key.

(** Iterating over the keys of a Go map visits them in an unspecified order:
    steps that commute make the result independent of it. *)
Lemma fold_left_perm {A B} (f : B -> A -> B) (l l' : list A) b :
  (forall b x y, f (f b x) y = f (f b y) x) -> l ≡ₚ l' -> fold_left f l b = fold_left f l' b.
Proof.
  intros Hf Hl. revert b. induction Hl as [|x l l' _ IH|x y l|l l' l'' _ IH _ IH']; intros b; simpl.
  - done.
  - apply IH.
  - by rewrite Hf.
  - by rewrite IH.
Qed.

Lemma fold_left_inv {A B} (P : B -> Prop) (f : B -> A -> B) (l : list A) b :
  P b -> (forall b x, x ∈ l -> P b -> P (f b x)) -> P (fold_left f l b).
Proof.
  revert b. induction l as [|x l IH]; intros b Hb Hf; simpl; [done|].
  apply IH; [apply Hf; [by left|done]|]. intros b' y Hy. apply Hf. by right.
Qed.

(** Storing the entries of a map one by one gives the map. *)
Lemma fold_left_insert {A} (l : list (string * A)) (acc : gmap string A) :
  NoDup (l.*1) ->
  fold_left (fun m e => <[e.1 := e.2]> m) l acc = list_to_map l ∪ acc.
Proof.
  revert acc. induction l as [|[k v] l IH]; intros acc Hnd; simpl.
  - by rewrite (left_id_L ∅ (∪)).
  - apply NoDup_cons in Hnd as [Hk Hnd]. rewrite IH by done.
    rewrite <- insert_union_l, insert_union_r; [done|]. by apply not_elem_of_list_to_map_1.
Qed.

Lemma fold_left_entries {A} (l : list (string * A)) (m : gmap string A) :
  l ≡ₚ map_to_list m -> fold_left (fun m e => <[e.1 := e.2]> m) l ∅ = m.
Proof.
  intros Hl. rewrite fold_left_insert by (rewrite Hl; apply NoDup_fst_map_to_list).
  rewrite (right_id_L ∅ (∪)), (list_to_map_proper l (map_to_list m)); [apply list_to_map_to_list| |done].
  rewrite Hl. apply NoDup_fst_map_to_list.
Qed.

Lemma NoDup_map_inj {A B} (f : A -> B) (l : list A) x y :
  NoDup (map f l) -> x ∈ l -> y ∈ l -> f x = f y -> x = y.
Proof.
  induction l as [|z l IH]; intros Hnd Hx Hy E; [by apply elem_of_nil in Hx|].
  simpl in Hnd. apply NoDup_cons in Hnd as [Hz Hnd].
  assert (forall w, w ∈ l -> f w ∈ map f l) as Hin by (intros; by apply list_elem_of_fmap_2).
  apply elem_of_cons in Hx as [->|Hx]; apply elem_of_cons in Hy as [->|Hy]; auto.
  - destruct Hz. rewrite E. by apply Hin.
  - destruct Hz. rewrite <- E. by apply Hin.
Qed.

Lemma slice_app {A} (pre mid suf : list A) :
  slice (pre ++ mid ++ suf) (length pre) (length pre + length mid) = Ret mid.
Proof.
  unfold slice. rewrite (proj2 (Nat.leb_le _ _)) by lia.
  rewrite (proj2 (Nat.leb_le _ _)) by (rewrite !length_app; lia). simpl.
  rewrite drop_app_length. replace (length pre + length mid - length pre)%nat with (length mid) by lia.
  by rewrite take_app_length.
Qed.

Lemma slice_Ret {A} (l r : list A) i j :
  slice l i j = Ret r -> (i <= j <= length l)%nat /\ r = take (j - i) (drop i l).
Proof.
  unfold slice. destruct (Nat.leb_spec i j); simpl; [|done].
  destruct (Nat.leb_spec j (length l)); [|done]. intros [= <-]. split; [lia|done].
Qed.

Lemma slice_ok {A} (l : list A) i j :
  (i <= j <= length l)%nat -> slice l i j = Ret (take (j - i) (drop i l)).
Proof.
  intros Hij. unfold slice. by rewrite !(proj2 (Nat.leb_le _ _)) by lia.
Qed.

Lemma wrap_uint_bound w z : 0 <= w -> 0 <= wrap_uint w z < 2 ^ w.
Proof. intros. apply Z.mod_pos_bound. lia. Qed.

Lemma wrap_int_id w z : 0 < w -> - 2 ^ (w - 1) <= z < 2 ^ (w - 1) -> wrap_int w z = z.
Proof.
  intros Hw Hz. unfold wrap_int.
  assert (2 ^ w = 2 * 2 ^ (w - 1)) as E.
  { rewrite <- Z.pow_succ_r by lia. f_equal. lia. }
  rewrite Z.mod_small by lia. lia.
Qed.

Lemma wrap_int_uint w z :
  0 < w -> - 2 ^ (w - 1) <= z < 2 ^ (w - 1) -> wrap_int w (wrap_uint w z) = z.
Proof.
  intros Hw Hz. unfold wrap_uint. rewrite <- (wrap_int_id w z) at 2 by done.
  unfold wrap_int. rewrite Z.add_mod_idemp_l by lia. done.
Qed.

#[export] Hint Resolve wrap_uint_bound : scenery.
