(* ===== verification/GoStrings.v ===== *)
(** * Go strings: bytes, runes and the parts of [strings], [unicode], [utf8] and
    [strconv] that the modelled packages call

    A Go string is a finite sequence of bytes and is modelled by [string]; a
    rune is a [Z].  Everything about ASCII and about UTF-8 is spelled out; the
    Unicode character database beyond ASCII (case mapping, letters, digits) is
    the class [UnicodeTables], so every theorem holds for every version of it.

    The functions carry the names of the Go functions they model, in the
    modules [Strings] and [Strconv]. *)
From stdpp Require Import base tactics list gmap strings pretty.
From Stdlib Require Import ZArith Lia Ascii.
From S2P Require Import Prelude.

Definition code (c : ascii) : Z := Z.of_N (N_of_ascii c).
Definition chr (z : Z) : ascii := ascii_of_N (Z.to_N z).

Definition in_range (lo hi z : Z) : bool := (lo <=? z) && (z <=? hi).

(** ** Unicode *)

(** The entries of Go's [unicode] tables for runes above 0x7F: [ToLower],
    [ToUpper], a representative of the [SimpleFold] orbit, [IsLetter],
    [IsDigit], [IsUpper] and [IsLower]. *)
Class UnicodeTables := {
  uni_lower : Z -> Z;
  uni_upper : Z -> Z;
  uni_fold : Z -> Z;
  uni_is_letter : Z -> bool;
  uni_is_digit : Z -> bool;
  uni_is_upper : Z -> bool;
  uni_is_lower : Z -> bool
}.

(** Tables without an entry above ASCII, used to evaluate examples. *)
Definition ascii_tables : UnicodeTables :=
  {| uni_lower := id; uni_upper := id; uni_fold := id;
     uni_is_letter := fun _ => false; uni_is_digit := fun _ => false;
     uni_is_upper := fun _ => false; uni_is_lower := fun _ => false |}.

Module Unicode.
Section unicode.
Context `{UnicodeTables}.

Definition ToLower (r : Z) : Z :=
  if r <? 128 then if in_range 65 90 r then r + 32 else r else uni_lower r.

Definition ToUpper (r : Z) : Z :=
  if r <? 128 then if in_range 97 122 r then r - 32 else r else uni_upper r.

(** A canonical member of the [SimpleFold] orbit of [r]. *)
Definition Fold (r : Z) : Z :=
  if r <? 128 then if in_range 65 90 r then r + 32 else r else uni_fold r.

Definition IsLetter (r : Z) : bool :=
  if r <? 128 then in_range 65 90 r || in_range 97 122 r else uni_is_letter r.

Definition IsDigit (r : Z) : bool :=
  if r <? 128 then in_range 48 57 r else uni_is_digit r.

Definition IsUpper (r : Z) : bool :=
  if r <? 128 then in_range 65 90 r else uni_is_upper r.

Definition IsLower (r : Z) : bool :=
  if r <? 128 then in_range 97 122 r else uni_is_lower r.
End unicode.

(** [unicode.IsSpace]: the White_Space property, which is small enough to list. *)
Definition IsSpace (r : Z) : bool :=
  in_range 9 13 r || (r =? 32) || (r =? 133) || (r =? 160) || (r =? 5760)
  || in_range 8192 8202 r || (r =? 8232) || (r =? 8233) || (r =? 8239)
  || (r =? 8287) || (r =? 12288).
End Unicode.

(** ** UTF-8 *)
Module Utf8.
Definition RuneError : Z := 65533.

Definition cont (c : ascii) : bool := in_range 128 191 (code c).

(** The decoders of a sequence of two, three and four bytes; [None] when the
    bytes are not a valid encoding (overlong forms and surrogates included). *)
Definition dec2 (b0 b1 : ascii) : option Z :=
  if in_range 194 223 (code b0) && cont b1
  then Some (Z.land (code b0) 31 * 64 + Z.land (code b1) 63) else None.

Definition dec3 (b0 b1 b2 : ascii) : option Z :=
  let lo := if code b0 =? 224 then 160 else 128 in
  let hi := if code b0 =? 237 then 159 else 191 in
  if in_range 224 239 (code b0) && in_range lo hi (code b1) && cont b2
  then Some (Z.land (code b0) 15 * 4096 + Z.land (code b1) 63 * 64 + Z.land (code b2) 63)
  else None.

Definition dec4 (b0 b1 b2 b3 : ascii) : option Z :=
  let lo := if code b0 =? 240 then 144 else 128 in
  let hi := if code b0 =? 244 then 143 else 191 in
  if in_range 240 244 (code b0) && in_range lo hi (code b1) && cont b2 && cont b3
  then Some (Z.land (code b0) 7 * 262144 + Z.land (code b1) 63 * 4096
             + Z.land (code b2) 63 * 64 + Z.land (code b3) 63)
  else None.

(** [range s]: the runes of a string; an invalid byte is [RuneError], width 1. *)
Fixpoint runes (s : string) : list Z :=
  match s with
  | EmptyString => []
  | String b0 s1 =>
    if code b0 <? 128 then code b0 :: runes s1
    else match s1 with
    | EmptyString => RuneError :: runes s1
    | String b1 s2 =>
      match dec2 b0 b1 with
      | Some r => r :: runes s2
      | None =>
        match s2 with
        | EmptyString => RuneError :: runes s1
        | String b2 s3 =>
          match dec3 b0 b1 b2 with
          | Some r => r :: runes s3
          | None =>
            match s3 with
            | EmptyString => RuneError :: runes s1
            | String b3 s4 =>
              match dec4 b0 b1 b2 b3 with
              | Some r => r :: runes s4
              | None => RuneError :: runes s1
              end
            end
          end
        end
      end
    end
  end.

(** [utf8.DecodeRuneInString] of a string that is not empty: the rune and the
    rest. *)
Definition decode_rune (b0 : ascii) (s1 : string) : Z * string :=
  if code b0 <? 128 then (code b0, s1)
  else match s1 with
  | EmptyString => (RuneError, s1)
  | String b1 s2 =>
    match dec2 b0 b1, s2 with
    | Some r, _ => (r, s2)
    | None, EmptyString => (RuneError, s1)
    | None, String b2 s3 =>
      match dec3 b0 b1 b2, s3 with
      | Some r, _ => (r, s3)
      | None, EmptyString => (RuneError, s1)
      | None, String b3 s4 =>
        match dec4 b0 b1 b2 b3 with
        | Some r => (r, s4)
        | None => (RuneError, s1)
        end
      end
    end
  end.

(** [utf8.ValidRune]. *)
Definition ValidRune (r : Z) : bool := in_range 0 55295 r || in_range 57344 1114111 r.

(** [utf8.AppendRune]. *)
Definition encode_rune (r : Z) : string :=
  let bad := String (chr 239) (String (chr 191) (String (chr 189) "")) in
  if r <? 0 then bad
  else if r <? 128 then String (chr r) ""
  else if r <? 2048 then
    String (chr (192 + Z.shiftr r 6)) (String (chr (128 + Z.land r 63)) "")
  else if in_range 55296 57343 r || (1114111 <? r) then bad
  else if r <? 65536 then
    String (chr (224 + Z.shiftr r 12))
      (String (chr (128 + Z.land (Z.shiftr r 6) 63)) (String (chr (128 + Z.land r 63)) ""))
  else
    String (chr (240 + Z.shiftr r 18))
      (String (chr (128 + Z.land (Z.shiftr r 12) 63))
        (String (chr (128 + Z.land (Z.shiftr r 6) 63)) (String (chr (128 + Z.land r 63)) ""))).

Fixpoint encode (rs : list Z) : string :=
  match rs with
  | [] => ""
  | r :: rs' => encode_rune r +:+ encode rs'
  end.
End Utf8.

(** ** Package strings *)
Module Strings.
Fixpoint sdrop (n : nat) (s : string) : string :=
  match n, s with
  | O, _ => s
  | S n', EmptyString => ""
  | S n', String _ s' => sdrop n' s'
  end.

Fixpoint stake (n : nat) (s : string) : string :=
  match n, s with
  | O, _ => ""
  | S n', EmptyString => ""
  | S n', String c s' => String c (stake n' s')
  end.

Fixpoint HasPrefix (s p : string) {struct p} : bool :=
  match p with
  | EmptyString => true
  | String c p' =>
    match s with
    | EmptyString => false
    | String d s' => Ascii.eqb d c && HasPrefix s' p'
    end
  end.

Definition TrimPrefix (s p : string) : string :=
  if HasPrefix s p then sdrop (String.length p) s else s.

Definition CutPrefix (s p : string) : string * bool :=
  if HasPrefix s p then (sdrop (String.length p) s, true) else (s, false).

Fixpoint HasSuffix (s suf : string) : bool :=
  String.eqb s suf ||
  match s with
  | EmptyString => false
  | String _ s' => HasSuffix s' suf
  end.

Fixpoint TrimSuffix (s suf : string) : string :=
  if String.eqb s suf then ""
  else match s with
  | EmptyString => ""
  | String c s' => String c (TrimSuffix s' suf)
  end.

(** The text before and after the first occurrence of [sep]. *)
Fixpoint cut_opt (s sep : string) : option (string * string) :=
  if HasPrefix s sep then Some ("", sdrop (String.length sep) s)
  else match s with
  | EmptyString => None
  | String c s' =>
    match cut_opt s' sep with
    | Some (a, b) => Some (String c a, b)
    | None => None
    end
  end.

Definition Cut (s sep : string) : string * string * bool :=
  match cut_opt s sep with
  | Some (a, b) => (a, b, true)
  | None => (s, "", false)
  end.

Definition Index (s sep : string) : Z :=
  match cut_opt s sep with
  | Some (a, _) => Z.of_nat (String.length a)
  | None => -1
  end.

Definition Contains (s sep : string) : bool :=
  match cut_opt s sep with Some _ => true | None => false end.

(** [strings.Split] for a separator of one byte. *)
Fixpoint Split (s : string) (sep : ascii) : list string :=
  match s with
  | EmptyString => [""]
  | String c s' =>
    if Ascii.eqb c sep then "" :: Split s' sep
    else match Split s' sep with
    | [] => [String c ""]
    | h :: t => String c h :: t
    end
  end.

Fixpoint Join (l : list string) (sep : string) : string :=
  match l with
  | [] => ""
  | [x] => x
  | x :: l' => x +:+ sep +:+ Join l' sep
  end.

(** [strings.Trim] for a cutset of ASCII bytes. *)
Fixpoint TrimLeftSet (f : ascii -> bool) (s : string) : string :=
  match s with
  | EmptyString => ""
  | String c s' => if f c then TrimLeftSet f s' else s
  end.

Fixpoint TrimRightSet (f : ascii -> bool) (s : string) : string :=
  match s with
  | EmptyString => ""
  | String c s' =>
    let t := TrimRightSet f s' in
    if f c && String.eqb t "" then "" else String c t
  end.

Definition TrimSet (f : ascii -> bool) (s : string) : string :=
  TrimRightSet f (TrimLeftSet f s).

(** [strings.Trim(s, c)] for a cutset of one byte. *)
Definition Trim (s : string) (c : ascii) : string := TrimSet (Ascii.eqb c) s.

Definition space1 (c : ascii) : bool := in_range 9 13 (code c) || (code c =? 32).
Definition space2 (c d : ascii) : bool :=
  match Utf8.dec2 c d with Some r => Unicode.IsSpace r | None => false end.
Definition space3 (c d e : ascii) : bool :=
  match Utf8.dec3 c d e with Some r => Unicode.IsSpace r | None => false end.

(** [strings.TrimLeftFunc(s, unicode.IsSpace)]: no white-space rune has an
    encoding of four bytes. *)
Fixpoint TrimLeftSpace (s : string) : string :=
  match s with
  | EmptyString => ""
  | String c s1 =>
    if space1 c then TrimLeftSpace s1
    else match s1 with
    | EmptyString => s
    | String d s2 =>
      if space2 c d then TrimLeftSpace s2
      else match s2 with
      | EmptyString => s
      | String e s3 => if space3 c d e then TrimLeftSpace s3 else s
      end
    end
  end.

(** [strings.TrimRightFunc(s, unicode.IsSpace)]: the longest suffix made of
    white-space runes is removed. *)
Fixpoint TrimRightSpace (s : string) : string :=
  match s with
  | EmptyString => ""
  | String c s' =>
    if String.eqb (TrimLeftSpace s) "" then "" else String c (TrimRightSpace s')
  end.

Definition TrimSpace (s : string) : string := TrimRightSpace (TrimLeftSpace s).

Definition push_field (w : string) (ws : list string) : list string :=
  if String.eqb w "" then ws else w :: ws.

Fixpoint fields_aux (s : string) : string * list string :=
  match s with
  | EmptyString => ("", [])
  | String c s1 =>
    let plain := let '(w, ws) := fields_aux s1 in (String c w, ws) in
    if space1 c then let '(w, ws) := fields_aux s1 in ("", push_field w ws)
    else match s1 with
    | EmptyString => plain
    | String d s2 =>
      if space2 c d then let '(w, ws) := fields_aux s2 in ("", push_field w ws)
      else match s2 with
      | EmptyString => plain
      | String e s3 =>
        if space3 c d e then let '(w, ws) := fields_aux s3 in ("", push_field w ws)
        else plain
      end
    end
  end.

Definition Fields (s : string) : list string :=
  let '(w, ws) := fields_aux s in push_field w ws.

(** [strings.ReplaceAll] for a non-empty [old]. *)
Fixpoint replace_from (skip : nat) (s old new : string) : string :=
  match s with
  | EmptyString => ""
  | String c s' =>
    match skip with
    | S k => replace_from k s' old new
    | O =>
      if HasPrefix s old
      then new +:+ replace_from (pred (String.length old)) s' old new
      else String c (replace_from O s' old new)
    end
  end.

Definition ReplaceAll (s old new : string) : string := replace_from O s old new.

Section casing.
Context `{UnicodeTables}.

(** Invalid bytes become the encoding of [RuneError], as [strings.Map] does. *)
Definition ToLower (s : string) : string :=
  Utf8.encode (map Unicode.ToLower (Utf8.runes s)).

Definition ToUpper (s : string) : string :=
  Utf8.encode (map Unicode.ToUpper (Utf8.runes s)).

Definition EqualFold (s t : string) : bool :=
  bool_decide (map Unicode.Fold (Utf8.runes s) = map Unicode.Fold (Utf8.runes t)).
End casing.
(** ** Splitting and joining *)
Fixpoint has_byte (c : ascii) (s : string) : bool :=
  match s with
  | EmptyString => false
  | String d s' => Ascii.eqb d c || has_byte c s'
  end.

Lemma Split_not_nil s sep : Split s sep <> [].
Proof.
  induction s as [|c s IH]; simpl; [done|]. destruct (Ascii.eqb c sep); [done|].
  by destruct (Split s sep).
Qed.

Lemma Split_no_byte s sep : Forall (fun x => has_byte sep x = false) (Split s sep).
Proof.
  induction s as [|c s IH]; simpl; [by repeat constructor|].
  destruct (Ascii.eqb c sep) eqn:E; [by constructor|].
  destruct (Split s sep) as [|h t]; [repeat constructor; simpl; by rewrite E|].
  inversion_clear IH as [|? ? Hh Ht]. constructor; [|done]. simpl. by rewrite E.
Qed.

Lemma Join_Split s sep : Join (Split s sep) (String sep "") = s.
Proof.
  induction s as [|c s IH]; simpl; [done|].
  pose proof (Split_not_nil s sep) as Hne.
  destruct (Ascii.eqb_spec c sep) as [->|_].
  - destruct (Split s sep) as [|h t]; [done|]. simpl in *. by rewrite IH.
  - destruct (Split s sep) as [|h t]; [done|]. rewrite <- IH. by destruct t.
Qed.

Lemma string_app_cons c (s s' : string) : String c s +:+ s' = String c (s +:+ s').
Proof. done. Qed.

Lemma string_app_nil_r (s : string) : s +:+ "" = s.
Proof. induction s as [|c s IH]; [done|]. by rewrite string_app_cons, IH. Qed.

Lemma string_app_assoc (a b c : string) : (a +:+ b) +:+ c = a +:+ (b +:+ c).
Proof. induction a as [|d a IH]; [done|]. by rewrite !string_app_cons, IH. Qed.

Lemma Split_app x s sep :
  has_byte sep x = false ->
  Split (x +:+ s) sep = match Split s sep with [] => [x] | h :: t => (x +:+ h) :: t end.
Proof.
  pose proof (Split_not_nil s sep) as Hne.
  induction x as [|c x IH]; [intros _; by destruct (Split s sep) eqn:E|].
  rewrite string_app_cons. simpl. rewrite orb_false_iff. intros [-> Hx]. rewrite (IH Hx).
  by destruct (Split s sep).
Qed.

Lemma Split_sep s sep : Split (String sep s) sep = "" :: Split s sep.
Proof. simpl. by rewrite Ascii.eqb_refl. Qed.

Lemma Split_Join l sep :
  l <> [] -> Forall (fun x => has_byte sep x = false) l -> Split (Join l (String sep "")) sep = l.
Proof.
  induction l as [|x l IH]; intros Hne Hl; [done|]. inversion_clear Hl as [|? ? Hx Hl'].
  destruct l as [|y l].
  - simpl. rewrite <- (string_app_nil_r x) at 1. rewrite Split_app by done. simpl.
    by rewrite string_app_nil_r.
  - change (Join (x :: y :: l) (String sep "")) with (x +:+ String sep (Join (y :: l) (String sep ""))).
    rewrite Split_app, Split_sep, IH by done. by rewrite string_app_nil_r.
Qed.

(** ** Prefixes *)
Lemma HasPrefix_iff s p : HasPrefix s p = true <-> exists r, s = p +:+ r.
Proof.
  revert s. induction p as [|c p IH]; intros s.
  - split; [by exists s|]. by destruct s.
  - destruct s as [|d s]; simpl.
    + split; [done|]. by intros [r ?].
    + rewrite andb_true_iff, Ascii.eqb_eq, IH. split.
      * intros [-> [r ->]]. by exists r.
      * intros [r E]. rewrite string_app_cons in E. simplify_eq. eauto.
Qed.

Lemma sdrop_app p s : sdrop (String.length p) (p +:+ s) = s.
Proof. by induction p as [|c p IH]. Qed.

Lemma TrimPrefix_app p s : TrimPrefix (p +:+ s) p = s.
Proof.
  unfold TrimPrefix. rewrite (proj2 (HasPrefix_iff _ _)) by eauto. apply sdrop_app.
Qed.

(** Two prefixes of a string that have the same length are equal. *)
Lemma prefix_same_length s p q :
  HasPrefix s p = true -> HasPrefix s q = true -> String.length p = String.length q -> p = q.
Proof.
  revert p q. induction s as [|c s IH]; intros [|d p] [|e q]; simpl; try done.
  rewrite !andb_true_iff, !Ascii.eqb_eq. intros [-> Hp] [-> Hq] [= E]. f_equal. by apply IH.
Qed.

#[global] Arguments HasPrefix : simpl never.

(** ** Trimming *)
Lemma TrimRightSet_idemp f s : TrimRightSet f (TrimRightSet f s) = TrimRightSet f s.
Proof.
  induction s as [|c s IH]; simpl; [done|].
  destruct (f c && String.eqb (TrimRightSet f s) "") eqn:E; [done|]. simpl. by rewrite IH, E.
Qed.

Lemma TrimRightSet_tail f c s : TrimRightSet f (String c s) = String c s -> TrimRightSet f s = s.
Proof. simpl. destruct (f c && _); [done|]. by intros [= ->]. Qed.

Lemma TrimRightSet_app f a b :
  TrimRightSet f b <> "" -> TrimRightSet f (a +:+ b) = a +:+ TrimRightSet f b.
Proof.
  intros Hb. induction a as [|c a IH]; [done|]. rewrite !string_app_cons. simpl. rewrite IH.
  replace (String.eqb (a +:+ TrimRightSet f b) "") with false; [by rewrite andb_false_r|].
  symmetry. apply String.eqb_neq. destruct a; [done|]. done.
Qed.

Lemma TrimRightSet_no_byte sep s :
  has_byte sep s = false -> TrimRightSet (Ascii.eqb sep) s = s.
Proof.
  induction s as [|c s IH]; simpl; [done|]. rewrite orb_false_iff, Ascii.eqb_sym. intros [-> Hs].
  simpl. by rewrite IH.
Qed.

Lemma Split_last s sep :
  s <> "" -> TrimRightSet (Ascii.eqb sep) s = s -> last (Split s sep) <> Some "".
Proof.
  induction s as [|c s IH]; [done|]. intros _ Ht.
  pose proof (TrimRightSet_tail _ _ _ Ht) as Ht'. cbn [Split].
  destruct s as [|d s].
  - simpl in *. rewrite andb_true_r in Ht. rewrite Ascii.eqb_sym. by destruct (Ascii.eqb sep c).
  - specialize (IH ltac:(done) Ht'). pose proof (Split_not_nil (String d s) sep).
    destruct (Ascii.eqb c sep).
    + destruct (Split (String d s) sep); done.
    + by destruct (Split (String d s) sep) as [|h [|h' t]].
Qed.

Lemma Trim_Join l sep :
  Forall (fun x => x <> "" /\ has_byte sep x = false) l ->
  Trim (Join l (String sep "")) sep = Join l (String sep "").
Proof.
  intros Hl. unfold Trim, TrimSet.
  assert (TrimLeftSet (Ascii.eqb sep) (Join l (String sep "")) = Join l (String sep "")) as ->.
  { destruct Hl as [|x l [Hx Hs] _]; [done|]. destruct x as [|c x]; [done|].
    destruct l; simpl in *; apply orb_false_iff in Hs as [Hs _]; by rewrite Ascii.eqb_sym, Hs. }
  induction Hl as [|x l [Hx Hs] Hl IH]; [done|]. destruct l as [|y l].
  - by apply TrimRightSet_no_byte.
  - change (Join (x :: y :: l) (String sep "")) with (x +:+ (String sep "" +:+ Join (y :: l) (String sep ""))).
    inversion_clear Hl as [|? ? [Hy _] _].
    assert (Join (y :: l) (String sep "") <> "") as Hne.
    { destruct y; [done|]. by destruct l. }
    assert (TrimRightSet (Ascii.eqb sep) (String sep "" +:+ Join (y :: l) (String sep ""))
            = String sep "" +:+ Join (y :: l) (String sep "")) as E
      by (rewrite TrimRightSet_app, IH; [done|by rewrite IH]).
    rewrite TrimRightSet_app; rewrite E; done.
Qed.
(** ** White space *)

(** The text after one leading white-space rune. *)
Definition space_step (s : string) : option string :=
  match s with
  | EmptyString => None
  | String c s1 =>
    if space1 c then Some s1
    else match s1 with
    | EmptyString => None
    | String d s2 =>
      if space2 c d then Some s2
      else match s2 with
      | EmptyString => None
      | String e s3 => if space3 c d e then Some s3 else None
      end
    end
  end.

Lemma TrimLeftSpace_step s :
  TrimLeftSpace s = match space_step s with Some r => TrimLeftSpace r | None => s end.
Proof.
  destruct s as [|c s1]; [done|]. simpl. destruct (space1 c); [done|].
  destruct s1 as [|d s2]; [done|]. destruct (space2 c d); [done|].
  destruct s2 as [|e s3]; [done|]. by destruct (space3 c d e).
Qed.

Lemma space_step_length s r : space_step s = Some r -> (String.length r < String.length s)%nat.
Proof.
  destruct s as [|c s1]; [done|]. simpl. destruct (space1 c); [intros [= ->]; lia|].
  destruct s1 as [|d s2]; [done|]. destruct (space2 c d); [intros [= ->]; simpl; lia|].
  destruct s2 as [|e s3]; [done|]. destruct (space3 c d e); [intros [= ->]; simpl; lia|done].
Qed.

Lemma space_step_app s r w : space_step s = Some r -> space_step (s +:+ w) = Some (r +:+ w).
Proof.
  destruct s as [|c s1]; [done|]. rewrite string_app_cons. simpl. destruct (space1 c); [by intros [= ->]|].
  destruct s1 as [|d s2]; [done|]. rewrite string_app_cons. destruct (space2 c d); [by intros [= ->]|].
  destruct s2 as [|e s3]; [done|]. rewrite string_app_cons. destruct (space3 c d e); [by intros [= ->]|done].
Qed.

Lemma space_step_prefix s w : space_step (s +:+ w) = None -> space_step s = None.
Proof. intros H. destruct (space_step s) eqn:E; [|done]. by rewrite (space_step_app _ _ w E) in H. Qed.

Lemma string_length_ind (P : string -> Prop) :
  (forall s, (forall r, (String.length r < String.length s)%nat -> P r) -> P s) -> forall s, P s.
Proof.
  intros H s. assert (forall n r, (String.length r < n)%nat -> P r) as Hn; [|by apply (Hn (S (String.length s))); lia].
  induction n as [|n IH]; intros r Hr; [lia|]. apply H. intros r' Hr'. apply IH. lia.
Qed.

Lemma TrimLeftSpace_app s w : TrimLeftSpace s = "" -> TrimLeftSpace (s +:+ w) = TrimLeftSpace w.
Proof.
  induction s as [s IH] using string_length_ind. rewrite TrimLeftSpace_step.
  destruct (space_step s) as [r|] eqn:E; [|by intros ->].
  intros Hr. rewrite TrimLeftSpace_step, (space_step_app _ _ _ E).
  apply IH; [by apply space_step_length|done].
Qed.

Lemma TrimLeftSpace_no_step s : space_step (TrimLeftSpace s) = None.
Proof.
  induction s as [s IH] using string_length_ind. rewrite TrimLeftSpace_step.
  destruct (space_step s) as [r|] eqn:E; [|done]. apply IH. by apply space_step_length.
Qed.

Lemma TrimLeftSpace_id s : space_step s = None -> TrimLeftSpace s = s.
Proof. intros E. by rewrite TrimLeftSpace_step, E. Qed.

Lemma TrimRightSpace_suffix s : exists w, s = TrimRightSpace s +:+ w /\ TrimLeftSpace w = "".
Proof.
  induction s as [|c s [w [E Hw]]]; [by exists ""|]. cbn [TrimRightSpace].
  destruct (String.eqb_spec (TrimLeftSpace (String c s)) "") as [H|_]; [by exists (String c s)|].
  exists w. by rewrite string_app_cons, <- E.
Qed.

Lemma TrimRightSpace_idemp s : TrimRightSpace (TrimRightSpace s) = TrimRightSpace s.
Proof.
  induction s as [|c s IH]; [done|]. cbn [TrimRightSpace].
  destruct (String.eqb_spec (TrimLeftSpace (String c s)) "") as [_|Hne]; [done|].
  cbn [TrimRightSpace]. rewrite IH.
  destruct (String.eqb_spec (TrimLeftSpace (String c (TrimRightSpace s))) "") as [H|_]; [|done].
  destruct (TrimRightSpace_suffix s) as (w & E & Hw). rewrite E, <- string_app_cons in Hne.
  by rewrite TrimLeftSpace_app in Hne.
Qed.

Lemma TrimSpace_idemp s : TrimSpace (TrimSpace s) = TrimSpace s.
Proof.
  unfold TrimSpace. rewrite (TrimLeftSpace_id (TrimRightSpace (TrimLeftSpace s))); [apply TrimRightSpace_idemp|].
  destruct (TrimRightSpace_suffix (TrimLeftSpace s)) as (w & E & _).
  apply (space_step_prefix _ w). rewrite <- E. apply TrimLeftSpace_no_step.
Qed.

Lemma TrimSpace_space s : TrimSpace (String " " s) = TrimSpace s.
Proof. done. Qed.

Lemma has_byte_app c a b : has_byte c (a +:+ b) = has_byte c a || has_byte c b.
Proof. induction a as [|d a IH]; [done|]. rewrite string_app_cons. simpl. by rewrite IH, orb_assoc. Qed.

Lemma has_byte_TrimLeftSpace c s : has_byte c s = false -> has_byte c (TrimLeftSpace s) = false.
Proof.
  induction s as [s IH] using string_length_ind. intros Hs. rewrite TrimLeftSpace_step.
  destruct (space_step s) as [r|] eqn:E; [|done]. apply IH; [by apply space_step_length|].
  destruct s as [|a s1]; [done|]. simpl in E, Hs. apply orb_false_iff in Hs as [_ Hs].
  destruct (space1 a); [by simplify_eq|].
  destruct s1 as [|b s2]; [done|]. simpl in Hs. apply orb_false_iff in Hs as [_ Hs].
  destruct (space2 a b); [by simplify_eq|].
  destruct s2 as [|d s3]; [done|]. simpl in Hs. apply orb_false_iff in Hs as [_ Hs].
  destruct (space3 a b d); by simplify_eq.
Qed.

Lemma has_byte_TrimSpace c s : has_byte c s = false -> has_byte c (TrimSpace s) = false.
Proof.
  intros Hs%has_byte_TrimLeftSpace. unfold TrimSpace.
  destruct (TrimRightSpace_suffix (TrimLeftSpace s)) as (w & E & _). rewrite E, has_byte_app in Hs.
  by apply orb_false_iff in Hs as [? _].
Qed.
(** ** Cutting *)
Lemma cut_opt_Some s sep a b : cut_opt s sep = Some (a, b) -> s = a +:+ sep +:+ b.
Proof.
  revert a b. induction s as [|c s IH]; intros a b; cbn [cut_opt].
  - destruct (HasPrefix "" sep) eqn:E; [|done]. intros [= <- <-].
    apply HasPrefix_iff in E as [r E]. destruct sep; [|done]. by destruct r.
  - destruct (HasPrefix (String c s) sep) eqn:E.
    + intros [= <- <-]. apply HasPrefix_iff in E as [r E]. by rewrite E, (sdrop_app sep r).
    + destruct (cut_opt s sep) as [[a' b']|]; [|done]. intros [= <- <-].
      by rewrite string_app_cons, <- (IH a' b').
Qed.

(** The cut is at the first occurrence: any other leaves a shorter rest. *)
Lemma cut_opt_first s sep a' b' :
  s = a' +:+ sep +:+ b' -> exists a b g, cut_opt s sep = Some (a, b) /\ b = g +:+ b'.
Proof.
  revert a'. induction s as [|c s IH]; intros a' E.
  - destruct a'; [|done]. destruct sep; [|done]. destruct b'; [|done]. by exists "", "", "".
  - cbn [cut_opt]. destruct (HasPrefix (String c s) sep) eqn:Hp.
    + apply HasPrefix_iff in Hp as [r Hr]. rewrite Hr, (sdrop_app sep r).
      assert (exists g, r = g +:+ b') as [g ->]; [|by exists "", (g +:+ b'), g].
      rewrite E in Hr. clear -Hr. revert a' r Hr. induction sep as [|d sep IHs]; intros a' r Hr.
      * exists a'. symmetry. exact Hr.
      * destruct a' as [|c a'].
        -- exists "". revert Hr. clear. change ("" +:+ ?x) with x. generalize (String d sep) as w.
           intros w Hr. induction w as [|e w IHw]; [by symmetry|].
           rewrite !string_app_cons in Hr. injection Hr as Hr. auto.
        -- rewrite !string_app_cons in Hr; injection Hr as ? Hr. subst. apply (IHs (a' +:+ String d "")).
           by rewrite string_app_assoc, string_app_cons.
    + destruct a' as [|d a'].
      * exfalso. assert (HasPrefix (String c s) sep = true) as Ht by (apply HasPrefix_iff; by exists b').
        congruence.
      * rewrite string_app_cons in E. injection E as <- E.
        destruct (IH a' E) as (a & b & g & -> & ->). by exists (String c a), (g +:+ b'), g.
Qed.

Lemma HasSuffix_iff s suf : HasSuffix s suf = true <-> exists p, s = p +:+ suf.
Proof.
  induction s as [|c s IH]; cbn [HasSuffix].
  - rewrite orb_false_r, String.eqb_eq. split; [intros <-; by exists ""|].
    intros [[|d p] E]; [done|]. by rewrite string_app_cons in E.
  - rewrite orb_true_iff, String.eqb_eq, IH. split.
    + intros [<-|[p ->]]; [by exists ""|by exists (String c p)].
    + intros [[|d p] E]; [by left|]. rewrite string_app_cons in E. injection E as <- ->. right. by exists p.
Qed.

(** ** Visible ASCII text has no white space to trim *)
Definition visible (c : ascii) : bool := in_range 33 126 (code c).

Fixpoint all_bytes (f : ascii -> bool) (s : string) : bool :=
  match s with
  | EmptyString => true
  | String c s' => f c && all_bytes f s'
  end.

Lemma all_bytes_app f a b : all_bytes f (a +:+ b) = all_bytes f a && all_bytes f b.
Proof. induction a as [|c a IH]; [done|]. rewrite string_app_cons. simpl. by rewrite IH, andb_assoc. Qed.

Lemma all_bytes_impl (f g : ascii -> bool) s :
  (forall c, f c = true -> g c = true) -> all_bytes f s = true -> all_bytes g s = true.
Proof. intros H. induction s as [|c s IH]; [done|]. simpl. rewrite !andb_true_iff. intros [? ?]. auto. Qed.

Lemma all_bytes_no_byte f c s : f c = false -> all_bytes f s = true -> has_byte c s = false.
Proof.
  intros Hf. induction s as [|d s IH]; [done|]. simpl. rewrite andb_true_iff. intros [Hd Hs].
  rewrite (IH Hs), orb_false_r. apply Ascii.eqb_neq. congruence.
Qed.

Lemma visible_step c s : visible c = true -> space_step (String c s) = None.
Proof.
  intros Hc. cut (space1 c = false /\ (forall d, space2 c d = false) /\ (forall d e, space3 c d e = false)).
  { intros (H1 & H2 & H3). simpl. rewrite H1. destruct s as [|d s]; [done|]. rewrite H2.
    destruct s as [|e s]; [done|]. by rewrite H3. }
  revert Hc. destruct c as [[] [] [] [] [] [] [] []]; first [discriminate 1|intros _; repeat split; reflexivity].
Qed.

Lemma TrimSpace_visible s : all_bytes visible s = true -> TrimSpace s = s.
Proof.
  intros Hs. unfold TrimSpace. rewrite TrimLeftSpace_id.
  - induction s as [|c s IH]; [done|]. simpl in Hs. apply andb_true_iff in Hs as [Hc Hs].
    cbn [TrimRightSpace]. rewrite TrimLeftSpace_id by (by apply visible_step).
    rewrite (proj2 (String.eqb_neq _ _)) by done. by rewrite IH.
  - destruct s as [|c s]; [done|]. simpl in Hs. apply andb_true_iff in Hs as [Hc _]. by apply visible_step.
Qed.

End Strings.

(** ** Package strconv *)
Module Strconv.
Inductive NumError := ErrSyntax | ErrRange.

Definition digit (c : ascii) : option Z :=
  if in_range 48 57 (code c) then Some (code c - 48) else None.

Fixpoint parse_uint_loop (s : string) (n maxVal : Z) : outcome NumError Z :=
  match s with
  | EmptyString => Ret n
  | String c s' =>
    match digit c with
    | None => Fail ErrSyntax
    | Some d =>
      let n1 := n * 10 + d in
      if maxVal <? n1 then Fail ErrRange else parse_uint_loop s' n1 maxVal
    end
  end.

(** [strconv.ParseUint(s, 10, bits)]. *)
Definition ParseUint (s : string) (bits : Z) : outcome NumError Z :=
  if String.eqb s "" then Fail ErrSyntax
  else parse_uint_loop s 0 (2 ^ bits - 1).

(** [strconv.ParseInt(s, 10, bits)]. *)
Definition ParseInt (s : string) (bits : Z) : outcome NumError Z :=
  match s with
  | EmptyString => Fail ErrSyntax
  | String c s' =>
    let neg := Ascii.eqb c "-" in
    let body := if neg || Ascii.eqb c "+" then s' else s in
    match ParseUint body bits with
    | Ret un =>
      let cutoff := 2 ^ (bits - 1) in
      if negb neg && (cutoff <=? un) then Fail ErrRange
      else if neg && (cutoff <? un) then Fail ErrRange
      else Ret (if neg then - un else un)
    | Fail e => Fail e
    | Panic m => Panic m
    end
  end.

(** [int] is 64 bits wide on the supported platforms. *)
Definition Atoi (s : string) : outcome NumError Z := ParseInt s 64.

Definition ParseBool (s : string) : outcome NumError bool :=
  if bool_decide (s ∈ ["1"; "t"; "T"; "TRUE"; "true"; "True"]) then Ret true
  else if bool_decide (s ∈ ["0"; "f"; "F"; "FALSE"; "false"; "False"]) then Ret false
  else Fail ErrSyntax.

Definition Itoa (z : Z) : string := pretty z.

(** *** [strconv.Unquote] of a text in double quotes *)
Definition unhex (c : ascii) : option Z :=
  if in_range 48 57 (code c) then Some (code c - 48)
  else if in_range 97 102 (code c) then Some (code c - 97 + 10)
  else if in_range 65 70 (code c) then Some (code c - 65 + 10)
  else None.

Fixpoint hex_value (n : nat) (s : string) (v : Z) : option (Z * string) :=
  match n, s with
  | O, _ => Some (v, s)
  | S _, EmptyString => None
  | S n', String c s' => match unhex c with Some x => hex_value n' s' (v * 16 + x) | None => None end
  end.

Definition octal_digit (c : ascii) : option Z :=
  if in_range 48 55 (code c) then Some (code c - 48) else None.

Definition quote_byte : ascii := chr 34.

(** [strconv.UnquoteChar] for the double quote: the value, whether it takes several bytes,
    and the rest; [None] is [ErrSyntax]. *)
Definition UnquoteChar (s : string) : option (Z * bool * string) :=
  match s with
  | EmptyString => None
  | String c s1 =>
    if Ascii.eqb c quote_byte then None
    else if 128 <=? code c then let '(r, rest) := Utf8.decode_rune c s1 in Some (r, true, rest)
    else if negb (Ascii.eqb c "\") then Some (code c, false, s1)
    else match s1 with
    | EmptyString => None
    | String e s2 =>
      if Ascii.eqb e "a" then Some (7, false, s2)
      else if Ascii.eqb e "b" then Some (8, false, s2)
      else if Ascii.eqb e "f" then Some (12, false, s2)
      else if Ascii.eqb e "n" then Some (10, false, s2)
      else if Ascii.eqb e "r" then Some (13, false, s2)
      else if Ascii.eqb e "t" then Some (9, false, s2)
      else if Ascii.eqb e "v" then Some (11, false, s2)
      else if Ascii.eqb e "x" then
        match hex_value 2 s2 0 with Some (v, rest) => Some (v, false, rest) | None => None end
      else if Ascii.eqb e "u" || Ascii.eqb e "U" then
        match hex_value (if Ascii.eqb e "u" then 4 else 8) s2 0 with
        | Some (v, rest) => if Utf8.ValidRune v then Some (v, true, rest) else None
        | None => None
        end
      else if in_range 48 55 (code e) then
        match s2 with
        | String d1 (String d2 rest) =>
          match octal_digit d1, octal_digit d2 with
          | Some x1, Some x2 =>
            let v := ((code e - 48) * 8 + x1) * 8 + x2 in
            if 255 <? v then None else Some (v, false, rest)
          | _, _ => None
          end
        | _ => None
        end
      else if Ascii.eqb e "\" then Some (92, false, s2)
      else if Ascii.eqb e quote_byte then Some (34, false, s2)
      else None
    end
  end.

(** The loop of [strconv.unquote] up to the closing quote: [None] when the fuel
    runs out, [Some None] is [ErrSyntax]. *)
Fixpoint unquote_loop (fuel : nat) (s buf : string) : option (option (string * string)) :=
  match fuel with
  | O => None
  | S fuel' =>
    match s with
    | EmptyString => Some None
    | String c s1 =>
      if Ascii.eqb c quote_byte then Some (Some (buf, s1))
      else if code c =? 10 then Some None
      else match UnquoteChar s with
      | None => Some None
      | Some (r, multibyte, rest) =>
        unquote_loop fuel' rest
          (buf +:+ (if (r <? 128) || negb multibyte then String (chr r) "" else Utf8.encode_rune r))
      end
    end
  end.

Definition Unquote (s : string) : option string :=
  match s with
  | EmptyString => None
  | String _ s1 =>
    match unquote_loop (String.length s) s1 "" with
    | Some (Some (out, rest)) => if String.eqb rest "" then Some out else None
    | _ => None
    end
  end.

Lemma parse_uint_loop_bounds s n maxVal z :
  0 <= n -> n <= maxVal -> parse_uint_loop s n maxVal = Ret z -> 0 <= z <= maxVal.
Proof.
  revert n. induction s as [|c s IH]; intros n Hn Hm E; cbn [parse_uint_loop] in E.
  - injection E as <-. done.
  - unfold digit in E. destruct (in_range 48 57 (code c)) eqn:Hr; [|done].
    unfold in_range in Hr. apply andb_true_iff in Hr as [Hlo Hhi].
    destruct (Z.ltb_spec maxVal (n * 10 + (code c - 48))); [done|]. apply IH in E; lia.
Qed.

Lemma ParseUint_bounds s bits z : 0 <= bits -> ParseUint s bits = Ret z -> 0 <= z < 2 ^ bits.
Proof.
  intros Hb E. unfold ParseUint in E. destruct (String.eqb s ""); [done|].
  pose proof (Z.pow_pos_nonneg 2 bits). apply parse_uint_loop_bounds in E; lia.
Qed.

Lemma ParseInt_bounds s bits z : 0 < bits -> ParseInt s bits = Ret z -> - 2 ^ (bits - 1) <= z < 2 ^ (bits - 1).
Proof.
  intros Hb. unfold ParseInt. destruct s as [|c s]; [done|].
  destruct (ParseUint _ bits) as [un|e|m] eqn:E; [|done..]. apply ParseUint_bounds in E; [|lia].
  pose proof (Z.pow_pos_nonneg 2 (bits - 1)).
  destruct (Ascii.eqb c "-"); cbn [negb andb].
  - destruct (Z.ltb_spec (2 ^ (bits - 1)) un); [done|]. intros [= <-]. lia.
  - destruct (Z.leb_spec (2 ^ (bits - 1)) un); [done|]. intros [= <-]. lia.
Qed.

(** *** Parsing inverts printing *)
Lemma digit_pretty x : (x < 10)%N -> digit (pretty_N_char x) = Some (Z.of_N x).
Proof.
  intros Hx. assert (x = 0 \/ x = 1 \/ x = 2 \/ x = 3 \/ x = 4 \/ x = 5 \/ x = 6 \/ x = 7 \/ x = 8 \/ x = 9)%N
    as Hc by lia. by destruct Hc as [->|[->|[->|[->|[->|[->|[->|[->|[->| ->]]]]]]]]].
Qed.

Lemma parse_pretty_go x s maxVal : (0 < x)%N ->
  parse_uint_loop (pretty_N_go x s) 0 maxVal =
    if maxVal <? Z.of_N x then Fail ErrRange else parse_uint_loop s (Z.of_N x) maxVal.
Proof.
  revert s. induction (N.lt_wf_0 x) as [x _ IH]; intros s Hx. rewrite pretty_N_go_step by done.
  assert (Z.of_N x = Z.of_N (x `div` 10) * 10 + Z.of_N (x `mod` 10))%Z as Ex.
  { rewrite N2Z.inj_div, N2Z.inj_mod. divlia. }
  pose proof (N.mod_lt x 10).
  destruct (decide (x `div` 10 = 0)%N) as [E|E].
  - rewrite E, pretty_N_go_0. cbn [parse_uint_loop]. rewrite digit_pretty by lia.
    rewrite E in Ex. simpl in Ex. by rewrite <- Ex.
  - rewrite IH; [|by apply N.div_lt|lia]. cbn [parse_uint_loop]. rewrite digit_pretty by lia. rewrite <- Ex.
    destruct (Z.ltb_spec maxVal (Z.of_N (x `div` 10))), (Z.ltb_spec maxVal (Z.of_N x)); try done.
    pose proof (N2Z.is_nonneg (x `div` 10)). pose proof (N2Z.is_nonneg (x `mod` 10)). nia.
Qed.

Lemma pretty_go_not_empty x s : s <> "" -> pretty_N_go x s <> "".
Proof.
  revert s. induction (N.lt_wf_0 x) as [x _ IH]; intros s Hs.
  destruct (decide (0 < x)%N) as [Hx|Hx].
  - rewrite pretty_N_go_step by done. by apply IH; [apply N.div_lt|].
  - by replace x with 0%N by lia.
Qed.

Lemma ParseUint_pretty (x : N) bits : (Z.of_N x < 2 ^ bits)%Z -> ParseUint (pretty x) bits = Ret (Z.of_N x).
Proof.
  intros Hx. unfold ParseUint, pretty, pretty_N. case_decide as E.
  { subst. change (Z.of_N 0) with 0 in *. 
    change (parse_uint_loop "0" 0 (2 ^ bits - 1) = Ret 0). cbn [parse_uint_loop].
    change (digit "0") with (Some 0). cbv iota zeta. by rewrite (proj2 (Z.ltb_ge _ _)) by lia. }
  destruct (String.eqb_spec (pretty_N_go x "") "") as [En|_].
  - rewrite pretty_N_go_step in En by lia. by apply pretty_go_not_empty in En.
  - rewrite parse_pretty_go by lia. by rewrite (proj2 (Z.ltb_ge _ _)) by lia.
Qed.

Lemma ParseUint_Itoa z bits : 0 <= z < 2 ^ bits -> ParseUint (Itoa z) bits = Ret z.
Proof.
  intros Hz. replace (Itoa z) with (pretty (Z.to_N z)) by (unfold Itoa; by destruct z; [..|lia]).
  rewrite ParseUint_pretty by lia. f_equal. lia.
Qed.

Lemma ParseUint_head c s bits z : ParseUint (String c s) bits = Ret z -> Ascii.eqb c "-" = false /\ Ascii.eqb c "+" = false.
Proof.
  unfold ParseUint. simpl. intros E. split; apply Ascii.eqb_neq; by intros ->.
Qed.

Lemma ParseInt_Itoa z bits : 0 < bits -> - 2 ^ (bits - 1) <= z < 2 ^ (bits - 1) -> ParseInt (Itoa z) bits = Ret z.
Proof.
  intros Hb Hz. assert (2 ^ bits = 2 * 2 ^ (bits - 1)) as E2.
  { rewrite <- Z.pow_succ_r by lia. f_equal. lia. }
  destruct (decide (0 <= z)) as [Hp|Hp].
  - pose proof (ParseUint_Itoa z bits ltac:(lia)) as E. unfold ParseInt.
    destruct (Itoa z) as [|c s] eqn:Es; [done|]. destruct (ParseUint_head _ _ _ _ E) as [-> ->].
    simpl. rewrite E. simpl. by rewrite (proj2 (Z.leb_gt _ _)) by lia.
  - destruct z as [|p|p]; [lia..|]. change (Itoa (Z.neg p)) with (String "-" (pretty (N.pos p))).
    unfold ParseInt. simpl. rewrite ParseUint_pretty by lia. simpl.
    by rewrite (proj2 (Z.ltb_ge _ _)) by lia.
Qed.

Lemma Atoi_bounds s z : Atoi s = Ret z -> - 2 ^ 63 <= z < 2 ^ 63.
Proof. by apply (ParseInt_bounds s 64). Qed.

Lemma decode_rune_length b0 s1 r rest :
  Utf8.decode_rune b0 s1 = (r, rest) -> (String.length rest <= String.length s1)%nat.
Proof.
  unfold Utf8.decode_rune. intros E.
  repeat (match goal with _ => progress simplify_eq/= | _ => break_match end); lia.
Qed.

Lemma hex_value_length n s v r rest :
  hex_value n s v = Some (r, rest) -> (String.length rest <= String.length s)%nat.
Proof.
  revert s v. induction n as [|n IH]; intros s v; simpl; [intros; by simplify_eq|].
  destruct s as [|c s]; [done|]. destruct (unhex c); [|done]. intros E%IH. simpl. lia.
Qed.

Lemma UnquoteChar_length s r m rest :
  UnquoteChar s = Some (r, m, rest) -> (String.length rest < String.length s)%nat.
Proof.
  unfold UnquoteChar. destruct s as [|c s1]; [done|]. destruct (Ascii.eqb c quote_byte); [done|].
  destruct (128 <=? code c).
  { destruct (Utf8.decode_rune c s1) as [r' rest'] eqn:E. intros [= <- <- <-].
    apply decode_rune_length in E. simpl. lia. }
  destruct (negb _); [intros [= <- <- <-]; simpl; lia|]. destruct s1 as [|e s2]; [done|].
  repeat match goal with
  | |- (if ?b then Some _ else _) = _ -> _ => destruct b; [intros [= <- <- <-]; simpl; lia|]
  end.
  destruct (Ascii.eqb e "x").
  { destruct (hex_value 2 s2 0) as [[v t]|] eqn:E; [|done]. intros [= <- <- <-].
    apply hex_value_length in E. simpl. lia. }
  destruct (_ || _).
  { destruct (hex_value _ s2 0) as [[v t]|] eqn:E; [|done]. destruct (Utf8.ValidRune v); [|done].
    intros [= <- <- <-]. apply hex_value_length in E. simpl. lia. }
  destruct (in_range 48 55 (code e)).
  { destruct s2 as [|d1 [|d2 t]]; [done..|]. destruct (octal_digit d1), (octal_digit d2); try done.
    destruct (255 <? _); [done|]. intros [= <- <- <-]. simpl. lia. }
  repeat match goal with
  | |- (if ?b then Some _ else _) = _ -> _ => destruct b; [intros [= <- <- <-]; simpl; lia|]
  end.
  done.
Qed.

(** The fuel of [Unquote] suffices. *)
Lemma unquote_loop_total fuel s buf : (String.length s < fuel)%nat -> is_Some (unquote_loop fuel s buf).
Proof.
  revert s buf. induction fuel as [|fuel IH]; intros s buf Hf; [lia|]. cbn [unquote_loop].
  destruct s as [|c s1]; [by eexists|]. destruct (Ascii.eqb c quote_byte); [by eexists|].
  destruct (code c =? 10); [by eexists|].
  destruct (UnquoteChar (String c s1)) as [[[r m] rest]|] eqn:E; [|by eexists].
  apply IH. apply UnquoteChar_length in E. lia.
Qed.
End Strconv.

(** ** Package path/filepath on Unix *)
Module Filepath.
Definition IsAbs (p : string) : bool := Strings.HasPrefix p "/".

(** One element of a path pushed on the reversed stack of elements kept. *)
Definition push_elem (rooted : bool) (stack : list string) (e : string) : list string :=
  if String.eqb e "" || String.eqb e "." then stack
  else if String.eqb e ".." then
    match stack with
    | [] => if rooted then [] else [".."]
    | top :: rest => if String.eqb top ".." then ".." :: stack else rest
    end
  else e :: stack.

Definition Clean (p : string) : string :=
  if String.eqb p "" then "."
  else
    let rooted := IsAbs p in
    let elems := rev (fold_left (push_elem rooted) (Strings.Split p "/") []) in
    let body := Strings.Join elems "/" in
    if rooted then "/" +:+ body else if String.eqb body "" then "." else body.

(** [filepath.Join]: the non-empty elements joined and cleaned. *)
Definition Join (elems : list string) : string :=
  match List.filter (fun e => negb (String.eqb e "")) elems with
  | [] => ""
  | es => Clean (Strings.Join es "/")
  end.

(** [filepath.Abs] with the working directory [cwd]. *)
Definition Abs (cwd p : string) : string := if IsAbs p then Clean p else Join [cwd; p].

Definition Base (p : string) : string :=
  if String.eqb p "" then "."
  else
    let trimmed := Strings.TrimRightSet (Ascii.eqb "/") p in
    if String.eqb trimmed "" then "/"
    else List.last (Strings.Split trimmed "/") "".

(** The text from the last dot of the last element on. *)
Fixpoint ext_opt (p : string) : option string :=
  match p with
  | EmptyString => None
  | String c p' =>
    match ext_opt p' with
    | Some e => Some e
    | None => if Ascii.eqb c "." && negb (Strings.has_byte "/" p') then Some p else None
    end
  end.

Definition Ext (p : string) : string := default "" (ext_opt p).

(** ** Cleaning is idempotent *)

(** A stack that rebuilds itself when its elements are pushed again. *)
Inductive stable (rooted : bool) : list string -> Prop :=
| stable_nil : stable rooted []
| stable_cons e st : stable rooted st -> Strings.has_byte "/" e = false -> e <> "" ->
    push_elem rooted st e = e :: st -> stable rooted (e :: st).

Lemma stable_push rooted st e :
  stable rooted st -> Strings.has_byte "/" e = false -> stable rooted (push_elem rooted st e).
Proof.
  intros Hst He. destruct (push_elem rooted st e) as [|e' st'] eqn:E; [constructor|].
  unfold push_elem in E. destruct (String.eqb_spec e "") as [->|Hne]; simpl in E; [by rewrite <- E|].
  destruct (String.eqb_spec e ".") as [->|Hdot]; simpl in E; [by rewrite <- E|].
  destruct (String.eqb_spec e "..") as [->|Hdd].
  - destruct Hst as [|top st Hst Ht Htn Hp].
    + destruct rooted; [done|]. simplify_eq. by repeat constructor.
    + destruct (String.eqb top "..") eqn:Etop; simplify_eq; [|done].
      constructor; [by constructor|done|done|]. unfold push_elem. simpl. by rewrite Etop.
  - simplify_eq. constructor; [done|done|done|]. unfold push_elem.
    by rewrite (proj2 (String.eqb_neq _ _) Hne), (proj2 (String.eqb_neq _ _) Hdot),
      (proj2 (String.eqb_neq _ _) Hdd).
Qed.

Lemma stable_fold rooted l st :
  stable rooted st -> Forall (fun e => Strings.has_byte "/" e = false) l ->
  stable rooted (fold_left (push_elem rooted) l st).
Proof.
  intros Hst Hl. revert st Hst. induction Hl as [|e l He Hl IH]; intros st Hst; simpl; [done|].
  apply IH. by apply stable_push.
Qed.

Lemma stable_rebuild rooted st : stable rooted st -> fold_left (push_elem rooted) (rev st) [] = st.
Proof.
  induction 1 as [|e st Hst IH He Hne Hp]; [done|]. simpl. by rewrite fold_left_app, IH.
Qed.

Lemma stable_elems rooted st :
  stable rooted st -> Forall (fun e => e <> "" /\ Strings.has_byte "/" e = false) (rev st).
Proof.
  intros Hst. apply Forall_rev. induction Hst; constructor; auto.
Qed.

Lemma split_elems rooted st :
  stable rooted st ->
  fold_left (push_elem rooted) (Strings.Split (Strings.Join (rev st) "/") "/") [] = st.
Proof.
  intros Hst. pose proof (stable_elems _ _ Hst) as Hel. destruct (rev st) as [|e es] eqn:E.
  - apply (f_equal (@rev _)) in E. rewrite rev_involutive in E. subst. done.
  - rewrite Strings.Split_Join; [|done|by eapply Forall_impl; [done|]; intros ? [? ?]].
    rewrite <- E. by apply stable_rebuild.
Qed.

Lemma Join_not_abs rooted st : stable rooted st -> IsAbs (Strings.Join (rev st) "/") = false.
Proof.
  intros Hst. pose proof (stable_elems _ _ Hst) as Hel. destruct (rev st) as [|e es]; [done|].
  inversion_clear Hel as [|? ? [Hne Hs] _]. destruct e as [|c e]; [done|].
  apply not_true_iff_false. unfold IsAbs. rewrite Strings.HasPrefix_iff. intros [r Hr].
  apply orb_false_iff in Hs as [Hc _]. apply Ascii.eqb_neq in Hc.
  destruct es; [|rewrite Strings.string_app_cons in Hr]; simpl in Hr; rewrite ?Strings.string_app_cons in Hr;
    by injection Hr as ->.
Qed.

Lemma Clean_idemp p : Clean (Clean p) = Clean p.
Proof.
  unfold Clean at 2 3. destruct (String.eqb_spec p "") as [->|Hne]; [done|].
  set (st := fold_left (push_elem (IsAbs p)) (Strings.Split p "/") []).
  assert (stable (IsAbs p) st) as Hst.
  { apply stable_fold; [constructor|apply Strings.Split_no_byte]. }
  clearbody st. destruct (IsAbs p) eqn:Ha.
  - unfold Clean. rewrite (proj2 (String.eqb_neq _ _)) by done.
    replace (IsAbs ("/" +:+ Strings.Join (rev st) "/")) with true by done.
    change ("/" +:+ Strings.Join (rev st) "/") with (String "/" (Strings.Join (rev st) "/")).
    rewrite Strings.Split_sep. cbn [fold_left].
    change (push_elem true [] "") with (@nil string). by rewrite split_elems.
  - destruct (String.eqb_spec (Strings.Join (rev st) "/") "") as [E|E]; [done|].
    unfold Clean. rewrite (proj2 (String.eqb_neq _ _) E), (Join_not_abs _ _ Hst), split_elems by done.
    by rewrite (proj2 (String.eqb_neq _ _) E).
Qed.

Lemma Clean_Abs cwd p : Abs cwd p <> "" -> Clean (Abs cwd p) = Abs cwd p.
Proof.
  unfold Abs, Join. destruct (IsAbs p); [intros _; apply Clean_idemp|].
  destruct (List.filter _ _) as [|e es]; [done|]. intros _. apply Clean_idemp.
Qed.
End Filepath.

(** ** [net.SplitHostPort] *)
Module Net.
(** The text before and after the last colon. *)
Fixpoint last_colon (s : string) : option (string * string) :=
  match s with
  | EmptyString => None
  | String c s' =>
    match last_colon s' with
    | Some (a, b) => Some (String c a, b)
    | None => if Ascii.eqb c ":" then Some ("", s') else None
    end
  end.

Definition SplitHostPort (hostport : string) : option (string * string) :=
  match last_colon hostport with
  | None => None
  | Some (host, port) =>
    if Strings.HasPrefix hostport "[" then
      match Strings.cut_opt hostport "]" with
      | None => None
      | Some (before, after) =>
        (** the colon has to follow the bracket and be the last one *)
        if String.eqb after (":" +:+ port) then
          let h := Strings.sdrop 1 before in
          if Strings.Contains h "[" || Strings.Contains port "[" || Strings.Contains port "]" then None
          else Some (h, port)
        else None
      end
    else if Strings.Contains host ":" then None
    else if Strings.Contains hostport "[" || Strings.Contains hostport "]" then None
    else Some (host, port)
  end.
(** ** [net.ParseIP]: the four or sixteen bytes of an address *)
Fixpoint ipv4_loop (s : string) (val : Z) (digits : nat) (fields : list Z) : option (list Z) :=
  match s with
  | EmptyString => if (length fields =? 3)%nat then Some (fields ++ [val]) else None
  | String c s' =>
    if in_range 48 57 (code c) then
      if (digits =? 1)%nat && (val =? 0) then None
      else
        let val := val * 10 + (code c - 48) in
        if 255 <? val then None else ipv4_loop s' val (S digits) fields
    else if Ascii.eqb c "." then
      (** a dot follows a digit, precedes one, and there are three of them *)
      if (digits =? 0)%nat || String.eqb s' "" || (length fields =? 3)%nat then None
      else ipv4_loop s' 0 0 (fields ++ [val])
    else None
  end.

Definition parseIPv4 (s : string) : option (list Z) := ipv4_loop s 0 0 [].

Definition hex_digit (c : ascii) : option Z :=
  if in_range 48 57 (code c) then Some (code c - 48)
  else if in_range 97 102 (code c) then Some (code c - 87)
  else if in_range 65 70 (code c) then Some (code c - 55)
  else None.

(** A group of one to four hexadecimal digits, and the text after it. *)
Fixpoint hex_group (n : nat) (s : string) (acc : Z) (off : nat) : option (Z * string) :=
  match s with
  | EmptyString => if (off =? 0)%nat then None else Some (acc, s)
  | String c s' =>
    match hex_digit c with
    | Some d => match n with O => None | S n => hex_group n s' (acc * 16 + d) (S off) end
    | None => if (off =? 0)%nat then None else Some (acc, s)
    end
  end.

(** What the groups leave: the bytes read and where the ellipsis stands. *)
Fixpoint ipv6_loop (groups : nat) (s : string) (ip : list Z) (ellipsis : option nat)
  : option (list Z * option nat * string) :=
  match groups with
  | O => Some (ip, ellipsis, s)
  | S groups =>
    match hex_group 4 s 0 0 with
    | None => None
    | Some (acc, rest) =>
      if Strings.HasPrefix rest "." then
        if match ellipsis with None => negb (length ip =? 12)%nat | Some _ => false end then None
        else if (12 <? length ip)%nat then None
        else match parseIPv4 s with
        | None => None
        | Some fields => Some (ip ++ fields, ellipsis, "")
        end
      else
        let ip := ip ++ [acc / 256; acc mod 256] in
        match rest with
        | EmptyString => Some (ip, ellipsis, "")
        | String c rest =>
          if negb (Ascii.eqb c ":") || String.eqb rest "" then None
          else match rest with
          | String ":" rest =>
            match ellipsis with
            | Some _ => None
            | None => if String.eqb rest "" then Some (ip, Some (length ip), "")
                      else ipv6_loop groups rest ip (Some (length ip))
            end
          | _ => ipv6_loop groups rest ip ellipsis
          end
        end
    end
  end.

Definition parseIPv6 (s : string) : option (list Z) :=
  let '(ellipsis, s') := if Strings.HasPrefix s "::" then (Some O, Strings.sdrop 2 s) else (None, s) in
  if bool_decide (ellipsis = Some O) && String.eqb s' "" then Some (repeat 0 16)
  else match ipv6_loop 8 s' [] ellipsis with
  | Some (ip, ellipsis, EmptyString) =>
    if (length ip <? 16)%nat then
      match ellipsis with
      | None => None
      | Some e => Some (take e ip ++ repeat 0 (16 - length ip)%nat ++ drop e ip)
      end
    else match ellipsis with None => Some ip | Some _ => None end
  | _ => None
  end.

(** The first dot or colon tells the versions apart; a zone is not accepted. *)
Fixpoint ip_version (s : string) : option bool :=
  match s with
  | EmptyString => None
  | String c s' =>
    if Ascii.eqb c "." then Some false
    else if Ascii.eqb c ":" then Some true
    else if Ascii.eqb c "%" then None else ip_version s'
  end.

Definition ParseIP (s : string) : option (list Z) :=
  match ip_version s with
  | Some false => parseIPv4 s
  | Some true => if Strings.Contains s "%" then None else parseIPv6 s
  | None => None
  end.

(** [IP.IsLoopback]: 127.0.0.0/8, also written as an IPv6 address, or ::1. *)
Definition IsLoopback (ip : list Z) : bool :=
  match ip with
  | [a; _; _; _] => a =? 127
  | _ => if bool_decide (take 12 ip = repeat 0 10 ++ [255; 255]) then default 0 (ip !! 12%nat) =? 127
         else bool_decide (ip = repeat 0 15 ++ [1])
  end.

Example ParseIP_examples :
  ParseIP "127.0.0.1" = Some [127; 0; 0; 1] /\ ParseIP "127.00.0.1" = None /\ ParseIP "127.0.0.256" = None
  /\ ParseIP ".1.2.3" = None /\ ParseIP "1.2.3." = None /\ ParseIP "1..2.3" = None /\ ParseIP "1.2.3.4.5" = None
  /\ ParseIP "::1" = Some (repeat 0 15 ++ [1]) /\ ParseIP "::" = Some (repeat 0 16)
  /\ ParseIP "fe80::1%eth0" = None /\ ParseIP "1:2:3:4:5:6:7:8:9" = None
  /\ ParseIP "::ffff:127.0.0.1" = Some (repeat 0 10 ++ [255; 255; 127; 0; 0; 1])
  /\ ParseIP "2001:db8::ff" = Some ([32; 1; 13; 184] ++ repeat 0 11 ++ [255]) /\ ParseIP "localhost" = None
  /\ IsLoopback <$> ParseIP "::ffff:127.9.0.1" = Some true /\ IsLoopback <$> ParseIP "128.0.0.1" = Some false.
Proof. vm_compute. repeat split. Qed.
End Net.

(** ** UTF-8: decoding inverts encoding *)
Module Utf8Facts.
Import Utf8.
Lemma code_of_chr z : 0 <= z < 256 -> code (chr z) = z.
Proof. intros. unfold code, chr. rewrite N_ascii_embedding by lia. lia. Qed.

Lemma land_low r n : 0 <= n -> Z.land r (2 ^ n - 1) = r mod 2 ^ n.
Proof. intros. rewrite <- Z.land_ones, Z.ones_equiv by lia. done. Qed.

Lemma in_range_true lo hi z : lo <= z <= hi -> in_range lo hi z = true.
Proof. intros. unfold in_range. lia. Qed.

Lemma in_range_false lo hi z : z < lo \/ hi < z -> in_range lo hi z = false.
Proof. intros. unfold in_range. lia. Qed.

(** The bit masks of the decoder are remainders. *)
Ltac masks :=
  change 63 with (2 ^ 6 - 1) in *; change 31 with (2 ^ 5 - 1) in *;
  change 15 with (2 ^ 4 - 1) in *; change 7 with (2 ^ 3 - 1) in *;
  rewrite ?land_low, ?Z.shiftr_div_pow2 by lia;
  change (2 ^ 3) with 8 in *; change (2 ^ 4) with 16 in *; change (2 ^ 5) with 32 in *;
  change (2 ^ 6) with 64 in *; change (2 ^ 12) with 4096 in *; change (2 ^ 18) with 262144 in *.

Lemma dec2_encode r : 128 <= r < 2048 -> dec2 (chr (192 + Z.shiftr r 6)) (chr (128 + Z.land r 63)) = Some r.
Proof.
  intros Hr. unfold dec2, cont. masks. rewrite !code_of_chr by divlia.
  rewrite !in_range_true by divlia. simpl. f_equal. divlia.
Qed.

Lemma dec3_encode r : 2048 <= r < 65536 -> ~ (55296 <= r <= 57343) ->
  dec3 (chr (224 + Z.shiftr r 12)) (chr (128 + Z.land (Z.shiftr r 6) 63)) (chr (128 + Z.land r 63)) = Some r.
Proof.
  intros Hr Hs. unfold dec3, cont. masks. rewrite !code_of_chr by divlia.
  destruct (Z.eqb_spec (224 + r / 4096) 224), (Z.eqb_spec (224 + r / 4096) 237);
    rewrite !in_range_true by divlia; simpl; f_equal; divlia.
Qed.

Lemma dec4_encode r : 65536 <= r <= 1114111 ->
  dec4 (chr (240 + Z.shiftr r 18)) (chr (128 + Z.land (Z.shiftr r 12) 63))
       (chr (128 + Z.land (Z.shiftr r 6) 63)) (chr (128 + Z.land r 63)) = Some r.
Proof.
  intros Hr. unfold dec4, cont. masks. rewrite !code_of_chr by divlia.
  destruct (Z.eqb_spec (240 + r / 262144) 240), (Z.eqb_spec (240 + r / 262144) 244);
    rewrite !in_range_true by divlia; simpl; f_equal; divlia.
Qed.

Lemma dec2_wide b0 b1 : 224 <= code b0 -> dec2 b0 b1 = None.
Proof. intros. unfold dec2. by rewrite in_range_false by lia. Qed.

Lemma dec3_wide b0 b1 b2 : 240 <= code b0 -> dec3 b0 b1 b2 = None.
Proof. intros. unfold dec3. by rewrite in_range_false by lia. Qed.

Lemma code_high z : 128 <= z < 256 -> (code (chr z) <? 128) = false.
Proof. intros. rewrite code_of_chr by lia. lia. Qed.

Lemma runes_cons b0 s1 :
  runes (String b0 s1) = (decode_rune b0 s1).1 :: runes (decode_rune b0 s1).2.
Proof.
  change (runes (String b0 s1)) with
    (if code b0 <? 128 then code b0 :: runes s1
     else match s1 with
          | EmptyString => RuneError :: runes s1
          | String b1 s2 =>
            match dec2 b0 b1, s2 with
            | Some r, _ => r :: runes s2
            | None, EmptyString => RuneError :: runes s1
            | None, String b2 s3 =>
              match dec3 b0 b1 b2, s3 with
              | Some r, _ => r :: runes s3
              | None, EmptyString => RuneError :: runes s1
              | None, String b3 s4 =>
                match dec4 b0 b1 b2 b3 with Some r => r :: runes s4 | None => RuneError :: runes s1 end
              end
            end
          end).
  unfold decode_rune. destruct (code b0 <? 128); [done|]. destruct s1 as [|b1 s2]; [done|].
  destruct (dec2 b0 b1); [done|]. destruct s2 as [|b2 s3]; [done|].
  destruct (dec3 b0 b1 b2); [done|]. destruct s3 as [|b3 s4]; [done|]. by destruct (dec4 b0 b1 b2 b3).
Qed.

(** What is written for a valid rune decodes to it. *)
Lemma decode_encode_rune r s : ValidRune r = true ->
  exists b0 s1, encode_rune r +:+ s = String b0 s1 /\ decode_rune b0 s1 = (r, s).
Proof.
  intros Hv. unfold ValidRune, in_range in Hv. unfold encode_rune.
  destruct (Z.ltb_spec r 0); [lia|]. destruct (Z.ltb_spec r 128) as [|H1].
  { eexists _, _. split; [apply Strings.string_app_cons|]. unfold decode_rune. rewrite code_of_chr by lia.
    by rewrite (proj2 (Z.ltb_lt r 128)) by lia. }
  destruct (Z.ltb_spec r 2048) as [|H2].
  { eexists _, _. split; [rewrite !Strings.string_app_cons; reflexivity|]. unfold decode_rune.
    rewrite code_high by (masks; divlia). by rewrite dec2_encode. }
  rewrite in_range_false, (proj2 (Z.ltb_ge _ _)) by lia. cbn [orb].
  destruct (Z.ltb_spec r 65536) as [|H3];
    (eexists _, _; split; [rewrite !Strings.string_app_cons; reflexivity|]); unfold decode_rune;
    rewrite code_high by (masks; divlia); rewrite dec2_wide by (masks; rewrite code_of_chr by divlia; divlia).
  - by rewrite dec3_encode by lia.
  - rewrite dec3_wide by (masks; rewrite code_of_chr by divlia; divlia). by rewrite dec4_encode by lia.
Qed.

Lemma runes_encode_rune r s : ValidRune r = true -> runes (encode_rune r +:+ s) = r :: runes s.
Proof.
  intros Hv. destruct (decode_encode_rune r s Hv) as (b0 & s1 & -> & E). by rewrite runes_cons, E.
Qed.

Lemma runes_encode rs s : Forall (fun r => ValidRune r = true) rs -> runes (encode rs +:+ s) = rs ++ runes s.
Proof.
  induction 1 as [|r rs Hr _ IH]; simpl; [done|].
  by rewrite Strings.string_app_assoc, runes_encode_rune, IH.
Qed.

Lemma dec2_valid b0 b1 r : dec2 b0 b1 = Some r -> ValidRune r = true.
Proof.
  unfold dec2, cont. destruct (_ && _) eqn:E; [|done]. intros [= <-].
  apply andb_prop in E as [E0 E1]. unfold in_range, ValidRune in *. revert E0 E1. masks.
  unfold in_range. intros. divlia.
Qed.

Lemma dec3_valid b0 b1 b2 r : dec3 b0 b1 b2 = Some r -> ValidRune r = true.
Proof.
  unfold dec3, cont. destruct (_ && _) eqn:E; [|done]. intros [= <-].
  apply andb_prop in E as [[E0 E1]%andb_prop E2]. unfold ValidRune, in_range in *. revert E0 E1 E2. masks.
  destruct (Z.eqb_spec (code b0) 224), (Z.eqb_spec (code b0) 237); intros; divlia.
Qed.

Lemma dec4_valid b0 b1 b2 b3 r : dec4 b0 b1 b2 b3 = Some r -> ValidRune r = true.
Proof.
  unfold dec4, cont. destruct (_ && _) eqn:E; [|done]. intros [= <-].
  apply andb_prop in E as [[[E0 E1]%andb_prop E2]%andb_prop E3]. unfold ValidRune, in_range in *.
  revert E0 E1 E2 E3. masks.
  destruct (Z.eqb_spec (code b0) 240), (Z.eqb_spec (code b0) 244); intros; divlia.
Qed.

Lemma decode_rune_valid b0 s1 : ValidRune (decode_rune b0 s1).1 = true.
Proof.
  unfold decode_rune. destruct (Z.ltb_spec (code b0) 128).
  { unfold ValidRune, in_range, code in *. cbn [fst]. lia. }
  repeat case_match; simplify_eq; cbn [fst]; eauto using dec2_valid, dec3_valid, dec4_valid.
Qed.

Lemma runes_valid s : Forall (fun r => ValidRune r = true) (runes s).
Proof.
  induction s as [s IH] using Strings.string_length_ind.
  destruct s as [|b0 s1]; [constructor|]. rewrite runes_cons. constructor; [apply decode_rune_valid|].
  apply IH. destruct (decode_rune b0 s1) as [r rest] eqn:E. apply Strconv.decode_rune_length in E. simpl. lia.
Qed.
End Utf8Facts.
