(* ===== verification/WireCodec.v ===== *)
(** * The local wire format ([internal/wire])

    [Wire] holds the binary value codec ([Encode]/[Decode], magic "PWB1"), the
    request and response frames (magic "PWB2") and the uvarint primitives of
    [encoding/binary] they use.  A [[]byte] is a [list ascii].  A float64 is its
    64-bit pattern.  A [map[string]any] is the association list of its entries
    in strictly increasing key order, so equal maps are equal lists. *)
From stdpp Require Import base tactics list sorting strings pretty.
From Stdlib Require Import ZArith Lia Ascii.
From S2P Require Import Prelude GoStrings.
Set Warnings "-register-all".

Module Wire.
(** ** Values

    The dynamic values the codec distinguishes: what [encoding/json] produces
    with [UseNumber] (nil, bool, string, json.Number, [[]any], [map[string]any]),
    the float64 that [Decode] produces, and the other numeric kinds.  Values of
    other types reach [writeValue] only through its reflective default branch;
    [Encode] never passes one, because it normalises first. *)
Inductive any : Type :=
| ANil
| ABool (b : bool)
| AString (s : string)
| ANumber (text : string)
| AFloat64 (bits : Z)
| AFloat32 (bits : Z)
| AInt (z : Z)
| AUint (z : Z)
| AArray (items : list any)
| AObject (entries : list (string * any)).

Definition tagNull : Z := 0.
Definition tagFalse : Z := 1.
Definition tagTrue : Z := 2.
Definition tagNumber : Z := 3.
Definition tagString : Z := 4.
Definition tagArray : Z := 5.
Definition tagObject : Z := 6.

Definition magic : list ascii := ["P"; "W"; "B"; "1"]%char.
Definition frameMagic : list ascii := ["P"; "W"; "B"; "2"]%char.
Definition frameFlagError : Z := 1.

Definition to_bytes (s : string) : list ascii := String.list_ascii_of_string s.
Definition of_bytes (b : list ascii) : string := String.string_of_list_ascii b.

Definition key_before {A} (x y : string * A) : bool := str_lt x.1 y.1.

(** [m[k] = v] on a map. *)
Fixpoint map_set {A} (k : string) (v : A) (m : list (string * A)) : list (string * A) :=
  match m with
  | [] => [(k, v)]
  | (k', v') :: m' =>
    if String.eqb k k' then (k, v) :: m'
    else if str_lt k k' then (k, v) :: m
    else (k', v') :: map_set k v m'
  end.

(** ** encoding/binary *)

(** [binary.PutUvarint]; ten bytes are enough for 64 bits. *)
Fixpoint uvarint_bytes (fuel : nat) (x : Z) : list ascii :=
  match fuel with
  | O => []
  | S f =>
    if x <? 128 then [chr x]
    else chr (Z.lor (Z.land x 127) 128) :: uvarint_bytes f (Z.shiftr x 7)
  end.

Definition writeUvarint (x : Z) : list ascii := uvarint_bytes 10 (wrap_uint 64 x).

(** [binary.Uvarint]: the value and the number of bytes read; the count is 0
    when the buffer is too small and negative on overflow. *)
Fixpoint uvarint_loop (i : nat) (x s : Z) (buf : list ascii) : Z * Z :=
  match buf with
  | [] => (0, 0)
  | b :: buf' =>
    if Nat.eqb i 10 then (0, - (Z.of_nat i + 1))
    else if code b <? 128 then
      if Nat.eqb i 9 && (1 <? code b) then (0, - (Z.of_nat i + 1))
      else (Z.lor x (wrap_uint 64 (Z.shiftl (code b) s)), Z.of_nat i + 1)
    else uvarint_loop (S i) (Z.lor x (wrap_uint 64 (Z.shiftl (Z.land (code b) 127) s))) (s + 7) buf'
  end.

Definition Uvarint (buf : list ascii) : Z * Z := uvarint_loop 0 0 0 buf.

(** [binary.LittleEndian.PutUint64] and [Uint64]. *)
Fixpoint le_bytes (n : nat) (x : Z) : list ascii :=
  match n with
  | O => []
  | S n' => chr (x mod 256) :: le_bytes n' (x / 256)
  end.

Fixpoint le_value (b : list ascii) : Z :=
  match b with
  | [] => 0
  | c :: b' => code c + 256 * le_value b'
  end.

(** ** Encoding *)

(** [math.IsInf || math.IsNaN]: the exponent bits are all ones. *)
Definition non_finite (bits : Z) : bool := Z.land (Z.shiftr bits 52) 2047 =? 2047.

(** [float64(z)] for an integer: round to nearest, ties to even. *)
Definition float64_of_integer (z : Z) : Z :=
  let sign := if z <? 0 then 2 ^ 63 else 0 in
  let m := Z.abs z in
  if m =? 0 then 0
  else
    let e := Z.log2 m in
    if e <=? 52 then sign + (e + 1023) * 2 ^ 52 + (m * 2 ^ (52 - e) - 2 ^ 52)
    else
      let sh := e - 52 in
      let q := m / 2 ^ sh in
      let r := m mod 2 ^ sh in
      let half := 2 ^ (sh - 1) in
      let up := (half <? r) || ((half =? r) && Z.odd q) in
      sign + (e + 1023) * 2 ^ 52 + (q - 2 ^ 52) + (if up then 1 else 0).

(** [float64(f)] for a float32 given by its 32-bit pattern, which is exact. *)
Definition float64_of_float32 (bits : Z) : Z :=
  let sign := Z.shiftl (Z.shiftr bits 31) 63 in
  let e := Z.land (Z.shiftr bits 23) 255 in
  let f := Z.land bits (2 ^ 23 - 1) in
  if e =? 255 then sign + 2047 * 2 ^ 52 + f * 2 ^ 29
  else if e =? 0 then
    if f =? 0 then sign
    else let k := Z.log2 f in
         sign + (k - 149 + 1023) * 2 ^ 52 + (f * 2 ^ (52 - k) - 2 ^ 52)
  else sign + (e - 127 + 1023) * 2 ^ 52 + f * 2 ^ 29.

Definition writeNumber (bits : Z) : outcome string (list ascii) :=
  if non_finite bits then Fail "non-finite numbers are not supported"
  else Ret (chr tagNumber :: le_bytes 8 bits).

Definition writeBytes (data : list ascii) : list ascii :=
  writeUvarint (Z.of_nat (length data)) ++ data.

Definition appendSizedBytes (dst data : list ascii) : list ascii :=
  dst ++ writeUvarint (Z.of_nat (length data)) ++ data.

Fixpoint sequence_bytes (l : list (outcome string (list ascii))) : outcome string (list ascii) :=
  match l with
  | [] => Ret []
  | o :: l' => b ← o; bs ← sequence_bytes l'; Ret (b ++ bs)
  end.

Section encode.
(** [strconv.ParseFloat(text, 64)], as its bit pattern, and the JSON round trip
    that [Normalize] makes of a non-nil value ([json.Marshal], then a decoder
    with [UseNumber]). *)
Variable ParseFloat64 : string -> outcome string Z.
Variable json_round_trip : any -> outcome string any.

Definition Normalize (value : any) : outcome string any :=
  match value with
  | ANil => Ret ANil
  | _ => json_round_trip value
  end.

Fixpoint writeValue (value : any) : outcome string (list ascii) :=
  match value with
  | ANil => Ret [chr tagNull]
  | ABool b => Ret [chr (if b then tagTrue else tagFalse)]
  | AString s => Ret (chr tagString :: writeBytes (to_bytes s))
  | ANumber text => n ← ParseFloat64 text; writeNumber n
  | AFloat64 bits => writeNumber bits
  | AFloat32 bits => writeNumber (float64_of_float32 bits)
  | AInt z => writeNumber (float64_of_integer z)
  | AUint z => writeNumber (float64_of_integer z)
  | AArray items =>
    body ← sequence_bytes (map writeValue items);
    Ret (chr tagArray :: writeUvarint (Z.of_nat (length items)) ++ body)
  | AObject entries =>
    let written := map (fun e => (e.1, o ← writeValue e.2; Ret (writeBytes (to_bytes e.1) ++ o))) entries in
    body ← sequence_bytes (map snd (sort_stable key_before written));
    Ret (chr tagObject :: writeUvarint (Z.of_nat (length entries)) ++ body)
  end.

Definition Encode (value : any) : outcome string (list ascii) :=
  normalized ← Normalize value;
  body ← writeValue normalized;
  Ret (magic ++ body).
End encode.

(** ** Decoding *)
Record decoder := Decoder { data : list ascii; pos : nat }.

Definition readByte (d : decoder) : outcome string (Z * decoder) :=
  match data d !! pos d with
  | None => Fail "truncated payload"
  | Some b => Ret (code b, Decoder (data d) (S (pos d)))
  end.

Definition readUvarint (d : decoder) : outcome string (Z * decoder) :=
  rest ← slice (data d) (pos d) (length (data d));
  let '(value, n) := Uvarint rest in
  if n <=? 0 then Fail "invalid length"
  else Ret (value, Decoder (data d) (pos d + Z.to_nat n)).

Definition readBytes (d : decoder) : outcome string (list ascii * decoder) :=
  '(n, d) ← readUvarint d;
  if Z.of_nat (length (data d)) - Z.of_nat (pos d) <? n then Fail "truncated bytes"
  else
    value ← slice (data d) (pos d) (pos d + Z.to_nat n);
    Ret (value, Decoder (data d) (pos d + Z.to_nat n)).

(** [make([]any, 0, n)] panics when the 16-byte elements exceed the address
    space of the runtime, 2^48 bytes. *)
Definition make_any_slice_panics (n : Z) : bool := 2 ^ 48 <? 16 * n.

Definition makeslice_panic : string := "runtime error: makeslice: cap out of range".
Definition out_of_fuel : string := "out of fuel".

(** [for range n { item, err := read(); ... }]; every iteration that succeeds
    consumes input, so [k] iterations are enough when [k] exceeds its length. *)
Fixpoint read_n {A} (read : decoder -> outcome string (A * decoder))
    (k : nat) (n : Z) (d : decoder) : outcome string (list A * decoder) :=
  if n <=? 0 then Ret ([], d)
  else match k with
  | O => Fail out_of_fuel
  | S k' =>
    '(x, d1) ← read d;
    '(xs, d2) ← read_n read k' (n - 1) d1;
    Ret (x :: xs, d2)
  end.

Definition read_entry (read : decoder -> outcome string (any * decoder))
    (d : decoder) : outcome string ((string * any) * decoder) :=
  '(key, d1) ← readBytes d;
  '(v, d2) ← read d1;
  Ret ((of_bytes key, v), d2).

Definition build_map {A} (entries : list (string * A)) : list (string * A) :=
  fold_left (fun m e => map_set e.1 e.2 m) entries [].

Fixpoint readValue (fuel : nat) (d : decoder) : outcome string (any * decoder) :=
  match fuel with
  | O => Fail out_of_fuel
  | S f =>
    '(tag, d) ← readByte d;
    if tag =? tagNull then Ret (ANil, d)
    else if tag =? tagFalse then Ret (ABool false, d)
    else if tag =? tagTrue then Ret (ABool true, d)
    else if tag =? tagNumber then
      if Nat.ltb (length (data d)) (pos d + 8) then Fail "truncated number"
      else
        raw ← slice (data d) (pos d) (pos d + 8);
        Ret (AFloat64 (le_value raw), Decoder (data d) (pos d + 8))
    else if tag =? tagString then
      '(raw, d) ← readBytes d; Ret (AString (of_bytes raw), d)
    else if tag =? tagArray then
      '(n, d) ← readUvarint d;
      if make_any_slice_panics n then Panic makeslice_panic
      else '(items, d) ← read_n (readValue f) (S (length (data d))) n d;
           Ret (AArray items, d)
    else if tag =? tagObject then
      '(n, d) ← readUvarint d;
      '(entries, d) ← read_n (read_entry (readValue f)) (S (length (data d))) n d;
      Ret (AObject (build_map entries), d)
    else Fail ("unknown scenery wire tag " +:+ Strconv.Itoa tag)
  end.

Definition has_magic (m bytes : list ascii) : bool :=
  bool_decide (take (length m) bytes = m).

Definition Decode (bytes : list ascii) : outcome string any :=
  if negb (has_magic magic bytes) then Fail "invalid scenery wire payload"
  else
    let dec := Decoder (drop (length magic) bytes) 0 in
    '(value, d) ← readValue (S (length (data dec))) dec;
    if Nat.eqb (pos d) (length (data d)) then Ret value
    else Fail "trailing scenery wire data".

(** ** Frames *)
Record RequestFrame := {
  SchemaHash : string;
  PathParamsJSON : list ascii;
  rq_PayloadJSON : list ascii
}.

Record ResponseFrame := {
  Status : Z;
  Error : bool;
  rs_PayloadJSON : list ascii
}.

Definition EncodeRequestFrame (schemaHash : string) (pathParamsJSON payloadJSON : list ascii)
  : list ascii :=
  let buf := frameMagic in
  let buf := appendSizedBytes buf (to_bytes schemaHash) in
  let buf := appendSizedBytes buf pathParamsJSON in
  appendSizedBytes buf payloadJSON.

(** [None] when the data is not a frame, [Some] of the outcome when it is. *)
Definition DecodeRequestFrame (bytes : list ascii) : option (outcome string RequestFrame) :=
  if negb (has_magic frameMagic bytes) then None
  else Some (
    let dec := Decoder (drop (length frameMagic) bytes) 0 in
    '(schemaHash, d) ← readBytes dec;
    '(pathParamsJSON, d) ← readBytes d;
    '(payloadJSON, d) ← readBytes d;
    if negb (Nat.eqb (pos d) (length (data d))) then Fail "trailing scenery wire frame data"
    else Ret {| SchemaHash := of_bytes schemaHash; PathParamsJSON := pathParamsJSON;
                rq_PayloadJSON := payloadJSON |}).

Definition EncodeResponseFrame (status : Z) (isError : bool) (payloadJSON : list ascii)
  : list ascii :=
  let status := if status =? 0 then 200 else status in
  let buf := frameMagic ++ writeUvarint status in
  let buf := buf ++ [if isError then chr frameFlagError else chr 0] in
  appendSizedBytes buf payloadJSON.

Definition DecodeResponseFrame (bytes : list ascii) : option (outcome string ResponseFrame) :=
  if negb (has_magic frameMagic bytes) then None
  else Some (
    let dec := Decoder (drop (length frameMagic) bytes) 0 in
    '(status, d) ← readUvarint dec;
    '(flags, d) ← readByte d;
    '(payloadJSON, d) ← readBytes d;
    if negb (Nat.eqb (pos d) (length (data d))) then Fail "trailing scenery wire frame data"
    else Ret {| Status := wrap_int 64 status; Error := negb (Z.land flags frameFlagError =? 0);
                rs_PayloadJSON := payloadJSON |}).

(** ** Endpoint metadata and capabilities *)
Definition ContentType : string := "application/vnd.scenery.wire+bin".
Definition JSONContentType : string := "application/vnd.scenery.wire+json".
Definition CapabilitiesPath : string := "/_wire/capabilities".
Definition CallPathPrefix : string := "/_wire/".
Definition RecoverPathPrefix : string := "/_wire/recover/".

Record Endpoint := {
  ID : string;
  Service : string;
  EndpointName : string;
  Path : string;
  Methods : list string;
  Available : bool;
  UnsupportedReason : string;
  ep_SchemaHash : string;
  SafeJSONRetry : bool;
  WirePath : string;
  RecoveryPathPattern : string
}.

Record Capabilities := {
  SchemaVersion : string;
  cap_SchemaHash : string;
  cap_ContentType : string;
  Endpoints : list (string * Endpoint)
}.

Definition with_default_paths (ep : Endpoint) : Endpoint :=
  {| ID := ID ep; Service := Service ep; EndpointName := EndpointName ep; Path := Path ep;
     Methods := Methods ep; Available := Available ep;
     UnsupportedReason := UnsupportedReason ep; ep_SchemaHash := ep_SchemaHash ep;
     SafeJSONRetry := SafeJSONRetry ep;
     WirePath := if String.eqb (WirePath ep) "" then CallPathPrefix +:+ ID ep else WirePath ep;
     RecoveryPathPattern :=
       if String.eqb (RecoveryPathPattern ep) "" then RecoverPathPrefix +:+ "{call_id}"
       else RecoveryPathPattern ep |}.

Definition NewCapabilities (schemaHash : string) (endpoints : list Endpoint) : Capabilities :=
  {| SchemaVersion := "scenery.wire.capabilities.v1";
     cap_SchemaHash := schemaHash;
     cap_ContentType := ContentType;
     Endpoints :=
       fold_left (fun items ep =>
         if String.eqb (ID ep) "" then items
         else map_set (ID ep) (with_default_paths ep) items) endpoints [] |}.

Definition EndpointID (service endpoint : string) : string := service +:+ "." +:+ endpoint.

Definition IsSafeMethod `{UnicodeTables} (method : string) : bool :=
  bool_decide (Strings.ToUpper (Strings.TrimSpace method) ∈ ["GET"; "HEAD"; "OPTIONS"]).

Definition hex_digit (z : Z) : ascii := if z <? 10 then chr (48 + z) else chr (87 + z).

Fixpoint hex_encode (b : list ascii) : list ascii :=
  match b with
  | [] => []
  | c :: b' => hex_digit (code c / 16) :: hex_digit (code c mod 16) :: hex_encode b'
  end.

(** What [HashParts] writes to the hash. *)
Fixpoint hash_input (parts : list string) : list ascii :=
  match parts with
  | [] => []
  | part :: parts' =>
    to_bytes (Strconv.Itoa (Z.of_nat (String.length part))) ++ [chr 0]
    ++ to_bytes part ++ [chr 0] ++ hash_input parts'
  end.

Section hashing.
(** [crypto/sha256]. *)
Variable sha256 : list ascii -> list ascii.

Definition HashParts (parts : list string) : string :=
  of_bytes (hex_encode (sha256 (hash_input parts))).

Definition FormatBool (b : bool) : string := if b then "true" else "false".

Definition endpoint_parts (ep : Endpoint) : list string :=
  [ID ep; Service ep; EndpointName ep; Path ep; Strings.Join (Methods ep) ",";
   FormatBool (Available ep); UnsupportedReason ep; ep_SchemaHash ep].

Definition HashEndpoints (endpoints : list Endpoint) : string :=
  HashParts (concat (map endpoint_parts
    (sort_stable (fun a b => str_lt (ID a) (ID b)) endpoints))).
End hashing.

(** ** Bytes and machine words *)
Lemma code_bound c : 0 <= code c < 256.
Proof.
  unfold code. pose proof (N_ascii_bounded c) as Hb. lia.
Qed.

Lemma code_chr z : 0 <= z < 256 -> code (chr z) = z.
Proof.
  intros Hz. unfold code, chr. rewrite N_ascii_embedding by lia. lia.
Qed.

Lemma chr_code c : chr (code c) = c.
Proof. unfold chr, code. rewrite N2Z.id. apply ascii_N_embedding. Qed.

Lemma lor_shiftl_add x y s :
  0 <= s -> 0 <= x < 2 ^ s -> Z.lor x (Z.shiftl y s) = x + y * 2 ^ s.
Proof.
  intros Hs Hx. rewrite <- Z.shiftl_mul_pow2 by done.
  assert (Z.land x (Z.shiftl y s) = 0) as Hd.
  { apply Z.bits_inj'. intros n Hn. rewrite Z.land_spec, Z.bits_0.
    destruct (Z.lt_ge_cases n s) as [Hlt|Hge].
    - rewrite Z.shiftl_spec_low by done. apply andb_false_r.
    - rewrite <- (Z.mod_small x (2 ^ s)) by done.
      by rewrite Z.mod_pow2_bits_high by lia. }
  by rewrite (Z.add_nocarry_lxor _ _ Hd), (Z.lxor_lor _ _ Hd).
Qed.

Lemma le_value_bytes n x : 0 <= x < 256 ^ Z.of_nat n -> le_value (le_bytes n x) = x.
Proof.
  revert x. induction n as [|n IH]; intros x Hx; cbn [le_bytes le_value].
  - change (Z.of_nat 0) with 0 in Hx. lia.
  - rewrite Nat2Z.inj_succ, Z.pow_succ_r in Hx by lia.
    pose proof (Z.div_mod x 256 ltac:(lia)). pose proof (Z.mod_pos_bound x 256 ltac:(lia)).
    rewrite code_chr by lia. rewrite IH; [lia|].
    split; [apply Z.div_pos; lia|]. apply Z.div_lt_upper_bound; lia.
Qed.

Lemma length_le_bytes n x : length (le_bytes n x) = n.
Proof. revert x. induction n; intros; simpl; auto. Qed.

Lemma uvarint_bytes_length fuel x : (length (uvarint_bytes fuel x) <= fuel)%nat.
Proof. revert x. induction fuel; intros; simpl; [lia|]. break_match; simpl; [lia|]. specialize (IHfuel (Z.shiftr x 7)). lia. Qed.

Lemma uvarint_bytes_nonempty fuel x : (0 < fuel)%nat -> (0 < length (uvarint_bytes fuel x))%nat.
Proof. destruct fuel; [lia|]. intros _. simpl. break_match; simpl; lia. Qed.

Lemma uvarint_high_group x : 128 <= x -> code (chr (Z.lor (Z.land x 127) 128)) = 128 + x mod 128.
Proof.
  intros Hx. change 127 with (Z.ones 7). rewrite Z.land_ones by lia.
  change (2 ^ 7) with 128. change 128 with (Z.shiftl 1 7) at 2.
  pose proof (Z.mod_pos_bound x 128 ltac:(lia)).
  rewrite lor_shiftl_add by (change (2 ^ 7) with 128; lia).
  change (2 ^ 7) with 128. rewrite code_chr; lia.
Qed.

Lemma uvarint_loop_bytes fuel i x s y suf :
  (i + fuel = 10)%nat -> (0 < fuel)%nat -> s = 7 * Z.of_nat i -> 0 <= x < 2 ^ s ->
  0 <= y < 2 ^ (64 - s) ->
  uvarint_loop i x s (uvarint_bytes fuel y ++ suf)
  = (x + y * 2 ^ s, Z.of_nat (i + length (uvarint_bytes fuel y))).
Proof.
  revert i x s y. induction fuel as [|f IH]; intros i x s y Hi Hf Hs Hx Hy; [lia|].
  assert (wrap_uint 64 (Z.shiftl y s) = Z.shiftl y s) as Hw.
  { unfold wrap_uint. rewrite Z.shiftl_mul_pow2 by lia. apply Z.mod_small.
    replace (2 ^ 64) with (2 ^ (64 - s) * 2 ^ s) by (rewrite <- Z.pow_add_r; [f_equal; lia|lia|lia]).
    nia. }
  assert (0 < 2 ^ s) as Hps by lia.
  cbn [uvarint_bytes]. destruct (y <? 128) eqn:E; simpl app; simpl uvarint_loop.
  - apply Z.ltb_lt in E. rewrite code_chr by lia.
    replace (Nat.eqb i 10) with false by (symmetry; apply Nat.eqb_neq; lia).
    replace (y <? 128) with true by (symmetry; apply Z.ltb_lt; lia).
    assert (Nat.eqb i 9 && (1 <? y) = false) as ->.
    { apply andb_false_iff. destruct (Nat.eqb_spec i 9); [right|by left].
      apply Z.ltb_ge. subst. change (2 ^ (64 - 7 * Z.of_nat 9)) with 2 in Hy. lia. }
    rewrite Hw, lor_shiftl_add by lia. f_equal. simpl. lia.
  - apply Z.ltb_ge in E. rewrite uvarint_high_group by lia.
    pose proof (Z.mod_pos_bound y 128 ltac:(lia)) as Hm.
    replace (Nat.eqb i 10) with false by (symmetry; apply Nat.eqb_neq; lia).
    replace (128 + y mod 128 <? 128) with false by (symmetry; apply Z.ltb_ge; lia).
    assert (Z.land (128 + y mod 128) 127 = y mod 128) as ->.
    { change 127 with (Z.ones 7). rewrite Z.land_ones by lia. change (2 ^ 7) with 128.
      rewrite <- Z.add_mod_idemp_l by lia. change (128 mod 128) with 0.
      rewrite Z.add_0_l. by apply Z.mod_small. }
    assert (s + 7 < 64) as Hs7.
    { destruct (Z.lt_ge_cases (s + 7) 64); [done|]. exfalso.
      assert (2 ^ (64 - s) <= 2 ^ 7) by (apply Z.pow_le_mono_r; lia).
      change (2 ^ 7) with 128 in *. lia. }
    assert (2 ^ (64 - s) = 2 ^ (64 - (s + 7)) * 128) as Hp.
    { change 128 with (2 ^ 7). rewrite <- Z.pow_add_r by lia. f_equal. lia. }
    assert (2 ^ (s + 7) = 2 ^ s * 128) as Hq.
    { change 128 with (2 ^ 7). rewrite <- Z.pow_add_r by lia. done. }
    assert (wrap_uint 64 (Z.shiftl (y mod 128) s) = Z.shiftl (y mod 128) s) as ->.
    { unfold wrap_uint. rewrite Z.shiftl_mul_pow2 by lia. apply Z.mod_small.
      replace (2 ^ 64) with (2 ^ (64 - (s + 7)) * 2 ^ (s + 7))
        by (rewrite <- Z.pow_add_r; [f_equal; lia|lia|lia]).
      assert (0 < 2 ^ (64 - (s + 7))) by lia. nia. }
    rewrite lor_shiftl_add by lia.
    pose proof (Z.div_mod y 128 ltac:(lia)) as Hdm.
    rewrite IH; try lia.
    + rewrite Z.shiftr_div_pow2 by lia. change (2 ^ 7) with 128. f_equal; [|simpl; lia].
      rewrite Hq. rewrite Hdm at 3. ring.
    + rewrite Hq. nia.
    + rewrite Z.shiftr_div_pow2 by lia. change (2 ^ 7) with 128. split.
      * apply Z.div_pos; lia.
      * apply Z.div_lt_upper_bound; lia.
Qed.

Lemma Uvarint_writeUvarint x suf :
  0 <= x < 2 ^ 64 ->
  Uvarint (writeUvarint x ++ suf) = (x, Z.of_nat (length (writeUvarint x))).
Proof.
  intros Hx. unfold Uvarint, writeUvarint, wrap_uint.
  rewrite (Z.mod_small x) by done.
  rewrite (uvarint_loop_bytes 10 0 0 0 x suf); [|lia..|done].
  rewrite Z.pow_0_r, Z.mul_1_r, Z.add_0_l. done.
Qed.

(** ** Readers and the bytes they consume *)

(** [reads rd bs a]: wherever [bs] lies in the data, [rd] started at it
    consumes exactly [bs] and returns [a]. *)
Definition reads {A} (rd : decoder -> outcome string (A * decoder))
    (bs : list ascii) (a : A) : Prop :=
  forall pre suf,
    rd (Decoder (pre ++ bs ++ suf) (length pre))
    = Ret (a, Decoder (pre ++ bs ++ suf) (length pre + length bs)).

Lemma reads_at {A} (rd : decoder -> outcome string (A * decoder)) bs a pre suf l n :
  reads rd bs a -> l = pre ++ bs ++ suf -> n = length pre ->
  rd (Decoder l n) = Ret (a, Decoder l (length (pre ++ bs))).
Proof. intros Hr -> ->. rewrite Hr. by rewrite length_app. Qed.

Lemma drop_app_pre (pre bs : list ascii) : drop (length pre) (pre ++ bs) = bs.
Proof. apply drop_app_length. Qed.

Lemma lookup_app_pre (pre : list ascii) b bs : (pre ++ b :: bs) !! length pre = Some b.
Proof. rewrite lookup_app_r by done. by rewrite Nat.sub_diag. Qed.

Lemma reads_ret {A} (a : A) : reads (fun d => Ret (a, d)) [] a.
Proof. intros pre suf. simpl. by rewrite Nat.add_0_r. Qed.

Lemma reads_bind {A B} rd (k : A * decoder -> outcome string (B * decoder)) bs1 bs2 a b :
  reads rd bs1 a -> reads (fun d => k (a, d)) bs2 b ->
  reads (fun d => rd d ≫= k) (bs1 ++ bs2) b.
Proof.
  intros H1 H2 pre suf. specialize (H1 pre (bs2 ++ suf)). specialize (H2 (pre ++ bs1) suf).
  rewrite <- !(assoc_L (++)) in *. rewrite H1. simpl.
  rewrite length_app in H2. rewrite H2. by rewrite length_app, Nat.add_assoc.
Qed.

Lemma reads_byte z : 0 <= z < 256 -> reads readByte [chr z] z.
Proof.
  intros Hz pre suf. unfold readByte. simpl. rewrite lookup_app_pre. simpl.
  rewrite code_chr by done. do 3 f_equal. lia.
Qed.

Lemma reads_uvarint x : 0 <= x < 2 ^ 64 -> reads readUvarint (writeUvarint x) x.
Proof.
  intros Hx pre suf. unfold readUvarint. cbn [data pos].
  rewrite slice_ok by (rewrite length_app; lia). simpl.
  rewrite drop_app_pre, take_ge, Uvarint_writeUvarint by (rewrite ?length_app; done || lia).
  assert (0 < length (writeUvarint x))%nat by (apply uvarint_bytes_nonempty; lia).
  rewrite (proj2 (Z.leb_gt _ 0)) by lia. by rewrite Nat2Z.id.
Qed.

Lemma reads_bytes bs : Z.of_nat (length bs) < 2 ^ 64 -> reads readBytes (writeBytes bs) bs.
Proof.
  intros Hl pre suf. unfold readBytes, writeBytes.
  pose proof (reads_uvarint (Z.of_nat (length bs)) ltac:(lia) pre (bs ++ suf)) as Hu.
  rewrite <- (assoc_L (++)). rewrite Hu. simpl.
  rewrite (proj2 (Z.ltb_ge _ _)) by (rewrite !length_app; lia). rewrite Nat2Z.id.
  rewrite (assoc_L (++)), <- (length_app pre), slice_app. simpl.
  do 3 f_equal. rewrite !length_app. lia.
Qed.

Lemma reads_n {A} (rd : decoder -> outcome string (A * decoder)) k (l : list (list ascii * A)) :
  Forall (fun e => reads rd e.1 e.2) l -> (length l <= k)%nat ->
  reads (read_n rd k (Z.of_nat (length l))) (concat (map fst l)) (map snd l).
Proof.
  intros Hl. revert k. induction Hl as [|[bs a] l He Hl IH]; intros k Hk.
  - destruct k; apply reads_ret.
  - destruct k as [|k]; [simpl in Hk; lia|]. simpl map. simpl concat.
    assert (forall d, read_n rd (S k) (Z.of_nat (length ((bs, a) :: l))) d
      = rd d ≫= fun '(x, d1) => read_n rd k (Z.of_nat (length l)) d1 ≫= fun '(xs, d2) => Ret (x :: xs, d2)) as Heq.
    { intros d. cbn [read_n]. rewrite (proj2 (Z.leb_gt _ 0)) by (simpl; lia).
      replace (Z.of_nat (length ((bs, a) :: l)) - 1) with (Z.of_nat (length l)) by (simpl; lia).
      done. }
    intros pre suf. rewrite Heq. revert pre suf.
    apply (reads_bind rd (fun '(x, d1) => _) _ _ a); [exact He|].
    rewrite <- (right_id_L [] (++) (concat (map fst l))).
    apply (reads_bind (read_n rd k (Z.of_nat (length l))) (fun '(xs, d2) => Ret (a :: xs, d2)) _ [] (map snd l)).
    + apply IH. simpl in Hk. lia.
    + apply reads_ret.
Qed.

(** ** Round trips *)

(** Induction over values with hypotheses for the items and the entries. *)
Lemma any_ind' (P : any -> Prop) :
  P ANil -> (forall b, P (ABool b)) -> (forall s, P (AString s)) ->
  (forall t, P (ANumber t)) -> (forall n, P (AFloat64 n)) ->
  (forall n, P (AFloat32 n)) -> (forall n, P (AInt n)) -> (forall n, P (AUint n)) ->
  (forall items, Forall P items -> P (AArray items)) ->
  (forall entries, Forall (fun e => P e.2) entries -> P (AObject entries)) ->
  forall v, P v.
Proof.
  intros Hn Hb Hs Ht Hf Hf32 Hi Hu Ha Ho. fix IH 1. intros [| | | | | | | |items|entries].
  - exact Hn.
  - apply Hb.
  - apply Hs.
  - apply Ht.
  - apply Hf.
  - apply Hf32.
  - apply Hi.
  - apply Hu.
  - apply Ha. induction items as [|x items IHl]; constructor; [apply IH|exact IHl].
  - apply Ho. induction entries as [|[k x] entries IHl]; constructor; [apply IH|exact IHl].
Qed.

Definition key_lt {A} (x y : string * A) : Prop := str_lt x.1 y.1 = true.

Section round_trip.
Variable ParseFloat64 : string -> outcome string Z.
Variable json_round_trip : any -> outcome string any.

(** What the decoder returns for a value: numbers come back as float64. *)
Fixpoint as_decoded (v : any) : any :=
  match v with
  | ANumber text =>
    match ParseFloat64 text with Ret n => AFloat64 n | _ => ANil end
  | AFloat32 n => AFloat64 (float64_of_float32 n)
  | AInt n | AUint n => AFloat64 (float64_of_integer n)
  | AArray items => AArray (map as_decoded items)
  | AObject entries => AObject (map (fun e => (e.1, as_decoded e.2)) entries)
  | _ => v
  end.

(** A well-formed value: the machine representation of a Go value.  Lengths fit
    a 64-bit count, a slice of items fits the address space, floats are 64-bit
    patterns and a map has its entries in key order. *)
Inductive wf_any : any -> Prop :=
| wf_nil : wf_any ANil
| wf_bool b : wf_any (ABool b)
| wf_string s : Z.of_nat (String.length s) < 2 ^ 64 -> wf_any (AString s)
| wf_number t : (forall n, ParseFloat64 t = Ret n -> 0 <= n < 2 ^ 64) -> wf_any (ANumber t)
| wf_float n : 0 <= n < 2 ^ 64 -> wf_any (AFloat64 n)
| wf_float32 n : 0 <= float64_of_float32 n < 2 ^ 64 -> wf_any (AFloat32 n)
| wf_int n : 0 <= float64_of_integer n < 2 ^ 64 -> wf_any (AInt n)
| wf_uint n : 0 <= float64_of_integer n < 2 ^ 64 -> wf_any (AUint n)
| wf_array items :
    16 * Z.of_nat (length items) <= 2 ^ 48 -> Forall wf_any items -> wf_any (AArray items)
| wf_object entries :
    Z.of_nat (length entries) < 2 ^ 64 ->
    StronglySorted key_lt entries ->
    Forall (fun e => Z.of_nat (String.length e.1) < 2 ^ 64) entries ->
    Forall (fun e => wf_any e.2) entries -> wf_any (AObject entries).

Lemma sequence_bytes_Ret l bs :
  sequence_bytes l = Ret bs -> exists parts, l = map Ret parts /\ bs = concat parts.
Proof.
  revert bs. induction l as [|o l IH]; intros bs Hl; simpl in Hl; inv_outcome.
  - by exists [].
  - destruct (IH _ eq_refl) as (parts & -> & ->). by exists (a :: parts).
Qed.

Lemma of_to_bytes s : of_bytes (to_bytes s) = s.
Proof. apply String.string_of_list_ascii_of_string. Qed.

Lemma length_to_bytes s : length (to_bytes s) = String.length s.
Proof. induction s; simpl; auto. Qed.

Lemma writeNumber_nonempty n bs : writeNumber n = Ret bs -> (0 < length bs)%nat.
Proof. unfold writeNumber. destruct (non_finite n); [done|]. intros [= <-]. cbn. lia. Qed.

Lemma writeValue_nonempty v bs : writeValue ParseFloat64 v = Ret bs -> (0 < length bs)%nat.
Proof.
  destruct v; cbn [writeValue]; intros E; inv_outcome;
    solve [eapply writeNumber_nonempty; eassumption | cbn [length]; lia].
Qed.

Lemma reads_n_data {A} (rd : decoder -> outcome string (A * decoder)) (l : list (list ascii * A)) :
  Forall (fun e => reads rd e.1 e.2) l -> Forall (fun e => (0 < length e.1)%nat) l ->
  reads (fun d => read_n rd (S (length (data d))) (Z.of_nat (length l)) d)
        (concat (map fst l)) (map snd l).
Proof.
  intros Hr Hn pre suf. apply reads_n; [done|]. simpl.
  assert (length l <= length (concat (map fst l)))%nat as Hc.
  { clear Hr. induction Hn; simpl; [lia|]. rewrite length_app. lia. }
  rewrite !length_app. lia.
Qed.

Lemma map_set_append k (v : any) m :
  Forall (fun e => str_lt e.1 k = true) m -> map_set k v m = m ++ [(k, v)].
Proof.
  induction 1 as [|[k' v'] m Hk Hm IH]; simpl in *; [done|].
  destruct (String.eqb_spec k k') as [->|_]; [by rewrite str_lt_irrefl in Hk|].
  by rewrite (str_lt_asym _ _ Hk), IH.
Qed.

Lemma build_map_sorted (entries : list (string * any)) :
  StronglySorted key_lt entries -> build_map entries = entries.
Proof.
  unfold build_map. intros Hs.
  enough (forall acc, StronglySorted key_lt (acc ++ entries) ->
    fold_left (fun m e => map_set e.1 e.2 m) entries acc = acc ++ entries) as Hgen
    by (apply (Hgen []); exact Hs).
  clear Hs. induction entries as [|[k v] entries IH]; intros acc Hacc; simpl.
  - by rewrite (right_id_L [] (++)).
  - rewrite map_set_append.
    + rewrite IH; rewrite <- (assoc_L (++)); done.
    + apply Forall_forall. intros e He.
      apply (StronglySorted_app_1_elem_of key_lt acc ((k, v) :: entries) e (k, v) Hacc He).
      left.
Qed.

(** The entry reader of the decoder consumes what the encoder writes. *)
Lemma reads_entry rd k bs v :
  Z.of_nat (String.length k) < 2 ^ 64 -> reads rd bs v ->
  reads (read_entry rd) (writeBytes (to_bytes k) ++ bs) (k, v).
Proof.
  intros Hk Hv. unfold read_entry.
  apply (reads_bind readBytes (fun '(key, d1) => _) _ _ (to_bytes k)).
  { apply reads_bytes. by rewrite length_to_bytes. }
  rewrite of_to_bytes, <- (right_id_L [] (++) bs).
  apply (reads_bind rd (fun '(v, d2) => Ret (k, v, d2)) _ _ v); [done|apply reads_ret].
Qed.

Lemma Forall2_parts {A} (f : A -> outcome string (list ascii)) l parts :
  map f l = map Ret parts -> Forall2 (fun x p => f x = Ret p) l parts.
Proof.
  revert parts. induction l as [|x l IH]; intros [|p parts] E; simplify_eq/=; constructor; auto.
Qed.

Lemma written_sorted (g : string * any -> outcome string (list ascii)) entries :
  StronglySorted key_lt entries ->
  sort_stable key_before (map (fun e => (e.1, g e)) entries) = map (fun e => (e.1, g e)) entries.
Proof.
  intros Hs. apply sort_stable_id. induction Hs as [|e l Hs IH He]; simpl; constructor; [done|].
  rewrite Forall_map. eapply Forall_impl; [exact He|]. intros e' Hlt.
  by apply str_lt_asym.
Qed.

Lemma length_concat_elem {A} (p : list A) parts : p ∈ parts -> (length p <= length (concat parts))%nat.
Proof.
  intros Hp. apply list_elem_of_split in Hp as (l1 & l2 & ->).
  rewrite concat_app. simpl. rewrite !length_app. lia.
Qed.

(** A reader that starts with a tag byte. *)
Ltac read_tag t :=
  refine (reads_bind readByte _ [chr t] _ t _ (reads_byte t ltac:(done)) _);
  cbv beta iota zeta; cbn [Z.eqb Pos.eqb].

Lemma reads_number f n :
  0 <= n < 2 ^ 64 -> reads (readValue (S f)) (chr tagNumber :: le_bytes 8 n) (AFloat64 n).
Proof.
  intros Hn. read_tag tagNumber. intros pre suf. cbn [data pos].
  rewrite (proj2 (Nat.ltb_ge _ _)) by (rewrite !length_app, length_le_bytes; lia).
  pose proof (slice_app pre (le_bytes 8 n) suf) as Hs. rewrite length_le_bytes in Hs.
  rewrite Hs. unfold mbind, outcome_bind. rewrite le_value_bytes by done. by rewrite length_le_bytes.
Qed.

Lemma reads_writeNumber f n bs :
  0 <= n < 2 ^ 64 -> writeNumber n = Ret bs -> reads (readValue (S f)) bs (AFloat64 n).
Proof.
  unfold writeNumber. intros Hn. destruct (non_finite n); [done|]. intros [= <-].
  by apply reads_number.
Qed.

Lemma reads_array f (l : list (list ascii * any)) :
  16 * Z.of_nat (length l) <= 2 ^ 48 ->
  Forall (fun e => reads (readValue f) e.1 e.2) l -> Forall (fun e => (0 < length e.1)%nat) l ->
  reads (readValue (S f)) (chr tagArray :: writeUvarint (Z.of_nat (length l)) ++ concat (map fst l))
        (AArray (map snd l)).
Proof.
  intros Hlen Hr Hn. read_tag tagArray.
  refine (reads_bind readUvarint _ _ _ (Z.of_nat (length l)) _ (reads_uvarint _ _) _); [lia|].
  cbv beta iota. unfold make_any_slice_panics. rewrite (proj2 (Z.ltb_ge _ _)) by lia.
  rewrite <- (right_id_L [] (++) (concat _)).
  refine (reads_bind (fun d => read_n _ _ _ d) _ _ [] (map snd l) _ (reads_n_data _ l Hr Hn) _).
  apply reads_ret.
Qed.

Lemma reads_object f (l : list (list ascii * (string * any))) :
  Z.of_nat (length l) < 2 ^ 64 ->
  Forall (fun e => reads (read_entry (readValue f)) e.1 e.2) l ->
  Forall (fun e => (0 < length e.1)%nat) l ->
  reads (readValue (S f)) (chr tagObject :: writeUvarint (Z.of_nat (length l)) ++ concat (map fst l))
        (AObject (build_map (map snd l))).
Proof.
  intros Hlen Hr Hn. read_tag tagObject.
  refine (reads_bind readUvarint _ _ _ (Z.of_nat (length l)) _ (reads_uvarint _ _) _); [lia|].
  cbv beta iota. rewrite <- (right_id_L [] (++) (concat _)).
  refine (reads_bind (fun d => read_n _ _ _ d) _ _ [] (map snd l) _ (reads_n_data _ l Hr Hn) _).
  apply reads_ret.
Qed.

Lemma as_decoded_sorted entries :
  StronglySorted key_lt entries ->
  StronglySorted key_lt (map (fun e => (e.1, as_decoded e.2)) entries).
Proof.
  induction 1 as [|e l Hs IH He]; simpl; constructor; [done|]. by rewrite Forall_map.
Qed.

(** The encoded parts of a container, each with what its reader returns. *)
Lemma gather_parts {A B} (w : A -> outcome string (list ascii)) (dv : A -> B) rd l parts :
  sequence_bytes (map w l) = Ret (concat parts) -> map w l = map Ret parts ->
  Forall (fun x => forall p, (length p <= length (concat parts))%nat -> w x = Ret p ->
    reads rd p (dv x) /\ (0 < length p)%nat) l ->
  exists e, map fst e = parts /\ map snd e = map dv l /\ length e = length l
    /\ Forall (fun x => reads rd x.1 x.2) e /\ Forall (fun x => (0 < length x.1)%nat) e.
Proof.
  intros _ Hp Hl. apply Forall2_parts in Hp.
  assert (Forall (fun p => (length p <= length (concat parts))%nat) parts) as Hs
    by (apply Forall_forall; intros; by apply length_concat_elem).
  revert Hl Hs. generalize (length (concat parts)) as n. intros n.
  induction Hp as [|x p l parts Hx Hp IH]; intros Hl Hs.
  - by exists [].
  - inversion Hl as [|? ? Hx' Hl']; inversion Hs as [|? ? Hp' Hs']; subst.
    destruct (IH Hl' Hs') as (e & <- & Hsnd & Hlen & Hr & Hn).
    destruct (Hx' p Hp' Hx) as [Hrd Hne].
    exists ((p, dv x) :: e). simpl. rewrite Hsnd, Hlen. by repeat constructor.
Qed.

(** The value lemma behind the round trip. *)
Lemma readValue_writeValue v f bs :
  wf_any v -> writeValue ParseFloat64 v = Ret bs -> (length bs <= f)%nat ->
  reads (readValue f) bs (as_decoded v).
Proof.
  intros Hwf Hw Hf.
  assert (exists f', f = S f') as [f' ->].
  { apply writeValue_nonempty in Hw. destruct f; [lia|eauto]. }
  revert f' bs Hwf Hw Hf. induction v as [|b|s|t|n|n|n|n|items IHs|entries IHs] using any_ind';
    intros f bs Hwf Hw Hf; inversion Hwf; subst; cbn [writeValue as_decoded] in *; inv_outcome.
  - read_tag tagNull. apply reads_ret.
  - destruct b; [read_tag tagTrue|read_tag tagFalse]; apply reads_ret.
  - read_tag tagString. rewrite <- (right_id_L [] (++) (writeBytes _)).
    rewrite <- (of_to_bytes s) at 2.
    refine (reads_bind readBytes _ _ [] (to_bytes s) _ (reads_bytes _ _) _);
      [by rewrite length_to_bytes|apply reads_ret].
  - eapply reads_writeNumber; eauto.
  - by apply reads_writeNumber.
  - by apply reads_writeNumber.
  - by apply reads_writeNumber.
  - by apply reads_writeNumber.
  - match goal with E : sequence_bytes _ = _ |- _ => rename E into Hseq end.
    destruct (sequence_bytes_Ret _ _ Hseq) as (parts & Hp & ->).
    destruct (gather_parts _ as_decoded (readValue f) _ _ Hseq Hp)
      as (e & <- & <- & Hlen & Hr & Hn);
      [|rewrite <- Hlen; apply reads_array; [lia|done..]].
    rewrite Forall_forall in *. intros x Hx p Hlp Hxp.
    pose proof (writeValue_nonempty _ _ Hxp) as Hne. split; [|done].
    destruct f as [|f]; [simpl in Hf; rewrite length_app in Hf; lia|].
    apply IHs; auto. simpl in Hf. rewrite length_app in Hf. lia.
  - match goal with E : sequence_bytes _ = _ |- _ => rename E into Hseq end.
    rewrite written_sorted, map_map in Hseq by done. cbn [snd] in Hseq.
    destruct (sequence_bytes_Ret _ _ Hseq) as (parts & Hp & ->).
    rewrite <- (build_map_sorted (map (fun e => (e.1, as_decoded e.2)) entries))
      by (by apply as_decoded_sorted).
    destruct (gather_parts _ (fun e => (e.1, as_decoded e.2)) (read_entry (readValue f)) _ _ Hseq Hp)
      as (e & <- & <- & Hlen & Hr & Hn);
      [|rewrite <- Hlen; apply reads_object; [lia|done..]].
    assert (Forall (fun e => Z.of_nat (String.length e.1) < 2 ^ 64) entries) as Hk by done.
    assert (Forall (fun e => wf_any e.2) entries) as Hv by done.
    rewrite Forall_forall in Hk, Hv, IHs |- *. intros [k x] Hx p Hlp Hxp. simpl in Hxp. inv_outcome.
    match goal with E : writeValue _ _ = Ret ?q |- _ =>
      pose proof (writeValue_nonempty _ _ E) as Hne; rename E into Hq end.
    simpl in Hf. rewrite !length_app in Hf. rewrite length_app in Hlp. rewrite length_app.
    split; [|lia]. destruct f as [|f]; [lia|].
    apply reads_entry; [by apply (Hk (k, x))|].
    apply (IHs (k, x) Hx); [by apply (Hv (k, x))|exact Hq|simpl; lia].
Qed.
End round_trip.

(** ** Every reader is local, bounded and total *)

(** [good m rd rd' d]: run on [d], the reader [rd] either consumes at least [m]
    bytes without leaving the data, and then [rd'] returns the same on every
    extension of the data, or it reports an error that is not the exhaustion of
    the fuel, or it panics on the allocation of a slice. *)
Definition good {A} (m : nat) (rd rd' : decoder -> outcome string (A * decoder)) (d : decoder) : Prop :=
  match rd d with
  | Ret (a, d') =>
    data d' = data d /\ (pos d + m <= pos d' <= length (data d))%nat
    /\ forall suf, rd' (Decoder (data d ++ suf) (pos d)) = Ret (a, Decoder (data d ++ suf) (pos d'))
  | Fail e => e <> out_of_fuel
  | Panic msg => msg = makeslice_panic
  end.

Lemma good_bind {A B} m1 m2 rd rd' (k k' : A * decoder -> outcome string (B * decoder)) d :
  good m1 rd rd' d ->
  (forall a d', data d' = data d -> (pos d + m1 <= pos d' <= length (data d))%nat ->
     good m2 (fun d => k (a, d)) (fun d => k' (a, d)) d') ->
  good (m1 + m2) (fun d => rd d ≫= k) (fun d => rd' d ≫= k') d.
Proof.
  unfold good. intros H1 H2. destruct (rd d) as [[a d']| |]; simpl; [|done..].
  destruct H1 as (Hd & Hp & Hx). specialize (H2 a d' Hd Hp).
  destruct (k (a, d')) as [[b d'']| |]; [|done..]. rewrite Hd in H2.
  destruct H2 as (Hd2 & Hp2 & Hx2). split; [done|]. split; [lia|].
  intros suf. rewrite Hx. simpl. apply Hx2.
Qed.

Lemma good_ret {A} (a : A) d : (pos d <= length (data d))%nat ->
  good 0 (fun d => Ret (a, d)) (fun d => Ret (a, d)) d.
Proof. intros. unfold good. split; [done|]. split; [lia|done]. Qed.

Lemma good_weaken {A} m m' (rd rd' : decoder -> outcome string (A * decoder)) d :
  (m' <= m)%nat -> good m rd rd' d -> good m' rd rd' d.
Proof.
  unfold good. intros Hm Hg. destruct (rd d) as [[a d']| |]; [|done..].
  destruct Hg as (Hd & Hp & Hx). split; [done|]. split; [lia|done].
Qed.

Lemma good_byte d : (pos d <= length (data d))%nat -> good 1 readByte readByte d.
Proof.
  intros Hp. unfold good, readByte. destruct (data d !! pos d) as [b|] eqn:E; [|done].
  pose proof (lookup_lt_Some _ _ _ E). split; [done|]. split; [simpl; lia|].
  intros suf. simpl. by rewrite (lookup_app_l_Some _ _ _ _ E).
Qed.

Lemma uvarint_loop_prefix i x s buf v n :
  uvarint_loop i x s buf = (v, n) -> 0 < n ->
  Z.of_nat i < n <= Z.of_nat (i + length buf)
  /\ forall suf, uvarint_loop i x s (buf ++ suf) = (v, n).
Proof.
  revert i x s. induction buf as [|b buf IH]; intros i x s E Hn; simpl in E.
  { simplify_eq. lia. }
  simpl. destruct (Nat.eqb i 10); [simplify_eq; lia|].
  destruct (code b <? 128).
  - destruct (Nat.eqb i 9 && (1 <? code b)); simplify_eq; [lia|]. split; [lia|done].
  - destruct (IH _ _ _ E Hn) as [Hb Hs]. split; [lia|done].
Qed.

Lemma good_uvarint d : (pos d <= length (data d))%nat -> good 1 readUvarint readUvarint d.
Proof.
  intros Hp. unfold good, readUvarint. rewrite slice_ok by lia. unfold mbind, outcome_bind.
  rewrite take_ge by (rewrite length_drop; lia).
  destruct (Uvarint (drop (pos d) (data d))) as [v n] eqn:E.
  destruct (Z.leb_spec n 0) as [Hn|Hn]; [done|].
  destruct (uvarint_loop_prefix _ _ _ _ _ _ E Hn) as [Hb Hs].
  rewrite length_drop in Hb. split; [done|]. split; [simpl; lia|].
  intros suf. cbn [data pos]. rewrite slice_ok by (rewrite length_app; lia).
  rewrite take_ge by (rewrite length_drop; lia).
  rewrite drop_app_le by done. unfold Uvarint. rewrite Hs.
  by rewrite (proj2 (Z.leb_gt _ _)) by lia.
Qed.

Lemma good_bytes d : (pos d <= length (data d))%nat -> good 1 readBytes readBytes d.
Proof.
  intros Hp. unfold readBytes. apply (good_bind 1 0); [by apply good_uvarint|].
  intros n d' Hd Hp'. rewrite <- Hd in Hp'. unfold good.
  destruct (Z.ltb_spec (Z.of_nat (length (data d')) - Z.of_nat (pos d')) n) as [Hn|Hn]; [done|].
  rewrite slice_ok by lia. unfold mbind, outcome_bind.
  split; [done|]. split; [simpl; lia|].
  intros suf. cbn [data pos]. rewrite (proj2 (Z.ltb_ge _ _)) by (rewrite length_app; lia).
  rewrite slice_ok by (rewrite length_app; lia).
  rewrite drop_app_le by lia. rewrite take_app_le; [done|].
  rewrite length_drop. lia.
Qed.

Lemma good_read_n {A} (rd rd' : decoder -> outcome string (A * decoder)) k k' n d :
  (k <= k')%nat -> (pos d <= length (data d) < pos d + k)%nat ->
  (forall d', data d' = data d -> (pos d <= pos d' <= length (data d))%nat -> good 1 rd rd' d') ->
  good 0 (read_n rd k n) (read_n rd' k' n) d.
Proof.
  revert k' n d. induction k as [|k IH]; intros k' n d Hk Hd Hr; [lia|].
  destruct k' as [|k']; [lia|]. cbn [read_n].
  destruct (Z.leb_spec n 0) as [Hn|Hn]; [apply good_ret; lia|].
  apply (good_weaken (1 + 0)); [lia|].
  apply good_bind; [apply Hr; [done|lia]|]. intros a d1 Hd1 Hp1.
  apply (good_weaken (0 + 0)); [lia|]. apply good_bind.
  - apply IH; [lia|rewrite Hd1; lia|]. intros d' Hd' Hp'. apply Hr; [congruence|]. rewrite Hd1 in Hp'. lia.
  - intros l d2 Hd2 Hp2. apply good_ret. rewrite Hd2. lia.
Qed.

Lemma good_read_n_data {A} (rd rd' : decoder -> outcome string (A * decoder)) n d :
  (pos d <= length (data d))%nat ->
  (forall d', data d' = data d -> (pos d <= pos d' <= length (data d))%nat -> good 1 rd rd' d') ->
  good 0 (fun d => read_n rd (S (length (data d))) n d)
         (fun d => read_n rd' (S (length (data d))) n d) d.
Proof.
  intros Hd Hr. unfold good.
  pose proof (fun k' => good_read_n rd rd' (S (length (data d))) k' n d) as Hg.
  unfold good in Hg. destruct (read_n rd _ n d) as [[l d']| |].
  - destruct (Hg (S (length (data d)))) as (Hd' & Hp & _); [lia..|done|].
    split; [done|]. split; [done|]. intros suf. cbn [data].
    eapply Hg; [rewrite length_app; lia|lia|done].
  - apply (Hg (S (length (data d)))); [lia..|done].
  - apply (Hg (S (length (data d)))); [lia..|done].
Qed.

Lemma good_entry rd rd' d :
  (pos d <= length (data d))%nat ->
  (forall d', data d' = data d -> (pos d <= pos d' <= length (data d))%nat -> good 1 rd rd' d') ->
  good 1 (read_entry rd) (read_entry rd') d.
Proof.
  intros Hp Hr. unfold read_entry.
  apply (good_weaken (1 + (1 + 0))); [lia|]. apply good_bind; [by apply good_bytes|].
  intros key d1 Hd1 Hp1. apply good_bind.
  - apply Hr; [done|lia].
  - intros v d2 Hd2 Hp2. apply good_ret. rewrite Hd2. lia.
Qed.

Lemma unknown_tag_not_fuel n : ("unknown scenery wire tag " +:+ n) <> out_of_fuel.
Proof. done. Qed.

Lemma good_number d : (pos d <= length (data d))%nat ->
  good 0 (fun d => if Nat.ltb (length (data d)) (pos d + 8) then Fail "truncated number"
          else raw ← slice (data d) (pos d) (pos d + 8);
               Ret (AFloat64 (le_value raw), Decoder (data d) (pos d + 8)))
         (fun d => if Nat.ltb (length (data d)) (pos d + 8) then Fail "truncated number"
          else raw ← slice (data d) (pos d) (pos d + 8);
               Ret (AFloat64 (le_value raw), Decoder (data d) (pos d + 8))) d.
Proof.
  intros Hp. unfold good. destruct (Nat.ltb_spec (length (data d)) (pos d + 8)); [done|].
  rewrite slice_ok by lia. unfold mbind, outcome_bind. split; [done|]. split; [simpl; lia|].
  intros suf. cbn [data pos].
  rewrite (proj2 (Nat.ltb_ge _ _)) by (rewrite length_app; lia).
  rewrite slice_ok by (rewrite length_app; lia).
  rewrite drop_app_le by lia. by rewrite take_app_le by (rewrite length_drop; lia).
Qed.

(** The value reader is local, bounded and total. *)
Lemma good_readValue f f' d :
  (f <= f')%nat -> (pos d <= length (data d) < pos d + f)%nat ->
  good 1 (readValue f) (readValue f') d.
Proof.
  revert f' d. induction f as [|f IH]; intros f' d Hf Hd; [lia|].
  destruct f' as [|f']; [lia|]. cbn [readValue].
  apply (good_weaken (1 + 0)); [lia|]. apply good_bind; [apply good_byte; lia|].
  intros tag d1 Hd1 Hp1. rewrite <- Hd1 in Hd, Hp1.
  assert (forall d', data d' = data d1 -> (pos d1 <= pos d' <= length (data d1))%nat ->
    good 1 (readValue f) (readValue f') d') as Hrec.
  { intros d' Hd' Hp'. apply IH; [lia|]. rewrite Hd'. lia. }
  destruct (tag =? tagNull); [apply good_ret; lia|].
  destruct (tag =? tagFalse); [apply good_ret; lia|].
  destruct (tag =? tagTrue); [apply good_ret; lia|].
  destruct (tag =? tagNumber); [apply good_number; lia|].
  destruct (tag =? tagString).
  { apply (good_weaken (1 + 0)); [lia|]. apply good_bind; [apply good_bytes; lia|].
    intros raw d2 Hd2 Hp2. apply good_ret. rewrite Hd2. lia. }
  destruct (tag =? tagArray); [|destruct (tag =? tagObject)].
  - apply (good_weaken (1 + 0)); [lia|]. apply good_bind; [apply good_uvarint; lia|].
    intros n d2 Hd2 Hp2. destruct (make_any_slice_panics n); [done|].
    apply (good_weaken (0 + 0)); [lia|]. apply good_bind.
    + apply good_read_n_data; [rewrite Hd2; lia|]. rewrite Hd2. intros d' Hd' Hp'.
      apply Hrec; [done|lia].
    + intros items d3 Hd3 Hp3. apply good_ret. rewrite Hd3. lia.
  - apply (good_weaken (1 + 0)); [lia|]. apply good_bind; [apply good_uvarint; lia|].
    intros n d2 Hd2 Hp2. apply (good_weaken (0 + 0)); [lia|]. apply good_bind.
    + apply good_read_n_data; [rewrite Hd2; lia|]. rewrite Hd2. intros d' Hd' Hp'.
      apply good_entry; [rewrite Hd'; lia|]. rewrite Hd'. intros d4 Hd4 Hp4.
      apply Hrec; [done|lia].
    + intros entries d3 Hd3 Hp3. apply good_ret. rewrite Hd3. lia.
  - apply unknown_tag_not_fuel.
Qed.

(** ** Hashing *)
Lemma to_bytes_inj a b : to_bytes a = to_bytes b -> a = b.
Proof. intros E. by rewrite <- (of_to_bytes a), <- (of_to_bytes b), E. Qed.

Lemma of_bytes_inj a b : of_bytes a = of_bytes b -> a = b.
Proof.
  intros E. rewrite <- (String.list_ascii_of_string_of_list_ascii a).
  rewrite <- (String.list_ascii_of_string_of_list_ascii b). unfold of_bytes in E. by rewrite E.
Qed.

Lemma hex_digit_inj a b : 0 <= a < 16 -> 0 <= b < 16 -> hex_digit a = hex_digit b -> a = b.
Proof.
  intros Ha Hb E. apply (f_equal code) in E. unfold hex_digit in E.
  destruct (Z.ltb_spec a 10), (Z.ltb_spec b 10); rewrite !code_chr in E by lia; lia.
Qed.

Lemma hex_encode_inj a b : hex_encode a = hex_encode b -> a = b.
Proof.
  revert b. induction a as [|x a IH]; intros [|y b] E; [done..|].
  cbn [hex_encode] in E. injection E as E1 E2 E3. f_equal; [|by apply IH].
  pose proof (code_bound x). pose proof (code_bound y).
  apply hex_digit_inj in E1; [|split; [apply Z.div_pos; lia|apply Z.div_lt_upper_bound; lia]..].
  apply hex_digit_inj in E2; [|apply Z.mod_pos_bound; lia..].
  rewrite <- (chr_code x), <- (chr_code y). f_equal.
  rewrite (Z.div_mod (code x) 16), (Z.div_mod (code y) 16) by lia. congruence.
Qed.

Lemma split_at_zero (l1 l2 r1 r2 : list ascii) :
  chr 0 ∉ l1 -> chr 0 ∉ l2 -> l1 ++ chr 0 :: r1 = l2 ++ chr 0 :: r2 -> l1 = l2 /\ r1 = r2.
Proof.
  revert l2. induction l1 as [|x l1 IH]; intros [|y l2] H1 H2 E; simpl in E.
  - by injection E.
  - injection E as E _. subst. exfalso. apply H2. left.
  - injection E as E _. subst. exfalso. apply H1. left.
  - injection E as -> E. rewrite not_elem_of_cons in H1, H2.
    destruct H1, H2, (IH l2) as [-> ->]; done.
Qed.

Lemma digit_char_nonzero x : pretty_N_char x <> chr 0.
Proof. unfold pretty_N_char. by repeat case_match. Qed.

Lemma pretty_N_go_nonzero x t :
  chr 0 ∉ to_bytes t -> chr 0 ∉ to_bytes (pretty_N_go x t).
Proof.
  revert t. induction (N.lt_wf_0 x) as [x _ IH]; intros t Ht.
  destruct (decide (0 < x)%N) as [Hx|Hx].
  - rewrite pretty_N_go_step by done. apply IH; [by apply N.div_lt|].
    simpl. rewrite not_elem_of_cons. split; [|done]. intros E. by apply (digit_char_nonzero (x mod 10)).
  - replace x with 0%N by lia. by rewrite pretty_N_go_0.
Qed.

Lemma Itoa_nonzero n : 0 <= n -> chr 0 ∉ to_bytes (Strconv.Itoa n).
Proof.
  intros Hn. unfold Strconv.Itoa, pretty, pretty_Z. destruct n as [|n|n]; [|..|lia].
  - by apply (bool_decide_unpack _).
  - unfold pretty, pretty_positive, pretty, pretty_N. case_decide; [done|].
    apply pretty_N_go_nonzero. apply not_elem_of_nil.
Qed.

Lemma hash_input_inj p q : hash_input p = hash_input q -> p = q.
Proof.
  revert q. induction p as [|x p IH]; intros [|y q] E; cbn [hash_input] in E.
  - done.
  - by destruct (to_bytes (Strconv.Itoa _)).
  - by destruct (to_bytes (Strconv.Itoa _)).
  - cbn [app] in E. apply split_at_zero in E as [El E]; [|apply Itoa_nonzero; lia..].
    apply to_bytes_inj, (inj pretty), Nat2Z.inj in El.
    rewrite <- !length_to_bytes in El. apply app_inj_1 in E as [Ex E]; [|done].
    injection E as E. by rewrite (to_bytes_inj _ _ Ex), (IH _ E).
Qed.

(** ** Properties *)
Section properties.
Variable ParseFloat64 : string -> outcome string Z.
Variable json_round_trip : any -> outcome string any.

(** Every number of the value is a finite float64. *)
Fixpoint numbers_ok (v : any) : bool :=
  match v with
  | ANumber text =>
    match ParseFloat64 text with Ret n => negb (non_finite n) | _ => false end
  | AFloat64 n => negb (non_finite n)
  | AFloat32 n => negb (non_finite (float64_of_float32 n))
  | AInt n | AUint n => negb (non_finite (float64_of_integer n))
  | AArray items => forallb numbers_ok items
  | AObject entries => forallb (fun e => numbers_ok e.2) entries
  | _ => true
  end.

Lemma sequence_bytes_total l :
  Forall (fun o => exists b, o = Ret b) l -> exists bs, sequence_bytes l = Ret bs.
Proof.
  induction 1 as [|o l [b ->] _ [bs IH]]; simpl; [eauto|]. rewrite IH. simpl. eauto.
Qed.

Lemma writeNumber_total n : non_finite n = false -> exists bs, writeNumber n = Ret bs.
Proof. unfold writeNumber. intros ->. eauto. Qed.

Lemma writeValue_total v : numbers_ok v = true -> exists bs, writeValue ParseFloat64 v = Ret bs.
Proof.
  induction v as [|b|s|t|n|n|n|n|items IH|entries IH] using any_ind';
    cbn [numbers_ok writeValue]; intros Hn; [by eexists..| | | | | | |].
  - destruct (ParseFloat64 t); [|done..]. by apply writeNumber_total, negb_true_iff.
  - by apply writeNumber_total, negb_true_iff.
  - by apply writeNumber_total, negb_true_iff.
  - by apply writeNumber_total, negb_true_iff.
  - by apply writeNumber_total, negb_true_iff.
  - apply Is_true_eq_left in Hn. rewrite forallb_True, Forall_forall in Hn.
    destruct (sequence_bytes_total (map (writeValue ParseFloat64) items)) as [bs ->]; [|by eexists].
    rewrite Forall_map, Forall_forall. rewrite Forall_forall in IH. intros x Hx.
    apply IH; [done|]. by apply Is_true_eq_true, Hn.
  - apply Is_true_eq_left in Hn. rewrite forallb_True, Forall_forall in Hn.
    match goal with |- context [sequence_bytes ?l] =>
      destruct (sequence_bytes_total l) as [bs ->]; [|by eexists] end.
    rewrite Forall_map, (sort_stable_perm key_before), Forall_map, Forall_forall.
    rewrite Forall_forall in IH. intros e He. cbn [snd].
    destruct (IH e He) as [b ->]; [by apply Is_true_eq_true, Hn|]. by eexists.
Qed.

End properties.

(** A request frame decodes to the three fields it was made of. *)
Theorem DecodeRequestFrame_Encode schemaHash params payload :
  Z.of_nat (String.length schemaHash) < 2 ^ 64 ->
  Z.of_nat (length params) < 2 ^ 64 -> Z.of_nat (length payload) < 2 ^ 64 ->
  DecodeRequestFrame (EncodeRequestFrame schemaHash params payload)
  = Some (Ret {| SchemaHash := schemaHash; PathParamsJSON := params; rq_PayloadJSON := payload |}).
Proof.
  intros H1 H2 H3. unfold DecodeRequestFrame, EncodeRequestFrame, has_magic, appendSizedBytes.
  rewrite <- !(assoc_L (++)).
  rewrite take_app_length, bool_decide_true, drop_app_length by done. cbn [negb]. f_equal.
  fold (writeBytes payload). rewrite !(assoc_L (++) (writeUvarint _)).
  fold (writeBytes params) (writeBytes (to_bytes schemaHash)).
  set (h := writeBytes (to_bytes schemaHash)). set (p := writeBytes params).
  set (q := writeBytes payload).
  rewrite (reads_at _ h (to_bytes schemaHash) [] (p ++ q)); [|by apply reads_bytes; rewrite length_to_bytes|done..].
  unfold mbind, outcome_bind.
  rewrite (reads_at _ p params h q); [|by apply reads_bytes|done..].
  rewrite (reads_at _ q payload (h ++ p) []);
    [|by apply reads_bytes|by rewrite (right_id_L [] (++)), (assoc_L (++))|done].
  cbn [data pos]. rewrite <- (assoc_L (++)), Nat.eqb_refl. cbn [negb]. by rewrite of_to_bytes.
Qed.

(** A response frame carries its status (200 for 0), its error flag and its
    payload, for every status an [int] can hold. *)
Theorem DecodeResponseFrame_Encode status isError payload :
  - 2 ^ 63 <= status < 2 ^ 63 -> Z.of_nat (length payload) < 2 ^ 64 ->
  DecodeResponseFrame (EncodeResponseFrame status isError payload)
  = Some (Ret {| Status := if status =? 0 then 200 else status; Error := isError;
                 rs_PayloadJSON := payload |}).
Proof.
  intros H1 H2. unfold DecodeResponseFrame, EncodeResponseFrame, has_magic, appendSizedBytes.
  set (st := if status =? 0 then 200 else status).
  assert (- 2 ^ 63 <= st < 2 ^ 63) as Hst by (subst st; destruct (status =? 0); lia).
  rewrite <- !(assoc_L (++)).
  rewrite take_app_length, bool_decide_true, drop_app_length by done. cbn [negb]. f_equal.
  fold (writeBytes payload). set (q := writeBytes payload).
  assert (writeUvarint st = writeUvarint (wrap_uint 64 st)) as Hu.
  { unfold writeUvarint, wrap_uint. by rewrite Z.mod_mod by lia. }
  rewrite Hu. set (u := writeUvarint (wrap_uint 64 st)).
  assert ([if isError then chr frameFlagError else chr 0] = [chr (if isError then 1 else 0)]) as ->
    by (by destruct isError).
  set (b := [chr (if isError then 1 else 0)]).
  rewrite (reads_at _ u (wrap_uint 64 st) [] (b ++ q)); [|apply reads_uvarint, wrap_uint_bound; lia|done..].
  unfold mbind, outcome_bind.
  rewrite (reads_at _ b (if isError then 1 else 0) u q); [|apply reads_byte; by destruct isError|done..].
  rewrite (reads_at _ q payload (u ++ b) []);
    [|by apply reads_bytes|by rewrite (right_id_L [] (++)), (assoc_L (++))|done].
  cbn [data pos]. rewrite <- (assoc_L (++)), Nat.eqb_refl. cbn [negb].
  rewrite wrap_int_uint by lia. by destruct isError.
Qed.

(** C18. Decoding is total and memory safe: on every input [Decode] returns, the
    recursion is never cut off, no slice expression is out of bounds, and the
    only panic is the allocation of a slice whose declared length does not fit. *)
Theorem Decode_total bytes :
  match Decode bytes with
  | Ret _ => True
  | Fail e => e <> out_of_fuel
  | Panic msg => msg = makeslice_panic
  end.
Proof.
  unfold Decode. destruct (has_magic magic bytes); cbn [negb]; [|done].
  set (l := drop (length magic) bytes).
  pose proof (good_readValue (S (length l)) (S (length l)) (Decoder l 0)) as Hg. unfold good in Hg.
  cbn [data pos] in *. destruct (readValue _ _) as [[v d]| |]; simpl; [|apply Hg; lia..].
  by destruct (Nat.eqb _ _).
Qed.

(** The wire format is prefix free: a payload that decodes is rejected as soon
    as anything follows it, so no truncation of a payload decodes. *)
Theorem Decode_trailing bytes v suf :
  Decode bytes = Ret v -> suf <> [] ->
  Decode (bytes ++ suf) = Fail "trailing scenery wire data".
Proof.
  unfold Decode, has_magic. intros Hd Hsuf.
  case_bool_decide as Hm; cbn [negb] in Hd; [|done].
  assert (length magic <= length bytes)%nat as Hlen.
  { rewrite <- Hm at 1. rewrite length_take. lia. }
  rewrite take_app_le, bool_decide_true, drop_app_le by done. cbn [negb data] in *.
  set (l := drop (length magic) bytes) in *.
  pose proof (good_readValue (S (length l)) (S (length (l ++ suf))) (Decoder l 0)) as Hg.
  unfold good in Hg. cbn [data pos] in Hg. destruct (readValue _ _) as [[w d]| |]; [|done..].
  destruct Hg as (Hdata & Hpos & Hext); [rewrite length_app; lia|lia|].
  unfold mbind, outcome_bind in Hd. destruct (Nat.eqb_spec (pos d) (length (data d))) as [Hp|]; [|done].
  rewrite Hext. unfold mbind, outcome_bind. cbn [data pos].
  rewrite (proj2 (Nat.eqb_neq _ _)); [done|]. rewrite Hp, Hdata, length_app.
  destruct suf; [done|]. simpl. lia.
Qed.

(** A declared array length above 2^44 makes [Decode] panic, whatever
    follows the header: the length is used to allocate before it is checked
    against the data that is left. *)
Theorem Decode_array_length_panics n suf :
  2 ^ 44 < n < 2 ^ 64 ->
  Decode (magic ++ chr tagArray :: writeUvarint n ++ suf) = Panic makeslice_panic.
Proof.
  intros Hn. unfold Decode, has_magic. rewrite take_app_length, bool_decide_true, drop_app_length by done.
  cbn [negb data]. cbn [readValue].
  change (chr tagArray :: writeUvarint n ++ suf) with ([chr tagArray] ++ writeUvarint n ++ suf).
  rewrite (reads_at _ [chr tagArray] tagArray [] (writeUvarint n ++ suf)); [|by apply reads_byte|done..].
  unfold mbind, outcome_bind. cbn [Z.eqb Pos.eqb tagNull tagFalse tagTrue tagNumber tagString tagArray].
  rewrite (reads_at _ (writeUvarint n) n [chr 5] suf); [|apply reads_uvarint; lia|done..].
  unfold make_any_slice_panics. by rewrite (proj2 (Z.ltb_lt _ _)) by lia.
Qed.

(** Two lists of parts with the same schema hash are equal, or they exhibit a
    collision of SHA-256: the framing of the parts is unambiguous. *)
Theorem HashParts_collision sha256 p q :
  HashParts sha256 p = HashParts sha256 q -> p <> q ->
  exists a b, a <> b /\ sha256 a = sha256 b.
Proof.
  intros E Hne. exists (hash_input p), (hash_input q).
  split; [by intros Hi%hash_input_inj|]. by apply hex_encode_inj, of_bytes_inj.
Qed.

(** The hash of the endpoints does not depend on the order in which they are
    listed, as long as their ids are distinct. *)
Theorem HashEndpoints_perm sha256 l l' :
  NoDup (map ID l) -> l ≡ₚ l' -> HashEndpoints sha256 l = HashEndpoints sha256 l'.
Proof.
  intros Hnd Hp. unfold HashEndpoints. do 3 f_equal.
  set (before := fun a b => str_lt (ID a) (ID b)).
  assert (forall l0, StronglySorted (not_after before) (sort_stable before l0)) as Hs.
  { intros l0. apply sort_stable_sorted; unfold before; intros.
    - by apply str_lt_asym.
    - by eapply str_lt_neg_trans. }
  eapply (StronglySorted_unique_strong (not_after before)); [|apply Hs..|].
  - intros x y Hx Hy Hxy Hyx. unfold not_after, before in Hxy, Hyx.
    rewrite (sort_stable_perm before) in Hx. rewrite (sort_stable_perm before), <- Hp in Hy.
    assert (ID x = ID y) as Hid by (destruct (str_lt_total (ID x) (ID y)) as [|[|]]; congruence).
    by apply (NoDup_map_inj ID l).
  - by rewrite !sort_stable_perm.
Qed.

(** ** Witnesses *)
Definition one_bits : Z := 4607182418800017408.
Definition parse_one (text : string) : outcome string Z := Ret one_bits.
Definition sample : any :=
  AObject [("a", AArray [ANil; ABool true; ANumber "1"]); ("b", AString "hi")].


Lemma DecodeRequestFrame_Encode_witness :
  DecodeRequestFrame (EncodeRequestFrame "h1" (to_bytes "{}") (to_bytes "[1]"))
  = Some (Ret {| SchemaHash := "h1"; PathParamsJSON := to_bytes "{}"; rq_PayloadJSON := to_bytes "[1]" |}).
Proof. apply DecodeRequestFrame_Encode; reflexivity. Defined.

Lemma DecodeResponseFrame_Encode_witness :
  DecodeResponseFrame (EncodeResponseFrame 404 true (to_bytes "null"))
  = Some (Ret {| Status := 404; Error := true; rs_PayloadJSON := to_bytes "null" |}).
Proof. apply (DecodeResponseFrame_Encode 404 true (to_bytes "null")); [lia|reflexivity]. Defined.

Lemma Decode_trailing_witness :
  Decode ((magic ++ [chr 2]) ++ [chr 0]) = Fail "trailing scenery wire data".
Proof. apply (Decode_trailing (magic ++ [chr 2]) (ABool true)); [reflexivity|discriminate]. Defined.

Lemma Decode_array_length_panics_witness :
  Decode (magic ++ chr 5 :: writeUvarint (2 ^ 45) ++ []) = Panic makeslice_panic.
Proof. apply (Decode_array_length_panics (2 ^ 45) []). split; reflexivity. Defined.

Lemma HashParts_collision_witness :
  exists a b, a <> b /\ (fun _ : list ascii => [chr 7]) a = (fun _ : list ascii => [chr 7]) b.
Proof. apply (HashParts_collision (fun _ => [chr 7]) ["a"] ["b"]); [reflexivity|discriminate]. Defined.

Definition sample_endpoint (id : string) : Endpoint :=
  {| ID := id; Service := "svc"; EndpointName := id; Path := "/" +:+ id; Methods := ["GET"];
     Available := true; UnsupportedReason := ""; ep_SchemaHash := "h"; SafeJSONRetry := true;
     WirePath := ""; RecoveryPathPattern := "" |}.

Lemma HashEndpoints_perm_witness :
  HashEndpoints id [sample_endpoint "x"; sample_endpoint "y"]
  = HashEndpoints id [sample_endpoint "y"; sample_endpoint "x"].
Proof.
  apply HashEndpoints_perm; [|apply Permutation_swap].
  apply (bool_decide_unpack _). reflexivity.
Defined.
End Wire.
