(* ===== verification/Router.v ===== *)
(** * The HTTP route table of the runtime ([runtime/router.go])

    [Router] models patterns, their matching, the registration order and the
    dispatch of a request.  A handler is an element of an arbitrary type [H];
    serving a request is the choice of a handler together with the Allow header
    that is set before it runs. *)
From stdpp Require Import base tactics list sorting gmap strings.
From Stdlib Require Import ZArith Lia Ascii.
From S2P Require Import Prelude GoStrings.

Module Router.
Inductive routeSegmentKind := routeLiteral | routeParam | routeWildcard.

#[export] Instance routeSegmentKind_eq_dec : EqDecision routeSegmentKind.
Proof. solve_decision. Defined.

Record routeSegment := { kind : routeSegmentKind; value : string }.

Record routePattern := {
  raw : string;
  segments : list routeSegment;
  literals : Z;
  hasParam : bool;
  hasWildcard : bool
}.

Record routeParamValue := { Key : string; Value : string }.

Abbreviation routeParams := (list routeParamValue).

Fixpoint ByName (p : routeParams) (name : string) : string :=
  match p with
  | [] => ""
  | param :: p' => if String.eqb (Key param) name then Value param else ByName p' name
  end.

(** ** Patterns *)
Definition splitRoutePath (path : string) : list string :=
  let path := Strings.Trim path "/" in
  if String.eqb path "" then [] else Strings.Split path "/".

Definition parse_segment (segment : string) : routeSegment :=
  if Strings.HasPrefix segment ":" then {| kind := routeParam; value := Strings.sdrop 1 segment |}
  else if Strings.HasPrefix segment "*" then {| kind := routeWildcard; value := Strings.sdrop 1 segment |}
  else {| kind := routeLiteral; value := segment |}.

(** One iteration of the loop over the segments of the path. *)
Definition add_segment (pattern : routePattern) (segment : string) : routePattern :=
  let seg := parse_segment segment in
  {| raw := raw pattern;
     segments := segments pattern ++ [seg];
     literals := match kind seg with routeLiteral => literals pattern + 1 | _ => literals pattern end;
     hasParam := match kind seg with routeParam => true | _ => hasParam pattern end;
     hasWildcard := match kind seg with routeWildcard => true | _ => hasWildcard pattern end |}.

Definition parseRoutePattern (path : string) : routePattern :=
  fold_left add_segment (splitRoutePath path)
    {| raw := path; segments := []; literals := 0; hasParam := false; hasWildcard := false |}.

(** The loop of [match] over the pattern segments and the request segments that
    are left, with the parameters collected so far. *)
Fixpoint match_loop (segs : list routeSegment) (req : list string) (params : routeParams)
  : option routeParams :=
  match segs with
  | [] => if bool_decide (req = []) then Some params else None
  | segment :: segs' =>
    match kind segment with
    | routeLiteral =>
      match req with
      | r :: req' => if String.eqb r (value segment) then match_loop segs' req' params else None
      | [] => None
      end
    | routeParam =>
      match req with
      | r :: req' => match_loop segs' req' (params ++ [{| Key := value segment; Value := r |}])
      | [] => None
      end
    | routeWildcard =>
      Some (params ++ [{| Key := value segment; Value := Strings.Join req "/" |}])
    end
  end.

Definition pattern_match (p : routePattern) (path : string) : option routeParams :=
  match_loop (segments p) (splitRoutePath path) [].

(** ** Methods *)
Definition routeAllowsMethod (methods : list string) (method : string) : bool :=
  bool_decide (method ∈ methods) || (String.eqb method "HEAD" && bool_decide ("GET" ∈ methods)).

(** The state of [appendAllowedMethod]: the methods collected and the set of the
    methods seen. *)
Definition append_one (st : list string * gset string) (method : string)
  : list string * gset string :=
  let '(methods, seen) := st in
  if bool_decide (method ∈ seen) then (methods, seen)
  else
    let seen := {[method]} ∪ seen in
    let methods := methods ++ [method] in
    if String.eqb method "GET" && negb (bool_decide ("HEAD" ∈ seen))
    then (methods ++ ["HEAD"], {["HEAD"]} ∪ seen)
    else (methods, seen).

Definition appendAllowedMethod (st : list string * gset string) (values : list string)
  : list string * gset string := fold_left append_one values st.

Definition sort_strings (l : list string) : list string := sort_stable str_lt l.

(** ** What a match says about the path *)

(** The segments a wildcard value stands for. *)
Definition wildcard_segments (v : string) : list string :=
  if String.eqb v "" then [] else Strings.Split v "/".

(** The path segments obtained by putting parameter values into a pattern. *)
Fixpoint fill (segs : list routeSegment) (ps : routeParams) : list string :=
  match segs with
  | [] => []
  | s :: segs' =>
    match kind s, ps with
    | routeLiteral, _ => value s :: fill segs' ps
    | routeParam, p :: ps' => Value p :: fill segs' ps'
    | routeWildcard, p :: _ => wildcard_segments (Value p)
    | _, [] => []
    end
  end.

(** The parameter names of a pattern, up to its first wildcard. *)
Fixpoint names (segs : list routeSegment) : list string :=
  match segs with
  | [] => []
  | s :: segs' =>
    match kind s with
    | routeLiteral => names segs'
    | routeParam => value s :: names segs'
    | routeWildcard => [value s]
    end
  end.

(** The segments of a request path: free of slashes, the last one not empty. *)
Definition request_segments (req : list string) : Prop :=
  Forall (fun x => Strings.has_byte "/" x = false) req /\ last req <> Some "".

Lemma request_segments_tail r req : request_segments (r :: req) -> request_segments req.
Proof. intros [Hf Hl]. inversion_clear Hf. split; [done|]. by destruct req. Qed.

Lemma request_segments_split path : request_segments (splitRoutePath path).
Proof.
  unfold splitRoutePath. destruct (String.eqb_spec (Strings.Trim path "/") "") as [_|Hne].
  - by split.
  - split; [apply Strings.Split_no_byte|]. apply Strings.Split_last; [done|].
    apply Strings.TrimRightSet_idemp.
Qed.

Lemma wildcard_segments_Join req :
  request_segments req -> wildcard_segments (Strings.Join req "/") = req.
Proof.
  intros [Hf Hl]. unfold wildcard_segments. destruct req as [|r req]; [done|].
  rewrite (proj2 (String.eqb_neq _ _)).
  - by rewrite Strings.Split_Join.
  - intros E. pose proof (Strings.Split_Join (r :: req) "/" ltac:(done) Hf) as Hs.
    rewrite E in Hs. simpl in Hs. by rewrite <- Hs in Hl.
Qed.

Lemma Join_wildcard_segments v : Strings.Join (wildcard_segments v) "/" = v.
Proof.
  unfold wildcard_segments. destruct (String.eqb_spec v "") as [->|_]; [done|].
  apply Strings.Join_Split.
Qed.

Lemma match_loop_iff segs req acc ps :
  request_segments req ->
  match_loop segs req acc = Some ps <->
  exists ps', ps = acc ++ ps' /\ map Key ps' = names segs /\ fill segs ps' = req.
Proof.
  revert req acc. induction segs as [|s segs IH]; intros req acc Hreq; simpl.
  { split.
    - case_bool_decide; [|done]. intros [= <-]. exists []. by rewrite (right_id_L [] (++)).
    - intros (ps' & -> & Hk & <-). rewrite bool_decide_true by done.
      apply fmap_nil_inv in Hk as ->. by rewrite (right_id_L [] (++)). }
  destruct (kind s).
  - destruct req as [|r req].
    { split; [done|]. by intros (? & _ & _ & ?). }
    destruct (String.eqb_spec r (value s)) as [->|Hne].
    + rewrite IH by (by eapply request_segments_tail).
      split; intros (ps' & -> & Hk & Hf); exists ps'; (split; [done|]); split; congruence.
    + split; [done|]. intros (? & _ & _ & ?). congruence.
  - destruct req as [|r req].
    { split; [done|]. by intros ([|? ?] & _ & ? & ?). }
    rewrite IH by (by eapply request_segments_tail). split.
    + intros (ps' & -> & Hk & Hf). exists ({| Key := value s; Value := r |} :: ps').
      rewrite <- (assoc_L (++)). simpl. split; [done|]. split; congruence.
    + intros ([|[k v] ps'] & -> & Hk & Hf); [done|]. simplify_eq/=.
      exists ps'. by rewrite <- (assoc_L (++)).
  - split.
    + intros [= <-]. eexists. split; [done|]. simpl. by rewrite wildcard_segments_Join.
    + intros ([|[k v] [|? ?]] & -> & Hk & Hf); [done| |done]. simplify_eq/=.
      by rewrite Join_wildcard_segments.
Qed.

(** Matching inverts substitution: a pattern matches a path with some
    parameters exactly when the parameters carry the names of the pattern in
    order and putting their values into the pattern yields the segments of the
    path.  A wildcard stands for all the segments that are left, joined. *)
Theorem pattern_match_iff p path ps :
  pattern_match p path = Some ps <->
  map Key ps = names (segments p) /\ fill (segments p) ps = splitRoutePath path.
Proof.
  unfold pattern_match. rewrite match_loop_iff by apply request_segments_split. split.
  - by intros (ps' & -> & Hk & Hf).
  - intros [Hk Hf]. by exists ps.
Qed.

Lemma splitRoutePath_Join l :
  Forall (fun x => x <> "" /\ Strings.has_byte "/" x = false) l ->
  splitRoutePath (Strings.Join l "/") = l.
Proof.
  intros Hl. unfold splitRoutePath. rewrite Strings.Trim_Join by done.
  assert (request_segments l) as Hreq.
  { split; [by eapply Forall_impl; [done|]; intros ? [? ?]|].
    intros E. apply last_Some_elem_of in E. by apply (proj1 (Forall_forall _ _) Hl) in E as [? _]. }
  apply (wildcard_segments_Join _ Hreq).
Qed.

(** ** The Allow header *)
Definition methods_inv (st : list string * gset string) : Prop :=
  NoDup st.1 /\ (forall m, m ∈ st.2 <-> m ∈ st.1) /\ ("GET" ∈ st.1 -> "HEAD" ∈ st.1).

Lemma NoDup_snoc {A} (l : list A) x : NoDup l -> x ∉ l -> NoDup (l ++ [x]).
Proof.
  intros Hl Hx. apply NoDup_app. split; [done|]. split; [|apply NoDup_singleton].
  intros y Hy ->%list_elem_of_singleton. done.
Qed.

Lemma seen_push (ms : list string) (seen : gset string) m :
  (forall x, x ∈ seen <-> x ∈ ms) -> forall x, x ∈ {[m]} ∪ seen <-> x ∈ ms ++ [m].
Proof.
  intros Hs x. rewrite elem_of_union, elem_of_singleton, elem_of_app, list_elem_of_singleton, Hs. tauto.
Qed.

Lemma append_one_spec st method :
  methods_inv st ->
  methods_inv (append_one st method)
  /\ forall m, m ∈ (append_one st method).1 <->
       m ∈ st.1 \/ m = method \/ (method = "GET" /\ m = "HEAD").
Proof.
  destruct st as [ms seen]. intros (Hnd & Hseen & Hget). unfold append_one. simpl in *.
  destruct (bool_decide_reflect (method ∈ seen)) as [Hin|Hnin].
  { apply Hseen in Hin. split; [done|]. simpl. intros m. split; [auto|].
    intros [?|[->|[-> ->]]]; auto. }
  assert (method ∉ ms) as Hm by (by rewrite <- Hseen).
  pose proof (NoDup_snoc _ _ Hnd Hm) as Hnd1. pose proof (seen_push _ _ method Hseen) as Hseen1.
  destruct (String.eqb_spec method "GET") as [->|Hne]; simpl.
  - case_bool_decide as Hh; simpl; apply Hseen1 in Hh || rewrite Hseen1 in Hh.
    + split; [by split; [|split]|]. intros m. rewrite elem_of_app, list_elem_of_singleton.
      split; [tauto|]. intros [?|[->|[_ ->]]]; auto. apply elem_of_app in Hh as [?|?%list_elem_of_singleton]; auto.
    + split.
      * split; [by apply NoDup_snoc|]. split; [by apply seen_push|].
        intros _. simpl. rewrite elem_of_app, list_elem_of_singleton. auto.
      * intros m. rewrite !elem_of_app, !list_elem_of_singleton. tauto.
  - split.
    + split; [done|]. split; [done|]. simpl. rewrite !elem_of_app, !list_elem_of_singleton.
      intros [?|?]; [auto|congruence].
    + intros m. rewrite elem_of_app, list_elem_of_singleton. tauto.
Qed.

Lemma routeAllowsMethod_iff ms m :
  routeAllowsMethod ms m = true <-> exists m', m' ∈ ms /\ (m = m' \/ (m' = "GET" /\ m = "HEAD")).
Proof.
  unfold routeAllowsMethod. rewrite orb_true_iff, andb_true_iff, !bool_decide_eq_true, String.eqb_eq.
  split; [intros [?|[-> ?]]; eauto 10|]. intros (m' & Hin & [->|[-> ->]]); auto.
Qed.

Lemma appendAllowedMethod_spec values st :
  methods_inv st ->
  methods_inv (appendAllowedMethod st values)
  /\ forall m, m ∈ (appendAllowedMethod st values).1 <->
       m ∈ st.1 \/ routeAllowsMethod values m = true.
Proof.
  unfold appendAllowedMethod. revert st. induction values as [|v values IH]; intros st Hst; simpl.
  { split; [done|]. intros m. rewrite routeAllowsMethod_iff. split; [auto|].
    intros [?|(? & ?%elem_of_nil & _)]; done. }
  destruct (append_one_spec st v Hst) as [Hst' Hm]. destruct (IH _ Hst') as [Hinv Hmem].
  split; [done|]. intros m. rewrite Hmem, Hm, !routeAllowsMethod_iff. setoid_rewrite elem_of_cons.
  split.
  - intros [[?|[->|[-> ->]]]|(m' & ? & ?)]; eauto 10.
  - intros [?|(m' & [->|?] & ?)]; eauto 10.
Qed.

Lemma appendAllowedMethod_fold {A} (f : A -> list string) (l : list A) st :
  methods_inv st ->
  methods_inv (fold_left (fun st a => appendAllowedMethod st (f a)) l st)
  /\ forall m, m ∈ (fold_left (fun st a => appendAllowedMethod st (f a)) l st).1 <->
       m ∈ st.1 \/ exists a, a ∈ l /\ routeAllowsMethod (f a) m = true.
Proof.
  revert st. induction l as [|a l IH]; intros st Hst; simpl.
  { split; [done|]. intros m. split; [auto|]. intros [?|(? & ?%elem_of_nil & _)]; done. }
  destruct (appendAllowedMethod_spec (f a) st Hst) as [Hst' Hm]. destruct (IH _ Hst') as [Hinv Hmem].
  split; [done|]. intros m. rewrite Hmem, Hm. setoid_rewrite elem_of_cons. split.
  - intros [[?|?]|(a' & ? & ?)]; eauto.
  - intros [?|(a' & [->|?] & ?)]; eauto.
Qed.

Lemma methods_inv_empty : methods_inv ([], ∅).
Proof.
  split; [constructor|]. split; [intros m; simpl; set_solver|]. by intros ?%elem_of_nil.
Qed.

(** Sorting distinct strings gives a strictly increasing list. *)
Lemma sort_strings_strict l :
  NoDup l -> StronglySorted (fun a b => str_lt a b = true) (sort_strings l).
Proof.
  intros Hnd. unfold sort_strings.
  assert (NoDup (sort_stable str_lt l)) as Hnd' by (by rewrite sort_stable_perm).
  pose proof (sort_stable_sorted str_lt str_lt_asym str_lt_neg_trans l) as Hs.
  induction Hs as [|x s Hs IH Hx]; [constructor|].
  apply NoDup_cons in Hnd' as [Hnin Hnd']. constructor; [by apply IH|].
  apply Forall_forall. intros y Hy. pose proof (proj1 (Forall_forall _ _) Hx y Hy) as Hyx.
  destruct (str_lt_total x y) as [?|[->|E]]; [done|done|]. red in Hyx. congruence.
Qed.

Section table.
Context {UT : UnicodeTables} {H : Type}.

Definition expandMethods (methods : list string) : list string :=
  fold_left (fun expanded method =>
    if String.eqb method "*"
    then expanded ++ ["GET"; "POST"; "PUT"; "PATCH"; "DELETE"; "HEAD"; "OPTIONS"]
    else expanded ++ [Strings.ToUpper method]) methods [].

Lemma elem_of_expandMethods ms m :
  m ∈ expandMethods ms ->
  exists x, x ∈ ms /\ (x = "*" \/ m = Strings.ToUpper x).
Proof.
  unfold expandMethods.
  enough (forall acc, m ∈ fold_left (fun expanded method =>
            if String.eqb method "*"
            then expanded ++ ["GET"; "POST"; "PUT"; "PATCH"; "DELETE"; "HEAD"; "OPTIONS"]
            else expanded ++ [Strings.ToUpper method]) ms acc ->
          m ∈ acc \/ exists x, x ∈ ms /\ (x = "*" \/ m = Strings.ToUpper x)) as Hgen.
  { intros Hm. by destruct (Hgen _ Hm) as [?%elem_of_nil|?]. }
  induction ms as [|x ms IH]; simpl; intros acc Hm; [by left|]. setoid_rewrite elem_of_cons.
  destruct (String.eqb_spec x "*") as [->|Hne]; apply IH in Hm as [Hm|(y & ? & ?)]; eauto.
  all: apply elem_of_app in Hm as [?|Hm]; eauto 7.
  apply list_elem_of_singleton in Hm as ->. eauto 7.
Qed.

Record route := { methods : list string; pattern : routePattern; handler : H }.

Record routeTable := {
  routes : list route;
  exact : gmap string (list route);
  NotFound : option H;
  GlobalOPTIONS : option H
}.

Definition newRouteTable : routeTable :=
  {| routes := []; exact := ∅; NotFound := None; GlobalOPTIONS := None |}.

Record routeMatch := { matched : route; params : routeParams }.

Definition compareRoutes (a b : route) : Z :=
  let pa := pattern a in
  let pb := pattern b in
  if literals pb <? literals pa then -1
  else if literals pa <? literals pb then 1
  else if negb (Bool.eqb (hasWildcard pa) (hasWildcard pb))
  then if hasWildcard pa then 1 else -1
  else if Nat.ltb (length (segments pb)) (length (segments pa)) then -1
  else if Nat.ltb (length (segments pa)) (length (segments pb)) then 1
  else 0.

Definition route_before (a b : route) : bool := compareRoutes a b <? 0.

Definition Handle (r : routeTable) (ms : list string) (path : string) (h : H) : routeTable :=
  let p := parseRoutePattern path in
  let item := {| methods := expandMethods ms; pattern := p; handler := h |} in
  {| routes := sort_stable route_before (routes r ++ [item]);
     exact :=
       if negb (hasParam p) && negb (hasWildcard p)
       then <[raw p := default [] (exact r !! raw p) ++ [item]]> (exact r)
       else exact r;
     NotFound := NotFound r;
     GlobalOPTIONS := GlobalOPTIONS r |}.

Fixpoint matchingRoutes (rs : list route) (path : string) : list routeMatch :=
  match rs with
  | [] => []
  | candidate :: rs' =>
    match pattern_match (pattern candidate) path with
    | Some ps => {| matched := candidate; params := ps |} :: matchingRoutes rs' path
    | None => matchingRoutes rs' path
    end
  end.

Definition allowedMethods (matches : list routeMatch) (includeOptions : bool) : list string :=
  let '(ms, seen) :=
    fold_left (fun st m => appendAllowedMethod st (methods (matched m))) matches ([], ∅) in
  let ms := if includeOptions && negb (bool_decide ("OPTIONS" ∈ seen)) then ms ++ ["OPTIONS"] else ms in
  sort_strings ms.

Definition expandedAllowedMethods (rs : list route) : list string :=
  let '(ms, _) := fold_left (fun st r => appendAllowedMethod st (methods r)) rs ([], ∅ : gset string) in
  sort_strings ms.

(** What serving a request comes to.  [allow] is the Allow header. *)
Inductive served :=
| Handled (h : H) (ps : routeParams) (allow : string)
| ServedNotFound (h : option H)
| ServedOptions (h : H) (allow : string)
| MethodNotAllowed (allow : string).

(** [serveNotFound]: the table's handler, or [http.NotFound] for [None]. *)
Definition serveNotFound (r : routeTable) : served := ServedNotFound (NotFound r).

Definition ServeHTTP (r : routeTable) (method path : string) : served :=
  let exact_routes := default [] (exact r !! path) in
  match (if String.eqb method "OPTIONS" then None
         else list_find (fun rt => routeAllowsMethod (methods rt) method = true) exact_routes) with
  | Some (_, rt) =>
    Handled (handler rt) [] (Strings.Join (expandedAllowedMethods exact_routes) ", ")
  | None =>
    let pathMatches := matchingRoutes (routes r) path in
    match pathMatches with
    | [] => serveNotFound r
    | _ =>
      let allow := Strings.Join (allowedMethods pathMatches (bool_decide (is_Some (GlobalOPTIONS r)))) ", " in
      match String.eqb method "OPTIONS", GlobalOPTIONS r with
      | true, Some h => ServedOptions h allow
      | _, _ =>
        match list_find (fun m => routeAllowsMethod (methods (matched m)) method = true) pathMatches with
        | Some (_, m) => Handled (handler (matched m)) (params m) allow
        | None => MethodNotAllowed allow
        end
      end
    end
  end.

(** The registrations a table was built from, oldest first. *)
Definition registration : Type := list string * string * H.

Definition register_all (t : routeTable) (regs : list registration) : routeTable :=
  fold_left (fun t '(ms, path, h) => Handle t ms path h) regs t.

Definition route_of (reg : registration) : route :=
  let '(ms, path, h) := reg in
  {| methods := expandMethods ms; pattern := parseRoutePattern path; handler := h |}.

(** ** The specificity order *)
Lemma route_before_spec a b :
  route_before a b = true <->
  literals (pattern b) < literals (pattern a)
  \/ literals (pattern a) = literals (pattern b)
     /\ (Z.b2z (hasWildcard (pattern a)) < Z.b2z (hasWildcard (pattern b))
         \/ Z.b2z (hasWildcard (pattern a)) = Z.b2z (hasWildcard (pattern b))
            /\ (length (segments (pattern b)) < length (segments (pattern a)))%nat).
Proof.
  unfold route_before, compareRoutes.
  destruct (Z.ltb_spec (literals (pattern b)) (literals (pattern a))); [simpl; lia|].
  destruct (Z.ltb_spec (literals (pattern a)) (literals (pattern b))); [simpl; lia|].
  destruct (hasWildcard (pattern a)), (hasWildcard (pattern b)); simpl; try lia.
  all: destruct (Nat.ltb_spec (length (segments (pattern b))) (length (segments (pattern a))));
    [simpl; lia|].
  all: destruct (Nat.ltb_spec (length (segments (pattern a))) (length (segments (pattern b)))); simpl; lia.
Qed.

Lemma route_before_asym a b : route_before a b = true -> route_before b a = false.
Proof. intros Hab. apply not_true_iff_false. rewrite route_before_spec in *. lia. Qed.

Lemma route_before_neg_trans a b c :
  route_before b a = false -> route_before c b = false -> route_before c a = false.
Proof. rewrite <- !not_true_iff_false, !route_before_spec. lia. Qed.

(** ** What registration builds *)
Lemma register_all_snoc t regs (reg : registration) :
  register_all t (regs ++ [reg])
  = Handle (register_all t regs) reg.1.1 reg.1.2 reg.2.
Proof. unfold register_all. rewrite fold_left_app. by destruct reg as [[ms path] h]. Qed.

Lemma routes_register_all t regs :
  routes t = [] -> routes (register_all t regs) = sort_stable route_before (map route_of regs).
Proof.
  intros Ht. induction regs as [|reg regs IH] using rev_ind; [done|].
  rewrite register_all_snoc, map_app. unfold Handle. cbn [routes]. rewrite IH.
  rewrite sort_stable_resort; [by destruct reg as [[ms path] h]|..].
  - apply route_before_asym.
  - apply route_before_neg_trans.
Qed.

Definition is_static (rt : route) : bool :=
  negb (hasParam (pattern rt)) && negb (hasWildcard (pattern rt)).

Lemma raw_parse path : raw (parseRoutePattern path) = path.
Proof.
  unfold parseRoutePattern. enough (forall l p, raw (fold_left add_segment l p) = raw p) as Hr
    by apply Hr. induction l as [|s l IH]; intros p; simpl; [done|]. by rewrite IH.
Qed.

Lemma exact_register_all t regs p :
  exact t = ∅ ->
  default [] (exact (register_all t regs) !! p)
  = filter (fun rt => is_static rt = true /\ raw (pattern rt) = p) (map route_of regs).
Proof.
  intros Ht. induction regs as [|[[ms path] h] regs IH] using rev_ind; [by simpl; rewrite Ht|].
  rewrite register_all_snoc, map_app, filter_app, <- IH. unfold Handle. cbn [exact fst snd map route_of].
  rewrite filter_cons, filter_nil, raw_parse.
  set (item := {| methods := _; pattern := _; handler := _ |}).
  change (negb _ && negb _) with (is_static item). subst item. cbn [pattern]. rewrite raw_parse.
  case_decide as Hd.
  - destruct Hd as [-> ->]. by rewrite lookup_insert_eq.
  - rewrite (right_id_L [] (++)). destruct (is_static _); [|done].
    rewrite lookup_insert_ne; [done|]. intros ->. by apply Hd.
Qed.
(** ** The parsed pattern, as a function of its segments *)
Definition is_literal (s : routeSegment) : bool := bool_decide (kind s = routeLiteral).
Definition is_param (s : routeSegment) : bool := bool_decide (kind s = routeParam).
Definition is_wildcard (s : routeSegment) : bool := bool_decide (kind s = routeWildcard).

Definition count_literals (segs : list routeSegment) : Z :=
  Z.of_nat (length (List.filter is_literal segs)).

Lemma fold_add_segment l p :
  fold_left add_segment l p
  = let segs := map parse_segment l in
    {| raw := raw p;
       segments := segments p ++ segs;
       literals := literals p + count_literals segs;
       hasParam := hasParam p || existsb is_param segs;
       hasWildcard := hasWildcard p || existsb is_wildcard segs |}.
Proof.
  revert p. induction l as [|s l IH]; intros p; simpl.
  - destruct p; cbn. rewrite (right_id_L [] (++)), !orb_false_r, Z.add_0_r. done.
  - rewrite IH. unfold add_segment. simpl.
    unfold count_literals, is_literal, is_param, is_wildcard. simpl.
    rewrite <- (assoc_L (++)). simpl.
    destruct (kind (parse_segment s)); simpl; rewrite ?orb_true_r; f_equal; lia.
Qed.

Lemma parseRoutePattern_eq path :
  parseRoutePattern path
  = let segs := map parse_segment (splitRoutePath path) in
    {| raw := path; segments := segs; literals := count_literals segs;
       hasParam := existsb is_param segs; hasWildcard := existsb is_wildcard segs |}.
Proof. unfold parseRoutePattern. by rewrite fold_add_segment. Qed.

(** ** Matching *)
Lemma parse_segment_literal s :
  is_param (parse_segment s) = false -> is_wildcard (parse_segment s) = false ->
  parse_segment s = {| kind := routeLiteral; value := s |}.
Proof.
  unfold parse_segment. destruct (Strings.HasPrefix s ":"); [done|].
  by destruct (Strings.HasPrefix s "*").
Qed.

Lemma match_loop_static l ps :
  existsb is_param (map parse_segment l) = false ->
  existsb is_wildcard (map parse_segment l) = false ->
  match_loop (map parse_segment l) l ps = Some ps
  /\ count_literals (map parse_segment l) = Z.of_nat (length l).
Proof.
  induction l as [|s l IH]; simpl; [done|]. rewrite !orb_false_iff. intros [Hp Hps] [Hw Hws].
  destruct (IH Hps Hws) as [IHm IHc]. rewrite (parse_segment_literal _ Hp Hw). simpl.
  rewrite String.eqb_refl. split; [done|]. unfold count_literals in *. simpl. lia.
Qed.

(** A wildcard is written at the end of the pattern only. *)
Fixpoint wildcard_last (segs : list routeSegment) : bool :=
  match segs with
  | [] => true
  | s :: segs' => (negb (is_wildcard s) || bool_decide (segs' = [])) && wildcard_last segs'
  end.

Lemma match_loop_measure segs req ps ps' :
  wildcard_last segs = true -> match_loop segs req ps = Some ps' ->
  count_literals segs <= Z.of_nat (length req)
  /\ (existsb is_wildcard segs = false -> length segs = length req).
Proof.
  revert req ps. induction segs as [|s segs IH]; intros req ps Hw Hm; simpl in *.
  - destruct req; [|done]. split; [done|]. done.
  - apply andb_true_iff in Hw as [Hl Hw].
    unfold count_literals, is_literal, is_wildcard in *. simpl.
    destruct (kind s) eqn:Hk; simpl in *.
    + destruct req as [|r req]; [done|]. destruct (String.eqb r (value s)); [|done].
      destruct (IH _ _ Hw Hm) as [IH1 IH2]. simpl. split; [lia|]. intros E. by rewrite IH2.
    + destruct req as [|r req]; [done|].
      destruct (IH _ _ Hw Hm) as [IH1 IH2]. simpl. split; [lia|]. intros E. by rewrite IH2.
    + apply bool_decide_eq_true in Hl as ->. simpl. split; [lia|done].
Qed.

Lemma static_match rt path :
  is_static (route_of rt) = true -> raw (pattern (route_of rt)) = path ->
  pattern_match (pattern (route_of rt)) path = Some [].
Proof.
  destruct rt as [[ms p] h]. simpl. unfold is_static. simpl. rewrite raw_parse.
  rewrite parseRoutePattern_eq. simpl. rewrite andb_true_iff, !negb_true_iff. intros [Hp Hw] <-.
  apply (match_loop_static _ [] Hp Hw).
Qed.

Lemma static_most_specific rt rt' path ps :
  is_static (route_of rt) = true -> raw (pattern (route_of rt)) = path ->
  wildcard_last (segments (pattern (route_of rt'))) = true ->
  pattern_match (pattern (route_of rt')) path = Some ps ->
  route_before (route_of rt') (route_of rt) = false.
Proof.
  destruct rt as [[ms p] h], rt' as [[ms' p'] h']. simpl. unfold is_static. simpl. rewrite raw_parse.
  rewrite !parseRoutePattern_eq. simpl. rewrite andb_true_iff, !negb_true_iff.
  intros [Hp Hw] <- Hl Hm. apply not_true_iff_false. rewrite route_before_spec. simpl.
  destruct (match_loop_static _ [] Hp Hw) as [_ ->]. rewrite Hw, !length_map.
  destruct (match_loop_measure _ _ _ _ Hl Hm) as [Hc Hn]. rewrite length_map in Hn.
  destruct (existsb is_wildcard (map parse_segment (splitRoutePath p'))); simpl; [lia|].
  rewrite Hn by done. lia.
Qed.

(** ** The candidates of a request *)
Lemma elem_of_matchingRoutes rs path m :
  m ∈ matchingRoutes rs path <->
  matched m ∈ rs /\ pattern_match (pattern (matched m)) path = Some (params m).
Proof.
  induction rs as [|r rs IH]; simpl.
  - rewrite !elem_of_nil. tauto.
  - destruct (pattern_match (pattern r) path) as [ps|] eqn:Hm; rewrite ?elem_of_cons, IH.
    + split; [intros [->|[? ?]]; auto|]. intros [[Hr|Hr] Hp]; [|auto].
      left. destruct m as [rt ps']. simpl in *. subst. by simplify_eq.
    + split; [intros [? ?]; auto|]. intros [[Hr|Hr] Hp]; [|auto]. congruence.
Qed.

Definition match_not_after (m m' : routeMatch) : Prop :=
  not_after route_before (matched m) (matched m').

Lemma matchingRoutes_sorted rs path :
  StronglySorted (not_after route_before) rs ->
  StronglySorted match_not_after (matchingRoutes rs path).
Proof.
  induction 1 as [|r rs Hs IH Hr]; simpl; [constructor|].
  destruct (pattern_match (pattern r) path); [|done]. constructor; [done|].
  apply Forall_forall. intros m Hm. apply elem_of_matchingRoutes in Hm as [Hm _].
  by apply (proj1 (Forall_forall _ _) Hr).
Qed.

Lemma list_find_sorted {A} (R : A -> A -> Prop) (P : A -> Prop) `{!forall x, Decision (P x)} l i x :
  (forall y, R y y) -> StronglySorted R l -> list_find P l = Some (i, x) ->
  forall y, y ∈ l -> P y -> R x y.
Proof.
  intros Hrefl Hs. revert i. induction Hs as [|z l Hs IH Hz]; intros i Hf y Hy HP; [done|].
  simpl in Hf. case_decide as Hd.
  - simplify_eq. apply elem_of_cons in Hy as [->|Hy]; [done|].
    by apply (proj1 (Forall_forall _ _) Hz).
  - destruct (list_find P l) as [[j w]|] eqn:E; simplify_eq/=.
    apply elem_of_cons in Hy as [->|Hy]; [done|]. by eapply IH.
Qed.

Lemma route_before_irrefl a : route_before a a = false.
Proof. apply not_true_iff_false. rewrite route_before_spec. lia. Qed.

(** The routes of a table built from [regs]. *)
Lemma elem_of_registered t regs rt :
  routes t = [] ->
  rt ∈ routes (register_all t regs) <-> exists reg, reg ∈ regs /\ rt = route_of reg.
Proof.
  intros Ht. rewrite (routes_register_all _ _ Ht), sort_stable_perm.
  rewrite list_elem_of_fmap. split; intros (reg & ? & ?); eauto.
Qed.

Lemma registered_sorted t regs :
  routes t = [] -> StronglySorted (not_after route_before) (routes (register_all t regs)).
Proof.
  intros Ht. rewrite (routes_register_all _ _ Ht).
  apply sort_stable_sorted; [apply route_before_asym|apply route_before_neg_trans].
Qed.
(** The Allow header of a request lists, strictly sorted and so without
    duplicates, exactly the methods some matching route allows (HEAD wherever
    GET is), with OPTIONS when the table has a global OPTIONS handler. *)
Theorem allowedMethods_spec matches includeOptions :
  StronglySorted (fun a b => str_lt a b = true) (allowedMethods matches includeOptions)
  /\ forall m, m ∈ allowedMethods matches includeOptions <->
       (exists mt, mt ∈ matches /\ routeAllowsMethod (methods (matched mt)) m = true)
       \/ (includeOptions = true /\ m = "OPTIONS").
Proof.
  unfold allowedMethods.
  destruct (appendAllowedMethod_fold (fun mt => methods (matched mt)) matches _ methods_inv_empty)
    as [Hinv Hmem].
  destruct (fold_left _ matches _) as [ms seen]. destruct Hinv as (Hnd & Hseen & _). simpl in *.
  set (l := if includeOptions && negb (bool_decide ("OPTIONS" ∈ seen)) then ms ++ ["OPTIONS"] else ms).
  assert (NoDup l /\ forall m, m ∈ l <-> m ∈ ms \/ (includeOptions = true /\ m = "OPTIONS")) as [Hl Hm].
  { subst l. destruct includeOptions; simpl.
    - case_bool_decide as Ho; rewrite Hseen in Ho; simpl.
      + split; [done|]. intros m. split; [auto|]. intros [?|[_ ->]]; done.
      + split; [by apply NoDup_snoc|]. intros m. rewrite elem_of_app, list_elem_of_singleton. tauto.
    - split; [done|]. intros m. split; [auto|]. by intros [?|[? _]]. }
  split; [by apply sort_strings_strict|]. intros m. unfold sort_strings.
  rewrite sort_stable_perm, Hm, Hmem, elem_of_nil. tauto.
Qed.

(** ** Dispatch *)
Definition table_of (nf opts : option H) (regs : list registration) : routeTable :=
  register_all {| routes := []; exact := ∅; NotFound := nf; GlobalOPTIONS := opts |} regs.

(** [reg] can serve [method] on [path] with the parameters [ps]. *)
Definition serves (reg : registration) (method path : string) (ps : routeParams) : Prop :=
  pattern_match (pattern (route_of reg)) path = Some ps
  /\ routeAllowsMethod (methods (route_of reg)) method = true.

Lemma elem_of_exact nf opts regs path rt :
  rt ∈ default [] (exact (table_of nf opts regs) !! path) ->
  exists reg, reg ∈ regs /\ rt = route_of reg /\ is_static rt = true /\ raw (pattern rt) = path.
Proof.
  unfold table_of. rewrite exact_register_all by done. rewrite list_elem_of_filter.
  intros [[Hs Hr] Hin]. apply list_elem_of_fmap in Hin as (reg & -> & Hin). eauto.
Qed.

Lemma elem_of_matches nf opts regs path m :
  m ∈ matchingRoutes (routes (table_of nf opts regs)) path <->
  exists reg, reg ∈ regs /\ matched m = route_of reg
    /\ pattern_match (pattern (route_of reg)) path = Some (params m).
Proof.
  unfold table_of. rewrite elem_of_matchingRoutes, elem_of_registered by done. split.
  - intros [(reg & Hin & E) Hm]. exists reg. by rewrite <- E.
  - intros (reg & Hin & E & Hm). rewrite E. eauto.
Qed.

Lemma options_table_of nf opts regs : GlobalOPTIONS (table_of nf opts regs) = opts.
Proof.
  unfold table_of. induction regs as [|reg regs IH] using rev_ind; [done|].
  by rewrite register_all_snoc.
Qed.

Lemma notFound_table_of nf opts regs : NotFound (table_of nf opts regs) = nf.
Proof.
  unfold table_of. induction regs as [|reg regs IH] using rev_ind; [done|].
  by rewrite register_all_snoc.
Qed.

(** The two ways a route handles a request: an exact route, or the first of the
    matching routes that allows the method. *)
Lemma ServeHTTP_Handled nf opts regs method path h ps allow :
  ServeHTTP (table_of nf opts regs) method path = Handled h ps allow ->
  exists reg, reg ∈ regs /\ h = handler (route_of reg) /\ serves reg method path ps
    /\ (is_static (route_of reg) = true /\ raw (pattern (route_of reg)) = path
        \/ forall reg' ps', reg' ∈ regs -> serves reg' method path ps' ->
           route_before (route_of reg') (route_of reg) = false).
Proof.
  unfold ServeHTTP. intros Hs.
  destruct (if String.eqb method "OPTIONS" then None else _) as [[i rt]|] eqn:Hf.
  - destruct (String.eqb method "OPTIONS"); [done|]. simplify_eq.
    apply list_find_Some in Hf as (Hl & Ha & _). apply list_elem_of_lookup_2 in Hl.
    apply elem_of_exact in Hl as (reg & Hin & -> & Hst & Hr).
    exists reg. split; [done|]. split; [done|]. split; [split; [by apply static_match|done]|auto].
  - clear Hf. destruct (matchingRoutes _ _) as [|m0 ms] eqn:Hms; [done|]. rewrite <- Hms in Hs.
    assert (exists i m, list_find (fun m => routeAllowsMethod (methods (matched m)) method = true)
        (matchingRoutes (routes (table_of nf opts regs)) path) = Some (i, m)
        /\ h = handler (matched m) /\ ps = params m) as (i & m & Hf & -> & ->).
    { destruct (String.eqb method "OPTIONS"), (GlobalOPTIONS _); try done.
      all: destruct (list_find _ _) as [[i m]|]; simplify_eq; eauto 10. }
    assert (StronglySorted match_not_after
              (matchingRoutes (routes (table_of nf opts regs)) path)) as Hsort
      by (apply matchingRoutes_sorted, registered_sorted; done).
    pose proof (list_find_sorted _ _ _ _ _ (fun y => route_before_irrefl (matched y)) Hsort Hf) as Hmin.
    apply list_find_Some in Hf as (Hl & Ha & _). apply list_elem_of_lookup_2 in Hl.
    apply elem_of_matches in Hl as (reg & Hin & E & Hm). exists reg. rewrite E in Ha |- *.
    split; [done|]. split; [done|]. split; [done|]. right. intros reg' ps' Hin' [Hm' Ha'].
    specialize (Hmin {| matched := route_of reg'; params := ps' |}).
    unfold match_not_after, not_after in Hmin. simpl in Hmin. rewrite E in Hmin. apply Hmin; [|done].
    apply elem_of_matches. eauto.
Qed.


(** The outcome of a request that is not answered by the global OPTIONS
    handler: not found exactly when no registered route matches the path, and
    method not allowed exactly when some route matches and none allows the
    method; so a request that some registered route can serve is handled. *)
Theorem ServeHTTP_outcome nf opts regs method path :
  method <> "OPTIONS" ->
  match ServeHTTP (table_of nf opts regs) method path with
  | Handled _ _ _ => exists reg ps, reg ∈ regs /\ serves reg method path ps
  | ServedNotFound h =>
      h = nf /\ forall reg, reg ∈ regs -> pattern_match (pattern (route_of reg)) path = None
  | MethodNotAllowed _ =>
      (exists reg ps, reg ∈ regs /\ pattern_match (pattern (route_of reg)) path = Some ps)
      /\ forall reg ps, reg ∈ regs -> ~ serves reg method path ps
  | ServedOptions _ _ => False
  end.
Proof.
  intros Hne. destruct (ServeHTTP _ _ _) eqn:Hs.
  { apply ServeHTTP_Handled in Hs as (reg & Hin & _ & Hsv & _). eauto. }
  all: revert Hs; unfold ServeHTTP; rewrite (proj2 (String.eqb_neq _ _) Hne).
  all: destruct (list_find _ (default [] _)) as [[? ?]|]; [done|].
  all: destruct (matchingRoutes _ _) as [|m0 ms] eqn:Hms.
  all: try (destruct (list_find _ _) as [[? ?]|] eqn:Hf); try done.
  - intros [= <-]. rewrite notFound_table_of. split; [done|]. intros reg Hin.
    destruct (pattern_match _ _) as [ps|] eqn:Hm; [|done].
    assert ({| matched := route_of reg; params := ps |}
            ∈ matchingRoutes (routes (table_of nf opts regs)) path) as Hin'
      by (apply elem_of_matches; eauto).
    rewrite Hms in Hin'. by apply elem_of_nil in Hin'.
  - intros _. rewrite <- Hms in Hf. split.
    + assert (m0 ∈ matchingRoutes (routes (table_of nf opts regs)) path) as Hin
        by (rewrite Hms; by left).
      apply elem_of_matches in Hin as (reg & Hin & _ & Hm). eauto.
    + intros reg ps Hin [Hm Ha]. apply list_find_None in Hf.
      assert ({| matched := route_of reg; params := ps |}
            ∈ matchingRoutes (routes (table_of nf opts regs)) path) as Hin'
      by (apply elem_of_matches; eauto).
      by apply (proj1 (Forall_forall _ _) Hf _ Hin').
Qed.
End table.
Arguments route H : clear implicits.
Arguments routeTable H : clear implicits.
Arguments routeMatch H : clear implicits.
Arguments served H : clear implicits.
Arguments registration H : clear implicits.
(** ** The theorems at concrete tables *)
Definition demo_regs : list (registration nat) :=
  [ (["GET"], "/*rest", 0%nat); (["GET"], "/users/:id", 1%nat);
    (["GET"], "/users/me", 2%nat); (["post"], "/users/me", 3%nat) ].

#[local] Existing Instance ascii_tables.


Lemma ServeHTTP_outcome_witness :
  (exists reg ps, reg ∈ demo_regs
     /\ pattern_match (pattern (route_of reg)) "/users/me" = Some ps)
  /\ forall reg ps, reg ∈ demo_regs -> ~ serves reg "PUT" "/users/me" ps.
Proof.
  exact (ServeHTTP_outcome None None demo_regs "PUT" "/users/me" ltac:(discriminate)).
Defined.
End Router.
