(* ===== verification/ParserRoutes.v ===== *)
(** * Directives, route patterns and collisions in the parser ([internal/parse/parser.go])

    [Parser] models how a scenery directive and its method, path and target
    fields are read, how the root of a service is chosen, how middleware is
    ordered and matched, and the static check that generated endpoints do not
    collide with other endpoints.  The theorems relate that check to the route
    table the runtime builds ([Router]). *)
From stdpp Require Import base tactics list sorting gmap strings.
From Stdlib Require Import ZArith Lia Ascii.
From S2P Require Import Prelude GoStrings Router.

Module Parser.
(** ** Directives *)
Record directive := {
  name : string;
  options : gmap string bool;
  fields : gmap string string;
  tags : list string
}.

Definition directiveBody (comment : string) : option string :=
  let text := Strings.TrimSpace (Strings.TrimPrefix comment "//") in
  let '(after, ok) := Strings.CutPrefix text "scenery:" in
  if ok then Some after else None.

(** One word of a directive after its name. *)
Definition directive_part (dir : directive) (part : string) : directive :=
  let '(tag, is_tag) := Strings.CutPrefix part "tag:" in
  if is_tag && negb (String.eqb tag "") then
    if bool_decide (tag ∈ tags dir) then dir
    else {| name := name dir; options := options dir; fields := fields dir; tags := tags dir ++ [tag] |}
  else
    let '(key, val, ok) := Strings.Cut part "=" in
    if ok then {| name := name dir; options := options dir; fields := <[key := val]> (fields dir); tags := tags dir |}
    else {| name := name dir; options := <[part := true]> (options dir); fields := fields dir; tags := tags dir |}.

(** The comment group is the list of the texts of its comments; [None] is a nil
    group. *)
Fixpoint parse_directive_comments (comments : list string) : option directive :=
  match comments with
  | [] => None
  | comment :: rest =>
    match directiveBody comment with
    | None => parse_directive_comments rest
    | Some body =>
      match Strings.Fields body with
      | [] => None
      | first :: parts =>
        Some (fold_left directive_part parts {| name := first; options := ∅; fields := ∅; tags := [] |})
      end
    end
  end.

Definition parseDirective (group : option (list string)) : option directive :=
  match group with
  | None => None
  | Some comments => parse_directive_comments comments
  end.

(** ** Paths and methods *)
Inductive path_error := InvalidPathSegment (segment : string) | FallbackPath.

(** The names of the parameters, in order. *)
Fixpoint parse_path_segments (segs : list string) : outcome path_error (list string) :=
  match segs with
  | [] => Ret []
  | segment :: segs' =>
    match segment with
    | EmptyString => parse_path_segments segs'
    | String c nm =>
      if Ascii.eqb c ":" || Ascii.eqb c "*" then
        if String.eqb nm "" then Fail (InvalidPathSegment segment)
        else ps ← parse_path_segments segs'; Ret (nm :: ps)
      else if Ascii.eqb c "!" then Fail FallbackPath
      else parse_path_segments segs'
    end
  end.

Definition parsePath (path : string) : outcome path_error (list string) :=
  if String.eqb path "" then Ret []
  else parse_path_segments (Strings.Split (Strings.TrimPrefix path "/") "/").

Section parse.
Context {UT : UnicodeTables}.

Definition parseMethods (val : string) : list string :=
  if String.eqb val "" then []
  else List.filter (fun part => negb (String.eqb part ""))
         (map (fun part => Strings.TrimSpace (Strings.ToUpper part)) (Strings.Split val ",")).

(** ** Middleware targets *)
Inductive Selector := SelectorAll | SelectorTag (val : string).

Inductive target_error :=
| MissingTarget | EmptyTarget | InvalidTag (part : string) | UnsupportedTarget (part : string).

Definition parse_target (part : string) : outcome target_error Selector :=
  let part := Strings.TrimSpace part in
  if String.eqb part "" then Fail EmptyTarget
  else if String.eqb part "all" then Ret SelectorAll
  else if Strings.HasPrefix part "tag:" then
    let tag := Strings.TrimSpace (Strings.TrimPrefix part "tag:") in
    if String.eqb tag "" then Fail (InvalidTag part) else Ret (SelectorTag tag)
  else Fail (UnsupportedTarget part).

Fixpoint parse_targets (parts : list string) : outcome target_error (list Selector) :=
  match parts with
  | [] => Ret []
  | part :: parts' =>
    t ← parse_target part;
    ts ← parse_targets parts';
    Ret (t :: ts)
  end.

Definition parseMiddlewareTargets (val : string) : outcome target_error (list Selector) :=
  if String.eqb (Strings.TrimSpace val) "" then Fail MissingTarget
  else parse_targets (Strings.Split val ",").

Fixpoint middlewareMatchesEndpoint (targets : list Selector) (ep_tags : list string) : bool :=
  match targets with
  | [] => false
  | SelectorAll :: _ => true
  | SelectorTag v :: targets' =>
    if bool_decide (v ∈ ep_tags) then true else middlewareMatchesEndpoint targets' ep_tags
  end.

(** What [sortMiddleware] looks at: the path is the one [relativeFilePath]
    computes. *)
Record Middleware := { Global : bool; FilePath : string; TokenPos : Z; MwName : string }.

Definition compare_middleware (a b : Middleware) : Z :=
  if negb (Bool.eqb (Global a) (Global b)) then if Global a then -1 else 1
  else if str_lt (FilePath a) (FilePath b) then -1
  else if str_lt (FilePath b) (FilePath a) then 1
  else if TokenPos a <? TokenPos b then -1
  else if TokenPos b <? TokenPos a then 1
  else 0.

Definition sortMiddleware (l : list Middleware) : list Middleware :=
  sort_stable (fun a b => compare_middleware a b <? 0) l.

(** ** Service roots *)
Definition serviceRootForDir (relDir : string) : string :=
  if String.eqb relDir "." then "."
  else let '(first, _, _) := Strings.Cut relDir "/" in first.

Definition sameOrDescendantDir (relDir root : string) : bool :=
  if String.eqb relDir root then true
  else if String.eqb root "." then false
  else Strings.HasPrefix relDir (root +:+ "/").

(** The iteration over the keys of [explicitRoots], in the order of the list. *)
Fixpoint service_root_loop (relDir : string) (explicitRoots : list string) (root : string) : string :=
  match explicitRoots with
  | [] => root
  | explicit :: rest =>
    if String.eqb explicit "." then
      if String.eqb relDir "." then "." else service_root_loop relDir rest root
    else if negb (sameOrDescendantDir relDir explicit) then service_root_loop relDir rest root
    else if String.eqb root "." || Nat.ltb (String.length root) (String.length explicit)
    then service_root_loop relDir rest explicit
    else service_root_loop relDir rest root
  end.

Definition serviceRootForPackage (relDir : string) (explicitRoots : list string) : string :=
  service_root_loop relDir explicitRoots (serviceRootForDir relDir).

(** ** Overlap of patterns *)
Definition cleanRoutePath (path : string) : string :=
  let path := Strings.TrimSuffix (Strings.TrimSpace path) "/" in
  if String.eqb path "" then "/"
  else if negb (Strings.HasPrefix path "/") then "/" +:+ path
  else path.

Definition routePatternSegments (path : string) : list string :=
  let path := cleanRoutePath path in
  if String.eqb path "/" then [] else Strings.Split (Strings.TrimPrefix path "/") "/".

Definition routeSegmentParam (segment : string) : bool := Strings.HasPrefix segment ":".
Definition routeSegmentWildcard (segment : string) : bool := Strings.HasPrefix segment "*".

Definition routeSegmentsCanMatchSameValue (left right : string) : bool :=
  routeSegmentParam left || routeSegmentParam right || String.eqb left right.

Fixpoint routeSegmentsOverlap (left right : list string) : bool :=
  match left, right with
  | [], [] => true
  | [], r :: _ => routeSegmentWildcard r
  | l :: _, [] => routeSegmentWildcard l
  | l :: left', r :: right' =>
    if routeSegmentWildcard l || routeSegmentWildcard r then true
    else if negb (routeSegmentsCanMatchSameValue l r) then false
    else routeSegmentsOverlap left' right'
  end.

Definition routePathsOverlap (left right : string) : bool :=
  routeSegmentsOverlap (routePatternSegments left) (routePatternSegments right).

Definition routePathHasPrefix (path pfx : string) : bool :=
  let path := cleanRoutePath path in
  let pfx := cleanRoutePath pfx in
  String.eqb path pfx || Strings.HasPrefix path (pfx +:+ "/").

Definition generatedEndpointReservedRoutePrefixes : list string := ["/__scenery"; "/api"; "/sync"].

Definition generatedEndpointReservedRoutePrefix (path : string) : string :=
  match list_find (fun pfx => routePathHasPrefix path pfx = true) generatedEndpointReservedRoutePrefixes with
  | Some (_, pfx) => pfx
  | None => ""
  end.

Definition clean_method (m : string) : string := Strings.ToUpper (Strings.TrimSpace m).

Definition methods_pair_collide (left right : string) : bool :=
  String.eqb left "" || String.eqb right "" || String.eqb left "*" || String.eqb right "*"
  || String.eqb left right.

Definition routeMethodsCollide (a b : list string) : bool :=
  if bool_decide (a = []) || bool_decide (b = []) then true
  else existsb (fun left => existsb (fun right => methods_pair_collide (clean_method left) (clean_method right)) b) a.

Record routeOwner := { id : string; path : string; methods : list string }.

Definition routeOwnersCollide (left right : routeOwner) : bool :=
  if negb (routePathsOverlap (path left) (path right)) then false
  else routeMethodsCollide (methods left) (methods right).

(** ** The check of generated endpoints

    An endpoint is its name, path and methods; a diagnostic carries what its
    message names. *)
Record Endpoint := { Name : string; Path : string; Methods : list string }.

Record Service := { SvcName : string; Endpoints : list Endpoint; Generated : list Endpoint }.

Inductive collision :=
| ReservedPrefix (ep : Endpoint) (pfx : string)
| NameCollision (ep : Endpoint) (existing : string)
| RouteCollision (ep : Endpoint) (existing : routeOwner).

Abbreviation names_map := (gmap string (gmap string string)).

Definition get_name (names : names_map) (svc nm : string) : string :=
  default "" (default ∅ (names !! svc) !! nm).

Definition set_name (names : names_map) (svc nm v : string) : names_map :=
  <[svc := <[nm := v]> (default ∅ (names !! svc))]> names.

Definition qualified (svc : string) (ep : Endpoint) : string := svc +:+ "." +:+ Name ep.

Definition owner_of (svc : string) (ep : Endpoint) : routeOwner :=
  {| id := qualified svc ep; path := Path ep; methods := Methods ep |}.

Record check_state := { ck_names : names_map; ck_routes : list routeOwner; ck_errs : list collision }.

Definition add_owner (svc : string) (st : check_state) (ep : Endpoint) : check_state :=
  {| ck_names := set_name (ck_names st) svc (Name ep) (qualified svc ep);
     ck_routes := ck_routes st ++ [owner_of svc ep];
     ck_errs := ck_errs st |}.

Definition generated_errors (svc : string) (st : check_state) (ep : Endpoint) : list collision :=
  (let pfx := generatedEndpointReservedRoutePrefix (Path ep) in
   if String.eqb pfx "" then [] else [ReservedPrefix ep pfx])
  ++ (let existing := get_name (ck_names st) svc (Name ep) in
      if String.eqb existing "" then [] else [NameCollision ep existing])
  ++ map (RouteCollision ep)
       (List.filter (fun existing => routeOwnersCollide existing {| id := ""; path := Path ep; methods := Methods ep |})
          (ck_routes st)).

Definition check_generated (svc : string) (st : check_state) (ep : Endpoint) : check_state :=
  add_owner svc
    {| ck_names := ck_names st; ck_routes := ck_routes st;
       ck_errs := ck_errs st ++ generated_errors svc st ep |} ep.

(** The first loop creates the name map of a service even when it declares no
    endpoint. *)
Definition declare_service (st : check_state) (svc : option Service) : check_state :=
  match svc with
  | None => st
  | Some svc =>
    let names := <[SvcName svc := default ∅ (ck_names st !! SvcName svc)]> (ck_names st) in
    fold_left (add_owner (SvcName svc)) (Endpoints svc)
      {| ck_names := names; ck_routes := ck_routes st; ck_errs := ck_errs st |}
  end.

Definition check_service (st : check_state) (svc : option Service) : check_state :=
  match svc with
  | None => st
  | Some svc => fold_left (check_generated (SvcName svc)) (Generated svc) st
  end.

Definition validateGeneratedEndpointCollisions (services : list (option Service)) : list collision :=
  let st := fold_left declare_service services {| ck_names := ∅; ck_routes := []; ck_errs := [] |} in
  ck_errs (fold_left check_service services st).
(** ** Overlap is ambiguity of the route table *)

(** Whether a list of pattern segments matches a list of request segments. *)
Fixpoint seg_match (l req : list string) : bool :=
  match l with
  | [] => bool_decide (req = [])
  | s :: l' =>
    if routeSegmentWildcard s then true
    else match req with
    | [] => false
    | r :: req' => (routeSegmentParam s || String.eqb r s) && seg_match l' req'
    end
  end.

Lemma param_not_wildcard s : routeSegmentParam s = true -> routeSegmentWildcard s = false.
Proof.
  unfold routeSegmentParam, routeSegmentWildcard. by intros [r ->]%Strings.HasPrefix_iff.
Qed.

Lemma match_loop_seg_match l req acc :
  is_Some (Router.match_loop (map Router.parse_segment l) req acc) <-> seg_match l req = true.
Proof.
  revert req acc. induction l as [|s l IH]; intros req acc; simpl.
  - case_bool_decide; split; intros Hx; [done|by eexists|by inversion Hx|done].
  - unfold Router.parse_segment. pose proof (param_not_wildcard s) as Hpw.
    unfold routeSegmentParam, routeSegmentWildcard in *.
    destruct (Strings.HasPrefix s ":"); simpl.
    + rewrite Hpw by done. destruct req as [|r req]; [split; [by intros [? ?]|done]|apply IH].
    + destruct (Strings.HasPrefix s "*"); simpl; [split; [done|by eexists]|].
      destruct req as [|r req]; [split; [by intros [? ?]|done]|].
      destruct (String.eqb r s); simpl; [apply IH|]. split; [by intros [? ?]|done].
Qed.

Lemma seg_match_overlap l r req :
  seg_match l req = true -> seg_match r req = true -> routeSegmentsOverlap l r = true.
Proof.
  revert r req. induction l as [|s l IH]; intros [|s' r] req Hl Hr; simpl in *; try done.
  - apply bool_decide_eq_true in Hl as ->. by destruct (routeSegmentWildcard s').
  - apply bool_decide_eq_true in Hr as ->. by destruct (routeSegmentWildcard s).
  - destruct (routeSegmentWildcard s); [done|]. destruct (routeSegmentWildcard s'); [done|]. simpl.
    destruct req as [|x req]; [done|]. apply andb_true_iff in Hl as [Hs Hl].
    apply andb_true_iff in Hr as [Hs' Hr]. unfold routeSegmentsCanMatchSameValue.
    destruct (routeSegmentParam s); simpl; [by eapply IH|].
    destruct (routeSegmentParam s'); simpl; [by eapply IH|].
    apply String.eqb_eq in Hs as <-, Hs' as <-. rewrite String.eqb_refl. by eapply IH.
Qed.

(** Segments that can be joined into a path and read back. *)
Definition plain_segments (l : list string) : Prop :=
  Forall (fun x => x <> "" /\ Strings.has_byte "/" x = false) l.

(** A request that a list of pattern segments matches. *)
Fixpoint instance_of (l : list string) : list string :=
  match l with
  | [] => []
  | s :: l' =>
    if routeSegmentWildcard s then []
    else (if routeSegmentParam s then "x" else s) :: instance_of l'
  end.

Lemma instance_of_match l :
  plain_segments l -> seg_match l (instance_of l) = true /\ plain_segments (instance_of l).
Proof.
  induction 1 as [|s l Hs Hl [IHm IHp]]; simpl; [by split; [|constructor]|].
  destruct (routeSegmentWildcard s); [by split; [|constructor]|]. rewrite IHm.
  destruct (routeSegmentParam s); simpl; [by split; [|constructor]|].
  rewrite String.eqb_refl. split; [done|by constructor].
Qed.

Lemma overlap_seg_match l r :
  plain_segments l -> plain_segments r -> routeSegmentsOverlap l r = true ->
  exists req, plain_segments req /\ seg_match l req = true /\ seg_match r req = true.
Proof.
  intros Hl. revert r. induction Hl as [|s l Hs Hl IH]; intros [|s' r] Hr Ho.
  - by exists [].
  - exists []. simpl in *. rewrite Ho. repeat split; constructor.
  - exists []. simpl in *. rewrite Ho. repeat split; constructor.
  - inversion_clear Hr as [|? ? Hs' Hr']. simpl in Ho.
    destruct (routeSegmentWildcard s) eqn:Hw; simpl in Ho.
    { destruct (instance_of_match (s' :: r)) as [Hm Hp]; [by constructor|].
      exists (instance_of (s' :: r)). split; [done|]. split; [|done]. simpl. by rewrite Hw. }
    destruct (routeSegmentWildcard s') eqn:Hw'; simpl in Ho.
    { destruct (instance_of_match (s :: l)) as [Hm Hp]; [by constructor|].
      exists (instance_of (s :: l)). split; [done|]. split; [done|]. simpl. by rewrite Hw'. }
    destruct (routeSegmentsCanMatchSameValue s s') eqn:Hc; simpl in Ho; [|done].
    destruct (IH r Hr' Ho) as (req & Hp & Hml & Hmr).
    exists ((if routeSegmentParam s then if routeSegmentParam s' then "x" else s' else s) :: req).
    unfold routeSegmentsCanMatchSameValue in Hc. simpl. rewrite Hw, Hw', Hml, Hmr.
    destruct (routeSegmentParam s), (routeSegmentParam s'); simpl in *;
      rewrite ?Hc, ?String.eqb_refl; repeat split; try done; try by constructor.
Qed.

(** A path on which the parser and the runtime agree about the segments, none of
    them empty: one leading slash, no trailing or doubled slash, no white space
    around it. *)
Definition canonical_path (p : string) : Prop :=
  routePatternSegments p = Router.splitRoutePath p /\ Forall (fun x => x <> "") (Router.splitRoutePath p).

Lemma canonical_plain p : canonical_path p -> plain_segments (Router.splitRoutePath p).
Proof.
  intros [_ Hne]. destruct (Router.request_segments_split p) as [Hs _].
  apply Forall_and. by split.
Qed.

Lemma pattern_seg_match p req_path :
  is_Some (Router.pattern_match (Router.parseRoutePattern p) req_path)
  <-> seg_match (Router.splitRoutePath p) (Router.splitRoutePath req_path) = true.
Proof.
  unfold Router.pattern_match. rewrite Router.parseRoutePattern_eq. apply match_loop_seg_match.
Qed.

(** C13. The parser's overlap test is exact: two canonical patterns overlap
    exactly when some request path is matched by both of them in the runtime's
    route table. *)
Theorem routePathsOverlap_exact left right :
  canonical_path left -> canonical_path right ->
  routePathsOverlap left right = true <->
  exists req, is_Some (Router.pattern_match (Router.parseRoutePattern left) req)
    /\ is_Some (Router.pattern_match (Router.parseRoutePattern right) req).
Proof.
  intros Hl Hr. unfold routePathsOverlap. rewrite (proj1 Hl), (proj1 Hr).
  setoid_rewrite pattern_seg_match. split.
  - intros Ho. destruct (overlap_seg_match _ _ (canonical_plain _ Hl) (canonical_plain _ Hr) Ho)
      as (req & Hp & Hml & Hmr).
    exists (Strings.Join req "/"). by rewrite Router.splitRoutePath_Join.
  - intros (req & Hml & Hmr). by eapply seg_match_overlap.
Qed.
(** ** The collision check covers ambiguous dispatch *)
Lemma routeMethodsCollide_sound a b m :
  m <> "HEAD" ->
  Forall (fun x => Strings.TrimSpace x = x) a -> Forall (fun x => Strings.TrimSpace x = x) b ->
  Router.routeAllowsMethod (Router.expandMethods a) m = true ->
  Router.routeAllowsMethod (Router.expandMethods b) m = true ->
  routeMethodsCollide a b = true.
Proof.
  intros Hm Ha Hb Hla Hlb. unfold Router.routeAllowsMethod in Hla, Hlb.
  rewrite (proj2 (String.eqb_neq _ _) Hm), orb_false_r, bool_decide_eq_true in Hla, Hlb.
  apply Router.elem_of_expandMethods in Hla as (x & Hx & Hxm).
  apply Router.elem_of_expandMethods in Hlb as (y & Hy & Hym).
  unfold routeMethodsCollide. rewrite !bool_decide_false by (intros ->; by eapply elem_of_nil). simpl.
  apply existsb_exists. exists x. split; [by apply list_elem_of_In|].
  apply existsb_exists. exists y. split; [by apply list_elem_of_In|].
  unfold methods_pair_collide, clean_method.
  rewrite (proj1 (Forall_forall _ _) Ha x Hx), (proj1 (Forall_forall _ _) Hb y Hy).
  assert (Strings.ToUpper "*" = "*") as Hstar by done.
  destruct Hxm as [->|Hxm]; [rewrite Hstar; simpl; by rewrite !orb_true_r|].
  destruct Hym as [->|Hym]; [rewrite Hstar; simpl; by rewrite !orb_true_r|].
  rewrite <- Hxm, <- Hym, String.eqb_refl. by rewrite !orb_true_r.
Qed.

(** No request is ambiguous behind the parser's back: when two endpoints with
    canonical paths and trimmed methods can both serve a request of the runtime
    whose method is not HEAD, the parser reports that they collide. *)
Theorem routeOwnersCollide_sound a b m req ps qs :
  canonical_path (path a) -> canonical_path (path b) ->
  Forall (fun x => Strings.TrimSpace x = x) (methods a) ->
  Forall (fun x => Strings.TrimSpace x = x) (methods b) ->
  m <> "HEAD" ->
  Router.serves (methods a, path a, tt) m req ps ->
  Router.serves (methods b, path b, tt) m req qs ->
  routeOwnersCollide a b = true.
Proof.
  intros Ha Hb Hma Hmb Hm [Hpa Hla] [Hpb Hlb]. unfold routeOwnersCollide.
  replace (routePathsOverlap (path a) (path b)) with true; simpl.
  - by eapply routeMethodsCollide_sound.
  - symmetry. unfold routePathsOverlap. rewrite (proj1 Ha), (proj1 Hb).
    apply (seg_match_overlap _ _ (Router.splitRoutePath req)); apply pattern_seg_match; by eexists.
Qed.

(** ** The check of generated endpoints *)

(** The endpoints of the services, with the name of their service. *)
Definition declared (services : list (option Service)) : list (string * Endpoint) :=
  concat (map (fun s => match s with
                        | None => []
                        | Some svc => map (pair (SvcName svc)) (Endpoints svc) end) services).

Definition generated (services : list (option Service)) : list (string * Endpoint) :=
  concat (map (fun s => match s with
                        | None => []
                        | Some svc => map (pair (SvcName svc)) (Generated svc) end) services).

Definition owner (e : string * Endpoint) : routeOwner := owner_of e.1 e.2.
Definition full_name (e : string * Endpoint) : string * string := (e.1, Name e.2).

(** The state after the endpoints [es]: their owners are listed and exactly their
    names are taken. *)
Definition check_inv (st : check_state) (es : list (string * Endpoint)) : Prop :=
  ck_routes st = map owner es
  /\ forall svc nm, get_name (ck_names st) svc nm <> "" <-> (svc, nm) ∈ map full_name es.

Lemma get_set_name names svc nm v svc' nm' :
  get_name (set_name names svc nm v) svc' nm'
  = if bool_decide ((svc, nm) = (svc', nm')) then v else get_name names svc' nm'.
Proof.
  unfold get_name, set_name. destruct (decide (svc = svc')) as [->|Hs].
  - rewrite (lookup_insert_eq names). simpl. destruct (decide (nm = nm')) as [->|Hn].
    + by rewrite lookup_insert_eq, bool_decide_true.
    + rewrite lookup_insert_ne, bool_decide_false by congruence. done.
  - rewrite lookup_insert_ne, bool_decide_false by congruence. done.
Qed.

Lemma qualified_not_empty svc ep : qualified svc ep <> "".
Proof. unfold qualified. by destruct svc. Qed.

Lemma add_owner_inv svc st ep es :
  check_inv st es -> check_inv (add_owner svc st ep) (es ++ [(svc, ep)]).
Proof.
  intros [Hr Hn]. split; simpl; [by rewrite Hr, map_app|]. intros svc' nm'.
  rewrite get_set_name, map_app, elem_of_app, <- Hn. simpl. rewrite list_elem_of_singleton.
  unfold full_name. simpl. case_bool_decide as E; [|by split; [auto|intros [?|?]]].
  split; [auto|]. intros _. apply qualified_not_empty.
Qed.

Lemma add_owner_fold svc eps st es :
  check_inv st es ->
  check_inv (fold_left (add_owner svc) eps st) (es ++ map (pair svc) eps)
  /\ ck_errs (fold_left (add_owner svc) eps st) = ck_errs st.
Proof.
  revert st es. induction eps as [|ep eps IH]; intros st es Hst; simpl.
  - by rewrite (right_id_L [] (++)).
  - destruct (IH _ _ (add_owner_inv svc st ep es Hst)) as [Hinv He].
    by rewrite <- (assoc_L (++)) in Hinv.
Qed.

Lemma declare_services_inv services st es :
  check_inv st es ->
  check_inv (fold_left declare_service services st) (es ++ declared services)
  /\ ck_errs (fold_left declare_service services st) = ck_errs st.
Proof.
  revert st es. induction services as [|[svc|] services IH]; intros st es Hst; simpl.
  - change (declared []) with (@nil (string * Endpoint)). by rewrite (right_id_L [] (++)).
  - set (st0 := {| ck_names := _; ck_routes := ck_routes st; ck_errs := ck_errs st |}).
    assert (check_inv st0 es) as Hst0.
    { destruct Hst as [Hr Hn]. split; [done|]. intros s nm. rewrite <- Hn. simpl. unfold get_name.
      destruct (decide (SvcName svc = s)) as [->|Hne].
      - by rewrite lookup_insert_eq.
      - by rewrite lookup_insert_ne. }
    destruct (add_owner_fold (SvcName svc) (Endpoints svc) st0 es Hst0) as [Hinv He].
    destruct (IH _ _ Hinv) as [Hinv' He']. rewrite <- (assoc_L (++)) in Hinv'.
    split; [done|]. by rewrite He', He.
  - by apply IH.
Qed.

(** What no reported error says about one generated endpoint. *)
Definition endpoint_ok (seen : list (string * Endpoint)) (e : string * Endpoint) : Prop :=
  generatedEndpointReservedRoutePrefix (Path e.2) = ""
  /\ (full_name e ∉ map full_name seen)
  /\ Forall (fun s => routeOwnersCollide (owner s) (owner e) = false) seen.

Lemma generated_errors_nil st es svc ep :
  check_inv st es -> generated_errors svc st ep = [] -> endpoint_ok es (svc, ep).
Proof.
  intros [Hr Hn] He. unfold generated_errors in He.
  apply app_nil in He as [He1 He]. apply app_nil in He as [He2 He3]. split; [|split].
  - destruct (String.eqb_spec (generatedEndpointReservedRoutePrefix (Path ep)) ""); done.
  - unfold full_name at 1. simpl. rewrite <- Hn.
    destruct (String.eqb_spec (get_name (ck_names st) svc (Name ep)) "") as [->|]; [auto|done].
  - apply fmap_nil_inv in He3. rewrite Hr in He3. apply Forall_forall. intros s Hs.
    apply not_true_iff_false. intros Hc.
    assert (owner s ∈ List.filter (fun existing => routeOwnersCollide existing
              {| id := ""; path := Path ep; methods := Methods ep |}) (map owner es)) as Hin.
    { apply list_elem_of_In, filter_In. split; [|done].
      apply list_elem_of_In. by apply list_elem_of_fmap_2. }
    rewrite He3 in Hin. by apply elem_of_nil in Hin.
Qed.

Lemma check_generated_mono svc eps st :
  exists errs, ck_errs (fold_left (check_generated svc) eps st) = ck_errs st ++ errs.
Proof.
  revert st. induction eps as [|ep eps IH]; intros st; simpl.
  - exists []. by rewrite (right_id_L [] (++)).
  - destruct (IH (check_generated svc st ep)) as [errs ->]. simpl.
    rewrite <- (assoc_L (++)). by eexists.
Qed.
Lemma check_services_mono services st :
  exists errs, ck_errs (fold_left check_service services st) = ck_errs st ++ errs.
Proof.
  revert st. induction services as [|[svc|] services IH]; intros st; simpl.
  - exists []. by rewrite (right_id_L [] (++)).
  - destruct (IH (fold_left (check_generated (SvcName svc)) (Generated svc) st)) as [errs ->].
    destruct (check_generated_mono (SvcName svc) (Generated svc) st) as [errs' ->].
    rewrite <- (assoc_L (++)). by eexists.
  - apply IH.
Qed.

(** Every generated endpoint is fine with respect to those before it. *)
Fixpoint all_ok (seen es : list (string * Endpoint)) : Prop :=
  match es with
  | [] => True
  | e :: es' => endpoint_ok seen e /\ all_ok (seen ++ [e]) es'
  end.

Lemma all_ok_app seen es es' : all_ok seen es -> all_ok (seen ++ es) es' -> all_ok seen (es ++ es').
Proof.
  revert seen. induction es as [|e es IH]; intros seen; simpl; [by rewrite (right_id_L [] (++))|].
  intros [He Hes] Hes'. split; [done|]. apply IH; [done|]. by rewrite <- (assoc_L (++)).
Qed.

Lemma check_generated_fold svc eps st es :
  check_inv st es -> ck_errs (fold_left (check_generated svc) eps st) = [] ->
  check_inv (fold_left (check_generated svc) eps st) (es ++ map (pair svc) eps)
  /\ all_ok es (map (pair svc) eps).
Proof.
  revert st es. induction eps as [|ep eps IH]; intros st es Hst He; simpl in *.
  - by rewrite (right_id_L [] (++)).
  - destruct (check_generated_mono svc eps (check_generated svc st ep)) as [errs Herrs].
    rewrite He in Herrs. symmetry in Herrs. apply app_nil in Herrs as [Herrs _]. simpl in Herrs.
    apply app_nil in Herrs as [_ Herrs].
    assert (check_inv (check_generated svc st ep) (es ++ [(svc, ep)])) as Hst'
      by (apply add_owner_inv; done).
    destruct (IH _ _ Hst' He) as [Hinv Hok]. rewrite <- (assoc_L (++)) in Hinv.
    split; [done|]. split; [|done]. by eapply generated_errors_nil.
Qed.

Lemma check_services_ok services st es :
  check_inv st es -> ck_errs (fold_left check_service services st) = [] ->
  all_ok es (generated services).
Proof.
  revert st es. induction services as [|[svc|] services IH]; intros st es Hst He; simpl in *; [done| |].
  - destruct (check_services_mono services
                (fold_left (check_generated (SvcName svc)) (Generated svc) st)) as [errs Herrs].
    rewrite He in Herrs. symmetry in Herrs. apply app_nil in Herrs as [Herrs _].
    destruct (check_generated_fold _ _ _ _ Hst Herrs) as [Hinv Hok].
    change (generated (Some svc :: services))
      with (map (pair (SvcName svc)) (Generated svc) ++ generated services).
    apply all_ok_app; [done|]. by eapply IH.
  - by eapply IH.
Qed.

Lemma all_ok_lookup seen es i e :
  all_ok seen es -> es !! i = Some e -> endpoint_ok (seen ++ take i es) e.
Proof.
  revert seen i. induction es as [|x es IH]; intros seen i Hok Hi; [done|]. destruct Hok as [Hx Hok].
  destruct i as [|i]; simpl in *.
  - simplify_eq. by rewrite (right_id_L [] (++)).
  - specialize (IH _ _ Hok Hi). by rewrite <- (assoc_L (++)) in IH.
Qed.

(** When the check reports nothing, every generated endpoint avoids the
    reserved prefixes, has a name of its own in its service, and collides neither
    with a declared endpoint nor with a generated endpoint before it. *)
Theorem validateGeneratedEndpointCollisions_sound services i e :
  validateGeneratedEndpointCollisions services = [] ->
  generated services !! i = Some e ->
  endpoint_ok (declared services ++ take i (generated services)) e.
Proof.
  intros Hv Hi. unfold validateGeneratedEndpointCollisions in Hv.
  eapply all_ok_lookup; [|done]. eapply check_services_ok; [|done].
  apply (declare_services_inv services {| ck_names := ∅; ck_routes := []; ck_errs := [] |} []).
  split; [done|]. intros svc nm. rewrite elem_of_nil. by split.
Qed.
(** ** Service roots do not depend on map order *)
Definition root_step (relDir root explicit : string) : string :=
  if String.eqb explicit "." || negb (sameOrDescendantDir relDir explicit) then root
  else if String.eqb root "." || Nat.ltb (String.length root) (String.length explicit) then explicit
  else root.

Lemma service_root_loop_fold relDir roots root :
  relDir <> "." -> service_root_loop relDir roots root = fold_left (root_step relDir) roots root.
Proof.
  intros Hne. revert root. induction roots as [|e roots IH]; intros root; simpl; [done|].
  rewrite (proj2 (String.eqb_neq _ _) Hne). unfold root_step at 2.
  destruct (String.eqb e "."); simpl; [apply IH|].
  destruct (sameOrDescendantDir relDir e); simpl; [|apply IH].
  destruct (String.eqb root "." || _); apply IH.
Qed.

Lemma service_root_loop_dot roots : service_root_loop "." roots "." = ".".
Proof.
  induction roots as [|e roots IH]; simpl; [done|].
  destruct (String.eqb_spec e ".") as [->|Hne]; [done|].
  replace (sameOrDescendantDir "." e) with false; [done|].
  unfold sameOrDescendantDir. rewrite (proj2 (String.eqb_neq _ _)) by congruence.
  rewrite (proj2 (String.eqb_neq _ _) Hne). symmetry. apply not_true_iff_false.
  intros [r Hr]%Strings.HasPrefix_iff. destruct e as [|c e]; [done|].
  rewrite !Strings.string_app_cons in Hr. simplify_eq. by destruct e.
Qed.

Lemma sameOrDescendantDir_prefix relDir root :
  sameOrDescendantDir relDir root = true -> Strings.HasPrefix relDir root = true.
Proof.
  unfold sameOrDescendantDir. rewrite Strings.HasPrefix_iff.
  destruct (String.eqb_spec relDir root) as [->|_].
  - intros _. exists "". by rewrite Strings.string_app_nil_r.
  - destruct (String.eqb root "."); [done|]. intros [r ->]%Strings.HasPrefix_iff.
    exists ("/" +:+ r). by rewrite Strings.string_app_assoc.
Qed.

Lemma root_step_comm relDir root a b :
  root_step relDir (root_step relDir root a) b = root_step relDir (root_step relDir root b) a.
Proof.
  unfold root_step.
  destruct (String.eqb_spec a ".") as [->|Ha]; simpl; [done|].
  destruct (String.eqb_spec b ".") as [->|Hb]; simpl; [done|].
  destruct (sameOrDescendantDir relDir a) eqn:Hda; simpl; [|done].
  destruct (sameOrDescendantDir relDir b) eqn:Hdb; simpl; [|done].
  assert (String.length a = String.length b -> a = b) as Hab
    by (apply Strings.prefix_same_length with relDir; by apply sameOrDescendantDir_prefix).
  destruct (String.eqb_spec root ".") as [Hr|Hr]; simpl.
  - rewrite (proj2 (String.eqb_neq _ _) Ha), (proj2 (String.eqb_neq _ _) Hb). simpl.
    destruct (Nat.ltb_spec (String.length a) (String.length b)),
      (Nat.ltb_spec (String.length b) (String.length a)); try lia; try done.
    apply Hab. lia.
  - destruct (Nat.ltb_spec (String.length root) (String.length a));
      destruct (Nat.ltb_spec (String.length root) (String.length b)).
    all: rewrite ?(proj2 (String.eqb_neq _ _) Ha), ?(proj2 (String.eqb_neq _ _) Hb),
      ?(proj2 (String.eqb_neq _ _) Hr); simpl.
    all: destruct (Nat.ltb_spec (String.length a) (String.length b)),
      (Nat.ltb_spec (String.length b) (String.length a)); try lia; try done.
    all: destruct (Nat.ltb_spec (String.length root) (String.length a)),
      (Nat.ltb_spec (String.length root) (String.length b)); try lia; try done.
    all: apply Hab; lia.
Qed.

(** The root of a package does not depend on the order in which Go iterates
    over the explicit service roots. *)
Theorem serviceRootForPackage_perm relDir roots roots' :
  roots ≡ₚ roots' -> serviceRootForPackage relDir roots = serviceRootForPackage relDir roots'.
Proof.
  intros Hp. unfold serviceRootForPackage.
  destruct (decide (relDir = ".")) as [->|Hne].
  - by rewrite !service_root_loop_dot.
  - rewrite !service_root_loop_fold by done. apply fold_left_perm; [apply root_step_comm|done].
Qed.

(** ** Path parameters *)
Lemma parse_path_segments_filter l :
  parse_path_segments (List.filter (fun x => negb (String.eqb x "")) l) = parse_path_segments l.
Proof.
  induction l as [|[|c s] l IH]; simpl; [done|done|]. by rewrite IH.
Qed.

Lemma names_filter l :
  Router.names (map Router.parse_segment (List.filter (fun x => negb (String.eqb x "")) l))
  = Router.names (map Router.parse_segment l).
Proof.
  induction l as [|s l IH]; simpl; [done|]. destruct (String.eqb_spec s "") as [->|_]; simpl; [done|].
  by rewrite IH.
Qed.

Abbreviation nonempty := (List.filter (fun x => negb (String.eqb x ""))).

Lemma nonempty_TrimLeft s c :
  nonempty (Strings.Split (Strings.TrimLeftSet (Ascii.eqb c) s) c) = nonempty (Strings.Split s c).
Proof.
  induction s as [|d s IH]; simpl; [done|]. destruct (Ascii.eqb_spec c d) as [->|Hne].
  - by rewrite Ascii.eqb_refl, IH.
  - done.
Qed.

Lemma nonempty_TrimRight s c :
  nonempty (Strings.Split (Strings.TrimRightSet (Ascii.eqb c) s) c) = nonempty (Strings.Split s c)
  /\ (Strings.TrimRightSet (Ascii.eqb c) s = "" -> nonempty (Strings.Split s c) = []
      /\ head (Strings.Split s c) = Some "")
  /\ (Strings.TrimRightSet (Ascii.eqb c) s <> "" ->
      head (Strings.Split (Strings.TrimRightSet (Ascii.eqb c) s) c) = head (Strings.Split s c)).
Proof.
  induction s as [|d s (IH & IHe & IHn)]; [done|]. simpl.
  pose proof (Strings.Split_not_nil s c) as Hs.
  pose proof (Strings.Split_not_nil (Strings.TrimRightSet (Ascii.eqb c) s) c) as Ht.
  destruct (Ascii.eqb_spec c d) as [->|Hne]; simpl.
  - rewrite Ascii.eqb_refl. destruct (String.eqb_spec (Strings.TrimRightSet (Ascii.eqb d) s) "") as [E|E]; simpl.
    + destruct (IHe E) as [Hn Hh]. by rewrite Hn.
    + by rewrite Ascii.eqb_refl.
  - rewrite (proj2 (Ascii.eqb_neq _ _)) by congruence.
    destruct (String.eqb_spec (Strings.TrimRightSet (Ascii.eqb c) s) "") as [E|E].
    + rewrite E. simpl. destruct (IHe E) as [Hn Hh].
      destruct (Strings.Split s c) as [|h t]; [done|]. simpl in *. simplify_eq. simpl in *.
      by rewrite Hn.
    + specialize (IHn E).
      destruct (Strings.Split s c) as [|h t], (Strings.Split (Strings.TrimRightSet (Ascii.eqb c) s) c) as [|h' t'];
        try done. simpl in *. simplify_eq. repeat split; try done.
      destruct (String.eqb h ""); simpl in IH; congruence.
Qed.

Lemma nonempty_splitRoutePath p :
  nonempty (Router.splitRoutePath p) = nonempty (Strings.Split (Strings.TrimPrefix p "/") "/").
Proof.
  transitivity (nonempty (Strings.Split p "/")).
  - unfold Router.splitRoutePath. destruct (String.eqb_spec (Strings.Trim p "/") "") as [E|_].
    + unfold Strings.Trim, Strings.TrimSet in E.
      destruct (nonempty_TrimRight (Strings.TrimLeftSet (Ascii.eqb "/") p) "/") as (_ & He & _).
      rewrite <- nonempty_TrimLeft. by rewrite (proj1 (He E)).
    + unfold Strings.Trim, Strings.TrimSet.
      by rewrite (proj1 (nonempty_TrimRight _ "/")), nonempty_TrimLeft.
  - destruct (Strings.HasPrefix p "/") eqn:E.
    + apply Strings.HasPrefix_iff in E as [r ->]. by rewrite Strings.TrimPrefix_app.
    + unfold Strings.TrimPrefix. by rewrite E.
Qed.

Lemma parse_path_names l params :
  Router.wildcard_last (map Router.parse_segment l) = true ->
  parse_path_segments l = Ret params -> Router.names (map Router.parse_segment l) = params.
Proof.
  revert params. induction l as [|s l IH]; intros params Hw Hp; simpl in *; [by simplify_eq|].
  apply andb_true_iff in Hw as [Hl Hw]. destruct s as [|c s]; [by apply IH|].
  assert (Router.parse_segment (String c s) =
    if Ascii.eqb c ":" then {| Router.kind := Router.routeParam; Router.value := s |}
    else if Ascii.eqb c "*" then {| Router.kind := Router.routeWildcard; Router.value := s |}
    else {| Router.kind := Router.routeLiteral; Router.value := String c s |}) as Eseg.
  { unfold Router.parse_segment, Strings.HasPrefix. by rewrite !andb_true_r. }
  rewrite Eseg in *. clear Eseg.
  destruct (Ascii.eqb c ":"); simpl in *.
  { destruct (String.eqb s ""); [done|]. inv_outcome. f_equal. by apply IH. }
  destruct (Ascii.eqb c "*"); simpl in *.
  { destruct (String.eqb s ""); [done|]. inv_outcome. apply bool_decide_eq_true in Hl.
    apply fmap_nil_inv in Hl as ->. simpl in *. by simplify_eq. }
  destruct (Ascii.eqb c "!"); [done|]. by apply IH.
Qed.

(** The path parameters the parser declares for an endpoint are, in order,
    the names the runtime's router binds when it matches that path, for a path
    whose wildcard is its last segment. *)
Theorem parsePath_router_names p params :
  Router.wildcard_last (map Router.parse_segment (nonempty (Router.splitRoutePath p))) = true ->
  parsePath p = Ret params ->
  Router.names (Router.segments (Router.parseRoutePattern p)) = params.
Proof.
  rewrite Router.parseRoutePattern_eq. simpl. rewrite <- names_filter. unfold parsePath.
  intros Hw Hp. destruct (String.eqb_spec p "") as [->|_]; [by simplify_eq|].
  apply parse_path_names; [done|]. by rewrite nonempty_splitRoutePath, parse_path_segments_filter.
Qed.
End parse.
(** ** The theorems at concrete inputs *)
#[local] Existing Instance ascii_tables.

Lemma routePathsOverlap_exact_witness :
  exists req, is_Some (Router.pattern_match (Router.parseRoutePattern "/users/:id") req)
    /\ is_Some (Router.pattern_match (Router.parseRoutePattern "/*rest") req).
Proof.
  apply (routePathsOverlap_exact "/users/:id" "/*rest").
  - split; [reflexivity|]. repeat constructor; discriminate.
  - split; [reflexivity|]. repeat constructor; discriminate.
  - reflexivity.
Defined.

Definition demo_owner (p : string) (ms : list string) : routeOwner :=
  {| id := "svc.Ep"; path := p; methods := ms |}.

Lemma routeOwnersCollide_sound_witness :
  routeOwnersCollide (demo_owner "/users/:id" ["GET"]) (demo_owner "/users/me" ["GET"; "POST"]) = true.
Proof.
  apply (routeOwnersCollide_sound (demo_owner "/users/:id" ["GET"])
           (demo_owner "/users/me" ["GET"; "POST"]) "GET" "/users/me"
           [{| Router.Key := "id"; Router.Value := "me" |}] []).
  - split; [reflexivity|]. repeat constructor; discriminate.
  - split; [reflexivity|]. repeat constructor; discriminate.
  - repeat constructor.
  - repeat constructor.
  - discriminate.
  - split; reflexivity.
  - split; reflexivity.
Defined.

Definition demo_service : Service :=
  {| SvcName := "notes";
     Endpoints := [{| Name := "Health"; Path := "/health"; Methods := ["GET"] |}];
     Generated := [{| Name := "ListNote"; Path := "/notes"; Methods := ["GET"] |};
                   {| Name := "GetNote"; Path := "/notes/:id"; Methods := ["GET"] |}] |}.

Lemma validateGeneratedEndpointCollisions_sound_witness :
  endpoint_ok
    [("notes", {| Name := "Health"; Path := "/health"; Methods := ["GET"] |});
     ("notes", {| Name := "ListNote"; Path := "/notes"; Methods := ["GET"] |})]
    ("notes", {| Name := "GetNote"; Path := "/notes/:id"; Methods := ["GET"] |}).
Proof.
  apply (validateGeneratedEndpointCollisions_sound [None; Some demo_service] 1%nat); reflexivity.
Defined.

Lemma serviceRootForPackage_perm_witness :
  serviceRootForPackage "a/b/c" ["a"; "a/b"; "."] = serviceRootForPackage "a/b/c" ["."; "a/b"; "a"].
Proof.
  apply (serviceRootForPackage_perm "a/b/c" ["a"; "a/b"; "."] ["."; "a/b"; "a"]).
  apply (Permutation_rev ["a"; "a/b"; "."]).
Defined.

Lemma parsePath_router_names_witness :
  Router.names (Router.segments (Router.parseRoutePattern "/files/:bucket//*key")) = ["bucket"; "key"].
Proof.
  apply (parsePath_router_names "/files/:bucket//*key"); reflexivity.
Defined.
End Parser.
