(* ===== verification/Redact.v ===== *)
(** * Redaction of sensitive values ([internal/redact/redact.go])

    [Redact] models the reflective traversal [redactor.value] with its shared
    [seen] map, and the key classification.  A [reflect.Value] is a [gvalue];
    pointers are addresses into a heap, so cyclic data is represented.  The
    iteration order of a Go map is the order of the entry list. *)
From stdpp Require Import base tactics list gmap strings.
From Stdlib Require Import ZArith Lia Ascii.
From S2P Require Import Prelude GoStrings WireCodec.
Set Warnings "-register-all".

Module Redact.
Definition Placeholder : string := "[redacted]".

(** ** Sensitive keys *)
Section keys.
Context {UT : UnicodeTables}.

(** [strings.NewReplacer("-", "", "_", "", " ", "", ".", "")]. *)
Fixpoint replacer (s : string) : string :=
  match s with
  | EmptyString => ""
  | String c s' =>
    if Ascii.eqb c "-" || Ascii.eqb c "_" || Ascii.eqb c " " || Ascii.eqb c "."
    then replacer s' else String c (replacer s')
  end.

Definition normalizeKey (key : string) : string :=
  replacer (Strings.ToLower (Strings.TrimSpace key)).

Definition SensitiveKey (key : string) : bool :=
  bool_decide (normalizeKey key ∈
    ["authorization"; "cookie"; "setcookie"; "token"; "accesstoken"; "refreshtoken"; "password";
     "secret"; "apikey"; "databaseurl"; "jwt"; "jwttoken"]).
End keys.

(** ** Values *)

(** [Tag_json] and [Tag_scenery] are [field.Tag.Get] of the two keys. *)
Record StructField := {
  Name : string;
  Exported : bool;
  Tag_json : string;
  Tag_scenery : string
}.

Inductive mapKey :=
| KInvalid
| KString (s : string)
| KOther (text : string).  (** [fmt.Sprint] of the key *)

Inductive gvalue :=
| VInvalid                                  (** [reflect.ValueOf(nil)] *)
| VNil                                      (** a nil interface, pointer, map or slice *)
| VInterface (v : gvalue)
| VPointer (typ : string) (ptr : Z)
| VTime (t : string)                        (** a [time.Time] *)
| VStruct (fields : list (StructField * gvalue))
| VMap (entries : list (mapKey * gvalue))
| VSlice (items : list gvalue)              (** a slice or an array *)
| VScalar (text : string).                  (** any other kind *)

(** The output of the redactor. *)
Inductive rvalue :=
| RNil
| RText (s : string)
| RKeep (v : gvalue)
| RMap (entries : list (string * rvalue))
| RSlice (items : list rvalue).

Abbreviation visit := (string * Z)%type.
Abbreviation heap := (gmap visit gvalue).
Abbreviation seen_set := (gset visit).

Definition stringifyMapKey (key : mapKey) : string :=
  match key with KInvalid => "" | KString s => s | KOther text => text end.

Definition isSensitiveField (field : StructField) : bool :=
  existsb (fun part => String.eqb (Strings.TrimSpace part) "sensitive")
    (Strings.Split (Tag_scenery field) ",").

Definition jsonFieldName (field : StructField) : string :=
  let name := match Strings.Split (Tag_json field) "," with x :: _ => x | [] => "" end in
  if String.eqb name "" then Name field
  else if String.eqb name "-" then Name field
  else name.

Definition result : Type := option (rvalue * seen_set).

(** The loops of [redactor.value] over the fields of a struct, the entries of a
    map and the elements of a slice; [go] is the recursive call. *)
Section loops.
Context {UT : UnicodeTables} (go : gvalue -> string -> seen_set -> result).

Fixpoint field_loop (fs : list (StructField * gvalue)) (out : list (string * rvalue)) (seen : seen_set)
  : result :=
  match fs with
  | [] => Some (RMap out, seen)
  | (field, fv) :: fs' =>
    if negb (Exported field) then field_loop fs' out seen
    else
      let fieldName := jsonFieldName field in
      if isSensitiveField field || SensitiveKey fieldName
      then field_loop fs' (Wire.map_set fieldName (RText Placeholder) out) seen
      else match go fv fieldName seen with
      | Some (r, seen) => field_loop fs' (Wire.map_set fieldName r out) seen
      | None => None
      end
  end.

Fixpoint entry_loop (es : list (mapKey * gvalue)) (out : list (string * rvalue)) (seen : seen_set)
  : result :=
  match es with
  | [] => Some (RMap out, seen)
  | (k, ev) :: es' =>
    let mapKey := stringifyMapKey k in
    if SensitiveKey mapKey
    then entry_loop es' (Wire.map_set mapKey (RText Placeholder) out) seen
    else match go ev mapKey seen with
    | Some (r, seen) => entry_loop es' (Wire.map_set mapKey r out) seen
    | None => None
    end
  end.

Fixpoint item_loop (key : string) (vs : list gvalue) (out : list rvalue) (seen : seen_set) : result :=
  match vs with
  | [] => Some (RSlice out, seen)
  | x :: vs' =>
    match go x key seen with
    | Some (r, seen) => item_loop key vs' (out ++ [r]) seen
    | None => None
    end
  end.
End loops.

Section redactor.
Context {UT : UnicodeTables} (h : heap).

(** One traversal that follows pointers with [deref]; [None] is running out of
    the pointer dereferences allowed. *)
Definition value_body (deref : gvalue -> string -> seen_set -> result)
  : gvalue -> string -> seen_set -> result :=
  fix go (v : gvalue) (key : string) (seen : seen_set) {struct v} : result :=
    match v with
    | VInvalid => Some (RNil, seen)
    | _ =>
      if SensitiveKey key then Some (RText Placeholder, seen)
      else match v with
      | VInvalid | VNil => Some (RNil, seen)
      | VInterface v' => go v' key seen
      | VPointer typ ptr =>
        let ref := (typ, ptr) in
        if negb (ptr =? 0) && bool_decide (ref ∈ seen) then Some (RText Placeholder, seen)
        else
          let seen := if negb (ptr =? 0) then {[ref]} ∪ seen else seen in
          match h !! ref with
          | Some v' => deref v' key seen
          | None => Some (RNil, seen)
          end
      | VTime t => Some (RKeep (VTime t), seen)
      | VStruct fields => field_loop go fields [] seen
      | VMap entries => entry_loop go entries [] seen
      | VSlice items => item_loop go key items [] seen
      | VScalar text => Some (RKeep (VScalar text), seen)
      end
    end.

(** [redactor.value], following at most [fuel] nested pointers. *)
Fixpoint value (fuel : nat) : gvalue -> string -> seen_set -> result :=
  match fuel with
  | O => value_body (fun _ _ _ => None)
  | S n => value_body (value n)
  end.

Definition redactor_any (fuel : nat) (v : gvalue) (key : string) (seen : seen_set) : result :=
  if SensitiveKey key then Some (RText Placeholder, seen) else value fuel v key seen.

(** [Value] and [Metadata] with a fresh [seen]; every pointer is followed at most
    once, so the size of the heap bounds the nesting. *)
Definition Value (v : gvalue) : option rvalue := fst <$> value (size h) v "" ∅.

Fixpoint metadata_loop (meta : list (string * gvalue)) (out : list (string * rvalue)) (seen : seen_set)
  : option (list (string * rvalue)) :=
  match meta with
  | [] => Some out
  | (key, v) :: meta' =>
    match redactor_any (size h) v key seen with
    | Some (r, seen) => metadata_loop meta' (Wire.map_set key r out) seen
    | None => None
    end
  end.

Definition Metadata (meta : list (string * gvalue)) : option (list (string * rvalue)) :=
  match meta with
  | [] => Some []
  | _ => metadata_loop meta [] ∅
  end.
End redactor.

Definition Headers `{UnicodeTables} (headers : list (string * list string)) : list (string * string) :=
  fold_left (fun out '(key, values) =>
    Wire.map_set key (if SensitiveKey key then Placeholder else Strings.Join values ", ") out)
    headers [].

(** ** Induction on values *)
Lemma gvalue_ind' (P : gvalue -> Prop) :
  P VInvalid -> P VNil -> (forall v, P v -> P (VInterface v)) ->
  (forall typ ptr, P (VPointer typ ptr)) -> (forall t, P (VTime t)) ->
  (forall fs, Forall (fun f => P f.2) fs -> P (VStruct fs)) ->
  (forall es, Forall (fun e => P e.2) es -> P (VMap es)) ->
  (forall vs, Forall P vs -> P (VSlice vs)) ->
  (forall text, P (VScalar text)) -> forall v, P v.
Proof.
  intros HInv HNil HI HP HT HS HM HSl HSc.
  fix IH 1. intros [| |v|typ ptr|t|fs|es|vs|text].
  - exact HInv.
  - exact HNil.
  - apply HI, IH.
  - apply HP.
  - apply HT.
  - apply HS. induction fs as [|[f v] fs IHfs]; constructor; [apply IH|done].
  - apply HM. induction es as [|[k v] es IHes]; constructor; [apply IH|done].
  - apply HSl. induction vs as [|v vs IHvs]; constructor; [apply IH|done].
  - apply HSc.
Qed.

(** ** Termination *)
Section termination.
Context {UT : UnicodeTables} (h : heap).

(** A traversal started with the pointers [seen] visited returns, and only adds
    to them. *)
Definition returns (r : result) (seen : seen_set) : Prop :=
  exists x seen', r = Some (x, seen') /\ seen ⊆ seen'.

Section loops.
Context (go : gvalue -> string -> seen_set -> result) (bound : nat).
Definition fuel_ok (seen : seen_set) : Prop := (size (dom h ∖ seen) <= bound)%nat.

Lemma fuel_ok_mono seen seen' : seen ⊆ seen' -> fuel_ok seen -> fuel_ok seen'.
Proof.
  unfold fuel_ok. intros Hs Hb. etrans; [|exact Hb]. apply subseteq_size. set_solver.
Qed.

Definition go_returns (v : gvalue) : Prop :=
  forall key seen, fuel_ok seen -> returns (go v key seen) seen.

Lemma field_loop_returns fs out seen :
  Forall (fun f => go_returns f.2) fs -> fuel_ok seen -> returns (field_loop go fs out seen) seen.
Proof.
  intros Hfs. revert out seen. induction Hfs as [|[f v] fs Hv Hfs IH]; intros out seen Hok; simpl.
  - by eexists _, _.
  - cbn [snd] in Hv. destruct (Exported f); simpl; [|by apply IH].
    destruct (isSensitiveField f || _); [by apply IH|].
    destruct (Hv (jsonFieldName f) seen Hok) as (r & seen' & -> & Hs).
    destruct (IH (Wire.map_set (jsonFieldName f) r out) seen' (fuel_ok_mono _ _ Hs Hok))
      as (r' & seen'' & -> & Hs'). eexists _, _. split; [done|]. by etrans.
Qed.

Lemma entry_loop_returns es out seen :
  Forall (fun e => go_returns e.2) es -> fuel_ok seen -> returns (entry_loop go es out seen) seen.
Proof.
  intros Hes. revert out seen. induction Hes as [|[k v] es Hv Hes IH]; intros out seen Hok; simpl.
  - by eexists _, _.
  - cbn [snd] in Hv. destruct (SensitiveKey (stringifyMapKey k)); [by apply IH|].
    destruct (Hv (stringifyMapKey k) seen Hok) as (r & seen' & -> & Hs).
    destruct (IH (Wire.map_set (stringifyMapKey k) r out) seen' (fuel_ok_mono _ _ Hs Hok))
      as (r' & seen'' & -> & Hs'). eexists _, _. split; [done|]. by etrans.
Qed.

Lemma item_loop_returns key vs out seen :
  Forall go_returns vs -> fuel_ok seen -> returns (item_loop go key vs out seen) seen.
Proof.
  intros Hvs. revert out seen. induction Hvs as [|v vs Hv Hvs IH]; intros out seen Hok; simpl.
  - by eexists _, _.
  - destruct (Hv key seen Hok) as (r & seen' & -> & Hs).
    destruct (IH (out ++ [r]) seen' (fuel_ok_mono _ _ Hs Hok)) as (r' & seen'' & -> & Hs').
    eexists _, _. split; [done|]. by etrans.
Qed.
End loops.

Lemma returns_here x seen : returns (Some (x, seen)) seen.
Proof. by eexists _, _. Qed.

Lemma size_unseen (ref : visit) (seen : seen_set) n v :
  h !! ref = Some v -> (ref ∉ seen) -> fuel_ok (S n) seen -> fuel_ok n ({[ref]} ∪ seen).
Proof.
  unfold fuel_ok. intros Hl Hns Hok.
  assert (dom h ∖ ({[ref]} ∪ seen) ⊂ dom h ∖ seen) as Hsub.
  { apply elem_of_dom_2 in Hl. set_solver. }
  apply subset_size in Hsub. lia.
Qed.

Lemma no_unseen (ref : visit) (seen : seen_set) v :
  h !! ref = Some v -> (ref ∉ seen) -> ~ fuel_ok 0 seen.
Proof.
  unfold fuel_ok. intros Hl Hns Hok. apply elem_of_dom_2 in Hl.
  assert (size (dom h ∖ seen) = 0)%nat as E by lia.
  apply size_empty_inv in E. set_solver.
Qed.

(** The body returns when [deref] does on the pointers not seen yet. *)
Lemma value_body_returns deref n v :
  (forall t, h !! (t, 0) = None) ->
  (forall v' key (seen : seen_set) (ref : visit), h !! ref = Some v' -> ref ∉ seen -> fuel_ok n seen ->
     returns (deref v' key ({[ref]} ∪ seen)) ({[ref]} ∪ seen)) ->
  go_returns (value_body h deref) n v.
Proof.
  intros Hz Hd. induction v as [| |v IH|typ ptr|t|fs IH|es IH|vs IH|text] using gvalue_ind';
    intros key seen Hok; simpl; try apply returns_here;
    (destruct (SensitiveKey key); [apply returns_here|]); try apply returns_here.
  - by apply IH.
  - destruct (negb (ptr =? 0) && bool_decide _) eqn:Hs; [apply returns_here|].
    destruct (h !! (typ, ptr)) as [v'|] eqn:Hl.
    + destruct (Z.eqb_spec ptr 0) as [->|Hne]; [by rewrite Hz in Hl|]. simpl in *.
      apply bool_decide_eq_false in Hs.
      destruct (Hd v' key seen _ Hl Hs Hok) as (r & seen' & E & Hsub). rewrite E.
      eexists _, _. split; [done|]. set_solver.
    + eexists _, _. split; [done|]. destruct (negb _); set_solver.
  - eapply field_loop_returns; eauto.
  - eapply entry_loop_returns; eauto.
  - eapply item_loop_returns; eauto.
Qed.

Lemma value_returns n v : (forall t, h !! (t, 0) = None) -> go_returns (value h n) n v.
Proof.
  intros Hz. revert v. induction n as [|n IH]; intros v; simpl.
  - apply value_body_returns; [done|]. intros v' key seen ref Hl Hs Hok. by destruct (no_unseen _ _ _ Hl Hs).
  - apply value_body_returns; [done|]. intros v' key seen ref Hl Hs Hok. apply IH.
    by eapply size_unseen.
Qed.

(** Redaction terminates on every value, cyclic ones included: following each
    pointer at most once, the traversal needs no more nested dereferences than
    there are pointers, and always returns a value. *)
Theorem Value_total v : (forall t, h !! (t, 0) = None) -> exists r, Value h v = Some r.
Proof.
  intros Hz. unfold Value. destruct (value_returns (size h) v Hz "" ∅) as (r & seen & -> & _).
  - unfold fuel_ok. rewrite difference_empty_L, size_dom. done.
  - by exists r.
Qed.
End termination.

(** ** Confidentiality *)
Section secrecy.
Context {UT : UnicodeTables}.

Definition hidden_field (f : StructField) : bool :=
  negb (Exported f) || isSensitiveField f || SensitiveKey (jsonFieldName f).

(** A value without what lies under sensitive keys, sensitive fields and
    unexported fields. *)
Fixpoint erase (v : gvalue) : gvalue :=
  match v with
  | VInterface v' => VInterface (erase v')
  | VStruct fs => VStruct (map (fun '(f, v) => (f, if hidden_field f then VInvalid else erase v)) fs)
  | VMap es =>
    VMap (map (fun '(k, v) => (k, if SensitiveKey (stringifyMapKey k) then VInvalid else erase v)) es)
  | VSlice vs => VSlice (map erase vs)
  | _ => v
  end.

Definition same_run (go go' : gvalue -> string -> seen_set -> result) (v : gvalue) : Prop :=
  forall key seen, go' (erase v) key seen = go v key seen.

Lemma field_loop_erase go go' fs out seen :
  Forall (fun f => same_run go go' f.2) fs ->
  field_loop go' (map (fun '(f, v) => (f, if hidden_field f then VInvalid else erase v)) fs) out seen
  = field_loop go fs out seen.
Proof.
  intros Hfs. revert out seen. induction Hfs as [|[f v] fs Hv Hfs IH]; intros out seen; simpl; [done|].
  unfold hidden_field. destruct (Exported f); simpl; [|apply IH].
  destruct (isSensitiveField f || SensitiveKey (jsonFieldName f)) eqn:E; simpl; [apply IH|].
  cbn [snd] in Hv. rewrite (Hv (jsonFieldName f) seen). destruct (go _ _ _) as [[r seen']|]; [apply IH|done].
Qed.

Lemma entry_loop_erase go go' es out seen :
  Forall (fun e => same_run go go' e.2) es ->
  entry_loop go' (map (fun '(k, v) => (k, if SensitiveKey (stringifyMapKey k) then VInvalid else erase v)) es)
    out seen
  = entry_loop go es out seen.
Proof.
  intros Hes. revert out seen. induction Hes as [|[k v] es Hv Hes IH]; intros out seen; simpl; [done|].
  destruct (SensitiveKey (stringifyMapKey k)); [apply IH|].
  cbn [snd] in Hv. rewrite (Hv (stringifyMapKey k) seen). destruct (go _ _ _) as [[r seen']|]; [apply IH|done].
Qed.

Lemma item_loop_erase go go' key vs out seen :
  Forall (same_run go go') vs -> item_loop go' key (map erase vs) out seen = item_loop go key vs out seen.
Proof.
  intros Hvs. revert out seen. induction Hvs as [|v vs Hv Hvs IH]; intros out seen; simpl; [done|].
  rewrite (Hv key seen). destruct (go _ _ _) as [[r seen']|]; [apply IH|done].
Qed.

Lemma value_body_erase (h : heap) deref deref' v :
  (forall v', same_run deref deref' v') ->
  same_run (value_body h deref) (value_body (erase <$> h) deref') v.
Proof.
  intros Hd. induction v as [| |v IH|typ ptr|t|fs IH|es IH|vs IH|text] using gvalue_ind';
    intros key seen; simpl; try done.
  - by rewrite (IH key seen).
  - rewrite lookup_fmap. destruct (h !! (typ, ptr)) as [v'|]; simpl; [|done]. by rewrite Hd.
  - by rewrite (field_loop_erase _ _ _ _ _ IH).
  - by rewrite (entry_loop_erase _ _ _ _ _ IH).
  - by rewrite (item_loop_erase _ _ _ _ _ _ IH).
Qed.

Lemma value_erase (h : heap) n v : same_run (value h n) (value (erase <$> h) n) v.
Proof.
  revert v. induction n as [|n IH]; intros v; simpl; by apply value_body_erase.
Qed.

(** C14. Redaction is confidential: two values, over two heaps, that differ only
    in what lies under sensitive keys, fields tagged sensitive and unexported
    fields have the same redacted value. *)
Theorem Value_confidential (h h' : heap) v v' :
  erase v = erase v' -> erase <$> h = erase <$> h' -> Value h v = Value h' v'.
Proof.
  intros Hv Hh. unfold Value.
  rewrite <- (value_erase h (size h) v), <- (value_erase h' (size h') v'), Hv, Hh.
  replace (size h) with (size h'); [done|].
  by rewrite <- (map_size_fmap erase h), <- (map_size_fmap erase h'), Hh.
Qed.

(** The same for metadata: [erase_meta] drops the values of sensitive keys. *)
Definition erase_meta (meta : list (string * gvalue)) : list (string * gvalue) :=
  map (fun '(k, v) => (k, if SensitiveKey k then VInvalid else erase v)) meta.

Lemma metadata_loop_erase (h : heap) meta out seen :
  metadata_loop (erase <$> h) (erase_meta meta) out seen = metadata_loop h meta out seen.
Proof.
  revert out seen. induction meta as [|[k v] meta IH]; intros out seen; simpl; [done|].
  unfold redactor_any. destruct (SensitiveKey k); [apply IH|].
  rewrite map_size_fmap, (value_erase h (size h) v). destruct (value h _ _ _ _) as [[r seen']|]; [apply IH|done].
Qed.

Lemma Metadata_erase (h : heap) meta : Metadata (erase <$> h) (erase_meta meta) = Metadata h meta.
Proof. destruct meta as [|[k v] meta]; [done|]. apply (metadata_loop_erase h ((k, v) :: meta)). Qed.

Lemma Value_erase (h : heap) v : Value (erase <$> h) (erase v) = Value h v.
Proof. unfold Value. by rewrite map_size_fmap, (value_erase h (size h) v). Qed.
End secrecy.

(** ** The theorems at a cyclic value *)
#[local] Existing Instance ascii_tables.

Definition demo_field (n : string) : StructField :=
  {| Name := n; Exported := true; Tag_json := ""; Tag_scenery := "" |}.

Definition demo_heap (password : string) : heap :=
  {[ ("*Node", 16) := VStruct [(demo_field "Next", VPointer "*Node" 16);
                               (demo_field "Password", VScalar password)] ]}.

Lemma Value_total_witness : exists r, Value (demo_heap "a") (VPointer "*Node" 16) = Some r.
Proof. apply (Value_total (demo_heap "a")). intros t. by apply lookup_singleton_ne. Defined.

Lemma Value_confidential_witness :
  Value (demo_heap "hunter2") (VPointer "*Node" 16) = Value (demo_heap "letmein") (VPointer "*Node" 16).
Proof.
  apply (Value_confidential (demo_heap "hunter2") (demo_heap "letmein")); [reflexivity|].
  unfold demo_heap. rewrite !map_fmap_singleton. reflexivity.
Defined.
End Redact.
