(* ===== verification/Errs.v ===== *)
(** * Errors and their HTTP form ([errs/error.go])

    An [error] is a scenery error or a foreign one (its text and what it
    unwraps to).  Metadata maps are shared between an error and its clones, so
    they live in a store and an error holds a reference to its map.  Nil
    [*Error] pointers inside a non-nil [error] and foreign types with an [As]
    method of their own are not represented. *)
From stdpp Require Import base tactics list gmap strings.
From Stdlib Require Import ZArith Lia Ascii.
From S2P Require Import Prelude GoStrings WireCodec Redact.
Set Warnings "-register-all".

Module Errs.
Abbreviation ErrCode := string.

Definition OK : ErrCode := "ok".
Definition Canceled : ErrCode := "canceled".
Definition Unknown : ErrCode := "unknown".
Definition InvalidArgument : ErrCode := "invalid_argument".
Definition DeadlineExceeded : ErrCode := "deadline_exceeded".
Definition NotFound : ErrCode := "not_found".
Definition AlreadyExists : ErrCode := "already_exists".
Definition PermissionDenied : ErrCode := "permission_denied".
Definition ResourceExhausted : ErrCode := "resource_exhausted".
Definition FailedPrecondition : ErrCode := "failed_precondition".
Definition Aborted : ErrCode := "aborted".
Definition OutOfRange : ErrCode := "out_of_range".
Definition Unimplemented : ErrCode := "unimplemented".
Definition Internal : ErrCode := "internal".
Definition Unavailable : ErrCode := "unavailable".
Definition DataLoss : ErrCode := "data_loss".
Definition Unauthenticated : ErrCode := "unauthenticated".
Definition Conflict : ErrCode := "conflict".

(** [meta] is a reference to a metadata map, [None] the nil map; [details] is
    [VInvalid] for nil. *)
Inductive Error :=
| mkError (code : ErrCode) (message : string) (details : Redact.gvalue) (meta : option nat)
    (cause : option error)
with error :=
| EScenery (e : Error)
| EOther (msg : string) (unwrap : list error).

Definition e_code (e : Error) : ErrCode := let '(mkError c _ _ _ _) := e in c.
Definition e_message (e : Error) : string := let '(mkError _ m _ _ _) := e in m.
Definition e_details (e : Error) : Redact.gvalue := let '(mkError _ _ d _ _) := e in d.
Definition e_meta (e : Error) : option nat := let '(mkError _ _ _ m _) := e in m.
Definition e_cause (e : Error) : option error := let '(mkError _ _ _ _ c) := e in c.

Definition set_code (c : ErrCode) (e : Error) : Error :=
  mkError c (e_message e) (e_details e) (e_meta e) (e_cause e).
Definition set_message (m : string) (e : Error) : Error :=
  mkError (e_code e) m (e_details e) (e_meta e) (e_cause e).
Definition set_meta (m : option nat) (e : Error) : Error :=
  mkError (e_code e) (e_message e) (e_details e) m (e_cause e).

Abbreviation Metadata := (list (string * Redact.gvalue)).
Abbreviation store := (gmap nat Metadata).

(** ** Methods of [*Error] *)

(** [e.Error()] of a scenery error, and of any error. *)
Definition Error_text (e : Error) : string :=
  if negb (String.eqb (e_message e) "") then e_message e
  else if negb (String.eqb (e_code e) "") then e_code e
  else Unknown.

Definition error_text (err : error) : string :=
  match err with EScenery e => Error_text e | EOther msg _ => msg end.

Definition ErrorMessage (e : Error) : string :=
  match e_cause e with
  | None => Error_text e
  | Some cause =>
    if String.eqb (e_message e) "" then error_text cause
    else e_message e +:+ ": " +:+ error_text cause
  end.

Definition Unwrap (e : Error) : option error := e_cause e.

(** ** [errors.AsType]: the first scenery error of the tree in pre-order *)
Fixpoint As (err : error) : option Error :=
  match err with
  | EScenery e => Some e
  | EOther _ unwrap =>
    (fix first (l : list error) : option Error :=
       match l with
       | [] => None
       | x :: l' => match As x with Some e => Some e | None => first l' end
       end) unwrap
  end.

(** ** Metadata *)

(** An argument of a key-value list. *)
Inductive arg := ArgString (s : string) | ArgOther (v : Redact.gvalue).

Definition arg_value (a : arg) : Redact.gvalue :=
  match a with ArgString s => Redact.VScalar s | ArgOther v => v end.

(** The loop [for i := 0; i+1 < len(kv); i += 2]. *)
Fixpoint set_pairs (kv : list arg) (m : Metadata) : Metadata :=
  match kv with
  | k :: v :: kv' =>
    match k with
    | ArgString key => set_pairs kv' (Wire.map_set key (arg_value v) m)
    | ArgOther _ => set_pairs kv' m
    end
  | _ => m
  end.

Definition mergeMeta (st : store) (base : option nat) (kv : list arg) : option nat * store :=
  match kv with
  | [] => (base, st)
  | _ =>
    let '(l, st) := match base with
                    | Some l => (l, st)
                    | None => let l := fresh (dom st) in (l, <[l := []]> st)
                    end in
    (Some l, <[l := set_pairs kv (default [] (st !! l))]> st)
  end.

(** ** The builder: its [err] field is the state *)
Definition B : Error := mkError Unknown "" Redact.VInvalid None None.
Definition Builder_Code (c : ErrCode) (b : Error) : Error := set_code c b.
Definition Builder_Msg (m : string) (b : Error) : Error := set_message m b.
Definition Builder_Meta (st : store) (kv : list arg) (b : Error) : Error * store :=
  let '(m, st) := mergeMeta st (e_meta b) kv in (set_meta m b, st).
Definition Builder_Details (d : Redact.gvalue) (b : Error) : Error :=
  mkError (e_code b) (e_message b) d (e_meta b) (e_cause b).
Definition Builder_Cause (c : option error) (b : Error) : Error :=
  mkError (e_code b) (e_message b) (e_details b) (e_meta b) c.

Definition Builder_Err (b : Error) : error :=
  let err := if String.eqb (e_code b) "" || String.eqb (e_code b) OK then set_code Unknown b else b in
  let err := match String.eqb (e_message err) "", e_cause err with
             | true, Some c => set_message (error_text c) err
             | _, _ => err
             end in
  EScenery (if String.eqb (e_message err) "" then set_message "unknown error" err else err).

(** ** Wrapping and conversion; [None] is a nil error *)
Definition Wrap (st : store) (err : option error) (msg : string) (metaPairs : list arg)
  : option error * store :=
  match err with
  | None => (None, st)
  | Some err =>
    match As err with
    | Some pe =>
      let clone := if String.eqb msg "" then pe else set_message msg pe in
      match metaPairs with
      | [] => (Some (EScenery clone), st)
      | _ => let '(m, st) := mergeMeta st (e_meta clone) metaPairs in
             (Some (EScenery (set_meta m clone)), st)
      end
    | None =>
      let wrapped := mkError Internal (if String.eqb msg "" then error_text err else msg)
                       Redact.VInvalid None (Some err) in
      match metaPairs with
      | [] => (Some (EScenery wrapped), st)
      | _ => let '(m, st) := mergeMeta st None metaPairs in
             (Some (EScenery (set_meta m wrapped)), st)
      end
    end
  end.

Definition WrapCode (st : store) (err : option error) (code : ErrCode) (msg : string) (metaPairs : list arg)
  : option error * store :=
  match err with
  | None =>
    if String.eqb code OK then (None, st)
    else
      let '(b, st) := Builder_Meta st metaPairs (Builder_Msg msg (Builder_Code code B)) in
      (Some (Builder_Err b), st)
  | Some _ =>
    let '(wrapped, st) := Wrap st err msg metaPairs in
    match wrapped ≫= As with
    | Some pe => (Some (EScenery (if String.eqb code OK then pe else set_code code pe)), st)
    | None => (wrapped, st)
    end
  end.

Definition Convert (err : option error) : option error :=
  match err with
  | None => None
  | Some err =>
    match As err with
    | Some pe => Some (EScenery pe)
    | None => Some (EScenery (mkError Unknown (error_text err) Redact.VInvalid None (Some err)))
    end
  end.

Definition Code (err : option error) : ErrCode :=
  match err with
  | None => OK
  | Some err =>
    match As err with
    | Some pe => if String.eqb (e_code pe) "" then Unknown else e_code pe
    | None => Internal
    end
  end.

Definition Meta (st : store) (err : option error) : Metadata :=
  match err ≫= As with
  | Some pe => match e_meta pe with Some l => default [] (st !! l) | None => [] end
  | None => []
  end.

Definition Details (err : option error) : Redact.gvalue :=
  match err ≫= As with Some pe => e_details pe | None => Redact.VInvalid end.

(** ** HTTP *)
Definition HTTPStatus (err : option error) : Z :=
  let c := Code err in
  if String.eqb c OK then 200
  else if String.eqb c Canceled then 499
  else if bool_decide (c ∈ [InvalidArgument; FailedPrecondition; OutOfRange]) then 400
  else if String.eqb c DeadlineExceeded then 504
  else if String.eqb c Unauthenticated then 401
  else if String.eqb c PermissionDenied then 403
  else if String.eqb c NotFound then 404
  else if bool_decide (c ∈ [AlreadyExists; Aborted; Conflict]) then 409
  else if String.eqb c ResourceExhausted then 429
  else if String.eqb c Unimplemented then 501
  else if String.eqb c Unavailable then 503
  else 500.

(** The response [HTTPErrorWithCode] writes: the status and the payload it
    encodes as JSON.  [None] is a redaction that does not return. *)
Record payload := {
  p_code : ErrCode;
  p_message : string;
  p_details : option Redact.rvalue;
  p_meta : option (list (string * Redact.rvalue))
}.

Section http.
Context {UT : UnicodeTables}.

Definition HTTPErrorWithCode (h : Redact.heap) (st : store) (err : option error) (status : Z)
  : Z * payload :=
  let status := if status =? 0 then HTTPStatus err else status in
  let err := match err with
             | None => EScenery (mkError OK "" Redact.VInvalid None None)
             | Some err => err
             end in
  (status,
   {| p_code := Code (Some err);
      p_message := error_text err;
      p_details := Redact.Value h (Details (Some err));
      p_meta := Redact.Metadata h (Meta st (Some err)) |}).

Definition HTTPError (h : Redact.heap) (st : store) (err : option error) : Z * payload :=
  HTTPErrorWithCode h st err 0.
End http.

(** ** Codes and statuses *)
Lemma Code_scenery e : Code (Some (EScenery e)) = if String.eqb (e_code e) "" then Unknown else e_code e.
Proof. done. Qed.

Lemma Wrap_code st err msg kv : Code (Wrap st err msg kv).1 = Code err.
Proof.
  destruct err as [err|]; [|done]. unfold Wrap, Code. destruct (As err) as [pe|] eqn:E.
  - destruct kv as [|k kv]; [|destruct (mergeMeta st _ (k :: kv)) as [m st'] eqn:Em];
      simpl; by destruct (String.eqb msg "").
  - destruct kv as [|k kv]; [done|]. by destruct (mergeMeta st None (k :: kv)) as [m st'].
Qed.

(** Wrapping an error and converting it never change the HTTP status it is
    answered with, whatever the message and metadata added, for nil, scenery and
    foreign errors alike. *)
Theorem Wrap_Convert_status st err msg kv :
  HTTPStatus (Wrap st err msg kv).1 = HTTPStatus err /\ HTTPStatus (Convert err) = HTTPStatus err.
Proof.
  split; [unfold HTTPStatus; by rewrite Wrap_code|]. destruct err as [err|]; [|done].
  unfold HTTPStatus, Convert, Code. by destruct (As err) as [pe|].
Qed.

Lemma Builder_Err_code b :
  Code (Some (Builder_Err b))
  = if String.eqb (e_code b) "" || String.eqb (e_code b) OK then Unknown else e_code b.
Proof.
  unfold Builder_Err.
  set (e1 := if String.eqb (e_code b) "" || String.eqb (e_code b) OK then set_code Unknown b else b).
  set (e2 := match String.eqb (e_message e1) "", e_cause e1 with
             | true, Some c => set_message (error_text c) e1 | _, _ => e1 end).
  assert (e_code e2 = e_code e1) as E2 by (subst e2; by destruct (String.eqb (e_message e1) ""), (e_cause e1)).
  rewrite Code_scenery.
  assert (e_code (if String.eqb (e_message e2) "" then set_message "unknown error" e2 else e2) = e_code e1)
    as -> by (by destruct (String.eqb (e_message e2) "")).
  subst e1. destruct (String.eqb (e_code b) "") eqn:Ec; simpl; [done|].
  destruct (String.eqb (e_code b) OK); [done|]. by rewrite Ec.
Qed.

(** [WrapCode] answers with the requested code: the result carries [code],
    read as unknown when it is empty, and keeps the code of the wrapped error
    when [code] is OK. *)
Theorem WrapCode_code st err code msg kv :
  Code (WrapCode st err code msg kv).1
  = if String.eqb code OK then Code err else if String.eqb code "" then Unknown else code.
Proof.
  unfold WrapCode. destruct err as [err|].
  - pose proof (Wrap_code st (Some err) msg kv) as Hc.
    destruct (Wrap st (Some err) msg kv) as [[wrapped|] st'] eqn:E; cbn [fst] in Hc.
    + assert (exists e, wrapped = EScenery e) as [e ->].
      { unfold Wrap in E. destruct (As err); destruct kv as [|k kv];
          repeat (destruct (mergeMeta _ _ _)); simplify_eq; by eexists. }
      simpl. destruct (String.eqb code OK); [done|]. apply Code_scenery.
    + unfold Wrap in E. destruct (As err); destruct kv as [|k kv];
        repeat (destruct (mergeMeta _ _ _)); simplify_eq.
  - destruct (String.eqb_spec code OK) as [->|Hne]; [done|].
    unfold Builder_Meta. destruct (mergeMeta _ _ kv) as [m st']. cbn [fst].
    rewrite Builder_Err_code. simpl. by rewrite (proj2 (String.eqb_neq _ _) Hne), orb_false_r.
Qed.

(** Every error the builder returns has a message and a code other than OK
    and the empty code, so it is never answered with status 200. *)
Theorem Builder_Err_wf b :
  error_text (Builder_Err b) <> ""
  /\ (Code (Some (Builder_Err b)) <> OK)
  /\ Code (Some (Builder_Err b)) = (if String.eqb (e_code b) "" || String.eqb (e_code b) OK
                                    then Unknown else e_code b).
Proof.
  rewrite Builder_Err_code. split; [|split; [|done]].
  - unfold Builder_Err.
    match goal with |- context [if String.eqb (e_message ?x) "" then set_message _ ?x else _] => set (e := x) end.
    destruct (String.eqb_spec (e_message e) "") as [E|E]; [done|].
    unfold error_text, Error_text. by rewrite (proj2 (String.eqb_neq _ _) E).
  - destruct (String.eqb_spec (e_code b) ""); [done|]. by destruct (String.eqb_spec (e_code b) OK).
Qed.

(** ** Metadata and sharing *)
Lemma set_pairs_nil m : set_pairs [] m = m.
Proof. done. Qed.

Lemma mergeMeta_spec st base kv m st' :
  mergeMeta st base kv = (m, st') ->
  match m with Some l => default [] (st' !! l) | None => [] end
  = set_pairs kv (match base with Some l => default [] (st !! l) | None => [] end)
  /\ (forall l, l ∈ dom st -> m <> Some l -> st' !! l = st !! l)
  /\ (forall l, base = Some l -> m = Some l).
Proof.
  unfold mergeMeta. destruct kv as [|k kv]; [by intros [= <- <-]|].
  destruct base as [l|]; intros [= <- <-]; rewrite lookup_insert_eq; cbn [default from_option].
  - split; [done|]. split; [|by intros ? [= ->]]. intros l' _ Hne. rewrite lookup_insert_ne; congruence.
  - rewrite lookup_insert_eq. split; [done|]. split; [|done].
    intros l Hl Hne. rewrite !lookup_insert_ne by congruence. done.
Qed.

(** [Wrap] adds its pairs to the metadata: the metadata of the result is that
    of the error with the pairs set in order. *)
Theorem Wrap_meta st err msg kv :
  Meta (Wrap st (Some err) msg kv).2 (Wrap st (Some err) msg kv).1 = set_pairs kv (Meta st (Some err)).
Proof.
  unfold Wrap, Meta. simpl. destruct (As err) as [pe|] eqn:E.
  - assert (e_meta (if String.eqb msg "" then pe else set_message msg pe) = e_meta pe) as Hm
      by (by destruct (String.eqb msg "")).
    destruct kv as [|k kv]; [simpl; by rewrite Hm|]. rewrite Hm.
    destruct (mergeMeta st (e_meta pe) (k :: kv)) as [m st'] eqn:Em.
    apply mergeMeta_spec in Em as [Em _]. simpl in *. exact Em.
  - destruct kv as [|k kv]; [done|].
    destruct (mergeMeta st None (k :: kv)) as [m st'] eqn:Em.
    apply mergeMeta_spec in Em as [Em _]. simpl in *. exact Em.
Qed.

(** The metadata map of a scenery error that has one is shared with the
    result of [Wrap]: after wrapping, the original error reports the added pairs
    too. *)
Theorem Wrap_mutates_original st err msg kv pe l :
  As err = Some pe -> e_meta pe = Some l ->
  Meta (Wrap st (Some err) msg kv).2 (Some err) = set_pairs kv (Meta st (Some err)).
Proof.
  intros E Hl. unfold Wrap, Meta. simpl. rewrite E, Hl.
  assert (e_meta (if String.eqb msg "" then pe else set_message msg pe) = Some l) as Hm
    by (by destruct (String.eqb msg "")).
  destruct kv as [|k kv]; [done|]. rewrite Hm.
  destruct (mergeMeta st (Some l) (k :: kv)) as [m st'] eqn:Em.
  apply mergeMeta_spec in Em as (Em & _ & Eb). rewrite (Eb l) in Em by done. simpl. exact Em.
Qed.

(** An error response is confidential: it does not depend on the values under
    sensitive keys of the metadata, nor on the sensitive parts of what metadata
    and details point to. *)
Theorem HTTPErrorWithCode_confidential `{UnicodeTables} (h h' : Redact.heap) (st st' : store) err status :
  Redact.erase <$> h = Redact.erase <$> h' ->
  Redact.erase_meta <$> st = Redact.erase_meta <$> st' ->
  HTTPErrorWithCode h st err status = HTTPErrorWithCode h' st' err status.
Proof.
  intros Hh Hst. unfold HTTPErrorWithCode.
  assert (forall err, Redact.erase_meta (Meta st err) = Redact.erase_meta (Meta st' err)) as Hm.
  { intros e. unfold Meta. destruct (e ≫= As) as [pe|]; [|done]. destruct (e_meta pe) as [l|]; [|done].
    pose proof (f_equal (fun s => s !! l) Hst) as Hl. cbn beta in Hl. rewrite !lookup_fmap in Hl.
    by destruct (st !! l), (st' !! l); simplify_eq/=. }
  set (e := match err with None => _ | Some _ => _ end).
  rewrite <- (Redact.Value_erase h), <- (Redact.Value_erase h'), Hh.
  by rewrite <- (Redact.Metadata_erase h), <- (Redact.Metadata_erase h'), Hh, Hm.
Qed.

(** ** The theorems at concrete errors *)
#[local] Existing Instance ascii_tables.

Definition demo_error : Error := mkError NotFound "no such user" Redact.VInvalid (Some 0%nat) None.
Definition demo_store (secret : string) : store :=
  {[ 0%nat := [("password", Redact.VScalar secret); ("user", Redact.VScalar "42")] ]}.

Lemma Wrap_mutates_original_witness :
  Meta (Wrap {[0%nat := []]} (Some (EOther "ctx" [EScenery demo_error])) "loading"
          [ArgString "op"; ArgString "load"]).2 (Some (EOther "ctx" [EScenery demo_error]))
  = [("op", Redact.VScalar "load")].
Proof.
  rewrite (Wrap_mutates_original {[0%nat := []]} (EOther "ctx" [EScenery demo_error]) "loading"
             [ArgString "op"; ArgString "load"] demo_error 0%nat); reflexivity.
Defined.

Lemma HTTPErrorWithCode_confidential_witness :
  HTTPErrorWithCode ∅ (demo_store "hunter2") (Some (EScenery demo_error)) 0
  = HTTPErrorWithCode ∅ (demo_store "letmein") (Some (EScenery demo_error)) 0.
Proof.
  apply (HTTPErrorWithCode_confidential ∅ ∅ (demo_store "hunter2") (demo_store "letmein")).
  - reflexivity.
  - unfold demo_store. rewrite !map_fmap_singleton. reflexivity.
Defined.
End Errs.
