(* ===== verification/Middleware.v ===== *)
(** * The middleware chain ([runtime/middleware.go], [middleware/middleware.go])

    A middleware is user code that may call [next] any number of times, look at
    the responses, return a response or panic: a [mwprog].  The chain state is
    the shared [counter] of [runMiddlewareChain] and the events it records.
    The verb [%q] of an error text is the text between quotes, without the
    escapes that only unprintable characters need. *)
From stdpp Require Import base tactics list gmap strings.
From Stdlib Require Import ZArith Lia Ascii.
From S2P Require Import Prelude GoStrings WireCodec Redact Errs.

Module Middleware.
(** ** Headers: a Go map from names to values, in key order *)
Abbreviation Header := (list (string * list string)).

Definition copyHeaders (dst src : Header) : Header :=
  fold_left (fun dst '(key, values) => Wire.map_set key values dst) src dst.

Definition header_del (key : string) (h : Header) : Header :=
  List.filter (fun e => negb (String.eqb e.1 key)) h.

Definition applyHeaders (dst src : Header) : Header :=
  copyHeaders (fold_left (fun dst '(key, _) => header_del key dst) src dst) src.

Definition cloneHeaders (headers : option Header) : option Header :=
  match headers with
  | None => None
  | Some h => Some (copyHeaders [] h)
  end.

(** ** Response writers of raw endpoints *)

(** What a raw handler does with its [http.ResponseWriter]. *)
Inductive rawop :=
| OpSetHeader (key : string) (values : list string)
| OpWriteHeader (status : Z)
| OpWrite (data : list ascii)
| OpFlush.

Record rawResponseCapture := {
  cap_header : Header;
  cap_body : list ascii;
  cap_status : Z
}.

Definition newRawResponseCapture : rawResponseCapture :=
  {| cap_header := []; cap_body := []; cap_status := 0 |}.

Definition capture_op (r : rawResponseCapture) (op : rawop) : rawResponseCapture :=
  match op with
  | OpSetHeader k vs =>
    {| cap_header := Wire.map_set k vs (cap_header r); cap_body := cap_body r; cap_status := cap_status r |}
  | OpWriteHeader status =>
    {| cap_header := cap_header r; cap_body := cap_body r;
       cap_status := if cap_status r =? 0 then status else cap_status r |}
  | OpWrite data =>
    {| cap_header := cap_header r; cap_body := cap_body r ++ data;
       cap_status := if cap_status r =? 0 then 200 else cap_status r |}
  | OpFlush => r
  end.

Definition capture_StatusCode (r : rawResponseCapture) : Z :=
  if cap_status r =? 0 then 200 else cap_status r.

(** [rawStreamingResponseWriter] over a connection: [sent] is the status and the
    headers that went out, [conn_body] the body bytes. *)
Record rawStreamingResponseWriter := {
  str_header : Header;
  str_status : Z;
  wroteHeader : bool;
  sent : option (Z * Header);
  conn_body : list ascii
}.

Definition newRawStreamingResponseWriter : rawStreamingResponseWriter :=
  {| str_header := []; str_status := 0; wroteHeader := false; sent := None; conn_body := [] |}.

Definition streaming_WriteHeader (status : Z) (r : rawStreamingResponseWriter) : rawStreamingResponseWriter :=
  if wroteHeader r then r
  else {| str_header := str_header r; str_status := status; wroteHeader := true;
          sent := Some (status, str_header r); conn_body := conn_body r |}.

Definition streaming_op (r : rawStreamingResponseWriter) (op : rawop) : rawStreamingResponseWriter :=
  match op with
  | OpSetHeader k vs =>
    {| str_header := Wire.map_set k vs (str_header r); str_status := str_status r;
       wroteHeader := wroteHeader r; sent := sent r; conn_body := conn_body r |}
  | OpWriteHeader status => streaming_WriteHeader status r
  | OpWrite data =>
    let r := if wroteHeader r then r else streaming_WriteHeader 200 r in
    {| str_header := str_header r; str_status := str_status r; wroteHeader := wroteHeader r;
       sent := sent r; conn_body := conn_body r ++ data |}
  | OpFlush => if wroteHeader r then r else streaming_WriteHeader 200 r
  end.

Definition streaming_StatusCode (r : rawStreamingResponseWriter) : Z :=
  if str_status r =? 0 then 200 else str_status r.

Definition internal (msg : string) : Errs.error :=
  Errs.Builder_Err (Errs.Builder_Msg msg (Errs.Builder_Code Errs.Internal Errs.B)).

Definition quoted (s : string) : string := String (chr 34) (s +:+ String (chr 34) EmptyString).

(** ** The chain *)
Section chain.
Context {Ctx P : Type}.

Inductive payload := PValue (v : P) | PRaw (body : list ascii) | PRawPtr (body : option (list ascii)).

Record Response := {
  Payload : option payload;
  Err : option Errs.error;
  HTTPStatus : Z;
  headers : option Header
}.

(** [Request] carries the context; [None] is a nil context. *)
Record Request := { context : option Ctx }.

Definition WithContext (r : Request) (ctx : option Ctx) : Request := {| context := ctx |}.

Inductive mwprog :=
| MReturn (r : Response)
| MNext (req : Request) (k : Response -> mwprog)
| MPanic (recovered : string).

Record Middleware := { ID : string; Invoke : Request -> mwprog }.

(** The endpoint itself: a response, or a panic. *)
Inductive leaf_result := LReturn (r : Response) | LPanic (recovered : string).

(** Trace events, and the run of the leaf. *)
Inductive event := EvStart (id : string) | EvPanic (id : string) | EvEnd (id : string) | EvLeaf.

Record chain_state := { counter : nat; events : list event }.

Definition record (e : event) (st : chain_state) : chain_state :=
  {| counter := counter st; events := events st ++ [e] |}.

Definition error_response (err : Errs.error) (status : Z) : Response :=
  {| Payload := None; Err := Some err; HTTPStatus := status; headers := None |}.

(** The first deferred function of [next]. *)
Definition fill_status (resp : Response) : Response :=
  match Err resp with
  | Some err =>
    if HTTPStatus resp =? 0
    then {| Payload := Payload resp; Err := Err resp; HTTPStatus := Errs.HTTPStatus (Some err);
            headers := headers resp |}
    else resp
  | None => resp
  end.

(** Running a middleware's code, with [next] for its calls.  A panic leaves the
    program with the recovered value. *)
Fixpoint run_prog (next : Request -> chain_state -> option (Response * chain_state))
    (p : mwprog) (st : chain_state) : option ((Response + string) * chain_state) :=
  match p with
  | MReturn r => Some (inl r, st)
  | MPanic recovered => Some (inr recovered, st)
  | MNext req k =>
    match next req st with
    | Some (resp, st) => run_prog next (k resp) st
    | None => None
    end
  end.

(** The second deferred function of the middleware case. *)
Definition finish_middleware (id : string) (res : (Response + string) * chain_state)
  : Response * chain_state :=
  match res with
  | (inl resp, st) => (resp, record (EvEnd id) st)
  | (inr recovered, st) =>
    (error_response (internal ("panic executing middleware " +:+ id +:+ ": " +:+ recovered)) 500,
     record (EvEnd id) (record (EvPanic id) st))
  end.

Definition run_leaf (leaf : Request -> leaf_result) (req : Request) (st : chain_state)
  : Response * chain_state :=
  match leaf req with
  | LReturn r => (r, record EvLeaf st)
  | LPanic recovered => (error_response (internal ("panic handling request: " +:+ recovered)) 500, record EvLeaf st)
  end.

Definition too_many : Response := error_response (internal "middleware called next() too many times") 500.

(** [next], nesting at most [fuel] calls. *)
Fixpoint next (middlewares : list Middleware) (leaf : Request -> leaf_result) (fuel : nat)
    (req : Request) (st : chain_state) : option (Response * chain_state) :=
  match fuel with
  | O => None
  | S n =>
    let idx := counter st in
    let st := {| counter := S (counter st); events := events st |} in
    match middlewares !! idx with
    | Some mw =>
      match run_prog (next middlewares leaf n) (Invoke mw req) (record (EvStart (ID mw)) st) with
      | Some res => let '(resp, st) := finish_middleware (ID mw) res in Some (fill_status resp, st)
      | None => None
      end
    | None =>
      if Nat.eqb idx (length middlewares)
      then let '(resp, st) := run_leaf leaf req st in Some (fill_status resp, st)
      else Some (fill_status too_many, st)
    end
  end.

(** [getMiddlewares] over the registered middlewares. *)
Fixpoint getMiddlewares (registry : gmap string Middleware) (ids : list string)
  : Errs.error + list Middleware :=
  match ids with
  | [] => inr []
  | id :: ids' =>
    match registry !! id with
    | None => inl (internal ("middleware " +:+ quoted id +:+ " not registered"))
    | Some mw =>
      match getMiddlewares registry ids' with
      | inl err => inl err
      | inr mws => inr (mw :: mws)
      end
    end
  end.

(** The fuel of a chain: a call of [next] per middleware, one for the leaf. *)
Definition chain_fuel (middlewares : list Middleware) : nat := S (length middlewares).

(** [runMiddlewareChain]; without middleware the leaf is called directly, and its
    panic is not recovered ([inr]).  The outer [None] is not returning. *)
Definition runMiddlewareChain (registry : gmap string Middleware) (ids : list string) (ctx : option Ctx)
    (leaf : Request -> leaf_result) : option ((Response + string) * list event) :=
  match getMiddlewares registry ids with
  | inl err => Some (inl (error_response err (Errs.HTTPStatus (Some err))), [])
  | inr middlewares =>
    let req := {| context := ctx |} in
    match middlewares with
    | [] =>
      match leaf req with
      | LReturn r => Some (inl r, [EvLeaf])
      | LPanic recovered => Some (inr recovered, [EvLeaf])
      end
    | _ =>
      match next middlewares leaf (chain_fuel middlewares) req {| counter := 0; events := [] |} with
      | Some (resp, st) => Some (inl resp, events st)
      | None => None
      end
    end
  end.

(** ** Invariants of the chain *)
Section invariants.
Context (middlewares : list Middleware) (leaf : Request -> leaf_result).

(** The stages of the chain in order. *)
Definition stages : list event := map (fun mw => EvStart (ID mw)) middlewares ++ [EvLeaf].

Definition is_stage (e : event) : bool :=
  match e with EvStart _ | EvLeaf => true | _ => false end.

Fixpoint brackets (stack : list string) (evs : list event) : bool :=
  match evs with
  | [] => bool_decide (stack = [])
  | EvStart id :: evs' => brackets (id :: stack) evs'
  | EvPanic id :: evs' => bool_decide (head stack = Some id) && brackets stack evs'
  | EvEnd id :: evs' =>
    match stack with
    | top :: stack' => String.eqb top id && brackets stack' evs'
    | [] => false
    end
  | EvLeaf :: evs' => brackets stack evs'
  end.

Definition balanced (tr : list event) : Prop :=
  forall stack rest, brackets stack (tr ++ rest) = brackets stack rest.

(** A piece of a run: it enters the next stages in order, and its events are
    balanced. *)
Definition advances (st st' : chain_state) : Prop :=
  (counter st <= counter st')%nat
  /\ exists tr, events st' = events st ++ tr /\ balanced tr
       /\ List.filter is_stage tr = take (counter st' - counter st) (drop (counter st) stages).

Lemma advances_refl st : advances st st.
Proof.
  split; [done|]. exists []. rewrite (right_id_L [] (++)). split; [done|]. split; [done|].
  by rewrite Nat.sub_diag.
Qed.

Lemma advances_trans st1 st2 st3 : advances st1 st2 -> advances st2 st3 -> advances st1 st3.
Proof.
  intros [Hc1 (tr1 & E1 & B1 & S1)] [Hc2 (tr2 & E2 & B2 & S2)]. split; [lia|].
  exists (tr1 ++ tr2). split; [by rewrite E2, E1, (assoc_L (++))|]. split.
  - intros stack rest. rewrite <- (assoc_L (++)), B1. apply B2.
  - rewrite List.filter_app, S1, S2.
    replace (counter st3 - counter st1)%nat
      with ((counter st2 - counter st1) + (counter st3 - counter st2))%nat by lia.
    rewrite <- take_take_drop. f_equal. rewrite drop_drop. do 2 f_equal. lia.
Qed.

Definition answered (resp : Response) : Prop := Err resp <> None -> HTTPStatus resp <> 0.

Lemma errs_status_not_zero err : Errs.HTTPStatus err <> 0.
Proof. unfold Errs.HTTPStatus. repeat case_match; done. Qed.

Lemma fill_status_answered resp : answered (fill_status resp).
Proof.
  unfold answered, fill_status. destruct (Err resp) as [err|] eqn:E; [|by rewrite E].
  destruct (Z.eqb_spec (HTTPStatus resp) 0); simpl; [intros _; apply errs_status_not_zero|done].
Qed.

Definition next_ok (n : nat) : Prop :=
  forall req st, (0 < n)%nat -> (length middlewares < counter st + n)%nat ->
  exists resp st', next middlewares leaf n req st = Some (resp, st')
    /\ answered resp /\ advances st st' /\ (counter st < counter st')%nat.

Lemma run_prog_ok n p st :
  next_ok n -> (0 < n)%nat -> (length middlewares < counter st + n)%nat ->
  exists res st', run_prog (next middlewares leaf n) p st = Some (res, st') /\ advances st st'.
Proof.
  intros Hn Hpos. revert st. induction p as [r|req k IH|recovered]; intros st Hst; simpl.
  - eexists _, _. split; [done|]. apply advances_refl.
  - destruct (Hn req st Hpos Hst) as (resp & st' & -> & _ & Hadv & Hlt).
    destruct (IH resp st') as (res & st'' & -> & Hadv'); [lia|].
    eexists _, _. split; [done|]. by eapply advances_trans.
  - eexists _, _. split; [done|]. apply advances_refl.
Qed.

(** Entering middleware [idx] and leaving it around a balanced run. *)
Lemma advances_middleware st mw st' res :
  middlewares !! counter st = Some mw ->
  advances (record (EvStart (ID mw)) {| counter := S (counter st); events := events st |}) st' ->
  advances st (finish_middleware (ID mw) (res, st')).2.
Proof.
  intros Hmw [Hc (tr & E & B & S')]. simpl in *.
  assert (drop (counter st) stages = EvStart (ID mw) :: drop (S (counter st)) stages) as Hdrop.
  { apply drop_S. unfold stages. rewrite lookup_app_l by (rewrite length_map; by eapply lookup_lt_Some).
    by rewrite list_lookup_fmap, Hmw. }
  assert (forall suf, List.filter is_stage suf = [] ->
     events (finish_middleware (ID mw) (res, st')).2 = events st' ++ suf ->
     balanced ((EvStart (ID mw) :: tr) ++ suf) -> 
     advances st (finish_middleware (ID mw) (res, st')).2) as Hgen.
  { intros suf Hsuf Hev Hbal. split; [destruct res; simpl; lia|].
    exists ((EvStart (ID mw) :: tr) ++ suf). split; [|split; [done|]].
    - rewrite Hev, E, <- !(assoc_L (++)). done.
    - rewrite List.filter_app, Hsuf, (right_id_L [] (++)). cbn [List.filter is_stage]. rewrite S', Hdrop.
      replace (counter (finish_middleware (ID mw) (res, st')).2) with (counter st') by (by destruct res).
      replace (counter st' - counter st)%nat with (S (counter st' - S (counter st))) by lia. done. }
  destruct res as [resp|recovered]; simpl in *.
  - apply (Hgen [EvEnd (ID mw)]); [done..|]. intros stack rest.
    simpl. rewrite <- (assoc_L (++)), B. simpl. by rewrite String.eqb_refl.
  - apply (Hgen [EvPanic (ID mw); EvEnd (ID mw)]); [done|by rewrite <- (assoc_L (++))|].
    intros stack rest. simpl. rewrite <- (assoc_L (++)), B. simpl.
    by rewrite String.eqb_refl, bool_decide_true.
Qed.

Lemma advances_leaf st req :
  counter st = length middlewares ->
  advances st (run_leaf leaf req {| counter := S (counter st); events := events st |}).2.
Proof.
  intros Hc. unfold run_leaf. 
  assert (advances st (record EvLeaf {| counter := S (counter st); events := events st |})) as Hadv.
  { split; [simpl; lia|]. exists [EvLeaf]. split; [done|]. split; [by intros stack rest|]. simpl.
    replace (S (counter st) - counter st)%nat with 1%nat by lia. unfold stages.
    rewrite drop_app_ge by (rewrite length_map; lia). by rewrite length_map, Hc, Nat.sub_diag. }
  by destruct (leaf req).
Qed.

Lemma advances_skip st :
  (length middlewares < counter st)%nat -> advances st {| counter := S (counter st); events := events st |}.
Proof.
  intros Hc. split; [simpl; lia|]. exists []. simpl. rewrite (right_id_L [] (++)).
  split; [done|]. split; [done|]. rewrite drop_ge; [by rewrite take_nil|].
  unfold stages. rewrite length_app, length_map. simpl. lia.
Qed.

Lemma next_returns n : next_ok n.
Proof.
  induction n as [|n IH]; intros req st Hpos Hst; [lia|]. simpl.
  destruct (middlewares !! counter st) as [mw|] eqn:Hmw.
  - pose proof (lookup_lt_Some _ _ _ Hmw) as Hlt.
    destruct (run_prog_ok n (Invoke mw req)
      (record (EvStart (ID mw)) {| counter := S (counter st); events := events st |}) IH)
      as (res & st' & -> & Hadv); [lia|simpl; lia|].
    pose proof (advances_middleware st mw st' res Hmw Hadv) as Hadv'.
    destruct (finish_middleware (ID mw) (res, st')) as [resp st''] eqn:Ef.
    eexists _, _. split; [done|]. split; [apply fill_status_answered|]. split; [done|].
    destruct Hadv as [Hc _]. simpl in Hc.
    replace (counter st'') with (counter st') by (destruct res; simplify_eq/=; done). lia.
  - apply lookup_ge_None in Hmw. destruct (Nat.eqb_spec (counter st) (length middlewares)) as [E|E].
    + pose proof (advances_leaf st req E) as Hadv.
      destruct (run_leaf leaf req _) as [resp st'] eqn:Er. eexists _, _. split; [done|].
      split; [apply fill_status_answered|]. split; [done|].
      unfold run_leaf in Er. destruct (leaf req); simplify_eq/=; lia.
    + eexists _, _. split; [done|]. split; [apply fill_status_answered|].
      split; [apply advances_skip; lia|simpl; lia].
Qed.
End invariants.

(** C10. The chain always answers and is entered in order: for every registered
    list of middlewares, whatever they do (call [next] never or many times,
    short-circuit, panic), [runMiddlewareChain] returns a response rather than a
    panic; middlewares are entered in order and at most once, the endpoint at most
    once and only after every middleware has been entered; the recorded events
    are well bracketed; and a response with an error has a status. *)
Theorem runMiddlewareChain_ok registry ids ctx leaf mw middlewares :
  getMiddlewares registry ids = inr (mw :: middlewares) ->
  exists resp evs k,
    runMiddlewareChain registry ids ctx leaf = Some (inl resp, evs)
    /\ List.filter is_stage evs = take k (stages (mw :: middlewares))
    /\ brackets [] evs = true
    /\ answered resp.
Proof.
  intros Hg. unfold runMiddlewareChain. rewrite Hg.
  destruct (next_returns (mw :: middlewares) leaf (chain_fuel (mw :: middlewares)) {| context := ctx |}
              {| counter := 0; events := [] |}) as (resp & st' & E & Ha & [_ (tr & Et & Hb & Hs)] & _).
  - unfold chain_fuel. lia.
  - unfold chain_fuel. simpl. lia.
  - rewrite E. simpl in Et, Hs. exists resp, (events st'), (counter st'). split; [done|].
    rewrite Et. split; [by rewrite Hs, Nat.sub_0_r|]. split; [|done].
    specialize (Hb [] []). rewrite (right_id_L [] (++)) in Hb. by rewrite Hb.
Qed.

(** ** The chain as function composition

    What a reader expects of a chain: each middleware receives the rest of the
    chain as its [next], without any shared counter. *)
Section reference.
Context (leaf : Request -> leaf_result).

Fixpoint run_ref (rest : Request -> Response * list event) (p : mwprog)
  : (Response + string) * list event :=
  match p with
  | MReturn r => (inl r, [])
  | MPanic recovered => (inr recovered, [])
  | MNext req k =>
    let '(resp, evs) := rest req in
    let '(res, evs') := run_ref rest (k resp) in
    (res, evs ++ evs')
  end.

Fixpoint compose (middlewares : list Middleware) (req : Request) : Response * list event :=
  match middlewares with
  | [] =>
    match leaf req with
    | LReturn r => (fill_status r, [EvLeaf])
    | LPanic recovered =>
      (error_response (internal ("panic handling request: " +:+ recovered)) 500, [EvLeaf])
    end
  | mw :: rest =>
    let '(res, evs) := run_ref (compose rest) (Invoke mw req) in
    match res with
    | inl resp => (fill_status resp, [EvStart (ID mw)] ++ evs ++ [EvEnd (ID mw)])
    | inr recovered =>
      (error_response (internal ("panic executing middleware " +:+ ID mw +:+ ": " +:+ recovered)) 500,
       [EvStart (ID mw)] ++ evs ++ [EvPanic (ID mw); EvEnd (ID mw)])
    end
  end.

(** A program that calls [next] at most [n] times on every path. *)
Fixpoint calls_at_most (n : nat) (p : mwprog) : Prop :=
  match p with
  | MReturn _ | MPanic _ => True
  | MNext _ k =>
    match n with
    | O => False
    | S n' => forall r, calls_at_most n' (k r)
    end
  end.

Lemma run_prog_done nxt rest p st :
  calls_at_most 0 p -> run_prog nxt p st = Some ((run_ref rest p).1, st) /\ (run_ref rest p).2 = [].
Proof. by destruct p. Qed.

Lemma fill_status_idem r : fill_status (error_response r 500) = error_response r 500.
Proof. done. Qed.

Lemma next_compose pre suf n req st :
  Forall (fun mw => forall req, calls_at_most 1 (Invoke mw req)) suf ->
  counter st = length pre -> (length suf < n)%nat ->
  exists c, next (pre ++ suf) leaf n req st
    = Some ((compose suf req).1, {| counter := c; events := events st ++ (compose suf req).2 |}).
Proof.
  intros Hsuf. revert pre n req st. induction Hsuf as [|mw suf Hmw Hsuf IH]; intros pre n req st Hc Hn.
  - destruct n as [|n]; [lia|]. simpl. rewrite (right_id_L [] (++)), Hc.
    rewrite lookup_ge_None_2 by done. rewrite Nat.eqb_refl. unfold run_leaf.
    destruct (leaf req); simpl; by eexists.
  - destruct n as [|n]; [lia|]. cbn [next compose].
    replace ((pre ++ mw :: suf) !! counter st) with (Some mw)
      by (by rewrite Hc, list_lookup_middle).
    set (st1 := record (EvStart (ID mw)) {| counter := S (counter st); events := events st |}).
    assert (exists c, run_prog (next (pre ++ mw :: suf) leaf n) (Invoke mw req) st1
      = Some ((run_ref (compose suf) (Invoke mw req)).1,
              {| counter := c; events := events st1 ++ (run_ref (compose suf) (Invoke mw req)).2 |})) as [c Hrun].
    { specialize (Hmw req). destruct (Invoke mw req) as [r|req' k|recovered]; simpl.
      - exists (counter st1). by rewrite !(right_id_L [] (++)).
      - specialize (IH (pre ++ [mw]) n req' st1). rewrite <- (assoc_L (++)) in IH. simpl in IH.
        destruct IH as [c E]; [rewrite length_app; simpl; lia|simpl in Hn; lia|]. rewrite E.
        destruct (compose suf req') as [resp evs]. simpl.
        destruct (run_prog_done (next (pre ++ mw :: suf) leaf n) (compose suf) (k resp)
          {| counter := c; events := (events st ++ [EvStart (ID mw)]) ++ evs |} (Hmw resp)) as [-> Hnil].
        destruct (run_ref (compose suf) (k resp)) as [res evs']. simpl in *. subst evs'.
        exists c. by rewrite (right_id_L [] (++)).
      - exists (counter st1). by rewrite !(right_id_L [] (++)). }
    rewrite Hrun. destruct (run_ref (compose suf) (Invoke mw req)) as [[resp|recovered] evs]; simpl.
    + exists c. unfold record. simpl. by rewrite <- !(assoc_L (++)).
    + exists c. unfold record. simpl. by rewrite <- !(assoc_L (++)).
Qed.
End reference.

(** For middlewares that call [next] at most once, the counter-based chain is
    function composition: it returns the response and records the events of the
    reference in which every middleware gets the rest of the chain as [next]. *)
Theorem runMiddlewareChain_compose registry ids ctx leaf mw middlewares :
  getMiddlewares registry ids = inr (mw :: middlewares) ->
  Forall (fun mw => forall req, calls_at_most 1 (Invoke mw req)) (mw :: middlewares) ->
  runMiddlewareChain registry ids ctx leaf
  = let '(resp, evs) := compose leaf (mw :: middlewares) {| context := ctx |} in Some (inl resp, evs).
Proof.
  intros Hg Hm. unfold runMiddlewareChain. rewrite Hg.
  destruct (next_compose leaf [] (mw :: middlewares) (chain_fuel (mw :: middlewares)) {| context := ctx |}
              {| counter := 0; events := [] |} Hm) as [c E]; [done|unfold chain_fuel; lia|].
  cbn [app] in E. rewrite E. by destruct (compose _ _ _).
Qed.

(** A middleware that retries, and one that answers without calling [next]. *)
Definition retrying (id : string) : Middleware :=
  {| ID := id; Invoke := fun req => MNext req (fun _ => MNext req (fun r => MReturn r)) |}.
Definition rejecting (id : string) (denied : Response) : Middleware :=
  {| ID := id; Invoke := fun _ => MReturn denied |}.

(** A retry skips the middlewares already entered: behind a middleware that
    calls [next] twice, a middleware that rejects every request does not keep the
    second attempt from the endpoint, whose response is returned. *)
Theorem retry_bypasses_rejection registry a b denied ctx leaf resp :
  a <> b ->
  registry !! a = Some (retrying a) -> registry !! b = Some (rejecting b denied) ->
  leaf {| context := ctx |} = LReturn resp ->
  exists r, runMiddlewareChain registry [a; b] ctx leaf
    = Some (inl r, [EvStart a; EvStart b; EvEnd b; EvLeaf; EvEnd a]) /\ Payload r = Payload resp.
Proof.
  intros Hab Ha Hb Hl. unfold runMiddlewareChain. simpl. rewrite Ha, Hb. simpl.
  unfold run_leaf. rewrite Hl. eexists. split; [reflexivity|]. simpl.
  unfold fill_status. repeat case_match; done.
Qed.

(** ** Typed and raw endpoints *)

(** [type_of] is [reflect.TypeOf], [assignable] is [Type.AssignableTo]. *)
Context (type_of : payload -> string) (assignable : string -> string -> bool) (background : Ctx).

Record Endpoint := {
  Service : string;
  Name : string;
  MiddlewareIDs : list string;
  ResponseType : option string;
  EpInvoke : Ctx -> outcome Errs.error (option payload);
  (** the result of [invokeTypedEndpointMock] when a mock is set *)
  EpMock : option (Ctx -> outcome Errs.error (option payload));
  (** what the raw handler writes, and the value it panics with, if any *)
  RawHandler : option Ctx -> list rawop * option string;
  (** the same for [invokeRawEndpointMock] when a mock is set; it may fail *)
  RawMock : option (option Ctx -> Errs.error + list rawop * option string)
}.

Definition typed_leaf (ep : Endpoint) (req : Request) : leaf_result :=
  let callCtx := default background (context req) in
  let call := match EpMock ep with Some mock => mock | None => EpInvoke ep end in
  match call callCtx with
  | Fail err => LReturn (error_response err (Errs.HTTPStatus (Some err)))
  | Ret out => LReturn {| Payload := out; Err := None; HTTPStatus := 0; headers := None |}
  | Panic msg => LPanic msg
  end.

Record typed_result := {
  res_payload : option payload;
  res_status : Z;
  res_headers : option Header;
  res_err : option Errs.error
}.

Definition finalizeTypedMiddlewareResponse (ep : Endpoint) (resp : Response) : typed_result :=
  let hs := cloneHeaders (headers resp) in
  let invalid msg := {| res_payload := None; res_status := 500; res_headers := hs;
                        res_err := Some (internal ("invalid middleware: " +:+ msg)) |} in
  let name := Service ep +:+ "." +:+ Name ep in
  match Err resp with
  | Some err => {| res_payload := None; res_status := HTTPStatus resp; res_headers := hs; res_err := Some err |}
  | None =>
    match ResponseType ep, Payload resp with
    | None, Some _ => invalid ("endpoint " +:+ name +:+ " cannot return a payload")
    | None, None | Some _, None =>
      {| res_payload := None; res_status := HTTPStatus resp; res_headers := hs; res_err := None |}
    | Some want, Some p =>
      if negb (assignable (type_of p) want)
      then invalid ("cannot return payload of type " +:+ type_of p +:+ " for endpoint " +:+ name
                    +:+ " (expected " +:+ want +:+ ")")
      else {| res_payload := Some p; res_status := HTTPStatus resp; res_headers := hs; res_err := None |}
    end
  end.

Definition executeTypedEndpoint (registry : gmap string Middleware) (ep : Endpoint) (ctx : option Ctx)
  : option ((typed_result + string) * list event) :=
  match runMiddlewareChain registry (MiddlewareIDs ep) ctx (typed_leaf ep) with
  | Some (inl resp, evs) => Some (inl (finalizeTypedMiddlewareResponse ep resp), evs)
  | Some (inr recovered, evs) => Some (inr recovered, evs)
  | None => None
  end.

(** The raw leaf captures the response of the handler or of its mock; [ctx] is the
    context of the HTTP request. *)
Definition raw_leaf (ep : Endpoint) (ctx : option Ctx) (req : Request) : leaf_result :=
  let call := match RawMock ep with Some mock => mock | None => fun c => inr (RawHandler ep c) end in
  match call (match context req with Some c => Some c | None => ctx end) with
  | inl err => LReturn (error_response err (Errs.HTTPStatus (Some err)))
  | inr (_, Some recovered) => LPanic recovered
  | inr (ops, None) =>
    let capture := fold_left capture_op ops newRawResponseCapture in
    LReturn {| Payload := Some (PRaw (cap_body capture)); Err := None;
               HTTPStatus := capture_StatusCode capture;
               headers := Some (copyHeaders [] (cap_header capture)) |}
  end.

Record raw_result := {
  raw_status : Z;
  raw_headers : option Header;
  raw_body : list ascii;
  raw_err : option Errs.error
}.

Definition executeRawEndpoint (registry : gmap string Middleware) (ep : Endpoint) (ctx : option Ctx)
  : option ((raw_result + string) * list event) :=
  match runMiddlewareChain registry (MiddlewareIDs ep) ctx (raw_leaf ep ctx) with
  | Some (inl resp, evs) =>
    let hs := cloneHeaders (headers resp) in
    Some (inl match Err resp with
              | Some err => {| raw_status := HTTPStatus resp; raw_headers := hs; raw_body := []; raw_err := Some err |}
              | None =>
                {| raw_status := HTTPStatus resp; raw_headers := hs;
                   raw_body := match Payload resp with
                               | Some (PRaw body) => body
                               | Some (PRawPtr (Some body)) => body
                               | _ => []
                               end;
                   raw_err := None |}
              end, evs)
  | Some (inr recovered, evs) => Some (inr recovered, evs)
  | None => None
  end.
(** What a typed endpoint returns is well formed: an error comes with a
    status and without a payload, and a payload is assignable to the response
    type the endpoint declares, whatever the middlewares did. *)
Theorem executeTypedEndpoint_wf registry ep ctx r evs :
  executeTypedEndpoint registry ep ctx = Some (inl r, evs) ->
  (res_err r <> None -> res_status r <> 0 /\ res_payload r = None)
  /\ (forall p, res_payload r = Some p ->
       exists want, ResponseType ep = Some want /\ assignable (type_of p) want = true).
Proof.
  unfold executeTypedEndpoint. intros Hx.
  assert (exists resp evs', runMiddlewareChain registry (MiddlewareIDs ep) ctx (typed_leaf ep) = Some (inl resp, evs')
     /\ r = finalizeTypedMiddlewareResponse ep resp) as (resp & evs' & Hrun & ->).
  { destruct (runMiddlewareChain _ _ _ _) as [[[resp|recovered] evs']|]; simplify_eq. eauto. }
  assert (answered resp) as Ha.
  { unfold runMiddlewareChain in Hrun. destruct (getMiddlewares _ _) as [err|[|mw mws]] eqn:Hg.
    - simplify_eq. intros _. apply errs_status_not_zero.
    - unfold typed_leaf in Hrun. destruct (match EpMock ep with Some _ => _ | None => _ end _); simplify_eq.
      + by intros ?.
      + intros _. apply errs_status_not_zero.
    - destruct (next _ _ _ _ _) as [[resp' st']|] eqn:E; simplify_eq.
      destruct (next_returns (mw :: mws) (typed_leaf ep) (chain_fuel (mw :: mws)) {| context := ctx |}
        {| counter := 0; events := [] |}) as (resp'' & st'' & E' & Ha & _);
        [unfold chain_fuel; simpl; lia..|]. rewrite E in E'. by simplify_eq. }
  unfold finalizeTypedMiddlewareResponse, answered in *.
  destruct (Err resp) as [err|]; simpl.
  - split; [intros _; split; [by apply Ha|done]|done].
  - destruct (ResponseType ep) as [want|], (Payload resp) as [p|]; simpl; try by split.
    destruct (assignable (type_of p) want) eqn:Eas; simpl; [|by split].
    split; [done|]. intros p' [= <-]. eauto.
Qed.
End chain.
(** ** Captured and streamed raw responses *)
Definition plain_op (op : rawop) : bool :=
  match op with OpFlush => false | OpWriteHeader s => negb (s =? 0) | _ => true end.

Definition same_response (c : rawResponseCapture) (s : rawStreamingResponseWriter) : Prop :=
  cap_status c = str_status s /\ cap_body c = conn_body s /\ cap_header c = str_header s
  /\ wroteHeader s = negb (str_status s =? 0).

Lemma same_response_step c s op :
  plain_op op = true -> same_response c s -> same_response (capture_op c op) (streaming_op s op).
Proof.
  intros Hop (Hst & Hb & Hh & Hw). destruct op as [k vs|status|data|]; simpl in *; [..|done].
  - unfold same_response. simpl. by rewrite Hh.
  - unfold same_response, streaming_WriteHeader. rewrite Hst, Hw.
    destruct (Z.eqb_spec (str_status s) 0); simpl; [by rewrite Hop|].
    rewrite Hw, (proj2 (Z.eqb_neq _ _)) by done. done.
  - unfold same_response, streaming_WriteHeader. rewrite Hst, Hw.
    destruct (Z.eqb_spec (str_status s) 0); simpl; [by rewrite Hb|].
    rewrite Hw, Hb, (proj2 (Z.eqb_neq _ _)) by done. done.
Qed.

(** The two ways a raw endpoint is served agree: for a handler that does not
    flush and writes no status 0, the captured response (used behind middleware)
    and the streamed one (used without) have the same status and body. *)
Theorem capture_streaming_agree ops :
  forallb plain_op ops = true ->
  capture_StatusCode (fold_left capture_op ops newRawResponseCapture)
  = streaming_StatusCode (fold_left streaming_op ops newRawStreamingResponseWriter)
  /\ cap_body (fold_left capture_op ops newRawResponseCapture)
  = conn_body (fold_left streaming_op ops newRawStreamingResponseWriter).
Proof.
  intros Hops.
  assert (forall c s, same_response c s -> same_response (fold_left capture_op ops c) (fold_left streaming_op ops s))
    as Hgen.
  { induction ops as [|op ops IH]; intros c s Hcs; [done|]. simpl in *.
    apply andb_true_iff in Hops as [Hop Hops]. apply IH; [done|]. by apply same_response_step. }
  destruct (Hgen newRawResponseCapture newRawStreamingResponseWriter) as (Hst & Hb & _); [done|].
  split; [|done]. unfold capture_StatusCode, streaming_StatusCode. by rewrite Hst.
Qed.

(** ** The theorems at concrete chains *)
Definition demo_denied : @Response nat :=
  {| Payload := None; Err := Some (internal "denied"); HTTPStatus := 403; headers := None |}.
Definition demo_ok : @Response nat :=
  {| Payload := Some (PValue 7%nat); Err := None; HTTPStatus := 0; headers := None |}.
Definition demo_passing (id : string) : @Middleware unit nat :=
  {| ID := id; Invoke := fun req => MNext req (fun r => MReturn r) |}.
Definition demo_registry : gmap string (@Middleware unit nat) :=
  <["a" := retrying "a"]> (<["b" := rejecting "b" demo_denied]> (<["c" := demo_passing "c"]> ∅)).

Lemma runMiddlewareChain_ok_witness :
  exists resp evs k,
    runMiddlewareChain demo_registry ["a"; "b"] None (fun _ => LPanic "boom") = Some (inl resp, evs)
    /\ List.filter is_stage evs = take k (stages [retrying (P := nat) (Ctx := unit) "a"; rejecting "b" demo_denied])
    /\ brackets [] evs = true
    /\ answered resp.
Proof.
  apply (runMiddlewareChain_ok demo_registry ["a"; "b"] None (fun _ => LPanic "boom")
           (retrying "a") [rejecting "b" demo_denied]). reflexivity.
Defined.

Lemma runMiddlewareChain_compose_witness :
  runMiddlewareChain demo_registry ["c"; "b"] None (fun _ => LReturn demo_ok)
  = Some (inl demo_denied, [EvStart "c"; EvStart "b"; EvEnd "b"; EvEnd "c"]).
Proof.
  rewrite (runMiddlewareChain_compose demo_registry ["c"; "b"] None (fun _ => LReturn demo_ok)
             (demo_passing "c") [rejecting "b" demo_denied]).
  - reflexivity.
  - reflexivity.
  - repeat constructor.
Defined.

Lemma retry_bypasses_rejection_witness :
  exists r, runMiddlewareChain demo_registry ["a"; "b"] None (fun _ => LReturn demo_ok)
    = Some (inl r, [EvStart "a"; EvStart "b"; EvEnd "b"; EvLeaf; EvEnd "a"])
    /\ Payload r = Some (PValue 7%nat).
Proof.
  apply (retry_bypasses_rejection demo_registry "a" "b" demo_denied None (fun _ => LReturn demo_ok) demo_ok);
    [discriminate|reflexivity..].
Defined.

Definition demo_endpoint : @Endpoint unit nat :=
  {| Service := "svc"; Name := "Get"; MiddlewareIDs := ["c"]; ResponseType := Some "int";
     EpInvoke := fun _ => Ret (Some (PValue 7%nat)); EpMock := None;
     RawHandler := fun _ => ([], None); RawMock := None |}.

Lemma executeTypedEndpoint_wf_witness :
  exists r evs,
    executeTypedEndpoint (fun _ => "int") String.eqb tt demo_registry demo_endpoint None = Some (inl r, evs)
    /\ forall p, res_payload r = Some p -> exists want, Some "int" = Some want /\ String.eqb "int" want = true.
Proof.
  eexists _, _. split; [vm_compute; reflexivity|].
  exact (proj2 (executeTypedEndpoint_wf (fun _ => "int") String.eqb tt demo_registry demo_endpoint None
                  _ _ ltac:(vm_compute; reflexivity))).
Defined.

Lemma capture_streaming_agree_witness :
  capture_StatusCode (fold_left capture_op [OpSetHeader "A" ["b"]; OpWriteHeader 404; OpWrite ["x"%char]; OpWriteHeader 200]
                        newRawResponseCapture) = 404.
Proof.
  rewrite (proj1 (capture_streaming_agree
    [OpSetHeader "A" ["b"]; OpWriteHeader 404; OpWrite ["x"%char]; OpWriteHeader 200] ltac:(reflexivity))).
  reflexivity.
Defined.
End Middleware.
