(* ===== verification/Cron.v ===== *)
(** * Cron schedules ([runtime/cron.go])

    [Cron] models the parsing of schedules, the computation of the next
    execution in process, the calendar specifications handed to Temporal, and
    the validation of jobs.  A time is a number of nanoseconds since the Unix
    epoch, in UTC; [time.Duration] and [int] are 64 bits wide. *)
From stdpp Require Import base tactics list gmap strings.
From Stdlib Require Import ZArith Lia Ascii.
From S2P Require Import Prelude GoStrings.

Module Cron.
(** ** Calendar fields of a time *)
Definition Second : Z := 1000000000.
Definition Minute : Z := 60 * Second.
Definition Hour : Z := 60 * Minute.

Definition unix (t : Z) : Z := t / Second.
Definition days (t : Z) : Z := unix t / 86400.
Definition t_Minute (t : Z) : Z := unix t mod 3600 / 60.
Definition t_Hour (t : Z) : Z := unix t mod 86400 / 3600.
Definition t_Weekday (t : Z) : Z := (days t + 4) mod 7.

(** Month and day of a number of days since 1970-01-01, counting eras of 400
    years from 0000-03-01. *)
Definition era_day (d : Z) : Z := (d + 719468) mod 146097.
Definition era_year (doe : Z) : Z := (doe - doe / 1460 + doe / 36524 - doe / 146096) / 365.
Definition year_day (doe : Z) : Z :=
  let yoe := era_year doe in doe - (365 * yoe + yoe / 4 - yoe / 100).
Definition month_index (doy : Z) : Z := (5 * doy + 2) / 153.

Definition t_Month (t : Z) : Z :=
  let mp := month_index (year_day (era_day (days t))) in if mp <? 10 then mp + 3 else mp - 9.
Definition t_Day (t : Z) : Z :=
  let doy := year_day (era_day (days t)) in doy - (153 * month_index doy + 2) / 5 + 1.

(** ** Fields *)
Record cronField := { any : bool; min : Z; max : Z; values : list bool }.

Definition newCronField (mn mx : Z) : cronField :=
  {| any := false; min := mn; max := mx; values := replicate (Z.to_nat (mx - mn + 1)) false |}.

(** [f.values[value-f.min]] is in range for a field of [newCronField]. *)
Definition Has (f : cronField) (v : Z) : bool :=
  if any f then true
  else if (v <? min f) || (max f <? v) then false
  else default false (values f !! Z.to_nat (v - min f)).

Record parsedCronPlan := {
  minute : cronField;
  hour : cronField;
  dom : cronField;
  month : cronField;
  dow : cronField
}.

Definition matches (p : parsedCronPlan) (t : Z) : bool :=
  if negb (Has (minute p) (t_Minute t)) || negb (Has (hour p) (t_Hour t)) || negb (Has (month p) (t_Month t))
  then false
  else
    let domMatch := Has (dom p) (t_Day t) in
    let wd := t_Weekday t in
    let dowMatch := Has (dow p) wd || ((wd =? 0) && Has (dow p) 7) in
    if any (dom p) && any (dow p) then true
    else if any (dom p) then dowMatch
    else if any (dow p) then domMatch
    else domMatch || dowMatch.

(** ** The next execution *)
Definition maxCronScheduleHorizon : Z := 5 * 366 * 24 * Hour.

(** The loop of [parsedCronPlan.Next]; [None] is the zero time. *)
Fixpoint next_loop (fuel : nat) (p : parsedCronPlan) (next deadline : Z) : option Z :=
  match fuel with
  | O => None
  | S n =>
    if deadline <? next then None
    else if matches p next then Some next
    else next_loop n p (next + Minute) deadline
  end.

(** One iteration per minute up to the deadline, which is included. *)
Definition horizon_fuel : nat := Z.to_nat (maxCronScheduleHorizon / Minute + 2).

(** [Truncate(time.Minute)] counts from the zero time, a whole number of minutes
    before the epoch. *)
Definition parsed_Next (p : parsedCronPlan) (after : Z) : option Z :=
  let next := after / Minute * Minute + Minute in
  next_loop horizon_fuel p next (next + maxCronScheduleHorizon).

(** [everyCronPlan.Next]; the quotient panics for an interval below a second. *)
Definition every_Next (interval after : Z) : outcome string Z :=
  let seconds := Z.quot interval Second in
  if seconds =? 0 then Panic "runtime error: integer divide by zero"
  else Ret (wrap_int 64 (wrap_int 64 (Z.quot (unix after) seconds + 1) * seconds) * Second).

Inductive cronPlan := EveryPlan (interval : Z) | ParsedPlan (p : parsedCronPlan).

Definition plan_Next (p : cronPlan) (after : Z) : outcome string (option Z) :=
  match p with
  | EveryPlan interval => t ← every_Next interval after; Ret (Some t)
  | ParsedPlan p => Ret (parsed_Next p after)
  end.

(** ** Temporal calendar specifications *)
Record TemporalCronScheduleRange := { Start : Z; End : Z; Step : Z }.

Record TemporalCronCalendarSpec := {
  sp_Second : list TemporalCronScheduleRange;
  sp_Minute : list TemporalCronScheduleRange;
  sp_Hour : list TemporalCronScheduleRange;
  DayOfMonth : list TemporalCronScheduleRange;
  sp_Month : list TemporalCronScheduleRange;
  DayOfWeek : list TemporalCronScheduleRange;
  Comment : string
}.

Definition single (v : Z) : TemporalCronScheduleRange := {| Start := v; End := 0; Step := 0 |}.

Definition field_values (f : cronField) : list Z := seqZ (min f) (max f - min f + 1).

Definition cronFieldRanges (f : cronField) (forceAny : bool) : list TemporalCronScheduleRange :=
  if forceAny || any f then [{| Start := min f; End := max f; Step := 1 |}]
  else map single (List.filter (Has f) (field_values f)).

(** The loop of [cronDayOfWeekRanges] with the days seen so far. *)
Fixpoint dow_loop (f : cronField) (vs : list Z) (seen : gset Z) : list TemporalCronScheduleRange :=
  match vs with
  | [] => []
  | v :: vs' =>
    if negb (Has f v) then dow_loop f vs' seen
    else
      let d := if v =? 7 then 0 else v in
      if (d <? 0) || (6 <? d) || bool_decide (d ∈ seen) then dow_loop f vs' seen
      else single d :: dow_loop f vs' ({[d]} ∪ seen)
  end.

Definition cronDayOfWeekRanges (f : cronField) (forceAny : bool) : list TemporalCronScheduleRange :=
  if forceAny || any f then [{| Start := 0; End := 6; Step := 1 |}]
  else dow_loop f (field_values f) ∅.

Definition calendar_spec (p : parsedCronPlan) (days_of_month days_of_week : list TemporalCronScheduleRange)
  : TemporalCronCalendarSpec :=
  {| sp_Second := [single 0];
     sp_Minute := cronFieldRanges (minute p) false;
     sp_Hour := cronFieldRanges (hour p) false;
     DayOfMonth := days_of_month;
     sp_Month := cronFieldRanges (month p) false;
     DayOfWeek := days_of_week;
     Comment := "scenery cron schedule" |}.

Definition cronCalendarSpecs (p : parsedCronPlan) : list TemporalCronCalendarSpec :=
  if any (dom p) || any (dow p)
  then [calendar_spec p (cronFieldRanges (dom p) false) (cronDayOfWeekRanges (dow p) false)]
  else [calendar_spec p (cronFieldRanges (dom p) false) (cronDayOfWeekRanges (dow p) true);
        calendar_spec p (cronFieldRanges (dom p) true) (cronDayOfWeekRanges (dow p) false)].

(** ** Parsing *)
Inductive cron_error :=
| EmptySegment | InvalidStep (part : string) | EmptyValue | InvalidValue (expr : string)
| ValueOutOfRange (base : string) | NoValues | FieldCount (expr : string)
| InvalidField (field : string) (e : cron_error).

Definition cronMonthNames : list (string * Z) :=
  [("JAN", 1); ("FEB", 2); ("MAR", 3); ("APR", 4); ("MAY", 5); ("JUN", 6); ("JUL", 7); ("AUG", 8);
   ("SEP", 9); ("OCT", 10); ("NOV", 11); ("DEC", 12)].

Definition cronDayNames : list (string * Z) :=
  [("SUN", 0); ("MON", 1); ("TUE", 2); ("WED", 3); ("THU", 4); ("FRI", 5); ("SAT", 6)].

Fixpoint name_lookup (names : list (string * Z)) (expr : string) : option Z :=
  match names with
  | [] => None
  | (k, v) :: names' => if String.eqb k expr then Some v else name_lookup names' expr
  end.

Definition splitCronStep (part : string) : outcome cron_error (string * Z) :=
  if negb (Strings.Contains part "/") then Ret (part, 1)
  else
    let '(base, stepExpr, _) := Strings.Cut part "/" in
    if String.eqb base "" || String.eqb stepExpr "" then Fail (InvalidStep part)
    else match Strconv.Atoi stepExpr with
    | Ret step => if step <=? 0 then Fail (InvalidStep part) else Ret (base, step)
    | _ => Fail (InvalidStep part)
    end.

Section parse.
Context {UT : UnicodeTables}.

Definition parseCronValue (expr : string) (names : list (string * Z)) : outcome cron_error Z :=
  let expr := Strings.TrimSpace (Strings.ToUpper expr) in
  if String.eqb expr "" then Fail EmptyValue
  else match name_lookup names expr with
  | Some v => Ret v
  | None => match Strconv.Atoi expr with Ret v => Ret v | _ => Fail (InvalidValue expr) end
  end.

(** [for value := start; value <= end; value += step { field.values[value-min] = true }],
    with the 64-bit addition. *)
Fixpoint set_loop (fuel : nat) (vs : list bool) (v last step mn : Z) : outcome cron_error (list bool) :=
  match fuel with
  | O => Ret vs
  | S n =>
    if last <? v then Ret vs
    else
      let i := wrap_int 64 (v - mn) in
      if (i <? 0) || (Z.of_nat (length vs) <=? i) then Panic "runtime error: index out of range"
      else set_loop n (<[Z.to_nat i := true]> vs) (wrap_int 64 (v + step)) last step mn
  end.

(** The range of values and the step of one comma-separated part. *)
Definition part_range (part : string) (mn mx : Z) (names : list (string * Z))
  : outcome cron_error (Z * Z * Z) :=
  let part := Strings.TrimSpace part in
  if String.eqb part "" then Fail EmptySegment
  else
    '(base, step) ← splitCronStep part;
    '(start, last) ←
      (if String.eqb base "*" then Ret (mn, mx)
       else if Strings.Contains base "-" then
         let '(lhs, rhs, _) := Strings.Cut base "-" in
         start ← parseCronValue lhs names;
         last ← parseCronValue rhs names;
         Ret (start, last)
       else start ← parseCronValue base names; Ret (start, start));
    if (start <? mn) || (mx <? last) || (last <? start) then Fail (ValueOutOfRange base)
    else Ret (start, last, step).

(** The iterations a part needs: one per value, one to see the end. *)
Definition range_fuel (start last : Z) : nat := Z.to_nat (last - start + 2).

Fixpoint parse_parts (parts : list string) (vs : list bool) (mn mx : Z) (names : list (string * Z))
  : outcome cron_error (list bool) :=
  match parts with
  | [] => Ret vs
  | part :: parts' =>
    '(start, last, step) ← part_range part mn mx names;
    vs ← set_loop (range_fuel start last) vs start last step mn;
    parse_parts parts' vs mn mx names
  end.

Definition parseCronField (expr : string) (mn mx : Z) (names : list (string * Z))
  : outcome cron_error cronField :=
  let field := newCronField mn mx in
  if String.eqb expr "*" then Ret {| any := true; min := mn; max := mx; values := values field |}
  else
    vs ← parse_parts (Strings.Split expr ",") (values field) mn mx names;
    if existsb (fun b => b) vs then Ret {| any := false; min := mn; max := mx; values := vs |}
    else Fail NoValues.

Definition in_field {A} (name : string) (o : outcome cron_error A) : outcome cron_error A :=
  match o with Fail e => Fail (InvalidField name e) | o => o end.

Definition parseCronSchedule (expr : string) : outcome cron_error parsedCronPlan :=
  match Strings.Fields (Strings.TrimSpace expr) with
  | [p0; p1; p2; p3; p4] =>
    mi ← in_field "minute" (parseCronField p0 0 59 []);
    ho ← in_field "hour" (parseCronField p1 0 23 []);
    dm ← in_field "day-of-month" (parseCronField p2 1 31 []);
    mo ← in_field "month" (parseCronField p3 1 12 cronMonthNames);
    dw ← in_field "day-of-week" (parseCronField p4 0 7 cronDayNames);
    Ret {| minute := mi; hour := ho; dom := dm; month := mo; dow := dw |}
  | _ => Fail (FieldCount expr)
  end.

(** ** Jobs *)

(** [BackoffCoefficient] is the bit pattern of the float64. *)
Record CronRetryPolicy := {
  InitialInterval : Z;
  BackoffCoefficient : Z;
  MaximumInterval : Z;
  MaximumAttempts : Z;
  NonRetryableErrorTypes : list string
}.

Definition float_is_zero (bits : Z) : bool := Z.land bits (2 ^ 63 - 1) =? 0.
Definition float_is_nan (bits : Z) : bool := 2047 * 2 ^ 52 <? Z.land bits (2 ^ 63 - 1).
Definition float_negative (bits : Z) : bool :=
  Z.testbit bits 63 && negb (float_is_zero bits) && negb (float_is_nan bits).

(** [Invoke] says whether the job has an endpoint. *)
Record CronJob := {
  ID : string;
  Title : string;
  Every : Z;
  Schedule : string;
  OverlapPolicy : string;
  CatchupWindow : Z;
  PauseOnFailure : bool;
  ActivityStartToClose : Z;
  ActivityRetryPolicy : CronRetryPolicy;
  Invoke : bool;
  plan : option cronPlan
}.

Inductive job_error :=
| InvalidID | MissingEndpoint | EveryOrSchedule | OverlapInvalid | CatchupNegative | StartToCloseNegative
| RetryInitial | RetryBackoff | RetryMaximum | RetryAttempts | EveryNotSeconds | EveryNotDividing
| InvalidSchedule (e : cron_error).

Definition validateCronOverlapPolicy (policy : string) : bool :=
  bool_decide (Strings.TrimSpace (Strings.ToLower policy) ∈
    [""; "skip"; "buffer_one"; "buffer_all"; "cancel_other"; "terminate_other"; "allow_all"]).

Definition cronRetryPolicyIsZero (p : CronRetryPolicy) : bool :=
  (InitialInterval p =? 0) && float_is_zero (BackoffCoefficient p) && (MaximumInterval p =? 0)
  && (MaximumAttempts p =? 0) && bool_decide (NonRetryableErrorTypes p = []).

Definition validateCronRetryPolicy (p : CronRetryPolicy) : outcome job_error unit :=
  if cronRetryPolicyIsZero p then Ret tt
  else if InitialInterval p <=? 0 then Fail RetryInitial
  else if float_negative (BackoffCoefficient p) then Fail RetryBackoff
  else if MaximumInterval p <? 0 then Fail RetryMaximum
  else if MaximumAttempts p <? 0 then Fail RetryAttempts
  else Ret tt.

Definition lower_letter (c : ascii) : bool := in_range 97 122 (code c).
Definition id_tail (c : ascii) : bool := lower_letter c || in_range 48 57 (code c).

(** The characters after the first one; a byte above 0x7F is part of a rune that
    every branch rejects. *)
Fixpoint valid_id_rest (s : string) : bool :=
  match s with
  | EmptyString => true
  | String c EmptyString => id_tail c
  | String c s' => (id_tail c || Ascii.eqb c "-") && valid_id_rest s'
  end.

Definition isValidCronJobID (id : string) : bool :=
  if Nat.eqb (String.length id) 0 || Nat.ltb 63 (String.length id) then false
  else match id with
  | EmptyString => false
  | String c s' => lower_letter c && valid_id_rest s'
  end.

Definition with_plan (job : CronJob) (p : cronPlan) : CronJob :=
  {| ID := ID job; Title := if String.eqb (Title job) "" then ID job else Title job;
     Every := Every job; Schedule := Schedule job; OverlapPolicy := OverlapPolicy job;
     CatchupWindow := CatchupWindow job; PauseOnFailure := PauseOnFailure job; ActivityStartToClose := ActivityStartToClose job;
     ActivityRetryPolicy := ActivityRetryPolicy job; Invoke := Invoke job; plan := Some p |}.

(** The job as a successful validation leaves it. *)
Definition validateCronJob (job : CronJob) : outcome job_error CronJob :=
  if negb (isValidCronJobID (ID job)) then Fail InvalidID
  else if negb (Invoke job) then Fail MissingEndpoint
  else
    let hasEvery := 0 <? Every job in
    let hasSchedule := negb (String.eqb (Strings.TrimSpace (Schedule job)) "") in
    if Bool.eqb hasEvery hasSchedule then Fail EveryOrSchedule
    else if negb (validateCronOverlapPolicy (OverlapPolicy job)) then Fail OverlapInvalid
    else if CatchupWindow job <? 0 then Fail CatchupNegative
    else if ActivityStartToClose job <? 0 then Fail StartToCloseNegative
    else
      _ ← validateCronRetryPolicy (ActivityRetryPolicy job);
      if hasEvery then
        if negb (Z.rem (Every job) Second =? 0) then Fail EveryNotSeconds
        else if negb (Z.rem (24 * Hour) (Every job) =? 0) then Fail EveryNotDividing
        else Ret (with_plan job (EveryPlan (Every job)))
      else
        match parseCronSchedule (Schedule job) with
        | Ret p => Ret (with_plan job (ParsedPlan p))
        | Fail e => Fail (InvalidSchedule e)
        | Panic msg => Panic msg
        end.

Inductive spec_error := ScheduleNotParsed.

Definition TemporalCronScheduleSpecForJob (job : CronJob)
  : outcome spec_error (list Z * list TemporalCronCalendarSpec) :=
  if 0 <? Every job then Ret ([Every job], [])
  else match plan job with
  | Some (ParsedPlan p) => Ret ([], cronCalendarSpecs p)
  | _ => Fail ScheduleNotParsed
  end.

(** ** The next execution of an interval *)
Lemma divides_day_seconds every :
  0 < every -> Z.rem every Second = 0 -> Z.rem (24 * Hour) every = 0 ->
  exists s, every = s * Second /\ 1 <= s <= 86400.
Proof.
  intros Hpos Hsec Hday. unfold Hour, Minute, Second in *.
  rewrite (Z.rem_mod_nonneg every) in Hsec by lia. rewrite (Z.rem_mod_nonneg _ every) in Hday by lia.
  exists (every / 1000000000).
  pose proof (Z.div_mod every 1000000000 ltac:(lia)) as E. rewrite Hsec in E.
  split; [lia|]. split; [lia|].
  pose proof (Z.div_mod (24 * (60 * (60 * 1000000000))) every ltac:(lia)) as E'. rewrite Hday in E'.
  assert (1 <= 24 * (60 * (60 * 1000000000)) / every) by nia. nia.
Qed.

Lemma validate_every job job' :
  validateCronJob job = Ret job' -> 0 < Every job ->
  Z.rem (Every job) Second = 0 /\ Z.rem (24 * Hour) (Every job) = 0
  /\ plan job' = Some (EveryPlan (Every job)).
Proof.
  unfold validateCronJob. intros Hv Hev. rewrite (proj2 (Z.ltb_lt _ _) Hev) in Hv.
  destruct (validateCronRetryPolicy _) as [[]|e|m]; unfold mbind, outcome_bind in Hv.
  all: destruct (negb (isValidCronJobID (ID job))); [done|]; destruct (negb (Invoke job)); [done|].
  all: destruct (Bool.eqb _ _); [done|]; destruct (negb (validateCronOverlapPolicy _)); [done|].
  all: destruct (CatchupWindow job <? 0); [done|]; destruct (ActivityStartToClose job <? 0); [done|].
  2-3: done.
  destruct (Z.eqb_spec (Z.rem (Every job) Second) 0); [|done].
  destruct (Z.eqb_spec (Z.rem (24 * Hour) (Every job)) 0); [|done].
  cbn [negb] in Hv. by injection Hv as <-.
Qed.

Lemma next_multiple u s : 0 < s -> u < (u / s + 1) * s <= u + s.
Proof. intros Hs. pose proof (Z.div_mod u s ltac:(lia)). pose proof (Z.mod_pos_bound u s Hs). nia. Qed.

(** A validated interval job has a next execution at every time: after the
    given time, within one interval of it, and at a multiple of the interval since
    the epoch, which divides a day, so the executions fall at the same times every
    day.  The range of times is that of the 64-bit clock after the epoch. *)
Theorem every_job_Next job job' after :
  validateCronJob job = Ret job' -> 0 < Every job -> 0 <= after < 2 ^ 63 ->
  exists p t, plan job' = Some p /\ plan_Next p after = Ret (Some t)
    /\ after < t <= after + Every job /\ t mod Every job = 0 /\ (24 * Hour) mod Every job = 0.
Proof.
  intros Hv Hev Ha. destruct (validate_every _ _ Hv Hev) as (Hsec & Hday & Hp). rewrite Hp.
  destruct (divides_day_seconds _ Hev Hsec Hday) as (s & Es & Hs).
  eexists (EveryPlan (Every job)), _. split; [done|].
  assert (Z.quot (Every job) Second = s) as Hq by (rewrite Es; apply Z.quot_mul; done).
  assert (0 <= unix after <= 9223372036) as Hu.
  { unfold unix, Second. split; [apply Z.div_pos; lia|]. change 9223372036 with (2 ^ 63 / 1000000000).
    apply Z.div_le_mono; lia. }
  pose proof (next_multiple (unix after) s ltac:(lia)) as Hnm.
  assert (unix after / s <= unix after) as Hle by (apply Z.div_le_upper_bound; nia).
  assert (0 <= unix after / s) as Hge by (apply Z.div_pos; lia).
  assert (every_Next (Every job) after = Ret ((unix after / s + 1) * s * Second)) as En.
  { unfold every_Next. rewrite Hq, (proj2 (Z.eqb_neq s 0)) by lia.
    rewrite Z.quot_div_nonneg by lia.
    rewrite (wrap_int_id 64 (unix after / s + 1)) by (try done; change (2 ^ (64 - 1)) with 9223372036854775808; lia).
    rewrite wrap_int_id by (try done; change (2 ^ (64 - 1)) with 9223372036854775808; lia). done. }
  unfold plan_Next. rewrite En. split; [done|].
  pose proof (Z.div_mod after Second ltac:(done)) as Eaf. pose proof (Z.mod_pos_bound after Second ltac:(done)) as Hmod.
  fold (unix after) in Eaf. split; [rewrite Es; unfold Second in *; nia|]. split.
  - rewrite Es. rewrite <- Z.mul_assoc. apply Z.mod_mul. unfold Second; lia.
  - rewrite <- Hday. symmetry. apply Z.rem_mod_nonneg; unfold Hour, Minute, Second; lia.
Qed.

(** ** The next execution of a parsed schedule *)
Lemma next_loop_spec n p next deadline :
  deadline - next < Z.of_nat n * Minute ->
  match next_loop n p next deadline with
  | Some t =>
      next <= t <= deadline /\ (t - next) mod Minute = 0 /\ matches p t = true
      /\ forall u, next <= u < t -> (u - next) mod Minute = 0 -> matches p u = false
  | None => forall u, next <= u <= deadline -> (u - next) mod Minute = 0 -> matches p u = false
  end.
Proof.
  assert (0 < Minute) as HM by done.
  revert next. induction n as [|n IH]; intros next Hn; simpl.
  - intros u Hu _. lia.
  - destruct (Z.ltb_spec deadline next) as [Hd|Hd]; [intros u Hu; lia|].
    destruct (matches p next) eqn:Hm.
    + split; [lia|]. rewrite Z.sub_diag. split; [done|]. split; [done|]. intros u Hu; lia.
    + specialize (IH (next + Minute) ltac:(lia)).
      assert (forall u, next <= u -> (u - next) mod Minute = 0 -> u <> next -> next + Minute <= u) as Hstep.
      { intros u Hu Hmod Hne. apply Z.mod_divide in Hmod as [k Hk]; [|lia].
        assert (1 <= k) by nia. assert (1 * Minute <= k * Minute) by (apply Z.mul_le_mono_nonneg_r; lia). lia. }
      assert (forall u, (u - (next + Minute)) mod Minute = (u - next) mod Minute) as Hshift.
      { intros u. replace (u - next) with (u - (next + Minute) + 1 * Minute) by lia.
        by rewrite Z.mod_add by lia. }
      destruct (next_loop n p (next + Minute) deadline) as [t|].
      * destruct IH as (Hb & Ht & Hmt & Hmin). rewrite Hshift in Ht. split; [lia|]. split; [done|].
        split; [done|]. intros u Hu Hmod. destruct (Z.eq_dec u next) as [->|Hne]; [done|].
        apply Hmin; [|by rewrite Hshift]. specialize (Hstep u). lia.
      * intros u Hu Hmod. destruct (Z.eq_dec u next) as [->|Hne]; [done|].
        apply IH; [|by rewrite Hshift]. specialize (Hstep u). lia.
Qed.

(** The next execution of a parsed schedule is the first: it is the earliest
    whole minute after the given time that the schedule matches, and when there is
    none, no whole minute up to the horizon of five years matches. *)
Theorem parsed_Next_spec p after :
  match parsed_Next p after with
  | Some t =>
      after < t /\ t mod Minute = 0 /\ matches p t = true
      /\ forall u, after < u < t -> u mod Minute = 0 -> matches p u = false
  | None =>
      forall u, after < u <= after + maxCronScheduleHorizon -> u mod Minute = 0 -> matches p u = false
  end.
Proof.
  assert (0 < Minute) as HM by done. unfold parsed_Next.
  set (next := after / Minute * Minute + Minute).
  pose proof (next_loop_spec horizon_fuel p next (next + maxCronScheduleHorizon)) as Hs.
  assert (next + maxCronScheduleHorizon - next < Z.of_nat horizon_fuel * Minute) as Hf.
  { unfold horizon_fuel. rewrite Z2Nat.id by (vm_compute; discriminate).
    assert (maxCronScheduleHorizon < (maxCronScheduleHorizon / Minute + 2) * Minute) by (vm_compute; reflexivity).
    lia. }
  specialize (Hs Hf).
  assert (after < next <= after + Minute) as Hnext.
  { subst next. pose proof (Z.div_mod after Minute ltac:(lia)).
    pose proof (Z.mod_pos_bound after Minute HM). lia. }
  assert (next mod Minute = 0) as Hnm.
  { subst next. rewrite <- Z.mul_succ_l. apply Z.mod_mul. lia. }
  assert (forall u, (u - next) mod Minute = u mod Minute) as Hshift.
  { intros u. rewrite Zminus_mod, Hnm, Z.sub_0_r. apply Z.mod_mod. lia. }
  assert (forall u, after < u -> u mod Minute = 0 -> next <= u) as Hge.
  { intros u Hu Hmod. apply Z.mod_divide in Hmod as [k ->]; [|lia]. subst next.
    assert (after / Minute < k) by (apply Z.div_lt_upper_bound; lia).
    assert ((after / Minute + 1) * Minute <= k * Minute) by (apply Z.mul_le_mono_nonneg_r; lia). lia. }
  destruct (next_loop _ _ _ _) as [t|].
  - destruct Hs as (Hb & Ht & Hm & Hmin). rewrite Hshift in Ht. split; [lia|]. split; [done|].
    split; [done|]. intros u Hu Hmod. apply Hmin; [|by rewrite Hshift]. specialize (Hge u). lia.
  - intros u Hu Hmod. apply Hs; [|by rewrite Hshift]. specialize (Hge u). lia.
Qed.

(** ** Bounds of the calendar fields *)
Lemma t_Minute_bounds t : 0 <= t_Minute t <= 59.
Proof. unfold t_Minute. divlia. Qed.

Lemma t_Hour_bounds t : 0 <= t_Hour t <= 23.
Proof. unfold t_Hour. divlia. Qed.

Lemma t_Weekday_bounds t : 0 <= t_Weekday t <= 6.
Proof. unfold t_Weekday. divlia. Qed.

Lemma year_day_bounds d : 0 <= year_day (era_day d) <= 365.
Proof.
  unfold year_day, era_year, era_day. set (doe := (d + 719468) mod 146097).
  assert (0 <= doe < 146097) by (apply Z.mod_pos_bound; lia). clearbody doe. divlia.
Qed.

Lemma t_Month_bounds t : 1 <= t_Month t <= 12.
Proof.
  unfold t_Month, month_index. pose proof (year_day_bounds (days t)) as Hd.
  set (doy := year_day (era_day (days t))) in *. clearbody doy.
  destruct (Z.ltb_spec ((5 * doy + 2) / 153) 10); divlia.
Qed.

Lemma t_Day_bounds t : 1 <= t_Day t <= 31.
Proof.
  unfold t_Day, month_index. pose proof (year_day_bounds (days t)) as Hd.
  set (doy := year_day (era_day (days t))) in *. clearbody doy. divlia.
Qed.

(** ** What parsing a field produces *)
Lemma set_loop_length n vs v last step mn vs' :
  set_loop n vs v last step mn = Ret vs' -> length vs' = length vs.
Proof.
  revert vs v. induction n as [|n IH]; intros vs v E; cbn [set_loop] in E; [by simplify_eq|].
  destruct (last <? v); [by simplify_eq|]. destruct (_ || _); [done|].
  apply IH in E. by rewrite length_insert in E.
Qed.

Lemma parse_parts_length parts vs mn mx names vs' :
  parse_parts parts vs mn mx names = Ret vs' -> length vs' = length vs.
Proof.
  revert vs. induction parts as [|part parts IH]; intros vs E; cbn [parse_parts] in E; [by simplify_eq|].
  destruct (part_range part mn mx names) as [[[s l] st]|e|m]; unfold mbind, outcome_bind in E; [|done..].
  destruct (set_loop _ _ _ _ _ _) as [vs1|e|m] eqn:Es; [|done..].
  apply set_loop_length in Es. apply IH in E. congruence.
Qed.

Definition wf_field (f : cronField) (mn mx : Z) : Prop :=
  min f = mn /\ max f = mx /\ length (values f) = Z.to_nat (mx - mn + 1).

Lemma parseCronField_wf expr mn mx names f :
  parseCronField expr mn mx names = Ret f -> wf_field f mn mx.
Proof.
  unfold parseCronField, wf_field. destruct (String.eqb expr "*").
  - intros [= <-]. cbn [min max values newCronField]. by rewrite length_replicate.
  - unfold mbind, outcome_bind. destruct (parse_parts _ _ _ _ _) as [vs|e|m] eqn:E; [|done..].
    destruct (existsb _ vs); [|done]. intros [= <-]. apply parse_parts_length in E.
    cbn [min max values newCronField] in *. by rewrite E, length_replicate.
Qed.

Lemma in_field_Ret {A} name (o : outcome cron_error A) a : in_field name o = Ret a -> o = Ret a.
Proof. by destruct o. Qed.

Definition wf_plan (p : parsedCronPlan) : Prop :=
  wf_field (minute p) 0 59 /\ wf_field (hour p) 0 23 /\ wf_field (dom p) 1 31
  /\ wf_field (month p) 1 12 /\ wf_field (dow p) 0 7.

Lemma parseCronSchedule_wf expr p : parseCronSchedule expr = Ret p -> wf_plan p.
Proof.
  unfold parseCronSchedule.
  destruct (Strings.Fields _) as [|p0 [|p1 [|p2 [|p3 [|p4 [|]]]]]]; try done.
  unfold mbind, outcome_bind. intros E.
  repeat match type of E with
  | context [in_field ?n ?o] => destruct (in_field n o) eqn:?; [|discriminate E..]
  end.
  injection E as <-.
  repeat match goal with
  | H : in_field _ _ = Ret _ |- _ => apply in_field_Ret, parseCronField_wf in H
  end.
  unfold wf_plan. cbn [minute hour dom month dow]. tauto.
Qed.

(** ** Temporal runs the same schedule *)
Section temporal.
Context (range_has : TemporalCronScheduleRange -> Z -> bool).

(** The documented meaning of a range: [End] defaults to [Start], [Step] to 1. *)
Context (range_single : forall v x, 0 <= v -> range_has (single v) x = (x =? v))
        (range_full : forall a b x, 0 <= a < b ->
           range_has {| Start := a; End := b; Step := 1 |} x = (a <=? x) && (x <=? b)).

Definition ranges_have (rs : list TemporalCronScheduleRange) (x : Z) : bool :=
  existsb (fun r => range_has r x) rs.

(** A calendar matches a time when each of its fields does. *)
Definition calendar_matches (s : TemporalCronCalendarSpec) (t : Z) : bool :=
  ranges_have (sp_Second s) (unix t mod 60) && ranges_have (sp_Minute s) (t_Minute t)
  && ranges_have (sp_Hour s) (t_Hour t) && ranges_have (DayOfMonth s) (t_Day t)
  && ranges_have (sp_Month s) (t_Month t) && ranges_have (DayOfWeek s) (t_Weekday t).

Lemma in_field_values f x : min f <= x <= max f -> In x (field_values f).
Proof. intros Hx. apply list_elem_of_In. unfold field_values. apply elem_of_seqZ. lia. Qed.

Lemma field_values_bounds f x : In x (field_values f) -> min f <= x <= max f.
Proof. intros Hx. apply list_elem_of_In in Hx. apply elem_of_seqZ in Hx. lia. Qed.

Lemma cronFieldRanges_has f force x mn mx :
  wf_field f mn mx -> 0 <= mn < mx -> mn <= x <= mx ->
  ranges_have (cronFieldRanges f force) x = force || Has f x.
Proof.
  intros (Hmn & Hmx & _) Hmn0 Hx. unfold cronFieldRanges, ranges_have.
  assert (range_has {| Start := min f; End := max f; Step := 1 |} x = true) as Hfull
    by (rewrite range_full by lia; lia).
  destruct force; simpl; [by rewrite Hfull|].
  destruct (any f) eqn:Ha; simpl; [unfold Has; by rewrite Hfull, Ha|].
  apply eq_iff_eq_true. rewrite existsb_exists. split.
  - intros (r & Hr & Hrx). apply in_map_iff in Hr as (v & <- & Hv). apply filter_In in Hv as [Hv Hh].
    apply field_values_bounds in Hv. rewrite range_single in Hrx by lia. by apply Z.eqb_eq in Hrx as ->.
  - intros Hh. exists (single x). split; [|rewrite range_single by lia; lia].
    apply in_map_iff. exists x. split; [done|]. apply filter_In. split; [|done].
    apply in_field_values. lia.
Qed.

Lemma dow_loop_has f vs (seen : gset Z) x :
  0 <= x <= 6 ->
  ranges_have (dow_loop f vs seen) x = true <->
  (x ∉ seen) /\ exists v, In v vs /\ Has f v = true /\ (if v =? 7 then 0 else v) = x.
Proof.
  intros Hx. revert seen. induction vs as [|v vs IH]; intros seen; simpl.
  { split; [done|]. by intros (_ & v & [] & _). }
  destruct (Has f v) eqn:Hh; simpl.
  2: { rewrite IH. split; intros (Hs & w & Hw & Hhw & E); (split; [done|]); exists w; [tauto|].
       destruct Hw as [->|Hw]; [congruence|tauto]. }
  set (d := if v =? 7 then 0 else v).
  destruct ((d <? 0) || (6 <? d) || bool_decide (d ∈ seen)) eqn:Hd.
  - rewrite IH. split; intros (Hs & w & Hw & Hhw & E); (split; [done|]); exists w; [tauto|].
    destruct Hw as [->|Hw]; [|tauto]. exfalso. fold d in E. subst x.
    rewrite !orb_true_iff, bool_decide_eq_true in Hd. destruct Hd as [[?|?]|?]; [lia|lia|done].
  - rewrite !orb_false_iff, bool_decide_eq_false in Hd. destruct Hd as [[Hd1 Hd2] Hds].
    unfold ranges_have. cbn [existsb]. rewrite orb_true_iff, range_single by lia.
    fold (ranges_have (dow_loop f vs ({[d]} ∪ seen)) x). rewrite IH, Z.eqb_eq. split.
    + intros [->|(Hs & w & Hw & Hhw & E)]; [by split; [|exists v; auto]|].
      split; [set_solver|]. exists w. auto.
    + intros (Hs & w & Hw & Hhw & E). destruct (Z.eq_dec x d) as [->|Hne]; [by left|]. right.
      split; [set_solver|]. exists w. destruct Hw as [->|Hw]; [|auto]. by fold d in E.
Qed.

Lemma cronDayOfWeekRanges_has f force x :
  wf_field f 0 7 -> 0 <= x <= 6 ->
  ranges_have (cronDayOfWeekRanges f force) x = force || (Has f x || ((x =? 0) && Has f 7)).
Proof.
  intros (Hmn & Hmx & _) Hx. unfold cronDayOfWeekRanges.
  assert (ranges_have [{| Start := 0; End := 6; Step := 1 |}] x = true) as Hfull
    by (unfold ranges_have; simpl; rewrite range_full by lia; lia).
  destruct force; simpl; [done|]. destruct (any f) eqn:Ha; [unfold Has; by rewrite Hfull, Ha|].
  apply eq_iff_eq_true. rewrite dow_loop_has, orb_true_iff, andb_true_iff by done. split.
  - intros (_ & v & Hv & Hh & E). destruct (Z.eqb_spec v 7) as [->|Hne]; subst x; auto.
  - intros Hh. split; [set_solver|]. destruct Hh as [Hh|[->%Z.eqb_eq Hh]].
    + exists x. split; [apply in_field_values; lia|]. split; [done|].
      by rewrite (proj2 (Z.eqb_neq x 7)) by lia.
    + exists 7. split; [apply in_field_values; lia|]. done.
Qed.

(** C15. The in-process scheduler and Temporal agree on a schedule: for a parsed
    schedule, the calendar specifications handed to Temporal match a whole minute
    exactly when the schedule does, including the rule that day of month and day
    of week are alternatives when both are restricted. *)
Theorem cronCalendarSpecs_matches expr p t :
  parseCronSchedule expr = Ret p -> t mod Minute = 0 ->
  existsb (fun s => calendar_matches s t) (cronCalendarSpecs p) = matches p t.
Proof.
  intros (Hmi & Hho & Hdm & Hmo & Hdw)%parseCronSchedule_wf Ht.
  assert (unix t mod 60 = 0) as Hsec.
  { apply Z.mod_divide in Ht as [k ->]; [|done]. unfold unix, Minute.
    rewrite Z.mul_assoc, Z.div_mul by done. apply Z.mod_mul. done. }
  assert (forall d w, calendar_matches (calendar_spec p d w) t
    = Has (minute p) (t_Minute t) && Has (hour p) (t_Hour t) && ranges_have d (t_Day t)
      && Has (month p) (t_Month t) && ranges_have w (t_Weekday t)) as Hcal.
  { intros d w. unfold calendar_matches, calendar_spec. cbn [sp_Second sp_Minute sp_Hour DayOfMonth sp_Month DayOfWeek].
    rewrite Hsec. replace (ranges_have [single 0] 0) with true
      by (unfold ranges_have; simpl; by rewrite range_single).
    rewrite (cronFieldRanges_has _ _ _ _ _ Hmi) by (try done; apply t_Minute_bounds).
    rewrite (cronFieldRanges_has _ _ _ _ _ Hho) by (try done; apply t_Hour_bounds).
    rewrite (cronFieldRanges_has _ _ _ _ _ Hmo) by (try done; apply t_Month_bounds). done. }
  assert (forall force, ranges_have (cronFieldRanges (dom p) force) (t_Day t) = force || Has (dom p) (t_Day t)) as Hd
    by (intros force; apply (cronFieldRanges_has _ _ _ _ _ Hdm); [done|apply t_Day_bounds]).
  assert (forall force, ranges_have (cronDayOfWeekRanges (dow p) force) (t_Weekday t)
    = force || (Has (dow p) (t_Weekday t) || ((t_Weekday t =? 0) && Has (dow p) 7))) as Hw
    by (intros force; apply (cronDayOfWeekRanges_has _ _ _ Hdw), t_Weekday_bounds).
  unfold cronCalendarSpecs, matches. cbv zeta.
  set (b := (t_Weekday t =? 0) && Has (dow p) 7) in *. clearbody b.
  assert (any (dom p) = true -> Has (dom p) (t_Day t) = true) as Hda by (unfold Has; by intros ->).
  assert (any (dow p) = true -> Has (dow p) (t_Weekday t) = true) as Hwa by (unfold Has; by intros ->).
  destruct (any (dom p)) eqn:Ed, (any (dow p)) eqn:Ew; cbn [existsb orb]; rewrite !Hcal, !Hd, !Hw; cbn [orb].
  all: rewrite ?(Hda eq_refl), ?(Hwa eq_refl).
  all: destruct (Has (minute p) _), (Has (hour p) _), (Has (month p) _); cbn; try reflexivity.
  all: destruct (Has (dom p) _), (Has (dow p) _), b; reflexivity.
Qed.
End temporal.

(** ** The values of a field *)

(** [x] is one of the values [start], [start+step], ... up to [last]. *)
Definition in_progression (start last step x : Z) : Prop :=
  start <= x <= last /\ (x - start) mod step = 0.

Lemma in_progression_step start last step x :
  0 < step -> start <= last ->
  in_progression start last step x <-> x = start \/ in_progression (start + step) last step x.
Proof.
  intros Hs Hl. unfold in_progression.
  assert ((x - (start + step)) mod step = (x - start) mod step) as ->.
  { replace (x - start) with (x - (start + step) + 1 * step) by lia. by rewrite Z.mod_add by lia. }
  split.
  - intros [Hx Hm]. destruct (Z.eq_dec x start) as [->|Hne]; [by left|]. right. split; [|done].
    apply Z.mod_divide in Hm as [k Hk]; [|lia].
    assert (1 <= k) by nia. assert (1 * step <= k * step) by (apply Z.mul_le_mono_nonneg_r; lia). lia.
  - intros [->|[Hx Hm]]; [|split; [lia|done]]. rewrite Z.sub_diag. split; [lia|]. by rewrite Z.mod_0_l by lia.
Qed.

(** The slot of value [x] in the slice of a field that starts at [mn]. *)
Definition slot (vs : list bool) (mn x : Z) : Prop := vs !! Z.to_nat (x - mn) = Some true.

Lemma slot_set vs mn v x :
  mn <= v -> v - mn < Z.of_nat (length vs) -> mn <= x ->
  slot (<[Z.to_nat (v - mn) := true]> vs) mn x <-> slot vs mn x \/ x = v.
Proof.
  intros Hv Hl Hx. unfold slot. destruct (Z.eq_dec x v) as [->|Hne].
  - rewrite list_lookup_insert_eq by lia. tauto.
  - rewrite list_lookup_insert_ne by lia. split; [auto|]. intros [?|?]; [done|congruence].
Qed.

Abbreviation small n := (0 <= n < 2 ^ 31).

Lemma wrap_index v mn : 0 <= v < 2 ^ 63 -> small mn -> wrap_int 64 (v - mn) = v - mn.
Proof. intros. apply wrap_int_id; [done|]. change (2 ^ (64 - 1)) with (2 ^ 63). lia. Qed.

(** An addition that overflows leads to an index out of range. *)
Lemma overflow_index v mn len :
  2 ^ 63 <= v < 2 ^ 63 + 2 ^ 31 -> small mn -> len < 2 ^ 31 ->
  let i := wrap_int 64 (wrap_int 64 v - mn) in i < 0 \/ len <= i.
Proof.
  intros Hv Hmn Hlen. unfold wrap_int. change (64 - 1) with 63.
  assert ((v + 2 ^ 63) mod 2 ^ 64 = v + 2 ^ 63 - 2 ^ 64) as E.
  { symmetry. apply Z.mod_unique with (q := 1); lia. }
  cbv zeta. rewrite E.
  destruct (Z_lt_le_dec (v + 2 ^ 63 - 2 ^ 64 - 2 ^ 63 - mn) (- 2 ^ 63)).
  - right. replace ((_ + 2 ^ 63) mod 2 ^ 64) with (v + 2 ^ 63 - mn - 2 ^ 63 + 2 ^ 63)
      by (apply Z.mod_unique with (q := -1); lia). lia.
  - left. rewrite Z.mod_small by lia. lia.
Qed.

Lemma set_loop_spec n vs v last step mn vs' :
  small mn -> mn <= v < 2 ^ 63 -> 0 < step < 2 ^ 63 -> last < 2 ^ 31 ->
  last - mn < Z.of_nat (length vs) -> Z.of_nat (length vs) < 2 ^ 31 ->
  last - v + 2 <= Z.of_nat n -> (0 < n)%nat ->
  set_loop n vs v last step mn = Ret vs' ->
  forall x, mn <= x -> slot vs' mn x <-> slot vs mn x \/ in_progression v last step x.
Proof.
  intros Hmn Hv Hstep Hlast Hlen Hsmall Hn Hpos. revert vs v n Hv Hlen Hsmall Hn Hpos.
  intros vs v n. revert vs v. induction n as [|n IH]; intros vs v Hv Hlen Hsmall Hn Hpos E x Hx; [lia|].
  cbn [set_loop] in E. destruct (Z.ltb_spec last v) as [Hlt|Hge].
  { simplify_eq. split; [auto|]. intros [?|[? _]]; [done|lia]. }
  rewrite wrap_index in E by lia. destruct (_ || _) eqn:Hb; [done|].
  rewrite in_progression_step by lia.
  assert (slot vs mn x \/ x = v \/ in_progression (v + step) last step x
    <-> slot (<[Z.to_nat (v - mn) := true]> vs) mn x \/ in_progression (v + step) last step x) as ->
    by (rewrite slot_set by lia; tauto).
  destruct (Z_lt_le_dec (v + step) (2 ^ 63)) as [Hno|Hov].
  - rewrite (wrap_int_id 64 (v + step)) in E by (try done; change (2 ^ (64 - 1)) with (2 ^ 63); lia).
    destruct n as [|n].
    { cbn [set_loop] in E. simplify_eq. split; [auto|]. intros [?|[? _]]; [done|lia]. }
    eapply IH; try done; rewrite ?length_insert; try lia.
  - destruct n as [|n]; [lia|]. exfalso. cbn [set_loop] in E.
    assert (wrap_int 64 (v + step) < 0) as Hneg.
    { unfold wrap_int. change (64 - 1) with 63.
      replace ((v + step + 2 ^ 63) mod 2 ^ 64) with (v + step + 2 ^ 63 - 2 ^ 64)
        by (apply Z.mod_unique with (q := 1); lia). lia. }
    destruct (Z.ltb_spec last (wrap_int 64 (v + step))); [lia|].
    pose proof (overflow_index (v + step) mn (Z.of_nat (length vs)) ltac:(lia) Hmn Hsmall) as Hi.
    cbv zeta in Hi, E. rewrite length_insert in E. set (i := wrap_int 64 (wrap_int 64 (v + step) - mn)) in *.
    destruct (Z.ltb_spec i 0); [done|]. destruct (Z.leb_spec (Z.of_nat (length vs)) i); [done|]. lia.
Qed.

Lemma splitCronStep_bounds part base step : splitCronStep part = Ret (base, step) -> 0 < step < 2 ^ 63.
Proof.
  unfold splitCronStep. destruct (negb _); [intros [= _ <-]; lia|].
  destruct (Strings.Cut part "/") as [[b e] ok]. destruct (_ || _); [done|].
  destruct (Strconv.Atoi e) as [st|err|m] eqn:E; [|done..]. apply Strconv.Atoi_bounds in E.
  destruct (Z.leb_spec st 0); [done|]. intros [= _ <-]. lia.
Qed.

Lemma part_range_bounds part mn mx names s l st :
  part_range part mn mx names = Ret (s, l, st) -> mn <= s <= l /\ l <= mx /\ 0 < st < 2 ^ 63.
Proof.
  unfold part_range. cbv zeta. destruct (String.eqb _ ""); [done|].
  destruct (splitCronStep _) as [[base step]|e|m] eqn:Es; [|done..].
  apply splitCronStep_bounds in Es. unfold mbind, outcome_bind.
  destruct (if String.eqb base "*" then _ else _) as [[s' l']|e|m]; [|done..].
  destruct (_ || _ || _) eqn:Hb; [done|]. intros [= <- <- <-]. lia.
Qed.

(** The values the parts of a field select. *)
Definition selected (parts : list string) (mn mx : Z) (names : list (string * Z)) (x : Z) : Prop :=
  exists part s l st, part ∈ parts /\ part_range part mn mx names = Ret (s, l, st)
    /\ in_progression s l st x.

Lemma parse_parts_spec parts vs mn mx names vs' :
  small mn -> mn <= mx < 2 ^ 31 - 1 -> Z.of_nat (length vs) = mx - mn + 1 ->
  parse_parts parts vs mn mx names = Ret vs' ->
  forall x, mn <= x -> slot vs' mn x <-> slot vs mn x \/ selected parts mn mx names x.
Proof.
  intros Hmn Hmx. revert vs. induction parts as [|part parts IH]; intros vs Hlen E x Hx; cbn [parse_parts] in E.
  { simplify_eq. split; [auto|]. intros [?|(? & ? & ? & ? & ?%elem_of_nil & _)]; done. }
  unfold mbind, outcome_bind in E.
  destruct (part_range part mn mx names) as [[[s l] st]|e|m] eqn:Ep; [|done..].
  destruct (set_loop _ _ _ _ _ _) as [vs1|e|m] eqn:Es; [|done..].
  pose proof (part_range_bounds _ _ _ _ _ _ _ Ep) as (Hs & Hl & Hst).
  pose proof (set_loop_length _ _ _ _ _ _ _ Es) as Hlen1.
  rewrite (IH vs1 ltac:(congruence) E x Hx).
  assert (l - s + 2 <= Z.of_nat (range_fuel s l)) as Hfuel by (unfold range_fuel; lia).
  rewrite (set_loop_spec (range_fuel s l) vs s l st mn vs1 Hmn ltac:(lia) Hst ltac:(lia) ltac:(lia)
             ltac:(lia) Hfuel ltac:(lia) Es x Hx).
  unfold selected. split.
  - intros [[?|Hp]|(q & a & b & c & Hq & ? & ?)]; [by left| |]; right.
    + exists part, s, l, st. split; [by left|done].
    + exists q, a, b, c. split; [by right|done].
  - intros [?|(q & a & b & c & Hq & Er & Hp)]; [by left; left|].
    apply elem_of_cons in Hq as [->|Hq]; [|right; by exists q, a, b, c].
    left. right. rewrite Ep in Er. by simplify_eq.
Qed.

(** A parsed field has exactly the values its text selects: for a field that
    is not a bare star, value [x] is set exactly when some comma-separated part
    denotes a range with a step that contains it. *)
Theorem parseCronField_values expr mn mx names f x :
  small mn -> mn <= mx < 2 ^ 31 - 1 ->
  parseCronField expr mn mx names = Ret f -> any f = false ->
  Has f x = true <-> mn <= x <= mx /\ selected (Strings.Split expr ",") mn mx names x.
Proof.
  intros Hmn Hmx Hf Ha. pose proof (parseCronField_wf _ _ _ _ _ Hf) as (Em & Ex & Hlen).
  unfold parseCronField in Hf. destruct (String.eqb expr "*"); [injection Hf as <-; discriminate Ha|].
  unfold mbind, outcome_bind in Hf. destruct (parse_parts _ _ _ _ _) as [vs|e|m] eqn:E; [|done..].
  destruct (existsb _ vs); [|done]. injection Hf as <-. cbn [any min max values] in *.
  assert (Z.of_nat (length (values (newCronField mn mx))) = mx - mn + 1) as Hl0
    by (cbn [values newCronField]; rewrite length_replicate; lia).
  pose proof (parse_parts_spec _ _ _ _ _ _ Hmn Hmx Hl0 E x) as Hspec.
  unfold Has. cbn [any min max values].
  destruct (Z.ltb_spec x mn) as [?|Hge]; [cbn [orb]; split; [done|lia]|].
  destruct (Z.ltb_spec mx x) as [?|Hle]; [cbn [orb]; split; [done|lia]|]. cbn [orb].
  assert (default false (vs !! Z.to_nat (x - mn)) = true <-> slot vs mn x) as ->.
  { unfold slot. destruct (vs !! Z.to_nat (x - mn)) as [[]|]; by split. }
  rewrite Hspec by done.
  assert (~ slot (values (newCronField mn mx)) mn x) as Hno.
  { unfold slot. cbn [values newCronField]. rewrite lookup_replicate. by intros [? _]. }
  tauto.
Qed.

(** A step that overflows crashes the parser: when the first part of a field
    starts at [s] and its step [st] takes [s + st] past the largest [int], parsing
    panics with an index out of range instead of reporting an error. *)
Theorem parseCronField_step_panics expr mn mx names part rest s l st :
  small mn -> mn <= mx < 2 ^ 31 - 1 -> expr <> "*" ->
  Strings.Split expr "," = part :: rest ->
  part_range part mn mx names = Ret (s, l, st) -> 2 ^ 63 <= s + st ->
  panics (parseCronField expr mn mx names) = true.
Proof.
  intros Hmn Hmx Hstar Hsplit Hp Hov. pose proof (part_range_bounds _ _ _ _ _ _ _ Hp) as (Hs & Hl & Hst).
  unfold parseCronField. rewrite (proj2 (String.eqb_neq _ _) Hstar), Hsplit. cbn [parse_parts].
  rewrite Hp. unfold mbind, outcome_bind.
  set (vs := values (newCronField mn mx)).
  assert (Z.of_nat (length vs) = mx - mn + 1) as Hlen by (subst vs; cbn [values newCronField]; rewrite length_replicate; lia).
  clearbody vs.
  enough (exists m, set_loop (range_fuel s l) vs s l st mn = Panic m) as [m ->] by done.
  unfold range_fuel. replace (Z.to_nat (l - s + 2)) with (S (S (Z.to_nat (l - s)))) by lia. cbn [set_loop].
  destruct (Z.ltb_spec l s); [lia|]. rewrite wrap_index by lia.
  destruct (Z.ltb_spec (s - mn) 0); [lia|]. destruct (Z.leb_spec (Z.of_nat (length vs)) (s - mn)); [lia|]. cbn [orb].
  assert (wrap_int 64 (s + st) < 0) as Hneg.
  { unfold wrap_int. change (64 - 1) with 63.
    replace ((s + st + 2 ^ 63) mod 2 ^ 64) with (s + st + 2 ^ 63 - 2 ^ 64)
      by (apply Z.mod_unique with (q := 1); lia). lia. }
  destruct (Z.ltb_spec l (wrap_int 64 (s + st))); [lia|]. rewrite length_insert.
  pose proof (overflow_index (s + st) mn (Z.of_nat (length vs)) ltac:(lia) Hmn ltac:(lia)) as Hi.
  cbv zeta in Hi. set (i := wrap_int 64 (wrap_int 64 (s + st) - mn)) in *.
  destruct (Z.ltb_spec i 0); [by eexists|]. destruct (Z.leb_spec (Z.of_nat (length vs)) i); [by eexists|]. lia.
Qed.

(** ** Registration: [RegisterCronJob] panics on an invalid or duplicate job *)
Definition RegisterCronJob (jobs : gmap string CronJob) (job : CronJob) : outcome unit (gmap string CronJob) :=
  match validateCronJob job with
  | Ret job =>
    if bool_decide (is_Some (jobs !! ID job)) then Panic "runtime: duplicate cron job registration"
    else Ret (<[ID job := job]> jobs)
  | Fail _ => Panic "runtime: invalid cron job"
  | Panic msg => Panic msg
  end.
End parse.
(** ** The theorems at concrete jobs *)
#[local] Existing Instance ascii_tables.

Definition demo_job (every : Z) (schedule : string) : CronJob :=
  {| ID := "sync-1"; Title := ""; Every := every; Schedule := schedule; OverlapPolicy := " Skip";
     CatchupWindow := 0; PauseOnFailure := false; ActivityStartToClose := 0;
     ActivityRetryPolicy := {| InitialInterval := 0; BackoffCoefficient := 0; MaximumInterval := 0;
                               MaximumAttempts := 0; NonRetryableErrorTypes := [] |};
     Invoke := true; plan := None |}.

Lemma every_job_Next_witness :
  exists p t, Some (EveryPlan (15 * Minute)) = Some p /\ plan_Next p (1000 * Second) = Ret (Some t)
    /\ 1000 * Second < t <= 1000 * Second + 15 * Minute /\ t mod (15 * Minute) = 0
    /\ (24 * Hour) mod (15 * Minute) = 0.
Proof.
  apply (every_job_Next (demo_job (15 * Minute) "")
           (with_plan (demo_job (15 * Minute) "") (EveryPlan (15 * Minute))) (1000 * Second));
    [reflexivity|reflexivity|split; [discriminate|reflexivity]].
Defined.

(** The documented meaning of a Temporal schedule range. *)
Definition demo_range (r : TemporalCronScheduleRange) (x : Z) : bool :=
  let last := if End r <? Start r then Start r else if End r =? 0 then Start r else End r in
  let step := if Step r =? 0 then 1 else Step r in
  (Start r <=? x) && (x <=? last) && ((x - Start r) mod step =? 0).

Lemma demo_range_single v x : 0 <= v -> demo_range (single v) x = (x =? v).
Proof.
  intros Hv. unfold demo_range, single. cbn [Start End Step Z.eqb]. rewrite Z.mod_1_r.
  destruct (Z.ltb_spec 0 v); lia.
Qed.

Lemma demo_range_full a b x :
  0 <= a < b -> demo_range {| Start := a; End := b; Step := 1 |} x = (a <=? x) && (x <=? b).
Proof.
  intros Hab. unfold demo_range. cbn [Start End Step Z.eqb]. rewrite Z.mod_1_r.
  destruct (Z.ltb_spec b a); [lia|]. destruct (Z.eqb_spec b 0); lia.
Qed.
Definition demo_plan : parsedCronPlan :=
  match parseCronSchedule "*/15 9-17 1 * MON-FRI" with
  | Ret p => p
  | _ => {| minute := newCronField 0 0; hour := newCronField 0 0; dom := newCronField 0 0;
            month := newCronField 0 0; dow := newCronField 0 0 |}
  end.

(** 2024-02-29 (a Thursday) at 12:45. *)
Lemma cronCalendarSpecs_matches_witness :
  existsb (fun s => calendar_matches demo_range s (1709210700 * Second)) (cronCalendarSpecs demo_plan) = true.
Proof.
  rewrite (cronCalendarSpecs_matches demo_range demo_range_single demo_range_full
             "*/15 9-17 1 * MON-FRI" demo_plan (1709210700 * Second)); vm_compute; reflexivity.
Defined.

Definition demo_minutes : cronField :=
  match parseCronField "5,10-30/10" 0 59 [] with Ret f => f | _ => newCronField 0 0 end.

Lemma parseCronField_values_witness :
  0 <= 20 <= 59 /\ selected ["5"; "10-30/10"] 0 59 [] 20.
Proof.
  apply (parseCronField_values "5,10-30/10" 0 59 [] demo_minutes 20);
    [split; [discriminate|reflexivity]..|vm_compute; reflexivity|vm_compute; reflexivity|vm_compute; reflexivity].
Defined.

Lemma parseCronField_step_panics_witness :
  panics (parseCronField "*/9223372036854775807" 1 31 []) = true.
Proof.
  apply (parseCronField_step_panics "*/9223372036854775807" 1 31 [] "*/9223372036854775807" []
           1 31 9223372036854775807);
    [split; [discriminate|reflexivity]..|discriminate|vm_compute; reflexivity|vm_compute; reflexivity|vm_compute; discriminate].
Defined.
End Cron.
