(* ===== verification/AgentSession.v ===== *)
(** * Sessions and owners of the agent ([internal/agent/session.go], [owner.go], [types.go])

    [Agent] holds the data the agent keeps about development sessions and the
    functions that build a session from a registration request.  What the
    operating system, git, the clock and SHA-256 answer is an argument, the
    class [World]; the order in which Go iterates over a map is part of it.  A
    nil map and an empty map are both [∅]; the zero time is 0. *)
From stdpp Require Import base tactics list gmap strings.
From Stdlib Require Import ZArith Lia Ascii.
From S2P Require Import Prelude GoStrings.

(** What [processOwnerInfo] reports about a process. *)
Record process_info := { info_StartedAt : string; info_Exe : string; info_Cmdline : list string }.

Class World := {
  processOwnerInfo : Z -> process_info;
  getpid : Z;
  executable : option string;
  args : list string;
  git_branch : string -> string;
  cwd : string;
  sha256_hex : string -> string;
  now : Z;
  iterate : forall A, gmap string A -> list (string * A)
}.
Arguments iterate {_ A} _.

(** Go visits every entry of a map exactly once. *)
Class MapOrder (W : World) : Prop :=
  iterate_perm : forall A (m : gmap string A), iterate m ≡ₚ map_to_list m.

Module Agent.
Definition SessionSchemaVersion : string := "scenery.dev.session.v1".
Definition SubstrateSchemaVersion : string := "scenery.dev.substrate.v1".
Definition RouteAPI : string := "api".
Definition RouteDashboard : string := "dashboard".
Definition RouteGrafana : string := "grafana".
Definition RouteTemporal : string := "temporal".
Definition DefaultRouteBaseDomain : string := "local.dev".

Record Backend := { Network : string; Addr : string }.

Record Owner := {
  PID : Z;
  StartedAt : string;
  Exe : string;
  CmdlineHash : string;
  AgentPID : Z;
  CreatedBy : string;
  RecordedAt : Z
}.

Definition no_owner : Owner :=
  {| PID := 0; StartedAt := ""; Exe := ""; CmdlineHash := ""; AgentPID := 0; CreatedBy := ""; RecordedAt := 0 |}.

Definition set_PID (o : Owner) (pid : Z) : Owner :=
  {| PID := pid; StartedAt := StartedAt o; Exe := Exe o; CmdlineHash := CmdlineHash o;
     AgentPID := AgentPID o; CreatedBy := CreatedBy o; RecordedAt := RecordedAt o |}.

Record Process := { proc_PID : Z; proc_Owner : Owner }.

Record RouteNamespace := { Workspace : string; BaseDomain : string; Hosts : gmap string string }.

Record AliasLease := {
  al_Host : string;
  al_Route : string;
  al_SessionID : string;
  al_AppRoot : string;
  al_OwnerPID : Z;
  al_Owner : Owner;
  al_URL : string;
  al_CreatedAt : Z;
  al_UpdatedAt : Z
}.

Record Session := {
  SchemaVersion : string;
  SessionID : string;
  BaseAppID : string;
  RuntimeAppID : string;
  Namespace : RouteNamespace;
  AppRoot : string;
  StateRoot : string;
  Branch : string;
  Status : string;
  StatusReason : string;
  OwnerPID : Z;
  SessionOwner : Owner;
  AppPID : string;
  Processes : gmap string Process;
  Routes : gmap string string;
  Aliases : gmap string string;
  AliasConflicts : gmap string AliasLease;
  Backends : gmap string Backend;
  ReportToken : string;
  CreatedAt : Z;
  UpdatedAt : Z
}.

Definition set_aliases (s : Session) (als : gmap string string) (cs : gmap string AliasLease) : Session :=
  {| SchemaVersion := SchemaVersion s; SessionID := SessionID s; BaseAppID := BaseAppID s;
     RuntimeAppID := RuntimeAppID s; Namespace := Namespace s; AppRoot := AppRoot s;
     StateRoot := StateRoot s; Branch := Branch s; Status := Status s;
     StatusReason := StatusReason s; OwnerPID := OwnerPID s;
     SessionOwner := SessionOwner s; AppPID := AppPID s; Processes := Processes s; Routes := Routes s;
     Aliases := als; AliasConflicts := cs; Backends := Backends s; ReportToken := ReportToken s;
     CreatedAt := CreatedAt s; UpdatedAt := UpdatedAt s |}.

Record RegisterRequest := {
  req_BaseAppID : string;
  req_AppRoot : string;
  req_SessionID : string;
  req_Branch : string;
  req_Status : string;
  req_OwnerPID : Z;
  req_Owner : Owner;
  req_AppPID : string;
  req_Processes : gmap string Process;
  req_Backends : gmap string Backend;
  req_Namespace : RouteNamespace;
  req_ReportToken : string;
  ClaimOwner : bool;
  ClaimAliases : bool
}.

Inductive agent_error :=
| InvalidSessionID (v : string) | EmptyAppRoot | EmptyBaseAppID | BelongsToAppRoot (id root : string)
| SessionRunning (id root : string) (pid : Z) | AppRootRunning (root : string) (pid : Z)
| EmptySubstrateKind | IOFailure (msg : string).

Fixpoint firstPositive (values : list Z) : Z :=
  match values with
  | [] => 0
  | v :: values' => if 0 <? v then v else firstPositive values'
  end.

Fixpoint firstNonEmpty (values : list string) : string :=
  match values with
  | [] => ""
  | v :: values' => if negb (String.eqb (Strings.TrimSpace v) "") then Strings.TrimSpace v else firstNonEmpty values'
  end.

(** ** Labels and hosts *)
Section labels.
Context {UT : UnicodeTables}.

(** The loop of [sanitizeLabel] over the runes, with the text written so far. *)
Fixpoint sanitize_loop (rs : list Z) (b : string) (dash : bool) : string :=
  match rs with
  | [] => b
  | r :: rs' =>
    if Unicode.IsLetter r || Unicode.IsDigit r then sanitize_loop rs' (b +:+ Utf8.encode_rune r) false
    else if (r =? 45) || (r =? 95) || (r =? 47) || (r =? 46) || Unicode.IsSpace r then
      if negb dash && negb (String.eqb b "") then sanitize_loop rs' (b +:+ "-") true
      else sanitize_loop rs' b dash
    else sanitize_loop rs' b dash
  end.

Definition sanitizeLabel (v : string) : string :=
  let v := Strings.ToLower (Strings.TrimSpace v) in
  Strings.Trim (sanitize_loop (Utf8.runes v) "" false) "-".

Definition NormalizeSessionID (v : string) : outcome agent_error string :=
  let id := sanitizeLabel v in
  if negb (String.eqb (Strings.TrimSpace v) "") && String.eqb id "" then Fail (InvalidSessionID v)
  else Ret id.

Definition bracket (c : ascii) : bool := Ascii.eqb c "[" || Ascii.eqb c "]".

Definition normalizeRouteHost (v : string) : string :=
  let v := Strings.ToLower (Strings.TrimSpace v) in
  if String.eqb v "" then ""
  else
    let v := match Strings.cut_opt v "://" with Some (_, rest) => rest | None => v end in
    let v := match Strings.cut_opt v "/" with Some (host, _) => host | None => v end in
    let v := match Net.SplitHostPort v with Some (host, _) => host | None => v end in
    Strings.TrimSet bracket v.

Definition insertSessionIntoHost (host sessionID : string) : string :=
  let host := normalizeRouteHost host in
  let sessionID := sanitizeLabel sessionID in
  if String.eqb host "" || String.eqb sessionID "" then host
  else match Strings.Split host "." with
  | first :: ((_ :: _) as rest) => Strings.Join (first :: sessionID :: rest) "."
  | _ => host
  end.

Definition sessionRouteHost (route sessionID : string) (ns : RouteNamespace) : string :=
  let route := sanitizeLabel route in
  let sessionID := sanitizeLabel sessionID in
  if String.eqb route "" || String.eqb sessionID "" then ""
  else
    let host := default "" (Hosts ns !! route) in
    if negb (String.eqb host "") then insertSessionIntoHost host sessionID
    else
      let baseDomain := normalizeRouteHost (BaseDomain ns) in
      let baseDomain := if String.eqb baseDomain "" then DefaultRouteBaseDomain else baseDomain in
      route +:+ "." +:+ sessionID +:+ "." +:+ baseDomain.

Definition routeURL (scheme host routerAddr path : string) : string :=
  let scheme := Strings.TrimSpace scheme in
  let scheme := if String.eqb scheme "" then "http" else scheme in
  let port := match Net.SplitHostPort routerAddr with Some (_, p) => p | None => "" end in
  let defaultPort := if String.eqb scheme "https" then "443" else "80" in
  let host := if negb (String.eqb port "") && negb (String.eqb port defaultPort)
              then host +:+ ":" +:+ port else host in
  let path := if String.eqb path "" then "/" else path in
  scheme +:+ "://" +:+ host +:+ path.

Definition routeNamespaceEmpty (ns : RouteNamespace) : bool :=
  String.eqb (Strings.TrimSpace (Workspace ns)) "" && String.eqb (Strings.TrimSpace (BaseDomain ns)) ""
  && bool_decide (Hosts ns = ∅).

(** The digits of a process id, added up in an [int]. *)
Fixpoint pid_loop (rs : list Z) (pid : Z) : Z :=
  match rs with
  | [] => pid
  | r :: rs' => if (r <? 48) || (57 <? r) then 0 else pid_loop rs' (wrap_int 64 (pid * 10 + (r - 48)))
  end.

Definition parseProcessPID (v : string) : Z :=
  let v := Strings.TrimSpace v in
  if String.eqb v "" then 0 else pid_loop (Utf8.runes v) 0.
End labels.

Section session.
Context {UT : UnicodeTables} {W : World}.

(** A map built by visiting the entries of [m]: [f] gives the entry to set. *)
Definition rebuild {A B} (f : string -> A -> option (string * B)) (m : gmap string A) : gmap string B :=
  fold_left (fun out '(k, v) => match f k v with Some (k', v') => <[k' := v']> out | None => out end)
    (iterate m) ∅.

Definition copyBackends (m : gmap string Backend) : gmap string Backend :=
  rebuild (fun key b =>
    let key := sanitizeLabel key in
    let network := Strings.TrimSpace (Network b) in
    let network := if String.eqb network "" then "tcp" else network in
    let addr := Strings.TrimSpace (Addr b) in
    if String.eqb key "" || String.eqb addr "" then None
    else Some (key, {| Network := network; Addr := addr |})) m.

Definition copyRouteHosts (m : gmap string string) : gmap string string :=
  rebuild (fun key host =>
    let key := sanitizeLabel key in
    let host := normalizeRouteHost host in
    if String.eqb key "" || String.eqb host "" then None else Some (key, host)) m.

Definition normalizeRouteNamespace (ns : RouteNamespace) (baseAppID : string) : RouteNamespace :=
  let workspace := sanitizeLabel (Workspace ns) in
  let baseDomain := normalizeRouteHost (BaseDomain ns) in
  let hosts := copyRouteHosts (Hosts ns) in
  if String.eqb baseDomain "" then
    let fallback := sanitizeLabel baseAppID in
    {| Workspace := if negb (String.eqb fallback "") && String.eqb workspace "" && bool_decide (hosts = ∅)
                    then fallback else workspace;
       BaseDomain := DefaultRouteBaseDomain; Hosts := hosts |}
  else {| Workspace := workspace; BaseDomain := baseDomain; Hosts := hosts |}.

Definition SessionID_of (appRoot branch : string) : string :=
  let label := sanitizeLabel branch in
  let label := if String.eqb label "" then sanitizeLabel (Filepath.Base appRoot) else label in
  let label := if String.eqb label "" then "session" else label in
  let suffix := Strings.stake 6 (sha256_hex (Filepath.Clean appRoot)) in
  let label := if Nat.ltb 48 (String.length label) then Strings.Trim (Strings.stake 48 label) "-" else label in
  label +:+ "-" +:+ suffix.

(** ** Owners *)
Fixpoint join_nul (l : list string) : string :=
  match l with
  | [] => ""
  | [x] => x
  | x :: l' => x +:+ String Ascii.zero (join_nul l')
  end.

Definition hashCmdline (l : list string) : string := "sha256:" +:+ sha256_hex (join_nul l).

Definition CaptureOwner (pid : Z) (createdBy : string) : Owner :=
  if pid <=? 0 then no_owner
  else
    let info := processOwnerInfo pid in
    let exe := Strings.TrimSpace (info_Exe info) in
    let hash := match info_Cmdline info with [] => "" | l => hashCmdline l end in
    let self := pid =? getpid in
    {| PID := pid;
       StartedAt := Strings.TrimSpace (info_StartedAt info);
       Exe := if self && String.eqb exe "" then default "" executable else exe;
       CmdlineHash := if self && String.eqb hash "" then hashCmdline args else hash;
       AgentPID := getpid;
       CreatedBy := Strings.TrimSpace createdBy;
       RecordedAt := now |}.

Definition OwnerFromRequest (pid : Z) (owner : Owner) (createdBy : string) : Owner :=
  let owner := if (0 <? pid) && (0 <? PID owner) && negb (PID owner =? pid) then no_owner else owner in
  let owner := if PID owner <=? 0 then set_PID owner pid else owner in
  if PID owner <=? 0 then no_owner
  else
    let blank := String.eqb (StartedAt owner) "" && String.eqb (Exe owner) "" && String.eqb (CmdlineHash owner) "" in
    let captured := CaptureOwner (PID owner) (firstNonEmpty [CreatedBy owner; createdBy]) in
    let use := blank && (0 <? PID captured) in
    let agentPID := if use && (AgentPID owner =? 0) then AgentPID captured else AgentPID owner in
    let recordedAt := if use && (RecordedAt owner =? 0) then RecordedAt captured else RecordedAt owner in
    {| PID := PID owner;
       StartedAt := if use then StartedAt captured else StartedAt owner;
       Exe := if use then Exe captured else Exe owner;
       CmdlineHash := if use then CmdlineHash captured else CmdlineHash owner;
       AgentPID := if agentPID =? 0 then getpid else agentPID;
       CreatedBy := if String.eqb (CreatedBy owner) "" then Strings.TrimSpace createdBy else CreatedBy owner;
       RecordedAt := if recordedAt =? 0 then now else recordedAt |}.

Definition sameOwnerExe (a b : string) : bool :=
  let a := Filepath.Clean (Strings.TrimSpace a) in
  let b := Filepath.Clean (Strings.TrimSpace b) in
  String.eqb a b || String.eqb (Filepath.Base a) (Filepath.Base b).

(** [VerifyOwner(owner) == nil]. *)
Definition VerifyOwner (owner : Owner) : bool :=
  if PID owner <=? 0 then false
  else
    let live := CaptureOwner (PID owner) "" in
    if PID live <=? 0 then false
    else if String.eqb (StartedAt live) "" && String.eqb (CmdlineHash live) "" && String.eqb (Exe live) "" then false
    else if negb (String.eqb (StartedAt owner) "") && negb (String.eqb (StartedAt live) "")
            && negb (String.eqb (StartedAt owner) (StartedAt live)) then false
    else if negb (String.eqb (CmdlineHash owner) "") && negb (String.eqb (CmdlineHash live) "")
            && negb (String.eqb (CmdlineHash owner) (CmdlineHash live)) then false
    else if negb (String.eqb (Exe owner) "") && negb (String.eqb (Exe live) "")
            && negb (sameOwnerExe (Exe owner) (Exe live)) then false
    else negb (String.eqb (StartedAt owner) "" && String.eqb (CmdlineHash owner) "" && String.eqb (Exe owner) "").

Definition ownerForSignal (pid : Z) (owner : Owner) : option Owner :=
  let owner := if (0 <? pid) && (0 <? PID owner) && negb (PID owner =? pid) then no_owner else owner in
  let owner := if PID owner <=? 0 then set_PID owner pid else owner in
  if PID owner <=? 0 then None else if VerifyOwner owner then Some owner else None.

(** ** Building a session *)
Definition copyProcesses (m : gmap string Process) : gmap string Process :=
  rebuild (fun key p =>
    let key := sanitizeLabel key in
    if String.eqb key "" || (proc_PID p <=? 0) then None else Some (key, p)) m.

Definition processesForSession (requested existing : gmap string Process) : gmap string Process :=
  if bool_decide (requested = ∅) then copyProcesses existing
  else map_imap (fun name p =>
    if proc_PID p <=? 0 then None
    else
      let owner := match existing !! name with
                   | Some e => if (proc_PID e =? proc_PID p) && (PID (proc_Owner p) =? 0)
                               then proc_Owner e else proc_Owner p
                   | None => proc_Owner p
                   end in
      Some {| proc_PID := proc_PID p;
              proc_Owner := OwnerFromRequest (proc_PID p) owner ("scenery up " +:+ name) |})
    (copyProcesses requested).

Definition routesForSession (sessionID routerAddr routerScheme : string) (backends : gmap string Backend)
    (ns : RouteNamespace) : gmap string string :=
  let url kind := routeURL routerScheme (sessionRouteHost kind sessionID ns) routerAddr "" in
  let routes := if bool_decide (is_Some (backends !! RouteAPI)) then <[RouteAPI := url RouteAPI]> ∅ else ∅ in
  let routes := <[RouteDashboard := url "console"]> routes in
  fold_left (fun routes '(kind, _) =>
    if String.eqb kind RouteAPI || String.eqb kind RouteDashboard then routes
    else <[kind := url kind]> routes) (iterate backends) routes.

Definition NewSession (req : RegisterRequest) (routerAddr routerScheme : string) (existing : option Session)
  : outcome agent_error Session :=
  let appRoot := Filepath.Abs cwd (Strings.TrimSpace (req_AppRoot req)) in
  if String.eqb appRoot "" then Fail EmptyAppRoot
  else
    let baseAppID := Strings.TrimSpace (req_BaseAppID req) in
    if String.eqb baseAppID "" then Fail EmptyBaseAppID
    else
      requested ← NormalizeSessionID (req_SessionID req);
      let branch := Strings.TrimSpace (req_Branch req) in
      let branch := match existing with
                    | Some e => if String.eqb branch "" && negb (String.eqb requested "")
                                   && String.eqb (SessionID e) requested then Branch e else branch
                    | None => branch
                    end in
      let branch := if String.eqb branch "" then git_branch appRoot else branch in
      let sessionID := if String.eqb requested "" then SessionID_of appRoot branch else requested in
      if match existing with Some e => negb (String.eqb (Filepath.Clean (AppRoot e)) appRoot) | None => false end
      then Fail (BelongsToAppRoot sessionID (match existing with Some e => AppRoot e | None => "" end))
      else
        let createdAt := match existing with
                         | Some e => if CreatedAt e =? 0 then now else CreatedAt e | None => now end in
        let status := Strings.TrimSpace (req_Status req) in
        let token := Strings.TrimSpace (req_ReportToken req) in
        let ownerPID := match existing with
                        | Some e => if req_OwnerPID req =? 0 then OwnerPID e else req_OwnerPID req
                        | None => req_OwnerPID req end in
        let owner := match existing with
                     | Some e =>
                       if (PID (req_Owner req) =? 0) && (0 <? PID (SessionOwner e))
                          && ((ownerPID =? 0) || (ownerPID =? PID (SessionOwner e)) || (ownerPID =? OwnerPID e))
                       then SessionOwner e else req_Owner req
                     | None => req_Owner req end in
        let owner := OwnerFromRequest ownerPID owner "scenery up" in
        let processes := processesForSession (req_Processes req)
                           (match existing with Some e => Processes e | None => ∅ end) in
        let processes :=
          if negb (String.eqb (Strings.TrimSpace (req_AppPID req)) "") then
            let pid := parseProcessPID (req_AppPID req) in
            if 0 <? pid then
              let p := match processes !! RouteAPI with
                       | Some p => if proc_PID p =? pid then p else {| proc_PID := pid; proc_Owner := no_owner |}
                       | None => {| proc_PID := pid; proc_Owner := no_owner |} end in
              <[RouteAPI := {| proc_PID := proc_PID p;
                               proc_Owner := OwnerFromRequest pid (proc_Owner p) "scenery up api" |}]> processes
            else processes
          else processes in
        let backends := copyBackends (req_Backends req) in
        let ns := match existing with
                  | Some e => if routeNamespaceEmpty (req_Namespace req) && negb (routeNamespaceEmpty (Namespace e))
                              then Namespace e else normalizeRouteNamespace (req_Namespace req) baseAppID
                  | None => normalizeRouteNamespace (req_Namespace req) baseAppID end in
        Ret {| SchemaVersion := SessionSchemaVersion;
               SessionID := sessionID;
               BaseAppID := baseAppID;
               RuntimeAppID := baseAppID +:+ "--" +:+ sessionID;
               Namespace := ns;
               AppRoot := appRoot;
               StateRoot := Filepath.Join [appRoot; ".scenery"; "sessions"; sessionID];
               Branch := branch;
               Status := if String.eqb status "" then "registered" else status;
               StatusReason := "";
               OwnerPID := ownerPID;
               SessionOwner := owner;
               AppPID := Strings.TrimSpace (req_AppPID req);
               Processes := processes;
               Routes := routesForSession sessionID routerAddr routerScheme backends ns;
               Aliases := ∅;
               AliasConflicts := ∅;
               Backends := backends;
               ReportToken := match existing with
                              | Some e => if String.eqb token "" then ReportToken e else token
                              | None => token end;
               CreatedAt := createdAt;
               UpdatedAt := now |}.
End session.
End Agent.
