(* ===== verification/AgentRegistry.v ===== *)
(** * The session registry of the agent ([internal/agent/registry.go])

    [Registry] is the state the agent keeps: sessions, substrates, alias leases,
    the index from hosts to routes and the current session of every app root.
    Every operation takes the state and returns a result and the next state; the
    mutex makes operations atomic.  [save] and [manifest] are what writing the
    registry file and the session manifest answer ([None] is success). *)
From stdpp Require Import base tactics list gmap strings sorting.
From Stdlib Require Import ZArith Lia Ascii.
From S2P Require Import Prelude GoStrings AgentSession.

Module Registry.
Import Agent.

Record routeTarget := { rt_SessionID : string; rt_Route : string }.

Record SubstrateExit := {
  Component : string;
  exit_PID : Z;
  exit_StartedAt : Z;
  ExitedAt : Z;
  ExitCode : Z;
  Signal : string;
  ExitError : string;
  LogPath : string;
  StdoutLogPath : string;
  StderrLogPath : string
}.

Record Substrate := {
  sub_SchemaVersion : string;
  sub_Kind : string;
  sub_Status : string;
  sub_OwnerPID : Z;
  sub_Owner : Owner;
  PIDs : gmap string Z;
  Owners : gmap string Owner;
  URLs : gmap string string;
  Endpoints : gmap string string;
  LastExit : option SubstrateExit;
  ComponentExits : gmap string SubstrateExit;
  sub_CreatedAt : Z;
  sub_UpdatedAt : Z
}.

Record Registry := {
  router : string;
  scheme : string;
  sessions : gmap string Session;
  substrates : gmap string Substrate;
  aliases : gmap string AliasLease;
  routeHosts : gmap string routeTarget;
  currentByAppRoot : gmap string string
}.

Definition set_sessions (r : Registry) (m : gmap string Session) : Registry :=
  {| router := router r; scheme := scheme r; sessions := m; substrates := substrates r;
     aliases := aliases r; routeHosts := routeHosts r; currentByAppRoot := currentByAppRoot r |}.
Definition set_substrates (r : Registry) (m : gmap string Substrate) : Registry :=
  {| router := router r; scheme := scheme r; sessions := sessions r; substrates := m;
     aliases := aliases r; routeHosts := routeHosts r; currentByAppRoot := currentByAppRoot r |}.
Definition set_leases (r : Registry) (m : gmap string AliasLease) : Registry :=
  {| router := router r; scheme := scheme r; sessions := sessions r; substrates := substrates r;
     aliases := m; routeHosts := routeHosts r; currentByAppRoot := currentByAppRoot r |}.
Definition set_hosts (r : Registry) (m : gmap string routeTarget) : Registry :=
  {| router := router r; scheme := scheme r; sessions := sessions r; substrates := substrates r;
     aliases := aliases r; routeHosts := m; currentByAppRoot := currentByAppRoot r |}.
Definition set_current (r : Registry) (m : gmap string string) : Registry :=
  {| router := router r; scheme := scheme r; sessions := sessions r; substrates := substrates r;
     aliases := aliases r; routeHosts := routeHosts r; currentByAppRoot := m |}.

Section registry.
Context {UT : UnicodeTables} {W : World}.

Definition normalizeAliasRoute (route : string) : string :=
  let route := sanitizeLabel route in
  if String.eqb route "console" then RouteDashboard else route.

Definition normalizeAliasLease (a : AliasLease) : AliasLease :=
  {| al_Host := normalizeRouteHost (al_Host a); al_Route := normalizeAliasRoute (al_Route a);
     al_SessionID := al_SessionID a; al_AppRoot := al_AppRoot a; al_OwnerPID := al_OwnerPID a;
     al_Owner := al_Owner a; al_URL := al_URL a; al_CreatedAt := al_CreatedAt a; al_UpdatedAt := al_UpdatedAt a |}.

(** ** Owners of sessions and leases *)
Definition ownerHasFingerprint (o : Owner) : bool :=
  negb (String.eqb (Strings.TrimSpace (StartedAt o)) "") || negb (String.eqb (Strings.TrimSpace (CmdlineHash o)) "")
  || negb (String.eqb (Strings.TrimSpace (Exe o)) "").

Definition ownerProcessInspectable (pid : Z) : bool :=
  if pid <=? 0 then false
  else
    let o := CaptureOwner pid "" in
    (0 <? PID o) && (negb (String.eqb (StartedAt o) "") || negb (String.eqb (CmdlineHash o) "")
                     || negb (String.eqb (Exe o) "")).

Definition session_pid (s : Session) : Z := firstPositive [OwnerPID s; PID (SessionOwner s)].

Definition sessionBlocksAppRootRegistration (s : Session) : bool :=
  let pid := session_pid s in
  if pid <=? 0 then false
  else
    let o := SessionOwner s in
    let o := if PID o =? pid then o else no_owner in
    let o := if PID o <=? 0 then set_PID o pid else o in
    if VerifyOwner o then true else ownerProcessInspectable pid.

Definition blockingAppRootSessionLocked (r : Registry) (next : Session) : option Session :=
  let root := Filepath.Clean (AppRoot next) in
  match list_find (fun e => negb (String.eqb (SessionID e.2) (SessionID next))
                            && String.eqb (Filepath.Clean (AppRoot e.2)) root
                            && sessionBlocksAppRootRegistration e.2 = true)
          (iterate (sessions r)) with
  | Some (_, (_, s)) => Some s
  | None => None
  end.

Definition requestMayClaimSession (req : RegisterRequest) (existing next : Session) : bool :=
  let requestPID := firstPositive [req_OwnerPID req; PID (req_Owner req); OwnerPID next; PID (SessionOwner next)] in
  let existingPID := session_pid existing in
  if (requestPID <=? 0) || (existingPID <=? 0) || (requestPID =? existingPID) then true
  else
    let o := SessionOwner existing in
    let o := if PID o =? existingPID then o else no_owner in
    let o := if PID o <=? 0 then set_PID o (OwnerPID existing) else o in
    if negb (VerifyOwner o) then if ownerProcessInspectable existingPID then false else ClaimOwner req
    else false.

Definition sessionOwnerIdentityMatches (s : Session) (ownerPID : Z) (requested : Owner) (strict : bool) : bool :=
  if negb (session_pid s =? ownerPID) then false
  else if negb strict then true
  else if negb (PID requested =? ownerPID) || negb (ownerHasFingerprint requested) then false
  else
    let current := SessionOwner s in
    if negb (PID current =? ownerPID) || negb (ownerHasFingerprint current) then false
    else if negb (String.eqb (StartedAt requested) "") && negb (String.eqb (StartedAt current) (StartedAt requested)) then false
    else if negb (String.eqb (CmdlineHash requested) "") && negb (String.eqb (CmdlineHash current) (CmdlineHash requested)) then false
    else if negb (String.eqb (Exe requested) "") && negb (String.eqb (Exe current) (Exe requested)) then false
    else true.

Definition aliasLeaseOwnerStale (a : AliasLease) : bool :=
  let o := al_Owner a in
  let pid := firstPositive [al_OwnerPID a; PID o] in
  if pid <=? 0 then false
  else
    let o := if (0 <? PID o) && negb (PID o =? pid) then no_owner else o in
    let o := set_PID o pid in
    if negb (ownerHasFingerprint o) then false else negb (VerifyOwner o).

(** ** Aliases *)
Definition removeSessionAliasesLocked (r : Registry) (sessionID : string) : Registry :=
  let sessionID := Strings.TrimSpace sessionID in
  if String.eqb sessionID "" then r
  else set_leases r (filter (fun e => al_SessionID e.2 <> sessionID) (aliases r)).

Definition removeAliasFromSessionLocked (r : Registry) (a : AliasLease) : Registry :=
  match sessions r !! al_SessionID a with
  | None => r
  | Some s =>
    let route := normalizeAliasRoute (al_Route a) in
    if String.eqb route "" then r
    else set_sessions r (<[SessionID s := set_aliases s (delete route (Aliases s)) (delete route (AliasConflicts s))]>
                           (sessions r))
  end.

Definition lease (r : Registry) (s : Session) (host route : string) (createdAt at_ : Z) : AliasLease :=
  {| al_Host := host; al_Route := route; al_SessionID := SessionID s; al_AppRoot := AppRoot s;
     al_OwnerPID := OwnerPID s; al_Owner := SessionOwner s; al_URL := routeURL (scheme r) host (router r) "";
     al_CreatedAt := createdAt; al_UpdatedAt := at_ |}.

(** The state of the loop over the desired hosts. *)
Record claim_state := {
  cl_reg : Registry;
  cl_aliases : gmap string string;
  cl_conflicts : gmap string AliasLease
}.

Definition claim_one (s : Session) (force : bool) (at_ : Z) (st : claim_state) (entry : string * string)
  : claim_state :=
  let '(host, route) := entry in
  let existing := aliases (cl_reg st) !! host in
  let foreign := match existing with Some e => negb (String.eqb (al_SessionID e) (SessionID s)) | None => false end in
  match existing with
  | Some e =>
    if foreign && negb force && negb (aliasLeaseOwnerStale e)
    then {| cl_reg := cl_reg st; cl_aliases := cl_aliases st; cl_conflicts := <[route := e]> (cl_conflicts st) |}
    else
      let r := if foreign then removeAliasFromSessionLocked (cl_reg st) e else cl_reg st in
      let createdAt := if al_CreatedAt e =? 0 then at_ else al_CreatedAt e in
      let l := lease r s host route createdAt at_ in
      {| cl_reg := set_leases r (<[host := l]> (aliases r));
         cl_aliases := <[route := al_URL l]> (cl_aliases st); cl_conflicts := cl_conflicts st |}
  | None =>
    let l := lease (cl_reg st) s host route at_ at_ in
    {| cl_reg := set_leases (cl_reg st) (<[host := l]> (aliases (cl_reg st)));
       cl_aliases := <[route := al_URL l]> (cl_aliases st); cl_conflicts := cl_conflicts st |}
  end.

(** The hosts a session asks for, with their routes. *)
Definition desired_hosts (s : Session) : gmap string string :=
  fold_left (fun desired '(configuredRoute, configuredHost) =>
    let route := normalizeAliasRoute configuredRoute in
    let host := normalizeRouteHost configuredHost in
    if String.eqb route "" || String.eqb host "" || String.eqb (default "" (Routes s !! route)) ""
    then desired else <[host := route]> desired) (iterate (Hosts (Namespace s))) ∅.

Definition claimAliasesLocked (r : Registry) (s : Session) (force : bool)
  : gmap string string * gmap string AliasLease * Registry :=
  if bool_decide (Hosts (Namespace s) = ∅) then (∅, ∅, removeSessionAliasesLocked r (SessionID s))
  else
    let at_ := if UpdatedAt s =? 0 then now else UpdatedAt s in
    let desired := desired_hosts s in
    let r := set_leases r (filter (fun e => ~ (al_SessionID e.2 = SessionID s /\ desired !! e.1 = None)) (aliases r)) in
    let st := fold_left (claim_one s force at_) (iterate desired)
                {| cl_reg := r; cl_aliases := ∅; cl_conflicts := ∅ |} in
    (cl_aliases st,
     normalizeAliasLease <$> filter (fun e => cl_aliases st !! e.1 = None) (cl_conflicts st),
     cl_reg st).

(** ** The host index *)
Definition index_session (hosts : gmap string routeTarget) (s : Session) : gmap string routeTarget :=
  fold_left (fun hosts '(route, url) =>
    let host := normalizeRouteHost url in
    let route := normalizeAliasRoute route in
    if String.eqb host "" || String.eqb route "" then hosts
    else <[host := {| rt_SessionID := SessionID s; rt_Route := route |}]> hosts) (iterate (Routes s)) hosts.

Definition index_alias (ss : gmap string Session) (hosts : gmap string routeTarget) (entry : string * AliasLease)
  : gmap string routeTarget :=
  let '(host, a) := entry in
  let route := normalizeAliasRoute (al_Route a) in
  let host := normalizeRouteHost (firstNonEmpty [al_Host a; host; al_URL a]) in
  if String.eqb host "" || String.eqb route "" || String.eqb (Strings.TrimSpace (al_SessionID a)) "" then hosts
  else match ss !! al_SessionID a with
  | None => hosts
  | Some _ => <[host := {| rt_SessionID := al_SessionID a; rt_Route := route |}]> hosts
  end.

Definition rebuildRouteHostIndexLocked (r : Registry) : Registry :=
  let hosts := fold_left (fun hosts e => index_session hosts e.2) (iterate (sessions r)) ∅ in
  set_hosts r (fold_left (index_alias (sessions r)) (iterate (aliases r)) hosts).

Definition RouteTargetForHost (r : Registry) (host : string) : option (Session * string) :=
  let host := normalizeRouteHost host in
  if String.eqb host "" then None
  else match routeHosts r !! host with
  | None => None
  | Some target =>
    match sessions r !! rt_SessionID target with
    | None => None
    | Some s => Some (s, rt_Route target)
    end
  end.

(** ** Sessions *)
Definition session_before (a b : Session) : bool :=
  if negb (UpdatedAt a =? UpdatedAt b) then UpdatedAt b <? UpdatedAt a
  else str_lt (SessionID a) (SessionID b).

Definition sortSessions (l : list Session) : list Session := sort_stable session_before l.
Definition sortedSessions (m : gmap string Session) : list Session := sortSessions (map snd (iterate m)).

Definition Upsert (r : Registry) (req : RegisterRequest) (save : Registry -> option string)
    (manifest : Session -> option string) : outcome agent_error Session * Registry :=
  match NormalizeSessionID (req_SessionID req) with
  | Fail e => (Fail e, r)
  | Panic m => (Panic m, r)
  | Ret requested =>
    let sessionID :=
      if String.eqb requested "" then
        let branch := Strings.TrimSpace (req_Branch req) in
        let branch := if String.eqb branch "" then git_branch (req_AppRoot req) else branch in
        SessionID_of (req_AppRoot req) branch
      else requested in
    let existing := sessions r !! sessionID in
    match NewSession req (router r) (scheme r) existing with
    | Fail e => (Fail e, r)
    | Panic m => (Panic m, r)
    | Ret s =>
      if match existing with Some e => negb (requestMayClaimSession req e s) | None => false end then
        (Fail (SessionRunning sessionID (match existing with Some e => AppRoot e | None => "" end)
                 (match existing with Some e => session_pid e | None => 0 end)), r)
      else match blockingAppRootSessionLocked r s with
      | Some b => (Fail (AppRootRunning (AppRoot s) (session_pid b)), r)
      | None =>
        let '(als, conflicts, r) := claimAliasesLocked r s (ClaimAliases req) in
        let s := set_aliases s als conflicts in
        let r := set_sessions r (<[SessionID s := s]> (sessions r)) in
        let r := set_current r (<[Filepath.Clean (AppRoot s) := SessionID s]> (currentByAppRoot r)) in
        let r := rebuildRouteHostIndexLocked r in
        match save r with
        | Some msg => (Fail (IOFailure msg), r)
        | None =>
          match manifest s with
          | Some msg => (Fail (IOFailure msg), r)
          | None => (Ret s, r)
          end
        end
      end
    end
  end.

Definition Get (r : Registry) (id : string) : option Session := sessions r !! Strings.TrimSpace id.
Definition List_sessions (r : Registry) : list Session := sortedSessions (sessions r).

Definition FindByAppRoot (r : Registry) (root : string) : list Session :=
  let root := Filepath.Clean (Strings.TrimSpace root) in
  let found := sortSessions (List.filter (fun s => String.eqb (Filepath.Clean (AppRoot s)) root)
                               (map snd (iterate (sessions r)))) in
  let currentID := default "" (currentByAppRoot r !! root) in
  if String.eqb currentID "" then found
  else sort_stable (fun a _ => String.eqb (SessionID a) currentID) found.

(** The session that becomes current for an app root when its current session is
    deleted. *)
Definition next_current (m : gmap string Session) (key : string) (cur : gmap string string) : gmap string string :=
  let cur := delete key cur in
  match list_find (fun s => Filepath.Clean (AppRoot s) = key) (sortedSessions m) with
  | Some (_, s) => <[key := SessionID s]> cur
  | None => cur
  end.

Definition delete_session (r : Registry) (id : string) (ownerPID : Z) (requested : Owner) (strict : bool)
    (save : Registry -> option string) : outcome agent_error (option Session * bool) * Registry :=
  let id := Strings.TrimSpace id in
  match sessions r !! id with
  | None => (Ret (None, false), r)
  | Some s =>
    if (ownerPID <? 0) && (0 <? session_pid s) then (Ret (Some s, false), r)
    else if (0 <? ownerPID) && negb (sessionOwnerIdentityMatches s ownerPID requested strict)
    then (Ret (Some s, false), r)
    else
      let r := set_sessions r (delete id (sessions r)) in
      let r := set_leases r (filter (fun e => al_SessionID e.2 <> id) (aliases r)) in
      let key := Filepath.Clean (AppRoot s) in
      let r := if bool_decide (default "" (currentByAppRoot r !! key) = id)
               then set_current r (next_current (sessions r) key (currentByAppRoot r)) else r in
      let r := rebuildRouteHostIndexLocked r in
      match save r with
      | Some msg => (Fail (IOFailure msg), r)
      | None => (Ret (Some s, true), r)
      end
  end.

Definition Delete (r : Registry) (id : string) (save : Registry -> option string) :=
  delete_session r id 0 no_owner false save.
Definition DeleteOwned (r : Registry) (id : string) (ownerPID : Z) (save : Registry -> option string) :=
  delete_session r id ownerPID no_owner false save.
Definition DeleteOwnedIdentity (r : Registry) (id : string) (ownerPID : Z) (owner : Owner) (strict : bool)
    (save : Registry -> option string) :=
  delete_session r id ownerPID owner strict save.

(** ** Substrates *)
Definition copyStringMap (m : gmap string string) : gmap string string :=
  rebuild (fun k v =>
    let k := sanitizeLabel k in
    let v := Strings.TrimSpace v in
    if String.eqb k "" || String.eqb v "" then None else Some (k, v)) m.

Definition copyIntMap (m : gmap string Z) : gmap string Z :=
  rebuild (fun k v => let k := sanitizeLabel k in
                      if String.eqb k "" || (v <=? 0) then None else Some (k, v)) m.

Definition copyOwnerMap (m : gmap string Owner) : gmap string Owner :=
  rebuild (fun k v => let k := sanitizeLabel k in if String.eqb k "" then None else Some (k, v)) m.

Definition with_component (k : string) (e : SubstrateExit) : SubstrateExit :=
  {| Component := firstNonEmpty [Component e; k]; exit_PID := exit_PID e; exit_StartedAt := exit_StartedAt e;
     ExitedAt := ExitedAt e; ExitCode := ExitCode e; Signal := Signal e; ExitError := ExitError e;
     LogPath := LogPath e; StdoutLogPath := StdoutLogPath e; StderrLogPath := StderrLogPath e |}.

Definition copySubstrateExitMap (m : gmap string SubstrateExit) : gmap string SubstrateExit :=
  rebuild (fun k v => let k := sanitizeLabel k in
                      if String.eqb k "" then None else Some (k, with_component k v)) m.

Definition componentExitsForSubstrate (status : string) (requested : gmap string SubstrateExit)
    (current : option Substrate) : gmap string SubstrateExit :=
  if String.eqb status "ready" then copySubstrateExitMap requested
  else
    let merged := match current with
                  | Some c => rebuild (fun k v => let k := sanitizeLabel k in
                                                  if String.eqb k "" then None else Some (k, v)) (ComponentExits c)
                  | None => ∅ end in
    fold_left (fun merged '(k, v) =>
      let k := sanitizeLabel k in
      if String.eqb k "" then merged else <[k := with_component k v]> merged) (iterate requested) merged.

Definition ownersForSubstrate (kind : string) (pids : gmap string Z) (requested : gmap string Owner)
    (current : option Substrate) : gmap string Owner :=
  fold_left (fun owners '(name, pid) =>
    if pid <=? 0 then owners
    else
      let owner := default no_owner (owners !! name) in
      let owner := match current with
                   | Some c => if PID owner =? 0 then
                                 match Owners c !! name with
                                 | Some e => if PID e =? pid then e else owner
                                 | None => owner
                                 end
                               else owner
                   | None => owner end in
      let owner := OwnerFromRequest pid owner ("scenery substrate " +:+ kind +:+ "." +:+ name) in
      if 0 <? PID owner then <[name := owner]> owners else owners)
    (iterate pids) (copyOwnerMap requested).

Record UpsertSubstrateRequest := {
  us_Kind : string;
  us_Status : string;
  us_OwnerPID : Z;
  us_Owner : Owner;
  us_PIDs : gmap string Z;
  us_Owners : gmap string Owner;
  us_URLs : gmap string string;
  us_Endpoints : gmap string string;
  us_LastExit : option SubstrateExit;
  us_ComponentExits : gmap string SubstrateExit
}.

Definition UpsertSubstrate (r : Registry) (req : UpsertSubstrateRequest) (save : Registry -> option string)
  : outcome agent_error Substrate * Registry :=
  let kind := sanitizeLabel (us_Kind req) in
  if String.eqb kind "" then (Fail EmptySubstrateKind, r)
  else
    let status := Strings.TrimSpace (us_Status req) in
    let status := if String.eqb status "" then "ready" else status in
    let current := substrates r !! kind in
    let createdAt := match current with
                     | Some c => if sub_CreatedAt c =? 0 then now else sub_CreatedAt c | None => now end in
    let ownerPID := match current with
                    | Some c => if us_OwnerPID req =? 0 then sub_OwnerPID c else us_OwnerPID req
                    | None => us_OwnerPID req end in
    let owner := match current with
                 | Some c => if (PID (us_Owner req) =? 0) && (0 <? PID (sub_Owner c)) then sub_Owner c else us_Owner req
                 | None => us_Owner req end in
    let owner := OwnerFromRequest ownerPID owner "scenery substrate" in
    let pids := copyIntMap (us_PIDs req) in
    let lastExit := match us_LastExit req, current with
                    | None, Some c => if String.eqb status "ready" then None else LastExit c
                    | e, _ => e end in
    let sub := {| sub_SchemaVersion := SubstrateSchemaVersion; sub_Kind := kind; sub_Status := status; sub_OwnerPID := ownerPID; sub_Owner := owner;
                  PIDs := pids; Owners := ownersForSubstrate kind pids (us_Owners req) current;
                  URLs := copyStringMap (us_URLs req); Endpoints := copyStringMap (us_Endpoints req);
                  LastExit := lastExit;
                  ComponentExits := componentExitsForSubstrate status (us_ComponentExits req) current;
                  sub_CreatedAt := createdAt; sub_UpdatedAt := now |} in
    let r := set_substrates r (<[kind := sub]> (substrates r)) in
    match save r with
    | Some msg => (Fail (IOFailure msg), r)
    | None => (Ret sub, r)
    end.

Definition GetSubstrate (r : Registry) (kind : string) : option Substrate := substrates r !! sanitizeLabel kind.

Definition DeleteSubstrate (r : Registry) (kind : string) (save : Registry -> option string)
  : outcome agent_error (option Substrate * bool) * Registry :=
  let key := sanitizeLabel kind in
  match substrates r !! key with
  | None => (Ret (None, false), r)
  | Some sub =>
    let r := set_substrates r (delete key (substrates r)) in
    match save r with
    | Some msg => (Fail (IOFailure msg), r)
    | None => (Ret (Some sub, true), r)
    end
  end.

Definition substrate_before (a b : Substrate) : bool := str_lt (sub_Kind a) (sub_Kind b).
Definition sortedSubstrates (m : gmap string Substrate) : list Substrate :=
  sort_stable substrate_before (map snd (iterate m)).

Definition alias_before (a b : AliasLease) : bool :=
  if negb (String.eqb (al_Host a) (al_Host b)) then str_lt (al_Host a) (al_Host b)
  else str_lt (al_SessionID a) (al_SessionID b).
Definition sortedAliases (m : gmap string AliasLease) : list AliasLease :=
  sort_stable alias_before (map snd (iterate m)).

Definition copyRawStringMap (m : gmap string string) : gmap string string :=
  rebuild (fun k v =>
    let k := Strings.TrimSpace k in
    let v := Strings.TrimSpace v in
    if String.eqb k "" || String.eqb v "" then None else Some (k, v)) m.

(** ** The registry file, before and after JSON *)
Record registryFile := {
  file_Sessions : list Session;
  file_Substrates : list Substrate;
  file_Aliases : list AliasLease;
  file_CurrentByAppRoot : gmap string string
}.

(** A session as JSON keeps it: [ReportToken] is tagged [json:-]. *)
Definition json_session (s : Session) : Session :=
  {| SchemaVersion := SchemaVersion s; SessionID := SessionID s; BaseAppID := BaseAppID s;
     RuntimeAppID := RuntimeAppID s; Namespace := Namespace s; AppRoot := AppRoot s;
     StateRoot := StateRoot s; Branch := Branch s; Status := Status s;
     StatusReason := StatusReason s; OwnerPID := OwnerPID s;
     SessionOwner := SessionOwner s; AppPID := AppPID s; Processes := Processes s; Routes := Routes s;
     Aliases := Aliases s; AliasConflicts := AliasConflicts s; Backends := Backends s; ReportToken := "";
     CreatedAt := CreatedAt s; UpdatedAt := UpdatedAt s |}.

(** What [saveLocked] writes, as it is read back.  Encoding and decoding JSON
    keeps the other fields, their texts being valid UTF-8. *)
Definition to_file (r : Registry) : registryFile :=
  {| file_Sessions := map json_session (sortedSessions (sessions r));
     file_Substrates := sortedSubstrates (substrates r);
     file_Aliases := sortedAliases (aliases r);
     file_CurrentByAppRoot := copyRawStringMap (currentByAppRoot r) |}.

Definition set_kind (s : Substrate) (kind : string) : Substrate :=
  {| sub_SchemaVersion := sub_SchemaVersion s; sub_Kind := kind; sub_Status := sub_Status s;
     sub_OwnerPID := sub_OwnerPID s; sub_Owner := sub_Owner s; PIDs := PIDs s; Owners := Owners s;
     URLs := URLs s; Endpoints := Endpoints s; LastExit := LastExit s; ComponentExits := ComponentExits s;
     sub_CreatedAt := sub_CreatedAt s; sub_UpdatedAt := sub_UpdatedAt s |}.

Definition empty_registry (routerAddr routerScheme : string) : Registry :=
  {| router := routerAddr; scheme := routerScheme; sessions := ∅; substrates := ∅; aliases := ∅;
     routeHosts := ∅; currentByAppRoot := ∅ |}.

Definition load_session (m : gmap string Session) (s : Session) : gmap string Session :=
  if String.eqb (SessionID s) "" then m else <[SessionID s := s]> m.

Definition load_substrate (m : gmap string Substrate) (s : Substrate) : gmap string Substrate :=
  let kind := sanitizeLabel (sub_Kind s) in
  if String.eqb kind "" then m else <[kind := set_kind s kind]> m.

Definition load_alias (m : gmap string AliasLease) (a : AliasLease) : gmap string AliasLease :=
  let a' := normalizeAliasLease a in
  if String.eqb (al_Host a') "" || String.eqb (al_Route a') "" || String.eqb (Strings.TrimSpace (al_SessionID a)) ""
  then m else <[al_Host a' := a']> m.

Definition load_current (cur m : gmap string string) : gmap string string :=
  fold_left (fun cur '(root, id) =>
    let root := Filepath.Clean (Strings.TrimSpace root) in
    let id := Strings.TrimSpace id in
    if negb (String.eqb root "") && negb (String.eqb id "") then <[root := id]> cur else cur) (iterate m) cur.

(** The last argument of [load] is what reading and decoding the registry file
    answers: an error, [None] for a file that does not exist, or its contents. *)
Definition load (r : Registry) (file : outcome string (option registryFile)) : outcome string Registry :=
  file ← file;
  match file with
  | None => Ret r
  | Some f =>
    let r := set_sessions r (fold_left load_session (file_Sessions f) (sessions r)) in
    let r := set_substrates r (fold_left load_substrate (file_Substrates f) (substrates r)) in
    let r := set_leases r (fold_left load_alias (file_Aliases f) (aliases r)) in
    let r := set_current r (load_current (currentByAppRoot r) (file_CurrentByAppRoot f)) in
    Ret (rebuildRouteHostIndexLocked r)
  end.

Definition OpenRegistry (routerAddr : string) (routerScheme : list string)
    (file : outcome string (option registryFile)) : outcome string Registry :=
  let sch := match routerScheme with
             | s :: _ => if negb (String.eqb (Strings.TrimSpace s) "") then Strings.TrimSpace s else "http"
             | [] => "http" end in
  load (empty_registry routerAddr sch) file.

(** ** What every operation preserves *)
Context {MO : MapOrder W}.

Lemma elem_of_iterate {A} (m : gmap string A) k v : (k, v) ∈ iterate m <-> m !! k = Some v.
Proof. rewrite (iterate_perm A m). apply elem_of_map_to_list. Qed.

(** Sessions that differ in their aliases only. *)
Definition same_session (a b : Session) : Prop := exists als cs, b = set_aliases a als cs.
Definition same_sessions (m m' : gmap string Session) : Prop :=
  forall id, option_Forall2 same_session (m !! id) (m' !! id).

Lemma same_session_refl a : same_session a a.
Proof. exists (Aliases a), (AliasConflicts a). by destruct a. Qed.

Lemma same_session_trans a b c : same_session a b -> same_session b c -> same_session a c.
Proof. intros (x & y & ->) (x' & y' & ->). by exists x', y'. Qed.

Lemma same_sessions_refl m : same_sessions m m.
Proof. intros id. destruct (m !! id); constructor. apply same_session_refl. Qed.

Lemma same_sessions_trans m1 m2 m3 : same_sessions m1 m2 -> same_sessions m2 m3 -> same_sessions m1 m3.
Proof.
  intros H12 H23 id. specialize (H12 id). specialize (H23 id).
  destruct H12 as [a b Hab|]; inversion_clear H23; constructor. by eapply same_session_trans.
Qed.

Lemma same_sessions_lookup m m' id s :
  same_sessions m m' -> m !! id = Some s -> exists s', m' !! id = Some s' /\ same_session s s'.
Proof. intros Hm Hs. specialize (Hm id). rewrite Hs in Hm. inversion_clear Hm. eauto. Qed.

Lemma same_sessions_lookup' m m' id s' :
  same_sessions m m' -> m' !! id = Some s' -> exists s, m !! id = Some s /\ same_session s s'.
Proof. intros Hm Hs. specialize (Hm id). rewrite Hs in Hm. inversion_clear Hm. eauto. Qed.

Definition keys_ok (m : gmap string Session) : Prop := forall id s, m !! id = Some s -> SessionID s = id.

Lemma keys_ok_same m m' : same_sessions m m' -> keys_ok m -> keys_ok m'.
Proof.
  intros Hm Hk id s' Hs. destruct (same_sessions_lookup' _ _ _ _ Hm Hs) as (s & Hs0 & als & cs & ->).
  exact (Hk _ _ Hs0).
Qed.

(** Leases are listed under their host and belong to a session of [m], or to the
    session [extra] that is being registered. *)
Definition leases_ok (m : gmap string Session) (extra : option string) (als : gmap string AliasLease) : Prop :=
  forall host a, als !! host = Some a ->
    al_Host a = host /\ (is_Some (m !! al_SessionID a) \/ extra = Some (al_SessionID a)).

Lemma leases_ok_same m m' extra als : same_sessions m m' -> leases_ok m extra als -> leases_ok m' extra als.
Proof.
  intros Hm Hl host a Ha. destruct (Hl host a Ha) as [Hh [[s Hs]|He]]; split; auto.
  destruct (same_sessions_lookup _ _ _ _ Hm Hs) as (s' & Hs' & _). left. by exists s'.
Qed.

Lemma leases_ok_filter P `{!forall x, Decision (P x)} m extra als :
  leases_ok m extra als -> leases_ok m extra (filter P als).
Proof. intros Hl host a Ha. apply map_lookup_filter_Some in Ha as [Ha _]. by apply Hl. Qed.

(** The parts of the registry that claiming aliases leaves alone. *)
Definition same_rest (r r' : Registry) : Prop :=
  router r = router r' /\ scheme r = scheme r' /\ substrates r = substrates r'
  /\ currentByAppRoot r = currentByAppRoot r'.

Lemma removeAlias_same r a :
  keys_ok (sessions r) ->
  same_sessions (sessions r) (sessions (removeAliasFromSessionLocked r a))
  /\ same_rest r (removeAliasFromSessionLocked r a)
  /\ aliases (removeAliasFromSessionLocked r a) = aliases r.
Proof.
  intros Hk. unfold removeAliasFromSessionLocked.
  destruct (sessions r !! al_SessionID a) as [s|] eqn:Hs; [|by split; [apply same_sessions_refl|]].
  destruct (String.eqb _ ""); [by split; [apply same_sessions_refl|]|].
  split; [|done]. simpl. rewrite (Hk _ _ Hs). intros id.
  destruct (decide (id = al_SessionID a)) as [->|Hne].
  - rewrite Hs, lookup_insert_eq. constructor. by eexists _, _.
  - rewrite lookup_insert_ne by done. destruct (sessions r !! id); constructor. apply same_session_refl.
Qed.

(** ** Claiming aliases *)
Definition claim_inv (r0 : Registry) (s : Session) (force : bool) (st : claim_state) : Prop :=
  same_sessions (sessions r0) (sessions (cl_reg st)) /\ same_rest r0 (cl_reg st)
  /\ (leases_ok (sessions r0) (Some (SessionID s)) (aliases r0) ->
      leases_ok (sessions r0) (Some (SessionID s)) (aliases (cl_reg st)))
  /\ (force = false -> forall host a, aliases r0 !! host = Some a -> al_SessionID a <> SessionID s ->
      aliasLeaseOwnerStale a = false -> aliases (cl_reg st) !! host = Some a).

Lemma same_rest_trans r1 r2 r3 : same_rest r1 r2 -> same_rest r2 r3 -> same_rest r1 r3.
Proof. intros (? & ? & ? & ?) (? & ? & ? & ?). repeat split; congruence. Qed.

(** Taking a lease on [host] for [s], when no live foreign lease is on it. *)
Lemma claim_inv_set r0 s force st r host l als :
  claim_inv r0 s force st ->
  same_sessions (sessions (cl_reg st)) (sessions r) -> same_rest (cl_reg st) r ->
  aliases r = aliases (cl_reg st) ->
  al_Host l = host -> al_SessionID l = SessionID s ->
  (force = false -> forall a, aliases (cl_reg st) !! host = Some a -> al_SessionID a <> SessionID s ->
     aliasLeaseOwnerStale a = true) ->
  claim_inv r0 s force
    {| cl_reg := set_leases r (<[host := l]> (aliases r)); cl_aliases := als; cl_conflicts := cl_conflicts st |}.
Proof.
  intros (Hs & Hr & Hl & Hn) Hs' Hr' Ha Hh Hid Hlive. split; [|split; [|split]]; simpl.
  - by eapply same_sessions_trans.
  - by eapply same_rest_trans.
  - intros H0 host' a Hin. rewrite Ha in Hin. apply lookup_insert_Some in Hin as [[<- <-]|[Hne Hin]].
    + split; [done|]. right. by rewrite Hid.
    + by apply (Hl H0).
  - intros Hf host' a Hin Hne Hst. rewrite Ha. pose proof (Hn Hf host' a Hin Hne Hst) as Hcur.
    destruct (decide (host' = host)) as [->|]; [|by rewrite lookup_insert_ne].
    rewrite (Hlive Hf a Hcur Hne) in Hst. done.
Qed.

Lemma claim_one_inv r0 s force at_ st entry :
  keys_ok (sessions r0) -> claim_inv r0 s force st -> claim_inv r0 s force (claim_one s force at_ st entry).
Proof.
  intros Hk Hst. pose proof Hst as (Hs & Hr & _). destruct entry as [host route]. unfold claim_one.
  destruct (aliases (cl_reg st) !! host) as [e|] eqn:He.
  - destruct (negb (String.eqb (al_SessionID e) (SessionID s)) && negb force && negb (aliasLeaseOwnerStale e)) eqn:Hc.
    { destruct Hst as (? & ? & ? & ?). by split; [|split; [|split]]. }
    assert (force = false -> forall a, aliases (cl_reg st) !! host = Some a -> al_SessionID a <> SessionID s ->
      aliasLeaseOwnerStale a = true) as Hlive.
    { intros -> a Ha Hne. rewrite He in Ha. injection Ha as <-.
      rewrite (proj2 (String.eqb_neq _ _) Hne) in Hc. simpl in Hc.
      by destruct (aliasLeaseOwnerStale e). }
    destruct (negb (String.eqb (al_SessionID e) (SessionID s))).
    + destruct (removeAlias_same (cl_reg st) e (keys_ok_same _ _ Hs Hk)) as (Hs' & Hr' & Ha').
      by eapply claim_inv_set.
    + eapply claim_inv_set; try done. apply same_sessions_refl.
  - eapply claim_inv_set; try done; [apply same_sessions_refl|]. intros _ a Ha. congruence.
Qed.

Lemma claimAliases_inv r s force als cs r' :
  keys_ok (sessions r) -> claimAliasesLocked r s force = (als, cs, r') ->
  same_sessions (sessions r) (sessions r') /\ same_rest r r'
  /\ (leases_ok (sessions r) (Some (SessionID s)) (aliases r) ->
      leases_ok (sessions r) (Some (SessionID s)) (aliases r'))
  /\ (force = false -> Strings.TrimSpace (SessionID s) = SessionID s ->
      forall host a, aliases r !! host = Some a -> al_SessionID a <> SessionID s ->
      aliasLeaseOwnerStale a = false -> aliases r' !! host = Some a).
Proof.
  intros Hk. unfold claimAliasesLocked. case_bool_decide.
  - intros [= <- <- <-]. unfold removeSessionAliasesLocked. destruct (String.eqb _ ""); simpl.
    + by split; [apply same_sessions_refl|].
    + split; [apply same_sessions_refl|]. split; [done|]. split; [by apply leases_ok_filter|].
      intros _ Ht host a Ha Hne _. apply map_lookup_filter_Some. split; [done|]. simpl. by rewrite Ht.
  - set (r1 := set_leases r _). set (st0 := {| cl_reg := r1; cl_aliases := ∅; cl_conflicts := ∅ |}).
    intros [= <- <- <-].
    assert (claim_inv r s force st0) as H0.
    { split; [apply same_sessions_refl|]. split; [done|]. split; [by apply leases_ok_filter|].
      intros _ host a Ha Hne _. apply map_lookup_filter_Some. split; [done|]. simpl. tauto. }
    pose proof (fold_left_inv (claim_inv r s force) (claim_one s force (if UpdatedAt s =? 0 then now else UpdatedAt s))
      (iterate (desired_hosts s)) st0 H0 (fun b x _ Hb => claim_one_inv r s force _ b x Hk Hb)) as (? & ? & ? & Hn).
    split; [done|]. split; [done|]. split; [done|]. intros Hf _. by apply Hn.
Qed.

(** ** The host index *)

(** Why a host of the index leads to a target: a route of a registered session, or
    the lease of a registered session. *)
Definition justified (r : Registry) (host : string) (tgt : routeTarget) : Prop :=
  exists s, sessions r !! rt_SessionID tgt = Some s
    /\ ((exists route url, Routes s !! route = Some url /\ normalizeRouteHost url = host
           /\ normalizeAliasRoute route = rt_Route tgt)
        \/ (exists k a, aliases r !! k = Some a /\ al_SessionID a = rt_SessionID tgt
              /\ normalizeAliasRoute (al_Route a) = rt_Route tgt
              /\ normalizeRouteHost (firstNonEmpty [al_Host a; k; al_URL a]) = host)).

Definition index_ok (r : Registry) (hosts : gmap string routeTarget) : Prop :=
  forall host tgt, hosts !! host = Some tgt -> justified r host tgt.

Lemma rebuild_index_ok r :
  keys_ok (sessions r) -> index_ok r (routeHosts (rebuildRouteHostIndexLocked r)).
Proof.
  intros Hk. unfold rebuildRouteHostIndexLocked. simpl.
  apply (fold_left_inv (index_ok r)).
  - apply (fold_left_inv (index_ok r)); [by intros ? ? ?|].
    intros hosts [id s] Hin Hok. apply elem_of_iterate in Hin. unfold index_session.
    apply (fold_left_inv (index_ok r)); [done|]. intros hosts' [route url] Hin' Hok'.
    apply elem_of_iterate in Hin'. destruct (_ || _); [done|].
    intros host tgt Ht. apply lookup_insert_Some in Ht as [[<- <-]|[_ Ht]]; [|by apply Hok'].
    exists s. simpl. rewrite (Hk _ _ Hin). split; [done|]. left. by exists route, url.
  - intros hosts [k a] Hin Hok. apply elem_of_iterate in Hin. unfold index_alias.
    destruct (_ || _); [done|]. destruct (sessions r !! al_SessionID a) as [s|] eqn:Hs; [|done].
    intros host tgt Ht. apply lookup_insert_Some in Ht as [[<- <-]|[_ Ht]]; [|by apply Hok].
    exists s. split; [done|]. right. by exists k, a.
Qed.

(** ** The invariant *)
Record inv (r : Registry) : Prop := {
  inv_keys : keys_ok (sessions r);
  inv_leases : leases_ok (sessions r) None (aliases r);
  inv_current : forall root id, currentByAppRoot r !! root = Some id ->
    exists s, sessions r !! id = Some s /\ Filepath.Clean (AppRoot s) = root;
  inv_index : index_ok r (routeHosts r)
}.

Lemma leases_ok_weaken m extra als : leases_ok m None als -> leases_ok m extra als.
Proof. intros Hl host a Ha. destruct (Hl host a Ha) as [? [?|?]]; [auto|done]. Qed.

(** The app root of a request is absolute and clean, or the request names its
    session: then the session looked up is the one that is stored. *)
Definition canonical_request (req : RegisterRequest) : Prop :=
  req_AppRoot req = Filepath.Abs cwd (Strings.TrimSpace (req_AppRoot req)) \/ sanitizeLabel (req_SessionID req) <> "".

Definition looked_up (req : RegisterRequest) (requested : string) : string :=
  if String.eqb requested "" then
    let branch := Strings.TrimSpace (req_Branch req) in
    let branch := if String.eqb branch "" then git_branch (req_AppRoot req) else branch in
    SessionID_of (req_AppRoot req) branch
  else requested.

Lemma NewSession_spec req ra rs existing requested s :
  NormalizeSessionID (req_SessionID req) = Ret requested ->
  NewSession req ra rs existing = Ret s ->
  Filepath.Clean (AppRoot s) = AppRoot s
  /\ (forall e, existing = Some e -> Filepath.Clean (AppRoot e) = AppRoot s)
  /\ (canonical_request req -> SessionID s = looked_up req requested).
Proof.
  intros Hreq Hnew. unfold NewSession in Hnew. cbv zeta in Hnew. rewrite Hreq in Hnew.
  destruct (String.eqb_spec (Filepath.Abs cwd (Strings.TrimSpace (req_AppRoot req))) "") as [_|Hne]; [done|].
  destruct (String.eqb (Strings.TrimSpace (req_BaseAppID req)) ""); [done|].
  unfold mbind, outcome_bind in Hnew.
  destruct (match existing with Some e => negb _ | None => false end) eqn:Hex; [done|].
  apply (f_equal (fun o => match o with Ret x => (AppRoot x, SessionID x) | _ => ("", "") end)) in Hnew.
  cbn [AppRoot SessionID] in Hnew. injection Hnew as Hroot Hid. rewrite <- Hroot.
  split; [by apply Filepath.Clean_Abs|]. split.
  - intros e ->. apply negb_false_iff, String.eqb_eq in Hex. done.
  - intros Hc. rewrite <- Hid. unfold looked_up.
    destruct (String.eqb_spec requested "") as [->|_]; [|done].
    destruct Hc as [Hc|Hc].
    + rewrite <- Hc. by destruct existing; rewrite ?andb_false_r.
    + unfold NormalizeSessionID in Hreq. destruct (_ && _); [done|]. simplify_eq.
Qed.

Lemma inv_register r r1 s als cs :
  inv r -> Filepath.Clean (AppRoot s) = AppRoot s ->
  (forall e, sessions r !! SessionID s = Some e -> Filepath.Clean (AppRoot e) = AppRoot s) ->
  same_sessions (sessions r) (sessions r1) -> same_rest r r1 ->
  leases_ok (sessions r) (Some (SessionID s)) (aliases r1) ->
  let s' := set_aliases s als cs in
  inv (rebuildRouteHostIndexLocked
         (set_current (set_sessions r1 (<[SessionID s' := s']> (sessions r1)))
            (<[Filepath.Clean (AppRoot s') := SessionID s']> (currentByAppRoot r1)))).
Proof.
  intros [Hk Hl Hc Hi] Hclean Hex Hsame (_ & _ & _ & Hcur) Hleases s'.
  assert (keys_ok (<[SessionID s' := s']> (sessions r1))) as Hk'.
  { intros id x Hx. apply lookup_insert_Some in Hx as [[<- <-]|[_ Hx]]; [done|].
    by apply (keys_ok_same _ _ Hsame Hk). }
  split.
  - done.
  - intros host a Ha. destruct (Hleases host a Ha) as [Hh Hown]. split; [done|]. left. simpl.
    destruct Hown as [[x Hx]|[= Hx]].
    + destruct (decide (al_SessionID a = SessionID s)) as [->|Hne]; [rewrite lookup_insert_eq; eauto|].
      rewrite lookup_insert_ne by done.
      destruct (same_sessions_lookup _ _ _ _ Hsame Hx) as (x' & -> & _). eauto.
    + rewrite <- Hx, lookup_insert_eq. eauto.
  - intros root id Hid. simpl in Hid. apply lookup_insert_Some in Hid as [[<- <-]|[Hne Hid]].
    + exists s'. simpl. by rewrite lookup_insert_eq.
    + rewrite <- Hcur in Hid. destruct (Hc root id Hid) as (x & Hx & Hroot). simpl.
      destruct (decide (id = SessionID s)) as [->|Hne'].
      * exists s'. rewrite lookup_insert_eq. split; [done|]. rewrite <- Hroot. simpl.
        rewrite Hclean. symmetry. by apply Hex.
      * destruct (same_sessions_lookup _ _ _ _ Hsame Hx) as (x' & Hx' & als' & cs' & ->).
        exists (set_aliases x als' cs'). by rewrite lookup_insert_ne.
  - exact (rebuild_index_ok (set_current (set_sessions r1 (<[SessionID s' := s']> (sessions r1)))
      (<[Filepath.Clean (AppRoot s') := SessionID s']> (currentByAppRoot r1))) Hk').
Qed.

Lemma Upsert_inv r req save manifest res r' :
  canonical_request req -> inv r -> Upsert r req save manifest = (res, r') -> inv r'.
Proof.
  intros Hcan Hinv. unfold Upsert.
  destruct (NormalizeSessionID (req_SessionID req)) as [requested|e|m] eqn:Hreq; [|by intros [= <- <-]..].
  fold (looked_up req requested). set (existing := sessions r !! looked_up req requested).
  destruct (NewSession req (router r) (scheme r) existing) as [s|e|m] eqn:Hnew; [|by intros [= <- <-]..].
  destruct (match existing with Some e => _ | None => false end); [by intros [= <- <-]|].
  destruct (blockingAppRootSessionLocked r s); [by intros [= <- <-]|].
  destruct (claimAliasesLocked r s (ClaimAliases req)) as [[als cs] r1] eqn:Hcl.
  destruct (NewSession_spec _ _ _ _ _ _ Hreq Hnew) as (Hclean & Hex & Hid). specialize (Hid Hcan).
  destruct (claimAliases_inv _ _ _ _ _ _ (inv_keys _ Hinv) Hcl) as (Hsame & Hrest & Hleases & _).
  specialize (Hleases (leases_ok_weaken _ _ _ (inv_leases _ Hinv))).
  pose proof (inv_register r r1 s als cs Hinv Hclean) as Hreg. cbv zeta in Hreg.
  set (r2 := rebuildRouteHostIndexLocked _) in Hreg |- *.
  intros Hres. assert (r' = r2) as ->.
  { revert Hres. fold r2. destruct (save r2); [by intros [= <- <-]|].
    destruct (manifest _); by intros [= <- <-]. }
  apply Hreg; [|done..]. intros e He. apply Hex. subst existing. by rewrite <- Hid.
Qed.

Lemma elem_of_sortedSessions m s : s ∈ sortedSessions m <-> exists id, m !! id = Some s.
Proof.
  unfold sortedSessions, sortSessions. rewrite sort_stable_perm, list_elem_of_fmap. split.
  - intros ([id x] & -> & Hx). apply elem_of_iterate in Hx. by exists id.
  - intros [id Hs]. exists (id, s). split; [done|]. by apply elem_of_iterate.
Qed.

(** The registry a deletion leaves, before the index is rebuilt. *)
Definition without_session (r : Registry) (id : string) (s : Session) : Registry :=
  let r1 := set_leases (set_sessions r (delete id (sessions r)))
              (filter (fun e => al_SessionID e.2 <> id) (aliases r)) in
  let key := Filepath.Clean (AppRoot s) in
  if bool_decide (default "" (currentByAppRoot r1 !! key) = id)
  then set_current r1 (next_current (sessions r1) key (currentByAppRoot r1)) else r1.

Lemma delete_session_cases r id ownerPID requested strict save res r' :
  delete_session r id ownerPID requested strict save = (res, r') ->
  r' = r \/ exists s, sessions r !! Strings.TrimSpace id = Some s
    /\ ((ownerPID <? 0) && (0 <? session_pid s) = false)
    /\ ((0 <? ownerPID) && negb (sessionOwnerIdentityMatches s ownerPID requested strict) = false)
    /\ r' = rebuildRouteHostIndexLocked (without_session r (Strings.TrimSpace id) s)
    /\ (res = Ret (Some s, true) \/ exists msg, res = Fail (IOFailure msg)).
Proof.
  unfold delete_session. set (i := Strings.TrimSpace id).
  destruct (sessions r !! i) as [s|] eqn:Hs; [|intros [= _ <-]; by left].
  destruct ((ownerPID <? 0) && (0 <? session_pid s)) eqn:H1; [intros [= _ <-]; by left|].
  destruct ((0 <? ownerPID) && negb (sessionOwnerIdentityMatches s ownerPID requested strict)) eqn:H2;
    [intros [= _ <-]; by left|].
  cbv zeta. fold (without_session r i s). intros Hres. right. exists s.
  split; [done|]. split; [done|]. split; [done|].
  change (if bool_decide _ then _ else _) with (without_session r i s) in Hres.
  destruct (save _); injection Hres as <- <-; eauto.
Qed.

Lemma without_session_inv r id s :
  inv r -> sessions r !! id = Some s -> inv (rebuildRouteHostIndexLocked (without_session r id s)).
Proof.
  intros [Hk Hl Hc Hi] Hs.
  assert (sessions (without_session r id s) = delete id (sessions r)
    /\ aliases (without_session r id s) = filter (fun e => al_SessionID e.2 <> id) (aliases r)) as [Es Ea]
    by (unfold without_session; by case_bool_decide).
  assert (keys_ok (delete id (sessions r))) as Hk'.
  { intros i x [_ Hx]%lookup_delete_Some. by apply Hk. }
  assert (forall root i, currentByAppRoot (without_session r id s) !! root = Some i ->
    exists x, delete id (sessions r) !! i = Some x /\ Filepath.Clean (AppRoot x) = root) as Hc'.
  { assert (forall root i, currentByAppRoot r !! root = Some i -> i <> id ->
      exists x, delete id (sessions r) !! i = Some x /\ Filepath.Clean (AppRoot x) = root) as Hold.
    { intros root i Hi' Hne. destruct (Hc _ _ Hi') as (x & Hx & Hr). exists x.
      by rewrite lookup_delete_ne. }
    intros root i. unfold without_session. case_bool_decide as Hcur; simpl in *.
    - unfold next_current. destruct (list_find _ _) as [[j y]|] eqn:Hf.
      + rewrite lookup_insert_Some. intros [[<- <-]|[Hne Hi']].
        * apply list_find_Some in Hf as (Hy & Hroot & _). apply list_elem_of_lookup_2 in Hy.
          apply elem_of_sortedSessions in Hy as [i' Hy]. exists y. by rewrite (Hk' _ _ Hy).
        * apply lookup_delete_Some in Hi' as [_ Hi']. apply Hold; [done|]. intros ->.
          destruct (Hc _ _ Hi') as (x & Hx & Hr). simplify_eq.
      + intros [Hne Hi']%lookup_delete_Some. apply Hold; [done|]. intros ->.
        destruct (Hc _ _ Hi') as (x & Hx & Hr). simplify_eq.
    - intros Hi'. apply Hold; [done|]. intros ->.
      destruct (Hc _ _ Hi') as (x & Hx & Hr). simplify_eq. by rewrite Hi' in Hcur. }
  split.
  - simpl. by rewrite Es.
  - simpl. rewrite Es, Ea. intros host a [Ha Hne]%map_lookup_filter_Some. simpl in Hne.
    destruct (Hl host a Ha) as [Hh [[x Hx]|?]]; [|done]. split; [done|]. left. exists x.
    by rewrite lookup_delete_ne.
  - simpl. by rewrite Es.
  - assert (keys_ok (sessions (without_session r id s))) as Hk'' by (by rewrite Es).
    exact (rebuild_index_ok (without_session r id s) Hk'').
Qed.

Lemma delete_session_inv r id ownerPID requested strict save res r' :
  inv r -> delete_session r id ownerPID requested strict save = (res, r') -> inv r'.
Proof.
  intros Hinv [->|(s & Hs & _ & _ & -> & _)]%delete_session_cases; [done|].
  by apply without_session_inv.
Qed.

Lemma set_substrates_inv r m : inv r -> inv (set_substrates r m).
Proof. intros [Hk Hl Hc Hi]. by split. Qed.

Lemma UpsertSubstrate_inv r req save res r' :
  inv r -> UpsertSubstrate r req save = (res, r') -> inv r'.
Proof.
  intros Hinv. unfold UpsertSubstrate. destruct (String.eqb _ ""); [by intros [= _ <-]|]. cbv zeta.
  destruct (save _); intros [= _ <-]; by apply set_substrates_inv.
Qed.

Lemma DeleteSubstrate_inv r kind save res r' :
  inv r -> DeleteSubstrate r kind save = (res, r') -> inv r'.
Proof.
  intros Hinv. unfold DeleteSubstrate. destruct (substrates r !! _); [|by intros [= _ <-]].
  destruct (save _); intros [= _ <-]; by apply set_substrates_inv.
Qed.

(** ** The contract of the operations *)

(** Deleting with an owner is safe: a session is only deleted for an owner
    whose process id is the effective owner of the session, and in strict mode
    only if the fingerprints of the requested and recorded owner agree; then the
    session and exactly its leases are gone, and every other session and lease is
    as before. *)
Theorem DeleteOwnedIdentity_safe r id ownerPID requested strict save s r' :
  0 < ownerPID ->
  DeleteOwnedIdentity r id ownerPID requested strict save = (Ret (Some s, true), r') ->
  session_pid s = ownerPID
  /\ (strict = true -> PID requested = ownerPID /\ PID (SessionOwner s) = ownerPID
        /\ ownerHasFingerprint requested = true
        /\ (StartedAt requested <> "" -> StartedAt (SessionOwner s) = StartedAt requested))
  /\ sessions r' !! Strings.TrimSpace id = None
  /\ (forall i, i <> Strings.TrimSpace id -> sessions r' !! i = sessions r !! i)
  /\ (forall host a, aliases r' !! host = Some a <->
        aliases r !! host = Some a /\ al_SessionID a <> Strings.TrimSpace id).
Proof.
  intros Hpos Hd. unfold DeleteOwnedIdentity in Hd.
  assert (exists s0, sessions r !! Strings.TrimSpace id = Some s0 /\ s0 = s
    /\ sessionOwnerIdentityMatches s ownerPID requested strict = true
    /\ r' = rebuildRouteHostIndexLocked (without_session r (Strings.TrimSpace id) s))
    as (s0 & Hs & -> & Hm & ->).
  { unfold delete_session in Hd. destruct (sessions r !! Strings.TrimSpace id) as [s0|] eqn:Hs; [|done].
    destruct (_ && _); [done|]. rewrite (proj2 (Z.ltb_lt _ _) Hpos) in Hd. simpl in Hd.
    destruct (sessionOwnerIdentityMatches s0 ownerPID requested strict) eqn:Hm; simpl in Hd; [|done].
    change (if bool_decide _ then _ else _) with (without_session r (Strings.TrimSpace id) s0) in Hd.
    destruct (save _); [done|]. injection Hd as <- <-. eauto. }
  assert (sessions (without_session r (Strings.TrimSpace id) s) = delete (Strings.TrimSpace id) (sessions r)
    /\ aliases (without_session r (Strings.TrimSpace id) s)
       = filter (fun e => al_SessionID e.2 <> Strings.TrimSpace id) (aliases r)) as [Es Ea]
    by (unfold without_session; by case_bool_decide).
  simpl. rewrite Es, Ea. unfold sessionOwnerIdentityMatches in Hm.
  destruct (Z.eqb_spec (session_pid s) ownerPID) as [Hpid|]; [|done]. simpl in Hm.
  split; [done|]. split; [|split; [apply lookup_delete_eq|split]].
  - intros ->. simpl in Hm.
    destruct (Z.eqb_spec (PID requested) ownerPID); [|done]. simpl in Hm.
    destruct (ownerHasFingerprint requested); [|done]. simpl in Hm.
    destruct (Z.eqb_spec (PID (SessionOwner s)) ownerPID); [|done]. simpl in Hm.
    destruct (ownerHasFingerprint (SessionOwner s)); [|done]. simpl in Hm.
    split; [done|]. split; [done|]. split; [done|]. intros Hne.
    rewrite (proj2 (String.eqb_neq _ _) Hne) in Hm. simpl in Hm.
    by destruct (String.eqb_spec (StartedAt (SessionOwner s)) (StartedAt requested)).
  - intros i Hi. by rewrite lookup_delete_ne.
  - intros host a. by rewrite map_lookup_filter_Some.
Qed.

(** Splitting a successful registration into its steps. *)
Lemma Upsert_Ret r req save manifest s r' :
  Upsert r req save manifest = (Ret s, r') ->
  exists s0 als cs r1, s = set_aliases s0 als cs /\ blockingAppRootSessionLocked r s0 = None
    /\ claimAliasesLocked r s0 (ClaimAliases req) = (als, cs, r1)
    /\ sessions r' = <[SessionID s := s]> (sessions r1) /\ aliases r' = aliases r1
    /\ currentByAppRoot r' = <[Filepath.Clean (AppRoot s) := SessionID s]> (currentByAppRoot r1).
Proof.
  unfold Upsert. destruct (NormalizeSessionID _) as [requested|e|m]; [|done..].
  destruct (NewSession _ _ _ _) as [s0|e|m]; [|done..].
  destruct (match _ with Some e => _ | None => false end); [done|].
  destruct (blockingAppRootSessionLocked r s0) eqn:Hb; [done|].
  destruct (claimAliasesLocked r s0 _) as [[als cs] r1] eqn:Hc. cbv zeta.
  destruct (save _); [done|]. destruct (manifest _); [done|]. intros [= <- <-].
  exists s0, als, cs, r1. done.
Qed.

(** Registering never takes a live alias from another session unless asked:
    without [ClaimAliases], every lease of another session whose recorded owner is
    not known to be gone is still in place after a successful registration. *)
Theorem Upsert_keeps_live_leases r req save manifest s r' host a :
  keys_ok (sessions r) ->
  Upsert r req save manifest = (Ret s, r') -> ClaimAliases req = false ->
  Strings.TrimSpace (SessionID s) = SessionID s ->
  aliases r !! host = Some a -> al_SessionID a <> SessionID s -> aliasLeaseOwnerStale a = false ->
  aliases r' !! host = Some a.
Proof.
  intros Hk Hu Hf Ht Ha Hne Hst.
  destruct (Upsert_Ret _ _ _ _ _ _ Hu) as (s0 & als & cs & r1 & -> & _ & Hc & _ & -> & _).
  destruct (claimAliases_inv _ _ _ _ _ _ Hk Hc) as (_ & _ & _ & Hn). by eapply Hn.
Qed.

(** One live session per app root: after a successful registration the session
    is current for its app root, and no other session of that root has an owner
    that is still running. *)
Theorem Upsert_exclusive r req save manifest s r' :
  keys_ok (sessions r) -> Upsert r req save manifest = (Ret s, r') ->
  sessions r' !! SessionID s = Some s
  /\ currentByAppRoot r' !! Filepath.Clean (AppRoot s) = Some (SessionID s)
  /\ forall id s', sessions r' !! id = Some s' -> id <> SessionID s ->
       Filepath.Clean (AppRoot s') = Filepath.Clean (AppRoot s) ->
       sessionBlocksAppRootRegistration s' = false.
Proof.
  intros Hk Hu. destruct (Upsert_Ret _ _ _ _ _ _ Hu) as (s0 & als & cs & r1 & -> & Hb & Hc & -> & _ & ->).
  destruct (claimAliases_inv _ _ _ _ _ _ Hk Hc) as (Hsame & _).
  split; [apply lookup_insert_eq|]. split; [apply lookup_insert_eq|].
  intros id s' Hs' Hne Hroot. rewrite lookup_insert_ne in Hs' by done.
  destruct (same_sessions_lookup' _ _ _ _ Hsame Hs') as (x & Hx & als' & cs' & ->).
  unfold blockingAppRootSessionLocked in Hb.
  destruct (list_find _ _) as [[i [k y]]|] eqn:Hf; [done|]. apply list_find_None in Hf.
  pose proof (proj1 (Forall_forall _ _) Hf (id, x)) as Hx'. rewrite elem_of_iterate in Hx'.
  specialize (Hx' Hx). cbn beta in Hx'. simpl in Hx', Hne, Hroot |- *.
  apply not_true_iff_false. intros Hblk. apply Hx'.
  rewrite (Hk _ _ Hx), (proj2 (String.eqb_neq _ _) Hne), Hroot, String.eqb_refl. exact Hblk.
Qed.
(** ** Writing the registry and reading it back *)
(** Reading the values of a map one by one gives the map back when the reader
    stores each value, as it is, under its key. *)
Lemma fold_left_values {A} (load_one : gmap string A -> A -> gmap string A) (key : A -> string)
    (l : list A) (m : gmap string A) :
  l ≡ₚ map snd (map_to_list m) ->
  (forall k a, m !! k = Some a -> key a = k /\ forall acc, load_one acc a = <[k := a]> acc) ->
  fold_left load_one l ∅ = m.
Proof.
  intros Hl Hload.
  assert (map (fun a => (key a, a)) l ≡ₚ map_to_list m) as Hp.
  { rewrite Hl, map_map. erewrite map_ext_in; [by rewrite map_id|].
    intros [k a] Hin%list_elem_of_In. apply elem_of_map_to_list in Hin. simpl. by rewrite (proj1 (Hload _ _ Hin)). }
  rewrite <- (fold_left_entries _ _ Hp). clear Hp. generalize (∅ : gmap string A).
  assert (Forall (fun a => m !! key a = Some a) l) as Hall.
  { rewrite Hl. apply Forall_forall. intros a Hin%list_elem_of_In. apply in_map_iff in Hin as ([k a'] & <- & Hin).
    apply list_elem_of_In, elem_of_map_to_list in Hin. simpl. by rewrite (proj1 (Hload _ _ Hin)). }
  clear Hl. induction Hall as [|a l Ha _ IH]; intros acc; simpl; [done|].
  by rewrite (proj2 (Hload _ _ Ha)), IH.
Qed.

Lemma fold_iterate_id {A} (f : gmap string A -> string * A -> gmap string A) (m : gmap string A) :
  (forall k v acc, m !! k = Some v -> f acc (k, v) = <[k := v]> acc) -> fold_left f (iterate m) ∅ = m.
Proof.
  intros Hf. rewrite <- (fold_left_entries (iterate m) m (iterate_perm A m)) at 2.
  assert (Forall (fun e => m !! e.1 = Some e.2) (iterate m)) as Hall.
  { apply Forall_forall. intros [k v] Hin. by apply elem_of_iterate in Hin. }
  generalize (∅ : gmap string A). induction Hall as [|[k v] l Hkv _ IH]; intros acc; simpl; [done|].
  simpl in Hkv. by rewrite (Hf _ _ _ Hkv), IH.
Qed.

Lemma sorted_values {A} (before : A -> A -> bool) (m : gmap string A) :
  sort_stable before (map snd (iterate m)) ≡ₚ map snd (map_to_list m).
Proof. rewrite sort_stable_perm. apply Permutation_map, iterate_perm. Qed.

(** The texts of a registry are in the form the agent stores them in. *)
Record canonical (r : Registry) : Prop := {
  can_sessions : forall id s, sessions r !! id = Some s -> SessionID s = id /\ id <> "";
  can_substrates : forall kind s, substrates r !! kind = Some s ->
    sub_Kind s = kind /\ sanitizeLabel kind = kind /\ kind <> "";
  can_leases : forall host a, aliases r !! host = Some a ->
    al_Host a = host /\ normalizeRouteHost host = host /\ host <> ""
    /\ normalizeAliasRoute (al_Route a) = al_Route a /\ al_Route a <> ""
    /\ Strings.TrimSpace (al_SessionID a) <> "";
  can_current : forall root id, currentByAppRoot r !! root = Some id ->
    Strings.TrimSpace root = root /\ Filepath.Clean root = root /\ root <> ""
    /\ Strings.TrimSpace id = id /\ id <> "";
  can_scheme : Strings.TrimSpace (scheme r) = scheme r /\ scheme r <> ""
}.

Lemma load_current_to_file r :
  canonical r -> load_current ∅ (copyRawStringMap (currentByAppRoot r)) = currentByAppRoot r.
Proof.
  intros Hc. assert (copyRawStringMap (currentByAppRoot r) = currentByAppRoot r) as ->;
    apply fold_iterate_id; intros root id acc Hid; cbv beta zeta;
    destruct (can_current _ Hc _ _ Hid) as (Hr & Hcl & Hrne & Hi & Hine);
    by rewrite Hr, ?Hcl, Hi, !(proj2 (String.eqb_neq _ _)).
Qed.

Lemma load_sessions_to_file r :
  canonical r ->
  fold_left load_session (map json_session (sortedSessions (sessions r))) ∅ = json_session <$> sessions r.
Proof.
  intros Hc. apply (fold_left_values _ SessionID).
  - rewrite map_to_list_fmap. change (prod_map id json_session <$> ?l) with (map (prod_map id json_session) l).
    unfold sortedSessions, sortSessions.
    rewrite (Permutation_map json_session (sorted_values session_before (sessions r))), !map_map. done.
  - intros id s Hs. apply lookup_fmap_Some in Hs as (s' & <- & Hs').
    destruct (can_sessions _ Hc _ _ Hs') as [Hid Hne]. split; [done|].
    intros acc. unfold load_session. simpl. by rewrite Hid, (proj2 (String.eqb_neq _ _) Hne).
Qed.

Lemma load_substrates_to_file r :
  canonical r -> fold_left load_substrate (sortedSubstrates (substrates r)) ∅ = substrates r.
Proof.
  intros Hc. apply (fold_left_values _ sub_Kind); [apply sorted_values|].
  intros kind s Hs. destruct (can_substrates _ Hc _ _ Hs) as (Hk & Hsan & Hne). split; [done|].
  intros acc. unfold load_substrate. rewrite Hk, Hsan, (proj2 (String.eqb_neq _ _) Hne).
  destruct s. simpl in Hk. by subst.
Qed.

Lemma load_aliases_to_file r :
  canonical r -> fold_left load_alias (sortedAliases (aliases r)) ∅ = aliases r.
Proof.
  intros Hc. apply (fold_left_values _ al_Host); [apply sorted_values|].
  intros host a Ha. destruct (can_leases _ Hc _ _ Ha) as (Hh & Hn & Hne & Hr & Hrne & Hs). split; [done|].
  intros acc. unfold load_alias, normalizeAliasLease. cbn [al_Host al_Route].
  rewrite Hh, Hn, Hr, !(proj2 (String.eqb_neq _ _)) by done. cbn [orb].
  destruct a. simpl in Hh. by subst.
Qed.

(** Restarting the agent loses only the report tokens: opening the file
    written for a registry whose texts are in stored form gives a registry with
    the same sessions up to their report token, the same substrates, leases and
    current sessions, and a host index that routes only to registered sessions
    with a route or a lease for the host. *)
Theorem OpenRegistry_to_file r :
  canonical r ->
  exists r', OpenRegistry (router r) [scheme r] (Ret (Some (to_file r))) = Ret r'
  /\ router r' = router r /\ scheme r' = scheme r
  /\ sessions r' = json_session <$> sessions r /\ substrates r' = substrates r /\ aliases r' = aliases r
  /\ currentByAppRoot r' = currentByAppRoot r
  /\ index_ok r' (routeHosts r').
Proof.
  intros Hc. destruct (can_scheme _ Hc) as [Ht Hne].
  exists (rebuildRouteHostIndexLocked (set_hosts (set_sessions r (json_session <$> sessions r)) ∅)). split.
  { unfold OpenRegistry. rewrite Ht, (proj2 (String.eqb_neq _ _) Hne). unfold load, mbind, outcome_bind.
    cbn [negb to_file file_Sessions file_Substrates file_Aliases file_CurrentByAppRoot].
    cbn [empty_registry set_sessions set_substrates set_leases set_current
         sessions substrates aliases currentByAppRoot].
    rewrite (load_sessions_to_file r Hc), (load_substrates_to_file r Hc), (load_aliases_to_file r Hc),
      (load_current_to_file r Hc). done. }
  do 6 (split; [done|]).
  set (r0 := set_hosts _ ∅). change (index_ok r0 (routeHosts (rebuildRouteHostIndexLocked r0))).
  apply rebuild_index_ok. intros id s Hs. apply lookup_fmap_Some in Hs as (s' & <- & Hs').
  exact (proj1 (can_sessions _ Hc _ _ Hs')).
Qed.
End registry.

(** ** Runs of the registry

    Operations happen one after the other, each in a world of its own: time
    passes, processes come and go, and saving may fail. *)
Inductive step {UT : UnicodeTables} (r : Registry) : Registry -> Prop :=
| step_upsert (W : World) (MO : MapOrder W) req save manifest res r' :
    canonical_request req -> Upsert r req save manifest = (res, r') -> step r r'
| step_delete (W : World) (MO : MapOrder W) id ownerPID owner strict save res r' :
    delete_session r id ownerPID owner strict save = (res, r') -> step r r'
| step_upsert_substrate (W : World) (MO : MapOrder W) req save res r' :
    UpsertSubstrate r req save = (res, r') -> step r r'
| step_delete_substrate (W : World) kind save res r' :
    DeleteSubstrate r kind save = (res, r') -> step r r'.

Definition reachable {UT : UnicodeTables} (addr sch : string) (r : Registry) : Prop :=
  rtc step (empty_registry addr sch) r.

Lemma empty_inv {UT : UnicodeTables} addr sch : inv (empty_registry addr sch).
Proof.
  split; simpl.
  - by intros id s.
  - by intros host a.
  - by intros root id.
  - by intros host tgt.
Qed.

Lemma step_inv {UT : UnicodeTables} r r' : inv r -> step r r' -> inv r'.
Proof.
  intros Hinv []; eauto using Upsert_inv, delete_session_inv, UpsertSubstrate_inv, DeleteSubstrate_inv.
Qed.

Lemma reachable_inv {UT : UnicodeTables} addr sch r : reachable addr sch r -> inv r.
Proof.
  intros Hr. pose proof (empty_inv addr sch) as H0. revert H0.
  induction Hr as [r|r1 r2 r3 Hs _ IH]; [done|]. intros H1. apply IH. by eapply step_inv.
Qed.


(** ** The theorems on a concrete machine *)
#[local] Existing Instance ascii_tables.

(** Process 100 runs; the owner recorded for it matches. *)
#[local] Instance demo_world : World := {|
  processOwnerInfo := fun pid =>
    if pid =? 100 then {| info_StartedAt := "t0"; info_Exe := "/bin/scenery"; info_Cmdline := ["scenery"; "up"] |}
    else {| info_StartedAt := ""; info_Exe := ""; info_Cmdline := [] |};
  getpid := 1; executable := None; args := ["agent"]; git_branch := fun _ => "main"; cwd := "/work";
  sha256_hex := fun s => "0123456789abcdef"; now := 7; iterate := fun A m => map_to_list m
|}.

#[local] Instance demo_order : MapOrder demo_world.
Proof. intros A m. reflexivity. Qed.

Definition demo_req (root id : string) (pid : Z) : RegisterRequest :=
  {| req_BaseAppID := "notes"; req_AppRoot := root; req_SessionID := id; req_Branch := ""; req_Status := "";
     req_OwnerPID := pid; req_Owner := no_owner; req_AppPID := ""; req_Processes := ∅;
     req_Backends := {["api" := {| Network := "tcp"; Addr := "127.0.0.1:4000" |}]};
     req_Namespace := {| Workspace := ""; BaseDomain := ""; Hosts := {["api" := "api.notes.dev"]} |};
     req_ReportToken := ""; ClaimOwner := false; ClaimAliases := false |}.

Definition saved : Registry -> option string := fun _ => None.
Definition written : Session -> option string := fun _ => None.

Definition demo_registry : Registry :=
  (Upsert (empty_registry "127.0.0.1:9440" "http") (demo_req "/src/a" "one" 100) saved written).2.


(** The session an operation returned. *)
Definition returned (o : outcome agent_error Session * Registry) : option Session :=
  match o.1 with Ret s => Some s | _ => None end.

Definition demo_session : option Session :=
  returned (Upsert (empty_registry "127.0.0.1:9440" "http") (demo_req "/src/a" "one" 100) saved written).
Definition demo_second : option Session := returned (Upsert demo_registry (demo_req "/src/b" "two" 100) saved written).

Lemma demo_keys : keys_ok (sessions demo_registry).
Proof.
  apply (reachable_inv "127.0.0.1:9440" "http"). eapply rtc_l; [|apply rtc_refl].
  apply (step_upsert _ demo_world demo_order (demo_req "/src/a" "one" 100) saved written
           (Upsert (empty_registry "127.0.0.1:9440" "http") (demo_req "/src/a" "one" 100) saved written).1).
  - right. vm_compute. discriminate.
  - vm_compute. reflexivity.
Qed.

Lemma DeleteOwnedIdentity_safe_witness :
  match demo_session with
  | Some s => session_pid s = 100
      /\ sessions (DeleteOwnedIdentity demo_registry " one" 100 (SessionOwner s) true saved).2 !! "one" = None
  | None => False
  end.
Proof.
  destruct demo_session as [s|] eqn:Es; [|vm_compute in Es; discriminate Es].
  assert (DeleteOwnedIdentity demo_registry " one" 100 (SessionOwner s) true saved
    = (Ret (Some s, true), (DeleteOwnedIdentity demo_registry " one" 100 (SessionOwner s) true saved).2)) as Hd.
  { vm_compute in Es. injection Es as <-. vm_compute. reflexivity. }
  destruct (DeleteOwnedIdentity_safe demo_registry " one" 100 (SessionOwner s) true saved s _ ltac:(reflexivity) Hd)
    as (Hpid & _ & Hgone & _).
  split; [exact Hpid|exact Hgone].
Defined.

Lemma Upsert_keeps_live_leases_witness :
  al_SessionID <$> aliases (Upsert demo_registry (demo_req "/src/b" "two" 100) saved written).2 !! "api.notes.dev" = Some "one".
Proof.
  destruct (aliases demo_registry !! "api.notes.dev") as [a|] eqn:Ea; [|vm_compute in Ea; discriminate Ea].
  destruct demo_second as [s|] eqn:Es; [|vm_compute in Es; discriminate Es].
  assert (Upsert demo_registry (demo_req "/src/b" "two" 100) saved written
    = (Ret s, (Upsert demo_registry (demo_req "/src/b" "two" 100) saved written).2)) as Hu.
  { vm_compute in Es. injection Es as <-. vm_compute. reflexivity. }
  rewrite (Upsert_keeps_live_leases demo_registry (demo_req "/src/b" "two" 100) saved written s
             (Upsert demo_registry (demo_req "/src/b" "two" 100) saved written).2 "api.notes.dev" a demo_keys Hu).
  - vm_compute in Ea. injection Ea as <-. reflexivity.
  - reflexivity.
  - vm_compute in Es. injection Es as <-. reflexivity.
  - exact Ea.
  - vm_compute in Es, Ea. injection Es as <-. injection Ea as <-. discriminate.
  - vm_compute in Ea. injection Ea as <-. vm_compute. reflexivity.
Defined.

Lemma Upsert_exclusive_witness :
  match demo_second with
  | Some s => sessions (Upsert demo_registry (demo_req "/src/b" "two" 100) saved written).2 !! SessionID s = Some s
      /\ currentByAppRoot (Upsert demo_registry (demo_req "/src/b" "two" 100) saved written).2 !! Filepath.Clean (AppRoot s)
         = Some (SessionID s)
  | None => False
  end.
Proof.
  destruct demo_second as [s|] eqn:Es; [|vm_compute in Es; discriminate Es].
  assert (Upsert demo_registry (demo_req "/src/b" "two" 100) saved written
    = (Ret s, (Upsert demo_registry (demo_req "/src/b" "two" 100) saved written).2)) as Hu.
  { vm_compute in Es. injection Es as <-. vm_compute. reflexivity. }
  destruct (Upsert_exclusive demo_registry (demo_req "/src/b" "two" 100) saved written s _ demo_keys Hu)
    as (Hs & Hc & _).
  split; [exact Hs|exact Hc].
Defined.
(** The registry of one session, with a substrate. *)
Definition demo_stored : Registry :=
  (UpsertSubstrate demo_registry
     {| us_Kind := "Temporal"; us_Status := ""; us_OwnerPID := 100; us_Owner := no_owner; us_PIDs := ∅;
        us_Owners := ∅; us_URLs := {["ui" := "http://127.0.0.1:8233"]}; us_Endpoints := ∅; us_LastExit := None;
        us_ComponentExits := ∅ |} saved).2.

Lemma demo_stored_canonical : canonical demo_stored.
Proof.
  split.
  - apply (bool_decide_eq_true_1 (map_Forall (fun id s => SessionID s = id /\ id <> "") (sessions demo_stored))).
    vm_compute. reflexivity.
  - apply (bool_decide_eq_true_1 (map_Forall (fun kind s =>
      sub_Kind s = kind /\ sanitizeLabel kind = kind /\ kind <> "") (substrates demo_stored))).
    vm_compute. reflexivity.
  - apply (bool_decide_eq_true_1 (map_Forall (fun host a =>
      al_Host a = host /\ normalizeRouteHost host = host /\ host <> ""
      /\ normalizeAliasRoute (al_Route a) = al_Route a /\ al_Route a <> ""
      /\ Strings.TrimSpace (al_SessionID a) <> "") (aliases demo_stored))).
    vm_compute. reflexivity.
  - apply (bool_decide_eq_true_1 (map_Forall (fun root id =>
      Strings.TrimSpace root = root /\ Filepath.Clean root = root /\ root <> ""
      /\ Strings.TrimSpace id = id /\ id <> "") (currentByAppRoot demo_stored))).
    vm_compute. reflexivity.
  - split; vm_compute; [reflexivity|discriminate].
Qed.

Lemma OpenRegistry_to_file_witness :
  exists r', OpenRegistry (router demo_stored) [scheme demo_stored] (Ret (Some (to_file demo_stored))) = Ret r'
  /\ sessions r' = json_session <$> sessions demo_stored /\ aliases r' = aliases demo_stored
  /\ is_Some (sessions r' !! "one") /\ is_Some (substrates r' !! "temporal") /\ is_Some (aliases r' !! "api.notes.dev")
  /\ currentByAppRoot r' !! "/src/a" = Some "one".
Proof.
  destruct (OpenRegistry_to_file demo_stored demo_stored_canonical) as (r' & Ho & _ & _ & Hs & Hb & Ha & Hc & _).
  exists r'. split; [exact Ho|]. split; [exact Hs|]. split; [exact Ha|].
  split; [rewrite Hs; vm_compute; eauto|]. split; [rewrite Hb; vm_compute; eauto|].
  split; [rewrite Ha; vm_compute; eauto|]. rewrite Hc. vm_compute. reflexivity.
Defined.
End Registry.
