(* ===== verification/Http.v ===== *)
(** * Headers, the environment and the HTTP layers of the runtime
    ([runtime/server.go], [runtime/gzip.go])

    [Http] is the part of [net/http] the runtime uses: header maps with
    canonical names and what a connection receives from a [ResponseWriter].
    [Cors] models the cross-origin headers, [Gzip] the negotiation of
    compression and the compressing writer as a state machine over the
    operations of a handler. *)
From stdpp Require Import base tactics list gmap strings sorting.
From Stdlib Require Import ZArith Lia Ascii.
From S2P Require Import Prelude GoStrings WireCodec Redact Errs Middleware.

Module Http.
Abbreviation Header := Middleware.Header.

Definition upper_letter (c : ascii) : bool := in_range 65 90 (code c).
Definition lower_letter (c : ascii) : bool := in_range 97 122 (code c).

(** The bytes of an RFC 7230 token. *)
Definition token_byte (c : ascii) : bool :=
  upper_letter c || lower_letter c || in_range 48 57 (code c)
  || Strings.has_byte c "!#$%&'*+-.^_`|~".

Fixpoint canonical_loop (upper : bool) (s : string) : string :=
  match s with
  | EmptyString => ""
  | String c s' =>
    let c := if upper && lower_letter c then chr (code c - 32)
             else if negb upper && upper_letter c then chr (code c + 32) else c in
    String c (canonical_loop (Ascii.eqb c "-") s')
  end.

(** [textproto.CanonicalMIMEHeaderKey]. *)
Definition CanonicalHeaderKey (s : string) : string :=
  if Strings.all_bytes token_byte s then canonical_loop true s else s.

Fixpoint assoc {A} (k : string) (m : list (string * A)) : option A :=
  match m with
  | [] => None
  | (k', v) :: m' => if String.eqb k k' then Some v else assoc k m'
  end.

Lemma assoc_map_set {A} k k' (v : A) m :
  assoc k (Wire.map_set k' v m) = if String.eqb k k' then Some v else assoc k m.
Proof.
  induction m as [|[k1 v1] m IH]; simpl; [done|].
  destruct (String.eqb_spec k' k1) as [->|Hne]; simpl.
  - by destruct (String.eqb_spec k k1).
  - destruct (str_lt k' k1); simpl; [done|]. rewrite IH.
    destruct (String.eqb_spec k k1) as [->|]; [|done]. by destruct (String.eqb_spec k1 k'); simplify_eq.
Qed.

Lemma assoc_header_del k k' (h : Header) :
  assoc k (Middleware.header_del k' h) = if String.eqb k k' then None else assoc k h.
Proof.
  unfold Middleware.header_del. induction h as [|[k1 v1] h IH]; simpl; [by destruct (String.eqb k k')|].
  destruct (String.eqb_spec k1 k') as [->|Hne]; simpl.
  - rewrite IH. by destruct (String.eqb k k').
  - rewrite IH. destruct (String.eqb_spec k k1) as [->|]; [|done]. by destruct (String.eqb_spec k1 k').
Qed.

(** [Header.Values], [Get], [Set] and [Del]. *)
Definition Values (h : Header) (key : string) : list string := default [] (assoc (CanonicalHeaderKey key) h).
Definition Get (h : Header) (key : string) : string := default "" (head (Values h key)).
Definition Set_ (h : Header) (key value : string) : Header := Wire.map_set (CanonicalHeaderKey key) [value] h.
Definition Del (h : Header) (key : string) : Header := Middleware.header_del (CanonicalHeaderKey key) h.

Lemma Values_Set_eq h key v : Values (Set_ h key v) key = [v].
Proof. unfold Values, Set_. by rewrite assoc_map_set, String.eqb_refl. Qed.

Lemma Get_Set_eq h key v : Get (Set_ h key v) key = v.
Proof. unfold Get. by rewrite Values_Set_eq. Qed.

Lemma Values_Set_ne h key key' v :
  CanonicalHeaderKey key <> CanonicalHeaderKey key' -> Values (Set_ h key v) key' = Values h key'.
Proof.
  intros Hne. unfold Values, Set_. rewrite assoc_map_set.
  by rewrite (proj2 (String.eqb_neq _ _)) by done.
Qed.

Lemma Get_Set_ne h key key' v :
  CanonicalHeaderKey key <> CanonicalHeaderKey key' -> Get (Set_ h key v) key' = Get h key'.
Proof. intros Hne. unfold Get. by rewrite Values_Set_ne. Qed.

Lemma Values_Del_eq h key : Values (Del h key) key = [].
Proof. unfold Values, Del. by rewrite assoc_header_del, String.eqb_refl. Qed.

Lemma Values_Del_ne h key key' :
  CanonicalHeaderKey key <> CanonicalHeaderKey key' -> Values (Del h key) key' = Values h key'.
Proof.
  intros Hne. unfold Values, Del. rewrite assoc_header_del.
  by rewrite (proj2 (String.eqb_neq _ _)) by done.
Qed.
End Http.

Create Rewrite HintDb http.
#[export] Hint Rewrite @Http.assoc_map_set @Http.assoc_header_del Http.Values_Set_eq Http.Get_Set_eq
  Http.Values_Del_eq : http.

(** Distinct constant header names have distinct canonical forms. *)
Ltac header_ne := let H := fresh in intros H; vm_compute in H; discriminate H.

(** ** Cross-origin headers *)
Module Cors.
Import Http.

(** The request as these layers see it. *)
Record Request := { Method : string; req_header : Header }.

Section cors.
Context {UT : UnicodeTables}.

(** [osGetenv]; an unset variable is empty. *)
Variable getenv : string -> string.

Definition envBool (name : string) : bool :=
  bool_decide (Strings.ToLower (Strings.TrimSpace (getenv name)) ∈ ["1"; "true"; "yes"; "on"]).

Definition devEndpointsEnabled : bool := envBool "SCENERY_DEV_ENDPOINTS" || envBool "SCENERY_DEV_SUPERVISOR".

Definition corsOriginAllowed (origin : string) : bool :=
  if devEndpointsEnabled then true
  else existsb (fun item =>
    let item := Strings.TrimSpace item in
    negb (String.eqb item "") && (String.eqb item "*" || Strings.EqualFold item origin))
    (Strings.Split (getenv "SCENERY_CORS_ALLOW_ORIGINS") ",").

(** The non-empty tokens of a comma-separated value. *)
Definition tokens (value : string) : list string :=
  List.filter (fun part => negb (String.eqb part "")) (map Strings.TrimSpace (Strings.Split value ",")).

(** [addVary]: [existing] is the set the two loops build; sorting makes the
    order in which the map is visited irrelevant. *)
Definition addVary (h : Header) (values : list string) : Header :=
  let existing : gset string := list_to_set (concat (map tokens (Values h "Vary"))) in
  let existing := existing ∪ list_to_set
    (List.filter (fun v => negb (String.eqb v "")) (map Strings.TrimSpace values)) in
  if bool_decide (existing = ∅) then h
  else Set_ h "Vary" (Strings.Join (sort_stable str_lt (elements existing)) ", ").

Definition applyCORSHeaders (h : Header) (req : Request) : Header :=
  let origin := Strings.TrimSpace (Get (req_header req) "Origin") in
  if String.eqb origin "" then h
  else if negb (corsOriginAllowed origin) then h
  else
    let h := Set_ h "Access-Control-Allow-Origin" origin in
    let h := Set_ h "Access-Control-Allow-Credentials" "true" in
    let h := addVary h ["Origin"; "Authorization"] in
    if String.eqb (Method req) "OPTIONS"
    then addVary h ["Access-Control-Request-Method"; "Access-Control-Request-Headers"] else h.

(** The global handler of OPTIONS requests: the headers of its 204 response. *)
Definition globalOPTIONS (h : Header) (req : Request) : Header :=
  let h := applyCORSHeaders h req in
  let h := if negb (String.eqb (Get h "Allow") "")
           then Set_ h "Access-Control-Allow-Methods" (Get h "Allow") else h in
  let requested := Get (req_header req) "Access-Control-Request-Headers" in
  if negb (String.eqb requested "") then Set_ h "Access-Control-Allow-Headers" requested else h.

(** ** The Vary header is a set *)
Definition vary (h : Header) : gset string := list_to_set (concat (map tokens (Values h "Vary"))).

Definition clean (v : string) : Prop := v <> "" /\ Strings.TrimSpace v = v /\ Strings.has_byte "," v = false.

Lemma tokens_clean value : Forall clean (tokens value).
Proof.
  unfold tokens. apply List.Forall_forall. intros x [Hx Hne]%filter_In.
  apply in_map_iff in Hx as (y & <- & Hy). split; [by apply negb_true_iff, String.eqb_neq in Hne|].
  split; [apply Strings.TrimSpace_idemp|]. apply Strings.has_byte_TrimSpace.
  by apply (proj1 (List.Forall_forall _ _) (Strings.Split_no_byte value ",") y).
Qed.

Lemma tokens_Join l : Forall clean l -> tokens (Strings.Join l ", ") = l.
Proof.
  assert (forall x, clean x -> negb (String.eqb x "") = true) as Hne.
  { intros x (Hx & _). by rewrite (proj2 (String.eqb_neq _ _) Hx). }
  assert (forall x l, clean x -> tokens (x +:+ ("," +:+ (" " +:+ l))) = x :: tokens l) as Hcons.
  { intros x l' (Hx & Ht & Hb). unfold tokens. rewrite Strings.Split_app by done.
    change ("," +:+ (" " +:+ l')) with (String "," (String " " l')). rewrite Strings.Split_sep.
    rewrite Strings.string_app_nil_r. cbn [map List.filter]. rewrite Ht, Hne by done. f_equal.
    change (String " " l') with (" " +:+ l'). rewrite Strings.Split_app by done.
    pose proof (Strings.Split_not_nil l' ",") as Hs. by destruct (Strings.Split l' ","). }
  induction 1 as [|x l Hx Hl IH]; [done|]. destruct l as [|y l].
  - simpl. destruct Hx as (Hne' & Ht & Hb). unfold tokens. rewrite <- (Strings.string_app_nil_r x) at 1.
    rewrite Strings.Split_app by done. cbn [Strings.Split map List.filter].
    rewrite Strings.string_app_nil_r, Ht. by rewrite (proj2 (String.eqb_neq _ _) Hne').
  - change (Strings.Join (x :: y :: l) ", ") with (x +:+ ("," +:+ (" " +:+ Strings.Join (y :: l) ", "))).
    by rewrite Hcons, IH.
Qed.

(** [addVary] is union: afterwards the Vary header lists exactly the tokens it
    listed before and the new ones. *)
Lemma addVary_vary h values :
  Forall (fun v => Strings.has_byte "," v = false) values ->
  vary (addVary h values)
  = vary h ∪ list_to_set (List.filter (fun v => negb (String.eqb v "")) (map Strings.TrimSpace values)).
Proof.
  intros Hv. unfold addVary. fold (vary h). set (new := list_to_set _ : gset string).
  case_bool_decide as He.
  { replace new with (∅ : gset string) by set_solver. by rewrite (right_id_L ∅ (∪)). }
  assert (forall v, v ∈ vary h ∪ new -> clean v) as Hclean.
  { intros v [Hv'|Hv']%elem_of_union.
    - unfold vary in Hv'. apply elem_of_list_to_set, list_elem_of_In, in_concat in Hv' as (l & Hl & Hin).
      apply in_map_iff in Hl as (x & <- & _). by apply (proj1 (List.Forall_forall _ _) (tokens_clean x)).
    - subst new. apply elem_of_list_to_set, list_elem_of_In, filter_In in Hv' as [Hin Hne].
      apply in_map_iff in Hin as (x & <- & Hx). split; [by apply negb_true_iff, String.eqb_neq in Hne|].
      split; [apply Strings.TrimSpace_idemp|]. apply Strings.has_byte_TrimSpace.
      by apply (proj1 (List.Forall_forall _ _) Hv). }
  unfold vary at 1. rewrite Values_Set_eq. simpl. rewrite app_nil_r, tokens_Join.
  - apply set_eq. intros v. by rewrite elem_of_list_to_set, sort_stable_perm, elem_of_elements.
  - apply Forall_forall. intros v. rewrite sort_stable_perm, elem_of_elements. apply Hclean.
Qed.

Lemma addVary_Values h values key :
  CanonicalHeaderKey key <> "Vary" -> Values (addVary h values) key = Values h key.
Proof.
  intros Hk. unfold addVary. case_bool_decide; [done|]. by apply Values_Set_ne.
Qed.

(** A response names an allowed origin only for a request from an origin the
    configuration allows, and then names that origin alone and varies with it;
    otherwise the headers are left as they were. *)
Theorem applyCORSHeaders_safe h req :
  let origin := Strings.TrimSpace (Get (req_header req) "Origin") in
  if negb (String.eqb origin "") && corsOriginAllowed origin
  then Values (applyCORSHeaders h req) "Access-Control-Allow-Origin" = [origin]
       /\ Values (applyCORSHeaders h req) "Access-Control-Allow-Credentials" = ["true"]
       /\ vary h ∪ {["Origin"; "Authorization"]} ⊆ vary (applyCORSHeaders h req)
       /\ (Method req = "OPTIONS" -> {["Access-Control-Request-Method"; "Access-Control-Request-Headers"]}
             ⊆ vary (applyCORSHeaders h req))
  else applyCORSHeaders h req = h.
Proof.
  cbv zeta. unfold applyCORSHeaders. set (origin := Strings.TrimSpace _).
  destruct (String.eqb origin ""); [done|]. destruct (corsOriginAllowed origin); [|done]. cbn [negb andb].
  set (h1 := Set_ (Set_ h _ _) _ _).
  assert (vary h1 = vary h) as Hv.
  { unfold vary, h1. rewrite !Values_Set_ne by header_ne. done. }
  assert (vary h ∪ {["Origin"; "Authorization"]} ⊆ vary (addVary h1 ["Origin"; "Authorization"])) as Hsub.
  { rewrite addVary_vary, Hv by (repeat constructor).
    apply union_mono_l. by vm_compute. }
  destruct (String.eqb_spec (Method req) "OPTIONS") as [Hm|Hm].
  - rewrite !addVary_Values by header_ne. unfold h1.
    rewrite Values_Set_eq, Values_Set_ne, Values_Set_eq by header_ne.
    do 2 (split; [done|]). rewrite (addVary_vary (addVary _ _)) by (repeat constructor). split.
    + etrans; [exact Hsub|]. apply union_subseteq_l.
    + intros _. etrans; [|apply union_subseteq_r]. by vm_compute.
  - rewrite !addVary_Values by header_ne. unfold h1.
    rewrite Values_Set_eq, Values_Set_ne, Values_Set_eq by header_ne. done.
Qed.
End cors.
End Cors.

(** ** Compression *)
Module Gzip.
Import Http Cors.

Section gzip.
Context {UT : UnicodeTables}.

(** [strconv.ParseFloat(s, 64)], as the bit pattern of its result. *)
Variable ParseFloat64 : string -> outcome string Z.

(** [f > 0] on the bit pattern of a float64. *)
Definition float_positive (bits : Z) : bool := (0 <? bits) && (bits <=? 2047 * 2 ^ 52).

Definition float_one : Z := 1023 * 2 ^ 52.

(** The quality after one parameter of a coding. *)
Definition quality_param (quality : Z) (param : string) : Z :=
  let '(key, value, ok) := Strings.Cut (Strings.TrimSpace param) "=" in
  if negb ok || negb (Strings.EqualFold (Strings.TrimSpace key) "q") then quality
  else match ParseFloat64 (Strings.TrimSpace value) with Ret q => q | _ => quality end.

(** The coding of an item of Accept-Encoding and whether its quality is positive;
    [None] for an item without a coding. *)
Definition accept_item (item : string) : option (string * bool) :=
  match Strings.Split item ";" with
  | [] => None
  | first :: params =>
    let coding := Strings.ToLower (Strings.TrimSpace first) in
    if String.eqb coding "" then None
    else Some (coding, float_positive (fold_left quality_param params float_one))
  end.

(** [gzipMentioned], [gzipAllowed] and [starAllowed]. *)
Record accept_state := { gzipMentioned : bool; gzipAllowed : bool; starAllowed : bool }.

Definition accept_step (st : accept_state) (item : string) : accept_state :=
  match accept_item item with
  | None => st
  | Some (coding, positive) =>
    if String.eqb coding "gzip"
    then {| gzipMentioned := true; gzipAllowed := positive; starAllowed := starAllowed st |}
    else if String.eqb coding "*"
    then {| gzipMentioned := gzipMentioned st; gzipAllowed := gzipAllowed st; starAllowed := positive |}
    else st
  end.

Definition requestAcceptsGzip (req : Request) : bool :=
  let header := Get (req_header req) "Accept-Encoding" in
  if String.eqb header "" then false
  else
    let st := fold_left accept_step (Strings.Split header ",")
                {| gzipMentioned := false; gzipAllowed := false; starAllowed := false |} in
    gzipAllowed st || (negb (gzipMentioned st) && starAllowed st).

Definition isHTTPUpgrade (req : Request) : bool :=
  if String.eqb (Get (req_header req) "Upgrade") "" then false
  else existsb (fun value =>
    existsb (fun part => Strings.EqualFold (Strings.TrimSpace part) "upgrade") (Strings.Split value ","))
    (Values (req_header req) "Connection").

(** ** What the connection receives

    The body of a response is what was written: plain bytes, or bytes handed to
    the compressor, whose stream is complete once it is closed. *)
Inductive chunk := Plain (data : list ascii) | Compressed (data : list ascii) | Closed.

Record conn := { c_header : Header; c_sent : option (Z * Header); c_body : list chunk }.

(** The [http.ResponseWriter] of the server: the first final status counts. *)
Definition conn_WriteHeader (status : Z) (c : conn) : conn :=
  match c_sent c with
  | Some _ => c
  | None => {| c_header := c_header c; c_sent := Some (status, c_header c); c_body := c_body c |}
  end.

Definition conn_write (x : chunk) (c : conn) : conn :=
  let c := conn_WriteHeader 200 c in
  {| c_header := c_header c; c_sent := c_sent c; c_body := c_body c ++ [x] |}.

Definition conn_set_header (h : Header) (c : conn) : conn :=
  {| c_header := h; c_sent := c_sent c; c_body := c_body c |}.

(** Without compression. *)
Definition direct_op (c : conn) (op : Middleware.rawop) : conn :=
  match op with
  | Middleware.OpSetHeader k vs => conn_set_header (Wire.map_set k vs (c_header c)) c
  | Middleware.OpWriteHeader status => conn_WriteHeader status c
  | Middleware.OpWrite data => conn_write (Plain data) c
  | Middleware.OpFlush => conn_WriteHeader 200 c
  end.

(** ** [gzipResponseWriter]; [gzip] says whether the compressor is in use *)
Record gzipResponseWriter := { under : conn; status : Z; wroteHead : bool; gzip : bool }.

Definition shouldGzipResponse (req : Request) (status : Z) (h : Header) : bool * Header :=
  if String.eqb (Method req) "HEAD" then (false, h)
  else if negb (String.eqb (Get (req_header req) "Range") "") then (false, h)
  else if (status <? 200) || (status =? 204) || (status =? 304) then (false, h)
  else if negb (String.eqb (Get h "Content-Encoding") "") then (false, h)
  else if Strings.HasPrefix (Strings.ToLower (Strings.TrimSpace (Get h "Content-Type"))) "text/event-stream"
  then (false, h)
  else (true, addVary h ["Accept-Encoding"]).

Definition start (req : Request) (w : gzipResponseWriter) : gzipResponseWriter :=
  if wroteHead w then w
  else
    let '(compress, h) := shouldGzipResponse req (status w) (c_header (under w)) in
    let h := if compress
             then Set_ (Del (addVary h ["Accept-Encoding"]) "Content-Length") "Content-Encoding" "gzip"
             else h in
    {| under := conn_WriteHeader (status w) (conn_set_header h (under w)); status := status w;
       wroteHead := true; gzip := compress |}.

Definition with_under (w : gzipResponseWriter) (c : conn) : gzipResponseWriter :=
  {| under := c; status := status w; wroteHead := wroteHead w; gzip := gzip w |}.

Definition gzip_op (req : Request) (w : gzipResponseWriter) (op : Middleware.rawop) : gzipResponseWriter :=
  match op with
  | Middleware.OpSetHeader k vs => with_under w (conn_set_header (Wire.map_set k vs (c_header (under w))) (under w))
  | Middleware.OpWriteHeader st =>
    if wroteHead w then w
    else {| under := under w; status := st; wroteHead := wroteHead w; gzip := gzip w |}
  | Middleware.OpWrite data =>
    let w := start req w in
    with_under w (conn_write (if gzip w then Compressed data else Plain data) (under w))
  | Middleware.OpFlush =>
    let w := start req w in with_under w (conn_WriteHeader 200 (under w))
  end.

Definition close (w : gzipResponseWriter) : gzipResponseWriter :=
  let w := if gzip w then with_under w (conn_write Closed (under w)) else w in
  if wroteHead w then w
  else {| under := conn_WriteHeader (status w) (under w); status := status w; wroteHead := true; gzip := gzip w |}.

(** [withGzip]: the connection after the handler has run; the server sends the
    header of a response without one when the handler returns. *)
Definition withGzip (req : Request) (h : Header) (ops : list Middleware.rawop) : conn :=
  let c := {| c_header := h; c_sent := None; c_body := [] |} in
  if negb (requestAcceptsGzip req) || isHTTPUpgrade req
  then conn_WriteHeader 200 (fold_left direct_op ops c)
  else
    let w := {| under := c; status := 200; wroteHead := false; gzip := false |} in
    conn_WriteHeader 200 (under (close (fold_left (gzip_op req) ops w))).

(** ** The negotiation is decided by the last mention *)
Definition last_mention (coding : string) (items : list (string * bool)) : option bool :=
  snd <$> last (List.filter (fun e => String.eqb e.1 coding) items).

Lemma last_mention_snoc coding items c b :
  last_mention coding (items ++ [(c, b)]) = if String.eqb c coding then Some b else last_mention coding items.
Proof.
  unfold last_mention. rewrite List.filter_app. simpl. destruct (String.eqb c coding).
  - by rewrite last_snoc.
  - by rewrite app_nil_r.
Qed.

(** gzip is accepted iff the last item naming gzip has a positive quality, or
    no item names it and the last "*" has a positive quality. *)
Theorem requestAcceptsGzip_spec req :
  let items := omap accept_item (Strings.Split (Get (req_header req) "Accept-Encoding") ",") in
  requestAcceptsGzip req =
  match last_mention "gzip" items with
  | Some positive => positive
  | None => default false (last_mention "*" items)
  end.
Proof.
  cbv zeta. unfold requestAcceptsGzip. set (header := Get _ _).
  destruct (String.eqb_spec header "") as [->|_]; [done|].
  set (l := Strings.Split header ","). clearbody l.
  set (init := {| gzipMentioned := false; gzipAllowed := false; starAllowed := false |}).
  assert (fold_left accept_step l init =
    {| gzipMentioned := bool_decide (is_Some (last_mention "gzip" (omap accept_item l)));
       gzipAllowed := default false (last_mention "gzip" (omap accept_item l));
       starAllowed := default false (last_mention "*" (omap accept_item l)) |}) as ->.
  { induction l as [|x l IH] using rev_ind; [done|].
    rewrite fold_left_app, omap_app. cbn [fold_left]. rewrite IH. unfold accept_step. simpl.
    destruct (accept_item x) as [[c b]|]; [|by rewrite app_nil_r].
    rewrite !last_mention_snoc. destruct (String.eqb_spec c "gzip") as [->|]; [done|].
    by destruct (String.eqb c "*"). }
  simpl. by destruct (last_mention "gzip" (omap accept_item l)) as [[]|].
Qed.
(** ** Compression is transparent *)

(** The statuses a handler sets before it starts the body. *)
Fixpoint pre_headers (ops : list Middleware.rawop) : list Z :=
  match ops with
  | Middleware.OpSetHeader _ _ :: ops' => pre_headers ops'
  | Middleware.OpWriteHeader st :: ops' => st :: pre_headers ops'
  | _ => []
  end.

Definition chunk_bytes (x : chunk) : list ascii :=
  match x with Plain data | Compressed data => data | Closed => [] end.

(** The bytes of the body after decompression. *)
Definition body_bytes (l : list chunk) : list ascii := concat (map chunk_bytes l).

(** The body and the header agree on the encoding: a plain body, or one complete
    compressed stream announced in the header. *)
Definition well_encoded (c : conn) : Prop :=
  (exists l, c_body c = map Plain l)
  \/ (exists l st h, c_body c = map Compressed l ++ [Closed] /\ c_sent c = Some (st, h)
       /\ Values h "Content-Encoding" = ["gzip"] /\ Values h "Content-Length" = []
       /\ "Accept-Encoding" ∈ vary h).

(** The header that announces compression. *)
Definition gzip_header (h : Header) : Prop :=
  Values h "Content-Encoding" = ["gzip"] /\ Values h "Content-Length" = [] /\ "Accept-Encoding" ∈ vary h.

(** How the compressing writer and the direct connection correspond while [ops]
    are still to be run. *)
Inductive related (w : gzipResponseWriter) (d : conn) (ops : list Middleware.rawop) : Prop :=
| rel_before :
    wroteHead w = false -> gzip w = false -> c_sent (under w) = None -> c_body (under w) = [] -> c_body d = [] ->
    (c_sent d = None /\ status w = 200 /\ (length (pre_headers ops) <= 1)%nat
     \/ fst <$> c_sent d = Some (status w) /\ pre_headers ops = []) ->
    related w d ops
| rel_after h l :
    wroteHead w = true -> c_sent (under w) = Some (status w, h) -> fst <$> c_sent d = Some (status w) ->
    (gzip w = true -> gzip_header h) ->
    c_body (under w) = map (if gzip w then Compressed else Plain) l -> c_body d = map Plain l ->
    related w d ops.

Lemma addVary_mentions h : "Accept-Encoding" ∈ vary (addVary h ["Accept-Encoding"]).
Proof.
  rewrite addVary_vary by (repeat constructor). apply elem_of_union_r. by vm_compute.
Qed.

Lemma start_header req st h :
  let '(compress, h1) := shouldGzipResponse req st h in
  compress = true ->
  gzip_header (Set_ (Del (addVary h1 ["Accept-Encoding"]) "Content-Length") "Content-Encoding" "gzip").
Proof.
  destruct (shouldGzipResponse req st h) as [compress h1]. intros _. split; [apply Values_Set_eq|].
  rewrite Values_Set_ne, Values_Del_eq by header_ne. split; [done|].
  unfold vary. rewrite Values_Set_ne, Values_Del_ne by header_ne. apply addVary_mentions.
Qed.

Lemma start_related req w d ops :
  related w d ops -> pre_headers ops = [] ->
  wroteHead (start req w) = true
  /\ related (start req w) (conn_WriteHeader 200 d) ops.
Proof.
  intros [Hw Hg Hs Hb Hd Hcase|h l Hw Hs Hd Hg Hb Hbd] Hpre; unfold start; rewrite Hw.
  - pose proof (start_header req (status w) (c_header (under w))) as Hh.
    destruct (shouldGzipResponse req (status w) (c_header (under w))) as [compress h1]. split; [done|].
    eapply (rel_after _ _ _ _ []); simpl.
    + done.
    + unfold conn_WriteHeader. simpl. by rewrite Hs.
    + destruct Hcase as [(Hn & -> & _)|[Hsome _]]; unfold conn_WriteHeader; [by rewrite Hn|].
      destruct (c_sent d) as [[st hd]|] eqn:E; [by rewrite E|done].
    + destruct compress; [auto|done].
    + unfold conn_WriteHeader. simpl. by rewrite Hs.
    + unfold conn_WriteHeader. by destruct (c_sent d).
  - split; [done|]. assert (conn_WriteHeader 200 d = d) as ->.
    { unfold conn_WriteHeader. by destruct (c_sent d). }
    by eapply rel_after.
Qed.

Lemma gzip_step req w d op ops :
  related w d (op :: ops) -> related (gzip_op req w op) (direct_op d op) ops.
Proof.
  intros Hr. destruct op as [k vs|st|data|]; simpl.
  - destruct Hr as [Hw Hg Hs Hb Hd Hcase|h l Hw Hs Hd Hg Hb Hbd].
    + by apply rel_before.
    + by eapply rel_after.
  - destruct Hr as [Hw Hg Hs Hb Hd Hcase|h l Hw Hs Hd Hg Hb Hbd]; rewrite Hw; unfold conn_WriteHeader.
    + destruct Hcase as [(Hn & _ & Hlen)|[_ Hp]]; [|done]. simpl in Hlen. rewrite Hn.
      apply rel_before; simpl; try done. right. split; [done|]. apply nil_length_inv. lia.
    + destruct (c_sent d) as [[st' hd]|] eqn:E; [|done]. eapply rel_after; try done. by rewrite E.
  - destruct (start_related req w d (Middleware.OpWrite data :: ops) Hr) as [Hw Hrel]; [done|].
    destruct Hrel as [Hw' | h l _ Hs Hd Hg Hb Hbd]; [congruence|].
    unfold conn_write at 2. destruct (c_sent (conn_WriteHeader 200 d)) as [[st hd]|] eqn:E; [|done].
    eapply (rel_after _ _ _ h (l ++ [data])); simpl; try done.
    + unfold conn_write, conn_WriteHeader. by rewrite Hs.
    + unfold conn_write, conn_WriteHeader. rewrite Hs. simpl. rewrite Hb, map_app. by destruct (gzip _).
    + by rewrite Hbd, map_app.
  - destruct (start_related req w d (Middleware.OpFlush :: ops) Hr) as [Hw Hrel]; [done|].
    destruct Hrel as [Hw' | h l _ Hs Hd Hg Hb Hbd]; [congruence|].
    assert (conn_WriteHeader 200 (under (start req w)) = under (start req w)) as ->.
    { unfold conn_WriteHeader. by rewrite Hs. }
    by eapply rel_after.
Qed.

Lemma gzip_run req ops w d :
  related w d ops -> related (fold_left (gzip_op req) ops w) (fold_left direct_op ops d) [].
Proof. revert w d. induction ops as [|op ops IH]; intros w d Hr; [done|]. simpl. by apply IH, gzip_step. Qed.

Lemma body_bytes_map (f : list ascii -> chunk) l :
  (forall x, chunk_bytes (f x) = x) -> body_bytes (map f l) = concat l.
Proof. intros Hf. unfold body_bytes. rewrite map_map. f_equal. erewrite map_ext by exact Hf. apply map_id. Qed.

Lemma conn_WriteHeader_sent c st : is_Some (c_sent c) -> conn_WriteHeader st c = c.
Proof. intros [x E]. unfold conn_WriteHeader. by rewrite E. Qed.

Lemma direct_plain ops c :
  (exists l, c_body c = map Plain l) -> exists l, c_body (fold_left direct_op ops c) = map Plain l.
Proof.
  revert c. induction ops as [|op ops IH]; intros c Hc; [done|]. simpl. apply IH.
  destruct Hc as [l Hl].
  destruct op; simpl; unfold conn_write, conn_WriteHeader; try (exists l; by destruct (c_sent c)).
  exists (l ++ [data]). rewrite map_app. by destruct (c_sent c); simpl; rewrite Hl.
Qed.

End gzip.

End Gzip.
