(* ===== verification/EnvPolicy.v ===== *)
(** * The environment policy ([internal/envpolicy])

    [EnvPolicy] models the registry of environment variables (registry.go:
    validation, the index of exact names and patterns, lookup, globs,
    redaction) and the scan of a source tree for references (scan.go: tokens,
    reference kinds, scopes, the walk over the tree). *)
From stdpp Require Import base tactics list gmap strings sorting.
From Stdlib Require Import ZArith Lia Ascii.
From S2P Require Import Prelude GoStrings.

Module EnvPolicy.
Definition SchemaVersion : string := "scenery.environment.registry.v1".
Definition RedactedValue : string := "<redacted>".

Record Variable_ := {
  Name : string; Match : string; Scope_ : string; Direction : string; Category : string;
  Stability : string; Secret : bool; AllowedIn : list string; Owner : string;
  Rationale : string; PreferredSurface : string; Replacement : string; Sunset : string;
  Docs : list string
}.

(** [exact = None] is the nil map of a registry that was never indexed. *)
Record Registry := {
  SchemaVersion_ : string; Variables : list Variable_;
  exact : option (gmap string Variable_); patterns : list Variable_
}.

Definition matchMode (v : Variable_) : string :=
  if String.eqb (Match v) "" then "exact" else Match v.

Definition Allows (v : Variable_) (scope : string) : bool := bool_decide (scope ∈ AllowedIn v).

(** ** Validation *)
Inductive error :=
| ErrSchemaVersion (got : string)
| ErrEmptyName (i : nat)
| ErrInvalidMatch (name mode : string)
| ErrDuplicate (name : string)
| ErrMissingMetadata (name : string)
| ErrNoScopes (name : string).

Definition blank (s : string) : bool := String.eqb (Strings.TrimSpace s) "".

Definition validate_variable (i : nat) (seen : gset string) (v : Variable_) : outcome error (gset string) :=
  if blank (Name v) then Fail (ErrEmptyName i)
  else
    let mode := matchMode v in
    if negb (String.eqb mode "exact") && negb (String.eqb mode "prefix") && negb (String.eqb mode "glob")
    then Fail (ErrInvalidMatch (Name v) (Match v))
    else
      let key := mode +:+ ":" +:+ Name v in
      if bool_decide (key ∈ seen) then Fail (ErrDuplicate (Name v))
      else
        let seen := {[ key ]} ∪ seen in
        if blank (Scope_ v) || blank (Direction v) || blank (Category v) || blank (Stability v)
           || blank (Owner v) || blank (Rationale v)
        then Fail (ErrMissingMetadata (Name v))
        else match AllowedIn v with [] => Fail (ErrNoScopes (Name v)) | _ => Ret seen end.

Fixpoint validate_loop (i : nat) (seen : gset string) (l : list Variable_) : outcome error (gset string) :=
  match l with
  | [] => Ret seen
  | v :: l' => seen ← validate_variable i seen v; validate_loop (S i) seen l'
  end.

Definition Validate (r : Registry) : outcome error () :=
  if negb (String.eqb (SchemaVersion_ r) SchemaVersion) then Fail (ErrSchemaVersion (SchemaVersion_ r))
  else _ ← validate_loop 0 ∅ (Variables r); Ret ().

(** ** Globs *)

(** The loop over the parts between the first and the last: [value[pos:]] is
    searched for each part in turn. *)
Fixpoint glob_loop (value : string) (pos : nat) (parts : list string) : option nat :=
  match parts with
  | [] => Some pos
  | part :: parts' =>
    let next := Strings.Index (Strings.sdrop pos value) part in
    if next <? 0 then None
    else glob_loop value (pos + (Z.to_nat next + String.length part)) parts'
  end.

Definition globMatch (pattern value : string) : bool :=
  if String.eqb pattern "*" then true
  else match Strings.Split pattern "*" with
  | [] | [_] => String.eqb pattern value
  | first :: rest =>
    if negb (Strings.HasPrefix value first) then false
    else match glob_loop value (String.length first) (removelast rest) with
    | None => false
    | Some pos =>
      let last := List.last rest "" in
      String.eqb last "" || Strings.HasSuffix (Strings.sdrop pos value) last
    end
  end.

Definition matches (v : Variable_) (name : string) : bool :=
  let mode := matchMode v in
  if String.eqb mode "prefix" then Strings.HasPrefix name (Name v)
  else if String.eqb mode "glob" then globMatch (Name v) name
  else String.eqb (Name v) name.

(** ** Index and lookup *)
Definition is_pattern (v : Variable_) : bool :=
  String.eqb (matchMode v) "prefix" || String.eqb (matchMode v) "glob".

Definition longer (a b : Variable_) : bool :=
  Nat.ltb (String.length (Name b)) (String.length (Name a)).

Definition index_step (st : gmap string Variable_ * list Variable_) (v : Variable_) :
  gmap string Variable_ * list Variable_ :=
  if is_pattern v then (st.1, st.2 ++ [v]) else (<[Name v := v]> st.1, st.2).

Section lookup.
Context {SS : SliceSort}.

Definition index (r : Registry) : Registry :=
  let st := fold_left index_step (Variables r) (∅, []) in
  {| SchemaVersion_ := SchemaVersion_ r; Variables := Variables r;
     exact := Some st.1; patterns := slice_sort longer st.2 |}.

(** [LoadRegistry] on the registry the file's JSON decodes to. *)
Definition LoadRegistry (decoded : Registry) : outcome error Registry :=
  _ ← Validate decoded; Ret (index decoded).

Definition ensure_index (r : Registry) : Registry :=
  match exact r with None => index r | Some _ => r end.

(** The variable found, and the registry, which the first lookup indexes. *)
Definition Find (r : Registry) (name : string) : option Variable_ * Registry :=
  let r := ensure_index r in
  match default ∅ (exact r) !! name with
  | Some v => (Some v, r)
  | None => (List.find (fun v => matches v name) (patterns r), r)
  end.
End lookup.

Section redaction.
Context {UT : UnicodeTables} {SS : SliceSort}.

Definition SecretLikeName (name : string) : bool :=
  let normalized := Strings.ToUpper (Strings.ReplaceAll name "-" "_") in
  existsb (Strings.Contains normalized)
    ["SECRET"; "TOKEN"; "API_KEY"; "PASSWORD"; "PRIVATE_KEY"; "DATABASE_URL"; "AUTH_DATABASE_URL"; "JWT"].

Definition RedactValue (r : Registry) (name value : string) : string * Registry :=
  let '(found, r) := Find r name in
  (if match found with Some v => Secret v | None => false end then RedactedValue
   else if SecretLikeName name then RedactedValue
   else value, r).
End redaction.

(** ** Scanning *)
Record Reference := { File : string; Kind : string; Scope : string }.

#[export] Instance Reference_eq_dec : EqDecision Reference.
Proof. solve_decision. Defined.

Definition scannableEnvFile (rel : string) : bool :=
  bool_decide (Filepath.Ext rel ∈
    [".go"; ".sh"; ".mjs"; ".js"; ".ts"; ".tsx"; ".md"; ".json"; ".hcl"; ".sql"]).

Definition fileScope (rel : string) : string :=
  if Strings.HasPrefix rel "docs/"
     || bool_decide (rel ∈ ["README.md"; "AGENTS.md"; "SKILL.md"; "PLANS.md"; "PLAN.md"]) then "docs"
  else if Strings.HasPrefix rel "internal/testpostgres/" then "test"
  else if Strings.HasSuffix rel "_test.go" || Strings.Contains rel "_test." then "test"
  else if Strings.HasPrefix rel "testdata/" || Strings.HasPrefix rel "benchmarks/" then "fixture"
  else "code".

Definition isEnvStart (c : ascii) : bool := in_range 65 90 (code c).
Definition isEnvChar (c : ascii) : bool :=
  in_range 65 90 (code c) || in_range 48 57 (code c) || Ascii.eqb c "_".

Fixpoint env_run (s : string) : string :=
  match s with
  | EmptyString => ""
  | String c s' => if isEnvChar c then String c (env_run s') else ""
  end.

Definition env_prefixes : list string := ["SCENERY_"; "GF_"].
Definition env_names : list string :=
  ["DATABASE_URL"; "API_BASE_URL"; "PUBLIC_APP_URL"; "AUTH_COOKIE_DOMAIN"; "AUTH_EMAIL_FROM"; "JWT_SECRET";
   "CLICOLOR_FORCE"; "NO_COLOR";
   "TEMPORAL_ADDRESS"; "TEMPORAL_NAMESPACE"; "TEMPORAL_API_KEY"; "TEMPORAL_TLS_SERVER_NAME";
   "TEMPORAL_TLS_CA_CERT_FILE"; "TEMPORAL_TLS_CERT_FILE"; "TEMPORAL_TLS_KEY_FILE";
   "OTEL_EXPORTER_OTLP_METRICS_ENDPOINT"; "OTEL_EXPORTER_OTLP_LOGS_ENDPOINT"; "OTEL_EXPORTER_OTLP_TRACES_ENDPOINT";
   "VITE_API_BASE_URL"; "VITE_ELECTRIC_URL";
   "ELECTRIC_URL"; "ELECTRIC_PORT"; "ELECTRIC_INSECURE"; "ELECTRIC_USAGE_REPORTING"; "ELECTRIC_REPLICATION_STREAM_ID"].

Definition looksLikeEnvName (token : string) : bool :=
  if Nat.ltb (String.length token) 3 || negb (Strings.Contains token "_") then false
  else if String.eqb (Strings.Trim token "_") "" then false
  else if existsb (fun prefix => Strings.HasPrefix token prefix && negb (String.eqb token prefix)) env_prefixes
  then true
  else bool_decide (token ∈ env_names).

(** The loop of [extractEnvTokens]: after a run of name bytes that starts at
    [i] and ends at [j], the index goes on at [j + 1], so [skip] bytes are
    passed over. *)
Fixpoint extract_loop (skip : nat) (text : string) (set : gset string) : gset string :=
  match text with
  | EmptyString => set
  | String c rest =>
    match skip with
    | S skip' => extract_loop skip' rest set
    | O =>
      if negb (isEnvStart c) then extract_loop O rest set
      else
        let token := String c (env_run rest) in
        let set := if looksLikeEnvName token then {[ token ]} ∪ set else set in
        extract_loop (String.length token) rest set
    end
  end.

Definition sortedSet (set : gset string) : list string := sort_stable str_lt (elements set).
Definition extractEnvTokens (text : string) : list string := sortedSet (extract_loop O text ∅).

Definition referenceKind (text token : string) : string :=
  let idx := Strings.Index text token in
  if idx <? 0 then "mention"
  else
    let start := Z.max (idx - 120) 0 in
    let end_ := Z.min (idx + Z.of_nat (String.length token) + 120) (Z.of_nat (String.length text)) in
    let context := Strings.stake (Z.to_nat (end_ - start)) (Strings.sdrop (Z.to_nat start) text) in
    if Strings.Contains context "Setenv" || Strings.Contains context (token +:+ "=")
       || Strings.Contains context "Env:" || Strings.Contains context "Env =" then "write"
    else if Strings.Contains context "Getenv" || Strings.Contains context "LookupEnv"
       || Strings.Contains context "process.env" then "read"
    else "mention".

Definition appendReference (refs : list Reference) (ref : Reference) : list Reference :=
  if bool_decide (ref ∈ refs) then refs else refs ++ [ref].

(** The tree [filepath.WalkDir] visits: a file with its content ([None] when it
    cannot be read), a directory with its entries in lexical order (none when
    it cannot be read). *)
Inductive node :=
| NFile (content : option string)
| NDir (entries : list (string * node)).

Abbreviation ScanResult := (gmap string (list Reference)).

Definition scan_file (rel : string) (content : option string) (result : ScanResult) : ScanResult :=
  if negb (scannableEnvFile rel) then result
  else match content with
  | None => result
  | Some data =>
    let scope := fileScope rel in
    fold_left (fun result token =>
        let ref := {| File := rel; Kind := referenceKind data token; Scope := scope |} in
        <[token := appendReference (default [] (result !! token)) ref]> result)
      (extractEnvTokens data) result
  end.

Definition child_rel (rel name : string) : string :=
  if String.eqb rel "." then name else rel +:+ "/" +:+ name.

(** [SkipDir] is the option of the caller, [None] when it is nil. *)
Fixpoint walk (SkipDir : option (string -> bool)) (rel : string) (n : node) (result : ScanResult) : ScanResult :=
  match n with
  | NFile content => scan_file rel content result
  | NDir entries =>
    if negb (String.eqb rel ".") && match SkipDir with Some f => f rel | None => false end then result
    else if String.eqb rel "internal/envpolicy" then result
    else (fix go (l : list (string * node)) (result : ScanResult) : ScanResult :=
      match l with
      | [] => result
      | (name, child) :: l' => go l' (walk SkipDir (child_rel rel name) child result)
      end) entries result
  end.

Definition ref_before (a b : Reference) : bool :=
  if negb (String.eqb (File a) (File b)) then str_lt (File a) (File b)
  else if negb (String.eqb (Scope a) (Scope b)) then str_lt (Scope a) (Scope b)
  else str_lt (Kind a) (Kind b).

Definition Scan {SS : SliceSort} (SkipDir : option (string -> bool)) (root : node) : ScanResult :=
  slice_sort ref_before <$> walk SkipDir "." root ∅.

Definition VariableNames (result : ScanResult) : list string :=
  sort_stable str_lt (map fst (map_to_list result)).

(** ** Scopes *)
Fixpoint scope_loop (scope : string) (refs : list Reference) : string + string :=
  match refs with
  | [] => inr scope
  | ref :: refs' =>
    if String.eqb (Scope ref) "code" then inl "runtime"
    else if String.eqb (Scope ref) "fixture" then
      scope_loop (if bool_decide (scope ∈ [""; "docs"; "test"]) then "fixture" else scope) refs'
    else if String.eqb (Scope ref) "test" then
      scope_loop (if bool_decide (scope ∈ [""; "docs"]) then "test" else scope) refs'
    else if String.eqb (Scope ref) "docs" then
      scope_loop (if String.eqb scope "" then "docs" else scope) refs'
    else scope_loop scope refs'
  end.

Definition EffectiveScope (refs : list Reference) (name : string) : string :=
  match scope_loop "" refs with
  | inl s => s
  | inr scope =>
    if String.eqb scope "" then "runtime"
    else if (Strings.HasPrefix name "SCENERY_TEST_" || Strings.HasPrefix name "SCENERY_INTEGRATION_")
            && negb (String.eqb scope "docs") then "test"
    else scope
  end.

Definition ScopeAllowedInRegistry (scope : string) : string :=
  if String.eqb scope "runtime" then "code"
  else if String.eqb scope "fixture" || String.eqb scope "test" then "tests"
  else scope.

(** ** A glob matches what its pattern means *)

(** The meaning of a pattern: a star stands for any text, any other byte for
    itself. *)
Inductive Glob : string -> string -> Prop :=
| Glob_nil : Glob "" ""
| Glob_byte c p v : c <> "*"%char -> Glob p v -> Glob (String c p) (String c v)
| Glob_star p g v : Glob p v -> Glob (String "*" p) (g +:+ v).

(** The same on the parts of the split pattern: what may follow the first. *)
Fixpoint gaps (parts : list string) (v : string) : Prop :=
  match parts with
  | [] => v = ""
  | p :: ps => exists g r, v = g +:+ p +:+ r /\ gaps ps r
  end.

Definition fits (parts : list string) (v : string) : Prop :=
  match parts with
  | [] => False
  | p :: ps => exists r, v = p +:+ r /\ gaps ps r
  end.

Lemma Glob_fits p v : Glob p v <-> fits (Strings.Split p "*") v.
Proof.
  revert v. induction p as [|c p IH]; intros v; simpl.
  - split; [inversion 1; by exists ""|]. intros (r & -> & ->). constructor.
  - destruct (Ascii.eqb_spec c "*") as [->|Hc].
    + destruct (Strings.Split p "*") as [|x xs] eqn:E; [by apply Strings.Split_not_nil in E|].
      simpl in *. split.
      * inversion 1 as [|? ? ? Hne|? g v' Hg]; [done|]. subst. apply IH in Hg as (r & -> & Hr).
        eexists. split; [reflexivity|]. by exists g, r.
      * intros (r & -> & g & r' & -> & Hr).
        change (Glob (String "*" p) (g +:+ (x +:+ r'))). apply Glob_star, IH. by exists r'.
    + destruct (Strings.Split p "*") as [|x xs] eqn:E; [by apply Strings.Split_not_nil in E|].
      simpl in *. split.
      * inversion 1 as [|? ? v' _ Hg|]; [|done]. subst. apply IH in Hg as (r & -> & Hr). by exists r.
      * intros (r & -> & Hr). rewrite Strings.string_app_cons. constructor; [done|]. apply IH. by exists r.
Qed.

(** A gap absorbs what the leftmost occurrence leaves over. *)
Lemma gaps_absorb p ps g v : gaps (p :: ps) v -> gaps (p :: ps) (g +:+ v).
Proof. intros (g' & r & -> & Hr). exists (g +:+ g'), r. by rewrite Strings.string_app_assoc. Qed.

Lemma sdrop_sdrop a b s : Strings.sdrop b (Strings.sdrop a s) = Strings.sdrop (a + b) s.
Proof. revert s. induction a as [|a IH]; intros [|c s]; simpl; try done; by destruct b. Qed.

Lemma glob_loop_gaps value pos mid last :
  (exists end_, glob_loop value pos mid = Some end_ /\
     exists p, Strings.sdrop end_ value = p +:+ last) <->
  gaps (mid ++ [last]) (Strings.sdrop pos value).
Proof.
  revert pos. induction mid as [|x mid IH]; intros pos; simpl.
  - split.
    + intros (e & [= <-] & p & E). exists p, "". by rewrite Strings.string_app_nil_r.
    + intros (g & r & E & ->). exists pos. split; [done|]. exists g. by rewrite E, Strings.string_app_nil_r.
  - unfold Strings.Index. destruct (Strings.cut_opt (Strings.sdrop pos value) x) as [[a b]|] eqn:Hcut.
    + rewrite (proj2 (Z.ltb_ge _ _)) by lia. rewrite IH, Nat2Z.id.
      pose proof (Strings.cut_opt_Some _ _ _ _ Hcut) as Hs.
      assert (Strings.sdrop (pos + (String.length a + String.length x)) value = b) as ->.
      { rewrite <- !sdrop_sdrop, Hs. by rewrite !Strings.sdrop_app. }
      split; [intros Hb; by exists a, b|]. intros (g & r & E & Hr).
      destruct (Strings.cut_opt_first _ _ _ _ E) as (a1 & b1 & g1 & E1 & ->).
      rewrite E1 in Hcut. injection Hcut as -> <-.
      destruct mid; simpl app in *; by apply gaps_absorb.
    + simpl. split; [by intros (? & ? & _)|]. intros (g & r & E & _).
      apply Strings.cut_opt_first in E as (? & ? & ? & E & _). congruence.
Qed.

(** [globMatch] decides the meaning of the pattern: taking the leftmost
    occurrence of every part loses no match, whatever the number of stars. *)
Theorem globMatch_spec pattern value : globMatch pattern value = true <-> Glob pattern value.
Proof.
  rewrite Glob_fits. unfold globMatch. destruct (String.eqb_spec pattern "*") as [->|Hne].
  - split; [|done]. intros _. exists value. split; [done|]. exists value, "".
    by rewrite Strings.string_app_nil_r.
  - destruct (Strings.Split pattern "*") as [|x [|y ys]] eqn:E.
    + by apply Strings.Split_not_nil in E.
    + assert (pattern = x) as ->. { by rewrite <- (Strings.Join_Split pattern "*"), E. }
      rewrite String.eqb_eq. simpl. split; [intros <-; exists ""; by rewrite Strings.string_app_nil_r|].
      by intros (r & -> & ->); rewrite Strings.string_app_nil_r.
    + cbn [fits]. destruct (Strings.HasPrefix value x) eqn:Hp; simpl negb; cbv iota.
      * apply Strings.HasPrefix_iff in Hp as [r ->].
        assert (forall P : string -> Prop, (exists r', x +:+ r = x +:+ r' /\ P r') <-> P r) as Hex.
        { intros P. split; [|by exists r]. intros (r' & Er & Hr').
          apply (f_equal (Strings.sdrop (String.length x))) in Er. rewrite !Strings.sdrop_app in Er. congruence. }
        rewrite Hex.
        assert (gaps (y :: ys) r <-> gaps (removelast (y :: ys) ++ [List.last (y :: ys) ""])
                  (Strings.sdrop (String.length x) (x +:+ r))) as ->
          by (by rewrite Strings.sdrop_app, <- app_removelast_last).
        rewrite <- glob_loop_gaps. destruct (glob_loop _ _ _) as [e|]; [|split; [done|by intros (? & ? & _)]].
        rewrite orb_true_iff, String.eqb_eq, Strings.HasSuffix_iff. split.
        -- intros [El|Hs]; exists e; split; try done. exists (Strings.sdrop e (x +:+ r)).
           by rewrite El, Strings.string_app_nil_r.
        -- intros (e' & [= <-] & Hs). by right.
      * split; [done|]. intros (r & -> & _). exfalso.
        assert (Strings.HasPrefix (x +:+ r) x = true) by (apply Strings.HasPrefix_iff; by exists r). congruence.
Qed.

(** ** Lookup finds the most specific entry *)
Definition exact_entry (l : list Variable_) (name : string) : option Variable_ :=
  last (filter (fun v => is_pattern v = false /\ Name v = name) l).

Lemma index_fold l m ps :
  fold_left index_step l (m, ps) =
    (fold_left (fun m v => if is_pattern v then m else <[Name v := v]> m) l m,
     ps ++ filter (fun v => is_pattern v = true) l).
Proof.
  revert m ps. induction l as [|v l IH]; intros m ps; cbn [fold_left]; [by rewrite app_nil_r|].
  unfold index_step at 2. rewrite filter_cons.
  destruct (is_pattern v) eqn:E; rewrite IH; cbn [fst snd].
  - rewrite decide_True by done. by rewrite <- app_assoc.
  - by rewrite decide_False by done.
Qed.

Lemma index_exact_lookup l (m : gmap string Variable_) name :
  fold_left (fun m v => if is_pattern v then m else <[Name v := v]> m) l m !! name =
    match exact_entry l name with Some v => Some v | None => m !! name end.
Proof.
  unfold exact_entry. revert m. induction l as [|v l IH]; intros m; cbn [fold_left]; [done|].
  rewrite IH, filter_cons. case_decide as Hv.
  - destruct Hv as [Hp Hn]. rewrite last_cons, Hp.
    destruct (last _); [done|]. subst. by rewrite lookup_insert_eq.
  - destruct (last _); [done|]. destruct (is_pattern v) eqn:Hp; [done|].
    apply lookup_insert_ne. naive_solver.
Qed.

Lemma longer_asym a b : longer a b = true -> longer b a = false.
Proof. unfold longer. rewrite Nat.ltb_lt, Nat.ltb_ge. lia. Qed.

Lemma longer_neg_trans a b c : longer b a = false -> longer c b = false -> longer c a = false.
Proof. unfold longer. rewrite !Nat.ltb_ge. lia. Qed.

Lemma find_sorted_first {A} (R : A -> A -> Prop) (f : A -> bool) l v :
  StronglySorted R l -> List.find f l = Some v ->
  forall w, w ∈ l -> f w = true -> w = v \/ R v w.
Proof.
  induction 1 as [|x l Hl IH Hx]; simpl; [done|]. destruct (f x) eqn:E.
  - intros [= <-] w Hw Hf. apply elem_of_cons in Hw as [->|Hw]; [by left|].
    right. rewrite Forall_forall in Hx. by apply Hx.
  - intros Hv w Hw Hf. apply elem_of_cons in Hw as [->|Hw]; [congruence|]. by apply IH.
Qed.

Section find.
Context {UT : UnicodeTables} {SS : SliceSort}.

(** A registry is fresh (as decoded) or indexed. *)
Definition consistent (r : Registry) : Prop :=
  exact r = None \/ (exact r = exact (index r) /\ patterns r = patterns (index r)).

Lemma ensure_index_spec r : consistent r ->
  Variables (ensure_index r) = Variables r /\ consistent (ensure_index r) /\
  (forall name, default ∅ (exact (ensure_index r)) !! name = exact_entry (Variables r) name) /\
  patterns (ensure_index r) = slice_sort longer (filter (fun v => is_pattern v = true) (Variables r)).
Proof.
  intros Hr. assert (forall name, default ∅ (exact (index r)) !! name = exact_entry (Variables r) name) as He.
  { intros name. unfold index. rewrite index_fold. etrans; [exact (index_exact_lookup _ ∅ name)|].
    by destruct (exact_entry _ _). }
  assert (patterns (index r) = slice_sort longer (filter (fun v => is_pattern v = true) (Variables r))) as Hp.
  { unfold index. by rewrite index_fold. }
  unfold ensure_index. destruct Hr as [E|[E1 E2]].
  - rewrite E. split_and!; [done| |done..]. by right.
  - destruct (exact r) eqn:E; [|done]. rewrite E, E1, E2. split_and!; [done| |done..].
    right. by rewrite E.
Qed.

(** Looking a name up in a consistent registry, indexed or not, returns
    an entry with exactly that name when there is one (the last), otherwise a
    pattern that matches with a name of maximal length, and nothing only when
    no entry matches; the registry stays consistent with the same variables. *)
Theorem Find_most_specific r name : consistent r ->
  match fst (Find r name) with
  | Some v => v ∈ Variables r /\ matches v name = true /\
      (forall w, w ∈ Variables r -> is_pattern w = false -> Name w = name -> is_pattern v = false) /\
      (forall w, w ∈ Variables r -> is_pattern v = true -> is_pattern w = true -> matches w name = true ->
         (String.length (Name w) <= String.length (Name v))%nat)
  | None => forall v, v ∈ Variables r -> matches v name = false
  end /\ Variables (snd (Find r name)) = Variables r /\ consistent (snd (Find r name)).
Proof.
  intros Hr. destruct (ensure_index_spec r Hr) as (Hv & Hc & He & Hp). unfold Find. rewrite He, Hp.
  assert (forall v, is_pattern v = false -> matches v name = String.eqb (Name v) name) as Hm.
  { intros v Hvp. unfold is_pattern in Hvp. apply orb_false_iff in Hvp as [E1 E2].
    unfold matches. by rewrite E1, E2. }
  destruct (exact_entry (Variables r) name) as [v|] eqn:Ee; cbn [fst snd]; (split; [|done]).
  - apply last_Some_elem_of, list_elem_of_filter in Ee as [[Hvp Hn] Hin].
    split_and!; [done|by rewrite Hm, Hn, String.eqb_refl|done|congruence].
  - assert (forall w, w ∈ Variables r -> is_pattern w = false -> Name w <> name) as Hno.
    { intros w Hw Hwp Hn. unfold exact_entry in Ee. apply last_None in Ee.
      apply (elem_of_nil w). rewrite <- Ee. by apply list_elem_of_filter. }
    set (ps := filter (fun v => is_pattern v = true) (Variables r)) in *.
    assert (forall w, w ∈ slice_sort longer ps <-> w ∈ Variables r /\ is_pattern w = true) as Hps.
    { intros w. rewrite (slice_sort_perm _ longer ps). unfold ps. rewrite list_elem_of_filter. tauto. }
    destruct (List.find _ _) as [v|] eqn:Ef.
    + pose proof (find_sorted_first _ _ _ _ (slice_sort_sorted _ _ ps longer_asym longer_neg_trans) Ef) as Hmax.
      apply List.find_some in Ef as [Hin Hmv]. apply list_elem_of_In, Hps in Hin as [Hin Hvp].
      split_and!; [done..| |].
      * intros w Hw Hwp Hn. by destruct (Hno w Hw Hwp).
      * intros w Hw _ Hwp Hwm. destruct (Hmax w) as [->|Hl]; [by apply Hps|done|lia|].
        unfold not_after, longer in Hl. apply Nat.ltb_ge in Hl. lia.
    + intros v Hin. destruct (is_pattern v) eqn:Hvp.
      * apply (List.find_none _ _ Ef). by apply list_elem_of_In, Hps.
      * rewrite Hm by done. apply String.eqb_neq. by apply Hno.
Qed.
End find.

Lemma Find_most_specific_witness :
  let v name mode := {| Name := name; Match := mode; Scope_ := "s"; Direction := "in"; Category := "c";
    Stability := "stable"; Secret := false; AllowedIn := ["code"]; Owner := "o"; Rationale := "r";
    PreferredSurface := ""; Replacement := ""; Sunset := ""; Docs := [] |} in
  let r := {| SchemaVersion_ := SchemaVersion; Variables := [v "SCENERY_" "prefix"; v "SCENERY_DEV_" "prefix"; v "HOME" ""];
    exact := None; patterns := [] |} in
  fst (@Find stable_slice_sort r "SCENERY_DEV_PORT") = Some (v "SCENERY_DEV_" "prefix") /\
  Variables (snd (@Find stable_slice_sort r "SCENERY_DEV_PORT")) = Variables r.
Proof.
  intros v r. split; [vm_compute; reflexivity|].
  apply (@Find_most_specific stable_slice_sort r "SCENERY_DEV_PORT"). by left.
Defined.

(** ** Redaction of registered names *)
Definition var_key (v : Variable_) : string := matchMode v +:+ ":" +:+ Name v.

Lemma validate_variable_Ret i seen v seen' : validate_variable i seen v = Ret seen' ->
  seen' = {[ var_key v ]} ∪ seen /\ (var_key v ∉ seen) /\ matchMode v ∈ ["exact"; "prefix"; "glob"].
Proof.
  unfold validate_variable. destruct (blank (Name v)); [done|].
  destruct (_ && _ && _) eqn:Em; [done|]. case_bool_decide as Hk; [done|].
  destruct (_ || _); [done|]. destruct (AllowedIn v); [done|]. intros [= <-]. split_and!; [done..|].
  rewrite !andb_false_iff, !negb_false_iff, !String.eqb_eq in Em. rewrite !elem_of_cons. tauto.
Qed.

Lemma validate_loop_Ret i seen l seen' : validate_loop i seen l = Ret seen' ->
  NoDup (map var_key l) /\ Forall (fun v => (var_key v ∉ seen) /\ matchMode v ∈ ["exact"; "prefix"; "glob"]) l.
Proof.
  revert i seen. induction l as [|v l IH]; intros i seen; simpl; [repeat constructor|].
  destruct (validate_variable i seen v) as [s1| |] eqn:E; [|done..]. cbn [mbind outcome_bind].
  intros Hl. apply validate_variable_Ret in E as (-> & Hv & Hm). apply IH in Hl as [Hnd Hall].
  split; [constructor; [|done]|constructor; [done|]].
  - rewrite list_elem_of_fmap. intros (w & E & Hw). rewrite Forall_forall in Hall.
    apply (proj1 (Hall w Hw)). rewrite <- E. set_solver.
  - eapply Forall_impl; [exact Hall|]. intros w [Hw ?]. split; [set_solver|done].
Qed.

Lemma Validate_NoDup r : Validate r = Ret () ->
  NoDup (map var_key (Variables r)) /\
  Forall (fun v => matchMode v ∈ ["exact"; "prefix"; "glob"]) (Variables r).
Proof.
  unfold Validate. destruct (negb _); [done|].
  destruct (validate_loop _ _ _) eqn:E; [|done..]. intros _. apply validate_loop_Ret in E as [? Hall].
  split; [done|]. eapply Forall_impl; [exact Hall|]. by intros w [_ ?].
Qed.

Lemma exact_entry_registered r v : Validate r = Ret () ->
  v ∈ Variables r -> matchMode v = "exact" -> exact_entry (Variables r) (Name v) = Some v.
Proof.
  intros [Hnd Hm]%Validate_NoDup Hv Hx. unfold exact_entry.
  assert (is_pattern v = false) as Hvp by (by unfold is_pattern; rewrite Hx).
  destruct (last (filter _ _)) as [w|] eqn:E.
  - apply last_Some_elem_of, list_elem_of_filter in E as [[Hwp Hn] Hw]. f_equal.
    eapply NoDup_map_inj; [exact Hnd|done..|]. unfold var_key. rewrite Hn, Hx. f_equal.
    rewrite Forall_forall in Hm. specialize (Hm w Hw). unfold is_pattern in Hwp.
    apply orb_false_iff in Hwp as [E1 E2]. apply String.eqb_neq in E1, E2.
    rewrite !elem_of_cons, elem_of_nil in Hm. tauto.
  - apply last_None in E. exfalso. apply (elem_of_nil v). rewrite <- E. by apply list_elem_of_filter.
Qed.

(** In a registry that validates, the value of a variable registered by
    its exact name is redacted exactly when the entry is secret or the name
    looks like one of a secret: no pattern entry overrides it. *)
Theorem RedactValue_registered `{UnicodeTables} {SS : SliceSort} r v value :
  Validate r = Ret () -> consistent r -> v ∈ Variables r -> matchMode v = "exact" ->
  fst (RedactValue r (Name v) value) =
    if Secret v || SecretLikeName (Name v) then RedactedValue else value.
Proof.
  intros Hval Hr Hv Hx. destruct (ensure_index_spec r Hr) as (_ & _ & He & _).
  unfold RedactValue, Find. rewrite He, (exact_entry_registered r v) by done. cbn [fst].
  by destruct (Secret v).
Qed.

Lemma RedactValue_registered_witness :
  let v name mode secret := {| Name := name; Match := mode; Scope_ := "s"; Direction := "in"; Category := "c";
    Stability := "stable"; Secret := secret; AllowedIn := ["code"]; Owner := "o"; Rationale := "r";
    PreferredSurface := ""; Replacement := ""; Sunset := ""; Docs := [] |} in
  let r := {| SchemaVersion_ := SchemaVersion; Variables := [v "SCENERY_*" "glob" false; v "SCENERY_PIN" "" true];
    exact := None; patterns := [] |} in
  fst (@RedactValue ascii_tables stable_slice_sort r "SCENERY_PIN" "1234") = RedactedValue.
Proof.
  intros v r.
  refine (@RedactValue_registered ascii_tables stable_slice_sort r (v "SCENERY_PIN" "" true) "1234" _ _ _ _).
  - vm_compute. reflexivity.
  - by left.
  - right. left.
  - reflexivity.
Defined.

(** ** Scanning reports every reference once *)
Definition skipped (SkipDir : option (string -> bool)) (rel : string) : bool :=
  negb (String.eqb rel ".") && match SkipDir with Some f => f rel | None => false end
  || String.eqb rel "internal/envpolicy".

(** A readable file of the tree below [n] that no skipped directory hides. *)
Inductive visited (SkipDir : option (string -> bool)) : string -> node -> string -> string -> Prop :=
| visited_file rel data : visited SkipDir rel (NFile (Some data)) rel data
| visited_dir rel entries name child r d :
    skipped SkipDir rel = false -> (name, child) ∈ entries ->
    visited SkipDir (child_rel rel name) child r d -> visited SkipDir rel (NDir entries) r d.

Definition reference_of (rel data token : string) : Reference :=
  {| File := rel; Kind := referenceKind data token; Scope := fileScope rel |}.

Definition refs_at (result : ScanResult) (token : string) : list Reference := default [] (result !! token).

Lemma node_rect' (P : node -> Prop) :
  (forall c, P (NFile c)) ->
  (forall l, Forall (fun x => P (snd x)) l -> P (NDir l)) -> forall n, P n.
Proof.
  intros Hf Hd. fix IH 1. intros [c|l]; [apply Hf|]. apply Hd.
  induction l as [|[name n] l IHl]; constructor; [apply IH|exact IHl].
Qed.

Lemma appendReference_elem refs ref x : x ∈ appendReference refs ref <-> x ∈ refs \/ x = ref.
Proof. unfold appendReference. case_bool_decide; [naive_solver|]. by rewrite elem_of_app, list_elem_of_singleton. Qed.

Lemma appendReference_NoDup refs ref : NoDup refs -> NoDup (appendReference refs ref).
Proof.
  intros Hnd. unfold appendReference. case_bool_decide; [done|]. apply NoDup_app. split_and!; [done| |apply NoDup_singleton].
  intros x Hx ->%list_elem_of_singleton. done.
Qed.

Lemma refs_at_insert result token token' refs :
  refs_at (<[token := refs]> result) token' = if decide (token = token') then refs else refs_at result token'.
Proof.
  unfold refs_at. case_decide as E; [subst; by rewrite lookup_insert_eq|by rewrite lookup_insert_ne].
Qed.

Definition NoDup_refs (result : ScanResult) : Prop := forall token, NoDup (refs_at result token).

Lemma scan_file_spec rel content result :
  (NoDup_refs result -> NoDup_refs (scan_file rel content result)) /\
  forall token x, x ∈ refs_at (scan_file rel content result) token <->
    x ∈ refs_at result token \/
    exists data, content = Some data /\ scannableEnvFile rel = true /\ token ∈ extractEnvTokens data /\
      x = reference_of rel data token.
Proof.
  unfold scan_file. destruct (scannableEnvFile rel) eqn:Es; simpl; [|split; [done|naive_solver]].
  destruct content as [data|]; [|split; [done|naive_solver]].
  set (step := fun (result : ScanResult) token => _).
  enough (forall l result,
    (NoDup_refs result -> NoDup_refs (fold_left step l result)) /\
    forall token x, x ∈ refs_at (fold_left step l result) token <->
      x ∈ refs_at result token \/ (token ∈ l /\ x = reference_of rel data token)) as Hall.
  { destruct (Hall (extractEnvTokens data) result) as [Hn He]. split; [exact Hn|].
    intros token x. rewrite He. naive_solver. }
  clear result. induction l as [|t l IH]; intros result; simpl.
  - split; [done|]. intros. rewrite elem_of_nil. tauto.
  - destruct (IH (step result t)) as [Hn He]. split.
    + intros Hr. apply Hn. intros token. unfold step. rewrite refs_at_insert.
      case_decide; [apply appendReference_NoDup, Hr|apply Hr].
    + intros token x. rewrite He. unfold step at 1. rewrite refs_at_insert, elem_of_cons.
      case_decide as E; [subst token; rewrite appendReference_elem; fold (refs_at result t)|].
      * fold (reference_of rel data t). naive_solver.
      * naive_solver.
Qed.

Lemma walk_spec SkipDir n rel result :
  (NoDup_refs result -> NoDup_refs (walk SkipDir rel n result)) /\
  forall token x, x ∈ refs_at (walk SkipDir rel n result) token <->
    x ∈ refs_at result token \/
    exists r data, visited SkipDir rel n r data /\ scannableEnvFile r = true /\
      token ∈ extractEnvTokens data /\ x = reference_of r data token.
Proof.
  revert rel result. induction n as [content|l Hl] using node_rect'; intros rel result; simpl.
  - destruct (scan_file_spec rel content result) as [Hn He]. split; [exact Hn|].
    intros token x. rewrite He. apply or_iff_compat_l. split.
    + intros (d & -> & ?). exists rel, d. split; [constructor|done].
    + intros (r & d & Hv & ?). inversion Hv; subst. by exists d.
  - destruct (skipped SkipDir rel) eqn:Hs.
    { assert (forall r d, ~ visited SkipDir rel (NDir l) r d) as Hno by (inversion 1; congruence).
      unfold skipped in Hs. apply orb_true_iff in Hs as [->|E].
      - split; [done|]. naive_solver.
      - rewrite E. destruct (_ && _); split; try done; naive_solver. }
    assert (forall P, (exists r d, visited SkipDir rel (NDir l) r d /\ P r d) <->
      exists name child r d, (name, child) ∈ l /\ visited SkipDir (child_rel rel name) child r d /\ P r d) as Hvis.
    { intros P. split; [intros (r & d & Hv & HP); inversion Hv; subst; naive_solver|].
      intros (name & child & r & d & Hin & Hv & HP). exists r, d. split; [by econstructor|done]. }
    pose proof Hs as Hs'. unfold skipped in Hs'. apply orb_false_iff in Hs' as [-> ->].
    setoid_rewrite Hvis. clear Hvis. revert result. induction l as [|[name child] l IHl]; intros result.
    + split; [done|]. intros. setoid_rewrite elem_of_nil. naive_solver.
    + apply Forall_cons in Hl as [Hc Hl]. destruct (Hc (child_rel rel name) result) as [Hn1 He1].
      destruct (IHl Hl (walk SkipDir (child_rel rel name) child result)) as [Hn He].
      split; [intros; by apply Hn, Hn1|]. intros token x. rewrite He, He1. clear.
      setoid_rewrite elem_of_cons. naive_solver.
Qed.

Lemma ref_before_by_key a b : ref_before a b = by_key File (by_key Scope (fun a b => str_lt (Kind a) (Kind b))) a b.
Proof. done. Qed.

Lemma ref_before_asym a b : ref_before a b = true -> ref_before b a = false.
Proof. rewrite !ref_before_by_key. by apply by_key_asym, by_key_asym; intros ? ?; apply str_lt_asym. Qed.

Lemma ref_before_neg_trans a b c : ref_before b a = false -> ref_before c b = false -> ref_before c a = false.
Proof. rewrite !ref_before_by_key. by apply by_key_neg_trans, by_key_neg_trans; intros ? ? ?; apply str_lt_neg_trans. Qed.

(** The scan of a tree lists under a name exactly one reference for
    every readable file with a scanned extension, outside skipped
    directories, that contains the name, with its kind and scope, and the
    references of a name are in order. *)
Theorem Scan_spec {SS : SliceSort} SkipDir root token :
  (forall ref, ref ∈ refs_at (Scan SkipDir root) token <->
     exists rel data, visited SkipDir "." root rel data /\ scannableEnvFile rel = true /\
       token ∈ extractEnvTokens data /\ ref = reference_of rel data token) /\
  NoDup (refs_at (Scan SkipDir root) token) /\
  StronglySorted (not_after ref_before) (refs_at (Scan SkipDir root) token).
Proof.
  destruct (walk_spec SkipDir root "." ∅) as [Hnd He].
  assert (refs_at (Scan SkipDir root) token ≡ₚ refs_at (walk SkipDir "." root ∅) token) as Hperm.
  { unfold refs_at, Scan. rewrite lookup_fmap. destruct (_ !! _); [apply slice_sort_perm|done]. }
  split_and!.
  - intros ref. rewrite Hperm, He. unfold refs_at at 1. rewrite lookup_empty. simpl. rewrite elem_of_nil. tauto.
  - rewrite Hperm. apply Hnd. intros t. unfold refs_at. rewrite lookup_empty. constructor.
  - unfold refs_at, Scan. rewrite lookup_fmap. destruct (_ !! _); [|constructor].
    apply slice_sort_sorted; [apply ref_before_asym|apply ref_before_neg_trans].
Qed.

(** ** The scope of a variable does not depend on the order of its references *)
Definition scope_in (refs : list Reference) (scope : string) : bool :=
  existsb (fun ref => String.eqb (Scope ref) scope) refs.

Definition test_name (name : string) : bool :=
  Strings.HasPrefix name "SCENERY_TEST_" || Strings.HasPrefix name "SCENERY_INTEGRATION_".

Lemma scope_loop_spec scope refs : scope ∈ [""; "docs"; "test"; "fixture"] ->
  scope_loop scope refs =
    if scope_in refs "code" then inl "runtime"
    else inr (if scope_in refs "fixture" || String.eqb scope "fixture" then "fixture"
              else if scope_in refs "test" || String.eqb scope "test" then "test"
              else if scope_in refs "docs" || String.eqb scope "docs" then "docs" else "").
Proof.
  revert scope. induction refs as [|ref refs IH]; intros scope Hs; simpl.
  - rewrite !elem_of_cons, elem_of_nil in Hs. destruct Hs as [->|[->|[->|[->|[]]]]]; reflexivity.
  - destruct (String.eqb_spec (Scope ref) "code") as [E|Hc]; [by rewrite E|].
    destruct (String.eqb_spec (Scope ref) "fixture") as [E|Hf];
      [|destruct (String.eqb_spec (Scope ref) "test") as [E|Ht];
      [|destruct (String.eqb_spec (Scope ref) "docs") as [E|Hd]]]; rewrite ?E; simpl.
    1-3: rewrite !elem_of_cons, elem_of_nil in Hs; destruct Hs as [->|[->|[->|[->|[]]]]];
      vm_compute bool_decide; cbv iota; (rewrite IH by (repeat constructor));
      destruct (scope_in refs "code"), (scope_in refs "fixture"), (scope_in refs "test"), (scope_in refs "docs"); reflexivity.
    by apply IH.
Qed.

(** Code wins over fixtures, fixtures over tests, tests over documents; names
    of the test suites count as tests unless only documents mention them. *)
Theorem EffectiveScope_spec refs name :
  EffectiveScope refs name =
    if scope_in refs "code" then "runtime"
    else if scope_in refs "fixture" then if test_name name then "test" else "fixture"
    else if scope_in refs "test" then "test"
    else if scope_in refs "docs" then "docs" else "runtime".
Proof.
  unfold EffectiveScope, test_name. rewrite scope_loop_spec by constructor. rewrite !orb_false_r.
  destruct (scope_in refs "code"), (scope_in refs "fixture"), (scope_in refs "test"), (scope_in refs "docs");
    simpl; try reflexivity; destruct (_ || _); reflexivity.
Qed.

Lemma scope_in_perm refs refs' scope : refs ≡ₚ refs' -> scope_in refs scope = scope_in refs' scope.
Proof.
  intros Hp. apply eq_true_iff_eq. unfold scope_in. rewrite !existsb_exists.
  by setoid_rewrite <- list_elem_of_In; setoid_rewrite Hp.
Qed.

Theorem EffectiveScope_perm refs refs' name : refs ≡ₚ refs' -> EffectiveScope refs name = EffectiveScope refs' name.
Proof. intros Hp. rewrite !EffectiveScope_spec. by rewrite !(scope_in_perm refs refs' _ Hp). Qed.
End EnvPolicy.
