(* ===== verification/EnvFile.v ===== *)
(** * Environment files and secrets ([internal/envfile/envfile.go],
    [runtime/secrets.go])

    [EnvFile] models the parsing and merging of .env files and the extension of
    a process environment; [Secrets] the population of secret structs, the
    environment keys of a field, strict mode, and the state machine that warns
    about each missing secret once. *)
From stdpp Require Import base tactics list gmap strings sorting.
From Stdlib Require Import ZArith Lia Ascii.
From S2P Require Import Prelude GoStrings.

Module EnvFile.
(** What reading the file gives. *)
Inductive file := NotExist | ReadError | Content (data : string).

Inductive error :=
| ErrRead
| ErrInvalidLine (n : nat)
| ErrEmptyKey (n : nat)
| ErrParseLine (n : nat).

Definition byte_order_mark : string := String (chr 239) (String (chr 187) (String (chr 191) "")).

Definition quoted_by (q : ascii) (value : string) : bool :=
  Nat.leb 2 (String.length value) && Strings.HasPrefix value (String q "")
  && Strings.HasSuffix value (String q "").

(** [None] is the error of [strconv.Unquote]. *)
Definition parseValue (value : string) : option string :=
  if quoted_by Strconv.quote_byte value then Strconv.Unquote value
  else if quoted_by "'" value then Some (Strings.stake (String.length value - 2) (Strings.sdrop 1 value))
  else Some value.

(** The body of the loop over the lines: nothing, or an assignment. *)
Definition parse_line (lineNo : nat) (raw : string) : outcome error (option (string * string)) :=
  let line := Strings.TrimSpace raw in
  let line := if Nat.eqb lineNo 0 then Strings.TrimPrefix line byte_order_mark else line in
  if String.eqb line "" || Strings.HasPrefix line "#" then Ret None
  else
    let '(after, ok) := Strings.CutPrefix line "export " in
    let line := if ok then Strings.TrimSpace after else line in
    let '(key, rawValue, ok) := Strings.Cut line "=" in
    if negb ok then Fail (ErrInvalidLine (lineNo + 1))
    else
      let key := Strings.TrimSpace key in
      if String.eqb key "" then Fail (ErrEmptyKey (lineNo + 1))
      else match parseValue (Strings.TrimSpace rawValue) with
      | None => Fail (ErrParseLine (lineNo + 1))
      | Some value => Ret (Some (key, value))
      end.

Fixpoint parse_lines (lineNo : nat) (lines : list string) (data : gmap string string) :
  outcome error (gmap string string) :=
  match lines with
  | [] => Ret data
  | raw :: lines' =>
    entry ← parse_line lineNo raw;
    parse_lines (S lineNo) lines' (match entry with Some (k, v) => <[k := v]> data | None => data end)
  end.

Definition ParseFile (f : file) : outcome error (gmap string string) :=
  match f with
  | NotExist => Ret ∅
  | ReadError => Fail ErrRead
  | Content data => parse_lines 0 (Strings.Split data (chr 10)) ∅
  end.

(** [maps.Copy(merged, values)] is the union that prefers [values]. *)
Fixpoint merge_loop (files : list file) (merged : gmap string string) : outcome error (gmap string string) :=
  match files with
  | [] => Ret merged
  | f :: files' => values ← ParseFile f; merge_loop files' (values ∪ merged)
  end.

(** [read path] is what reading [path] gives. *)
Definition MergeFiles (read : string -> file) (root : string) (names : list string) :
  outcome error (gmap string string) :=
  merge_loop (map (fun name => read (Filepath.Join [root; name])) names) ∅.

Definition existing_keys (env : list string) : gset string :=
  list_to_set (omap (fun item => match Strings.Cut item "=" with (key, _, true) => Some key | _ => None end) env).

Definition AppendMissing (base : list string) (values : gmap string string) : list string :=
  let existing := existing_keys base in
  let keys := sort_stable str_lt (map fst (map_to_list values)) in
  fold_left (fun env key =>
    if bool_decide (key ∈ existing) then env
    else env ++ [key +:+ "=" +:+ default "" (values !! key)]) keys base.

(** ** Parsing *)

(** The assignments of the lines, in order. *)
Fixpoint assignments (lineNo : nat) (lines : list string) : list (string * string) :=
  match lines with
  | [] => []
  | raw :: lines' =>
    match parse_line lineNo raw with
    | Ret (Some kv) => kv :: assignments (S lineNo) lines'
    | _ => assignments (S lineNo) lines'
    end
  end.

Definition line_error (lineNo : nat) (raw : string) : option error :=
  match parse_line lineNo raw with Fail e => Some e | _ => None end.

Lemma parse_line_cases lineNo raw :
  (exists e, parse_line lineNo raw = Fail e) \/ (exists x, parse_line lineNo raw = Ret x).
Proof.
  unfold parse_line. destruct (_ || _); [by eauto|].
  destruct (Strings.CutPrefix _ _) as [after ok]. destruct (Strings.Cut _ _) as [[k v] ok'].
  destruct (negb ok'); [by eauto|]. destruct (String.eqb _ ""); [by eauto|].
  destruct (parseValue _); by eauto.
Qed.

Lemma parse_lines_spec lineNo lines data :
  match parse_lines lineNo lines data with
  | Ret m => (forall i raw, lines !! i = Some raw -> line_error (lineNo + i) raw = None) /\
      m = list_to_map (rev (assignments lineNo lines)) ∪ data
  | Fail e => exists i raw, lines !! i = Some raw /\ line_error (lineNo + i) raw = Some e /\
      forall j raw', (j < i)%nat -> lines !! j = Some raw' -> line_error (lineNo + j) raw' = None
  | Panic _ => False
  end.
Proof.
  revert lineNo data. induction lines as [|raw lines IH]; intros lineNo data; cbn [parse_lines assignments].
  - split; [intros i raw; by rewrite lookup_nil|]. simpl. by rewrite (left_id_L ∅ (∪)).
  - destruct (parse_line_cases lineNo raw) as [[e E]|[x E]]; rewrite E; cbn [mbind outcome_bind].
    + exists 0%nat, raw. unfold line_error. rewrite Nat.add_0_r, E. split_and!; [done..|]. lia.
    + specialize (IH (S lineNo) (match x with Some (k, v) => <[k := v]> data | None => data end)).
      destruct (parse_lines _ _ _) as [m|e|]; [| |done].
      * destruct IH as [Hok ->]. split.
        -- intros [|i] raw'; simpl; [intros [= <-]; unfold line_error; by rewrite Nat.add_0_r, E|].
           rewrite Nat.add_succ_r. apply (Hok i).
        -- destruct x as [[k v]|]; [|done]. simpl. rewrite list_to_map_app.
           simpl. by rewrite <- (assoc_L (∪)), <- insert_union_l, (left_id_L ∅ (∪)).
      * destruct IH as (i & raw' & Hi & He & Hmin). exists (S i), raw'. rewrite Nat.add_succ_r.
        split_and!; [done..|]. intros [|j] r Hj; simpl; [intros [= <-]; unfold line_error; by rewrite Nat.add_0_r, E|].
        rewrite Nat.add_succ_r. apply (Hmin j). lia.
Qed.

(** A .env file parses exactly when no line is malformed; the error is
    that of the first malformed line, and a key has the value of its last
    assignment. *)
Theorem ParseFile_spec data :
  let lines := Strings.Split data (chr 10) in
  match ParseFile (Content data) with
  | Ret m => (forall i raw, lines !! i = Some raw -> line_error i raw = None) /\
      forall key, m !! key = snd <$> last (filter (fun kv => fst kv = key) (assignments 0 lines))
  | Fail e => exists i raw, lines !! i = Some raw /\ line_error i raw = Some e /\
      forall j raw', (j < i)%nat -> lines !! j = Some raw' -> line_error j raw' = None
  | Panic _ => False
  end.
Proof.
  intros lines. pose proof (parse_lines_spec 0 lines ∅) as H. cbn [ParseFile]. fold lines.
  destruct (parse_lines 0 lines ∅) as [m|e|]; [|exact H|exact H].
  destruct H as [Hok ->]. split; [exact Hok|]. intros key. rewrite (right_id_L ∅ (∪)).
  generalize (assignments 0 lines) as l. induction l as [|[k v] l IH] using rev_ind; [done|].
  rewrite rev_app_distr, filter_app, filter_cons, filter_nil. simpl. case_decide as E.
  - simpl in E. subst. by rewrite lookup_insert_eq, last_snoc.
  - rewrite app_nil_r, lookup_insert_ne by done. exact IH.
Qed.

(** A comment on the first line is rejected when a byte order mark and a blank
    precede it: the line is trimmed before the mark is removed. *)
Lemma ParseFile_mark_blank :
  ParseFile (Content (byte_order_mark +:+ " # note")) = Fail (ErrInvalidLine 1) /\
  ParseFile (Content (byte_order_mark +:+ "# note")) = Ret ∅ /\
  ParseFile (Content " # note") = Ret ∅.
Proof. split_and!; vm_compute; reflexivity. Qed.

(** ** The environment of a child process *)

(** The value of a name in an environment block; the first or the last entry
    counts, depending on the reader. *)
Definition entry_of (key item : string) : option string :=
  match Strings.cut_opt item "=" with
  | Some (k, v) => if String.eqb k key then Some v else None
  | None => None
  end.

Definition first_value (env : list string) (key : string) : option string := head (omap (entry_of key) env).
Definition last_value (env : list string) (key : string) : option string := last (omap (entry_of key) env).

Definition plain_key (key : string) : Prop := Strings.has_byte "=" key = false.

Lemma cut_opt_plain k v : plain_key k -> Strings.cut_opt (k +:+ "=" +:+ v) "=" = Some (k, v).
Proof.
  unfold plain_key. induction k as [|c k IH]; intros Hk; [done|].
  simpl in Hk. apply orb_false_iff in Hk as [Hc Hk]. rewrite Strings.string_app_cons. cbn [Strings.cut_opt].
  assert (Strings.HasPrefix (String c (k +:+ "=" +:+ v)) "=" = false) as ->.
  { apply not_true_iff_false. intros [r E]%Strings.HasPrefix_iff.
    change ("=" +:+ r) with (String "=" r) in E. injection E as -> _. done. }
  by rewrite IH.
Qed.

Lemma existing_keys_entry env key : key ∈ existing_keys env <-> omap (entry_of key) env <> [].
Proof.
  unfold existing_keys. rewrite elem_of_list_to_set, list_elem_of_omap. split.
  - intros (item & Hin & E) Hnil. unfold Strings.Cut in E.
    destruct (Strings.cut_opt item "=") as [[k v]|] eqn:Ec; simplify_eq.
    apply (elem_of_nil v). rewrite <- Hnil. apply list_elem_of_omap. exists item. split; [done|].
    unfold entry_of. by rewrite Ec, String.eqb_refl.
  - intros Hne. destruct (omap (entry_of key) env) as [|v l] eqn:E; [done|].
    assert (v ∈ omap (entry_of key) env) as Hv by (rewrite E; left).
    apply list_elem_of_omap in Hv as (item & Hin & Ei). exists item. split; [done|].
    unfold entry_of in Ei. unfold Strings.Cut. destruct (Strings.cut_opt item "=") as [[k w]|]; [|done].
    destruct (String.eqb_spec k key); by simplify_eq.
Qed.

Lemma AppendMissing_app base values :
  exists keys, keys ≡ₚ filter (.∉ existing_keys base) (map fst (map_to_list values)) /\
    AppendMissing base values = base ++ map (fun key => key +:+ "=" +:+ default "" (values !! key)) keys.
Proof.
  unfold AppendMissing. set (sorted := sort_stable str_lt _).
  exists (filter (.∉ existing_keys base) sorted). split.
  { unfold sorted. by rewrite sort_stable_perm. }
  generalize sorted as l. intros l. clear sorted.
  enough (forall env, fold_left (fun env key => if bool_decide (key ∈ existing_keys base) then env
      else env ++ [key +:+ "=" +:+ default "" (values !! key)]) l env =
    env ++ map (fun key => key +:+ "=" +:+ default "" (values !! key)) (filter (.∉ existing_keys base) l)) by auto.
  induction l as [|k l IH]; intros env; cbn [fold_left]; [by rewrite app_nil_r|].
  rewrite IH, filter_cons. case_bool_decide; case_decide; try done. simpl. by rewrite <- app_assoc.
Qed.

Lemma omap_entry_plain key keys (f : string -> string) :
  Forall plain_key keys -> NoDup keys ->
  omap (entry_of key) (map (fun k => k +:+ "=" +:+ f k) keys) = if decide (key ∈ keys) then [f key] else [].
Proof.
  intros Hp Hnd. induction Hnd as [|k l Hk Hnd IH]; [done|]. apply Forall_cons in Hp as [Hkp Hp].
  csimpl. unfold entry_of at 1. rewrite cut_opt_plain by done. rewrite IH by done.
  destruct (String.eqb_spec k key) as [->|Hne].
  - rewrite decide_False by done. by rewrite decide_True by left.
  - destruct (decide (key ∈ l)); [rewrite decide_True by (by right)|rewrite decide_False]; try done.
    rewrite elem_of_cons. naive_solver.
Qed.

(** Extending an environment with the values of .env files keeps its
    entries as they are, and whichever entry of a name a reader takes, the
    name has the value it had, or the value of the files when it had none. *)
Theorem AppendMissing_precedence base values key :
  (forall k v, values !! k = Some v -> plain_key k) ->
  base `prefix_of` AppendMissing base values /\
  first_value (AppendMissing base values) key =
    match first_value base key with Some v => Some v | None => values !! key end /\
  last_value (AppendMissing base values) key =
    match last_value base key with Some v => Some v | None => values !! key end.
Proof.
  intros Hplain. destruct (AppendMissing_app base values) as (keys & Hkeys & ->).
  split; [by eexists|]. unfold first_value, last_value. rewrite omap_app.
  assert (NoDup keys) as Hnd. { rewrite Hkeys. apply NoDup_filter, NoDup_fst_map_to_list. }
  assert (forall k, k ∈ keys <-> (k ∉ existing_keys base) /\ is_Some (values !! k)) as Hin.
  { intros k. rewrite Hkeys, list_elem_of_filter, list_elem_of_fmap. apply and_iff_compat_l. split.
    - intros ([k' v] & -> & H%elem_of_map_to_list). by eexists.
    - intros [v Hv]. exists (k, v). by rewrite elem_of_map_to_list. }
  assert (Forall plain_key keys) as Hp.
  { apply Forall_forall. intros k [_ [v Hv]]%Hin. by eapply Hplain. }
  rewrite omap_entry_plain by done.
  destruct (omap (entry_of key) base) as [|v l] eqn:E.
  - assert (key ∉ existing_keys base) as Hno by (rewrite existing_keys_entry; tauto).
    destruct (decide (key ∈ keys)) as [Hk|Hk].
    + apply Hin in Hk as [_ [v Hv]]. by rewrite Hv.
    + simpl. destruct (values !! key) eqn:Ev; [|done]. destruct Hk. apply Hin. split; [done|by eexists].
  - assert (key ∈ existing_keys base) by (apply existing_keys_entry; congruence).
    rewrite decide_False by (rewrite Hin; tauto). rewrite app_nil_r. simpl.
    split; [done|]. rewrite last_cons. by destruct (last l).
Qed.

Lemma AppendMissing_precedence_witness :
  let values : gmap string string := {[ "A" := "1"; "B" := "2" ]} in
  AppendMissing ["B=0"] values = ["B=0"; "A=1"] /\ last_value (AppendMissing ["B=0"] values) "B" = Some "0".
Proof.
  intros values. split; [vm_compute; reflexivity|].
  rewrite (proj2 (proj2 (AppendMissing_precedence ["B=0"] values "B" ltac:(
    intros k v Hk; unfold values in Hk; rewrite lookup_insert_Some in Hk;
    destruct Hk as [[<- _]|[_ [<- _]%lookup_singleton_Some]]; reflexivity)))).
  vm_compute. reflexivity.
Defined.

(** The keys of a parsed file can be used in an environment block. *)
Lemma cut_opt_no_eq s a b : Strings.cut_opt s "=" = Some (a, b) -> Strings.has_byte "=" a = false.
Proof.
  revert a. induction s as [|c s IH]; intros a; cbn [Strings.cut_opt]; [done|].
  destruct (Strings.HasPrefix (String c s) "=") eqn:E; [by intros [= <- _]|].
  destruct (Strings.cut_opt s "=") as [[a' b']|]; [|done]. intros [= <- <-]. simpl.
  rewrite (IH a') by done. rewrite orb_false_r. apply Ascii.eqb_neq. intros ->.
  apply not_true_iff_false in E. apply E, Strings.HasPrefix_iff. by exists s.
Qed.

Definition good_key (key : string) : Prop := key <> "" /\ plain_key key.

Lemma parse_line_key lineNo raw k v : parse_line lineNo raw = Ret (Some (k, v)) -> good_key k.
Proof.
  unfold parse_line. destruct (_ || _); [done|]. destruct (Strings.CutPrefix _ _) as [after ok].
  unfold Strings.Cut. destruct (Strings.cut_opt _ "=") as [[a b]|] eqn:E; [|done]. simpl.
  destruct (String.eqb_spec (Strings.TrimSpace a) "") as [|Hne]; [done|].
  destruct (parseValue _); [|done]. intros [= <- <-]. split; [done|].
  by apply Strings.has_byte_TrimSpace, cut_opt_no_eq in E || eapply Strings.has_byte_TrimSpace, cut_opt_no_eq.
Qed.

Lemma parse_lines_keys lineNo lines data m : map_Forall (fun k _ => good_key k) data ->
  parse_lines lineNo lines data = Ret m -> map_Forall (fun k _ => good_key k) m.
Proof.
  revert lineNo data. induction lines as [|raw lines IH]; intros lineNo data Hd; cbn [parse_lines].
  - by intros [= <-].
  - destruct (parse_line lineNo raw) as [x| |] eqn:E; [|done..]. cbn [mbind outcome_bind]. apply IH.
    destruct x as [[k v]|]; [|done]. apply map_Forall_insert_2; [|done]. by eapply parse_line_key.
Qed.

Lemma ParseFile_keys f m : ParseFile f = Ret m -> map_Forall (fun k _ => good_key k) m.
Proof.
  destruct f; simpl; [intros [= <-]; apply map_Forall_empty|done|]. apply parse_lines_keys, map_Forall_empty.
Qed.

Lemma MergeFiles_keys read root names m :
  MergeFiles read root names = Ret m -> map_Forall (fun k _ => good_key k) m.
Proof.
  unfold MergeFiles. generalize (map (fun name => read (Filepath.Join [root; name])) names) as files. intros files.
  enough (forall merged, map_Forall (fun k _ => good_key k) merged -> merge_loop files merged = Ret m ->
    map_Forall (fun k _ => good_key k) m) as H by (apply H, map_Forall_empty).
  induction files as [|f files IH]; intros merged Hm; simpl; [by intros [= <-]|].
  destruct (ParseFile f) as [values| |] eqn:E; [|done..]. apply IH.
  apply map_Forall_union_2; [by eapply ParseFile_keys|done].
Qed.
End EnvFile.

Module Secrets.
Import EnvFile.
Abbreviation environ := (gmap string string).

Section secrets.
Context {UT : UnicodeTables}.

(** ** Environment keys of a field *)
Definition nextRune (runes : list Z) (index : nat) : Z := default 0 (runes !! S index).

Definition shouldInsertUnderscore (prev current next : Z) : bool :=
  if negb (Unicode.IsUpper current) then false
  else if Unicode.IsLower prev || Unicode.IsDigit prev then true
  else Unicode.IsUpper prev && negb (next =? 0) && Unicode.IsLower next.

(** The loop over the runes, [prev] being the rune before the current one. *)
Fixpoint env_key_loop (prev : option Z) (runes : list Z) : string :=
  match runes with
  | [] => ""
  | r :: rest =>
    (if match prev with Some p => shouldInsertUnderscore p r (nextRune runes 0) | None => false end
     then "_" else "")
    +:+ Utf8.encode_rune (Unicode.ToUpper r) +:+ env_key_loop (Some r) rest
  end.

Definition toEnvKey (name : string) : string :=
  if String.eqb name "" then "" else env_key_loop None (Utf8.runes name).

Definition secretEnvKeys (fieldName : string) : list string :=
  let alt := toEnvKey fieldName in
  if negb (String.eqb alt "") && negb (String.eqb alt fieldName) then [fieldName; alt] else [fieldName].

(** ** State of the package and of the process *)
Record missingSecret := { Field : string; Keys : list string }.

(** [log] is what [slog.Warn] was called with: fields and keys. *)
Record state := {
  secretsEnv : option (outcome error environ);
  secretsWarnedFields : gset string;
  secretsPendingKeys : gmap string (list string);
  secretsFlushed : bool;
  log : list (list string * list string)
}.

Definition init : state :=
  {| secretsEnv := None; secretsWarnedFields := ∅; secretsPendingKeys := ∅; secretsFlushed := false; log := [] |}.

(** [sync.Once]: the file is read by the first call. *)
Definition loadSecretsEnv (dotenv : file) (st : state) : outcome error environ * state :=
  match secretsEnv st with
  | Some r => (r, st)
  | None =>
    let r := ParseFile dotenv in
    (r, {| secretsEnv := Some r; secretsWarnedFields := secretsWarnedFields st;
           secretsPendingKeys := secretsPendingKeys st; secretsFlushed := secretsFlushed st; log := log st |})
  end.

Definition find_key (m : environ) (keys : list string) : option string :=
  head (omap (fun key => m !! key) keys).

Definition lookupSecretValue (env fileEnv : environ) (keys : list string) : option string :=
  match find_key env keys with
  | Some v => Some v
  | None => find_key fileEnv keys
  end.

Definition strictSecretsRequired (env : environ) : bool :=
  existsb (fun key => Strings.EqualFold (Strings.TrimSpace (default "" (env !! key))) "production")
    ["SCENERY_RUNTIME_ENV"; "SCENERY_ENV"].

Definition formatMissingSecrets (missing : list missingSecret) : string :=
  let items := map (fun secret => Field secret +:+ " (" +:+ Strings.Join (Keys secret) ", " +:+ ")") missing in
  Strings.Join (sort_stable str_lt items) "; ".

(** ** Warnings *)
Record collected := {
  c_warned : gset string; c_pending : gmap string (list string);
  c_fields : list string; c_keys : list string
}.

Definition collect_step (c : collected) (entry : string * list string) : collected :=
  let '(field, fieldKeys) := entry in
  if bool_decide (field ∈ c_warned c) then c
  else {| c_warned := {[ field ]} ∪ c_warned c; c_pending := delete field (c_pending c);
          c_fields := c_fields c ++ [field];
          c_keys := fold_left (fun keys key => if bool_decide (key ∈ keys) then keys else keys ++ [key])
                      fieldKeys (c_keys c) |}.

(** The fields and keys to warn about ([None] when there are none), and the
    state after them. *)
Definition collectMissingSecretsLocked (st : state) : option (list string * list string) * state :=
  if bool_decide (secretsPendingKeys st = ∅) then (None, st)
  else
    let c := fold_left collect_step (map_to_list (secretsPendingKeys st))
      {| c_warned := secretsWarnedFields st; c_pending := secretsPendingKeys st; c_fields := []; c_keys := [] |} in
    let st' := {| secretsEnv := secretsEnv st; secretsWarnedFields := c_warned c;
                  secretsPendingKeys := c_pending c; secretsFlushed := secretsFlushed st; log := log st |} in
    match c_fields c with
    | [] => (None, st')
    | fields => (Some (sort_stable str_lt fields, sort_stable str_lt (c_keys c)), st')
    end.

Definition remember_one (warned : gset string) (pending : gmap string (list string)) (secret : missingSecret) :
  gmap string (list string) :=
  if bool_decide (Field secret ∈ warned) then pending
  else match pending !! Field secret with
  | Some _ => pending
  | None => <[Field secret := Keys secret]> pending
  end.

Definition rememberMissingSecrets (missing : list missingSecret) (st : state) :
  option (list string * list string) * state :=
  let st := {| secretsEnv := secretsEnv st; secretsWarnedFields := secretsWarnedFields st;
               secretsPendingKeys := fold_left (remember_one (secretsWarnedFields st)) missing (secretsPendingKeys st);
               secretsFlushed := secretsFlushed st; log := log st |} in
  if negb (secretsFlushed st) then (None, st) else collectMissingSecretsLocked st.

(** [slog.Warn] when there is something to warn about. *)
Definition warn (r : option (list string * list string) * state) : state :=
  let '(w, st) := r in
  {| secretsEnv := secretsEnv st; secretsWarnedFields := secretsWarnedFields st;
     secretsPendingKeys := secretsPendingKeys st; secretsFlushed := secretsFlushed st;
     log := log st ++ match w with Some x => [x] | None => [] end |}.

Definition logMissingSecrets (missing : list missingSecret) (st : state) : state :=
  match missing with
  | [] => st
  | _ => warn (rememberMissingSecrets missing st)
  end.

Definition FlushMissingSecretsWarnings (st : state) : state :=
  warn (collectMissingSecretsLocked
    {| secretsEnv := secretsEnv st; secretsWarnedFields := secretsWarnedFields st;
       secretsPendingKeys := secretsPendingKeys st; secretsFlushed := true; log := log st |}).

(** ** Populating a struct *)

(** A field as reflection shows it: [f_value] is [None] for a field that is
    not a string. *)
Record field := { f_name : string; f_exported : bool; f_type : string; f_value : option string }.

Inductive target :=
| TInvalid
| TPointer (kind : string)
| TStruct (fields : list field).

Inductive perror :=
| ErrTarget
| ErrTargetKind (kind : string)
| ErrEnv (e : error)
| ErrField (name type : string)
| ErrMissing (msg : string).

Definition set_string (f : field) (v : string) : field :=
  {| f_name := f_name f; f_exported := f_exported f; f_type := f_type f; f_value := Some v |}.

(** The loop over the fields: the fields as they are left, the missing
    secrets, and the error that ended the loop. *)
Fixpoint populate_loop (env fileEnv : environ) (fields : list field) :
  list field * list missingSecret * option perror :=
  match fields with
  | [] => ([], [], None)
  | f :: fields' =>
    if negb (f_exported f) then
      let '(fs, missing, e) := populate_loop env fileEnv fields' in (f :: fs, missing, e)
    else match f_value f with
    | None => (fields, [], Some (ErrField (f_name f) (f_type f)))
    | Some _ =>
      let keys := secretEnvKeys (f_name f) in
      let '(fs, missing, e) := populate_loop env fileEnv fields' in
      match lookupSecretValue env fileEnv keys with
      | None => (f :: fs, {| Field := f_name f; Keys := keys |} :: missing, e)
      | Some v => (set_string f v :: fs, missing, e)
      end
    end
  end.

Record world := { process_env : environ; dotenv : file }.

(** The target and the state as the call leaves them, and its error. *)
Definition PopulateSecrets (w : world) (t : target) (st : state) : target * state * option perror :=
  match t with
  | TInvalid => (t, st, Some ErrTarget)
  | TPointer kind => (t, st, Some (ErrTargetKind kind))
  | TStruct fields =>
    let '(env, st) := loadSecretsEnv (dotenv w) st in
    match env with
    | Ret fileEnv =>
      let '(fields, missing, e) := populate_loop (process_env w) fileEnv fields in
      match e with
      | Some e => (TStruct fields, st, Some e)
      | None =>
        match missing with
        | _ :: _ =>
          if strictSecretsRequired (process_env w)
          then (TStruct fields, st, Some (ErrMissing (formatMissingSecrets missing)))
          else (TStruct fields, logMissingSecrets missing st, None)
        | [] => (TStruct fields, logMissingSecrets missing st, None)
        end
      end
    | Fail e => (t, st, Some (ErrEnv e))
    | Panic _ => (t, st, Some (ErrEnv ErrRead))
    end
  end.

Definition MustPopulateSecrets (w : world) (t : target) (st : state) : outcome perror (target * state) :=
  match PopulateSecrets w t st with
  | (t', st', None) => Ret (t', st')
  | (_, _, Some _) => Panic "populate secrets"
  end.

(** ** Loading the file into the environment *)

(** [os.Setenv]: it rejects empty names, names with [=] or NUL and values with
    NUL. *)
Definition Setenv (key value : string) (env : environ) : option environ :=
  if String.eqb key "" || Strings.has_byte "=" key || Strings.has_byte zero key || Strings.has_byte zero value
  then None else Some (<[key := value]> env).

(** The loop over the file's map, whose entries come in the order [entries]:
    the environment as it is left and whether an error ended the loop. *)
Fixpoint load_loop (entries : list (string * string)) (env : environ) : environ * bool :=
  match entries with
  | [] => (env, false)
  | (key, value) :: entries' =>
    match env !! key with
    | Some _ => load_loop entries' env
    | None =>
      match Setenv key value env with
      | None => (env, true)
      | Some env => load_loop entries' env
      end
    end
  end.

Definition LoadDotEnvIntoEnv (order : environ -> list (string * string)) (w : world) (st : state) :
  environ * state * bool :=
  let '(env, st) := loadSecretsEnv (dotenv w) st in
  match env with
  | Ret fileEnv => let '(env', e) := load_loop (order fileEnv) (process_env w) in (env', st, e)
  | _ => (process_env w, st, true)
  end.

(** ** Fields get the value of the environment, then of the file *)
Definition resolved (env fileEnv : environ) (f : field) : field :=
  if f_exported f then
    match lookupSecretValue env fileEnv (secretEnvKeys (f_name f)) with
    | Some v => set_string f v
    | None => f
    end
  else f.

Lemma populate_loop_spec env fileEnv fields fs missing :
  populate_loop env fileEnv fields = (fs, missing, None) ->
  fs = map (resolved env fileEnv) fields /\
  (forall name, name ∈ map Field missing <-> exists f, f ∈ fields /\ f_exported f = true /\ f_name f = name /\
     lookupSecretValue env fileEnv (secretEnvKeys name) = None).
Proof.
  revert fs missing. induction fields as [|f fields IH]; intros fs missing; simpl.
  - intros [= <- <-]. split; [done|]. intros name. simpl. setoid_rewrite elem_of_nil. naive_solver.
  - unfold resolved at 1. setoid_rewrite elem_of_cons.
    destruct (populate_loop env fileEnv fields) as [[fs' missing'] e] eqn:E.
    destruct (f_exported f) eqn:Ex; simpl; [destruct (f_value f); [|done]|].
    + destruct (lookupSecretValue env fileEnv (secretEnvKeys (f_name f))) eqn:El; intros [= <- <- ->];
        destruct (IH _ _ eq_refl) as [-> Hm]; split; try done; intros name; simpl; rewrite ?elem_of_cons, Hm;
        naive_solver congruence.
    + intros [= <- <- ->]. destruct (IH _ _ eq_refl) as [-> Hm]. split; [done|].
      intros name. rewrite Hm. naive_solver congruence.
Qed.

Lemma logMissing_env missing st : secretsEnv (logMissingSecrets missing st) = secretsEnv st.
Proof.
  destruct missing; [done|]. simpl. unfold rememberMissingSecrets, collectMissingSecretsLocked.
  destruct (negb _); [done|]. case_bool_decide; [done|]. cbv zeta. by destruct (c_fields _).
Qed.

(** A struct that is populated without error has in every exported field
    the value of the process environment under the field's name or its upper
    case form, otherwise the value of the .env file, and keeps its value when
    there is none, which does not happen in production; the fields that are
    not exported do not change. *)
Theorem PopulateSecrets_spec w fields st t' st' :
  PopulateSecrets w (TStruct fields) st = (t', st', None) ->
  exists fileEnv, fst (loadSecretsEnv (dotenv w) st) = Ret fileEnv /\
    t' = TStruct (map (resolved (process_env w) fileEnv) fields) /\
    (strictSecretsRequired (process_env w) = true ->
       forall f, f ∈ fields -> f_exported f = true ->
         is_Some (lookupSecretValue (process_env w) fileEnv (secretEnvKeys (f_name f)))).
Proof.
  unfold PopulateSecrets. destruct (loadSecretsEnv (dotenv w) st) as [[fileEnv| |] st1]; [|done..].
  destruct (populate_loop (process_env w) fileEnv fields) as [[fs missing] [e|]] eqn:E; [done|].
  apply populate_loop_spec in E as [-> Hm]. intros H. exists fileEnv. split; [done|].
  destruct missing as [|x missing]; [|destruct (strictSecretsRequired (process_env w)); [done|]].
  - simplify_eq. split; [done|]. intros _ f Hf Hx.
    destruct (lookupSecretValue _ _ _) eqn:El; [by eexists|]. exfalso.
    apply (elem_of_nil (f_name f)). change [] with (map Field []). apply Hm. naive_solver.
  - simplify_eq. by split.
Qed.

(** ** Each missing secret is warned about exactly once *)
Inductive op := Populate (w : world) (t : target) | Flush.

Definition step (st : state) (o : op) : state :=
  match o with
  | Populate w t => snd (fst (PopulateSecrets w t st))
  | Flush => FlushMissingSecretsWarnings st
  end.

Definition run (ops : list op) (st : state) : state := fold_left step ops st.

Definition warned_fields (st : state) : list string := concat (map fst (log st)).

(** The fields a populating call found missing, when it returned. *)
Definition missing_fields (w : world) (t : target) (st : state) : list string :=
  match t, fst (loadSecretsEnv (dotenv w) st), snd (PopulateSecrets w t st) with
  | TStruct fields, Ret fileEnv, None => map Field (snd (fst (populate_loop (process_env w) fileEnv fields)))
  | _, _, _ => []
  end.

Record wf (st : state) : Prop := {
  wf_log : NoDup (warned_fields st);
  wf_warned : forall f, f ∈ warned_fields st <-> f ∈ secretsWarnedFields st;
  wf_pending : forall f, is_Some (secretsPendingKeys st !! f) -> f ∉ secretsWarnedFields st;
  wf_flushed : secretsFlushed st = true -> secretsPendingKeys st = ∅
}.

(** The fields that were warned about or will be at the next flush. *)
Definition known (st : state) (f : string) : Prop :=
  f ∈ secretsWarnedFields st \/ is_Some (secretsPendingKeys st !! f).

Lemma collect_fold l c :
  NoDup (map fst l) -> (forall f, f ∈ map fst l -> f ∉ c_warned c) ->
  c_warned (fold_left collect_step l c) = list_to_set (map fst l) ∪ c_warned c /\
  c_fields (fold_left collect_step l c) = c_fields c ++ map fst l /\
  c_pending (fold_left collect_step l c) = foldr delete (c_pending c) (map fst l).
Proof.
  revert c. induction l as [|[f keys] l IH]; intros c Hnd Hf; simpl.
  - split_and!; [set_solver|by rewrite app_nil_r|done].
  - cbn [map] in Hnd. apply NoDup_cons in Hnd as [Hfl Hnd]. rewrite bool_decide_false by (apply Hf; left).
    match goal with |- context [fold_left collect_step l ?c1] => destruct (IH c1 Hnd) as (-> & -> & ->) end; simpl.
    + intros g Hg. assert (g ∉ c_warned c) by (apply Hf; by right).
      assert (g <> f) by (intros ->; by apply Hfl). set_solver.
    + split_and!; [set_solver|by rewrite <- app_assoc|]. symmetry.
      apply delete_foldr_delete.
Qed.

Lemma foldr_delete_empty {A} (m : gmap string A) : foldr delete m (map fst (map_to_list m)) = ∅.
Proof.
  apply map_empty. intros k. destruct (decide (k ∈ map fst (map_to_list m))) as [Hk|Hk].
  - by apply lookup_foldr_delete.
  - rewrite lookup_foldr_delete_not_elem_of by done. destruct (m !! k) as [v|] eqn:E; [|done].
    destruct Hk. apply list_elem_of_fmap. exists (k, v). by rewrite elem_of_map_to_list.
Qed.

Lemma elem_of_keys {A} (m : gmap string A) k : k ∈ map fst (map_to_list m) <-> is_Some (m !! k).
Proof.
  rewrite list_elem_of_fmap. split.
  - intros ([k' v] & -> & H%elem_of_map_to_list). by eexists.
  - intros [v Hv]. exists (k, v). by rewrite elem_of_map_to_list.
Qed.

(** Collecting and logging empties the pending fields into the warned ones. *)
Lemma warn_collect_wf st : NoDup (warned_fields st) ->
  (forall f, f ∈ warned_fields st <-> f ∈ secretsWarnedFields st) ->
  (forall f, is_Some (secretsPendingKeys st !! f) -> f ∉ secretsWarnedFields st) ->
  let st' := warn (collectMissingSecretsLocked st) in
  wf st' /\ secretsFlushed st' = secretsFlushed st /\ secretsPendingKeys st' = ∅ /\
  (forall f, known st f -> f ∈ warned_fields st').
Proof.
  intros Hl Hw Hp. unfold collectMissingSecretsLocked. case_bool_decide as He.
  - assert (warned_fields (warn (None, st)) = warned_fields st) as El.
    { unfold warned_fields, warn. simpl. by rewrite app_nil_r. }
    cbv zeta. split; [constructor; rewrite ?El; [exact Hl|exact Hw|exact Hp|intros _; exact He]|]. split_and!; [done..|].
    intros f [Hf|Hf]; rewrite El; [by apply Hw|]. rewrite He, lookup_empty in Hf. by destruct Hf.
  - destruct (collect_fold (map_to_list (secretsPendingKeys st))
      {| c_warned := secretsWarnedFields st; c_pending := secretsPendingKeys st; c_fields := []; c_keys := [] |})
      as (E1 & E2 & E3); [apply NoDup_fst_map_to_list|intros f; simpl; rewrite elem_of_keys; apply Hp|].
    cbv zeta. simpl in E1, E2, E3. rewrite foldr_delete_empty in E3. set (c := fold_left _ _ _) in *.
    set (ks := map fst (map_to_list (secretsPendingKeys st))) in *.
    destruct (c_fields c) as [|f0 fs] eqn:Ef.
    { destruct He. apply map_empty. intros k. apply eq_None_not_Some. rewrite <- elem_of_keys. fold ks.
      rewrite <- E2. by intros ?%elem_of_nil. }
    set (st' := warn _).
    assert (warned_fields st' = warned_fields st ++ sort_stable str_lt ks) as El.
    { unfold warned_fields, st', warn. cbn [log]. rewrite map_app, concat_app. cbn [map fst concat].
      by rewrite app_nil_r, E2. }
    assert (forall f, f ∈ ks -> f ∉ secretsWarnedFields st) as Hks.
    { intros f Hf%elem_of_keys. by apply Hp. }
    assert (forall f, f ∈ warned_fields st' <-> f ∈ c_warned c) as Hw'.
    { intros f. rewrite El, elem_of_app, sort_stable_perm, Hw, E1, elem_of_union, elem_of_list_to_set. tauto. }
    split; [constructor|split_and!].
    + rewrite El, sort_stable_perm. apply NoDup_app. split_and!; [done| |apply NoDup_fst_map_to_list].
      intros f Hf Hk. apply (Hks f Hk). by apply Hw.
    + exact Hw'.
    + simpl. rewrite E3. intros f. rewrite lookup_empty. by intros [? ?].
    + intros _. exact E3.
    + done.
    + exact E3.
    + intros f [Hf|Hf]; rewrite El, elem_of_app, sort_stable_perm; [left; by apply Hw|].
      right. by apply elem_of_keys.
Qed.

Lemma remember_fold warned missing pending f :
  (forall g, is_Some (pending !! g) -> g ∉ warned) ->
  (forall g, is_Some (fold_left (remember_one warned) missing pending !! g) -> g ∉ warned) /\
  (is_Some (pending !! f) \/ f ∈ map Field missing ->
     f ∈ warned \/ is_Some (fold_left (remember_one warned) missing pending !! f)).
Proof.
  revert pending. induction missing as [|s missing IH]; intros pending Hp; simpl.
  - split; [done|]. setoid_rewrite elem_of_nil. tauto.
  - assert (forall g, is_Some (remember_one warned pending s !! g) -> g ∉ warned) as Hp'.
    { unfold remember_one. intros g. case_bool_decide; [apply Hp|]. destruct (pending !! Field s); [apply Hp|].
      destruct (decide (Field s = g)) as [<-|Hne]; [by intros _|]. rewrite lookup_insert_ne by done. apply Hp. }
    destruct (IH _ Hp') as [H1 H2]. split; [exact H1|]. intros Hf.
    assert (f ∈ warned \/ is_Some (remember_one warned pending s !! f) \/ f ∈ map Field missing) as Hc.
    { rewrite elem_of_cons in Hf. unfold remember_one. case_bool_decide as Hb.
      - destruct Hf as [Hf|[->|Hf]]; auto.
      - destruct (pending !! Field s) eqn:E.
        + destruct Hf as [Hf|[->|Hf]]; eauto.
        + destruct (decide (Field s = f)) as [->|Hne]; [right; left; by rewrite lookup_insert_eq|].
          rewrite lookup_insert_ne by done. destruct Hf as [Hf|[Hf|Hf]]; auto. congruence. }
    destruct Hc as [Hc|Hc]; [by left|]. by apply H2.
Qed.

Lemma known_warned st f : wf st -> secretsFlushed st = true -> known st f -> f ∈ warned_fields st.
Proof.
  intros Hwf Hfl [Hf|Hf]; [by apply (wf_warned st Hwf)|].
  rewrite (wf_flushed st Hwf Hfl), lookup_empty in Hf. by destruct Hf.
Qed.

Lemma logMissing_wf missing st : wf st ->
  let st' := logMissingSecrets missing st in
  wf st' /\ secretsFlushed st' = secretsFlushed st /\
  (forall f, known st f \/ f ∈ map Field missing -> known st' f).
Proof.
  intros Hwf. destruct missing as [|s missing].
  { simpl. split_and!; [done..|]. intros f [Hf|Hf]; [done|]. by apply elem_of_nil in Hf. }
  unfold logMissingSecrets, rememberMissingSecrets. set (ms := s :: missing).
  set (st1 := {| secretsEnv := secretsEnv st; secretsWarnedFields := secretsWarnedFields st;
    secretsPendingKeys := _; secretsFlushed := _; log := _ |}).
  assert (forall f, is_Some (secretsPendingKeys st1 !! f) -> f ∉ secretsWarnedFields st) as Hp1.
  { apply (remember_fold (secretsWarnedFields st) ms (secretsPendingKeys st) "" (wf_pending st Hwf)). }
  assert (forall f, known st f \/ f ∈ map Field ms -> known st1 f) as Hk1.
  { intros f Hf. destruct Hf as [[Hf|Hf]|Hf]; [by left| |];
      apply (remember_fold (secretsWarnedFields st) ms (secretsPendingKeys st) f (wf_pending st Hwf)); auto. }
  destruct (secretsFlushed st1) eqn:Hfl; simpl negb; cbv iota.
  - destruct (warn_collect_wf st1) as (H1 & H2 & H3 & H4);
      [apply (wf_log st Hwf)|apply (wf_warned st Hwf)|exact Hp1|].
    split_and!; [done|by rewrite H2|]. intros f Hf%Hk1%H4. left. by apply (wf_warned _ H1).
  - assert (warned_fields (warn (None, st1)) = warned_fields st) as El.
    { unfold warned_fields, warn. simpl. by rewrite app_nil_r. }
    split_and!; [|done|exact Hk1]. constructor; rewrite ?El; [apply Hwf|apply Hwf|exact Hp1|].
    simpl in *. intros E. congruence.
Qed.

Lemma loadSecretsEnv_same dotenv st : wf st ->
  wf (snd (loadSecretsEnv dotenv st)) /\
  secretsFlushed (snd (loadSecretsEnv dotenv st)) = secretsFlushed st /\
  (forall f, known (snd (loadSecretsEnv dotenv st)) f <-> known st f).
Proof.
  intros Hwf. unfold loadSecretsEnv. destruct (secretsEnv st); [done|]. simpl.
  split; [|done]. destruct Hwf. by constructor.
Qed.

Lemma step_wf st o : wf st ->
  wf (step st o) /\
  secretsFlushed (step st o) = match o with Flush => true | _ => secretsFlushed st end /\
  (forall f, known st f -> known (step st o) f) /\
  match o with Populate w t => forall f, f ∈ missing_fields w t st -> known (step st o) f | Flush => True end.
Proof.
  intros Hwf. destruct o as [w t|]; simpl.
  - unfold missing_fields, PopulateSecrets. destruct t as [|k|fields]; simpl;
      [by setoid_rewrite elem_of_nil..|].
    destruct (loadSecretsEnv_same (dotenv w) st Hwf) as (Hw1 & Hf1 & Hk1).
    destruct (loadSecretsEnv (dotenv w) st) as [[fileEnv| |] st1]; cbn [fst snd] in *;
      [|split_and!; [done..|naive_solver|by setoid_rewrite elem_of_nil]..].
    destruct (populate_loop (process_env w) fileEnv fields) as [[fs missing] [e|]];
      cbn [fst snd]; [split_and!; [done..|naive_solver|by setoid_rewrite elem_of_nil]|].
    destruct (logMissing_wf missing st1 Hw1) as (H1 & H2 & H3).
    destruct missing as [|x missing]; [|destruct (strictSecretsRequired (process_env w))]; cbn [fst snd];
      (split_and!; [done|congruence|naive_solver|]); [|by setoid_rewrite elem_of_nil|]; naive_solver.
  - destruct (warn_collect_wf {| secretsEnv := secretsEnv st; secretsWarnedFields := secretsWarnedFields st;
       secretsPendingKeys := secretsPendingKeys st; secretsFlushed := true; log := log st |}) as (H1 & H2 & H3 & H4);
      [apply Hwf..|]. split_and!; [done|exact H2| |done].
    intros f Hf. left. apply (wf_warned _ H1). apply H4. exact Hf.
Qed.

Lemma run_wf ops st : wf st -> wf (run ops st) /\
  (secretsFlushed st = true \/ Flush ∈ ops -> secretsFlushed (run ops st) = true) /\
  (forall f, known st f -> known (run ops st) f).
Proof.
  revert st. induction ops as [|o ops IH]; intros st Hwf; simpl.
  - split_and!; [done| |done]. rewrite elem_of_nil. tauto.
  - destruct (step_wf st o Hwf) as (H1 & H2 & H3 & _). destruct (IH _ H1) as (I1 & I2 & I3).
    split_and!; [done| |naive_solver]. intros Hf. apply I2. rewrite H2. rewrite elem_of_cons in Hf.
    destruct o; naive_solver.
Qed.

Lemma init_wf : wf init.
Proof.
  constructor; cbn -[elem_of]; [constructor|set_solver| |done].
  intros f. rewrite lookup_empty. by intros [? ?].
Qed.

(** However populating calls and flushes follow each other, no field is
    warned about twice, and once a flush has happened, before or after, every
    field that a call found missing has been warned about. *)
Theorem secrets_warned_once before w t after :
  let st := run before init in
  let final := run (before ++ Populate w t :: after) init in
  NoDup (warned_fields final) /\
  (Flush ∈ before ++ after -> forall f, f ∈ missing_fields w t st -> f ∈ warned_fields final).
Proof.
  intros st final. destruct (run_wf (before ++ Populate w t :: after) init init_wf) as (H1 & H2 & _).
  split; [apply H1|]. intros Hfl f Hf. apply known_warned; [done| |].
  - apply H2. right. rewrite elem_of_app in *. rewrite elem_of_cons. tauto.
  - unfold final, run. rewrite fold_left_app. simpl. fold (run before init). fold st.
    destruct (run_wf before init init_wf) as (B1 & _ & _).
    destruct (step_wf st (Populate w t) B1) as (S1 & _ & _ & S4).
    apply (run_wf after _ S1), S4, Hf.
Qed.

(** Loading the file into the environment adds what is missing, in whatever
    order the map is visited. *)
Theorem LoadDotEnvIntoEnv_spec order w st fileEnv env' st' :
  (forall m, order m ≡ₚ map_to_list m) ->
  fst (loadSecretsEnv (dotenv w) st) = Ret fileEnv ->
  LoadDotEnvIntoEnv order w st = (env', st', false) -> env' = process_env w ∪ fileEnv.
Proof.
  intros Hord He. unfold LoadDotEnvIntoEnv. destruct (loadSecretsEnv (dotenv w) st) as [r st1]. simpl in He. subst r.
  assert (forall l env env', NoDup (map fst l) -> load_loop l env = (env', false) -> env' = env ∪ list_to_map l) as Hl.
  { clear. induction l as [|[k v] l IH]; intros env env' Hnd; simpl.
    - intros [= <-]. by rewrite (right_id_L ∅ (∪)).
    - apply NoDup_cons in Hnd as [Hk Hnd]. destruct (env !! k) eqn:E.
      + intros ->%IH; [|done]. apply map_eq. intros k'. rewrite !lookup_union.
        destruct (decide (k = k')) as [->|]; [|rewrite lookup_insert_ne by done; reflexivity].
        by rewrite E, !union_Some_l.
      + unfold Setenv. destruct (_ || _); [done|]. intros ->%IH; [|done].
        rewrite <- insert_union_l. by apply insert_union_r. }
  destruct (load_loop (order fileEnv) (process_env w)) as [env1 e] eqn:E. intros [= <- <- ->].
  apply Hl in E as ->; [|rewrite Hord; apply NoDup_fst_map_to_list].
  f_equal. rewrite <- (list_to_map_to_list fileEnv) at 2. apply list_to_map_proper.
  - rewrite Hord. apply NoDup_fst_map_to_list.
  - apply Hord.
Qed.
End secrets.

Lemma PopulateSecrets_spec_witness :
  let w := {| process_env := {[ "SCENERY_ENV" := "production"; "STRIPE_KEY" := "sk" ]};
              dotenv := Content "StripeKey=other" |} in
  let f := {| f_name := "StripeKey"; f_exported := true; f_type := "string"; f_value := Some "" |} in
  fst (fst (@PopulateSecrets ascii_tables w (TStruct [f]) init)) = TStruct [set_string f "sk"].
Proof.
  intros w f.
  assert (exists st', @PopulateSecrets ascii_tables w (TStruct [f]) init = (TStruct [set_string f "sk"], st', None)) as [st' E]
    by (eexists; vm_compute; reflexivity).
  destruct (@PopulateSecrets_spec ascii_tables w [f] init _ st' E) as (fileEnv & H1 & H2 & _).
  rewrite E. reflexivity.
Defined.

Lemma secrets_warned_once_witness :
  let w := {| process_env := ∅; dotenv := NotExist |} in
  let f := {| f_name := "StripeKey"; f_exported := true; f_type := "string"; f_value := Some "" |} in
  warned_fields (@run ascii_tables [Populate w (TStruct [f]); Flush; Populate w (TStruct [f]); Flush] init) = ["StripeKey"]
  /\ "StripeKey" ∈ warned_fields (@run ascii_tables ([] ++ Populate w (TStruct [f]) :: [Flush]) init).
Proof.
  intros w f. split; [vm_compute; reflexivity|].
  destruct (@secrets_warned_once ascii_tables [] w (TStruct [f]) [Flush]) as [_ H].
  apply H; [left|]. vm_compute. left.
Defined.
End Secrets.
