(* ===== verification/Payload.v ===== *)
(** * Payloads: decoding requests into Go values and shaping responses
    ([runtime/decode.go], [runtime/encode.go], the assignment of wire values of
    [runtime/wire.go])

    Reflection works on a type and a value of it: [rtype] and [rval].  A type is
    a finite tree (of a recursive Go type, an unfolding as deep as the values
    that reach it); [has_type] is Go's typing of values, with integers at their
    width.  Every value the code sets is reached from [reflect.New], so it can
    be set.  Text methods, JSON decoding, the parsing of floats and the
    conversion of floats that fit no integer are arguments. *)
From stdpp Require Import base tactics list gmap strings sorting.
From Stdlib Require Import ZArith Lia Ascii.
From S2P Require Import Prelude GoStrings WireCodec Redact Errs Middleware Http.
Set Warnings "-register-all".

Module Payload.
(** ** Types and values *)
Record sfield := {
  f_name : string; f_exported : bool; f_anonymous : bool;
  tag_json : string; tag_header : string; tag_query : string; tag_qs : string;
  tag_cookie : string; tag_scenery : string
}.

Inductive width := W8 | W16 | W32 | W64.

Definition bits (w : width) : Z := match w with W8 => 8 | W16 => 16 | W32 => 32 | W64 => 64 end.

(** [TNamed name text under] is a defined type; [text] says that its pointer
    has [UnmarshalText].  [TInterface any] is an interface type, [any] the empty
    one.  [TOther] are channels, functions and complex numbers. *)
Inductive rtype :=
| TBool
| TInt (w : width)
| TUint (w : width)
| TUintptr
| TFloat (w : width)
| TString
| TInterface (any : bool)
| TPtr (elem : rtype)
| TSlice (elem : rtype)
| TArray (len : nat) (elem : rtype)
| TMap (key elem : rtype)
| TStruct (fields : list (sfield * rtype))
| TNamed (name : string) (text : bool) (under : rtype)
| TOther (name : string).

(** Floats are their bit patterns; nil pointers, slices, maps and interfaces are
    [None]; [VOpaque] is the value a text method made. *)
Inductive rval :=
| VBool (b : bool)
| VInt (z : Z)
| VUint (z : Z)
| VFloat (bits : Z)
| VString (s : string)
| VInterface (v : option Wire.any)
| VPtr (v : option rval)
| VSlice (v : option (list rval))
| VArray (l : list rval)
| VMap (v : option (list (string * rval)))
| VStruct (l : list rval)
| VOpaque (text : string)
| VOtherNil.

(** The kind of a type is that of its underlying type. *)
Fixpoint under (t : rtype) : rtype :=
  match t with TNamed _ _ u => under u | _ => t end.

Definition is_ptr (t : rtype) : bool := match under t with TPtr _ => true | _ => false end.

(** [reflect.Zero]. *)
Fixpoint zero_value (t : rtype) : rval :=
  match t with
  | TBool => VBool false
  | TInt _ => VInt 0
  | TUint _ | TUintptr => VUint 0
  | TFloat _ => VFloat 0
  | TString => VString ""
  | TInterface _ => VInterface None
  | TPtr _ => VPtr None
  | TSlice _ => VSlice None
  | TArray n t' => VArray (replicate n (zero_value t'))
  | TMap _ _ => VMap None
  | TStruct fields => VStruct (map (fun ft => zero_value ft.2) fields)
  | TNamed _ _ u => zero_value u
  | TOther _ => VOtherNil
  end.

(** [!v.OverflowInt(z)] and [!v.OverflowUint(z)]. *)
Definition int_fits (w : width) (z : Z) : bool := (- 2 ^ (bits w - 1) <=? z) && (z <? 2 ^ (bits w - 1)).
Definition uint_fits (w : width) (z : Z) : bool := (0 <=? z) && (z <? 2 ^ bits w).

Fixpoint has_type (t : rtype) (v : rval) : Prop :=
  match t, v with
  | TBool, VBool _ => True
  | TInt w, VInt z => int_fits w z = true
  | TUint w, VUint z => uint_fits w z = true
  | TUintptr, VUint z => uint_fits W64 z = true
  | TFloat _, VFloat _ => True
  | TString, VString _ => True
  | TInterface true, VInterface _ => True
  | TInterface false, VInterface None => True
  | TPtr _, VPtr None => True
  | TPtr t', VPtr (Some w) => has_type t' w
  | TSlice _, VSlice None => True
  | TSlice t', VSlice (Some l) => Forall (has_type t') l
  | TArray n t', VArray l => length l = n /\ Forall (has_type t') l
  | TMap _ _, VMap None => True
  | TMap _ t', VMap (Some l) => Forall (fun e => has_type t' e.2) l
  | TStruct fields, VStruct l =>
    (fix go (fs : list (sfield * rtype)) (ws : list rval) : Prop :=
       match fs, ws with
       | [], [] => True
       | ft :: fs', w :: ws' => has_type ft.2 w /\ go fs' ws'
       | _, _ => False
       end) fields l
  | TNamed _ text u, w => (text && negb (is_ptr u) = true /\ exists s, w = VOpaque s) \/ has_type u w
  | TOther _, VOtherNil => True
  | _, _ => False
  end.

Definition field_types : list (sfield * rtype) -> list rval -> Prop := Forall2 (fun ft w => has_type ft.2 w).

(** The name of a field in JSON; empty when it is left out. *)
Definition jsonName (f : sfield) : string :=
  if String.eqb (tag_json f) "" then f_name f
  else
    let name := default "" (head (Strings.Split (tag_json f) ",")) in
    if String.eqb name "-" then "" else if String.eqb name "" then f_name f else name.

Definition isStructLike (t : rtype) : bool :=
  let t := match under t with TPtr t' => t' | _ => t end in
  match under t with TStruct _ => true | _ => false end.

(** ** Scalars of path parameters *)
Inductive ParamKind :=
| ParamString | ParamBool
| ParamInt | ParamInt8 | ParamInt16 | ParamInt32 | ParamInt64
| ParamUint | ParamUint8 | ParamUint16 | ParamUint32 | ParamUint64
| ParamOther (name : string).

Inductive scalar := SString (s : string) | SBool (b : bool) | SInt (w : width) (z : Z) | SUint (w : width) (z : Z).

Definition num_error {A} (r : outcome Strconv.NumError A) : outcome string A :=
  match r with
  | Ret a => Ret a
  | Fail Strconv.ErrSyntax => Fail "invalid syntax"
  | Fail Strconv.ErrRange => Fail "value out of range"
  | Panic m => Panic m
  end.

(** [strconv.ParseInt(value, 10, 0)] uses the width of int, 64. *)
Definition convertScalar (kind : ParamKind) (value : string) : outcome string scalar :=
  let int w := v ← num_error (Strconv.ParseInt value (bits w)); Ret (SInt w v) in
  let uint w := v ← num_error (Strconv.ParseUint value (bits w)); Ret (SUint w v) in
  match kind with
  | ParamString => Ret (SString value)
  | ParamBool => b ← num_error (Strconv.ParseBool value); Ret (SBool b)
  | ParamInt => int W64
  | ParamInt8 => int W8
  | ParamInt16 => int W16
  | ParamInt32 => int W32
  | ParamInt64 => int W64
  | ParamUint => uint W64
  | ParamUint8 => uint W8
  | ParamUint16 => uint W16
  | ParamUint32 => uint W32
  | ParamUint64 => uint W64
  | ParamOther name => Fail ("unsupported scalar kind " +:+ name)
  end.

Definition decodeScalar (kind : ParamKind) (value : string) : outcome string scalar := convertScalar kind value.

(** ** Values from query parameters, headers and cookies *)
Section strings.
(** [UnmarshalText] of the named type ([None] is its error), and
    [strconv.ParseFloat] for a width. *)
Context (unmarshal_text : string -> string -> option string) (ParseFloat : Z -> string -> option Z).

Fixpoint collect_items (l : list (outcome string rval)) : outcome string (list rval) :=
  match l with
  | [] => Ret []
  | o :: l' => v ← o; vs ← collect_items l'; Ret (v :: vs)
  end.

(** The value of the field after the assignment. *)
Fixpoint assignStrings (t : rtype) (v : rval) (values : list string) : outcome string rval :=
  match t with
  | TPtr t' =>
    let cur := match v with VPtr (Some w) => w | _ => zero_value t' end in
    w ← assignStrings t' cur values; Ret (VPtr (Some w))
  | TNamed name text u =>
    if is_ptr u then assignStrings u v values
    else match values with
    | [] => Ret v
    | x :: _ =>
      if text then match unmarshal_text name x with Some w => Ret (VOpaque w) | None => Fail "unmarshal text" end
      else assignStrings u v values
    end
  | _ =>
    match values with
    | [] => Ret v
    | x :: _ =>
      match t with
      | TString => Ret (VString x)
      | TBool => b ← num_error (Strconv.ParseBool x); Ret (VBool b)
      | TInt w => z ← num_error (Strconv.ParseInt x (bits w)); Ret (VInt z)
      | TUint w => z ← num_error (Strconv.ParseUint x (bits w)); Ret (VUint z)
      | TFloat w => match ParseFloat (bits w) x with Some f => Ret (VFloat f) | None => Fail "invalid float" end
      | TSlice t' =>
        l ← collect_items (map (fun item => assignStrings t' (zero_value t') [item]) values);
        Ret (VSlice (Some l))
      | _ => Fail "unsupported field type"
      end
    end
  end.

Definition invalid (msg : string) : Errs.error :=
  Errs.Builder_Err (Errs.Builder_Msg msg (Errs.Builder_Code Errs.InvalidArgument Errs.B)).

Definition is_slice (t : rtype) : bool := match under t with TSlice _ => true | _ => false end.

Definition setFieldFromStrings (t : rtype) (v : rval) (values : list string) (name : string) :
  outcome Errs.error rval :=
  match values with
  | [] => Ret v
  | x :: rest =>
    let values := if is_slice t && match rest with [] => true | _ => false end && Strings.Contains x ","
                  then Strings.Split x "," else values in
    match assignStrings t v values with
    | Ret w => Ret w
    | Fail msg => Fail (invalid ("invalid value for " +:+ name +:+ ": " +:+ msg))
    | Panic m => Panic m
    end
  end.

(** ** Tagged structs *)

(** [json.Unmarshal] of a text into a value of a type, and [maybeValidate]. *)
Context (unmarshal_json : string -> rtype -> rval -> outcome string rval)
        (maybeValidate : rtype -> rval -> option Errs.error).

(** A request: [body] is [None] without a body; [Fail] is a failing read. *)
Record Request := {
  Method : string;
  req_header : Middleware.Header;
  query : list (string * list string);
  cookies : list (string * string);
  body : option (outcome Errs.error string)
}.

Definition useQueryDefaults (req : Request) (authOnly : bool) : bool :=
  String.eqb (Method req) "GET" || String.eqb (Method req) "HEAD" || String.eqb (Method req) "DELETE" || authOnly.

(** The value the struct starts from: the JSON body, when one counts. *)
Definition decode_body (req : Request) (authOnly : bool) (t : rtype) (v : rval) : outcome Errs.error rval :=
  if useQueryDefaults req authOnly then Ret v
  else match body req with
  | None => Ret v
  | Some (Ret text) =>
    if String.eqb (Strings.TrimSpace text) "" then Ret v
    else match unmarshal_json text t v with
    | Ret w => Ret w
    | Fail msg => Fail (invalid ("invalid json body: " +:+ msg))
    | Panic m => Panic m
    end
  | Some (Fail e) => Fail e
  | Some (Panic m) => Panic m
  end.

Definition lookup_values (key : string) (m : list (string * list string)) : list string :=
  default [] (Http.assoc key m).

(** The switch of the loop over the fields. *)
Definition decode_field (req : Request) (authOnly : bool) (f : sfield) (t : rtype) (v : rval) :
  outcome Errs.error rval :=
  if negb (f_exported f) then Ret v
  else if negb (String.eqb (tag_header f) "") then
    setFieldFromStrings t v (Http.Values (req_header req) (tag_header f)) (tag_header f)
  else if negb (String.eqb (tag_query f) "") then
    setFieldFromStrings t v (lookup_values (tag_query f) (query req)) (tag_query f)
  else if negb (String.eqb (tag_qs f) "") then
    setFieldFromStrings t v (lookup_values (tag_qs f) (query req)) (tag_qs f)
  else if negb (String.eqb (tag_cookie f) "") then
    match Http.assoc (tag_cookie f) (cookies req) with
    | Some c => setFieldFromStrings t v [c] (tag_cookie f)
    | None => Ret v
    end
  else if useQueryDefaults req authOnly then
    let name := jsonName f in
    if String.eqb name "" then Ret v else setFieldFromStrings t v (lookup_values name (query req)) name
  else Ret v.

Fixpoint decode_fields (req : Request) (authOnly : bool) (fields : list (sfield * rtype)) (l : list rval) :
  outcome Errs.error (list rval) :=
  match fields, l with
  | (f, t) :: fields', v :: l' =>
    w ← decode_field req authOnly f t v; ws ← decode_fields req authOnly fields' l'; Ret (w :: ws)
  | _, _ => Ret l
  end.

(** The struct type below at most one pointer, which is what payloads and auth
    parameters are declared as.  [reflect.New] of the pointed type holds the
    result, which is the pointer or the struct itself. *)
Definition struct_of (t : rtype) : rtype := match under t with TPtr t' => t' | _ => t end.

Definition finalizeValue (t : rtype) (v : rval) : rval :=
  match under t with TPtr _ => VPtr (Some v) | _ => v end.

Definition decodeTaggedStruct (req : Request) (t : rtype) (authOnly : bool) : outcome Errs.error rval :=
  let st := struct_of t in
  v ← decode_body req authOnly st (zero_value st);
  match under st, v with
  | TStruct fields, VStruct l =>
    l ← decode_fields req authOnly fields l;
    match maybeValidate st (VStruct l) with
    | Some e => Fail e
    | None => Ret (finalizeValue t (VStruct l))
    end
  | _, _ => Panic "reflect: NumField of a value that is not a struct"
  end.

Definition decodePayload (req : Request) (t : option rtype) : outcome Errs.error (option rval) :=
  match t with
  | None => Ret None
  | Some t =>
    if isStructLike t then v ← decodeTaggedStruct req t false; Ret (Some v)
    else
      let st := struct_of t in
      match body req with
      | None => Ret (Some (VPtr (Some (zero_value st))))
      | Some (Ret data) =>
        if String.eqb (Strings.TrimSpace data) "" then Ret (Some (finalizeValue t (zero_value st)))
        else match unmarshal_json data st (zero_value st) with
        | Ret w => Ret (Some (finalizeValue t w))
        | Fail msg => Fail (invalid ("invalid json body: " +:+ msg))
        | Panic m => Panic m
        end
      | Some (Fail e) => Fail e
      | Some (Panic m) => Panic m
      end
  end.
End strings.

(** ** Values from wire payloads *)

(** The result of an assignment: [Unsupported] is [false, nil], [Bad] is
    [true, err]; [Panicked] is the panic of [reflect.Value.Set]. *)
Inductive assigned (A : Type) := Done (a : A) | Bad (msg : string) | Unsupported | Panicked.
Arguments Done {A} a.
Arguments Bad {A} msg.
Arguments Unsupported {A}.
Arguments Panicked {A}.

#[export] Instance assigned_bind : MBind assigned := fun A B f m =>
  match m with Done a => f a | Bad msg => Bad msg | Unsupported => Unsupported | Panicked => Panicked end.

Section wire.
(** [int64(f)] and [uint64(f)] of a float that does not fit, which Go leaves to
    the implementation; [json.Number.Float64]; [float32(f)]. *)
Context (convert_out_of_range : Z -> Z) (ParseFloat64 : string -> option Z) (narrow : Z -> Z).

(** The truncated value of a finite float64. *)
Definition float_trunc (f : Z) : option Z :=
  let e := Z.land (Z.shiftr f 52) 2047 in
  let frac := Z.land f (2 ^ 52 - 1) in
  if e =? 2047 then None
  else
    let m := if e =? 0 then frac else 2 ^ 52 + frac in
    let x := if e =? 0 then -1074 else e - 1075 in
    let a := if 0 <=? x then m * 2 ^ x else m / 2 ^ (- x) in
    Some (if Z.testbit f 63 then - a else a).

Definition float_zero (f : Z) : bool := Z.land f (2 ^ 63 - 1) =? 0.
Definition float_nan (f : Z) : bool := Wire.non_finite f && negb (Z.land f (2 ^ 52 - 1) =? 0).

(** [==] of two float64. *)
Definition float_eqb (a b : Z) : bool :=
  negb (float_nan a) && negb (float_nan b) && ((a =? b) || (float_zero a && float_zero b)).

(** [f < 0]. *)
Definition float_negative (f : Z) : bool := Z.testbit f 63 && negb (float_zero f) && negb (float_nan f).

Definition to_int64 (f : Z) : Z :=
  match float_trunc f with
  | Some z => if int_fits W64 z then z else wrap_int 64 (convert_out_of_range f)
  | None => wrap_int 64 (convert_out_of_range f)
  end.

Definition to_uint64 (f : Z) : Z :=
  match float_trunc f with
  | Some z => if uint_fits W64 z then z else wrap_uint 64 (convert_out_of_range f)
  | None => wrap_uint 64 (convert_out_of_range f)
  end.

Definition wireNumber (src : Wire.any) : option Z :=
  match src with
  | Wire.AFloat64 f => Some f
  | Wire.AFloat32 f => Some (Wire.float64_of_float32 f)
  | Wire.AInt z => Some (Wire.float64_of_integer z)
  | Wire.ANumber text => ParseFloat64 text
  | _ => None
  end.

Definition assign_int (w : width) (src : Wire.any) : assigned rval :=
  match wireNumber src with
  | None => Bad "want number"
  | Some f =>
    let asInt := to_int64 f in
    if negb (float_eqb (Wire.float64_of_integer asInt) f) || negb (int_fits w asInt) then Bad "number overflows"
    else Done (VInt asInt)
  end.

Definition assign_uint (w : width) (src : Wire.any) : assigned rval :=
  match wireNumber src with
  | None => Bad "want number"
  | Some f =>
    if float_negative f then Bad "negative number for unsigned field"
    else
      let asUint := to_uint64 f in
      if negb (float_eqb (Wire.float64_of_integer asUint) f) || negb (uint_fits w asUint) then Bad "number overflows"
      else Done (VUint asUint)
  end.

(** The loop through pointers, which allocates where it finds nil: the type and
    the value at the end of it, and how to put a value back there. *)
Fixpoint deref (t : rtype) (v : rval) : rtype * rval * (rval -> rval) :=
  match t with
  | TPtr t' =>
    let cur := match v with VPtr (Some w) => w | _ => zero_value t' end in
    let '(t1, v1, put) := deref t' cur in (t1, v1, fun x => VPtr (Some (put x)))
  | TNamed _ _ u => if is_ptr u then deref u v else (t, v, fun x => x)
  | _ => (t, v, fun x => x)
  end.

Definition assigner : Type := rtype -> rval -> assigned rval.

(** The loops over the elements of a slice or an array, the entries of a map and
    the fields of a struct, on the assignments of the parts of the source. *)
Fixpoint assign_items (subs : list assigner) (t : rtype) (cur : list rval) : assigned (list rval) :=
  match subs, cur with
  | sub :: subs', v :: cur' => w ← sub t v; ws ← assign_items subs' t cur'; Done (w :: ws)
  | _, _ => Done []
  end.

Fixpoint assign_entries (subs : list (string * assigner)) (t : rtype) : assigned (list (string * rval)) :=
  match subs with
  | [] => Done []
  | (key, sub) :: subs' =>
    w ← sub t (zero_value t); ws ← assign_entries subs' t; Done ((key, w) :: ws)
  end.

Fixpoint assignWireStruct (fields : list (sfield * rtype)) (l : list rval) (obj : list (string * assigner)) :
  assigned (list rval) :=
  match fields, l with
  | (f, t) :: fields', v :: l' =>
    if f_anonymous f then Unsupported
    else
      w ← (if negb (f_exported f) then Done v
           else if String.eqb (jsonName f) "" then Done v
           else match Http.assoc (jsonName f) obj with
           | None => Done v
           | Some sub => sub t v
           end);
      ws ← assignWireStruct fields' l' obj; Done (w :: ws)
  | _, _ => Done l
  end.

Fixpoint assignWireValue (src : Wire.any) : assigner := fun t v =>
  match src with
  | Wire.ANil => Done (zero_value t)
  | _ =>
    let '(t1, v1, put) := deref t v in
    w ← match under t1 with
        | TInterface true => Done (VInterface (Some src))
        | TInterface false => Panicked
        | TBool => match src with Wire.ABool b => Done (VBool b) | _ => Bad "want bool" end
        | TString => match src with Wire.AString s => Done (VString s) | _ => Bad "want string" end
        | TInt w => assign_int w src
        | TUint w => assign_uint w src
        | TUintptr => assign_uint W64 src
        | TFloat w =>
          match wireNumber src with
          | None => Bad "want number"
          | Some f => Done (VFloat match w with W32 => narrow f | _ => f end)
          end
        | TSlice e =>
          match src with
          | Wire.AArray items =>
            l ← assign_items (map assignWireValue items) e (replicate (length items) (zero_value e));
            Done (VSlice (Some l))
          | _ => Bad "want array"
          end
        | TArray n e =>
          match src with
          | Wire.AArray items =>
            let cur := match v1 with VArray l => l | _ => replicate n (zero_value e) end in
            if negb (Nat.eqb (length items) (length cur)) then Bad "array length does not match"
            else l ← assign_items (map assignWireValue items) e cur; Done (VArray l)
          | _ => Bad "want array"
          end
        | TMap k e =>
          match under k with
          | TString =>
            match src with
            | Wire.AObject entries =>
              l ← assign_entries (map (fun kv => (kv.1, assignWireValue kv.2)) entries) e;
              Done (VMap (Some l))
            | _ => Bad "want object"
            end
          | _ => Unsupported
          end
        | TStruct fields =>
          match src with
          | Wire.AObject entries =>
            let l := match v1 with VStruct l => l | _ => map (fun ft => zero_value ft.2) fields end in
            l ← assignWireStruct fields l (map (fun kv => (kv.1, assignWireValue kv.2)) entries);
            Done (VStruct l)
          | _ => Bad "want object"
          end
        | _ => Unsupported
        end;
    Done (put w)
  end.

(** [json.Unmarshal], [json.Marshal] of a wire value, [maybeValidate]. *)
Context (unmarshal_json : string -> rtype -> rval -> outcome string rval)
        (marshal_any : Wire.any -> outcome Errs.error string)
        (maybeValidate : rtype -> rval -> option Errs.error).

Definition validated (t : rtype) (st : rtype) (v : rval) : outcome Errs.error (option rval) :=
  match maybeValidate st v with
  | Some e => Fail e
  | None => Ret (Some (finalizeValue t v))
  end.

Definition unmarshal_payload (t : rtype) (text : string) : outcome Errs.error (option rval) :=
  let st := struct_of t in
  match unmarshal_json text st (zero_value st) with
  | Ret v => validated t st v
  | Fail msg => Fail (invalid ("invalid wire payload: " +:+ msg))
  | Panic m => Panic m
  end.

Definition decodeWirePayload (payloadJSON : string) (payload : Wire.any) (t : option rtype) :
  outcome Errs.error (option rval) :=
  match t with
  | None => Ret None
  | Some t =>
    let st := struct_of t in
    if negb (String.eqb payloadJSON "") then unmarshal_payload t payloadJSON
    else match payload with
    | Wire.ANil => Ret (Some (finalizeValue t (zero_value st)))
    | _ =>
      match assignWireValue payload st (zero_value st) with
      | Done v => validated t st v
      | Bad msg => Fail (invalid ("invalid wire payload: " +:+ msg))
      | Panicked => Panic "reflect.Set: value is not assignable"
      | Unsupported =>
        match marshal_any payload with
        | Ret text => unmarshal_payload t text
        | Fail e => Fail e
        | Panic m => Panic m
        end
      end
    end
  end.
End wire.

(** ** Responses *)
Section responses.
(** [MarshalText] of a value that has it and does not fail, and [fmt.Sprint]. *)
Context (marshal_text : rtype -> rval -> option string) (sprint : rtype -> rval -> string).

Definition hasSceneryTag (f : sfield) (want : string) : bool :=
  if String.eqb (tag_scenery f) "" then false
  else existsb (fun part => String.eqb (Strings.TrimSpace part) want) (Strings.Split (tag_scenery f) ",").

Definition parseJSONTag (f : sfield) : string * list string :=
  if String.eqb (tag_json f) "" then ("", [])
  else match Strings.Split (tag_json f) "," with
  | [] => ("", [])
  | name :: opts => (name, List.filter (fun opt => negb (String.eqb opt "")) opts)
  end.

Fixpoint isEmptyJSONValue (t : rtype) (v : rval) : bool :=
  match t, v with
  | TArray n _, _ => Nat.eqb n 0
  | TMap _ _, VMap m => match m with Some (_ :: _) => false | _ => true end
  | TSlice _, VSlice l => match l with Some (_ :: _) => false | _ => true end
  | TString, VString s => String.eqb s ""
  | TBool, VBool b => negb b
  | TInt _, VInt z => z =? 0
  | (TUint _ | TUintptr), VUint z => z =? 0
  | TFloat _, VFloat f => float_zero f
  | TInterface _, VInterface x => match x with None => true | Some _ => false end
  | TPtr _, VPtr x => match x with None => true | Some _ => false end
  | TNamed _ _ u, w => isEmptyJSONValue u w
  | _, _ => false
  end.

Fixpoint formatHeaderValue (t : rtype) (v : rval) : string :=
  match t, v with
  | TPtr _, VPtr None => ""
  | TPtr t', VPtr (Some w) => formatHeaderValue t' w
  | TNamed _ _ u, w =>
    if is_ptr u then formatHeaderValue u w
    else match marshal_text t w with Some s => s | None => sprint t w end
  | _, w => match marshal_text t w with Some s => s | None => sprint t w end
  end.

(** An embedded struct without a JSON tag is flattened. *)
Definition shouldFlattenJSONField (f : sfield) (t : rtype) : bool :=
  f_anonymous f && String.eqb (tag_json f) "" && isStructLike t.

Record shaped := { sh_body : list (string * (rtype * rval)); sh_status : Z; sh_headers : Middleware.Header }.

(** The body of the loop for a field that is not flattened. *)
Definition append_field (f : sfield) (t : rtype) (v : rval) (st : shaped) : shaped :=
  if negb (String.eqb (tag_header f) "") then
    {| sh_body := sh_body st; sh_status := sh_status st;
       sh_headers := Http.Set_ (sh_headers st) (tag_header f) (formatHeaderValue t v) |}
  else if hasSceneryTag f "httpstatus" then
    match under t, v with
    | TInt _, VInt z => {| sh_body := sh_body st; sh_status := z; sh_headers := sh_headers st |}
    | _, _ => st
    end
  else
    let '(name, opts) := parseJSONTag f in
    if String.eqb name "-" then st
    else
      let name := if String.eqb name "" then f_name f else name in
      if bool_decide ("omitempty" ∈ opts) && isEmptyJSONValue t v then st
      else {| sh_body := Wire.map_set name (t, v) (sh_body st); sh_status := sh_status st; sh_headers := sh_headers st |}.

(** The struct below a defined type or a pointer; a nil pointer has no fields. *)
Fixpoint appendResponseFields (t : rtype) (v : rval) (st : shaped) : shaped :=
  match t with
  | TStruct fields =>
    match v with
    | VStruct l =>
      (fix go (fs : list (sfield * rtype)) (ws : list rval) (st : shaped) : shaped :=
         match fs, ws with
         | ft :: fs', w :: ws' =>
           go fs' ws'
             (if negb (f_exported ft.1) then st
              else if shouldFlattenJSONField ft.1 ft.2 then appendResponseFields ft.2 w st
              else append_field ft.1 ft.2 w st)
         | _, _ => st
         end) fields l st
    | _ => st
    end
  | TNamed _ _ u => appendResponseFields u v st
  | TPtr t' => match v with VPtr (Some w) => appendResponseFields t' w st | _ => st end
  | _ => st
  end.

(** The same recursion on the type alone; it is entered for structs and
    pointers to structs only. *)
Fixpoint shape_tags (t : rtype) : bool :=
  match t with
  | TStruct fields =>
    existsb (fun ft => f_exported ft.1 &&
      (negb (String.eqb (tag_header ft.1) "") || hasSceneryTag ft.1 "httpstatus" ||
       (shouldFlattenJSONField ft.1 ft.2 && shape_tags ft.2))) fields
  | TNamed _ _ u => shape_tags u
  | TPtr t' => shape_tags t'
  | _ => false
  end.

Definition hasResponseShapeTags (t : rtype) : bool := isStructLike t && shape_tags t.

(** The body: the response itself, or the map of its fields. *)
Inductive resp_body := BodyValue (t : rtype) (v : rval) | BodyMap (m : list (string * (rtype * rval))).

Definition splitResponse (t : rtype) (v : rval) (headers : Middleware.Header) : resp_body * Z * Middleware.Header :=
  if negb (hasResponseShapeTags t) then (BodyValue t v, 0, headers)
  else
    let st := appendResponseFields t v {| sh_body := []; sh_status := 0; sh_headers := headers |} in
    (BodyMap (sh_body st), sh_status st, sh_headers st).

(** [wireResponseBody]: [None] is a nil response. *)
Definition wireResponseBody (resp : option (rtype * rval)) (headers : Middleware.Header) :
  option resp_body * Z * Middleware.Header :=
  match resp with
  | None => (None, 0, headers)
  | Some (t, v) =>
    match under t, v with
    | TPtr _, VPtr None => (None, 0, headers)
    | _, _ =>
      if isStructLike t then let '(b, st, h) := splitResponse t v headers in (Some b, st, h)
      else (Some (BodyValue t v), 0, headers)
    end
  end.

(** What [encodeResponseWithStatus] sends: the status, the headers and the body
    that is encoded ([None] is the text null). *)
Definition encodeResponseWithStatus (headers : Middleware.Header) (resp : option (rtype * rval)) (explicitStatus : Z) :
  Z * Middleware.Header * option resp_body :=
  let status := if negb (explicitStatus =? 0) then explicitStatus else 200 in
  let send status headers b := (status, Http.Set_ headers "Content-Type" "application/json", b) in
  match resp with
  | None => send status headers None
  | Some (t, v) =>
    match under t, v with
    | TPtr _, VPtr None => send status headers None
    | _, _ =>
      if isStructLike t then
        let '(b, bodyStatus, headers) := splitResponse t v headers in
        send (if (explicitStatus =? 0) && negb (bodyStatus =? 0) then bodyStatus else status) headers (Some b)
      else send status headers (Some (BodyValue t v))
    end
  end.
End responses.

(** ** Typing *)
Lemma rtype_induction (P : rtype -> Prop) :
  P TBool -> (forall w, P (TInt w)) -> (forall w, P (TUint w)) -> P TUintptr -> (forall w, P (TFloat w)) ->
  P TString -> (forall b, P (TInterface b)) -> (forall t, P t -> P (TPtr t)) -> (forall t, P t -> P (TSlice t)) ->
  (forall n t, P t -> P (TArray n t)) -> (forall k t, P k -> P t -> P (TMap k t)) ->
  (forall fs, Forall (fun ft => P ft.2) fs -> P (TStruct fs)) ->
  (forall n b t, P t -> P (TNamed n b t)) -> (forall n, P (TOther n)) -> forall t, P t.
Proof.
  intros H1 H2 H3 H4 H5 H6 H7 H8 H9 H10 H11 H12 H13 H14. fix IH 1.
  intros [ |w|w| |w| |b|t|t|n t|k t|fs|n b t|n];
    [exact H1|exact (H2 w)|exact (H3 w)|exact H4|exact (H5 w)|exact H6|exact (H7 b)|exact (H8 t (IH t))
    |exact (H9 t (IH t))|exact (H10 n t (IH t))|exact (H11 k t (IH k) (IH t))| |exact (H13 n b t (IH t))|exact (H14 n)].
  apply H12. induction fs as [|ft fs IHfs]; constructor; [apply IH|exact IHfs].
Qed.

Lemma has_type_struct fs l : has_type (TStruct fs) (VStruct l) <-> field_types fs l.
Proof.
  unfold field_types. revert l. induction fs as [|ft fs IH]; intros [|w l]; simpl.
  - split; [constructor|done].
  - split; [done|inversion 1].
  - split; [done|inversion 1].
  - simpl in IH. rewrite IH. split; [intros [? ?]; by constructor|by inversion 1].
Qed.

Lemma has_type_under t w : has_type (under t) w -> has_type t w.
Proof. induction t; try done. simpl. auto. Qed.

Lemma zero_value_type t : has_type t (zero_value t).
Proof.
  induction t as [ |w|w| |w| |b|t IH|t IH|n t IH|k t IHk IH|fs IH|n b t IH| ] using rtype_induction; try done.
  - by destruct w.
  - by destruct w.
  - by destruct b.
  - simpl. split; [apply length_replicate|]. by apply Forall_replicate.
  - apply has_type_struct. simpl. induction IH as [|ft fs H _ IHfs]; constructor; [exact H|exact IHfs].
  - simpl. by right.
Qed.

#[local] Hint Resolve zero_value_type : core.

Lemma under_idemp t : under (under t) = under t.
Proof. by induction t. Qed.

Lemma under_not_named t : match under t with TNamed _ _ _ => False | _ => True end.
Proof. by induction t. Qed.

(** *** Strings *)
Lemma ParseInt_fits x w z : num_error (Strconv.ParseInt x (bits w)) = Ret z -> int_fits w z = true.
Proof.
  destruct (Strconv.ParseInt x (bits w)) as [z'|[]|] eqn:E; simpl; try done. intros [= <-].
  apply Strconv.ParseInt_bounds in E; [|by destruct w]. unfold int_fits. apply andb_true_iff.
  rewrite Z.leb_le, Z.ltb_lt. lia.
Qed.

Lemma ParseUint_fits x w z : num_error (Strconv.ParseUint x (bits w)) = Ret z -> uint_fits w z = true.
Proof.
  destruct (Strconv.ParseUint x (bits w)) as [z'|[]|] eqn:E; simpl; try done. intros [= <-].
  apply Strconv.ParseUint_bounds in E; [|by destruct w]. unfold uint_fits. apply andb_true_iff.
  rewrite Z.leb_le, Z.ltb_lt. lia.
Qed.

Section typed.
Context (unmarshal_text : string -> string -> option string) (ParseFloat : Z -> string -> option Z).

Lemma collect_items_Ret l ws : collect_items l = Ret ws -> Forall2 (fun o w => o = Ret w) l ws.
Proof.
  revert ws. induction l as [|o l IH]; intros ws; simpl; [intros [= <-]; constructor|].
  destruct o as [w| |]; [|done..]. simpl. destruct (collect_items l) as [ws'| |]; [|done..].
  intros [= <-]. constructor; [done|]. by apply IH.
Qed.

Lemma assignStrings_typed t v values w :
  has_type t v -> assignStrings unmarshal_text ParseFloat t v values = Ret w -> has_type t w.
Proof.
  revert v values w.
  induction t as [ |wd|wd| |wd| |b|t IH|t IH|n t IH|k t IHk IH|fs IH|n b t IH|n] using rtype_induction;
    intros v values w Hv; cbn [assignStrings].
  - destruct values as [|x values]; [by intros [= <-]|]. destruct (num_error _) as [b| |]; [|done..]. by intros [= <-].
  - destruct values as [|x values]; [by intros [= <-]|].
    destruct (num_error _) as [z| |] eqn:E; [|done..]. intros [= <-]. by apply ParseInt_fits in E.
  - destruct values as [|x values]; [by intros [= <-]|].
    destruct (num_error _) as [z| |] eqn:E; [|done..]. intros [= <-]. by apply ParseUint_fits in E.
  - destruct values; [by intros [= <-]|done].
  - destruct values as [|x values]; [by intros [= <-]|]. destruct (ParseFloat _ _); [|done]. by intros [= <-].
  - destruct values; by intros [= <-].
  - destruct values; [by intros [= <-]|done].
  - set (cur := match v with VPtr (Some u) => u | _ => zero_value t end).
    assert (has_type t cur) as Hc by (destruct v as [ | | | | | |[u|]| | | | | | ]; try done; exact Hv).
    destruct (assignStrings _ _ t cur values) as [u| |] eqn:E; [|done..]. intros [= <-]. simpl. by eapply IH.
  - destruct values as [|x values]; [by intros [= <-]|]. destruct (collect_items _) as [l| |] eqn:E; [|done..]. intros [= <-]. simpl.
    apply collect_items_Ret in E. apply Forall_forall. intros u [i Hi]%list_elem_of_lookup.
    destruct (Forall2_lookup_r _ _ _ _ _ E Hi) as (o & Ho & ->).
    rewrite list_lookup_fmap in Ho. destruct ((x :: values) !! i) as [item|]; [|done].
    injection Ho as Ho. by eapply IH.
  - destruct values; [by intros [= <-]|done].
  - destruct values; [by intros [= <-]|done].
  - destruct values; [by intros [= <-]|done].
  - destruct (is_ptr t) eqn:Ep.
    + intros E. right. eapply IH; [|exact E]. destruct Hv as [[Ht _]|Hv]; [|done].
      by rewrite Ep, andb_false_r in Ht.
    + destruct values as [|x values]; [by intros [= <-]|]. destruct b.
      * destruct (unmarshal_text n x); [|done]. intros [= <-]. left. rewrite Ep. by eauto.
      * intros E. right. eapply IH; [|exact E]. by destruct Hv as [[? _]|].
  - destruct values; [by intros [= <-]|done].
Qed.

Lemma setFieldFromStrings_typed t v values name w :
  has_type t v -> setFieldFromStrings unmarshal_text ParseFloat t v values name = Ret w -> has_type t w.
Proof.
  intros Hv. unfold setFieldFromStrings. destruct values as [|x rest]; [by intros [= <-]|].
  destruct (assignStrings _ _ _ _ _) as [u| |] eqn:E; [|done..]. intros [= <-]. by eapply assignStrings_typed.
Qed.

Context (unmarshal_json : string -> rtype -> rval -> outcome string rval)
        (maybeValidate : rtype -> rval -> option Errs.error).

(** What [json.Unmarshal] leaves in a value is a value of its type. *)
Context (json_typed : forall text t v w, has_type t v -> unmarshal_json text t v = Ret w -> has_type t w).

Lemma decode_field_typed req authOnly f t v w :
  has_type t v -> decode_field unmarshal_text ParseFloat req authOnly f t v = Ret w -> has_type t w.
Proof.
  intros Hv. unfold decode_field. destruct (negb (f_exported f)); [by intros [= <-]|].
  repeat match goal with |- (if ?b then setFieldFromStrings _ _ _ _ _ _ else _) = _ -> _ =>
    destruct b; [by apply setFieldFromStrings_typed|] end.
  destruct (negb _).
  - destruct (Http.assoc _ _); [by apply setFieldFromStrings_typed|by intros [= <-]].
  - destruct (useQueryDefaults _ _); [|by intros [= <-]].
    destruct (String.eqb _ _); [by intros [= <-]|]. by apply setFieldFromStrings_typed.
Qed.

Lemma decode_fields_spec req authOnly fields l ws :
  field_types fields l -> decode_fields unmarshal_text ParseFloat req authOnly fields l = Ret ws ->
  field_types fields ws /\
  forall i f t v, fields !! i = Some (f, t) -> f_exported f = false -> l !! i = Some v -> ws !! i = Some v.
Proof.
  intros Hl. revert ws. induction Hl as [|[f t] v fields l Hv Hl IH]; intros ws; simpl.
  - intros [= <-]. split; [constructor|done].
  - destruct (decode_field _ _ _ _ f t v) as [w| |] eqn:E; [|done..]. simpl.
    destruct (decode_fields _ _ _ _ fields l) as [ws'| |]; [|done..]. simpl. intros [= <-].
    destruct (IH ws' eq_refl) as [Ht Hu]. split.
    + constructor; [|done]. by eapply decode_field_typed.
    + intros [|i] f' t' v' Hf Hx Hi; simpl in *; [|by eapply Hu].
      simplify_eq. unfold decode_field in E. rewrite Hx in E. simpl in E. by simplify_eq.
Qed.

End typed.

Definition demo_sfield (name qs : string) (exported : bool) : sfield :=
  {| f_name := name; f_exported := exported; f_anonymous := false; tag_json := ""; tag_header := "";
     tag_query := qs; tag_qs := ""; tag_cookie := ""; tag_scenery := "" |}.


(** A payload that is not a struct is returned as a pointer when the request
    has no body, whatever its type. *)
Lemma decodePayload_no_body f g j v req t :
  body req = None -> isStructLike t = false -> is_ptr t = false ->
  decodePayload f g j v req (Some t) = Ret (Some (VPtr (Some (zero_value t)))).
Proof.
  intros Hb Hs Hp. unfold decodePayload. rewrite Hs, Hb. unfold struct_of, is_ptr in *.
  by destruct (under t).
Qed.

(** *** Path parameters *)

(** [fmt.Sprint] of a scalar. *)
Definition print_scalar (s : scalar) : string :=
  match s with
  | SString x => x
  | SBool b => Wire.FormatBool b
  | SInt _ z | SUint _ z => Strconv.Itoa z
  end.

Definition scalar_kind (s : scalar) (k : ParamKind) : bool :=
  match s, k with
  | SString _, ParamString | SBool _, ParamBool => true
  | SInt W8 z, ParamInt8 => int_fits W8 z
  | SInt W16 z, ParamInt16 => int_fits W16 z
  | SInt W32 z, ParamInt32 => int_fits W32 z
  | SInt W64 z, (ParamInt64 | ParamInt) => int_fits W64 z
  | SUint W8 z, ParamUint8 => uint_fits W8 z
  | SUint W16 z, ParamUint16 => uint_fits W16 z
  | SUint W32 z, ParamUint32 => uint_fits W32 z
  | SUint W64 z, (ParamUint64 | ParamUint) => uint_fits W64 z
  | _, _ => false
  end.

Lemma ParseInt_print w z : int_fits w z = true -> Strconv.ParseInt (Strconv.Itoa z) (bits w) = Ret z.
Proof.
  unfold int_fits. intros [Hl Hu]%andb_true_iff. apply Strconv.ParseInt_Itoa; [by destruct w|].
  rewrite Z.leb_le in Hl. rewrite Z.ltb_lt in Hu. lia.
Qed.

Lemma ParseUint_print w z : uint_fits w z = true -> Strconv.ParseUint (Strconv.Itoa z) (bits w) = Ret z.
Proof.
  unfold uint_fits. intros [Hl Hu]%andb_true_iff. apply Strconv.ParseUint_Itoa.
  rewrite Z.leb_le in Hl. rewrite Z.ltb_lt in Hu. lia.
Qed.

(** A path parameter that converts has the declared kind and is in its
    range, and printing a value of a kind, as internal calls and the wire
    transport do, converts back to the value. *)
Theorem convertScalar_roundtrip k s x :
  (convertScalar k x = Ret s -> scalar_kind s k = true) /\
  (scalar_kind s k = true -> convertScalar k (print_scalar s) = Ret s).
Proof.
  split.
  - destruct k; unfold convertScalar; try done.
    1: by intros [= <-].
    1: by destruct (num_error _); [intros [= <-]|..].
    all: destruct (num_error _) eqn:E; cbn [mbind outcome_bind]; [|done..]; intros [= <-];
      apply ParseInt_fits in E || apply ParseUint_fits in E; exact E.
  - destruct s as [y|b|w z|w z], k; try done; try (destruct w; done);
      unfold convertScalar, print_scalar; try (destruct w; [..|]; try done); intros H.
    all: try (by rewrite ParseInt_print by exact H || rewrite ParseUint_print by exact H).
    all: try (by destruct b).
    all: (rewrite (ParseInt_print _ _ H) || rewrite (ParseUint_print _ _ H)); reflexivity.
Qed.

(** *** Wire values *)
Section wire_typed.
Context (convert_out_of_range : Z -> Z) (ParseFloat64 : string -> option Z) (narrow : Z -> Z).

Lemma deref_typed t v t1 v1 put : deref t v = (t1, v1, put) -> has_type t v ->
  has_type t1 v1 /\ (forall w, has_type t1 w -> has_type t (put w)).
Proof.
  revert v t1 v1 put.
  induction t as [ | | | | | | |t IH| | |k t _ _| |n b t IH| ] using rtype_induction; intros v t1 v1 put; simpl;
    try (by intros [= <- <- <-]).
  - set (cur := match v with VPtr (Some u) => u | _ => zero_value t end).
    destruct (deref t cur) as [[t3 v3] put3] eqn:E. intros [= <- <- <-] Hv.
    assert (has_type t cur) as Hc by (destruct v as [ | | | | | |[u|]| | | | | | ]; try done; apply zero_value_type).
    apply IH in E; [|exact Hc]. exact E.
  - destruct (is_ptr t) eqn:Ep; [|intros [= <- <- <-] Hv; simpl; rewrite Ep; split; [exact Hv|intros w Hw; exact Hw]].
    intros E Hv. apply IH in E as [H1 H2].
    + split; [done|]. intros w Hw. right. by apply H2.
    + destruct Hv as [[Ht _]|]; [|done]. by rewrite andb_false_r in Ht.
Qed.

Definition assigner_typed (sub : assigner) : Prop := forall t v w, has_type t v -> sub t v = Done w -> has_type t w.

Lemma assign_items_typed subs t cur ws : Forall assigner_typed subs -> Forall (has_type t) cur ->
  assign_items subs t cur = Done ws -> Forall (has_type t) ws /\ (length ws = length subs `min` length cur)%nat.
Proof.
  intros Hs. revert cur ws. induction Hs as [|sub subs Hsub Hs IH]; intros cur ws Hc; simpl; [by intros [= <-]|].
  destruct Hc as [|v cur Hv Hc]; [by intros [= <-]|].
  destruct (sub t v) as [w| | |] eqn:E; cbn [mbind assigned_bind]; [|done..].
  destruct (assign_items subs t cur) as [ws'| | |] eqn:Es; [|done..]. intros [= <-].
  destruct (IH _ _ Hc Es) as [H1 H2]. split; [constructor; [by eapply Hsub|done]|]. simpl. by rewrite H2.
Qed.

Lemma assign_entries_typed subs t ws : Forall (fun e => assigner_typed e.2) subs ->
  assign_entries subs t = Done ws -> Forall (fun e => has_type t e.2) ws.
Proof.
  intros Hs. revert ws. induction Hs as [|[key sub] subs Hsub Hs IH]; intros ws; simpl; [by intros [= <-]|].
  destruct (sub t (zero_value t)) as [w| | |] eqn:E; cbn [mbind assigned_bind]; [|done..].
  destruct (assign_entries subs t) as [ws'| | |] eqn:Es; [|done..]. intros [= <-].
  constructor; [|by apply IH]. by eapply Hsub.
Qed.

Lemma assoc_Forall {A} (P : A -> Prop) key (m : list (string * A)) a :
  Forall (fun e => P e.2) m -> Http.assoc key m = Some a -> P a.
Proof.
  induction 1 as [|[k v] m Hv Hm IH]; simpl; [done|]. destruct (String.eqb key k); [by intros [= <-]|done].
Qed.

Lemma assignWireStruct_typed fields l obj ws : Forall (fun e => assigner_typed e.2) obj -> field_types fields l ->
  assignWireStruct fields l obj = Done ws -> field_types fields ws.
Proof.
  intros Ho Hl. revert ws. induction Hl as [|[f t] v fields l Hv Hl IH]; intros ws; simpl; [intros [= <-]; constructor|].
  destruct (f_anonymous f); [done|].
  match goal with |- (?x ≫= _) = _ -> _ => destruct x as [w| | |] eqn:E end; cbn [mbind assigned_bind]; [|done..].
  destruct (assignWireStruct fields l obj) as [ws'| | |]; [|done..]. intros [= <-].
  constructor; [|by apply IH]. simpl.
  destruct (negb (f_exported f)); [by simplify_eq|]. destruct (String.eqb _ ""); [by simplify_eq|].
  destruct (Http.assoc _ _) as [sub|] eqn:Ea; [|by simplify_eq].
  by eapply (assoc_Forall assigner_typed) in Ea; [eapply Ea|].
Qed.

Lemma has_type_struct_cases t fields v : under t = TStruct fields -> has_type t v ->
  field_types fields (match v with VStruct l => l | _ => map (fun ft => zero_value ft.2) fields end).
Proof.
  intros Eu Hv. assert (field_types fields (map (fun ft => zero_value ft.2) fields)) as Hz.
  { apply has_type_struct. apply (zero_value_type (TStruct fields)). }
  destruct v as [ | | | | | | | | | |l| | ]; try exact Hz. apply has_type_struct.
  revert Eu Hv. induction t; intros Eu Hv; simpl in *; simplify_eq; try done.
  destruct Hv as [[_ [s ?]]|Hv]; [done|]. by apply IHt.
Qed.

Lemma has_type_array_cases t n e v : under t = TArray n e -> has_type t v ->
  let cur := match v with VArray l => l | _ => replicate n (zero_value e) end in
  length cur = n /\ Forall (has_type e) cur.
Proof.
  intros Eu Hv. destruct v; try (split; [apply length_replicate|by apply Forall_replicate]).
  revert Eu Hv. induction t; intros Eu Hv; simpl in *; simplify_eq; try done.
  destruct Hv as [[_ [s ?]]|Hv]; [done|]. by apply IHt.
Qed.

Lemma assign_int_typed w src v : assign_int convert_out_of_range ParseFloat64 w src = Done v -> has_type (TInt w) v.
Proof.
  unfold assign_int. destruct (wireNumber _ _) as [f|]; [|done].
  destruct (negb (float_eqb _ _)); [done|]. destruct (int_fits w _) eqn:E; [|done]. by intros [= <-].
Qed.

Lemma assign_uint_typed w src v : assign_uint convert_out_of_range ParseFloat64 w src = Done v -> has_type (TUint w) v.
Proof.
  unfold assign_uint. destruct (wireNumber _ _) as [f|]; [|done]. destruct (float_negative f); [done|].
  destruct (negb (float_eqb _ _)); [done|]. destruct (uint_fits w _) eqn:E; [|done]. by intros [= <-].
Qed.

Abbreviation assignWire := (assignWireValue convert_out_of_range ParseFloat64 narrow).


(** A time or a byte slice that arrives in its JSON form, a string, is
    rejected. *)
Lemma assignWireValue_time_rejected s fields v :
  assignWire (Wire.AString s) (TNamed "time.Time" true (TStruct fields)) v = Bad "want object" /\
  assignWire (Wire.AString s) (TSlice (TUint W8)) v = Bad "want array".
Proof. done. Qed.
End wire_typed.

(** ** Responses without shape tags are sent as they are *)
Section shapes.
Context (marshal_text : rtype -> rval -> option string) (sprint : rtype -> rval -> string).

Definition untouched (st st' : shaped) : Prop := sh_status st' = sh_status st /\ sh_headers st' = sh_headers st.

Lemma append_field_untouched f t v st :
  tag_header f = "" -> hasSceneryTag f "httpstatus" = false ->
  untouched st (append_field marshal_text sprint f t v st).
Proof.
  intros Hh Hs. unfold append_field. rewrite Hh, Hs. simpl. destruct (parseJSONTag f) as [name opts].
  destruct (String.eqb name "-"); [done|]. destruct (_ && _); done.
Qed.

Lemma appendResponseFields_untouched t v st : shape_tags t = false ->
  untouched st (appendResponseFields marshal_text sprint t v st).
Proof.
  revert v st. induction t as [ | | | | | | |t IH| | | |fs IH|n b t IH| ] using rtype_induction;
    intros v st Ht; cbn [appendResponseFields]; try done.
  - destruct v as [ | | | | | |[w|]| | | | | | ]; try done. by apply IH.
  - destruct v as [ | | | | | | | | | |l| | ]; try done. cbn [shape_tags] in Ht.
    revert l st. induction IH as [|ft fs Hft Hfs IHfs]; intros l st; [done|]. destruct l as [|w l]; [done|].
    cbn [existsb] in Ht. apply orb_false_iff in Ht as [Hf Ht].
    set (st1 := if negb (f_exported ft.1) then st else _).
    assert (untouched st st1) as H1.
    { unfold st1. destruct (f_exported ft.1); simpl; [|done]. simpl in Hf.
      apply orb_false_iff in Hf as [[Hh Hs]%orb_false_iff Hr].
      apply negb_false_iff, String.eqb_eq in Hh.
      destruct (shouldFlattenJSONField ft.1 ft.2); [by apply Hft|by apply append_field_untouched]. }
    destruct (IHfs Ht l st1) as [H2 H3]. destruct H1 as [H4 H5]. split; congruence.
  - by apply IH.
Qed.

(** Deciding by the type alone whether a response is split loses nothing:
    without shape tags the fields would set neither status nor headers, the
    response goes out as it is, and its status is the explicit one or 200. *)
Theorem encodeResponse_unshaped headers t v explicitStatus :
  hasResponseShapeTags t = false ->
  (forall st, isStructLike t = true -> untouched st (appendResponseFields marshal_text sprint t v st)) /\
  encodeResponseWithStatus marshal_text sprint headers (Some (t, v)) explicitStatus =
    (if explicitStatus =? 0 then 200 else explicitStatus,
     Http.Set_ headers "Content-Type" "application/json",
     match under t, v with TPtr _, VPtr None => None | _, _ => Some (BodyValue t v) end).
Proof.
  intros Hs. unfold hasResponseShapeTags in Hs. split.
  - intros st Hl. rewrite Hl in Hs. by apply appendResponseFields_untouched.
  - assert (splitResponse marshal_text sprint t v headers = (BodyValue t v, 0, headers)) as E.
    { unfold splitResponse, hasResponseShapeTags. by rewrite Hs. }
    unfold encodeResponseWithStatus. rewrite E. rewrite andb_false_r.
    destruct (explicitStatus =? 0), (isStructLike t); simpl; destruct (under t), v as [ | | | | | |[]| | | | | | ]; done.
Qed.
End shapes.

Lemma encodeResponse_unshaped_witness :
  let t := TStruct [(demo_sfield "Name" "" true, TString)] in
  encodeResponseWithStatus (fun _ _ => None) (fun _ _ => "") [] (Some (t, VStruct [VString "x"])) 0 =
    (200, [("Content-Type", ["application/json"])], Some (BodyValue t (VStruct [VString "x"]))).
Proof.
  intros t.
  refine (proj2 (encodeResponse_unshaped (fun _ _ => None) (fun _ _ => "") [] t (VStruct [VString "x"]) 0 _)).
  vm_compute. reflexivity.
Defined.

End Payload.
