(* ===== verification/RuntimeServer.v ===== *)
(** * The runtime's registry and server ([runtime/registry.go],
    [runtime/server.go], [runtime/current.go])

    [Runtime] models the registration of endpoints, auth handlers and services,
    the start and stop of services, the state of the current request, the route
    tables [newServer] builds, authentication, the decoding of path parameters,
    the handlers of typed and raw endpoints and internal calls.  Endpoints run
    through the middleware chain of [Middleware], payloads are decoded and
    encoded by [Payload], routes are those of [Router], errors those of [Errs].

    User code is an argument: what an endpoint, a raw handler, an auth handler,
    a service hook does.  Tracing and logging do not change what is modelled and
    are left out. *)
From stdpp Require Import base tactics list gmap strings sorting.
From Stdlib Require Import ZArith Lia Ascii.
From S2P Require Import Prelude GoStrings WireCodec Router Redact Errs Middleware Http Payload.

Module Runtime.
(** ** Data *)
Inductive Access := Public | Auth | Private.

#[export] Instance Access_eq_dec : EqDecision Access.
Proof. solve_decision. Defined.

Record ParamSpec := { ps_name : string; ps_kind : Payload.ParamKind }.

Record PathParam := { pp_name : string; pp_value : string }.

Record AuthInfo := { UID : string; Data : option string }.

Definition no_auth : AuthInfo := {| UID := ""; Data := None |}.

(** The functions of an endpoint are arguments of the handlers below; [HasWireInvoke]
    and [HasWireInvokeJSON] say whether those are set. *)
Record Endpoint := {
  Service : string; Name : string; Access_ : Access; Raw : bool; Path : string;
  Methods : list string; MiddlewareIDs : list string; PathParams : list ParamSpec;
  PayloadType : option Payload.rtype; ResponseType : option Payload.rtype;
  WireID : string; WireSchemaHash : string; WireAvailable : bool; WireUnsupportedReason : string;
  HasWireInvoke : bool; HasWireInvokeJSON : bool
}.

(** The parameter type of an auth handler: nil, string, or a struct. *)
Inductive auth_param := APNone | APString | APStruct (t : Payload.rtype).

Record AuthHandler := { ah_name : string; ah_service : string; ParamType : auth_param }.

(** ** Registration *)
Section registry.
(** The types of service initializers and shutdown hooks. *)
Context {Init Hook : Type}.

Record serviceShutdown := { service : string; order : Z; shutdown : option Hook }.

Record registry := {
  endpoints : gmap string Endpoint;
  middlewares : gset string;
  authHandler : option AuthHandler;
  serviceInitializers : gmap string Init;
  serviceInitOrder : gmap string Z;
  serviceShutdowns : gmap string serviceShutdown
}.

Definition empty_registry : registry :=
  {| endpoints := ∅; middlewares := ∅; authHandler := None; serviceInitializers := ∅;
     serviceInitOrder := ∅; serviceShutdowns := ∅ |}.

Definition endpointKey (service name : string) : string := service +:+ "." +:+ name.

Definition with_wire_id (ep : Endpoint) (id : string) : Endpoint :=
  {| Service := Service ep; Name := Name ep; Access_ := Access_ ep; Raw := Raw ep; Path := Path ep;
     Methods := Methods ep; MiddlewareIDs := MiddlewareIDs ep; PathParams := PathParams ep;
     PayloadType := PayloadType ep; ResponseType := ResponseType ep;
     WireID := id; WireSchemaHash := WireSchemaHash ep; WireAvailable := WireAvailable ep;
     WireUnsupportedReason := WireUnsupportedReason ep;
     HasWireInvoke := HasWireInvoke ep; HasWireInvokeJSON := HasWireInvokeJSON ep |}.

Definition set_endpoints (m : gmap string Endpoint) (r : registry) : registry :=
  {| endpoints := m; middlewares := middlewares r; authHandler := authHandler r;
     serviceInitializers := serviceInitializers r; serviceInitOrder := serviceInitOrder r;
     serviceShutdowns := serviceShutdowns r |}.

Definition RegisterEndpoint (ep : Endpoint) (r : registry) : outcome string registry :=
  let key := endpointKey (Service ep) (Name ep) in
  if bool_decide (is_Some (endpoints r !! key)) then Panic ("runtime: duplicate endpoint registration for " +:+ key)
  else match Methods ep with
  | [] => Panic ("runtime: endpoint " +:+ key +:+ " missing methods")
  | _ =>
    let ep := if String.eqb (Strings.TrimSpace (WireID ep)) "" then with_wire_id ep key else ep in
    Ret (set_endpoints (<[key := ep]> (endpoints r)) r)
  end.

Definition RegisterMiddleware (id : string) (r : registry) : outcome string registry :=
  if bool_decide (id ∈ middlewares r) then Panic ("runtime: duplicate middleware registration for " +:+ id)
  else Ret {| endpoints := endpoints r; middlewares := {[ id ]} ∪ middlewares r; authHandler := authHandler r;
              serviceInitializers := serviceInitializers r; serviceInitOrder := serviceInitOrder r;
              serviceShutdowns := serviceShutdowns r |}.

Definition RegisterAuthHandler (h : AuthHandler) (r : registry) : outcome string registry :=
  match authHandler r with
  | Some _ => Panic "runtime: auth handler already registered"
  | None => Ret {| endpoints := endpoints r; middlewares := middlewares r; authHandler := Some h;
                   serviceInitializers := serviceInitializers r; serviceInitOrder := serviceInitOrder r;
                   serviceShutdowns := serviceShutdowns r |}
  end.

(** [init] is [None] for a nil function. *)
Definition RegisterServiceInitializer (service : string) (init : option Init) (r : registry) : outcome string registry :=
  if String.eqb (Strings.TrimSpace service) "" then Panic "runtime: service initializer missing service name"
  else match init with
  | None => Panic ("runtime: service initializer for " +:+ service +:+ " is nil")
  | Some f =>
    if bool_decide (is_Some (serviceInitializers r !! service))
    then Panic ("runtime: duplicate service initializer for " +:+ service)
    else Ret {| endpoints := endpoints r; middlewares := middlewares r; authHandler := authHandler r;
                serviceInitializers := <[service := f]> (serviceInitializers r);
                serviceInitOrder := serviceInitOrder r; serviceShutdowns := serviceShutdowns r |}
  end.

Definition MarkServiceInitialized (service : string) (shutdown : option Hook) (r : registry) : outcome string registry :=
  if String.eqb (Strings.TrimSpace service) "" then Panic "runtime: service shutdown missing service name"
  else Ret {| endpoints := endpoints r; middlewares := middlewares r; authHandler := authHandler r;
              serviceInitializers := serviceInitializers r; serviceInitOrder := serviceInitOrder r;
              serviceShutdowns :=
                <[service := {| service := service; order := default 0 (serviceInitOrder r !! service);
                                shutdown := shutdown |}]> (serviceShutdowns r) |}.

Definition LookupEndpoint (service name : string) (r : registry) : option Endpoint :=
  endpoints r !! endpointKey service name.

Definition endpoint_before : Endpoint -> Endpoint -> bool :=
  by_key Service (fun a b => str_lt (Name a) (Name b)).

Definition listEndpoints (r : registry) : list Endpoint :=
  sort_stable endpoint_before (map snd (map_to_list (endpoints r))).

Definition getAuthHandler (r : registry) : option AuthHandler := authHandler r.

(** ** Services *)

(** The services to initialize, sorted by name. *)
Definition initializers (r : registry) : list (string * Init) :=
  sort_stable Wire.key_before (map_to_list (serviceInitializers r)).

Fixpoint number_from (i : Z) (l : list (string * Init)) (m : gmap string Z) : gmap string Z :=
  match l with
  | [] => m
  | (s, _) :: l' => number_from (i + 1) l' (<[s := i]> m)
  end.

Definition set_init_order (m : gmap string Z) (r : registry) : registry :=
  {| endpoints := endpoints r; middlewares := middlewares r; authHandler := authHandler r;
     serviceInitializers := serviceInitializers r; serviceInitOrder := m; serviceShutdowns := serviceShutdowns r |}.

(** The initializers run concurrently: [completion] is the order in which they
    send their results, [run] what they return.  The registry has the order in
    which they were listed before the first of them starts. *)
Definition InitializeServices {E : Type} (run : Init -> option E)
  (completion : list (string * Init) -> list (string * Init)) (r : registry) : option (string * E) * registry :=
  let inits := initializers r in
  (head (omap (fun si => (fun e => (si.1, e)) <$> run si.2) (completion inits)),
   set_init_order (number_from 1 inits ∅) r).

Definition hook_before (a b : serviceShutdown) : bool :=
  if order b <? order a then true
  else if order a <? order b then false
  else str_lt (service b) (service a).

Definition shutdown_hooks (r : registry) : list serviceShutdown :=
  sort_stable hook_before
    (filter (fun h => is_Some (shutdown h)) (map snd (map_to_list (serviceShutdowns r)))).

(** The loop over the hooks: [done i] is the error of the context before the
    [i]-th hook, [run] the panic of a hook.  The result is the hooks that ran
    and the errors, in order. *)
Fixpoint shutdown_loop {E : Type} (done : nat -> option E) (run : Hook -> option E) (i : nat)
  (hooks : list serviceShutdown) : list string * list E :=
  match hooks with
  | [] => ([], [])
  | h :: hooks' =>
    match done i with
    | Some e => ([], [e])
    | None =>
      let panic := match shutdown h with Some f => run f | None => None end in
      let '(ran, errors) := shutdown_loop done run (S i) hooks' in
      (service h :: ran, match panic with Some e => e :: errors | None => errors end)
    end
  end.

Definition ShutdownServices {E : Type} (done : nat -> option E) (run : Hook -> option E) (r : registry) :
  list string * list E :=
  shutdown_loop done run 0 (shutdown_hooks r).
End registry.
Arguments registry : clear implicits.

(** ** The state of the current request, by goroutine *)
Section current.
Context {S : Type}.

Abbreviation stateStore := (gmap Z S).

Definition currentState (id : Z) (store : stateStore) : option S := store !! id.

(** [enterState] stores the state; its restore function puts back what was
    there. *)
Definition enterState (id : Z) (state : S) (store : stateStore) : stateStore * (stateStore -> stateStore) :=
  let prev := store !! id in
  (<[id := state]> store,
   fun store' => match prev with Some p => <[id := p]> store' | None => delete id store' end).

(** What happens between entering a state and restoring: other goroutines enter
    and leave theirs, and this one nests properly. *)
Inductive nested (id : Z) : stateStore -> stateStore -> Prop :=
| nested_refl store : nested id store store
| nested_other store store' other s : other <> id -> nested id (<[other := s]> store) store' -> nested id store store'
| nested_leave store store' other : other <> id -> nested id (delete other store) store' -> nested id store store'
| nested_enter store store1 store' s :
    nested id (fst (enterState id s store)) store1 ->
    nested id (snd (enterState id s store) store1) store' -> nested id store store'.

(** Nesting leaves the state of the goroutine as it was, so every handler sees
    its own request after the calls it makes. *)
Lemma nested_current id store store' : nested id store store' -> currentState id store' = currentState id store.
Proof.
  unfold currentState. induction 1 as [| | |store store1 store' s H1 IH1 H2 IH2]; [done|..].
  - rewrite IHnested. by apply lookup_insert_ne.
  - rewrite IHnested. by apply lookup_delete_ne.
  - rewrite IH2. simpl. destruct (store !! id); [by rewrite lookup_insert_eq|by rewrite lookup_delete_eq].
Qed.
End current.

(** ** Requests and their handlers *)
Definition unauthenticated (msg : string) : Errs.error :=
  Errs.Builder_Err (Errs.Builder_Msg msg (Errs.Builder_Code Errs.Unauthenticated Errs.B)).
Definition not_found (msg : string) : Errs.error :=
  Errs.Builder_Err (Errs.Builder_Msg msg (Errs.Builder_Code Errs.NotFound Errs.B)).
Definition unimplemented (msg : string) : Errs.error :=
  Errs.Builder_Err (Errs.Builder_Msg msg (Errs.Builder_Code Errs.Unimplemented Errs.B)).

(** The state of a request as endpoint code sees it. *)
Record requestState := {
  st_service : string; st_endpoint : string; st_method : string; st_path : string;
  st_params : list PathParam; st_internal : bool; st_cron_key : string; st_auth : AuthInfo
}.

Section handlers.
Context (authenticate : AuthHandler -> option Payload.rval -> outcome Errs.error AuthInfo)
        (unmarshal_text : string -> string -> option string) (ParseFloat : Z -> string -> option Z)
        (unmarshal_json : string -> Payload.rtype -> Payload.rval -> outcome string Payload.rval)
        (maybeValidate : Payload.rtype -> Payload.rval -> option Errs.error).

Fixpoint auth_token (auth : string) (prefixes : list string) : option string :=
  match prefixes with
  | [] => None
  | prefix :: prefixes' =>
    match Strings.CutPrefix auth prefix with
    | (after, true) =>
      let token := Strings.TrimSpace after in
      if negb (String.eqb token "") then Some token else auth_token auth prefixes'
    | (_, false) => auth_token auth prefixes'
    end
  end.

Definition decodeAuthParams (req : Payload.Request) (h : AuthHandler) : outcome Errs.error (option Payload.rval) :=
  match ParamType h with
  | APNone => Ret None
  | APString =>
    match auth_token (Http.Get (Payload.req_header req) "Authorization") ["Bearer "; "Token "] with
    | Some token => Ret (Some (Payload.VString token))
    | None => Fail (unauthenticated "invalid auth param")
    end
  | APStruct t =>
    v ← Payload.decodeTaggedStruct unmarshal_text ParseFloat unmarshal_json maybeValidate req t true; Ret (Some v)
  end.

Definition authenticateRequest (handler : option AuthHandler) (req : Payload.Request) (ep : Endpoint) :
  outcome Errs.error AuthInfo :=
  match Access_ ep with
  | Auth =>
    match handler with
    | None => Fail (Middleware.internal "auth endpoint configured but no auth handler registered")
    | Some h =>
      params ← decodeAuthParams req h;
      info ← authenticate h params;
      if String.eqb (UID info) "" then Fail (unauthenticated "auth handler returned empty user id") else Ret info
    end
  | _ => Ret no_auth
  end.

(** The loop of [decodePathParams] and [decodeWirePathParams]: [raw] gives the
    text of a parameter, or the error for a missing one. *)
Fixpoint decode_params (raw : string -> outcome Errs.error string) (specs : list ParamSpec) :
  outcome Errs.error (list Payload.scalar * list PathParam) :=
  match specs with
  | [] => Ret ([], [])
  | spec :: specs' =>
    text ← raw (ps_name spec);
    match Payload.decodeScalar (ps_kind spec) text with
    | Ret value =>
      rest ← decode_params raw specs';
      Ret (value :: rest.1, {| pp_name := ps_name spec; pp_value := text |} :: rest.2)
    | Fail msg =>
      Fail (Payload.invalid ("invalid path param " +:+ Middleware.quoted (ps_name spec) +:+ ": " +:+ msg))
    | Panic m => Panic m
    end
  end.

Definition decodePathParams (ep : Endpoint) (params : list Router.routeParamValue) :
  outcome Errs.error (list Payload.scalar * list PathParam) :=
  decode_params (fun name => Ret (Strings.TrimPrefix (Router.ByName params name) "/")) (PathParams ep).

(** ** Running endpoints *)

(** What is called with what: the chain of an endpoint is entered with the
    authentication of the request. *)
Record call := { c_endpoint : Endpoint; c_state : requestState }.

Context (mws : gmap string (@Middleware.Middleware requestState Payload.rval))
        (Invoke : Endpoint -> requestState -> list Payload.scalar -> option Payload.rval ->
                  outcome Errs.error (option (@Middleware.payload Payload.rval)))
        (mock : Endpoint -> option (requestState -> list Payload.scalar -> option Payload.rval ->
                  outcome Errs.error (option (@Middleware.payload Payload.rval))))
        (RawHandler : Endpoint -> option requestState -> list Middleware.rawop * option string)
        (rawMock : Endpoint -> option (option requestState -> Errs.error + list Middleware.rawop * option string))
        (type_name : Payload.rtype -> string) (type_of : @Middleware.payload Payload.rval -> string)
        (assignable : string -> string -> bool).

(** The endpoint as the middleware chain runs it, with its arguments. *)
Definition chain_endpoint (ep : Endpoint) (args : list Payload.scalar) (payload : option Payload.rval) :
  @Middleware.Endpoint requestState Payload.rval :=
  {| Middleware.Service := Service ep; Middleware.Name := Name ep; Middleware.MiddlewareIDs := MiddlewareIDs ep;
     Middleware.ResponseType := type_name <$> ResponseType ep;
     Middleware.EpInvoke := fun c => Invoke ep c args payload;
     Middleware.EpMock := (fun m c => m c args payload) <$> mock ep;
     Middleware.RawHandler := RawHandler ep;
     Middleware.RawMock := rawMock ep |}.

Definition background : requestState :=
  {| st_service := ""; st_endpoint := ""; st_method := ""; st_path := ""; st_params := [];
     st_internal := false; st_cron_key := ""; st_auth := no_auth |}.

Definition executeTypedEndpoint (ep : Endpoint) (st : requestState) (args : list Payload.scalar)
  (payload : option Payload.rval) : option (@Middleware.typed_result Payload.rval + string) :=
  fst <$> Middleware.executeTypedEndpoint type_of assignable background mws (chain_endpoint ep args payload) (Some st).

Definition executeRawEndpoint (ep : Endpoint) (st : requestState) : option (Middleware.raw_result + string) :=
  fst <$> Middleware.executeRawEndpoint mws (chain_endpoint ep [] None) (Some st).

(** What a handler sends: an error with its status and the headers set so far,
    a value to encode, or the bytes of a raw endpoint; a panic of user code ends
    the connection. *)
Inductive response :=
| RespError (status : Z) (headers : Middleware.Header) (err : Errs.error)
| RespValue (headers : Middleware.Header) (value : option (@Middleware.payload Payload.rval)) (explicitStatus : Z)
| RespRaw (status : Z) (headers : Middleware.Header) (body : list ascii)
| RespStream (w : Middleware.rawStreamingResponseWriter) (err : option (Z * Errs.error))
| RespPanic (recovered : string).

(** The calls a handler made, and its response. *)
Definition handled : Type := list call * response.

(** [errs.HTTPError] on a response with the given headers. *)
Definition fail_with (headers : Middleware.Header) (err : Errs.error) : handled :=
  ([], RespError (Errs.HTTPStatus (Some err)) headers err).

Definition newExternalState (ep : Endpoint) (req : Payload.Request) (path : string) (params : list PathParam) (auth : AuthInfo) :
  requestState :=
  {| st_service := Service ep; st_endpoint := Name ep; st_method := Payload.Method req; st_path := path;
     st_params := params; st_internal := false; st_cron_key := ""; st_auth := auth |}.

Context (handler : option AuthHandler).

(** The handler [registerTyped] installs; [path] is the path of the request and
    [headers] what [withCORS] has set on the response. *)
Definition serveTyped (ep : Endpoint) (req : Payload.Request) (path : string) (params : list Router.routeParamValue)
  (headers : Middleware.Header) : handled :=
  match decodePathParams ep params with
  | Fail err => fail_with headers err
  | Panic m => ([], RespPanic m)
  | Ret (args, pathParams) =>
    match Payload.decodePayload unmarshal_text ParseFloat unmarshal_json maybeValidate req (PayloadType ep) with
    | Fail err => fail_with headers err
    | Panic m => ([], RespPanic m)
    | Ret payload =>
      match authenticateRequest handler req ep with
      | Fail err => fail_with headers err
      | Panic m => ([], RespPanic m)
      | Ret auth =>
        let st := newExternalState ep req path pathParams auth in
        let calls := [{| c_endpoint := ep; c_state := st |}] in
        match executeTypedEndpoint ep st args payload with
        | Some (inl r) =>
          let headers := Middleware.applyHeaders headers (default [] (Middleware.res_headers r)) in
          (calls, match Middleware.res_err r with
                  | Some err => RespError (Middleware.res_status r) headers err
                  | None => RespValue headers (Middleware.res_payload r) (Middleware.res_status r)
                  end)
        | Some (inr recovered) => (calls, RespPanic recovered)
        | None => (calls, RespPanic "out of fuel")
        end
      end
    end
  end.

Definition canStreamRawEndpoint (ep : Endpoint) : bool :=
  match MiddlewareIDs ep with [] => bool_decide (rawMock ep = None) | _ => false end.

(** The handler runs on the streaming writer; its panic becomes an error, which
    is sent when nothing was. *)
Definition serve_stream (ep : Endpoint) (st : requestState) : response :=
  let '(ops, recovered) := RawHandler ep (Some st) in
  let w := fold_left Middleware.streaming_op ops Middleware.newRawStreamingResponseWriter in
  RespStream w
    match recovered with
    | Some r =>
      if Middleware.wroteHeader w then None
      else let err := Middleware.internal ("panic handling request: " +:+ r) in
           Some (Errs.HTTPStatus (Some err), err)
    | None => None
    end.

Definition serveRaw (ep : Endpoint) (req : Payload.Request) (path : string) (params : list Router.routeParamValue)
  (headers : Middleware.Header) : handled :=
  let pathParams := map (fun p => {| pp_name := Router.Key p; pp_value := Strings.TrimPrefix (Router.Value p) "/" |}) params in
  match authenticateRequest handler req ep with
  | Fail err => fail_with headers err
  | Panic m => ([], RespPanic m)
  | Ret auth =>
    let st := newExternalState ep req path pathParams auth in
    let calls := [{| c_endpoint := ep; c_state := st |}] in
    if canStreamRawEndpoint ep then (calls, serve_stream ep st)
    else match executeRawEndpoint ep st with
    | Some (inl r) =>
      let headers := Middleware.applyHeaders headers (default [] (Middleware.raw_headers r)) in
      (calls, match Middleware.raw_err r with
              | Some err => RespError (Middleware.raw_status r) headers err
              | None => RespRaw (Middleware.raw_status r) headers (Middleware.raw_body r)
              end)
    | Some (inr recovered) => (calls, RespPanic recovered)
    | None => (calls, RespPanic "out of fuel")
    end
  end.

(** ** Internal calls *)
Definition encodePathParams (specs : list ParamSpec) (values : list Payload.scalar) : list PathParam :=
  map (fun '(spec, v) => {| pp_name := ps_name spec; pp_value := Payload.print_scalar v |}) (zip specs values).

(** [caller] is the state of the context of the caller. *)
Definition CallEndpoint {I K} (r : registry I K) (caller : option requestState) (service name : string)
  (args : list Payload.scalar) (payload : option Payload.rval) :
  list call * outcome Errs.error (option (@Middleware.payload Payload.rval)) :=
  match LookupEndpoint service name r with
  | None => ([], Fail (not_found ("endpoint " +:+ service +:+ "." +:+ name +:+ " not found")))
  | Some ep =>
    if Raw ep then ([], Fail (unimplemented "raw endpoints cannot be called internally"))
    else
      let cronKey := match caller with Some s => st_cron_key s | None => "" end in
      let cron := negb (String.eqb cronKey "") in
      let st := {| st_service := Service ep; st_endpoint := Name ep;
                   st_method := if cron then "CRON" else "INTERNAL"; st_path := Path ep;
                   st_params := encodePathParams (PathParams ep) args; st_internal := negb cron;
                   st_cron_key := cronKey;
                   st_auth := match caller with Some s => st_auth s | None => no_auth end |} in
      if bool_decide (Access_ ep = Auth) && String.eqb (UID (st_auth st)) ""
      then ([], Fail (unauthenticated "endpoint requires auth"))
      else
        ([{| c_endpoint := ep; c_state := st |}],
         match executeTypedEndpoint ep st args payload with
         | Some (inl res) =>
           match Middleware.res_err res with Some err => Fail err | None => Ret (Middleware.res_payload res) end
         | Some (inr recovered) => Panic recovered
         | None => Panic "out of fuel"
         end)
  end.

(** ** Endpoints that need authentication are called only with a user *)
Definition authorized (c : call) : Prop :=
  Access_ (c_endpoint c) = Auth -> UID (st_auth (c_state c)) <> "".

Lemma authenticateRequest_user h req ep auth :
  authenticateRequest h req ep = Ret auth -> Access_ ep = Auth -> UID auth <> "".
Proof.
  unfold authenticateRequest. intros E Ha. rewrite Ha in E. destruct h as [h|]; [|done].
  destruct (decodeAuthParams req h) as [params| |]; [|done..]. cbn [mbind outcome_bind] in E.
  destruct (authenticate h params) as [info| |]; [|done..]. cbn [mbind outcome_bind] in E.
  destruct (String.eqb_spec (UID info) ""); by simplify_eq.
Qed.

Lemma serveTyped_calls ep req path params headers :
  Forall (fun c => c_endpoint c = ep /\ authorized c) (fst (serveTyped ep req path params headers)).
Proof.
  unfold serveTyped. destruct (decodePathParams ep params) as [[args pathParams]| |]; [|constructor..].
  destruct (Payload.decodePayload _ _ _ _ _ _) as [payload| |]; [|constructor..].
  destruct (authenticateRequest handler req ep) as [auth| |] eqn:E; [|constructor..].
  assert (authorized {| c_endpoint := ep; c_state := newExternalState ep req path pathParams auth |}) as Ha.
  { intros Ha. by eapply authenticateRequest_user. }
  destruct (executeTypedEndpoint _ _ _ _) as [[r|]|]; repeat constructor; done.
Qed.

Lemma serveRaw_calls ep req path params headers :
  Forall (fun c => c_endpoint c = ep /\ authorized c) (fst (serveRaw ep req path params headers)).
Proof.
  unfold serveRaw. destruct (authenticateRequest handler req ep) as [auth| |] eqn:E; [|constructor..].
  cbv zeta. set (st := newExternalState _ _ _ _ _).
  assert (authorized {| c_endpoint := ep; c_state := st |}) as Ha.
  { intros Ha. by eapply authenticateRequest_user. }
  destruct (canStreamRawEndpoint ep); [|destruct (executeRawEndpoint _ _) as [[r|]|]]; repeat constructor; done.
Qed.

Lemma CallEndpoint_calls {I K} (r : registry I K) caller service name args payload :
  Forall authorized (fst (CallEndpoint r caller service name args payload)).
Proof.
  unfold CallEndpoint. destruct (LookupEndpoint service name r) as [ep|]; [|constructor].
  destruct (Raw ep); [constructor|]. cbv zeta. set (st := {| st_service := _ |}).
  destruct (bool_decide (Access_ ep = Auth) && String.eqb (UID (st_auth st)) "") eqn:E; [constructor|].
  repeat constructor. intros Ha. simpl in *. rewrite bool_decide_true in E by done. simpl in E.
  by apply String.eqb_neq.
Qed.
End handlers.

(** ** Services stop in the reverse order of their start *)
Section services.
Context {Init Hook E : Type}.
Implicit Type r : registry Init Hook.

Lemma shutdown_loop_spec (done : nat -> option E) (run : Hook -> option E) i hooks :
  fst (shutdown_loop done run i hooks) `prefix_of` map service hooks /\
  ((forall k, done k = None) -> fst (shutdown_loop done run i hooks) = map service hooks /\
     snd (shutdown_loop done run i hooks) = omap (fun h => shutdown h ≫= run) hooks).
Proof.
  revert i. induction hooks as [|h hooks IH]; intros i; simpl; [done|].
  destruct (IH (S i)) as [Hp He]. destruct (shutdown_loop done run (S i) hooks) as [ran errors]. simpl in *.
  destruct (done i) eqn:Ed; simpl.
  - split; [apply prefix_nil|]. intros Hn. by rewrite Hn in Ed.
  - split; [by apply prefix_cons|]. intros Hn. destruct (He Hn) as [-> ->]. split; [done|].
    destruct (shutdown h) as [f|]; simpl; [|done]. by destruct (run f).
Qed.

Lemma hook_before_asym (a b : @serviceShutdown Hook) : hook_before a b = true -> hook_before b a = false.
Proof.
  unfold hook_before. destruct (Z.ltb_spec (order b) (order a)), (Z.ltb_spec (order a) (order b)); try done; try lia.
  apply str_lt_asym.
Qed.

Lemma hook_before_neg_trans (a b c : @serviceShutdown Hook) :
  hook_before b a = false -> hook_before c b = false -> hook_before c a = false.
Proof.
  unfold hook_before.
  destruct (Z.ltb_spec (order a) (order b)), (Z.ltb_spec (order b) (order a)),
    (Z.ltb_spec (order b) (order c)), (Z.ltb_spec (order c) (order b)),
    (Z.ltb_spec (order a) (order c)), (Z.ltb_spec (order c) (order a)); try done; try lia.
  intros Hx Hy. by eapply str_lt_neg_trans.
Qed.

(** Services marked as initialized, one after the other. *)
Fixpoint mark_all (marks : list (string * option Hook)) r : outcome string (registry Init Hook) :=
  match marks with
  | [] => Ret r
  | (s, h) :: marks' => r ← MarkServiceInitialized s h r; mark_all marks' r
  end.

Definition hooks_wf r : Prop := forall s h, serviceShutdowns r !! s = Some h ->
  service h = s /\ order h = default 0 (serviceInitOrder r !! s).

Lemma mark_all_wf marks r r' : hooks_wf r -> mark_all marks r = Ret r' ->
  hooks_wf r' /\ serviceInitOrder r' = serviceInitOrder r /\ serviceInitializers r' = serviceInitializers r.
Proof.
  revert r. induction marks as [|[s h] marks IH]; intros r Hr; simpl; [by intros [= <-]|].
  unfold MarkServiceInitialized. destruct (String.eqb _ ""); [done|]. cbn [mbind outcome_bind].
  intros Hm. apply IH in Hm; [exact Hm|]. intros s' h'. simpl.
  destruct (decide (s = s')) as [<-|Hne]; [rewrite lookup_insert_eq; by intros [= <-]|].
  rewrite lookup_insert_ne by done. apply Hr.
Qed.

Lemma number_from_lookup i (l : list (string * Init)) m s : NoDup (map fst l) ->
  number_from i l m !! s =
    match list_find (fun x => fst x = s) l with Some (k, _) => Some (i + Z.of_nat k) | None => m !! s end.
Proof.
  revert i m. induction l as [|[s' f] l IH]; intros i m Hnd; simpl; [done|].
  apply NoDup_cons in Hnd as [Hs Hnd]. rewrite IH by done. case_decide as Es; simpl in Es.
  - subst. destruct (list_find _ l) as [[k y]|] eqn:Ef.
    + apply list_find_Some in Ef as (Hl & Hy & _). destruct Hs. rewrite <- Hy.
      apply list_elem_of_fmap. exists y. split; [done|]. by eapply list_elem_of_lookup_2.
    + rewrite lookup_insert_eq. f_equal. lia.
  - destruct (list_find _ l) as [[k y]|]; simpl; [f_equal; lia|]. by rewrite lookup_insert_ne.
Qed.

Lemma StronglySorted_lookup_lt {A} (R : A -> A -> Prop) l i j x y :
  StronglySorted R l -> l !! i = Some x -> l !! j = Some y -> (i < j)%nat -> R x y.
Proof.
  intros Hs. revert i j. induction Hs as [|z l Hs IH Hz]; intros [|i] [|j] Hi Hj Hij; simpl in *; try done; try lia.
  - simplify_eq. rewrite Forall_forall in Hz. apply Hz. by eapply list_elem_of_lookup_2.
  - apply (IH i j); [done..|lia].
Qed.

Lemma key_before_asym {A} (x y : string * A) : Wire.key_before x y = true -> Wire.key_before y x = false.
Proof. apply str_lt_asym. Qed.

Lemma key_before_neg_trans {A} (x y z : string * A) :
  Wire.key_before y x = false -> Wire.key_before z y = false -> Wire.key_before z x = false.
Proof. apply str_lt_neg_trans. Qed.

Lemma initializers_sorted r : StronglySorted (not_after Wire.key_before) (initializers r).
Proof. apply sort_stable_sorted; [apply key_before_asym|apply key_before_neg_trans]. Qed.

Lemma initializers_NoDup r : NoDup (map fst (initializers r)).
Proof. unfold initializers. rewrite sort_stable_perm. apply NoDup_fst_map_to_list. Qed.

Lemma elem_of_initializers r s : s ∈ map fst (initializers r) <-> is_Some (serviceInitializers r !! s).
Proof.
  unfold initializers. rewrite sort_stable_perm, list_elem_of_fmap. split.
  - intros ([k v] & -> & H%elem_of_map_to_list). by eexists.
  - intros [v Hv]. exists (s, v). by rewrite elem_of_map_to_list.
Qed.

(** The number of a service is larger the later its name. *)
Lemma init_order_mono r a b : str_lt a b = true ->
  is_Some (serviceInitializers r !! a) -> is_Some (serviceInitializers r !! b) ->
  exists i j, number_from 1 (initializers r) ∅ !! a = Some i /\ number_from 1 (initializers r) ∅ !! b = Some j /\ i < j.
Proof.
  intros Hab Ha%elem_of_initializers Hb%elem_of_initializers.
  assert (forall s, s ∈ map fst (initializers r) -> exists k x,
    list_find (fun x => fst x = s) (initializers r) = Some (k, x)) as Hfind.
  { intros s Hs. apply list_elem_of_fmap in Hs as (x & Hx & Hin).
    destruct (list_find_elem_of (fun x => fst x = s) (initializers r) x) as [[k y] Hk]; [done..|]. eauto. }
  destruct (Hfind a Ha) as (i & x & Hi), (Hfind b Hb) as (j & y & Hj).
  rewrite !number_from_lookup, Hi, Hj by apply initializers_NoDup.
  eexists _, _. split_and!; [done..|].
  apply list_find_Some in Hi as (Hi & Hx & _), Hj as (Hj & Hy & _). subst.
  enough (i < j)%nat by lia. destruct (decide (i < j)%nat) as [|Hge]; [done|]. exfalso.
  destruct (decide (i = j)) as [->|Hne]; [simplify_eq; by rewrite str_lt_irrefl in Hab|].
  assert (j < i)%nat as Hlt by lia.
  pose proof (StronglySorted_lookup_lt _ _ _ _ _ _ (initializers_sorted r) Hj Hi Hlt) as Hs.
  unfold not_after, Wire.key_before in Hs. congruence.
Qed.

Lemma mark_all_registered marks q r' (P : string -> Prop) : mark_all marks q = Ret r' ->
  Forall (fun m => P (fst m)) marks -> (forall s h, serviceShutdowns q !! s = Some h -> P s) ->
  forall s h, serviceShutdowns r' !! s = Some h -> P s.
Proof.
  revert q. induction marks as [|[s h] marks IH]; intros q; simpl; [by intros [= <-]|].
  unfold MarkServiceInitialized. destruct (String.eqb _ ""); [done|]. cbn [mbind outcome_bind].
  intros Hq [Hs Hl]%Forall_cons Hbase. eapply IH; [exact Hq|exact Hl|]. intros s' h'. simpl.
  destruct (decide (s = s')) as [<-|Hne]; [by intros _|]. rewrite lookup_insert_ne by done. apply Hbase.
Qed.

Lemma elem_of_shutdown_hooks r h : hooks_wf r ->
  h ∈ shutdown_hooks r <-> is_Some (shutdown h) /\ serviceShutdowns r !! service h = Some h.
Proof.
  intros Hwf. unfold shutdown_hooks. rewrite sort_stable_perm, list_elem_of_filter, list_elem_of_fmap.
  apply and_iff_compat_l. split.
  - intros ([s h'] & -> & H%elem_of_map_to_list). simpl. destruct (Hwf _ _ H) as [-> _]. done.
  - intros H. exists (service h, h). by rewrite elem_of_map_to_list.
Qed.

Lemma shutdown_hooks_NoDup r : hooks_wf r -> NoDup (map service (shutdown_hooks r)).
Proof.
  intros Hwf. apply NoDup_fmap_2_strong.
  - intros x y Hx Hy Exy. apply elem_of_shutdown_hooks in Hx as [_ Hx]; [|done].
    apply elem_of_shutdown_hooks in Hy as [_ Hy]; [|done]. rewrite Exy in Hx. congruence.
  - unfold shutdown_hooks. rewrite sort_stable_perm. apply NoDup_filter.
    apply (NoDup_fmap_1 service). rewrite <- list_fmap_compose.
    erewrite (Forall_fmap_ext_1 _ fst); [apply NoDup_fst_map_to_list|].
    apply Forall_forall. intros [s h] H%elem_of_map_to_list. simpl. by destruct (Hwf _ _ H).
Qed.

(** Of two hooks that are in order, the later one has the earlier name. *)
Lemma hooks_in_order r r' h h' : hooks_wf r' ->
  serviceInitOrder r' = number_from 1 (initializers r) ∅ ->
  (forall s x, serviceShutdowns r' !! s = Some x -> is_Some (serviceInitializers r !! s)) ->
  serviceShutdowns r' !! service h = Some h -> serviceShutdowns r' !! service h' = Some h' ->
  service h <> service h' -> not_after hook_before h h' -> str_lt (service h') (service h) = true.
Proof.
  intros Hwf Hord Hreg E1 E2 Hne Hh. unfold not_after in Hh.
  destruct (str_lt_total (service h) (service h')) as [Hlt|[Heq|Hlt]]; [|done..].
  exfalso. destruct (init_order_mono r _ _ Hlt) as (i & j & Hi & Hj & Hij); [by eapply Hreg..|].
  destruct (Hwf _ _ E1) as [_ O1], (Hwf _ _ E2) as [_ O2].
  rewrite Hord in O1, O2. rewrite Hi in O1. rewrite Hj in O2. simpl in O1, O2.
  unfold hook_before in Hh. rewrite O1, O2 in Hh. by rewrite (proj2 (Z.ltb_lt _ _) Hij) in Hh.
Qed.

Lemma StronglySorted_map {A B} (R : A -> A -> Prop) (S : B -> B -> Prop) (f : A -> B) l :
  (forall x y, x ∈ l -> y ∈ l -> f x <> f y -> R x y -> S (f x) (f y)) ->
  NoDup (map f l) -> StronglySorted R l -> StronglySorted S (map f l).
Proof.
  intros HS Hnd Hs. induction Hs as [|x l Hs IH Hx]; simpl; [constructor|].
  simpl in Hnd. apply NoDup_cons in Hnd as [Hn Hnd]. constructor.
  - apply IH; [|done]. intros a b Ha Hb. apply HS; by right.
  - apply Forall_forall. intros b [y [-> Hy]]%list_elem_of_fmap. rewrite Forall_forall in Hx.
    apply HS; [left|by right| |by apply Hx]. intros Ef. apply Hn. rewrite Ef. by apply list_elem_of_fmap_2.
Qed.

(** Services that were initialized together stop in the reverse order of
    their start, whatever the order in which their initializers finished and
    marked them: every hook runs exactly once, a panicking hook does not keep
    the next from running, and when the context ends the hooks that ran are the
    first of that order. *)
Theorem ShutdownServices_reverse (init : Init -> option E) completion done (run : Hook -> option E) r r' marks :
  serviceShutdowns r = ∅ ->
  Forall (fun m => is_Some (serviceInitializers r !! fst m)) marks ->
  mark_all marks (snd (InitializeServices init completion r)) = Ret r' ->
  let full := map service (shutdown_hooks r') in
  fst (ShutdownServices done run r') `prefix_of` full /\
  ((forall k, done k = None) -> fst (ShutdownServices done run r') = full) /\
  StronglySorted (fun a b => str_lt b a = true) full /\
  (forall s, s ∈ full <-> exists h, serviceShutdowns r' !! s = Some h /\ is_Some (shutdown h)).
Proof.
  intros He Hmarks Hm full. destruct (shutdown_loop_spec done run 0 (shutdown_hooks r')) as [Hp Hall].
  split; [exact Hp|]. split; [intros Hn; by apply Hall|].
  set (r1 := snd (InitializeServices init completion r)) in *.
  assert (forall s h, serviceShutdowns r1 !! s = Some h -> False) as H1.
  { intros s h. simpl. by rewrite He, lookup_empty. }
  destruct (mark_all_wf marks r1 r') as (Hwf & Hord & _); [by intros s h ?%H1|done|].
  pose proof (mark_all_registered marks r1 r' (fun s => is_Some (serviceInitializers r !! s)) Hm Hmarks
    (fun s h Hs => False_ind _ (H1 s h Hs))) as Hreg.
  split.
  - apply (StronglySorted_map (not_after hook_before)).
    + intros h h' Hh Hh' Hne Hn. apply elem_of_shutdown_hooks in Hh as [_ Hh], Hh' as [_ Hh']; [|done..].
      apply (hooks_in_order r r' h h' Hwf Hord Hreg Hh Hh' Hne Hn).
    + by apply shutdown_hooks_NoDup.
    + apply sort_stable_sorted; [apply hook_before_asym|apply hook_before_neg_trans].
  - intros s. unfold full. rewrite list_elem_of_fmap. split.
    + intros (h & -> & Hh). apply elem_of_shutdown_hooks in Hh as [? ?]; eauto.
    + intros (h & Hh & Hs). exists h. destruct (Hwf _ _ Hh) as [<- _]. split; [done|]. by apply elem_of_shutdown_hooks.
Qed.
End services.

Lemma ShutdownServices_reverse_witness :
  let r : registry nat nat := {| endpoints := ∅; middlewares := ∅; authHandler := None;
              serviceInitializers := {[ "auth" := 1%nat; "billing" := 2%nat; "mail" := 3%nat ]};
              serviceInitOrder := ∅; serviceShutdowns := ∅ |} in
  let marks := [("mail", Some 30%nat); ("auth", Some 10%nat); ("billing", None)] in
  exists r', mark_all marks (snd (InitializeServices (fun _ => @None string) (@rev _) r)) = Ret r' /\
    fst (ShutdownServices (fun _ => None) (fun _ => Some "panic") r') = ["mail"; "auth"].
Proof.
  intros r marks. eexists. split; [vm_compute; reflexivity|].
  match goal with |- fst (ShutdownServices ?d ?p ?r') = _ =>
    destruct (ShutdownServices_reverse (fun _ => @None string) (@rev _) d p r r' marks) as (_ & H & _) end.
  - reflexivity.
  - repeat constructor; eexists; vm_compute; reflexivity.
  - vm_compute. reflexivity.
  - rewrite H by (intros; reflexivity). vm_compute. reflexivity.
Defined.
End Runtime.
