(* ===== verification/WireServer.v ===== *)
(** * The wire transport of the runtime's server and its route tables
    ([runtime/wire.go], [newServer] of [runtime/server.go])

    [WireServer] models the decoding of wire requests, the call of an endpoint
    through the wire with its guards, its fast paths and its responses, the
    store of recoverable results with its expiry, the capabilities, and the
    public and private route tables [newServer] builds from the registered
    endpoints.  JSON is an argument, as in [Payload]; a response is its status,
    its headers and what is encoded into its body. *)
From stdpp Require Import base tactics list gmap strings sorting.
From Stdlib Require Import ZArith Lia Ascii.
From S2P Require Import Prelude GoStrings WireCodec Router Redact Errs Middleware Http Payload RuntimeServer.

Module WireServer.
Import Runtime.

Definition CallIDHeader : string := "X-Scenery-Call-ID".
Definition FallbackHeader : string := "X-Scenery-Wire-Fallback".
Definition SchemaHashHeader : string := "X-Scenery-Wire-Schema-Hash".
Definition MethodHeader : string := "X-Scenery-Wire-Method".
Definition PathParamsHeader : string := "X-Scenery-Wire-Path-Params".

(** ** Helpers *)
Section helpers.
Context {UT : UnicodeTables}.

Definition preferredRuntimeMethod (methods : list string) : string :=
  if existsb (fun m => Strings.EqualFold m "GET") methods then "GET"
  else match methods with
  | m :: _ => Strings.ToUpper m
  | [] => "POST"
  end.

Definition wireMethodsSafe (methods : list string) : bool :=
  match methods with
  | [] => false
  | _ => forallb (fun m => negb (String.eqb m "*") && Wire.IsSafeMethod m) methods
  end.

Definition endpointWireID (ep : Endpoint) : string :=
  if negb (String.eqb (Strings.TrimSpace (WireID ep)) "") then WireID ep
  else Wire.EndpointID (Service ep) (Name ep).

Definition wire_item (ep : Endpoint) : Wire.Endpoint :=
  {| Wire.ID := endpointWireID ep; Wire.Service := Service ep; Wire.EndpointName := Name ep;
     Wire.Path := Path ep; Wire.Methods := Methods ep; Wire.Available := WireAvailable ep;
     Wire.UnsupportedReason := WireUnsupportedReason ep; Wire.ep_SchemaHash := WireSchemaHash ep;
     Wire.SafeJSONRetry := wireMethodsSafe (Methods ep); Wire.WirePath := Wire.CallPathPrefix +:+ WireID ep;
     Wire.RecoveryPathPattern := Wire.RecoverPathPrefix +:+ "{call_id}" |}.

(** [sha256] is the hash function of the schema hash. *)
Definition buildWireCapabilities (sha256 : list ascii -> list ascii) (endpoints : list Endpoint) : Wire.Capabilities :=
  let items := map wire_item endpoints in
  Wire.NewCapabilities (Wire.HashEndpoints sha256 items) items.
End helpers.

Definition renderWireRequestPath (pattern : string) (params : list PathParam) : string :=
  fold_left (fun path p =>
    Strings.ReplaceAll (Strings.ReplaceAll path (":" +:+ pp_name p) (pp_value p)) ("*" +:+ pp_name p) (pp_value p))
    params pattern.

(** ** Requests *)
Record wireRequest := {
  SchemaHash : string;
  w_Method : string;
  w_PathParams : list (string * Wire.any);
  w_Payload : Wire.any;
  PayloadJSON : string;
  BinaryFrame : bool
}.

Definition empty_request : wireRequest :=
  {| SchemaHash := ""; w_Method := ""; w_PathParams := []; w_Payload := Wire.ANil; PayloadJSON := "";
     BinaryFrame := false |}.

(** A request to the wire routes: its headers, query, cookies and what reading
    its body gives. *)
Record http_request := {
  h_header : Middleware.Header;
  h_query : list (string * list string);
  h_cookies : list (string * string);
  h_body : outcome string (list ascii)
}.

Section server.
Context {UT : UnicodeTables}.

(** [json.Unmarshal] into a map, and [fmt.Sprint] of a decoded value. *)
Context (unmarshal_object : string -> outcome string (list (string * Wire.any))) (Sprint : Wire.any -> string).

Definition stringValue (v : Wire.any) : string :=
  match v with Wire.ANil => "" | Wire.AString s => s | _ => Sprint v end.

Definition objectValue (v : Wire.any) : list (string * Wire.any) :=
  match v with Wire.AObject m => m | _ => [] end.

(** [obj[key]], nil for a missing key. *)
Definition index (obj : list (string * Wire.any)) (key : string) : Wire.any :=
  default Wire.ANil (Http.assoc key obj).

Definition decodeWireRequest (body : outcome string (list ascii)) : outcome string wireRequest :=
  data ← body;
  match Wire.DecodeRequestFrame data with
  | Some (Fail err) => Fail err
  | Some (Panic m) => Panic m
  | Some (Ret frame) =>
    let pathParamsJSON := Wire.of_bytes (Wire.PathParamsJSON frame) in
    params ← (if String.eqb (Strings.TrimSpace pathParamsJSON) "" then Ret []
              else match unmarshal_object pathParamsJSON with
                   | Fail err => Fail ("invalid path params: " +:+ err)
                   | r => r
                   end);
    Ret {| SchemaHash := Strings.TrimSpace (Wire.SchemaHash frame); w_Method := ""; w_PathParams := params;
           w_Payload := Wire.ANil; PayloadJSON := Wire.of_bytes (Wire.rq_PayloadJSON frame); BinaryFrame := true |}
  | None =>
    value ← Wire.Decode (Wire.to_bytes (Strings.TrimSpace (Wire.of_bytes data)));
    match value with
    | Wire.AObject obj =>
      Ret {| SchemaHash := stringValue (index obj "schema_hash"); w_Method := stringValue (index obj "method");
             w_PathParams := objectValue (index obj "path_params"); w_Payload := index obj "payload";
             PayloadJSON := stringValue (index obj "payload_json"); BinaryFrame := false |}
    | _ => Fail "request envelope must be an object"
    end
  end.

Definition decodeWireJSONRequest (req : http_request) : outcome string wireRequest :=
  body ← h_body req;
  let raw := Strings.TrimSpace (Http.Get (h_header req) PathParamsHeader) in
  params ← (if String.eqb raw "" then Ret []
            else match unmarshal_object raw with
                 | Fail err => Fail ("invalid path params: " +:+ err)
                 | r => r
                 end);
  Ret {| SchemaHash := Strings.TrimSpace (Http.Get (h_header req) SchemaHashHeader);
         w_Method := Strings.TrimSpace (Http.Get (h_header req) MethodHeader);
         w_PathParams := params; w_Payload := Wire.ANil; PayloadJSON := Wire.of_bytes body; BinaryFrame := false |}.

Definition requestUsesWireJSON (req : http_request) : bool :=
  let contentType := Http.Get (h_header req) "Content-Type" in
  String.eqb contentType Wire.JSONContentType || Strings.HasPrefix contentType (Wire.JSONContentType +:+ ";").

Definition decodeWirePathParams (ep : Endpoint) (raw : list (string * Wire.any)) :
  outcome Errs.error (list Payload.scalar * list PathParam) :=
  decode_params (fun name =>
    match Http.assoc name raw with
    | None => Fail (Payload.invalid ("missing path param " +:+ Middleware.quoted name))
    | Some v => Ret (Sprint v)
    end) (PathParams ep).

(** ** Recoverable results *)

(** The payload of an error: the details and the metadata as they are. *)
Record error_payload := {
  ep_code : string; ep_message : string; ep_details : Redact.gvalue; ep_meta : Errs.Metadata
}.

Definition errorPayload (st : Errs.store) (err : Errs.error) : error_payload :=
  {| ep_code := Errs.Code (Some err); ep_message := Errs.error_text err;
     ep_details := Errs.Details (Some err); ep_meta := Errs.Meta st (Some err) |}.

Record wireRecoveryRecord := {
  StoredAt : Z;
  Status : Z;
  Result : option Payload.resp_body;
  Error : option error_payload
}.

Abbreviation recovery := (gmap string wireRecoveryRecord).

(** Times are nanoseconds. *)
Definition ten_minutes : Z := 10 * 60 * 1000000000.

Definition pruneWireRecoveryLocked (before : Z) (m : recovery) : recovery :=
  filter (fun e => (StoredAt (snd e) <? before) = false) m.

(** [now] is the time of the record, [now'] that of the pruning after it. *)
Definition storeWireRecovery (header : Middleware.Header) (status : Z) (result : option Payload.resp_body)
  (err : option error_payload) (now now' : Z) (m : recovery) : recovery :=
  let callID := Http.Get header CallIDHeader in
  if String.eqb callID "" then m
  else pruneWireRecoveryLocked (now' - ten_minutes)
    (<[callID := {| StoredAt := now; Status := status; Result := result; Error := err |}]> m).

Definition lookupWireRecovery (callID : string) (now : Z) (m : recovery) : option wireRecoveryRecord * recovery :=
  let m := pruneWireRecoveryLocked (now - ten_minutes) m in
  (m !! callID, m).

(** ** Responses *)
Inductive wbody :=
| BError (err : Errs.error)
| BErrorJSON (p : error_payload)
| BErrorEnvelope (status : Z) (p : error_payload)
| BResult (result : option Payload.resp_body)
| BResultEnvelope (status : Z) (result : option Payload.resp_body) (asJSON : bool)
| BBytes (data : string)
| BRecord (r : wireRecoveryRecord)
| BPanic (msg : string).

Record wresponse := { wr_status : Z; wr_headers : Middleware.Header; wr_body : wbody }.

(** [errs.HTTPError] after the headers set so far. *)
Definition http_error (headers : Middleware.Header) (err : Errs.error) : wresponse :=
  {| wr_status := Errs.HTTPStatus (Some err); wr_headers := headers; wr_body := BError err |}.

Definition http_error_with_code (headers : Middleware.Header) (err : Errs.error) (status : Z) : wresponse :=
  {| wr_status := if status =? 0 then Errs.HTTPStatus (Some err) else status; wr_headers := headers; wr_body := BError err |}.

Definition writeWireFallback (headers : Middleware.Header) (err : Errs.error) : wresponse :=
  http_error (Http.Set_ headers FallbackHeader "json") err.

(** [json.Marshal] of a result and of an error payload, and [wire.Encode] of an
    envelope, as far as whether they fail, with the error they give. *)
Context (marshal_result : option Payload.resp_body -> option Errs.error)
        (marshal_error : error_payload -> option Errs.error)
        (encode_envelope : wbody -> option Errs.error)
        (schema_hash : string) (err_store : Errs.store).

Definition encode_failure (headers : Middleware.Header) (e : Errs.error) : wresponse :=
  http_error headers (default e (fst (Errs.Wrap err_store (Some e) "encode wire response" []))).

Definition with_call_id (req : http_request) (headers : Middleware.Header) : Middleware.Header :=
  let callID := Http.Get (h_header req) CallIDHeader in
  if negb (String.eqb callID "") then Http.Set_ headers CallIDHeader callID else headers.

Definition success_headers (req : http_request) (contentType : string) (headers : Middleware.Header) : Middleware.Header :=
  with_call_id req
    (Http.Set_ (Http.Set_ (Http.Set_ headers "Content-Type" contentType) "Cache-Control" "no-store")
       SchemaHashHeader schema_hash).

Definition error_headers (req : http_request) (contentType : string) (headers : Middleware.Header) : Middleware.Header :=
  with_call_id req (Http.Set_ (Http.Set_ headers "Content-Type" contentType) "Cache-Control" "no-store").

Definition writeWireSuccess (headers : Middleware.Header) (req : http_request) (status : Z)
  (result : option Payload.resp_body) (resultJSON responseJSON binaryFrame : bool) (now now' : Z) (m : recovery) :
  wresponse * recovery :=
  let stored := storeWireRecovery (h_header req) status result None now now' m in
  if responseJSON || binaryFrame then
    match marshal_result result with
    | Some e => (encode_failure headers e, m)
    | None =>
      let contentType := if responseJSON then Wire.JSONContentType else Wire.ContentType in
      ({| wr_status := status; wr_headers := success_headers req contentType headers; wr_body := BResult result |}, stored)
    end
  else
    match (if resultJSON then marshal_result result else None) with
    | Some e => (encode_failure headers e, m)
    | None =>
      let envelope := BResultEnvelope status result resultJSON in
      (match encode_envelope envelope with
       | Some e => encode_failure headers e
       | None => {| wr_status := status; wr_headers := success_headers req Wire.ContentType headers; wr_body := envelope |}
       end, stored)
    end.

Definition writeWireAppError (headers : Middleware.Header) (req : http_request) (err : Errs.error) (status : Z)
  (responseJSON binaryFrame : bool) (now now' : Z) (m : recovery) : wresponse * recovery :=
  let status := if status =? 0 then Errs.HTTPStatus (Some err) else status in
  let payload := errorPayload err_store err in
  let stored := storeWireRecovery (h_header req) status None (Some payload) now now' m in
  if responseJSON || binaryFrame then
    match marshal_error payload with
    | Some _ => (http_error_with_code headers err status, m)
    | None =>
      let contentType := if responseJSON then Wire.JSONContentType else Wire.ContentType in
      ({| wr_status := status; wr_headers := error_headers req contentType headers; wr_body := BErrorJSON payload |}, stored)
    end
  else
    let envelope := BErrorEnvelope status payload in
    (match encode_envelope envelope with
     | Some _ => http_error_with_code headers err status
     | None => {| wr_status := status; wr_headers := error_headers req Wire.ContentType headers; wr_body := envelope |}
     end, stored).

Definition writeWireJSONBytes (headers : Middleware.Header) (status : Z) (data : string) : wresponse :=
  {| wr_status := status;
     wr_headers := Http.Set_ (Http.Set_ (Http.Set_ headers "Content-Type" Wire.ContentType) "Cache-Control" "no-store")
                     SchemaHashHeader schema_hash;
     wr_body := BBytes data |}.

Definition serveWireRecovery (headers : Middleware.Header) (callID : string) (now : Z) (m : recovery) :
  wresponse * recovery :=
  let callID := Strings.TrimSpace callID in
  if String.eqb callID "" then (http_error headers (Payload.invalid "missing call id"), m)
  else match lookupWireRecovery callID now m with
  | (None, m) => (http_error headers (not_found "wire call result not found"), m)
  | (Some record, m) =>
    ({| wr_status := Status record;
        wr_headers := Http.Set_ (Http.Set_ headers "Content-Type" "application/json") "Cache-Control" "no-store";
        wr_body := BRecord record |}, m)
  end.

(** ** Calls *)
Context (authenticate : AuthHandler -> option Payload.rval -> outcome Errs.error AuthInfo)
        (unmarshal_text : string -> string -> option string) (ParseFloat : Z -> string -> option Z)
        (unmarshal_json : string -> Payload.rtype -> Payload.rval -> outcome string Payload.rval)
        (maybeValidate : Payload.rtype -> Payload.rval -> option Errs.error)
        (mws : gmap string (@Middleware.Middleware requestState Payload.rval))
        (Invoke : Endpoint -> requestState -> list Payload.scalar -> option Payload.rval ->
                  outcome Errs.error (option (@Middleware.payload Payload.rval)))
        (mock : Endpoint -> option (requestState -> list Payload.scalar -> option Payload.rval ->
                  outcome Errs.error (option (@Middleware.payload Payload.rval))))
        (RawHandler : Endpoint -> option requestState -> list Middleware.rawop * option string)
        (rawMock : Endpoint -> option (option requestState -> Errs.error + list Middleware.rawop * option string))
        (type_name : Payload.rtype -> string) (type_of : @Middleware.payload Payload.rval -> string)
        (assignable : string -> string -> bool) (handler : option AuthHandler).
Context (convert_out_of_range : Z -> Z) (ParseFloat64 : string -> option Z) (narrow : Z -> Z)
        (marshal_any : Wire.any -> outcome Errs.error string)
        (WireInvoke : Endpoint -> requestState -> list Payload.scalar -> string ->
                      outcome Errs.error (option (@Middleware.payload Payload.rval)))
        (WireInvokeJSON : Endpoint -> requestState -> list Payload.scalar -> string -> outcome Errs.error string)
        (reflect_value : @Middleware.payload Payload.rval -> Payload.rtype * Payload.rval)
        (marshal_text : Payload.rtype -> Payload.rval -> option string)
        (sprint : Payload.rtype -> Payload.rval -> string).

Definition canUseFastWireInvoke (ep : Endpoint) (wireReq : wireRequest) : bool :=
  HasWireInvoke ep && BinaryFrame wireReq && bool_decide (Access_ ep = Public)
  && match MiddlewareIDs ep with [] => true | _ => false end
  && match mock ep with None => true | Some _ => false end.

Definition canUseFastWireJSON (ep : Endpoint) (wireReq : wireRequest) (req : http_request) : bool :=
  canUseFastWireInvoke ep wireReq && HasWireInvokeJSON ep
  && String.eqb (Http.Get (h_header req) CallIDHeader) ""
  && match ResponseType ep with Some t => negb (Payload.hasResponseShapeTags t) | None => true end.

(** The response, the status, the headers and the error of a call; [inr] is a
    panic, which ends the connection. *)
Definition executeWireEndpoint (ep : Endpoint) (st : requestState) (args : list Payload.scalar)
  (payload : option Payload.rval) (wireReq : wireRequest) (fastWire : bool) :
  @Middleware.typed_result Payload.rval + string :=
  if fastWire then
    match WireInvoke ep st args (PayloadJSON wireReq) with
    | Fail err => inl {| Middleware.res_payload := None; Middleware.res_status := Errs.HTTPStatus (Some err);
                         Middleware.res_headers := None; Middleware.res_err := Some err |}
    | Ret resp => inl {| Middleware.res_payload := resp; Middleware.res_status := 0;
                         Middleware.res_headers := None; Middleware.res_err := None |}
    | Panic m => inr m
    end
  else match executeTypedEndpoint mws Invoke mock RawHandler rawMock type_name type_of assignable ep st args payload with
  | Some r => r
  | None => inr "out of fuel"
  end.

(** The request as authentication and the endpoint see it. *)
Definition request_for_state (req : http_request) (method : string) : Payload.Request :=
  {| Payload.Method := method; Payload.req_header := h_header req; Payload.query := h_query req; Payload.cookies := h_cookies req;
     Payload.body := None |}.

(** The part after the request was authenticated. *)
Definition call_wire_endpoint (headers : Middleware.Header) (req : http_request) (ep : Endpoint) (wireReq : wireRequest)
  (fastJSON fastWire : bool) (st : requestState) (args : list Payload.scalar) (payload : option Payload.rval)
  (now now' : Z) (m : recovery) : wresponse * recovery :=
  if canUseFastWireJSON ep wireReq req then
    match WireInvokeJSON ep st args (PayloadJSON wireReq) with
    | Fail err =>
      writeWireAppError headers req err (Errs.HTTPStatus (Some err)) fastJSON (BinaryFrame wireReq) now now' m
    | Ret data => (writeWireJSONBytes headers 200 data, m)
    | Panic msg => ({| wr_status := 0; wr_headers := headers; wr_body := BPanic msg |}, m)
    end
  else match executeWireEndpoint ep st args payload wireReq fastWire with
  | inr msg => ({| wr_status := 0; wr_headers := headers; wr_body := BPanic msg |}, m)
  | inl r =>
    let headers := Middleware.applyHeaders headers (default [] (Middleware.res_headers r)) in
    match Middleware.res_err r with
    | Some err => writeWireAppError headers req err (Middleware.res_status r) fastJSON (BinaryFrame wireReq) now now' m
    | None =>
      let '(body, bodyStatus, headers) :=
        Payload.wireResponseBody marshal_text sprint (reflect_value <$> Middleware.res_payload r) headers in
      let status := Middleware.res_status r in
      let status := if status =? 0 then bodyStatus else status in
      let status := if status =? 0 then 200 else status in
      writeWireSuccess headers req status body (negb (String.eqb (PayloadJSON wireReq) "")) fastJSON
        (BinaryFrame wireReq) now now' m
    end
  end.

Definition serveWireEndpointCall (headers : Middleware.Header) (req : http_request) (ep : Endpoint) (now now' : Z)
  (m : recovery) : list call * wresponse * recovery :=
  let fastJSON := requestUsesWireJSON req in
  match (if fastJSON then decodeWireJSONRequest req else decodeWireRequest (h_body req)) with
  | Panic msg => ([], {| wr_status := 0; wr_headers := headers; wr_body := BPanic msg |}, m)
  | Fail err => ([], writeWireFallback headers (Payload.invalid ("invalid wire request: " +:+ err)), m)
  | Ret wireReq =>
    let hash := if String.eqb (SchemaHash wireReq) "" then Strings.TrimSpace (Http.Get (h_header req) SchemaHashHeader)
                else SchemaHash wireReq in
    if negb (String.eqb hash "") && negb (String.eqb (WireSchemaHash ep) "") && negb (String.eqb hash (WireSchemaHash ep))
    then ([], writeWireFallback headers
            (Errs.Builder_Err (Errs.Builder_Msg "wire schema mismatch" (Errs.Builder_Code Errs.FailedPrecondition Errs.B))), m)
    else match decodeWirePathParams ep (w_PathParams wireReq) with
    | Panic msg => ([], {| wr_status := 0; wr_headers := headers; wr_body := BPanic msg |}, m)
    | Fail err => ([], writeWireFallback headers err, m)
    | Ret (args, pathParams) =>
      let fastWire := canUseFastWireInvoke ep wireReq in
      match (if fastWire then Ret None
             else Payload.decodeWirePayload convert_out_of_range ParseFloat64 narrow unmarshal_json marshal_any
                    maybeValidate (PayloadJSON wireReq) (w_Payload wireReq) (PayloadType ep)) with
      | Panic msg => ([], {| wr_status := 0; wr_headers := headers; wr_body := BPanic msg |}, m)
      | Fail err => ([], writeWireFallback headers err, m)
      | Ret payload =>
        let method := Strings.ToUpper (Strings.TrimSpace (w_Method wireReq)) in
        let method := if String.eqb method "" then preferredRuntimeMethod (Methods ep) else method in
        let sreq := request_for_state req method in
        match authenticateRequest authenticate unmarshal_text ParseFloat unmarshal_json maybeValidate handler sreq ep with
        | Panic msg => ([], {| wr_status := 0; wr_headers := headers; wr_body := BPanic msg |}, m)
        | Fail err =>
          let '(resp, m) := writeWireAppError headers req err (Errs.HTTPStatus (Some err)) fastJSON (BinaryFrame wireReq) now now' m in
          ([], resp, m)
        | Ret auth =>
          let st := newExternalState ep sreq (renderWireRequestPath (Path ep) pathParams) pathParams auth in
          let '(resp, m) := call_wire_endpoint headers req ep wireReq fastJSON fastWire st args payload now now' m in
          ([{| c_endpoint := ep; c_state := st |}], resp, m)
        end
      end
    end
  end.

Definition lookupWireEndpoint (wireEndpoints : gmap string Endpoint) (id : string) : option Endpoint :=
  let id := Strings.TrimSpace id in
  if String.eqb id "" then None else wireEndpoints !! id.

Definition serveWireCall (wireEndpoints : gmap string Endpoint) (headers : Middleware.Header) (req : http_request)
  (endpointID : string) (now now' : Z) (m : recovery) : list call * wresponse * recovery :=
  match lookupWireEndpoint wireEndpoints endpointID with
  | None => ([], writeWireFallback headers (not_found "wire endpoint not found"), m)
  | Some ep =>
    if bool_decide (Access_ ep = Private) then ([], writeWireFallback headers (not_found "wire endpoint not found"), m)
    else if negb (WireAvailable ep) then
      let msg := Strings.TrimSpace (WireUnsupportedReason ep) in
      let msg := if String.eqb msg "" then "wire transport unavailable for endpoint" else msg in
      ([], writeWireFallback headers (unimplemented msg), m)
    else serveWireEndpointCall headers req ep now now' m
  end.

(** ** The route tables *)

(** What the routes are bound to. *)
Inductive route_handler :=
| HTyped (ep : Endpoint)
| HRaw (ep : Endpoint)
| HCapabilities
| HRecovery
| HWireEndpoint (ep : Endpoint)
| HWireCall
| HConfig
| HStats
| HPProf (name : string)
| HNotFound
| HOptions.

Record server := {
  public : @Router.routeTable route_handler;
  private : @Router.routeTable route_handler;
  wireEndpoints : gmap string Endpoint;
  wireCaps : Wire.Capabilities
}.

Abbreviation registration := (@Router.registration route_handler).

Definition endpoint_route (ep : Endpoint) : registration :=
  (Methods ep, Path ep, if Raw ep then HRaw ep else HTyped ep).

(** [selectRouter]. *)
Definition goes_private (ep : Endpoint) : bool := bool_decide (Access_ ep = Private).

(** The routes of [registerWire], for the endpoints in the order [entries] in
    which the map is visited. *)
Definition wire_routes (entries : list (string * Endpoint)) : list registration :=
  [(["GET"], Wire.CapabilitiesPath, HCapabilities);
   (["GET"], Wire.RecoverPathPrefix +:+ ":call_id", HRecovery)]
  ++ map (fun '(id, ep) => (["POST"], Wire.CallPathPrefix +:+ id, HWireEndpoint ep)) entries
  ++ [(["POST"], Wire.CallPathPrefix +:+ ":endpoint_id", HWireCall)].

Definition pprof_routes : list registration :=
  map (fun '(path, methods) => (methods, path, HPProf path))
    [("/debug/pprof/", ["GET"]); ("/debug/pprof/cmdline", ["GET"]); ("/debug/pprof/profile", ["GET"]);
     ("/debug/pprof/symbol", ["GET"; "POST"]); ("/debug/pprof/trace", ["GET"]); ("/debug/pprof/allocs", ["GET"]);
     ("/debug/pprof/block", ["GET"]); ("/debug/pprof/goroutine", ["GET"]); ("/debug/pprof/heap", ["GET"]);
     ("/debug/pprof/mutex", ["GET"]); ("/debug/pprof/threadcreate", ["GET"])].

Definition dev_routes : list registration :=
  [(["GET"], "/__scenery/config", HConfig); (["GET"], "/platform.Stats", HStats)] ++ pprof_routes.

Definition wire_index (endpoints : list Endpoint) : gmap string Endpoint :=
  fold_left (fun m ep => <[endpointWireID ep := ep]> m) endpoints ∅.

(** The routes of the public table in the order in which they are registered. *)
Definition public_routes (dev : bool) (order : gmap string Endpoint -> list (string * Endpoint)) (endpoints : list Endpoint) :
  list registration :=
  map endpoint_route (filter (fun ep => goes_private ep = false) endpoints)
  ++ wire_routes (order (wire_index endpoints))
  ++ (if dev then dev_routes else []).

Definition newServer {I K} (sha256 : list ascii -> list ascii) (dev : bool)
  (order : gmap string Endpoint -> list (string * Endpoint)) (r : registry I K) : server :=
  let endpoints := listEndpoints r in
  {| public := Router.table_of (Some HNotFound) (Some HOptions) (public_routes dev order endpoints);
     private := Router.table_of None None (map endpoint_route (filter (fun ep => goes_private ep = true) endpoints));
     wireEndpoints := wire_index endpoints;
     wireCaps := buildWireCapabilities sha256 endpoints |}.

(** What the public listener does with a request, as far as endpoints are
    called: the handler the table selects runs.  [preq] is the request as typed
    and raw handlers read it. *)
Definition serve_public (s : server) (method path : string) (preq : Payload.Request) (req : http_request)
  (headers : Middleware.Header) (now now' : Z) (m : recovery) : list call :=
  match Router.ServeHTTP (public s) method path with
  | Router.Handled (HTyped ep) ps _ =>
    fst (serveTyped authenticate unmarshal_text ParseFloat unmarshal_json maybeValidate mws Invoke mock RawHandler
           rawMock type_name type_of assignable handler ep preq path ps headers)
  | Router.Handled (HRaw ep) ps _ =>
    fst (serveRaw authenticate unmarshal_text ParseFloat unmarshal_json maybeValidate mws Invoke mock RawHandler
           rawMock type_name handler ep preq path ps headers)
  | Router.Handled (HWireEndpoint ep) _ _ => fst (fst (serveWireEndpointCall headers req ep now now' m))
  | Router.Handled HWireCall ps _ =>
    fst (fst (serveWireCall (wireEndpoints s) headers req (Router.ByName ps "endpoint_id") now now' m))
  | _ => []
  end.

(** ** Which endpoints a request can reach *)
Lemma serveWireEndpointCall_calls headers req ep now now' m :
  Forall (fun c => c_endpoint c = ep /\ authorized c) (fst (fst (serveWireEndpointCall headers req ep now now' m))).
Proof.
  unfold serveWireEndpointCall. cbv zeta.
  destruct (if requestUsesWireJSON req then _ else _) as [wireReq| |]; [|constructor..].
  destruct (_ && _ && _); [constructor|].
  destruct (decodeWirePathParams ep _) as [[args pathParams]| |]; [|constructor..].
  destruct (if canUseFastWireInvoke ep wireReq then _ else _) as [payload| |]; [|constructor..].
  destruct (authenticateRequest _ _ _ _ _ _ _ _) as [auth| |] eqn:E; [| |constructor].
  - destruct (call_wire_endpoint _ _ _ _ _ _ _ _ _ _ _ _) as [resp m']. repeat constructor.
    intros Ha. simpl in *. by eapply authenticateRequest_user.
  - destruct (writeWireAppError _ _ _ _ _ _ _ _ _) as [resp m']. constructor.
Qed.

Lemma serveWireCall_calls eps headers req id now now' m :
  Forall (fun c => Access_ (c_endpoint c) <> Private /\ WireAvailable (c_endpoint c) = true /\ authorized c)
    (fst (fst (serveWireCall eps headers req id now now' m))).
Proof.
  unfold serveWireCall. destruct (lookupWireEndpoint eps id) as [ep|]; [|constructor].
  case_bool_decide as Hp; [constructor|]. destruct (WireAvailable ep) eqn:Hw; simpl; [|constructor].
  eapply Forall_impl; [apply serveWireEndpointCall_calls|]. by intros c [-> ?].
Qed.

Lemma public_handler {I K} sha256 dev order (r : registry I K) method path h ps allow :
  Router.ServeHTTP (public (newServer sha256 dev order r)) method path = Router.Handled h ps allow ->
  match h with HTyped ep | HRaw ep => Access_ ep <> Private | _ => True end.
Proof.
  unfold newServer. cbn [public]. intros Hs.
  apply Router.ServeHTTP_Handled in Hs as (reg & Hin & -> & _). unfold public_routes in Hin.
  apply elem_of_app in Hin as [Hin|Hin].
  - apply list_elem_of_fmap in Hin as (ep & -> & [Hp _]%list_elem_of_filter). unfold goes_private in Hp.
    apply bool_decide_eq_false in Hp. simpl. by destruct (Raw ep).
  - assert (Forall (fun x : registration => match snd x with HTyped _ | HRaw _ => False | _ => True end)
      (wire_routes (order (wire_index (listEndpoints r))) ++ (if dev then dev_routes else []))) as Hall.
    { apply Forall_app. split.
      - repeat constructor. apply Forall_app. split; [|repeat constructor].
        apply Forall_fmap, Forall_forall. by intros [id ep].
      - destruct dev; repeat constructor. }
    rewrite Forall_forall in Hall. specialize (Hall _ Hin). destruct reg as [[ms p] hd]. simpl in *. by destruct hd.
Qed.


(** ** The fast path *)

(** For the endpoints it is used for, the fast path answers like the
    middleware chain: calling the generated wire function is calling the
    endpoint, when that function decodes the payload as the slow path would and
    the endpoint returns a value of its declared type. *)
Theorem executeWireEndpoint_fast ep st args wireReq payload :
  canUseFastWireInvoke ep wireReq = true ->
  WireInvoke ep st args (PayloadJSON wireReq) = Invoke ep st args payload ->
  (forall out p, Invoke ep st args payload = Ret out -> out = Some p ->
     exists want, ResponseType ep = Some want /\ assignable (type_of p) (type_name want) = true) ->
  executeWireEndpoint ep st args payload wireReq true = executeWireEndpoint ep st args payload wireReq false.
Proof.
  unfold canUseFastWireInvoke. intros Hf Hw Ht. rewrite !andb_true_iff in Hf. destruct Hf as [[[[_ _] _] Hm] Hk].
  unfold executeWireEndpoint. rewrite Hw.
  unfold executeTypedEndpoint, Middleware.executeTypedEndpoint, Middleware.runMiddlewareChain, chain_endpoint.
  cbn [Middleware.MiddlewareIDs]. destruct (MiddlewareIDs ep) as [|x l]; [|done].
  cbn [Middleware.getMiddlewares]. unfold Middleware.typed_leaf.
  cbn [Middleware.EpMock Middleware.EpInvoke Middleware.context default]. destruct (mock ep); [done|]. cbn.
  destruct (Invoke ep st args payload) as [out|err|msg] eqn:Ei; cbn; [|done..].
  unfold Middleware.finalizeTypedMiddlewareResponse. cbn.
  destruct out as [p|]; [|by destruct (ResponseType ep)].
  destruct (Ht _ p eq_refl eq_refl) as (want & -> & Ha). cbn. by rewrite Ha.
Qed.

(** ** Results stay recoverable for ten minutes *)
Inductive recovery_op :=
| OpStore (header : Middleware.Header) (status : Z) (result : option Payload.resp_body) (err : option error_payload)
    (now now' : Z)
| OpLookup (callID : string) (now : Z).

Definition recovery_step (m : recovery) (o : recovery_op) : recovery :=
  match o with
  | OpStore header status result err now now' => storeWireRecovery header status result err now now' m
  | OpLookup callID now => snd (lookupWireRecovery callID now m)
  end.

(** The operation happens by [deadline] and does not reuse the call id. *)
Definition harmless (id : string) (deadline : Z) (o : recovery_op) : Prop :=
  match o with
  | OpStore header _ _ _ _ now' => now' <= deadline /\ Http.Get header CallIDHeader <> id
  | OpLookup _ now => now <= deadline
  end.

Lemma prune_lookup before (m : recovery) id rec :
  pruneWireRecoveryLocked before m !! id = Some rec <-> m !! id = Some rec /\ before <= StoredAt rec.
Proof.
  unfold pruneWireRecoveryLocked. rewrite map_lookup_filter_Some. simpl. by rewrite Z.ltb_ge.
Qed.

Lemma recovery_keeps id rec o m : harmless id (StoredAt rec + ten_minutes) o -> m !! id = Some rec ->
  recovery_step m o !! id = Some rec.
Proof.
  intros Ho Hm. destruct o as [header status result err now now'|callID now]; simpl in *.
  - destruct Ho as [Hn Hid]. unfold storeWireRecovery. destruct (String.eqb _ ""); [done|].
    apply prune_lookup. split; [by rewrite lookup_insert_ne|lia].
  - apply prune_lookup. split; [done|lia].
Qed.

(** C19. The result of a call with an id is answered by the recovery route for
    ten minutes, whatever other calls and lookups happen in between, and never
    after that. *)
Theorem recovery_ten_minutes header status result err now now' ops m later headers :
  let id := Http.Get header CallIDHeader in
  id <> "" -> Strings.TrimSpace id = id -> now <= now' <= now + ten_minutes ->
  Forall (harmless id (now + ten_minutes)) ops ->
  let m' := fold_left recovery_step ops (storeWireRecovery header status result err now now' m) in
  (later <= now + ten_minutes ->
     wr_status (fst (serveWireRecovery headers id later m')) = status /\
     wr_body (fst (serveWireRecovery headers id later m')) =
       BRecord {| StoredAt := now; Status := status; Result := result; Error := err |}) /\
  (now + ten_minutes < later ->
     wr_body (fst (serveWireRecovery headers id later m')) = BError (not_found "wire call result not found")).
Proof.
  intros id Hid Htrim Hnow Hops m'. set (rec := {| StoredAt := now; Status := status; Result := result; Error := err |}).
  assert (m' !! id = Some rec) as Hm.
  { unfold m'. assert (storeWireRecovery header status result err now now' m !! id = Some rec) as H0.
    { unfold storeWireRecovery. fold id. rewrite (proj2 (String.eqb_neq _ _) Hid).
      apply prune_lookup. split; [apply lookup_insert_eq|simpl; lia]. }
    revert H0. generalize (storeWireRecovery header status result err now now' m) as q. clear m'.
    induction Hops as [|o ops Ho Hops IH]; intros q Hq; simpl; [done|]. apply IH. by apply recovery_keeps. }
  unfold serveWireRecovery. rewrite Htrim, (proj2 (String.eqb_neq _ _) Hid).
  unfold lookupWireRecovery. split; intros Hl.
  - assert (pruneWireRecoveryLocked (later - ten_minutes) m' !! id = Some rec) as ->; [|done].
    apply prune_lookup. split; [done|simpl; lia].
  - destruct (pruneWireRecoveryLocked (later - ten_minutes) m' !! id) as [rec'|] eqn:E; [|done].
    apply prune_lookup in E as [E1 E2]. rewrite Hm in E1. injection E1 as <-. simpl in E2. lia.
Qed.
End server.

Lemma recovery_ten_minutes_witness :
  let header := [("X-Scenery-Call-Id", ["c1"])] in
  let other := [("X-Scenery-Call-Id", ["c2"])] in
  let m := fold_left recovery_step [OpStore other 500 None None 5 6; OpLookup "c3" 7]
             (storeWireRecovery header 200 None None 0 1 ∅) in
  wr_status (fst (serveWireRecovery [] "c1" 8 m)) = 200.
Proof.
  intros header other m.
  refine (proj1 (proj1 (recovery_ten_minutes header 200 None None 0 1
    [OpStore other 500 None None 5 6; OpLookup "c3" 7] ∅ 8 [] _ _ _ _) _)).
  - vm_compute. discriminate.
  - vm_compute. reflexivity.
  - vm_compute. split; discriminate.
  - repeat constructor; vm_compute; discriminate.
  - vm_compute. discriminate.
Defined.

(** ** Where the code departs from what it means to do *)
Definition demo_private : Endpoint :=
  {| Service := "billing"; Name := "Purge"; Access_ := Private; Raw := false; Path := "/internal/purge";
     Methods := ["POST"]; MiddlewareIDs := []; PathParams := []; PayloadType := None; ResponseType := None;
     WireID := "billing.Purge"; WireSchemaHash := ""; WireAvailable := false;
     WireUnsupportedReason := "private endpoint"; HasWireInvoke := false; HasWireInvokeJSON := false |}.

Definition demo_request : http_request :=
  {| h_header := [("Content-Type", [Wire.JSONContentType])]; h_query := []; h_cookies := []; h_body := Ret [] |}.

Section demo.
(** User code and JSON as the examples have them. *)
Definition demo_calls (s : server) (method path : string) : list call :=
  @serve_public ascii_tables (fun _ => Ret []) (fun _ => "") (fun _ => None) (fun _ => None) (fun _ => None) "" ∅
    (fun _ _ => Fail (not_found "")) (fun _ _ => None) (fun _ _ => None) (fun _ _ v => Ret v) (fun _ _ => None) ∅
    (fun _ _ _ _ => Ret None) (fun _ => None) (fun _ _ => ([], None)) (fun _ => None) (fun _ => "") (fun _ => "")
    (fun _ _ => true) None id (fun _ => None) id (fun _ => Ret "") (fun _ _ _ _ => Ret None) (fun _ _ _ _ => Ret "")
    (fun _ => (Payload.TBool, Payload.VBool true)) (fun _ _ => None) (fun _ _ => "") s method path
    {| Payload.Method := method; Payload.req_header := h_header demo_request; Payload.query := []; Payload.cookies := [];
       Payload.body := None |} demo_request [] 0 0 ∅.

(** A private endpoint for which the wire transport is unavailable is called by
    a request from outside: the route of its id skips the guards of the generic
    wire route. *)
Theorem wire_route_calls_private :
  let r : registry unit unit := {| endpoints := {[ "billing.Purge" := demo_private ]}; middlewares := ∅; authHandler := None;
    serviceInitializers := ∅; serviceInitOrder := ∅; serviceShutdowns := ∅ |} in
  let s := @newServer ascii_tables _ _ id false map_to_list r in
  c_endpoint <$> demo_calls s "POST" "/_wire/billing.Purge" = [demo_private] /\
  demo_calls s "POST" "/internal/purge" = [] /\ demo_calls s "POST" "/_wire/other" = [].
Proof. split_and!; vm_compute; reflexivity. Qed.
End demo.

(** The error payload of the wire transport carries what the JSON transport
    redacts. *)
Theorem errorPayload_reveals :
  let err := Errs.EScenery Errs.demo_error in
  let send secret := @Errs.HTTPError ascii_tables ∅ (Errs.demo_store secret) (Some err) in
  send "a" = send "b" /\ errorPayload (Errs.demo_store "a") err <> errorPayload (Errs.demo_store "b") err.
Proof. split; [vm_compute; reflexivity|]. vm_compute. discriminate. Qed.

(** A parameter whose name starts with that of an earlier one is filled with
    the earlier value. *)
Lemma renderWireRequestPath_prefix :
  renderWireRequestPath "/a/:id/:id2" [{| pp_name := "id"; pp_value := "7" |}; {| pp_name := "id2"; pp_value := "9" |}]
  = "/a/7/72".
Proof. vm_compute. reflexivity. Qed.


Lemma executeWireEndpoint_fast_witness :
  let ep := {| Service := "users"; Name := "Get"; Access_ := Public; Raw := false; Path := "/users"; Methods := ["GET"];
    MiddlewareIDs := []; PathParams := []; PayloadType := None; ResponseType := Some Payload.TString;
    WireID := "users.Get"; WireSchemaHash := ""; WireAvailable := true; WireUnsupportedReason := "";
    HasWireInvoke := true; HasWireInvokeJSON := false |} in
  let wireReq := {| SchemaHash := ""; w_Method := ""; w_PathParams := []; w_Payload := Wire.ANil; PayloadJSON := "{}";
    BinaryFrame := true |} in
  let invoke (_ : Endpoint) (_ : requestState) (_ : list Payload.scalar) (_ : option Payload.rval) :=
    @Ret Errs.error _ (Some (Middleware.PValue (Payload.VString "ada"))) in
  let winvoke (_ : Endpoint) (_ : requestState) (_ : list Payload.scalar) (_ : string) :=
    @Ret Errs.error _ (Some (Middleware.PValue (Payload.VString "ada"))) in
  let execute := executeWireEndpoint ∅ invoke (fun _ => None) (fun _ _ => ([], None)) (fun _ => None) (fun _ => "string")
    (fun _ => "string") String.eqb winvoke ep background [] None wireReq in
  execute true = execute false.
Proof.
  intros ep wireReq invoke winvoke execute.
  refine (executeWireEndpoint_fast ∅ invoke (fun _ => None) (fun _ _ => ([], None)) (fun _ => None) (fun _ => "string")
    (fun _ => "string") String.eqb winvoke ep background [] wireReq None _ _ _).
  - vm_compute. reflexivity.
  - reflexivity.
  - intros out p _ _. exists Payload.TString. split; reflexivity.
Defined.
End WireServer.
