(* ===== verification/Mock.v ===== *)
(** * Endpoint and service mocks ([runtime/mock.go])

    [Mock] models the mock registry (setting, restoring, clearing, lookup) and
    the reflective calls of mocks.  A reflected value has its type and whether it
    is a nil of a kind that can be nil; assignability and convertibility of types
    and what a mock returns are arguments. *)
From stdpp Require Import base tactics list gmap strings sorting.
From Stdlib Require Import ZArith Lia Ascii.
From S2P Require Import Prelude GoStrings WireCodec Redact Errs Middleware Http Payload RuntimeServer.

Module Mock.
(** A value: its type, and its content ([None] for nil). *)
Record value := { v_type : string; v_data : option string }.

Record signature := { variadic : bool; ins : list string; outs : list string }.

(** The argument of a mock or a reference: nil, a value of another kind, or a
    function with its code pointer. *)
Inductive any :=
| Nil
| Plain (v : value)
| Func (ptr : Z) (s : signature).

Section mocks.
(** [Type.AssignableTo], [Type.ConvertibleTo], [Type.Implements(error)], whether
    the kind of a type can be nil, and what calling a function gives. *)
Context (assignable convertible : string -> string -> bool) (implements_error nilable : string -> bool)
        (call : Z -> list value -> list value) (convert : value -> string -> value).

Record runtimeMocks := {
  endpointRefs : gmap Z string;
  endpointMock : gmap string any;
  serviceMock : gmap string any
}.

Definition RegisterEndpointFunc (fn : any) (service name : string) (m : runtimeMocks) : outcome string runtimeMocks :=
  match fn with
  | Func ptr _ =>
    Ret {| endpointRefs := <[ptr := Runtime.endpointKey service name]> (endpointRefs m);
           endpointMock := endpointMock m; serviceMock := serviceMock m |}
  | _ => Panic ("runtime: endpoint ref for " +:+ service +:+ "." +:+ name +:+ " must be a function")
  end.

Definition lookupEndpointRef (ref : any) (m : runtimeMocks) : outcome string string :=
  match ref with
  | Func ptr _ =>
    match endpointRefs m !! ptr with
    | Some key => Ret key
    | None => Fail "runtime: endpoint ref is not registered"
    end
  | _ => Fail "runtime: endpoint ref must be a function"
  end.

Definition set_endpoint_mocks (e : gmap string any) (m : runtimeMocks) : runtimeMocks :=
  {| endpointRefs := endpointRefs m; endpointMock := e; serviceMock := serviceMock m |}.
Definition set_service_mocks (s : gmap string any) (m : runtimeMocks) : runtimeMocks :=
  {| endpointRefs := endpointRefs m; endpointMock := endpointMock m; serviceMock := s |}.

(** What a restore function does with the entry it was made for. *)
Definition restore (key : string) (prev : option any) (t : gmap string any) : gmap string any :=
  match prev with Some p => <[key := p]> t | None => delete key t end.

(** The mocks after setting, and the restore function. *)
Definition SetEndpointMock (ref mock : any) (m : runtimeMocks) :
  outcome string (runtimeMocks * (runtimeMocks -> runtimeMocks)) :=
  key ← lookupEndpointRef ref m;
  let prev := endpointMock m !! key in
  Ret (set_endpoint_mocks (<[key := mock]> (endpointMock m)) m,
       fun m' => set_endpoint_mocks (restore key prev (endpointMock m')) m').

(** The type a service mock stands for. *)
Definition compileServiceMock (mock : any) : outcome string string :=
  match mock with
  | Nil => Fail "runtime: service mock must not be nil"
  | Plain v => Ret (v_type v)
  | Func _ s =>
    if variadic s || negb (Nat.eqb (length (ins s)) 0) || Nat.ltb (length (outs s)) 1 || Nat.ltb 2 (length (outs s))
    then Fail "runtime: service mock factory must have signature func() T or func() (T, error)"
    else match outs s with
    | [_; e] => if negb (implements_error e) then Fail "runtime: service mock factory second return must be error"
                else Ret (default "" (head (outs s)))
    | _ => Ret (default "" (head (outs s)))
    end
  end.

(** The factory of a compiled mock: the value, nil, or the error it returned. *)
Definition factory (mock : any) : outcome string (option value) :=
  match mock with
  | Nil => Ret None
  | Plain v => Ret (Some v)
  | Func ptr s =>
    match call ptr [] with
    | [v; e] =>
      match v_data e with
      | Some msg => Fail msg
      | None => if nilable (v_type v) && bool_decide (v_data v = None) then Ret None else Ret (Some v)
      end
    | v :: _ => if nilable (v_type v) && bool_decide (v_data v = None) then Ret None else Ret (Some v)
    | [] => Panic "reflect: no results"
    end
  end.

Definition SetServiceMock (mock : any) (m : runtimeMocks) :
  outcome string (runtimeMocks * (runtimeMocks -> runtimeMocks)) :=
  typ ← compileServiceMock mock;
  let prev := serviceMock m !! typ in
  Ret (set_service_mocks (<[typ := mock]> (serviceMock m)) m,
       fun m' => set_service_mocks (restore typ prev (serviceMock m')) m').

Definition ClearMocks (m : runtimeMocks) : runtimeMocks :=
  {| endpointRefs := endpointRefs m; endpointMock := ∅; serviceMock := ∅ |}.

(** [None] when there is no mock for the type. *)
Definition LookupServiceMock (typ : string) (m : runtimeMocks) : option (outcome string (option value)) :=
  match serviceMock m !! typ with
  | None => None
  | Some mock =>
    Some match factory mock with
         | Ret (Some v) =>
           if negb (assignable (v_type v) typ) then Fail ("runtime: service mock returned " +:+ v_type v +:+ ", want " +:+ typ)
           else Ret (Some v)
         | r => r
         end
  end.

Definition lookupEndpointMock (ep : Runtime.Endpoint) (m : runtimeMocks) : option any :=
  endpointMock m !! Runtime.endpointKey (Runtime.Service ep) (Runtime.Name ep).

(** [value] is [None] for a nil interface. *)
Definition adaptMockArg (v : option value) (typ : string) : outcome string value :=
  match v with
  | None => Ret {| v_type := typ; v_data := None |}
  | Some v =>
    if assignable (v_type v) typ then Ret v
    else if convertible (v_type v) typ then Ret (convert v typ)
    else Fail ("cannot use " +:+ v_type v +:+ " as " +:+ typ)
  end.

(** The arguments for the path, which take the parameters after the context. *)
Fixpoint adapt_path (pathArgs : list (option value)) (params : list string) : outcome string (list value) :=
  match pathArgs, params with
  | [], _ => Ret []
  | _ :: _, [] => Fail "has too few parameters"
  | a :: pathArgs', t :: params' => v ← adaptMockArg a t; vs ← adapt_path pathArgs' params'; Ret (v :: vs)
  end.

(** The result of a typed mock: the response ([None] for nil) and the error. *)
Definition mock_result (out : list value) : outcome string (option value * option string) :=
  match out with
  | [e] => Ret (None, v_data e)
  | [v; e] => Ret (if nilable (v_type v) && bool_decide (v_data v = None) then None else Some v, v_data e)
  | _ => Fail "has invalid return signature"
  end.

(** The arguments [callTypedMock] passes to the mock. *)
Definition mock_args (s : signature) (has_response has_payload : bool) (ctx : option value)
  (pathArgs : list (option value)) (payload : option value) : outcome string (list value) :=
  if variadic s then Fail "must not be variadic"
  else match ins s with
  | [] => Fail "must accept context.Context"
  | ctx_type :: params =>
    let returns_error i := match outs s !! i with Some t => implements_error t | None => false end in
    if negb has_response && (negb (Nat.eqb (length (outs s)) 1) || negb (returns_error 0%nat)) then Fail "must return error"
    else if has_response && (negb (Nat.eqb (length (outs s)) 2) || negb (returns_error 1%nat))
    then Fail "must return a response and an error"
    else
      ctxValue ← adaptMockArg ctx ctx_type;
      path ← adapt_path pathArgs params;
      let args := ctxValue :: path in
      args ← (if has_payload then
                match ins s !! length args with
                | None => Fail "has too few parameters"
                | Some t => a ← adaptMockArg payload t; Ret (args ++ [a])
                end
              else Ret args);
      if negb (Nat.eqb (length args) (length (ins s))) then Fail "wrong number of arguments" else Ret args
  end.

Definition callTypedMock (mock : any) (ep : Runtime.Endpoint) (ctx : option value) (pathArgs : list (option value))
  (payload : option value) : outcome string (option value * option string) :=
  match mock with
  | Func ptr s =>
    args ← mock_args s (bool_decide (is_Some (Runtime.ResponseType ep))) (bool_decide (is_Some (Runtime.PayloadType ep)))
             ctx pathArgs payload;
    mock_result (call ptr args)
  | _ => Fail "must be a function"
  end.

Definition raw_mock_args (s : signature) (w req : value) : outcome string (list value) :=
  match ins s with
  | [t0; t1] =>
    if variadic s || negb (Nat.eqb (length (outs s)) 0)
    then Fail "runtime: raw endpoint mock must have signature func(http.ResponseWriter, *http.Request)"
    else a ← adaptMockArg (Some w) t0; b ← adaptMockArg (Some req) t1; Ret [a; b]
  | _ => Fail "runtime: raw endpoint mock must have signature func(http.ResponseWriter, *http.Request)"
  end.

Definition callRawMock (mock : any) (w req : value) : outcome string () :=
  match mock with
  | Func ptr s => args ← raw_mock_args s w req; let _ := call ptr args in Ret ()
  | _ => Fail "runtime: raw endpoint mock must be a function"
  end.

(** ** Calls fit the signature *)

(** What [reflect.Value.Call] requires of its arguments. *)
Definition fits (s : signature) (args : list value) : Prop :=
  variadic s = false /\ Forall2 (fun a t => assignable (v_type a) t = true) args (ins s).

(** Types are assignable to themselves, and converting gives the target type. *)
Context (assignable_refl : forall t, assignable t t = true) (convert_type : forall v t, v_type (convert v t) = t).

Lemma adaptMockArg_fits v t a : adaptMockArg v t = Ret a -> assignable (v_type a) t = true.
Proof.
  unfold adaptMockArg. destruct v as [v|]; [|intros [= <-]; apply assignable_refl].
  destruct (assignable (v_type v) t) eqn:E; [by intros [= <-]|].
  destruct (convertible _ _); [|done]. intros [= <-]. rewrite convert_type. apply assignable_refl.
Qed.

Lemma adapt_path_fits pathArgs params args : adapt_path pathArgs params = Ret args ->
  Forall2 (fun a t => assignable (v_type a) t = true) args (take (length args) params) /\
  (length args <= length params)%nat.
Proof.
  revert params args. induction pathArgs as [|a pathArgs IH]; intros params args; simpl.
  - intros [= <-]. split; [constructor|simpl; lia].
  - destruct params as [|t params]; [done|].
    destruct (adaptMockArg a t) as [v| |] eqn:E; [|done..]. cbn [mbind outcome_bind].
    destruct (adapt_path pathArgs params) as [vs| |] eqn:Es; [|done..]. intros [= <-].
    destruct (IH _ _ Es) as [H1 H2]. simpl. split; [constructor; [by eapply adaptMockArg_fits|done]|lia].
Qed.

Lemma mock_args_fits s has_response has_payload ctx pathArgs payload args :
  mock_args s has_response has_payload ctx pathArgs payload = Ret args -> fits s args.
Proof.
  unfold mock_args, fits. destruct (variadic s); [done|]. destruct (ins s) as [|t params]; [done|].
  destruct (_ && _); [done|]. destruct (_ && _); [done|].
  destruct (adaptMockArg ctx t) as [c| |] eqn:Ec; [|done..]. cbn [mbind outcome_bind].
  destruct (adapt_path pathArgs params) as [path| |] eqn:Ep; [|done..]. cbn [mbind outcome_bind].
  apply adapt_path_fits in Ep as [Hp Hlen]. apply adaptMockArg_fits in Ec.
  destruct has_payload.
  - destruct ((t :: params) !! length (c :: path)) as [pt|] eqn:El; [|done].
    destruct (adaptMockArg payload pt) as [a| |] eqn:Ea; [|done..]. cbn [mbind outcome_bind].
    destruct (Nat.eqb_spec (length ((c :: path) ++ [a])) (length (t :: params))) as [En|]; [|done]. intros [= <-].
    split; [done|]. simpl. constructor; [done|]. simpl in El, En. rewrite length_app in En. simpl in En.
    apply adaptMockArg_fits in Ea. rewrite <- (take_drop (length path) params). apply Forall2_app; [done|].
    rewrite (drop_S _ _ _ El). rewrite drop_ge by lia. repeat constructor. done.
  - cbn [mbind outcome_bind]. destruct (Nat.eqb_spec (length (c :: path)) (length (t :: params))) as [En|]; [|done]. intros [= <-].
    split; [done|]. constructor; [done|]. simpl in En. by rewrite take_ge in Hp by lia.
Qed.

Lemma adaptMockArg_no_panic v t msg : adaptMockArg v t <> Panic msg.
Proof.
  unfold adaptMockArg. destruct v as [v|]; [|done]. destruct (assignable _ _); [done|]. by destruct (convertible _ _).
Qed.

Lemma adapt_path_no_panic l params msg : adapt_path l params <> Panic msg.
Proof.
  revert params msg. induction l as [|a l IH]; intros params msg; simpl; [done|]. destruct params as [|t params]; [done|].
  destruct (adaptMockArg a t) eqn:Ea; cbn [mbind outcome_bind]; [|done|by apply adaptMockArg_no_panic in Ea].
  destruct (adapt_path l params) eqn:El; cbn [mbind outcome_bind]; [done..|by apply IH in El].
Qed.

Lemma mock_args_no_panic s has_response has_payload ctx pathArgs payload msg :
  mock_args s has_response has_payload ctx pathArgs payload <> Panic msg.
Proof.
  unfold mock_args. destruct (variadic s); [done|]. destruct (ins s) as [|t params]; [done|].
  destruct (_ && _); [done|]. destruct (_ && _); [done|].
  destruct (adaptMockArg ctx t) eqn:Ec; cbn [mbind outcome_bind]; [|done|by apply adaptMockArg_no_panic in Ec].
  destruct (adapt_path pathArgs params) eqn:Ep; cbn [mbind outcome_bind]; [|done|by apply adapt_path_no_panic in Ep].
  destruct has_payload; [|cbn [mbind outcome_bind]; by destruct (negb _)].
  destruct (_ !! _) as [pt|]; [|done].
  destruct (adaptMockArg payload pt) eqn:Ea; cbn [mbind outcome_bind]; [|done|by apply adaptMockArg_no_panic in Ea].
  by destruct (negb _).
Qed.

(** A mock is only ever called with arguments that fit its signature, in
    number and in type, for typed and raw endpoints; a mock that does not fit the
    endpoint is an error, never a panic of the reflective call. *)
Theorem mock_calls_fit (mock : any) (ep : Runtime.Endpoint) ctx pathArgs payload w req :
  (callTypedMock mock ep ctx pathArgs payload = Fail "must be a function" \/
   exists ptr s, mock = Func ptr s /\
     match mock_args s (bool_decide (is_Some (Runtime.ResponseType ep))) (bool_decide (is_Some (Runtime.PayloadType ep)))
             ctx pathArgs payload with
     | Ret args => fits s args /\ callTypedMock mock ep ctx pathArgs payload = mock_result (call ptr args)
     | Fail msg => callTypedMock mock ep ctx pathArgs payload = Fail msg
     | Panic _ => False
     end) /\
  (forall ptr s args, mock = Func ptr s -> raw_mock_args s w req = Ret args -> fits s args).
Proof.
  split.
  - destruct mock as [|v|ptr s]; [by left..|]. right. exists ptr, s. split; [done|]. unfold callTypedMock.
    destruct (mock_args _ _ _ _ _ _) as [args|msg|m] eqn:E; [|done|].
    + split; [by eapply mock_args_fits|done].
    + by apply mock_args_no_panic in E.
  - intros ptr s args -> H. unfold raw_mock_args in H. destruct (ins s) as [|t0 [|t1 [|]]] eqn:Ei; try done.
    destruct (variadic s) eqn:Ev; [done|]. destruct (negb _); [done|].
    destruct (adaptMockArg (Some w) t0) as [a| |] eqn:Ea; [|done..]. cbn [mbind outcome_bind] in H.
    destruct (adaptMockArg (Some req) t1) as [b| |] eqn:Eb; [|done..]. injection H as <-.
    split; [done|]. rewrite Ei. repeat constructor; by eapply adaptMockArg_fits.
Qed.

(** ** Restoring in reverse order undoes setting *)

(** Mocks set and restored between a set and its restore, properly nested. *)
Inductive nested : runtimeMocks -> runtimeMocks -> Prop :=
| nested_refl m : nested m m
| nested_endpoint m m1 m2 m' ref mock undo :
    SetEndpointMock ref mock m = Ret (m1, undo) -> nested m1 m2 -> nested (undo m2) m' -> nested m m'
| nested_service m m1 m2 m' mock undo :
    SetServiceMock mock m = Ret (m1, undo) -> nested m1 m2 -> nested (undo m2) m' -> nested m m'.

Lemma restore_insert key v (t : gmap string any) : restore key (t !! key) (<[key := v]> t) = t.
Proof.
  unfold restore. destruct (t !! key) as [p|] eqn:E.
  - by rewrite insert_insert_eq, insert_id.
  - by rewrite delete_insert_eq, delete_id.
Qed.

(** Whatever properly nested mocking a test does, the mocks are as before. *)
Theorem nested_restores m m' : nested m m' -> m' = m.
Proof.
  induction 1 as [|m m1 m2 m' ref mock undo E _ IH1 _ IH2|m m1 m2 m' mock undo E _ IH1 _ IH2]; [done|..].
  - subst. unfold SetEndpointMock in E. destruct (lookupEndpointRef ref m); [|done..].
    cbn [mbind outcome_bind] in E. simplify_eq. unfold set_endpoint_mocks. simpl. rewrite restore_insert. by destruct m.
  - subst. unfold SetServiceMock in E. destruct (compileServiceMock mock); [|done..].
    cbn [mbind outcome_bind] in E. simplify_eq. unfold set_service_mocks. simpl. rewrite restore_insert. by destruct m.
Qed.
End mocks.

Lemma mock_calls_fit_witness :
  let s := {| variadic := false; ins := ["context.Context"; "string"]; outs := ["error"] |} in
  let ep := {| Runtime.Service := "users"; Runtime.Name := "Drop"; Runtime.Access_ := Runtime.Public; Runtime.Raw := false;
    Runtime.Path := "/users/:id"; Runtime.Methods := ["DELETE"]; Runtime.MiddlewareIDs := []; Runtime.PathParams := [];
    Runtime.PayloadType := None; Runtime.ResponseType := None; Runtime.WireID := "users.Drop"; Runtime.WireSchemaHash := "";
    Runtime.WireAvailable := true; Runtime.WireUnsupportedReason := ""; Runtime.HasWireInvoke := false;
    Runtime.HasWireInvokeJSON := false |} in
  let args := [{| v_type := "context.Context"; v_data := Some "bg" |}; {| v_type := "string"; v_data := Some "7" |}] in
  fits String.eqb s args /\
  callTypedMock String.eqb (fun _ _ => false) (String.eqb "error") (String.eqb "error")
    (fun _ _ => [{| v_type := "error"; v_data := None |}]) (fun v t => {| v_type := t; v_data := v_data v |})
    (Func 1 s) ep (head args) [args !! 1%nat] None = Ret (None, None).
Proof.
  intros s ep args.
  destruct (mock_calls_fit String.eqb (fun _ _ => false) (String.eqb "error") (String.eqb "error")
    (fun _ _ => [{| v_type := "error"; v_data := None |}]) (fun v t => {| v_type := t; v_data := v_data v |})
    String.eqb_refl (fun v t => eq_refl) (Func 1 s) ep (head args) [args !! 1%nat] None
    {| v_type := ""; v_data := None |} {| v_type := ""; v_data := None |}) as [[H|(ptr & s' & E & H)] _].
  - vm_compute in H. discriminate.
  - injection E as <- <-. exact H.
Defined.
End Mock.
