(* ===== verification/AgentServer.v ===== *)
(** * The agent: control API, router and start-up
    ([internal/agent/server.go], [router.go], [edge.go], [paths.go])

    [AgentServer] models the handlers of the agent on top of the session
    registry.  A control request takes the registry to its next state, answers
    a response and may interrupt processes; a routed request answers a response
    and the list of requests sent to backends.  What JSON decoding, the network
    and the operating system answer are arguments. *)
From stdpp Require Import base tactics list gmap strings relations.
From Stdlib Require Import ZArith Lia Ascii.
From S2P Require Import Prelude GoStrings WireCodec Middleware Http AgentSession AgentRegistry.

Module AgentServer.
Import Agent Registry.

Definition StateSchemaVersion : string := "scenery.agent.state.v1".
Definition EdgeSchemaVersion : string := "scenery.edge.state.v1".
Definition EdgeTargetSchemaVersion : string := "scenery.edge.target.v1".
Definition EdgeKindCaddy : string := "caddy".
Definition EdgeStatusRunning : string := "running".
Definition defaultRouterAddr : string := "127.0.0.1:9440".

(** ** Data *)
Record Paths := {
  Home : string;
  RunDir : string;
  AgentDir : string;
  EdgeDir : string;
  SocketPath : string;
  StatePath : string;
  EdgeStatePath : string;
  EdgeTokenPath : string;
  EdgeTargetPath : string;
  EdgeConfigPath : string;
  EdgeLogPath : string;
  RegistryPath : string;
  AgentLogPath : string
}.

Record EdgeState := {
  es_SchemaVersion : string;
  es_Kind : string;
  es_Status : string;
  es_PID : Z;
  es_PublicAddr : string;
  es_PublicScheme : string;
  es_HTTPSListen : string;
  es_UpstreamAddr : string;
  es_AdminSocket : string;
  es_ConfigPath : string;
  es_LogPath : string;
  es_Error : string;
  es_UpdatedAt : Z
}.

Record EdgeTargetState := {
  et_SchemaVersion : string;
  et_Kind : string;
  et_TargetAddr : string;
  et_PID : Z;
  et_OwnerUID : Z;
  et_OwnerGID : Z;
  et_ProcessStart : string;
  et_Executable : string;
  et_UpdatedAt : Z
}.

Record Server := {
  paths : Paths;
  registry : Registry.Registry;
  routerAddr : string;
  publicRouterAddr : string;
  routerScheme : string;
  internalRouterScheme : string;
  edge : option EdgeState;
  edgeToken : string;
  dashboard : Backend
}.

Record State := {
  st_SchemaVersion : string;
  st_PID : Z;
  st_SocketPath : string;
  st_RouterAddr : string;
  st_PublicRouterAddr : string;
  st_RouterScheme : string;
  st_Edge : option EdgeState;
  st_UpdatedAt : Z
}.

Record HealthResponse := {
  hr_SchemaVersion : string;
  hr_PID : Z;
  hr_SocketPath : string;
  hr_RouterAddr : string;
  hr_PublicRouterAddr : string;
  hr_RouterScheme : string;
  hr_Edge : option EdgeState;
  hr_DashboardBackend : Backend
}.

(** A request as the handlers read it; [Query] is the parsed query. *)
Record Request := {
  Method : string;
  Host : string;
  URLHost : string;
  Path : string;
  Query : gmap string (list string);
  RawQuery : string;
  req_header : Http.Header;
  TLS : bool;
  RemoteAddr : string;
  Body : string
}.

Definition query_get (req : Request) (key : string) : string :=
  default "" (head (default [] (Query req !! key))).

(** The JSON values the control API answers. *)
Inductive payload :=
| HealthBody (h : HealthResponse)
| SessionsBody (l : list Session)
| SessionBody (s : option Session) (deleted : bool)
| SubstratesBody (l : list Substrate)
| SubstrateBody (s : Substrate).

Inductive body := NoBody | Text (s : string) | Json (p : payload) | Stream (s : string).

Record Response := { rs_status : Z; rs_header : Http.Header; rs_body : body }.

(** [http.Error] and [http.NotFound]. *)
Definition http_Error (h : Http.Header) (msg : string) (status : Z) : Response :=
  {| rs_status := status;
     rs_header := Http.Set_ (Http.Set_ h "Content-Type" "text/plain; charset=utf-8") "X-Content-Type-Options" "nosniff";
     rs_body := Text (msg +:+ String "010" "") |}.

Definition NotFound : Response := http_Error [] "404 page not found" 404.

(** A handler that panics: the connection is closed without an answer. *)
Definition aborted : Response := {| rs_status := 0; rs_header := []; rs_body := NoBody |}.

Definition methodNotAllowed (methods : list string) : Response :=
  http_Error (Http.Set_ [] "Allow" (Strings.Join methods ", ")) "method not allowed" 405.

Definition writeJSON (status : Z) (value : payload) : Response :=
  {| rs_status := status;
     rs_header := Http.Set_ (Http.Set_ [] "Content-Type" "application/json") "Cache-Control" "no-store";
     rs_body := Json value |}.

Section server.
Context {UT : UnicodeTables} {W : World}.

(** ** Hosts and paths of a request *)
Definition normalizeRouteRequestHost (host : string) : string :=
  let host := Strings.TrimSuffix (Strings.ToLower (Strings.TrimSpace host)) "." in
  match Net.SplitHostPort host with Some (h, _) => h | None => host end.

Definition requestHost (req : Request) : string :=
  let host := Strings.ToLower (Strings.TrimSpace (Host req)) in
  let host := if String.eqb host "" then Strings.ToLower (Strings.TrimSpace (URLHost req)) else host in
  normalizeRouteRequestHost host.

Definition cleanRequestPath (value : string) : string :=
  if String.eqb value "" then "/"
  else
    let value := if Strings.HasPrefix value "/" then value else "/" +:+ value in
    Filepath.Clean value.

Definition isProtectedFrontendPath (value : string) : bool :=
  let value := cleanRequestPath value in
  existsb (fun prefix => String.eqb value prefix || Strings.HasPrefix value (prefix +:+ "/"))
    ["/__scenery"; "/api"; "/sync"].

Definition isFrontendSessionBackend (kind : string) : bool :=
  bool_decide (kind ∉ [""; RouteAPI; RouteDashboard; RouteGrafana; RouteTemporal; "electric";
                        "removed-agent-transport"; "sync"]).

Definition isConcreteAssetPath (value : string) : bool :=
  let value := cleanRequestPath value in
  if String.eqb value "/" then false
  else if existsb (Strings.HasPrefix value) ["/assets/"; "/static/"; "/public/"] then true
  else Strings.Contains (Filepath.Base value) ".".

Definition shouldUseSPAFallback (req : Request) : bool :=
  if negb (String.eqb (Method req) "GET") && negb (String.eqb (Method req) "HEAD") then false
  else if isConcreteAssetPath (Path req) then false
  else Strings.Contains (Strings.ToLower (Http.Get (req_header req) "Accept")) "text/html".

(** ** The edge in front of the router *)
Definition trustedEdgeRequest (s : Server) (req : Request) : bool :=
  if String.eqb (Strings.TrimSpace (edgeToken s)) "" then false
  else if negb (String.eqb (Http.Get (req_header req) "X-Scenery-Edge-Token") (edgeToken s)) then false
  else
    let remote := Strings.TrimSpace (RemoteAddr req) in
    let host := match Net.SplitHostPort remote with Some (h, _) => h | None => remote end in
    match Net.ParseIP host with Some ip => Net.IsLoopback ip | None => false end.

Definition forwardedProto (s : Server) (req : Request) : string :=
  let proto := Strings.TrimSpace (Http.Get (req_header req) "X-Forwarded-Proto") in
  if trustedEdgeRequest s req && negb (String.eqb proto "") then proto
  else if TLS req then "https" else "http".

Definition forwardedPort (s : Server) (req : Request) : string :=
  let port := Strings.TrimSpace (Http.Get (req_header req) "X-Forwarded-Port") in
  if trustedEdgeRequest s req && negb (String.eqb port "") then port
  else
    let hostPort := match Net.SplitHostPort (Strings.TrimSpace (Host req)) with Some (_, p) => p | None => "" end in
    if negb (String.eqb hostPort "") then hostPort
    else if TLS req then "443" else "80".

(** ** Proxying *)
(** A request sent to a backend, as the [Director] leaves it: where it is
    dialled, its path, query, host and headers. *)
Record Outgoing := {
  out_network : string;
  out_addr : string;
  out_method : string;
  out_path : string;
  out_query : string;
  out_host : string;
  out_header : Http.Header
}.

(** Why a round trip failed, as far as [isBackendUnavailableError] looks. *)
Record transport_error := { op_error : option string; refused : bool; no_entry : bool; err_text : string }.

(** What the backends answer. *)
Variable roundTrip : Outgoing -> Response + transport_error.

Definition isBackendUnavailableError (e : transport_error) : bool :=
  if bool_decide (op_error e = Some "dial") then true else refused e || no_entry e.

Record proxyBackendOptions := { stripPrefix : string; spaFallback : bool }.

(** The director of [NewSingleHostReverseProxy] for a target without a path
    joins it with the path of the request. *)
Definition join_path (p : string) : string := if Strings.HasPrefix p "/" then p else "/" +:+ p.

Definition director (s : Server) (req : Request) (backend : Backend) (opts : proxyBackendOptions) : Outgoing :=
  let unix := String.eqb (Network backend) "unix" in
  let h := Http.Set_ (req_header req) "X-Forwarded-Host" (Host req) in
  let h := Http.Set_ h "X-Forwarded-Proto" (forwardedProto s req) in
  let h := Http.Set_ h "X-Forwarded-Port" (forwardedPort s req) in
  let stripped := Strings.TrimPrefix (Path req) (stripPrefix opts) in
  {| out_network := if unix then "unix" else "tcp"; out_addr := Addr backend; out_method := Method req;
     out_path := if String.eqb (stripPrefix opts) "" then join_path (Path req)
                 else if String.eqb stripped "" then "/" else stripped;
     out_query := RawQuery req; out_host := Host req; out_header := h |}.

(** The page a single page application falls back to. *)
Definition fallback_request (out : Outgoing) : Outgoing :=
  {| out_network := out_network out; out_addr := out_addr out; out_method := out_method out; out_path := "/";
     out_query := ""; out_host := out_host out; out_header := out_header out |}.

Definition proxy_error (e : transport_error) : Response :=
  if isBackendUnavailableError e
  then http_Error (Http.Set_ [] "Retry-After" "1") "backend restarting, retry shortly" 503
  else http_Error [] (err_text e) 502.

Definition proxyBackendWithOptions (s : Server) (req : Request) (backend : Backend) (opts : proxyBackendOptions)
  : Response * list Outgoing :=
  let out := director s req backend opts in
  match roundTrip out with
  | inr e => (proxy_error e, [out])
  | inl resp =>
    if spaFallback opts && (rs_status resp =? 404) then
      match roundTrip (fallback_request out) with
      | inr _ => (resp, [out; fallback_request out])
      | inl fallbackResp => (fallbackResp, [out; fallback_request out])
      end
    else (resp, [out])
  end.

Definition proxyBackend (s : Server) (req : Request) (backend : Backend) (prefix : string) : Response * list Outgoing :=
  proxyBackendWithOptions s req backend {| stripPrefix := prefix; spaFallback := false |}.

(** ** The router *)
Definition routeTargetForHost (s : Server) (host : string) : option (Session * string) :=
  let host := normalizeRouteRequestHost host in
  if String.eqb host "" then None else RouteTargetForHost (registry s) host.

Definition hasRouteHost (s : Server) (host : string) : bool :=
  match routeTargetForHost s host with Some _ => true | None => false end.

Definition sessionOwnerVerifies (session : Session) : bool :=
  let ownerPID := firstPositive [OwnerPID session; PID (SessionOwner session)] in
  if ownerPID <=? 0 then false
  else
    let owner := SessionOwner session in
    let owner := if PID owner <=? 0 then set_PID owner ownerPID else owner in
    VerifyOwner owner.

Definition tlsAllowedHost (s : Server) (host : string) : bool :=
  match routeTargetForHost s host with
  | None => false
  | Some (session, _) => sessionOwnerVerifies session
  end.

Definition agentTLSHostAllowed (s : Server) (host : string) : bool :=
  let host := normalizeRouteRequestHost host in
  if String.eqb host "localhost" then true else hasRouteHost s host.

Definition handleTLSAllow (s : Server) (req : Request) : Response :=
  if negb (String.eqb (Method req) "GET") && negb (String.eqb (Method req) "HEAD")
  then methodNotAllowed ["GET"; "HEAD"]
  else
    let domain := normalizeRouteRequestHost (query_get req "domain") in
    if String.eqb domain "" || negb (tlsAllowedHost s domain) then NotFound
    else {| rs_status := 204; rs_header := []; rs_body := NoBody |}.

Definition handleFrontendRoute (s : Server) (req : Request) (session : Session) (backend : Backend)
  : Response * list Outgoing :=
  let requestPath := cleanRequestPath (Path req) in
  if String.eqb requestPath "/__scenery/config" then
    match Backends session !! RouteAPI with
    | None => (NotFound, [])
    | Some api => proxyBackend s req api ""
    end
  else if isProtectedFrontendPath requestPath then (NotFound, [])
  else proxyBackendWithOptions s req backend {| stripPrefix := ""; spaFallback := shouldUseSPAFallback req |}.

Definition handleConsole (s : Server) (req : Request) (session : Session) : Response * list Outgoing :=
  if negb (String.eqb (Addr (dashboard s)) "") then proxyBackend s req (dashboard s) ""
  else match Backends session !! RouteDashboard with
  | None => (NotFound, [])
  | Some backend => proxyBackend s req backend ""
  end.

Definition routerMux (s : Server) (req : Request) : Response * list Outgoing :=
  if String.eqb (cleanRequestPath (Path req)) "/v1/tls/allow" then (handleTLSAllow s req, [])
  else match routeTargetForHost s (requestHost req) with
  | None => (NotFound, [])
  | Some (session, kind) =>
    if String.eqb kind RouteDashboard then handleConsole s req session
    else match Backends session !! kind with
    | None => (NotFound, [])
    | Some backend =>
      if isFrontendSessionBackend kind then handleFrontendRoute s req session backend
      else proxyBackend s req backend ""
    end
  end.

(** ** The control API *)
Section control_api.
(** What a control request leaves: the response, the registry and the processes
    interrupted (a failed interrupt is only logged). *)
Definition control_result : Type := Response * Registry.Registry * list Z.

(** [json.Decoder.Decode] on a body of at most a megabyte. *)
Variable decode_register : string -> RegisterRequest + string.
Variable decode_substrate : string -> UpsertSubstrateRequest + string.
Variable save : Registry.Registry -> option string.
Variable manifest : Session -> option string.
(** The texts of the registry's errors. *)
Variable error_text : agent_error -> string.

Definition unchanged (s : Server) (resp : Response) : control_result := (resp, registry s, []).

Definition handleHealth (s : Server) (req : Request) : Response :=
  if negb (String.eqb (Method req) "GET") then methodNotAllowed ["GET"]
  else writeJSON 200 (HealthBody
    {| hr_SchemaVersion := StateSchemaVersion; hr_PID := getpid; hr_SocketPath := SocketPath (paths s);
       hr_RouterAddr := routerAddr s; hr_PublicRouterAddr := publicRouterAddr s; hr_RouterScheme := routerScheme s;
       hr_Edge := edge s; hr_DashboardBackend := dashboard s |}).

Definition ListSubstrates (r : Registry.Registry) : list Substrate := sortedSubstrates (substrates r).

Definition handleSubstrates (s : Server) (req : Request) : control_result :=
  if String.eqb (Method req) "GET" then unchanged s (writeJSON 200 (SubstratesBody (ListSubstrates (registry s))))
  else if String.eqb (Method req) "POST" then
    match decode_substrate (Body req) with
    | inl upsert =>
      match UpsertSubstrate (registry s) upsert save with
      | (Ret substrate, r) => (writeJSON 200 (SubstrateBody substrate), r, [])
      | (Fail e, r) => (http_Error [] (error_text e) 400, r, [])
      | (Panic _, r) => (aborted, r, [])
      end
    | inr e => unchanged s (http_Error [] e 400)
    end
  else unchanged s (methodNotAllowed ["GET"; "POST"]).

(** The last element of the path of a control request. *)
Definition path_id (req : Request) (prefix : string) : string :=
  Strings.Trim (Strings.TrimPrefix (Path req) prefix) "/".

Definition handleSubstrate (s : Server) (req : Request) : control_result :=
  let kind := path_id req "/v1/substrates/" in
  if String.eqb kind "" then unchanged s NotFound
  else if String.eqb (Method req) "GET" then
    match GetSubstrate (registry s) kind with
    | None => unchanged s NotFound
    | Some substrate => unchanged s (writeJSON 200 (SubstrateBody substrate))
    end
  else if String.eqb (Method req) "DELETE" then
    match DeleteSubstrate (registry s) kind save with
    | (Ret (Some substrate, true), r) => (writeJSON 200 (SubstrateBody substrate), r, [])
    | (Ret _, r) => (NotFound, r, [])
    | (Fail e, r) => (http_Error [] (error_text e) 500, r, [])
    | (Panic _, r) => (aborted, r, [])
    end
  else unchanged s (methodNotAllowed ["GET"; "DELETE"]).

Definition handleSessions (s : Server) (req : Request) : control_result :=
  if String.eqb (Method req) "GET" then
    let appRoot := Strings.TrimSpace (query_get req "app_root") in
    unchanged s (writeJSON 200 (SessionsBody
      (if String.eqb appRoot "" then List_sessions (registry s) else FindByAppRoot (registry s) appRoot)))
  else if String.eqb (Method req) "POST" then
    match decode_register (Body req) with
    | inl register =>
      match Upsert (registry s) register save manifest with
      | (Ret session, r) => (writeJSON 200 (SessionBody (Some session) false), r, [])
      | (Fail e, r) => (http_Error [] (error_text e) 400, r, [])
      | (Panic _, r) => (aborted, r, [])
      end
    | inr e => unchanged s (http_Error [] e 400)
    end
  else unchanged s (methodNotAllowed ["GET"; "POST"]).

(** The owner a deletion names: none given is 0, [none] is -1. *)
Definition requested_owner_pid (req : Request) : option Z :=
  let raw := Strings.TrimSpace (query_get req "owner_pid") in
  if String.eqb raw "" then Some 0
  else if String.eqb raw "none" then Some (-1)
  else match Strconv.Atoi raw with
  | Ret parsed => if parsed <=? 0 then None else Some parsed
  | _ => None
  end.

Definition requested_owner (req : Request) (ownerPID : Z) : Owner :=
  if 0 <? ownerPID then
    {| PID := ownerPID; StartedAt := Strings.TrimSpace (query_get req "owner_started_at");
       CmdlineHash := Strings.TrimSpace (query_get req "owner_cmdline_hash");
       Exe := Strings.TrimSpace (query_get req "owner_exe"); AgentPID := 0; CreatedBy := ""; RecordedAt := 0 |}
  else no_owner.

(** The process interrupted when a deleted session is to be signalled. *)
Definition signalled (req : Request) (session : Session) : list Z :=
  if String.eqb (query_get req "signal") "1" && ((0 <? OwnerPID session) || (0 <? PID (SessionOwner session))) then
    match ownerForSignal (OwnerPID session) (SessionOwner session) with
    | Some owner => [PID owner]
    | None => []
    end
  else [].

Definition delete_result (req : Request) (res : outcome agent_error (option Session * bool)) (r : Registry.Registry)
  : control_result :=
  match res with
  | Ret (session, ok) =>
    if negb ok && String.eqb (from_option SessionID "" session) "" then (NotFound, r, [])
    else (writeJSON 200 (SessionBody session ok), r,
          if ok then from_option (signalled req) [] session else [])
  | Fail e => (http_Error [] (error_text e) 500, r, [])
  | Panic _ => (aborted, r, [])
  end.

Definition handleSession (s : Server) (req : Request) : control_result :=
  let id := path_id req "/v1/sessions/" in
  if String.eqb id "" then unchanged s NotFound
  else if String.eqb (Method req) "GET" then
    match Get (registry s) id with
    | None => unchanged s NotFound
    | Some session => unchanged s (writeJSON 200 (SessionBody (Some session) false))
    end
  else if String.eqb (Method req) "DELETE" then
    match requested_owner_pid req with
    | None => unchanged s (http_Error [] "owner_pid must be a positive integer or none" 400)
    | Some ownerPID =>
      let '(res, r) := DeleteOwnedIdentity (registry s) id ownerPID (requested_owner req ownerPID)
                         (String.eqb (query_get req "owner_strict") "1") save in
      delete_result req res r
    end
  else unchanged s (methodNotAllowed ["GET"; "DELETE"]).

(** [ServeMux] redirects a path that is not clean; [cleanPath] keeps a trailing
    slash. *)
Definition mux_clean (p : string) : string :=
  if String.eqb p "" then "/"
  else
    let p := if Strings.HasPrefix p "/" then p else "/" +:+ p in
    let np := Filepath.Clean p in
    if Strings.HasSuffix p "/" && negb (String.eqb np "/") then np +:+ "/" else np.

Definition redirect (p : string) : Response :=
  {| rs_status := 301; rs_header := Http.Set_ [] "Location" p; rs_body := NoBody |}.

Definition controlMux (s : Server) (req : Request) : control_result :=
  if negb (String.eqb (mux_clean (Path req)) (Path req)) then unchanged s (redirect (mux_clean (Path req)))
  else if String.eqb (Path req) "/v1/health" then unchanged s (handleHealth s req)
  else if String.eqb (Path req) "/v1/tls/allow" then unchanged s (handleTLSAllow s req)
  else if String.eqb (Path req) "/v1/sessions" then handleSessions s req
  else if Strings.HasPrefix (Path req) "/v1/sessions/" then handleSession s req
  else if String.eqb (Path req) "/v1/substrates" then handleSubstrates s req
  else if Strings.HasPrefix (Path req) "/v1/substrates/" then handleSubstrate s req
  else unchanged s NotFound.

End control_api.

(** ** Shutting down *)
(** Whether [Close] interrupts the process [pid] of the component [name]. *)
Definition interrupts_component (substrate : Substrate) (substrateOwnerVerified : bool) (name : string) (pid : Z) : bool :=
  if pid <=? 0 then false
  else
    let owner := default no_owner (Owners substrate !! name) in
    if 0 <? PID owner then
      (PID owner =? pid) && match ownerForSignal pid owner with Some _ => true | None => false end
    else substrateOwnerVerified.

Definition substrate_owner_verified (substrate : Substrate) : bool :=
  ((0 <? sub_OwnerPID substrate) || (0 <? PID (sub_Owner substrate)))
  && match ownerForSignal (sub_OwnerPID substrate) (sub_Owner substrate) with Some _ => true | None => false end.

Definition close_substrate (substrate : Substrate) : list Z :=
  let verified := substrate_owner_verified substrate in
  map snd (List.filter (fun e => interrupts_component substrate verified e.1 e.2) (iterate (PIDs substrate))).

(** The processes [Close] interrupts, in order. *)
Definition Close (s : Server) : list Z := flat_map close_substrate (ListSubstrates (registry s)).

(** ** Start-up *)
Section startup.
(** [envpolicy.Lookup], the home of the user and the directory for temporary files. *)
Variable lookup_env : string -> option string.
Variable user_home : outcome string string.
Variable temp_dir : string.

Definition getenv (name : string) : string := default "" (lookup_env name).

Definition envValueEnabled (value : string) : bool :=
  bool_decide (Strings.ToLower (Strings.TrimSpace value) ∈ ["1"; "true"; "yes"; "on"]).
Definition envEnabled (name : string) : bool := envValueEnabled (getenv name).
Definition RouterTLSFromEnv : bool := envEnabled "SCENERY_AGENT_ROUTER_TLS".
Definition TrustFromEnv : bool := envEnabled "SCENERY_AGENT_TRUST".
Definition DisabledByEnv : bool := envEnabled "SCENERY_AGENT_DISABLE".

Definition RouterTLSDefault : bool :=
  match lookup_env "SCENERY_AGENT_ROUTER_TLS" with
  | None => true
  | Some value => if String.eqb (Strings.TrimSpace value) "" then true else envValueEnabled value
  end.

Definition RouterAddrFromEnv : string :=
  let value := Strings.TrimSpace (getenv "SCENERY_AGENT_ROUTER_ADDR") in
  if String.eqb value "" then defaultRouterAddr else value.

Definition PathsForHome (home : string) : Paths :=
  let home := Filepath.Clean home in
  let runDir := Filepath.Join [home; "run"] in
  let agentDir := Filepath.Join [home; "agent"] in
  let edgeDir := Filepath.Join [agentDir; "edge"] in
  let socketPath := Strings.TrimSpace (getenv "SCENERY_AGENT_SOCKET") in
  let socketPath :=
    if negb (String.eqb socketPath "") then socketPath
    else
      let socketPath := Filepath.Join [runDir; "agent.sock"] in
      if (100 <? String.length socketPath)%nat
      then Filepath.Join [temp_dir; "scenery-agent-" +:+ Strings.stake 12 (sha256_hex home) +:+ ".sock"]
      else socketPath in
  {| Home := home; RunDir := runDir; AgentDir := agentDir; EdgeDir := edgeDir;
     SocketPath := Filepath.Clean socketPath;
     StatePath := Filepath.Join [runDir; "agent.json"];
     EdgeStatePath := Filepath.Join [runDir; "edge.json"];
     EdgeTokenPath := Filepath.Join [edgeDir; "edge-token"];
     EdgeTargetPath := Filepath.Join [runDir; "edge-target.json"];
     EdgeConfigPath := Filepath.Join [edgeDir; "Caddyfile"];
     EdgeLogPath := Filepath.Join [edgeDir; "caddy.log"];
     RegistryPath := Filepath.Join [agentDir; "sessions.json"];
     AgentLogPath := Filepath.Join [agentDir; "agent.log"] |}.

Definition DefaultPaths : outcome string Paths :=
  let home := Strings.TrimSpace (getenv "SCENERY_AGENT_HOME") in
  if negb (String.eqb home "") then Ret (PathsForHome home)
  else userHome ← user_home; Ret (PathsForHome (Filepath.Join [userHome; ".scenery"])).

(** [os.MkdirAll]; [None] is success. *)
Variable mkdir_all : string -> option string.

Definition mkdir (dir : string) : outcome string unit :=
  match mkdir_all dir with Some msg => Fail msg | None => Ret tt end.

Definition EnsureDirs (p : Paths) : outcome string unit :=
  if String.eqb (RunDir p) "" || String.eqb (AgentDir p) "" then Fail "agent paths are incomplete"
  else mkdir (RunDir p) ;; mkdir (AgentDir p) ;;
       if negb (String.eqb (EdgeDir p) "") then mkdir (EdgeDir p) else Ret tt.

(** *** The state of the edge *)
(** A file of JSON: absent, unreadable or a decoded value. *)
Definition LoadEdgeState (file : outcome string (option EdgeState)) : outcome string (option EdgeState) :=
  f ← file;
  Ret (match f with
  | None => None
  | Some st => Some
    {| es_SchemaVersion := es_SchemaVersion st; es_Kind := sanitizeLabel (es_Kind st);
       es_Status := Strings.TrimSpace (es_Status st); es_PID := es_PID st;
       es_PublicAddr := Strings.TrimSpace (es_PublicAddr st); es_PublicScheme := Strings.TrimSpace (es_PublicScheme st);
       es_HTTPSListen := Strings.TrimSpace (es_HTTPSListen st); es_UpstreamAddr := Strings.TrimSpace (es_UpstreamAddr st);
       es_AdminSocket := es_AdminSocket st; es_ConfigPath := es_ConfigPath st; es_LogPath := es_LogPath st;
       es_Error := es_Error st; es_UpdatedAt := es_UpdatedAt st |}
  end).

Definition LoadEdgeTargetState (file : outcome string (option EdgeTargetState)) : outcome string (option EdgeTargetState) :=
  f ← file;
  Ret (match f with
  | None => None
  | Some st => Some
    {| et_SchemaVersion := et_SchemaVersion st; et_Kind := sanitizeLabel (et_Kind st);
       et_TargetAddr := Strings.TrimSpace (et_TargetAddr st); et_PID := et_PID st; et_OwnerUID := et_OwnerUID st;
       et_OwnerGID := et_OwnerGID st; et_ProcessStart := Strings.TrimSpace (et_ProcessStart st);
       et_Executable := Strings.TrimSpace (et_Executable st); et_UpdatedAt := et_UpdatedAt st |}
  end).

(** The value [WriteEdgeState] and [WriteEdgeTargetState] write. *)
Definition WriteEdgeState (st : EdgeState) : EdgeState :=
  {| es_SchemaVersion := if String.eqb (es_SchemaVersion st) "" then EdgeSchemaVersion else es_SchemaVersion st;
     es_Kind := es_Kind st; es_Status := es_Status st; es_PID := es_PID st; es_PublicAddr := es_PublicAddr st;
     es_PublicScheme := es_PublicScheme st; es_HTTPSListen := es_HTTPSListen st; es_UpstreamAddr := es_UpstreamAddr st;
     es_AdminSocket := es_AdminSocket st; es_ConfigPath := es_ConfigPath st; es_LogPath := es_LogPath st;
     es_Error := es_Error st; es_UpdatedAt := if es_UpdatedAt st =? 0 then now else es_UpdatedAt st |}.

Definition WriteEdgeTargetState (st : EdgeTargetState) : EdgeTargetState :=
  {| et_SchemaVersion := if String.eqb (et_SchemaVersion st) "" then EdgeTargetSchemaVersion else et_SchemaVersion st;
     et_Kind := et_Kind st; et_TargetAddr := et_TargetAddr st; et_PID := et_PID st; et_OwnerUID := et_OwnerUID st;
     et_OwnerGID := et_OwnerGID st; et_ProcessStart := et_ProcessStart st; et_Executable := et_Executable st;
     et_UpdatedAt := if et_UpdatedAt st =? 0 then now else et_UpdatedAt st |}.

(** [processAlive]: the process answers a signal and is not a zombie. *)
Variable signal_zero : Z -> bool.
Variable ps_stat : Z -> option string.
Variable goos : string.

Definition processZombie (pid : Z) : bool :=
  if String.eqb goos "darwin" || String.eqb goos "linux" then
    match ps_stat pid with
    | None => false
    | Some out => Strings.HasPrefix (Strings.TrimSpace out) "Z"
    end
  else false.

Definition processAlive (pid : Z) : bool :=
  if pid <=? 0 then false else if signal_zero pid then negb (processZombie pid) else false.

Definition EdgeStateRunning (st : EdgeState) : bool :=
  if negb (String.eqb (es_Kind st) EdgeKindCaddy) || negb (String.eqb (es_Status st) EdgeStatusRunning) || (es_PID st <=? 0)
  then false else processAlive (es_PID st).

Definition readEdgeToken (file : option string) : string := Strings.TrimSpace (default "" file).

(** *** The server *)
Definition normalizeBackend (b : Backend) : Backend :=
  let network := Strings.TrimSpace (Network b) in
  let network := if String.eqb network "" then "tcp" else network in
  let addr := Strings.TrimSpace (Addr b) in
  if String.eqb addr "" then {| Network := ""; Addr := "" |} else {| Network := network; Addr := addr |}.

(** [net.Listen] on TCP: the address it listens on, or the error. *)
Variable listen_tcp : string -> outcome string string.

Definition listenRouter (addr : string) : outcome string string :=
  match listen_tcp addr with
  | Ret actual => Ret actual
  | Fail err =>
    if negb (String.eqb (Strings.TrimSpace addr) defaultRouterAddr)
    then Fail ("listen scenery agent router at " +:+ addr
               +:+ " failed; choose a different --router-listen address or free that port: " +:+ err)
    else match listen_tcp "127.0.0.1:0" with
    | Ret actual => Ret actual
    | _ => Fail err
    end
  | Panic m => Panic m
  end.

(** Listening on the control socket: whether an agent answers there, and what
    removing a stale socket, creating its directory and listening answer. *)
Record socket_world := {
  ping : bool;
  remove_socket : option string;
  socket_dir : option string;
  listen_socket : option string
}.

Definition removeStaleSocket (path : string) (sw : socket_world) : outcome string unit :=
  if ping sw then Fail ("scenery agent already listening at " +:+ path)
  else match remove_socket sw with Some msg => Fail msg | None => Ret tt end.

Definition listenUnixSocket (path : string) (sw : socket_world) : outcome string unit :=
  if String.eqb (Strings.TrimSpace path) "" then Fail "agent socket path is empty"
  else match socket_dir sw with
  | Some msg => Fail msg
  | None =>
    removeStaleSocket path sw ;;
    match listen_socket sw with Some msg => Fail msg | None => Ret tt end
  end.

Record RunOptions := {
  ro_Home : string;
  ro_SocketPath : string;
  ro_RouterAddr : string;
  ro_RouterTLS : bool;
  ro_InstallTrust : bool;
  ro_DashboardBackend : Backend
}.

(** The files an agent reads when it starts. *)
Record files := {
  edge_file : outcome string (option EdgeState);
  edge_token_file : option string;
  registry_file : outcome string (option registryFile)
}.

Definition filepath_Dir (p : string) : string :=
  let parts := Strings.Split p "/" in
  Filepath.Clean (if (length parts <=? 1)%nat then ""
                  else Strings.Join (removelast parts) "/" +:+ "/").

(** [LoadOrCreateLocalCA]; installing its trust only logs its failures. *)
Variable local_ca : outcome string unit.

Definition NewServer (opts : RunOptions) (fs : Paths -> files) (sw : socket_world) : outcome string Server :=
  p ← (if negb (String.eqb (ro_Home opts) "") then Ret (PathsForHome (ro_Home opts)) else DefaultPaths);
  let p := if String.eqb (ro_SocketPath opts) "" then p
           else let sock := Filepath.Clean (ro_SocketPath opts) in
                {| Home := Home p; RunDir := filepath_Dir sock; AgentDir := AgentDir p; EdgeDir := EdgeDir p;
                   SocketPath := sock; StatePath := StatePath p; EdgeStatePath := EdgeStatePath p;
                   EdgeTokenPath := EdgeTokenPath p; EdgeTargetPath := EdgeTargetPath p;
                   EdgeConfigPath := EdgeConfigPath p; EdgeLogPath := EdgeLogPath p;
                   RegistryPath := RegistryPath p; AgentLogPath := AgentLogPath p |} in
  EnsureDirs p ;;
  let addr := Strings.TrimSpace (ro_RouterAddr opts) in
  let addr := if String.eqb addr "" then RouterAddrFromEnv else addr in
  let routerTLS := ro_RouterTLS opts || RouterTLSFromEnv in
  let scheme := if routerTLS then "https" else "http" in
  actual ← listenRouter addr;
  (if routerTLS then local_ca else Ret tt) ;;
  let edgeState := match LoadEdgeState (edge_file (fs p)) with Ret (Some st) => Some st | _ => None end in
  let active := match edgeState with
                | Some st => if EdgeStateRunning st && negb (String.eqb (es_PublicAddr st) "") then Some st else None
                | None => None end in
  let publicAddr := match active with Some st => es_PublicAddr st | None => actual end in
  let routeScheme := match active with
                     | Some st => if String.eqb (es_PublicScheme st) "" then scheme else es_PublicScheme st
                     | None => scheme end in
  r ← OpenRegistry publicAddr [routeScheme] (registry_file (fs p));
  listenUnixSocket (SocketPath p) sw ;;
  Ret {| paths := p; registry := r; routerAddr := actual; publicRouterAddr := publicAddr; routerScheme := routeScheme;
         internalRouterScheme := scheme; edge := active; edgeToken := readEdgeToken (edge_token_file (fs p));
         dashboard := normalizeBackend (ro_DashboardBackend opts) |}.

(** What [writeState] writes. *)
Definition writeState (s : Server) : State :=
  {| st_SchemaVersion := StateSchemaVersion; st_PID := getpid; st_SocketPath := SocketPath (paths s);
     st_RouterAddr := routerAddr s; st_PublicRouterAddr := publicRouterAddr s; st_RouterScheme := routerScheme s;
     st_Edge := edge s; st_UpdatedAt := now |}.
End startup.

(** ** The paths a frontend serves *)
Lemma Clean_rooted p : Strings.HasPrefix p "/" = true -> Strings.HasPrefix (Filepath.Clean p) "/" = true.
Proof.
  intros Hp. unfold Filepath.Clean. destruct (String.eqb_spec p "") as [->|]; [done|].
  unfold Filepath.IsAbs. rewrite Hp. apply Strings.HasPrefix_iff. eauto.
Qed.

Lemma cleanRequestPath_rooted p : Strings.HasPrefix (cleanRequestPath p) "/" = true.
Proof.
  unfold cleanRequestPath. destruct (String.eqb p ""); [done|]. apply Clean_rooted.
  destruct (Strings.HasPrefix p "/") eqn:E; [done|]. apply Strings.HasPrefix_iff. eauto.
Qed.

Lemma cleanRequestPath_idemp p : cleanRequestPath (cleanRequestPath p) = cleanRequestPath p.
Proof.
  unfold cleanRequestPath at 1. rewrite cleanRequestPath_rooted.
  destruct (String.eqb_spec (cleanRequestPath p) "") as [E|].
  { pose proof (cleanRequestPath_rooted p) as H. by rewrite E in H. }
  unfold cleanRequestPath. destruct (String.eqb p ""); [done|]. apply Filepath.Clean_idemp.
Qed.

Lemma isProtectedFrontendPath_clean p : isProtectedFrontendPath (cleanRequestPath p) = isProtectedFrontendPath p.
Proof. unfold isProtectedFrontendPath. by rewrite cleanRequestPath_idemp. Qed.

(** ** Which backend a request reaches *)
Definition sent_to (s : Server) (req : Request) (b : Backend) (out : Outgoing) : Prop :=
  out_network out = (if String.eqb (Network b) "unix" then "unix" else "tcp")
  /\ out_addr out = Addr b /\ out_host out = Host req
  /\ Http.Get (out_header out) "X-Forwarded-Host" = Host req
  /\ Http.Get (out_header out) "X-Forwarded-Proto" = forwardedProto s req
  /\ Http.Get (out_header out) "X-Forwarded-Port" = forwardedPort s req.

Lemma director_sent s req b opts : sent_to s req b (director s req b opts).
Proof.
  unfold sent_to, director. simpl. repeat split.
  - rewrite !Http.Get_Set_ne by header_ne. apply Http.Get_Set_eq.
  - rewrite Http.Get_Set_ne by header_ne. apply Http.Get_Set_eq.
  - apply Http.Get_Set_eq.
Qed.

Lemma proxy_sent s req b opts out : out ∈ (proxyBackendWithOptions s req b opts).2 -> sent_to s req b out.
Proof.
  pose proof (director_sent s req b opts) as Hd. unfold proxyBackendWithOptions.
  destruct (roundTrip _) as [resp|e]; simpl; [|by intros ->%list_elem_of_singleton].
  destruct (_ && _); simpl; [|by intros ->%list_elem_of_singleton].
  destruct (roundTrip _); simpl; rewrite elem_of_cons, list_elem_of_singleton; by intros [-> | ->].
Qed.

(** The backend the router may contact for a request to the route [kind] of a
    session. *)
Definition backend_for (s : Server) (req : Request) (session : Session) (kind : string) (b : Backend) : Prop :=
  (kind = RouteDashboard /\
     ((Addr (dashboard s) <> "" /\ b = dashboard s)
      \/ (Addr (dashboard s) = "" /\ Backends session !! RouteDashboard = Some b)))
  \/ (kind <> RouteDashboard /\ isFrontendSessionBackend kind = false /\ Backends session !! kind = Some b)
  \/ (isFrontendSessionBackend kind = true /\ isProtectedFrontendPath (Path req) = false
        /\ Backends session !! kind = Some b)
  \/ (isFrontendSessionBackend kind = true /\ cleanRequestPath (Path req) = "/__scenery/config"
        /\ is_Some (Backends session !! kind) /\ Backends session !! RouteAPI = Some b).

Lemma handleFrontendRoute_sent s req session kind backend out :
  isFrontendSessionBackend kind = true -> Backends session !! kind = Some backend ->
  out ∈ (handleFrontendRoute s req session backend).2 ->
  exists b, backend_for s req session kind b /\ sent_to s req b out.
Proof.
  intros Hk Hb. unfold handleFrontendRoute. destruct (String.eqb_spec (cleanRequestPath (Path req)) "/__scenery/config") as [Ec|_].
  - destruct (Backends session !! RouteAPI) as [api|] eqn:Ea; [|by intros ?%not_elem_of_nil].
    intros Hout%proxy_sent. exists api. split; [|done]. do 3 right. eauto.
  - rewrite isProtectedFrontendPath_clean.
    destruct (isProtectedFrontendPath (Path req)) eqn:Ep; [by intros ?%not_elem_of_nil|].
    intros Hout%proxy_sent. exists backend. split; [|done]. right; right; left. done.
Qed.


(** ** Forwarding headers *)
Definition from_loopback (req : Request) : Prop :=
  exists host ip,
    host = match Net.SplitHostPort (Strings.TrimSpace (RemoteAddr req)) with
           | Some (h, _) => h | None => Strings.TrimSpace (RemoteAddr req) end
    /\ Net.ParseIP host = Some ip /\ Net.IsLoopback ip = true.

Lemma trustedEdgeRequest_spec s req :
  trustedEdgeRequest s req = true <->
  Strings.TrimSpace (edgeToken s) <> "" /\ Http.Get (req_header req) "X-Scenery-Edge-Token" = edgeToken s
  /\ from_loopback req.
Proof.
  unfold trustedEdgeRequest, from_loopback.
  destruct (String.eqb_spec (Strings.TrimSpace (edgeToken s)) "") as [->|H1]; [naive_solver|].
  destruct (String.eqb_spec (Http.Get (req_header req) "X-Scenery-Edge-Token") (edgeToken s)) as [->|H2]; simpl; [|naive_solver].
  destruct (Net.ParseIP _) as [ip|] eqn:Ei; [|naive_solver]. split.
  - intros Hl. split_and!; [done..|]. by eexists _, ip.
  - intros (_ & _ & host & ip' & -> & Hip & Hl). congruence.
Qed.

(** A client cannot forge the scheme or the port a backend is told: unless the
    request carries the agent's own non-blank edge token and comes from a loopback
    address, the forwarded scheme is that of the connection and the forwarded port
    the one of the Host header, or the default of the scheme. *)
Theorem forwarded_untrusted s req out :
  out ∈ (routerMux s req).2 ->
  ~ (Strings.TrimSpace (edgeToken s) <> "" /\ Http.Get (req_header req) "X-Scenery-Edge-Token" = edgeToken s
     /\ from_loopback req) ->
  Http.Get (out_header out) "X-Forwarded-Proto" = (if TLS req then "https" else "http")
  /\ Http.Get (out_header out) "X-Forwarded-Port" =
       match Net.SplitHostPort (Strings.TrimSpace (Host req)) with
       | Some (_, String c p) => String c p
       | _ => if TLS req then "443" else "80"
       end.
Proof.
  intros Hout Hno. assert (exists b, sent_to s req b out) as (b & _ & _ & _ & _ & Hproto & Hport).
  { revert Hout. unfold routerMux. destruct (String.eqb _ _); [by intros ?%not_elem_of_nil|].
    destruct (routeTargetForHost _ _) as [[session kind]|]; [|by intros ?%not_elem_of_nil].
    unfold handleConsole, handleFrontendRoute.
    repeat (case_match; try by intros ?%not_elem_of_nil); intros ?%proxy_sent; eauto. }
  rewrite Hproto, Hport. unfold forwardedProto, forwardedPort.
  destruct (trustedEdgeRequest s req) eqn:Et; [by apply trustedEdgeRequest_spec in Et|]. simpl.
  split; [done|]. destruct (Net.SplitHostPort _) as [[h [|c p]]|]; done.
Qed.

(** The agent vouches for a name, 204 from the TLS question, exactly when a GET
    or HEAD asks about a host that is routed to a registered session whose recorded
    owner is a running process with a matching fingerprint. *)
Theorem handleTLSAllow_spec s req :
  rs_status (handleTLSAllow s req) = 204 <->
  (Method req = "GET" \/ Method req = "HEAD")
  /\ exists session kind, routeTargetForHost s (normalizeRouteRequestHost (query_get req "domain")) = Some (session, kind)
     /\ 0 < firstPositive [OwnerPID session; PID (SessionOwner session)]
     /\ VerifyOwner (if PID (SessionOwner session) <=? 0
                     then set_PID (SessionOwner session) (firstPositive [OwnerPID session; PID (SessionOwner session)])
                     else SessionOwner session) = true.
Proof.
  unfold handleTLSAllow. destruct (negb _ && negb _) eqn:Em.
  { simpl. split; [done|]. intros [[E|E] _]; by rewrite E in Em. }
  assert (Method req = "GET" \/ Method req = "HEAD") as Hm.
  { destruct (String.eqb_spec (Method req) "GET"); [by left|].
    destruct (String.eqb_spec (Method req) "HEAD"); [by right|done]. }
  set (domain := normalizeRouteRequestHost (query_get req "domain")).
  unfold tlsAllowedHost, sessionOwnerVerifies.
  destruct (String.eqb_spec domain "") as [E|Hne].
  { simpl. split; [done|]. intros (_ & session & kind & Ht & _). by rewrite E in Ht. }
  destruct (routeTargetForHost s domain) as [[session kind]|] eqn:Et; cbn [orb]; [|simpl; naive_solver].
  set (pid := firstPositive _). destruct (Z.leb_spec pid 0).
  { split; [done|]. intros (_ & x & y & Hx & Hpos & _). injection Hx as <- <-. fold pid in Hpos. lia. }
  destruct (VerifyOwner _) eqn:Ev; cbn [negb].
  - split; [|done]. intros _. split; [done|]. eauto.
  - split; [done|]. intros (_ & x & y & Hx & _ & Hv). injection Hx as <- <-. fold pid in Hv. congruence.
Qed.
End server.

(** ** Components and their owners *)
Section owners.
Context {UT : UnicodeTables} {W : World} {MO : MapOrder W}.

Lemma OwnerFromRequest_PID pid owner by_ : 0 < pid -> PID (OwnerFromRequest pid owner by_) = pid.
Proof.
  intros Hpid. unfold OwnerFromRequest.
  destruct ((0 <? pid) && (0 <? PID owner) && negb (PID owner =? pid)) eqn:Ec.
  - simpl. destruct (Z.leb_spec pid 0); [lia|done].
  - destruct (Z.leb_spec (PID owner) 0); cbn [PID set_PID].
    + destruct (Z.leb_spec pid 0); [lia|done].
    + destruct (Z.leb_spec (PID owner) 0); [lia|]. cbn [PID].
      destruct (Z.ltb_spec 0 pid), (Z.ltb_spec 0 (PID owner)), (Z.eqb_spec (PID owner) pid); simpl in Ec; try lia; done.
Qed.

(** The owner [ownerForSignal] gives is verified, and is that of the effective
    process id. *)
Lemma ownerForSignal_Some pid owner o :
  ownerForSignal pid owner = Some o ->
  VerifyOwner o = true /\ 0 < PID o /\ PID o = firstPositive [pid; PID owner].
Proof.
  unfold ownerForSignal. cbn [firstPositive].
  set (o1 := if _ && _ && _ then no_owner else owner). set (o2 := if PID o1 <=? 0 then set_PID o1 pid else o1).
  destruct (Z.leb_spec (PID o2) 0) as [|Hpos]; [done|].
  destruct (VerifyOwner o2) eqn:Ev; [|done]. intros [= <-]. split; [done|]. split; [done|].
  clear Ev. revert Hpos. subst o2 o1.
  destruct (Z.ltb_spec 0 pid), (Z.ltb_spec 0 (PID owner)), (Z.eqb_spec (PID owner) pid); cbn [andb negb PID no_owner];
    repeat match goal with |- context [?a <=? 0] => destruct (Z.leb_spec a 0) end; cbn [PID set_PID no_owner]; lia.
Qed.

Lemma ownerForSignal_same pid owner :
  0 < pid -> PID owner = pid -> ownerForSignal pid owner = if VerifyOwner owner then Some owner else None.
Proof.
  intros Hpos <-. unfold ownerForSignal. rewrite Z.eqb_refl, andb_false_r.
  destruct (Z.leb_spec (PID owner) 0); [lia|]. by destruct (Z.leb_spec (PID owner) 0); [lia|].
Qed.

(** Every component of a substrate has an owner with its process id. *)
Definition components_owned (sub : Substrate) : Prop :=
  forall name pid, PIDs sub !! name = Some pid -> 0 < pid ->
    exists o, Owners sub !! name = Some o /\ PID o = pid.

Definition owned (r : Registry.Registry) : Prop := map_Forall (fun _ sub => components_owned sub) (substrates r).

Lemma owners_fold kind current (l : list (string * Z)) (m : gmap string Owner) name pid :
  NoDup (map fst l) -> 0 < pid ->
  (name, pid) ∈ l \/ ((name ∉ map fst l) /\ exists o, m !! name = Some o /\ PID o = pid) ->
  exists o, (fold_left (fun owners '(name, pid) =>
    if pid <=? 0 then owners
    else
      let owner := default no_owner (owners !! name) in
      let owner := match current with
                   | Some c => if PID owner =? 0 then
                                 match Owners c !! name with
                                 | Some e => if PID e =? pid then e else owner
                                 | None => owner
                                 end
                               else owner
                   | None => owner end in
      let owner := OwnerFromRequest pid owner ("scenery substrate " +:+ kind +:+ "." +:+ name) in
      if 0 <? PID owner then <[name := owner]> owners else owners) l m) !! name = Some o /\ PID o = pid.
Proof.
  intros Hnd Hpid. revert m. induction l as [|[n p] l IH]; intros m H; simpl.
  { destruct H as [H%not_elem_of_nil|[_ H]]; done. }
  simpl in Hnd. apply NoDup_cons in Hnd as [Hn Hnd]. apply IH; [done|].
  rewrite elem_of_cons in H. destruct H as [[[= <- <-]|H]|[H Ho]]; [right|by left|right].
  - split; [done|]. destruct (Z.leb_spec pid 0); [lia|]. cbv zeta.
    rewrite OwnerFromRequest_PID by done. destruct (Z.ltb_spec 0 pid); [|lia].
    rewrite lookup_insert_eq. eexists. split; [done|]. by apply OwnerFromRequest_PID.
  - simpl in H. apply not_elem_of_cons in H as [Hne H]. split; [done|].
    destruct (Z.leb_spec p 0); [done|]. cbv zeta. destruct (0 <? _); [|done]. by rewrite lookup_insert_ne.
Qed.

Lemma ownersForSubstrate_owned kind pids requested current name pid :
  pids !! name = Some pid -> 0 < pid ->
  exists o, ownersForSubstrate kind pids requested current !! name = Some o /\ PID o = pid.
Proof.
  intros Hp Hpid. unfold ownersForSubstrate. apply owners_fold; [|done|].
  - change (map fst (iterate pids)) with ((iterate pids).*1). rewrite (iterate_perm Z pids). apply NoDup_fst_map_to_list.
  - left. by apply elem_of_iterate.
Qed.

Lemma UpsertSubstrate_owned r req save res r' :
  owned r -> UpsertSubstrate r req save = (res, r') -> owned r'.
Proof.
  intros Hr. unfold UpsertSubstrate. destruct (String.eqb _ ""); [by intros [= _ <-]|]. cbv zeta.
  destruct (save _); intros [= _ <-]; apply map_Forall_insert_2; try done;
    intros name pid Hp Hpid; by apply ownersForSubstrate_owned.
Qed.

Lemma DeleteSubstrate_owned r kind save res r' :
  owned r -> DeleteSubstrate r kind save = (res, r') -> owned r'.
Proof.
  intros Hr. unfold DeleteSubstrate. destruct (substrates r !! _); [|by intros [= _ <-]].
  destruct (save _); intros [= _ <-]; by apply map_Forall_delete.
Qed.

Lemma Upsert_substrates r req save manifest res r' :
  inv r -> Upsert r req save manifest = (res, r') -> substrates r' = substrates r.
Proof.
  intros Hinv. unfold Upsert.
  destruct (NormalizeSessionID _) as [requested|e|m]; [|by intros [= <- <-]..].
  destruct (NewSession _ _ _ _) as [s|e|m]; [|by intros [= <- <-]..].
  destruct (match sessions r !! _ with Some e => _ | None => false end); [by intros [= <- <-]|].
  destruct (blockingAppRootSessionLocked r s); [by intros [= <- <-]|].
  destruct (claimAliasesLocked r s (ClaimAliases req)) as [[als cs] r1] eqn:Hcl.
  destruct (claimAliases_inv _ _ _ _ _ _ (inv_keys _ Hinv) Hcl) as (_ & (_ & _ & Hsub & _) & _).
  destruct (save _); [|destruct (manifest _)]; intros [= <- <-]; simpl; done.
Qed.

Lemma delete_substrates r id ownerPID owner strict save res r' :
  delete_session r id ownerPID owner strict save = (res, r') -> substrates r' = substrates r.
Proof.
  intros [->|(s & _ & _ & _ & -> & _)]%delete_session_cases; [done|].
  simpl. unfold without_session. by case_bool_decide.
Qed.
End owners.

Lemma reachable_owned {UT : UnicodeTables} addr sch r : reachable addr sch r -> owned r.
Proof.
  intros Hr. cut (inv r /\ owned r); [by intros []|].
  assert (inv (empty_registry addr sch) /\ owned (empty_registry addr sch)) as H0
    by (split; [apply empty_inv|apply map_Forall_empty]).
  revert H0. induction Hr as [r|r1 r2 r3 Hs _ IH]; [done|]. intros [Hi Ho]. apply IH.
  split; [by eapply step_inv|]. unfold owned in *.
  destruct Hs as [W MO req save manifest res r' Hc Hu|W MO id pid owner strict save res r' Hd
    |W MO req save res r' Hu|W kind save res r' Hd].
  - by rewrite (Upsert_substrates _ _ _ _ _ _ Hi Hu).
  - by rewrite (delete_substrates _ _ _ _ _ _ _ _ Hd).
  - by eapply UpsertSubstrate_owned.
  - by eapply DeleteSubstrate_owned.
Qed.

Section safety.
Context {UT : UnicodeTables} {W : World} {MO : MapOrder W}.

Lemma elem_of_ListSubstrates r sub : sub ∈ ListSubstrates r <-> exists kind, substrates r !! kind = Some sub.
Proof.
  unfold ListSubstrates, sortedSubstrates. rewrite sort_stable_perm, list_elem_of_fmap. split.
  - intros ([kind x] & -> & Hx). apply elem_of_iterate in Hx. by exists kind.
  - intros [kind Hs]. exists (kind, sub). split; [done|]. by apply elem_of_iterate.
Qed.


(** What a deletion may interrupt. *)
Lemma signalled_verified req session pid :
  pid ∈ signalled req session ->
  query_get req "signal" = "1" /\ pid = session_pid session /\ 0 < pid
  /\ exists owner, PID owner = pid /\ VerifyOwner owner = true.
Proof.
  unfold signalled. destruct (String.eqb_spec (query_get req "signal") "1") as [Es|]; [|by intros ?%not_elem_of_nil].
  destruct (_ || _); cbn [andb]; [|by intros ?%not_elem_of_nil].
  destruct (ownerForSignal _ _) as [owner|] eqn:Eo; [|by intros ?%not_elem_of_nil].
  apply ownerForSignal_Some in Eo as (Hv & Hpos & Epid). intros ->%list_elem_of_singleton.
  split_and!; [done..|]. by exists owner.
Qed.

Section control.
Variable decode_register : string -> RegisterRequest + string.
Variable decode_substrate : string -> UpsertSubstrateRequest + string.
Variable save : Registry.Registry -> option string.
Variable manifest : Session -> option string.
Variable error_text : agent_error -> string.

(** What every control request guarantees. *)
Definition control_ok (s : Server) (req : Request) (res : control_result) : Prop :=
  let '(_, r, pids) := res in
  (r = registry s \/ step (registry s) r)
  /\ (Method req = "GET" -> r = registry s /\ pids = [])
  /\ (forall pid, pid ∈ pids -> Method req = "DELETE" /\ query_get req "signal" = "1"
        /\ exists id session owner, sessions (registry s) !! id = Some session /\ sessions r !! id = None
           /\ pid = session_pid session /\ PID owner = pid /\ VerifyOwner owner = true).

Lemma unchanged_ok s req resp : control_ok s req (unchanged s resp).
Proof. split; [by left|]. split; [done|]. by intros pid ?%not_elem_of_nil. Qed.

Lemma quiet_ok s req resp r : Method req <> "GET" -> step (registry s) r -> control_ok s req (resp, r, []).
Proof. intros Hm Hs. split; [by right|]. split; [done|]. by intros pid ?%not_elem_of_nil. Qed.

Hypothesis canonical : forall body register, decode_register body = inl register -> canonical_request register.

Lemma handleSessions_ok s req : control_ok s req (handleSessions decode_register save manifest error_text s req).
Proof.
  unfold handleSessions. destruct (String.eqb_spec (Method req) "GET"); [apply unchanged_ok|].
  destruct (String.eqb _ _); [|apply unchanged_ok].
  destruct (decode_register (Body req)) as [reg|e] eqn:Ed; [|apply unchanged_ok].
  destruct (Upsert _ _ _ _) as [res r] eqn:Eu.
  assert (step (registry s) r) as Hs by exact (step_upsert _ W MO _ _ _ _ _ (canonical _ _ Ed) Eu).
  destruct res; by apply quiet_ok.
Qed.

Lemma handleSubstrates_ok s req : control_ok s req (handleSubstrates decode_substrate save error_text s req).
Proof.
  unfold handleSubstrates. destruct (String.eqb_spec (Method req) "GET"); [apply unchanged_ok|].
  destruct (String.eqb _ _); [|apply unchanged_ok].
  destruct (decode_substrate (Body req)) as [up|e] eqn:Ed; [|apply unchanged_ok].
  destruct (UpsertSubstrate _ _ _) as [res r] eqn:Eu.
  assert (step (registry s) r) as Hs by exact (step_upsert_substrate _ W MO _ _ _ _ Eu).
  destruct res; by apply quiet_ok.
Qed.

Lemma handleSubstrate_ok s req : control_ok s req (handleSubstrate save error_text s req).
Proof.
  unfold handleSubstrate. cbv zeta. destruct (String.eqb _ _); [apply unchanged_ok|].
  destruct (String.eqb_spec (Method req) "GET"); [destruct (GetSubstrate _ _); apply unchanged_ok|].
  destruct (String.eqb _ _); [|apply unchanged_ok].
  destruct (DeleteSubstrate _ _ _) as [res r] eqn:Eu.
  assert (step (registry s) r) as Hs by exact (step_delete_substrate _ W _ _ _ _ Eu).
  destruct res as [[[sub|] []]|e|m]; by apply quiet_ok.
Qed.

Lemma handleSession_ok s req : control_ok s req (handleSession save error_text s req).
Proof.
  unfold handleSession. cbv zeta. destruct (String.eqb _ _); [apply unchanged_ok|].
  destruct (String.eqb_spec (Method req) "GET"); [destruct (Get _ _); apply unchanged_ok|].
  destruct (String.eqb_spec (Method req) "DELETE") as [Hm|]; [|apply unchanged_ok].
  destruct (requested_owner_pid req) as [pid|]; [|apply unchanged_ok].
  destruct (DeleteOwnedIdentity _ _ _ _ _ _) as [res r] eqn:Ed.
  assert (step (registry s) r) as Hs by exact (step_delete _ W MO _ _ _ _ _ _ _ Ed).
  destruct res as [[session ok]|e|m]; [|by apply quiet_ok..]. unfold delete_result.
  destruct (_ && _); [by apply quiet_ok|]. destruct ok; [|by apply quiet_ok].
  split; [by right|]. split; [done|]. intros p Hp. split; [done|].
  unfold DeleteOwnedIdentity in Ed. pose proof Ed as Hc.
  apply delete_session_cases in Hc as [->|(x & Hx & _ & _ & -> & [[= ->]|[msg ?]])]; [|simpl in Hp|done].
  - exfalso. revert Ed. unfold delete_session. clear Hs.
    destruct (sessions (registry s) !! _) as [y|] eqn:Ey; [|by intros [= ? ?]].
    destruct (_ && _); [by intros [= ? ?]|]. destruct (_ && _); [by intros [= ? ?]|].
    cbv zeta. destruct (save _); [by intros [= ? ?]|]. intros [= _ E].
    apply (f_equal (fun r => sessions r !! Strings.TrimSpace (path_id req "/v1/sessions/"))) in E. revert E.
    case_bool_decide; simpl; rewrite lookup_delete_eq, Ey; done.
  - apply signalled_verified in Hp as (Hsig & -> & _ & owner & Epid & Hv). split; [done|].
    exists (Strings.TrimSpace (path_id req "/v1/sessions/")), x, owner. split_and!; try done.
    simpl. unfold without_session. case_bool_decide; simpl; by rewrite lookup_delete_eq.
Qed.

End control.
End safety.

(** ** The theorems on a concrete machine *)
#[local] Existing Instance ascii_tables.
#[local] Existing Instance demo_world.
#[local] Existing Instance demo_order.

Definition web_req : RegisterRequest :=
  {| req_BaseAppID := "notes"; req_AppRoot := "/src/a"; req_SessionID := "one"; req_Branch := ""; req_Status := "";
     req_OwnerPID := 100; req_Owner := no_owner; req_AppPID := ""; req_Processes := ∅;
     req_Backends := <["web" := {| Network := "tcp"; Addr := "127.0.0.1:5173" |}]>
                     {["api" := {| Network := "unix"; Addr := "/run/api.sock" |}]};
     req_Namespace := {| Workspace := ""; BaseDomain := ""; Hosts := {["web" := "web.notes.dev"]} |};
     req_ReportToken := ""; ClaimOwner := false; ClaimAliases := false |}.

Definition temporal_req : UpsertSubstrateRequest :=
  {| us_Kind := "Temporal"; us_Status := ""; us_OwnerPID := 100; us_Owner := no_owner;
     us_PIDs := <["gone" := 200]> {["server" := 100]}; us_Owners := ∅; us_URLs := ∅; us_Endpoints := ∅;
     us_LastExit := None; us_ComponentExits := ∅ |}.

Definition web_registry : Registry.Registry :=
  (Upsert (empty_registry "127.0.0.1:9440" "http") web_req saved written).2.
Definition full_registry : Registry.Registry := (UpsertSubstrate web_registry temporal_req saved).2.

Lemma full_reachable : reachable "127.0.0.1:9440" "http" full_registry.
Proof.
  eapply rtc_l; [|eapply rtc_l; [|apply rtc_refl]].
  - apply (step_upsert _ demo_world demo_order web_req saved written
             (Upsert (empty_registry "127.0.0.1:9440" "http") web_req saved written).1 web_registry).
    + right. vm_compute. discriminate.
    + vm_compute. reflexivity.
  - apply (step_upsert_substrate _ demo_world demo_order temporal_req saved
             (UpsertSubstrate web_registry temporal_req saved).1).
    vm_compute. reflexivity.
Qed.

Definition no_paths : Paths :=
  {| Home := ""; RunDir := ""; AgentDir := ""; EdgeDir := ""; SocketPath := ""; StatePath := ""; EdgeStatePath := "";
     EdgeTokenPath := ""; EdgeTargetPath := ""; EdgeConfigPath := ""; EdgeLogPath := ""; RegistryPath := "";
     AgentLogPath := "" |}.

Definition demo_server : Server :=
  {| paths := no_paths; registry := full_registry; routerAddr := "127.0.0.1:9440"; publicRouterAddr := "";
     routerScheme := "http"; internalRouterScheme := "http"; edge := None; edgeToken := "secret";
     dashboard := {| Network := ""; Addr := "" |} |}.

Definition demo_get (method host path : string) (query : gmap string (list string)) (header : Http.Header) : Request :=
  {| Method := method; Host := host; URLHost := ""; Path := path; Query := query; RawQuery := ""; req_header := header;
     TLS := false; RemoteAddr := "192.0.2.7:5000"; Body := "" |}.

(** A backend that answers every request. *)
Definition answering (out : Outgoing) : Response + transport_error :=
  inl {| rs_status := 200; rs_header := []; rs_body := Stream (out_addr out) |}.

Example router_examples :
  map (fun path => map (fun o => (out_addr o, out_path o))
                     (routerMux answering demo_server (demo_get "GET" "Web.Notes.dev:9440" path ∅ [])).2)
    ["/x"; "/__scenery/config"; "/a/../api/v1"; "/apix"]
  = [[("127.0.0.1:5173", "/x")]; [("/run/api.sock", "/__scenery/config")]; []; [("127.0.0.1:5173", "/apix")]].
Proof. vm_compute. reflexivity. Qed.

Example tls_allow_examples :
  map (fun domain => rs_status (handleTLSAllow demo_server (demo_get "GET" "x" "/v1/tls/allow" {["domain" := [domain]]} [])))
    ["web.notes.dev"; "WEB.notes.dev.:443"; "evil.dev"; ""] = [204; 204; 404; 404].
Proof. vm_compute. reflexivity. Qed.

Definition config_request : Request :=
  demo_get "GET" "web.notes.dev" "/__scenery/config" ∅ [("X-Forwarded-Proto", ["https"])].


Lemma forwarded_untrusted_witness :
  exists out, out ∈ (routerMux answering demo_server config_request).2
    /\ Http.Get (out_header out) "X-Forwarded-Proto" = "http" /\ Http.Get (out_header out) "X-Forwarded-Port" = "80".
Proof.
  destruct (routerMux answering demo_server config_request).2 as [|out l] eqn:Eo; [vm_compute in Eo; discriminate Eo|].
  exists out. split; [left|].
  destruct (forwarded_untrusted answering demo_server config_request out) as [Hproto Hport].
  - rewrite Eo. left.
  - intros (_ & Htoken & _). vm_compute in Htoken. discriminate Htoken.
  - split; [exact Hproto|exact Hport].
Defined.


Definition delete_request : Request :=
  demo_get "DELETE" "agent" "/v1/sessions/one" (<["signal" := ["1"]]> {["owner_pid" := ["100"]]}) [].

Definition decoding (body : string) : RegisterRequest + string := inl web_req.
Definition not_decoding (body : string) : UpsertSubstrateRequest + string := inr body.

End AgentServer.
