(* ===== verification/AuthTokens.v ===== *)
(** * Tokens, passwords and cookies of standard authentication
    ([auth/standard_tokens.go], [standard_passwords.go], [standard_jwt.go],
    [standard_helpers.go], [standard_mail.go])

    [Base64] and [Url] are the parts of the standard library these files use.
    [AuthTokens] models the text formats: refresh tokens, password hashes,
    access tokens, cookies and redirect targets.  UUIDs, Argon2, SHA-256, JSON
    web tokens and the parser of mail addresses are code of other packages: they
    are the fields of [AuthLib]; what is relied on is stated where it is used.
    The texts of errors are abbreviated: what they quote is left out. *)
From stdpp Require Import base tactics list gmap strings.
From Stdlib Require Import ZArith Lia Ascii.
From S2P Require Import Prelude GoStrings WireCodec Middleware Http Errs.

(** ** Base64 without padding *)
Module Base64.
Inductive alphabet := Std | Url.

Definition char_of (a : alphabet) (n : Z) : ascii :=
  if n <? 26 then chr (65 + n)
  else if n <? 52 then chr (71 + n)
  else if n <? 62 then chr (n - 4)
  else if n =? 62 then match a with Std => "+" | Url => "-" end
  else match a with Std => "/" | Url => "_" end%char.

Definition value_of (a : alphabet) (c : ascii) : option Z :=
  let n := code c in
  if in_range 65 90 n then Some (n - 65)
  else if in_range 97 122 n then Some (n - 71)
  else if in_range 48 57 n then Some (n + 4)
  else if Ascii.eqb c (char_of a 62) then Some 62
  else if Ascii.eqb c (char_of a 63) then Some 63
  else None.

Fixpoint EncodeToString (a : alphabet) (s : string) : string :=
  match s with
  | String x (String y (String z rest)) =>
    let v := code x * 65536 + code y * 256 + code z in
    String (char_of a (v / 262144)) (String (char_of a (v / 4096 mod 64))
      (String (char_of a (v / 64 mod 64)) (String (char_of a (v mod 64)) (EncodeToString a rest))))
  | String x (String y EmptyString) =>
    let v := code x * 256 + code y in
    String (char_of a (v / 1024)) (String (char_of a (v / 16 mod 64)) (String (char_of a (v mod 16 * 4)) ""))
  | String x EmptyString =>
    String (char_of a (code x / 4)) (String (char_of a (code x mod 4 * 16)) "")
  | EmptyString => ""
  end.

(** The values of the characters; line breaks are ignored. *)
Fixpoint values (a : alphabet) (s : string) : option (list Z) :=
  match s with
  | EmptyString => Some []
  | String c s' =>
    if (code c =? 10) || (code c =? 13) then values a s'
    else match value_of a c, values a s' with
    | Some v, Some vs => Some (v :: vs)
    | _, _ => None
    end
  end.

Fixpoint decode_values (vs : list Z) : option string :=
  match vs with
  | w :: x :: y :: z :: rest =>
    match decode_values rest with
    | None => None
    | Some s => Some (String (chr (w * 4 + x / 16)) (String (chr (x mod 16 * 16 + y / 4)) (String (chr (y mod 4 * 64 + z)) s)))
    end
  | [w; x; y] => Some (String (chr (w * 4 + x / 16)) (String (chr (x mod 16 * 16 + y / 4)) ""))
  | [w; x] => Some (String (chr (w * 4 + x / 16)) "")
  | [_] => None
  | [] => Some ""
  end.

Definition DecodeString (a : alphabet) (s : string) : option string :=
  match values a s with Some vs => decode_values vs | None => None end.

(** The characters of the alphabet. *)
Definition base64_char (a : alphabet) (c : ascii) : bool :=
  match value_of a c with Some _ => true | None => false end.

Lemma char_value a n : 0 <= n < 64 -> value_of a (char_of a n) = Some n.
Proof.
  intros Hn. assert (forallb (fun n => bool_decide (value_of a (char_of a (Z.of_nat n)) = Some (Z.of_nat n))) (seq 0 64) = true) as H
    by (destruct a; vm_compute; reflexivity).
  rewrite forallb_forall in H. specialize (H (Z.to_nat n)). rewrite Z2Nat.id in H by lia.
  assert (In (Z.to_nat n) (seq 0 64)) as Hin by (rewrite in_seq; lia). specialize (H Hin). by case_bool_decide.
Qed.

Lemma char_plain a n : 0 <= n < 64 -> (code (char_of a n) =? 10) || (code (char_of a n) =? 13) = false.
Proof.
  intros Hn. assert (forallb (fun n => negb ((code (char_of a (Z.of_nat n)) =? 10) || (code (char_of a (Z.of_nat n)) =? 13))) (seq 0 64) = true) as H
    by (destruct a; vm_compute; reflexivity).
  rewrite forallb_forall in H. specialize (H (Z.to_nat n)). rewrite Z2Nat.id in H by lia.
  assert (In (Z.to_nat n) (seq 0 64)) as Hin by (rewrite in_seq; lia). by apply negb_true_iff, H.
Qed.

Lemma values_char a n s : 0 <= n < 64 -> values a (String (char_of a n) s) = (fun vs => n :: vs) <$> values a s.
Proof. intros Hn. cbn [values]. rewrite char_plain, char_value by done. by destruct (values a s). Qed.

(** Induction by steps of three bytes. *)
Lemma triple_ind (P : string -> Prop) :
  P "" -> (forall x, P (String x "")) -> (forall x y, P (String x (String y ""))) ->
  (forall x y z s, P s -> P (String x (String y (String z s)))) -> forall s, P s.
Proof.
  intros H0 H1 H2 H3 s. induction s as [s IH] using Strings.string_length_ind.
  destruct s as [|x [|y [|z s]]]; [done..|]. apply H3, IH. simpl. lia.
Qed.

Lemma chr_eq n c : n = code c -> chr n = c.
Proof. intros ->. apply Wire.chr_code. Qed.

Lemma Decode_Encode_base64 a s : DecodeString a (EncodeToString a s) = Some s.
Proof.
  unfold DecodeString. cut (exists vs, values a (EncodeToString a s) = Some vs /\ decode_values vs = Some s).
  { by intros (vs & -> & ->). }
  induction s as [|x|x y|x y z s (vs & Hv & Hd)] using triple_ind; cbn [EncodeToString].
  - by exists [].
  - pose proof (Wire.code_bound x). eexists. rewrite !values_char by divlia. split; [reflexivity|].
    simpl. do 2 f_equal. apply chr_eq. divlia.
  - pose proof (Wire.code_bound x). pose proof (Wire.code_bound y). eexists. rewrite !values_char by divlia.
    split; [reflexivity|]. simpl. do 2 f_equal; [apply chr_eq; divlia|]. f_equal. apply chr_eq. divlia.
  - pose proof (Wire.code_bound x). pose proof (Wire.code_bound y). pose proof (Wire.code_bound z).
    eexists. rewrite !values_char by divlia. rewrite Hv. split; [reflexivity|]. cbn [decode_values fmap option_fmap option_map].
    rewrite Hd. f_equal. f_equal; [apply chr_eq; divlia|]. f_equal; [apply chr_eq; divlia|].
    f_equal. apply chr_eq. divlia.
Qed.

Lemma base64_char_of a n : 0 <= n < 64 -> base64_char a (char_of a n) = true.
Proof. intros Hn. unfold base64_char. by rewrite char_value. Qed.

Lemma Encode_chars a s : Strings.all_bytes (base64_char a) (EncodeToString a s) = true.
Proof.
  induction s as [|x|x y|x y z s IH] using triple_ind; cbn [EncodeToString]; [done|..].
  - pose proof (Wire.code_bound x). cbn [Strings.all_bytes]. rewrite !base64_char_of by divlia. done.
  - pose proof (Wire.code_bound x). pose proof (Wire.code_bound y). cbn [Strings.all_bytes]. rewrite !base64_char_of by divlia. done.
  - pose proof (Wire.code_bound x). pose proof (Wire.code_bound y). pose proof (Wire.code_bound z).
    cbn [Strings.all_bytes]. rewrite !base64_char_of by divlia. done.
Qed.

(** No character of the alphabet is white space, a dollar sign or a dot. *)
Definition token_char (c : ascii) : bool :=
  Strings.visible c && negb (Ascii.eqb c "$") && negb (Ascii.eqb c ".").

Lemma base64_token_char a c : base64_char a c = true -> token_char c = true.
Proof. destruct a, c as [[] [] [] [] [] [] [] []]; vm_compute; first [discriminate 1|reflexivity]. Qed.

Lemma Encode_token_chars a s : Strings.all_bytes token_char (EncodeToString a s) = true.
Proof. eapply Strings.all_bytes_impl; [apply base64_token_char|apply Encode_chars]. Qed.

Lemma Encode_empty a s : EncodeToString a s = "" <-> s = "".
Proof. by destruct s as [|x [|y [|z s]]]. Qed.
End Base64.

(** ** [url.Values.Encode] *)
Module UrlValues.
Definition hex_upper (n : Z) : ascii := if n <? 10 then chr (48 + n) else chr (55 + n).

Definition unreserved (c : ascii) : bool :=
  let n := code c in
  in_range 48 57 n || in_range 65 90 n || in_range 97 122 n || Strings.has_byte c "-_.~".

Fixpoint QueryEscape (s : string) : string :=
  match s with
  | EmptyString => ""
  | String c s' =>
    if unreserved c then String c (QueryEscape s')
    else if Ascii.eqb c " " then String "+" (QueryEscape s')
    else String "%" (String (hex_upper (code c / 16)) (String (hex_upper (code c mod 16)) (QueryEscape s')))
  end.

(** The pairs are given sorted by key. *)
Definition Encode (pairs : list (string * string)) : string :=
  Strings.Join (map (fun '(k, v) => QueryEscape k +:+ "=" +:+ QueryEscape v) pairs) "&".
End UrlValues.

Module AuthTokens.
Import Base64.

Definition nanosecond_per_second : Z := 1000000000.
Definition minute : Z := 60 * nanosecond_per_second.
Definition hour : Z := 60 * minute.
Definition defaultAccessTokenTTL : Z := 15 * minute.
Definition defaultRefreshSessionTTL : Z := 30 * 24 * hour.
Definition defaultImpersonationTTL : Z := 30 * minute.
Definition defaultPasswordResetTTL : Z := 30 * minute.
Definition defaultEmailVerificationTTL : Z := 24 * hour.
Definition defaultInviteTTL : Z := 7 * 24 * hour.
Definition defaultOAuthStateTTL : Z := 10 * minute.
Definition refreshTokenReplayGrace : Z := 30 * nanosecond_per_second.

(** The claims of an access token; times in seconds. *)
Record accessTokenClaims := {
  Subject : string;
  claim_TenantID : string;
  claim_SessionID : string;
  ActorSubject : string;
  claim_ImpersonationID : string;
  IssuedAt : Z;
  ExpiresAt : Z
}.

(** Code of other packages. *)
Class AuthLib := {
  (** [uuid.UUID.String] and [pgtype.UUID.Scan] *)
  uuid_text : Z -> string;
  scan_uuid : string -> option Z;
  (** [argon2.IDKey]: password, salt, time, memory, threads, key length *)
  IDKey : string -> string -> Z -> Z -> Z -> Z -> string;
  sha256_sum : string -> string;
  (** [jwt] with HS256: signing with a secret, and parsing with the current time,
      the secret and a required expiry *)
  jwt_sign : accessTokenClaims -> string -> string;
  jwt_parse : Z -> string -> string -> option accessTokenClaims;
  (** the address of [mail.ParseAddress] *)
  ParseAddress : string -> option string
}.

(** UUIDs are printed in lower-case hexadecimal with dashes, and scanning reads
    back what was printed. *)
Definition uuid_char (c : ascii) : bool := in_range 48 57 (code c) || in_range 97 102 (code c) || Ascii.eqb c "-".

Class UuidLaws (L : AuthLib) : Prop := {
  scan_text : forall u, scan_uuid (uuid_text u) = Some u;
  text_chars : forall u, Strings.all_bytes uuid_char (uuid_text u) = true;
  text_nonempty : forall u, uuid_text u <> ""
}.

(** [secrets] and the settings of the runtime. *)
Class AuthConfig := {
  JWTSecret : string;
  PublicAppURL : string;
  APIBaseURL : string;
  AuthCookieDomain : string;
  AuthEmailFrom : string;
  GoogleOAuthClientID : string;
  GoogleOAuthClientSecret : string;
  refreshCookieName : string;
  isLocalRuntime : bool
}.

Section tokens.
Context {UT : UnicodeTables} {L : AuthLib} {C : AuthConfig}.

(** ** UUIDs; an invalid one is [None] *)
Definition parseUUID (value : string) : option Z := scan_uuid (Strings.TrimSpace value).

Definition nullableUUID (value : string) : outcome string (option Z) :=
  let value := Strings.TrimSpace value in
  if String.eqb value "" then Ret None
  else match parseUUID value with Some u => Ret (Some u) | None => Fail "invalid uuid" end.

Definition uuidString (id : option Z) : string := match id with Some u => uuid_text u | None => "" end.

(** ** Refresh tokens *)
(** The random bytes are an argument. *)
Definition newRandomToken (raw : string) : string := EncodeToString Url raw.

Definition tokenHash (token : string) : string := EncodeToString Url (sha256_sum (Strings.TrimSpace token)).

Definition newRefreshToken (sessionID : Z) (raw : string) : string := uuid_text sessionID +:+ "." +:+ newRandomToken raw.

Definition parseRefreshToken (token : string) : option Z :=
  match Strings.cut_opt (Strings.TrimSpace token) "." with
  | None => None
  | Some (sessionID, _) =>
    if String.eqb (Strings.TrimSpace sessionID) "" then None else parseUUID sessionID
  end.

(** ** Passwords *)
Definition argonTime : Z := 2.
Definition argonMemory : Z := 64 * 1024.
Definition argonThreads : Z := 1.
Definition argonKeyLen : Z := 32.

Definition validatePassword (password : string) : option string :=
  if (String.length password <? 10)%nat then Some "password must be at least 10 characters"
  else if (1024 <? String.length password)%nat then Some "password must be at most 1024 characters"
  else None.

Definition hashPassword (salt password : string) : outcome string string :=
  match validatePassword password with
  | Some msg => Fail msg
  | None =>
    let hash := IDKey password salt argonTime argonMemory argonThreads argonKeyLen in
    Ret ("$argon2id$v=19$m=" +:+ Strconv.Itoa argonMemory +:+ ",t=" +:+ Strconv.Itoa argonTime +:+ ",p="
         +:+ Strconv.Itoa argonThreads +:+ "$" +:+ EncodeToString Std salt +:+ "$" +:+ EncodeToString Std hash)
  end.

Record argonParams := { memory : Z; time : Z; threads : Z }.

Fixpoint argon_loop (parts : list string) (out : argonParams) : outcome string argonParams :=
  match parts with
  | [] => Ret out
  | part :: parts =>
    match Strings.cut_opt part "=" with
    | None => Fail "invalid password hash parameters"
    | Some (key, raw) =>
      match Strconv.ParseUint raw 32 with
      | Ret parsed =>
        if String.eqb key "m" then argon_loop parts {| memory := parsed; time := time out; threads := threads out |}
        else if String.eqb key "t" then argon_loop parts {| memory := memory out; time := parsed; threads := threads out |}
        else if String.eqb key "p" then
          if 255 <? parsed then Fail "invalid password parallelism"
          else argon_loop parts {| memory := memory out; time := time out; threads := parsed |}
        else Fail ("unknown password hash parameter " +:+ key)
      | _ => Fail ("invalid password hash parameter " +:+ key)
      end
    end
  end.

Definition parseArgonParams (value : string) : outcome string argonParams :=
  out ← argon_loop (Strings.Split value ",") {| memory := 0; time := 0; threads := 0 |};
  if (memory out =? 0) || (time out =? 0) || (threads out =? 0) then Fail "incomplete password hash parameters" else Ret out.

Definition parsePHCPasswordHash (encoded : string) : outcome string (argonParams * string * string) :=
  match Strings.Split (Strings.TrimSpace encoded) "$" with
  | [_; alg; version; p; s; h] =>
    if negb (String.eqb alg "argon2id") || negb (String.eqb version "v=19") then Fail "unsupported password hash"
    else
      params ← parseArgonParams p;
      match DecodeString Std s with
      | None => Fail "decode password salt"
      | Some salt =>
        match DecodeString Std h with
        | None => Fail "decode password hash"
        | Some hash =>
          if String.eqb salt "" || String.eqb hash "" then Fail "invalid password hash" else Ret (params, salt, hash)
        end
      end
  | _ => Fail "unsupported password hash"
  end.

(** Whether the password fits, and whether its hash should be renewed. *)
Definition verifyPassword (password encoded : string) : outcome string (bool * bool) :=
  '(params, salt, expected) ← parsePHCPasswordHash encoded;
  let len := Z.of_nat (String.length expected) in
  let actual := IDKey password salt (time params) (memory params) (threads params) (wrap_uint 32 len) in
  Ret (String.eqb actual expected,
       negb (time params =? argonTime) || negb (memory params =? argonMemory) || negb (threads params =? argonThreads)
       || negb (len =? argonKeyLen)).

(** ** Access tokens *)
Record AuthData := {
  UserID : string;
  TenantID : string;
  SessionID : string;
  ActorUserID : string;
  ImpersonationID : string
}.

Definition Impersonating (d : AuthData) : bool := negb (String.eqb (Strings.TrimSpace (ActorUserID d)) "").

Record AccessTokenOptions := {
  opt_data : AuthData;
  ExpiresIn : Z;
  Now : option Z
}.

(** [wall] is [time.Now]; the zero time is [None]. *)
Definition GenerateAccessToken (wall : Z) (o : AccessTokenOptions) : outcome string string :=
  let now := default wall (Now o) in
  let expiresIn := if ExpiresIn o =? 0 then defaultAccessTokenTTL else ExpiresIn o in
  if String.eqb (Strings.TrimSpace JWTSecret) "" then Fail "JWTSecret is not configured"
  else
    let userID := Strings.TrimSpace (UserID (opt_data o)) in
    let tenantID := Strings.TrimSpace (TenantID (opt_data o)) in
    if String.eqb userID "" then Fail "user id is required"
    else if String.eqb tenantID "" then Fail "tenant id is required"
    else Ret (jwt_sign
      {| Subject := userID; claim_TenantID := tenantID; claim_SessionID := Strings.TrimSpace (SessionID (opt_data o));
         ActorSubject := Strings.TrimSpace (ActorUserID (opt_data o));
         claim_ImpersonationID := Strings.TrimSpace (ImpersonationID (opt_data o));
         IssuedAt := now / nanosecond_per_second; ExpiresAt := (now + expiresIn) / nanosecond_per_second |} JWTSecret).

Definition GenerateToken (wall : Z) (uid tid : string) (expiresIn : Z) : outcome string string :=
  GenerateAccessToken wall
    {| opt_data := {| UserID := uid; TenantID := tid; SessionID := ""; ActorUserID := ""; ImpersonationID := "" |};
       ExpiresIn := expiresIn; Now := None |}.

Definition ValidateToken (wall : Z) (token : string) : outcome string AuthData :=
  if String.eqb (Strings.TrimSpace JWTSecret) "" then Fail "invalid token: JWTSecret is not configured"
  else match jwt_parse wall JWTSecret (Strings.TrimSpace token) with
  | None => Fail "invalid token"
  | Some claims =>
    let sub := Strings.TrimSpace (Subject claims) in
    let tenantID := Strings.TrimSpace (claim_TenantID claims) in
    if String.eqb sub "" then Fail "token missing subject claim"
    else if String.eqb tenantID "" then Fail "token missing tenant_id claim"
    else Ret {| UserID := sub; TenantID := tenantID; SessionID := Strings.TrimSpace (claim_SessionID claims);
                ActorUserID := Strings.TrimSpace (ActorSubject claims);
                ImpersonationID := Strings.TrimSpace (claim_ImpersonationID claims) |}
  end.

(** ** Emails, names and redirects *)
Definition has_line_break (s : string) : bool :=
  Strings.has_byte "013" s || Strings.has_byte "010" s || Strings.has_byte "000" s.

Definition normalizeEmail (value : string) : outcome string string :=
  let value := Strings.TrimSpace value in
  if String.eqb value "" then Fail "email is required"
  else match ParseAddress value with
  | None => Fail "email is invalid"
  | Some address =>
    let normalized := Strings.ToLower (Strings.TrimSpace address) in
    if String.eqb normalized "" || has_line_break normalized then Fail "email is invalid" else Ret normalized
  end.

Definition displayEmail (value : string) : string := Strings.TrimSpace value.

Definition defaultDisplayName (email explicit : string) : string :=
  let value := Strings.TrimSpace explicit in
  if negb (String.eqb value "") then value
  else match Strings.cut_opt (Strings.TrimSpace email) "@" with
  | None => "User"
  | Some (local, _) => if String.eqb (Strings.TrimSpace local) "" then "User" else Strings.TrimSpace local
  end.

Definition defaultWorkspaceName (displayName : string) : string :=
  let name := Strings.TrimSpace displayName in
  let name := if String.eqb name "" then "My" else name in
  if Strings.EqualFold name "my" then "My Workspace" else name +:+ " Workspace".

Definition safeRedirectPath (value : string) : string :=
  let value := Strings.TrimSpace value in
  if String.eqb value "" || negb (Strings.HasPrefix value "/") || Strings.HasPrefix value "//" then "/" else value.

Definition appRedirectURL (path : string) : string :=
  let base := Strings.TrimRightSet (Ascii.eqb "/") (Strings.TrimSpace PublicAppURL) in
  let base := if String.eqb base "" then "https://app.scenery.localhost" else base in
  base +:+ safeRedirectPath path.

(** ** Headers of the current request *)
Definition requestUserAgent (h : Http.Header) : string := Strings.TrimSpace (Http.Get h "User-Agent").

Definition requestIPHash (h : Http.Header) : string :=
  let value := Strings.TrimSpace (Http.Get h "X-Forwarded-For") in
  let value := if String.eqb value "" then value
               else Strings.TrimSpace (match Strings.cut_opt value "," with Some (first, _) => first | None => value end) in
  let value := if String.eqb value "" then Strings.TrimSpace (Http.Get h "X-Real-IP") else value in
  let value := match Net.SplitHostPort value with Some (host, _) => host | None => value end in
  if String.eqb value "" then "" else EncodeToString Url (sha256_sum value).

Definition isHTTPSURL (value : string) : bool := Strings.HasPrefix (Strings.ToLower (Strings.TrimSpace value)) "https://".
Definition isForwardedHTTPS (h : Http.Header) : bool :=
  Strings.EqualFold (Strings.TrimSpace (Http.Get h "X-Forwarded-Proto")) "https".
Definition isHTTPSOrigin (h : Http.Header) : bool := isHTTPSURL (Http.Get h "Origin").

Definition refreshCookieSecure (localRuntime : bool) (h : Http.Header) (apiBaseURL : string) : bool :=
  if localRuntime && (isForwardedHTTPS h || isHTTPSOrigin h || isHTTPSURL apiBaseURL) then true else negb localRuntime.

(** A cookie; [http.Cookie.String] prints it. *)
Record Cookie := {
  cookie_Name : string;
  cookie_Value : string;
  cookie_Path : string;
  cookie_Expires : Z;
  cookie_MaxAge : Z;
  HttpOnly : bool;
  Secure : bool;
  SameSiteLax : bool;
  Domain : string
}.

Definition refreshCookie (wall : Z) (h : Http.Header) (value : string) (expiresAt : Z) : Cookie :=
  {| cookie_Name := refreshCookieName; cookie_Value := Strings.TrimSpace value; cookie_Path := "/auth"; cookie_Expires := expiresAt;
     cookie_MaxAge := Z.quot (expiresAt - wall) nanosecond_per_second; HttpOnly := true;
     Secure := refreshCookieSecure isLocalRuntime h APIBaseURL; SameSiteLax := true;
     Domain := Strings.TrimSpace AuthCookieDomain |}.

Definition clearRefreshCookie (h : Http.Header) : Cookie :=
  {| cookie_Name := refreshCookieName; cookie_Value := ""; cookie_Path := "/auth"; cookie_Expires := 0; cookie_MaxAge := -1;
     HttpOnly := true; Secure := refreshCookieSecure isLocalRuntime h APIBaseURL; SameSiteLax := true;
     Domain := Strings.TrimSpace AuthCookieDomain |}.

(** ** Mails *)
Record EmailMessage := { From : string; To : list string; Subject_ : string; Text_ : string }.

Definition authEmail (to subject action link : string) : list EmailMessage :=
  let from := Strings.TrimSpace AuthEmailFrom in
  if String.eqb from "" then []
  else [{| From := from; To := [Strings.TrimSpace to]; Subject_ := subject;
           Text_ := "Open this link to " +:+ action +:+ ": " +:+ link |}].

Definition sendVerificationEmail (email token redirectPath : string) : list EmailMessage :=
  authEmail email "Verify your email" "verify your email"
    (appRedirectURL ("/verify-email?" +:+ UrlValues.Encode [("redirect_path", safeRedirectPath redirectPath); ("token", token)])).
Definition sendPasswordResetEmail (email token : string) : list EmailMessage :=
  authEmail email "Reset your password" "reset your password"
    (appRedirectURL ("/reset-password?" +:+ UrlValues.Encode [("token", token)])).
Definition sendInviteEmail (email token : string) : list EmailMessage :=
  authEmail email "You have been invited" "accept your invite"
    (appRedirectURL ("/accept-invite?" +:+ UrlValues.Encode [("token", token)])).

(** ** Correctness *)
Lemma cut_dot a b : Strings.has_byte "." a = false -> Strings.cut_opt (a +:+ "." +:+ b) "." = Some (a, b).
Proof.
  induction a as [|c a IH]; cbn [Strings.has_byte]; [by destruct b|]. rewrite orb_false_iff. intros [Hc Ha].
  rewrite (Strings.string_app_cons c a). cbn [Strings.cut_opt]. rewrite (IH Ha).
  destruct (Strings.HasPrefix _ _) eqn:E; [|done]. apply Strings.HasPrefix_iff in E as [r E].
  rewrite Strings.string_app_cons in E. injection E as -> _. by rewrite Ascii.eqb_refl in Hc.
Qed.

Lemma uuid_char_visible c : uuid_char c = true -> Strings.visible c = true.
Proof. destruct c as [[] [] [] [] [] [] [] []]; vm_compute; first [discriminate 1|reflexivity]. Qed.

Lemma token_char_visible c : token_char c = true -> Strings.visible c = true.
Proof. unfold token_char. rewrite !andb_true_iff. by intros [[? _] _]. Qed.

Lemma Encode_visible a s : Strings.all_bytes Strings.visible (EncodeToString a s) = true.
Proof. eapply Strings.all_bytes_impl; [apply token_char_visible|apply Encode_token_chars]. Qed.

Section uuids.
Context `{!UuidLaws L}.

Lemma uuid_text_visible u : Strings.all_bytes Strings.visible (uuid_text u) = true.
Proof. eapply Strings.all_bytes_impl; [apply uuid_char_visible|apply text_chars]. Qed.

Lemma uuid_text_trim u : Strings.TrimSpace (uuid_text u) = uuid_text u.
Proof. apply Strings.TrimSpace_visible, uuid_text_visible. Qed.

Lemma parse_uuidString u : parseUUID (uuidString (Some u)) = Some u.
Proof. unfold parseUUID. simpl. by rewrite uuid_text_trim, scan_text. Qed.

Lemma newRefreshToken_visible u raw : Strings.all_bytes Strings.visible (newRefreshToken u raw) = true.
Proof.
  unfold newRefreshToken. rewrite !Strings.all_bytes_app, uuid_text_visible. simpl. apply Encode_visible.
Qed.

(** A refresh token names its session. *)
Lemma parse_newRefreshToken u raw : parseRefreshToken (newRefreshToken u raw) = Some u.
Proof.
  unfold parseRefreshToken. rewrite Strings.TrimSpace_visible by apply newRefreshToken_visible.
  unfold newRefreshToken. rewrite cut_dot by (eapply Strings.all_bytes_no_byte; [|apply text_chars]; done).
  rewrite uuid_text_trim, (proj2 (String.eqb_neq _ _)) by apply text_nonempty. apply parse_uuidString.
Qed.
End uuids.

(** *** Passwords *)
Definition argon_text : string :=
  "m=" +:+ Strconv.Itoa argonMemory +:+ ",t=" +:+ Strconv.Itoa argonTime +:+ ",p=" +:+ Strconv.Itoa argonThreads.

Lemma hashPassword_join salt password h :
  hashPassword salt password = Ret h ->
  validatePassword password = None /\
  h = Strings.Join [""; "argon2id"; "v=19"; argon_text; EncodeToString Std salt;
                    EncodeToString Std (IDKey password salt argonTime argonMemory argonThreads argonKeyLen)] "$".
Proof. unfold hashPassword. destruct (validatePassword password); [done|]. by intros [= <-]. Qed.

Lemma token_char_dollar s : Strings.has_byte "$" (EncodeToString Std s) = false.
Proof. eapply Strings.all_bytes_no_byte; [|apply (Encode_token_chars Std)]; done. Qed.

(** A hash that is printed is read back. *)
Lemma parse_hash salt hash :
  salt <> "" -> hash <> "" ->
  parsePHCPasswordHash (Strings.Join [""; "argon2id"; "v=19"; argon_text; EncodeToString Std salt; EncodeToString Std hash] "$") =
  Ret ({| memory := argonMemory; time := argonTime; threads := argonThreads |}, salt, hash).
Proof.
  intros Hs Hh. unfold parsePHCPasswordHash. rewrite Strings.TrimSpace_visible.
  - rewrite Strings.Split_Join; [|done|].
    + change (parseArgonParams argon_text) with (Ret (E := string) {| memory := argonMemory; time := argonTime; threads := argonThreads |}).
      rewrite !Decode_Encode_base64. cbn. by rewrite !(proj2 (String.eqb_neq _ _)).
    + repeat constructor; try apply token_char_dollar; reflexivity.
  - cbn [Strings.Join]. rewrite !Strings.all_bytes_app, !Encode_visible. reflexivity.
Qed.

(** What [argon2.IDKey] documents: the key has the requested length. *)
Definition IDKey_length_ok : Prop := forall p s t m th n, Z.of_nat (String.length (IDKey p s t m th n)) = Z.max 0 n.

(** C. The hash made for a password is accepted for that password and needs no
    renewal, and another password is accepted exactly when Argon2 derives the
    same key for it from the same salt. *)
Theorem verify_hashPassword (Hlen : IDKey_length_ok) (salt password h : string)
    (Hsalt : salt <> "") (Hh : hashPassword salt password = Ret h) :
  verifyPassword password h = Ret (true, false) /\
  (forall other, verifyPassword other h =
     Ret (String.eqb (IDKey other salt argonTime argonMemory argonThreads argonKeyLen)
                     (IDKey password salt argonTime argonMemory argonThreads argonKeyLen), false)).
Proof.
  apply hashPassword_join in Hh as [_ ->].
  set (k := IDKey password salt argonTime argonMemory argonThreads argonKeyLen).
  assert (Z.of_nat (String.length k) = argonKeyLen) as Hk by apply Hlen.
  assert (k <> "") as Hne by (intros E; rewrite E in Hk; done).
  cut (forall other, verifyPassword other (Strings.Join [""; "argon2id"; "v=19"; argon_text; EncodeToString Std salt; EncodeToString Std k] "$") =
     Ret (String.eqb (IDKey other salt argonTime argonMemory argonThreads argonKeyLen) k, false)).
  { intros H. split; [|done]. rewrite H. unfold k. by rewrite String.eqb_refl. }
  intros other. unfold verifyPassword. rewrite parse_hash by done. cbn [mbind outcome_bind]. by rewrite Hk.
Qed.

(** [argon2.IDKey] panics when the number of passes or of threads is zero; the
    parameters of an accepted hash are within their widths and not zero. *)
Definition params_ok (p : argonParams) : Prop :=
  0 <= memory p < 2 ^ 32 /\ 0 <= time p < 2 ^ 32 /\ 0 <= threads p <= 255.

Lemma argon_loop_bounds parts out res : argon_loop parts out = Ret res -> params_ok out -> params_ok res.
Proof.
  revert out. induction parts as [|part parts IH]; cbn [argon_loop]; intros out; [by intros [= ->]|].
  destruct (Strings.cut_opt part "=") as [[key raw]|]; [|done].
  destruct (Strconv.ParseUint raw 32) as [n|e|] eqn:En; [|done..].
  apply Strconv.ParseUint_bounds in En; [|done]. intros E (? & ? & ?). revert E.
  repeat case_match; try done; intros E; eapply IH; try exact E; unfold params_ok; simpl; lia.
Qed.

Lemma parsePHC_bounds encoded params salt hash :
  parsePHCPasswordHash encoded = Ret (params, salt, hash) ->
  params_ok params /\ 0 < memory params /\ 0 < time params /\ 0 < threads params /\ salt <> "" /\ hash <> "".
Proof.
  unfold parsePHCPasswordHash.
  destruct (Strings.Split _ _) as [|a [|b [|c [|d [|e [|f [|]]]]]]]; try done.
  case_match; [done|]. unfold parseArgonParams.
  destruct (argon_loop _ _) as [out| |] eqn:El; [|done..]. cbn [mbind outcome_bind].
  apply argon_loop_bounds in El; [|by unfold params_ok; simpl; lia].
  destruct ((memory out =? 0) || _ || _) eqn:Ez; [done|]. rewrite !orb_false_iff, !Z.eqb_neq in Ez. cbn.
  destruct (DecodeString Std e); [|done]. destruct (DecodeString Std f); [|done].
  destruct (String.eqb _ _ || _) eqn:Ee; [done|]. rewrite orb_false_iff, !String.eqb_neq in Ee.
  intros [= <- <- <-]. destruct El as (? & ? & ?). repeat split; try tauto; lia.
Qed.

(** *** Access tokens *)
Definition plain_claims (c : accessTokenClaims) : bool :=
  forallb (Strings.all_bytes Strings.visible)
    [Subject c; claim_TenantID c; claim_SessionID c; ActorSubject c; claim_ImpersonationID c].

Definition plain_data (d : AuthData) : bool :=
  forallb (Strings.all_bytes Strings.visible) [UserID d; TenantID d; SessionID d; ActorUserID d; ImpersonationID d].

(** What the token library documents: a signed token is visible text, and
    parsing it with its secret gives the claims back until they expire. *)
Class JwtLaws : Prop := {
  sign_visible : forall c k, Strings.all_bytes Strings.visible (jwt_sign c k) = true;
  parse_sign : forall t c k, plain_claims c = true ->
    jwt_parse t k (jwt_sign c k) = if t <? ExpiresAt c * nanosecond_per_second then Some c else None
}.

(** C. An access token carries exactly the identity it was made for, from when it
    is made until its expiry, which is the issuing time plus the life time rounded
    down to a second, and no longer. *)
Theorem ValidateToken_GenerateAccessToken (HJ : JwtLaws) (wall later : Z) (o : AccessTokenOptions)
    (Hsecret : Strings.TrimSpace JWTSecret <> "") (Hplain : plain_data (opt_data o) = true)
    (Huser : UserID (opt_data o) <> "") (Htenant : TenantID (opt_data o) <> "") :
  exists token, GenerateAccessToken wall o = Ret token /\
  let life := if ExpiresIn o =? 0 then defaultAccessTokenTTL else ExpiresIn o in
  let deadline := (default wall (Now o) + life) / nanosecond_per_second * nanosecond_per_second in
  ValidateToken later token = (if later <? deadline then Ret (opt_data o) else Fail "invalid token").
Proof.
  destruct o as [[u t s a i] e n]; cbn [opt_data ExpiresIn Now UserID TenantID SessionID ActorUserID ImpersonationID] in *.
  unfold plain_data in Hplain. cbn [forallb UserID TenantID SessionID ActorUserID ImpersonationID] in Hplain.
  rewrite !andb_true_iff in Hplain. destruct Hplain as (Hu & Ht & Hs & Ha & Hi & _).
  unfold GenerateAccessToken, ValidateToken. cbn [opt_data ExpiresIn Now UserID TenantID SessionID ActorUserID ImpersonationID].
  rewrite !(Strings.TrimSpace_visible u), !(Strings.TrimSpace_visible t), !(Strings.TrimSpace_visible s),
    !(Strings.TrimSpace_visible a), !(Strings.TrimSpace_visible i) by done.
  rewrite !(proj2 (String.eqb_neq _ _)) by done. eexists. split; [reflexivity|]. cbv zeta.
  rewrite (Strings.TrimSpace_visible (jwt_sign _ _)), parse_sign by
    (apply sign_visible || (unfold plain_claims; cbn; by rewrite Hu, Ht, Hs, Ha, Hi)).
  cbn [ExpiresAt]. destruct (later <? _); [|done].
  cbn [Subject claim_TenantID claim_SessionID ActorSubject claim_ImpersonationID].
  rewrite !(Strings.TrimSpace_visible u), !(Strings.TrimSpace_visible t), !(Strings.TrimSpace_visible s),
    !(Strings.TrimSpace_visible a), !(Strings.TrimSpace_visible i) by done.
  by rewrite !(proj2 (String.eqb_neq _ _)) by done.
Qed.

(** An accepted token names a user and a tenant. *)
Lemma ValidateToken_identity wall token d :
  ValidateToken wall token = Ret d -> UserID d <> "" /\ TenantID d <> "" /\ Strings.TrimSpace JWTSecret <> "".
Proof.
  unfold ValidateToken. destruct (String.eqb_spec (Strings.TrimSpace JWTSecret) ""); [done|].
  destruct (jwt_parse _ _ _) as [c|]; [|done].
  destruct (String.eqb_spec (Strings.TrimSpace (Subject c)) ""); [done|].
  destruct (String.eqb_spec (Strings.TrimSpace (claim_TenantID c)) ""); [done|]. by intros [= <-].
Qed.

(** A redirect stays on the host of the application: it is a path, and does not
    start with two slashes. *)
Lemma safeRedirectPath_path v :
  Strings.HasPrefix (safeRedirectPath v) "/" = true /\ Strings.HasPrefix (safeRedirectPath v) "//" = false /\
  safeRedirectPath (safeRedirectPath v) = safeRedirectPath v.
Proof.
  unfold safeRedirectPath. destruct (_ || _ || _) eqn:E; [done|].
  rewrite Strings.TrimSpace_idemp, E. rewrite !orb_false_iff, negb_false_iff in E. tauto.
Qed.

(** A refresh cookie is never sent in the clear outside a local run, and never
    readable by scripts. *)
Lemma refreshCookie_protected wall h value expiresAt :
  let c := refreshCookie wall h value expiresAt in
  HttpOnly c = true /\ (isLocalRuntime = false -> Secure c = true) /\ cookie_Path c = "/auth".
Proof.
  unfold refreshCookie, refreshCookieSecure. cbn. split_and!; [done| |done]. intros ->. done.
Qed.
End tokens.

(** ** An instance of the libraries, for examples *)
Fixpoint zeros (n : nat) : string := match n with O => "" | S n => String "0" (zeros n) end.

Definition sample_uuid_text (u : Z) : string := String (if u <? 0 then "-"%char else "0"%char) (zeros (Z.to_nat (Z.abs u))).
Definition sample_scan_uuid (s : string) : option Z :=
  match s with
  | EmptyString => None
  | String c s => Some (if Ascii.eqb c "-" then - Z.of_nat (String.length s) else Z.of_nat (String.length s))
  end.

(** A key of the requested length: the password repeated and cut. *)
Fixpoint sample_key (n : nat) (p rest : string) : string :=
  match n, rest with
  | O, _ => ""
  | S n, String c rest => String c (sample_key n p rest)
  | S n, EmptyString => match p with EmptyString => String "0" (sample_key n p "") | String c p' => String c (sample_key n p p') end
  end.

Definition sample_sign (c : accessTokenClaims) (k : string) : string :=
  Strings.Join [EncodeToString Url k; EncodeToString Url (Subject c); EncodeToString Url (claim_TenantID c);
    EncodeToString Url (claim_SessionID c); EncodeToString Url (ActorSubject c); EncodeToString Url (claim_ImpersonationID c);
    sample_uuid_text (IssuedAt c); sample_uuid_text (ExpiresAt c)] ".".

Definition sample_parse (t : Z) (k token : string) : option accessTokenClaims :=
  match Strings.Split token "." with
  | [k'; s; tn; sid; a; i; ia; ea] =>
    match DecodeString Url k', DecodeString Url s, DecodeString Url tn, DecodeString Url sid, DecodeString Url a,
          DecodeString Url i, sample_scan_uuid ia, sample_scan_uuid ea with
    | Some k', Some s, Some tn, Some sid, Some a, Some i, Some ia, Some ea =>
      if String.eqb k k' && (t <? ea * nanosecond_per_second) then
        Some {| Subject := s; claim_TenantID := tn; claim_SessionID := sid; ActorSubject := a;
                claim_ImpersonationID := i; IssuedAt := ia; ExpiresAt := ea |}
      else None
    | _, _, _, _, _, _, _, _ => None
    end
  | _ => None
  end.

Definition sample_lib : AuthLib := {|
  uuid_text := sample_uuid_text; scan_uuid := sample_scan_uuid;
  IDKey := fun p s t m th n => sample_key (Z.to_nat n) p p;
  sha256_sum := fun s => s; jwt_sign := sample_sign; jwt_parse := sample_parse; ParseAddress := fun s => Some s |}.

Definition sample_config : AuthConfig := {|
  JWTSecret := "secret"; PublicAppURL := "https://app.example"; APIBaseURL := "https://api.example"; AuthCookieDomain := "";
  AuthEmailFrom := "noreply@example"; GoogleOAuthClientID := "client"; GoogleOAuthClientSecret := "client-secret"; refreshCookieName := "refresh"; isLocalRuntime := false |}.

Lemma zeros_length n : String.length (zeros n) = n.
Proof. induction n; simpl; congruence. Qed.

Lemma sample_scan_text u : sample_scan_uuid (sample_uuid_text u) = Some u.
Proof. unfold sample_scan_uuid, sample_uuid_text. rewrite zeros_length. destruct (Z.ltb_spec u 0); simpl; f_equal; lia. Qed.

Lemma sample_text_chars u : Strings.all_bytes uuid_char (sample_uuid_text u) = true.
Proof.
  unfold sample_uuid_text. cbn [Strings.all_bytes]. destruct (u <? 0); simpl; induction (Z.to_nat (Z.abs u)); auto.
Qed.

Lemma sample_uuid_laws : UuidLaws sample_lib.
Proof. split; [apply sample_scan_text|apply sample_text_chars|done]. Qed.

Lemma sample_key_length n p rest : String.length (sample_key n p rest) = n.
Proof. revert rest. induction n as [|n IH]; intros rest; simpl; [done|]. destruct rest; [destruct p|]; simpl; by rewrite IH. Qed.

Lemma sample_IDKey_length : IDKey_length_ok (L := sample_lib).
Proof. intros p s t m th n. simpl. rewrite sample_key_length. lia. Qed.

Lemma sample_no_dot u : Strings.has_byte "." (sample_uuid_text u) = false.
Proof. eapply Strings.all_bytes_no_byte; [|apply sample_text_chars]; done. Qed.

Lemma encode_no_dot s : Strings.has_byte "." (EncodeToString Url s) = false.
Proof. eapply Strings.all_bytes_no_byte; [|apply (Encode_token_chars Url)]; done. Qed.

Lemma sample_jwt_laws : JwtLaws (L := sample_lib).
Proof.
  split.
  - intros c k. cbn [jwt_sign sample_lib]. unfold sample_sign. cbn [Strings.Join].
    assert (forall u, Strings.all_bytes Strings.visible (sample_uuid_text u) = true) as Hv.
    { intros u. eapply Strings.all_bytes_impl; [apply uuid_char_visible|apply sample_text_chars]. }
    rewrite !Strings.all_bytes_app, !Encode_visible, !Hv. reflexivity.
  - intros t c k _. cbn [jwt_sign jwt_parse sample_lib]. unfold sample_parse, sample_sign.
    rewrite Strings.Split_Join; [|done|repeat constructor; (apply encode_no_dot || apply sample_no_dot)].
    rewrite !Decode_Encode_base64, !sample_scan_text, String.eqb_refl. simpl. by destruct c.
Qed.

Definition sample_data : AuthData :=
  {| UserID := "u1"; TenantID := "t1"; SessionID := "s1"; ActorUserID := ""; ImpersonationID := "" |}.

Lemma verify_hashPassword_witness :
  exists h, hashPassword (L := sample_lib) "salt" "correct horse" = Ret h /\
  verifyPassword (L := sample_lib) "correct horse" h = Ret (true, false) /\
  verifyPassword (L := sample_lib) "wrong horse" h = Ret (false, false).
Proof.
  eexists. split; [vm_compute; reflexivity|].
  split.
  - apply (verify_hashPassword (L := sample_lib) sample_IDKey_length "salt"); [done|vm_compute; reflexivity].
  - etrans; [apply (verify_hashPassword (L := sample_lib) sample_IDKey_length "salt" "correct horse"); [done|vm_compute; reflexivity]|].
    vm_compute. reflexivity.
Defined.

Lemma ValidateToken_GenerateAccessToken_witness :
  exists token, GenerateAccessToken (L := sample_lib) (C := sample_config) 1000 {| opt_data := sample_data; ExpiresIn := 0; Now := None |} = Ret token /\
  ValidateToken (L := sample_lib) (C := sample_config) 2000 token = Ret sample_data /\
  ValidateToken (L := sample_lib) (C := sample_config) defaultAccessTokenTTL token = Fail "invalid token".
Proof.
  set (o := {| opt_data := sample_data; ExpiresIn := 0; Now := None |}).
  destruct (ValidateToken_GenerateAccessToken (L := sample_lib) (C := sample_config) sample_jwt_laws 1000 2000 o)
    as (token & Hg & Hv); [by vm_compute..|].
  destruct (ValidateToken_GenerateAccessToken (L := sample_lib) (C := sample_config) sample_jwt_laws 1000 defaultAccessTokenTTL o)
    as (token' & Hg' & Hv'); [by vm_compute..|].
  exists token. split; [exact Hg|]. split; [exact Hv|]. rewrite Hg' in Hg. injection Hg as <-. exact Hv'.
Defined.
End AuthTokens.
