(* ===== verification/AuthStore.v ===== *)
(** * The database of standard authentication ([auth/db])

    [AuthStore] holds the rows ([auth/db/gen/models.go]), the statements
    ([auth/db/gen/queries.sql.go], with the constraints of
    [auth/db/gen/schema.sql]) and the two monads in which the service runs them:
    [Q], the statements of one transaction, and [S], the operations of the
    service on committed data.

    A table maps the identifiers of its rows to the rows.  A statement that
    breaks a constraint or meets a failing connection aborts its transaction:
    every later statement fails and nothing is committed.  Failures, random
    identifiers and secrets, the clock of the process and the time of the
    database are an [Env], indexed by a counter that every use advances.
    Transactions are taken one after the other: interleavings below the
    isolation of the database are not modelled.  Times are nanoseconds;
    a stored one has the resolution of the database, a microsecond. *)
From stdpp Require Import base tactics list gmap strings.
From Stdlib Require Import ZArith Lia Ascii.
From S2P Require Import Prelude GoStrings Errs AuthTokens.

Module AuthStore.

(** [pgtype.UUID] and [pgtype.Timestamptz]: [None] is not valid. *)
Abbreviation UUID := (option Z).
Abbreviation Timestamptz := (option Z).

Definition stored_time (t : Z) : Z := t / 1000 * 1000.
Definition timestamptz (t : Z) : Timestamptz := Some (stored_time t).

(** ** Rows *)
Record User := {
  u_ID : Z;
  u_DisplayName : string;
  u_AvatarUrl : string;
  u_PrimaryEmail : string;
  u_NormalizedPrimaryEmail : string;
  u_EmailVerifiedAt : Timestamptz;
  u_DisabledAt : Timestamptz;
  u_CanImpersonateUsers : bool;
  u_CreatedAt : Z;
  u_UpdatedAt : Z
}.

Record Identity := {
  i_ID : Z;
  i_UserID : Z;
  i_Provider : string;
  i_ProviderSubject : string;
  i_Email : string;
  i_NormalizedEmail : string;
  i_PasswordHash : string;
  i_CreatedAt : Z;
  i_UpdatedAt : Z
}.

Record Tenant := {
  t_ID : Z;
  t_Name : string;
  t_DeletedAt : Timestamptz;
  t_CreatedAt : Z;
  t_UpdatedAt : Z
}.

Record Membership := {
  m_ID : Z;
  m_TenantID : Z;
  m_UserID : Z;
  m_Role : string;
  m_DisabledAt : Timestamptz;
  m_InvitedByUserID : UUID;
  m_InvitedAt : Timestamptz;
  m_CreatedAt : Z;
  m_UpdatedAt : Z
}.

(** The zero struct, which [Me] and [sessionForAuthData] use, has no ID. *)
Record RefreshSession := {
  s_ID : UUID;
  s_UserID : UUID;
  s_TokenHash : string;
  s_PreviousTokenHash : string;
  s_PreviousTokenExpiresAt : Timestamptz;
  s_ActiveTenantID : UUID;
  s_ExpiresAt : Timestamptz;
  s_RotatedAt : Timestamptz;
  s_RevokedAt : Timestamptz;
  s_RevokedReason : string;
  s_UserAgent : string;
  s_IpHash : string;
  s_ActorUserID : UUID;
  s_ImpersonationID : UUID;
  s_ImpersonationReason : string;
  s_CreatedAt : Z;
  s_UpdatedAt : Z
}.

(** The metadata is a JSON object with text values, or [{}]. *)
Abbreviation Metadata := (gmap string string).

Record OneTimeToken := {
  o_ID : Z;
  o_Purpose : string;
  o_TokenHash : string;
  o_UserID : UUID;
  o_TenantID : UUID;
  o_Email : string;
  o_NormalizedEmail : string;
  o_Metadata : Metadata;
  o_ExpiresAt : Z;
  o_ConsumedAt : Timestamptz;
  o_CreatedAt : Z
}.

Record OAuthState := {
  g_ID : Z;
  g_StateHash : string;
  g_PkceVerifier : string;
  g_NonceHash : string;
  g_RedirectPath : string;
  g_ExpiresAt : Z;
  g_ConsumedAt : Timestamptz;
  g_CreatedAt : Z
}.

Record Attempt := {
  a_ID : Z;
  a_Purpose : string;
  a_NormalizedEmail : string;
  a_IpHash : string;
  a_WindowStartedAt : Z;
  a_AttemptCount : Z;
  a_LastAttemptAt : Z
}.

Record Event := {
  e_ID : Z;
  e_EventType : string;
  e_UserID : UUID;
  e_ActorUserID : UUID;
  e_TenantID : UUID;
  e_SessionID : UUID;
  e_IpHash : string;
  e_UserAgent : string;
  e_Metadata : Metadata;
  e_CreatedAt : Z
}.

Record db := {
  users : gmap Z User;
  identities : gmap Z Identity;
  tenants : gmap Z Tenant;
  memberships : gmap Z Membership;
  sessions : gmap Z RefreshSession;
  tokens : gmap Z OneTimeToken;
  states : gmap Z OAuthState;
  attempts : gmap Z Attempt;
  events : gmap Z Event
}.

Definition set_users x d := {| users := x; identities := identities d; tenants := tenants d; memberships := memberships d;
  sessions := sessions d; tokens := tokens d; states := states d; attempts := attempts d; events := events d |}.
Definition set_identities x d := {| users := users d; identities := x; tenants := tenants d; memberships := memberships d;
  sessions := sessions d; tokens := tokens d; states := states d; attempts := attempts d; events := events d |}.
Definition set_tenants x d := {| users := users d; identities := identities d; tenants := x; memberships := memberships d;
  sessions := sessions d; tokens := tokens d; states := states d; attempts := attempts d; events := events d |}.
Definition set_memberships x d := {| users := users d; identities := identities d; tenants := tenants d; memberships := x;
  sessions := sessions d; tokens := tokens d; states := states d; attempts := attempts d; events := events d |}.
Definition set_sessions x d := {| users := users d; identities := identities d; tenants := tenants d; memberships := memberships d;
  sessions := x; tokens := tokens d; states := states d; attempts := attempts d; events := events d |}.
Definition set_tokens x d := {| users := users d; identities := identities d; tenants := tenants d; memberships := memberships d;
  sessions := sessions d; tokens := x; states := states d; attempts := attempts d; events := events d |}.
Definition set_states x d := {| users := users d; identities := identities d; tenants := tenants d; memberships := memberships d;
  sessions := sessions d; tokens := tokens d; states := x; attempts := attempts d; events := events d |}.
Definition set_attempts x d := {| users := users d; identities := identities d; tenants := tenants d; memberships := memberships d;
  sessions := sessions d; tokens := tokens d; states := states d; attempts := x; events := events d |}.
Definition set_events x d := {| users := users d; identities := identities d; tenants := tenants d; memberships := memberships d;
  sessions := sessions d; tokens := tokens d; states := states d; attempts := attempts d; events := x |}.

(** ** Errors *)
Inductive dberr :=
| NoRows
| UniqueViolation
| ConstraintViolation
| InFailedTransaction
| ConnectionFailed.

Inductive error :=
| DbError (e : dberr)
| AppError (code : Errs.ErrCode) (msg : string)
| PlainError (msg : string).

#[export] Instance dberr_eq_dec : EqDecision dberr.
Proof. solve_decision. Defined.

Definition isNoRows (e : error) : bool := match e with DbError NoRows => true | _ => false end.
Definition isUniqueViolation (e : error) : bool := match e with DbError UniqueViolation => true | _ => false end.

(** ** The environment of an operation *)
Class Env := {
  uuid_at : nat -> Z;
  secret_at : nat -> string;
  fails_at : nat -> bool;
  clock_at : nat -> Z;
  db_now : Z
}.

(** [ORDER BY] on text and [lower]. *)
Class Collation := {
  sql_lower : string -> string;
  text_before : string -> string -> bool
}.

(** ** Statements of a transaction *)
Record qstate := { q_db : db; q_aborted : bool; q_n : nat }.

Definition Q (A : Type) : Type := qstate -> outcome error A * qstate.

#[export] Instance Q_ret : MRet Q := fun A a s => (Ret a, s).
#[export] Instance Q_bind : MBind Q := fun A B f m s =>
  match m s with
  | (Ret a, s') => f a s'
  | (Fail e, s') => (Fail e, s')
  | (Panic msg, s') => (Panic msg, s')
  end.

Definition throw {A} (e : error) : Q A := fun s => (Fail e, s).

(** The result of a call as a value: [a, err := call()]. *)
Definition catch {A} (m : Q A) : Q (A + error) := fun s =>
  match m s with
  | (Ret a, s') => (Ret (inl a), s')
  | (Fail e, s') => (Ret (inr e), s')
  | (Panic msg, s') => (Panic msg, s')
  end.

(** [_ = call()] *)
Definition ignore {A} (m : Q A) : Q unit := _ ← catch m; mret ().

Section statements.
Context {E : Env}.

Definition draw {A} (f : nat -> A) : Q A := fun s =>
  (Ret (f (q_n s)), {| q_db := q_db s; q_aborted := q_aborted s; q_n := S (q_n s) |}).

Definition newUUID : Q Z := draw uuid_at.
Definition clock : Q Z := draw clock_at.
Definition secret : Q string := draw secret_at.

(** One statement: it fails when the connection does or the transaction was
    aborted; a failure of the database, and not the absence of rows, aborts. *)
Definition statement {A} (f : db -> (A * db) + dberr) : Q A := fun s =>
  let n := S (q_n s) in
  if fails_at (q_n s) then (Fail (DbError ConnectionFailed), {| q_db := q_db s; q_aborted := true; q_n := n |})
  else if q_aborted s then (Fail (DbError InFailedTransaction), {| q_db := q_db s; q_aborted := true; q_n := n |})
  else match f (q_db s) with
  | inl (a, d) => (Ret a, {| q_db := d; q_aborted := false; q_n := n |})
  | inr e => (Fail (DbError e), {| q_db := q_db s; q_aborted := negb (bool_decide (e = NoRows)); q_n := n |})
  end.
End statements.

(** ** Tables *)
Section tables.
Context {A : Type}.

(** A row with a property, as an index or a scan finds it. *)
Definition find_row (P : A -> bool) (m : gmap Z A) : option A :=
  head (filter (fun r => P r = true) (snd <$> map_to_list m)).

Definition has_row (P : A -> bool) (m : gmap Z A) : bool := match find_row P m with Some _ => true | None => false end.

(** [UPDATE ... SET ... WHERE] *)
Definition update_rows (P : A -> bool) (f : A -> A) (m : gmap Z A) : gmap Z A :=
  (fun r => if P r then f r else r) <$> m.

(** Inserting a row that a unique index forbids, or whose ID is taken. *)
Definition insert_row (id : Z) (r : A) (conflicts : A -> bool) (m : gmap Z A) : gmap Z A + dberr :=
  if bool_decide (is_Some (m !! id)) || has_row conflicts m then inr UniqueViolation else inl (<[id := r]> m).
End tables.

(** A nullable foreign key. *)
Definition refers {A} (m : gmap Z A) (k : UUID) : bool :=
  match k with None => true | Some k => bool_decide (is_Some (m !! k)) end.

Definition is_id (k : UUID) (id : Z) : bool := bool_decide (k = Some id).
Definition null (t : Timestamptz) : bool := bool_decide (t = None).

(** [SELECT ... :one] *)
Definition select {A} (r : option A) (d : db) : (A * db) + dberr :=
  match r with Some r => inl (r, d) | None => inr NoRows end.

(** [UPDATE ... RETURNING :one] *)
Definition update_returning {A} (P : A -> bool) (f : A -> A) (m : gmap Z A) (put : gmap Z A -> db) : (A * db) + dberr :=
  match find_row P m with
  | None => inr NoRows
  | Some r => inl (f r, put (update_rows P f m))
  end.

(** ** The statements of [auth/db/queries.sql] *)
Section queries.
Context {E : Env} {K : Collation}.

(** *** Users *)
Definition with_verified (t : Timestamptz) (now : Z) (u : User) : User :=
  {| u_ID := u_ID u; u_DisplayName := u_DisplayName u; u_AvatarUrl := u_AvatarUrl u; u_PrimaryEmail := u_PrimaryEmail u;
     u_NormalizedPrimaryEmail := u_NormalizedPrimaryEmail u; u_EmailVerifiedAt := t; u_DisabledAt := u_DisabledAt u;
     u_CanImpersonateUsers := u_CanImpersonateUsers u; u_CreatedAt := u_CreatedAt u; u_UpdatedAt := now |}.

Definition with_profile (name avatar : string) (now : Z) (u : User) : User :=
  {| u_ID := u_ID u; u_DisplayName := if String.eqb name "" then u_DisplayName u else name;
     u_AvatarUrl := if String.eqb avatar "" then u_AvatarUrl u else avatar; u_PrimaryEmail := u_PrimaryEmail u;
     u_NormalizedPrimaryEmail := u_NormalizedPrimaryEmail u; u_EmailVerifiedAt := u_EmailVerifiedAt u; u_DisabledAt := u_DisabledAt u;
     u_CanImpersonateUsers := u_CanImpersonateUsers u; u_CreatedAt := u_CreatedAt u; u_UpdatedAt := now |}.

Record CreateUserParams := {
  cu_ID : Z;
  cu_DisplayName : string;
  cu_AvatarUrl : string;
  cu_PrimaryEmail : string;
  cu_NormalizedPrimaryEmail : string;
  cu_EmailVerifiedAt : Timestamptz
}.

Definition same_email (email : string) (u : User) : bool :=
  negb (String.eqb email "") && String.eqb (u_NormalizedPrimaryEmail u) email.

Definition CreateUser (arg : CreateUserParams) : Q User := statement (fun d =>
  let u := {| u_ID := cu_ID arg; u_DisplayName := cu_DisplayName arg; u_AvatarUrl := cu_AvatarUrl arg;
              u_PrimaryEmail := cu_PrimaryEmail arg; u_NormalizedPrimaryEmail := cu_NormalizedPrimaryEmail arg;
              u_EmailVerifiedAt := cu_EmailVerifiedAt arg; u_DisabledAt := None; u_CanImpersonateUsers := false;
              u_CreatedAt := db_now; u_UpdatedAt := db_now |} in
  match insert_row (cu_ID arg) u (same_email (cu_NormalizedPrimaryEmail arg)) (users d) with
  | inl m => inl (u, set_users m d)
  | inr e => inr e
  end).

Definition GetUserByID (id : UUID) : Q User := statement (fun d => select (id ≫= (fun k => users d !! k)) d).

Definition GetUserByNormalizedEmail (email : string) : Q User := statement (fun d =>
  select (find_row (fun u => String.eqb (u_NormalizedPrimaryEmail u) email) (users d)) d).

Definition coalesce (t : Timestamptz) (now : Z) : Timestamptz := match t with Some t => Some t | None => Some now end.

Definition MarkUserEmailVerified (id : UUID) : Q User := statement (fun d =>
  update_returning (fun u => is_id id (u_ID u)) (fun u => with_verified (coalesce (u_EmailVerifiedAt u) db_now) db_now u)
    (users d) (fun m => set_users m d)).

Definition UpdateUserProfileFromProvider (id : UUID) (name avatar : string) : Q User := statement (fun d =>
  update_returning (fun u => is_id id (u_ID u)) (with_profile name avatar db_now) (users d) (fun m => set_users m d)).

(** *** Identities *)
Record CreateAuthIdentityParams := {
  ci_ID : Z;
  ci_UserID : Z;
  ci_Provider : string;
  ci_ProviderSubject : string;
  ci_Email : string;
  ci_NormalizedEmail : string;
  ci_PasswordHash : string
}.

Definition same_subject (provider subject : string) (i : Identity) : bool :=
  String.eqb (i_Provider i) provider && String.eqb (i_ProviderSubject i) subject.

Definition CreateAuthIdentity (arg : CreateAuthIdentityParams) : Q Identity := statement (fun d =>
  let i := {| i_ID := ci_ID arg; i_UserID := ci_UserID arg; i_Provider := ci_Provider arg;
              i_ProviderSubject := ci_ProviderSubject arg; i_Email := ci_Email arg; i_NormalizedEmail := ci_NormalizedEmail arg;
              i_PasswordHash := ci_PasswordHash arg; i_CreatedAt := db_now; i_UpdatedAt := db_now |} in
  if negb (refers (users d) (Some (ci_UserID arg))
           && (String.eqb (ci_Provider arg) "email" || String.eqb (ci_Provider arg) "google")) then inr ConstraintViolation
  else match insert_row (ci_ID arg) i (same_subject (ci_Provider arg) (ci_ProviderSubject arg)) (identities d) with
  | inl m => inl (i, set_identities m d)
  | inr e => inr e
  end).

Definition GetAuthIdentityByProviderSubject (provider subject : string) : Q Identity := statement (fun d =>
  select (find_row (same_subject provider subject) (identities d)) d).

Definition GetEmailIdentityForLogin (subject : string) : Q Identity := statement (fun d =>
  select (find_row (same_subject "email" subject) (identities d)) d).

Definition with_password (hash : string) (now : Z) (i : Identity) : Identity :=
  {| i_ID := i_ID i; i_UserID := i_UserID i; i_Provider := i_Provider i; i_ProviderSubject := i_ProviderSubject i;
     i_Email := i_Email i; i_NormalizedEmail := i_NormalizedEmail i; i_PasswordHash := hash;
     i_CreatedAt := i_CreatedAt i; i_UpdatedAt := now |}.

Definition UpdateIdentityPasswordHash (id : Z) (hash : string) : Q Identity := statement (fun d =>
  update_returning (fun i => i_ID i =? id) (with_password hash db_now) (identities d) (fun m => set_identities m d)).

(** *** Tenants *)
Definition CreateTenant (id : Z) (name : string) : Q Tenant := statement (fun d =>
  let t := {| t_ID := id; t_Name := name; t_DeletedAt := None; t_CreatedAt := db_now; t_UpdatedAt := db_now |} in
  match insert_row id t (fun _ => false) (tenants d) with
  | inl m => inl (t, set_tenants m d)
  | inr e => inr e
  end).

Definition GetTenantByID (id : UUID) : Q Tenant := statement (fun d => select (id ≫= (fun k => tenants d !! k)) d).

Definition with_name (name : string) (now : Z) (t : Tenant) : Tenant :=
  {| t_ID := t_ID t; t_Name := name; t_DeletedAt := t_DeletedAt t; t_CreatedAt := t_CreatedAt t; t_UpdatedAt := now |}.
Definition with_deleted (at_ : Timestamptz) (now : Z) (t : Tenant) : Tenant :=
  {| t_ID := t_ID t; t_Name := t_Name t; t_DeletedAt := at_; t_CreatedAt := t_CreatedAt t; t_UpdatedAt := now |}.

Definition UpdateTenantName (id : Z) (name : string) : Q Tenant := statement (fun d =>
  update_returning (fun t => (t_ID t =? id) && null (t_DeletedAt t)) (with_name name db_now) (tenants d) (fun m => set_tenants m d)).

Definition SoftDeleteTenant (id : Z) : Q Tenant := statement (fun d =>
  update_returning (fun t => t_ID t =? id) (fun t => with_deleted (coalesce (t_DeletedAt t) db_now) db_now t)
    (tenants d) (fun m => set_tenants m d)).

(** *** Memberships *)
Record CreateOrganizationMembershipParams := {
  cm_ID : Z;
  cm_TenantID : Z;
  cm_UserID : Z;
  cm_Role : string;
  cm_InvitedByUserID : UUID;
  cm_InvitedAt : Timestamptz
}.

Definition active_in (user tenant : Z) (m : Membership) : bool :=
  (m_UserID m =? user) && (m_TenantID m =? tenant) && null (m_DisabledAt m).

Definition with_role (role : string) (now : Z) (m : Membership) : Membership :=
  {| m_ID := m_ID m; m_TenantID := m_TenantID m; m_UserID := m_UserID m; m_Role := role; m_DisabledAt := m_DisabledAt m;
     m_InvitedByUserID := m_InvitedByUserID m; m_InvitedAt := m_InvitedAt m; m_CreatedAt := m_CreatedAt m; m_UpdatedAt := now |}.
Definition with_disabled (t : Timestamptz) (now : Z) (m : Membership) : Membership :=
  {| m_ID := m_ID m; m_TenantID := m_TenantID m; m_UserID := m_UserID m; m_Role := m_Role m; m_DisabledAt := t;
     m_InvitedByUserID := m_InvitedByUserID m; m_InvitedAt := m_InvitedAt m; m_CreatedAt := m_CreatedAt m; m_UpdatedAt := now |}.

Definition valid_role (role : string) : bool := String.eqb role "owner" || String.eqb role "member".

(** [ON CONFLICT (user_id, tenant_id) WHERE disabled_at IS NULL DO UPDATE] *)
Definition CreateOrganizationMembership (arg : CreateOrganizationMembershipParams) : Q Membership := statement (fun d =>
  let m := {| m_ID := cm_ID arg; m_TenantID := cm_TenantID arg; m_UserID := cm_UserID arg; m_Role := cm_Role arg;
              m_DisabledAt := None; m_InvitedByUserID := cm_InvitedByUserID arg; m_InvitedAt := cm_InvitedAt arg;
              m_CreatedAt := db_now; m_UpdatedAt := db_now |} in
  if negb (valid_role (cm_Role arg)) then inr ConstraintViolation
  else match find_row (active_in (cm_UserID arg) (cm_TenantID arg)) (memberships d) with
  | Some m0 =>
    inl (with_role (cm_Role arg) db_now m0,
         set_memberships (update_rows (active_in (cm_UserID arg) (cm_TenantID arg)) (with_role (cm_Role arg) db_now) (memberships d)) d)
  | None =>
    match insert_row (cm_ID arg) m (fun _ => false) (memberships d) with
    | inr e => inr e
    | inl rows =>
      if refers (users d) (Some (cm_UserID arg)) && refers (tenants d) (Some (cm_TenantID arg)) && refers (users d) (cm_InvitedByUserID arg)
      then inl (m, set_memberships rows d)
      else inr ConstraintViolation
    end
  end).

Definition GetActiveMembership (user tenant : Z) : Q Membership := statement (fun d =>
  select (find_row (active_in user tenant) (memberships d)) d).

Record ListUserMembershipsRow := { lum_membership : Membership; lum_TenantName : string; lum_TenantDeletedAt : Timestamptz }.

Definition user_membership_row (tenants : gmap Z Tenant) (user : Z) (m : Membership) : option ListUserMembershipsRow :=
  match tenants !! m_TenantID m with
  | Some t =>
    if (m_UserID m =? user) && null (m_DisabledAt m) && null (t_DeletedAt t)
    then Some {| lum_membership := m; lum_TenantName := t_Name t; lum_TenantDeletedAt := t_DeletedAt t |}
    else None
  | None => None
  end.

(** [ORDER BY lower(t.name), t.name, m.tenant_id] *)
Definition memberships_before (a b : ListUserMembershipsRow) : bool :=
  let la := sql_lower (lum_TenantName a) in let lb := sql_lower (lum_TenantName b) in
  if text_before la lb then true else if text_before lb la then false
  else if text_before (lum_TenantName a) (lum_TenantName b) then true
  else if text_before (lum_TenantName b) (lum_TenantName a) then false
  else m_TenantID (lum_membership a) <? m_TenantID (lum_membership b).

Definition user_memberships (d : db) (user : Z) : list ListUserMembershipsRow :=
  sort_stable memberships_before (omap (user_membership_row (tenants d) user) (snd <$> map_to_list (memberships d))).

Definition ListUserMemberships (user : Z) : Q (list ListUserMembershipsRow) := statement (fun d => inl (user_memberships d user, d)).

Record ListTenantMembersRow := { ltm_membership : Membership; ltm_user : User }.

Definition tenant_member_row (users : gmap Z User) (tenant : Z) (m : Membership) : option ListTenantMembersRow :=
  match users !! m_UserID m with
  | Some u => if m_TenantID m =? tenant then Some {| ltm_membership := m; ltm_user := u |} else None
  | None => None
  end.

(** [ORDER BY lower(u.display_name), lower(u.primary_email), m.created_at] *)
Definition members_before (a b : ListTenantMembersRow) : bool :=
  let key f r := sql_lower (f (ltm_user r)) in
  if text_before (key u_DisplayName a) (key u_DisplayName b) then true
  else if text_before (key u_DisplayName b) (key u_DisplayName a) then false
  else if text_before (key u_PrimaryEmail a) (key u_PrimaryEmail b) then true
  else if text_before (key u_PrimaryEmail b) (key u_PrimaryEmail a) then false
  else m_CreatedAt (ltm_membership a) <? m_CreatedAt (ltm_membership b).

Definition ListTenantMembers (tenant : Z) : Q (list ListTenantMembersRow) := statement (fun d =>
  inl (sort_stable members_before (omap (tenant_member_row (users d) tenant) (snd <$> map_to_list (memberships d))), d)).

Definition active_owner (tenant : Z) (m : Membership) : bool :=
  (m_TenantID m =? tenant) && String.eqb (m_Role m) "owner" && null (m_DisabledAt m).

Definition owner_count (d : db) (tenant : Z) : Z :=
  Z.of_nat (length (filter (fun m => active_owner tenant m = true) (snd <$> map_to_list (memberships d)))).

Definition CountActiveOwners (tenant : Z) : Q Z := statement (fun d => inl (owner_count d tenant, d)).

Definition UpdateMembershipRole (tenant user : Z) (role : string) : Q Membership := statement (fun d =>
  if negb (valid_role role) && has_row (active_in user tenant) (memberships d) then inr ConstraintViolation
  else update_returning (active_in user tenant) (with_role role db_now) (memberships d) (fun m => set_memberships m d)).

Definition DisableMembership (tenant user : Z) : Q Membership := statement (fun d =>
  update_returning (fun m => (m_TenantID m =? tenant) && (m_UserID m =? user))
    (fun m => with_disabled (coalesce (m_DisabledAt m) db_now) db_now m) (memberships d) (fun m => set_memberships m d)).

(** *** Refresh sessions *)
Record CreateRefreshSessionParams := {
  cs_ID : Z;
  cs_UserID : Z;
  cs_TokenHash : string;
  cs_ActiveTenantID : UUID;
  cs_ExpiresAt : Timestamptz;
  cs_UserAgent : string;
  cs_IpHash : string;
  cs_ActorUserID : UUID;
  cs_ImpersonationID : UUID;
  cs_ImpersonationReason : string
}.

Definition CreateRefreshSession (arg : CreateRefreshSessionParams) : Q RefreshSession := statement (fun d =>
  let s := {| s_ID := Some (cs_ID arg); s_UserID := Some (cs_UserID arg); s_TokenHash := cs_TokenHash arg; s_PreviousTokenHash := "";
              s_PreviousTokenExpiresAt := None; s_ActiveTenantID := cs_ActiveTenantID arg; s_ExpiresAt := cs_ExpiresAt arg;
              s_RotatedAt := None; s_RevokedAt := None; s_RevokedReason := ""; s_UserAgent := cs_UserAgent arg;
              s_IpHash := cs_IpHash arg; s_ActorUserID := cs_ActorUserID arg; s_ImpersonationID := cs_ImpersonationID arg;
              s_ImpersonationReason := cs_ImpersonationReason arg; s_CreatedAt := db_now; s_UpdatedAt := db_now |} in
  if null (cs_ExpiresAt arg) then inr ConstraintViolation
  else match insert_row (cs_ID arg) s (fun r => String.eqb (s_TokenHash r) (cs_TokenHash arg)) (sessions d) with
  | inr e => inr e
  | inl rows =>
    if refers (users d) (Some (cs_UserID arg)) && refers (tenants d) (cs_ActiveTenantID arg) && refers (users d) (cs_ActorUserID arg)
    then inl (s, set_sessions rows d)
    else inr ConstraintViolation
  end).

Definition GetRefreshSessionByID (id : UUID) : Q RefreshSession := statement (fun d => select (id ≫= (fun k => sessions d !! k)) d).

Definition with_rotation (hash : string) (grace now : Z) (s : RefreshSession) : RefreshSession :=
  {| s_ID := s_ID s; s_UserID := s_UserID s; s_TokenHash := hash; s_PreviousTokenHash := s_TokenHash s;
     s_PreviousTokenExpiresAt := Some (now + grace * 1000000); s_ActiveTenantID := s_ActiveTenantID s; s_ExpiresAt := s_ExpiresAt s;
     s_RotatedAt := Some now; s_RevokedAt := s_RevokedAt s; s_RevokedReason := s_RevokedReason s; s_UserAgent := s_UserAgent s;
     s_IpHash := s_IpHash s; s_ActorUserID := s_ActorUserID s; s_ImpersonationID := s_ImpersonationID s;
     s_ImpersonationReason := s_ImpersonationReason s; s_CreatedAt := s_CreatedAt s; s_UpdatedAt := now |}.

Definition with_tenant (tenant : UUID) (now : Z) (s : RefreshSession) : RefreshSession :=
  {| s_ID := s_ID s; s_UserID := s_UserID s; s_TokenHash := s_TokenHash s; s_PreviousTokenHash := s_PreviousTokenHash s;
     s_PreviousTokenExpiresAt := s_PreviousTokenExpiresAt s; s_ActiveTenantID := tenant; s_ExpiresAt := s_ExpiresAt s;
     s_RotatedAt := s_RotatedAt s; s_RevokedAt := s_RevokedAt s; s_RevokedReason := s_RevokedReason s; s_UserAgent := s_UserAgent s;
     s_IpHash := s_IpHash s; s_ActorUserID := s_ActorUserID s; s_ImpersonationID := s_ImpersonationID s;
     s_ImpersonationReason := s_ImpersonationReason s; s_CreatedAt := s_CreatedAt s; s_UpdatedAt := now |}.

Definition with_revoked (reason : string) (now : Z) (s : RefreshSession) : RefreshSession :=
  {| s_ID := s_ID s; s_UserID := s_UserID s; s_TokenHash := s_TokenHash s; s_PreviousTokenHash := s_PreviousTokenHash s;
     s_PreviousTokenExpiresAt := s_PreviousTokenExpiresAt s; s_ActiveTenantID := s_ActiveTenantID s; s_ExpiresAt := s_ExpiresAt s;
     s_RotatedAt := s_RotatedAt s; s_RevokedAt := coalesce (s_RevokedAt s) now; s_RevokedReason := reason; s_UserAgent := s_UserAgent s;
     s_IpHash := s_IpHash s; s_ActorUserID := s_ActorUserID s; s_ImpersonationID := s_ImpersonationID s;
     s_ImpersonationReason := s_ImpersonationReason s; s_CreatedAt := s_CreatedAt s; s_UpdatedAt := now |}.

Definition session_is (id : UUID) (s : RefreshSession) : bool := bool_decide (s_ID s = id /\ id <> None).

(** The grace is in milliseconds. *)
Definition RotateRefreshSession (id : UUID) (hash : string) (grace : Z) : Q RefreshSession := statement (fun d =>
  if has_row (session_is id) (sessions d) && has_row (fun s => String.eqb (s_TokenHash s) hash && negb (session_is id s)) (sessions d)
  then inr UniqueViolation
  else update_returning (session_is id) (with_rotation hash grace db_now) (sessions d) (fun m => set_sessions m d)).

Definition SetRefreshSessionTenant (id tenant : UUID) : Q RefreshSession := statement (fun d =>
  let P s := session_is id s && null (s_RevokedAt s) in
  if has_row P (sessions d) && negb (refers (tenants d) tenant) then inr ConstraintViolation
  else update_returning P (with_tenant tenant db_now) (sessions d) (fun m => set_sessions m d)).

Definition RevokeRefreshSession (id : UUID) (reason : string) : Q unit := statement (fun d =>
  inl ((), set_sessions (update_rows (session_is id) (with_revoked reason db_now) (sessions d)) d)).

Definition RevokeUserRefreshSessions (user : Z) (reason : string) : Q unit := statement (fun d =>
  inl ((), set_sessions (update_rows (fun s => bool_decide (s_UserID s = Some user) && null (s_RevokedAt s)) (with_revoked reason db_now) (sessions d)) d)).

(** *** One-time tokens *)
Record CreateOneTimeTokenParams := {
  ct_ID : Z;
  ct_Purpose : string;
  ct_TokenHash : string;
  ct_UserID : UUID;
  ct_TenantID : UUID;
  ct_Email : string;
  ct_NormalizedEmail : string;
  ct_Metadata : Metadata;
  ct_ExpiresAt : Z
}.

Definition CreateOneTimeToken (arg : CreateOneTimeTokenParams) : Q OneTimeToken := statement (fun d =>
  let o := {| o_ID := ct_ID arg; o_Purpose := ct_Purpose arg; o_TokenHash := ct_TokenHash arg; o_UserID := ct_UserID arg;
              o_TenantID := ct_TenantID arg; o_Email := ct_Email arg; o_NormalizedEmail := ct_NormalizedEmail arg;
              o_Metadata := ct_Metadata arg; o_ExpiresAt := ct_ExpiresAt arg; o_ConsumedAt := None; o_CreatedAt := db_now |} in
  match insert_row (ct_ID arg) o (fun r => String.eqb (o_TokenHash r) (ct_TokenHash arg)) (tokens d) with
  | inr e => inr e
  | inl rows =>
    if refers (users d) (ct_UserID arg) && refers (tenants d) (ct_TenantID arg) then inl (o, set_tokens rows d)
    else inr ConstraintViolation
  end).

Definition with_consumed (now : Z) (o : OneTimeToken) : OneTimeToken :=
  {| o_ID := o_ID o; o_Purpose := o_Purpose o; o_TokenHash := o_TokenHash o; o_UserID := o_UserID o; o_TenantID := o_TenantID o;
     o_Email := o_Email o; o_NormalizedEmail := o_NormalizedEmail o; o_Metadata := o_Metadata o; o_ExpiresAt := o_ExpiresAt o;
     o_ConsumedAt := Some now; o_CreatedAt := o_CreatedAt o |}.

Definition consumable (hash purpose : string) (now : Z) (o : OneTimeToken) : bool :=
  String.eqb (o_TokenHash o) hash && String.eqb (o_Purpose o) purpose && null (o_ConsumedAt o) && (now <? o_ExpiresAt o).

Definition ConsumeOneTimeToken (hash purpose : string) : Q OneTimeToken := statement (fun d =>
  update_returning (consumable hash purpose db_now) (with_consumed db_now) (tokens d) (fun m => set_tokens m d)).

(** *** States of the Google sign-in *)
Record CreateOAuthStateParams := {
  cg_ID : Z;
  cg_StateHash : string;
  cg_PkceVerifier : string;
  cg_NonceHash : string;
  cg_RedirectPath : string;
  cg_ExpiresAt : Z
}.

Definition CreateOAuthState (arg : CreateOAuthStateParams) : Q OAuthState := statement (fun d =>
  let g := {| g_ID := cg_ID arg; g_StateHash := cg_StateHash arg; g_PkceVerifier := cg_PkceVerifier arg; g_NonceHash := cg_NonceHash arg;
              g_RedirectPath := cg_RedirectPath arg; g_ExpiresAt := cg_ExpiresAt arg; g_ConsumedAt := None; g_CreatedAt := db_now |} in
  match insert_row (cg_ID arg) g (fun r => String.eqb (g_StateHash r) (cg_StateHash arg)) (states d) with
  | inr e => inr e
  | inl rows => inl (g, set_states rows d)
  end).

Definition with_state_consumed (now : Z) (g : OAuthState) : OAuthState :=
  {| g_ID := g_ID g; g_StateHash := g_StateHash g; g_PkceVerifier := g_PkceVerifier g; g_NonceHash := g_NonceHash g;
     g_RedirectPath := g_RedirectPath g; g_ExpiresAt := g_ExpiresAt g; g_ConsumedAt := Some now; g_CreatedAt := g_CreatedAt g |}.

Definition ConsumeOAuthState (hash : string) : Q OAuthState := statement (fun d =>
  update_returning (fun g => String.eqb (g_StateHash g) hash && null (g_ConsumedAt g) && (db_now <? g_ExpiresAt g))
    (with_state_consumed db_now) (states d) (fun m => set_states m d)).

(** *** Attempts and events *)
Definition attempt_window : Z := 15 * AuthTokens.minute.

Definition next_attempt (now : Z) (a : Attempt) : Attempt :=
  let old := a_WindowStartedAt a <? now - attempt_window in
  {| a_ID := a_ID a; a_Purpose := a_Purpose a; a_NormalizedEmail := a_NormalizedEmail a; a_IpHash := a_IpHash a;
     a_WindowStartedAt := if old then now else a_WindowStartedAt a;
     a_AttemptCount := if old then 1 else a_AttemptCount a + 1; a_LastAttemptAt := now |}.

Definition same_scope (purpose email ip : string) (a : Attempt) : bool :=
  String.eqb (a_Purpose a) purpose && String.eqb (a_NormalizedEmail a) email && String.eqb (a_IpHash a) ip.

(** The count is a 32-bit integer column. *)
Definition UpsertAuthAttempt (id : Z) (purpose email ip : string) : Q Attempt := statement (fun d =>
  match find_row (same_scope purpose email ip) (attempts d) with
  | Some a =>
    if 2 ^ 31 <=? a_AttemptCount (next_attempt db_now a) then inr ConstraintViolation
    else inl (next_attempt db_now a, set_attempts (update_rows (same_scope purpose email ip) (next_attempt db_now) (attempts d)) d)
  | None =>
    let a := {| a_ID := id; a_Purpose := purpose; a_NormalizedEmail := email; a_IpHash := ip; a_WindowStartedAt := db_now;
                a_AttemptCount := 1; a_LastAttemptAt := db_now |} in
    match insert_row id a (fun _ => false) (attempts d) with
    | inr e => inr e
    | inl rows => inl (a, set_attempts rows d)
    end
  end).

Definition CreateAuthEvent (e : Event) : Q unit := statement (fun d =>
  match insert_row (e_ID e) e (fun _ => false) (events d) with
  | inr err => inr err
  | inl rows =>
    if refers (users d) (e_UserID e) && refers (users d) (e_ActorUserID e) && refers (tenants d) (e_TenantID e)
    then inl ((), set_events rows d)
    else inr ConstraintViolation
  end).
End queries.

(** ** Operations of the service

    [transaction] is [beginTx], the deferred [Rollback] and the [Commit] of every
    path that returns no error; a single statement outside a transaction is a
    transaction of its own. *)
Record sstate := { sv_db : db; sv_n : nat; sv_mails : list AuthTokens.EmailMessage }.

Definition S_ (A : Type) : Type := sstate -> outcome error A * sstate.

#[export] Instance S_ret : MRet S_ := fun A a s => (Ret a, s).
#[export] Instance S_bind : MBind S_ := fun A B f m s =>
  match m s with
  | (Ret a, s') => f a s'
  | (Fail e, s') => (Fail e, s')
  | (Panic msg, s') => (Panic msg, s')
  end.

Definition fail {A} (e : error) : S_ A := fun s => (Fail e, s).

Section transactions.
Context {E : Env}.

Definition run {A} (begins : bool) (body : Q A) : S_ A := fun s =>
  let n := sv_n s in
  if begins && fails_at n then (Fail (DbError ConnectionFailed), {| sv_db := sv_db s; sv_n := S n; sv_mails := sv_mails s |})
  else
    let '(r, q) := body {| q_db := sv_db s; q_aborted := false; q_n := S n |} in
    let m := S (q_n q) in
    let stop r := (r, {| sv_db := sv_db s; sv_n := m; sv_mails := sv_mails s |}) in
    match r with
    | Ret a =>
      if q_aborted q then stop (Fail (DbError InFailedTransaction))
      else if begins && fails_at (q_n q) then stop (Fail (DbError ConnectionFailed))
      else (Ret a, {| sv_db := q_db q; sv_n := m; sv_mails := sv_mails s |})
    | Fail e => stop (Fail e)
    | Panic msg => stop (Panic msg)
    end.

Definition transaction {A} (body : Q A) : S_ A := run true body.
Definition direct {A} (q : Q A) : S_ A := run false q.
End transactions.

Definition send (mails : list AuthTokens.EmailMessage) : S_ unit := fun s =>
  (Ret (), {| sv_db := sv_db s; sv_n := sv_n s; sv_mails := sv_mails s ++ mails |}).

Definition try {A} (m : S_ A) : S_ (A + error) := fun s =>
  match m s with
  | (Ret a, s') => (Ret (inl a), s')
  | (Fail e, s') => (Ret (inr e), s')
  | (Panic msg, s') => (Panic msg, s')
  end.
End AuthStore.
