(* ===== verification/AuthService.v ===== *)
(** * The service of standard authentication
    ([auth/standard_service.go], [standard_sessions.go],
    [standard_organizations.go], [standard_impersonation.go],
    [standard_google.go], [standard_dev.go])

    [AuthService] has one definition per operation of the service, over the
    statements of [AuthStore].  The request (its headers and the identity the
    auth handler accepted) is a [Request].  What the operations promise is
    stated at the end of this file and in [AuthProofs]. *)
From stdpp Require Import base tactics list gmap strings.
From Stdlib Require Import ZArith Lia Ascii.
From S2P Require Import Prelude GoStrings Middleware Http Errs AuthTokens AuthStore.

Module AuthService.
Import AuthTokens AuthStore.

Definition identityProviderEmail : string := "email".
Definition identityProviderGoogle : string := "google".
Definition tokenPurposeEmailVerification : string := "email_verification".
Definition tokenPurposePasswordReset : string := "password_reset".
Definition tokenPurposeInviteAcceptance : string := "invite_acceptance".
Definition roleOwner : string := "owner".
Definition roleMember : string := "member".

(** ** Errors *)
Definition invalidArgument (msg : string) : error := AppError Errs.InvalidArgument msg.
Definition unauthenticated (msg : string) : error :=
  AppError Errs.Unauthenticated (if String.eqb (Strings.TrimSpace msg) "" then "unauthorized" else msg).
Definition permissionDenied (msg : string) : error :=
  AppError Errs.PermissionDenied (if String.eqb (Strings.TrimSpace msg) "" then "forbidden" else msg).
Definition failedPrecondition (msg : string) : error := AppError Errs.FailedPrecondition msg.
Definition alreadyExists (msg : string) : error := AppError Errs.AlreadyExists msg.

(** ** The request *)
Class Request := {
  headers : Http.Header;
  authData : option AuthData
}.

(** ** Responses *)
Record UserProfile := {
  up_ID : string;
  up_Email : string;
  up_DisplayName : string;
  up_AvatarURL : string;
  up_EmailVerified : bool;
  up_CanImpersonateUsers : bool
}.

Record OrganizationSession := { os_TenantID : string; os_TenantName : string; os_Role : string }.
Record ImpersonationState := { is_ActorUserID : string; is_ImpersonationID : string; is_Reason : string }.

Record AuthBootstrapResponse := {
  Token : string;
  User_ : UserProfile;
  CurrentTenantID : string;
  Organizations : list OrganizationSession;
  Impersonation : ImpersonationState
}.

Record AuthSessionResponse := { bootstrap : AuthBootstrapResponse; SetCookie : Cookie }.

Record EmailSignupParams := { su_Email : string; su_Password : string; su_DisplayName : string; su_RedirectPath : string }.
Record EmailSignupResponse := { RequiresEmailVerification : bool; sr_Email : string; DevVerificationToken : string }.
Record EmailLoginParams := { li_Email : string; li_Password : string }.
Record PasswordResetConfirmParams := { pr_Token : string; pr_NewPassword : string }.
(** [OK] and the token a local run shows. *)
Record OKResponse := { OK : bool; DevToken : string }.
Record LogoutResponse := { lo_OK : bool; lo_SetCookie : Cookie }.

(** ** Cookies of the request: [http.Request.Cookie] *)
Definition trim_char (c : ascii) : bool := (code c =? 32) || (code c =? 9) || (code c =? 10) || (code c =? 13).
Definition valid_cookie_byte (c : ascii) : bool :=
  in_range 32 126 (code c) && negb (code c =? 34) && negb (Ascii.eqb c ";") && negb (Ascii.eqb c "\").

Definition unquote_cookie (v : string) : string :=
  match v with
  | String c v' =>
    if (code c =? 34) && (1 <? Z.of_nat (String.length v)) && Strings.HasSuffix v' (String (chr 34) "")
    then Strings.TrimSuffix v' (String (chr 34) "") else v
  | EmptyString => v
  end.

Definition cookie_part (name part : string) : option string :=
  let part := Strings.TrimSet trim_char part in
  if String.eqb part "" then None
  else
    let '(n, v, _) := Strings.Cut part "=" in
    let n := Strings.TrimSet trim_char n in
    if String.eqb n "" || negb (Strings.all_bytes Http.token_byte n) || negb (String.eqb n name) then None
    else let v := unquote_cookie v in if Strings.all_bytes valid_cookie_byte v then Some v else None.

Definition request_cookie (h : Http.Header) (name : string) : option string :=
  if String.eqb name "" then None
  else head (omap (cookie_part name) (concat (map (fun line => Strings.Split (Strings.TrimSet trim_char line) ";") (Http.Values h "Cookie")))).

Section service.
Context {UT : UnicodeTables} {L : AuthLib} {C : AuthConfig} {E : Env} {K : Collation} {R : Request}.

Definition s_draw {A} (f : nat -> A) : S_ A := fun s =>
  (Ret (f (sv_n s)), {| sv_db := sv_db s; sv_n := S (sv_n s); sv_mails := sv_mails s |}).

(** A check that may end the operation. *)
Definition need {A} (x : option A) (e : error) : S_ A := match x with Some a => mret a | None => fail e end.
Definition check (b : bool) (e : error) : S_ unit := if b then mret () else fail e.
Definition require (b : bool) (e : error) : Q unit := if b then mret () else throw e.

(** [x, err := call(); if isNoRows(err) { return e }; if err != nil { return err }] *)
Definition or_no_rows {A} (m : Q A) (e : error) : Q A :=
  r ← catch m;
  match r with
  | inl a => mret a
  | inr err => if isNoRows err then throw e else throw err
  end.

Definition or_invalid {A} (x : outcome string A) : S_ A :=
  match x with Ret a => mret a | Fail msg => fail (invalidArgument msg) | Panic msg => fun s => (Panic msg, s) end.

Definition currentAuthData : S_ AuthData := need authData (PlainError "unauthorized").

(** ** Sessions *)
Definition mapUser (u : User) : UserProfile :=
  {| up_ID := uuid_text (u_ID u); up_Email := Strings.TrimSpace (u_PrimaryEmail u); up_DisplayName := Strings.TrimSpace (u_DisplayName u);
     up_AvatarURL := Strings.TrimSpace (u_AvatarUrl u); up_EmailVerified := negb (null (u_EmailVerifiedAt u));
     up_CanImpersonateUsers := u_CanImpersonateUsers u |}.

Definition mapOrganization (r : ListUserMembershipsRow) : OrganizationSession :=
  {| os_TenantID := uuid_text (m_TenantID (lum_membership r)); os_TenantName := Strings.TrimSpace (lum_TenantName r);
     os_Role := Strings.TrimSpace (m_Role (lum_membership r)) |}.

Definition access_data (user tenant : Z) (session : RefreshSession) : AuthData :=
  {| UserID := uuid_text user; TenantID := uuid_text tenant; SessionID := uuidString (s_ID session);
     ActorUserID := uuidString (s_ActorUserID session); ImpersonationID := uuidString (s_ImpersonationID session) |}.

Definition buildBootstrap (user : User) (tenantID : Z) (session : RefreshSession) : Q AuthBootstrapResponse :=
  memberships ← ListUserMemberships (u_ID user);
  _ ← require (existsb (fun r => String.eqb (uuid_text (m_TenantID (lum_membership r))) (uuid_text tenantID)) memberships)
        (permissionDenied "workspace access is disabled");
  let impersonation :=
    if null (s_ActorUserID session) then {| is_ActorUserID := ""; is_ImpersonationID := ""; is_Reason := "" |}
    else {| is_ActorUserID := uuidString (s_ActorUserID session); is_ImpersonationID := uuidString (s_ImpersonationID session);
            is_Reason := Strings.TrimSpace (s_ImpersonationReason session) |} in
  now ← clock;
  match GenerateAccessToken now {| opt_data := access_data (u_ID user) tenantID session; ExpiresIn := defaultAccessTokenTTL; Now := Some now |} with
  | Ret token => mret {| Token := token; User_ := mapUser user; CurrentTenantID := uuid_text tenantID;
                         Organizations := map mapOrganization memberships; Impersonation := impersonation |}
  | Fail msg => throw (PlainError msg)
  | Panic msg => fun s => (Panic msg, s)
  end.

Definition ensureActiveTenant (user : User) (preferred : UUID) : Q Z :=
  _ ← require (negb (null (u_EmailVerifiedAt user))) (failedPrecondition "email verification is required");
  _ ← require (null (u_DisabledAt user)) (permissionDenied "user is disabled");
  memberships ← ListUserMemberships (u_ID user);
  match find (fun r => negb (null preferred) && String.eqb (uuid_text (m_TenantID (lum_membership r))) (uuidString preferred)) memberships with
  | Some r => mret (m_TenantID (lum_membership r))
  | None =>
    match memberships with
    | r :: _ => mret (m_TenantID (lum_membership r))
    | [] =>
      tenantID ← newUUID;
      tenant ← CreateTenant tenantID (defaultWorkspaceName (u_DisplayName user));
      membershipID ← newUUID;
      _ ← CreateOrganizationMembership {| cm_ID := membershipID; cm_TenantID := t_ID tenant; cm_UserID := u_ID user; cm_Role := roleOwner;
            cm_InvitedByUserID := None; cm_InvitedAt := None |};
      mret (t_ID tenant)
    end
  end.

Definition createRefreshSession (userID tenantID ttl : Z) (actorUserID impersonationID : UUID) (reason : string) : Q (RefreshSession * string) :=
  sessionID ← newUUID;
  raw ← secret;
  let rawToken := newRefreshToken sessionID raw in
  now ← clock;
  session ← CreateRefreshSession {| cs_ID := sessionID; cs_UserID := userID; cs_TokenHash := tokenHash rawToken;
    cs_ActiveTenantID := Some tenantID; cs_ExpiresAt := timestamptz (now + ttl); cs_UserAgent := requestUserAgent headers;
    cs_IpHash := requestIPHash headers; cs_ActorUserID := actorUserID; cs_ImpersonationID := impersonationID;
    cs_ImpersonationReason := Strings.TrimSpace reason |};
  mret (session, rawToken).

Definition session_cookie (rawToken : string) (session : RefreshSession) : Q Cookie :=
  now ← clock; mret (refreshCookie now headers rawToken (default 0 (s_ExpiresAt session))).

Definition createAuthSessionResponse (user : User) (tenantID ttl : Z) (actorUserID impersonationID : UUID) (reason : string) : Q AuthSessionResponse :=
  '(session, rawToken) ← createRefreshSession (u_ID user) tenantID ttl actorUserID impersonationID reason;
  b ← buildBootstrap user tenantID session;
  cookie ← session_cookie rawToken session;
  mret {| bootstrap := b; SetCookie := cookie |}.

Definition recordEvent (eventType : string) (userID actorUserID tenantID sessionID : UUID) (metadata : Metadata) : Q unit :=
  id ← newUUID;
  ignore (CreateAuthEvent {| e_ID := id; e_EventType := eventType; e_UserID := userID; e_ActorUserID := actorUserID; e_TenantID := tenantID;
    e_SessionID := sessionID; e_IpHash := requestIPHash headers; e_UserAgent := requestUserAgent headers; e_Metadata := metadata;
    e_CreatedAt := db_now |}).

Definition checkRateLimit (purpose email : string) : Q unit :=
  id ← newUUID;
  attempt ← UpsertAuthAttempt id purpose email (requestIPHash headers);
  require (negb (20 <? a_AttemptCount attempt)) (AppError Errs.ResourceExhausted "too many auth attempts; try again later").

Definition createOneTimeToken (purpose : string) (userID tenantID : UUID) (email normalizedEmail : string) (metadata : Metadata) (ttl : Z) : Q string :=
  id ← newUUID;
  raw ← secret;
  let rawToken := newRandomToken raw in
  now ← clock;
  _ ← CreateOneTimeToken {| ct_ID := id; ct_Purpose := purpose; ct_TokenHash := tokenHash rawToken; ct_UserID := userID; ct_TenantID := tenantID;
    ct_Email := Strings.TrimSpace email; ct_NormalizedEmail := Strings.TrimSpace normalizedEmail; ct_Metadata := metadata;
    ct_ExpiresAt := stored_time (now + ttl) |};
  mret rawToken.

Definition dev_token (token : string) : string := if isLocalRuntime then token else "".

(** ** Sign-up, verification and login *)
Definition SignupEmail (params : option EmailSignupParams) : S_ EmailSignupResponse :=
  params ← need params (invalidArgument "request body is required");
  normalizedEmail ← or_invalid (normalizeEmail (su_Email params));
  _ ← match validatePassword (su_Password params) with Some msg => fail (invalidArgument msg) | None => mret () end;
  salt ← s_draw secret_at;
  passwordHash ← match hashPassword salt (su_Password params) with
    | Ret h => mret h | Fail msg => fail (PlainError msg) | Panic msg => fun s => (Panic msg, s) end;
  rawToken ← transaction (
    _ ← checkRateLimit "signup_email" normalizedEmail;
    existing ← catch (GetUserByNormalizedEmail normalizedEmail);
    _ ← match existing with
        | inl _ => throw (alreadyExists "email is already registered")
        | inr err => if isNoRows err then mret () else throw err
        end;
    userID ← newUUID;
    created ← catch (CreateUser {| cu_ID := userID; cu_DisplayName := defaultDisplayName normalizedEmail (su_DisplayName params);
      cu_AvatarUrl := ""; cu_PrimaryEmail := displayEmail (su_Email params); cu_NormalizedPrimaryEmail := normalizedEmail;
      cu_EmailVerifiedAt := None |});
    user ← match created with
      | inl u => mret u
      | inr err => if isUniqueViolation err then throw (alreadyExists "email is already registered") else throw err
      end;
    identityID ← newUUID;
    linked ← catch (CreateAuthIdentity {| ci_ID := identityID; ci_UserID := u_ID user; ci_Provider := identityProviderEmail;
      ci_ProviderSubject := normalizedEmail; ci_Email := displayEmail (su_Email params); ci_NormalizedEmail := normalizedEmail;
      ci_PasswordHash := passwordHash |});
    _ ← match linked with
      | inl _ => mret ()
      | inr err => if isUniqueViolation err then throw (alreadyExists "email is already registered") else throw err
      end;
    rawToken ← createOneTimeToken tokenPurposeEmailVerification (Some (u_ID user)) None (displayEmail (su_Email params)) normalizedEmail
      {[ "redirect_path" := safeRedirectPath (su_RedirectPath params) ]} defaultEmailVerificationTTL;
    _ ← recordEvent "signup_email" (Some (u_ID user)) None None None ∅;
    mret rawToken);
  _ ← send (sendVerificationEmail (displayEmail (su_Email params)) rawToken (safeRedirectPath (su_RedirectPath params)));
  mret {| RequiresEmailVerification := true; sr_Email := displayEmail (su_Email params); DevVerificationToken := dev_token rawToken |}.

(** The end of every operation that signs a user in. *)
Definition sign_in (eventType : string) (user : User) : Q AuthSessionResponse :=
  tenantID ← ensureActiveTenant user None;
  response ← createAuthSessionResponse user tenantID defaultRefreshSessionTTL None None "";
  _ ← recordEvent eventType (Some (u_ID user)) None (Some tenantID) None ∅;
  mret response.

Definition ConfirmEmailVerification (token : option string) : S_ AuthSessionResponse :=
  token ← need token (invalidArgument "token is required");
  _ ← check (negb (String.eqb (Strings.TrimSpace token) "")) (invalidArgument "token is required");
  transaction (
    oneTime ← or_no_rows (ConsumeOneTimeToken (tokenHash token) tokenPurposeEmailVerification)
      (invalidArgument "verification token is invalid or expired");
    _ ← require (negb (null (o_UserID oneTime))) (invalidArgument "verification token is invalid");
    user ← MarkUserEmailVerified (o_UserID oneTime);
    sign_in "email_verified" user).

Definition ResendEmailVerification (email : option string) : S_ OKResponse :=
  email ← need email (invalidArgument "request body is required");
  normalizedEmail ← or_invalid (normalizeEmail email);
  sent ← transaction (
    _ ← checkRateLimit "email_verification_resend" normalizedEmail;
    found ← catch (GetUserByNormalizedEmail normalizedEmail);
    match found with
    | inr err => if isNoRows err then mret None else throw err
    | inl user =>
      if negb (null (u_EmailVerifiedAt user)) then mret None
      else
        rawToken ← createOneTimeToken tokenPurposeEmailVerification (Some (u_ID user)) None (displayEmail email) normalizedEmail
          ∅ defaultEmailVerificationTTL;
        mret (Some rawToken)
    end);
  match sent with
  | None => mret {| OK := true; DevToken := "" |}
  | Some rawToken =>
    _ ← send (sendVerificationEmail (displayEmail email) rawToken "");
    mret {| OK := true; DevToken := dev_token rawToken |}
  end.

Definition LoginEmail (params : option EmailLoginParams) : S_ AuthSessionResponse :=
  params ← need params (invalidArgument "request body is required");
  normalizedEmail ← or_invalid (normalizeEmail (li_Email params));
  transaction (
    _ ← checkRateLimit "login_email" normalizedEmail;
    identity ← or_no_rows (GetEmailIdentityForLogin normalizedEmail) (unauthenticated "email or password is invalid");
    match verifyPassword (li_Password params) (i_PasswordHash identity) with
    | Ret (true, needsUpgrade) =>
      _ ← (if needsUpgrade then
        salt ← secret;
        match hashPassword salt (li_Password params) with
        | Ret nextHash => ignore (UpdateIdentityPasswordHash (i_ID identity) nextHash)
        | _ => mret ()
        end else mret ());
      user ← GetUserByID (Some (i_UserID identity));
      _ ← require (negb (null (u_EmailVerifiedAt user))) (failedPrecondition "email verification is required");
      sign_in "login_email" user
    | Panic msg => fun s => (Panic msg, s)
    | _ => throw (unauthenticated "email or password is invalid")
    end).

(** ** Refreshing *)
Definition refreshTokenFromParams (params : option string) : string :=
  match params with
  | Some t => if String.eqb (Strings.TrimSpace t) "" then Strings.TrimSpace (default "" (request_cookie headers refreshCookieName)) else Strings.TrimSpace t
  | None => Strings.TrimSpace (default "" (request_cookie headers refreshCookieName))
  end.

Definition after (t : Timestamptz) (now : Z) : bool := match t with Some t => now <? t | None => false end.

Definition rotateRefreshSession (rawRefreshToken : string) : Q (RefreshSession * string) :=
  match parseRefreshToken rawRefreshToken with
  | None => throw (unauthenticated "refresh session is invalid")
  | Some sessionID =>
    session ← or_no_rows (GetRefreshSessionByID (Some sessionID)) (unauthenticated "refresh session is invalid");
    now ← clock;
    _ ← require (null (s_RevokedAt session) && after (s_ExpiresAt session) now) (unauthenticated "refresh session is expired");
    let hash := tokenHash rawRefreshToken in
    let matchesCurrent := String.eqb hash (s_TokenHash session) in
    let matchesPrevious := negb (String.eqb (s_PreviousTokenHash session) "") && String.eqb hash (s_PreviousTokenHash session)
                           && after (s_PreviousTokenExpiresAt session) now in
    if negb matchesCurrent && negb matchesPrevious then
      _ ← ignore (RevokeRefreshSession (s_ID session) "refresh_replay");
      throw (unauthenticated "refresh session is invalid")
    else
      raw ← secret;
      match s_ID session with
      | None => throw (PlainError "session id is required")
      | Some id =>
        let nextRawToken := newRefreshToken id raw in
        rotated ← RotateRefreshSession (s_ID session) (tokenHash nextRawToken) (Z.quot refreshTokenReplayGrace 1000000);
        mret (rotated, nextRawToken)
      end
  end.

Definition Refresh (params : option string) : S_ AuthSessionResponse :=
  let rawRefreshToken := refreshTokenFromParams params in
  _ ← check (negb (String.eqb rawRefreshToken "")) (unauthenticated "refresh session is missing");
  '(b, session, rawToken) ← transaction (
    '(session, rawToken) ← rotateRefreshSession rawRefreshToken;
    user ← GetUserByID (s_UserID session);
    tenantID ← ensureActiveTenant user (s_ActiveTenantID session);
    session ← (if String.eqb (uuid_text tenantID) (uuidString (s_ActiveTenantID session)) then mret session
               else SetRefreshSessionTenant (s_ID session) (Some tenantID));
    b ← buildBootstrap user tenantID session;
    _ ← recordEvent "refresh" (Some (u_ID user)) (s_ActorUserID session) (Some tenantID) (s_ID session) ∅;
    mret (b, session, rawToken));
  now ← s_draw clock_at;
  mret {| bootstrap := b; SetCookie := refreshCookie now headers rawToken (default 0 (s_ExpiresAt session)) |}.

Definition Logout (params : option string) : S_ LogoutResponse :=
  let rawRefreshToken := refreshTokenFromParams params in
  _ ← match parseRefreshToken rawRefreshToken with
      | Some sessionID =>
        if String.eqb rawRefreshToken "" then mret ()
        else _ ← try (direct (RevokeRefreshSession (Some sessionID) "logout")); mret ()
      | None => mret ()
      end;
  mret {| lo_OK := true; lo_SetCookie := clearRefreshCookie headers |}.

(** ** The current user *)
Definition zero_session : RefreshSession :=
  {| s_ID := None; s_UserID := None; s_TokenHash := ""; s_PreviousTokenHash := ""; s_PreviousTokenExpiresAt := None; s_ActiveTenantID := None;
     s_ExpiresAt := None; s_RotatedAt := None; s_RevokedAt := None; s_RevokedReason := ""; s_UserAgent := ""; s_IpHash := "";
     s_ActorUserID := None; s_ImpersonationID := None; s_ImpersonationReason := ""; s_CreatedAt := 0; s_UpdatedAt := 0 |}.

Definition with_identity (id actor impersonation : UUID) (s : RefreshSession) : RefreshSession :=
  {| s_ID := id; s_UserID := s_UserID s; s_TokenHash := s_TokenHash s; s_PreviousTokenHash := s_PreviousTokenHash s;
     s_PreviousTokenExpiresAt := s_PreviousTokenExpiresAt s; s_ActiveTenantID := s_ActiveTenantID s; s_ExpiresAt := s_ExpiresAt s;
     s_RotatedAt := s_RotatedAt s; s_RevokedAt := s_RevokedAt s; s_RevokedReason := s_RevokedReason s; s_UserAgent := s_UserAgent s;
     s_IpHash := s_IpHash s; s_ActorUserID := actor; s_ImpersonationID := impersonation;
     s_ImpersonationReason := s_ImpersonationReason s; s_CreatedAt := s_CreatedAt s; s_UpdatedAt := s_UpdatedAt s |}.

(** [id, _ = nullableUUID(value)] *)
Definition uuid_or_null (value : string) : UUID := match nullableUUID value with Ret u => u | _ => None end.

Definition Me : S_ AuthBootstrapResponse :=
  data ← currentAuthData;
  userID ← need (parseUUID (UserID data)) (unauthenticated "invalid user id");
  tenantID ← need (parseUUID (TenantID data)) (unauthenticated "invalid tenant id");
  user ← direct (GetUserByID (Some userID));
  session ← (if String.eqb (SessionID data) "" then mret zero_session
    else match parseUUID (SessionID data) with
    | None => mret zero_session
    | Some id =>
      row ← try (direct (GetRefreshSessionByID (Some id)));
      mret (match row with inl r => r | inr _ => zero_session end)
    end);
  let session := with_identity (uuid_or_null (SessionID data)) (uuid_or_null (ActorUserID data)) (uuid_or_null (ImpersonationID data)) session in
  direct (buildBootstrap user tenantID session).

(** ** Passwords *)
Definition RequestPasswordReset (email : option string) : S_ OKResponse :=
  email ← need email (invalidArgument "request body is required");
  normalizedEmail ← or_invalid (normalizeEmail email);
  sent ← transaction (
    _ ← checkRateLimit "password_reset_request" normalizedEmail;
    found ← catch (GetUserByNormalizedEmail normalizedEmail);
    match found with
    | inr err => if isNoRows err then mret None else throw err
    | inl user =>
      rawToken ← createOneTimeToken tokenPurposePasswordReset (Some (u_ID user)) None (displayEmail email) normalizedEmail ∅ defaultPasswordResetTTL;
      mret (Some rawToken)
    end);
  match sent with
  | None => mret {| OK := true; DevToken := "" |}
  | Some rawToken =>
    _ ← send (sendPasswordResetEmail (displayEmail email) rawToken);
    mret {| OK := true; DevToken := dev_token rawToken |}
  end.

Definition ConfirmPasswordReset (params : option PasswordResetConfirmParams) : S_ AuthSessionResponse :=
  params ← need params (invalidArgument "token is required");
  _ ← check (negb (String.eqb (Strings.TrimSpace (pr_Token params)) "")) (invalidArgument "token is required");
  salt ← s_draw secret_at;
  passwordHash ← or_invalid (hashPassword salt (pr_NewPassword params));
  transaction (
    oneTime ← or_no_rows (ConsumeOneTimeToken (tokenHash (pr_Token params)) tokenPurposePasswordReset)
      (invalidArgument "password reset token is invalid or expired");
    _ ← require (negb (null (o_UserID oneTime))) (invalidArgument "password reset token is invalid");
    identity ← GetEmailIdentityForLogin (o_NormalizedEmail oneTime);
    _ ← UpdateIdentityPasswordHash (i_ID identity) passwordHash;
    user ← MarkUserEmailVerified (o_UserID oneTime);
    _ ← RevokeUserRefreshSessions (u_ID user) "password_reset";
    sign_in "password_reset" user).

(** ** Workspaces *)
Definition requireOwner (userID tenantID : Z) : Q unit :=
  membership ← or_no_rows (GetActiveMembership userID tenantID) (permissionDenied "workspace access is disabled");
  require (String.eqb (m_Role membership) roleOwner) (permissionDenied "workspace owner role is required").

Definition ensureCanRemoveOwner (tenantID : Z) : Q unit :=
  ownerCount ← CountActiveOwners tenantID;
  require (negb (ownerCount <=? 1)) (failedPrecondition "workspace must retain at least one owner").

Definition with_active (id tenant actor impersonation : UUID) : RefreshSession :=
  with_identity id actor impersonation (with_tenant tenant 0 zero_session).

Definition sessionForAuthData (data : AuthData) (tenantID : Z) : Q RefreshSession :=
  if String.eqb (Strings.TrimSpace (SessionID data)) "" then
    id ← newUUID;
    mret (with_active (Some id) (Some tenantID) (uuid_or_null (ActorUserID data)) (uuid_or_null (ImpersonationID data)))
  else match parseUUID (SessionID data) with
  | None => throw (unauthenticated "invalid session id")
  | Some sessionID => SetRefreshSessionTenant (Some sessionID) (Some tenantID)
  end.

Record ListOrganizationsResponse := { lor_CurrentTenantID : string; lor_Sessions : list OrganizationSession }.

Definition ListOrganizations : S_ ListOrganizationsResponse :=
  data ← currentAuthData;
  userID ← need (parseUUID (UserID data)) (unauthenticated "invalid user id");
  rows ← direct (ListUserMemberships userID);
  mret {| lor_CurrentTenantID := Strings.TrimSpace (TenantID data); lor_Sessions := map mapOrganization rows |}.

(** The end of the operations that scope the current session to a workspace. *)
Definition scoped (data : AuthData) (user : User) (tenantID : Z) : Q (AuthBootstrapResponse * RefreshSession) :=
  session ← sessionForAuthData data tenantID;
  b ← buildBootstrap user tenantID session;
  mret (b, session).

Definition CreateOrganization (name : option string) : S_ AuthBootstrapResponse :=
  name ← need name (invalidArgument "name is required");
  _ ← check (negb (String.eqb (Strings.TrimSpace name) "")) (invalidArgument "name is required");
  data ← currentAuthData;
  userID ← need (parseUUID (UserID data)) (unauthenticated "invalid user id");
  transaction (
    user ← GetUserByID (Some userID);
    _ ← require (negb (null (u_EmailVerifiedAt user))) (failedPrecondition "email verification is required");
    tenantID ← newUUID;
    tenant ← CreateTenant tenantID (Strings.TrimSpace name);
    membershipID ← newUUID;
    _ ← CreateOrganizationMembership {| cm_ID := membershipID; cm_TenantID := t_ID tenant; cm_UserID := u_ID user; cm_Role := roleOwner;
          cm_InvitedByUserID := None; cm_InvitedAt := None |};
    '(b, session) ← scoped data user (t_ID tenant);
    _ ← recordEvent "organization_created" (Some (u_ID user)) None (Some (t_ID tenant)) (s_ID session) ∅;
    mret b).

Definition SwitchOrganization (tenant : option string) : S_ AuthBootstrapResponse :=
  tenant ← need tenant (invalidArgument "tenant_id is required");
  _ ← check (negb (String.eqb (Strings.TrimSpace tenant) "")) (invalidArgument "tenant_id is required");
  data ← currentAuthData;
  userID ← need (parseUUID (UserID data)) (unauthenticated "invalid user id");
  tenantID ← need (parseUUID tenant) (invalidArgument "tenant_id is invalid");
  transaction (
    _ ← or_no_rows (GetActiveMembership userID tenantID) (permissionDenied "workspace access is disabled");
    user ← GetUserByID (Some userID);
    '(b, session) ← scoped data user tenantID;
    _ ← recordEvent "organization_switched" (Some (u_ID user)) (s_ActorUserID session) (Some tenantID) (s_ID session) ∅;
    mret b).

Definition UpdateOrganization (tenant : string) (name : option string) : S_ AuthBootstrapResponse :=
  name ← need name (invalidArgument "name is required");
  _ ← check (negb (String.eqb (Strings.TrimSpace name) "")) (invalidArgument "name is required");
  data ← currentAuthData;
  tenantID ← need (parseUUID tenant) (invalidArgument "tenant_id is invalid");
  userID ← need (parseUUID (UserID data)) (unauthenticated "invalid user id");
  transaction (
    _ ← requireOwner userID tenantID;
    _ ← UpdateTenantName tenantID (Strings.TrimSpace name);
    user ← GetUserByID (Some userID);
    '(b, session) ← scoped data user tenantID;
    _ ← recordEvent "organization_updated" (Some (u_ID user)) (s_ActorUserID session) (Some tenantID) (s_ID session) ∅;
    mret b).

Definition DeleteOrganization (tenant : string) : S_ AuthBootstrapResponse :=
  data ← currentAuthData;
  tenantID ← need (parseUUID tenant) (invalidArgument "tenant_id is invalid");
  userID ← need (parseUUID (UserID data)) (unauthenticated "invalid user id");
  transaction (
    _ ← requireOwner userID tenantID;
    _ ← SoftDeleteTenant tenantID;
    user ← GetUserByID (Some userID);
    nextTenant ← ensureActiveTenant user None;
    '(b, session) ← scoped data user nextTenant;
    _ ← recordEvent "organization_deleted" (Some (u_ID user)) (s_ActorUserID session) (Some tenantID) (s_ID session) ∅;
    mret b).

Record OrganizationMember := {
  om_UserID : string;
  om_Email : string;
  om_DisplayName : string;
  om_AvatarURL : string;
  om_Role : string;
  om_Disabled : bool
}.

Definition mapMember (r : ListTenantMembersRow) : OrganizationMember :=
  {| om_UserID := uuid_text (m_UserID (ltm_membership r)); om_Email := Strings.TrimSpace (u_PrimaryEmail (ltm_user r));
     om_DisplayName := Strings.TrimSpace (u_DisplayName (ltm_user r)); om_AvatarURL := Strings.TrimSpace (u_AvatarUrl (ltm_user r));
     om_Role := Strings.TrimSpace (m_Role (ltm_membership r));
     om_Disabled := negb (null (m_DisabledAt (ltm_membership r))) || negb (null (u_DisabledAt (ltm_user r))) |}.

Definition ListOrganizationMembers (tenant : string) : S_ (list OrganizationMember) :=
  data ← currentAuthData;
  userID ← need (parseUUID (UserID data)) (unauthenticated "invalid user id");
  tenantID ← need (parseUUID tenant) (invalidArgument "tenant_id is invalid");
  _ ← direct (or_no_rows (GetActiveMembership userID tenantID) (permissionDenied "workspace access is disabled"));
  rows ← direct (ListTenantMembers tenantID);
  mret (map mapMember rows).

Record InviteMemberParams := { im_Email : string; im_Role : string }.
Record InviteMemberResponse := { ir_OK : bool; ir_Email : string; DevInviteToken : string }.

Definition InviteOrganizationMember (tenant : string) (params : option InviteMemberParams) : S_ InviteMemberResponse :=
  params ← need params (invalidArgument "request body is required");
  normalizedEmail ← or_invalid (normalizeEmail (im_Email params));
  let role := Strings.TrimSpace (im_Role params) in
  let role := if String.eqb role "" then roleMember else role in
  _ ← check (String.eqb role roleOwner || String.eqb role roleMember) (invalidArgument "role must be owner or member");
  data ← currentAuthData;
  userID ← need (parseUUID (UserID data)) (unauthenticated "invalid user id");
  tenantID ← need (parseUUID tenant) (invalidArgument "tenant_id is invalid");
  rawToken ← transaction (
    _ ← requireOwner userID tenantID;
    rawToken ← createOneTimeToken tokenPurposeInviteAcceptance (Some userID) (Some tenantID) (displayEmail (im_Email params)) normalizedEmail
      {[ "role" := role ]} defaultInviteTTL;
    _ ← recordEvent "invite_created" (Some userID) None (Some tenantID) None (<["email" := normalizedEmail]> {[ "role" := role ]});
    mret rawToken);
  _ ← send (sendInviteEmail (displayEmail (im_Email params)) rawToken);
  mret {| ir_OK := true; ir_Email := displayEmail (im_Email params); DevInviteToken := dev_token rawToken |}.

Definition AcceptInvite (token : option string) : S_ AuthBootstrapResponse :=
  token ← need token (invalidArgument "token is required");
  _ ← check (negb (String.eqb (Strings.TrimSpace token) "")) (invalidArgument "token is required");
  data ← currentAuthData;
  userID ← need (parseUUID (UserID data)) (unauthenticated "invalid user id");
  transaction (
    user ← GetUserByID (Some userID);
    _ ← require (negb (null (u_EmailVerifiedAt user))) (failedPrecondition "email verification is required");
    oneTime ← or_no_rows (ConsumeOneTimeToken (tokenHash token) tokenPurposeInviteAcceptance) (invalidArgument "invite token is invalid or expired");
    match o_TenantID oneTime with
    | None => throw (invalidArgument "invite token is invalid")
    | Some tenantID =>
      _ ← require (Strings.EqualFold (Strings.TrimSpace (u_NormalizedPrimaryEmail user)) (Strings.TrimSpace (o_NormalizedEmail oneTime)))
            (permissionDenied "invite email does not match signed-in user");
      let role := if String.eqb (default "" (o_Metadata oneTime !! "role")) roleOwner then roleOwner else roleMember in
      membershipID ← newUUID;
      now ← clock;
      _ ← CreateOrganizationMembership {| cm_ID := membershipID; cm_TenantID := tenantID; cm_UserID := u_ID user; cm_Role := role;
            cm_InvitedByUserID := o_UserID oneTime; cm_InvitedAt := timestamptz now |};
      '(b, session) ← scoped data user tenantID;
      _ ← recordEvent "invite_accepted" (Some (u_ID user)) (s_ActorUserID session) (Some tenantID) (s_ID session) ∅;
      mret b
    end).

(** The workspace, the member and the actor. *)
Definition memberMutationIDs (tenant target : string) : S_ (Z * Z * Z) :=
  data ← currentAuthData;
  tenantID ← need (parseUUID tenant) (invalidArgument "tenant_id is invalid");
  targetID ← need (parseUUID target) (invalidArgument "user_id is invalid");
  actorID ← need (parseUUID (UserID data)) (unauthenticated "invalid user id");
  mret (tenantID, targetID, actorID).

Definition UpdateOrganizationMemberRole (tenant user : string) (role : option string) : S_ (list OrganizationMember) :=
  role ← need role (invalidArgument "role must be owner or member");
  _ ← check (String.eqb role roleOwner || String.eqb role roleMember) (invalidArgument "role must be owner or member");
  '(tenantID, targetID, actorID) ← memberMutationIDs tenant user;
  _ ← transaction (
    _ ← requireOwner actorID tenantID;
    current ← GetActiveMembership targetID tenantID;
    _ ← (if String.eqb (m_Role current) roleOwner && String.eqb role roleMember then ensureCanRemoveOwner tenantID else mret ());
    _ ← UpdateMembershipRole tenantID targetID role;
    mret ());
  ListOrganizationMembers tenant.

Definition DisableOrganizationMember (tenant : string) (user : option string) : S_ (list OrganizationMember) :=
  user ← need user (invalidArgument "user_id is required");
  _ ← check (negb (String.eqb (Strings.TrimSpace user) "")) (invalidArgument "user_id is required");
  '(tenantID, targetID, actorID) ← memberMutationIDs tenant user;
  _ ← transaction (
    _ ← requireOwner actorID tenantID;
    current ← GetActiveMembership targetID tenantID;
    _ ← (if String.eqb (m_Role current) roleOwner then ensureCanRemoveOwner tenantID else mret ());
    _ ← DisableMembership tenantID targetID;
    mret ());
  ListOrganizationMembers tenant.

(** ** Impersonation *)
Record StartImpersonationParams := { TargetUserID : string; si_TenantID : string; Reason : string }.

Definition StartImpersonation (params : option StartImpersonationParams) : S_ AuthSessionResponse :=
  params ← need params (invalidArgument "target_user_id is required");
  _ ← check (negb (String.eqb (Strings.TrimSpace (TargetUserID params)) "")) (invalidArgument "target_user_id is required");
  let reason := Strings.TrimSpace (Reason params) in
  _ ← check (negb (String.eqb reason "")) (invalidArgument "reason is required");
  data ← currentAuthData;
  actorUserID ← need (parseUUID (UserID data)) (unauthenticated "invalid user id");
  targetUserID ← need (parseUUID (TargetUserID params)) (invalidArgument "target_user_id is invalid");
  preferredTenantID ← match nullableUUID (si_TenantID params) with Ret u => mret u | _ => fail (invalidArgument "tenant_id is invalid") end;
  transaction (
    actor ← GetUserByID (Some actorUserID);
    _ ← require (u_CanImpersonateUsers actor && null (u_DisabledAt actor)) (permissionDenied "platform impersonation permission is required");
    target ← GetUserByID (Some targetUserID);
    _ ← require (null (u_DisabledAt target)) (permissionDenied "target user is disabled");
    tenantID ← ensureActiveTenant target preferredTenantID;
    impersonationID ← newUUID;
    response ← createAuthSessionResponse target tenantID defaultImpersonationTTL (Some (u_ID actor)) (Some impersonationID) reason;
    _ ← recordEvent "impersonation_started" (Some (u_ID target)) (Some (u_ID actor)) (Some tenantID) None {[ "reason" := reason ]};
    mret response).

Definition StopImpersonation : S_ AuthSessionResponse :=
  data ← currentAuthData;
  _ ← check (Impersonating data) (failedPrecondition "not impersonating");
  actorUserID ← need (parseUUID (ActorUserID data)) (unauthenticated "invalid actor user id");
  let currentSessionID := uuid_or_null (SessionID data) in
  transaction (
    _ ← (if null currentSessionID then mret () else ignore (RevokeRefreshSession currentSessionID "impersonation_stopped"));
    actor ← GetUserByID (Some actorUserID);
    tenantID ← ensureActiveTenant actor None;
    response ← createAuthSessionResponse actor tenantID defaultRefreshSessionTTL None None "";
    _ ← recordEvent "impersonation_stopped" (Some (u_ID actor)) None (Some tenantID) currentSessionID ∅;
    mret response).

(** ** Google *)
Record googleIDClaims := {
  gc_Email : string;
  gc_EmailVerified : bool;
  gc_Name : string;
  gc_Picture : string;
  gc_Nonce : string;
  gc_Issuer : string;
  gc_Subject : string
}.

(** A signing key as Google publishes it, and the keys that are kept: modulus
    bytes and exponent by key ID. *)
Record jwk := { Kid : string; Kty : string; N_ : string; E_ : string }.

Fixpoint exponent_loop (s : string) (exponent : Z) : Z :=
  match s with
  | EmptyString => exponent
  | String b s => exponent_loop s (wrap_int 64 (wrap_int 64 (Z.shiftl exponent 8) + code b))
  end.

Definition key_step (out : gmap string (string * Z)) (key : jwk) : gmap string (string * Z) :=
  if negb (String.eqb (Kty key) "RSA") || String.eqb (Strings.TrimSpace (Kid key)) "" then out
  else match Base64.DecodeString Base64.Url (N_ key), Base64.DecodeString Base64.Url (E_ key) with
  | Some n, Some e => let exponent := exponent_loop e 0 in if exponent =? 0 then out else <[Kid key := (n, exponent)]> out
  | _, _ => out
  end.

Definition google_keys (keys : list jwk) : option (gmap string (string * Z)) :=
  let out := fold_left key_step keys ∅ in if bool_decide (out = ∅) then None else Some out.

(** The endpoints of Google and the token library: the published keys, the token
    endpoint (code, verifier, redirect URI), and parsing an ID token with a set
    of keys for an audience. *)
Class GoogleLib := {
  jwks : option (list jwk);
  token_endpoint : string -> string -> string -> option string;
  parse_id_token : gmap string (string * Z) -> string -> string -> option googleIDClaims
}.
Context {G : GoogleLib}.

Definition exchangeGoogleCode (code verifier redirectURI : string) : option string :=
  match token_endpoint code verifier redirectURI with
  | Some idToken => if String.eqb (Strings.TrimSpace idToken) "" then None else Some idToken
  | None => None
  end.

Definition verifyGoogleIDToken (rawIDToken : string) : option googleIDClaims :=
  match jwks ≫= google_keys with
  | None => None
  | Some keys =>
    match parse_id_token keys (Strings.TrimSpace GoogleOAuthClientID) rawIDToken with
    | None => None
    | Some claims =>
      let issuer := Strings.TrimSpace (gc_Issuer claims) in
      if negb (String.eqb issuer "accounts.google.com") && negb (String.eqb issuer "https://accounts.google.com") then None
      else if String.eqb (Strings.TrimSpace (gc_Subject claims)) "" then None
      else Some claims
    end
  end.

(** The user of a Google account: known by its subject, or by its email, or new. *)
Definition google_user (claims : googleIDClaims) (normalizedEmail : string) : Q User :=
  found ← catch (GetAuthIdentityByProviderSubject identityProviderGoogle (Strings.TrimSpace (gc_Subject claims)));
  match found with
  | inl identity =>
    user ← GetUserByID (Some (i_UserID identity));
    UpdateUserProfileFromProvider (Some (u_ID user)) (Strings.TrimSpace (gc_Name claims)) (Strings.TrimSpace (gc_Picture claims))
  | inr err =>
    if negb (isNoRows err) then throw err
    else
      byEmail ← catch (GetUserByNormalizedEmail normalizedEmail);
      user ← match byEmail with
        | inl user =>
          _ ← require (negb (null (u_EmailVerifiedAt user))) (failedPrecondition "verify the email/password account before linking Google");
          mret user
        | inr err =>
          if negb (isNoRows err) then throw err
          else
            userID ← newUUID;
            now ← clock;
            CreateUser {| cu_ID := userID; cu_DisplayName := defaultDisplayName normalizedEmail (gc_Name claims);
              cu_AvatarUrl := Strings.TrimSpace (gc_Picture claims); cu_PrimaryEmail := Strings.TrimSpace (gc_Email claims);
              cu_NormalizedPrimaryEmail := normalizedEmail; cu_EmailVerifiedAt := timestamptz now |}
        end;
      identityID ← newUUID;
      _ ← CreateAuthIdentity {| ci_ID := identityID; ci_UserID := u_ID user; ci_Provider := identityProviderGoogle;
        ci_ProviderSubject := Strings.TrimSpace (gc_Subject claims); ci_Email := Strings.TrimSpace (gc_Email claims);
        ci_NormalizedEmail := normalizedEmail; ci_PasswordHash := "" |};
      mret user
  end.

Definition finishGoogleSignIn (claims : googleIDClaims) : S_ AuthSessionResponse :=
  match normalizeEmail (gc_Email claims) with
  | Ret normalizedEmail => transaction (user ← google_user claims normalizedEmail; sign_in "login_google" user)
  | Fail msg => fail (PlainError msg)
  | Panic msg => fun s => (Panic msg, s)
  end.

(** The answer of a raw endpoint. *)
Inductive google_answer :=
| HttpError (msg : string) (status : Z)
| Redirected (url : string) (cookie : option Cookie).

Definition googleRedirectURI (host : string) : string :=
  let base := Strings.TrimRightSet (Ascii.eqb "/") (Strings.TrimSpace APIBaseURL) in
  let base :=
    if String.eqb base "" then
      let scheme := Strings.TrimSpace (Http.Get headers "X-Forwarded-Proto") in
      let scheme := if String.eqb scheme "" then (if isLocalRuntime then "http" else "https") else scheme in
      let host := Strings.TrimSpace host in
      if String.eqb host "" then base else scheme +:+ "://" +:+ host
    else base in
  (if String.eqb base "" then "https://api.scenery.localhost" else base) +:+ "/auth/google/callback".

Definition GoogleStart (host redirectPath : string) : S_ google_answer :=
  if String.eqb (Strings.TrimSpace GoogleOAuthClientID) "" || String.eqb (Strings.TrimSpace GoogleOAuthClientSecret) ""
  then mret (HttpError "Google OAuth is not configured" 503)
  else
    rawState ← s_draw secret_at;
    rawVerifier ← s_draw secret_at;
    rawNonce ← s_draw secret_at;
    let state := newRandomToken rawState in
    let verifier := newRandomToken rawVerifier in
    let nonce := newRandomToken rawNonce in
    stateID ← s_draw uuid_at;
    now ← s_draw clock_at;
    stored ← try (direct (CreateOAuthState {| cg_ID := stateID; cg_StateHash := tokenHash state; cg_PkceVerifier := verifier;
      cg_NonceHash := tokenHash nonce; cg_RedirectPath := safeRedirectPath redirectPath;
      cg_ExpiresAt := stored_time (now + defaultOAuthStateTTL) |}));
    match stored with
    | inr _ => mret (HttpError "failed to store oauth state" 500)
    | inl _ =>
      mret (Redirected ("https://accounts.google.com/o/oauth2/v2/auth?" +:+ UrlValues.Encode
        [("client_id", Strings.TrimSpace GoogleOAuthClientID);
         ("code_challenge", Base64.EncodeToString Base64.Url (sha256_sum verifier)); ("code_challenge_method", "S256");
         ("nonce", nonce); ("prompt", "select_account"); ("redirect_uri", googleRedirectURI host); ("response_type", "code");
         ("scope", "openid email profile"); ("state", state)]) None)
    end.

Definition GoogleCallback (host oauthErr state code : string) : S_ google_answer :=
  if negb (String.eqb (Strings.TrimSpace oauthErr) "") then mret (Redirected (appRedirectURL "/sign-in?error=google_oauth") None)
  else
    let state := Strings.TrimSpace state in
    let code := Strings.TrimSpace code in
    if String.eqb state "" || String.eqb code "" then mret (HttpError "missing oauth callback parameters" 400)
    else
      consumed ← try (direct (ConsumeOAuthState (tokenHash state)));
      match consumed with
      | inr _ => mret (HttpError "oauth state is invalid or expired" 400)
      | inl oauthState =>
        match exchangeGoogleCode code (g_PkceVerifier oauthState) (googleRedirectURI host) with
        | None => mret (HttpError "failed to exchange google code" 502)
        | Some idToken =>
          match verifyGoogleIDToken idToken with
          | None => mret (HttpError "google id token is invalid" 401)
          | Some claims =>
            if negb (gc_EmailVerified claims) then mret (HttpError "google email is not verified" 403)
            else if negb (String.eqb (g_NonceHash oauthState) "") && negb (String.eqb (tokenHash (gc_Nonce claims)) (g_NonceHash oauthState))
            then mret (HttpError "google nonce mismatch" 401)
            else
              response ← try (finishGoogleSignIn claims);
              match response with
              | inr _ => mret (HttpError "failed to finish google sign-in" 500)
              | inl response => mret (Redirected (appRedirectURL (g_RedirectPath oauthState)) (Some (SetCookie response)))
              end
          end
        end
      end.

(** ** The development bootstrap *)
Record DevBootstrapConfig := {
  Enabled : bool;
  DefaultUserEmail : string;
  DefaultUserID : string;
  DefaultTenantID : string;
  TokenTTL : Z
}.

Definition maxDevBootstrapClaimLength : nat := 200.

Definition normalizeDevBootstrapClaim (raw fallback field : string) : outcome string string :=
  let value := Strings.TrimSpace raw in
  if String.eqb value "" then Ret fallback
  else if (maxDevBootstrapClaimLength <? String.length value)%nat then Fail (field +:+ " must be <= 200 characters")
  else if has_line_break value then Fail (field +:+ " contains invalid characters")
  else Ret value.

Fixpoint firstNonEmpty (values : list string) : string :=
  match values with
  | [] => ""
  | v :: values => if String.eqb (Strings.TrimSpace v) "" then firstNonEmpty values else v
  end.

Definition resolveDevBootstrapEmailDefault (email preferredTenantID : string) : S_ (string * string) :=
  normalizedEmail ← or_invalid (normalizeEmail email);
  user ← direct (or_no_rows (GetUserByNormalizedEmail normalizedEmail) (AppError Errs.NotFound "default user email not found"));
  _ ← check (null (u_DisabledAt user)) (permissionDenied "default user is disabled");
  preferred ← (if String.eqb (Strings.TrimSpace preferredTenantID) "" then mret None
    else match parseUUID preferredTenantID with
    | Some u => mret (Some u)
    | None => fail (invalidArgument "tenant_id is invalid")
    end);
  memberships ← direct (ListUserMemberships (u_ID user));
  match find (fun r => negb (null preferred) && String.eqb (uuid_text (m_TenantID (lum_membership r))) (uuidString preferred)) memberships with
  | Some r => mret (uuid_text (u_ID user), uuid_text (m_TenantID (lum_membership r)))
  | None =>
    if negb (null preferred) then fail (permissionDenied "default user is not a member of the configured tenant")
    else match memberships with
    | [] => fail (failedPrecondition "default user has no active tenant memberships")
    | r :: _ => mret (uuid_text (u_ID user), uuid_text (m_TenantID (lum_membership r)))
    end
  end.

(** [params] has the user and the tenant. *)
Definition DevBootstrap (cfg : DevBootstrapConfig) (params : option (string * string)) : S_ string :=
  _ ← check (Enabled cfg) (AppError Errs.NotFound "endpoint not found");
  _ ← check isLocalRuntime (AppError Errs.PermissionDenied "dev bootstrap is only allowed in local environments");
  let '(rawUserID, rawTenantID) := default ("", "") params in
  '(userID, tenantID) ← (
    if String.eqb (Strings.TrimSpace rawUserID) "" && negb (String.eqb (Strings.TrimSpace (DefaultUserEmail cfg)) "") then
      resolveDevBootstrapEmailDefault (DefaultUserEmail cfg) (firstNonEmpty [rawTenantID; DefaultTenantID cfg])
    else
      userID ← or_invalid (normalizeDevBootstrapClaim rawUserID (DefaultUserID cfg) "user_id");
      tenantID ← or_invalid (normalizeDevBootstrapClaim rawTenantID (DefaultTenantID cfg) "tenant_id");
      mret (userID, tenantID));
  wall ← s_draw clock_at;
  match GenerateToken wall userID tenantID (TokenTTL cfg) with
  | Ret token => mret token
  | Fail msg => fail (PlainError ("failed to generate dev token: " +:+ msg))
  | Panic msg => fun s => (Panic msg, s)
  end.

(** ** Calls *)
Inductive call :=
| CallSignupEmail (p : option EmailSignupParams)
| CallConfirmEmailVerification (t : option string)
| CallResendEmailVerification (e : option string)
| CallLoginEmail (p : option EmailLoginParams)
| CallRefresh (t : option string)
| CallLogout (t : option string)
| CallMe
| CallRequestPasswordReset (e : option string)
| CallConfirmPasswordReset (p : option PasswordResetConfirmParams)
| CallListOrganizations
| CallCreateOrganization (n : option string)
| CallSwitchOrganization (t : option string)
| CallUpdateOrganization (t : string) (n : option string)
| CallDeleteOrganization (t : string)
| CallListOrganizationMembers (t : string)
| CallInviteOrganizationMember (t : string) (p : option InviteMemberParams)
| CallAcceptInvite (t : option string)
| CallUpdateOrganizationMemberRole (t u : string) (r : option string)
| CallDisableOrganizationMember (t : string) (u : option string)
| CallStartImpersonation (p : option StartImpersonationParams)
| CallStopImpersonation
| CallGoogleStart (host path : string)
| CallGoogleCallback (host err state code : string)
| CallDevBootstrap (cfg : DevBootstrapConfig) (p : option (string * string)).

(** What a call answers, as far as identities are concerned: an access token with
    its bootstrap, a bootstrap with a refresh cookie, or neither. *)
Inductive answer := Nothing | Bootstrap (b : AuthBootstrapResponse) | Session_ (r : AuthSessionResponse).

Definition answering {A} (f : A -> answer) (m : S_ A) : S_ answer := a ← m; mret (f a).

Definition perform (c : call) : S_ answer :=
  match c with
  | CallSignupEmail p => answering (fun _ => Nothing) (SignupEmail p)
  | CallConfirmEmailVerification t => answering Session_ (ConfirmEmailVerification t)
  | CallResendEmailVerification e => answering (fun _ => Nothing) (ResendEmailVerification e)
  | CallLoginEmail p => answering Session_ (LoginEmail p)
  | CallRefresh t => answering Session_ (Refresh t)
  | CallLogout t => answering (fun _ => Nothing) (Logout t)
  | CallMe => answering Bootstrap Me
  | CallRequestPasswordReset e => answering (fun _ => Nothing) (RequestPasswordReset e)
  | CallConfirmPasswordReset p => answering Session_ (ConfirmPasswordReset p)
  | CallListOrganizations => answering (fun _ => Nothing) ListOrganizations
  | CallCreateOrganization n => answering Bootstrap (CreateOrganization n)
  | CallSwitchOrganization t => answering Bootstrap (SwitchOrganization t)
  | CallUpdateOrganization t n => answering Bootstrap (UpdateOrganization t n)
  | CallDeleteOrganization t => answering Bootstrap (DeleteOrganization t)
  | CallListOrganizationMembers t => answering (fun _ => Nothing) (ListOrganizationMembers t)
  | CallInviteOrganizationMember t p => answering (fun _ => Nothing) (InviteOrganizationMember t p)
  | CallAcceptInvite t => answering Bootstrap (AcceptInvite t)
  | CallUpdateOrganizationMemberRole t u r => answering (fun _ => Nothing) (UpdateOrganizationMemberRole t u r)
  | CallDisableOrganizationMember t u => answering (fun _ => Nothing) (DisableOrganizationMember t u)
  | CallStartImpersonation p => answering Session_ (StartImpersonation p)
  | CallStopImpersonation => answering Session_ StopImpersonation
  | CallGoogleStart h p => answering (fun _ => Nothing) (GoogleStart h p)
  | CallGoogleCallback h e s c => answering (fun _ => Nothing) (GoogleCallback h e s c)
  | CallDevBootstrap cfg p => answering (fun _ => Nothing) (DevBootstrap cfg p)
  end.
End service.
End AuthService.
