(* ===== verification/AuthLogic.v ===== *)
(** * Rules for the operations of the authentication service

    [AuthLogic] holds the rules for the two monads of [AuthStore]: relations
    between databases that statements respect, operations that change nothing
    unless they succeed, the inversion of successful runs, and how rows may
    change.  [AuthStatements] shows for every statement of [AuthStore] that rows
    only evolve and that the unique indexes are kept. *)
From stdpp Require Import base tactics list gmap strings.
From Stdlib Require Import ZArith Lia Ascii.
From S2P Require Import Prelude GoStrings Middleware Http Errs AuthTokens AuthStore AuthService.

Module AuthLogic.
Import AuthTokens AuthStore AuthService.

(** ** Relations between databases *)
Section relations.
Context (R : db -> db -> Prop) `{!PreOrder R}.

Definition preserves {A} (m : Q A) : Prop := forall s, R (q_db s) (q_db (m s).2).
Definition s_preserves {A} (m : S_ A) : Prop := forall s, R (sv_db s) (sv_db (m s).2).

Lemma preserves_ret {A} (a : A) : preserves (mret a).
Proof. intros s. reflexivity. Qed.

Lemma preserves_throw {A} e : preserves (A := A) (throw e).
Proof. intros s. reflexivity. Qed.

Lemma preserves_panic {A} msg : preserves (A := A) (fun s => (Panic msg, s)).
Proof. intros s. reflexivity. Qed.

Lemma preserves_bind {A B} (m : Q A) (f : A -> Q B) : preserves m -> (forall a, preserves (f a)) -> preserves (m ≫= f).
Proof.
  intros Hm Hf s. specialize (Hm s). unfold mbind, Q_bind. destruct (m s) as [[a|e|msg] s']; simpl in *; [|done..].
  etrans; [exact Hm|apply Hf].
Qed.

Lemma preserves_catch {A} (m : Q A) : preserves m -> preserves (catch m).
Proof. intros Hm s. specialize (Hm s). unfold catch. by destruct (m s) as [[a|e|msg] s']. Qed.

Lemma preserves_ignore {A} (m : Q A) : preserves m -> preserves (ignore m).
Proof. intros Hm. apply preserves_bind; [by apply preserves_catch|]. intros. apply preserves_ret. Qed.

Lemma preserves_draw {A} (f : nat -> A) : preserves (draw f).
Proof. intros s. simpl. reflexivity. Qed.

Lemma preserves_require b e : preserves (require b e).
Proof. destruct b; [apply preserves_ret|apply preserves_throw]. Qed.

Lemma preserves_or_no_rows {A} (m : Q A) e : preserves m -> preserves (or_no_rows m e).
Proof.
  intros Hm. apply preserves_bind; [by apply preserves_catch|]. intros [a|err]; [apply preserves_ret|].
  destruct (isNoRows err); apply preserves_throw.
Qed.

Definition respects {A} (f : db -> (A * db) + dberr) : Prop := forall d a d', f d = inl (a, d') -> R d d'.

Lemma preserves_statement `{E : Env} {A} (f : db -> (A * db) + dberr) : respects f -> preserves (statement f).
Proof.
  intros Hf s. unfold statement. destruct (fails_at (q_n s)); [simpl; reflexivity|].
  destruct (q_aborted s); [simpl; reflexivity|]. destruct (f (q_db s)) as [[a d]|e] eqn:Ef; simpl; [by eapply Hf|reflexivity].
Qed.

Lemma s_preserves_ret {A} (a : A) : s_preserves (mret a).
Proof. intros s. reflexivity. Qed.

Lemma s_preserves_fail {A} e : s_preserves (A := A) (fail e).
Proof. intros s. reflexivity. Qed.

Lemma s_preserves_panic {A} msg : s_preserves (A := A) (fun s => (Panic msg, s)).
Proof. intros s. reflexivity. Qed.

Lemma s_preserves_check b e : s_preserves (check b e).
Proof. destruct b; [apply s_preserves_ret|apply s_preserves_fail]. Qed.

Lemma s_preserves_need {A} (x : option A) e : s_preserves (need x e).
Proof. destruct x; [apply s_preserves_ret|apply s_preserves_fail]. Qed.

Lemma s_preserves_or_invalid {A} (x : outcome string A) : s_preserves (or_invalid x).
Proof. destruct x; [apply s_preserves_ret|apply s_preserves_fail|apply s_preserves_panic]. Qed.

Lemma s_preserves_bind {A B} (m : S_ A) (f : A -> S_ B) : s_preserves m -> (forall a, s_preserves (f a)) -> s_preserves (m ≫= f).
Proof.
  intros Hm Hf s. specialize (Hm s). unfold mbind, S_bind. destruct (m s) as [[a|e|msg] s']; simpl in *; [|done..].
  etrans; [exact Hm|apply Hf].
Qed.

Lemma s_preserves_try {A} (m : S_ A) : s_preserves m -> s_preserves (try m).
Proof. intros Hm s. specialize (Hm s). unfold try. by destruct (m s) as [[a|e|msg] s']. Qed.

Lemma s_preserves_send mails : s_preserves (send mails).
Proof. intros s. simpl. reflexivity. Qed.

Lemma s_preserves_draw {A} (f : nat -> A) : s_preserves (s_draw f).
Proof. intros s. simpl. reflexivity. Qed.

Lemma s_preserves_run `{E : Env} {A} begins (m : Q A) : preserves m -> s_preserves (run begins m).
Proof.
  intros Hm s. unfold run. destruct (begins && fails_at (sv_n s)); [simpl; reflexivity|].
  specialize (Hm {| q_db := sv_db s; q_aborted := false; q_n := S (sv_n s) |}). simpl in Hm.
  destruct (m _) as [[a|e|msg] q]; simpl in *; [|reflexivity..].
  destruct (q_aborted q); [simpl; reflexivity|]. destruct (begins && fails_at (q_n q)); simpl; [reflexivity|done].
Qed.
End relations.

(** ** Successful runs *)
Lemma bind_Ret {A B} (m : Q A) (f : A -> Q B) s b s' :
  (m ≫= f) s = (Ret b, s') -> exists a s1, m s = (Ret a, s1) /\ f a s1 = (Ret b, s').
Proof. unfold mbind, Q_bind. destruct (m s) as [[a|e|msg] s1]; [eauto|done..]. Qed.

Lemma s_bind_Ret {A B} (m : S_ A) (f : A -> S_ B) s b s' :
  (m ≫= f) s = (Ret b, s') -> exists a s1, m s = (Ret a, s1) /\ f a s1 = (Ret b, s').
Proof. unfold mbind, S_bind. destruct (m s) as [[a|e|msg] s1]; [eauto|done..]. Qed.

Lemma statement_Ret `{E : Env} {A} (f : db -> (A * db) + dberr) s a s' :
  statement f s = (Ret a, s') -> f (q_db s) = inl (a, q_db s') /\ q_aborted s = false /\ q_aborted s' = false.
Proof.
  unfold statement. destruct (fails_at (q_n s)); [done|]. destruct (q_aborted s); [done|].
  destruct (f (q_db s)) as [[b d]|e]; [|done]. by intros [= <- <-].
Qed.

Lemma require_Ret b e s u s' : require b e s = (Ret u, s') -> b = true /\ s' = s.
Proof. destruct b; [|done]. by intros [= <- <-]. Qed.

Lemma check_Ret b e s u s' : check b e s = (Ret u, s') -> b = true /\ s' = s.
Proof. destruct b; [|done]. by intros [= <- <-]. Qed.

Lemma need_Ret {A} (x : option A) e s a s' : need x e s = (Ret a, s') -> x = Some a /\ s' = s.
Proof. destruct x; [|done]. by intros [= <- <-]. Qed.

Lemma or_no_rows_Ret {A} (m : Q A) e s a s' : or_no_rows m e s = (Ret a, s') -> m s = (Ret a, s').
Proof.
  intros H. apply bind_Ret in H as (r & s1 & Hc & H). unfold catch in Hc.
  destruct (m s) as [[a'|err|msg] s2]; simplify_eq; [by injection H as <- <-|]. by destruct (isNoRows err).
Qed.

Lemma or_invalid_Ret {A} (x : outcome string A) s a s' : or_invalid x s = (Ret a, s') -> x = Ret a /\ s' = s.
Proof. destruct x; [|done..]. by intros [= <- <-]. Qed.

Lemma draw_Ret {A} (f : nat -> A) s a s' : draw f s = (Ret a, s') -> q_db s' = q_db s /\ q_aborted s' = q_aborted s /\ a = f (q_n s).
Proof. by intros [= <- <-]. Qed.

(** A transaction that succeeds ran its body from the committed data. *)
Lemma run_Ret `{E : Env} {A} begins (m : Q A) s a s' :
  run begins m s = (Ret a, s') ->
  exists q q', m q = (Ret a, q') /\ q_db q = sv_db s /\ q_aborted q = false /\ q_aborted q' = false /\ sv_db s' = q_db q' /\ sv_mails s' = sv_mails s.
Proof.
  unfold run. destruct (begins && fails_at (sv_n s)); [done|].
  destruct (m {| q_db := sv_db s; q_aborted := false; q_n := S (sv_n s) |}) as [[b|e|msg] q] eqn:Em; [|done..].
  destruct (q_aborted q) eqn:Eq; [done|]. destruct (begins && fails_at (q_n q)); [done|]. intros [= <- <-].
  eexists _, q. by split_and!.
Qed.

(** A transaction that does not succeed changes nothing. *)
Lemma run_not_Ret `{E : Env} {A} begins (m : Q A) s r s' :
  run begins m s = (r, s') -> (forall a, r <> Ret a) -> sv_db s' = sv_db s.
Proof.
  unfold run. destruct (begins && fails_at (sv_n s)); [by intros [= <- <-]|].
  destruct (m _) as [[b|e'|msg] q]; [|by intros [= <- <-]..].
  destruct (q_aborted q); [by intros [= <- <-]|]. destruct (begins && fails_at (q_n q)); [by intros [= <- <-]|].
  intros [= <- <-] H. by destruct (H b).
Qed.

Lemma run_Fail `{E : Env} {A} begins (m : Q A) s e s' : run begins m s = (Fail e, s') -> sv_db s' = sv_db s.
Proof. intros H. by eapply run_not_Ret. Qed.

Lemma s_bind_Fail {A B} (m : S_ A) (f : A -> S_ B) s e s' :
  (m ≫= f) s = (Fail e, s') -> m s = (Fail e, s') \/ exists a s1, m s = (Ret a, s1) /\ f a s1 = (Fail e, s').
Proof. unfold mbind, S_bind. destruct (m s) as [[a|e'|msg] s1]; [eauto| |done]. intros [= <- <-]. by left. Qed.

(** Splits successful runs into the runs of their parts. *)
Ltac inv_run :=
  repeat match goal with
  | H : (mbind (M := Q) _ _) _ = (Ret _, _) |- _ => apply bind_Ret in H as (?a & ?s & ?H & H)
  | H : (mbind (M := S_) _ _) _ = (Ret _, _) |- _ => apply s_bind_Ret in H as (?a & ?s & ?H & H)
  | H : (let '(_, _) := ?p in _) _ = (Ret _, _) |- _ => destruct p
  | H : mret _ _ = (Ret _, _) |- _ => injection H as ? ?
  | H : throw _ _ = (Ret _, _) |- _ => discriminate H
  | H : fail _ _ = (Ret _, _) |- _ => discriminate H
  | H : (Panic _, _) = (Ret _, _) |- _ => discriminate H
  | H : require _ _ _ = (Ret _, _) |- _ => apply require_Ret in H as [?Hb ?]
  | H : check _ _ _ = (Ret _, _) |- _ => apply check_Ret in H as [?Hb ?]
  | H : need _ _ _ = (Ret _, _) |- _ => apply need_Ret in H as [?Hb ?]
  | H : currentAuthData _ = (Ret _, _) |- _ => apply need_Ret in H as [?Hb ?]
  | H : or_invalid _ _ = (Ret _, _) |- _ => apply or_invalid_Ret in H as [?Hb ?]
  | H : or_no_rows _ _ _ = (Ret _, _) |- _ => apply or_no_rows_Ret in H
  | H : transaction _ _ = (Ret _, _) |- _ => apply run_Ret in H as (?q & ?q' & ?H & ?Hq & ?Ha & ?Ha' & ?Hd & ?Hm)
  | H : direct _ _ = (Ret _, _) |- _ => apply run_Ret in H as (?q & ?q' & ?H & ?Hq & ?Ha & ?Ha' & ?Hd & ?Hm)
  | H : newUUID _ = (Ret _, _) |- _ => apply draw_Ret in H as (?Hdb & ?Hab & ?)
  | H : clock _ = (Ret _, _) |- _ => apply draw_Ret in H as (?Hdb & ?Hab & ?)
  | H : secret _ = (Ret _, _) |- _ => apply draw_Ret in H as (?Hdb & ?Hab & ?)
  | H : s_draw _ _ = (Ret _, _) |- _ => injection H as ? ?
  end; subst.

(** ** Operations that do not succeed *)
(** Without success, nothing changes. *)
Definition atomic {A} (m : S_ A) : Prop := forall s r s', m s = (r, s') -> (forall a, r <> Ret a) -> sv_db s' = sv_db s.
Definition total {A} (m : S_ A) : Prop := forall s, exists a s', m s = (Ret a, s').

Lemma atomic_read {A} (m : S_ A) : s_preserves eq m -> atomic m.
Proof. intros Hm s r s' H _. specialize (Hm s). by rewrite H in Hm. Qed.

Lemma atomic_run `{E : Env} {A} begins (m : Q A) : atomic (run begins m).
Proof. intros s r s' H Hr. by eapply run_not_Ret. Qed.

Lemma atomic_try {A} (m : S_ A) : atomic m -> atomic (try m).
Proof.
  intros Hm s r s'. unfold try. destruct (m s) as [[a|e|msg] s1] eqn:Em; intros [= <- <-] Hr; [by destruct (Hr (inl a))|by destruct (Hr (inr e))|].
  by eapply Hm.
Qed.

Lemma atomic_bind_read {A B} (m : S_ A) (f : A -> S_ B) : s_preserves eq m -> (forall a, atomic (f a)) -> atomic (m ≫= f).
Proof.
  intros Hm Hf s r s'. specialize (Hm s). unfold mbind, S_bind. destruct (m s) as [[a|e|msg] s1]; simpl in Hm.
  - intros H Hr. rewrite (Hf a s1 r s' H Hr). by symmetry.
  - by intros [= <- <-].
  - by intros [= <- <-].
Qed.

Lemma atomic_bind_total {A B} (m : S_ A) (f : A -> S_ B) : atomic m -> (forall a, total (f a)) -> atomic (m ≫= f).
Proof.
  intros Hm Hf s r s'. unfold mbind, S_bind. destruct (m s) as [[a|e|msg] s1] eqn:Em.
  - destruct (Hf a s1) as (b & s2 & ->). intros [= <- <-] Hr. by destruct (Hr b).
  - intros [= <- <-] Hr. by eapply Hm.
  - intros [= <- <-] Hr. by eapply Hm.
Qed.

Lemma total_ret {A} (a : A) : total (mret a).
Proof. intros s. by eexists _, _. Qed.

Lemma total_bind {A B} (m : S_ A) (f : A -> S_ B) : total m -> (forall a, total (f a)) -> total (m ≫= f).
Proof. intros Hm Hf s. destruct (Hm s) as (a & s1 & E). unfold mbind, S_bind. rewrite E. apply Hf. Qed.

Lemma total_send mails : total (send mails).
Proof. intros s. by eexists _, _. Qed.

Lemma total_draw {A} (f : nat -> A) : total (s_draw f).
Proof. intros s. by eexists _, _. Qed.

(** ** Rows *)
Section rows.
Context {A : Type}.
Implicit Types (m : gmap Z A) (P : A -> bool).

Lemma find_row_Some P m r : find_row P m = Some r -> P r = true /\ exists k, m !! k = Some r.
Proof.
  unfold find_row. intros H. apply head_Some_elem_of in H. apply list_elem_of_filter in H as [HP H]. split; [done|].
  apply list_elem_of_fmap in H as ([k r'] & Er & H). simpl in Er. subst r'. exists k. by apply elem_of_map_to_list in H.
Qed.

Lemma find_row_None P m : find_row P m = None <-> forall k r, m !! k = Some r -> P r = false.
Proof.
  unfold find_row. split.
  - intros H k r Hr. apply not_true_is_false. intros HP.
    assert (r ∈ filter (fun r => P r = true) (snd <$> map_to_list m)) as Hin.
    { apply list_elem_of_filter. split; [done|]. apply list_elem_of_fmap. exists (k, r). split; [done|]. by apply elem_of_map_to_list. }
    destruct (filter _ _); [by apply not_elem_of_nil in Hin|done].
  - intros H. destruct (filter _ _) as [|r l] eqn:El; [done|]. exfalso.
    assert (r ∈ filter (fun r => P r = true) (snd <$> map_to_list m)) as Hin by (rewrite El; left).
    apply list_elem_of_filter in Hin as [HP Hin]. apply list_elem_of_fmap in Hin as ([k r'] & Er & Hin). simpl in Er. subst r'.
    apply elem_of_map_to_list in Hin. rewrite (H _ _ Hin) in HP. done.
Qed.

Lemma has_row_false P m : has_row P m = false <-> forall k r, m !! k = Some r -> P r = false.
Proof. unfold has_row. rewrite <- find_row_None. by destruct (find_row P m). Qed.

Lemma insert_row_inl id (r : A) c m m' :
  insert_row id r c m = inl m' -> m !! id = None /\ (forall k r, m !! k = Some r -> c r = false) /\ m' = <[id := r]> m.
Proof.
  unfold insert_row. case_bool_decide as Hid; [done|]. destruct (has_row c m) eqn:Hc; [done|]. intros [= <-].
  rewrite has_row_false in Hc. apply eq_None_not_Some in Hid. done.
Qed.

Lemma lookup_update_rows P f m k : update_rows P f m !! k = (fun r => if P r then f r else r) <$> m !! k.
Proof. unfold update_rows. apply lookup_fmap. Qed.

(** Rows stay, related to what they were. *)
Definition rows_evolve (R : A -> A -> Prop) (m m' : gmap Z A) : Prop :=
  forall k r, m !! k = Some r -> exists r', m' !! k = Some r' /\ R r r'.

#[export] Instance rows_evolve_preorder R `{!PreOrder R} : PreOrder (rows_evolve R).
Proof.
  split.
  - intros m k r Hr. exists r. split; [done|reflexivity].
  - intros m1 m2 m3 H1 H2 k r Hr. apply H1 in Hr as (r' & Hr' & ?). apply H2 in Hr' as (r'' & ? & ?).
    exists r''. split; [done|by etrans].
Qed.

Lemma rows_evolve_update R `{!PreOrder R} P f m : (forall r, P r = true -> R r (f r)) -> rows_evolve R m (update_rows P f m).
Proof.
  intros Hf k r Hr. rewrite lookup_update_rows, Hr. eexists. split; [done|]. simpl. destruct (P r) eqn:HP; [by apply Hf|reflexivity].
Qed.

Lemma rows_evolve_insert R `{!PreOrder R} id (x : A) m : m !! id = None -> rows_evolve R m (<[id := x]> m).
Proof.
  intros Hid k r Hr. exists r. split; [|reflexivity]. rewrite lookup_insert_ne; [done|]. congruence.
Qed.
End rows.

(** ** How rows may change

    [same] is what never changes, [mark] a time that is set at most once. *)
Definition row_rel {A B} (same : A -> B) (mark : A -> Timestamptz) (r r' : A) : Prop :=
  same r = same r' /\ (mark r <> None -> mark r' = mark r).

#[export] Instance row_rel_preorder {A B} (same : A -> B) mark : PreOrder (row_rel same mark).
Proof.
  split; [by intros r|]. intros r1 r2 r3 [H1 M1] [H2 M2]. split; [congruence|]. intros Hn. rewrite M2; [auto|]. by rewrite M1.
Qed.

Definition user_rel := row_rel (fun u => (u_ID u, u_NormalizedPrimaryEmail u, u_DisabledAt u, u_CanImpersonateUsers u)) u_EmailVerifiedAt.
Definition identity_rel := row_rel (fun i => (i_ID i, i_UserID i, i_Provider i, i_ProviderSubject i)) (fun _ => None).
Definition tenant_rel := row_rel t_ID t_DeletedAt.
Definition membership_rel := row_rel (fun m => (m_ID m, m_TenantID m, m_UserID m)) m_DisabledAt.
Definition session_rel :=
  row_rel (fun s => (s_ID s, s_UserID s, s_ExpiresAt s, s_ActorUserID s, s_ImpersonationID s)) s_RevokedAt.
Definition token_rel :=
  row_rel (fun o => (o_ID o, o_Purpose o, o_TokenHash o, o_UserID o, o_TenantID o, o_NormalizedEmail o, o_ExpiresAt o)) o_ConsumedAt.
Definition state_rel := row_rel (fun g => (g_ID g, g_StateHash g, g_NonceHash g, g_ExpiresAt g)) g_ConsumedAt.
Definition attempt_rel := row_rel (fun a => (a_ID a, a_Purpose a, a_NormalizedEmail a, a_IpHash a)) (fun _ => None).
Definition event_rel := row_rel (fun e : Event => e) (fun _ => None).

#[export] Instance user_rel_preorder : PreOrder user_rel := row_rel_preorder _ _.
#[export] Instance identity_rel_preorder : PreOrder identity_rel := row_rel_preorder _ _.
#[export] Instance tenant_rel_preorder : PreOrder tenant_rel := row_rel_preorder _ _.
#[export] Instance membership_rel_preorder : PreOrder membership_rel := row_rel_preorder _ _.
#[export] Instance session_rel_preorder : PreOrder session_rel := row_rel_preorder _ _.
#[export] Instance token_rel_preorder : PreOrder token_rel := row_rel_preorder _ _.
#[export] Instance state_rel_preorder : PreOrder state_rel := row_rel_preorder _ _.
#[export] Instance attempt_rel_preorder : PreOrder attempt_rel := row_rel_preorder _ _.
#[export] Instance event_rel_preorder : PreOrder event_rel := row_rel_preorder _ _.

Record evolves (d d' : db) : Prop := {
  ev_users : rows_evolve user_rel (users d) (users d');
  ev_identities : rows_evolve identity_rel (identities d) (identities d');
  ev_tenants : rows_evolve tenant_rel (tenants d) (tenants d');
  ev_memberships : rows_evolve membership_rel (memberships d) (memberships d');
  ev_sessions : rows_evolve session_rel (sessions d) (sessions d');
  ev_tokens : rows_evolve token_rel (tokens d) (tokens d');
  ev_states : rows_evolve state_rel (states d) (states d');
  ev_attempts : rows_evolve attempt_rel (attempts d) (attempts d');
  ev_events : rows_evolve event_rel (events d) (events d')
}.

#[export] Instance evolves_preorder : PreOrder evolves.
Proof.
  split; [intros d; split; reflexivity|]. intros d1 d2 d3 [] []. split; by etrans.
Qed.

(** ** What holds of the tables

    Rows carry their identifiers, and the unique indexes on which the code
    relies: the hashes of one-time tokens, and the active memberships. *)
Definition unique_on {A} (same : A -> A -> Prop) (m : gmap Z A) : Prop :=
  forall k k' r r', m !! k = Some r -> m !! k' = Some r' -> same r r' -> k = k'.

Definition same_active (m m' : Membership) : Prop :=
  m_UserID m = m_UserID m' /\ m_TenantID m = m_TenantID m' /\ m_DisabledAt m = None /\ m_DisabledAt m' = None.

Record db_ok (d : db) : Prop := {
  ok_users : map_Forall (fun k u => u_ID u = k) (users d);
  ok_tenants : map_Forall (fun k t => t_ID t = k) (tenants d);
  ok_sessions : map_Forall (fun k s => s_ID s = Some k) (sessions d);
  ok_tokens : unique_on (fun o o' => o_TokenHash o = o_TokenHash o') (tokens d);
  ok_memberships : unique_on same_active (memberships d)
}.

Definition keeps_ok (d d' : db) : Prop := db_ok d -> db_ok d'.
#[export] Instance keeps_ok_preorder : PreOrder keeps_ok.
Proof. split; [intros d H; exact H|]. intros d1 d2 d3 H1 H2 H. apply H2, H1, H. Qed.

(** ** Automation *)
Ltac stmt_cases :=
  cbv beta zeta in *;
  repeat match goal with
  | H : (if ?b then _ else _) = inl _ |- _ => destruct b eqn:?
  | H : context [match insert_row ?i ?r ?c ?m with _ => _ end] |- _ => destruct (insert_row i r c m) eqn:?
  | H : match ?x with _ => _ end = inl _ |- _ => destruct x eqn:?
  | H : inr _ = inl _ |- _ => discriminate H
  | H : inl _ = inl _ |- _ => injection H as; subst
  | H : insert_row _ _ _ _ = inl _ |- _ => apply insert_row_inl in H as (? & ? & ->)
  end.

(** Runs through the body of an operation, with [stmt] for its statements. *)
Ltac walk_step :=
  lazymatch goal with
  | |- forall _, _ => intros
  | |- preserves _ (mbind _ _) => apply preserves_bind; [typeclasses eauto| |]
  | |- preserves _ (mret _) => apply preserves_ret; typeclasses eauto
  | |- preserves _ (throw _) => apply preserves_throw; typeclasses eauto
  | |- preserves _ (draw _) => apply preserves_draw; typeclasses eauto
  | |- preserves _ newUUID => apply preserves_draw; typeclasses eauto
  | |- preserves _ clock => apply preserves_draw; typeclasses eauto
  | |- preserves _ secret => apply preserves_draw; typeclasses eauto
  | |- preserves _ (require _ _) => apply preserves_require; typeclasses eauto
  | |- preserves _ (catch _) => apply preserves_catch
  | |- preserves _ (ignore _) => apply preserves_ignore; [typeclasses eauto|]
  | |- preserves _ (or_no_rows _ _) => apply preserves_or_no_rows; [typeclasses eauto|]
  | |- preserves _ (fun s => (Panic _, s)) => apply preserves_panic; typeclasses eauto
  | |- preserves _ (match ?x with _ => _ end) => destruct x
  | |- s_preserves _ (mbind _ _) => apply s_preserves_bind; [typeclasses eauto| |]
  | |- s_preserves _ (mret _) => apply s_preserves_ret; typeclasses eauto
  | |- s_preserves _ (fail _) => apply s_preserves_fail; typeclasses eauto
  | |- s_preserves _ (s_draw _) => apply s_preserves_draw; typeclasses eauto
  | |- s_preserves _ (send _) => apply s_preserves_send; typeclasses eauto
  | |- s_preserves _ (check _ _) => apply s_preserves_check; typeclasses eauto
  | |- s_preserves _ (need _ _) => apply s_preserves_need; typeclasses eauto
  | |- s_preserves _ currentAuthData => apply s_preserves_need; typeclasses eauto
  | |- s_preserves _ (or_invalid _) => apply s_preserves_or_invalid; typeclasses eauto
  | |- s_preserves _ (try _) => apply s_preserves_try
  | |- s_preserves _ (transaction _) => apply s_preserves_run; [typeclasses eauto|]
  | |- s_preserves _ (direct _) => apply s_preserves_run; [typeclasses eauto|]
  | |- s_preserves _ (fun s => (Panic _, s)) => apply s_preserves_panic; typeclasses eauto
  | |- s_preserves _ (match ?x with _ => _ end) => destruct x
  end.

Ltac walk stmt := repeat first [solve [stmt] | walk_step].

Ltac total_walk :=
  repeat lazymatch goal with
  | |- forall _, _ => intros
  | |- total (mret _) => apply total_ret
  | |- total (send _) => apply total_send
  | |- total (s_draw _) => apply total_draw
  | |- total (mbind _ _) => apply total_bind
  | |- total (match ?x with _ => _ end) => destruct x
  end.

Ltac atomic_walk stmt :=
  repeat lazymatch goal with
  | |- forall _, _ => intros
  | |- atomic (transaction _) => apply atomic_run
  | |- atomic (direct _) => apply atomic_run
  | |- atomic (try _) => apply atomic_try
  | |- atomic (match ?x with _ => _ end) => destruct x
  | |- atomic (mbind _ _) =>
    first [apply atomic_bind_total; [|solve [total_walk]] | apply atomic_bind_read; [solve [walk stmt]|]]
  | |- atomic _ => apply atomic_read; solve [walk stmt]
  end.
End AuthLogic.


Create HintDb auth_step.

Module AuthStatements.
Import AuthTokens AuthStore AuthService AuthLogic.

(** Unfolds a statement and splits its cases. *)
Ltac open_stmt :=
  apply preserves_statement; [typeclasses eauto|]; intros ?d ?a ?d' ?H; unfold select, update_returning in *; stmt_cases.

Ltac evolve_stmt :=
  split; cbn -[rows_evolve]; try reflexivity;
  first [ apply rows_evolve_insert; [typeclasses eauto|done]
        | apply rows_evolve_update; [typeclasses eauto|]; intros ?r ?HP; split; [reflexivity|]; simpl; intros ?Hm;
          first [reflexivity | unfold coalesce; by case_match
                | exfalso; revert HP; unfold consumable, null; rewrite ?andb_true_iff, ?bool_decide_eq_true; intuition congruence] ].

(** The tables keep what holds of them. *)
Lemma ids_insert {A B} (id : A -> B) (key : Z -> B) (m : gmap Z A) k r :
  id r = key k -> map_Forall (fun k r => id r = key k) m -> map_Forall (fun k r => id r = key k) (<[k := r]> m).
Proof. intros Hr Hm. by apply map_Forall_insert_2. Qed.

Lemma ids_update {A B} (id : A -> B) (key : Z -> B) P f (m : gmap Z A) :
  (forall r, id (f r) = id r) -> map_Forall (fun k r => id r = key k) m -> map_Forall (fun k r => id r = key k) (update_rows P f m).
Proof.
  intros Hf Hm k r. rewrite lookup_update_rows. destruct (m !! k) as [r0|] eqn:E; [|done]. intros [= <-].
  destruct (P r0); [rewrite Hf|]; by apply Hm.
Qed.

Lemma unique_insert {A} (same : A -> A -> Prop) (m : gmap Z A) k r :
  (forall r r', same r r' -> same r' r) -> (forall k' r', m !! k' = Some r' -> ~ same r' r) -> unique_on same m -> unique_on same (<[k := r]> m).
Proof.
  intros Hsym Hr Hm k1 k2 r1 r2 H1 H2 Hs.
  destruct (decide (k1 = k)) as [->|N1], (decide (k2 = k)) as [->|N2]; [done|..];
    rewrite ?lookup_insert_eq in *; rewrite ?lookup_insert_ne in * by done; simplify_eq.
  - exfalso. by eapply Hr, Hsym.
  - exfalso. by eapply Hr.
  - by eapply Hm.
Qed.

Lemma unique_update {A} (same : A -> A -> Prop) (P : A -> bool) f (m : gmap Z A) :
  (forall r r', same (if P r then f r else r) (if P r' then f r' else r') -> same r r') -> unique_on same m -> unique_on same (update_rows P f m).
Proof.
  intros Hf Hm k1 k2 r1 r2. rewrite !lookup_update_rows. destruct (m !! k1) as [a1|] eqn:E1, (m !! k2) as [a2|] eqn:E2; try done.
  intros [= <-] [= <-] Hs. by eapply Hm, Hf.
Qed.

Lemma same_active_sym m m' : same_active m m' -> same_active m' m.
Proof. unfold same_active. intuition congruence. Qed.

Lemma active_in_spec user tenant m :
  active_in user tenant m = true <-> m_UserID m = user /\ m_TenantID m = tenant /\ m_DisabledAt m = None.
Proof. unfold active_in, null. rewrite !andb_true_iff, !Z.eqb_eq, bool_decide_eq_true. tauto. Qed.

Ltac ok_stmt :=
  intros ?Hok; destruct Hok; split; cbn; try assumption;
  first
    [ apply (ids_insert _ (fun k => k)) || apply (ids_insert _ Some); [reflexivity|assumption]
    | apply (ids_update _ (fun k => k)) || apply (ids_update _ Some); [reflexivity|assumption]
    | apply unique_insert; [by intros| |assumption]; intros ?k' ?r' ?Hr'; cbn;
      match goal with H : forall k r, _ -> String.eqb _ _ = false |- _ => apply H in Hr'; by apply String.eqb_neq in Hr' end
    | apply unique_insert; [apply same_active_sym| |assumption]; intros ?k' ?r' ?Hr' (? & ? & ? & ?);
      match goal with H : find_row _ _ = None |- _ => rewrite find_row_None in H; apply H in Hr'; apply not_true_iff_false in Hr'; apply Hr'; by rewrite active_in_spec end
    | apply unique_update; [|assumption]; intros ?r ?r'; unfold same_active, with_disabled, coalesce, with_consumed, with_role; repeat case_match; simpl; intuition congruence ].

(** How statements change the database: rows evolve, and the tables keep what
    holds of them. *)
Definition step (d d' : db) : Prop := evolves d d' /\ keeps_ok d d'.

#[export] Instance step_preorder : PreOrder step.
Proof. split; [intros d; split; reflexivity|]. intros d1 d2 d3 [] []. split; by etrans. Qed.

Ltac step_stmt := open_stmt; first [reflexivity | split; [evolve_stmt|ok_stmt]].

Section statements.
Context {E : Env} {K : Collation}.

Lemma CreateUser_step arg : preserves step (CreateUser arg).
Proof. step_stmt. Qed.
Lemma GetUserByID_step id : preserves step (GetUserByID id).
Proof. step_stmt. Qed.
Lemma GetUserByNormalizedEmail_step e : preserves step (GetUserByNormalizedEmail e).
Proof. step_stmt. Qed.
Lemma MarkUserEmailVerified_step id : preserves step (MarkUserEmailVerified id).
Proof. step_stmt. Qed.
Lemma UpdateUserProfileFromProvider_step id n v : preserves step (UpdateUserProfileFromProvider id n v).
Proof. step_stmt. Qed.
Lemma CreateAuthIdentity_step arg : preserves step (CreateAuthIdentity arg).
Proof. step_stmt. Qed.
Lemma GetAuthIdentityByProviderSubject_step p s : preserves step (GetAuthIdentityByProviderSubject p s).
Proof. step_stmt. Qed.
Lemma GetEmailIdentityForLogin_step s : preserves step (GetEmailIdentityForLogin s).
Proof. step_stmt. Qed.
Lemma UpdateIdentityPasswordHash_step id h : preserves step (UpdateIdentityPasswordHash id h).
Proof. step_stmt. Qed.
Lemma CreateTenant_step id n : preserves step (CreateTenant id n).
Proof. step_stmt. Qed.
Lemma UpdateTenantName_step id n : preserves step (UpdateTenantName id n).
Proof. step_stmt. Qed.
Lemma SoftDeleteTenant_step id : preserves step (SoftDeleteTenant id).
Proof. step_stmt. Qed.
Lemma CreateOrganizationMembership_step arg : preserves step (CreateOrganizationMembership arg).
Proof. step_stmt. Qed.
Lemma GetActiveMembership_step u t : preserves step (GetActiveMembership u t).
Proof. step_stmt. Qed.
Lemma ListUserMemberships_step u : preserves step (ListUserMemberships u).
Proof. step_stmt. Qed.
Lemma ListTenantMembers_step t : preserves step (ListTenantMembers t).
Proof. step_stmt. Qed.
Lemma CountActiveOwners_step t : preserves step (CountActiveOwners t).
Proof. step_stmt. Qed.
Lemma UpdateMembershipRole_step t u r : preserves step (UpdateMembershipRole t u r).
Proof. step_stmt. Qed.
Lemma DisableMembership_step t u : preserves step (DisableMembership t u).
Proof. step_stmt. Qed.
Lemma CreateRefreshSession_step arg : preserves step (CreateRefreshSession arg).
Proof. step_stmt. Qed.
Lemma GetRefreshSessionByID_step id : preserves step (GetRefreshSessionByID id).
Proof. step_stmt. Qed.
Lemma RotateRefreshSession_step id h g : preserves step (RotateRefreshSession id h g).
Proof. step_stmt. Qed.
Lemma SetRefreshSessionTenant_step id t : preserves step (SetRefreshSessionTenant id t).
Proof. step_stmt. Qed.
Lemma RevokeRefreshSession_step id r : preserves step (RevokeRefreshSession id r).
Proof. step_stmt. Qed.
Lemma RevokeUserRefreshSessions_step u r : preserves step (RevokeUserRefreshSessions u r).
Proof. step_stmt. Qed.
Lemma CreateOneTimeToken_step arg : preserves step (CreateOneTimeToken arg).
Proof. step_stmt. Qed.
Lemma ConsumeOneTimeToken_step h p : preserves step (ConsumeOneTimeToken h p).
Proof. step_stmt. Qed.
Lemma CreateOAuthState_step arg : preserves step (CreateOAuthState arg).
Proof. step_stmt. Qed.
Lemma ConsumeOAuthState_step h : preserves step (ConsumeOAuthState h).
Proof. step_stmt. Qed.
Lemma UpsertAuthAttempt_step id p e i : preserves step (UpsertAuthAttempt id p e i).
Proof. step_stmt. Qed.
Lemma CreateAuthEvent_step e : preserves step (CreateAuthEvent e).
Proof. step_stmt. Qed.
End statements.
#[export] Hint Resolve CreateUser_step GetUserByID_step GetUserByNormalizedEmail_step MarkUserEmailVerified_step
  UpdateUserProfileFromProvider_step CreateAuthIdentity_step GetAuthIdentityByProviderSubject_step
  GetEmailIdentityForLogin_step UpdateIdentityPasswordHash_step CreateTenant_step UpdateTenantName_step SoftDeleteTenant_step
  CreateOrganizationMembership_step GetActiveMembership_step ListUserMemberships_step ListTenantMembers_step
  CountActiveOwners_step UpdateMembershipRole_step DisableMembership_step CreateRefreshSession_step GetRefreshSessionByID_step
  RotateRefreshSession_step SetRefreshSessionTenant_step RevokeRefreshSession_step RevokeUserRefreshSessions_step
  CreateOneTimeToken_step ConsumeOneTimeToken_step CreateOAuthState_step ConsumeOAuthState_step UpsertAuthAttempt_step
  CreateAuthEvent_step : auth_step.
End AuthStatements.
