(* ===== verification/AuthProofs.v ===== *)
(** * What the authentication service promises

    The properties of the operations of [AuthService], for every sequence of calls
    with arbitrary requests, randomness, times and database failures: rows only
    evolve in the allowed directions, one-time tokens are used once, ended sessions
    stay out, access tokens are only issued for active members, workspaces keep
    their owners, and calls that do not succeed change nothing.  A scenario at the
    end evaluates the model, and shows where the code does not do what it means
    to. *)
From stdpp Require Import base tactics list gmap strings.
From Stdlib Require Import ZArith Lia Ascii.
From S2P Require Import Prelude GoStrings Middleware Http Errs AuthTokens AuthStore AuthService AuthLogic.

Module AuthProofs.
Import AuthTokens AuthStore AuthService AuthLogic AuthStatements.

Ltac by_step := walk ltac:(eauto 1 with auth_step nocore).

Lemma preserves_Ret (P : db -> db -> Prop) {A} (m : Q A) s a s' : preserves P m -> m s = (Ret a, s') -> P (q_db s) (q_db s').
Proof. intros Hm H. specialize (Hm s). by rewrite H in Hm. Qed.

Lemma preserves_step_ok {A} (m : Q A) s a s' : preserves step m -> m s = (Ret a, s') -> db_ok (q_db s) -> db_ok (q_db s').
Proof. intros Hm H. by apply (preserves_Ret _ _ _ _ _ Hm H). Qed.

(** What holds of the tables, after every part of a run. *)
Ltac known_ok :=
  repeat match goal with
  | H : ?m ?s = (Ret _, ?s'), Hok : db_ok (q_db ?s) |- _ =>
    lazymatch goal with H' : db_ok (q_db s') |- _ => fail | _ => idtac end;
    let Hn := fresh "Hok" in
    assert (db_ok (q_db s')) as Hn by (refine (preserves_step_ok m s _ s' _ H Hok); by_step)
  | H : q_db ?s' = q_db ?s, Hok : db_ok (q_db ?s) |- _ =>
    lazymatch goal with H' : db_ok (q_db s') |- _ => fail | _ => idtac end;
    let Hn := fresh "Hok" in assert (db_ok (q_db s')) as Hn by (by rewrite H)
  end.
(** ** Every call makes a step *)
Section parts.
Context {UT : UnicodeTables} {L : AuthLib} {C : AuthConfig} {E : Env} {K : Collation} {R : Request} {G : GoogleLib}.

Lemma buildBootstrap_step u t s : preserves step (buildBootstrap u t s).
Proof. unfold buildBootstrap. by_step. Qed.
Lemma ensureActiveTenant_step u p : preserves step (ensureActiveTenant u p).
Proof. unfold ensureActiveTenant. by_step. Qed.
Lemma recordEvent_step e u a t s m : preserves step (recordEvent e u a t s m).
Proof. unfold recordEvent. by_step. Qed.
Lemma checkRateLimit_step p e : preserves step (checkRateLimit p e).
Proof. unfold checkRateLimit. by_step. Qed.
Lemma createOneTimeToken_step p u t e n m ttl : preserves step (createOneTimeToken p u t e n m ttl).
Proof. unfold createOneTimeToken. by_step. Qed.
Lemma rotateRefreshSession_step t : preserves step (rotateRefreshSession t).
Proof. unfold rotateRefreshSession. by_step. Qed.
Lemma requireOwner_step u t : preserves step (requireOwner u t).
Proof. unfold requireOwner. by_step. Qed.
Lemma ensureCanRemoveOwner_step t : preserves step (ensureCanRemoveOwner t).
Proof. unfold ensureCanRemoveOwner. by_step. Qed.
Lemma google_user_step c e : preserves step (google_user c e).
Proof. unfold google_user. by_step. Qed.
#[local] Hint Resolve buildBootstrap_step ensureActiveTenant_step recordEvent_step checkRateLimit_step createOneTimeToken_step
  rotateRefreshSession_step requireOwner_step ensureCanRemoveOwner_step google_user_step : auth_step.

Lemma createAuthSessionResponse_step u t ttl a i r : preserves step (createAuthSessionResponse u t ttl a i r).
Proof. unfold createAuthSessionResponse, createRefreshSession, session_cookie. by_step. Qed.
Lemma scoped_step d u t : preserves step (scoped d u t).
Proof. unfold scoped, sessionForAuthData. by_step. Qed.
#[local] Hint Resolve createAuthSessionResponse_step scoped_step : auth_step.
Lemma sign_in_step e u : preserves step (sign_in e u).
Proof. unfold sign_in. by_step. Qed.
#[local] Hint Resolve sign_in_step : auth_step.
Lemma ListOrganizationMembers_step t : s_preserves step (ListOrganizationMembers t).
Proof. unfold ListOrganizationMembers. by_step. Qed.
Lemma resolveDevBootstrapEmailDefault_step e t : s_preserves step (resolveDevBootstrapEmailDefault e t).
Proof. unfold resolveDevBootstrapEmailDefault. by_step. Qed.
Lemma finishGoogleSignIn_step c : s_preserves step (finishGoogleSignIn c).
Proof. unfold finishGoogleSignIn. by_step. Qed.
#[local] Hint Resolve ListOrganizationMembers_step resolveDevBootstrapEmailDefault_step finishGoogleSignIn_step : auth_step.

Lemma perform_step c : s_preserves step (perform c).
Proof.
  destruct c; cbn [perform]; unfold answering;
    unfold SignupEmail, ConfirmEmailVerification, ResendEmailVerification, LoginEmail, Refresh, Logout, Me, RequestPasswordReset,
      ConfirmPasswordReset, ListOrganizations, CreateOrganization, SwitchOrganization, UpdateOrganization, DeleteOrganization,
      InviteOrganizationMember, AcceptInvite, UpdateOrganizationMemberRole, DisableOrganizationMember, memberMutationIDs,
      StartImpersonation, StopImpersonation, GoogleStart, GoogleCallback, DevBootstrap; by_step.
Qed.

(** ** Results of the parts *)
(** An event changes nothing else. *)
Definition only_events (d d' : db) : Prop := d' = set_events (events d') d.
#[local] Instance only_events_preorder : PreOrder only_events.
Proof. split; [by intros []|]. intros [] [] []. unfold only_events, set_events. simpl. congruence. Qed.

Lemma recordEvent_only e u a t sid md : preserves only_events (recordEvent e u a t sid md).
Proof. unfold recordEvent. walk ltac:(open_stmt; reflexivity). Qed.

(** A membership that gives access. *)
Definition member (d : db) (user tenant : Z) : Prop :=
  exists k m t, memberships d !! k = Some m /\ m_UserID m = user /\ m_TenantID m = tenant /\ m_DisabledAt m = None /\
                tenants d !! tenant = Some t /\ t_DeletedAt t = None.

Lemma user_memberships_member d user r : r ∈ user_memberships d user -> member d user (m_TenantID (lum_membership r)).
Proof.
  unfold user_memberships. rewrite sort_stable_perm. intros (m & Hm & Hr)%list_elem_of_omap.
  apply list_elem_of_fmap in Hm as ([k m'] & Em & Hm). simpl in Em. subst m'. apply elem_of_map_to_list in Hm.
  unfold user_membership_row in Hr. destruct (tenants d !! m_TenantID m) as [t|] eqn:Et; [|done].
  destruct ((m_UserID m =? user) && _ && _) eqn:Eb; [|done]. injection Hr as <-. simpl.
  rewrite !andb_true_iff, Z.eqb_eq in Eb. unfold null in Eb. rewrite !bool_decide_eq_true in Eb. destruct Eb as [[Hu Hd] Ht].
  exists k, m, t. by rewrite Et.
Qed.

Lemma uuid_text_inj `{!UuidLaws L} u v : uuid_text u = uuid_text v -> u = v.
Proof. intros H. assert (Some u = Some v) as [= ->] by (by rewrite <- !scan_text, H). done. Qed.

(** What a bootstrap response says: the token was made for the user and the
    workspace, of which the user is an active member. *)
Definition bootstrap_for (d : db) (user tenant : Z) (session : RefreshSession) (b : AuthBootstrapResponse) : Prop :=
  member d user tenant /\ CurrentTenantID b = uuid_text tenant /\
  exists now, GenerateAccessToken now {| opt_data := access_data user tenant session; ExpiresIn := defaultAccessTokenTTL; Now := Some now |} = Ret (Token b).

Lemma buildBootstrap_Ret `{!UuidLaws L} u t session s b s' :
  buildBootstrap u t session s = (Ret b, s') -> q_db s' = q_db s /\ bootstrap_for (q_db s) (u_ID u) t session b.
Proof.
  unfold buildBootstrap. intros H. inv_run. apply statement_Ret in H0 as [H0 _]. injection H0 as <- H0.
  destruct (GenerateAccessToken _ _) as [token| |] eqn:Et; inv_run. split; [congruence|].
  split_and!; [|done|by eexists].
  apply existsb_exists in Hb as (r & Hr & Hb). apply String.eqb_eq, uuid_text_inj in Hb. rewrite <- Hb.
  apply user_memberships_member. by apply list_elem_of_In.
Qed.

Lemma createAuthSessionResponse_Ret `{!UuidLaws L} u t ttl ac im re s r s' :
  createAuthSessionResponse u t ttl ac im re s = (Ret r, s') ->
  exists id session raw, sessions (q_db s) !! id = None /\ q_db s' = set_sessions (<[id := session]> (sessions (q_db s))) (q_db s) /\
    s_ID session = Some id /\ s_UserID session = Some (u_ID u) /\ s_RevokedAt session = None /\
    cookie_Value (SetCookie r) = Strings.TrimSpace (newRefreshToken id raw) /\ s_TokenHash session = tokenHash (newRefreshToken id raw) /\
    s_ActorUserID session = ac /\ s_ImpersonationID session = im /\
    bootstrap_for (q_db s') (u_ID u) t session (bootstrap r).
Proof.
  unfold createAuthSessionResponse, createRefreshSession, session_cookie. intros H. inv_run.
  match goal with H : buildBootstrap _ _ _ _ = _ |- _ => apply buildBootstrap_Ret in H as [Hd Hb] end.
  match goal with H : CreateRefreshSession _ _ = _ |- _ => apply statement_Ret in H as [Hc _] end. cbv beta zeta in Hc. stmt_cases.
  assert (q_db s3 = q_db s) as Hs by congruence. assert (q_db s' = q_db s0) as Hs' by congruence. rewrite Hs in *.
  eexists _, _, _. rewrite Hs'. split_and!; try done.
Qed.

Lemma only_events_fields d d' : only_events d d' ->
  users d' = users d /\ sessions d' = sessions d /\ tokens d' = tokens d /\ memberships d' = memberships d /\ tenants d' = tenants d.
Proof. intros ->. by split_and!. Qed.

Lemma bootstrap_for_events d d' u t session b : only_events d d' -> bootstrap_for d u t session b -> bootstrap_for d' u t session b.
Proof. intros ->. done. Qed.

(** Users and sessions stay as they are while a workspace is made sure of. *)
Definition same_users (d d' : db) : Prop := users d' = users d /\ sessions d' = sessions d /\ tokens d' = tokens d.
#[local] Instance same_users_preorder : PreOrder same_users.
Proof. split; [by intros d|]. intros d1 d2 d3 (? & ? & ?) (? & ? & ?). split_and!; congruence. Qed.

Lemma ensureActiveTenant_same u p : preserves same_users (ensureActiveTenant u p).
Proof. unfold ensureActiveTenant. walk ltac:(open_stmt; by split_and!). Qed.

Lemma ensureActiveTenant_Ret u p s t s' :
  ensureActiveTenant u p s = (Ret t, s') -> u_EmailVerifiedAt u <> None /\ u_DisabledAt u = None /\ same_users (q_db s) (q_db s').
Proof.
  intros H. pose proof (preserves_Ret _ _ _ _ _ (ensureActiveTenant_same u p) H) as Hsame.
  unfold ensureActiveTenant in H. apply bind_Ret in H as (? & ? & Hv & H). apply bind_Ret in H as (? & ? & Hn & _).
  apply require_Ret in Hv as [Hv _]. apply require_Ret in Hn as [Hn _]. unfold null in *.
  apply negb_true_iff, bool_decide_eq_false in Hv. by apply bool_decide_eq_true in Hn.
Qed.

(** What a response with a refresh cookie says: a new session of a verified,
    enabled user, whose secret the cookie holds. *)
Definition session_issued (d : db) (u : User) (r : AuthSessionResponse) : Prop :=
  users d !! u_ID u = Some u /\ u_EmailVerifiedAt u <> None /\ u_DisabledAt u = None /\
  exists id session tenant, sessions d !! id = Some session /\ s_ID session = Some id /\ s_UserID session = Some (u_ID u) /\
    s_RevokedAt session = None /\ s_TokenHash session = tokenHash (cookie_Value (SetCookie r)) /\
    bootstrap_for d (u_ID u) tenant session (bootstrap r).

Lemma tokenHash_trim t : tokenHash (Strings.TrimSpace t) = tokenHash t.
Proof. unfold tokenHash. by rewrite Strings.TrimSpace_idemp. Qed.

(** The steps that every sign-in ends with. *)
Lemma sign_in_ends `{!UuidLaws L} u p ttl ac im re ev eu ea et es md s r s' t s0 s1 s2 x :
  users (q_db s) !! u_ID u = Some u ->
  ensureActiveTenant u p s = (Ret t, s0) -> createAuthSessionResponse u t ttl ac im re s1 = (Ret r, s2) ->
  recordEvent ev eu ea et es md s2 = (Ret x, s') -> q_db s1 = q_db s0 ->
  session_issued (q_db s') u r /\ (forall k v, sessions (q_db s) !! k = Some v -> sessions (q_db s') !! k = Some v) /\
  tokens (q_db s') = tokens (q_db s).
Proof.
  intros Hu He Hc Hr Hs. apply ensureActiveTenant_Ret in He as (Hv & Hn & Hus & Hses & Htok). rewrite <- Hs in *.
  apply createAuthSessionResponse_Ret in Hc as (id & session & raw & Hid & Hd & ? & ? & ? & Hck & Hth & ? & ? & Hb).
  pose proof (preserves_Ret _ _ _ _ _ (recordEvent_only ev eu ea et es md) Hr) as Ho.
  pose proof (bootstrap_for_events _ _ _ _ _ _ Ho Hb) as Hb'. apply only_events_fields in Ho as (Ho1 & Ho2 & Ho3 & _).
  rewrite Hd in Ho1, Ho2, Ho3. simpl in Ho1, Ho2, Ho3. unfold session_issued. rewrite Ho1, Ho2, Ho3, Hus, Htok, Hses in *. split_and!; try done.
  - exists id, session, t. rewrite lookup_insert_eq, Hck, tokenHash_trim. done.
  - intros k v Hk. rewrite lookup_insert_ne; [done|]. congruence.
Qed.

Lemma sign_in_Ret `{!UuidLaws L} ev u s r s' :
  users (q_db s) !! u_ID u = Some u -> sign_in ev u s = (Ret r, s') ->
  session_issued (q_db s') u r /\ (forall k v, sessions (q_db s) !! k = Some v -> sessions (q_db s') !! k = Some v) /\
  tokens (q_db s') = tokens (q_db s).
Proof. intros Hu H. unfold sign_in in H. inv_run. by eapply sign_in_ends. Qed.

Lemma GetUserByID_same id s u s' : GetUserByID id s = (Ret u, s') -> q_db s' = q_db s.
Proof. intros H. apply statement_Ret in H as [H _]. unfold select in H. by destruct (id ≫= _) as [v|]; simplify_eq. Qed.

Lemma GetUserByID_Ret id s u s' :
  db_ok (q_db s) -> GetUserByID id s = (Ret u, s') -> users (q_db s') !! u_ID u = Some u /\ q_db s' = q_db s /\ id = Some (u_ID u).
Proof.
  intros Hok H. apply statement_Ret in H as [H _]. unfold select in H. destruct id as [k|]; simpl in H; [|done].
  destruct (users (q_db s) !! k) as [v|] eqn:Ek; [|done]. injection H as -> <-.
  rewrite (ok_users _ Hok _ _ Ek). done.
Qed.

Lemma MarkUserEmailVerified_Ret id s u s' :
  db_ok (q_db s) -> MarkUserEmailVerified id s = (Ret u, s') ->
  users (q_db s') !! u_ID u = Some u /\ id = Some (u_ID u) /\ sessions (q_db s') = sessions (q_db s) /\ tokens (q_db s') = tokens (q_db s).
Proof.
  intros Hok H. apply statement_Ret in H as [H _]. unfold update_returning in H. destruct (find_row _ _) as [v|] eqn:Ef; [|done].
  injection H as <- <-. apply find_row_Some in Ef as [Hid [k Hk]]. unfold is_id in Hid. apply bool_decide_eq_true in Hid.
  split_and!; try done. simpl. rewrite lookup_update_rows. pose proof (ok_users _ Hok _ _ Hk) as <-. rewrite Hk. simpl.
  unfold is_id. by rewrite bool_decide_eq_true_2.
Qed.

(** ** Refreshing *)
Lemma session_is_spec id k s : s_ID s = Some k -> session_is (Some id) s = true <-> k = id.
Proof. intros Hk. unfold session_is. rewrite bool_decide_eq_true, Hk. split; [by intros [[= ->] _]|by intros ->]. Qed.

Lemma update_session P f (m : gmap Z RefreshSession) id s :
  map_Forall (fun k s => s_ID s = Some k) m -> m !! id = Some s -> P s = true -> (forall r, P r = true -> session_is (Some id) r = true) ->
  update_rows P f m = <[id := f s]> m.
Proof.
  intros Hids Hs HP Himp. apply map_eq. intros k. rewrite lookup_update_rows. destruct (decide (k = id)) as [->|Hne].
  - by rewrite lookup_insert_eq, Hs; simpl; rewrite HP.
  - rewrite lookup_insert_ne by done. destruct (m !! k) as [r|] eqn:Er; [|done]. simpl. destruct (P r) eqn:Er'; [|done].
    apply Himp in Er'. by apply (session_is_spec id k) in Er'; [|by apply Hids].
Qed.

(** The secret of the token is the current one, or the one before within the
    grace period. *)
Definition secret_matches (t : string) (session : RefreshSession) (now : Z) : Prop :=
  tokenHash t = s_TokenHash session \/ (tokenHash t = s_PreviousTokenHash session /\ after (s_PreviousTokenExpiresAt session) now = true).

Lemma find_session P (m : gmap Z RefreshSession) id r :
  map_Forall (fun k s => s_ID s = Some k) m -> (forall r, P r = true -> session_is (Some id) r = true) -> find_row P m = Some r -> m !! id = Some r.
Proof.
  intros Hids Himp Hf. apply find_row_Some in Hf as [HP [k Hk]]. pose proof (Hids _ _ Hk) as Hid. simpl in Hid.
  apply Himp in HP. by apply (session_is_spec id k) in HP as ->.
Qed.

Lemma rotateRefreshSession_Ret t s rot raw s' :
  db_ok (q_db s) -> rotateRefreshSession t s = (Ret (rot, raw), s') ->
  exists id session now secret, parseRefreshToken t = Some id /\ sessions (q_db s) !! id = Some session /\ s_RevokedAt session = None /\
    after (s_ExpiresAt session) now = true /\ secret_matches t session now /\ raw = newRefreshToken id secret /\
    rot = with_rotation (tokenHash raw) 30000 db_now session /\
    q_db s' = set_sessions (<[id := rot]> (sessions (q_db s))) (q_db s).
Proof.
  intros Hok. unfold rotateRefreshSession. destruct (parseRefreshToken t) as [id|] eqn:Ep; [|done]. intros H. inv_run.
  match goal with H : GetRefreshSessionByID _ _ = _ |- _ => apply statement_Ret in H as [Hg _] end. simpl in Hg.
  unfold select in Hg. destruct (sessions (q_db s) !! id) as [session|] eqn:Es; [|done]. injection Hg as <- Hg.
  rewrite andb_true_iff in Hb. destruct Hb as [Hrev Hexp]. unfold null in Hrev. apply bool_decide_eq_true in Hrev.
  destruct (negb _ && negb _) eqn:Em; [inv_run|]. rewrite andb_false_iff, !negb_false_iff, !andb_true_iff, !String.eqb_eq in Em. inv_run.
  pose proof (ok_sessions _ Hok _ _ Es) as Hid. simpl in Hid. rewrite Hid in H. inv_run.
  match goal with H : RotateRefreshSession _ _ _ _ = _ |- _ => apply statement_Ret in H as [Hr _] end.
  unfold update_returning in Hr. stmt_cases.
  match goal with H : find_row _ (sessions (q_db ?x)) = Some _, Hp : set_sessions _ _ = _ |- _ =>
    assert (q_db x = q_db s) as Hs by congruence; rewrite Hs in H, Hp; rename H into Hf, Hp into Hput end.
  assert (sessions (q_db s) !! id = Some r) as Hr by (eapply find_session; [apply ok_sessions, Hok| |exact Hf]; done).
  rewrite Es in Hr. injection Hr as <-. eexists id, session, _, _. split_and!; try done.
  - unfold secret_matches. destruct Em as [Em|[[_ ?] ?]]; [by left|by right].
  - rewrite <- Hput. f_equal. apply update_session; [apply ok_sessions, Hok|done| |done]. by apply (session_is_spec id id).
Qed.

Lemma SetRefreshSessionTenant_Ret id t s r s' :
  db_ok (q_db s) -> SetRefreshSessionTenant (Some id) t s = (Ret r, s') ->
  exists s0, sessions (q_db s) !! id = Some s0 /\ s_RevokedAt s0 = None /\ r = with_tenant t db_now s0 /\
    q_db s' = set_sessions (<[id := r]> (sessions (q_db s))) (q_db s).
Proof.
  intros Hok H. apply statement_Ret in H as [H _]. unfold update_returning in H. stmt_cases.
  assert (forall r, session_is (Some id) r && null (s_RevokedAt r) = true -> session_is (Some id) r = true) as Himp
    by (intros r'; by rewrite andb_true_iff; intros [? _]).
  match goal with H : find_row _ _ = Some ?s0 |- _ => pose proof (find_session _ _ id _ (ok_sessions _ Hok) Himp H) as Hs;
    apply find_row_Some in H as [HP _]; exists s0 end.
  pose proof HP as Hnull. rewrite andb_true_iff in Hnull. destruct Hnull as [_ Hnull]. apply bool_decide_eq_true in Hnull.
  split_and!; try done. match goal with H : set_sessions _ _ = _ |- _ => rewrite <- H end. f_equal.
  by apply update_session; [apply ok_sessions, Hok|..].
Qed.

(** The state of a session after a refresh. *)
Definition refreshed (old : RefreshSession) (raw : string) (new : RefreshSession) : Prop :=
  s_TokenHash new = tokenHash raw /\ s_PreviousTokenHash new = s_TokenHash old /\
  s_PreviousTokenExpiresAt new = Some (db_now + refreshTokenReplayGrace) /\ s_ExpiresAt new = s_ExpiresAt old /\
  s_ID new = s_ID old /\ s_UserID new = s_UserID old /\ s_RevokedAt new = None.

(** The session follows the workspace in which the user goes on. *)
Lemma sync_tenant (id t : Z) r1 (s7 : qstate) r0 s8 :
  db_ok (q_db s7) -> sessions (q_db s7) !! id = Some r1 -> s_ID r1 = Some id ->
  (if String.eqb (uuid_text t) (uuidString (s_ActiveTenantID r1)) then mret r1 else SetRefreshSessionTenant (s_ID r1) (Some t)) s7 = (Ret r0, s8) ->
  (r0 = r1 \/ r0 = with_tenant (Some t) db_now r1) /\ q_db s8 = set_sessions (<[id := r0]> (sessions (q_db s7))) (q_db s7).
Proof.
  intros Hok Hs Hid. destruct (String.eqb _ _).
  - intros [= <- <-]. split; [by left|]. rewrite insert_id by done. by destruct (q_db s7).
  - rewrite Hid. intros H. apply SetRefreshSessionTenant_Ret in H as (s0 & Hs0 & _ & -> & ->); [|done]. simplify_eq. split; [by right|done].
Qed.

Lemma Refresh_Ret `{!UuidLaws L} p s r s' :
  db_ok (sv_db s) -> Refresh p s = (Ret r, s') ->
  exists id session now new u tenant,
    parseRefreshToken (refreshTokenFromParams p) = Some id /\ sessions (sv_db s) !! id = Some session /\ s_RevokedAt session = None /\
    after (s_ExpiresAt session) now = true /\ secret_matches (refreshTokenFromParams p) session now /\
    users (sv_db s') !! u_ID u = Some u /\ u_EmailVerifiedAt u <> None /\ u_DisabledAt u = None /\ s_UserID session = Some (u_ID u) /\
    sessions (sv_db s') = <[id := new]> (sessions (sv_db s)) /\ refreshed session (cookie_Value (SetCookie r)) new /\
    bootstrap_for (sv_db s') (u_ID u) tenant new (bootstrap r).
Proof.
  intros Hok H. unfold Refresh in H. inv_run. cbn [sv_db].
  match goal with H : rotateRefreshSession _ _ = _ |- _ => pose proof (preserves_step_ok _ _ _ _ (rotateRefreshSession_step _) H) as Hok1;
    apply rotateRefreshSession_Ret in H as (id & session & now & sec & ? & ? & ? & ? & ? & -> & Hrot & Hd1); [|by rewrite Hq] end.
  rewrite Hq in *. specialize (Hok1 Hok). pose proof (ok_sessions _ Hok _ _ ltac:(eassumption)) as Hid. simpl in Hid.
  match goal with H : GetUserByID _ _ = _ |- _ => apply GetUserByID_Ret in H as (Hu & Hd6 & Huid); [|done] end.
  match goal with H : ensureActiveTenant _ _ _ = _ |- _ => pose proof (preserves_step_ok _ _ _ _ (ensureActiveTenant_step _ _) H) as Hok7;
    apply ensureActiveTenant_Ret in H as (Hv & Hn & Hus & Hses & _) end.
  match goal with H : _ = (Ret ?r, ?x), Hb : buildBootstrap _ _ ?r ?x = _ |- _ => apply (sync_tenant id) in H as [Hr0 Hd8];
    [|apply Hok7; by rewrite Hd6|by rewrite Hses, Hd6, Hd1; simpl; apply lookup_insert_eq|by rewrite Hrot] end.
  match goal with H : buildBootstrap _ _ _ _ = _ |- _ => apply buildBootstrap_Ret in H as [Hd9 Hb9] end.
  match goal with H : recordEvent _ _ _ _ _ _ _ = _ |- _ =>
    apply (preserves_Ret _ _ _ _ _ (recordEvent_only _ _ _ _ _ _)) in H; rename H into Hev end.
  pose proof (only_events_fields _ _ Hev) as (Ho1 & Ho2 & _). rewrite <- Hd9 in Hb9.
  eexists id, session, now, _, _, _. split_and!; try eassumption.
  - by rewrite Hd, Ho1, Hd9, Hd8; simpl; rewrite Hus.
  - by rewrite Hrot in Huid.
  - rewrite Hd, Ho2, Hd9, Hd8. simpl. rewrite Hses, Hd6, Hd1. simpl. apply insert_insert_eq.
  - rewrite Hrot in Hr0. unfold refreshed. cbn [SetCookie cookie_Value refreshCookie]. rewrite tokenHash_trim.
    destruct Hr0 as [-> | ->]; simpl; by split_and!.
  - rewrite Hd. by eapply bootstrap_for_events.
Qed.

(** ** What is answered *)
(** The user whom the access token of the request names. *)
Definition caller (user : Z) : Prop := exists data, authData = Some data /\ parseUUID (UserID data) = Some user.

Definition authorized (d : db) (a : answer) : Prop :=
  match a with
  | Nothing => True
  | Bootstrap b => exists user tenant session, caller user /\ bootstrap_for d user tenant session b
  | Session_ r => exists u, session_issued d u r
  end.

Lemma scoped_Ret `{!UuidLaws L} data u t s b session s' :
  scoped data u t s = (Ret (b, session), s') -> bootstrap_for (q_db s') (u_ID u) t session b.
Proof. unfold scoped. intros H. inv_run. by apply buildBootstrap_Ret in H1 as [-> ?]. Qed.

(** The end of the operations on workspaces. *)
Lemma scoped_ends `{!UuidLaws L} data user u t ev eu ea et es md s b session s1 x s' :
  authData = Some data -> parseUUID (UserID data) = Some user -> Some user = Some (u_ID u) ->
  scoped data u t s = (Ret (b, session), s1) -> recordEvent ev eu ea et es md s1 = (Ret x, s') -> authorized (q_db s') (Bootstrap b).
Proof.
  intros Hd Hp [= ->] Hs Hr. apply scoped_Ret in Hs. exists (u_ID u), t, session. split; [by exists data|].
  eapply bootstrap_for_events; [|exact Hs]. apply (preserves_Ret _ _ _ _ _ (recordEvent_only _ _ _ _ _ _) Hr).
Qed.

End parts.

#[export] Hint Resolve buildBootstrap_step ensureActiveTenant_step recordEvent_step checkRateLimit_step createOneTimeToken_step
  rotateRefreshSession_step requireOwner_step ensureCanRemoveOwner_step google_user_step createAuthSessionResponse_step scoped_step
  sign_in_step : auth_step.

(** A relation from one state of a run to a later one, statement by statement. *)
Ltac run_rel tac :=
  repeat match goal with
  | |- ?P ?d ?d => reflexivity
  | H : q_db ?s' = q_db ?s |- ?P (q_db ?s) _ => rewrite <- H; clear H
  | H : ?m ?s = (Ret _, ?s') |- ?P (q_db ?s) _ =>
    transitivity (q_db s'); [refine (preserves_Ret P m s _ s' _ H); solve [tac]|]; clear H
  end.
Ltac run_steps := run_rel ltac:(by_step).

Definition same_sessions (d d' : db) : Prop := sessions d' = sessions d.
#[export] Instance same_sessions_preorder : PreOrder same_sessions.
Proof. split; [by intros d|]. unfold same_sessions. intros d1 d2 d3. congruence. Qed.

Section answers.
Context {UT : UnicodeTables} {L : AuthLib} {C : AuthConfig} {E : Env} {K : Collation} {R : Request} {G : GoogleLib} `{!UuidLaws L}.

Lemma ConfirmEmailVerification_Ret t s r s' :
  db_ok (sv_db s) -> ConfirmEmailVerification t s = (Ret r, s') -> authorized (sv_db s') (Session_ r).
Proof.
  intros Hok H. unfold ConfirmEmailVerification in H. inv_run. rewrite <- Hq in Hok. known_ok.
  match goal with H : MarkUserEmailVerified _ _ = _ |- _ => apply MarkUserEmailVerified_Ret in H as (Hu & _); [|done] end.
  match goal with H : sign_in _ _ _ = _ |- _ => apply sign_in_Ret in H as [Hi _]; [|done] end.
  eexists. by rewrite Hd.
Qed.

Lemma ConfirmPasswordReset_Ret p s r s' :
  db_ok (sv_db s) -> ConfirmPasswordReset p s = (Ret r, s') -> authorized (sv_db s') (Session_ r).
Proof.
  intros Hok H. unfold ConfirmPasswordReset in H. inv_run. cbn in Hq. rewrite <- Hq in Hok. known_ok.
  match goal with H : MarkUserEmailVerified _ _ = _ |- _ => apply MarkUserEmailVerified_Ret in H as (Hu & _); [|done] end.
  match goal with H : RevokeUserRefreshSessions _ _ _ = _ |- _ => apply statement_Ret in H as [Hrev _]; injection Hrev as _ Hrev end.
  match goal with H : sign_in _ _ _ = _ |- _ => apply sign_in_Ret in H as [Hi _]; [|by rewrite <- Hrev] end.
  eexists. by rewrite Hd.
Qed.

Lemma LoginEmail_Ret p s r s' :
  db_ok (sv_db s) -> LoginEmail p s = (Ret r, s') -> authorized (sv_db s') (Session_ r).
Proof.
  intros Hok H. unfold LoginEmail in H. inv_run. rewrite <- Hq in Hok.
  destruct (verifyPassword _ _) as [[[] upgrade]|e|msg]; inv_run. known_ok.
  match goal with H : GetUserByID _ _ = _ |- _ => apply GetUserByID_Ret in H as (Hu & _); [|done] end.
  match goal with H : sign_in _ _ _ = _ |- _ => apply sign_in_Ret in H as [Hi _]; [|done] end.
  eexists. by rewrite Hd.
Qed.

Lemma StartImpersonation_Ret p s r s' :
  db_ok (sv_db s) -> StartImpersonation p s = (Ret r, s') -> authorized (sv_db s') (Session_ r).
Proof.
  intros Hok H. unfold StartImpersonation in H. inv_run. destruct (nullableUUID _); inv_run. rewrite <- Hq in Hok. known_ok.
  match goal with H : GetUserByID _ _ = (Ret ?u, _), Hu : ensureActiveTenant ?u _ _ = _ |- _ => apply GetUserByID_Ret in H as (Hrow & _); [|done] end.
  edestruct sign_in_ends as [Hi _]; [exact Hrow|eassumption..|first [eassumption|reflexivity]|]. eexists. by rewrite Hd.
Qed.

Lemma StopImpersonation_Ret s r s' :
  db_ok (sv_db s) -> StopImpersonation s = (Ret r, s') -> authorized (sv_db s') (Session_ r).
Proof.
  intros Hok H. unfold StopImpersonation in H. inv_run. rewrite <- Hq in Hok. known_ok.
  match goal with H : GetUserByID _ _ = _ |- _ => apply GetUserByID_Ret in H as (Hrow & _); [|done] end.
  edestruct sign_in_ends as [Hi _]; [exact Hrow|eassumption..|first [eassumption|reflexivity]|]. eexists. by rewrite Hd.
Qed.

Lemma Refresh_authorized p s r s' :
  db_ok (sv_db s) -> Refresh p s = (Ret r, s') -> authorized (sv_db s') (Session_ r).
Proof.
  intros Hok H. apply Refresh_Ret in H as (id & session & now & new & u & t & _ & Hs & _ & _ & _ & Hu & Hv & Hn & Huid & Hd & Href & Hb); [|done].
  destruct Href as (Hh & _ & _ & _ & Hid & Hus & Hrev). exists u. split_and!; try done.
  exists id, new, t. rewrite Hd, lookup_insert_eq, Hid, Hus. split_and!; try done. by apply (ok_sessions _ Hok).
Qed.

(** The operations on workspaces end alike. *)
Ltac by_scoped :=
  intros; inv_run;
  match goal with Hq : q_db _ = sv_db _, Hok : db_ok (sv_db _) |- _ => cbn in Hq; rewrite <- Hq in Hok end; known_ok;
  match goal with H : GetUserByID _ _ = (Ret ?u, _), Hu : scoped _ ?u _ _ = _ |- _ => apply GetUserByID_Ret in H as (_ & _ & ?Huid); [|done] end;
  match goal with Hd : sv_db _ = q_db _ |- _ => rewrite Hd end;
  eapply scoped_ends; eassumption.

Lemma CreateOrganization_Ret n s b s' : db_ok (sv_db s) -> CreateOrganization n s = (Ret b, s') -> authorized (sv_db s') (Bootstrap b).
Proof. unfold CreateOrganization. by_scoped. Qed.
Lemma SwitchOrganization_Ret t s b s' : db_ok (sv_db s) -> SwitchOrganization t s = (Ret b, s') -> authorized (sv_db s') (Bootstrap b).
Proof. unfold SwitchOrganization. by_scoped. Qed.
Lemma UpdateOrganization_Ret t n s b s' : db_ok (sv_db s) -> UpdateOrganization t n s = (Ret b, s') -> authorized (sv_db s') (Bootstrap b).
Proof. unfold UpdateOrganization. by_scoped. Qed.
Lemma DeleteOrganization_Ret t s b s' : db_ok (sv_db s) -> DeleteOrganization t s = (Ret b, s') -> authorized (sv_db s') (Bootstrap b).
Proof. unfold DeleteOrganization. by_scoped. Qed.
Lemma AcceptInvite_Ret t s b s' : db_ok (sv_db s) -> AcceptInvite t s = (Ret b, s') -> authorized (sv_db s') (Bootstrap b).
Proof.
  unfold AcceptInvite. intros. inv_run. match goal with H : context [match o_TenantID ?o with _ => _ end] |- _ => destruct (o_TenantID o) end; by_scoped.
Qed.

Lemma Me_Ret s b s' : db_ok (sv_db s) -> Me s = (Ret b, s') -> authorized (sv_db s') (Bootstrap b).
Proof.
  intros Hok H. unfold Me in H. inv_run. 
  match goal with H : GetUserByID _ _ = _ |- _ => apply GetUserByID_Ret in H as (_ & _ & Huid); [|congruence] end.
  match goal with H : buildBootstrap _ _ _ _ = _ |- _ => apply buildBootstrap_Ret in H as [Hd' Hb'] end.
  injection Huid as ->. eexists _, _, _. split; [by eexists|]. match goal with Hd : sv_db s' = _ |- _ => rewrite Hd end. by rewrite Hd'.
Qed.

Lemma perform_authorized c s a s' : db_ok (sv_db s) -> perform c s = (Ret a, s') -> authorized (sv_db s') a.
Proof.
  intros Hok. destruct c; cbn [perform]; unfold answering; intros H; apply s_bind_Ret in H as (x & s1 & H & [= <- <-]); try exact I.
  - by eapply ConfirmEmailVerification_Ret.
  - by eapply LoginEmail_Ret.
  - by eapply Refresh_authorized.
  - by eapply Me_Ret.
  - by eapply ConfirmPasswordReset_Ret.
  - by eapply CreateOrganization_Ret.
  - by eapply SwitchOrganization_Ret.
  - by eapply UpdateOrganization_Ret.
  - by eapply DeleteOrganization_Ret.
  - by eapply AcceptInvite_Ret.
  - by eapply StartImpersonation_Ret.
  - by eapply StopImpersonation_Ret.
Qed.
End answers.

(** ** Serving calls

    Every call has its own request, randomness, times and failures. *)
Record world := { w_env : Env; w_request : Request; w_google : GoogleLib }.

Section serving.
Context {UT : UnicodeTables} {L : AuthLib} {C : AuthConfig} {K : Collation}.

Definition serve (w : world) (c : call) (d : db) : outcome error answer * db :=
  let '(r, s) := perform (E := w_env w) (R := w_request w) (G := w_google w) c {| sv_db := d; sv_n := 0; sv_mails := [] |} in (r, sv_db s).

Inductive reaches (d : db) : db -> Prop :=
| reaches_refl : reaches d d
| reaches_call d1 w c : reaches d d1 -> reaches d (serve w c d1).2.

Lemma serve_perform w c d r d' :
  serve w c d = (r, d') ->
  exists s', perform (E := w_env w) (R := w_request w) (G := w_google w) c {| sv_db := d; sv_n := 0; sv_mails := [] |} = (r, s') /\ d' = sv_db s'.
Proof. unfold serve. destruct (perform c _) as [r0 s0]. intros [= <- <-]. eauto. Qed.

Lemma serve_step w c d : step d (serve w c d).2.
Proof.
  unfold serve. pose proof (perform_step (E := w_env w) (R := w_request w) (G := w_google w) c {| sv_db := d; sv_n := 0; sv_mails := [] |}) as H.
  destruct (perform c _) as [r s]. exact H.
Qed.

Lemma reaches_step d d' : reaches d d' -> step d d'.
Proof. induction 1 as [|d1 w c _ IH]; [reflexivity|]. etrans; [exact IH|apply serve_step]. Qed.

(** C. However calls are interleaved and whatever fails, rows never disappear and
    change only in the allowed directions (an expiry, an owner, an email never
    change; a verification, a revocation, a deletion, a consumption is never
    undone or moved), and the uniqueness of token hashes and of active
    memberships is kept. *)
Theorem history_kept (d d' : db) (Hr : reaches d d') (Hok : db_ok d) : evolves d d' /\ db_ok d'.
Proof. apply reaches_step in Hr as [He Hk]. split; [exact He|by apply Hk]. Qed.


(** ** One-time tokens *)
(** The one-time token that a call presents. *)
Definition presented (c : call) : option string :=
  match c with
  | CallConfirmEmailVerification t | CallAcceptInvite t => t
  | CallConfirmPasswordReset p => pr_Token <$> p
  | _ => None
  end.

Definition spent (h : string) (d : db) : Prop := exists k o, tokens d !! k = Some o /\ o_TokenHash o = h /\ o_ConsumedAt o <> None.

Lemma spent_evolves h d d' : evolves d d' -> spent h d -> spent h d'.
Proof.
  intros He (k & o & Ho & Hh & Hc). apply (ev_tokens _ _ He) in Ho as (o' & Ho' & [Hsame Hmark]).
  exists k, o'. injection Hsame as _ _ Hth _ _ _ _. split_and!; [done|congruence|]. rewrite Hmark; done.
Qed.

Lemma spent_not_consumed `{E : Env} h p s o s' : db_ok (q_db s) -> spent h (q_db s) -> ConsumeOneTimeToken h p s <> (Ret o, s').
Proof.
  intros Hok (k & o1 & Ho1 & Hh & Hc) H. apply statement_Ret in H as [H _]. unfold update_returning in H.
  destruct (find_row _ _) as [o2|] eqn:Ef; [|done]. apply find_row_Some in Ef as [HP [k2 Hk2]].
  unfold consumable in HP. rewrite !andb_true_iff, String.eqb_eq in HP. destruct HP as [[[Hh2 _] Hn] _]. unfold null in Hn. apply bool_decide_eq_true in Hn.
  assert (k = k2) as <- by (eapply (ok_tokens _ Hok); [exact Ho1|exact Hk2|congruence]). congruence.
Qed.

Lemma consumed_spent `{E : Env} h p s o s' : ConsumeOneTimeToken h p s = (Ret o, s') -> spent h (q_db s').
Proof.
  intros H. apply statement_Ret in H as [H _]. unfold update_returning in H. destruct (find_row _ _) as [o2|] eqn:Ef; [|done].
  injection H as _ <-. apply find_row_Some in Ef as [HP [k Hk]]. exists k, (with_consumed db_now o2). simpl.
  rewrite lookup_update_rows, Hk. simpl. rewrite HP. unfold consumable in HP. rewrite !andb_true_iff, String.eqb_eq in HP.
  by destruct HP as [[[? _] _] _].
Qed.

(** A successful call with a token consumes it, in its own transaction. *)
Lemma presented_consumes `{E : Env} `{R : Request} `{G : GoogleLib} c t s a s' :
  presented c = Some t -> perform c s = (Ret a, s') ->
  exists p o q1 q2, ConsumeOneTimeToken (tokenHash t) p q1 = (Ret o, q2) /\ q_db q1 = sv_db s /\ step (q_db q2) (sv_db s').
Proof.
  intros Hp. destruct c; try done; simpl in Hp; cbn [perform]; unfold answering; intros H; apply s_bind_Ret in H as (x & s1 & H & [= <- <-]).
  - unfold ConfirmEmailVerification in H. inv_run. injection Hb0 as ->.
    eexists _, _, _, _. split_and!; [eassumption|done|]. rewrite Hd. run_steps.
  - destruct p as [p|]; [|done]. injection Hp as <-. unfold ConfirmPasswordReset in H. inv_run. injection Hb0 as ->.
    eexists _, _, _, _. split_and!; [eassumption|done|]. rewrite Hd. run_steps.
  - unfold AcceptInvite in H. inv_run. match goal with H : Some _ = Some _ |- _ => injection H as -> end. destruct (o_TenantID _); inv_run.
    match goal with H : GetUserByID _ _ = _ |- _ => apply GetUserByID_same in H as Hg end.
    eexists _, _, _, _. split_and!; [eassumption|congruence|]. rewrite Hd. run_steps.
Qed.

(** ** Calls that do not succeed *)
(** The calls that answer or fail after their changes were committed: the members
    are listed after a change of a member, and the state of a sign-in with Google
    is consumed before it is checked. *)
Definition late (c : call) : bool :=
  match c with
  | CallUpdateOrganizationMemberRole _ _ _ | CallDisableOrganizationMember _ _ | CallGoogleCallback _ _ _ _ => true
  | _ => false
  end.

Lemma perform_atomic `{E : Env} `{R : Request} `{G : GoogleLib} c : late c = false -> atomic (perform c).
Proof.
  destruct c; try done; intros _; cbn [perform]; unfold answering;
    unfold SignupEmail, ConfirmEmailVerification, ResendEmailVerification, LoginEmail, Refresh, Logout, Me, RequestPasswordReset,
      ConfirmPasswordReset, ListOrganizations, CreateOrganization, SwitchOrganization, UpdateOrganization, DeleteOrganization,
      InviteOrganizationMember, AcceptInvite, StartImpersonation, StopImpersonation, GoogleStart, DevBootstrap, ListOrganizationMembers,
      resolveDevBootstrapEmailDefault;
    atomic_walk ltac:(open_stmt; reflexivity).
Qed.

Lemma failed_calls w c d : late c = false -> (forall a, (serve w c d).1 <> Ret a) -> (serve w c d).2 = d.
Proof.
  intros Hl Hf. unfold serve in *. destruct (perform c _) as [r s] eqn:Ep. simpl in *.
  apply (perform_atomic (E := w_env w) (R := w_request w) (G := w_google w) c Hl _ _ _ Ep Hf).
Qed.


(** C6. C. A one-time token is good for one call: once a call with it succeeded,
    every later call with the same token, in any state that is reached and in any
    world, does not succeed and changes nothing. *)
Theorem token_single_use (w w' : world) (c c' : call) (t t' : string) (a : answer) (d d1 d2 : db) (Hok : db_ok d)
    (Hc : presented c = Some t) (Hs : serve w c d = (Ret a, d1)) (Hr : reaches d1 d2)
    (Hc' : presented c' = Some t') (Ht : Strings.TrimSpace t' = Strings.TrimSpace t) :
  (forall a', (serve w' c' d2).1 <> Ret a') /\ (serve w' c' d2).2 = d2.
Proof.
  assert (tokenHash t' = tokenHash t) as Hh by (unfold tokenHash; by rewrite Ht).
  assert (db_ok d1) as Hok1 by (pose proof (serve_step w c d) as [_ H]; rewrite Hs in H; by apply H).
  apply reaches_step in Hr as [He Hk]. assert (spent (tokenHash t) d2) as Hspent.
  { apply serve_perform in Hs as (s' & H & ->). eapply presented_consumes in H as (p & o & q1 & q2 & Hcons & _ & [Hst _]); [|done].
    eapply spent_evolves, spent_evolves, consumed_spent, Hcons; done. }
  cut (forall a', (serve w' c' d2).1 <> Ret a').
  { intros H. split; [done|]. apply failed_calls; [by destruct c'|done]. }
  intros a' H. destruct (serve w' c' d2) as [r d3] eqn:Es. simpl in H. subst r. apply serve_perform in Es as (s' & H & _).
  eapply presented_consumes in H as (p & o & q1 & q2 & Hcons & Hq & _); [|done]. rewrite Hh in Hcons.
  eapply spent_not_consumed; [| |exact Hcons]; rewrite Hq; [by apply Hk|done].
Qed.

(** ** Sessions that ended *)
(** A session that was revoked, or has expired for every time of the world. *)
Definition ended (w : world) (session : RefreshSession) : Prop :=
  s_RevokedAt session <> None \/ forall n, after (s_ExpiresAt session) (clock_at (Env := w_env w) n) = false.

(** The session that a refresh names, from the parameters or the cookie. *)
Definition refresh_names (w : world) (p : option string) (id : Z) : Prop :=
  parseRefreshToken (refreshTokenFromParams (R := w_request w) p) = Some id.

Lemma ended_evolves w d d' id session :
  evolves d d' -> sessions d !! id = Some session -> ended w session -> exists session', sessions d' !! id = Some session' /\ ended w session'.
Proof.
  intros He Hs Hend. apply (ev_sessions _ _ He) in Hs as (s' & Hs' & [Hsame Hmark]). exists s'. split; [done|].
  injection Hsame as _ _ Hexp _ _. destruct Hend as [Hr|Hx]; [left; by rewrite Hmark|right; by rewrite <- Hexp].
Qed.

Lemma rotate_now `{E : Env} t s rot raw s' :
  db_ok (q_db s) -> rotateRefreshSession t s = (Ret (rot, raw), s') ->
  exists id session n, parseRefreshToken t = Some id /\ sessions (q_db s) !! id = Some session /\ s_RevokedAt session = None /\
    after (s_ExpiresAt session) (clock_at n) = true.
Proof.
  intros Hok. unfold rotateRefreshSession. destruct (parseRefreshToken t) as [id|] eqn:Ep; [|done]. intros H.
  apply bind_Ret in H as (session & s1 & Hg & H). apply or_no_rows_Ret in Hg. apply statement_Ret in Hg as [Hg _]. unfold select in Hg. simpl in Hg.
  destruct (sessions (q_db s) !! id) as [session'|] eqn:Es; [|done]. injection Hg as -> Hg.
  apply bind_Ret in H as (now & s2 & Hn & H). apply draw_Ret in Hn as (_ & _ & ->).
  apply bind_Ret in H as (? & ? & Hb & _). apply require_Ret in Hb as [Hb _]. rewrite andb_true_iff in Hb. unfold null in Hb.
  rewrite bool_decide_eq_true in Hb. destruct Hb. eauto 10.
Qed.

Lemma ended_not_refreshed w p d id session a :
  db_ok d -> sessions d !! id = Some session -> ended w session -> refresh_names w p id -> (serve w (CallRefresh p) d).1 <> Ret a.
Proof.
  intros Hok Hs Hend Hp H. destruct (serve w (CallRefresh p) d) as [r d'] eqn:Es. simpl in H. subst r. apply serve_perform in Es as (s' & H & _).
  cbn [perform] in H. unfold answering, Refresh in H. inv_run.
  match goal with H : rotateRefreshSession _ _ = _ |- _ => apply rotate_now in H as (id' & session' & n & Hp' & Hs' & Hr & Hx); [|by rewrite Hq] end.
  unfold refresh_names in Hp. rewrite Hp in Hp'. injection Hp' as <-. rewrite Hq in Hs'. cbn in Hs'. rewrite Hs in Hs'. injection Hs' as <-.
  destruct Hend as [?|Hend]; [done|]. by rewrite Hend in Hx.
Qed.

(** C. A session that was revoked or has expired never comes back: whatever calls
    are served in between, a refresh that names it does not succeed, whatever
    secret it has, and changes nothing. *)
Theorem ended_sessions_stay_ended (w : world) (p : option string) (d d' : db) (id : Z) (session : RefreshSession) (Hok : db_ok d)
    (Hs : sessions d !! id = Some session) (Hend : ended w session) (Hr : reaches d d') (Hp : refresh_names w p id) :
  (forall a, (serve w (CallRefresh p) d').1 <> Ret a) /\ (serve w (CallRefresh p) d').2 = d'.
Proof.
  apply reaches_step in Hr as [He Hk]. destruct (ended_evolves w d d' id session He Hs Hend) as (s' & Hs' & Hend').
  assert (forall a, (serve w (CallRefresh p) d').1 <> Ret a) as H by (intros a; eapply ended_not_refreshed; [by apply Hk|done..]).
  split; [exact H|]. by apply failed_calls.
Qed.

Lemma revoked_rows `{E : Env} user reason (m : gmap Z RefreshSession) id session :
  m !! id = Some session -> s_UserID session = Some user ->
  exists v, update_rows (fun s => bool_decide (s_UserID s = Some user) && null (s_RevokedAt s)) (with_revoked reason db_now) m !! id = Some v /\
    s_RevokedAt v <> None.
Proof.
  intros Hs Hu. rewrite lookup_update_rows, Hs. eexists. split; [done|]. cbn beta. rewrite bool_decide_eq_true_2 by done.
  unfold null. case_bool_decide as Hn; simpl; [|done]. by rewrite Hn.
Qed.

(** C. A refresh succeeds only for a live session with its current secret, or the
    one before within the grace period, and rotates it: the cookie has the new
    secret, the old one is kept for the grace period, and no other session
    changes. *)
Theorem refresh_rotates (HU : UuidLaws L) (w : world) (p : option string) (d d' : db) (r : AuthSessionResponse) (Hok : db_ok d)
    (Hs : serve w (CallRefresh p) d = (Ret (Session_ r), d')) :
  exists id session now new, refresh_names w p id /\ sessions d !! id = Some session /\ s_RevokedAt session = None /\
    after (s_ExpiresAt session) now = true /\ secret_matches (refreshTokenFromParams (R := w_request w) p) session now /\
    sessions d' = <[id := new]> (sessions d) /\ refreshed (E := w_env w) session (cookie_Value (SetCookie r)) new.
Proof.
  apply serve_perform in Hs as (s' & H & ->). cbn [perform] in H. unfold answering in H. apply s_bind_Ret in H as (r' & s1 & H & [= -> <-]).
  apply Refresh_Ret in H as (id & session & now & new & u & t & ? & ? & ? & ? & ? & _ & _ & _ & _ & ? & ? & _); [|exact Hok].
  by exists id, session, now, new.
Qed.

(** C8. C. A password reset ends every session that the user had: none of them can be
    refreshed in any state that is reached afterwards. *)
Theorem password_reset_ends_sessions (HU : UuidLaws L) (w : world) (p : option PasswordResetConfirmParams) (d d1 : db) (r : AuthSessionResponse)
    (Hok : db_ok d) (Hs : serve w (CallConfirmPasswordReset p) d = (Ret (Session_ r), d1)) :
  exists u, session_issued d1 u r /\
  forall id session w' q d2 a, sessions d !! id = Some session -> s_UserID session = Some (u_ID u) -> reaches d1 d2 ->
    refresh_names w' q id -> (serve w' (CallRefresh q) d2).1 <> Ret a.
Proof.
  assert (db_ok d1) as Hok1 by (pose proof (serve_step w (CallConfirmPasswordReset p) d) as [_ H]; rewrite Hs in H; by apply H).
  apply serve_perform in Hs as (s' & H & ->). cbn [perform] in H. unfold answering, ConfirmPasswordReset in H. inv_run.
  cbn in Hq. match goal with H : RevokeUserRefreshSessions _ _ ?x = (Ret _, ?y) |- _ =>
    assert (same_sessions (q_db q) (q_db x)) as Hses by (clear H; run_rel ltac:(walk ltac:(open_stmt; reflexivity)));
    apply statement_Ret in H as [Hrev _]; injection Hrev as _ Hrev end.
  rewrite <- Hq in Hok. known_ok.
  match goal with H : MarkUserEmailVerified _ _ = _ |- _ => apply MarkUserEmailVerified_Ret in H as (Hu & _); [|done] end.
  match goal with H : sign_in _ ?u _ = _ |- _ => apply sign_in_Ret in H as (Hi & Hkeep & _); [|by rewrite <- Hrev]; exists u end.
  rewrite Hd in *. split; [done|]. intros id session w' q0 d2 x Hs Hus Hr Hn. apply reaches_step in Hr as [He Hk].
  rewrite Hses, Hq in Hrev. apply (f_equal sessions) in Hrev. cbn [sessions set_sessions] in Hrev.
  destruct (revoked_rows (E := w_env w) _ "password_reset" _ _ _ Hs Hus) as (v & Hv & Hvr). rewrite Hrev in Hv. apply Hkeep in Hv.
  destruct (ended_evolves w' _ _ id v He Hv (or_introl Hvr)) as (v' & Hv' & Hend). eapply ended_not_refreshed; [by apply Hk|done..].
Qed.
End serving.

(** ** Owners *)
Definition has_owner (d : db) (t : Z) : Prop := exists k m, memberships d !! k = Some m /\ active_owner t m = true.
Definition keeps_owners (d d' : db) : Prop := forall t, has_owner d t -> has_owner d' t.

#[export] Instance keeps_owners_preorder : PreOrder keeps_owners.
Proof. split; [by intros d t|]. intros d1 d2 d3 H1 H2 t Ht. by apply H2, H1. Qed.

Lemma active_owner_spec t m : active_owner t m = true <-> m_TenantID m = t /\ m_Role m = "owner" /\ m_DisabledAt m = None.
Proof. unfold active_owner, null. rewrite !andb_true_iff, Z.eqb_eq, String.eqb_eq, bool_decide_eq_true. tauto. Qed.

(** Among two rows with a property one has another key. *)
Lemma filter_other {A} (P : A -> Prop) `{!forall r, Decision (P r)} (l : list (Z * A)) k0 :
  NoDup l.*1 -> (1 < length (filter P l.*2))%nat -> exists k r, (k, r) ∈ l /\ P r /\ k <> k0.
Proof.
  induction l as [|[k r] l IH]; csimpl; [lia|]. rewrite NoDup_cons, filter_cons. intros [Hk Hnd].
  destruct (decide (P r)) as [HP|HP]; csimpl.
  - intros Hlen. destruct (decide (k = k0)) as [->|Hne]; [|exists k, r; split_and!; [left|done..]].
    destruct (filter P l.*2) as [|r' l'] eqn:Ef; [simpl in Hlen; lia|].
    assert (r' ∈ filter P l.*2) as Hin by (rewrite Ef; left). apply list_elem_of_filter in Hin as [HP' Hin].
    apply list_elem_of_fmap in Hin as ([k' r''] & Er & Hin). simpl in Er. subst r''. exists k', r'. split_and!; [by right|done|].
    intros ->. apply Hk. apply list_elem_of_fmap. by exists (k0, r').
  - intros Hlen. destruct (IH Hnd Hlen) as (k' & r' & ? & ? & ?). exists k', r'. split_and!; [by right|done..].
Qed.

(** With more than one owner, every row leaves one. *)
Lemma owner_count_other d t k0 : 1 < owner_count d t -> exists k m, k <> k0 /\ memberships d !! k = Some m /\ active_owner t m = true.
Proof.
  unfold owner_count. intros H. destruct (filter_other (fun m => active_owner t m = true) (map_to_list (memberships d)) k0) as (k & m & Hin & HP & Hne).
  - apply NoDup_fst_map_to_list.
  - lia.
  - exists k, m. by apply elem_of_map_to_list in Hin.
Qed.

Section owners.
Context {UT : UnicodeTables} {L : AuthLib} {C : AuthConfig} {E : Env} {K : Collation} {R : Request} {G : GoogleLib}.

Lemma promote_owners P now d : keeps_owners d (set_memberships (update_rows P (with_role roleOwner now) (memberships d)) d).
Proof.
  intros t (k & row & Hrow & Ho). exists k. cbn. rewrite lookup_update_rows, Hrow. eexists. split; [done|]. cbn beta.
  destruct (P row); [|done]. apply active_owner_spec in Ho as (? & ? & ?). apply active_owner_spec. by split_and!.
Qed.

Lemma CreateOrganizationMembership_owner arg : cm_Role arg = roleOwner -> preserves keeps_owners (CreateOrganizationMembership arg).
Proof.
  intros Hrole. open_stmt; try (rewrite Hrole; apply promote_owners).
  intros t (k & row & Hrow & Ho). exists k, row. split; [|done]. cbn. rewrite lookup_insert_ne; [done|]. congruence.
Qed.

Lemma ensureActiveTenant_owners u p : preserves keeps_owners (ensureActiveTenant u p).
Proof.
  unfold ensureActiveTenant. walk ltac:(first [by apply CreateOrganizationMembership_owner | open_stmt; first [reflexivity|by intros t Ht]]).
Qed.

(** A change of one member: the row that is changed is not an owner, or there is
    another one. *)
Lemma member_change_owners d t user (f : Membership -> Membership) (P : Membership -> bool) m0 :
  db_ok d -> find_row (active_in user t) (memberships d) = Some m0 ->
  (m_Role m0 = roleOwner -> 1 < owner_count d t) ->
  (forall m, P m = true -> m_UserID m = user /\ m_TenantID m = t) ->
  keeps_owners d (set_memberships (update_rows P f (memberships d)) d).
Proof.
  intros Hok Hf Hc HP t' (k & m & Hm & Ho). apply find_row_Some in Hf as [Ha [k0 Hk0]]. apply active_in_spec in Ha as (Hu0 & Ht0 & Hd0).
  assert (forall k m, k <> k0 -> memberships d !! k = Some m -> active_owner t' m = true ->
    has_owner (set_memberships (update_rows P f (memberships d)) d) t') as Hother.
  { intros k1 m1 Hne Hm1 Ho1. exists k1, m1. split; [|done]. cbn. rewrite lookup_update_rows, Hm1. simpl. destruct (P m1) eqn:HP1; [|done].
    exfalso. apply Hne. apply HP in HP1 as [Hu1 Ht1]. apply active_owner_spec in Ho1 as (_ & _ & Hd1).
    eapply (ok_memberships _ Hok); [exact Hm1|exact Hk0|]. unfold same_active. by rewrite Hu1, Ht1. }
  destruct (decide (k = k0)) as [->|Hne]; [|by eapply Hother].
  rewrite Hk0 in Hm. injection Hm as <-. pose proof Ho as (Htt & Hr & _)%active_owner_spec. rewrite Ht0 in Htt. subst t'.
  destruct (owner_count_other d t k0 (Hc Hr)) as (k & m & Hne & Hm & Hom). by eapply Hother.
Qed.

Lemma GetActiveMembership_Ret user t s m s' :
  GetActiveMembership user t s = (Ret m, s') -> find_row (active_in user t) (memberships (q_db s)) = Some m /\ q_db s' = q_db s.
Proof. intros H. apply statement_Ret in H as [H _]. unfold select in H. by destruct (find_row _ _); simplify_eq. Qed.

Lemma ensureCanRemoveOwner_Ret t s x s' : ensureCanRemoveOwner t s = (Ret x, s') -> 1 < owner_count (q_db s) t /\ q_db s' = q_db s.
Proof.
  unfold ensureCanRemoveOwner. intros H. inv_run. match goal with H : CountActiveOwners _ _ = _ |- _ => apply statement_Ret in H as [H _]; injection H as <- H end.
  rewrite negb_true_iff, Z.leb_gt in Hb. done.
Qed.

Lemma requireOwner_Ret user t s x s' :
  requireOwner user t s = (Ret x, s') -> q_db s' = q_db s /\ exists m, find_row (active_in user t) (memberships (q_db s)) = Some m /\ m_Role m = roleOwner.
Proof.
  unfold requireOwner. intros H. inv_run. match goal with H : GetActiveMembership _ _ _ = _ |- _ => apply GetActiveMembership_Ret in H as [? ?] end.
  apply String.eqb_eq in Hb. eauto.
Qed.

Definition with_ok (d d' : db) : Prop := db_ok d -> keeps_owners d d'.
Definition s_owners {A} (m : S_ A) : Prop := forall s, with_ok (sv_db s) (sv_db (m s).2).

Lemma s_owners_bind_read {A B} (m : S_ A) (f : A -> S_ B) : s_preserves eq m -> (forall a, s_owners (f a)) -> s_owners (m ≫= f).
Proof.
  intros Hm Hf s. specialize (Hm s). unfold mbind, S_bind. destruct (m s) as [[a|e|msg] s1]; simpl in *; rewrite Hm; [apply Hf|..];
    intros _; reflexivity.
Qed.

Lemma s_owners_bind_then {A B} (m : S_ A) (f : A -> S_ B) : s_owners m -> (forall a, s_preserves eq (f a)) -> s_owners (m ≫= f).
Proof.
  intros Hm Hf s. specialize (Hm s). unfold mbind, S_bind. destruct (m s) as [[a|e|msg] s1]; simpl in *; [|done..].
  specialize (Hf a s1). by rewrite <- Hf.
Qed.

Lemma s_owners_run {A} begins (m : Q A) :
  (forall s a s', db_ok (q_db s) -> m s = (Ret a, s') -> keeps_owners (q_db s) (q_db s')) -> s_owners (run begins m).
Proof.
  intros Hm s Hok. destruct (run begins m s) as [[a|e|msg] s'] eqn:Er; simpl.
  - apply run_Ret in Er as (q & q' & H & Hq & _ & _ & -> & _). rewrite <- Hq in *. by eapply Hm.
  - rewrite (run_not_Ret _ _ _ _ _ Er) by done. reflexivity.
  - rewrite (run_not_Ret _ _ _ _ _ Er) by done. reflexivity.
Qed.

Lemma ListOrganizationMembers_read t : s_preserves eq (ListOrganizationMembers t).
Proof. unfold ListOrganizationMembers. walk ltac:(open_stmt; reflexivity). Qed.

Lemma memberMutationIDs_read t u : s_preserves eq (memberMutationIDs t u).
Proof. unfold memberMutationIDs. walk ltac:(fail). Qed.

Lemma UpdateOrganizationMemberRole_owners t u r : s_owners (UpdateOrganizationMemberRole t u r).
Proof.
  unfold UpdateOrganizationMemberRole. apply s_owners_bind_read; [walk ltac:(fail)|]. intros role.
  unfold check. destruct (String.eqb role roleOwner || String.eqb role roleMember) eqn:Hrole; [|by intros s Hok].
  apply s_owners_bind_read; [walk ltac:(fail)|]. intros _. apply s_owners_bind_read; [apply memberMutationIDs_read|]. intros [[tenantID targetID] actorID].
  apply s_owners_bind_then; [|intros; apply ListOrganizationMembers_read]. apply s_owners_run. intros s a s' Hok H. inv_run.
  match goal with H : requireOwner _ _ _ = _ |- _ => apply requireOwner_Ret in H as [Hd1 _] end.
  match goal with H : GetActiveMembership _ _ _ = _ |- _ => apply GetActiveMembership_Ret in H as [Hf Hd2] end. rewrite Hd1 in *.
  match goal with H : UpdateMembershipRole _ _ _ ?s2 = _, Hg : (if ?b then ensureCanRemoveOwner _ else _) _ = _ |- _ =>
    assert (q_db s2 = q_db s /\ (b = true -> 1 < owner_count (q_db s) tenantID)) as [Hd3 Hc] by
      (destruct b; [apply ensureCanRemoveOwner_Ret in Hg as [? ?]; rewrite Hd2 in *; done|injection Hg as _ <-; done]);
    apply statement_Ret in H as [Hu _]; clear Hg end.
  rewrite Hd3 in Hu. unfold update_returning in Hu. stmt_cases.
  match goal with H : set_memberships _ _ = _ |- _ => rewrite <- H; clear H end.
  destruct (String.eqb_spec role roleOwner) as [Heq|Hne]; [rewrite Heq; apply promote_owners|]. simpl in Hrole. injection Hf as ->.
  eapply member_change_owners; [done|eassumption| |intros row Hrow; by apply active_in_spec in Hrow as (? & ? & _)].
  intros Hr. apply Hc. by rewrite Hr, Hrole.
Qed.

Lemma DisableOrganizationMember_owners t u : s_owners (DisableOrganizationMember t u).
Proof.
  unfold DisableOrganizationMember. do 2 (apply s_owners_bind_read; [walk ltac:(fail)|]; intros ?).
  apply s_owners_bind_read; [apply memberMutationIDs_read|]. intros [[tenantID targetID] actorID].
  apply s_owners_bind_then; [|intros; apply ListOrganizationMembers_read]. apply s_owners_run. intros s x s' Hok H. inv_run.
  match goal with H : requireOwner _ _ _ = _ |- _ => apply requireOwner_Ret in H as [Hd1 _] end.
  match goal with H : GetActiveMembership _ _ _ = _ |- _ => apply GetActiveMembership_Ret in H as [Hf Hd2] end. rewrite Hd1 in *.
  match goal with H : DisableMembership _ _ ?s2 = _, Hg : (if ?b then ensureCanRemoveOwner _ else _) _ = _ |- _ =>
    assert (q_db s2 = q_db s /\ (b = true -> 1 < owner_count (q_db s) tenantID)) as [Hd3 Hc] by
      (destruct b; [apply ensureCanRemoveOwner_Ret in Hg as [? ?]; rewrite Hd2 in *; done|injection Hg as _ <-; done]);
    apply statement_Ret in H as [Hu _]; clear Hg end.
  rewrite Hd3 in Hu. unfold update_returning in Hu. stmt_cases.
  match goal with H : set_memberships _ _ = _ |- _ => rewrite <- H; clear H end.
  eapply member_change_owners; [done|eassumption| |].
  - intros Hr. apply Hc. by rewrite Hr.
  - intros row. rewrite andb_true_iff, !Z.eqb_eq. tauto.
Qed.

Lemma s_owners_all {A} (m : S_ A) : s_preserves keeps_owners m -> s_owners m.
Proof. intros Hm s _. apply Hm. Qed.

(** The other calls, statement by statement. *)
Lemma perform_owners c : (forall t, c <> CallAcceptInvite t) -> s_owners (perform c).
Proof.
  intros Hc. destruct c; try (by destruct (Hc t)); cbn [perform]; unfold answering;
    try (apply s_owners_bind_then; [first [apply UpdateOrganizationMemberRole_owners|apply DisableOrganizationMember_owners]|intros; walk ltac:(fail)]; fail);
    apply s_owners_all;
    unfold SignupEmail, ConfirmEmailVerification, ResendEmailVerification, LoginEmail, Refresh, Logout, Me, RequestPasswordReset,
      ConfirmPasswordReset, ListOrganizations, CreateOrganization, SwitchOrganization, UpdateOrganization, DeleteOrganization,
      InviteOrganizationMember, StartImpersonation, StopImpersonation, GoogleStart, GoogleCallback, DevBootstrap, ListOrganizationMembers,
      resolveDevBootstrapEmailDefault, finishGoogleSignIn, google_user, sign_in, createAuthSessionResponse, createRefreshSession, session_cookie,
      rotateRefreshSession, checkRateLimit, createOneTimeToken, recordEvent, scoped, sessionForAuthData, requireOwner, buildBootstrap;
    walk ltac:(first [apply ensureActiveTenant_owners | by apply CreateOrganizationMembership_owner | open_stmt; first [reflexivity|by intros t' Ht]]).
Qed.
End owners.

Section serving_owners.
Context {UT : UnicodeTables} {L : AuthLib} {C : AuthConfig} {K : Collation}.

(** C7. C. A workspace that has an owner keeps one, whatever call is served, roles
    changed, members disabled and workspaces deleted included; only accepting an
    invite is not covered. *)
Theorem owners_kept (w : world) (c : call) (d : db) (t : Z) (Hok : db_ok d) (Hc : forall x, c <> CallAcceptInvite x)
    (Ho : has_owner d t) : has_owner (serve w c d).2 t.
Proof.
  unfold serve. pose proof (perform_owners (E := w_env w) (R := w_request w) (G := w_google w) c Hc {| sv_db := d; sv_n := 0; sv_mails := [] |} Hok t Ho) as H.
  by destruct (perform c _).
Qed.
End serving_owners.

(** ** A scenario

    Ann signs up at time [signup_at], confirms her email, and signs in. *)
Definition sample_world (base : Z) (secret : string) (t : Z) (auth : option AuthData) : world := {|
  w_env := {| uuid_at := fun n => base + Z.of_nat n; secret_at := fun _ => secret; fails_at := fun _ => false;
              clock_at := fun _ => t; db_now := t |};
  w_request := {| headers := []; authData := auth |};
  w_google := {| jwks := None; token_endpoint := fun _ _ _ => None; parse_id_token := fun _ _ _ => None |} |}.

Definition sample_collation : Collation := {| sql_lower := fun s => s; text_before := String.ltb |}.

Definition empty_db : db := {| users := ∅; identities := ∅; tenants := ∅; memberships := ∅; sessions := ∅; tokens := ∅;
  states := ∅; attempts := ∅; events := ∅ |}.

Definition sample_serve := serve (UT := ascii_tables) (L := sample_lib) (C := sample_config) (K := sample_collation).
Definition sample_reaches := reaches (UT := ascii_tables) (L := sample_lib) (C := sample_config) (K := sample_collation).

Definition mailed (secret : string) : string := Base64.EncodeToString Base64.Url secret.

Definition signup : call := CallSignupEmail (Some {| su_Email := "ann@x"; su_Password := "correct horse"; su_DisplayName := "Ann"; su_RedirectPath := "/" |}).
Definition db_signed_up : db := (sample_serve (sample_world 0 "verify" 1000000 None) signup empty_db).2.

Definition confirm : call := CallConfirmEmailVerification (Some (mailed "verify")).
Definition confirm_world : world := sample_world 20 "first" 2000000 None.
Definition db_confirmed : db := (sample_serve confirm_world confirm db_signed_up).2.

(** Her user, workspace and session, and the identity of her access token. *)
Definition ann : Z := 5.
Definition ann_workspace : Z := 24.
Definition ann_session : Z := 28.
Definition ann_data : AuthData := {| UserID := sample_uuid_text ann; TenantID := sample_uuid_text ann_workspace;
  SessionID := sample_uuid_text ann_session; ActorUserID := ""; ImpersonationID := "" |}.
Definition ann_refresh : string := newRefreshToken (L := sample_lib) ann_session "first".

Definition request_reset : call := CallRequestPasswordReset (Some "ann@x").
Definition db_requested : db := (sample_serve (sample_world 40 "reset" 3000000 None) request_reset db_confirmed).2.
Definition confirm_reset : call := CallConfirmPasswordReset (Some {| pr_Token := mailed "reset"; pr_NewPassword := "battery staple" |}).
Definition reset_world : world := sample_world 60 "second" 4000000 None.
Definition db_reset : db := (sample_serve reset_world confirm_reset db_requested).2.

Definition is_session (r : outcome error answer) : bool := match r with Ret (Session_ _) => true | _ => false end.
Definition is_bootstrap (r : outcome error answer) : bool := match r with Ret (Bootstrap _) => true | _ => false end.

Lemma served_session w c d : is_session (sample_serve w c d).1 = true -> exists r, sample_serve w c d = (Ret (Session_ r), (sample_serve w c d).2).
Proof. destruct (sample_serve w c d) as [[[| |r]|e|msg] d']; try done. eauto. Qed.

Lemma empty_ok : db_ok empty_db.
Proof. split; try apply map_Forall_empty; intros k k' r r' H; cbn in H; by rewrite lookup_empty in H. Qed.

Lemma signed_up_reached : sample_reaches empty_db db_signed_up.
Proof. apply reaches_call, reaches_refl. Qed.
Lemma confirmed_reached : sample_reaches empty_db db_confirmed.
Proof. apply reaches_call, signed_up_reached. Qed.
Lemma requested_reached : sample_reaches empty_db db_requested.
Proof. apply reaches_call, confirmed_reached. Qed.

Lemma reached_ok d : sample_reaches empty_db d -> db_ok d.
Proof. intros H. apply reaches_step in H as [_ H]. apply H, empty_ok. Qed.

Lemma history_kept_witness : evolves empty_db db_confirmed /\ db_ok db_confirmed /\ users db_confirmed !! ann <> None.
Proof. split_and!; [apply (history_kept _ _ confirmed_reached empty_ok)..|vm_compute; discriminate]. Defined.



Lemma token_single_use_witness :
  (forall a', (sample_serve (sample_world 90 "x" 3000000 None) confirm db_requested).1 <> Ret a') /\
  (sample_serve (sample_world 90 "x" 3000000 None) confirm db_requested).2 = db_requested.
Proof.
  destruct (served_session confirm_world confirm db_signed_up) as [r Hr]; [vm_compute; reflexivity|].
  eapply (token_single_use confirm_world _ confirm confirm (mailed "verify") (mailed "verify") (Session_ r) db_signed_up db_confirmed db_requested);
    [apply reached_ok, signed_up_reached|reflexivity|exact Hr|apply reaches_call, reaches_refl|reflexivity|reflexivity].
Defined.

Lemma password_reset_ends_sessions_witness :
  exists r u, sample_serve reset_world confirm_reset db_requested = (Ret (Session_ r), db_reset) /\
  session_issued (L := sample_lib) (C := sample_config) db_reset u r /\
  (u_ID u = ann -> forall a, (sample_serve (sample_world 90 "x" 5000000 None) (CallRefresh (Some ann_refresh)) db_reset).1 <> Ret a).
Proof.
  destruct (served_session reset_world confirm_reset db_requested) as [r Hr]; [vm_compute; reflexivity|]. exists r.
  destruct (password_reset_ends_sessions sample_uuid_laws reset_world _ db_requested db_reset r (reached_ok _ requested_reached) Hr) as (u & Hi & Hends).
  exists u. split_and!; [exact Hr|exact Hi|]. intros Hu a.
  destruct (sessions db_requested !! ann_session) as [session|] eqn:Es; [|exfalso; revert Es; vm_compute; discriminate].
  eapply Hends; [exact Es| |apply reaches_refl|vm_compute; reflexivity].
  rewrite Hu. assert (s_UserID <$> (sessions db_requested !! ann_session) = Some (Some ann)) as H by (vm_compute; reflexivity).
  rewrite Es in H. by injection H.
Defined.

Lemma refresh_rotates_witness :
  exists r id session now new, sample_serve (sample_world 40 "next" 3000000 None) (CallRefresh (Some ann_refresh)) db_confirmed =
    (Ret (Session_ r), (sample_serve (sample_world 40 "next" 3000000 None) (CallRefresh (Some ann_refresh)) db_confirmed).2) /\
  sessions db_confirmed !! id = Some session /\ secret_matches (L := sample_lib) ann_refresh session now /\
  refreshed (L := sample_lib) (E := w_env (sample_world 40 "next" 3000000 None)) session (cookie_Value (SetCookie r)) new.
Proof.
  destruct (served_session (sample_world 40 "next" 3000000 None) (CallRefresh (Some ann_refresh)) db_confirmed) as [r Hr]; [vm_compute; reflexivity|].
  destruct (refresh_rotates sample_uuid_laws _ _ _ _ r (reached_ok _ confirmed_reached) Hr) as (id & session & now & new & _ & Hs & _ & _ & Hm & _ & Hn).
  exists r, id, session, now, new. split_and!; [exact Hr|exact Hs|exact Hm|exact Hn].
Defined.

Lemma ended_sessions_stay_ended_witness :
  (forall a, (sample_serve (sample_world 90 "x" (2000000 + defaultRefreshSessionTTL) None) (CallRefresh (Some ann_refresh)) db_requested).1 <> Ret a) /\
  (sample_serve (sample_world 90 "x" (2000000 + defaultRefreshSessionTTL) None) (CallRefresh (Some ann_refresh)) db_requested).2 = db_requested.
Proof.
  destruct (sessions db_confirmed !! ann_session) as [session|] eqn:Es; [|exfalso; revert Es; vm_compute; discriminate].
  eapply (ended_sessions_stay_ended _ _ db_confirmed db_requested ann_session session);
    [apply reached_ok, confirmed_reached|exact Es| |apply reaches_call, reaches_refl|vm_compute; reflexivity].
  right. intros n. assert (s_ExpiresAt <$> (sessions db_confirmed !! ann_session) = Some (Some (2000000 + defaultRefreshSessionTTL))) as H
    by (vm_compute; reflexivity). rewrite Es in H. injection H as ->. reflexivity.
Defined.

Lemma owners_kept_witness :
  has_owner db_confirmed ann_workspace /\
  has_owner (sample_serve (sample_world 40 "x" 3000000 (Some ann_data))
    (CallDisableOrganizationMember (sample_uuid_text ann_workspace) (Some (sample_uuid_text ann))) db_confirmed).2 ann_workspace.
Proof.
  assert (has_owner db_confirmed ann_workspace) as Ho.
  { destruct (memberships db_confirmed !! 26) as [m|] eqn:Em; [|exfalso; revert Em; vm_compute; discriminate]. exists 26, m. split; [exact Em|].
    assert (active_owner ann_workspace <$> (memberships db_confirmed !! 26) = Some true) as H by (vm_compute; reflexivity).
    rewrite Em in H. by injection H. }
  split; [exact Ho|]. apply owners_kept; [apply reached_ok, confirmed_reached|done|exact Ho].
Defined.

(** ** Where the code does not do what it means to *)
(** The revocation of a session whose token is replayed is rolled back: the thief
    is refused, and the session stays open. *)
Example replay_not_revoked :
  let r := sample_serve (sample_world 40 "x" 3000000 None) (CallRefresh (Some (newRefreshToken (L := sample_lib) ann_session "stolen"))) db_confirmed in
  r.1 = Fail (unauthenticated "refresh session is invalid") /\ s_RevokedAt <$> (sessions r.2 !! ann_session) = Some None.
Proof. split; vm_compute; reflexivity. Qed.

(** Failed logins are not counted: after 25 wrong passwords, which is more than
    the limit of 20, the next login is not refused. *)
Example failed_logins_not_limited :
  let login p := CallLoginEmail (Some {| li_Email := "ann@x"; li_Password := p |}) in
  let w := sample_world 40 "x" 3000000 None in
  let d := Nat.iter 25 (fun d => (sample_serve w (login "wrong") d).2) db_confirmed in
  (sample_serve w (login "wrong") d).1 = Fail (unauthenticated "email or password is invalid") /\
  is_session (sample_serve w (login "correct horse") d).1 = true.
Proof. split; vm_compute; reflexivity. Qed.

(** An owner who accepts an invite as a member is demoted, and the workspace is
    left without an owner. *)
Example invite_demotes_last_owner :
  let w := sample_world 40 "invite" 3000000 (Some ann_data) in
  let d1 := (sample_serve w (CallInviteOrganizationMember (sample_uuid_text ann_workspace) (Some {| im_Email := "ann@x"; im_Role := "member" |})) db_confirmed).2 in
  let r := sample_serve (sample_world 60 "x" 4000000 (Some ann_data)) (CallAcceptInvite (Some (mailed "invite"))) d1 in
  owner_count d1 ann_workspace = 1 /\ is_bootstrap r.1 = true /\ owner_count r.2 ann_workspace = 0.
Proof. split_and!; vm_compute; reflexivity. Qed.

(** [Me] issues a fresh access token without looking at the session or at the
    user: also after the session was logged out, and for a disabled user. *)
Definition disable_user (u : User) : User :=
  {| u_ID := u_ID u; u_DisplayName := u_DisplayName u; u_AvatarUrl := u_AvatarUrl u; u_PrimaryEmail := u_PrimaryEmail u;
     u_NormalizedPrimaryEmail := u_NormalizedPrimaryEmail u; u_EmailVerifiedAt := u_EmailVerifiedAt u; u_DisabledAt := Some 2500000;
     u_CanImpersonateUsers := u_CanImpersonateUsers u; u_CreatedAt := u_CreatedAt u; u_UpdatedAt := u_UpdatedAt u |}.

Example me_after_logout :
  let w := sample_world 40 "x" 3000000 (Some ann_data) in
  let d := (sample_serve w (CallLogout (Some ann_refresh)) db_confirmed).2 in
  s_RevokedAt <$> (sessions d !! ann_session) = Some (Some 3000000) /\ is_bootstrap (sample_serve w CallMe d).1 = true /\
  is_bootstrap (sample_serve w CallMe (set_users (disable_user <$> users d) d)).1 = true.
Proof. split_and!; vm_compute; reflexivity. Qed.

(** An owner who disables their own membership is answered with an error although
    the change was made. *)
Example disable_self_answers_error :
  let second := {| m_ID := 99; m_TenantID := ann_workspace; m_UserID := 77; m_Role := roleOwner; m_DisabledAt := None; m_InvitedByUserID := None;
                   m_InvitedAt := None; m_CreatedAt := 0; m_UpdatedAt := 0 |} in
  let r := sample_serve (sample_world 40 "x" 3000000 (Some ann_data))
    (CallDisableOrganizationMember (sample_uuid_text ann_workspace) (Some (sample_uuid_text ann)))
    (set_memberships (<[99 := second]> (memberships db_confirmed)) db_confirmed) in
  r.1 = Fail (permissionDenied "workspace access is disabled") /\ m_DisabledAt <$> (memberships r.2 !! 26) = Some (Some 3000000).
Proof. split; vm_compute; reflexivity. Qed.
End AuthProofs.
