(* ===== verification/DevEvents.v ===== *)
(** * Development events ([internal/devdash/dev_events.go], [types.go])

    The records the dashboard keeps about development processes, and the
    functions that turn a line of process output into a structured event: a
    JSON object, a line that starts with a level, key=value text or raw text.

    A time is the number of nanoseconds since Go's zero time, so the zero time
    is 0.  A [json.RawMessage] is its text; the nil message is the empty text.
    What package encoding/json reads and writes is the class [JsonLib]. *)
From stdpp Require Import base tactics list gmap strings.
From Stdlib Require Import ZArith Lia Ascii.
From S2P Require Import Prelude GoStrings WireCodec.

(** The functions of encoding/json, fmt and strconv on dynamic values:
    [json.Valid], [json.Unmarshal] into an [any], [json.Marshal] of an [any],
    the text [json.Marshal] writes for a [json.RawMessage] inside a document
    (nothing when the message is not JSON), [fmt.Sprint] and
    [strconv.ParseFloat].  [json_time] is the text of a [time.Time], which
    exists for years 0 to 9999. *)
Class JsonLib := {
  json_valid : string -> bool;
  json_unmarshal : string -> option Wire.any;
  json_marshal : Wire.any -> option string;
  json_compact : string -> option string;
  json_time : Z -> string;
  Sprint : Wire.any -> string;
  ParseFloat64 : string -> option Z
}.

Module DevEvents.
Definition DevEventSchemaVersion : string := "scenery.dev.event.v1".

Record DevSource := {
  ds_ID : string;
  ds_Kind : string;
  ds_Name : string;
  ds_Role : string;
  ds_PID : string;
  ds_Stream : string;
  ds_RestartID : string;
  ds_Status : string;
  ds_URL : string;
  ds_Reason : string
}.

Record DevEventParse := { Format : string; OK : bool }.

Record DevEvent := {
  de_ID : Z;
  de_AppID : string;
  de_AppRoot : string;
  de_SessionID : string;
  de_Source : DevSource;
  de_Level : string;
  de_Message : string;
  de_Fields : string;
  de_Raw : string;
  de_Parse : DevEventParse;
  de_CreatedAt : Z
}.

Definition json_empty_object : string := "{}".

(** [if value == (zero) then fallback]: the default of a string. *)
Definition or_else (value fallback : string) : string :=
  if String.eqb value "" then fallback else value.

Definition normalizeDevSource (source : DevSource) : DevSource :=
  let pid := Strings.TrimSpace (ds_PID source) in
  let id := Strings.TrimSpace (ds_ID source) in
  let id := if String.eqb id "" && negb (String.eqb pid "") then "process:" +:+ pid else id in
  let id := or_else id "supervisor" in
  {| ds_ID := id;
     ds_Kind := or_else (Strings.TrimSpace (ds_Kind source)) "process";
     ds_Name := or_else (Strings.TrimSpace (ds_Name source)) id;
     ds_Role := Strings.TrimSpace (ds_Role source);
     ds_PID := pid;
     ds_Stream := Strings.TrimSpace (ds_Stream source);
     ds_RestartID := Strings.TrimSpace (ds_RestartID source);
     ds_Status := Strings.TrimSpace (ds_Status source);
     ds_URL := Strings.TrimSpace (ds_URL source);
     ds_Reason := Strings.TrimSpace (ds_Reason source) |}.

Fixpoint firstNonEmptyString (values : list string) : string :=
  match values with
  | [] => ""
  | value :: rest =>
    if negb (String.eqb (Strings.TrimSpace value) "") then Strings.TrimSpace value
    else firstNonEmptyString rest
  end.

(** The loop of [splitDevLogFields]: the runes left, the builder, the open
    quote (0 when there is none) and whether the last rune was a backslash in
    a quote. *)
Fixpoint split_fields (rs : list Z) (b : string) (quote : Z) (escaped : bool) : list string :=
  let flush rest := if String.eqb b "" then rest else b :: rest in
  match rs with
  | [] => flush []
  | r :: rs' =>
    if escaped then split_fields rs' (b +:+ Utf8.encode_rune r) quote false
    else if (r =? 92) && negb (quote =? 0) then split_fields rs' b quote true
    else if negb (quote =? 0) then
      if r =? quote then split_fields rs' b 0 false
      else split_fields rs' (b +:+ Utf8.encode_rune r) quote false
    else if (r =? 34) || (r =? 39) then split_fields rs' b r false
    else if (r =? 32) || (r =? 9) then flush (split_fields rs' "" 0 false)
    else split_fields rs' (b +:+ Utf8.encode_rune r) 0 false
  end.

Definition splitDevLogFields (raw : string) : list string := split_fields (Utf8.runes raw) "" 0 false.

Section events.
Context {UT : UnicodeTables} {JL : JsonLib}.

Definition normalizeExplicitDevLevel (level : string) : string :=
  let l := Strings.ToLower (Strings.TrimSpace level) in
  if existsb (String.eqb l) ["debug"; "trace"] then "debug"
  else if existsb (String.eqb l) ["info"; "information"; "notice"] then "info"
  else if existsb (String.eqb l) ["warn"; "warning"] then "warn"
  else if existsb (String.eqb l) ["error"; "err"] then "error"
  else if existsb (String.eqb l) ["fatal"; "panic"] then "fatal"
  else "".

Definition normalizeDevLevel (level stream : string) : string :=
  let normalized := normalizeExplicitDevLevel level in
  if negb (String.eqb normalized "") then normalized
  else if String.eqb stream "stderr" then "error" else "info".

Definition inferDevLevel (raw : string) : string :=
  let lower := Strings.ToLower raw in
  if Strings.Contains lower "panic" || Strings.Contains lower "fatal" then "fatal"
  else if Strings.Contains lower "error" || Strings.Contains lower "failed" || Strings.Contains lower "exception"
  then "error"
  else if Strings.Contains lower "warn" then "warn"
  else "".

Definition parseDevValue (value : string) : Wire.any :=
  if String.eqb value "" then Wire.AString ""
  else match Strconv.ParseBool value with
  | Ret b => Wire.ABool b
  | _ =>
    match Strconv.ParseInt value 64 with
    | Ret i => Wire.AInt i
    | _ => match ParseFloat64 value with
           | Some f => Wire.AFloat64 f
           | None => Wire.AString value
           end
    end
  end.

Fixpoint lookup_any (values : list (string * Wire.any)) (key : string) : option Wire.any :=
  match values with
  | [] => None
  | (k, v) :: rest => if String.eqb k key then Some v else lookup_any rest key
  end.

Fixpoint stringValue (values : list (string * Wire.any)) (keys : list string) : string :=
  match keys with
  | [] => ""
  | key :: keys' =>
    match lookup_any values key with
    | Some value => Sprint value
    | None => stringValue values keys'
    end
  end.

(** [json.Marshal] of a map, with the empty object when it fails. *)
Definition marshal_fields (values : list (string * Wire.any)) : string :=
  default json_empty_object (json_marshal (Wire.AObject values)).

(** The keys [parseDevJSONLog] takes out of the object. *)
Definition reserved_keys : list string :=
  ["time"; "ts"; "timestamp"; "level"; "severity"; "lvl"; "message"; "msg"; "body"].

(** The results are the fields, the level and the message. *)
Definition parseDevJSONLog (raw : string) : option (string * string * string) :=
  if negb (Strings.HasPrefix raw "{") then None
  else match json_unmarshal raw with
  | Some (Wire.AObject body) =>
    let level := stringValue body ["level"; "severity"; "lvl"] in
    let message := stringValue body ["message"; "msg"; "body"] in
    let body := List.filter (fun e => negb (existsb (String.eqb e.1) reserved_keys)) body in
    Some (marshal_fields body, level, message)
  | _ => None
  end.

Definition unquoted (value : string) : string := Strings.Trim (Strings.TrimSpace value) (chr 34).

Record key_values := {
  kv_values : list (string * Wire.any);
  kv_messageParts : list string;
  kv_level : string;
  kv_message : string;
  kv_count : Z
}.

Definition key_value_step (st : key_values) (part : string) : key_values :=
  let '(key, value, ok) := Strings.Cut part "=" in
  if negb ok || String.eqb (Strings.TrimSpace key) "" then
    {| kv_values := kv_values st; kv_messageParts := kv_messageParts st ++ [part];
       kv_level := kv_level st; kv_message := kv_message st; kv_count := kv_count st |}
  else
    let key := Strings.TrimSpace key in
    let value := unquoted value in
    let lower := Strings.ToLower key in
    let next values level message :=
      {| kv_values := values; kv_messageParts := kv_messageParts st; kv_level := level;
         kv_message := message; kv_count := kv_count st + 1 |} in
    if existsb (String.eqb lower) ["level"; "severity"] then next (kv_values st) value (kv_message st)
    else if existsb (String.eqb lower) ["msg"; "message"] then next (kv_values st) (kv_level st) value
    else if existsb (String.eqb lower) ["time"; "ts"; "timestamp"] then next (kv_values st) (kv_level st) (kv_message st)
    else next (Wire.map_set key (parseDevValue value) (kv_values st)) (kv_level st) (kv_message st).

Definition no_key_values : key_values :=
  {| kv_values := []; kv_messageParts := []; kv_level := ""; kv_message := ""; kv_count := 0 |}.

(** The results are the fields, the level and the message. *)
Definition parseDevKeyValueLog (raw : string) : option (string * string * string) :=
  let parts := splitDevLogFields raw in
  if Nat.ltb (length parts) 2 then None
  else
    let st := fold_left key_value_step parts no_key_values in
    if kv_count st =? 0 then None
    else
      let message := if String.eqb (kv_message st) "" && negb (Nat.eqb (length (kv_messageParts st)) 0)
                     then Strings.Join (kv_messageParts st) " " else kv_message st in
      Some (marshal_fields (kv_values st), kv_level st, message).

(** The search for the level among the first three fields: the level and the
    fields after it. *)
Fixpoint find_level (i : nat) (parts : list string) : option (string * list string) :=
  match parts with
  | [] => None
  | part :: rest =>
    let candidate := Strings.TrimSet (fun c => existsb (Ascii.eqb c) ["["; "]"; ":"]%char) part in
    let normalized := normalizeExplicitDevLevel candidate in
    if negb (String.eqb normalized "") then Some (normalized, rest)
    else if Nat.leb 2 i then None
    else find_level (S i) rest
  end.

Definition level_line_step (st : list (string * Wire.any) * list string) (part : string)
    : list (string * Wire.any) * list string :=
  let '(key, value, ok) := Strings.Cut part "=" in
  if ok && negb (String.eqb (Strings.TrimSpace key) "")
  then (Wire.map_set (Strings.TrimSpace key) (parseDevValue (unquoted value)) st.1, st.2)
  else (st.1, st.2 ++ [part]).

(** The results are the level, the message and the fields. *)
Definition parseDevLevelLine (raw : string) : option (string * string * string) :=
  let parts := splitDevLogFields raw in
  if Nat.eqb (length parts) 0 then None
  else match find_level 0 parts with
  | None => None
  | Some (level, rest) =>
    let '(values, messageParts) := fold_left level_line_step rest ([], []) in
    Some (level, Strings.Join messageParts " ", marshal_fields values)
  end.

(** The results are the level, the message, the fields and how they were found. *)
Definition parseDevOutput (source : DevSource) (raw : string)
    : string * string * string * DevEventParse :=
  let raw := Strings.TrimSpace raw in
  if String.eqb raw "" then
    (normalizeDevLevel "" (ds_Stream source), "", json_empty_object, {| Format := "raw"; OK := false |})
  else match parseDevJSONLog raw with
  | Some (fields, level, message) =>
    (normalizeDevLevel level (ds_Stream source), firstNonEmptyString [message; raw], fields,
     {| Format := "json"; OK := true |})
  | None =>
    match parseDevLevelLine raw with
    | Some (level, message, fields) =>
      (normalizeDevLevel level (ds_Stream source), firstNonEmptyString [message; raw], fields,
       {| Format := "level-text"; OK := true |})
    | None =>
      match parseDevKeyValueLog raw with
      | Some (fields, level, message) =>
        (normalizeDevLevel level (ds_Stream source), firstNonEmptyString [message; raw], fields,
         {| Format := "keyvalue"; OK := true |})
      | None =>
        (normalizeDevLevel (inferDevLevel raw) (ds_Stream source), raw, json_empty_object,
         {| Format := "raw"; OK := false |})
      end
    end
  end.

(** [now] is what [time.Now().UTC()] answers. *)
Definition DevEventFromOutput (now : Z) (appID sessionID : string) (source : DevSource)
    (output : string) (createdAt : Z) : DevEvent :=
  let createdAt := if createdAt =? 0 then now else createdAt in
  let source := normalizeDevSource source in
  let raw := Strings.TrimRightSet (fun c => existsb (Ascii.eqb c) [chr 13; chr 10]) output in
  let '(level, message, fields, parse) := parseDevOutput source raw in
  {| de_ID := 0; de_AppID := appID; de_AppRoot := ""; de_SessionID := sessionID; de_Source := source;
     de_Level := level; de_Message := message; de_Fields := fields; de_Raw := raw; de_Parse := parse;
     de_CreatedAt := createdAt |}.

Definition NewDevEvent (now : Z) (appID sessionID : string) (source : DevSource) (level message : string)
    (fields : list (string * Wire.any)) (createdAt : Z) : DevEvent :=
  let createdAt := if createdAt =? 0 then now else createdAt in
  let fieldsJSON := if Nat.eqb (length fields) 0 then json_empty_object else marshal_fields fields in
  let source := normalizeDevSource source in
  let level := normalizeDevLevel level (ds_Stream source) in
  let message := or_else (Strings.TrimSpace message) level in
  {| de_ID := 0; de_AppID := appID; de_AppRoot := ""; de_SessionID := sessionID; de_Source := source;
     de_Level := level; de_Message := message; de_Fields := fieldsJSON; de_Raw := "";
     de_Parse := {| Format := "structured"; OK := true |}; de_CreatedAt := createdAt |}.
End events.

(** ** Levels *)
Definition levels : list string := ["debug"; "info"; "warn"; "error"; "fatal"].

Lemma normalizeExplicitDevLevel_known {UT : UnicodeTables} level :
  normalizeExplicitDevLevel level = "" \/ normalizeExplicitDevLevel level ∈ levels.
Proof.
  unfold normalizeExplicitDevLevel, levels.
  repeat match goal with |- context [if ?b then _ else _] => destruct b end; [right..|left; done];
    apply list_elem_of_In; simpl; tauto.
Qed.

Lemma normalizeDevLevel_known {UT : UnicodeTables} level stream : normalizeDevLevel level stream ∈ levels.
Proof.
  unfold normalizeDevLevel. destruct (normalizeExplicitDevLevel_known level) as [->|Hl]; simpl.
  - destruct (String.eqb stream "stderr"); apply list_elem_of_In; simpl; tauto.
  - destruct (String.eqb_spec (normalizeExplicitDevLevel level) ""); simpl; [|done].
    destruct (String.eqb stream "stderr"); apply list_elem_of_In; simpl; tauto.
Qed.

(** Whatever a process prints, its event has one of the five levels. *)
Lemma DevEventFromOutput_level {UT : UnicodeTables} {JL : JsonLib} now appID sessionID source output at_ :
  de_Level (DevEventFromOutput now appID sessionID source output at_) ∈ levels.
Proof.
  unfold DevEventFromOutput, parseDevOutput. cbv zeta.
  destruct (String.eqb _ ""); [apply normalizeDevLevel_known|].
  destruct (parseDevJSONLog _) as [[[? ?] ?]|]; [apply normalizeDevLevel_known|].
  destruct (parseDevLevelLine _) as [[[? ?] ?]|]; [apply normalizeDevLevel_known|].
  destruct (parseDevKeyValueLog _) as [[[? ?] ?]|]; apply normalizeDevLevel_known.
Qed.

(** ** Quoted fields *)

(** A field in double quotes, with quotes and backslashes escaped. *)
Definition escape_rune (r : Z) : list Z := if (r =? 34) || (r =? 92) then [92; r] else [r].
Definition quote_runes (rs : list Z) : list Z := 34 :: concat (map escape_rune rs) ++ [34].
Definition quote_field (s : string) : string := Utf8.encode (quote_runes (Utf8.runes s)).

Lemma split_fields_quoted rs rest b :
  split_fields (concat (map escape_rune rs) ++ 34 :: rest) b 34 false
  = split_fields rest (b +:+ Utf8.encode rs) 0 false.
Proof.
  revert b. induction rs as [|r rs IH]; intros b.
  - simpl. by rewrite Strings.string_app_nil_r.
  - cbn [map concat Utf8.encode]. rewrite <- Strings.string_app_assoc, <- IH. unfold escape_rune at 1.
    destruct (Z.eqb_spec r 34) as [->|H34]; [done|]. destruct (Z.eqb_spec r 92) as [->|H92]; [done|]. simpl.
    by rewrite (proj2 (Z.eqb_neq r 92) H92), (proj2 (Z.eqb_neq r 34) H34).
Qed.

Lemma runes_quote_field s rest :
  Utf8.runes (quote_field s +:+ rest) = quote_runes (Utf8.runes s) ++ Utf8.runes rest.
Proof.
  apply Utf8Facts.runes_encode. unfold quote_runes. constructor; [done|]. apply Forall_app. split; [|by repeat constructor].
  apply Forall_concat, Forall_map. eapply Forall_impl; [apply Utf8Facts.runes_valid|].
  intros r Hr. unfold escape_rune. destruct (_ || _); by repeat constructor.
Qed.

Lemma split_quote_field rs rest :
  split_fields (quote_runes rs ++ rest) "" 0 false = split_fields rest (Utf8.encode rs) 0 false.
Proof.
  unfold quote_runes. cbn [app]. cbn [split_fields]. simpl. rewrite <- app_assoc. simpl.
  by rewrite split_fields_quoted.
Qed.

(** Text that is valid UTF-8. *)
Definition valid_text (s : string) : Prop := Utf8.encode (Utf8.runes s) = s.

(** Splitting a line inverts quoting: fields that are quoted and separated by
    spaces are read back exactly, whatever spaces, quotes, equal signs and
    backslashes they contain. *)
Theorem splitDevLogFields_quoted fields : Forall (fun s => s <> "" /\ valid_text s) fields ->
  splitDevLogFields (Strings.Join (map quote_field fields) " ") = fields.
Proof.
  unfold splitDevLogFields. induction 1 as [|s fields [Hne Hv] Hf IH]; [done|]. unfold valid_text in Hv.
  destruct fields as [|s' fields].
  - cbn [map Strings.Join]. rewrite <- (Strings.string_app_nil_r (quote_field s)), runes_quote_field, split_quote_field.
    simpl. rewrite Hv. by rewrite (proj2 (String.eqb_neq s "") Hne).
  - cbn [map Strings.Join] in *. rewrite runes_quote_field, split_quote_field.
    change (" " +:+ ?x) with (String " " x) in *.
    rewrite Hv. rewrite Utf8Facts.runes_cons. simpl.
    rewrite (proj2 (String.eqb_neq s "") Hne). f_equal. exact IH.
Qed.

Lemma splitDevLogFields_quoted_witness :
  splitDevLogFields (Strings.Join (map quote_field ["it's a=b"; "two words"]) " ") = ["it's a=b"; "two words"].
Proof.
  apply (splitDevLogFields_quoted ["it's a=b"; "two words"]). repeat constructor; discriminate.
Defined.

(** A value 0 or 1 is read as a boolean, not as a number. *)
Example digit_is_bool {JL : JsonLib} : parseDevValue "1" = Wire.ABool true /\ parseDevValue "0" = Wire.ABool false.
Proof. split; reflexivity. Qed.

(** An apostrophe opens a quote: it is dropped and hides the fields after it. *)
Example apostrophe_hides_fields : splitDevLogFields "can't open port=80" = ["cant open port=80"].
Proof. reflexivity. Qed.
End DevEvents.
