(* ===== verification/DashStore.v ===== *)
(** * The dashboard store ([internal/devdash/store.go])

    [DashStore] models the store of the development dashboard: one JSON file
    per cache directory, the state of it that a process keeps in memory, writes
    that are saved at once, writes that are saved later by a background flush
    and replayed when another process has changed the file meanwhile, and every
    operation and query of the store.

    What the operating system answers is the class [Env]: the k-th call of a
    run may fail, other processes may change files before it, and it returns a
    time, a stamp or random bytes.  A file is what reading it can show: nothing
    but white space, text that is not the JSON of a state, or the state that
    [json.Unmarshal] makes of it.  [json_view] is the state that reading back
    the text written for a state gives: text becomes valid UTF-8, raw messages
    are compacted, fields marked [-] are lost, a nil message without omitempty
    becomes null.  The temporary file of a save is not represented: only its
    renaming changes the store's file. *)
From stdpp Require Import base tactics list gmap strings.
From Stdlib Require Import ZArith Lia Ascii.
From S2P Require Import Prelude GoStrings WireCodec DevEvents.

Module DashStore.
Import DevEvents.

(** ** Data ([types.go], [internal/devreport/types.go]) *)
Record AppRecord := {
  app_RouteID : string;
  app_ID : string;
  app_BaseAppID : string;
  app_RuntimeAppID : string;
  app_SessionID : string;
  app_Name : string;
  app_Root : string;
  app_ListenAddr : string;
  app_Metadata : string;
  app_APIEncoding : string;
  app_Grafana : string;
  app_Routes : gmap string string;
  app_Aliases : gmap string string;
  app_Offline : bool;
  app_Running : bool;
  app_Compiling : bool;
  app_CompileError : string;
  app_PID : string;
  app_UpdatedAt : Z
}.

(** The copies of an app record that the operations make. *)
Definition with_route (app : AppRecord) (route : string) (offline : bool) : AppRecord :=
  {| app_RouteID := route; app_ID := app_ID app; app_BaseAppID := app_BaseAppID app;
     app_RuntimeAppID := app_RuntimeAppID app; app_SessionID := app_SessionID app;
     app_Name := app_Name app; app_Root := app_Root app; app_ListenAddr := app_ListenAddr app;
     app_Metadata := app_Metadata app; app_APIEncoding := app_APIEncoding app;
     app_Grafana := app_Grafana app; app_Routes := app_Routes app; app_Aliases := app_Aliases app;
     app_Offline := offline; app_Running := app_Running app; app_Compiling := app_Compiling app;
     app_CompileError := app_CompileError app; app_PID := app_PID app; app_UpdatedAt := app_UpdatedAt app |}.

Record ProcessEvent := {
  pe_ID : Z;
  pe_AppID : string;
  pe_Kind : string;
  pe_PayloadJSON : string;
  pe_CreatedAt : Z
}.

Record ProcessOutput := {
  po_ID : Z;
  po_AppID : string;
  po_SessionID : string;
  po_PID : string;
  po_Stream : string;
  po_Output : string;
  po_CreatedAt : Z
}.

Record TraceSummary := {
  ts_TraceID : string;
  ts_SpanID : string;
  ts_SessionID : string;
  ts_AppRootHash : string;
  ts_Branch : string;
  ts_Worktree : string;
  ts_Type : string;
  ts_IsRoot : bool;
  ts_IsError : bool;
  ts_DeployedCommit : string;
  ts_StartedAt : Z;
  ts_DurationNanos : Z;
  ts_ServiceName : string;
  ts_EndpointName : option string;
  ts_MessageID : option string;
  ts_TestSkipped : option bool;
  ts_SrcFile : option string;
  ts_SrcLine : option Z;
  ts_ParentSpanID : option string;
  ts_CallerEventID : option Z;
  ts_AppID : string;
  ts_TestTrace : bool
}.

Record TraceEvent := {
  te_TraceID : string;
  te_SpanID : string;
  te_SessionID : string;
  te_AppRootHash : string;
  te_Branch : string;
  te_Worktree : string;
  te_EventID : Z;
  te_EventTime : Z;
  te_AppID : string;
  te_Data : string;
  te_Event : Wire.any
}.

Record LogEvent := {
  le_AppID : string;
  le_SessionID : string;
  le_AppRootHash : string;
  le_Branch : string;
  le_Worktree : string;
  le_TraceID : string;
  le_SpanID : string;
  le_Level : string;
  le_Message : string;
  le_Attrs : Wire.any;
  le_Timestamp : Z
}.

Record StoredRequestData := { rd_Method : string; rd_PathParams : string; rd_Payload : string }.

Record StoredRequest := {
  sr_ID : string;
  sr_AppID : string;
  sr_Title : string;
  sr_RPC : string;
  sr_Svc : string;
  sr_Shared : bool;
  sr_Data : StoredRequestData
}.

Record storedDevEvent := {
  sde_DevEvent : DevEvent;
  sde_AppID : string;
  sde_AppRoot : string;
  sde_CreatedAt : Z
}.

Record storedTraceSummary := {
  sts_TraceSummary : TraceSummary;
  sts_AppID : string;
  sts_TestTrace : bool
}.

Record storedTraceEvent := {
  ste_TraceEvent : TraceEvent;
  ste_AppID : string;
  ste_Data : string
}.

Record DevEventQuery := {
  dq_AppID : string;
  dq_SessionID : string;
  dq_SourceID : string;
  dq_Kind : string;
  dq_Level : string;
  dq_Stream : string;
  dq_Grep : string;
  dq_Since : Z;
  dq_AfterID : Z;
  dq_Limit : Z
}.

Record TraceQuery := {
  tq_AppID : string;
  tq_SessionID : string;
  tq_TraceID : string;
  tq_ServiceName : string;
  tq_EndpointName : string;
  tq_Status : string;
  tq_Since : Z;
  tq_MinDurationNanos : Z;
  tq_Limit : Z
}.

Record LogLevelCount := { lc_Level : string; lc_Count : Z }.

(** A Go map that may be nil. *)
Definition go_map (A : Type) : Type := option (gmap string A).

Record storeState := {
  Version : Z;
  Apps : go_map AppRecord;
  AppSessions : go_map AppRecord;
  ProcessEvents : list ProcessEvent;
  ProcessOutputs : list ProcessOutput;
  DevSources : go_map DevSource;
  DevEvents_ : list storedDevEvent;
  TraceSummaries : list storedTraceSummary;
  TraceEvents : list storedTraceEvent;
  LogEvents : list LogEvent;
  Onboarding : go_map Z;
  StoredRequests : go_map StoredRequest;
  NextProcessEventID : Z;
  NextProcessOutputID : Z;
  NextDevEventID : Z
}.

Definition set_apps (st : storeState) (apps sessions : go_map AppRecord) : storeState :=
  {| Version := Version st; Apps := apps; AppSessions := sessions; ProcessEvents := ProcessEvents st;
     ProcessOutputs := ProcessOutputs st; DevSources := DevSources st; DevEvents_ := DevEvents_ st;
     TraceSummaries := TraceSummaries st; TraceEvents := TraceEvents st; LogEvents := LogEvents st;
     Onboarding := Onboarding st; StoredRequests := StoredRequests st;
     NextProcessEventID := NextProcessEventID st; NextProcessOutputID := NextProcessOutputID st;
     NextDevEventID := NextDevEventID st |}.

Definition set_process_events (st : storeState) (events : list ProcessEvent) (next : Z) : storeState :=
  {| Version := Version st; Apps := Apps st; AppSessions := AppSessions st; ProcessEvents := events;
     ProcessOutputs := ProcessOutputs st; DevSources := DevSources st; DevEvents_ := DevEvents_ st;
     TraceSummaries := TraceSummaries st; TraceEvents := TraceEvents st; LogEvents := LogEvents st;
     Onboarding := Onboarding st; StoredRequests := StoredRequests st;
     NextProcessEventID := next; NextProcessOutputID := NextProcessOutputID st;
     NextDevEventID := NextDevEventID st |}.

Definition set_process_output (st : storeState) (items : list ProcessOutput) (next : Z) : storeState :=
  {| Version := Version st; Apps := Apps st; AppSessions := AppSessions st; ProcessEvents := ProcessEvents st;
     ProcessOutputs := items; DevSources := DevSources st; DevEvents_ := DevEvents_ st;
     TraceSummaries := TraceSummaries st; TraceEvents := TraceEvents st; LogEvents := LogEvents st;
     Onboarding := Onboarding st; StoredRequests := StoredRequests st;
     NextProcessEventID := NextProcessEventID st; NextProcessOutputID := next;
     NextDevEventID := NextDevEventID st |}.

Definition set_dev (st : storeState) (sources : go_map DevSource) (events : list storedDevEvent) (next : Z) : storeState :=
  {| Version := Version st; Apps := Apps st; AppSessions := AppSessions st; ProcessEvents := ProcessEvents st;
     ProcessOutputs := ProcessOutputs st; DevSources := sources; DevEvents_ := events;
     TraceSummaries := TraceSummaries st; TraceEvents := TraceEvents st; LogEvents := LogEvents st;
     Onboarding := Onboarding st; StoredRequests := StoredRequests st;
     NextProcessEventID := NextProcessEventID st; NextProcessOutputID := NextProcessOutputID st;
     NextDevEventID := next |}.

Definition set_traces (st : storeState) (summaries : list storedTraceSummary)
    (events : list storedTraceEvent) (logs : list LogEvent) : storeState :=
  {| Version := Version st; Apps := Apps st; AppSessions := AppSessions st; ProcessEvents := ProcessEvents st;
     ProcessOutputs := ProcessOutputs st; DevSources := DevSources st; DevEvents_ := DevEvents_ st;
     TraceSummaries := summaries; TraceEvents := events; LogEvents := logs;
     Onboarding := Onboarding st; StoredRequests := StoredRequests st;
     NextProcessEventID := NextProcessEventID st; NextProcessOutputID := NextProcessOutputID st;
     NextDevEventID := NextDevEventID st |}.

Definition set_saved (st : storeState) (onboarding : go_map Z) (requests : go_map StoredRequest) : storeState :=
  {| Version := Version st; Apps := Apps st; AppSessions := AppSessions st; ProcessEvents := ProcessEvents st;
     ProcessOutputs := ProcessOutputs st; DevSources := DevSources st; DevEvents_ := DevEvents_ st;
     TraceSummaries := TraceSummaries st; TraceEvents := TraceEvents st; LogEvents := LogEvents st;
     Onboarding := onboarding; StoredRequests := requests;
     NextProcessEventID := NextProcessEventID st; NextProcessOutputID := NextProcessOutputID st;
     NextDevEventID := NextDevEventID st |}.

(** ** Bounds, identifiers and normal forms *)
Definition maxStoredProcessEvents : Z := 1000.
Definition maxStoredProcessOutput : Z := 5000.
Definition maxStoredDevEvents : Z := 5000.
Definition maxStoredTraceSummaries : Z := 2000.
Definition maxStoredTraceEvents : Z := 6000.
Definition maxStoredLogEvents : Z := 5000.
Definition maxProcessEventPayloadBytes : Z := 64 * 1024.

Definition len {A} (l : list A) : Z := Z.of_nat (length l).
Definition slen (s : string) : Z := Z.of_nat (String.length s).

(** [items[len(items)-max:]]. *)
Definition tailSlice {A} (items : list A) (max : Z) : list A :=
  if (max <=? 0) || (len items <=? max) then items
  else drop (length items - Z.to_nat max) items.

(** [if len(items) > limit { items = items[:limit] }]. *)
Definition limited {A} (limit : Z) (items : list A) : list A :=
  if limit <? len items then take (Z.to_nat limit) items else items.

Definition quote : string := String (chr 34) "".

(** [json.Marshal(map[string]any{"truncated": true, "original_bytes": n})]. *)
Definition truncated_marker (n : Z) : string :=
  "{" +:+ quote +:+ "original_bytes" +:+ quote +:+ ":" +:+ Strconv.Itoa n +:+ ","
  +:+ quote +:+ "truncated" +:+ quote +:+ ":true}".

Definition truncate_event (event : ProcessEvent) : ProcessEvent :=
  if slen (pe_PayloadJSON event) <=? maxProcessEventPayloadBytes then event
  else {| pe_ID := pe_ID event; pe_AppID := pe_AppID event; pe_Kind := pe_Kind event;
          pe_PayloadJSON := truncated_marker (slen (pe_PayloadJSON event));
          pe_CreatedAt := pe_CreatedAt event |}.

Definition truncateOversizedProcessEvents (events : list ProcessEvent) : list ProcessEvent :=
  map truncate_event events.

Definition pruneStoreState (st : storeState) : storeState :=
  {| Version := Version st; Apps := Apps st; AppSessions := AppSessions st;
     ProcessEvents := truncateOversizedProcessEvents (tailSlice (ProcessEvents st) maxStoredProcessEvents);
     ProcessOutputs := tailSlice (ProcessOutputs st) maxStoredProcessOutput;
     DevSources := DevSources st;
     DevEvents_ := tailSlice (DevEvents_ st) maxStoredDevEvents;
     TraceSummaries := tailSlice (TraceSummaries st) maxStoredTraceSummaries;
     TraceEvents := tailSlice (TraceEvents st) maxStoredTraceEvents;
     LogEvents := tailSlice (LogEvents st) maxStoredLogEvents;
     Onboarding := Onboarding st; StoredRequests := StoredRequests st;
     NextProcessEventID := NextProcessEventID st; NextProcessOutputID := NextProcessOutputID st;
     NextDevEventID := NextDevEventID st |}.

(** [maxProcessEventID], [maxProcessOutputID] and [maxDevEventID] are the same
    loop over the identifiers of a list. *)
Definition max_id (ids : list Z) : Z := fold_left (fun m id => if m <? id then id else m) ids 0.
Definition maxProcessEventID (events : list ProcessEvent) : Z := max_id (map pe_ID events).
Definition maxProcessOutputID (items : list ProcessOutput) : Z := max_id (map po_ID items).
Definition maxDevEventID (events : list storedDevEvent) : Z := max_id (map (fun e => de_ID (sde_DevEvent e)) events).

(** [int64] arithmetic. *)
Definition succ64 (z : Z) : Z := wrap_int 64 (z + 1).

Definition appSessionRecordKey (app : AppRecord) : string :=
  if negb (String.eqb (app_RouteID app) "") then app_RouteID app
  else if negb (String.eqb (app_SessionID app) "") then app_SessionID app
  else app_ID app.

(** [if m == nil { m = map{} }]. *)
Definition non_nil {A} (m : go_map A) : gmap string A := default ∅ m.

(** What the operating system answers to the k-th call of a run: whether the
    call fails, the files as other processes have left them, the size and
    modification time of a file written by it, the clock, random bytes, and
    the order in which a map is visited. *)
Inductive content := Blank | Garbage | Doc (d : storeState).
Record file := { f_content : content; f_size : Z; f_modTime : Z }.

Class Env := {
  fails_at : nat -> bool;
  others_at : nat -> gmap string file -> gmap string file;
  stamp_at : nat -> Z * Z;
  clock_at : nat -> Z;
  random_at : nat -> string;
  user_cache_dir : option string;
  map_order : forall A, gmap string A -> list (string * A)
}.
Arguments map_order {_ A} _.

(** Go visits every entry of a map exactly once. *)
Class EnvOrder (E : Env) : Prop :=
  map_order_perm : forall A (m : gmap string A), map_order m ≡ₚ map_to_list m.

Section ops.
Context {UT : UnicodeTables} {JL : JsonLib} {E : Env}.

Definition normalizeStoreState (st : storeState) : storeState :=
  let apps := non_nil (Apps st) in
  let sessions := non_nil (AppSessions st) in
  let sessions :=
    if Nat.eqb (size sessions) 0 && Nat.ltb 0 (size apps)
    then fold_left (fun m e => <[appSessionRecordKey e.2 := e.2]> m) (map_order apps) sessions
    else sessions in
  {| Version := if Version st =? 0 then 1 else Version st;
     Apps := Some apps; AppSessions := Some sessions;
     ProcessEvents := ProcessEvents st; ProcessOutputs := ProcessOutputs st;
     DevSources := Some (non_nil (DevSources st)); DevEvents_ := DevEvents_ st;
     TraceSummaries := TraceSummaries st; TraceEvents := TraceEvents st; LogEvents := LogEvents st;
     Onboarding := Some (non_nil (Onboarding st)); StoredRequests := Some (non_nil (StoredRequests st));
     NextProcessEventID := if NextProcessEventID st <=? 0 then succ64 (maxProcessEventID (ProcessEvents st))
                           else NextProcessEventID st;
     NextProcessOutputID := if NextProcessOutputID st <=? 0 then succ64 (maxProcessOutputID (ProcessOutputs st))
                            else NextProcessOutputID st;
     NextDevEventID := if NextDevEventID st <=? 0 then succ64 (maxDevEventID (DevEvents_ st))
                       else NextDevEventID st |}.

Definition zero_state : storeState :=
  {| Version := 0; Apps := None; AppSessions := None; ProcessEvents := []; ProcessOutputs := [];
     DevSources := None; DevEvents_ := []; TraceSummaries := []; TraceEvents := []; LogEvents := [];
     Onboarding := None; StoredRequests := None; NextProcessEventID := 0; NextProcessOutputID := 0;
     NextDevEventID := 0 |}.

Definition newStoreState : storeState :=
  normalizeStoreState
    {| Version := 1; Apps := None; AppSessions := None; ProcessEvents := []; ProcessOutputs := [];
       DevSources := None; DevEvents_ := []; TraceSummaries := []; TraceEvents := []; LogEvents := [];
       Onboarding := None; StoredRequests := None; NextProcessEventID := 0; NextProcessOutputID := 0;
       NextDevEventID := 0 |}.

(** ** The JSON of a state

    [json_view st] is what [json.Unmarshal] makes of the text [json.Marshal]
    writes for [st]; there is none when a raw message is not JSON or a time is
    outside the years 0 to 9999. *)
Definition text_view (s : string) : string := Utf8.encode (Utf8.runes s).

Definition day_nanos : Z := 86400 * 10 ^ 9.
Definition time_view (t : Z) : option Z :=
  if (- (366 * day_nanos) <=? t) && (t <? 3652059 * day_nanos) then Some t else None.

(** A message without omitempty: nil is written as null. *)
Definition raw_view (v : string) : option string :=
  if String.eqb v "" then Some "null" else json_compact v.

Definition raw_view_omit (v : string) : option string :=
  if String.eqb v "" then Some "" else json_compact v.

(** A [map[string]any] field. *)
Definition any_view (v : Wire.any) : option Wire.any :=
  match v with
  | Wire.ANil => Some Wire.ANil
  | _ => text ← json_marshal v; json_unmarshal text
  end.

(** The same with omitempty. *)
Definition any_view_omit (v : Wire.any) : option Wire.any :=
  match v with
  | Wire.ANil | Wire.AObject [] => Some Wire.ANil
  | _ => any_view v
  end.

(** The entries of a map are written in the order of their keys; of two keys
    that are written alike the later one is read. *)
Definition map_view {A} (f : A -> option A) (m : gmap string A) : option (gmap string A) :=
  entries ← mapM (fun e : string * A => v ← f e.2; Some (text_view e.1, v))
                 (sort_stable Wire.key_before (map_to_list m));
  Some (fold_left (fun acc e => <[e.1 := e.2]> acc) entries ∅).

(** A map with omitempty. *)
Definition map_view_omit {A} (f : A -> option A) (m : go_map A) : option (go_map A) :=
  if Nat.eqb (size (non_nil m)) 0 then Some None
  else Some <$> map_view f (non_nil m).

Definition app_view (app : AppRecord) : option AppRecord :=
  metadata ← raw_view (app_Metadata app);
  encoding ← raw_view (app_APIEncoding app);
  grafana ← raw_view (app_Grafana app);
  routes ← map_view (fun s => Some (text_view s)) (app_Routes app);
  aliases ← map_view (fun s => Some (text_view s)) (app_Aliases app);
  updated ← time_view (app_UpdatedAt app);
  Some {| app_RouteID := text_view (app_RouteID app); app_ID := text_view (app_ID app);
          app_BaseAppID := text_view (app_BaseAppID app); app_RuntimeAppID := text_view (app_RuntimeAppID app);
          app_SessionID := text_view (app_SessionID app); app_Name := text_view (app_Name app);
          app_Root := text_view (app_Root app); app_ListenAddr := text_view (app_ListenAddr app);
          app_Metadata := metadata; app_APIEncoding := encoding; app_Grafana := grafana;
          app_Routes := routes; app_Aliases := aliases; app_Offline := app_Offline app;
          app_Running := app_Running app; app_Compiling := app_Compiling app;
          app_CompileError := text_view (app_CompileError app); app_PID := text_view (app_PID app);
          app_UpdatedAt := updated |}.

Definition process_event_view (e : ProcessEvent) : option ProcessEvent :=
  payload ← raw_view (pe_PayloadJSON e);
  created ← time_view (pe_CreatedAt e);
  Some {| pe_ID := pe_ID e; pe_AppID := text_view (pe_AppID e); pe_Kind := text_view (pe_Kind e);
          pe_PayloadJSON := payload; pe_CreatedAt := created |}.

(** The output is bytes, which are written in base 64. *)
Definition process_output_view (o : ProcessOutput) : option ProcessOutput :=
  created ← time_view (po_CreatedAt o);
  Some {| po_ID := po_ID o; po_AppID := text_view (po_AppID o); po_SessionID := text_view (po_SessionID o);
          po_PID := text_view (po_PID o); po_Stream := text_view (po_Stream o); po_Output := po_Output o;
          po_CreatedAt := created |}.

Definition dev_source_view (s : DevSource) : DevSource :=
  {| ds_ID := text_view (ds_ID s); ds_Kind := text_view (ds_Kind s); ds_Name := text_view (ds_Name s);
     ds_Role := text_view (ds_Role s); ds_PID := text_view (ds_PID s); ds_Stream := text_view (ds_Stream s);
     ds_RestartID := text_view (ds_RestartID s); ds_Status := text_view (ds_Status s);
     ds_URL := text_view (ds_URL s); ds_Reason := text_view (ds_Reason s) |}.

(** The app, its root and the time of the embedded event are not written. *)
Definition dev_event_view (e : storedDevEvent) : option storedDevEvent :=
  let ev := sde_DevEvent e in
  fields ← raw_view_omit (de_Fields ev);
  created ← time_view (sde_CreatedAt e);
  Some {| sde_DevEvent :=
            {| de_ID := de_ID ev; de_AppID := ""; de_AppRoot := "";
               de_SessionID := text_view (de_SessionID ev); de_Source := dev_source_view (de_Source ev);
               de_Level := text_view (de_Level ev); de_Message := text_view (de_Message ev);
               de_Fields := fields; de_Raw := text_view (de_Raw ev);
               de_Parse := {| Format := text_view (Format (de_Parse ev)); OK := OK (de_Parse ev) |};
               de_CreatedAt := 0 |};
          sde_AppID := text_view (sde_AppID e); sde_AppRoot := text_view (sde_AppRoot e);
          sde_CreatedAt := created |}.

Definition trace_summary_view (s : storedTraceSummary) : option storedTraceSummary :=
  let ts := sts_TraceSummary s in
  started ← time_view (ts_StartedAt ts);
  Some {| sts_TraceSummary :=
            {| ts_TraceID := text_view (ts_TraceID ts); ts_SpanID := text_view (ts_SpanID ts);
               ts_SessionID := text_view (ts_SessionID ts); ts_AppRootHash := text_view (ts_AppRootHash ts);
               ts_Branch := text_view (ts_Branch ts); ts_Worktree := text_view (ts_Worktree ts);
               ts_Type := text_view (ts_Type ts); ts_IsRoot := ts_IsRoot ts; ts_IsError := ts_IsError ts;
               ts_DeployedCommit := text_view (ts_DeployedCommit ts); ts_StartedAt := started;
               ts_DurationNanos := ts_DurationNanos ts; ts_ServiceName := text_view (ts_ServiceName ts);
               ts_EndpointName := text_view <$> ts_EndpointName ts;
               ts_MessageID := text_view <$> ts_MessageID ts; ts_TestSkipped := ts_TestSkipped ts;
               ts_SrcFile := text_view <$> ts_SrcFile ts; ts_SrcLine := ts_SrcLine ts;
               ts_ParentSpanID := text_view <$> ts_ParentSpanID ts;
               ts_CallerEventID := ts_CallerEventID ts; ts_AppID := ""; ts_TestTrace := false |};
          sts_AppID := text_view (sts_AppID s); sts_TestTrace := sts_TestTrace s |}.

Definition trace_event_view (e : storedTraceEvent) : option storedTraceEvent :=
  let te := ste_TraceEvent e in
  at_ ← time_view (te_EventTime te);
  event ← any_view (te_Event te);
  data ← raw_view_omit (ste_Data e);
  Some {| ste_TraceEvent :=
            {| te_TraceID := text_view (te_TraceID te); te_SpanID := text_view (te_SpanID te);
               te_SessionID := text_view (te_SessionID te); te_AppRootHash := text_view (te_AppRootHash te);
               te_Branch := text_view (te_Branch te); te_Worktree := text_view (te_Worktree te);
               te_EventID := te_EventID te; te_EventTime := at_; te_AppID := ""; te_Data := "";
               te_Event := event |};
          ste_AppID := text_view (ste_AppID e); ste_Data := data |}.

Definition log_event_view (e : LogEvent) : option LogEvent :=
  at_ ← time_view (le_Timestamp e);
  attrs ← any_view_omit (le_Attrs e);
  Some {| le_AppID := text_view (le_AppID e); le_SessionID := text_view (le_SessionID e);
          le_AppRootHash := text_view (le_AppRootHash e); le_Branch := text_view (le_Branch e);
          le_Worktree := text_view (le_Worktree e); le_TraceID := text_view (le_TraceID e);
          le_SpanID := text_view (le_SpanID e); le_Level := text_view (le_Level e);
          le_Message := text_view (le_Message e); le_Attrs := attrs; le_Timestamp := at_ |}.

(** The app of a request is not written: it is part of the key. *)
Definition request_view (r : StoredRequest) : option StoredRequest :=
  params ← raw_view (rd_PathParams (sr_Data r));
  payload ← raw_view (rd_Payload (sr_Data r));
  Some {| sr_ID := text_view (sr_ID r); sr_AppID := ""; sr_Title := text_view (sr_Title r);
          sr_RPC := text_view (sr_RPC r); sr_Svc := text_view (sr_Svc r); sr_Shared := sr_Shared r;
          sr_Data := {| rd_Method := text_view (rd_Method (sr_Data r)); rd_PathParams := params;
                        rd_Payload := payload |} |}.

Definition json_view (st : storeState) : option storeState :=
  apps ← map_view_omit app_view (Apps st);
  sessions ← map_view_omit app_view (AppSessions st);
  events ← mapM process_event_view (ProcessEvents st);
  output ← mapM process_output_view (ProcessOutputs st);
  sources ← map_view_omit (fun s => Some (dev_source_view s)) (DevSources st);
  dev ← mapM dev_event_view (DevEvents_ st);
  summaries ← mapM trace_summary_view (TraceSummaries st);
  traces ← mapM trace_event_view (TraceEvents st);
  logs ← mapM log_event_view (LogEvents st);
  onboarding ← map_view_omit time_view (Onboarding st);
  requests ← map_view_omit request_view (StoredRequests st);
  Some {| Version := Version st; Apps := apps; AppSessions := sessions; ProcessEvents := events;
          ProcessOutputs := output; DevSources := sources; DevEvents_ := dev; TraceSummaries := summaries;
          TraceEvents := traces; LogEvents := logs; Onboarding := onboarding; StoredRequests := requests;
          NextProcessEventID := NextProcessEventID st; NextProcessOutputID := NextProcessOutputID st;
          NextDevEventID := NextDevEventID st |}.

(** ** Conversions *)
Definition compactRawMessage (value : string) : string :=
  if String.eqb value "" then value
  else match json_unmarshal value with
  | None => value
  | Some decoded => default value (json_marshal decoded)
  end.

Definition storeDevEvent (event : DevEvent) : storedDevEvent :=
  {| sde_DevEvent := event; sde_AppID := de_AppID event; sde_AppRoot := de_AppRoot event;
     sde_CreatedAt := de_CreatedAt event |}.

Definition toDevEvent (event : storedDevEvent) : DevEvent :=
  let item := sde_DevEvent event in
  {| de_ID := de_ID item; de_AppID := sde_AppID event; de_AppRoot := sde_AppRoot event;
     de_SessionID := de_SessionID item; de_Source := de_Source item; de_Level := de_Level item;
     de_Message := de_Message item; de_Fields := compactRawMessage (de_Fields item);
     de_Raw := de_Raw item; de_Parse := de_Parse item; de_CreatedAt := sde_CreatedAt event |}.

Definition storeTraceSummary (summary : TraceSummary) : storedTraceSummary :=
  {| sts_TraceSummary := summary; sts_AppID := ts_AppID summary; sts_TestTrace := ts_TestTrace summary |}.

Definition toTraceSummary (summary : storedTraceSummary) : TraceSummary :=
  let item := sts_TraceSummary summary in
  {| ts_TraceID := ts_TraceID item; ts_SpanID := ts_SpanID item; ts_SessionID := ts_SessionID item;
     ts_AppRootHash := ts_AppRootHash item; ts_Branch := ts_Branch item; ts_Worktree := ts_Worktree item;
     ts_Type := ts_Type item; ts_IsRoot := ts_IsRoot item; ts_IsError := ts_IsError item;
     ts_DeployedCommit := ts_DeployedCommit item; ts_StartedAt := ts_StartedAt item;
     ts_DurationNanos := ts_DurationNanos item; ts_ServiceName := ts_ServiceName item;
     ts_EndpointName := ts_EndpointName item; ts_MessageID := ts_MessageID item;
     ts_TestSkipped := ts_TestSkipped item; ts_SrcFile := ts_SrcFile item; ts_SrcLine := ts_SrcLine item;
     ts_ParentSpanID := ts_ParentSpanID item; ts_CallerEventID := ts_CallerEventID item;
     ts_AppID := sts_AppID summary; ts_TestTrace := sts_TestTrace summary |}.

Definition storeTraceEvent (event : TraceEvent) : storedTraceEvent :=
  {| ste_TraceEvent := event; ste_AppID := te_AppID event; ste_Data := te_Data event |}.

(** The event of a stored one, for a session ([toTraceEvent] keeps the session). *)
Definition trace_event_of (event : storedTraceEvent) (session : string) : TraceEvent :=
  let item := ste_TraceEvent event in
  {| te_TraceID := te_TraceID item; te_SpanID := te_SpanID item; te_SessionID := session;
     te_AppRootHash := te_AppRootHash item; te_Branch := te_Branch item; te_Worktree := te_Worktree item;
     te_EventID := te_EventID item; te_EventTime := te_EventTime item; te_AppID := ste_AppID event;
     te_Data := ste_Data event; te_Event := te_Event item |}.

Definition toTraceEvent (event : storedTraceEvent) : TraceEvent :=
  trace_event_of event (te_SessionID (ste_TraceEvent event)).

Definition normalizeAppRecord (now : Z) (app : AppRecord) : AppRecord :=
  {| app_RouteID := app_RouteID app; app_ID := app_ID app; app_BaseAppID := app_BaseAppID app;
     app_RuntimeAppID := app_RuntimeAppID app; app_SessionID := app_SessionID app;
     app_Name := app_Name app; app_Root := app_Root app; app_ListenAddr := app_ListenAddr app;
     app_Metadata := or_else (app_Metadata app) json_empty_object;
     app_APIEncoding := or_else (app_APIEncoding app) json_empty_object;
     app_Grafana := or_else (app_Grafana app) json_empty_object;
     app_Routes := app_Routes app; app_Aliases := app_Aliases app; app_Offline := app_Offline app;
     app_Running := app_Running app; app_Compiling := app_Compiling app;
     app_CompileError := app_CompileError app; app_PID := app_PID app;
     app_UpdatedAt := if app_UpdatedAt app =? 0 then now else app_UpdatedAt app |}.

Definition normalizeDevEvent (now : Z) (event : DevEvent) : DevEvent :=
  let source := normalizeDevSource (de_Source event) in
  let level := normalizeDevLevel (de_Level event) (ds_Stream source) in
  let message := or_else (Strings.TrimSpace (de_Message event)) (Strings.TrimSpace (de_Raw event)) in
  {| de_ID := de_ID event; de_AppID := de_AppID event; de_AppRoot := de_AppRoot event;
     de_SessionID := de_SessionID event; de_Source := source; de_Level := level;
     de_Message := or_else message level;
     de_Fields := if String.eqb (de_Fields event) "" || negb (json_valid (de_Fields event))
                  then json_empty_object else de_Fields event;
     de_Raw := de_Raw event;
     de_Parse := {| Format := or_else (Format (de_Parse event)) "raw"; OK := OK (de_Parse event) |};
     de_CreatedAt := if de_CreatedAt event =? 0 then now else de_CreatedAt event |}.

Definition with_event_id (event : DevEvent) (id : Z) : DevEvent :=
  {| de_ID := id; de_AppID := de_AppID event; de_AppRoot := de_AppRoot event;
     de_SessionID := de_SessionID event; de_Source := de_Source event; de_Level := de_Level event;
     de_Message := de_Message event; de_Fields := de_Fields event; de_Raw := de_Raw event;
     de_Parse := de_Parse event; de_CreatedAt := de_CreatedAt event |}.

Definition normalizeStoredRequestJSON (value : string) : string :=
  if String.eqb value "" then "" else compactRawMessage value.

Definition sanitizeStoredRequest (req : StoredRequest) : StoredRequest :=
  {| sr_ID := sr_ID req; sr_AppID := sr_AppID req; sr_Title := sr_Title req; sr_RPC := sr_RPC req;
     sr_Svc := sr_Svc req; sr_Shared := sr_Shared req;
     sr_Data := {| rd_Method := rd_Method (sr_Data req);
                   rd_PathParams := normalizeStoredRequestJSON (rd_PathParams (sr_Data req));
                   rd_Payload := normalizeStoredRequestJSON (rd_Payload (sr_Data req)) |} |}.

Definition with_request_ids (req : StoredRequest) (app id : string) : StoredRequest :=
  {| sr_ID := id; sr_AppID := app; sr_Title := sr_Title req; sr_RPC := sr_RPC req;
     sr_Svc := sr_Svc req; sr_Shared := sr_Shared req; sr_Data := sr_Data req |}.

Definition NUL : ascii := chr 0.
Definition nul : string := String NUL "".

Definition devSourceKey (appID sessionID sourceID : string) : string :=
  appID +:+ nul +:+ sessionID +:+ nul +:+ sourceID.

(** [strings.SplitN(key, "\x00", 3)], padded to three parts. *)
Definition splitDevSourceKey (key : string) : string * string * string :=
  match Strings.cut_opt key nul with
  | None => (key, "", "")
  | Some (a, rest) =>
    match Strings.cut_opt rest nul with
    | None => (a, rest, "")
    | Some (b, c) => (a, b, c)
    end
  end.

Definition storedRequestKey (appID id : string) : string := appID +:+ nul +:+ id.

Definition splitStoredRequestKey (key : string) : string * string :=
  match Strings.cut_opt key nul with
  | None => ("", key)
  | Some (appID, id) => (appID, id)
  end.

(** ** Queries *)
Definition app_by_running (a b : AppRecord) (rest : bool) : bool :=
  if negb (Bool.eqb (app_Running a) (app_Running b)) then app_Running a else rest.

Definition list_apps (st : storeState) : list AppRecord :=
  sort_stable (fun a b => app_by_running a b (str_lt (app_Name a) (app_Name b)))
    (map (fun e => with_route e.2 (app_ID e.2) (negb (app_Running e.2))) (map_order (non_nil (Apps st)))).

Definition app_session_before (a b : AppRecord) : bool :=
  app_by_running a b
    (if negb (String.eqb (app_Name a) (app_Name b)) then str_lt (app_Name a) (app_Name b)
     else if negb (String.eqb (app_SessionID a) (app_SessionID b)) then str_lt (app_SessionID a) (app_SessionID b)
     else app_UpdatedAt b <? app_UpdatedAt a).

Definition list_app_sessions (st : storeState) : list AppRecord :=
  sort_stable app_session_before
    (map (fun e => with_route e.2 e.1 (negb (app_Running e.2))) (map_order (non_nil (AppSessions st)))).

Definition sortRunningUpdated (apps : list AppRecord) : list AppRecord :=
  sort_stable (fun a b => app_by_running a b (app_UpdatedAt b <? app_UpdatedAt a)) apps.

Definition find_app (st : storeState) (appID : string) : option AppRecord :=
  app ← non_nil (Apps st) !! appID; Some (with_route app (app_ID app) (negb (app_Running app))).

(** The most recently updated app, the running ones first, of the sessions
    that satisfy [keep]. *)
Definition latest_session (st : storeState) (keep : AppRecord -> bool) : option AppRecord :=
  let matches := map (fun e => with_route e.2 e.1 (app_Offline e.2))
                   (List.filter (fun e => keep e.2) (map_order (non_nil (AppSessions st)))) in
  app ← head (sortRunningUpdated matches);
  Some (with_route app (app_RouteID app) (negb (app_Running app))).

Definition find_app_session (st : storeState) (routeID : string) : option AppRecord :=
  match non_nil (AppSessions st) !! routeID with
  | Some found => Some (with_route found routeID (negb (app_Running found)))
  | None => latest_session st (fun a => String.eqb (app_SessionID a) routeID)
  end.

Definition find_app_for_session (st : storeState) (appID sessionID : string) : option AppRecord :=
  latest_session st (fun a => String.eqb (app_ID a) appID && String.eqb (app_SessionID a) sessionID).

(** [if limit <= 0 { limit = fallback }]. *)
Definition limit_or (limit fallback : Z) : Z := if limit <=? 0 then fallback else limit.

Definition list_process_events (st : storeState) (appID : string) (limit : Z) : list ProcessEvent :=
  limited (limit_or limit 200)
    (sort_stable (fun a b => pe_ID b <? pe_ID a)
       (List.filter (fun e => String.eqb (pe_AppID e) appID) (ProcessEvents st))).

(** [sessionID != "" && x != sessionID] does not hold. *)
Definition in_session (sessionID x : string) : bool := String.eqb sessionID "" || String.eqb x sessionID.

(** The end of [listProcessOutput] and [ListDevEvents]: with a cursor, the first
    items after it; without, the last items, oldest first. *)
Definition page {A} (id : A -> Z) (afterID limit : Z) (items : list A) : list A :=
  let sorted := if 0 <? afterID then sort_stable (fun a b => id a <? id b) items
                else sort_stable (fun a b => id b <? id a) items in
  let items := limited limit sorted in
  if afterID =? 0 then rev items else items.

Definition list_process_output (st : storeState) (appID sessionID : string) (afterID limit : Z) : list ProcessOutput :=
  page po_ID afterID (limit_or limit 200)
    (List.filter (fun o => String.eqb (po_AppID o) appID && negb (po_ID o <=? afterID)
                           && in_session sessionID (po_SessionID o)) (ProcessOutputs st)).

Definition list_dev_sources (st : storeState) (appID sessionID : string) : list DevSource :=
  sort_stable (fun a b => str_lt (ds_ID a) (ds_ID b))
    (map snd (List.filter (fun e => let '(kApp, kSession, _) := splitDevSourceKey e.1 in
                                    String.eqb kApp appID && in_session sessionID kSession)
                (map_order (non_nil (DevSources st))))).

Definition devEventMatchesQuery (event : DevEvent) (query : DevEventQuery) (grep : string) : bool :=
  if negb (String.eqb (de_AppID event) (dq_AppID query)) then false
  else if negb (in_session (dq_SessionID query) (de_SessionID event)) then false
  else if (0 <? dq_AfterID query) && (de_ID event <=? dq_AfterID query) then false
  else if negb (String.eqb (dq_SourceID query) "") && negb (String.eqb (ds_ID (de_Source event)) (dq_SourceID query)) then false
  else if negb (String.eqb (dq_Kind query) "") && negb (String.eqb (ds_Kind (de_Source event)) (dq_Kind query)) then false
  else if negb (String.eqb (dq_Level query) "") && negb (String.eqb (de_Level event) (dq_Level query)) then false
  else if negb (String.eqb (dq_Stream query) "") && negb (String.eqb (dq_Stream query) "all")
          && negb (String.eqb (ds_Stream (de_Source event)) (dq_Stream query)) then false
  else if negb (dq_Since query =? 0) && (de_CreatedAt event <? dq_Since query) then false
  else if String.eqb grep "" then true
  else Strings.Contains (Strings.ToLower (de_Message event)) grep
       || Strings.Contains (Strings.ToLower (de_Raw event)) grep
       || Strings.Contains (Strings.ToLower (de_Fields event)) grep.

Definition list_dev_events (st : storeState) (query : DevEventQuery) : list DevEvent :=
  let grep := Strings.ToLower (Strings.TrimSpace (dq_Grep query)) in
  page de_ID (dq_AfterID query) (limit_or (dq_Limit query) 200)
    (List.filter (fun e => devEventMatchesQuery e query grep) (map toDevEvent (DevEvents_ st))).

(** [json.Marshal] of a trace summary: its fields in the order of the struct. *)
Definition string_text (s : string) : option string := json_marshal (Wire.AString s).
Definition bool_text (b : bool) : string := if b then "true" else "false".
Definition time_text (t : Z) : option string := t ← time_view t; Some (quote +:+ json_time t +:+ quote).

Definition field (name : string) (text : option string) : option (option string) :=
  Some (value ← text; key ← string_text name; Some (key +:+ ":" +:+ value)).
Definition field_omit (name s : string) : option (option string) :=
  if String.eqb s "" then None else field name (string_text s).
Definition field_ptr {A} (name : string) (p : option A) (text : A -> option string) : option (option string) :=
  v ← p; field name (text v).

Definition summary_json (s : TraceSummary) : option string :=
  fields ← mapM id (omap id
    [field "trace_id" (string_text (ts_TraceID s)); field "span_id" (string_text (ts_SpanID s));
     field_omit "session_id" (ts_SessionID s); field_omit "app_root_hash" (ts_AppRootHash s);
     field_omit "branch" (ts_Branch s); field_omit "worktree" (ts_Worktree s);
     field "type" (string_text (ts_Type s)); field "is_root" (Some (bool_text (ts_IsRoot s)));
     field "is_error" (Some (bool_text (ts_IsError s))); field_omit "deployed_commit" (ts_DeployedCommit s);
     field "started_at" (time_text (ts_StartedAt s));
     field "duration_nanos" (Some (Strconv.Itoa (ts_DurationNanos s)));
     field_omit "service_name" (ts_ServiceName s); field_ptr "endpoint_name" (ts_EndpointName s) string_text;
     field_ptr "message_id" (ts_MessageID s) string_text;
     field_ptr "test_skipped" (ts_TestSkipped s) (fun b => Some (bool_text b));
     field_ptr "src_file" (ts_SrcFile s) string_text;
     field_ptr "src_line" (ts_SrcLine s) (fun z => Some (Strconv.Itoa z));
     field_ptr "parent_span_id" (ts_ParentSpanID s) string_text;
     field_ptr "caller_event_id" (ts_CallerEventID s) (fun z => Some (Strconv.Itoa z))]);
  Some ("{" +:+ Strings.Join fields "," +:+ "}").

Definition traceSummaryMatches (summary : TraceSummary) (query : TraceQuery) (messageID : string)
    (includeChildren : bool) : bool :=
  if negb (String.eqb (ts_AppID summary) (tq_AppID query)) then false
  else if negb includeChildren && negb (ts_IsRoot summary) then false
  else if negb (in_session (tq_SessionID query) (ts_SessionID summary)) then false
  else if negb (String.eqb (tq_TraceID query) "") && negb (String.eqb (ts_TraceID summary) (tq_TraceID query)) then false
  else if negb (String.eqb (tq_ServiceName query) "")
          && negb (String.eqb (ts_ServiceName summary) (tq_ServiceName query)) then false
  else if negb (String.eqb (tq_EndpointName query) "")
          && (match ts_EndpointName summary with
              | None => true
              | Some name => negb (String.eqb name (tq_EndpointName query))
              end) then false
  else if String.eqb (tq_Status query) "ok" && ts_IsError summary then false
  else if String.eqb (tq_Status query) "error" && negb (ts_IsError summary) then false
  else if negb (tq_Since query =? 0) && (ts_StartedAt summary <? tq_Since query) then false
  else if (0 <? tq_MinDurationNanos query) && (ts_DurationNanos summary <? tq_MinDurationNanos query) then false
  else if negb (String.eqb messageID "")
          && negb (Strings.Contains (default "" (summary_json summary)) messageID) then false
  else true.

Definition query_traces (st : storeState) (query : TraceQuery) (messageID : string) (includeChildren : bool)
    : list TraceSummary :=
  let limit := if (tq_Limit query <=? 0) && negb includeChildren then 100 else tq_Limit query in
  let items := sort_stable (fun a b => ts_StartedAt b <? ts_StartedAt a)
                 (List.filter (fun s => traceSummaryMatches s query messageID includeChildren)
                    (map toTraceSummary (TraceSummaries st))) in
  if 0 <? limit then limited limit items else items.

Definition SortTraceSummariesByDuration (items : list TraceSummary) : list TraceSummary :=
  sort_stable (fun a b => if ts_DurationNanos a =? ts_DurationNanos b then ts_StartedAt b <? ts_StartedAt a
                          else ts_DurationNanos b <? ts_DurationNanos a) items.

Definition trace_events (st : storeState) (appID sessionID traceID spanID : string) : list TraceEvent :=
  sort_stable (fun a b => te_EventID a <? te_EventID b)
    (map (fun e => let s := te_SessionID (ste_TraceEvent e) in
                   trace_event_of e (if String.eqb s "" then sessionID else s))
       (List.filter (fun e => String.eqb (ste_AppID e) appID
                              && String.eqb (te_TraceID (ste_TraceEvent e)) traceID
                              && String.eqb (te_SpanID (ste_TraceEvent e)) spanID
                              && in_session sessionID (te_SessionID (ste_TraceEvent e))) (TraceEvents st))).

(** [!since.IsZero() && t.Before(since.UTC())] does not hold. *)
Definition not_before (since t : Z) : bool := (since =? 0) || (since <=? t).

Definition count_trace_events (st : storeState) (appID sessionID : string) (since : Z) : Z :=
  len (List.filter (fun e => String.eqb (ste_AppID e) appID
                             && in_session sessionID (te_SessionID (ste_TraceEvent e))
                             && not_before since (te_EventTime (ste_TraceEvent e))) (TraceEvents st)).

Definition level_count_before (a b : LogLevelCount) : bool :=
  if negb (lc_Count a =? lc_Count b) then lc_Count b <? lc_Count a else str_lt (lc_Level a) (lc_Level b).

Definition count_levels (events : list LogEvent) : gmap string Z :=
  fold_left (fun counts e => <[le_Level e := default 0 (counts !! le_Level e) + 1]> counts) events ∅.

Definition count_logs (st : storeState) (appID sessionID : string) (since : Z) : list LogLevelCount :=
  let events := List.filter (fun e => String.eqb (le_AppID e) appID && in_session sessionID (le_SessionID e)
                                      && not_before since (le_Timestamp e)) (LogEvents st) in
  sort_stable level_count_before
    (map (fun e => {| lc_Level := e.1; lc_Count := e.2 |}) (map_order (count_levels events))).

Definition list_stored_requests (st : storeState) (appID : string) : list StoredRequest :=
  sort_stable (fun a b => str_lt (sr_ID a) (sr_ID b))
    (map (fun e => sanitizeStoredRequest (with_request_ids e.2 appID (sr_ID e.2)))
       (List.filter (fun e => String.eqb (splitStoredRequestKey e.1).1 appID)
          (map_order (non_nil (StoredRequests st))))).

(** ** Mutations of the state

    A closure over the state: it may leave the state changed and fail. *)
Inductive error :=
| ErrNotExist
| ErrNoRows
| ErrCanceled
| ErrIO
| ErrJSON
| ErrText (msg : string).

Definition mutation (A : Type) : Type := storeState -> storeState * outcome error A.

Definition reading {A} (f : storeState -> A) : mutation A := fun st => (st, Ret (f st)).
Definition found {A} (f : storeState -> option A) : mutation A :=
  fun st => (st, match f st with Some a => Ret a | None => Fail ErrNoRows end).
Definition changing (f : storeState -> storeState) : mutation unit := fun st => (f st, Ret tt).

(** [m[k] = v], which panics when the map is nil. *)
Definition nil_map : string := "assignment to entry in nil map".
Definition assign {A} (m : go_map A) (k : string) (v : A) : outcome error (go_map A) :=
  match m with
  | None => Panic nil_map
  | Some m => Ret (Some (<[k := v]> m))
  end.

Definition upsert_app (app : AppRecord) : mutation unit := fun st =>
  let legacy := with_route app (app_ID app) (app_Offline app) in
  let session := with_route app (appSessionRecordKey app) (app_Offline app) in
  match assign (Apps st) (app_ID app) legacy with
  | Ret apps =>
    match assign (AppSessions st) (app_RouteID session) session with
    | Ret sessions => (set_apps st apps sessions, Ret tt)
    | Fail e => (set_apps st apps (AppSessions st), Fail e)
    | Panic m => (set_apps st apps (AppSessions st), Panic m)
    end
  | Fail e => (st, Fail e)
  | Panic m => (st, Panic m)
  end.

Definition append_process_event (appID kind data : string) (now : Z) : mutation unit :=
  changing (fun st =>
    set_process_events st
      (ProcessEvents st ++ [{| pe_ID := NextProcessEventID st; pe_AppID := appID; pe_Kind := kind;
                               pe_PayloadJSON := data; pe_CreatedAt := now |}])
      (succ64 (NextProcessEventID st))).

Definition append_process_output (o : ProcessOutput) : mutation unit :=
  changing (fun st =>
    set_process_output st
      (ProcessOutputs st ++ [{| po_ID := NextProcessOutputID st; po_AppID := po_AppID o;
                                po_SessionID := po_SessionID o; po_PID := po_PID o; po_Stream := po_Stream o;
                                po_Output := po_Output o; po_CreatedAt := po_CreatedAt o |}])
      (succ64 (NextProcessOutputID st))).

Definition assign_source (key : string) (source : DevSource) : mutation unit := fun st =>
  match assign (DevSources st) key source with
  | Ret sources => (set_dev st sources (DevEvents_ st) (NextDevEventID st), Ret tt)
  | Fail e => (st, Fail e)
  | Panic m => (st, Panic m)
  end.

Definition append_dev_event (now : Z) (event : DevEvent) : mutation Z := fun st =>
  let event := normalizeDevEvent now event in
  let event := if de_ID event <=? 0 then with_event_id event (NextDevEventID st) else event in
  let next := if NextDevEventID st <=? de_ID event then succ64 (de_ID event) else NextDevEventID st in
  let st := set_dev st (DevSources st) (DevEvents_ st) next in
  match assign_source (devSourceKey (de_AppID event) (de_SessionID event) (ds_ID (de_Source event)))
          (de_Source event) st with
  | (st, Ret _) =>
    (set_dev st (DevSources st) (DevEvents_ st ++ [storeDevEvent event]) (NextDevEventID st), Ret (de_ID event))
  | (st, Fail e) => (st, Fail e)
  | (st, Panic m) => (st, Panic m)
  end.

Definition take_dev_event_id : mutation Z := fun st =>
  (set_dev st (DevSources st) (DevEvents_ st) (succ64 (NextDevEventID st)), Ret (NextDevEventID st)).

Definition advance_dev_event_id (nextID : Z) : mutation unit :=
  changing (fun st => if NextDevEventID st <? nextID
                      then set_dev st (DevSources st) (DevEvents_ st) nextID else st).

Definition event_of_session (appID sessionID : string) (stored : storedDevEvent) : bool :=
  let event := toDevEvent stored in
  String.eqb (de_AppID event) appID && String.eqb (de_SessionID event) sessionID.

Definition source_of_session (appID sessionID key : string) : bool :=
  let '(kApp, kSession, _) := splitDevSourceKey key in
  String.eqb kApp appID && String.eqb kSession sessionID.

Definition delete_dev_events (appID sessionID : string) : mutation (Z * Z) := fun st =>
  let doomed := List.filter (event_of_session appID sessionID) (DevEvents_ st) in
  let kept := List.filter (fun e => negb (event_of_session appID sessionID e)) (DevEvents_ st) in
  let keys := List.filter (source_of_session appID sessionID) (map fst (map_order (non_nil (DevSources st)))) in
  let sources := match DevSources st with
                 | None => None
                 | Some m => Some (fold_left (fun m k => delete k m) keys m)
                 end in
  (set_dev st sources kept (NextDevEventID st), Ret (len doomed, len keys)).

Definition same_span (a b : storedTraceSummary) : bool :=
  String.eqb (sts_AppID a) (sts_AppID b)
  && String.eqb (ts_SessionID (sts_TraceSummary a)) (ts_SessionID (sts_TraceSummary b))
  && String.eqb (ts_TraceID (sts_TraceSummary a)) (ts_TraceID (sts_TraceSummary b))
  && String.eqb (ts_SpanID (sts_TraceSummary a)) (ts_SpanID (sts_TraceSummary b)).

(** The loop of [appendTraceSummary]: replace the first summary of the span,
    or append. *)
Fixpoint upsert_summary (items : list storedTraceSummary) (replacement : storedTraceSummary)
    : list storedTraceSummary :=
  match items with
  | [] => [replacement]
  | existing :: rest =>
    if same_span existing replacement then replacement :: rest
    else existing :: upsert_summary rest replacement
  end.

Definition put_summary (summary : TraceSummary) : mutation unit :=
  changing (fun st => set_traces st (upsert_summary (TraceSummaries st) (storeTraceSummary summary))
                        (TraceEvents st) (LogEvents st)).

Definition put_trace_event (event : TraceEvent) : mutation unit :=
  changing (fun st => set_traces st (TraceSummaries st) (TraceEvents st ++ [storeTraceEvent event]) (LogEvents st)).

Definition put_log_event (event : LogEvent) : mutation unit :=
  changing (fun st => set_traces st (TraceSummaries st) (TraceEvents st) (LogEvents st ++ [event])).

Definition cleared (appID sessionID itemApp itemSession : string) : bool :=
  String.eqb itemApp appID && (String.eqb sessionID "" || String.eqb itemSession sessionID).

Definition filterTraceSummaries (items : list storedTraceSummary) (appID sessionID : string) :=
  List.filter (fun i => negb (cleared appID sessionID (sts_AppID i) (ts_SessionID (sts_TraceSummary i)))) items.
Definition filterTraceEvents (items : list storedTraceEvent) (appID sessionID : string) :=
  List.filter (fun i => negb (cleared appID sessionID (ste_AppID i) (te_SessionID (ste_TraceEvent i)))) items.
Definition filterLogEvents (items : list LogEvent) (appID sessionID : string) :=
  List.filter (fun i => negb (cleared appID sessionID (le_AppID i) (le_SessionID i))) items.

Definition clear_traces (appID sessionID : string) : mutation unit :=
  changing (fun st => set_traces st (filterTraceSummaries (TraceSummaries st) appID sessionID)
                        (filterTraceEvents (TraceEvents st) appID sessionID)
                        (filterLogEvents (LogEvents st) appID sessionID)).

Fixpoint set_props (m : go_map Z) (props : list string) (now : Z) : outcome error (go_map Z) :=
  match props with
  | [] => Ret m
  | prop :: rest =>
    if String.eqb prop "" then set_props m rest now
    else m' ← assign m prop now; set_props m' rest now
  end.

Definition set_onboarding (props : list string) (now : Z) : mutation unit := fun st =>
  match set_props (Onboarding st) props now with
  | Ret m => (set_saved st m (StoredRequests st), Ret tt)
  | Fail e => (st, Fail e)
  | Panic m => (st, Panic m)
  end.

Definition put_request (req : StoredRequest) : mutation StoredRequest := fun st =>
  match assign (StoredRequests st) (storedRequestKey (sr_AppID req) (sr_ID req)) req with
  | Ret m => (set_saved st (Onboarding st) m, Ret req)
  | Fail e => (st, Fail e)
  | Panic m => (st, Panic m)
  end.

Definition has_request (st : storeState) (appID id : string) : bool :=
  bool_decide (is_Some (non_nil (StoredRequests st) !! storedRequestKey appID id)).

Definition create_request (req : StoredRequest) : mutation StoredRequest := fun st =>
  if has_request st (sr_AppID req) (sr_ID req)
  then (st, Fail (ErrText ("stored request " +:+ sr_ID req +:+ " already exists")))
  else put_request req st.

Definition update_request (req : StoredRequest) : mutation StoredRequest := fun st =>
  if has_request st (sr_AppID req) (sr_ID req) then put_request req st else (st, Fail ErrNoRows).

Definition delete_request (appID id : string) : mutation unit := fun st =>
  if has_request st appID id
  then (set_saved st (Onboarding st)
          (match StoredRequests st with
           | None => None
           | Some m => Some (delete (storedRequestKey appID id) m)
           end), Ret tt)
  else (st, Fail ErrNoRows).

(** ** The store

    A world holds the files, the shared part of every opened store by path
    ([storeLocks]), the background flushes that sleep, and the number of calls
    made so far.  The lock of a store makes its operations atomic within the
    process. *)
Record storeStamp := { exists_ : bool; size_ : Z; modTime : Z }.
Definition no_stamp : storeStamp := {| exists_ := false; size_ := 0; modTime := 0 |}.

#[global] Instance storeStamp_eq_dec : EqDecision storeStamp.
Proof. solve_decision. Defined.

Record storeShared := {
  state : option storeState;
  stamp : storeStamp;
  dirty : bool;
  savePending : bool;
  pending : list (mutation unit)
}.

Definition no_shared : storeShared :=
  {| state := None; stamp := no_stamp; dirty := false; savePending := false; pending := [] |}.

Record world := {
  files : gmap string file;
  locks : gmap string storeShared;
  sleeping : list string;
  calls : nat
}.

Definition M (A : Type) : Type := world -> world * outcome error A.
#[global] Instance M_ret : MRet M := fun A a w => (w, Ret a).
#[global] Instance M_bind : MBind M := fun A B f m w =>
  match m w with
  | (w', Ret a) => f a w'
  | (w', Fail e) => (w', Fail e)
  | (w', Panic msg) => (w', Panic msg)
  end.
Definition fail {A} (e : error) : M A := fun w => (w, Fail e).
Definition panic {A} (msg : string) : M A := fun w => (w, Panic msg).
Definition lift {A} (o : outcome error A) : M A := fun w => (w, o).

(** [if err := m; err != nil] without returning: the error as a value. *)
Definition attempt {A} (m : M A) : M (outcome error A) := fun w =>
  match m w with
  | (w', Panic msg) => (w', Panic msg)
  | (w', r) => (w', Ret r)
  end.

(** A system call: other processes have run before it. *)
Definition syscall {A} (f : nat -> gmap string file -> gmap string file * outcome error A) : M A := fun w =>
  let '(fs, r) := f (calls w) (others_at (calls w) (files w)) in
  ({| files := fs; locks := locks w; sleeping := sleeping w; calls := S (calls w) |}, r).

Definition Now : M Z := syscall (fun k fs => (fs, Ret (clock_at k))).

(** A call that may fail and changes nothing the store reads. *)
Definition io : M unit := syscall (fun k fs => (fs, if fails_at k then Fail ErrIO else Ret tt)).

Definition statStamp (path : string) : M storeStamp :=
  syscall (fun k fs =>
    (fs, if fails_at k then Fail ErrIO
         else match fs !! path with
         | None => Fail ErrNotExist
         | Some f => Ret {| exists_ := true; size_ := f_size f; modTime := f_modTime f |}
         end)).

Definition ReadFile (path : string) : M content :=
  syscall (fun k fs =>
    (fs, if fails_at k then Fail ErrIO
         else match fs !! path with None => Fail ErrNotExist | Some f => Ret (f_content f) end)).

(** [os.Rename] of the temporary file that holds [d]. *)
Definition Rename (path : string) (d : storeState) : M unit :=
  syscall (fun k fs =>
    if fails_at k then (fs, Fail ErrIO)
    else (<[path := {| f_content := Doc d; f_size := (stamp_at k).1; f_modTime := (stamp_at k).2 |}]> fs, Ret tt)).

Definition get_shared (path : string) : M storeShared :=
  fun w => (w, Ret (default no_shared (locks w !! path))).
Definition put_shared (path : string) (sh : storeShared) : M unit :=
  fun w => ({| files := files w; locks := <[path := sh]> (locks w); sleeping := sleeping w; calls := calls w |}, Ret tt).

Definition set_loaded (sh : storeShared) (st : storeState) (at_ : storeStamp) : storeShared :=
  {| state := Some st; stamp := at_; dirty := dirty sh; savePending := savePending sh; pending := pending sh |}.
Definition set_stamp (sh : storeShared) (at_ : storeStamp) : storeShared :=
  {| state := state sh; stamp := at_; dirty := dirty sh; savePending := savePending sh; pending := pending sh |}.
Definition set_flags (sh : storeShared) (d p : bool) (pend : list (mutation unit)) : storeShared :=
  {| state := state sh; stamp := stamp sh; dirty := d; savePending := p; pending := pend |}.

(** [s.shared.state = f(s.shared.state)] in place; the state is loaded. *)
Definition with_loaded {A} (path : string) (f : mutation A) : M A :=
  sh ← get_shared path;
  match state sh with
  | None => panic "invalid memory address or nil pointer dereference"
  | Some st =>
    let '(st', r) := f st in
    _ ← put_shared path (set_loaded sh st' (stamp sh)); lift r
  end.

Definition loadStateWithStamp (path : string) : M (storeState * storeStamp) :=
  r ← attempt (statStamp path);
  match r with
  | Fail ErrNotExist => mret (newStoreState, no_stamp)
  | Fail e => fail e
  | Panic m => panic m
  | Ret at_ =>
    r ← attempt (ReadFile path);
    match r with
    | Fail ErrNotExist => mret (newStoreState, no_stamp)
    | Fail e => fail e
    | Panic m => panic m
    | Ret Blank => mret (newStoreState, at_)
    | Ret Garbage => fail ErrJSON
    | Ret (Doc d) => mret (pruneStoreState (normalizeStoreState d), at_)
    end
  end.

Definition ensureLoadedLocked (path : string) : M unit :=
  sh ← get_shared path;
  match state sh with
  | Some _ => mret tt
  | None =>
    l ← loadStateWithStamp path;
    put_shared path (set_loaded sh l.1 l.2)
  end.

(** The replay of the pending mutations. *)
Fixpoint replay (pend : list (mutation unit)) (st : storeState) : outcome error storeState :=
  match pend with
  | [] => Ret st
  | m :: rest =>
    match m st with
    | (st', Ret _) => replay rest st'
    | (_, Fail e) => Fail e
    | (_, Panic msg) => Panic msg
    end
  end.

Definition refreshForExternalChangeLocked (path : string) : M unit :=
  r ← attempt (statStamp path);
  at_ ← match r with
        | Ret at_ => mret at_
        | Fail ErrNotExist => mret no_stamp
        | Fail e => fail e
        | Panic m => panic m
        end;
  sh ← get_shared path;
  if decide (at_ = stamp sh) then mret tt
  else
    l ← loadStateWithStamp path;
    st ← lift (replay (pending sh) l.1);
    put_shared path (set_loaded sh (pruneStoreState st) l.2).

(** [json.Marshal], the temporary file, its two writes and its close, and the
    renaming. *)
Definition saveState (path : string) : M unit :=
  _ ← with_loaded path (changing (fun st => pruneStoreState (normalizeStoreState st)));
  d ← with_loaded path (fun st => (st, match json_view st with Some d => Ret d | None => Fail ErrJSON end));
  _ ← io; _ ← io; _ ← io; _ ← io;
  Rename path d.

(** [go func() { time.Sleep(deferredSaveDelay); s.Flush() }()]. *)
Definition go_flush (path : string) : M unit := fun w =>
  ({| files := files w; locks := locks w; sleeping := sleeping w ++ [path]; calls := calls w |}, Ret tt).

Definition scheduleSaveLocked (path : string) : M unit :=
  sh ← get_shared path;
  if savePending sh then put_shared path (set_flags sh true true (pending sh))
  else
    _ ← put_shared path (set_flags sh true true (pending sh));
    go_flush path.

(** The stamp of the file that was just written, if it can be read. *)
Definition record_stamp (path : string) : M unit :=
  r ← attempt (statStamp path);
  match r with
  | Ret at_ => sh ← get_shared path; put_shared path (set_stamp sh at_)
  | _ => mret tt
  end.

Definition forget {A} (fn : mutation A) : mutation unit := fun st =>
  match fn st with
  | (st', Ret _) => (st', Ret tt)
  | (st', Fail e) => (st', Fail e)
  | (st', Panic m) => (st', Panic m)
  end.

(** A handle on a store: its path; nil is [None]. *)
Definition Store : Type := option string.

Definition store_path (s : Store) : option string :=
  match s with
  | Some p => if String.eqb p "" then None else Some p
  | None => None
  end.

(** [canceled] says whether [ctx.Err()] is set. *)
Definition withStatePersist {A} (s : Store) (canceled write immediate : bool) (fn : mutation A) : M A :=
  match store_path s with
  | None => fail (ErrText "devdash store is nil")
  | Some path =>
    if canceled then fail ErrCanceled
    else
      _ ← ensureLoadedLocked path;
      _ ← refreshForExternalChangeLocked path;
      r ← with_loaded path fn;
      if write then
        _ ← with_loaded path (changing pruneStoreState);
        if immediate then
          _ ← saveState path;
          _ ← record_stamp path;
          sh ← get_shared path;
          _ ← put_shared path (set_flags sh false (savePending sh) []);
          mret r
        else
          sh ← get_shared path;
          _ ← put_shared path (set_flags sh (dirty sh) (savePending sh) (pending sh ++ [forget fn]));
          _ ← scheduleSaveLocked path;
          mret r
      else mret r
  end.

Definition withState {A} (s : Store) (canceled write : bool) (fn : mutation A) : M A :=
  withStatePersist s canceled write true fn.

Definition withDeferredState (s : Store) (canceled : bool) (fn : mutation unit) : M unit :=
  withStatePersist s canceled true false fn.

Definition clear_pending_flag (path : string) : M unit :=
  sh ← get_shared path; put_shared path (set_flags sh (dirty sh) false (pending sh)).

Definition Flush (s : Store) (canceled : bool) : M unit :=
  match store_path s with
  | None => mret tt
  | Some path =>
    if canceled then fail ErrCanceled
    else
      _ ← ensureLoadedLocked path;
      sh ← get_shared path;
      if negb (dirty sh) then clear_pending_flag path
      else
        r ← attempt (refreshForExternalChangeLocked path);
        match r with
        | Ret _ =>
          r ← attempt (saveState path);
          match r with
          | Ret _ =>
            _ ← record_stamp path;
            sh ← get_shared path;
            put_shared path (set_flags sh false false [])
          | Fail e => _ ← clear_pending_flag path; fail e
          | Panic m => panic m
          end
        | Fail e => _ ← clear_pending_flag path; fail e
        | Panic m => panic m
        end
  end.

Definition Close (s : Store) : M unit := Flush s false.

(** [storeLocks.LoadOrStore(path, &storeShared{})]. *)
Definition LoadOrStore (path : string) : M unit := fun w =>
  ({| files := files w;
      locks := if decide (is_Some (locks w !! path)) then locks w else <[path := no_shared]> (locks w);
      sleeping := sleeping w; calls := calls w |}, Ret tt).

Definition OpenStore (cacheRoot : string) : M Store :=
  root ← (if String.eqb cacheRoot "" then
            match user_cache_dir with
            | None => fail ErrIO
            | Some dir => mret (Filepath.Join [dir; "scenery"])
            end
          else mret cacheRoot);
  _ ← io;
  let path := Filepath.Join [root; "devdash.json"] in
  _ ← LoadOrStore path;
  _ ← withState (Some path) false true (changing id);
  mret (Some path).

(** The background flush of a store: its result is dropped. *)
Definition wake (path : string) : M unit :=
  _ ← attempt (Flush (Some path) false); mret tt.

(** ** The operations of the store *)
Definition UpsertApp (s : Store) (ctx : bool) (app : AppRecord) : M unit :=
  now ← Now; withState s ctx true (upsert_app (normalizeAppRecord now app)).
Definition ListApps (s : Store) (ctx : bool) : M (list AppRecord) := withState s ctx false (reading list_apps).
Definition ListAppSessions (s : Store) (ctx : bool) : M (list AppRecord) :=
  withState s ctx false (reading list_app_sessions).
Definition GetApp (s : Store) (ctx : bool) (appID : string) : M AppRecord :=
  withState s ctx false (found (fun st => find_app st appID)).
Definition GetAppSession (s : Store) (ctx : bool) (routeID : string) : M AppRecord :=
  withState s ctx false (found (fun st => find_app_session st routeID)).
Definition GetAppForSession (s : Store) (ctx : bool) (appID sessionID : string) : M AppRecord :=
  withState s ctx false (found (fun st => find_app_for_session st appID sessionID)).

(** [payload] is what [json.Marshal] makes of the payload, if it can. *)
Definition WriteProcessEvent (s : Store) (ctx : bool) (appID kind : string) (payload : option string) : M unit :=
  match payload with
  | None => fail ErrJSON
  | Some data =>
    let data := if maxProcessEventPayloadBytes <? slen data then truncated_marker (slen data) else data in
    now ← Now; withState s ctx true (append_process_event appID kind data now)
  end.
Definition ListProcessEvents (s : Store) (ctx : bool) (appID : string) (limit : Z) : M (list ProcessEvent) :=
  withState s ctx false (reading (fun st => list_process_events st appID limit)).

Definition with_created (o : ProcessOutput) (now : Z) : ProcessOutput :=
  {| po_ID := po_ID o; po_AppID := po_AppID o; po_SessionID := po_SessionID o; po_PID := po_PID o;
     po_Stream := po_Stream o; po_Output := po_Output o;
     po_CreatedAt := if po_CreatedAt o =? 0 then now else po_CreatedAt o |}.
Definition WriteProcessOutput (s : Store) (ctx : bool) (output : ProcessOutput) : M unit :=
  now ← Now; withState s ctx true (append_process_output (with_created output now)).
Definition listProcessOutput (s : Store) (ctx : bool) (appID sessionID : string) (afterID limit : Z)
    : M (list ProcessOutput) :=
  withState s ctx false (reading (fun st => list_process_output st appID sessionID afterID limit)).
Definition ListProcessOutputSinceForSession (s : Store) (ctx : bool) (appID sessionID : string) (afterID limit : Z) :=
  listProcessOutput s ctx appID sessionID afterID limit.
Definition ListProcessOutputSince (s : Store) (ctx : bool) (appID : string) (afterID limit : Z) :=
  ListProcessOutputSinceForSession s ctx appID "" afterID limit.
Definition ListProcessOutputForSession (s : Store) (ctx : bool) (appID sessionID : string) (limit : Z) :=
  listProcessOutput s ctx appID sessionID 0 limit.
Definition ListProcessOutput (s : Store) (ctx : bool) (appID : string) (limit : Z) :=
  ListProcessOutputForSession s ctx appID "" limit.

Definition UpsertDevSource (s : Store) (ctx : bool) (appID sessionID : string) (source : DevSource) : M unit :=
  let source := normalizeDevSource source in
  if String.eqb appID "" || String.eqb (ds_ID source) "" then mret tt
  else withState s ctx true (assign_source (devSourceKey appID sessionID (ds_ID source)) source).
Definition WriteDevEventReturningID (s : Store) (ctx : bool) (event : DevEvent) : M Z :=
  now ← Now; withState s ctx true (append_dev_event now event).
Definition WriteDevEvent (s : Store) (ctx : bool) (event : DevEvent) : M unit :=
  _ ← WriteDevEventReturningID s ctx event; mret tt.
Definition GetNextDevEventID (s : Store) (ctx : bool) : M Z := withState s ctx true take_dev_event_id.
Definition AdvanceDevEventID (s : Store) (ctx : bool) (nextID : Z) : M unit :=
  if nextID <=? 0 then mret tt else withState s ctx true (advance_dev_event_id nextID).
Definition ListDevSources (s : Store) (ctx : bool) (appID sessionID : string) : M (list DevSource) :=
  withState s ctx false (reading (fun st => list_dev_sources st appID sessionID)).
Definition DeleteDevEventsForSession (s : Store) (ctx : bool) (appID sessionID : string) : M (Z * Z) :=
  if String.eqb (Strings.TrimSpace appID) "" || String.eqb (Strings.TrimSpace sessionID) "" then mret (0, 0)
  else withState s ctx true (delete_dev_events appID sessionID).
Definition ListDevEvents (s : Store) (ctx : bool) (query : DevEventQuery) : M (list DevEvent) :=
  withState s ctx false (reading (fun st => list_dev_events st query)).

(** A write that is saved at once or later. *)
Definition write (s : Store) (ctx deferred : bool) (update : mutation unit) : M unit :=
  if deferred then withDeferredState s ctx update else withState s ctx true update.

Definition appendTraceSummary (s : Store) (ctx : bool) (summary : option TraceSummary) (deferred : bool) : M unit :=
  match summary with
  | None => fail (ErrText "trace summary is nil")
  | Some summary => write s ctx deferred (put_summary summary)
  end.
Definition AppendTraceSummary (s : Store) (ctx : bool) (summary : option TraceSummary) :=
  appendTraceSummary s ctx summary false.
Definition AppendTraceSummaryDeferred (s : Store) (ctx : bool) (summary : option TraceSummary) :=
  appendTraceSummary s ctx summary true.

Definition queryTraceSummaries (s : Store) (ctx : bool) (query : TraceQuery) (messageID : string)
    (includeChildren : bool) : M (list TraceSummary) :=
  withState s ctx false (reading (fun st => query_traces st query messageID includeChildren)).
Definition trace_query (appID sessionID traceID : string) (limit : Z) : TraceQuery :=
  {| tq_AppID := appID; tq_SessionID := sessionID; tq_TraceID := traceID; tq_ServiceName := "";
     tq_EndpointName := ""; tq_Status := ""; tq_Since := 0; tq_MinDurationNanos := 0; tq_Limit := limit |}.
Definition ListTraceSummariesForSession (s : Store) (ctx : bool) (appID sessionID : string) (limit : Z) (messageID : string) :=
  queryTraceSummaries s ctx (trace_query appID sessionID "" limit) messageID false.
Definition ListTraceSummaries (s : Store) (ctx : bool) (appID : string) (limit : Z) (messageID : string) :=
  ListTraceSummariesForSession s ctx appID "" limit messageID.
Definition root_first (a b : TraceSummary) : bool :=
  if negb (Bool.eqb (ts_IsRoot a) (ts_IsRoot b)) then ts_IsRoot a else ts_StartedAt a <? ts_StartedAt b.
Definition GetTraceSummariesForSession (s : Store) (ctx : bool) (appID sessionID traceID : string)
    : M (list TraceSummary) :=
  items ← queryTraceSummaries s ctx (trace_query appID sessionID traceID 0) "" true;
  mret (sort_stable root_first items).
Definition GetTraceSummaries (s : Store) (ctx : bool) (appID traceID : string) :=
  GetTraceSummariesForSession s ctx appID "" traceID.
Definition with_limit (query : TraceQuery) (limit : Z) : TraceQuery :=
  {| tq_AppID := tq_AppID query; tq_SessionID := tq_SessionID query; tq_TraceID := tq_TraceID query;
     tq_ServiceName := tq_ServiceName query; tq_EndpointName := tq_EndpointName query;
     tq_Status := tq_Status query; tq_Since := tq_Since query;
     tq_MinDurationNanos := tq_MinDurationNanos query; tq_Limit := limit |}.
Definition QueryTraceSummaries (s : Store) (ctx : bool) (query : TraceQuery) : M (list TraceSummary) :=
  queryTraceSummaries s ctx (with_limit query (limit_or (tq_Limit query) 100)) "" false.
Definition QueryTraceMetrics (s : Store) (ctx : bool) (query : TraceQuery) : M (list TraceSummary) :=
  QueryTraceSummaries s ctx (with_limit query (limit_or (tq_Limit query) 10000)).

Definition appendTraceEvent (s : Store) (ctx : bool) (event : option TraceEvent) (deferred : bool) : M unit :=
  match event with
  | None => fail (ErrText "trace event is nil")
  | Some event => write s ctx deferred (put_trace_event event)
  end.
Definition AppendTraceEvent (s : Store) (ctx : bool) (event : option TraceEvent) := appendTraceEvent s ctx event false.
Definition AppendTraceEventDeferred (s : Store) (ctx : bool) (event : option TraceEvent) :=
  appendTraceEvent s ctx event true.
Definition GetTraceEventsForSession (s : Store) (ctx : bool) (appID sessionID traceID spanID : string)
    : M (list TraceEvent) :=
  withState s ctx false (reading (fun st => trace_events st appID sessionID traceID spanID)).
Definition GetTraceEvents (s : Store) (ctx : bool) (appID traceID spanID : string) :=
  GetTraceEventsForSession s ctx appID "" traceID spanID.

Definition with_timestamp (e : LogEvent) (now : Z) : LogEvent :=
  {| le_AppID := le_AppID e; le_SessionID := le_SessionID e; le_AppRootHash := le_AppRootHash e;
     le_Branch := le_Branch e; le_Worktree := le_Worktree e; le_TraceID := le_TraceID e;
     le_SpanID := le_SpanID e; le_Level := le_Level e; le_Message := le_Message e; le_Attrs := le_Attrs e;
     le_Timestamp := if le_Timestamp e =? 0 then now else le_Timestamp e |}.
Definition writeLogEvent (s : Store) (ctx : bool) (event : option LogEvent) (deferred : bool) : M unit :=
  match event with
  | None => fail (ErrText "log event is nil")
  | Some event => now ← Now; write s ctx deferred (put_log_event (with_timestamp event now))
  end.
Definition WriteLogEvent (s : Store) (ctx : bool) (event : option LogEvent) := writeLogEvent s ctx event false.
Definition WriteLogEventDeferred (s : Store) (ctx : bool) (event : option LogEvent) := writeLogEvent s ctx event true.

Definition ClearTracesForSession (s : Store) (ctx : bool) (appID sessionID : string) : M unit :=
  withState s ctx true (clear_traces appID sessionID).
Definition ClearTraces (s : Store) (ctx : bool) (appID : string) : M unit := ClearTracesForSession s ctx appID "".
Definition CountTraceEventsForSession (s : Store) (ctx : bool) (appID sessionID : string) (since : Z) : M Z :=
  withState s ctx false (reading (fun st => count_trace_events st appID sessionID since)).
Definition CountTraceEvents (s : Store) (ctx : bool) (appID : string) (since : Z) : M Z :=
  CountTraceEventsForSession s ctx appID "" since.
Definition CountLogsByLevelForSession (s : Store) (ctx : bool) (appID sessionID : string) (since : Z)
    : M (list LogLevelCount) :=
  withState s ctx false (reading (fun st => count_logs st appID sessionID since)).
Definition CountLogsByLevel (s : Store) (ctx : bool) (appID : string) (since : Z) : M (list LogLevelCount) :=
  CountLogsByLevelForSession s ctx appID "" since.

Definition GetOnboarding (s : Store) (ctx : bool) : M (gmap string Z) :=
  withState s ctx false (reading (fun st => non_nil (Onboarding st))).
Definition SetOnboarding (s : Store) (ctx : bool) (props : list string) : M unit :=
  now ← Now; withState s ctx true (set_onboarding props now).

Definition hex_digit (z : Z) : ascii := if z <? 10 then chr (48 + z) else chr (87 + z).
Fixpoint hex (s : string) : string :=
  match s with
  | EmptyString => ""
  | String c s' => String (hex_digit (code c / 16)) (String (hex_digit (code c mod 16)) (hex s'))
  end.
Definition newStoredRequestID : M string :=
  syscall (fun k fs => (fs, if fails_at k then Fail ErrIO else Ret ("sr_" +:+ hex (random_at k)))).

Definition ListStoredRequests (s : Store) (ctx : bool) (appID : string) : M (list StoredRequest) :=
  withState s ctx false (reading (fun st => list_stored_requests st appID)).
Definition CreateStoredRequest (s : Store) (ctx : bool) (req : StoredRequest) : M StoredRequest :=
  if String.eqb (sr_AppID req) "" then fail (ErrText "stored request app id is required")
  else
    let req := sanitizeStoredRequest req in
    id ← (if String.eqb (sr_ID req) "" then newStoredRequestID else mret (sr_ID req));
    withState s ctx true (create_request (with_request_ids req (sr_AppID req) id)).
Definition UpdateStoredRequest (s : Store) (ctx : bool) (req : StoredRequest) : M StoredRequest :=
  if String.eqb (sr_AppID req) "" then fail (ErrText "stored request app id is required")
  else if String.eqb (sr_ID req) "" then fail (ErrText "stored request id is required")
  else withState s ctx true (update_request (sanitizeStoredRequest req)).
Definition DeleteStoredRequest (s : Store) (ctx : bool) (appID id : string) : M unit :=
  if String.eqb appID "" then fail (ErrText "stored request app id is required")
  else if String.eqb id "" then fail (ErrText "stored request id is required")
  else withState s ctx true (delete_request appID id).
End ops.
End DashStore.
