(* ===== verification/DashProofs.v ===== *)
(** * Properties of the dashboard store

    The first part is a program logic for the store's monad: a judgement about
    the store at one path while the other stores keep their invariant.  It
    shows that no sequence of calls, system failures and changes of the file by
    other processes makes an operation panic or lets the state in memory grow
    beyond its bounds.  Then: what a flush saves, what reopening a store
    restores, which page a query returns, and what deleting the events of a
    session leaves. *)
From stdpp Require Import base tactics list gmap strings sorting.
From Stdlib Require Import ZArith Lia Ascii.
From S2P Require Import Prelude GoStrings WireCodec DevEvents DashStore.

Module DashProofs.
Import DevEvents DashStore.

(** ** Well-formed states *)
Definition maps_ok (st : storeState) : Prop :=
  is_Some (Apps st) /\ is_Some (AppSessions st) /\ is_Some (DevSources st)
  /\ is_Some (Onboarding st) /\ is_Some (StoredRequests st).

Definition payload_ok (e : ProcessEvent) : Prop :=
  slen (pe_PayloadJSON e) <= maxProcessEventPayloadBytes \/ exists n, pe_PayloadJSON e = truncated_marker n.

Definition bounded (st : storeState) : Prop :=
  len (ProcessEvents st) <= maxStoredProcessEvents /\ Forall payload_ok (ProcessEvents st)
  /\ len (ProcessOutputs st) <= maxStoredProcessOutput
  /\ len (DevEvents_ st) <= maxStoredDevEvents
  /\ len (TraceSummaries st) <= maxStoredTraceSummaries
  /\ len (TraceEvents st) <= maxStoredTraceEvents
  /\ len (LogEvents st) <= maxStoredLogEvents.

Definition wf_state (st : storeState) : Prop := maps_ok st /\ bounded st.

Section bounds.
Context {E : Env}.

Lemma len_tailSlice {A} (l : list A) max : 0 < max -> len (tailSlice l max) <= max.
Proof.
  intros Hm. unfold tailSlice, len in *. destruct (Z.leb_spec max 0); [lia|]. simpl.
  destruct (Z.leb_spec (Z.of_nat (length l)) max); [lia|]. rewrite length_drop. lia.
Qed.

Lemma truncate_ok e : payload_ok (truncate_event e).
Proof.
  unfold truncate_event, payload_ok.
  destruct (Z.leb_spec (slen (pe_PayloadJSON e)) maxProcessEventPayloadBytes); simpl; [by left|right; eauto].
Qed.

Lemma prune_bounded st : bounded (pruneStoreState st).
Proof.
  unfold bounded, pruneStoreState, truncateOversizedProcessEvents; simpl.
  split_and!; try (by apply len_tailSlice).
  - unfold len. rewrite length_map. by apply (len_tailSlice (ProcessEvents st)).
  - apply Forall_forall. intros e (x & -> & _)%list_elem_of_fmap. apply truncate_ok.
Qed.

Lemma prune_maps st : maps_ok (pruneStoreState st) <-> maps_ok st.
Proof. done. Qed.

Lemma normalize_maps st : maps_ok (normalizeStoreState st).
Proof. repeat split; eauto. Qed.

Lemma normalize_bounded st : bounded st -> bounded (normalizeStoreState st).
Proof. done. Qed.

Lemma newStoreState_wf : wf_state newStoreState.
Proof. repeat split; simpl; eauto; try done. Qed.

Lemma prune_wf st : maps_ok st -> wf_state (pruneStoreState st).
Proof. intros H. split; [done|apply prune_bounded]. Qed.

Lemma loaded_wf st : wf_state (pruneStoreState (normalizeStoreState st)).
Proof. apply prune_wf, normalize_maps. Qed.
End bounds.

Create HintDb dash.
#[export] Hint Resolve prune_bounded prune_maps normalize_maps newStoreState_wf prune_wf loaded_wf : dash.

(** ** A program logic for the store *)

(** A mutation that keeps the maps, does not panic and does nothing when it fails. *)
Definition sound {A} (fn : mutation A) : Prop := forall st, maps_ok st ->
  maps_ok (fn st).1 /\ match (fn st).2 with Ret _ => True | Fail _ => (fn st).1 = st | Panic _ => False end.

(** A mutation that only reads. *)
Definition reads {A} (fn : mutation A) : Prop := forall st, maps_ok st ->
  (fn st).1 = st /\ panics (fn st).2 = false.

(** A mutation that may be deferred: it does not fail. *)
Definition deferrable (fn : mutation unit) : Prop := forall st, maps_ok st ->
  maps_ok (fn st).1 /\ (fn st).2 = Ret tt.

Definition shared_ok (sh : storeShared) : Prop :=
  (forall st, state sh = Some st -> wf_state st) /\ Forall deferrable (pending sh).

(** The stores in memory are all that the judgement speaks about. *)
Abbreviation memory := (gmap string storeShared).

Definition inv (l : memory) : Prop := map_Forall (fun _ sh => shared_ok sh) l.

(** The store at [path] is loaded and its state satisfies [Q]; the other stores
    keep their invariant. *)
Definition loaded (path : string) (Q : storeState -> Prop) (l : memory) : Prop :=
  (exists sh st, l !! path = Some sh /\ state sh = Some st /\ Q st /\ Forall deferrable (pending sh))
  /\ inv (delete path l).

(** [m] started in [P] ends in [Q] or fails in [inv]; it does not panic. *)
Definition triple {A} (P : memory -> Prop) (m : M A) (Q : A -> memory -> Prop) : Prop :=
  forall w, P (locks w) -> match m w with
                           | (w', Ret a) => Q a (locks w')
                           | (w', Fail _) => inv (locks w')
                           | (w', Panic _) => False
                           end.

(** [m] does not touch the stores in memory, does not panic, and answers in [R]. *)
Definition apart {A} (m : M A) (R : A -> Prop) : Prop :=
  forall w, locks (m w).1 = locks w /\ match (m w).2 with Ret a => R a | Fail _ => True | Panic _ => False end.

Lemma inv_split path sh l : l !! path = Some sh -> inv l <-> shared_ok sh /\ inv (delete path l).
Proof.
  intros Hl. rewrite <- (insert_id l path sh Hl) at 1. rewrite <- insert_delete_eq. unfold inv.
  rewrite map_Forall_insert by apply lookup_delete_eq. done.
Qed.

Lemma inv_insert path sh l : shared_ok sh -> inv (delete path l) -> inv (<[path := sh]> l).
Proof. intros. rewrite <- insert_delete_eq. by apply map_Forall_insert_2. Qed.

Lemma inv_delete path l : inv l -> inv (delete path l).
Proof. apply map_Forall_delete. Qed.

Lemma loaded_inv path l : loaded path wf_state l -> inv l.
Proof.
  intros [(sh & st & Hl & Hs & Hq & Hp) Ho]. apply (inv_split path sh l Hl). split; [|done].
  split; [|done]. intros st' E. congruence.
Qed.

Lemma loaded_impl path (P Q : storeState -> Prop) l : (forall st, P st -> Q st) -> loaded path P l -> loaded path Q l.
Proof. intros H [(sh & st & ? & ? & ? & ?) ?]. split; [|done]. exists sh, st. auto. Qed.

Lemma triple_ret {A} (P : memory -> Prop) (a : A) : triple P (mret a) (fun _ => P).
Proof. by intros w Hw. Qed.

Lemma triple_done {A} (P : memory -> Prop) (a : A) (Q : A -> memory -> Prop) : (forall l, P l -> Q a l) -> triple P (mret a) Q.
Proof. intros H w Hw. by apply H. Qed.

Lemma triple_fail {A} (P : memory -> Prop) e (Q : A -> memory -> Prop) : (forall l, P l -> inv l) -> triple P (fail e) Q.
Proof. intros H w Hw. by apply H. Qed.

Lemma triple_bind {A B} (P : memory -> Prop) (m : M A) (R : A -> memory -> Prop) (f : A -> M B) Q :
  triple P m R -> (forall a, triple (R a) (f a) Q) -> triple P (mbind f m) Q.
Proof.
  intros Hm Hf w Hw. specialize (Hm w Hw). unfold mbind, M_bind.
  destruct (m w) as [w' []]; [by apply Hf|done|done].
Qed.

Lemma triple_conseq {A} (P P' : memory -> Prop) (m : M A) (Q Q' : A -> memory -> Prop) :
  triple P' m Q' -> (forall l, P l -> P' l) -> (forall a l, Q' a l -> Q a l) -> triple P m Q.
Proof.
  intros Hm HP HQ w Hw. specialize (Hm w (HP _ Hw)). destruct (m w) as [w' []]; auto.
Qed.

Lemma triple_attempt {A} (P : memory -> Prop) (m : M A) (Q : A -> memory -> Prop) :
  triple P m Q ->
  triple P (attempt m) (fun r l => match r with Ret a => Q a l | Fail _ => inv l | Panic _ => False end).
Proof.
  intros Hm w Hw. specialize (Hm w Hw). unfold attempt. by destruct (m w) as [w' []].
Qed.

(** What holds of the stores in memory survives what does not touch them. *)
Lemma triple_apart {A} (P : memory -> Prop) (m : M A) (R : A -> Prop) :
  apart m R -> (forall l, P l -> inv l) -> triple P m (fun a l => P l /\ R a).
Proof.
  intros Hm HP w Hw. destruct (Hm w) as [Hl Hr]. destruct (m w) as [w' []]; simpl in *; try done.
  - by rewrite Hl.
  - rewrite Hl. auto.
Qed.

Lemma triple_attempt_apart {A} (P : memory -> Prop) (m : M A) (R : A -> Prop) :
  apart m R ->
  triple P (attempt m)
    (fun r l => P l /\ match r with Ret a => R a | Fail _ => True | Panic _ => False end).
Proof.
  intros Hm w Hw. destruct (Hm w) as [Hl Hr]. unfold attempt.
  destruct (m w) as [w' []]; simpl in *; try done; by rewrite Hl.
Qed.

Lemma triple_pure {A} (P : memory -> Prop) (H : Prop) (m : M A) Q :
  (H -> triple P m Q) -> triple (fun l => P l /\ H) m Q.
Proof. intros Hm w [Hw HH]. by apply Hm. Qed.

Lemma triple_lift {A B} (P : memory -> Prop) (a : A) (f : A -> M B) Q :
  triple P (f a) Q -> triple P (mbind f (lift (Ret a))) Q.
Proof. done. Qed.

Section system.
Context {E : Env}.

Lemma apart_syscall {A} (f : nat -> gmap string file -> gmap string file * outcome error A) (R : A -> Prop) :
  (forall k fs, match (f k fs).2 with Ret a => R a | Fail _ => True | Panic _ => False end) -> apart (syscall f) R.
Proof.
  intros Hf w. unfold syscall. specialize (Hf (calls w) (others_at (calls w) (files w))).
  by destruct (f _ _).
Qed.

Lemma apart_bind {A B} (m : M A) (R : A -> Prop) (f : A -> M B) S :
  apart m R -> (forall a, R a -> apart (f a) S) -> apart (mbind f m) S.
Proof.
  intros Hm Hf w. specialize (Hm w) as [Hl Hr]. unfold mbind, M_bind.
  destruct (m w) as [w' []]; simpl in *; try done. destruct (Hf _ Hr w') as [-> ?]. done.
Qed.

Lemma apart_attempt {A} (m : M A) R :
  apart m R -> apart (attempt m) (fun r => match r with Ret a => R a | Fail _ => True | Panic _ => False end).
Proof. intros Hm w. specialize (Hm w) as [Hl Hr]. unfold attempt. by destruct (m w) as [w' []]. Qed.

Lemma apart_ret {A} (a : A) (R : A -> Prop) : R a -> apart (mret a) R.
Proof. done. Qed.

Lemma apart_fail {A} e (R : A -> Prop) : apart (fail e) R.
Proof. done. Qed.

Lemma apart_io : apart io (fun _ => True).
Proof. apply apart_syscall. intros k fs. simpl. by destruct (fails_at k). Qed.

Lemma apart_Now : apart Now (fun _ => True).
Proof. by apply apart_syscall. Qed.

Lemma apart_stat path : apart (statStamp path) (fun _ => True).
Proof. apply apart_syscall. intros k fs. simpl. destruct (fails_at k); [done|]. by destruct (fs !! path). Qed.

Lemma apart_read path : apart (ReadFile path) (fun _ => True).
Proof. apply apart_syscall. intros k fs. simpl. destruct (fails_at k); [done|]. by destruct (fs !! path). Qed.

Lemma apart_rename path d : apart (Rename path d) (fun _ => True).
Proof. apply apart_syscall. intros k fs. simpl. by destruct (fails_at k). Qed.

Lemma apart_load path : apart (loadStateWithStamp path) (fun l => wf_state l.1).
Proof.
  eapply apart_bind; [apply apart_attempt, apart_stat|]. intros [at_|[]|] Hr; try done.
  eapply apart_bind; [apply apart_attempt, apart_read|]. intros [[]|[]|] Hr'; try done;
    apply apart_ret; simpl; eauto with dash.
Qed.
End system.

Section store_rules.
Context {UT : UnicodeTables} {JL : JsonLib} {E : Env}.

(** Reading the shared part of a loaded store. *)
Lemma triple_get path Q {B} (f : storeShared -> M B) R :
  (forall sh st, state sh = Some st -> Q st -> Forall deferrable (pending sh) ->
     triple (fun l => l !! path = Some sh /\ inv (delete path l)) (f sh) R) ->
  triple (loaded path Q) (mbind f (get_shared path)) R.
Proof.
  intros Hf w [(sh & st & Hl & Hs & Hq & Hp) Ho]. unfold mbind, M_bind, get_shared. rewrite Hl. simpl.
  by apply (Hf sh st).
Qed.

Lemma triple_put path sh st (Q : storeState -> Prop) (P : memory -> Prop) :
  state sh = Some st -> Q st -> Forall deferrable (pending sh) -> (forall l, P l -> inv (delete path l)) ->
  triple P (put_shared path sh) (fun _ => loaded path Q).
Proof.
  intros Hs Hq Hp HP w Hw. simpl. split.
  - exists sh, st. by rewrite lookup_insert_eq.
  - rewrite delete_insert_eq. by apply HP.
Qed.

Lemma triple_with_loaded {A} path (P Q : storeState -> Prop) (fn : mutation A) :
  (forall st, P st ->
     match (fn st).2 with Ret _ => Q (fn st).1 | Fail _ => wf_state (fn st).1 | Panic _ => False end) ->
  triple (loaded path P) (with_loaded path fn) (fun _ => loaded path Q).
Proof.
  intros Hf. apply triple_get. intros sh st Hs Hp Hpend. rewrite Hs. pose proof (Hf st Hp) as Hr.
  destruct (fn st) as [st' r] eqn:Efn. simpl in Hr.
  intros w [Hl Ho]. unfold mbind, M_bind, put_shared, lift. simpl.
  destruct r as [a|e|msg]; simpl; [|apply inv_insert; [split; [|done]|done]; intros ? [= <-]; done|done].
  split; [|by rewrite delete_insert_eq]. eexists _, st'. by rewrite lookup_insert_eq.
Qed.

Lemma ensureLoaded_ok path : triple inv (ensureLoadedLocked path) (fun _ => loaded path wf_state).
Proof.
  intros w Hw. unfold ensureLoadedLocked, mbind at 1, M_bind at 1, get_shared.
  assert (shared_ok (default no_shared (locks w !! path))) as Hok.
  { destruct (locks w !! path) as [sh|] eqn:El; simpl; [exact (Hw path sh El)|]. by split. }
  destruct (state (default no_shared (locks w !! path))) as [st|] eqn:Es.
  - destruct (locks w !! path) as [sh|] eqn:El; simpl in *; [|done]. destruct Hok as [Hst Hp].
    split; [exists sh, st; auto|]. by apply inv_delete.
  - destruct Hok as [Hst Hp]. set (sh := default no_shared (locks w !! path)) in *.
    assert (triple inv (l ← loadStateWithStamp path; put_shared path (set_loaded sh l.1 l.2))
              (fun _ => loaded path wf_state)) as Ht; [|exact (Ht w Hw)].
    eapply triple_bind; [apply triple_apart; [apply apart_load|done]|]. intros l.
    apply triple_pure. intros Hl. apply (triple_put path _ l.1); simpl; auto using inv_delete.
Qed.

Lemma replay_ok pend st : Forall deferrable pend -> maps_ok st ->
  exists st', replay pend st = Ret st' /\ maps_ok st'.
Proof.
  intros Hp. revert st. induction Hp as [|m pend Hm _ IH]; intros st Hst; simpl; [eauto|].
  destruct (Hm st Hst) as [Hst' Hr]. destruct (m st) as [st' r]. simpl in *. subst r. by apply IH.
Qed.

Lemma loaded_exact path sh st l (Q : storeState -> Prop) :
  state sh = Some st -> Q st -> Forall deferrable (pending sh) ->
  l !! path = Some sh /\ inv (delete path l) -> loaded path Q l.
Proof. intros Hs Hq Hp [Hl Ho]. split; [|done]. by exists sh, st. Qed.

Lemma refresh_ok path : triple (loaded path wf_state) (refreshForExternalChangeLocked path) (fun _ => loaded path wf_state).
Proof.
  eapply triple_bind; [apply triple_attempt_apart, apart_stat|]. intros r.
  apply triple_pure. intros Hr.
  apply (triple_bind _ _ (fun _ => loaded path wf_state)).
  { destruct r as [at_|[]|]; try done; try (apply triple_ret); apply triple_fail, loaded_inv. }
  intros at_. apply triple_get. intros sh st Hs Hq Hp. destruct (decide _).
  { eapply triple_conseq; [apply (triple_ret (loaded path wf_state))| |done]. eauto using loaded_exact. }
  eapply triple_bind.
  { apply triple_apart; [apply apart_load|]. intros l Hl. eapply loaded_inv, loaded_exact; eauto. }
  intros l. apply triple_pure. intros Hl. destruct (replay_ok (pending sh) l.1 Hp (proj1 Hl)) as (st' & -> & Hst').
  apply triple_lift. apply (triple_put path _ (pruneStoreState st')); simpl; eauto with dash.
  intros l' Hl'. apply Hl'.
Qed.

Lemma marshal_ok path :
  triple (loaded path wf_state)
    (with_loaded path (fun st => (st, match json_view st with Some d => Ret d | None => Fail ErrJSON end)))
    (fun _ => loaded path wf_state).
Proof. apply triple_with_loaded. intros st Hst. simpl. by destruct (json_view st). Qed.

Lemma saveState_ok path : triple (loaded path wf_state) (saveState path) (fun _ => loaded path wf_state).
Proof.
  unfold saveState. eapply triple_bind.
  { apply (triple_with_loaded path wf_state wf_state). intros st _. simpl. eauto with dash. }
  intros ?. eapply triple_bind; [apply marshal_ok|]. intros d.
  do 4 (eapply triple_bind; [apply triple_apart; [apply apart_io|apply loaded_inv]|]; intros ?; apply triple_pure; intros _).
  eapply triple_conseq; [apply triple_apart; [apply apart_rename|apply loaded_inv]|done|]. by intros _ l [? _].
Qed.

Lemma record_stamp_ok path : triple (loaded path wf_state) (record_stamp path) (fun _ => loaded path wf_state).
Proof.
  eapply triple_bind; [apply triple_attempt_apart, apart_stat|]. intros r. apply triple_pure. intros _.
  destruct r; try apply triple_ret. apply triple_get. intros sh st Hs Hq Hp.
  apply (triple_put path _ st); simpl; auto. by intros l [_ ?].
Qed.

(** Setting the flags and a list of deferrable mutations keeps the state. *)
Lemma set_flags_ok path (f : storeShared -> storeShared) :
  (forall sh, state (f sh) = state sh) ->
  (forall sh, Forall deferrable (pending sh) -> Forall deferrable (pending (f sh))) ->
  triple (loaded path wf_state) (sh ← get_shared path; put_shared path (f sh)) (fun _ => loaded path wf_state).
Proof.
  intros Hf Hp'. apply triple_get. intros sh st Hs Hq Hp.
  apply (triple_put path _ st); simpl; rewrite ?Hf; auto. by intros l [_ ?].
Qed.

Lemma schedule_ok path : triple (loaded path wf_state) (scheduleSaveLocked path) (fun _ => loaded path wf_state).
Proof.
  apply triple_get. intros sh st Hs Hq Hp.
  assert (triple (fun l => l !! path = Some sh /\ inv (delete path l))
            (put_shared path (set_flags sh true true (pending sh))) (fun _ => loaded path wf_state)) as Hput.
  { apply (triple_put path _ st); simpl; auto. by intros l [_ ?]. }
  destruct (savePending sh); [done|]. eapply triple_bind; [exact Hput|]. by intros ? w Hw.
Qed.

Lemma withStatePersist_ok {A} s ctx wr immediate (fn : mutation A) :
  sound fn -> (wr = false -> reads fn) -> (immediate = false -> deferrable (forget fn)) ->
  triple inv (withStatePersist s ctx wr immediate fn) (fun _ => inv).
Proof.
  intros Hs Hr Hd. unfold withStatePersist. destruct (store_path s) as [path|]; [|by apply triple_fail].
  destruct ctx; [by apply triple_fail|].
  eapply triple_bind; [apply ensureLoaded_ok|]; intros ?. eapply triple_bind; [apply refresh_ok|]; intros ?.
  eapply (triple_bind _ _ (fun _ => loaded path (if wr then maps_ok else wf_state))).
  { apply triple_with_loaded. intros st [Hm Hb]. destruct (Hs st Hm) as [Hm' Ho].
    destruct (fn st) as [st' []] eqn:Efn; simpl in *; [|by subst|done].
    destruct wr; [done|]. specialize (Hr eq_refl st Hm) as [Hst _]. rewrite Efn in Hst. simpl in Hst. by subst. }
  intros r. destruct wr; [|apply triple_done, loaded_inv].
  eapply triple_bind.
  { apply (triple_with_loaded path maps_ok wf_state). intros st Hst. simpl. eauto with dash. }
  intros ?. destruct immediate.
  - eapply triple_bind; [apply saveState_ok|]; intros ?. eapply triple_bind; [apply record_stamp_ok|]; intros ?.
    apply triple_get. intros sh st Hst Hq Hp. eapply triple_bind.
    { apply (triple_put path _ st wf_state); simpl; auto. by intros l [_ ?]. }
    intros ?. apply triple_done, loaded_inv.
  - apply triple_get. intros sh st Hst Hq Hp. eapply triple_bind.
    { apply (triple_put path _ st wf_state); simpl; auto; [|by intros l [_ ?]].
      apply Forall_app. auto. }
    intros ?. eapply triple_bind; [apply schedule_ok|]; intros ?.
    apply triple_done, loaded_inv.
Qed.

Lemma clear_pending_flag_ok path : triple inv (clear_pending_flag path) (fun _ => inv).
Proof.
  intros w Hw. simpl. apply inv_insert; [|by apply inv_delete].
  destruct (locks w !! path) as [sh|] eqn:El; simpl; [exact (Hw path sh El)|by split].
Qed.

Lemma Flush_ok s ctx : triple inv (Flush s ctx) (fun _ => inv).
Proof.
  unfold Flush. destruct (store_path s) as [path|]; [|apply triple_ret]. destruct ctx; [by apply triple_fail|].
  eapply triple_bind; [apply ensureLoaded_ok|]; intros ?. apply triple_get. intros sh st Hs Hq Hp.
  assert (forall l, l !! path = Some sh /\ inv (delete path l) -> loaded path wf_state l) as Hl
    by eauto using loaded_exact.
  destruct (negb (dirty sh)).
  { eapply triple_conseq; [apply clear_pending_flag_ok| |done]. eauto using loaded_inv. }
  eapply triple_bind.
  { eapply triple_conseq; [apply triple_attempt, refresh_ok|exact Hl|]. intros ? ? H. exact H. }
  assert (forall e, triple inv (_ ← clear_pending_flag path; fail e) (fun _ : unit => inv)) as Hfail.
  { intros e. eapply triple_bind; [apply clear_pending_flag_ok|]. intros ?. by apply triple_fail. }
  intros [?|e|?]; [|apply Hfail|by intros w Hw]. eapply triple_bind; [apply triple_attempt, saveState_ok|].
  intros [?|e|?]; [|apply Hfail|by intros w Hw]. eapply triple_bind; [apply record_stamp_ok|]. intros ?.
  eapply triple_conseq; [apply (set_flags_ok path (fun sh => set_flags sh false false []))| done|]; auto.
  intros ? l. apply loaded_inv.
Qed.

Lemma apart_triple {A} (m : M A) R : apart m R -> triple inv m (fun _ => inv).
Proof. intros H. eapply triple_conseq; [apply (triple_apart inv _ _ H)|done|]; [done|]. by intros a l [? _]. Qed.

Lemma Now_ok {A} (f : Z -> M A) Q : (forall t, triple inv (f t) Q) -> triple inv (mbind f Now) Q.
Proof.
  intros Hf. eapply triple_bind; [exact (apart_triple _ _ apart_Now)|]. intros t. apply Hf.
Qed.

Lemma wake_ok path : triple inv (wake path) (fun _ => inv).
Proof.
  eapply triple_bind; [apply triple_attempt, Flush_ok|]. intros r w Hw. simpl. by destruct r.
Qed.
End store_rules.

(** ** The mutations are sound *)
Section mutations.
Context {UT : UnicodeTables} {JL : JsonLib} {E : Env}.

Lemma reading_reads {A} (f : storeState -> A) : reads (reading f).
Proof. done. Qed.

Lemma found_reads {A} (f : storeState -> option A) : reads (found f).
Proof. intros st _. simpl. by destruct (f st). Qed.

Lemma reads_sound {A} (fn : mutation A) : reads fn -> sound fn.
Proof.
  intros H st Hst. destruct (H st Hst) as [E1 E2]. destruct (fn st) as [st' []]; simpl in *; by subst.
Qed.

Lemma changing_sound f : (forall st, maps_ok st -> maps_ok (f st)) -> sound (changing f).
Proof. intros H st Hst. split; [by apply H|done]. Qed.

Lemma changing_deferrable f : (forall st, maps_ok st -> maps_ok (f st)) -> deferrable (forget (changing f)).
Proof. intros H st Hst. split; [by apply H|done]. Qed.

Lemma assign_Some {A} (m : gmap string A) k v : assign (Some m) k v = Ret (Some (<[k := v]> m)).
Proof. done. Qed.

(** Open the five maps of a state that has them. *)
Ltac open_maps st Hst :=
  let H1 := fresh in let H2 := fresh in let H3 := fresh in let H4 := fresh in let H5 := fresh in
  destruct Hst as ([? H1] & [? H2] & [? H3] & [? H4] & [? H5]); destruct st; simpl in *; subst;
  repeat split; simpl; eauto.

Lemma upsert_app_sound app : sound (upsert_app app).
Proof. intros st Hst. open_maps st Hst. Qed.

Lemma append_process_event_sound appID kind data now : sound (append_process_event appID kind data now).
Proof. by apply changing_sound. Qed.

Lemma append_process_output_sound o : sound (append_process_output o).
Proof. by apply changing_sound. Qed.

Lemma assign_source_sound key source : sound (assign_source key source).
Proof. intros st Hst. open_maps st Hst. Qed.

Lemma append_dev_event_sound now event : sound (append_dev_event now event).
Proof. intros st Hst. unfold append_dev_event, assign_source. open_maps st Hst. Qed.

Lemma take_dev_event_id_sound : sound take_dev_event_id.
Proof. intros st Hst. by split. Qed.

Lemma advance_dev_event_id_sound nextID : sound (advance_dev_event_id nextID).
Proof. apply changing_sound. intros st Hst. by destruct (_ <? _). Qed.

Lemma delete_dev_events_sound appID sessionID : sound (delete_dev_events appID sessionID).
Proof. intros st Hst. open_maps st Hst. Qed.

Lemma put_summary_sound s : sound (put_summary s).
Proof. by apply changing_sound. Qed.
Lemma put_trace_event_sound e : sound (put_trace_event e).
Proof. by apply changing_sound. Qed.
Lemma put_log_event_sound e : sound (put_log_event e).
Proof. by apply changing_sound. Qed.
Lemma clear_traces_sound appID sessionID : sound (clear_traces appID sessionID).
Proof. by apply changing_sound. Qed.
Lemma changing_id_sound : sound (changing id).
Proof. by apply changing_sound. Qed.

Lemma set_props_Some m props now : exists m', set_props (Some m) props now = Ret (Some m').
Proof.
  revert m. induction props as [|p props IH]; intros m; simpl; [eauto|].
  destruct (String.eqb p ""); [done|]. simpl. apply IH.
Qed.

Lemma set_onboarding_sound props now : sound (set_onboarding props now).
Proof.
  intros st Hst. destruct Hst as (H1 & H2 & H3 & [m H4] & H5). unfold set_onboarding. rewrite H4.
  destruct (set_props_Some m props now) as [m' ->]. by repeat split; simpl.
Qed.

Lemma put_request_sound req : sound (put_request req).
Proof. intros st Hst. open_maps st Hst. Qed.

Lemma create_request_sound req : sound (create_request req).
Proof.
  intros st Hst. unfold create_request. destruct (has_request _ _ _); [done|by apply put_request_sound].
Qed.

Lemma update_request_sound req : sound (update_request req).
Proof.
  intros st Hst. unfold update_request. destruct (has_request _ _ _); [by apply put_request_sound|done].
Qed.

Lemma delete_request_sound appID id : sound (delete_request appID id).
Proof.
  intros st Hst. unfold delete_request. destruct (has_request _ _ _); [|done]. open_maps st Hst.
Qed.
End mutations.

#[export] Hint Resolve reading_reads found_reads reads_sound upsert_app_sound append_process_event_sound
  append_process_output_sound assign_source_sound append_dev_event_sound take_dev_event_id_sound
  advance_dev_event_id_sound delete_dev_events_sound put_summary_sound put_trace_event_sound
  put_log_event_sound clear_traces_sound changing_id_sound set_onboarding_sound put_request_sound
  create_request_sound update_request_sound delete_request_sound changing_deferrable : dash.

(** ** Calls and runs *)
Create HintDb dash_ops.
#[export] Hint Unfold Close UpsertApp ListApps ListAppSessions GetApp GetAppSession GetAppForSession WriteProcessEvent
  ListProcessEvents WriteProcessOutput listProcessOutput UpsertDevSource WriteDevEvent WriteDevEventReturningID
  GetNextDevEventID AdvanceDevEventID ListDevSources DeleteDevEventsForSession ListDevEvents appendTraceSummary
  queryTraceSummaries GetTraceSummariesForSession QueryTraceMetrics QueryTraceSummaries appendTraceEvent
  GetTraceEventsForSession writeLogEvent ClearTracesForSession CountTraceEventsForSession
  CountLogsByLevelForSession GetOnboarding SetOnboarding ListStoredRequests CreateStoredRequest
  UpdateStoredRequest DeleteStoredRequest put_summary put_trace_event put_log_event : dash_ops.

Inductive call :=
| CallOpenStore (cacheRoot : string)
| CallClose (s : Store)
| CallFlush (s : Store) (ctx : bool)
| CallUpsertApp (s : Store) (ctx : bool) (app : AppRecord)
| CallListApps (s : Store) (ctx : bool)
| CallListAppSessions (s : Store) (ctx : bool)
| CallGetApp (s : Store) (ctx : bool) (appID : string)
| CallGetAppSession (s : Store) (ctx : bool) (routeID : string)
| CallGetAppForSession (s : Store) (ctx : bool) (appID sessionID : string)
| CallWriteProcessEvent (s : Store) (ctx : bool) (appID kind : string) (payload : option string)
| CallListProcessEvents (s : Store) (ctx : bool) (appID : string) (limit : Z)
| CallWriteProcessOutput (s : Store) (ctx : bool) (output : ProcessOutput)
| CallListProcessOutput (s : Store) (ctx : bool) (appID sessionID : string) (afterID limit : Z)
| CallUpsertDevSource (s : Store) (ctx : bool) (appID sessionID : string) (source : DevSource)
| CallWriteDevEvent (s : Store) (ctx : bool) (event : DevEvent)
| CallNextDevEventID (s : Store) (ctx : bool)
| CallAdvanceDevEventID (s : Store) (ctx : bool) (nextID : Z)
| CallListDevSources (s : Store) (ctx : bool) (appID sessionID : string)
| CallDeleteDevEvents (s : Store) (ctx : bool) (appID sessionID : string)
| CallListDevEvents (s : Store) (ctx : bool) (query : DevEventQuery)
| CallAppendTraceSummary (s : Store) (ctx : bool) (summary : option TraceSummary) (deferred : bool)
| CallQueryTraceSummaries (s : Store) (ctx : bool) (query : TraceQuery) (messageID : string) (children : bool)
| CallGetTraceSummaries (s : Store) (ctx : bool) (appID sessionID traceID : string)
| CallQueryTraceMetrics (s : Store) (ctx : bool) (query : TraceQuery)
| CallAppendTraceEvent (s : Store) (ctx : bool) (event : option TraceEvent) (deferred : bool)
| CallGetTraceEvents (s : Store) (ctx : bool) (appID sessionID traceID spanID : string)
| CallWriteLogEvent (s : Store) (ctx : bool) (event : option LogEvent) (deferred : bool)
| CallClearTraces (s : Store) (ctx : bool) (appID sessionID : string)
| CallCountTraceEvents (s : Store) (ctx : bool) (appID sessionID : string) (since : Z)
| CallCountLogs (s : Store) (ctx : bool) (appID sessionID : string) (since : Z)
| CallGetOnboarding (s : Store) (ctx : bool)
| CallSetOnboarding (s : Store) (ctx : bool) (props : list string)
| CallListStoredRequests (s : Store) (ctx : bool) (appID : string)
| CallCreateStoredRequest (s : Store) (ctx : bool) (req : StoredRequest)
| CallUpdateStoredRequest (s : Store) (ctx : bool) (req : StoredRequest)
| CallDeleteStoredRequest (s : Store) (ctx : bool) (appID id : string).

Definition ignore {A} (m : M A) : M unit := _ ← m; mret tt.

Section runs.
Context {UT : UnicodeTables} {JL : JsonLib}.

Definition perform {E : Env} (c : call) : M unit :=
  match c with
  | CallOpenStore root => ignore (OpenStore root)
  | CallClose s => Close s
  | CallFlush s ctx => Flush s ctx
  | CallUpsertApp s ctx app => UpsertApp s ctx app
  | CallListApps s ctx => ignore (ListApps s ctx)
  | CallListAppSessions s ctx => ignore (ListAppSessions s ctx)
  | CallGetApp s ctx appID => ignore (GetApp s ctx appID)
  | CallGetAppSession s ctx routeID => ignore (GetAppSession s ctx routeID)
  | CallGetAppForSession s ctx appID sessionID => ignore (GetAppForSession s ctx appID sessionID)
  | CallWriteProcessEvent s ctx appID kind payload => WriteProcessEvent s ctx appID kind payload
  | CallListProcessEvents s ctx appID limit => ignore (ListProcessEvents s ctx appID limit)
  | CallWriteProcessOutput s ctx output => WriteProcessOutput s ctx output
  | CallListProcessOutput s ctx appID sessionID afterID limit =>
      ignore (listProcessOutput s ctx appID sessionID afterID limit)
  | CallUpsertDevSource s ctx appID sessionID source => UpsertDevSource s ctx appID sessionID source
  | CallWriteDevEvent s ctx event => WriteDevEvent s ctx event
  | CallNextDevEventID s ctx => ignore (GetNextDevEventID s ctx)
  | CallAdvanceDevEventID s ctx nextID => AdvanceDevEventID s ctx nextID
  | CallListDevSources s ctx appID sessionID => ignore (ListDevSources s ctx appID sessionID)
  | CallDeleteDevEvents s ctx appID sessionID => ignore (DeleteDevEventsForSession s ctx appID sessionID)
  | CallListDevEvents s ctx query => ignore (ListDevEvents s ctx query)
  | CallAppendTraceSummary s ctx summary deferred => appendTraceSummary s ctx summary deferred
  | CallQueryTraceSummaries s ctx query messageID children =>
      ignore (queryTraceSummaries s ctx query messageID children)
  | CallGetTraceSummaries s ctx appID sessionID traceID =>
      ignore (GetTraceSummariesForSession s ctx appID sessionID traceID)
  | CallQueryTraceMetrics s ctx query => ignore (QueryTraceMetrics s ctx query)
  | CallAppendTraceEvent s ctx event deferred => appendTraceEvent s ctx event deferred
  | CallGetTraceEvents s ctx appID sessionID traceID spanID =>
      ignore (GetTraceEventsForSession s ctx appID sessionID traceID spanID)
  | CallWriteLogEvent s ctx event deferred => writeLogEvent s ctx event deferred
  | CallClearTraces s ctx appID sessionID => ClearTracesForSession s ctx appID sessionID
  | CallCountTraceEvents s ctx appID sessionID since => ignore (CountTraceEventsForSession s ctx appID sessionID since)
  | CallCountLogs s ctx appID sessionID since => ignore (CountLogsByLevelForSession s ctx appID sessionID since)
  | CallGetOnboarding s ctx => ignore (GetOnboarding s ctx)
  | CallSetOnboarding s ctx props => SetOnboarding s ctx props
  | CallListStoredRequests s ctx appID => ignore (ListStoredRequests s ctx appID)
  | CallCreateStoredRequest s ctx req => ignore (CreateStoredRequest s ctx req)
  | CallUpdateStoredRequest s ctx req => ignore (UpdateStoredRequest s ctx req)
  | CallDeleteStoredRequest s ctx appID id => DeleteStoredRequest s ctx appID id
  end.

Definition set_sleeping (w : world) (l : list string) : world :=
  {| files := files w; locks := locks w; sleeping := l; calls := calls w |}.
Definition set_files (w : world) (fs : gmap string file) : world :=
  {| files := fs; locks := locks w; sleeping := sleeping w; calls := calls w |}.

(** A step of the process: a call in an arbitrary environment, a background
    flush that wakes up, or a change of the files by other processes. *)
Inductive step : world -> world -> Prop :=
| step_call (E : Env) c w : step w (perform c w).1
| step_wake (E : Env) pre path post w :
    sleeping w = pre ++ path :: post -> step w (wake path (set_sleeping w (pre ++ post))).1
| step_others fs w : step w (set_files w fs).

Definition start (fs : gmap string file) : world :=
  {| files := fs; locks := ∅; sleeping := []; calls := 0 |}.

Lemma triple_world {A} (m : M A) w : triple inv m (fun _ => inv) -> inv (locks w) ->
  inv (locks (m w).1) /\ panics (m w).2 = false.
Proof. intros Hm Hw. specialize (Hm w Hw). by destruct (m w) as [w' []]. Qed.

Lemma ignore_ok {E : Env} {A} (m : M A) : triple inv m (fun _ => inv) -> triple inv (ignore m) (fun _ => inv).
Proof. intros Hm. eapply triple_bind; [exact Hm|]. intros ?. apply triple_ret. Qed.

Lemma withState_ok {E : Env} {A} s ctx wr (fn : mutation A) :
  sound fn -> (wr = false -> reads fn) -> triple inv (withState s ctx wr fn) (fun _ => inv).
Proof. intros. by apply withStatePersist_ok. Qed.

Lemma write_ok {E : Env} s ctx deferred f :
  (forall st, maps_ok st -> maps_ok (f st)) -> triple inv (write s ctx deferred (changing f)) (fun _ => inv).
Proof.
  intros Hf. unfold write. destruct deferred.
  - apply withStatePersist_ok; [by apply changing_sound|done|]. intros _. by apply changing_deferrable.
  - apply withState_ok; [by apply changing_sound|done].
Qed.

Lemma apart_request_id {E : Env} : apart newStoredRequestID (fun _ => True).
Proof. apply apart_syscall. intros k fs. simpl. by destruct (fails_at k). Qed.

Lemma OpenStore_ok {E : Env} root : triple inv (OpenStore root) (fun _ => inv).
Proof.
  unfold OpenStore. eapply (triple_bind _ _ (fun _ => inv)).
  { destruct (String.eqb root ""); [destruct user_cache_dir; [|by apply triple_fail]|]; apply triple_ret. }
  intros r. eapply triple_bind; [exact (apart_triple _ _ apart_io)|]. intros ?.
  eapply (triple_bind _ _ (fun _ => inv)).
  { intros w Hw. simpl. destruct (decide _); [done|]. apply inv_insert; [by split|by apply inv_delete]. }
  intros ?. eapply triple_bind; [apply withState_ok; [apply changing_id_sound|done]|]. intros ?. apply triple_ret.
Qed.

(** Every operation is a read or a write of the state behind its guards. *)
Ltac operation :=
  match goal with
  | |- triple inv (ignore _) _ => apply ignore_ok; operation
  | |- triple inv (fail _) _ => by apply triple_fail
  | |- triple inv (mret _) _ => by apply triple_done
  | |- triple inv (mbind _ Now) _ => apply Now_ok; intros ?; operation
  | |- triple inv newStoredRequestID _ => exact (apart_triple _ _ apart_request_id)
  | |- triple inv (mbind _ _) _ => apply (triple_bind _ _ (fun _ => inv)); [operation|intros ?; operation]
  | |- triple inv (if ?b then _ else _) _ => destruct b; operation
  | |- triple inv (match ?o with Some _ => _ | None => _ end) _ => destruct o; operation
  | |- triple inv (write _ _ _ (changing _)) _ => by apply write_ok
  | |- triple inv (withState _ _ _ _) _ => apply withState_ok; eauto with dash; try done
  end.

Lemma perform_ok {E : Env} c : triple inv (perform c) (fun _ => inv).
Proof.
  destruct c; cbn [perform]; try (by apply Flush_ok); try (by apply ignore_ok, OpenStore_ok);
    try (autounfold with dash_ops; operation).
Qed.

Lemma dash_step_inv w w' : step w w' -> inv (locks w) -> inv (locks w').
Proof.
  intros [E c v|E pre path post v Hv|fs v] Hw; [| |done].
  - by apply (triple_world _ v (perform_ok c)).
  - by apply (triple_world (wake path) (set_sleeping v (pre ++ post)) (wake_ok path)).
Qed.

Lemma run_inv w w' : rtc step w w' -> inv (locks w) -> inv (locks w').
Proof. induction 1; eauto using dash_step_inv. Qed.

(** C16. Whatever files are found, whatever calls are made, whichever of their
    system calls fail and however other processes change the files, before,
    between and during the calls: the state a process keeps of a store has its
    maps, at most the configured number of entries of each kind and no process
    event with an oversized payload, and no call panics. *)
Theorem store_invariant fs w : rtc step (start fs) w ->
  (forall path sh st, locks w !! path = Some sh -> state sh = Some st -> wf_state st)
  /\ forall (E : Env) c, panics (perform c w).2 = false.
Proof.
  intros Hrun. assert (inv (locks w)) as Hw by (apply (run_inv _ _ Hrun), map_Forall_empty). split.
  - intros path sh st Hl Hs. by apply (proj1 (Hw path sh Hl)).
  - intros E c. apply (triple_world _ w (perform_ok c) Hw).
Qed.
End runs.

(** ** What a flush saves *)

(** No other process changes a file during the calls made in [E]. *)
Definition quiet (E : Env) : Prop := forall k fs, others_at k fs = fs.

(** Inversion of a successful run. *)
Lemma dash_bind_Ret {A B} (m : M A) (f : A -> M B) w w' b : mbind f m w = (w', Ret b) ->
  exists a v, m w = (v, Ret a) /\ f a v = (w', Ret b).
Proof. unfold mbind, M_bind. destruct (m w) as [v []] eqn:E; intros H; simplify_eq. eauto. Qed.

Lemma attempt_Ret {A} (m : M A) w w' r : attempt m w = (w', Ret r) -> m w = (w', r).
Proof. unfold attempt. destruct (m w) as [v []]; intros H; by simplify_eq. Qed.

Lemma ret_Ret {A} (a b : A) w w' : (mret a : M A) w = (w', Ret b) -> w' = w /\ b = a.
Proof. by intros [= <- <-]. Qed.

Ltac inv_run :=
  repeat match goal with
  | H : mbind _ _ _ = (_, Ret _) |- _ =>
      apply dash_bind_Ret in H as (? & ? & ? & H); cbv beta in H
  | H : attempt _ _ = (_, Ret _) |- _ => apply attempt_Ret in H
  | H : mret _ _ = (_, Ret _) |- _ => apply ret_Ret in H as [? ?]; subst
  | H : fail _ _ = (_, Ret _) |- _ => discriminate H
  | H : panic _ _ = (_, Ret _) |- _ => discriminate H
  | H : lift _ _ = (_, Ret _) |- _ => injection H as ? ?; subst
  | H : get_shared _ _ = (_, Ret _) |- _ => injection H as ? ?; subst
  | H : put_shared _ _ _ = (_, Ret _) |- _ => injection H as ?; subst
  end.

Section flush.
Context {UT : UnicodeTables} {JL : JsonLib} {E : Env} (HE : quiet E).

Lemma syscall_quiet {A} (f : nat -> gmap string file -> gmap string file * outcome error A) w w' r :
  syscall f w = (w', r) -> locks w' = locks w /\ files w' = (f (calls w) (files w)).1 /\ r = (f (calls w) (files w)).2.
Proof.
  unfold syscall. rewrite HE. destruct (f (calls w) (files w)) as [fs x]. by intros [= <- <-].
Qed.

Lemma stat_quiet path w w' r : statStamp path w = (w', r) -> locks w' = locks w /\ files w' = files w.
Proof. unfold statStamp. intros H. by apply syscall_quiet in H as (? & ? & _). Qed.

(** What loading a file gives. *)
Definition load_content (fs : gmap string file) (path : string) (st : storeState) : Prop :=
  match fs !! path with
  | None => st = newStoreState
  | Some f =>
    match f_content f with
    | Blank => st = newStoreState
    | Garbage => False
    | Doc d => st = pruneStoreState (normalizeStoreState d)
    end
  end.

Lemma load_quiet path w w' st at_ : loadStateWithStamp path w = (w', Ret (st, at_)) ->
  locks w' = locks w /\ files w' = files w /\ load_content (files w) path st.
Proof.
  unfold loadStateWithStamp, load_content. intros H. inv_run.
  match goal with H : statStamp _ _ = _ |- _ => unfold statStamp in H; apply syscall_quiet in H as (Hl & Hf & Hr) end.
  simpl in Hf, Hr.
  destruct (fails_at _) in Hr; [subst; by inv_run|]. destruct (files w !! path) as [f|] eqn:Ef; subst; inv_run.
  2: { simplify_eq. by rewrite Hl, Hf. }
  match goal with H : ReadFile _ _ = _ |- _ => unfold ReadFile in H; apply syscall_quiet in H as (Hl' & Hf' & Hr) end.
  simpl in Hf', Hr. rewrite Hf in Hr. rewrite Ef in Hr.
  destruct (fails_at _) in Hr; [subst; by inv_run|]. subst.
  destruct (f_content f); inv_run; simplify_eq; split_and!; congruence.
Qed.

Lemma shared_at path w sh : locks w !! path = Some sh -> default no_shared (locks w !! path) = sh.
Proof. by intros ->. Qed.

Lemma refresh_Ret path w w' u sh st : locks w !! path = Some sh -> state sh = Some st ->
  refreshForExternalChangeLocked path w = (w', Ret u) ->
  files w' = files w /\ exists sh' st', locks w' !! path = Some sh' /\ state sh' = Some st'
    /\ (st' = st
        \/ exists base x, load_content (files w) path base /\ replay (pending sh) base = Ret x
                         /\ st' = pruneStoreState x).
Proof.
  intros Hl Hs. unfold refreshForExternalChangeLocked. intros H. inv_run.
  match goal with H : statStamp _ _ = _ |- _ => apply stat_quiet in H as [Hl1 Hf1] end.
  match goal with H : match ?r with _ => _ end ?v = (?v', Ret ?a) |- _ =>
    assert (v' = v) as -> by (destruct r as [|[]|]; inv_run; by simplify_eq) end.
  match goal with H : context [decide _] |- _ => rewrite Hl1, (shared_at _ _ _ Hl) in H; revert H end.
  destruct (decide _); intros H; inv_run.
  { split; [done|]. exists sh, st. rewrite Hl1. auto. }
  match goal with H : loadStateWithStamp _ _ = (_, Ret ?l) |- _ => destruct l as [base at1];
    apply load_quiet in H as (Hl2 & Hf2 & Hc) end.
  simpl in *. split; [congruence|]. eexists _, _. rewrite lookup_insert_eq.
  split; [done|]. split; [done|]. right. rewrite Hf1 in Hc. eauto.
Qed.

Lemma with_loaded_Ret {A} path (fn : mutation A) w w' a : with_loaded path fn w = (w', Ret a) ->
  exists sh st st', locks w !! path = Some sh /\ state sh = Some st /\ fn st = (st', Ret a)
    /\ files w' = files w /\ locks w' = <[path := set_loaded sh st' (stamp sh)]> (locks w).
Proof.
  unfold with_loaded, mbind, M_bind, get_shared, put_shared, lift.
  destruct (locks w !! path) as [sh|] eqn:El; simpl; [|done].
  destruct (state sh) as [st|] eqn:Es; [|done]. destruct (fn st) as [st' r] eqn:Ef.
  intros [= <- ->]. by exists sh, st, st'.
Qed.

Lemma io_quiet w w' u : io w = (w', Ret u) -> locks w' = locks w /\ files w' = files w.
Proof. unfold io. intros H. by apply syscall_quiet in H as (? & ? & _). Qed.

Lemma saveState_Ret path w w' u sh st : locks w !! path = Some sh -> state sh = Some st ->
  saveState path w = (w', Ret u) ->
  exists d f, json_view (pruneStoreState (normalizeStoreState st)) = Some d
    /\ files w' !! path = Some f /\ f_content f = Doc d.
Proof.
  intros Hl Hs. unfold saveState. intros H. inv_run.
  repeat match goal with H : io _ = _ |- _ => apply io_quiet in H as [? ?] end.
  match goal with H : with_loaded _ (changing _) _ = _ |- _ => apply with_loaded_Ret in H as (? & ? & ? & ? & ? & Ec & ? & ?) end.
  injection Ec as <-.
  match goal with H : with_loaded _ _ _ = _ |- _ => apply with_loaded_Ret in H as (? & ? & ? & Hk & ? & Ev & ? & ?) end.
  simplify_eq. match goal with H : locks _ = <[path := _]> (locks w) |- _ => rewrite H, lookup_insert_eq in Hk end.
  simplify_eq/=. match goal with H : Rename _ _ _ = _ |- _ => unfold Rename in H; apply syscall_quiet in H as (? & Hf & Hr) end.
  destruct (fails_at _); [done|]. simpl in Hf. destruct (json_view _) as [d|] eqn:Ed; [|done]. simplify_eq.
  eexists _, _. split; [done|]. rewrite Hf, lookup_insert_eq. done.
Qed.

Lemma ensureLoaded_Ret path w w' u sh st : locks w !! path = Some sh -> state sh = Some st ->
  ensureLoadedLocked path w = (w', Ret u) -> w' = w.
Proof.
  intros Hl Hs. unfold ensureLoadedLocked, mbind, M_bind, get_shared. rewrite Hl. simpl. rewrite Hs.
  by intros [= <- <-].
Qed.

Lemma record_stamp_quiet path w w' u : record_stamp path w = (w', Ret u) -> files w' = files w.
Proof.
  unfold record_stamp. intros H. inv_run.
  match goal with H : statStamp _ _ = _ |- _ => apply stat_quiet in H as [_ Hf] end.
  match goal with H : match ?r with _ => _ end _ = _ |- _ => destruct r; inv_run; done end.
Qed.

(** A flush that returns without error has saved the state in memory or, when
    the file had changed, the pending updates applied to what it found. *)
Lemma Flush_Ret path w w' u sh st : path <> "" -> locks w !! path = Some sh -> state sh = Some st ->
  dirty sh = true -> Flush (Some path) false w = (w', Ret u) ->
  exists x d f, files w' !! path = Some f /\ f_content f = Doc d
    /\ json_view (pruneStoreState (normalizeStoreState x)) = Some d
    /\ (x = st
        \/ exists base y, load_content (files w) path base /\ replay (pending sh) base = Ret y
                        /\ x = pruneStoreState y).
Proof.
  intros Hp Hl Hs Hd. unfold Flush, store_path. rewrite (proj2 (String.eqb_neq path "") Hp). intros H.
  apply dash_bind_Ret in H as (? & v & He & H). apply (ensureLoaded_Ret _ _ _ _ _ _ Hl Hs) in He as ->.
  apply dash_bind_Ret in H as (? & v & [= <- <-] & H). rewrite (shared_at _ _ _ Hl), Hd in H. cbn [negb] in H.
  apply dash_bind_Ret in H as (r & v & Hr%attempt_Ret & H). destruct r as [?|?|?]; [|by inv_run..].
  apply (refresh_Ret _ _ _ _ _ _ Hl Hs) in Hr as (Hf1 & sh1 & st1 & Hl1 & Hs1 & Hst1).
  apply dash_bind_Ret in H as (r & v' & Hr%attempt_Ret & H). destruct r as [?|?|?]; [|by inv_run..].
  apply (saveState_Ret _ _ _ _ _ _ Hl1 Hs1) in Hr as (d & f & Hj & Hf & Hc).
  apply dash_bind_Ret in H as (? & v2 & Hr & H). apply record_stamp_quiet in Hr. inv_run. simpl.
  exists st1, d, f. rewrite Hr. auto.
Qed.
End flush.

Section deferred.
Context {UT : UnicodeTables} {JL : JsonLib}.

(** What a deferred update leaves when it is acknowledged. *)
Lemma withDeferredState_Ret {E : Env} s ctx f w w' u : withDeferredState s ctx (changing f) w = (w', Ret u) ->
  exists path x sh pend, s = Some path /\ path <> "" /\ locks w' !! path = Some sh
    /\ state sh = Some (pruneStoreState (f x)) /\ dirty sh = true /\ pending sh = pend ++ [forget (changing f)].
Proof.
  unfold withDeferredState, withStatePersist, store_path. destruct s as [path|]; [|done].
  destruct (String.eqb_spec path "") as [|Hp]; [done|]. destruct ctx; [done|]. cbv zeta. intros H.
  apply dash_bind_Ret in H as (? & w1 & _ & H). apply dash_bind_Ret in H as (? & w2 & _ & H).
  apply dash_bind_Ret in H as (r & w3 & H3 & H). apply with_loaded_Ret in H3 as (sh & st0 & st0' & Hl & Hs & [= <- <-] & _ & Hl3).
  apply dash_bind_Ret in H as (? & w4 & H4 & H). apply with_loaded_Ret in H4 as (sh4 & st4 & st4' & Hl4 & Hs4 & [= <-] & _ & Hl4').
  rewrite Hl3, lookup_insert_eq in Hl4. simplify_eq/=.
  apply dash_bind_Ret in H as (? & w5 & [= <- <-] & H). rewrite Hl4', lookup_insert_eq in H. simpl in H.
  apply dash_bind_Ret in H as (x6 & w6 & H6 & H). apply dash_bind_Ret in H as (x7 & w7 & H7 & H). inv_run.
  exists path, st0, (set_flags (set_loaded sh (pruneStoreState (f st0)) (stamp sh)) true true
                     (pending sh ++ [forget (changing f)])), (pending sh).
  split; [done|]. split; [done|]. split; [|done].
  revert H7. unfold scheduleSaveLocked, mbind, M_bind, get_shared. simpl. rewrite lookup_insert_eq. simpl.
  destruct (savePending sh); intros [= <-]; simpl; by rewrite insert_insert_eq, lookup_insert_eq.
Qed.

Lemma replay_app pend m st x : replay (pend ++ [m]) st = Ret x ->
  exists y, replay pend st = Ret y /\ (m y).1 = x.
Proof.
  revert st. induction pend as [|n pend IH]; intros st; simpl.
  - destruct (m st) as [z []] eqn:Em; [|done..]. intros [= <-]. exists st. by rewrite Em.
  - destruct (n st) as [z []]; [apply IH|done..].
Qed.

(** A deferred update that was acknowledged is not lost: whatever other
    processes have made of the file meanwhile, the next flush that succeeds
    leaves a file whose state is the update applied to the state it was made
    on, or, when the file had changed, to the updates deferred before it
    replayed on the file that was found.  (No other process writes while the
    flush runs.) *)
Theorem deferred_update_survives {E1 E2 : Env} path ctx f w0 w1 fs w2 u v :
  quiet E2 ->
  withDeferredState (E:=E1) (Some path) ctx (changing f) w0 = (w1, Ret u) ->
  Flush (E:=E2) (Some path) false (set_files w1 fs) = (w2, Ret v) ->
  exists x d fl, files w2 !! path = Some fl /\ f_content fl = Doc d
    /\ json_view (pruneStoreState (normalizeStoreState (E:=E2) (pruneStoreState (f x)))) = Some d
    /\ ((exists sh, locks w1 !! path = Some sh /\ state sh = Some (pruneStoreState (f x)))
        \/ exists sh pend base, locks w1 !! path = Some sh /\ pending sh = pend ++ [forget (changing f)]
             /\ load_content (E:=E2) fs path base /\ replay pend base = Ret x).
Proof.
  intros Hq Hd Hf. apply withDeferredState_Ret in Hd as (p & x0 & sh & pend & [= <-] & Hp & Hl & Hs & Hdirty & Hpend).
  apply (Flush_Ret Hq path (set_files w1 fs) _ _ sh _ Hp Hl Hs Hdirty) in Hf as (x & d & fl & H1 & H2 & H3 & H4).
  destruct H4 as [->|(base & y & Hb & Hy & ->)].
  - exists x0, d, fl. split_and!; try done. left. eauto.
  - rewrite Hpend in Hy. apply replay_app in Hy as (z & Hz & <-). exists z, d, fl. split_and!; try done.
    right. exists sh, pend, base. done.
Qed.

Lemma tailSlice_snoc {A} (l : list A) x max : 0 < max -> exists l', tailSlice (l ++ [x]) max = l' ++ [x].
Proof.
  intros Hm. unfold tailSlice, len. destruct (_ || _) eqn:Eb; [eauto|]. rewrite length_app. simpl.
  exists (drop (length l + 1 - Z.to_nat max) l). rewrite drop_app_le; [done|]. lia.
Qed.

Lemma json_view_logs st d : json_view st = Some d -> mapM log_event_view (LogEvents st) = Some (LogEvents d).
Proof.
  intros H. unfold json_view in H.
  repeat match goal with
  | H : mbind _ _ = Some _ |- _ => apply bind_Some in H as (? & ? & H); cbv beta in H
  end.
  by injection H as <-.
Qed.

Lemma mapM_snoc {A} (f : A -> option A) l x r : mapM f (l ++ [x]) = Some r ->
  exists y, f x = Some y /\ last r = Some y.
Proof.
  intros H%mapM_Some. apply Forall2_app_inv_l in H as (r1 & r2 & _ & H2 & ->).
  inversion H2 as [|? y ? ? Hy H3]; subst. inversion H3; subst. exists y. by rewrite last_snoc.
Qed.

(** A log event whose deferred write was acknowledged is the last log event of
    the file after the next flush that succeeds, whatever files other
    processes have left in between, even when they replaced or removed the
    store's file. *)
Theorem deferred_log_event_survives {E1 E2 : Env} path ctx e w0 w1 fs w2 u v :
  quiet E2 ->
  WriteLogEventDeferred (E:=E1) (Some path) ctx (Some e) w0 = (w1, Ret u) ->
  Flush (E:=E2) (Some path) false (set_files w1 fs) = (w2, Ret v) ->
  exists now d fl e', files w2 !! path = Some fl /\ f_content fl = Doc d
    /\ log_event_view (with_timestamp e now) = Some e' /\ last (LogEvents d) = Some e'.
Proof.
  intros Hq Hw Hf. unfold WriteLogEventDeferred, writeLogEvent, write in Hw.
  apply dash_bind_Ret in Hw as (now & w' & _ & Hw). cbv beta in Hw. exists now.
  destruct (deferred_update_survives path ctx _ w' w1 fs w2 u v Hq Hw Hf) as (x & d & fl & H1 & H2 & H3 & _).
  apply json_view_logs in H3. cbn in H3.
  destruct (tailSlice_snoc (LogEvents x) (with_timestamp e now) maxStoredLogEvents eq_refl) as [l1 E1'].
  rewrite E1' in H3. destruct (tailSlice_snoc l1 (with_timestamp e now) maxStoredLogEvents eq_refl) as [l2 E2'].
  rewrite E2' in H3. apply mapM_snoc in H3 as (e' & He & Hl). exists d, fl, e'. done.
Qed.
End deferred.

(** ** Reopening a store *)

(** What encoding/json promises about text it has written: a compacted message
    is JSON that compacting does not change and is not empty, null is compact,
    a value that was read is written back as text that reads as the same
    value, and only an empty object is written as one. *)
Class JsonLaws (JL : JsonLib) : Prop := {
  compact_idem : forall v w, json_compact v = Some w -> w <> "" /\ json_compact w = Some w;
  compact_null : json_compact "null" = Some "null";
  any_idem : forall t v, json_unmarshal t = Some v ->
    exists t', json_marshal v = Some t' /\ json_unmarshal t' = Some v;
  object_empty : forall v t, json_marshal v = Some t -> json_unmarshal t = Some (Wire.AObject []) -> v = Wire.AObject []
}.

(** The view of a value is its own view. *)
Definition stable {A} (f : A -> option A) : Prop := forall a b, f a = Some b -> f b = Some b.

Section reopen.
Context {JL : JsonLib} {Laws : JsonLaws JL}.

Lemma text_view_idem s : text_view (text_view s) = text_view s.
Proof.
  unfold text_view. f_equal. rewrite <- (Strings.string_app_nil_r (Utf8.encode (Utf8.runes s))).
  rewrite Utf8Facts.runes_encode by apply Utf8Facts.runes_valid. simpl. by rewrite app_nil_r.
Qed.

Lemma text_view_omap_idem (o : option string) : text_view <$> (text_view <$> o) = text_view <$> o.
Proof. destruct o; simpl; [by rewrite text_view_idem|done]. Qed.

Lemma time_view_stable : stable time_view.
Proof. intros a b. unfold time_view. destruct (_ && _) eqn:E; [|done]. intros [= <-]. by rewrite E. Qed.

Lemma raw_view_stable : stable raw_view.
Proof.
  intros a b. unfold raw_view. destruct (String.eqb_spec a "").
  - intros [= <-]. simpl. apply compact_null.
  - intros [Hb Hc]%compact_idem. by rewrite (proj2 (String.eqb_neq b "") Hb).
Qed.

Lemma raw_view_omit_stable : stable raw_view_omit.
Proof.
  intros a b. unfold raw_view_omit. destruct (String.eqb_spec a "").
  - by intros [= <-].
  - intros [Hb Hc]%compact_idem. by rewrite (proj2 (String.eqb_neq b "") Hb).
Qed.

Lemma any_view_read t v : json_unmarshal t = Some v -> any_view v = Some v.
Proof.
  intros H. destruct (any_idem t v H) as (t' & Hm & Hu). unfold any_view. destruct v; simpl; by rewrite ?Hm.
Qed.

Lemma any_view_cases v w : any_view v = Some w ->
  (v = Wire.ANil /\ w = Wire.ANil) \/ exists t, json_marshal v = Some t /\ json_unmarshal t = Some w.
Proof.
  unfold any_view. destruct v; intros H; [left; by simplify_eq|..]; right; apply bind_Some in H as (t & ? & ?); eauto.
Qed.

Lemma any_view_stable : stable any_view.
Proof. intros a b [[-> ->]|(t & _ & Hu)]%any_view_cases; [done|]. by eapply any_view_read. Qed.

Lemma any_view_omit_stable : stable any_view_omit.
Proof.
  intros a b H. assert (a = Wire.ANil \/ a = Wire.AObject [] \/ any_view a = Some b) as [->|[->|Ha]].
  { unfold any_view_omit in H. destruct a; auto. by destruct entries; auto. }
  - simpl in H. by simplify_eq.
  - simpl in H. by simplify_eq.
  - destruct (any_view_cases _ _ Ha) as [[-> ->]|(t & Hm & Hu)]; [done|].
    pose proof (any_view_read _ _ Hu) as Hb. unfold any_view_omit. destruct b as [| | | | | | | | |es]; try done.
    destruct es; [|done]. rewrite (object_empty _ _ Hm Hu) in H. done.
Qed.

Lemma mapM_stable {A} (f : A -> option A) : stable f -> stable (mapM f).
Proof.
  intros Hf a b H. apply mapM_Some in H. apply mapM_Some.
  induction H as [|x y a b Hxy _ IH]; constructor; eauto.
Qed.

(** Every entry of the view of a map is its own view. *)
Lemma map_view_entries {A} (f : A -> option A) m m' : stable f -> map_view f m = Some m' ->
  forall k v, m' !! k = Some v -> text_view k = k /\ f v = Some v.
Proof.
  intros Hf H. unfold map_view in H. apply bind_Some in H as (es & Hes & [= <-]). apply mapM_Some in Hes.
  apply (fold_left_inv (fun acc : gmap string A => forall k v, acc !! k = Some v -> text_view k = k /\ f v = Some v)).
  { intros k v. by rewrite lookup_empty. }
  intros acc [k v] Hin Hacc k' v'. simpl. rewrite lookup_insert_Some. intros [[<- <-]|[_ Hv]]; [|by apply Hacc].
  apply list_elem_of_lookup in Hin as [i Hi]. destruct (Forall2_lookup_r _ _ _ _ _ Hes Hi) as ([k0 v0] & _ & Hkv).
  simpl in Hkv. apply bind_Some in Hkv as (v1 & Hv1 & [= <- <-]). split; [apply text_view_idem|by eapply Hf].
Qed.

Lemma map_view_id {A} (f : A -> option A) (m : gmap string A) :
  (forall k v, m !! k = Some v -> text_view k = k /\ f v = Some v) -> map_view f m = Some m.
Proof.
  intros Hm. unfold map_view. assert (sort_stable Wire.key_before (map_to_list m) ≡ₚ map_to_list m) as Hp
    by apply sort_stable_perm.
  assert (mapM (fun e : string * A => v ← f e.2; Some (text_view e.1, v)) (sort_stable Wire.key_before (map_to_list m))
          = Some (sort_stable Wire.key_before (map_to_list m))) as ->.
  { apply mapM_Some. apply Forall_Forall2_diag, Forall_forall. intros [k v] Hi. rewrite Hp, elem_of_map_to_list in Hi.
    destruct (Hm k v Hi) as [Hk Hv]. simpl. by rewrite Hv, Hk. }
  simpl. by rewrite (fold_left_entries _ m Hp).
Qed.

Lemma map_view_stable {A} (f : A -> option A) : stable f -> stable (map_view f).
Proof. intros Hf m m' H. apply map_view_id. by eapply map_view_entries. Qed.

(** Folding insertions only adds keys. *)
Lemma map_view_nonempty {A} (f : A -> option A) m m' : map_view f m = Some m' -> size m <> 0%nat -> size m' <> 0%nat.
Proof.
  intros H Hm. unfold map_view in H. apply bind_Some in H as (es & Hes & [= <-]). apply mapM_Some in Hes.
  apply Forall2_length in Hes. rewrite sort_stable_perm, length_map_to_list in Hes.
  destruct es as [|e es _] using rev_ind; [simpl in Hes; lia|].
  rewrite fold_left_app. simpl. rewrite map_size_ne_0_lookup. exists e.1. rewrite lookup_insert_eq. eauto.
Qed.

Lemma map_view_omit_stable {A} (f : A -> option A) : stable f -> stable (map_view_omit f).
Proof.
  intros Hf a b. unfold map_view_omit. destruct (Nat.eqb_spec (size (non_nil a)) 0) as [|Hs].
  - intros [= <-]. done.
  - intros H. destruct (map_view f (non_nil a)) as [m'|] eqn:Hv; [|done]. injection H as <-. simpl.
    pose proof (map_view_nonempty f _ _ Hv Hs) as Hne. rewrite (proj2 (Nat.eqb_neq _ _) Hne).
    by rewrite (map_view_stable f Hf _ _ Hv).
Qed.

Lemma text_map_stable : stable (fun s => Some (text_view s)).
Proof. intros a b [= <-]. by rewrite text_view_idem. Qed.

#[local] Arguments text_view : simpl never.

Lemma dev_source_view_stable : stable (fun s => Some (dev_source_view s)).
Proof. intros a b [= <-]. unfold dev_source_view. cbn. by rewrite !text_view_idem. Qed.
Lemma dev_source_view_idem s : dev_source_view (dev_source_view s) = dev_source_view s.
Proof. apply (inj Some). exact (dev_source_view_stable s _ eq_refl). Qed.

#[local] Arguments dev_source_view : simpl never.

(** Views of records: each part of the view is its own view. *)
Ltac record_stable :=
  let H := fresh in intros ? ? H;
  repeat match goal with
  | H : mbind _ _ = Some _ |- _ => apply bind_Some in H as (? & ? & H); cbv beta in H
  end;
  injection H as <-; cbn;
  repeat match goal with
  | H : time_view _ = Some _ |- _ => apply time_view_stable in H; try rewrite H; clear H; cbn
  | H : raw_view _ = Some _ |- _ => apply raw_view_stable in H; try rewrite H; clear H; cbn
  | H : raw_view_omit _ = Some _ |- _ => apply raw_view_omit_stable in H; try rewrite H; clear H; cbn
  | H : any_view _ = Some _ |- _ => apply any_view_stable in H; try rewrite H; clear H; cbn
  | H : any_view_omit _ = Some _ |- _ => apply any_view_omit_stable in H; try rewrite H; clear H; cbn
  | H : map_view _ _ = Some _ |- _ => apply (map_view_stable _ text_map_stable) in H; try rewrite H; clear H; cbn
  end;
  rewrite ?text_view_idem, ?text_view_omap_idem, ?dev_source_view_idem; try reflexivity.

Lemma app_view_stable : stable app_view.
Proof. unfold app_view. record_stable. Qed.
Lemma process_event_view_stable : stable process_event_view.
Proof. unfold process_event_view. record_stable. Qed.
Lemma process_output_view_stable : stable process_output_view.
Proof. unfold process_output_view. record_stable. Qed.
Lemma dev_event_view_stable : stable dev_event_view.
Proof. unfold dev_event_view. record_stable. Qed.
Lemma trace_summary_view_stable : stable trace_summary_view.
Proof. unfold trace_summary_view. record_stable. Qed.
Lemma trace_event_view_stable : stable trace_event_view.
Proof. unfold trace_event_view. record_stable. Qed.
Lemma log_event_view_stable : stable log_event_view.
Proof. unfold log_event_view. record_stable. Qed.
Lemma request_view_stable : stable request_view.
Proof. unfold request_view. record_stable. Qed.

(** Reading back a state that was read back changes nothing. *)
Lemma json_view_stable : stable json_view.
Proof.
  intros st d H. unfold json_view in H.
  repeat match goal with
  | H : mbind _ _ = Some _ |- _ => apply bind_Some in H as (? & ? & H); cbv beta in H
  end.
  injection H as <-. unfold json_view. cbn [Apps AppSessions ProcessEvents ProcessOutputs DevSources DevEvents_
    TraceSummaries TraceEvents LogEvents Onboarding StoredRequests Version NextProcessEventID NextProcessOutputID
    NextDevEventID].
  repeat match goal with
  | H : map_view_omit ?f _ = Some _ |- _ =>
      apply map_view_omit_stable in H;
      [rewrite H; clear H; cbn [mbind option_bind]
      |first [apply app_view_stable|apply dev_source_view_stable|apply time_view_stable|apply request_view_stable]]
  | H : mapM ?f _ = Some _ |- _ =>
      apply mapM_stable in H;
      [rewrite H; clear H; cbn [mbind option_bind]
      |first [apply process_event_view_stable|apply process_output_view_stable|apply dev_event_view_stable
             |apply trace_summary_view_stable|apply trace_event_view_stable|apply log_event_view_stable]]
  end.
  reflexivity.
Qed.

(** ** The state of a file that a store has written *)
Definition opened (d : storeState) : storeState :=
  {| Version := Version d; Apps := Some (non_nil (Apps d)); AppSessions := Some (non_nil (AppSessions d));
     ProcessEvents := ProcessEvents d; ProcessOutputs := ProcessOutputs d;
     DevSources := Some (non_nil (DevSources d)); DevEvents_ := DevEvents_ d;
     TraceSummaries := TraceSummaries d; TraceEvents := TraceEvents d; LogEvents := LogEvents d;
     Onboarding := Some (non_nil (Onboarding d)); StoredRequests := Some (non_nil (StoredRequests d));
     NextProcessEventID := NextProcessEventID d; NextProcessOutputID := NextProcessOutputID d;
     NextDevEventID := NextDevEventID d |}.

Lemma map_view_omit_opened {A} (f : A -> option A) m : map_view_omit f (Some (non_nil m)) = map_view_omit f m.
Proof. by destruct m. Qed.

Lemma json_view_opened d : json_view (opened d) = json_view d.
Proof. unfold json_view, opened. simpl. by rewrite !map_view_omit_opened. Qed.

Lemma tailSlice_id {A} (l : list A) max : len l <= max -> tailSlice l max = l.
Proof. intros H. unfold tailSlice. rewrite (proj2 (Z.leb_le _ _) H). by rewrite orb_true_r. Qed.

Lemma truncate_id l : Forall (fun e => slen (pe_PayloadJSON e) <= maxProcessEventPayloadBytes) l ->
  truncateOversizedProcessEvents l = l.
Proof.
  induction 1 as [|e l He _ IH]; simpl; [done|]. f_equal; [|done]. unfold truncate_event.
  by rewrite (proj2 (Z.leb_le _ _) He).
Qed.

Lemma mapM_len {A} (f : A -> option A) l l' : mapM f l = Some l' -> len l' = len l.
Proof. intros H%mapM_Some%Forall2_length. unfold len. lia. Qed.

(** The lists, counters and presence of maps that a view keeps. *)
Lemma json_view_bounds st d : json_view st = Some d -> bounded st ->
  len (ProcessEvents d) <= maxStoredProcessEvents /\ len (ProcessOutputs d) <= maxStoredProcessOutput
  /\ len (DevEvents_ d) <= maxStoredDevEvents /\ len (TraceSummaries d) <= maxStoredTraceSummaries
  /\ len (TraceEvents d) <= maxStoredTraceEvents /\ len (LogEvents d) <= maxStoredLogEvents.
Proof.
  intros H (H1 & _ & H2 & H3 & H4 & H5 & H6). unfold json_view in H.
  repeat match goal with
  | H : mbind _ _ = Some _ |- _ => apply bind_Some in H as (? & ? & H); cbv beta in H
  end.
  injection H as <-. simpl. repeat match goal with H : mapM _ _ = Some _ |- _ => apply mapM_len in H; rewrite H end.
  done.
Qed.

Lemma map_view_omit_size {A} (f : A -> option A) m m' : map_view_omit f m = Some m' ->
  (size (non_nil m') = 0%nat <-> size (non_nil m) = 0%nat).
Proof.
  unfold map_view_omit. destruct (Nat.eqb_spec (size (non_nil m)) 0) as [E0|E0].
  - intros [= <-]. done.
  - intros H. destruct (map_view f (non_nil m)) as [x|] eqn:Hv; [|done]. injection H as <-. simpl.
    pose proof (map_view_nonempty f _ _ Hv E0). split; intros; lia.
Qed.

(** What [normalizeStoreState] establishes and a view keeps. *)
Definition normal (st : storeState) : Prop :=
  Version st <> 0
  /\ (size (non_nil (AppSessions st)) = 0%nat -> size (non_nil (Apps st)) = 0%nat).

Lemma normalize_normal {E : Env} {EO : EnvOrder E} st : normal (normalizeStoreState st).
Proof.
  split; simpl; [destruct (Z.eqb_spec (Version st) 0); lia|].
  destruct (Nat.eqb_spec (size (non_nil (AppSessions st))) 0) as [Hz|Hz]; simpl; [|done].
  destruct (Nat.ltb_spec 0 (size (non_nil (Apps st)))) as [Ha|Ha]; [|lia].
  intros Hs. exfalso. revert Hs.
  assert (length (map_order (non_nil (Apps st))) <> 0%nat) as Hl.
  { rewrite (map_order_perm _ (non_nil (Apps st))), length_map_to_list. lia. }
  destruct (map_order (non_nil (Apps st))) as [|e l _] using rev_ind; [done|].
  rewrite fold_left_app. simpl. apply map_size_ne_0_lookup. eexists. rewrite lookup_insert_eq. eauto.
Qed.

Lemma json_view_normal st d : json_view st = Some d -> normal st -> normal d.
Proof.
  intros H [Hv Hs]. unfold json_view in H.
  repeat match goal with
  | H : mbind _ _ = Some _ |- _ => apply bind_Some in H as (? & ? & H); cbv beta in H
  end.
  injection H as <-. split; [done|]. simpl.
  repeat match goal with H : map_view_omit _ _ = Some _ |- _ => apply map_view_omit_size in H end.
  tauto.
Qed.

(** The process events of a file fit, and no counter has run out. *)
Definition file_fits (d : storeState) : Prop :=
  Forall (fun e => slen (pe_PayloadJSON e) <= maxProcessEventPayloadBytes) (ProcessEvents d)
  /\ 0 < NextProcessEventID d /\ 0 < NextProcessOutputID d /\ 0 < NextDevEventID d.

Lemma load_opened {E : Env} d : normal d -> file_fits d ->
  len (ProcessEvents d) <= maxStoredProcessEvents /\ len (ProcessOutputs d) <= maxStoredProcessOutput
  /\ len (DevEvents_ d) <= maxStoredDevEvents /\ len (TraceSummaries d) <= maxStoredTraceSummaries
  /\ len (TraceEvents d) <= maxStoredTraceEvents /\ len (LogEvents d) <= maxStoredLogEvents ->
  pruneStoreState (normalizeStoreState d) = opened d.
Proof.
  intros [Hv Hs] (Hp & N1 & N2 & N3) (L1 & L2 & L3 & L4 & L5 & L6).
  unfold pruneStoreState, normalizeStoreState, opened. simpl.
  rewrite (proj2 (Z.eqb_neq _ _) Hv), !tailSlice_id, truncate_id by done.
  rewrite !(proj2 (Z.leb_gt _ _)) by done.
  destruct (Nat.eqb_spec (size (non_nil (AppSessions d))) 0) as [E0|E0]; simpl; [|done].
  by rewrite (Hs E0).
Qed.

Lemma view_reopens {E1 E2 : Env} {EO : EnvOrder E1} st d :
  json_view (pruneStoreState (normalizeStoreState (E:=E1) st)) = Some d ->
  file_fits d ->
  pruneStoreState (normalizeStoreState (E:=E2) d) = opened d
  /\ json_view (pruneStoreState (normalizeStoreState (E:=E2) (opened d))) = Some d.
Proof.
  intros Hj Hf. pose proof (json_view_bounds _ _ Hj (prune_bounded _)) as Hb.
  pose proof (json_view_normal _ _ Hj (normalize_normal st)) as Hn.
  split; [by apply load_opened|]. rewrite load_opened; [|done..]. change (opened (opened d)) with (opened d).
  rewrite json_view_opened. by apply (json_view_stable _ _ Hj).
Qed.

(** The file a store saves is read back: loading it gives the state whose
    lists, maps and counters are those written, and saving that state again
    writes the same file, so closing and opening a store any number of times
    restores the same state. *)
Theorem reopen_restores {E1 E2 : Env} {EO : EnvOrder E1} path w w1 w2 u sh st st1 at_ :
  quiet E1 -> quiet E2 -> locks w !! path = Some sh -> state sh = Some st ->
  saveState (E:=E1) path w = (w1, Ret u) ->
  loadStateWithStamp (E:=E2) path w1 = (w2, Ret (st1, at_)) ->
  exists d, json_view (pruneStoreState (normalizeStoreState (E:=E1) st)) = Some d
    /\ (file_fits d -> st1 = opened d
                      /\ json_view (pruneStoreState (normalizeStoreState (E:=E2) st1)) = Some d).
Proof.
  intros Q1 Q2 Hl Hs Hsave Hload. apply (saveState_Ret Q1 _ _ _ _ _ _ Hl Hs) in Hsave as (d & f & Hj & Hf & Hc).
  apply (load_quiet Q2) in Hload as (_ & _ & Hst1). unfold load_content in Hst1. rewrite Hf, Hc in Hst1.
  exists d. split; [done|]. intros Hfit. destruct (view_reopens (E2:=E2) st d Hj Hfit) as [H1 H2].
  rewrite Hst1, H1. done.
Qed.
End reopen.

(** ** Pages *)
Section pages.
Context {A : Type} (id : A -> Z).

Definition ascending : list A -> Prop := StronglySorted (fun a b => id a < id b).

Lemma ascending_filter p l : ascending l -> ascending (List.filter p l).
Proof.
  induction 1 as [|x l _ IH Hx]; simpl; [constructor|]. destruct (p x); [|done]. constructor; [done|].
  apply Forall_forall. intros y Hy%list_elem_of_In%List.filter_In. rewrite Forall_forall in Hx.
  apply Hx, list_elem_of_In, Hy.
Qed.

Lemma sort_ascending l : ascending l -> sort_stable (fun a b => id a <? id b) l = l.
Proof.
  intros H. apply sort_stable_id. induction H as [|x l _ IH Hx]; constructor; [done|].
  eapply Forall_impl; [exact Hx|]. intros y Hy. unfold not_after. cbv beta in *. lia.
Qed.

Lemma insert_stable_last (before : A -> A -> bool) x l : Forall (fun y => before y x = true) l ->
  insert_stable before x l = l ++ [x].
Proof. induction 1 as [|y l Hy _ IH]; simpl; [done|]. by rewrite Hy, IH. Qed.

Lemma sort_descending l : ascending l -> sort_stable (fun a b => id b <? id a) l = rev l.
Proof.
  induction 1 as [|x l _ IH Hx]; simpl; [done|]. rewrite IH. apply insert_stable_last.
  apply Forall_forall. intros y Hy. apply list_elem_of_In, in_rev, list_elem_of_In in Hy.
  rewrite Forall_forall in Hx. specialize (Hx y Hy). simpl in Hx. lia.
Qed.

Lemma limited_take limit (l : list A) : 0 <= limit -> limited limit l = take (Z.to_nat limit) l.
Proof.
  intros H. unfold limited, len. destruct (Z.ltb_spec limit (Z.of_nat (length l))); [done|].
  rewrite take_ge by lia. done.
Qed.

(** With a cursor, a page is the first items; without, the last ones, in order. *)
Lemma page_ascending after limit l : ascending l -> 0 <= after -> 0 <= limit ->
  page id after limit l = if 0 <? after then take (Z.to_nat limit) l
                          else drop (length l - Z.to_nat limit) l.
Proof.
  intros Hl Ha Hlim. unfold page. rewrite limited_take by done. destruct (Z.ltb_spec 0 after).
  - rewrite sort_ascending by done. by rewrite (proj2 (Z.eqb_neq _ _)) by lia.
  - rewrite sort_descending by done. rewrite (proj2 (Z.eqb_eq _ _)) by lia.
    rewrite firstn_rev, rev_involutive. done.
Qed.
End pages.

(** Following the output of an app: ask for the outputs after the last one
    seen until a page is empty. *)
Definition output_matches (appID sessionID : string) (after : Z) (o : ProcessOutput) : bool :=
  String.eqb (po_AppID o) appID && negb (po_ID o <=? after) && in_session sessionID (po_SessionID o).

Fixpoint follow (fuel : nat) (st : storeState) (appID sessionID : string) (after limit : Z) : list ProcessOutput :=
  match fuel with
  | O => []
  | S n =>
    let items := list_process_output st appID sessionID after limit in
    match last items with
    | None => []
    | Some o => items ++ follow n st appID sessionID (po_ID o) limit
    end
  end.

Lemma output_matches_later appID sessionID after id o : after < id ->
  output_matches appID sessionID id o = output_matches appID sessionID after o && (id <? po_ID o).
Proof. intros. unfold output_matches. destruct (String.eqb _ _), (in_session _ _); simpl; lia. Qed.

Lemma filter_all_after appID sessionID after id l : after < id -> Forall (fun y => id < po_ID y) l ->
  List.filter (output_matches appID sessionID id) l = List.filter (output_matches appID sessionID after) l.
Proof.
  intros Ha. induction 1 as [|y l Hy _ IH]; simpl; [done|].
  rewrite (output_matches_later _ _ after), (proj2 (Z.ltb_lt _ _) Hy), andb_true_r, IH by done. done.
Qed.

Lemma filter_after appID sessionID after o l :
  ascending po_ID l -> after < po_ID o ->
  forall pre post, List.filter (output_matches appID sessionID after) l = pre ++ o :: post ->
  List.filter (output_matches appID sessionID (po_ID o)) l = post.
Proof.
  intros Hl Ho. induction Hl as [|x l Hl IH Hx]; intros pre post; simpl; [by destruct pre|].
  rewrite (output_matches_later _ _ after (po_ID o)) by done.
  destruct (output_matches appID sessionID after x) eqn:Ex; simpl; [|apply IH].
  destruct pre as [|y pre]; intros H; injection H as -> H.
  - rewrite Z.ltb_irrefl, <- H. by apply filter_all_after.
  - assert (po_ID y < po_ID o) as Hlt.
    { rewrite Forall_forall in Hx. apply Hx, list_elem_of_In.
      refine (proj1 (proj1 (List.filter_In (output_matches appID sessionID after) o l) _)). rewrite H.
      apply in_or_app. right. by left. }
    rewrite (proj2 (Z.ltb_ge _ _)) by lia. by apply (IH pre).
Qed.

Lemma list_process_output_cursor st appID sessionID after limit :
  ascending po_ID (ProcessOutputs st) -> 0 < after ->
  list_process_output st appID sessionID after limit
  = take (Z.to_nat (limit_or limit 200)) (List.filter (output_matches appID sessionID after) (ProcessOutputs st)).
Proof.
  intros Hs Ha. unfold list_process_output. rewrite page_ascending.
  - by rewrite (proj2 (Z.ltb_lt _ _) Ha).
  - by apply ascending_filter.
  - lia.
  - unfold limit_or. destruct (Z.leb_spec limit 0); lia.
Qed.

(** Polling the output of an app (and session) from a cursor, page by page,
    gives every stored output after the cursor, once each and in the order it
    was written, whatever the page size. *)
Theorem follow_complete st appID sessionID after limit :
  ascending po_ID (ProcessOutputs st) -> 0 < after ->
  follow (S (length (ProcessOutputs st))) st appID sessionID after limit
  = List.filter (output_matches appID sessionID after) (ProcessOutputs st).
Proof.
  intros Hs Ha.
  enough (forall n after, 0 < after ->
            (length (List.filter (output_matches appID sessionID after) (ProcessOutputs st)) < n)%nat ->
            follow n st appID sessionID after limit
            = List.filter (output_matches appID sessionID after) (ProcessOutputs st)) as Hn.
  { apply Hn; [done|]. pose proof (List.filter_length_le (output_matches appID sessionID after) (ProcessOutputs st)). lia. }
  clear after Ha. induction n as [|n IH]; intros after Ha Hlen; [lia|]. simpl.
  rewrite list_process_output_cursor by done.
  set (k := Z.to_nat (limit_or limit 200)). assert (0 < k)%nat as Hk.
  { unfold k, limit_or. destruct (Z.leb_spec limit 0); lia. }
  destruct (last (take k (List.filter (output_matches appID sessionID after) (ProcessOutputs st)))) as [o|] eqn:El.
  2: { apply last_None in El. destruct (List.filter _ _) eqn:Ef; [done|]. destruct k; [lia|done]. }
  apply last_Some in El as [pre Hpre].
  pose proof (take_drop k (List.filter (output_matches appID sessionID after) (ProcessOutputs st))) as Hall.
  rewrite Hpre, <- app_assoc in Hall. simpl in Hall.
  assert (after < po_ID o) as Ho.
  { assert (In o (List.filter (output_matches appID sessionID after) (ProcessOutputs st))) as [_ Hm]%List.filter_In
      by (rewrite <- Hall; apply in_or_app; right; by left).
    unfold output_matches in Hm. destruct (Z.leb_spec (po_ID o) after); [|done].
    by rewrite andb_false_r in Hm. }
  pose proof (filter_after appID sessionID after o _ Hs Ho _ _ (eq_sym Hall)) as Hnext.
  rewrite IH; [|lia|].
  - rewrite Hnext, Hpre, <- app_assoc. simpl. exact Hall.
  - rewrite Hnext. rewrite <- Hall, length_app in Hlen. simpl in Hlen. lia.
Qed.

(** Identifiers of outputs are ascending and below the next one. *)
Definition output_ids_ok (st : storeState) : Prop :=
  ascending po_ID (ProcessOutputs st) /\ Forall (fun o => po_ID o < NextProcessOutputID st) (ProcessOutputs st).

Lemma ascending_snoc {A} (id : A -> Z) l x : ascending id l -> Forall (fun y => id y < id x) l -> ascending id (l ++ [x]).
Proof.
  induction 1 as [|y l _ IH Hy]; intros Hx; simpl; [by repeat constructor|]. inversion Hx; subst.
  constructor; [by apply IH|]. apply Forall_app. split; [done|]. by repeat constructor.
Qed.

Lemma ascending_drop {A} (id : A -> Z) n l : ascending id l -> ascending id (drop n l).
Proof.
  revert l. induction n as [|n IH]; intros l Hl; [done|]. destruct l as [|x l]; [constructor|].
  inversion Hl; subst. by apply IH.
Qed.

Lemma Forall_tailSlice {A} (P : A -> Prop) l max : Forall P l -> Forall P (tailSlice l max).
Proof. intros H. unfold tailSlice. destruct (_ || _); [done|by apply Forall_drop]. Qed.

(** A new output has the greatest identifier, as long as they fit an int64, and
    pruning keeps the order. *)
Lemma append_output_ids o st : output_ids_ok st -> - 2 ^ 63 <= NextProcessOutputID st < 2 ^ 63 - 1 ->
  output_ids_ok (pruneStoreState (append_process_output o st).1).
Proof.
  intros [Ha Hf] Hn. unfold output_ids_ok, append_process_output, changing, pruneStoreState. simpl. split.
  - unfold tailSlice. assert (ascending po_ID (ProcessOutputs st ++
      [{| po_ID := NextProcessOutputID st; po_AppID := po_AppID o; po_SessionID := po_SessionID o; po_PID := po_PID o;
          po_Stream := po_Stream o; po_Output := po_Output o; po_CreatedAt := po_CreatedAt o |}])) as Hs
      by (by apply ascending_snoc).
    destruct (_ || _); [done|by apply ascending_drop].
  - apply Forall_tailSlice. unfold succ64. rewrite wrap_int_id by lia. apply Forall_app. split.
    + eapply Forall_impl; [exact Hf|]. intros x Hx. cbv beta in *. lia.
    + constructor; [|constructor]. simpl. lia.
Qed.

(** ** Deleting the events of a session *)
Section delete.
Context {UT : UnicodeTables} {JL : JsonLib} {E : Env} {EO : EnvOrder E}.

Lemma filter_map_comm {A B} (f : A -> B) p l : List.filter p (map f l) = map f (List.filter (fun x => p (f x)) l).
Proof. induction l as [|x l IH]; simpl; [done|]. rewrite IH. by destruct (p (f x)). Qed.

Lemma filter_filter_implied {A} (p q : A -> bool) l : (forall x, q x = true -> p x = true) ->
  List.filter q (List.filter p l) = List.filter q l.
Proof.
  intros H. induction l as [|x l IH]; simpl; [done|]. destruct (p x) eqn:Ep; simpl; rewrite IH; [done|].
  destruct (q x) eqn:Eq; [|done]. by rewrite (H x Eq) in Ep.
Qed.

Lemma filter_filter_excluded {A} (p q : A -> bool) l : (forall x, q x = true -> p x = false) ->
  List.filter q (List.filter p l) = [].
Proof.
  intros H. induction l as [|x l IH]; simpl; [done|]. destruct (p x) eqn:Ep; simpl; [|done].
  destruct (q x) eqn:Eq; [|done]. by rewrite (H x Eq) in Ep.
Qed.

Lemma devEventMatchesQuery_app e q grep : devEventMatchesQuery e q grep = true ->
  de_AppID e = dq_AppID q /\ (dq_SessionID q = "" \/ de_SessionID e = dq_SessionID q).
Proof.
  unfold devEventMatchesQuery, in_session. intros H.
  destruct (String.eqb_spec (de_AppID e) (dq_AppID q)); [|done]. split; [done|].
  destruct (String.eqb_spec (dq_SessionID q) ""); [by left|].
  destruct (String.eqb_spec (de_SessionID e) (dq_SessionID q)); [by right|done].
Qed.

Lemma delete_keys_lookup {A} (keys : list string) (m : gmap string A) k v :
  fold_left (fun m k => delete k m) keys m !! k = Some v -> m !! k = Some v /\ k ∉ keys.
Proof.
  revert m. induction keys as [|k' keys IH]; intros m H; simpl in H; [split; [done|by apply not_elem_of_nil]|].
  apply IH in H as [[Hne Hm]%lookup_delete_Some Hk]. split; [done|]. apply not_elem_of_cons. auto.
Qed.

Lemma page_nil {A} (id : A -> Z) after limit : page id after limit [] = [].
Proof.
  assert (limited limit (@nil A) = []) as Hl by (unfold limited; destruct (_ <? _); [apply take_nil|done]).
  unfold page. destruct (0 <? after), (after =? 0); simpl; by rewrite Hl.
Qed.

Lemma filter_nil {A} (p : A -> bool) l : (forall x, x ∈ l -> p x = false) -> List.filter p l = [].
Proof.
  induction l as [|x l IH]; intros H; simpl; [done|]. rewrite H by (by left). apply IH. intros y Hy. apply H. by right.
Qed.

(** Deleting the events of a session removes every event and source of it and
    leaves what a query about another app or another session answers. *)
Theorem delete_dev_events_spec st appID sessionID query :
  sessionID <> "" ->
  let st' := (delete_dev_events appID sessionID st).1 in
  (dq_AppID query = appID -> dq_SessionID query = sessionID -> list_dev_events st' query = [])
  /\ (dq_AppID query <> appID \/ (dq_SessionID query <> "" /\ dq_SessionID query <> sessionID) ->
      list_dev_events st' query = list_dev_events st query)
  /\ list_dev_sources st' appID sessionID = [].
Proof.
  intros Hs st'. set (grep := Strings.ToLower (Strings.TrimSpace (dq_Grep query))).
  assert (DevEvents_ st' = List.filter (fun e => negb (event_of_session appID sessionID e)) (DevEvents_ st)) as Hst'
    by done.
  unfold list_dev_events. rewrite Hst'. split_and!.
  - intros Ha Hq. rewrite filter_map_comm, filter_filter_excluded; [apply page_nil|].
    intros x [Hx [Hx'|Hx']]%devEventMatchesQuery_app; [congruence|]. unfold event_of_session.
    by rewrite Hx, Hx', Ha, Hq, !String.eqb_refl.
  - intros Hq. f_equal. rewrite !filter_map_comm. f_equal. apply filter_filter_implied.
    intros x [Hx Hx']%devEventMatchesQuery_app. unfold event_of_session. rewrite Hx.
    destruct (String.eqb_spec (dq_AppID query) appID); simpl; [|done].
    change (de_SessionID (toDevEvent x)) with (de_SessionID (sde_DevEvent x)) in *.
    destruct (String.eqb_spec (de_SessionID (sde_DevEvent x)) sessionID); simpl; [|done].
    destruct Hx'; destruct Hq as [?|[? ?]]; congruence.
  - unfold list_dev_sources. rewrite filter_nil; [done|]. intros [k v] Hk.
    rewrite (map_order_perm _ _), elem_of_map_to_list in Hk. simpl.
    assert (source_of_session appID sessionID k = false) as Hno.
    { destruct (source_of_session appID sessionID k) eqn:Ek; [|done]. exfalso.
      unfold st', delete_dev_events in Hk. simpl in Hk. destruct (DevSources st) as [m|]; simpl in Hk; [|by rewrite lookup_empty in Hk].
      apply delete_keys_lookup in Hk as [Hm Hk]. apply Hk. apply list_elem_of_In, List.filter_In. split; [|done].
      apply in_map_iff. exists (k, v). split; [done|]. apply list_elem_of_In.
      by rewrite (map_order_perm _ _), elem_of_map_to_list. }
    unfold source_of_session in Hno. destruct (splitDevSourceKey k) as [[kApp kSession] kSource].
    unfold in_session. by rewrite (proj2 (String.eqb_neq _ _) Hs).
Qed.
End delete.

(** ** A concrete world *)
Section demo.
Definition demo_json : JsonLib := {|
  json_valid := fun _ => true;
  json_unmarshal := fun t => Some (Wire.AString t);
  json_marshal := fun v => match v with Wire.AString t => Some t | _ => Some "x" end;
  json_compact := fun v => if String.eqb v "" || String.eqb v "{" then None else Some v;
  json_time := fun _ => "t";
  Sprint := fun _ => "";
  ParseFloat64 := fun _ => None
|}.
#[local] Existing Instance demo_json.
#[local] Existing Instance ascii_tables.

#[local] Instance demo_laws : JsonLaws demo_json.
Proof.
  constructor; simpl; try done.
  - intros v w. destruct (String.eqb_spec v ""); simpl; [done|]. destruct (String.eqb_spec v "{"); [done|].
    intros [= <-]. split; [done|]. rewrite (proj2 (String.eqb_neq v "")), (proj2 (String.eqb_neq v "{")) by done. done.
  - intros t v [= <-]. eauto.
Qed.

(** The calls in [bad] fail and no other process interferes. *)
Definition demo_env (bad : list nat) : Env := {|
  fails_at := fun k => existsb (Nat.eqb k) bad;
  others_at := fun _ fs => fs;
  stamp_at := fun k => (Z.of_nat k, Z.of_nat k);
  clock_at := fun k => Z.of_nat k + 1;
  random_at := fun _ => "ab";
  user_cache_dir := None;
  map_order := fun A m => map_to_list m
|}.

#[local] Instance demo_order bad : EnvOrder (demo_env bad).
Proof. by intros A m. Qed.

Lemma demo_quiet bad : quiet (demo_env bad).
Proof. done. Qed.

Definition demo_path : string := "c/devdash.json".

Definition demo_opened : world := (perform (E:=demo_env []) (CallOpenStore "c") (start ∅)).1.

Definition demo_log : LogEvent :=
  {| le_AppID := "app"; le_SessionID := ""; le_AppRootHash := ""; le_Branch := ""; le_Worktree := "";
     le_TraceID := ""; le_SpanID := ""; le_Level := "info"; le_Message := "hello"; le_Attrs := Wire.ANil;
     le_Timestamp := 0 |}.

Definition demo_request (payload : string) : StoredRequest :=
  {| sr_ID := "r"; sr_AppID := "app"; sr_Title := "t"; sr_RPC := "rpc"; sr_Svc := "svc"; sr_Shared := false;
     sr_Data := {| rd_Method := "GET"; rd_PathParams := ""; rd_Payload := payload |} |}.

Lemma store_invariant_witness :
  panics (perform (E:=demo_env [2%nat]) (CallWriteLogEvent (Some demo_path) false (Some demo_log) true) demo_opened).2
  = false.
Proof.
  apply (store_invariant ∅ demo_opened). eapply rtc_l; [|apply rtc_refl].
  exact (step_call (demo_env []) (CallOpenStore "c") (start ∅)).
Defined.

(** Another process has replaced the file by one of an empty state. *)
Definition demo_replaced : gmap string file :=
  {[ demo_path := {| f_content := Doc zero_state; f_size := 99; f_modTime := 99 |} ]}.

Definition demo_deferred : world :=
  (WriteLogEventDeferred (E:=demo_env []) (Some demo_path) false (Some demo_log) demo_opened).1.

Lemma deferred_log_event_survives_witness :
  exists now d fl e',
    files (Flush (E:=demo_env []) (Some demo_path) false (set_files demo_deferred demo_replaced)).1 !! demo_path = Some fl
    /\ f_content fl = Doc d /\ log_event_view (with_timestamp demo_log now) = Some e' /\ last (LogEvents d) = Some e'.
Proof.
  apply (deferred_log_event_survives (E1:=demo_env []) (E2:=demo_env []) demo_path false demo_log demo_opened demo_deferred demo_replaced _ tt tt).
  - apply demo_quiet.
  - vm_compute. reflexivity.
  - vm_compute. reflexivity.
Defined.

Definition demo_shared : storeShared := default no_shared (locks demo_opened !! demo_path).
Definition demo_memory : storeState := default zero_state (state demo_shared).
Definition demo_saved : world := (saveState (E:=demo_env []) demo_path demo_opened).1.
Definition demo_reloaded : world * outcome error (storeState * storeStamp) :=
  loadStateWithStamp (E:=demo_env []) demo_path demo_saved.
Definition demo_loaded : storeState * storeStamp :=
  match demo_reloaded.2 with Ret l => l | _ => (zero_state, no_stamp) end.

Lemma reopen_restores_witness :
  exists d, json_view (pruneStoreState (normalizeStoreState (E:=demo_env []) demo_memory)) = Some d
    /\ (file_fits d -> demo_loaded.1 = opened d
          /\ json_view (pruneStoreState (normalizeStoreState (E:=demo_env []) demo_loaded.1)) = Some d).
Proof.
  apply (reopen_restores (E1:=demo_env []) (E2:=demo_env []) demo_path demo_opened demo_saved demo_reloaded.1 tt
           demo_shared demo_memory demo_loaded.1 demo_loaded.2).
  - apply demo_quiet.
  - apply demo_quiet.
  - vm_compute. reflexivity.
  - vm_compute. reflexivity.
  - vm_compute. reflexivity.
  - vm_compute. reflexivity.
Defined.

Definition demo_output (id : Z) : ProcessOutput :=
  {| po_ID := id; po_AppID := "app"; po_SessionID := ""; po_PID := "1"; po_Stream := "stdout"; po_Output := "x";
     po_CreatedAt := 1 |}.

Definition demo_outputs : storeState := set_process_output demo_memory (map demo_output [1; 2; 5; 9]) 10.

Lemma follow_complete_witness : follow 5 demo_outputs "app" "" 1 2 = map demo_output [2; 5; 9].
Proof.
  apply (follow_complete demo_outputs "app" "" 1 2); [|done]. vm_compute. repeat constructor.
Defined.

Definition demo_source : DevSource :=
  {| ds_ID := "api"; ds_Kind := ""; ds_Name := ""; ds_Role := ""; ds_PID := ""; ds_Stream := "";
     ds_RestartID := ""; ds_Status := ""; ds_URL := ""; ds_Reason := "" |}.
Definition demo_event (session : string) : DevEvent := NewDevEvent 7 "app" session demo_source "warn" "m" [] 0.
Definition demo_query (session : string) : DevEventQuery :=
  {| dq_AppID := "app"; dq_SessionID := session; dq_SourceID := ""; dq_Kind := ""; dq_Level := ""; dq_Stream := "";
     dq_Grep := ""; dq_Since := 0; dq_AfterID := 0; dq_Limit := 0 |}.
Definition demo_events : storeState :=
  (append_dev_event 8 (demo_event "s2") (append_dev_event 8 (demo_event "s1") demo_memory).1).1.

Lemma delete_dev_events_spec_witness :
  length (list_dev_events demo_events (demo_query "s1")) = 1%nat
  /\ list_dev_events (delete_dev_events (E:=demo_env []) "app" "s1" demo_events).1 (demo_query "s1") = [].
Proof.
  split; [vm_compute; reflexivity|].
  apply (delete_dev_events_spec (E:=demo_env []) demo_events "app" "s1" (demo_query "s1")); done.
Defined.

(** A write that fails to be saved is not undone: creating a request whose
    file cannot be renamed fails, and creating it again then fails because it
    exists. *)
Example failed_create_kept :
  let r1 := CreateStoredRequest (E:=demo_env [14%nat]) (Some demo_path) false (demo_request "x") demo_opened in
  let r2 := CreateStoredRequest (E:=demo_env []) (Some demo_path) false (demo_request "x") r1.1 in
  r1.2 = Fail ErrIO /\ r2.2 = Fail (ErrText "stored request r already exists").
Proof. vm_compute. split; reflexivity. Qed.

(** A request whose payload is not JSON cannot be saved and stays in memory, so
    that every later write of the store fails. *)
Example invalid_request_blocks_writes :
  let r1 := CreateStoredRequest (E:=demo_env []) (Some demo_path) false (demo_request "{") demo_opened in
  let r2 := SetOnboarding (E:=demo_env []) (Some demo_path) false ["seen"] r1.1 in
  r1.2 = Fail ErrJSON /\ r2.2 = Fail ErrJSON.
Proof. vm_compute. split; reflexivity. Qed.
End demo.
End DashProofs.
