(* ===== verification/Paths.v ===== *)
(** * Absolute paths and their parents

    [Paths] adds [filepath.Dir] to the model of path/filepath and relates the
    text of an absolute path to the list of its elements: cleaning, joining and
    taking the parent are operations on that list.  The elements are kept in
    reverse, the last one first, as [Filepath.stable] describes them. *)
From stdpp Require Import base tactics list strings.
From Stdlib Require Import ZArith Lia Ascii.
From S2P Require Import Prelude GoStrings.

Module Paths.
Import Filepath.

(** [filepath.Dir]. *)
Fixpoint upto_slash (p : string) : string :=
  match p with
  | EmptyString => ""
  | String c p' => if Ascii.eqb c "/" || Strings.has_byte "/" p' then String c (upto_slash p') else ""
  end.
Definition Dir (p : string) : string := Clean (upto_slash p).

Definition abs_path (st : list string) : string := "/" +:+ Strings.Join (rev st) "/".

Lemma Clean_abs p : IsAbs p = true -> exists st, stable true st /\ Clean p = abs_path st.
Proof.
  intros Ha. unfold Clean, abs_path. destruct (String.eqb_spec p "") as [->|Hne]; [done|]. rewrite Ha.
  exists (fold_left (push_elem true) (Strings.Split p "/") []). split; [|done].
  apply stable_fold; [constructor|apply Strings.Split_no_byte].
Qed.

Lemma IsAbs_iff p : IsAbs p = true <-> exists r, p = String "/" r.
Proof.
  unfold IsAbs. rewrite Strings.HasPrefix_iff. split; intros [r ->]; exists r; by rewrite ?Strings.string_app_cons.
Qed.

Lemma Abs_abs cwd p : IsAbs cwd = true -> exists st, stable true st /\ Abs cwd p = abs_path st.
Proof.
  intros Hc. unfold Abs. destruct (IsAbs p) eqn:Hp; [by apply Clean_abs|].
  apply IsAbs_iff in Hc as [r ->]. unfold Join. simpl.
  destruct (negb (String.eqb p "")); apply Clean_abs; apply IsAbs_iff; simpl;
    rewrite ?Strings.string_app_cons; eauto.
Qed.

Lemma upto_slash_app a e : Strings.has_byte "/" e = false -> upto_slash (a +:+ String "/" e) = a +:+ "/".
Proof.
  intros He. induction a as [|c a IH].
  - change (String "/" (upto_slash e) = "/"). f_equal. destruct e as [|c e]; [done|].
    cbn [Strings.has_byte] in He. apply orb_false_iff in He as [Hc He]. cbn [upto_slash]. by rewrite Hc, He.
  - rewrite !Strings.string_app_cons. cbn [upto_slash]. rewrite IH, Strings.has_byte_app. simpl.
    by rewrite !orb_true_r.
Qed.

Lemma Split_app_sep a b sep : Strings.Split (a +:+ String sep b) sep = Strings.Split a sep ++ Strings.Split b sep.
Proof.
  induction a as [|c a IH].
  - change ("" +:+ String sep b) with (String sep b). by rewrite Strings.Split_sep.
  - rewrite Strings.string_app_cons. cbn [Strings.Split]. rewrite IH.
    destruct (Ascii.eqb c sep); [done|]. destruct (Strings.Split a sep) as [|x l] eqn:E; [|done].
    by apply Strings.Split_not_nil in E.
Qed.

Lemma Join_snoc l e sep : l <> [] -> Strings.Join (l ++ [e]) sep = Strings.Join l sep +:+ sep +:+ e.
Proof.
  intros Hl. induction l as [|x l IH]; [done|]. destruct l as [|y l]; [done|].
  change ((x :: y :: l) ++ [e]) with (x :: (y :: l) ++ [e]).
  change (Strings.Join (x :: (y :: l) ++ [e]) sep) with (x +:+ sep +:+ Strings.Join ((y :: l) ++ [e]) sep).
  change (Strings.Join (x :: y :: l) sep) with (x +:+ sep +:+ Strings.Join (y :: l) sep).
  rewrite IH by done. by rewrite !Strings.string_app_assoc.
Qed.

Lemma Clean_slash r :
  Clean (String "/" r) = "/" +:+ Strings.Join (rev (fold_left (push_elem true) (Strings.Split r "/") [])) "/".
Proof.
  unfold Clean. rewrite (proj2 (String.eqb_neq (String "/" r) "")) by done.
  replace (IsAbs (String "/" r)) with true by done. cbv zeta. by rewrite Strings.Split_sep.
Qed.

Lemma Clean_trailing_slash st : stable true st -> Clean (abs_path st +:+ "/") = abs_path st.
Proof.
  intros Hst. unfold abs_path. change ("/" +:+ ?x) with (String "/" x) at 1.
  rewrite Strings.string_app_cons, Clean_slash.
  change (Strings.Join (rev st) "/" +:+ "/") with (Strings.Join (rev st) "/" +:+ String "/" "").
  rewrite Split_app_sep, fold_left_app, split_elems by done. done.
Qed.

Lemma Dir_abs e st : stable true (e :: st) -> Dir (abs_path (e :: st)) = abs_path st.
Proof.
  intros Hst. inversion Hst as [|? ? Hst' He Hne _]; subst. unfold Dir. destruct st as [|e' st].
  - assert (upto_slash (abs_path [e]) = "/") as -> by exact (upto_slash_app "" e He). done.
  - assert (abs_path (e :: e' :: st) = abs_path (e' :: st) +:+ String "/" e) as ->.
    { unfold abs_path. change (rev (e :: e' :: st)) with (rev (e' :: st) ++ [e]).
      rewrite Join_snoc by (simpl; by destruct (rev st)). by rewrite Strings.string_app_assoc. }
    rewrite upto_slash_app by done. by apply Clean_trailing_slash.
Qed.

(** Joining relative elements to an absolute path pushes them one by one. *)
Definition pushes (st : list string) (rel : string) : list string :=
  fold_left (push_elem true) (Strings.Split rel "/") st.

Lemma pushes_stable st rel : stable true st -> stable true (pushes st rel).
Proof. intros. apply stable_fold; [done|apply Strings.Split_no_byte]. Qed.

Lemma Clean_rel st rel : stable true st -> Clean (abs_path st +:+ String "/" rel) = abs_path (pushes st rel).
Proof.
  intros Hst. unfold abs_path at 1. change ("/" +:+ ?x) with (String "/" x) at 1.
  rewrite Strings.string_app_cons, Clean_slash, Split_app_sep, fold_left_app, split_elems by done. done.
Qed.

Lemma Clean_abs_path st : stable true st -> Clean (abs_path st) = abs_path st.
Proof.
  intros Hst. unfold abs_path at 1. change ("/" +:+ ?x) with (String "/" x). by rewrite Clean_slash, split_elems.
Qed.


Lemma pushes_app st a b : pushes st (a +:+ String "/" b) = pushes (pushes st a) b.
Proof. unfold pushes. by rewrite Split_app_sep, fold_left_app. Qed.

Lemma pushes_empty st : pushes st "" = st.
Proof. done. Qed.

Lemma pushes_Join st x l : pushes st (Strings.Join (x :: l) "/") = fold_left pushes (x :: l) st.
Proof.
  revert st x. induction l as [|y l IH]; intros st x; [done|].
  change (Strings.Join (x :: y :: l) "/") with (x +:+ String "/" (Strings.Join (y :: l) "/")).
  by rewrite pushes_app, IH.
Qed.

(** [filepath.Join] of an absolute path and relative ones. *)

(** [filepath.Join] of an absolute path and relative ones. *)
Lemma Join_abs st es : stable true st -> Join (abs_path st :: es) = abs_path (fold_left pushes es st).
Proof.
  intros Hst. unfold Join. cbn [List.filter]. change (negb (String.eqb (abs_path st) "")) with true. cbv iota.
  set (ne := fun e => negb (String.eqb e "")).
  assert (fold_left pushes es st = fold_left pushes (List.filter ne es) st) as ->.
  { clear Hst. revert st. induction es as [|e es IH]; intros st; [done|]. cbn. unfold ne at 1.
    destruct (String.eqb_spec e "") as [->|]; cbn; rewrite IH; by rewrite ?pushes_empty. }
  destruct (List.filter ne es) as [|x l]; [by apply Clean_abs_path|].
  change (Strings.Join (abs_path st :: x :: l) "/") with (abs_path st +:+ String "/" (Strings.Join (x :: l) "/")).
  by rewrite Clean_rel, pushes_Join.
Qed.

(** A plain element: a file name. *)
Definition plain (e : string) : Prop := e <> "" /\ e <> "." /\ e <> ".." /\ Strings.has_byte "/" e = false.

Lemma Split_single e sep : Strings.has_byte sep e = false -> Strings.Split e sep = [e].
Proof.
  induction e as [|c e IH]; [done|]. cbn. rewrite orb_false_iff, Ascii.eqb_sym. intros [-> He]. by rewrite (IH He).
Qed.

Lemma pushes_plain st e : plain e -> pushes st e = e :: st.
Proof.
  intros (H1 & H2 & H3 & H4). unfold pushes. rewrite Split_single by done. cbn. unfold push_elem.
  by rewrite !(proj2 (String.eqb_neq _ _)).
Qed.

(** The elements that a path names to the kernel. *)
Definition elems (p : string) : list string := List.filter (fun e => negb (String.eqb e "")) (Strings.Split p "/").

Lemma elems_abs_path st : stable true st -> elems (abs_path st) = rev st.
Proof.
  intros Hst. unfold elems, abs_path. change ("/" +:+ ?x) with (String "/" x). rewrite Strings.Split_sep. cbn [List.filter].
  cbn. pose proof (stable_elems _ _ Hst) as Hel. destruct (rev st) as [|e es] eqn:E; [done|].
  rewrite Strings.Split_Join; [|done|by eapply Forall_impl; [done|]; intros ? [? ?]].
  clear E Hst. induction Hel as [|x l [Hx _] _ IH]; [done|]. cbn. rewrite (proj2 (String.eqb_neq _ _) Hx). cbn. by rewrite IH.
Qed.

Lemma stable_no_dots st : stable true st -> Forall (fun e => e <> "." /\ e <> "..") st.
Proof.
  induction 1 as [|e st Hst IH He Hne Hp]; constructor; [|done]. unfold push_elem in Hp.
  split; intros ->; cbn in Hp.
  - apply (f_equal length) in Hp. cbn in Hp. lia.
  - destruct st as [|top rest]; [done|]. destruct (String.eqb_spec top "..") as [->|].
    + inversion IH as [|? ? [_ Hd] _]. done.
    + apply (f_equal length) in Hp. cbn in Hp. lia.
Qed.
End Paths.
