(* ===== verification/AppConfig.v ===== *)
(** * The application's configuration ([internal/app/root.go])

    [AppConfig] models the search for [.scenery.json] in a directory and its
    parents, the check that rejects fields the configuration does not have, and
    the derived settings.  The configuration's struct types are a [Schema]
    value, which is what the check reads by reflection; the Go types that
    decoding fills are the records.  What encoding/json makes of a file, what
    the file system holds and the order in which Go visits a map are
    arguments.  Quoting in error texts adds the quotes and leaves out the escapes
    of %q. *)
From stdpp Require Import base tactics list gmap strings.
From Stdlib Require Import ZArith Lia Ascii.
From S2P Require Import Prelude GoStrings WireCodec Paths.
Set Warnings "-register-all".

Module AppConfig.

(** ** Data *)
Record BuildConfig := { GoFlags : list string }.
Record FrontendConfig := { fc_Host : string; fc_Root : string; fc_Upstream : string; fc_AllowSharedUpstream : bool }.
Record ProxyConfig := {
  Workspace : string; RouteBaseDomain : string; APIHost : string; ConsoleHost : string;
  TemporalHost : string; GrafanaHost : string; Frontends : gmap string FrontendConfig
}.
Record DevServiceConfig := {
  Kind : string; Mode : string; svc_Version : string; Isolation : string; Project : string;
  ParentBranch : string; ParentDatabase : string; BranchPolicy : string; BranchNameTemplate : string;
  BranchStrategy : string; TTL : string; Role : string; svc_DatabaseURLEnv : string; Image : string;
  svc_Database : string; svc_Route : string; svc_Env : gmap string string
}.
Record DevConfig := { Services : gmap string DevServiceConfig; Setup : list string }.
Record ClientGeneratorConfig := { cg_ID : string; cg_Kind : string; cg_Target : string; cg_Lang : string; cg_Output : string }.
Record SQLCGeneratorSchema := { SQLCSchema : string; AtlasSchema : string; AtlasSource : string; AtlasDevURL : string }.
Record SQLCGeneratorConfig := {
  sqlc_Provider : string; sqlc_Config : string; DevURL : string; Schemas : list SQLCGeneratorSchema
}.
Record GeneratorsConfig := { Clients : list ClientGeneratorConfig; SQLC : SQLCGeneratorConfig }.
Record DatabaseApplyConfig := { da_Provider : string; da_Command : string; da_CWD : string; da_Env : gmap string string }.
Record DatabaseConfig := { Apply : DatabaseApplyConfig }.
Record TaskConfig := { tk_CWD : string; tk_Run : string; tk_Steps : list string; tk_Env : gmap string string }.
Record ValidationProfileConfig := {
  vp_Description : string; vp_Cost : string; vp_Paths : list string; vp_Steps : list string;
  vp_Env : gmap string string; vp_Artifacts : list string
}.
Record ValidationConfig := { Default : string; Profiles : gmap string ValidationProfileConfig }.
Record AuthGoogleConfig := { ag_Enabled : bool; ClientIDEnv : string; ClientSecretEnv : string }.
Record AuthDevBootstrap := {
  ad_Enabled : bool; DefaultUserEmail : string; DefaultUserID : string; DefaultTenantID : string
}.
Record AuthConfig := {
  au_Enabled : bool; au_DatabaseURLEnv : string; JWTSecretEnv : string; RefreshCookieName : string;
  AuthCookieDomainEnv : string; PublicAppURLEnv : string; APIBaseURLEnv : string; EmailFromEnv : string;
  AutoBootstrapDatabase : bool; GoogleOAuth : AuthGoogleConfig; DevBootstrap : AuthDevBootstrap
}.
Record EndpointFilterConfig := { IncludeEndpoints : list string; ExcludeEndpoints : list string }.
Record ObservabilityConfig := { Logs : EndpointFilterConfig; Tracing : EndpointFilterConfig }.
Record TemporalTLSConfig := {
  tls_Enabled : bool; ServerNameEnv : string; CACertFileEnv : string; ClientCertFileEnv : string;
  ClientKeyFileEnv : string
}.
Record TemporalLocalConfig := { AutoStart : bool; DBFilename : string }.
Record TemporalTypeScript := { tt_Enabled : bool; Runtime : string; tt_AutoStart : bool }.
Record TemporalConfig := {
  tc_Enabled : bool; tc_Mode : string; Namespace : string; AddressEnv : string; TaskQueuePrefix : string;
  PayloadCodec : string; APIKeyEnv : string; TLS : TemporalTLSConfig; Local : TemporalLocalConfig;
  TypeScript : TemporalTypeScript
}.
Record Config := {
  Name : string; ID : string; Build : BuildConfig; Proxy : ProxyConfig; Dev : DevConfig;
  Generators : GeneratorsConfig; Database : DatabaseConfig; Tasks : gmap string TaskConfig;
  Validation : ValidationConfig; Auth : AuthConfig; Observability : ObservabilityConfig;
  Temporal : TemporalConfig
}.

Definition set_name (c : Config) (name : string) : Config :=
  {| Name := name; ID := ID c; Build := Build c; Proxy := Proxy c; Dev := Dev c; Generators := Generators c;
     Database := Database c; Tasks := Tasks c; Validation := Validation c; Auth := Auth c;
     Observability := Observability c; Temporal := Temporal c |}.

Definition AppID (c : Config) : string := if negb (String.eqb (ID c) "") then ID c else Name c.

Definition no_service : DevServiceConfig :=
  {| Kind := ""; Mode := ""; svc_Version := ""; Isolation := ""; Project := ""; ParentBranch := "";
     ParentDatabase := ""; BranchPolicy := ""; BranchNameTemplate := ""; BranchStrategy := ""; TTL := "";
     Role := ""; svc_DatabaseURLEnv := ""; Image := ""; svc_Database := ""; svc_Route := ""; svc_Env := ∅ |}.

(** The services of a map in the order Go happens to visit them. *)
Definition is_postgres (e : string * DevServiceConfig) : bool :=
  let kind := Strings.TrimSpace (Kind e.2) in
  let kind := if String.eqb kind "" && String.eqb e.1 "postgres" then "postgres" else kind in
  String.eqb kind "postgres".

Definition ManagedPostgresService (order : list (string * DevServiceConfig)) : DevServiceConfig :=
  match List.find is_postgres order with
  | Some e => e.2
  | None => no_service
  end.

Definition DatabaseURLEnv (order : list (string * DevServiceConfig)) : string :=
  let envName := Strings.TrimSpace (svc_DatabaseURLEnv (ManagedPostgresService order)) in
  if negb (String.eqb envName "") then envName else "DatabaseURL".

(** ** The types of the configuration, as reflection shows them *)
Inductive rtype :=
| TScalar
| TPointer (t : rtype)
| TStruct (fields : list (string * rtype))
| TMap (elem : rtype)
| TSlice (elem : rtype).

(** The name and type of a field that is exported: its Go name and json tag. *)
Definition json_field (goName tag : string) (t : rtype) : option (string * rtype) :=
  let name := if negb (String.eqb tag "") then List.hd "" (Strings.Split tag ",") else goName in
  if String.eqb name "-" then None else Some (name, t).

(** Fields written as in the source: name, tag, type; all are exported. *)
Definition jsonStructFields (fields : list (string * string * rtype)) : list (string * rtype) :=
  omap (fun f => json_field f.1.1 f.1.2 f.2) fields.

Definition struct (fields : list (string * string * rtype)) : rtype := TStruct (jsonStructFields fields).
Definition strings_ : rtype := TSlice TScalar.
Definition env_ : rtype := TMap TScalar.

Definition frontend_schema : rtype := struct
  [("Host", "host", TScalar); ("Root", "root", TScalar); ("Upstream", "upstream", TScalar);
   ("AllowSharedUpstream", "allow_shared_upstream", TScalar)].
Definition proxy_schema : rtype := struct
  [("Workspace", "workspace", TScalar); ("RouteBaseDomain", "route_base_domain", TScalar);
   ("APIHost", "api_host", TScalar); ("ConsoleHost", "console_host", TScalar);
   ("TemporalHost", "temporal_host", TScalar); ("GrafanaHost", "grafana_host", TScalar);
   ("Frontends", "frontends", TMap frontend_schema)].
Definition service_schema : rtype := struct
  [("Kind", "kind", TScalar); ("Mode", "mode", TScalar); ("Version", "version", TScalar);
   ("Isolation", "isolation", TScalar); ("Project", "project", TScalar);
   ("ParentBranch", "parent_branch", TScalar); ("ParentDatabase", "parent_database", TScalar);
   ("BranchPolicy", "branch_policy", TScalar); ("BranchNameTemplate", "branch_name_template", TScalar);
   ("BranchStrategy", "branch_strategy", TScalar); ("TTL", "ttl", TScalar); ("Role", "role", TScalar);
   ("DatabaseURLEnv", "database_url_env", TScalar); ("Image", "image", TScalar);
   ("Database", "database", TScalar); ("Route", "route", TScalar); ("Env", "env", env_)].
Definition dev_schema : rtype := struct
  [("Services", "services", TMap service_schema); ("Setup", "setup", strings_)].
Definition client_schema : rtype := struct
  [("ID", "id", TScalar); ("Kind", "kind", TScalar); ("Target", "target", TScalar); ("Lang", "lang", TScalar);
   ("Output", "output", TScalar)].
Definition sqlc_schema_schema : rtype := struct
  [("SQLCSchema", "sqlc_schema", TScalar); ("AtlasSchema", "atlas_schema", TScalar);
   ("AtlasSource", "atlas_source", TScalar); ("AtlasDevURL", "atlas_dev_url", TScalar)].
Definition sqlc_schema : rtype := struct
  [("Provider", "provider", TScalar); ("Config", "config", TScalar); ("DevURL", "dev_url", TScalar);
   ("Schemas", "schemas", TSlice sqlc_schema_schema)].
Definition generators_schema : rtype := struct
  [("Clients", "clients", TSlice client_schema); ("SQLC", "sqlc", sqlc_schema)].
Definition apply_schema : rtype := struct
  [("Provider", "provider", TScalar); ("Command", "command", TScalar); ("CWD", "cwd", TScalar); ("Env", "env", env_)].
Definition database_schema : rtype := struct [("Apply", "apply", apply_schema)].
Definition task_schema : rtype := struct
  [("CWD", "cwd", TScalar); ("Run", "run", TScalar); ("Steps", "steps", strings_); ("Env", "env", env_)].
Definition profile_schema : rtype := struct
  [("Description", "description", TScalar); ("Cost", "cost", TScalar); ("Paths", "paths", strings_);
   ("Steps", "steps", strings_); ("Env", "env", env_); ("Artifacts", "artifacts", strings_)].
Definition validation_schema : rtype := struct
  [("Default", "default", TScalar); ("Profiles", "profiles", TMap profile_schema)].
Definition google_schema : rtype := struct
  [("Enabled", "enabled", TScalar); ("ClientIDEnv", "client_id_env", TScalar);
   ("ClientSecretEnv", "client_secret_env", TScalar)].
Definition dev_bootstrap_schema : rtype := struct
  [("Enabled", "enabled", TScalar); ("DefaultUserEmail", "default_user_email", TScalar);
   ("DefaultUserID", "default_user_id", TScalar); ("DefaultTenantID", "default_tenant_id", TScalar)].
Definition auth_schema : rtype := struct
  [("Enabled", "enabled", TScalar); ("DatabaseURLEnv", "database_url_env", TScalar);
   ("JWTSecretEnv", "jwt_secret_env", TScalar); ("RefreshCookieName", "refresh_cookie_name", TScalar);
   ("AuthCookieDomainEnv", "auth_cookie_domain_env", TScalar); ("PublicAppURLEnv", "public_app_url_env", TScalar);
   ("APIBaseURLEnv", "api_base_url_env", TScalar); ("EmailFromEnv", "email_from_env", TScalar);
   ("AutoBootstrapDatabase", "auto_bootstrap_database", TScalar); ("GoogleOAuth", "google_oauth", google_schema);
   ("DevBootstrap", "dev_bootstrap", dev_bootstrap_schema)].
Definition filter_schema : rtype := struct
  [("IncludeEndpoints", "include_endpoints", strings_); ("ExcludeEndpoints", "exclude_endpoints", strings_)].
Definition observability_schema : rtype := struct
  [("Logs", "logs", filter_schema); ("Tracing", "tracing", filter_schema)].
Definition temporal_tls_schema : rtype := struct
  [("Enabled", "enabled", TScalar); ("ServerNameEnv", "server_name_env", TScalar);
   ("CACertFileEnv", "ca_cert_file_env", TScalar); ("ClientCertFileEnv", "client_cert_file_env", TScalar);
   ("ClientKeyFileEnv", "client_key_file_env", TScalar)].
Definition temporal_local_schema : rtype := struct
  [("AutoStart", "auto_start", TScalar); ("DBFilename", "db_filename", TScalar)].
Definition temporal_typescript_schema : rtype := struct
  [("Enabled", "enabled", TScalar); ("Runtime", "runtime", TScalar); ("AutoStart", "auto_start", TScalar)].
Definition temporal_schema : rtype := struct
  [("Enabled", "enabled", TScalar); ("Mode", "mode", TScalar); ("Namespace", "namespace", TScalar);
   ("AddressEnv", "address_env", TScalar); ("TaskQueuePrefix", "task_queue_prefix", TScalar);
   ("PayloadCodec", "payload_codec", TScalar); ("APIKeyEnv", "api_key_env", TScalar);
   ("TLS", "tls", temporal_tls_schema); ("Local", "local", temporal_local_schema);
   ("TypeScript", "typescript", temporal_typescript_schema)].
Definition config_schema : rtype := struct
  [("Name", "name", TScalar); ("ID", "id", TScalar); ("Build", "build", struct [("GoFlags", "go_flags", strings_)]);
   ("Proxy", "proxy", proxy_schema); ("Dev", "dev", dev_schema); ("Generators", "generators", generators_schema);
   ("Database", "database", database_schema); ("Tasks", "tasks", TMap task_schema);
   ("Validation", "validation", validation_schema); ("Auth", "auth", auth_schema);
   ("Observability", "observability", observability_schema); ("Temporal", "temporal", temporal_schema)].

(** ** Rejecting unknown fields *)
Fixpoint indirectType (t : rtype) : rtype :=
  match t with TPointer t' => indirectType t' | _ => t end.

Fixpoint field_type (fields : list (string * rtype)) (name : string) : option rtype :=
  match fields with
  | [] => None
  | (k, t) :: rest =>
    (** of two fields with one name the later one is in the map *)
    match field_type rest name with
    | Some t' => Some t'
    | None => if String.eqb k name then Some t else None
    end
  end.

Definition appendJSONPath (path : list string) (field : string) : list string := path ++ [field].

Definition index_text (i : nat) : string := "[" +:+ Strconv.Itoa (Z.of_nat i) +:+ "]".
Definition appendJSONIndex (path : list string) (i : nat) : list string :=
  match rev path with
  | [] => [index_text i]
  | l :: rest => rev rest ++ [l +:+ index_text i]
  end.

Fixpoint first_error {A} (l : list (option A)) : option A :=
  match l with
  | [] => None
  | Some e :: _ => Some e
  | None :: rest => first_error rest
  end.

(** In which order the entries of a decoded object are visited. *)
Class ObjectOrder := {
  visit : forall A, list A -> list A;
  visit_perm : forall A (l : list A), visit A l ≡ₚ l
}.
Arguments visit {_ A} _.

Section config.
Context {OO : ObjectOrder}.

(** The path of the field that is rejected, if any.  The checks of the entries
    do not depend on each other; the order only decides which one is reported. *)
Fixpoint rejectUnknownFieldsValue (value : Wire.any) (typ : rtype) (path : list string) : option (list string) :=
  match indirectType typ, value with
  | TStruct fields, Wire.AObject obj =>
    first_error (visit (map (fun e : string * Wire.any =>
      match field_type fields e.1 with
      | None => Some (appendJSONPath path e.1)
      | Some t => rejectUnknownFieldsValue e.2 t (appendJSONPath path e.1)
      end) obj))
  | TMap elem, Wire.AObject obj =>
    match indirectType elem with
    | TStruct fields =>
      first_error (visit (map (fun e : string * Wire.any =>
        rejectUnknownFieldsValue e.2 (TStruct fields) (appendJSONPath path e.1)) obj))
    | _ => None
    end
  | TSlice elem, Wire.AArray items =>
    (fix each (i : nat) (items : list Wire.any) : option (list string) :=
       match items with
       | [] => None
       | child :: rest =>
         match rejectUnknownFieldsValue child elem (appendJSONIndex path i) with
         | Some e => Some e
         | None => each (S i) rest
         end
       end) 0%nat items
  | _, _ => None
  end.

Definition removedProxyHostField : string := "mcp_host".

Definition quoted (s : string) : string := String Strconv.quote_byte (s +:+ String Strconv.quote_byte "").

Definition unknownConfigFieldError (path : list string) : string :=
  let jsonPath := Strings.Join path "." in
  let removed := "proxy." +:+ removedProxyHostField in
  if String.eqb jsonPath removed then
    "unknown .scenery.json field " +:+ quoted jsonPath +:+ "; " +:+ removed
    +:+ " was removed and has no compatibility behavior; remove it and use dev session routes or "
    +:+ "proxy.api_host/proxy.console_host/proxy.frontends for local routing"
  else "unknown .scenery.json field " +:+ quoted jsonPath.

(** What encoding/json makes of a file: the value of its first JSON text, and
    the configuration it decodes to when unknown fields are not allowed. *)
Context (decode_any : string -> outcome string Wire.any)
        (decode_strict : string -> outcome string Config).

Definition rejectUnknownConfigFields (path data : string) : outcome string unit :=
  match decode_any data with
  | Ret raw =>
    match rejectUnknownFieldsValue raw config_schema [] with
    | Some p => Fail (path +:+ ": " +:+ unknownConfigFieldError p)
    | None => Ret tt
    end
  | Fail e => Fail (path +:+ ": decode .scenery.json: " +:+ e)
  | Panic m => Panic m
  end.

Definition decodeConfig (path data : string) : outcome string Config :=
  _ ← rejectUnknownConfigFields path data;
  match decode_strict data with
  | Ret cfg => Ret cfg
  | Fail e => Fail (path +:+ ": decode .scenery.json: " +:+ e)
  | Panic m => Panic m
  end.

Definition ErrRootNotFound : string := "no .scenery.json found in current directory or any parent".

Definition config_path (dir : string) : string := Filepath.Join [dir; ".scenery.json"].

(** A configuration has a name. *)
Definition named (cfg : Config) : outcome string Config :=
  let cfg := if String.eqb (Name cfg) "" then set_name cfg (ID cfg) else cfg in
  if String.eqb (Name cfg) "" then Fail ".scenery.json must define a non-empty name or id" else Ret cfg.

(** The loop over the parents; [None] when the fuel runs out.  [read] is
    [os.ReadFile]. *)
Fixpoint discover (fuel : nat) (read : string -> option string) (dir : string) : option (outcome string (string * Config)) :=
  match fuel with
  | O => None
  | S n =>
    match read (config_path dir) with
    | Some data =>
      Some (cfg ← decodeConfig (config_path dir) data; cfg ← named cfg; Ret (dir, cfg))
    | None =>
      let parent := Paths.Dir dir in
      if String.eqb parent dir then Some (Fail ErrRootNotFound) else discover n read parent
    end
  end.

Definition DiscoverRoot (cwd : string) (read : string -> option string) (start : string)
    : option (outcome string (string * Config)) :=
  let dir := Filepath.Abs cwd start in
  discover (S (String.length dir)) read dir.
End config.

(** ** The check is exact *)

(** [p] is the path of a field of [value] that [typ] does not have; [value] is
    found at [path]. *)
Inductive unknown_at : Wire.any -> rtype -> list string -> list string -> Prop :=
| unknown_field typ fields obj k child path :
    indirectType typ = TStruct fields -> (k, child) ∈ obj -> field_type fields k = None ->
    unknown_at (Wire.AObject obj) typ path (appendJSONPath path k)
| unknown_in_field typ fields obj k child t path p :
    indirectType typ = TStruct fields -> (k, child) ∈ obj -> field_type fields k = Some t ->
    unknown_at child t (appendJSONPath path k) p -> unknown_at (Wire.AObject obj) typ path p
| unknown_in_entry typ elem fields obj k child path p :
    indirectType typ = TMap elem -> indirectType elem = TStruct fields -> (k, child) ∈ obj ->
    unknown_at child (TStruct fields) (appendJSONPath path k) p -> unknown_at (Wire.AObject obj) typ path p
| unknown_in_item typ elem items i child path p :
    indirectType typ = TSlice elem -> items !! i = Some child ->
    unknown_at child elem (appendJSONIndex path i) p -> unknown_at (Wire.AArray items) typ path p.

Lemma first_error_Some {A} (l : list (option A)) e : first_error l = Some e -> Some e ∈ l.
Proof.
  induction l as [|[x|] l IH]; simpl; [done| |].
  - intros [= ->]. by left.
  - intros H. right. by apply IH.
Qed.

Lemma first_error_None {A} (l : list (option A)) e : first_error l = None -> Some e ∉ l.
Proof.
  induction l as [|[x|] l IH]; simpl; [intros _; apply not_elem_of_nil|done|].
  intros H [Hx|Hx]%elem_of_cons; [done|by apply IH].
Qed.

Section exact.
Context {OO : ObjectOrder}.

Lemma visit_error {A} (l : list (option A)) :
  match first_error (visit l) with Some e => Some e ∈ l | None => forall e, Some e ∉ l end.
Proof.
  destruct (first_error (visit l)) as [e|] eqn:H.
  - apply first_error_Some in H. by rewrite visit_perm in H.
  - intros e He. apply (first_error_None _ e) in H. apply H. by rewrite visit_perm.
Qed.

Definition exact (v : Wire.any) : Prop := forall typ path,
  match rejectUnknownFieldsValue v typ path with
  | Some p => unknown_at v typ path p
  | None => forall p, ~ unknown_at v typ path p
  end.

Lemma items_exact elem path items : Forall exact items -> forall i0,
  match (fix each (i : nat) (items : list Wire.any) : option (list string) :=
           match items with
           | [] => None
           | child :: rest =>
             match rejectUnknownFieldsValue child elem (appendJSONIndex path i) with
             | Some e => Some e
             | None => each (S i) rest
             end
           end) i0 items with
  | Some p => exists i child, items !! i = Some child /\ unknown_at child elem (appendJSONIndex path (i0 + i)) p
  | None => forall i child p, items !! i = Some child -> ~ unknown_at child elem (appendJSONIndex path (i0 + i)) p
  end.
Proof.
  induction 1 as [|child items Hc _ IH]; intros i0; [by intros i c p; rewrite lookup_nil|].
  specialize (Hc elem (appendJSONIndex path i0)). destruct (rejectUnknownFieldsValue _ _ _) as [e|].
  { exists 0%nat, child. by rewrite Nat.add_0_r. }
  specialize (IH (S i0)). match type of IH with match ?x with _ => _ end => destruct x as [p|] end.
  - destruct IH as (i & c & Hi & Hu). exists (S i), c. by rewrite Nat.add_succ_r.
  - intros [|i] c p Hi.
    + injection Hi as <-. rewrite Nat.add_0_r. apply Hc.
    + rewrite Nat.add_succ_r. by apply IH.
Qed.

Lemma value_exact v : exact v.
Proof.
  induction v as [| | | | | | | |items IH|obj IH] using Wire.any_ind'; intros typ path;
    try (simpl; destruct (indirectType typ) eqn:Et; intros p Hp; by inversion Hp).
  - cbn [rejectUnknownFieldsValue]. destruct (indirectType typ) as [| | | |elem] eqn:Et;
      try (intros p Hp; inversion Hp; congruence).
    pose proof (items_exact elem path items IH 0) as Hi. match type of Hi with match ?x with _ => _ end => destruct x as [p|] end.
    + destruct Hi as (i & c & Hi & Hu). by eapply unknown_in_item.
    + intros p Hp. inversion Hp as [| | |? elem' ? i c ? ? Ht Hi0 Hu]; subst.
      assert (elem' = elem) as -> by congruence. exact (Hi i c p Hi0 Hu).
  - cbn [rejectUnknownFieldsValue]. rewrite Forall_forall in IH.
    destruct (indirectType typ) as [| |fields|elem|] eqn:Et; try (intros p Hp; inversion Hp; congruence).
    + match goal with |- match first_error (visit ?l) with _ => _ end => pose proof (visit_error l) as Hv end.
      destruct (first_error _) as [p|].
      * apply list_elem_of_In, in_map_iff in Hv as ([k c] & Hp & Hin%list_elem_of_In). simpl in Hp.
        destruct (field_type fields k) as [t|] eqn:Ef; [|injection Hp as <-; by eapply unknown_field].
        eapply unknown_in_field; eauto. specialize (IH _ Hin t (appendJSONPath path k)). simpl in IH.
        by rewrite Hp in IH.
      * intros p Hp. apply (Hv p). apply list_elem_of_In, in_map_iff.
        inversion Hp as [? fs ? k c ? Ht Hin Hf|? fs ? k c t ? ? Ht Hin Hf Hu| |]; subst; try congruence;
          (assert (fs = fields) as -> by congruence).
        { exists (k, c). split; [|by apply list_elem_of_In]. simpl. by rewrite Hf. }
        exfalso. specialize (IH _ Hin t (appendJSONPath path k)). simpl in IH.
        destruct (rejectUnknownFieldsValue c t _) as [q|] eqn:Eq; [|by eapply IH].
        apply (Hv q), list_elem_of_In, in_map_iff. exists (k, c). split; [|by apply list_elem_of_In].
        simpl. by rewrite Hf.
    + destruct (indirectType elem) as [| |fields| |] eqn:Ee; try (intros p Hp; inversion Hp; congruence).
      match goal with |- match first_error (visit ?l) with _ => _ end => pose proof (visit_error l) as Hv end.
      destruct (first_error _) as [p|].
      * apply list_elem_of_In, in_map_iff in Hv as ([k c] & Hp & Hin%list_elem_of_In).
        eapply unknown_in_entry; eauto. specialize (IH _ Hin (TStruct fields) (appendJSONPath path k)). simpl in IH, Hp.
        by rewrite Hp in IH.
      * intros p Hp. inversion Hp as [| |? el fs ? k c ? ? Ht He Hin Hu|]; subst; try congruence.
        assert (el = elem) as -> by congruence. assert (fs = fields) as -> by congruence.
        specialize (IH _ Hin (TStruct fields) (appendJSONPath path k)). simpl in IH.
        destruct (rejectUnknownFieldsValue c _ _) as [q|] eqn:Eq; [|by eapply IH].
        apply (Hv q), list_elem_of_In, in_map_iff. exists (k, c). split; [done|by apply list_elem_of_In].
Qed.

(** C24. The check of a configuration file is exact, in whatever order its objects
    are visited: it passes when every field of the JSON value is a field of the
    configuration's types, and otherwise reports the path of one that is not. *)
Theorem rejectUnknownFieldsValue_exact v typ path :
  match rejectUnknownFieldsValue v typ path with
  | Some p => unknown_at v typ path p
  | None => forall p, ~ unknown_at v typ path p
  end.
Proof. apply value_exact. Qed.
End exact.

(** ** The search ends at the nearest configuration *)
Import Filepath Paths.

(** The n-th parent. *)
Definition parent (n : nat) (dir : string) : string := Nat.iter n Dir dir.

Section discover.
Context {OO : ObjectOrder} (decode_any : string -> outcome string Wire.any)
        (decode_strict : string -> outcome string Config) (read : string -> option string).

Definition opened_config (dir data : string) : outcome string (string * Config) :=
  cfg ← decodeConfig decode_any decode_strict (config_path dir) data; cfg ← named cfg; Ret (dir, cfg).

Lemma discover_nearest st fuel : stable true st -> (length st < fuel)%nat ->
  exists n r, discover decode_any decode_strict fuel read (abs_path st) = Some r
    /\ (forall m, (m < n)%nat -> read (config_path (parent m (abs_path st))) = None)
    /\ match read (config_path (parent n (abs_path st))) with
       | Some data => r = opened_config (parent n (abs_path st)) data
       | None => parent n (abs_path st) = "/" /\ r = Fail ErrRootNotFound
       end.
Proof.
  intros Hst. revert fuel. induction Hst as [|e st Hst IH He Hne Hp]; intros [|fuel] Hf; try (simpl in Hf; lia).
  - exists 0%nat. cbn [discover parent Nat.iter]. change (abs_path []) with "/".
    change (Dir "/") with "/". cbn [String.eqb Ascii.eqb Bool.eqb].
    destruct (read (config_path "/")) eqn:Er; eexists; (split; [reflexivity|]); (split; [intros; lia|]);
      change (parent 0 "/") with "/"; by rewrite Er.
  - cbn [discover]. destruct (read (config_path (abs_path (e :: st)))) as [data|] eqn:Er.
    { exists 0%nat. change (parent 0 (abs_path (e :: st))) with (abs_path (e :: st)). rewrite Er.
      eexists. split_and!; [reflexivity|intros; lia|done]. }
    assert (Dir (abs_path (e :: st)) = abs_path st) as Hd by (apply Dir_abs; by constructor).
    cbv zeta. rewrite Hd. destruct (String.eqb_spec (abs_path st) (abs_path (e :: st))) as [Eq|_].
    { exfalso. apply (f_equal (fun p => fold_left (push_elem true) (Strings.Split p "/") [])) in Eq.
      unfold abs_path in Eq. rewrite !Strings.string_app_cons in Eq. change ("" +:+ ?x) with x in Eq.
      rewrite !Strings.Split_sep in Eq. cbn [fold_left] in Eq. change (push_elem true [] "") with (@nil string) in Eq.
      rewrite !split_elems in Eq by (try done; by constructor). apply (f_equal length) in Eq. simpl in Eq. lia. }
    destruct (IH fuel) as (n & r & H1 & H2 & H3); [simpl in Hf; lia|].
    assert (forall k, parent (S k) (abs_path (e :: st)) = parent k (abs_path st)) as Hpar.
    { intros k. unfold parent. rewrite Nat.iter_succ_r. by rewrite Hd. }
    exists (S n), r. rewrite Hpar. split_and!; [done| |done].
    intros [|m] Hm; [done|]. rewrite Hpar. apply H2. lia.
Qed.

Lemma length_string_app a b : String.length (a +:+ b) = (String.length a + String.length b)%nat.
Proof. induction a as [|c a IH]; [done|]. rewrite Strings.string_app_cons. simpl. by rewrite IH. Qed.

Lemma length_elems rooted st : stable rooted st -> (length st <= String.length (Strings.Join (rev st) "/"))%nat.
Proof.
  induction 1 as [|e st Hst IH He Hne _]; [simpl; lia|]. simpl. destruct st as [|e' st].
  - simpl. destruct e; [done|]. simpl. lia.
  - rewrite Join_snoc by (simpl; by destruct (rev st)). rewrite !length_string_app.
    destruct e; [done|]. simpl in *. lia.
Qed.

(** C25. The search for the configuration always ends, with the nearest of the start
    directory and its parents that has a readable file (or an error of that
    file), or at the root with the error that there is none. *)
Theorem DiscoverRoot_nearest cwd start : IsAbs cwd = true ->
  exists n r, DiscoverRoot decode_any decode_strict cwd read start = Some r
    /\ (forall m, (m < n)%nat -> read (config_path (parent m (Abs cwd start))) = None)
    /\ match read (config_path (parent n (Abs cwd start))) with
       | Some data => r = opened_config (parent n (Abs cwd start)) data
       | None => parent n (Abs cwd start) = "/" /\ r = Fail ErrRootNotFound
       end.
Proof.
  intros Hc. unfold DiscoverRoot. destruct (Abs_abs cwd start Hc) as (st & Hst & ->).
  apply discover_nearest; [done|]. pose proof (length_elems _ _ Hst). unfold abs_path.
  rewrite Strings.string_app_cons. simpl. change ("" +:+ ?x) with x. lia.
Qed.
End discover.

(** ** Examples *)
Definition demo_order : ObjectOrder := {| visit := fun A l => l; visit_perm := fun A l => reflexivity l |}.

Definition demo_config : Config :=
  {| Name := ""; ID := "demo"; Build := {| GoFlags := [] |};
     Proxy := {| Workspace := ""; RouteBaseDomain := ""; APIHost := ""; ConsoleHost := ""; TemporalHost := "";
                 GrafanaHost := ""; Frontends := ∅ |};
     Dev := {| Services := ∅; Setup := [] |};
     Generators := {| Clients := []; SQLC := {| sqlc_Provider := ""; sqlc_Config := ""; DevURL := ""; Schemas := [] |} |};
     Database := {| Apply := {| da_Provider := ""; da_Command := ""; da_CWD := ""; da_Env := ∅ |} |};
     Tasks := ∅; Validation := {| Default := ""; Profiles := ∅ |};
     Auth := {| au_Enabled := false; au_DatabaseURLEnv := ""; JWTSecretEnv := ""; RefreshCookieName := "";
                AuthCookieDomainEnv := ""; PublicAppURLEnv := ""; APIBaseURLEnv := ""; EmailFromEnv := "";
                AutoBootstrapDatabase := false;
                GoogleOAuth := {| ag_Enabled := false; ClientIDEnv := ""; ClientSecretEnv := "" |};
                DevBootstrap := {| ad_Enabled := false; DefaultUserEmail := ""; DefaultUserID := ""; DefaultTenantID := "" |} |};
     Observability := {| Logs := {| IncludeEndpoints := []; ExcludeEndpoints := [] |};
                         Tracing := {| IncludeEndpoints := []; ExcludeEndpoints := [] |} |};
     Temporal := {| tc_Enabled := false; tc_Mode := ""; Namespace := ""; AddressEnv := ""; TaskQueuePrefix := "";
                    PayloadCodec := ""; APIKeyEnv := "";
                    TLS := {| tls_Enabled := false; ServerNameEnv := ""; CACertFileEnv := ""; ClientCertFileEnv := "";
                              ClientKeyFileEnv := "" |};
                    Local := {| AutoStart := false; DBFilename := "" |};
                    TypeScript := {| tt_Enabled := false; Runtime := ""; tt_AutoStart := false |} |} |}.

Definition demo_decode (data : string) : outcome string Wire.any := Ret (Wire.AObject [("id", Wire.AString "demo")]).
Definition demo_strict (data : string) : outcome string Config := Ret demo_config.
Definition demo_read (path : string) : option string :=
  if String.eqb path "/a/.scenery.json" then Some "{}" else None.

Lemma DiscoverRoot_nearest_witness :
  DiscoverRoot (OO:=demo_order) demo_decode demo_strict "/a/b" demo_read "c"
    = Some (Ret ("/a", set_name demo_config "demo"))
  /\ exists n r, DiscoverRoot (OO:=demo_order) demo_decode demo_strict "/a/b" demo_read "c" = Some r
       /\ (forall m, (m < n)%nat -> demo_read (config_path (parent m "/a/b/c")) = None)
       /\ match demo_read (config_path (parent n "/a/b/c")) with
          | Some data => r = opened_config (OO:=demo_order) demo_decode demo_strict (parent n "/a/b/c") data
          | None => parent n "/a/b/c" = "/" /\ r = Fail ErrRootNotFound
          end.
Proof.
  split; [vm_compute; reflexivity|].
  apply (DiscoverRoot_nearest (OO:=demo_order) demo_decode demo_strict demo_read "/a/b" "c"). reflexivity.
Defined.

(** A misspelt field of a frontend is reported with its path. *)
Example misspelt_field :
  rejectUnknownFieldsValue (OO:=demo_order)
    (Wire.AObject [("proxy", Wire.AObject [("frontends", Wire.AObject [("web", Wire.AObject [("hots", Wire.ANil)])])])])
    config_schema [] = Some ["proxy"; "frontends"; "web"; "hots"].
Proof. reflexivity. Qed.

Definition demo_postgres (env : string) : DevServiceConfig :=
  {| Kind := "postgres"; Mode := ""; svc_Version := ""; Isolation := ""; Project := ""; ParentBranch := "";
     ParentDatabase := ""; BranchPolicy := ""; BranchNameTemplate := ""; BranchStrategy := ""; TTL := "";
     Role := ""; svc_DatabaseURLEnv := env; Image := ""; svc_Database := ""; svc_Route := ""; svc_Env := ∅ |}.

(** With two postgres services, the variable of the database URL depends on the
    order in which Go happens to visit the services. *)
Example database_url_depends_on_order :
  let a := ("a", demo_postgres "A") in let b := ("b", demo_postgres "B") in
  DatabaseURLEnv [a; b] = "A" /\ DatabaseURLEnv [b; a] = "B".
Proof. split; reflexivity. Qed.
End AppConfig.
