(* ===== verification/LocalProxy.v ===== *)
(** * The local proxy ([internal/localproxy/proxy.go], [routes.go])

    [LocalProxy] models how the local HTTPS proxy normalizes its configuration,
    names hosts, builds its route table, selects and rewrites requests, names
    the subjects of its certificate, redirects plain HTTP, and starts and
    closes.  Environment variables, url.Parse, files, dialling, certificates
    and listeners are the class [ProxyEnv].  Ports and counts are integers; the
    in-place update of the frontends' slice is a new list. *)
From stdpp Require Import base tactics list gmap strings.
From Stdlib Require Import ZArith Lia Ascii.
From S2P Require Import Prelude GoStrings WireCodec Middleware Http.

Class ProxyEnv := {
  getenv : string -> string;                       (** [envpolicy.Get] *)
  url_host : string -> option string;              (** the host of [url.Parse], when it parses *)
  read_file : string -> option string;             (** [os.ReadFile] *)
  dials : string -> bool;                          (** [net.DialTimeout] succeeds *)
  certificates : list string -> option string;     (** [prepareLocalCertificates]: the path of the CA *)
  listens : Z -> bool                              (** [net.Listen] on a port succeeds *)
}.

Module LocalProxy.
Definition defaultHTTPPort : Z := 80.
Definition defaultHTTPSPort : Z := 443.

Record FrontendConfig := {
  fe_Name : string; fe_Host : string; fe_Root : string; fe_Upstream : string; fe_AllowSharedUpstream : bool
}.

Record Config := {
  Workspace : string;
  APIHost : string;
  ConsoleHost : string;
  TemporalHost : string;
  GrafanaHost : string;
  Frontends : list FrontendConfig;
  APIUpstream : string;
  DashboardUpstream : string;
  TemporalUpstream : string;
  GrafanaUpstream : string;
  HTTPPort_ : Z;
  HTTPSPort_ : Z;
  SkipInstallTrust_ : bool;
  Verbose : bool
}.

Record FrontendRoute := { fr_Name : string; fr_Host : string; fr_URL : string }.

Record Routes := {
  r_APIHost : string;
  r_ConsoleHost : string;
  r_TemporalHost : string;
  r_GrafanaHost : string;
  r_Frontends : gmap string FrontendRoute;
  APIURL : string;
  ConsoleURL : string;
  TemporalURL : string;
  GrafanaURL : string
}.

Definition no_routes : Routes :=
  {| r_APIHost := ""; r_ConsoleHost := ""; r_TemporalHost := ""; r_GrafanaHost := ""; r_Frontends := ∅;
     APIURL := ""; ConsoleURL := ""; TemporalURL := ""; GrafanaURL := "" |}.

(** A route of the table; [upstream] and [rewriteHost] determine its reverse
    proxy. *)
Record proxyRoute := { host : string; path : string; upstream : string; rewriteHost : bool }.
Definition routeTable : Type := list proxyRoute.

(** ** Labels and names *)

(** [invalidLabelRE] replaced by a dash: a run of other bytes. *)
Definition label_byte (c : ascii) : bool :=
  in_range 97 122 (code c) || in_range 48 57 (code c) || Ascii.eqb c "-".

Fixpoint replace_invalid (in_run : bool) (s : string) : string :=
  match s with
  | EmptyString => ""
  | String c s' =>
    if label_byte c then String c (replace_invalid false s')
    else if in_run then replace_invalid true s' else String "-" (replace_invalid true s')
  end.

(** [repeatedDashRE] replaced by a dash. *)
Fixpoint collapse_dashes (after_dash : bool) (s : string) : string :=
  match s with
  | EmptyString => ""
  | String c s' =>
    if Ascii.eqb c "-" then if after_dash then collapse_dashes true s' else String c (collapse_dashes true s')
    else String c (collapse_dashes false s')
  end.

(** The loop of [frontendEnvName]. *)
Fixpoint env_name (lastUnderscore : bool) (rs : list Z) : string :=
  match rs with
  | [] => ""
  | r :: rs' =>
    if in_range 65 90 r || in_range 48 57 r then Utf8.encode_rune r +:+ env_name false rs'
    else if lastUnderscore then env_name true rs' else String "_" (env_name true rs')
  end.

(** [strings.Trim(value, "[]")]. *)
Definition trim_brackets (s : string) : string :=
  Strings.TrimSet (fun c => Ascii.eqb c "[" || Ascii.eqb c "]") s.

Definition JoinHostPort (h p : string) : string :=
  if Strings.Contains h ":" || Strings.Contains h "%" then "[" +:+ h +:+ "]:" +:+ p else h +:+ ":" +:+ p.

Definition hostURL (h : string) (httpsPort : Z) : string :=
  if httpsPort =? defaultHTTPSPort then "https://" +:+ h else "https://" +:+ h +:+ ":" +:+ Strconv.Itoa httpsPort.

Definition hostForURL (h : string) (port : Z) : string :=
  if port =? defaultHTTPSPort then h
  else if Strings.Contains h ":" && negb (Strings.HasPrefix h "[") then JoinHostPort h (Strconv.Itoa port)
  else h +:+ ":" +:+ Strconv.Itoa port.

(** [vitePortRE]: the digits of the first [port : digits] between word
    boundaries. *)
Definition word_byte (c : ascii) : bool :=
  in_range 97 122 (code c) || in_range 65 90 (code c) || in_range 48 57 (code c) || Ascii.eqb c "_".
Definition regexp_space (c : ascii) : bool :=
  (code c =? 9) || (code c =? 10) || (code c =? 12) || (code c =? 13) || (code c =? 32).

Fixpoint span (f : ascii -> bool) (s : string) : string * string :=
  match s with
  | EmptyString => ("", "")
  | String c s' => if f c then let '(a, b) := span f s' in (String c a, b) else ("", s)
  end.

Definition port_here (s : string) : option string :=
  if negb (Strings.HasPrefix s "port") then None
  else
    let s := (span regexp_space (Strings.sdrop 4 s)).2 in
    if negb (Strings.HasPrefix s ":") then None
    else
      let '(digits, rest) := span (fun c => in_range 48 57 (code c)) (span regexp_space (Strings.sdrop 1 s)).2 in
      if String.eqb digits "" then None
      else match rest with
           | String c _ => if word_byte c then None else Some digits
           | EmptyString => Some digits
           end.

Fixpoint find_port (after_word : bool) (s : string) : option string :=
  match s with
  | EmptyString => None
  | String c s' =>
    match (if after_word then None else port_here s) with
    | Some digits => Some digits
    | None => find_port (word_byte c) s'
    end
  end.

Definition parseVitePort (data : string) : Z :=
  match find_port false data with
  | None => 0
  | Some digits => match Strconv.Atoi digits with Ret port => port | _ => 0 end
  end.

Section proxy.
Context {UT : UnicodeTables} {PE : ProxyEnv}.

Definition sanitizeLabel (value : string) : string :=
  let value := Strings.ToLower (Strings.TrimSpace value) in
  Strings.Trim (collapse_dashes false (replace_invalid false value)) "-".

Definition frontendEnvName (name : string) : string :=
  Strings.Trim (env_name false (Utf8.runes (Strings.ToUpper (Strings.TrimSpace name)))) "_".

Definition envInt (key : string) (fallback : Z) : Z :=
  let value := Strings.TrimSpace (getenv key) in
  if String.eqb value "" then fallback
  else match Strconv.Atoi value with
       | Ret parsed => if parsed <=? 0 then fallback else parsed
       | _ => fallback
       end.

Definition envBool (key : string) (fallback : bool) : bool :=
  let value := Strings.TrimSpace (Strings.ToLower (getenv key)) in
  if String.eqb value "" then fallback
  else if existsb (String.eqb value) ["1"; "true"; "yes"; "on"] then true
  else if existsb (String.eqb value) ["0"; "false"; "no"; "off"] then false
  else fallback.

Definition Enabled : bool := envBool "SCENERY_LOCAL_PROXY" false.
Definition HTTPPort : Z := envInt "SCENERY_LOCAL_PROXY_HTTP_PORT" defaultHTTPPort.
Definition HTTPSPort : Z := envInt "SCENERY_LOCAL_PROXY_HTTPS_PORT" defaultHTTPSPort.
Definition SkipInstallTrust : bool := envBool "SCENERY_LOCAL_PROXY_SKIP_TRUST_INSTALL" true.

(** The recursion follows the host of a URL; [fuel] bounds it. *)
Fixpoint normalize_upstream (fuel : nat) (value : string) : string :=
  let value := Strings.TrimSpace value in
  if String.eqb value "" then ""
  else
    let plain :=
      match Net.SplitHostPort value with
      | None => value
      | Some (h, port) =>
        let h := if existsb (String.eqb h) [""; "0.0.0.0"; "::"] then "127.0.0.1" else h in
        JoinHostPort h port
      end in
    if Strings.Contains value "://" then
      match url_host value, fuel with
      | Some h, S n => if negb (String.eqb h "") then normalize_upstream n h else plain
      | _, _ => plain
      end
    else plain.

(** The host of a URL has no slash, so one level is enough. *)
Definition normalizeUpstream (value : string) : string := normalize_upstream 1 value.

Definition normalizeHost (value : string) : string :=
  let value := Strings.ToLower (Strings.TrimSpace value) in
  if String.eqb value "" then ""
  else
    let value :=
      if Strings.Contains value "://" then
        match url_host value with
        | Some h => if negb (String.eqb h "") then h else value
        | None => value
        end
      else value in
    let value := match Strings.cut_opt value "/" with Some (before, _) => before | None => value end in
    let value := match Net.SplitHostPort value with Some (h, _) => h | None => value end in
    trim_brackets value.

Definition resolvedHost (explicit workspace subdomain : string) : string :=
  let explicit := normalizeHost explicit in
  if negb (String.eqb explicit "") then explicit
  else
    let workspace := sanitizeLabel workspace in
    if String.eqb workspace "" then "" else subdomain +:+ "." +:+ workspace +:+ ".localhost".

Definition requestHost (value : string) : string :=
  let value := Strings.ToLower (Strings.TrimSpace value) in
  if String.eqb value "" then ""
  else
    let value := match Net.SplitHostPort value with Some (h, _) => h | None => value end in
    trim_brackets value.

(** ** Discovery *)
Definition FrontendOverride (name : string) : string :=
  let value := Strings.TrimSpace (getenv ("SCENERY_FRONTEND_" +:+ frontendEnvName name +:+ "_ADDR")) in
  if String.eqb value "" then "" else normalizeUpstream value.

Definition DiscoverWorkspace (root fallback : string) : string :=
  let label := sanitizeLabel (Filepath.Base (Strings.TrimSpace root)) in
  if negb (String.eqb label "") then label else sanitizeLabel fallback.

Definition frontendRootPath (appRoot : string) (frontend : FrontendConfig) : string :=
  let appRoot := Strings.TrimSpace appRoot in
  let root := Strings.TrimSpace (fe_Root frontend) in
  let root := if String.eqb root "" && negb (String.eqb (fe_Name frontend) "")
              then Filepath.Join ["apps"; fe_Name frontend] else root in
  if String.eqb root "" then ""
  else if Filepath.IsAbs root then Filepath.Clean root
  else if String.eqb appRoot "" then Filepath.Clean root
  else Filepath.Join [appRoot; root].

Definition discoverReachableLoopbackUpstream (port : Z) : string :=
  let portStr := Strconv.Itoa port in
  let candidates := [JoinHostPort "::1" portStr; JoinHostPort "127.0.0.1" portStr; JoinHostPort "localhost" portStr] in
  default (JoinHostPort "localhost" portStr) (List.find dials candidates).

Definition vite_files : list string := ["vite.config.ts"; "vite.config.js"; "vite.config.mts"; "vite.config.mjs"].

Definition DiscoverFrontendUpstream (appRoot : string) (frontend : FrontendConfig) : string :=
  if envBool "SCENERY_DISABLE_FRONTEND_PROXY" false then ""
  else
    let override := FrontendOverride (fe_Name frontend) in
    if negb (String.eqb override "") then override
    else
      let upstream := normalizeUpstream (fe_Upstream frontend) in
      if negb (String.eqb upstream "") then upstream
      else
        let frontendRoot := frontendRootPath appRoot frontend in
        if String.eqb frontendRoot "" then ""
        else match omap (fun f => read_file (Filepath.Join [frontendRoot; f])) vite_files with
             | [] => ""
             | data :: _ =>
               let port := parseVitePort data in
               discoverReachableLoopbackUpstream (if port =? 0 then 5173 else port)
             end.

Definition normalize_frontend (f : FrontendConfig) : FrontendConfig :=
  {| fe_Name := sanitizeLabel (fe_Name f); fe_Host := normalizeHost (fe_Host f);
     fe_Root := Strings.TrimSpace (fe_Root f); fe_Upstream := fe_Upstream f;
     fe_AllowSharedUpstream := fe_AllowSharedUpstream f |}.

Definition with_upstream (f : FrontendConfig) (up : string) : FrontendConfig :=
  {| fe_Name := fe_Name f; fe_Host := fe_Host f; fe_Root := fe_Root f; fe_Upstream := up;
     fe_AllowSharedUpstream := fe_AllowSharedUpstream f |}.

Definition ResolveFrontends (appRoot : string) (frontends : list FrontendConfig) : list FrontendConfig :=
  omap (fun f =>
    let f := normalize_frontend f in
    let f := with_upstream f (DiscoverFrontendUpstream appRoot f) in
    if String.eqb (fe_Upstream f) "" then None else Some f) frontends.

(** ** Configuration *)
Definition normalize_frontends (l : list FrontendConfig) : list FrontendConfig :=
  map (fun f => with_upstream (normalize_frontend f) (normalizeUpstream (fe_Upstream f))) l.

Definition BuildConfig (cfg : Config) : Config :=
  {| Workspace := Workspace cfg; APIHost := APIHost cfg; ConsoleHost := ConsoleHost cfg;
     TemporalHost := TemporalHost cfg; GrafanaHost := GrafanaHost cfg;
     Frontends := normalize_frontends (Frontends cfg);
     APIUpstream := normalizeUpstream (APIUpstream cfg);
     DashboardUpstream := normalizeUpstream (DashboardUpstream cfg);
     TemporalUpstream := normalizeUpstream (TemporalUpstream cfg);
     GrafanaUpstream := normalizeUpstream (GrafanaUpstream cfg);
     HTTPPort_ := HTTPPort; HTTPSPort_ := HTTPSPort; SkipInstallTrust_ := SkipInstallTrust;
     Verbose := Verbose cfg |}.

Definition normalizeConfig (cfg : Config) : Config :=
  {| Workspace := sanitizeLabel (Workspace cfg); APIHost := normalizeHost (APIHost cfg);
     ConsoleHost := normalizeHost (ConsoleHost cfg); TemporalHost := normalizeHost (TemporalHost cfg);
     GrafanaHost := normalizeHost (GrafanaHost cfg);
     Frontends := normalize_frontends (Frontends cfg);
     APIUpstream := normalizeUpstream (APIUpstream cfg);
     DashboardUpstream := normalizeUpstream (DashboardUpstream cfg);
     TemporalUpstream := normalizeUpstream (TemporalUpstream cfg);
     GrafanaUpstream := normalizeUpstream (GrafanaUpstream cfg);
     HTTPPort_ := if HTTPPort_ cfg <=? 0 then defaultHTTPPort else HTTPPort_ cfg;
     HTTPSPort_ := if HTTPSPort_ cfg <=? 0 then defaultHTTPSPort else HTTPSPort_ cfg;
     SkipInstallTrust_ := SkipInstallTrust_ cfg; Verbose := Verbose cfg |}.

Definition nonempty (s : string) : bool := negb (String.eqb s "").

Definition routesFor (cfg : Config) : Routes :=
  let apiHost := resolvedHost (APIHost cfg) (Workspace cfg) "api" in
  let consoleHost := resolvedHost (ConsoleHost cfg) (Workspace cfg) "console" in
  let temporalHost := resolvedHost (TemporalHost cfg) (Workspace cfg) "temporal" in
  let grafanaHost := resolvedHost (GrafanaHost cfg) (Workspace cfg) "grafana" in
  let url up h := if nonempty up && nonempty h then hostURL h (HTTPSPort_ cfg) else "" in
  {| r_APIHost := apiHost; r_ConsoleHost := consoleHost; r_TemporalHost := temporalHost; r_GrafanaHost := grafanaHost;
     r_Frontends := fold_left (fun m f =>
       if negb (nonempty (fe_Host f)) || negb (nonempty (fe_Upstream f)) then m
       else <[fe_Name f := {| fr_Name := fe_Name f; fr_Host := fe_Host f;
                              fr_URL := hostURL (fe_Host f) (HTTPSPort_ cfg) |}]> m) (Frontends cfg) ∅;
     APIURL := if nonempty apiHost then hostURL apiHost (HTTPSPort_ cfg) else "";
     ConsoleURL := url (DashboardUpstream cfg) consoleHost;
     TemporalURL := url (TemporalUpstream cfg) temporalHost;
     GrafanaURL := url (GrafanaUpstream cfg) grafanaHost |}.

Definition PreviewRoutes (cfg : Config) : Routes := routesFor (normalizeConfig (BuildConfig cfg)).

(** [escape] is [url.PathEscape]. *)
Definition ConsoleAppURL (escape : string -> string) (routes : Routes) (appID : string) : string :=
  if String.eqb (ConsoleURL routes) "" then "" else ConsoleURL routes +:+ "/" +:+ escape appID.

(** ** The route table *)
Definition newProxyRoute (h up : string) (rewrite : bool) (p : string) : option proxyRoute :=
  let h := normalizeHost h in
  let up := normalizeUpstream up in
  if String.eqb h "" || String.eqb up "" then None
  else Some {| host := h; path := p; upstream := up; rewriteHost := rewrite |}.

Definition config_route_path : string := "/__scenery/config".

Definition service_routes (h up : string) : routeTable :=
  if nonempty up then option_list (newProxyRoute h up false "") else [].

Definition frontend_routes (cfg : Config) (f : FrontendConfig) : routeTable :=
  if negb (nonempty (fe_Host f)) || negb (nonempty (fe_Upstream f)) then []
  else (if nonempty (APIUpstream cfg) then option_list (newProxyRoute (fe_Host f) (APIUpstream cfg) false config_route_path)
        else [])
       ++ option_list (newProxyRoute (fe_Host f) (fe_Upstream f) true "").

Definition proxyRoutes (cfg : Config) : routeTable :=
  option_list (newProxyRoute (resolvedHost (APIHost cfg) (Workspace cfg) "api") (APIUpstream cfg) false "")
  ++ service_routes (resolvedHost (ConsoleHost cfg) (Workspace cfg) "console") (DashboardUpstream cfg)
  ++ service_routes (resolvedHost (TemporalHost cfg) (Workspace cfg) "temporal") (TemporalUpstream cfg)
  ++ service_routes (resolvedHost (GrafanaHost cfg) (Workspace cfg) "grafana") (GrafanaUpstream cfg)
  ++ concat (map (frontend_routes cfg) (Frontends cfg)).

(** [add] of [routeSubjects]. *)
Definition add_subject (subjects : list string) (h : string) : list string :=
  if String.eqb h "" then subjects
  else if existsb (String.eqb h) subjects then subjects
  else subjects ++ [h].

Definition routeSubjects (cfg : Config) : list string :=
  let add_if (up h : string) (subjects : list string) := if nonempty up then add_subject subjects h else subjects in
  let s := add_subject [] (resolvedHost (APIHost cfg) (Workspace cfg) "api") in
  let s := add_if (DashboardUpstream cfg) (resolvedHost (ConsoleHost cfg) (Workspace cfg) "console") s in
  let s := add_if (TemporalUpstream cfg) (resolvedHost (TemporalHost cfg) (Workspace cfg) "temporal") s in
  let s := add_if (GrafanaUpstream cfg) (resolvedHost (GrafanaHost cfg) (Workspace cfg) "grafana") s in
  fold_left (fun s f => add_if (fe_Upstream f) (fe_Host f) s) (Frontends cfg) s.

(** ** Requests *)
Record Request := {
  rq_Host : string; rq_Path : string; rq_RequestURI : string; rq_Header : Http.Header;
  rq_RemoteAddr : string; rq_TLS : bool
}.

Definition route_matches (h p : string) (route : proxyRoute) : bool :=
  String.eqb (host route) h && (String.eqb (path route) "" || String.eqb (path route) p).

Definition match_ (t : routeTable) (r : Request) : option proxyRoute :=
  List.find (route_matches (requestHost (rq_Host r)) (rq_Path r)) t.

Definition hasHost (t : routeTable) (h : string) : bool :=
  existsb (fun route => String.eqb (host route) (requestHost h)) t.

(** The request sent to the backend: [newReverseProxy]'s Rewrite.  The proxy has
    already removed the forwarding headers of the incoming request. *)
Record Outgoing := { og_Addr : string; og_Host : string; og_URI : string; og_Header : Http.Header }.

Definition without_forwarding (h : Http.Header) : Http.Header :=
  Http.Del (Http.Del (Http.Del (Http.Del h "Forwarded") "X-Forwarded-For") "X-Forwarded-Host") "X-Forwarded-Proto".

(** [ProxyRequest.SetXForwarded]. *)
Definition SetXForwarded (r : Request) (prior : list string) (h : Http.Header) : Http.Header :=
  let h := match Net.SplitHostPort (rq_RemoteAddr r) with
           | Some (clientIP, _) =>
             Http.Set_ h "X-Forwarded-For"
               (match prior with [] => clientIP | _ => Strings.Join prior ", " +:+ ", " +:+ clientIP end)
           | None => Http.Del h "X-Forwarded-For"
           end in
  let h := Http.Set_ h "X-Forwarded-Host" (rq_Host r) in
  Http.Set_ h "X-Forwarded-Proto" (if rq_TLS r then "https" else "http").

Definition rewrite_request (route : proxyRoute) (r : Request) : Outgoing :=
  let prior := Http.Values (rq_Header r) "X-Forwarded-For" in
  {| og_Addr := upstream route;
     og_Host := if rewriteHost route then upstream route else rq_Host r;
     og_URI := rq_RequestURI r;
     og_Header := SetXForwarded r prior (without_forwarding (rq_Header r)) |}.

Inductive response :=
| NotFound
| BadGateway
| Redirect (location : string)
| Forward (o : Outgoing).

Definition ServeHTTP (t : routeTable) (r : Request) : response :=
  match match_ t r with
  | None => NotFound
  | Some route => if dials (upstream route) then Forward (rewrite_request route r) else BadGateway
  end.

Definition redirect_ServeHTTP (t : routeTable) (httpsPort : Z) (r : Request) : response :=
  let h := requestHost (rq_Host r) in
  if negb (hasHost t h) then NotFound
  else Redirect ("https://" +:+ hostForURL h httpsPort +:+ rq_RequestURI r).

(** ** The life of a proxy *)
Record Proxy := {
  p_routes : Routes;
  p_table : routeTable;
  p_subjects : list string;
  p_https : Z;
  p_http : option Z;
  p_closed : bool
}.

Definition Start (cfg : Config) : outcome string Proxy :=
  let cfg := normalizeConfig cfg in
  if String.eqb (APIUpstream cfg) "" then Fail "local proxy requires an API upstream"
  else
    let routes := routesFor cfg in
    if String.eqb (r_APIHost routes) "" then Fail "local proxy requires an API host or workspace label"
    else if nonempty (DashboardUpstream cfg) && String.eqb (r_ConsoleHost routes) ""
    then Fail "local proxy requires a console host when dashboard routing is enabled"
    else match List.find (fun f => nonempty (fe_Upstream f) && String.eqb (fe_Host f) "") (Frontends cfg) with
    | Some f => Fail ("local proxy requires frontend " +:+ fe_Name f +:+ " to define a host")
    | None =>
      match certificates (routeSubjects cfg) with
      | None => Fail "prepare local HTTPS certificates"
      | Some _ =>
        if negb (listens (HTTPSPort_ cfg)) then Fail "listen local HTTPS proxy"
        else
          let http := negb (HTTPPort_ cfg =? HTTPSPort_ cfg) && listens (HTTPPort_ cfg) in
          Ret {| p_routes := routes; p_table := proxyRoutes cfg; p_subjects := routeSubjects cfg;
                 p_https := HTTPSPort_ cfg; p_http := if http then Some (HTTPPort_ cfg) else None;
                 p_closed := false |}
      end
    end.

(** [p.Routes()]; the nil proxy has none. *)
Definition RoutesOf (p : option Proxy) : Routes := match p with Some p => p_routes p | None => no_routes end.

(** The errors of closing, in the order of the calls: the shutdown and the
    listener of each server, whether the goroutines ended in time, and the
    errors they left.  A second call does nothing. *)
Definition Close (p : Proxy) (shutdown : bool -> option string) (listener : bool -> option string)
    (in_time : bool) (serveErrs : list string) : Proxy * list string :=
  if p_closed p then (p, [])
  else
    let http (f : bool -> option string) := match p_http p with Some _ => option_list (f false) | None => [] end in
    ({| p_routes := p_routes p; p_table := p_table p; p_subjects := p_subjects p; p_https := p_https p;
        p_http := p_http p; p_closed := true |},
     http shutdown ++ option_list (shutdown true) ++ http listener ++ option_list (listener true)
     ++ (if in_time then [] else ["timed out closing local HTTPS proxy"]) ++ serveErrs).

(** ** Labels *)

(** A DNS label as [sanitizeLabel] promises it. *)
Definition is_label (l : string) : Prop :=
  Strings.all_bytes label_byte l = true /\ Strings.Contains l "--" = false
  /\ Strings.HasPrefix l "-" = false /\ Strings.HasSuffix l "-" = false.

Lemma Contains_iff s sep : Strings.Contains s sep = true <-> exists a b, s = a +:+ sep +:+ b.
Proof.
  unfold Strings.Contains. split.
  - destruct (Strings.cut_opt s sep) as [[a b]|] eqn:E; [|done]. intros _. exists a, b. by apply Strings.cut_opt_Some.
  - intros (a & b & E). apply Strings.cut_opt_first in E as (? & ? & ? & -> & _). done.
Qed.

Lemma Contains_infix a s b sep : Strings.Contains (a +:+ s +:+ b) sep = false -> Strings.Contains s sep = false.
Proof.
  intros H. apply not_true_is_false. intros (x & y & ->)%Contains_iff. apply not_true_iff_false in H. apply H.
  apply Contains_iff. exists (a +:+ x), (y +:+ b). by rewrite !Strings.string_app_assoc.
Qed.

Lemma TrimLeftSet_infix f s : exists a, s = a +:+ Strings.TrimLeftSet f s.
Proof.
  induction s as [|c s [a IH]]; [by exists ""|]. cbn. destruct (f c); [|by exists ""].
  exists (String c a). by rewrite Strings.string_app_cons, <- IH.
Qed.

Lemma TrimRightSet_infix f s : exists b, s = Strings.TrimRightSet f s +:+ b.
Proof.
  induction s as [|c s [b IH]]; [by exists ""|]. cbn. destruct (_ && _); [by exists (String c s)|].
  exists b. by rewrite Strings.string_app_cons, <- IH.
Qed.

Lemma TrimSet_infix f s : exists a b, s = a +:+ Strings.TrimSet f s +:+ b.
Proof.
  destruct (TrimLeftSet_infix f s) as [a Ha]. destruct (TrimRightSet_infix f (Strings.TrimLeftSet f s)) as [b Hb].
  exists a, b. unfold Strings.TrimSet. by rewrite <- Hb.
Qed.

Lemma all_bytes_infix f a s b : Strings.all_bytes f (a +:+ s +:+ b) = true -> Strings.all_bytes f s = true.
Proof. rewrite !Strings.all_bytes_app, !andb_true_iff. tauto. Qed.

Lemma TrimLeftSet_first f s c r : Strings.TrimLeftSet f s = String c r -> f c = false.
Proof. induction s as [|d s IH]; [done|]. cbn. destruct (f d) eqn:E; [done|]. by intros [= <- <-]. Qed.

Lemma TrimRightSet_first f s c r : Strings.TrimRightSet f s = String c r -> exists r', s = String c r'.
Proof. destruct s as [|d s]; [done|]. cbn. destruct (_ && _); [done|]. intros [= <- <-]. by exists s. Qed.

Lemma TrimRightSet_last f s p c : Strings.TrimRightSet f s = p +:+ String c "" -> f c = false.
Proof.
  revert p. induction s as [|d s IH]; intros p; cbn; [by destruct p|].
  destruct (f d && _) eqn:E; [by destruct p|]. destruct p as [|e p].
  - change ("" +:+ ?x) with x. intros [= -> H]. rewrite H in E. by rewrite andb_true_r in E.
  - rewrite Strings.string_app_cons. intros [= _ H]. eauto.
Qed.

Lemma TrimSet_ends c s :
  Strings.HasPrefix (Strings.Trim s c) (String c "") = false /\ Strings.HasSuffix (Strings.Trim s c) (String c "") = false.
Proof.
  unfold Strings.Trim, Strings.TrimSet. split; apply not_true_is_false.
  - intros [r E]%Strings.HasPrefix_iff. rewrite Strings.string_app_cons in E.
    apply TrimRightSet_first in E as [r' E]. apply TrimLeftSet_first in E. by rewrite Ascii.eqb_refl in E.
  - intros [p E]%Strings.HasSuffix_iff. apply TrimRightSet_last in E. by rewrite Ascii.eqb_refl in E.
Qed.

(** Text that does not begin or end with the byte is kept. *)
Lemma Trim_id c s :
  Strings.HasPrefix s (String c "") = false -> Strings.HasSuffix s (String c "") = false -> Strings.Trim s c = s.
Proof.
  intros Hp Hs. unfold Strings.Trim, Strings.TrimSet.
  assert (Strings.TrimLeftSet (Ascii.eqb c) s = s) as ->.
  { destruct s as [|d s]; [done|]. cbn. destruct (Ascii.eqb_spec c d) as [->|]; [|done]. exfalso.
    apply not_true_iff_false in Hp. apply Hp. apply Strings.HasPrefix_iff. by exists s. }
  clear Hp. induction s as [|d s IH]; [done|]. cbn [Strings.HasSuffix Strings.TrimRightSet] in *.
  apply orb_false_iff in Hs as [Hd Hs]. rewrite (IH Hs).
  destruct (Ascii.eqb_spec c d) as [->|]; [|done]. cbn. destruct (String.eqb_spec s "") as [->|]; [|done].
  by rewrite String.eqb_refl in Hd.
Qed.

Lemma replace_invalid_bytes b s : Strings.all_bytes label_byte (replace_invalid b s) = true.
Proof.
  revert b. induction s as [|c s IH]; intros b; [done|]. cbn. destruct (label_byte c) eqn:E; cbn; [by rewrite E, IH|].
  destruct b; [apply IH|]. cbn. apply IH.
Qed.

Lemma replace_invalid_id b s : Strings.all_bytes label_byte s = true -> replace_invalid b s = s.
Proof. revert b. induction s as [|c s IH]; intros b; [done|]. cbn. rewrite andb_true_iff. intros [-> ?]. by rewrite IH. Qed.

Lemma collapse_dashes_bytes f b s : Strings.all_bytes f s = true -> Strings.all_bytes f (collapse_dashes b s) = true.
Proof.
  revert b. induction s as [|c s IH]; intros b; [done|]. cbn. rewrite andb_true_iff. intros [Hc Hs].
  destruct (Ascii.eqb c "-"), b; cbn; rewrite ?Hc; eauto.
Qed.

Lemma collapse_dashes_first s r : collapse_dashes true s <> String "-" r.
Proof.
  induction s as [|c s IH]; [done|]. cbn. destruct (Ascii.eqb_spec c "-"); [done|]. by intros [= ? _].
Qed.

Lemma collapse_dashes_apart b s : Strings.Contains (collapse_dashes b s) "--" = false.
Proof.
  apply not_true_is_false. intros (x & y & E)%Contains_iff. revert b x E.
  induction s as [|c s IH]; intros b x; [by destruct x|]. cbn [collapse_dashes].
  destruct (Ascii.eqb_spec c "-") as [->|Hc]; [destruct b; [eauto|]|];
    (destruct x as [|e x]; [change ("" +:+ ?z) with z|]; rewrite !Strings.string_app_cons; intros E; injection E).
  - intros E'. by apply collapse_dashes_first in E'.
  - intros E' ?. eauto.
  - done.
  - intros E' ?. eauto.
Qed.

Lemma collapse_dashes_id b s :
  Strings.Contains s "--" = false -> (b = true -> Strings.HasPrefix s "-" = false) -> collapse_dashes b s = s.
Proof.
  revert b. induction s as [|c s IH]; intros b Hs Hb; [done|]. cbn [collapse_dashes].
  assert (Strings.Contains s "--" = false) as Hs'.
  { apply (Contains_infix (String c "") s ""). by rewrite Strings.string_app_nil_r. }
  destruct (Ascii.eqb_spec c "-") as [->|Hc]; [|rewrite IH; done].
  destruct b; [by specialize (Hb eq_refl)|]. rewrite IH; [done..|].
  intros _. apply not_true_is_false. intros [r ->]%Strings.HasPrefix_iff.
  apply not_true_iff_false in Hs. apply Hs. apply Contains_iff. by exists "", r.
Qed.

(** Lower case ASCII is its own lower case. *)
Definition lower_byte (c : ascii) : bool := in_range 33 126 (code c) && negb (in_range 65 90 (code c)).

Lemma ToLower_id s : Strings.all_bytes lower_byte s = true -> Strings.ToLower s = s.
Proof.
  unfold Strings.ToLower. induction s as [|c s IH]; [done|]. cbn [Strings.all_bytes]. rewrite andb_true_iff.
  intros [Hc Hs]. unfold lower_byte, in_range in Hc. rewrite Utf8Facts.runes_cons. unfold Utf8.decode_rune.
  rewrite (proj2 (Z.ltb_lt _ _)) by lia. cbn [map Utf8.encode fst snd]. rewrite (IH Hs).
  unfold Unicode.ToLower. rewrite (proj2 (Z.ltb_lt _ _)) by lia. unfold in_range.
  rewrite andb_true_iff, negb_true_iff in Hc. destruct Hc as [? ->]. unfold Utf8.encode_rune.
  rewrite (proj2 (Z.ltb_ge _ 0)), (proj2 (Z.ltb_lt _ 128)) by lia.
  replace (chr (code c)) with c; [done|]. unfold chr, code. rewrite N2Z.id. symmetry. apply ascii_N_embedding.
Qed.

Lemma label_byte_lower c : label_byte c = true -> lower_byte c = true.
Proof. destruct c as [[] [] [] [] [] [] [] []]; first [discriminate 1|reflexivity]. Qed.

Lemma sanitizeLabel_label value : is_label (sanitizeLabel value).
Proof.
  unfold sanitizeLabel. set (w := collapse_dashes _ _).
  destruct (TrimSet_infix (Ascii.eqb "-") w) as (a & b & E). fold (Strings.Trim w "-") in E.
  split; [|split; [|apply TrimSet_ends]].
  - apply (all_bytes_infix _ a _ b). rewrite <- E. apply collapse_dashes_bytes, replace_invalid_bytes.
  - apply (Contains_infix a _ b). rewrite <- E. apply collapse_dashes_apart.
Qed.

(** For every text [sanitizeLabel] returns a label: lower-case letters,
    digits and dashes only, no two dashes together, none at either end; and the
    labels are exactly the texts it leaves as they are. *)
Theorem sanitizeLabel_exact value :
  is_label (sanitizeLabel value) /\ (is_label value <-> sanitizeLabel value = value).
Proof.
  split; [apply sanitizeLabel_label|]. split; [|intros <-; apply sanitizeLabel_label].
  intros (Hb & Hd & Hp & Hs). unfold sanitizeLabel.
  pose proof (Strings.all_bytes_impl _ _ _ label_byte_lower Hb) as Hlow.
  rewrite Strings.TrimSpace_visible.
  2: { eapply Strings.all_bytes_impl; [|exact Hlow]. by intros c [? _]%andb_true_iff. }
  rewrite ToLower_id by done.
  rewrite replace_invalid_id, collapse_dashes_id by done. by apply Trim_id.
Qed.

(** ** Hosts *)
Definition host_byte (c : ascii) : bool := label_byte c || Ascii.eqb c ".".

Lemma has_byte_Contains c s : Strings.has_byte c s = false -> Strings.Contains s (String c "") = false.
Proof.
  intros H. apply not_true_is_false. intros (a & b & ->)%Contains_iff.
  rewrite !Strings.has_byte_app in H. cbn in H. rewrite Ascii.eqb_refl in H. by rewrite orb_true_r in H.
Qed.

Lemma Contains_longer s a b : Strings.Contains s (String a "") = false -> Strings.Contains s (String a b) = false.
Proof.
  intros H. apply not_true_is_false. intros (x & y & ->)%Contains_iff. apply not_true_iff_false in H. apply H.
  apply Contains_iff. exists x, (b +:+ y). done.
Qed.

Lemma SplitHostPort_no_colon s : Strings.has_byte ":" s = false -> Net.SplitHostPort s = None.
Proof.
  intros H. unfold Net.SplitHostPort. replace (Net.last_colon s) with (@None (string * string)); [done|].
  symmetry. induction s as [|c s IH]; [done|]. cbn in *. apply orb_false_iff in H as [Hc Hs].
  rewrite (IH Hs). destruct (Ascii.eqb_spec c ":") as [->|]; done.
Qed.

Lemma TrimSet_id f s : Strings.all_bytes (fun c => negb (f c)) s = true -> Strings.TrimSet f s = s.
Proof.
  intros H. unfold Strings.TrimSet. assert (Strings.TrimLeftSet f s = s) as ->.
  { destruct s as [|c s]; [done|]. cbn in *. by destruct (f c). }
  induction s as [|c s IH]; [done|]. cbn in *. apply andb_true_iff in H as [Hc Hs]. rewrite (IH Hs).
  by destruct (f c).
Qed.

Lemma normalizeHost_plain s : Strings.all_bytes host_byte s = true -> normalizeHost s = s.
Proof.
  intros H. unfold normalizeHost.
  assert (forall f, (forall c, host_byte c = true -> f c = true) -> Strings.all_bytes f s = true) as Hb.
  { intros f Hf. by eapply Strings.all_bytes_impl. }
  assert (forall c, host_byte c = false -> Strings.has_byte c s = false) as Hc.
  { intros c ?. by eapply Strings.all_bytes_no_byte. }
  rewrite Strings.TrimSpace_visible
    by (apply Hb; intros c; destruct c as [[] [] [] [] [] [] [] []]; first [discriminate 1|reflexivity]).
  rewrite ToLower_id
    by (apply Hb; intros c; destruct c as [[] [] [] [] [] [] [] []]; first [discriminate 1|reflexivity]).
  destruct (String.eqb_spec s "") as [->|_]; [done|]. rewrite (Contains_longer s ":" "//") by (by apply has_byte_Contains, Hc).
  pose proof (has_byte_Contains "/" s (Hc "/"%char eq_refl)) as Hs. unfold Strings.Contains in Hs.
  destruct (Strings.cut_opt s "/") as [[]|]; [done|]. rewrite SplitHostPort_no_colon by by apply Hc.
  apply TrimSet_id. apply Hb. intros c. destruct c as [[] [] [] [] [] [] [] []]; first [discriminate 1|reflexivity].
Qed.

(** The hosts derived from the workspace are already normal. *)
Lemma resolvedHost_normal explicit workspace subdomain :
  Strings.all_bytes host_byte subdomain = true ->
  normalizeHost (normalizeHost explicit) = normalizeHost explicit ->
  normalizeHost (resolvedHost explicit workspace subdomain) = resolvedHost explicit workspace subdomain.
Proof.
  intros Hs He. unfold resolvedHost. destruct (String.eqb_spec (normalizeHost explicit) "") as [_|_]; [|done].
  cbn [negb]. destruct (String.eqb_spec (sanitizeLabel workspace) ""); [done|]. apply normalizeHost_plain.
  rewrite !Strings.all_bytes_app, Hs. cbn [andb]. rewrite andb_true_r. cbn.
  destruct (sanitizeLabel_label workspace) as [H _]. eapply Strings.all_bytes_impl; [|exact H].
  intros c Hc. unfold host_byte. by rewrite Hc.
Qed.

(** ** The certificate and the routes *)
Lemma elem_of_add_subject s h x : x ∈ add_subject s h <-> x ∈ s \/ (x = h /\ h <> "").
Proof.
  unfold add_subject. destruct (String.eqb_spec h "") as [->|Hh]; [tauto|].
  destruct (existsb (String.eqb h) s) eqn:E.
  - apply existsb_exists in E as (y & Hy%list_elem_of_In & ->%String.eqb_eq). split; [tauto|]. by intros [?|[-> _]].
  - rewrite elem_of_app, list_elem_of_singleton. naive_solver.
Qed.

Lemma NoDup_add_subject s h : NoDup s -> NoDup (add_subject s h).
Proof.
  intros Hs. unfold add_subject. destruct (String.eqb h ""); [done|]. destruct (existsb _ _) eqn:E; [done|].
  apply NoDup_app. split; [done|]. split; [|apply NoDup_singleton]. intros x Hx ->%list_elem_of_singleton.
  apply not_true_iff_false in E. apply E. apply existsb_exists. exists h. rewrite String.eqb_refl. by rewrite <- list_elem_of_In.
Qed.

(** The subjects of the certificate. *)
Definition subject_of (cfg : Config) (x : string) : Prop :=
  x = resolvedHost (APIHost cfg) (Workspace cfg) "api"
  \/ nonempty (DashboardUpstream cfg) = true /\ x = resolvedHost (ConsoleHost cfg) (Workspace cfg) "console"
  \/ nonempty (TemporalUpstream cfg) = true /\ x = resolvedHost (TemporalHost cfg) (Workspace cfg) "temporal"
  \/ nonempty (GrafanaUpstream cfg) = true /\ x = resolvedHost (GrafanaHost cfg) (Workspace cfg) "grafana"
  \/ exists f, f ∈ Frontends cfg /\ nonempty (fe_Upstream f) = true /\ x = fe_Host f.

Lemma elem_of_add_if (up h : string) (s : list string) x :
  x ∈ (if nonempty up then add_subject s h else s) <-> x ∈ s \/ (nonempty up = true /\ x = h /\ h <> "").
Proof. destruct (nonempty up); rewrite ?elem_of_add_subject; naive_solver. Qed.

Lemma elem_of_routeSubjects cfg x : x <> "" -> x ∈ routeSubjects cfg <-> subject_of cfg x.
Proof.
  intros Hx. unfold routeSubjects. cbv zeta.
  assert (forall l s, x ∈ fold_left (fun s f => if nonempty (fe_Upstream f) then add_subject s (fe_Host f) else s) l s
    <-> x ∈ s \/ exists f, f ∈ l /\ nonempty (fe_Upstream f) = true /\ x = fe_Host f) as Hfold.
  { induction l as [|f l IH]; intros s; cbn [fold_left]; [|rewrite IH, elem_of_add_if]; set_solver. }
  rewrite Hfold, !elem_of_add_if, elem_of_add_subject. unfold subject_of.
  split; [|intros H; repeat destruct H as [H|H]]; set_solver.
Qed.

Lemma routeSubjects_NoDup cfg : NoDup (routeSubjects cfg).
Proof.
  unfold routeSubjects. cbv zeta. set (s := if nonempty (GrafanaUpstream cfg) then _ else _).
  assert (NoDup s) as Hs.
  { unfold s. repeat case_match; repeat apply NoDup_add_subject; apply NoDup_nil_2. }
  revert Hs. generalize s as u. induction (Frontends cfg) as [|f l IH]; intros u Hu; [done|]. cbn. apply IH.
  case_match; [by apply NoDup_add_subject|done].
Qed.

(** Where a route of the table comes from. *)
Lemma newProxyRoute_Some h up rw p route :
  newProxyRoute h up rw p = Some route ->
  route = {| host := normalizeHost h; path := p; upstream := normalizeUpstream up; rewriteHost := rw |}
  /\ normalizeHost h <> "" /\ normalizeUpstream up <> "".
Proof. unfold newProxyRoute. destruct (_ || _) eqn:E; [done|]. intros [= <-]. apply orb_false_iff in E as [?%String.eqb_neq ?%String.eqb_neq]. done. Qed.

Lemma elem_of_option_list {A} (o : option A) x : x ∈ option_list o <-> o = Some x.
Proof. destruct o; cbn; set_solver. Qed.

Lemma service_routes_from h up route :
  route ∈ service_routes h up -> nonempty up = true /\ newProxyRoute h up false "" = Some route.
Proof. unfold service_routes. destruct (nonempty up); [rewrite elem_of_option_list|]; set_solver. Qed.

Lemma frontend_routes_from cfg f route :
  route ∈ frontend_routes cfg f -> nonempty (fe_Upstream f) = true /\ host route = normalizeHost (fe_Host f) /\ host route <> "".
Proof.
  unfold frontend_routes. destruct (nonempty (fe_Host f)), (nonempty (fe_Upstream f)); cbn [negb orb]; try set_solver.
  rewrite elem_of_app. intros [H|H]; [destruct (nonempty (APIUpstream cfg)); [|set_solver]|];
    apply elem_of_option_list, newProxyRoute_Some in H as (-> & ? & ?); done.
Qed.

Lemma proxyRoutes_subject cfg route :
  route ∈ proxyRoutes cfg ->
  host route <> "" /\ exists x, host route = normalizeHost x /\ subject_of cfg x.
Proof.
  unfold proxyRoutes, subject_of. rewrite !elem_of_app. intros [H|[H|[H|[H|H]]]].
  - apply elem_of_option_list, newProxyRoute_Some in H as (-> & ? & ?). naive_solver.
  - apply service_routes_from in H as (? & (-> & ? & ?)%newProxyRoute_Some). naive_solver.
  - apply service_routes_from in H as (? & (-> & ? & ?)%newProxyRoute_Some). naive_solver.
  - apply service_routes_from in H as (? & (-> & ? & ?)%newProxyRoute_Some). naive_solver.
  - apply list_elem_of_In, in_concat in H as (rs & (f & <- & Hf)%in_map_iff & Hr%list_elem_of_In).
    apply frontend_routes_from in Hr as (? & Eh & ?). rewrite <- list_elem_of_In in Hf. split; [done|].
    exists (fe_Host f). split; [done|]. do 4 right. by exists f.
Qed.

Definition explicit_hosts (cfg : Config) : list string :=
  [APIHost cfg; ConsoleHost cfg; TemporalHost cfg; GrafanaHost cfg] ++ map fe_Host (Frontends cfg).

Definition host_stable (h : string) : Prop := normalizeHost (normalizeHost h) = normalizeHost h.

Lemma subject_of_normal cfg x :
  Forall host_stable (explicit_hosts cfg) -> subject_of (normalizeConfig cfg) x -> normalizeHost x = x.
Proof.
  unfold explicit_hosts. rewrite Forall_app, !Forall_cons.
  intros ((H1 & H2 & H3 & H4 & _) & Hf). unfold subject_of.
  intros [->|[[_ ->]|[[_ ->]|[[_ ->]|(f & Hin & _ & ->)]]]];
    [apply resolvedHost_normal; [done|]; cbn; unfold host_stable in *; congruence..|].
  cbn in Hin. unfold normalize_frontends in Hin. apply list_elem_of_In, in_map_iff in Hin as (g & <- & Hg%list_elem_of_In).
  rewrite Forall_forall in Hf. apply (Hf (fe_Host g)). by apply list_elem_of_fmap_2.
Qed.

Lemma Start_Ret cfg p : Start cfg = Ret p ->
  p_table p = proxyRoutes (normalizeConfig cfg) /\ p_subjects p = routeSubjects (normalizeConfig cfg)
  /\ p_routes p = routesFor (normalizeConfig cfg) /\ p_closed p = false.
Proof. unfold Start. cbv zeta. repeat (case_match; [done|]). repeat case_match; try done; by intros [= <-]. Qed.

(** When the explicit hosts are unchanged by a second normalization, the
    certificate of a started proxy names the host of every route, each once. *)
Theorem certificate_covers_routes cfg p route :
  Forall host_stable (explicit_hosts cfg) -> Start cfg = Ret p -> route ∈ p_table p ->
  host route ∈ p_subjects p /\ NoDup (p_subjects p).
Proof.
  intros Hst (Ht & Hs & _)%Start_Ret Hr. rewrite Ht in Hr. rewrite Hs. split; [|apply routeSubjects_NoDup].
  destruct (proxyRoutes_subject _ _ Hr) as (Hne & x & Ex & Hx).
  rewrite (subject_of_normal _ _ Hst Hx) in Ex. subst x. by apply elem_of_routeSubjects.
Qed.

(** ** Routing *)
Lemma find_app_None {A} (f : A -> bool) l k : Forall (fun x => f x = false) l -> List.find f (l ++ k) = List.find f k.
Proof. induction 1 as [|x l Hx _ IH]; [done|]. cbn. by rewrite Hx. Qed.

Lemma find_app_Some {A} (f : A -> bool) l k x : List.find f l = Some x -> List.find f (l ++ k) = Some x.
Proof. induction l as [|y l IH]; [done|]. cbn. by destruct (f y). Qed.

(** No service has the host. *)
Definition service_hosts (cfg : Config) : list string :=
  [resolvedHost (APIHost cfg) (Workspace cfg) "api"; resolvedHost (ConsoleHost cfg) (Workspace cfg) "console";
   resolvedHost (TemporalHost cfg) (Workspace cfg) "temporal"; resolvedHost (GrafanaHost cfg) (Workspace cfg) "grafana"].

Lemma service_route_other h up rw p x q :
  normalizeHost h <> x -> Forall (fun r => route_matches x q r = false) (option_list (newProxyRoute h up rw p)).
Proof.
  intros Hh. apply Forall_forall. intros r (-> & _)%elem_of_option_list%newProxyRoute_Some.
  unfold route_matches. cbn. by rewrite (proj2 (String.eqb_neq _ _)).
Qed.

Lemma service_routes_other h up x q :
  normalizeHost h <> x -> Forall (fun r => route_matches x q r = false) (service_routes h up).
Proof. intros. unfold service_routes. destruct (nonempty up); [by apply service_route_other|constructor]. Qed.

Lemma frontend_routes_other cfg f x q :
  normalizeHost (fe_Host f) <> x -> Forall (fun r => route_matches x q r = false) (frontend_routes cfg f).
Proof.
  intros H. apply Forall_forall. intros r (_ & Hr & _)%frontend_routes_from.
  unfold route_matches. by rewrite (proj2 (String.eqb_neq _ _)) by congruence.
Qed.

(** The routes of a frontend whose host and upstreams are usable. *)
Definition frontend_route (cfg : Config) (f : FrontendConfig) (q : string) : proxyRoute :=
  if String.eqb q config_route_path
  then {| host := normalizeHost (fe_Host f); path := config_route_path; upstream := normalizeUpstream (APIUpstream cfg);
          rewriteHost := false |}
  else {| host := normalizeHost (fe_Host f); path := ""; upstream := normalizeUpstream (fe_Upstream f); rewriteHost := true |}.

Lemma nonempty_normalizeHost h : normalizeHost h <> "" -> nonempty h = true.
Proof. unfold nonempty. destruct (String.eqb_spec h "") as [->|]; [|done]. by vm_compute. Qed.

Lemma nonempty_normalizeUpstream u : normalizeUpstream u <> "" -> nonempty u = true.
Proof. unfold nonempty. destruct (String.eqb_spec u "") as [->|]; [|done]. by vm_compute. Qed.

Lemma newProxyRoute_usable h up rw p :
  normalizeHost h <> "" -> normalizeUpstream up <> "" ->
  newProxyRoute h up rw p = Some {| host := normalizeHost h; path := p; upstream := normalizeUpstream up; rewriteHost := rw |}.
Proof. intros. unfold newProxyRoute. by rewrite !(proj2 (String.eqb_neq _ _)). Qed.

Lemma frontend_routes_find cfg f q :
  normalizeHost (fe_Host f) <> "" -> normalizeUpstream (fe_Upstream f) <> "" -> normalizeUpstream (APIUpstream cfg) <> "" ->
  List.find (route_matches (normalizeHost (fe_Host f)) q) (frontend_routes cfg f) = Some (frontend_route cfg f q).
Proof.
  intros Hh Hu Ha. unfold frontend_routes.
  rewrite (nonempty_normalizeUpstream (fe_Upstream f)), (nonempty_normalizeUpstream (APIUpstream cfg)),
    nonempty_normalizeHost, !newProxyRoute_usable by done.
  unfold frontend_route. rewrite String.eqb_sym. cbn -[config_route_path String.eqb route_matches].
  unfold route_matches. cbn -[config_route_path String.eqb]. rewrite !String.eqb_refl.
  by destruct (String.eqb config_route_path q).
Qed.

(** A request for the host of a frontend that no service and no other
    frontend uses is forwarded with its URI: [/__scenery/config] to the API
    with its Host, everything else to the frontend with the Host rewritten;
    an upstream that cannot be reached is a 502. *)
Theorem frontend_routing cfg f r :
  f ∈ Frontends cfg ->
  (forall h, h ∈ service_hosts cfg -> normalizeHost h <> requestHost (rq_Host r)) ->
  (forall g, g ∈ Frontends cfg -> normalizeHost (fe_Host g) = requestHost (rq_Host r) -> g = f) ->
  requestHost (rq_Host r) = normalizeHost (fe_Host f) -> requestHost (rq_Host r) <> "" ->
  normalizeUpstream (fe_Upstream f) <> "" -> normalizeUpstream (APIUpstream cfg) <> "" ->
  let config := String.eqb (rq_Path r) "/__scenery/config" in
  let up := normalizeUpstream (if config then APIUpstream cfg else fe_Upstream f) in
  match ServeHTTP (proxyRoutes cfg) r with
  | Forward o => dials up = true /\ og_Addr o = up /\ og_Host o = (if config then rq_Host r else up)
                 /\ og_URI o = rq_RequestURI r
  | BadGateway => dials up = false
  | _ => False
  end.
Proof.
  intros Hf Hsvc Hone Eh Hne Hu Ha. cbv zeta. rewrite Eh in Hne.
  assert (match_ (proxyRoutes cfg) r = Some (frontend_route cfg f (rq_Path r))) as Hm.
  { unfold match_, proxyRoutes. unfold service_hosts in Hsvc.
    rewrite !find_app_None by (first [apply service_routes_other|apply service_route_other]; apply Hsvc; set_solver).
    revert Hf Hone. induction (Frontends cfg) as [|g l IH]; intros Hf Hone; [by apply elem_of_nil in Hf|]. cbn.
    destruct (decide (normalizeHost (fe_Host g) = requestHost (rq_Host r))) as [E|E].
    - assert (g = f) as -> by (apply Hone; [by left|done]). apply find_app_Some. rewrite Eh. by apply frontend_routes_find.
    - rewrite find_app_None by by apply frontend_routes_other. apply IH; [|set_solver].
      apply elem_of_cons in Hf as [->|]; [congruence|done]. }
  unfold ServeHTTP. rewrite Hm. unfold frontend_route, config_route_path.
  destruct (String.eqb (rq_Path r) "/__scenery/config"); cbn; by destruct (dials _) eqn:E.
Qed.

(** A plain HTTP request is redirected only when its host, normalized
    twice, is the host of a route; when normalizing once is enough, the
    redirect goes to that host, on the HTTPS port, with the request's URI. *)
Theorem redirect_known_host t httpsPort r :
  match redirect_ServeHTTP t httpsPort r with
  | Redirect location => exists route, route ∈ t /\ requestHost (requestHost (rq_Host r)) = host route
      /\ (requestHost (requestHost (rq_Host r)) = requestHost (rq_Host r) ->
          location = "https://" +:+ hostForURL (host route) httpsPort +:+ rq_RequestURI r)
  | NotFound => forall route, route ∈ t -> host route <> requestHost (requestHost (rq_Host r))
  | _ => False
  end.
Proof.
  unfold redirect_ServeHTTP, hasHost. destruct (existsb _ t) eqn:E; cbn [negb].
  - apply existsb_exists in E as (route & Hr%list_elem_of_In & Eh%String.eqb_eq). exists route.
    split; [done|]. split; [done|]. intros Hi. by rewrite Eh, Hi.
  - intros route Hr Eh. apply not_true_iff_false in E. apply E. apply existsb_exists. exists route.
    rewrite <- list_elem_of_In. by rewrite Eh, String.eqb_refl.
Qed.

(** One level of [normalizeUpstream]'s recursion is all of it: the host of a URL
    has no slash. *)
Lemma normalizeUpstream_fuel n value :
  (forall v h, url_host v = Some h -> Strings.has_byte "/" h = false) ->
  normalize_upstream (S n) value = normalizeUpstream value.
Proof.
  intros Hslash. unfold normalizeUpstream. cbn [normalize_upstream].
  destruct (String.eqb _ _), (Strings.Contains (Strings.TrimSpace value) "://"); try done.
  destruct (url_host (Strings.TrimSpace value)) as [h|] eqn:Eh; [|done]. destruct (negb (String.eqb h "")); [|done].
  assert (Strings.Contains (Strings.TrimSpace h) "://" = false) as Hc; [|destruct n; cbn [normalize_upstream]; by rewrite Hc].
  apply not_true_is_false. intros (a & b & E)%Contains_iff.
  pose proof (Strings.has_byte_TrimSpace "/" h (Hslash _ _ Eh)) as Hb. rewrite E, !Strings.has_byte_app in Hb.
  cbn in Hb. by rewrite orb_true_r in Hb.
Qed.
End proxy.

(** ** An example *)
Definition demo_env : ProxyEnv :=
  {| getenv := fun _ => ""; url_host := fun _ => None; read_file := fun _ => None;
     dials := fun a => String.eqb a "127.0.0.1:5173" || String.eqb a "127.0.0.1:4000";
     certificates := fun _ => Some "/ca.pem"; listens := fun _ => true |}.
#[local] Existing Instance demo_env.
#[local] Existing Instance ascii_tables.

Definition demo_frontend : FrontendConfig :=
  {| fe_Name := "Web"; fe_Host := "WEB.demo.localhost"; fe_Root := ""; fe_Upstream := ":5173"; fe_AllowSharedUpstream := false |}.
Definition demo_with (frontends : list FrontendConfig) (api_host : string) : Config :=
  {| Workspace := "My Demo!"; APIHost := api_host; ConsoleHost := ""; TemporalHost := ""; GrafanaHost := "";
     Frontends := frontends; APIUpstream := "0.0.0.0:4000"; DashboardUpstream := "127.0.0.1:9400";
     TemporalUpstream := ""; GrafanaUpstream := ""; HTTPPort_ := 0; HTTPSPort_ := 8443; SkipInstallTrust_ := true;
     Verbose := false |}.
Definition demo_config : Config := demo_with [demo_frontend] "".
Definition demo_request (h p : string) : Request :=
  {| rq_Host := h; rq_Path := p; rq_RequestURI := p +:+ "?q=1"; rq_Header := []; rq_RemoteAddr := "127.0.0.1:60000";
     rq_TLS := true |}.

Example demo_labels :
  sanitizeLabel "My Demo!" = "my-demo" /\ sanitizeLabel "--" = "" /\ sanitizeLabel "a__b  -c" = "a-b-c".
Proof. repeat split; vm_compute; reflexivity. Qed.

Example demo_subjects :
  routeSubjects (normalizeConfig demo_config)
  = ["api.my-demo.localhost"; "console.my-demo.localhost"; "web.demo.localhost"].
Proof. vm_compute. reflexivity. Qed.

Lemma certificate_covers_routes_witness :
  match Start demo_config with
  | Ret p => match p_table p with
             | route :: _ => host route ∈ p_subjects p /\ NoDup (p_subjects p)
             | [] => False
             end
  | _ => False
  end.
Proof.
  destruct (Start demo_config) as [p|e|] eqn:E; [|vm_compute in E; discriminate E..].
  destruct (p_table p) as [|route t] eqn:Et.
  - apply Start_Ret in E as (E & _). rewrite E in Et. vm_compute in Et. discriminate Et.
  - apply (certificate_covers_routes demo_config p route).
    + repeat (apply Forall_cons_2; [vm_compute; reflexivity|]). apply Forall_nil_2.
    + exact E.
    + rewrite Et. left.
Defined.

Lemma frontend_routing_witness :
  match ServeHTTP (proxyRoutes (normalizeConfig demo_config)) (demo_request "web.demo.localhost:8443" "/index.html") with
  | Forward o => og_Addr o = "127.0.0.1:5173" /\ og_Host o = "127.0.0.1:5173" /\ og_URI o = "/index.html?q=1"
  | _ => False
  end.
Proof.
  pose proof (frontend_routing (normalizeConfig demo_config) (List.hd demo_frontend (Frontends (normalizeConfig demo_config)))
    (demo_request "web.demo.localhost:8443" "/index.html")) as H.
  assert (forall h, h ∈ service_hosts (normalizeConfig demo_config) -> normalizeHost h <> "web.demo.localhost") as Hs.
  { apply (Forall_forall (fun h => normalizeHost h <> "web.demo.localhost")).
    repeat (apply Forall_cons_2; [vm_compute; discriminate|]). apply Forall_nil_2. }
  specialize (H ltac:(vm_compute; left)). specialize (H Hs).
  specialize (H ltac:(intros g Hg _; apply list_elem_of_singleton in Hg; exact Hg)).
  specialize (H ltac:(vm_compute; reflexivity) ltac:(vm_compute; discriminate) ltac:(vm_compute; discriminate)
    ltac:(vm_compute; discriminate)).
  vm_compute in H. vm_compute. destruct H as (_ & H1 & H2 & H3). repeat split.
Defined.

(** A host written in brackets is accepted with any port, and the redirect keeps
    that port: the handler looks the host up after normalizing it twice. *)
Example redirect_keeps_port :
  redirect_ServeHTTP (proxyRoutes (normalizeConfig demo_config)) 443 (demo_request "[web.demo.localhost:1]" "/")
  = Redirect "https://web.demo.localhost:1/?q=1".
Proof. vm_compute. reflexivity. Qed.

(** A frontend's host in brackets with a port is normalized once for the
    certificate and twice for its routes: no subject is the host of the routes. *)
Example bracketed_host_without_certificate :
  let f := {| fe_Name := "web"; fe_Host := "[web.localhost:1]"; fe_Root := ""; fe_Upstream := ":5173";
              fe_AllowSharedUpstream := false |} in
  let cfg := normalizeConfig (demo_with [f] "") in
  routeSubjects cfg = ["api.my-demo.localhost"; "console.my-demo.localhost"; "web.localhost:1"]
  /\ map host (proxyRoutes cfg)
     = ["api.my-demo.localhost"; "console.my-demo.localhost"; "web.localhost"; "web.localhost"].
Proof. vm_compute. repeat split. Qed.
End LocalProxy.
