(* ===== verification/Fs.v ===== *)
(** * A file system with symbolic links

    [Fs] models what the toolchain store uses of package os: a tree of
    directories, files and symbolic links, the kernel's resolution of a path,
    and the calls [Stat], [ReadFile], [MkdirAll], [OpenFile] for writing,
    [Symlink], [RemoveAll] and [Rename].  A world is a tree and the faults still
    to come: every call takes the next one, a fault makes it fail, a write may
    leave a prefix behind and a removal may stop half way.  A file's permissions
    are the question whether it is executable. *)
From stdpp Require Import base tactics list gmap strings.
From Stdlib Require Import ZArith Lia Ascii.
From S2P Require Import Prelude GoStrings Paths.

Module Fs.
Abbreviation path := (list string).

Inductive node :=
| Directory
| File (data : string) (exec : bool)
| Link (target : string).

Abbreviation fs := (gmap (list string) node).

#[export] Instance node_eq_dec : EqDecision node.
Proof. solve_decision. Defined.

(** ** Subtrees *)
Fixpoint strip (q p : path) : option path :=
  match q, p with
  | [], _ => Some p
  | a :: q', b :: p' => if String.eqb a b then strip q' p' else None
  | _ :: _, [] => None
  end.

(** What is at and below [q], by the path from [q]. *)
Definition subtree (q : path) (t : fs) : fs :=
  map_fold (fun p n acc => match strip q p with Some r => <[r := n]> acc | None => acc end) ∅ t.

Definition without (q : path) (t : fs) : fs := filter (fun e => strip q e.1 = None) t.

Definition graft (q : path) (s t : fs) : fs := kmap (app q) s ∪ without q t.

(** The node at a resolved path; the root is a directory. *)
Definition at_ (t : fs) (p : path) : option node := match p with [] => Some Directory | _ => t !! p end.

(** ** Resolution *)

(** The kernel follows at most forty links. *)
Definition max_links : nat := 40.

(** The path that [es] names from [cur]; its last element need not exist.  With
    [follow] a link at the end is followed too. *)
Fixpoint walk (links : nat) (t : fs) (follow : bool) : path -> list string -> option path :=
  fix go (cur : path) (es : list string) : option path :=
    match es with
    | [] => Some cur
    | e :: rest =>
      if String.eqb e "." then go cur rest
      else if String.eqb e ".." then go (removelast cur) rest
      else
        let here := cur ++ [e] in
        match t !! here with
        | Some (Link target) =>
          if negb follow && bool_decide (rest = []) then Some here
          else match links with
               | O => None
               | S n => walk n t follow (if Filepath.IsAbs target then [] else cur) (Paths.elems target ++ rest)
               end
        | Some Directory => go here rest
        | _ => match rest with [] => Some here | _ => None end
        end
    end.

#[global] Arguments walk : simpl never.

(** ** Worlds *)
Record fault := { fails : bool; written : nat; kept : path -> bool }.

Record world := { tree : fs; faults : list fault; cwd : path }.

Definition M (A : Type) : Type := world -> world * outcome string A.
#[export] Instance M_ret : MRet M := fun _ x w => (w, Ret x).
#[export] Instance M_bind : MBind M := fun _ _ f m w =>
  match m w with
  | (w', Ret x) => f x w'
  | (w', Fail e) => (w', Fail e)
  | (w', Panic e) => (w', Panic e)
  end.
Definition fail {A} (e : string) : M A := fun w => (w, Fail e).
Definition lift {A} (o : outcome string A) : M A := fun w => (w, o).
(** The error is dropped, as in [_ = f()]. *)
Definition ignore (m : M unit) : M unit := fun w => ((m w).1, Ret tt).
(** [defer]: the call runs after [m], whatever came of it. *)
Definition defer (d : M unit) (m : M unit) : M unit := fun w => let '(w', r) := m w in ((d w').1, r).

Definition resolve (w : world) (follow : bool) (p : string) : option path :=
  walk max_links (tree w) follow (if Filepath.IsAbs p then [] else cwd w) (Paths.elems p).

#[global] Arguments resolve : simpl never.

Definition set_tree (w : world) (t : fs) (fl : list fault) : world := {| tree := t; faults := fl; cwd := cwd w |}.

(** A call: [ok] when the next fault lets it, else what [failed] leaves. *)
Definition syscall {A} (ok : world -> outcome string (fs * A)) (failed : world -> fault -> fs) : M A := fun w =>
  let '(f, rest) := match faults w with [] => (None, []) | f :: rest => (if fails f then Some f else None, rest) end in
  match f with
  | Some f => (set_tree w (failed w f) rest, Fail "input/output error")
  | None =>
    match ok w with
    | Ret (t, x) => (set_tree w t rest, Ret x)
    | Fail e => (set_tree w (tree w) rest, Fail e)
    | Panic e => (set_tree w (tree w) rest, Panic e)
    end
  end.

Definition unchanged (w : world) (_ : fault) : fs := tree w.

(** ** Calls *)
Definition Stat (p : string) : M node := syscall (fun w =>
  match resolve w true p with
  | Some q => match at_ (tree w) q with Some n => Ret (tree w, n) | None => Fail "no such file or directory" end
  | None => Fail "no such file or directory"
  end) unchanged.

Definition ReadFile (p : string) : M string := syscall (fun w =>
  match resolve w true p with
  | Some q =>
    match at_ (tree w) q with
    | Some (File data _) => Ret (tree w, data)
    | Some _ => Fail "is a directory"
    | None => Fail "no such file or directory"
    end
  | None => Fail "no such file or directory"
  end) unchanged.

(** [os.Mkdir] of the elements [es] from [start]. *)
Definition mkdir (start : path) (es : list string) : M unit := syscall (fun w =>
  match walk max_links (tree w) false start es with
  | Some q => match at_ (tree w) q with Some _ => Fail "file exists" | None => Ret (<[q := Directory]> (tree w), tt) end
  | None => Fail "no such file or directory"
  end) unchanged.

(** [os.Stat] and [os.Lstat] of [os.MkdirAll]: is there a node, and is it a
    directory? *)
Definition stat_at (follow : bool) (start : path) (es : list string) : M (option bool) := fun w =>
  (w, Ret (match walk max_links (tree w) follow start es with
           | Some q => match at_ (tree w) q with
                       | Some Directory => Some true
                       | Some _ => Some false
                       | None => None
                       end
           | None => None
           end)).

Definition attempt {A} (m : M A) : M (outcome string A) := fun w => let '(w', r) := m w in (w', Ret r).

(** The elements are reversed: the recursion is on the parent. *)
Fixpoint mkdir_all (start : path) (res : list string) : M unit :=
  match res with
  | [] => mret tt
  | _ :: parent =>
    found ← stat_at true start (rev res);
    match found with
    | Some true => mret tt
    | Some false => fail "not a directory"
    | None =>
      _ ← mkdir_all start parent;
      made ← attempt (mkdir start (rev res));
      match made with
      | Ret _ => mret tt
      | Fail e =>
        again ← stat_at false start (rev res);
        match again with Some true => mret tt | _ => fail e end
      | Panic e => lift (Panic e)
      end
    end
  end.

Definition MkdirAll (p : string) : M unit := fun w =>
  mkdir_all (if Filepath.IsAbs p then [] else cwd w) (rev (Paths.elems p)) w.

(** [OpenFile] with [O_CREATE|O_WRONLY|O_TRUNC], the data and [Close]; an
    existing file keeps its mode.  A fault may leave a prefix. *)
Definition put_file (t : fs) (q : path) (data : string) (exec : bool) : option fs :=
  match at_ t q with
  | Some (File _ x) => Some (<[q := File data x]> t)
  | None => Some (<[q := File data exec]> t)
  | _ => None
  end.

Definition WriteFile (p data : string) (exec : bool) : M unit := syscall (fun w =>
  match resolve w true p with
  | Some q => match put_file (tree w) q data exec with Some t => Ret (t, tt) | None => Fail "is a directory" end
  | None => Fail "no such file or directory"
  end)
  (fun w f =>
    match written f, resolve w true p with
    | S n, Some q => default (tree w) (put_file (tree w) q (String.substring 0 n data) exec)
    | _, _ => tree w
    end).

Definition Symlink (target p : string) : M unit := syscall (fun w =>
  match resolve w false p with
  | Some q => match at_ (tree w) q with Some _ => Fail "file exists" | None => Ret (<[q := Link target]> (tree w), tt) end
  | None => Fail "no such file or directory"
  end) unchanged.

(** A removal that fails has removed some of the nodes. *)
Definition RemoveAll (p : string) : M unit := syscall (fun w =>
  match resolve w false p with
  | Some [] => Fail "invalid argument"
  | Some q => Ret (without q (tree w), tt)
  | None => Ret (tree w, tt)
  end)
  (fun w f =>
    match resolve w false p with
    | Some ((_ :: _) as q) => filter (fun e => strip q e.1 = None \/ kept f e.1 = true) (tree w)
    | _ => tree w
    end).

(** A directory is renamed over an empty one only. *)
Definition Rename (old new : string) : M unit := syscall (fun w =>
  match resolve w false old, resolve w false new with
  | Some a, Some b =>
    if bool_decide (is_Some (strip a b)) then Fail "invalid argument"
    else match at_ (tree w) a, at_ (tree w) b with
    | Some Directory, Some Directory =>
      if bool_decide (delete [] (subtree b (tree w)) = ∅) then Ret (graft b (subtree a (tree w)) (without a (tree w)), tt)
      else Fail "directory not empty"
    | Some Directory, Some _ => Fail "not a directory"
    | Some _, Some Directory => Fail "file exists"
    | Some _, _ => Ret (graft b (subtree a (tree w)) (without a (tree w)), tt)
    | None, _ => Fail "no such file or directory"
    end
  | _, _ => Fail "no such file or directory"
  end) unchanged.

(** ** Subtrees and single nodes *)
Lemma strip_Some q p r : strip q p = Some r <-> p = q ++ r.
Proof.
  revert p. induction q as [|a q IH]; intros p; cbn; [split; congruence|].
  destruct p as [|b p]; [done|]. destruct (String.eqb_spec a b) as [->|Hne]; [rewrite IH; split; congruence|].
  split; [done|]. intros [= ? _]. congruence.
Qed.

Lemma strip_app q r : strip q (q ++ r) = Some r.
Proof. by apply strip_Some. Qed.

Lemma strip_None q p : strip q p = None <-> forall r, p <> q ++ r.
Proof.
  split; [intros H r ->; by rewrite strip_app in H|]. intros H. destruct (strip q p) as [r|] eqn:E; [|done].
  apply strip_Some in E. by destruct (H r).
Qed.

Lemma lookup_subtree q t r : subtree q t !! r = t !! (q ++ r).
Proof.
  unfold subtree. revert r. apply (map_fold_weak_ind (fun acc m => forall r, acc !! r = m !! (q ++ r))).
  - intros r. by rewrite !lookup_empty.
  - intros p n m acc Hp IH r. destruct (strip q p) as [r0|] eqn:E.
    + apply strip_Some in E as ->. destruct (decide (r0 = r)) as [->|Hne]; [by rewrite !lookup_insert_eq|].
      rewrite !lookup_insert_ne; [apply IH| |done]. intros ?%app_inv_head. done.
    + rewrite lookup_insert_ne; [apply IH|]. by apply strip_None.
Qed.

Lemma lookup_without q t p : without q t !! p = match strip q p with Some _ => None | None => t !! p end.
Proof.
  unfold without. destruct (strip q p) eqn:E.
  - apply map_lookup_filter_None. right. intros n _. cbn. congruence.
  - apply option_eq. intros n. rewrite map_lookup_filter_Some. cbn. by rewrite E; intuition.
Qed.

Lemma lookup_graft_in q s t r : graft q s t !! (q ++ r) = s !! r.
Proof.
  unfold graft. rewrite lookup_union, lookup_without, strip_app. rewrite (right_id_L None _).
  apply (lookup_kmap (app q)).
Qed.

Lemma lookup_graft_out q s t p : strip q p = None -> graft q s t !! p = t !! p.
Proof.
  intros Hp. unfold graft. rewrite lookup_union_r; [by rewrite lookup_without, Hp|].
  apply lookup_kmap_None; [apply _|]. intros r ->. by rewrite strip_app in Hp.
Qed.

(** ** Resolution stays in a directory *)
Lemma walk_cons n t follow cur e rest :
  walk n t follow cur (e :: rest) =
  if String.eqb e "." then walk n t follow cur rest
  else if String.eqb e ".." then walk n t follow (removelast cur) rest
  else match t !! (cur ++ [e]) with
       | Some (Link target) =>
         if negb follow && bool_decide (rest = []) then Some (cur ++ [e])
         else match n with
              | O => None
              | S n => walk n t follow (if Filepath.IsAbs target then [] else cur) (Paths.elems target ++ rest)
              end
       | Some Directory => walk n t follow (cur ++ [e]) rest
       | _ => match rest with [] => Some (cur ++ [e]) | _ => None end
       end.
Proof. by destruct n. Qed.

Lemma walk_nil n t follow cur : walk n t follow cur [] = Some cur.
Proof. by destruct n. Qed.

Definition dotless (es : list string) : Prop := Forall (fun e => e <> "." /\ e <> "..") es.

(** Every directory on the way to [D], and [D], is one and not a link. *)
Definition real (D : path) (t : fs) : Prop := forall a b, D = a ++ b -> a <> [] -> t !! a = Some Directory.

Lemma walk_real_from n t follow D es cur :
  dotless D -> (forall a b, D = a ++ b -> a <> [] -> t !! (cur ++ a) = Some Directory) ->
  walk n t follow cur (D ++ es) = walk n t follow (cur ++ D) es.
Proof.
  intros HD. revert cur. induction HD as [|e D [He1 He2] _ IH]; intros cur Hr; [by rewrite app_nil_r|].
  rewrite <- app_comm_cons, walk_cons, !(proj2 (String.eqb_neq _ _)) by done.
  rewrite (Hr [e] D) by done. rewrite IH; [by rewrite <- app_assoc|].
  intros a b -> Ha. rewrite <- app_assoc. by apply (Hr (e :: a) b).
Qed.

Lemma walk_real n t follow D es : dotless D -> real D t -> walk n t follow [] (D ++ es) = walk n t follow D es.
Proof. intros HD Hr. by apply (walk_real_from n t follow D es []). Qed.

(** Links below [D] that cannot leave it. *)
Definition tame (target : string) : Prop := Filepath.IsAbs target = false /\ ".." ∉ Paths.elems target.
Definition links_in (D : path) (t : fs) : Prop := forall r target, t !! (D ++ r) = Some (Link target) -> tame target.

Lemma walk_confined t follow D : links_in D t -> forall n r es q,
  ".." ∉ es -> walk n t follow (D ++ r) es = Some q -> exists r', q = D ++ r'.
Proof.
  intros Hl. induction n as [n IHn] using lt_wf_ind. intros r es q. revert r.
  induction es as [|e rest IH]; intros r Hes; [rewrite walk_nil; intros [= <-]; by exists r|].
  rewrite walk_cons. apply not_elem_of_cons in Hes as [He Hes].
  destruct (String.eqb e "."); [by apply IH|]. rewrite (proj2 (String.eqb_neq e "..")) by congruence.
  destruct (t !! ((D ++ r) ++ [e])) as [[|data x|target]|] eqn:Et; rewrite <- app_assoc in *.
  - by apply IH.
  - destruct rest; [|done]. intros [= <-]. eauto.
  - destruct (negb follow && _); [intros [= <-]; eauto|]. destruct n as [|n]; [done|].
    destruct (Hl _ _ Et) as [-> Hdd]. apply IHn; [lia|]. rewrite elem_of_app. tauto.
  - destruct rest; [|done]. intros [= <-]. eauto.
Qed.

(** ** Programs that stay in a directory *)

(** [P] is really there; below it [b] is missing or a directory whose links do
    not leave it. *)
Definition tidy (P : path) (b : string) (t : fs) : Prop :=
  real P t /\ (t !! (P ++ [b]) = None \/ t !! (P ++ [b]) = Some Directory) /\ links_in (P ++ [b]) t.

Definition allowed (P : path) (b : string) (t t' : fs) : Prop :=
  tidy P b t' /\ forall p, strip (P ++ [b]) p = None -> t' !! p = t !! p.

Definition stays {A} (P : path) (b : string) (m : M A) : Prop := forall w,
  tidy P b (tree w) -> allowed P b (tree w) (tree (m w).1) /\ cwd (m w).1 = cwd w.

Section stays.
Context (P : path) (b : string).

Lemma allowed_refl t : tidy P b t -> allowed P b t t.
Proof. by split. Qed.

Lemma stays_same {A} (m : M A) : (forall w, tidy P b (tree w) -> tree (m w).1 = tree w /\ cwd (m w).1 = cwd w) -> stays P b m.
Proof. intros H w Hw. destruct (H w Hw) as [-> ->]. split; [by apply allowed_refl|done]. Qed.

Lemma stays_ret {A} (x : A) : stays P b (mret x).
Proof. by apply stays_same. Qed.
Lemma stays_fail {A} e : stays P b (@fail A e).
Proof. by apply stays_same. Qed.
Lemma stays_lift {A} (o : outcome string A) : stays P b (lift o).
Proof. by apply stays_same. Qed.
Lemma stays_stat_at follow start es : stays P b (stat_at follow start es).
Proof. by apply stays_same. Qed.

Lemma stays_bind {A B} (m : M A) (f : A -> M B) : stays P b m -> (forall x, stays P b (f x)) -> stays P b (mbind f m).
Proof.
  intros Hm Hf w Hw. specialize (Hm w Hw). unfold mbind, M_bind. revert Hm.
  destruct (m w) as [w1 [x|e|e]]; cbn [fst]; intros ([Hw1 Hp1] & Hc1); [|done..].
  destruct (Hf x w1 Hw1) as ([Hw2 Hp2] & Hc2). split; [|congruence]. split; [done|].
  intros p Hp. by rewrite Hp2, Hp1.
Qed.

Lemma stays_lift_bind {A B} (o : outcome string A) (f : A -> M B) :
  (forall x, o = Ret x -> stays P b (f x)) -> stays P b (mbind f (lift o)).
Proof. intros Hf. destruct o; [by apply Hf|by apply stays_same..]. Qed.

Lemma stays_attempt {A} (m : M A) : stays P b m -> stays P b (attempt m).
Proof. intros Hm w Hw. unfold attempt. specialize (Hm w Hw). revert Hm. by destruct (m w). Qed.

(** A call stays when its effect, and what a fault leaves, do. *)
Lemma stays_syscall {A} (ok : world -> outcome string (fs * A)) (failed : world -> fault -> fs) :
  (forall w t x, tidy P b (tree w) -> ok w = Ret (t, x) -> allowed P b (tree w) t) ->
  (forall w f, tidy P b (tree w) -> allowed P b (tree w) (failed w f)) ->
  stays P b (syscall ok failed).
Proof.
  intros Hok Hf w Hw. unfold syscall.
  destruct (match faults w with [] => _ | f :: rest => _ end) as [[f|] rest].
  - split; [|done]. by apply Hf.
  - destruct (ok w) as [[t x]|e|e] eqn:E; (split; [|done]); [by eapply Hok|by apply allowed_refl..].
Qed.

Definition tame_node (n : node) : Prop := match n with Link target => tame target | _ => True end.

(** Writing a node that is no directory yet; at [b] itself only a directory is
    made. *)
Lemma allowed_insert t r n :
  tidy P b t -> at_ t ((P ++ [b]) ++ r) <> Some Directory -> tame_node n -> (r = [] -> n = Directory) ->
  allowed P b t (<[(P ++ [b]) ++ r := n]> t).
Proof.
  intros (Hr & Hb & Hl) Hnode Hn Hroot. split; [split; [|split]|].
  - intros a c -> Ha. rewrite lookup_insert_ne; [by apply (Hr a c)|]. intros E. apply (f_equal length) in E.
    rewrite !length_app in E. cbn in E. lia.
  - destruct r as [|e r].
    + rewrite app_nil_r, lookup_insert_eq, (Hroot eq_refl). by right.
    + rewrite lookup_insert_ne; [done|]. intros E. apply (f_equal length) in E. rewrite !length_app in E. cbn in E. lia.
  - intros r' target. destruct (decide (r = r')) as [->|Hne].
    + rewrite lookup_insert_eq. intros [= ->]. done.
    + rewrite lookup_insert_ne; [apply Hl|]. intros ?%app_inv_head. done.
  - intros p Hp. rewrite lookup_insert_ne; [done|]. intros <-. by rewrite strip_app in Hp.
Qed.

(** The text names [b] or a place below it. *)
Definition inside (p : string) (es : list string) : Prop :=
  Filepath.IsAbs p = true /\ Paths.elems p = P ++ b :: es /\ ".." ∉ es.

Context (HP : dotless P) (Hb : b <> "." /\ b <> "..").

Lemma walk_inside n t follow es q :
  tidy P b t -> ".." ∉ es -> walk n t follow [] (P ++ b :: es) = Some q ->
  exists r, q = (P ++ [b]) ++ r /\ (es <> [] -> t !! (P ++ [b]) = Some Directory).
Proof.
  intros (Hr & Hnode & Hl) Hes. rewrite walk_real, walk_cons, !(proj2 (String.eqb_neq _ _)) by tauto.
  destruct Hnode as [E|E]; rewrite E.
  - destruct es; [|done]. intros [= <-]. exists []. by rewrite app_nil_r.
  - intros Hw. rewrite <- (app_nil_r (P ++ [b])) in Hw at 1. apply walk_confined in Hw as [r ->]; [|done..]. by exists r.
Qed.

Lemma resolve_inside p es w follow q :
  inside p es -> tidy P b (tree w) -> resolve w follow p = Some q ->
  exists r, q = (P ++ [b]) ++ r /\ (es <> [] -> tree w !! (P ++ [b]) = Some Directory).
Proof. intros (Ha & Ees & Hes) Hw. unfold resolve. rewrite Ha, Ees. by apply walk_inside. Qed.

Lemma at_tidy t : t !! (P ++ [b]) = Some Directory -> at_ t ((P ++ [b]) ++ []) = Some Directory.
Proof. rewrite app_nil_r. unfold at_. by destruct (P ++ [b]). Qed.

Lemma allowed_put t r data exec t' :
  tidy P b t -> t !! (P ++ [b]) = Some Directory -> put_file t ((P ++ [b]) ++ r) data exec = Some t' -> allowed P b t t'.
Proof.
  intros Ht Hd. unfold put_file. destruct (at_ t ((P ++ [b]) ++ r)) as [[|d x|l]|] eqn:E; try done; intros [= <-];
    (apply allowed_insert; [done|congruence|done|]; intros ->; by rewrite at_tidy in E).
Qed.

Lemma stays_WriteFile p es data exec : inside p es -> es <> [] -> stays P b (WriteFile p data exec).
Proof.
  intros Hp Hes. apply stays_syscall.
  - intros w t x Hw. destruct (resolve w true p) as [q|] eqn:E; [|done].
    destruct (resolve_inside _ _ _ _ _ Hp Hw E) as (r & -> & Hd).
    destruct (put_file _ _ _ _) eqn:Ep; [|done]. intros [= <- _]. apply (allowed_put _ _ _ _ _ Hw (Hd Hes) Ep).
  - intros w f Hw. destruct (written f) as [|n]; [by apply allowed_refl|].
    destruct (resolve w true p) as [q|] eqn:E; [|by apply allowed_refl].
    destruct (resolve_inside _ _ _ _ _ Hp Hw E) as (r & -> & Hd).
    destruct (put_file _ _ _ _) eqn:Ep; cbn; [apply (allowed_put _ _ _ _ _ Hw (Hd Hes) Ep)|by apply allowed_refl].
Qed.

Lemma stays_Symlink target p es : inside p es -> es <> [] -> tame target -> stays P b (Symlink target p).
Proof.
  intros Hp Hes Ht. apply stays_syscall; [|intros; by apply allowed_refl].
  intros w t x Hw. destruct (resolve w false p) as [q|] eqn:E; [|done].
  destruct (resolve_inside _ _ _ _ _ Hp Hw E) as (r & -> & Hd). destruct (at_ _ _) eqn:Ea; [done|].
  intros [= <- _]. apply allowed_insert; [done|congruence|done|]. intros ->. by rewrite at_tidy in Ea by auto.
Qed.

Lemma stays_Stat p : stays P b (Stat p).
Proof.
  apply stays_syscall; [|intros; by apply allowed_refl]. intros w t x Hw.
  destruct (resolve w true p) as [q|]; [|done]. destruct (at_ (tree w) q); [|done]. intros [= <- _]. by apply allowed_refl.
Qed.

Lemma stays_mkdir es : ".." ∉ es -> stays P b (mkdir [] (P ++ b :: es)).
Proof.
  intros Hes. apply stays_syscall; [|intros; by apply allowed_refl]. intros w t x Hw.
  destruct (walk _ _ _ _ _) as [q|] eqn:E; [|done]. apply walk_inside in E as (r & -> & _); [|done..].
  destruct (at_ _ _) eqn:Ea; [done|]. intros [= <- _]. apply allowed_insert; [done|congruence|done|done].
Qed.
End stays.

(** Making directories that are there does nothing. *)
Lemma real_prefix a c t : real (a ++ c) t -> real a t.
Proof. intros Hr x y -> Hx. apply (Hr x (y ++ c)); [by rewrite app_assoc|done]. Qed.

Lemma walk_real_end n t follow D : dotless D -> real D t -> walk n t follow [] D = Some D.
Proof. intros HD Hr. pose proof (walk_real n t follow D [] HD Hr) as H. by rewrite app_nil_r, walk_nil in H. Qed.

Lemma at_real D t : real D t -> at_ t D = Some Directory.
Proof. intros Hr. destruct D as [|x D]; [done|]. unfold at_. apply (Hr _ []); [by rewrite app_nil_r|done]. Qed.

Lemma mkdir_all_real D w : dotless D -> real D (tree w) -> mkdir_all [] (rev D) w = (w, Ret tt).
Proof.
  intros HD Hr. destruct (rev D) as [|x l] eqn:E; [done|]. cbn [mkdir_all].
  assert (stat_at true [] (rev (x :: l)) w = (w, Ret (Some true))) as Hs.
  { rewrite <- E, rev_involutive. unfold stat_at. by rewrite walk_real_end, at_real. }
  unfold mbind, M_bind. by rewrite Hs.
Qed.

Lemma stays_mkdir_all P b es :
  dotless P -> b <> "." /\ b <> ".." -> ".." ∉ es -> stays P b (mkdir_all [] (rev (P ++ b :: es))).
Proof.
  intros HP Hb. induction es as [|e es IH] using rev_ind; intros Hes.
  - rewrite rev_app_distr. cbn [rev app mkdir_all]. rewrite rev_involutive.
    apply stays_bind; [apply stays_stat_at|]. intros [[|]|]; [apply stays_ret|apply stays_fail|].
    apply stays_bind; [|intros _].
    { apply stays_same. intros w (Hr & _). by rewrite mkdir_all_real. }
    apply stays_bind; [by apply stays_attempt, stays_mkdir|]. intros [x|er|er]; [apply stays_ret| |apply stays_lift].
    apply stays_bind; [apply stays_stat_at|]. intros [[|]|]; [apply stays_ret|apply stays_fail..].
  - rewrite app_comm_cons, app_assoc, rev_app_distr. cbn [rev app mkdir_all]. rewrite rev_involutive, <- app_assoc, <- app_comm_cons.
    assert (".." ∉ es) as Hes' by set_solver. apply stays_bind; [apply stays_stat_at|]. intros [[|]|];
      [apply stays_ret|apply stays_fail|]. apply stays_bind; [by apply IH|]. intros _.
    apply stays_bind; [by apply stays_attempt, stays_mkdir|]. intros [x|er|er]; [apply stays_ret| |apply stays_lift].
    apply stays_bind; [apply stays_stat_at|]. intros [[|]|]; [apply stays_ret|apply stays_fail..].
Qed.

Lemma stays_MkdirAll P b p es : dotless P -> b <> "." /\ b <> ".." -> inside P b p es -> stays P b (MkdirAll p).
Proof.
  intros HP Hb (Ha & Ees & Hes) w Hw. unfold MkdirAll. rewrite Ha, Ees. by apply stays_mkdir_all.
Qed.

(** ** Making, removing and renaming the children of a directory *)

(** No link and no file is in the way to [D]. *)
Definition open_way (D : path) (t : fs) : Prop :=
  forall a c, D = a ++ c -> a <> [] -> t !! a = None \/ t !! a = Some Directory.

Lemma open_way_real D t : real D t -> open_way D t.
Proof. intros H a c E Ha. right. by apply (H a c). Qed.

Lemma open_way_prefix D c t : open_way (D ++ c) t -> open_way D t.
Proof. intros H x y -> Hx. apply (H x (y ++ c)); [by rewrite app_assoc|done]. Qed.

(** On an open way a path resolves to itself, and only through directories. *)
Lemma walk_open n t follow D x q :
  dotless D -> open_way D t -> x <> "." -> x <> ".." ->
  (follow = true -> forall target, t !! (D ++ [x]) <> Some (Link target)) ->
  walk n t follow [] (D ++ [x]) = Some q -> q = D ++ [x] /\ real D t.
Proof.
  intros HD Ho Hx1 Hx2 Hfollow.
  cut (forall cur, (forall a c, D = a ++ c -> a <> [] -> t !! (cur ++ a) = None \/ t !! (cur ++ a) = Some Directory) ->
    (follow = true -> forall target, t !! (cur ++ D ++ [x]) <> Some (Link target)) ->
    walk n t follow cur (D ++ [x]) = Some q ->
    q = cur ++ D ++ [x] /\ forall a c, D = a ++ c -> a <> [] -> t !! (cur ++ a) = Some Directory).
  { intros H. apply (H []); [done|done]. }
  clear Ho Hfollow. induction HD as [|e D [He1 He2] HD IH]; intros cur Ho Hf.
  - cbn [app]. rewrite walk_cons, !(proj2 (String.eqb_neq _ _)) by done. intros Hw. split; [|by intros [|? ?] c].
    destruct (t !! (cur ++ [x])) as [[|d y|target]|] eqn:E; [| | |congruence].
    + rewrite walk_nil in Hw. congruence.
    + congruence.
    + destruct follow; [by destruct (Hf eq_refl target)|]. cbn in Hw. congruence.
  - rewrite <- app_comm_cons, walk_cons, !(proj2 (String.eqb_neq _ _)) by done.
    destruct (Ho [e] D) as [E|E]; [done|done| |]; rewrite E; [by destruct D|]. intros Hw.
    apply IH in Hw as [-> Hr].
    + split; [by rewrite <- app_assoc|]. intros [|e' a] c Ea Ha; [done|]. injection Ea as <- ->.
      destruct a as [|a0 a]; [done|]. specialize (Hr (a0 :: a) c eq_refl). rewrite <- app_assoc in Hr. by apply Hr.
    + intros a c -> Ha. rewrite <- app_assoc. by apply (Ho (e :: a) c).
    + intros Hfl target. rewrite <- app_assoc. by apply Hf.
Qed.

Lemma walk_child n t D x :
  dotless D -> real D t -> x <> "." -> x <> ".." -> walk n t false [] (D ++ [x]) = Some (D ++ [x]).
Proof.
  intros HD Hr H1 H2. rewrite walk_real, walk_cons, !(proj2 (String.eqb_neq _ _)) by done.
  destruct (t !! (D ++ [x])) as [[| |]|]; by rewrite ?walk_nil.
Qed.

(** What making directories may add. *)
Definition adds_way (D : path) (t t' : fs) : Prop :=
  forall p, t' !! p = t !! p \/ (t !! p = None /\ t' !! p = Some Directory /\ exists c, D = p ++ c /\ p <> []).

Lemma adds_way_refl D t : adds_way D t t.
Proof. intros p. by left. Qed.

Lemma real_snoc D x t : real D t -> t !! (D ++ [x]) = Some Directory -> real (D ++ [x]) t.
Proof.
  intros Hr Hx a c E Ha. destruct c as [|y c _] using rev_ind; [rewrite app_nil_r in E; by subst|].
  rewrite app_assoc in E. apply app_inj_tail in E as [-> _]. by apply (Hr a c).
Qed.

Lemma at_snoc (D : path) x t : at_ t (D ++ [x]) = t !! (D ++ [x]).
Proof. by destruct D. Qed.

Lemma open_way_not_link D x t target : open_way (D ++ [x]) t -> t !! (D ++ [x]) <> Some (Link target).
Proof. intros Ho E. destruct (Ho (D ++ [x]) []) as [E'|E']; [by rewrite app_nil_r|by destruct D|congruence..]. Qed.

Lemma stat_at_open follow D x w :
  dotless D -> x <> "." -> x <> ".." -> open_way (D ++ [x]) (tree w) ->
  (stat_at follow [] (D ++ [x]) w).2 = Ret (Some true) -> real (D ++ [x]) (tree w).
Proof.
  intros HD H1 H2 Ho. unfold stat_at. cbn [snd]. destruct (walk _ _ _ _ _) as [q|] eqn:Ew; [|done].
  apply walk_open in Ew as [-> Hr]; [|done|by eapply open_way_prefix|done|done|by intros; apply open_way_not_link].
  rewrite at_snoc. destruct (tree w !! (D ++ [x])) as [[|d y|target]|] eqn:E; [|done..]. intros _. by apply real_snoc.
Qed.

Lemma adds_way_open D t t' : adds_way D t t' -> forall E, open_way E t -> open_way E t'.
Proof. intros Ha E Ho a c -> Hne. destruct (Ha a) as [->|(_ & -> & _)]; [by apply (Ho a c)|by right]. Qed.

Lemma adds_way_snoc D x t t' : adds_way D t t' -> adds_way (D ++ [x]) t t'.
Proof. intros H p. destruct (H p) as [|(? & ? & c & -> & ?)]; [by left|right]. split_and!; [done..|]. exists (c ++ [x]). by rewrite app_assoc. Qed.

Lemma mkdir_spec D x w :
  dotless D -> x <> "." -> x <> ".." -> real D (tree w) ->
  let '(w', r) := mkdir [] (D ++ [x]) w in
  cwd w' = cwd w /\ (r = Ret tt -> tree w !! (D ++ [x]) = None /\ tree w' = <[D ++ [x] := Directory]> (tree w))
  /\ (r <> Ret tt -> tree w' = tree w).
Proof.
  intros HD H1 H2 Hr. unfold mkdir, syscall. destruct (match faults w with [] => _ | f :: rest => _ end) as [[f|] rest]; [done|].
  rewrite walk_child by done. rewrite at_snoc. by destruct (tree w !! (D ++ [x])).
Qed.

(** Whatever fails, only directories on the way are added; on success the way is
    real. *)
Lemma mkdir_all_open D w :
  dotless D -> open_way D (tree w) ->
  let '(w', r) := mkdir_all [] (rev D) w in
  adds_way D (tree w) (tree w') /\ cwd w' = cwd w /\ (r = Ret tt -> real D (tree w')).
Proof.
  revert w. induction D as [|x D IH] using rev_ind; intros w HD Ho.
  { cbn. split; [apply adds_way_refl|]. split; [done|]. intros _ [|? ?] c Ea Ha; done. }
  apply Forall_app in HD as [HD Hx]. inversion_clear Hx as [|? ? [Hx1 Hx2] _].
  rewrite rev_app_distr. cbn [rev app mkdir_all]. rewrite rev_involutive.
  unfold mbind, M_bind. pose proof (stat_at_open true D x w HD Hx1 Hx2 Ho) as Hs. revert Hs.
  unfold stat_at at 1 2. set (found := match walk _ _ _ _ _ with Some q => _ | None => _ end). cbn [snd].
  intros Hs. destruct found as [[|]|]; [split; [apply adds_way_refl|]; split; [done|]; intros _; by apply Hs| |].
  { split; [apply adds_way_refl|done]. }
  clear Hs. specialize (IH w HD (open_way_prefix _ _ _ Ho)). destruct (mkdir_all [] (rev D) w) as [w1 r1].
  destruct IH as (Ha1 & Hc1 & Hr1). pose proof (adds_way_open _ _ _ Ha1 _ Ho) as Ho1.
  destruct r1 as [[]|e|e]; [|split; [by apply adds_way_snoc|done]..]. specialize (Hr1 eq_refl).
  unfold attempt. pose proof (mkdir_spec D x w1 HD Hx1 Hx2 Hr1) as Hmk.
  destruct (mkdir [] (D ++ [x]) w1) as [w2 r2]. destruct Hmk as (Hc2 & Hok & Hfail). cbv beta iota.
  destruct r2 as [[]|e|e].
  - destruct (Hok eq_refl) as [Hn Ht]. cbn. split; [|split; [congruence|]].
    + rewrite Ht. intros p. destruct (decide (p = D ++ [x])) as [->|Hp].
      * rewrite lookup_insert_eq. right. destruct (Ha1 (D ++ [x])) as [E|(? & E & _)]; [|congruence].
        split; [congruence|]. split; [done|]. exists []. rewrite app_nil_r. split; [done|]. by destruct D.
      * rewrite lookup_insert_ne by done. by apply adds_way_snoc.
    + intros _. rewrite Ht. apply real_snoc; [|by rewrite lookup_insert_eq]. intros a c -> Hne.
      rewrite lookup_insert_ne; [by apply (Hr1 a c)|]. intros E. apply (f_equal length) in E. rewrite !length_app in E. cbn in E. lia.
  - rewrite <- (Hfail ltac:(done)) in Ho1, Ha1. 
    pose proof (stat_at_open false D x w2 HD Hx1 Hx2 Ho1) as Hs. revert Hs.
    unfold stat_at at 1 2. set (again := match walk _ _ _ _ _ with Some q => _ | None => _ end). cbn [snd]. intros Hs.
    destruct again as [[|]|]; cbn; (split; [by apply adds_way_snoc|]; split; [congruence|]); [|done..]. intros _. by apply Hs.
  - rewrite <- (Hfail ltac:(done)) in Ha1. split; [by apply adds_way_snoc|]. split; [congruence|done].
Qed.

(** A removal takes nodes at and below its path away, and touches nothing
    else. *)
Definition removes (q : path) (t t' : fs) : Prop :=
  (forall p, strip q p = None -> t' !! p = t !! p) /\ (forall p n, t' !! p = Some n -> t !! p = Some n).

Lemma removes_refl q t : removes q t t.
Proof. done. Qed.

Lemma RemoveAll_removes p q w :
  (forall r, resolve w false p = Some r -> r = q) ->
  removes q (tree w) (tree (RemoveAll p w).1) /\ cwd (RemoveAll p w).1 = cwd w.
Proof.
  intros Hq. unfold RemoveAll, syscall. destruct (match faults w with [] => _ | f :: rest => _ end) as [[f|] rest]; cbn.
  - destruct (resolve w false p) as [[|x l]|]; [by split| |by split]. rewrite <- (Hq _ eq_refl). split; [|done]. split.
    + intros y Hy. destruct (tree w !! y) as [n|] eqn:E.
      * apply map_lookup_filter_Some. cbn. tauto.
      * apply map_lookup_filter_None. by left.
    + intros y n [H _]%map_lookup_filter_Some. done.
  - destruct (resolve w false p) as [[|x l]|]; [by split| |by split]. rewrite <- (Hq _ eq_refl). split; [|done]. cbn. split.
    + intros y Hy. by rewrite lookup_without, Hy.
    + intros y n. rewrite lookup_without. by destruct (strip _ y).
Qed.
End Fs.
