(* ===== verification/Toolchain.v ===== *)
(** * The toolchain store ([internal/toolchain/manifest.go], [store.go])

    [Toolchain] models the manifest and its validation, the names of the places
    in the store, extraction of archives, installation, verification, status,
    synchronization and container images.  Files are [Fs]; downloads, digests,
    archives, JSON, the environment, docker, [go build] and shell commands are
    the class [ToolchainEnv].  A platform without a name stands for the empty
    Go value.  Texts of errors are shortened: quoting adds no escapes. *)
From stdpp Require Import base tactics list gmap strings.
From Stdlib Require Import ZArith Lia Ascii.
From S2P Require Import Prelude GoStrings Paths AppConfig Fs.
Import Fs.

Module Toolchain.
Definition ManifestSchemaVersion : string := "scenery.toolchain.v1".
Definition StatusSchemaVersion : string := "scenery.toolchain.status.v1".
Definition InstallSchemaVersion : string := "scenery.toolchain.install.v1".

(** ** Data *)
Record SourceLock := { sl_Name : string; sl_Kind : string; sl_Manager : string; sl_Manifest : string; sl_Lock : string }.
Record SourceBuildArtifact := { sb_Kind : string; Package : string }.
Record PlatformArtifact := {
  Archive : string; URL : string; SHA256 : string; Extract_ : string; Home : bool; StripComponents : Z;
  Build : list string; BuildOutput : string
}.
Record ImageArtifact := { Ref : string; Digest : string; Optional : bool; Usage : string; Stability : string }.
Record Artifact := {
  Name : string; Kind : string; Version_ : string; License : string; DefaultBinary : string; Binaries : list string;
  Platforms : gmap string PlatformArtifact; SourceBuild : option SourceBuildArtifact; Images : list ImageArtifact
}.
Record Manifest := {
  SchemaVersion : string; ManifestVersion : Z; SourceLocks : list SourceLock; Artifacts : list Artifact
}.
Record Platform := { GOOS : string; GOARCH : string }.

Record InstallMetadata := {
  im_SchemaVersion : string; im_Name : string; im_Version : string; im_Platform : string; im_ManifestSHA256 : string;
  SourceURL : string; SourceSHA256 : string; SourceKind : string; InstalledAt : string
}.

Record SourceLockStatus := { ls_Lock : SourceLock; ls_Status : string }.
Record ImageStatus := { is_Image : ImageArtifact; is_Status : string; is_Message : string }.
Record ArtifactStatus := {
  as_Name : string; as_Kind : string; as_Version : string; as_Status : string; Source : string; ManagedPath : string;
  HomePath : string; Message : string; as_Images : list ImageStatus
}.
Record Status := {
  st_SchemaVersion : string; st_ManifestSHA256 : string; st_StoreDir : string; st_Platform : string;
  st_SourceLocks : list SourceLockStatus; st_Artifacts : list ArtifactStatus
}.
Record Options := { o_RootDir : string; o_Platform : Platform; Tool : string; Strict : bool; o_Images : bool }.
Record Store := { Dir : string; RootDir : string; s_Manifest : Manifest; s_ManifestSHA256 : string; s_Platform : Platform }.

(** An error of the docker command. *)
Record docker_error := { unavailable : bool; error_text : string }.

(** An entry of a tar archive; its body may end with an error. *)
Inductive typeflag := TypeDir | TypeReg | TypeSymlink | TypeOther.
Record tar_entry := { header_Name : string; Typeflag : typeflag; Linkname : string; body : string; body_ok : bool }.

Class ToolchainEnv := {
  getenv : string -> string;                              (** [envpolicy.Get] *)
  sha256_hex : string -> string;                          (** hex of [sha256.Sum256] *)
  untar : string -> option (list tar_entry * bool);       (** gzip and tar: the entries, and whether the end was reached *)
  http_get : string -> outcome string (Z * string);       (** a GET: status and at most 768 MiB of the body *)
  decode_manifest : string -> outcome string (Manifest * bool); (** strict decoding, and whether text follows *)
  marshal_manifest : Manifest -> outcome string string;
  marshal_meta : InstallMetadata -> string;
  unmarshal_meta : string -> option InstallMetadata;
  stamp : string;                                         (** the time in the name of the temporary directory *)
  now : string;                                           (** the time of the metadata *)
  current_platform : Platform;
  docker : Type;                                          (** the state of the docker daemon *)
  inspect_image : docker -> string -> option docker_error;
  pull_image : docker -> string -> docker * option docker_error;
  go_build : string -> string -> string -> M unit;        (** output, package, directory *)
  run_shell : string -> string -> M unit                  (** command, directory *)
}.

(** ** Platforms and paths *)
Definition platform_String (p : Platform) : string :=
  if String.eqb (GOOS p) "" || String.eqb (GOARCH p) "" then "" else GOOS p +:+ "/" +:+ GOARCH p.

Definition DirName (p : Platform) : string := Strings.ReplaceAll (platform_String p) "/" "-".

Definition ParsePlatform (value : string) : outcome string Platform :=
  let '(goos, goarch, ok) := Strings.Cut (Strings.TrimSpace value) "/" in
  if negb ok || String.eqb goos "" || String.eqb goarch "" || Strings.Contains goarch "/"
  then Fail ("invalid platform " +:+ value +:+ ", want goos/goarch")
  else Ret {| GOOS := goos; GOARCH := goarch |}.

(** A relative path that does not go up; [filepath.ToSlash] does nothing where
    the separator is a slash. *)
Definition escapes (value : string) : bool :=
  String.eqb value "." || String.eqb value "" || Strings.HasPrefix value "../" || Strings.HasPrefix value "/".

Definition cleanExtract (value : string) : string :=
  let value := Filepath.Clean (Strings.TrimSpace value) in
  if escapes value then "" else value.

Definition cleanSourceBuildPackage (value : string) : string :=
  let raw := Strings.TrimSpace value in
  if negb (Strings.HasPrefix raw "./") then ""
  else
    let value := Filepath.Clean raw in
    if escapes value then ""
    else if negb (Strings.HasPrefix value ".") then "./" +:+ value else value.

(** [parts[strip:]] panics for a negative [strip]. *)
Definition cleanArchivePath (name : string) (strip_ : Z) : outcome string (option string) :=
  let name := Filepath.Clean (Strings.TrimSpace name) in
  if escapes name then Ret None
  else
    let parts := Strings.Split name "/" in
    if Z.of_nat (length parts) <? strip_ then Ret None
    else if strip_ <? 0 then Panic "slice bounds out of range"
    else
      let parts := drop (Z.to_nat strip_) parts in
      if bool_decide (parts = []) then Ret None
      else
        let cleaned := Filepath.Clean (Strings.Join parts "/") in
        if escapes cleaned then Ret None else Ret (Some cleaned).

Section toolchain.
Context {UT : UnicodeTables} {OO : AppConfig.ObjectOrder} {TE : ToolchainEnv}.

Definition isSHA256 (value : string) : bool :=
  let value := Strings.ToLower (Strings.TrimSpace value) in
  (String.length value =? 64)%nat && forallb (fun r => in_range 48 57 r || in_range 97 102 r) (Utf8.runes value).

(** ** Validation *)
Definition blank (s : string) : bool := String.eqb (Strings.TrimSpace s) "".

Definition index_of (name : string) (i : nat) : string := name +:+ "[" +:+ Strconv.Itoa (Z.of_nat i) +:+ "]".

Fixpoint validate_locks (i : nat) (seen : list string) (locks : list SourceLock) : outcome string unit :=
  match locks with
  | [] => Ret tt
  | lock :: rest =>
    if blank (sl_Name lock) then Fail (index_of "source_locks" i +:+ " missing name")
    else if existsb (String.eqb (sl_Name lock)) seen then Fail ("duplicate source lock " +:+ sl_Name lock)
    else if negb (String.eqb (sl_Kind lock) "go-modules" || String.eqb (sl_Kind lock) "package-manager")
    then Fail (index_of "source_locks" i +:+ " has invalid kind " +:+ sl_Kind lock)
    else if blank (sl_Manifest lock) then Fail (index_of "source_locks" i +:+ " missing manifest")
    else validate_locks (S i) (sl_Name lock :: seen) rest
  end.

Definition validate_source_build (a : Artifact) : outcome string unit :=
  match SourceBuild a with
  | None => Ret tt
  | Some b =>
    if negb (String.eqb (Kind a) "binary") then Fail ("artifact " +:+ Name a +:+ " has source_build but kind " +:+ Kind a)
    else if negb (String.eqb (sb_Kind b) "go") then Fail ("artifact " +:+ Name a +:+ " has unsupported source_build kind " +:+ sb_Kind b)
    else if String.eqb (cleanSourceBuildPackage (Package b)) "" then Fail ("artifact " +:+ Name a +:+ " source_build missing valid package")
    else Ret tt
  end.

Definition validate_platform (a : Artifact) (e : string * PlatformArtifact) : outcome string unit :=
  let '(key, p) := e in
  let say (what : string) : outcome string unit := Fail ("artifact " +:+ Name a +:+ " platform " +:+ key +:+ what) in
  match ParsePlatform key with
  | Fail err => Fail ("artifact " +:+ Name a +:+ ": " +:+ err)
  | Panic m => Panic m
  | Ret _ =>
    if negb (String.eqb (Archive p) "tar.gz") then say (" has unsupported archive " +:+ Archive p)
    else if blank (URL p) then say " missing url"
    else if negb (isSHA256 (SHA256 p)) then say " missing valid sha256"
    else if String.eqb (cleanExtract (Extract_ p)) "" then say " missing valid extract path"
    else if negb (bool_decide (Build p = [])) && String.eqb (cleanExtract (BuildOutput p)) "" then say " missing valid build_output"
    else Ret tt
  end.

Fixpoint validate_images (a : Artifact) (j : nat) (images : list ImageArtifact) : outcome string unit :=
  match images with
  | [] => Ret tt
  | image :: rest =>
    if blank (Ref image) then Fail ("artifact " +:+ Name a +:+ " " +:+ index_of "images" j +:+ " missing ref")
    else if negb (String.eqb (Digest image) "") && negb (Strings.HasPrefix (Digest image) "sha256:")
    then Fail ("artifact " +:+ Name a +:+ " " +:+ index_of "images" j +:+ " has invalid digest")
    else validate_images a (S j) rest
  end.

(** The first error of the calls. *)
Fixpoint each {A} (f : A -> outcome string unit) (l : list A) : outcome string unit :=
  match l with
  | [] => Ret tt
  | x :: l' => _ ← f x; each f l'
  end.

Definition validate_artifact (i : nat) (seen : list string) (a : Artifact) : outcome string unit :=
  if blank (Name a) then Fail (index_of "artifacts" i +:+ " missing name")
  else if existsb (String.eqb (Name a)) seen then Fail ("duplicate artifact " +:+ Name a)
  else if negb (existsb (String.eqb (Kind a)) ["binary"; "image"; "plugin"])
  then Fail ("artifact " +:+ Name a +:+ " has invalid kind " +:+ Kind a)
  else if blank (Version_ a) then Fail ("artifact " +:+ Name a +:+ " missing version")
  else if String.eqb (Kind a) "binary" && blank (DefaultBinary a)
  then Fail ("binary artifact " +:+ Name a +:+ " missing default_binary")
  else
    _ ← validate_source_build a;
    _ ← each (validate_platform a) (AppConfig.visit (map_to_list (Platforms a)));
    validate_images a 0 (Images a).

Fixpoint validate_artifacts (i : nat) (seen : list string) (l : list Artifact) : outcome string unit :=
  match l with
  | [] => Ret tt
  | a :: rest => _ ← validate_artifact i seen a; validate_artifacts (S i) (Name a :: seen) rest
  end.

Definition Validate (m : Manifest) : outcome string unit :=
  if negb (String.eqb (SchemaVersion m) ManifestSchemaVersion)
  then Fail ("unsupported toolchain manifest schema " +:+ SchemaVersion m)
  else if ManifestVersion m <=? 0 then Fail "toolchain manifest_version must be positive"
  else _ ← validate_locks 0 [] (SourceLocks m); validate_artifacts 0 [] (Artifacts m).

Definition ParseManifest (data : string) : outcome string Manifest :=
  match decode_manifest data with
  | Ret (m, trailing) =>
    if trailing then Fail "parse toolchain manifest: trailing JSON" else _ ← Validate m; Ret m
  | Fail e => Fail ("parse toolchain manifest: " +:+ e)
  | Panic e => Panic e
  end.

Definition find_artifact (m : Manifest) (name : string) : option Artifact :=
  List.find (fun a => String.eqb (Name a) name) (Artifacts m).

Definition platform_artifact (a : Artifact) (p : Platform) : option PlatformArtifact := Platforms a !! platform_String p.

Definition ManifestSHA256 (data : string) : string := sha256_hex data.

(** ** The store *)
Definition isFalseEnv (value : string) : bool :=
  existsb (String.eqb (Strings.ToLower (Strings.TrimSpace value))) ["0"; "false"; "no"; "off"].

Definition DefaultStoreDir (appRoot : string) : string :=
  let value := Strings.TrimSpace (getenv "SCENERY_TOOLCHAIN_DIR") in
  if negb (String.eqb value "") then value
  else Filepath.Join [(if blank appRoot then "." else appRoot); ".scenery"; "toolchain"].

Definition NewStore (dir : string) (m : Manifest) : outcome string Store :=
  if blank dir then Fail "toolchain store dir is empty"
  else
    _ ← Validate m;
    data ← marshal_manifest m;
    Ret {| Dir := dir; RootDir := "."; s_Manifest := m; s_ManifestSHA256 := ManifestSHA256 data; s_Platform := current_platform |}.

Definition manifestSHA256 (s : Store) : string :=
  if negb (String.eqb (s_ManifestSHA256 s) "") then s_ManifestSHA256 s
  else match marshal_manifest (s_Manifest s) with Ret data => ManifestSHA256 data | _ => "" end.

Definition artifactPlatformDir (s : Store) (a : Artifact) (p : Platform) : string :=
  Filepath.Join [Dir s; "artifacts"; Name a; Version_ a; DirName p].

Definition homePath (s : Store) (a : Artifact) (p : Platform) : string := Filepath.Join [artifactPlatformDir s a p; "home"].

Definition sourceBuildManagedBinaryPath (s : Store) (a : Artifact) (p : Platform) : string :=
  Filepath.Join [artifactPlatformDir s a p; "bin"; DefaultBinary a].

Definition managedBinaryPath (s : Store) (a : Artifact) (entry : PlatformArtifact) (p : Platform) : string :=
  if Home entry then Filepath.Join [homePath s a p; cleanExtract (Extract_ entry)]
  else Filepath.Join [artifactPlatformDir s a p; "bin"; DefaultBinary a].

Definition verifySHA256 (data want : string) : outcome string unit :=
  let want := Strings.ToLower (Strings.TrimSpace want) in
  if negb (isSHA256 want) then Fail "invalid sha256"
  else
    let got := sha256_hex data in
    if String.eqb got want then Ret tt else Fail ("checksum mismatch: got " +:+ got +:+ " want " +:+ want).

Definition isExecutableFile (path : string) : M bool :=
  info ← attempt (Stat path);
  mret (match info with Ret (File _ exec) => exec | _ => false end).

(** ** Extraction *)

(** The mode of a file always gets an execute bit. *)
Definition extractTarEntry (e : tar_entry) (target : string) : M unit :=
  let cleanTarget := Filepath.Clean target in
  match Typeflag e with
  | TypeDir => MkdirAll cleanTarget
  | TypeReg =>
    _ ← MkdirAll (Paths.Dir cleanTarget);
    _ ← WriteFile cleanTarget (body e) true;
    if body_ok e then mret tt else fail "unexpected EOF"
  | TypeSymlink =>
    if String.eqb (Linkname e) "" || Filepath.IsAbs (Linkname e) || Strings.Contains (Linkname e) "../" then mret tt
    else _ ← MkdirAll (Paths.Dir cleanTarget); Symlink (Linkname e) cleanTarget
  | TypeOther => mret tt
  end.

(** The loop over the entries; [found] as in the source. *)
Fixpoint extract_selected (a : Artifact) (entry : PlatformArtifact) (dir : string) (l : list tar_entry) (found : bool) : M bool :=
  match l with
  | [] => mret found
  | e :: rest =>
    cleaned ← lift (cleanArchivePath (header_Name e) (StripComponents entry));
    match cleaned with
    | None => extract_selected a entry dir rest found
    | Some name =>
      if Home entry then
        _ ← extractTarEntry e (Filepath.Join [dir; "home"; name]);
        extract_selected a entry dir rest (found || String.eqb name (cleanExtract (Extract_ entry)))
      else if negb (String.eqb (Filepath.Base name) (Filepath.Base (Extract_ entry)))
      then extract_selected a entry dir rest found
      else
        _ ← extractTarEntry e (Filepath.Join [dir; "bin"; DefaultBinary a]);
        extract_selected a entry dir rest true
    end
  end.

Definition extractSelectedArtifact (data : string) (a : Artifact) (entry : PlatformArtifact) (dir : string) : M unit :=
  match untar data with
  | None => fail "gzip: invalid header"
  | Some (entries, ended) =>
    found ← extract_selected a entry dir entries false;
    if negb ended then fail "unexpected EOF"
    else if negb found then fail ("archive did not contain expected path " +:+ Extract_ entry)
    else mret tt
  end.

(** The loop looks for the executables and does nothing about it. *)
Fixpoint look_for_binaries (dir : string) (l : list string) : M unit :=
  match l with
  | [] => mret tt
  | binary :: rest =>
    here ← isExecutableFile (Filepath.Join [dir; "bin"; binary]);
    _ ← (if negb here then isExecutableFile (Filepath.Join [dir; "home"; "bin"; binary]) else mret true);
    look_for_binaries dir rest
  end.

Definition extractArtifact (data : string) (a : Artifact) (entry : PlatformArtifact) (dir : string) : M unit :=
  _ ← extractSelectedArtifact data a entry dir;
  look_for_binaries dir (DefaultBinary a :: Binaries a).

Fixpoint extract_all (strip_ : Z) (dir : string) (l : list tar_entry) : M unit :=
  match l with
  | [] => mret tt
  | e :: rest =>
    cleaned ← lift (cleanArchivePath (header_Name e) strip_);
    match cleaned with
    | None => extract_all strip_ dir rest
    | Some name => _ ← extractTarEntry e (Filepath.Join [dir; name]); extract_all strip_ dir rest
    end
  end.

Definition extractTarArchive (data : string) (strip_ : Z) (dir : string) : M unit :=
  match untar data with
  | None => fail "gzip: invalid header"
  | Some (entries, ended) =>
    _ ← extract_all strip_ dir entries;
    if ended then mret tt else fail "unexpected EOF"
  end.

(** ** Building *)
Definition copyExecutableFile (source target : string) : M unit :=
  info ← Stat source;
  match info with
  | Directory => fail "source is a directory"
  | _ =>
    _ ← MkdirAll (Paths.Dir target);
    data ← ReadFile source;
    WriteFile target data true
  end.

Definition apostrophe : string := String (chr 39) "".

Definition shellQuote (value : string) : string :=
  if String.eqb value "" then apostrophe +:+ apostrophe
  else apostrophe +:+ Strings.ReplaceAll value apostrophe (apostrophe +:+ "\" +:+ apostrophe +:+ apostrophe) +:+ apostrophe.

Definition expandBuildCommand (command sourceDir installDir : string) : string :=
  Strings.ReplaceAll (Strings.ReplaceAll command "{source}" (shellQuote sourceDir)) "{install}" (shellQuote installDir).

Fixpoint run_builds (l : list string) (srcDir installDir : string) : M unit :=
  match l with
  | [] => mret tt
  | command :: rest =>
    let command := Strings.TrimSpace command in
    _ ← (if String.eqb command "" then mret tt
         else run_shell (expandBuildCommand command srcDir installDir) srcDir : M unit);
    run_builds rest srcDir installDir
  end.

Definition buildArtifact (data : string) (a : Artifact) (entry : PlatformArtifact) (dir : string) : M unit :=
  let srcDir := Filepath.Join [dir; "src"] in
  let installDir := Filepath.Join [dir; "build-install"] in
  _ ← MkdirAll srcDir;
  _ ← MkdirAll installDir;
  _ ← extractTarArchive data (StripComponents entry) srcDir;
  _ ← run_builds (Build entry) srcDir installDir;
  copyExecutableFile (Filepath.Join [installDir; cleanExtract (BuildOutput entry)])
                     (Filepath.Join [dir; "bin"; DefaultBinary a]).

(** ** Installation *)
Definition tmp_dir (a : Artifact) (finalDir : string) : string :=
  Filepath.Join [Paths.Dir finalDir; ".tmp-" +:+ Name a +:+ "-" +:+ stamp].

Definition newline : string := String (chr 10) "".

(** The directory is replaced and described. *)
Definition publish (tmpDir finalDir : string) (meta : InstallMetadata) : M unit :=
  _ ← MkdirAll (Paths.Dir finalDir);
  _ ← ignore (RemoveAll finalDir);
  _ ← Rename tmpDir finalDir;
  WriteFile (Filepath.Join [finalDir; "install.json"]) (marshal_meta meta +:+ newline) false.

Definition install_meta (s : Store) (a : Artifact) (entry : PlatformArtifact) (p : Platform) : InstallMetadata :=
  {| im_SchemaVersion := InstallSchemaVersion; im_Name := Name a; im_Version := Version_ a;
     im_Platform := platform_String p; im_ManifestSHA256 := manifestSHA256 s; SourceURL := URL entry;
     SourceSHA256 := Strings.ToLower (SHA256 entry); SourceKind := ""; InstalledAt := now |}.

Definition download (entry : PlatformArtifact) : outcome string string :=
  '(status, data) ← http_get (URL entry);
  if status =? 200 then Ret data else Fail ("download " +:+ URL entry +:+ ": unexpected status").

Definition installArtifact (s : Store) (a : Artifact) (p : Platform) : M unit :=
  match platform_artifact a p with
  | None => fail ("toolchain artifact " +:+ Name a +:+ " has no platform artifact for " +:+ platform_String p)
  | Some entry =>
    data ← lift (download entry);
    _ ← lift (match verifySHA256 data (SHA256 entry) with
              | Ret _ => Ret tt
              | Fail e => Fail ("verify " +:+ Name a +:+ ": " +:+ e)
              | Panic m => Panic m
              end);
    let finalDir := artifactPlatformDir s a p in
    let tmpDir := tmp_dir a finalDir in
    _ ← ignore (RemoveAll tmpDir);
    defer (RemoveAll tmpDir) (
      _ ← MkdirAll tmpDir;
      _ ← (if negb (bool_decide (Build entry = [])) then buildArtifact data a entry tmpDir
           else extractArtifact data a entry tmpDir);
      publish tmpDir finalDir (install_meta s a entry p))
  end.

Definition source_build_meta (s : Store) (a : Artifact) (pkg : string) (p : Platform) : InstallMetadata :=
  {| im_SchemaVersion := InstallSchemaVersion; im_Name := Name a; im_Version := Version_ a;
     im_Platform := platform_String p; im_ManifestSHA256 := manifestSHA256 s; SourceURL := pkg;
     SourceSHA256 := manifestSHA256 s; SourceKind := "source-build"; InstalledAt := now |}.

Definition installSourceBuildArtifact (s : Store) (a : Artifact) (p : Platform) (root : string) : M unit :=
  match SourceBuild a with
  | None => fail ("toolchain artifact " +:+ Name a +:+ " has no source_build")
  | Some b =>
    let pkg := cleanSourceBuildPackage (Package b) in
    if String.eqb pkg "" then fail ("toolchain artifact " +:+ Name a +:+ " has invalid source_build package " +:+ Package b)
    else
      let root := if String.eqb root "" then "." else root in
      let finalDir := artifactPlatformDir s a p in
      let tmpDir := tmp_dir a finalDir in
      _ ← ignore (RemoveAll tmpDir);
      defer (RemoveAll tmpDir) (
        _ ← MkdirAll (Filepath.Join [tmpDir; "bin"]);
        _ ← go_build (Filepath.Join [Filepath.Join [tmpDir; "bin"]; DefaultBinary a]) pkg root;
        publish tmpDir finalDir (source_build_meta s a pkg p))
  end.

(** ** Verification *)
Definition read_meta (s : Store) (a : Artifact) (p : Platform) : M InstallMetadata :=
  data ← ReadFile (Filepath.Join [artifactPlatformDir s a p; "install.json"]);
  match unmarshal_meta data with
  | None => fail "invalid character"
  | Some meta =>
    if negb (String.eqb (im_SchemaVersion meta) InstallSchemaVersion && String.eqb (im_Name meta) (Name a)
             && String.eqb (im_Version meta) (Version_ a) && String.eqb (im_Platform meta) (platform_String p))
    then fail "install metadata does not match manifest"
    else mret meta
  end.

Definition verifyInstall (s : Store) (a : Artifact) (entry : PlatformArtifact) (p : Platform) : M unit :=
  meta ← read_meta s a p;
  if negb (Strings.EqualFold (SourceSHA256 meta) (SHA256 entry))
  then fail "install metadata checksum does not match manifest"
  else mret tt.

Definition verifySourceBuildInstall (s : Store) (a : Artifact) (p : Platform) : M unit :=
  meta ← read_meta s a p;
  if negb (String.eqb (SourceKind meta) "source-build") then fail "install metadata source_kind does not match source build"
  else if match SourceBuild a with
          | None => true
          | Some b => negb (String.eqb (SourceURL meta) (cleanSourceBuildPackage (Package b)))
          end
  then fail "install metadata source package does not match manifest"
  else if negb (String.eqb (im_ManifestSHA256 meta) (manifestSHA256 s) && String.eqb (SourceSHA256 meta) (manifestSHA256 s))
  then fail "install metadata manifest checksum does not match bundled manifest"
  else mret tt.

(** ** Status *)
Definition with_state (a : Artifact) (status source managed home message : string) : ArtifactStatus :=
  {| as_Name := Name a; as_Kind := Kind a; as_Version := Version_ a; as_Status := status; Source := source;
     ManagedPath := managed; HomePath := home; Message := message; as_Images := [] |}.

(** An executable in its place is installed, unless verifying says otherwise. *)
Definition installed_status (a : Artifact) (verify : bool) (check : M unit) (source managed home : string) : M ArtifactStatus :=
  exec ← isExecutableFile managed;
  if negb exec then mret (with_state a "missing" "" managed home "")
  else if negb verify then mret (with_state a "installed" source managed home "")
  else
    r ← attempt check;
    mret (match r with
          | Ret _ => with_state a "installed" source managed home ""
          | Fail e | Panic e => with_state a "invalid" source managed home e
          end).

Definition artifactStatus (s : Store) (a : Artifact) (p : Platform) (verify : bool) : M ArtifactStatus :=
  if negb (String.eqb (Kind a) "binary") then mret (with_state a "declared" "" "" "" "")
  else match SourceBuild a with
  | Some _ =>
    installed_status a verify (verifySourceBuildInstall s a p) "source-build" (sourceBuildManagedBinaryPath s a p) ""
  | None =>
    match platform_artifact a p with
    | None => mret (with_state a "unsupported" "" "" "" ("no platform artifact for " +:+ platform_String p))
    | Some entry =>
      installed_status a verify (verifyInstall s a entry p) "managed-store" (managedBinaryPath s a entry p)
        (if Home entry then homePath s a p else "")
    end
  end.

Definition selectedArtifacts (s : Store) (tool : string) : outcome string (list Artifact) :=
  if String.eqb tool "" then Ret (Artifacts (s_Manifest s))
  else match find_artifact (s_Manifest s) tool with
       | Some a => Ret [a]
       | None => Fail ("unknown toolchain artifact " +:+ tool)
       end.

Definition sourceLockStatus (root : string) (lock : SourceLock) : M SourceLockStatus :=
  manifest ← attempt (Stat (Filepath.Join [root; sl_Manifest lock]));
  match manifest with
  | Ret _ =>
    if String.eqb (sl_Lock lock) "" then mret {| ls_Lock := lock; ls_Status := "present" |}
    else
      r ← attempt (Stat (Filepath.Join [root; sl_Lock lock]));
      mret {| ls_Lock := lock; ls_Status := match r with Ret _ => "present" | _ => "missing-lock" end |}
  | _ => mret {| ls_Lock := lock; ls_Status := "missing" |}
  end.

(** ** Images *)
Definition isDockerImageMissing (err : docker_error) : bool :=
  let msg := Strings.ToLower (error_text err) in
  Strings.Contains msg "no such image" || Strings.Contains msg "not found".

(** The text before the last [sep], if there is one. *)
Fixpoint before_last (s : string) (sep : ascii) : option string :=
  match s with
  | EmptyString => None
  | String c s' =>
    match before_last s' sep with
    | Some b => Some (String c b)
    | None => if Ascii.eqb c sep then Some "" else None
    end
  end.

Definition imageRuntimeRef (image : ImageArtifact) : string :=
  if blank (Digest image) || Strings.Contains (Ref image) "@" then Ref image
  else
    let name := Ref image in
    let name :=
      match before_last name "/" with
      | Some upto =>
        let rest := Strings.sdrop (S (String.length upto)) name in
        match before_last rest ":" with
        | Some b => upto +:+ "/" +:+ b
        | None => name
        end
      | None => default name (before_last name ":")
      end in
    name +:+ "@" +:+ Digest image.

(** [runner] is the docker daemon, if there is one. *)
Definition image_status (runner : option docker) (strict inspect : bool) (image : ImageArtifact) : ImageStatus :=
  let answer (status message : string) := {| is_Image := image; is_Status := status; is_Message := message |} in
  if strict && String.eqb (Digest image) "" then answer "invalid" "image is tag-only and has no digest"
  else if negb inspect then answer "declared" ""
  else match runner with
  | None => answer "unavailable" "docker runner unavailable"
  | Some d =>
    match inspect_image d (imageRuntimeRef image) with
    | None => answer "present" ""
    | Some err =>
      if unavailable err then answer "unavailable" (error_text err)
      else if isDockerImageMissing err then answer "missing" (error_text err)
      else answer "unavailable" (error_text err)
    end
  end.

Definition imageStatuses (runner : option docker) (images : list ImageArtifact) (strict inspect : bool) : list ImageStatus :=
  map (image_status runner strict inspect) images.

(** One image; [None] is success. *)
Definition sync_image (runner : option docker) (image : ImageArtifact) : option docker * option string :=
  match runner with
  | None =>
    if Optional image then (runner, None) else (runner, Some ("docker runner unavailable for required image " +:+ Ref image))
  | Some d =>
    let ref := imageRuntimeRef image in
    let pull :=
      let '(d', err) := pull_image d ref in
      (Some d', match err with
                | None => None
                | Some e => if Optional image && unavailable e then None else Some (error_text e)
                end) in
    match inspect_image d ref with
    | None => (runner, None)
    | Some e =>
      if unavailable e then (runner, if Optional image then None else Some (error_text e))
      else if negb (isDockerImageMissing e) && negb (Optional image) then (runner, Some (error_text e))
      else pull
    end
  end.

Fixpoint syncImages (runner : option docker) (images : list ImageArtifact) : option docker * option string :=
  match images with
  | [] => (runner, None)
  | image :: rest =>
    match sync_image runner image with
    | (runner', None) => syncImages runner' rest
    | (runner', Some e) => (runner', Some e)
    end
  end.

(** ** Store operations; the daemon is passed along *)
Definition with_images (st : ArtifactStatus) (images : list ImageStatus) : ArtifactStatus :=
  {| as_Name := as_Name st; as_Kind := as_Kind st; as_Version := as_Version st;
     as_Status := if String.eqb (as_Kind st) "image" && negb (bool_decide (length images = 0%nat)) then "declared" else as_Status st;
     Source := Source st; ManagedPath := ManagedPath st; HomePath := HomePath st; Message := Message st; as_Images := images |}.

Fixpoint mapM_ {A B} (f : A -> M B) (l : list A) : M (list B) :=
  match l with
  | [] => mret []
  | x :: l' => y ← f x; ys ← mapM_ f l'; mret (y :: ys)
  end.

Definition with_platform (s : Store) (opts : Options) : Options :=
  if String.eqb (platform_String (o_Platform opts)) ""
  then {| o_RootDir := o_RootDir opts; o_Platform := s_Platform s; Tool := Tool opts; Strict := Strict opts; o_Images := o_Images opts |}
  else opts.

Definition root_of (s : Store) (opts : Options) : string :=
  if String.eqb (o_RootDir opts) "" then RootDir s else o_RootDir opts.

Definition status (s : Store) (runner : option docker) (opts : Options) (verify : bool) : M Status :=
  let opts := with_platform s opts in
  locks ← mapM_ (sourceLockStatus (root_of s opts)) (SourceLocks (s_Manifest s));
  selected ← lift (selectedArtifacts s (Tool opts));
  items ← mapM_ (fun a =>
    item ← artifactStatus s a (o_Platform opts) verify;
    let wanted := o_Images opts || String.eqb (Kind a) "image" in
    mret (if wanted then with_images item (imageStatuses runner (Images a) (Strict opts) wanted) else item)) selected;
  mret {| st_SchemaVersion := StatusSchemaVersion; st_ManifestSHA256 := manifestSHA256 s;
          st_StoreDir := Filepath.Clean (Dir s); st_Platform := platform_String (o_Platform opts);
          st_SourceLocks := locks; st_Artifacts := items |}.

Definition List_ (s : Store) (runner : option docker) (opts : Options) : M Status := status s runner opts false.
Definition Verify (s : Store) (runner : option docker) (opts : Options) : M Status := status s runner opts true.

(** One artifact of [Sync]. *)
Definition sync_artifact (s : Store) (opts : Options) (a : Artifact) : M unit :=
  if negb (String.eqb (Kind a) "binary") then mret tt
  else
    st ← artifactStatus s a (o_Platform opts) true;
    if String.eqb (as_Status st) "installed" then mret tt
    else match SourceBuild a with
    | Some _ => installSourceBuildArtifact s a (o_Platform opts) (root_of s opts)
    | None =>
      if isFalseEnv (getenv "SCENERY_TOOLCHAIN_DOWNLOAD") then fail "toolchain downloads disabled by SCENERY_TOOLCHAIN_DOWNLOAD=0"
      else installArtifact s a (o_Platform opts)
    end.

Fixpoint sync_artifacts (s : Store) (opts : Options) (l : list Artifact) : M unit :=
  match l with
  | [] => mret tt
  | a :: rest => _ ← sync_artifact s opts a; sync_artifacts s opts rest
  end.

Fixpoint sync_image_lists (runner : option docker) (l : list Artifact) : option docker * option string :=
  match l with
  | [] => (runner, None)
  | a :: rest =>
    match syncImages runner (Images a) with
    | (runner', None) => sync_image_lists runner' rest
    | (runner', Some e) => (runner', Some e)
    end
  end.

Definition Sync (s : Store) (runner : option docker) (opts : Options) : M (option docker * outcome string Status) :=
  let opts := with_platform s opts in
  selected ← lift (selectedArtifacts s (Tool opts));
  _ ← sync_artifacts s opts selected;
  let '(runner', err) := if o_Images opts then sync_image_lists runner selected else (runner, None) in
  match err with
  | Some e => mret (runner', Fail e)
  | None => st ← attempt (status s runner' opts true); mret (runner', st)
  end.

Definition Path_ (s : Store) (artifactName : string) (p : Platform) : M ArtifactStatus :=
  let p := if String.eqb (platform_String p) "" then s_Platform s else p in
  match find_artifact (s_Manifest s) artifactName with
  | None => fail ("unknown toolchain artifact " +:+ artifactName)
  | Some a =>
    st ← artifactStatus s a p true;
    if String.eqb (ManagedPath st) "" then fail ("toolchain artifact " +:+ artifactName +:+ " has no managed path for " +:+ platform_String p)
    else mret st
  end.
End toolchain.
End Toolchain.
