(* ===== verification/ToolchainProofs.v ===== *)
(** * The toolchain store: confinement of archives and installation

    [ToolchainProofs] shows that extracting an archive changes nothing outside
    the directory it is extracted to when no link of the archive ends in [..]
    (and that an archive with such links can leave it), and that installing an
    artifact is all or nothing whatever calls fail: its directory keeps only
    what it held, or is the extraction of an archive with the manifest's digest. *)
From stdpp Require Import base tactics list gmap strings.
From Stdlib Require Import ZArith Lia Ascii.
From S2P Require Import Prelude GoStrings Paths AppConfig Fs Toolchain.
Import Fs Toolchain Filepath Paths.

Module ToolchainProofs.

(** ** Names of entries *)
Lemma stable_false_dots st : stable false st -> ".." ∈ st -> List.last st "" = "..".
Proof.
  induction 1 as [|e st Hst IH He Hne Hp]; [by intros ?%elem_of_nil|]. intros Hin.
  destruct st as [|top st]; [apply list_elem_of_singleton in Hin as <-; done|].
  apply elem_of_cons in Hin as [<-|Hin]; [|by apply IH].
  apply IH. unfold push_elem in Hp. cbn in Hp. destruct (String.eqb_spec top "..") as [->|]; [left|].
  apply (f_equal length) in Hp. cbn in Hp. lia.
Qed.

Lemma rev_last_head {A} (l : list A) x d : List.last l d = x -> l <> [] -> exists l', rev l = x :: l'.
Proof.
  induction l as [|y l IH] using rev_ind; [done|]. intros Hl _. rewrite last_last in Hl. subst.
  rewrite rev_app_distr. by exists (rev l).
Qed.

(** A cleaned path that does not escape: file names, or just [..]. *)
Lemma not_escapes_Clean x : escapes (Clean x) = false ->
  (exists st, stable false st /\ st <> [] /\ (".." ∉ st) /\ Clean x = Strings.Join (rev st) "/") \/ Clean x = "..".
Proof.
  unfold escapes. rewrite !orb_false_iff. intros [[[Hdot Hempty] Hup] Habs]. revert Hdot Hempty Hup Habs. unfold Clean.
  destruct (String.eqb x ""); [done|]. set (st := fold_left _ _ _).
  assert (stable (IsAbs x) st) as Hst by (apply stable_fold; [constructor|apply Strings.Split_no_byte]).
  clearbody st. destruct (IsAbs x); [done|]. destruct (String.eqb_spec (Strings.Join (rev st) "/") "") as [|Hb]; [done|].
  intros _ _ Hup _. assert (st <> []) as Hne by by intros ->.
  destruct (decide (".." ∈ st)) as [Hin|Hin]; [|left; by exists st]. right.
  destruct (rev_last_head _ _ _ (stable_false_dots _ Hst Hin) Hne) as [l E]. rewrite E in *.
  destruct l as [|y l]; [done|]. exfalso. apply not_true_iff_false in Hup. apply Hup. apply Strings.HasPrefix_iff.
  by exists (Strings.Join (y :: l) "/").
Qed.

Lemma cleanArchivePath_name name n cleaned : cleanArchivePath name n = Ret (Some cleaned) ->
  (exists st, stable false st /\ st <> [] /\ (".." ∉ st) /\ cleaned = Strings.Join (rev st) "/") \/ cleaned = "..".
Proof.
  unfold cleanArchivePath. destruct (escapes _); [done|]. repeat (destruct (_ <? _)%Z; [done|]).
  destruct (bool_decide _); [done|]. destruct (escapes (Clean _)) eqn:E; [done|]. intros [= <-]. by apply not_escapes_Clean.
Qed.

(** ** Places below a directory; [T] is the directory's reversed path *)
Lemma stable_plain rooted st : stable rooted st -> ".." ∉ st -> Forall plain st.
Proof.
  induction 1 as [|e st Hst IH He Hne Hp]; [done|]. intros [Hdd Hin]%not_elem_of_cons. constructor; [|by apply IH].
  split; [done|]. split; [|split; [congruence|done]]. intros ->. unfold push_elem in Hp. cbn in Hp.
  apply (f_equal length) in Hp. cbn in Hp. lia.
Qed.

Lemma pushes_names st T : Forall plain st -> st <> [] -> pushes T (Strings.Join (rev st) "/") = st ++ T.
Proof.
  intros Hst Hne. destruct (rev st) as [|x l] eqn:E.
  { apply (f_equal (@rev _)) in E. by rewrite rev_involutive in E. }
  rewrite pushes_Join, <- E. clear -Hst.
  induction st as [|e st IH]; [done|]. inversion Hst; subst. cbn [rev]. rewrite fold_left_app, IH by done. cbn.
  by apply pushes_plain.
Qed.

Lemma stable_plain_app st T : stable true T -> Forall plain st -> stable true (st ++ T).
Proof.
  intros HT. induction 1 as [|e st (H1 & H2 & H3 & H4) _ IH]; [done|]. cbn. constructor; [done..|].
  unfold push_elem. by rewrite !(proj2 (String.eqb_neq _ _)).
Qed.

Lemma plain_not_up st : Forall plain st -> ".." ∉ rev st.
Proof.
  intros H Hin. apply list_elem_of_In, in_rev, list_elem_of_In in Hin. rewrite Forall_forall in H.
  by destruct (H _ Hin) as (_ & _ & ? & _).
Qed.

Lemma stable_dotless T : stable true T -> dotless (rev T).
Proof. intros H. apply Forall_rev. by apply stable_no_dots. Qed.

Lemma IsAbs_abs_path T : IsAbs (abs_path T) = true.
Proof. done. Qed.

Lemma inside_abs T b st : stable true T -> plain b -> Forall plain st -> inside (rev T) b (abs_path (st ++ b :: T)) (rev st).
Proof.
  intros HT Hb Hst. split; [done|]. split; [|by apply plain_not_up].
  rewrite elems_abs_path; [|apply stable_plain_app; [|done]; by apply (stable_plain_app [b] T); [|constructor]].
  rewrite rev_app_distr. cbn. by rewrite <- app_assoc.
Qed.

(** ** Links *)

(** The guard against links that go up misses one that ends in [..]. *)
Definition ends_up (e : tar_entry) : bool :=
  match Typeflag e with
  | TypeSymlink => String.eqb (List.last (Strings.Split (Linkname e) "/") "") ".."
  | _ => false
  end.

Lemma Split_up s : ".." ∈ Strings.Split s "/" -> Strings.Contains s "../" = false -> List.last (Strings.Split s "/") "" = "..".
Proof.
  intros Hin Hc. destruct (list_elem_of_split _ _ Hin) as (l & k & E). rewrite E.
  destruct k as [|x k]; [apply last_last|]. exfalso. apply not_true_iff_false in Hc. apply Hc.
  unfold Strings.Contains. rewrite <- (Strings.Join_Split s "/"), E.
  assert (exists a c, Strings.Join (l ++ ".." :: x :: k) "/" = a +:+ "../" +:+ c) as (a & c & ->).
  { clear. exists (match l with [] => "" | _ => Strings.Join l "/" +:+ "/" end), (Strings.Join (x :: k) "/").
    induction l as [|y l IH]; [done|].
    destruct l as [|z l].
    { change (Strings.Join ([y] ++ ".." :: x :: k) "/") with (y +:+ "/" +:+ ("../" +:+ Strings.Join (x :: k) "/")).
      change (Strings.Join [y] "/") with y. by rewrite !Strings.string_app_assoc. }
    change (Strings.Join ((y :: z :: l) ++ ".." :: x :: k) "/")
      with (y +:+ "/" +:+ Strings.Join ((z :: l) ++ ".." :: x :: k) "/"). rewrite IH.
    change (Strings.Join (y :: z :: l) "/") with (y +:+ "/" +:+ Strings.Join (z :: l) "/").
    by rewrite !Strings.string_app_assoc. }
  destruct (Strings.cut_opt_first (a +:+ "../" +:+ c) "../" a c eq_refl) as (? & ? & ? & -> & _). done.
Qed.

Lemma tame_link e :
  Typeflag e = TypeSymlink -> ends_up e = false -> IsAbs (Linkname e) = false -> Strings.Contains (Linkname e) "../" = false ->
  tame (Linkname e).
Proof.
  intros Ht He Ha Hc. split; [done|]. intros Hin. unfold ends_up in He. rewrite Ht in He.
  apply String.eqb_neq in He. apply He. apply Split_up; [|done].
  unfold elems in Hin. apply list_elem_of_In, filter_In in Hin as [Hin _]. by apply list_elem_of_In.
Qed.

(** ** Extraction stays in its directory *)
Section extraction.
Context {UT : UnicodeTables} {OO : AppConfig.ObjectOrder} {TE : ToolchainEnv}.

Section below.
Context (T : list string) (b : string) (HT : stable true T) (Hb : plain b).

Lemma HTd : dotless (rev T).
Proof. by apply stable_dotless. Qed.
Lemma Hbd : b <> "." /\ b <> "..".
Proof. by destruct Hb as (_ & ? & ? & _). Qed.

Lemma stable_bT : stable true (b :: T).
Proof. apply (stable_plain_app [b] T); [done|by constructor]. Qed.

Lemma extractTarEntry_stays e st :
  st <> [] -> Forall plain st -> ends_up e = false -> stays (rev T) b (extractTarEntry e (abs_path (st ++ b :: T))).
Proof.
  intros Hne Hst He. assert (stable true (st ++ b :: T)) as Hs by (apply stable_plain_app; [apply stable_bT|done]).
  unfold extractTarEntry. rewrite Clean_abs_path by done.
  pose proof (inside_abs T b st HT Hb Hst) as Hin. assert (rev st <> []) as Hne'.
  { intros E. apply Hne. rewrite <- (rev_involutive st). by rewrite E. }
  assert (stays (rev T) b (MkdirAll (Paths.Dir (abs_path (st ++ b :: T))))) as Hmk.
  { destruct st as [|x st]; [done|]. cbn in Hs |- *. rewrite Dir_abs by done. inversion Hst; subst.
    by eapply stays_MkdirAll; [apply HTd|apply Hbd|apply inside_abs]. }
  destruct (Typeflag e) eqn:Et.
  - by eapply stays_MkdirAll; [apply HTd|apply Hbd|].
  - apply stays_bind; [done|intros _]. apply stays_bind; [|intros _].
    + by eapply stays_WriteFile; [apply HTd|apply Hbd|..].
    + destruct (body_ok e); [apply stays_ret|apply stays_fail].
  - destruct (_ || _) eqn:Eg; [apply stays_ret|]. rewrite !orb_false_iff in Eg. destruct Eg as [[_ Ha] Hc].
    apply stays_bind; [done|intros _]. eapply stays_Symlink; [apply HTd|apply Hbd|done|done|by apply tame_link].
  - apply stays_ret.
Qed.

(** The entry [..] names the directory itself: nothing happens. *)
Lemma extractTarEntry_dir e : stays (rev T) b (extractTarEntry e (abs_path T)).
Proof.
  apply stays_same. intros w (Hr & _). pose proof HTd as HD. unfold extractTarEntry. rewrite Clean_abs_path by done.
  assert (forall follow, resolve w follow (abs_path T) = Some (rev T)) as Hres.
  { intros follow. unfold resolve. rewrite IsAbs_abs_path, elems_abs_path by done. by apply walk_real_end. }
  assert (forall U V, T = U ++ V -> MkdirAll (abs_path V) w = (w, Ret tt)) as Hmk.
  { intros U V E. assert (stable true V) as HV.
    { revert HT. rewrite E. clear. induction U as [|x U IH]; [done|]. cbn. inversion 1; subst. auto. }
    unfold MkdirAll. rewrite IsAbs_abs_path, elems_abs_path by done. apply mkdir_all_real; [by apply stable_dotless|].
    apply (real_prefix (rev V) (rev U)). by rewrite <- rev_app_distr, <- E. }
  assert (MkdirAll (Paths.Dir (abs_path T)) w = (w, Ret tt)) as Hpar.
  { destruct T as [|x U]; [exact (Hmk [] [] eq_refl)|]. rewrite Dir_abs by done. by apply (Hmk [x] U). }
  assert (at_ (tree w) (rev T) = Some Directory) as Hat by by apply at_real.
  destruct (Typeflag e); cbn.
  - by rewrite (Hmk [] T).
  - unfold mbind, M_bind. rewrite Hpar. unfold WriteFile, syscall, put_file. rewrite Hres, Hat.
    destruct (faults w) as [|f l]; [done|]. destruct (fails f); [|done]. by destruct (written f).
  - destruct (_ || _); [done|]. unfold mbind, M_bind. rewrite Hpar. unfold Symlink, syscall. rewrite Hres, Hat.
    destruct (faults w) as [|f l]; [done|]. by destruct (fails f).
  - done.
Qed.

(** An entry extracted under its cleaned name. *)
Lemma named_entry_stays e name n :
  cleanArchivePath (header_Name e) n = Ret (Some name) -> ends_up e = false ->
  stays (rev T) b (extractTarEntry e (Join [abs_path T; b; name])).
Proof.
  intros Hn He. rewrite Join_abs by done. cbn [fold_left]. rewrite (pushes_plain T b) by done.
  apply cleanArchivePath_name in Hn as [(st & Hst & Hne & Hup & ->)| ->].
  - pose proof (stable_plain _ _ Hst Hup). rewrite pushes_names by done. by apply extractTarEntry_stays.
  - assert (pushes (b :: T) ".." = T) as ->; [|apply extractTarEntry_dir].
    unfold pushes. cbn. rewrite (proj2 (String.eqb_neq b "..")); [done|]. by destruct Hb as (_ & _ & ? & _).
Qed.
End below.

Lemma plain_home : plain "home".
Proof. by vm_compute. Qed.
Lemma plain_bin : plain "bin".
Proof. by vm_compute. Qed.
Lemma plain_src : plain "src".
Proof. by vm_compute. Qed.

(** Where the files of an artifact go. *)
Definition place (entry : PlatformArtifact) : string := if Home entry then "home" else "bin".

Lemma plain_place entry : plain (place entry).
Proof. unfold place. destruct (Home entry); [apply plain_home|apply plain_bin]. Qed.

Lemma extract_selected_stays T a entry l found :
  stable true T -> plain (DefaultBinary a) -> Forall (fun e => ends_up e = false) l ->
  stays (rev T) (place entry) (extract_selected a entry (abs_path T) l found).
Proof.
  intros HT Hbin Hl. revert found. induction Hl as [|e l He _ IH]; intros found; cbn [extract_selected]; [apply stays_ret|].
  apply stays_lift_bind. intros [name|] Hn; [|done]. destruct (Home entry) eqn:Eh.
  - assert (place entry = "home") as Ep by (unfold place; by rewrite Eh). apply stays_bind; [|done]. rewrite Ep. apply (named_entry_stays T "home" HT plain_home e name _ Hn He).
  - assert (place entry = "bin") as Ep by (unfold place; by rewrite Eh).
    destruct (negb _); [done|]. apply stays_bind; [|done]. rewrite Ep, Join_abs by done. cbn [fold_left].
    rewrite !pushes_plain by (done || apply plain_bin).
    apply (extractTarEntry_stays T "bin" HT plain_bin e [DefaultBinary a]); [done|by constructor|done].
Qed.

Lemma isExecutableFile_stays P b p : stays P b (isExecutableFile p).
Proof. apply stays_bind; [apply stays_attempt, stays_Stat|]. intros. apply stays_ret. Qed.

Lemma look_for_binaries_stays P b dir l : stays P b (look_for_binaries dir l).
Proof.
  induction l as [|x l IH]; [apply stays_ret|]. cbn [look_for_binaries].
  apply stays_bind; [apply isExecutableFile_stays|]. intros here. apply stays_bind; [|done].
  destruct (negb here); [apply isExecutableFile_stays|apply stays_ret].
Qed.

(** The links of an archive do not end in [..]. *)
Definition no_upward_links (data : string) : Prop :=
  match untar data with Some (l, _) => Forall (fun e => ends_up e = false) l | None => True end.

Lemma extractArtifact_stays T data a entry :
  stable true T -> plain (DefaultBinary a) -> no_upward_links data ->
  stays (rev T) (place entry) (extractArtifact data a entry (abs_path T)).
Proof.
  intros HT Hbin Hl. unfold extractArtifact, extractSelectedArtifact, no_upward_links in *.
  apply stays_bind; [|intros _; apply look_for_binaries_stays].
  destruct (untar data) as [[l ended]|]; [|apply stays_fail].
  apply stays_bind; [by apply extract_selected_stays|]. intros found.
  destruct ended; [|apply stays_fail]. destruct found; [apply stays_ret|apply stays_fail].
Qed.

Lemma extractTarArchive_stays T data n :
  stable true T -> no_upward_links data -> stays (rev T) "src" (extractTarArchive data n (Join [abs_path T; "src"])).
Proof.
  intros HT Hl. unfold extractTarArchive, no_upward_links in *. destruct (untar data) as [[l ended]|]; [|apply stays_fail].
  apply stays_bind; [|intros _; destruct ended; [apply stays_ret|apply stays_fail]].
  induction Hl as [|e l He _ IH]; cbn [extract_all]; [apply stays_ret|]. apply stays_lift_bind. intros [name|] Hn; [|done].
  apply stays_bind; [|done].
  assert (Join [Join [abs_path T; "src"]; name] = Join [abs_path T; "src"; name]) as ->.
  { rewrite (Join_abs T ["src"]), (Join_abs T ["src"; name]) by done. cbn [fold_left].
    rewrite Join_abs; [done|]. by apply pushes_stable. }
  apply (named_entry_stays T "src" HT plain_src e name _ Hn He).
Qed.

(** C27. Extracting an archive, for an installation or for a build, changes nothing
    outside the directory made for its files, whatever the archive names, when
    none of its links ends in [..]. *)
Theorem extraction_confined T data a entry w q :
  stable true T -> plain (DefaultBinary a) -> no_upward_links data ->
  tidy (rev T) (place entry) (tree w) -> tidy (rev T) "src" (tree w) ->
  (strip (rev T ++ [place entry]) q = None ->
   tree (extractArtifact data a entry (abs_path T) w).1 !! q = tree w !! q)
  /\ (strip (rev T ++ ["src"]) q = None ->
      tree (extractTarArchive data (StripComponents entry) (Join [abs_path T; "src"]) w).1 !! q = tree w !! q).
Proof.
  intros HT Hbin Hl H1 H2. split.
  - by apply (extractArtifact_stays T data a entry HT Hbin Hl w H1).
  - by apply (extractTarArchive_stays T data (StripComponents entry) HT Hl w H2).
Qed.

(** ** Installation *)
Section install.
Context (s : Store) (a : Artifact) (p : Platform) (entry : PlatformArtifact) (st : list string).

(** The reversed path of the version's directory, and the two directories in
    it. *)
Definition version_dir : list string := Version_ a :: Name a :: "artifacts" :: st.
Definition tmp_name : string := ".tmp-" +:+ Name a +:+ "-" +:+ stamp.
Definition final_path : path := rev version_dir ++ [DirName p].
Definition tmp_path : path := rev version_dir ++ [tmp_name].

(** The names of the manifest are file names and the store's directory is an
    absolute path. *)
Record placed : Prop := {
  pl_dir : Toolchain.Dir s = abs_path st;
  pl_stable : stable true st;
  pl_name : plain (Name a);
  pl_version : plain (Version_ a);
  pl_platform : plain (DirName p);
  pl_binary : plain (DefaultBinary a);
  pl_stamp : Strings.has_byte "/" stamp = false;
  pl_apart : tmp_name <> DirName p
}.

Context (Hpl : placed).

Lemma stable_version : stable true version_dir.
Proof.
  destruct Hpl. apply (stable_plain_app [Version_ a; Name a; "artifacts"] st); [done|].
  repeat constructor; try apply pl_version0; try apply pl_name0; by vm_compute.
Qed.

Lemma plain_tmp : plain tmp_name.
Proof.
  destruct Hpl as [_ _ (_ & _ & _ & Hn) _ _ _ Hs _]. unfold tmp_name. split; [done|]. split; [done|]. split; [done|].
  rewrite !Strings.has_byte_app, Hn, Hs. done.
Qed.

Lemma stable_child x : plain x -> stable true (x :: version_dir).
Proof. intros Hx. apply (stable_plain_app [x]); [apply stable_version|by constructor]. Qed.

Lemma final_eq : artifactPlatformDir s a p = abs_path (DirName p :: version_dir).
Proof.
  destruct Hpl as [Hd Hst Hn Hv Hp _ _ _]. unfold artifactPlatformDir. rewrite Hd, Join_abs by done. cbn [fold_left].
  rewrite !pushes_plain; [done|by vm_compute|done..].
Qed.

Lemma final_dir : Paths.Dir (artifactPlatformDir s a p) = abs_path version_dir.
Proof. rewrite final_eq. apply Dir_abs, stable_child. apply Hpl. Qed.

Lemma tmp_eq : tmp_dir a (artifactPlatformDir s a p) = abs_path (tmp_name :: version_dir).
Proof.
  unfold tmp_dir. rewrite final_dir, Join_abs by apply stable_version. cbn [fold_left]. fold tmp_name.
  by rewrite pushes_plain by apply plain_tmp.
Qed.

Lemma dotless_version : dotless (rev version_dir).
Proof. apply stable_dotless, stable_version. Qed.

Lemma elems_child x : plain x -> elems (abs_path (x :: version_dir)) = rev version_dir ++ [x].
Proof. intros Hx. by rewrite elems_abs_path by by apply stable_child. Qed.

Lemma tmp_not_final r : strip final_path (tmp_path ++ r) = None.
Proof.
  apply strip_None. intros r'. unfold tmp_path, final_path. rewrite <- !app_assoc. intros E%app_inv_head.
  injection E as E _. by apply (pl_apart Hpl).
Qed.

Lemma final_not_tmp r : strip tmp_path (final_path ++ r) = None.
Proof.
  apply strip_None. intros r'. unfold tmp_path, final_path. rewrite <- !app_assoc. intros E%app_inv_head.
  injection E as E _. symmetry in E. by apply (pl_apart Hpl).
Qed.

(** Removing a child of the version's directory. *)
Lemma remove_child x w :
  plain x -> open_way (rev version_dir) (tree w) ->
  removes (rev version_dir ++ [x]) (tree w) (tree (RemoveAll (abs_path (x :: version_dir)) w).1)
  /\ cwd (RemoveAll (abs_path (x :: version_dir)) w).1 = cwd w.
Proof.
  intros Hx Ho. apply RemoveAll_removes. intros r. unfold resolve. rewrite IsAbs_abs_path, elems_child by done.
  destruct Hx as (_ & H1 & H2 & _).
  intros H. apply walk_open in H as [-> _]; [done|apply dotless_version|done..].
Qed.

Lemma strip_child_prefix b c x : rev version_dir = b ++ c -> strip (rev version_dir ++ [x]) b = None.
Proof.
  intros E. apply strip_None. intros r Er. apply (f_equal length) in Er, E. rewrite !length_app in Er.
  rewrite length_app in E. change (length [x]) with 1%nat in Er. lia.
Qed.

Lemma real_kept x t t' :
  real (rev version_dir) t -> (forall q, strip (rev version_dir ++ [x]) q = None -> t' !! q = t !! q) -> real (rev version_dir) t'.
Proof. intros Hr H b c E Hb. rewrite H by by eapply strip_child_prefix. by apply (Hr b c). Qed.

Lemma MkdirAll_version w : real (rev version_dir) (tree w) -> MkdirAll (abs_path version_dir) w = (w, Ret tt).
Proof.
  intros Hr. unfold MkdirAll. rewrite IsAbs_abs_path, elems_abs_path by apply stable_version.
  apply mkdir_all_real; [apply dotless_version|done].
Qed.

(** Renaming the temporary directory moves all of it, or nothing. *)
Lemma Rename_tmp w :
  real (rev version_dir) (tree w) ->
  let '(w', r) := Rename (abs_path (tmp_name :: version_dir)) (abs_path (DirName p :: version_dir)) w in
  cwd w' = cwd w /\
  (r <> Ret tt /\ tree w' = tree w
   \/ r = Ret tt /\ tree w' = graft final_path (subtree tmp_path (tree w)) (without tmp_path (tree w))).
Proof.
  intros Hr. pose proof (plain_tmp) as Ht. pose proof (pl_platform Hpl) as Hp'.
  assert (forall x, plain x -> resolve w false (abs_path (x :: version_dir)) = Some (rev version_dir ++ [x])) as Hres.
  { intros x Hx. unfold resolve. rewrite IsAbs_abs_path, elems_child by done. destruct Hx as (_ & H1 & H2 & _).
    apply walk_child; [apply dotless_version|done..]. }
  unfold Rename, syscall. destruct (match faults w with [] => _ | f :: rest => _ end) as [[f|] rest]; [split; [done|by left]|].
  rewrite !Hres by done. fold final_path tmp_path. rewrite bool_decide_eq_false_2.
  2: { intros [r E%strip_Some]. pose proof (final_not_tmp []) as Hn. rewrite app_nil_r, E, strip_app in Hn. done. }
  destruct (at_ (tree w) tmp_path) as [[| |]|]; destruct (at_ (tree w) final_path) as [[| |]|];
    try destruct (bool_decide _); (split; [done|]); first [left; done|right; done].
Qed.

(** The metadata file of a freshly moved directory. *)
Lemma write_meta text w :
  real final_path (tree w) -> tree w !! (final_path ++ ["install.json"]) = None ->
  let '(w', r) := WriteFile (Join [abs_path (DirName p :: version_dir); "install.json"]) text false w in
  cwd w' = cwd w /\
  (tree w' = tree w /\ r <> Ret tt
   \/ exists d, tree w' = <[final_path ++ ["install.json"] := File d false]> (tree w)
       /\ (d = text \/ exists n, d = String.substring 0 n text) /\ (r = Ret tt -> d = text)).
Proof.
  intros Hr Hn. assert (plain "install.json") as Hi by by vm_compute.
  assert (stable true ("install.json" :: DirName p :: version_dir)) as Hst.
  { apply (stable_plain_app ["install.json"]); [apply stable_child, Hpl|by constructor]. }
  rewrite Join_abs by (apply stable_child, Hpl). cbn [fold_left]. rewrite pushes_plain by done.
  assert (resolve w true (abs_path ("install.json" :: DirName p :: version_dir)) = Some (final_path ++ ["install.json"])) as Hres.
  { unfold resolve. rewrite IsAbs_abs_path, elems_abs_path by done. cbn [rev]. fold final_path.
    change ((rev version_dir ++ [DirName p]) ++ ["install.json"]) with (final_path ++ ["install.json"]).
    rewrite walk_real; [|apply (stable_dotless (DirName p :: version_dir)), stable_child, Hpl|done].
    rewrite walk_cons. change (String.eqb "install.json" ".") with false. change (String.eqb "install.json" "..") with false.
    by rewrite Hn. }
  assert (forall d, put_file (tree w) (final_path ++ ["install.json"]) d false
    = Some (<[final_path ++ ["install.json"] := File d false]> (tree w))) as Hput.
  { intros d. unfold put_file. by rewrite at_snoc, Hn. }
  unfold WriteFile, syscall. rewrite Hres. destruct (match faults w with [] => _ | f :: rest => _ end) as [[f|] rest].
  - split; [done|]. destruct (written f) as [|n]; [by left|]. right. cbn. rewrite Hput. cbn.
    exists (String.substring 0 n text). split; [done|]. split; [right; by exists n|done].
  - rewrite Hput. split; [done|]. right. exists text. split; [done|]. split; [by left|done].
Qed.

(** What publishing leaves: the old directory, or part of it, or the new one
    with its metadata. *)
Definition published (t t' : fs) (text : string) (d : option string) : Prop :=
  (forall r, r <> ["install.json"] -> t' !! (final_path ++ r) = t !! (tmp_path ++ r))
  /\ t' !! (final_path ++ ["install.json"]) = (fun d => File d false) <$> d
  /\ (forall d', d = Some d' -> d' = text \/ exists n, d' = String.substring 0 n text).

Definition outside (q : path) : Prop := strip final_path q = None /\ strip tmp_path q = None.

Lemma real_final w t :
  real (rev version_dir) (tree w) -> tree w !! tmp_path = Some Directory ->
  t = graft final_path (subtree tmp_path (tree w)) (without tmp_path (tree w)) -> real final_path t.
Proof.
  intros Hr Hd ->. apply real_snoc.
  - intros b c E Hb. rewrite lookup_graft_out by by eapply strip_child_prefix.
    rewrite lookup_without. unfold tmp_path. rewrite (strip_child_prefix b c) by done. by apply (Hr b c).
  - rewrite <- (app_nil_r (rev version_dir ++ [DirName p])). fold final_path.
    by rewrite lookup_graft_in, lookup_subtree, app_nil_r.
Qed.

Lemma publish_spec w meta :
  real (rev version_dir) (tree w) -> tree w !! tmp_path = Some Directory -> tree w !! (tmp_path ++ ["install.json"]) = None ->
  let '(w', r) := publish (abs_path (tmp_name :: version_dir)) (artifactPlatformDir s a p) meta w in
  cwd w' = cwd w /\ real (rev version_dir) (tree w') /\ (forall q, outside q -> tree w' !! q = tree w !! q) /\
  (r <> Ret tt /\ removes final_path (tree w) (tree w')
   \/ exists d, published (tree w) (tree w') (marshal_meta meta +:+ newline) d
                /\ (r = Ret tt -> d = Some (marshal_meta meta +:+ newline))).
Proof.
  intros Hr Hd Hj. unfold publish. rewrite final_dir, final_eq.
  unfold mbind, M_bind at 1. rewrite MkdirAll_version by done. unfold mbind, M_bind at 1, ignore.
  destruct (remove_child (DirName p) w (pl_platform Hpl) (open_way_real _ _ Hr)) as [Hrm Hc1].
  set (w1 := (RemoveAll _ w).1) in *. fold final_path in Hrm.
  assert (real (rev version_dir) (tree w1)) as Hr1 by (eapply (real_kept (DirName p)); [exact Hr|apply Hrm]).
  assert (forall r, tree w1 !! (tmp_path ++ r) = tree w !! (tmp_path ++ r)) as Htmp by (intros r; apply Hrm, tmp_not_final).
  assert (tree w1 !! tmp_path = Some Directory) as Hd1 by (rewrite <- (app_nil_r tmp_path), Htmp, app_nil_r; done).
  pose proof (Rename_tmp w1 Hr1) as Hren. unfold mbind, M_bind at 1.
  destruct (Rename _ _ w1) as [w2 r2]. destruct Hren as (Hc2 & [[Hne Ht2]|[-> Ht2]]).
  { destruct r2 as [[]|e|e]; [done|..]; (split; [congruence|]; rewrite Ht2; split; [done|]; split; [|by left]);
      intros q [Hq _]; by apply Hrm. }
  pose proof (real_final w1 _ Hr1 Hd1 Ht2) as Hrf.
  assert (forall r, tree w2 !! (final_path ++ r) = tree w !! (tmp_path ++ r)) as Hmoved.
  { intros r. by rewrite Ht2, lookup_graft_in, lookup_subtree. }
  pose proof (write_meta (marshal_meta meta +:+ newline) w2 Hrf) as Hw. rewrite Hmoved in Hw. specialize (Hw Hj).
  assert (real (rev version_dir) (tree w2)) as Hr2 by exact (real_prefix _ _ _ Hrf).
  assert (forall q, outside q -> tree w2 !! q = tree w !! q) as Hout.
  { intros q [Hq1 Hq2]. rewrite Ht2, lookup_graft_out, lookup_without, Hq2 by done. by apply Hrm. }
  destruct (WriteFile _ _ _ w2) as [w3 r3]. destruct Hw as (Hc3 & [[Ht3 Hne]|(d & Ht3 & Hdt & Hok)]).
  - split; [congruence|]. rewrite Ht3. split; [done|]. split; [done|]. right. exists None. split; [|done].
    split; [intros r _; apply Hmoved|]. split; [by rewrite Hmoved|done].
  - split; [congruence|]. split; [|split].
    + rewrite Ht3. intros b c E Hb. rewrite lookup_insert_ne; [by apply (Hr2 b c)|]. intros Ei.
      pose proof (strip_child_prefix b c (DirName p) E) as Hs. fold final_path in Hs. rewrite <- Ei, strip_app in Hs. done.
    + intros q Hq. rewrite Ht3, lookup_insert_ne; [by apply Hout|]. intros Ei. destruct Hq as [Hq _].
      rewrite <- Ei, strip_app in Hq. done.
    + right. exists (Some d). split; [|intros E; by rewrite Hok]. split; [|split].
      * intros r Hr'. rewrite Ht3, lookup_insert_ne; [apply Hmoved|]. intros E%app_inv_head. congruence.
      * by rewrite Ht3, lookup_insert_eq.
      * by intros d' [= <-].
Qed.

(** Nothing has the temporary name yet, and the way to it is clear. *)
Definition ready (t : fs) : Prop :=
  open_way (rev version_dir) t /\ forall r, t !! (tmp_path ++ r) = None.

Definition text_of_meta : string := marshal_meta (install_meta s a entry p) +:+ newline.

(** Outside the two directories only missing directories of the way are made. *)
Definition frame (t t' : fs) : Prop := forall q, outside q ->
  t' !! q = t !! q \/ (t !! q = None /\ t' !! q = Some Directory /\ exists c, rev version_dir = q ++ c).

(** The directory holds nothing new. *)
Definition kept (t t' : fs) : Prop := forall r n, t' !! (final_path ++ r) = Some n -> t !! (final_path ++ r) = Some n.

(** The directory is the extraction of an archive that has the digest of the
    manifest, made in an empty directory, with at most the metadata added. *)
Definition replaced (t' : fs) (complete : Prop) : Prop := exists data w1 w2 d,
  download entry = Ret data /\ sha256_hex data = Strings.ToLower (Strings.TrimSpace (SHA256 entry))
  /\ (forall r, tree w1 !! (tmp_path ++ r) = match r with [] => Some Directory | _ => None end)
  /\ extractArtifact data a entry (abs_path (tmp_name :: version_dir)) w1 = (w2, Ret tt)
  /\ published (tree w2) t' text_of_meta d /\ (complete -> d = Some text_of_meta).

(** The deferred removal of the temporary directory. *)
Lemma cleanup w :
  open_way (rev version_dir) (tree w) ->
  let w' := (RemoveAll (abs_path (tmp_name :: version_dir)) w).1 in
  (forall q, strip tmp_path q = None -> tree w' !! q = tree w !! q) /\ cwd w' = cwd w.
Proof. intros Ho. destruct (remove_child tmp_name w plain_tmp Ho) as [[H _] Hc]. done. Qed.

Lemma remove_fresh w :
  ready (tree w) -> tree (RemoveAll (abs_path (tmp_name :: version_dir)) w).1 = tree w
                    /\ cwd (RemoveAll (abs_path (tmp_name :: version_dir)) w).1 = cwd w.
Proof.
  intros [Ho Hf]. destruct (remove_child tmp_name w plain_tmp Ho) as [[H1 H2] Hc]. split; [|done].
  apply map_eq. intros q. destruct (strip (rev version_dir ++ [tmp_name]) q) as [r|] eqn:E; [|by apply H1].
  apply strip_Some in E as ->. fold tmp_path in *. rewrite Hf. destruct (_ !! _) as [n|] eqn:En; [|done].
  apply H2 in En. by rewrite Hf in En.
Qed.

(** Making the temporary directory. *)
Lemma real_tmp t : real tmp_path t -> t !! tmp_path = Some Directory.
Proof. intros Hr. apply (Hr tmp_path []); [by rewrite app_nil_r|]. unfold tmp_path. by destruct (rev version_dir). Qed.

Lemma make_tmp w :
  ready (tree w) ->
  let '(w', r) := MkdirAll (abs_path (tmp_name :: version_dir)) w in
  open_way (rev version_dir) (tree w') /\ frame (tree w) (tree w')
  /\ (forall q, tree w' !! (final_path ++ q) = tree w !! (final_path ++ q))
  /\ (r = Ret tt -> tidy tmp_path (place entry) (tree w')
        /\ forall q, tree w' !! (tmp_path ++ q) = match q with [] => Some Directory | _ => None end).
Proof.
  intros [Ho Hf]. assert (tree w !! tmp_path = None) as Hn by (rewrite <- (app_nil_r tmp_path); apply Hf).
  assert (open_way tmp_path (tree w)) as Hot.
  { intros b c E Hb. destruct c as [|y c _] using rev_ind; [rewrite app_nil_r in E; subst b; by left|].
    unfold tmp_path in E. rewrite app_assoc in E. apply app_inj_tail in E as [E _]. by apply (Ho b c). }
  assert (dotless tmp_path) as HD by (apply (stable_dotless (tmp_name :: version_dir)), stable_child, plain_tmp).
  unfold MkdirAll. rewrite IsAbs_abs_path, elems_child by apply plain_tmp. fold tmp_path.
  pose proof (mkdir_all_open tmp_path w HD Hot) as H. destruct (mkdir_all [] (rev tmp_path) w) as [w' r].
  destruct H as (Hadd & Hc & Hreal). split; [by eapply adds_way_open|].
  split; [|split].
  - intros q [Hq1 Hq2]. destruct (Hadd q) as [->|(E1 & E2 & c & Ec & Hne)]; [by left|]. right. split; [done|]. split; [done|].
    destruct c as [|y c _] using rev_ind.
    { rewrite app_nil_r in Ec. subst q. pose proof (strip_app tmp_path []) as Hs. rewrite app_nil_r in Hs. congruence. }
    unfold tmp_path in Ec. rewrite app_assoc in Ec. apply app_inj_tail in Ec as [-> _]. by exists c.
  - intros q. destruct (Hadd (final_path ++ q)) as [->|(_ & _ & c & Ec & _)]; [done|]. exfalso.
    pose proof (tmp_not_final []) as Hs. rewrite app_nil_r, Ec, <- app_assoc, strip_app in Hs. done.
  - intros ->. specialize (Hreal eq_refl).
    assert (forall q, tree w' !! (tmp_path ++ q) = match q with [] => Some Directory | _ => None end) as Htmp.
    { intros [|x q]; [rewrite app_nil_r; by apply real_tmp|].
      destruct (Hadd (tmp_path ++ x :: q)) as [->|(_ & _ & c & Ec & _)]; [apply Hf|]. exfalso.
      apply (f_equal length) in Ec. rewrite !length_app in Ec. cbn [length] in Ec. lia. }
    split; [|done]. split; [done|]. split; [left; apply (Htmp [place entry])|].
    intros r target. rewrite <- app_assoc, Htmp. done.
Qed.

Lemma place_not_meta : strip (tmp_path ++ [place entry]) (tmp_path ++ ["install.json"]) = None.
Proof. apply strip_None. intros r E. rewrite <- app_assoc in E. apply app_inv_head in E. unfold place in E. by destruct (Home entry). Qed.

Lemma strip_longer (q x y : path) : strip q y = None -> strip (q ++ x) y = None.
Proof. rewrite !strip_None. intros H r ->. apply (H (x ++ r)). by rewrite app_assoc. Qed.

Lemma frame_trans t1 t2 t3 : frame t1 t2 -> (forall q, outside q -> t3 !! q = t2 !! q) -> frame t1 t3.
Proof. intros H1 H2 q Hq. rewrite H2 by done. by apply H1. Qed.

Context (Hentry : platform_artifact a p = Some entry) (Hbuild : Build entry = [])
        (Hlinks : forall data, download entry = Ret data -> no_upward_links data).

(** The body whose temporary directory is removed at the end. *)
Lemma install_body data w :
  download entry = Ret data -> sha256_hex data = Strings.ToLower (Strings.TrimSpace (SHA256 entry)) -> ready (tree w) ->
  let '(w', r) := (_ ← MkdirAll (abs_path (tmp_name :: version_dir));
                   _ ← extractArtifact data a entry (abs_path (tmp_name :: version_dir));
                   publish (abs_path (tmp_name :: version_dir)) (artifactPlatformDir s a p) (install_meta s a entry p)) w in
  open_way (rev version_dir) (tree w') /\ frame (tree w) (tree w')
  /\ (r <> Ret tt /\ kept (tree w) (tree w') \/ replaced (tree w') (r = Ret tt)).
Proof.
  intros Hdl Hsum Hready. pose proof (make_tmp w Hready) as Hmk. unfold mbind, M_bind.
  destruct (MkdirAll (abs_path (tmp_name :: version_dir)) w) as [w1 r1]. destruct Hmk as (Ho1 & Hf1 & Hfin1 & Hok1).
  destruct r1 as [[]|e|e];
    [|split; [done|]; split; [done|]; left; split; [done|]; intros r n; by rewrite Hfin1..].
  destruct (Hok1 eq_refl) as [Htidy Htmp].
  pose proof (extractArtifact_stays (tmp_name :: version_dir) data a entry (stable_child _ plain_tmp) (pl_binary Hpl)
    (Hlinks _ Hdl) w1 Htidy) as [[Htidy2 Hsame2] _].
  destruct (extractArtifact data a entry (abs_path (tmp_name :: version_dir)) w1) as [w2 r2] eqn:Eex. cbn [fst] in *.
  change (rev (tmp_name :: version_dir)) with tmp_path in *.
  assert (real (rev version_dir) (tree w2)) as Hr2 by exact (real_prefix _ _ _ (proj1 Htidy2)).
  assert (forall q, strip tmp_path q = None -> tree w2 !! q = tree w1 !! q) as Hs2 by (intros; by apply Hsame2, strip_longer).
  assert (frame (tree w) (tree w2)) as Hf2 by (eapply frame_trans; [exact Hf1|]; intros q [_ Hq]; by apply Hs2).
  assert (forall q, tree w2 !! (final_path ++ q) = tree w !! (final_path ++ q)) as Hfin2.
  { intros q. rewrite Hs2 by apply final_not_tmp. apply Hfin1. }
  destruct r2 as [[]|e|e];
    [|split; [by apply open_way_real|]; split; [done|]; left; split; [done|]; intros r n; by rewrite Hfin2..].
  assert (tree w2 !! tmp_path = Some Directory) as Hd2.
  { apply real_tmp. exact (proj1 Htidy2). }
  assert (tree w2 !! (tmp_path ++ ["install.json"]) = None) as Hj2 by (rewrite Hsame2 by apply place_not_meta; apply Htmp).
  pose proof (publish_spec w2 (install_meta s a entry p) Hr2 Hd2 Hj2) as Hpub.
  destruct (publish _ _ _ w2) as [w3 r3]. destruct Hpub as (_ & Hr3 & Hout3 & Hcase).
  split; [by apply open_way_real|]. split; [by eapply frame_trans|]. destruct Hcase as [[Hne [_ Hrm]]|(d & Hpub & Hcomplete)].
  - left. split; [done|]. intros r n Hn. rewrite <- Hfin2. by apply Hrm.
  - right. by exists data, w1, w2, d.
Qed.

End install.

(** ** The manifest *)
Lemma ParsePlatform_String value pl : ParsePlatform value = Ret pl -> platform_String pl = Strings.TrimSpace value.
Proof.
  unfold ParsePlatform, Strings.Cut. destruct (Strings.cut_opt (Strings.TrimSpace value) "/") as [[os arch]|] eqn:E; [|done].
  apply Strings.cut_opt_Some in E. destruct (_ || _) eqn:Eb; [done|]. intros [= <-]. unfold platform_String. cbn.
  rewrite !orb_false_iff in Eb. destruct Eb as [[[_ ->] ->] _]. done.
Qed.

Lemma each_Ret {A} (f : A -> outcome string unit) l : each f l = Ret tt -> forall x, x ∈ l -> f x = Ret tt.
Proof.
  induction l as [|y l IH]; [by intros _ x ?%elem_of_nil|]. cbn. destruct (f y) as [[]|e|e] eqn:E; [|done..]. cbn.
  intros H x [->|Hx]%elem_of_cons; [done|by apply IH].
Qed.

Lemma validate_artifacts_Ret l : forall i seen, validate_artifacts i seen l = Ret tt ->
  NoDup (map Name l) /\ (forall a, a ∈ l -> (Name a ∉ seen) /\ exists i seen, validate_artifact i seen a = Ret tt).
Proof.
  induction l as [|a l IH]; intros i seen; [intros _; split; [apply NoDup_nil_2|by intros a ?%elem_of_nil]|].
  cbn. destruct (validate_artifact i seen a) as [[]|e|e] eqn:E; [|done..]. cbn. intros [Hnd Hin]%IH.
  assert (Name a ∉ seen) as Hseen.
  { unfold validate_artifact in E. destruct (blank (Name a)); [done|]. destruct (existsb _ seen) eqn:Ex; [done|].
    intros H. apply not_true_iff_false in Ex. apply Ex. apply existsb_exists. exists (Name a).
    by rewrite String.eqb_refl, <- list_elem_of_In. }
  split.
  - apply NoDup_cons. split; [|done]. intros (b & Eb & Hb)%list_elem_of_fmap. destruct (Hin b Hb) as [Hn _]. apply Hn. rewrite Eb. left.
  - intros b [->|Hb]%elem_of_cons; [split; [done|by exists i, seen]|]. destruct (Hin b Hb) as [Hn Hv].
    split; [|done]. intros ?. apply Hn. by right.
Qed.

(** An accepted manifest names each artifact once, so a name finds it, and
    every archive it lists has a digest and a place that does not go up. *)
Theorem Validate_sound m a key e :
  Validate m = Ret tt -> a ∈ Artifacts m -> Platforms a !! key = Some e ->
  find_artifact m (Name a) = Some a /\ isSHA256 (SHA256 e) = true /\ cleanExtract (Extract_ e) <> ""
  /\ (Build e <> [] -> cleanExtract (BuildOutput e) <> "")
  /\ exists pl, ParsePlatform key = Ret pl.
Proof.
  unfold Validate. destruct (negb _); [done|]. destruct (_ <=? _)%Z; [done|].
  destruct (validate_locks 0 [] (SourceLocks m)) as [[]|er|er]; [|done..]. cbn. intros [Hnd Hin]%validate_artifacts_Ret Ha He.
  split.
  { unfold find_artifact. clear Hin He. induction (Artifacts m) as [|b l IH]; [by apply elem_of_nil in Ha|].
    cbn in *. apply NoDup_cons in Hnd as [Hb Hnd]. apply elem_of_cons in Ha as [->|Ha]; [by rewrite String.eqb_refl|].
    destruct (String.eqb_spec (Name b) (Name a)) as [E|_]; [|by apply IH]. exfalso. apply Hb. rewrite E. by apply list_elem_of_fmap_2. }
  destruct (Hin a Ha) as (_ & i & seen & Hv). unfold validate_artifact in Hv. repeat (destruct (_ : bool) in Hv; [done|]).
  destruct (validate_source_build a) as [[]|er|er]; [|done..]. cbn in Hv.
  destruct (each _ _) as [[]|er|er] eqn:Eeach; [|done..]. clear Hv.
  assert (validate_platform a (key, e) = Ret tt) as Hp.
  { apply (each_Ret _ _ Eeach). rewrite AppConfig.visit_perm. by apply elem_of_map_to_list. }
  unfold validate_platform in Hp. destruct (ParsePlatform key) as [pl|er|er]; [|done..].
  destruct (negb (String.eqb (Archive e) "tar.gz")); [done|]. destruct (blank (URL e)); [done|].
  destruct (isSHA256 (SHA256 e)); [|done]. cbn in Hp. destruct (String.eqb_spec (cleanExtract (Extract_ e)) ""); [done|].
  split; [done|]. split; [done|]. split; [|by exists pl]. intros Hb. rewrite bool_decide_eq_false_2 in Hp by done.
  cbn in Hp. by destruct (String.eqb_spec (cleanExtract (BuildOutput e)) "").
Qed.

(** ** Images *)
Lemma sync_image_present (d d' : docker) image :
  (forall d ref d', pull_image d ref = (d', None) -> inspect_image d' ref = None) ->
  sync_image (Some d) image = (Some d', None) -> Optional image = false -> inspect_image d' (imageRuntimeRef image) = None.
Proof.
  intros Hpull. unfold sync_image. destruct (inspect_image d (imageRuntimeRef image)) as [e|] eqn:Ei; [|by intros [= <-]].
  intros H Ho. rewrite Ho in H. destruct (unavailable e); [done|]. destruct (negb (isDockerImageMissing e) && negb false); [done|].
  destruct (pull_image d (imageRuntimeRef image)) as [d1 [e1|]] eqn:Ep; cbn in H; [done|]. injection H as <-. by eapply Hpull.
Qed.

Lemma sync_image_keeps (d d1 : docker) x e ref :
  (forall d ref ref', inspect_image d ref' = None -> inspect_image (pull_image d ref).1 ref' = None) ->
  sync_image (Some d) x = (Some d1, e) -> inspect_image d ref = None -> inspect_image d1 ref = None.
Proof.
  intros Hkeep. unfold sync_image. destruct (inspect_image d (imageRuntimeRef x)) as [er|]; [|by intros [= <- _]].
  destruct (unavailable er); [by intros [= <- _]|]. destruct (_ && _); [by intros [= <- _]|].
  destruct (pull_image d (imageRuntimeRef x)) as [d2 e2] eqn:Ep. intros [= <- _] Hi.
  specialize (Hkeep d (imageRuntimeRef x) ref Hi). by rewrite Ep in Hkeep.
Qed.

Lemma sync_image_runner (d : docker) x : exists d1 e, sync_image (Some d) x = (Some d1, e).
Proof. unfold sync_image. repeat case_match; eauto. Qed.

Lemma syncImages_keeps l : forall (d d' : docker) ref,
  (forall d ref ref', inspect_image d ref' = None -> inspect_image (pull_image d ref).1 ref' = None) ->
  syncImages (Some d) l = (Some d', None) -> inspect_image d ref = None -> inspect_image d' ref = None.
Proof.
  induction l as [|x l IH]; intros d d' ref Hkeep Hs Hi; [by injection Hs as <-|]. cbn [syncImages] in Hs.
  destruct (sync_image_runner d x) as (d1 & e & E). rewrite E in Hs. destruct e; [done|].
  eapply IH; [done|exact Hs|]. by eapply sync_image_keeps.
Qed.

(** After images are synchronized every image that is not optional is present,
    when a pull that succeeds brings its image and takes none away. *)
Theorem syncImages_present images : forall (d : docker) d',
  (forall d ref d', pull_image d ref = (d', None) -> inspect_image d' ref = None) ->
  (forall d ref ref', inspect_image d ref' = None -> inspect_image (pull_image d ref).1 ref' = None) ->
  syncImages (Some d) images = (Some d', None) ->
  forall image, image ∈ images -> Optional image = false -> inspect_image d' (imageRuntimeRef image) = None.
Proof.
  induction images as [|i l IH]; intros d d' Hpull Hkeep Hs image Hin Ho; [by apply elem_of_nil in Hin|].
  cbn [syncImages] in Hs. destruct (sync_image_runner d i) as (d1 & e & E). rewrite E in Hs. destruct e; [done|].
  apply elem_of_cons in Hin as [->|Hin]; [|by eapply IH].
  eapply syncImages_keeps; [done|exact Hs|]. by eapply sync_image_present.
Qed.
End extraction.

(** ** An example *)
Definition entry_of (name : string) (typ : typeflag) (link : string) : tar_entry :=
  {| header_Name := name; Typeflag := typ; Linkname := link; body := "#!"; body_ok := true |}.

Definition digest (c : ascii) : string := Strings.Join (replicate 64 (String c "")) "".

(** A good archive, one whose links end in [..], and one in which the tool is a
    directory. *)
Definition demo_untar (data : string) : option (list tar_entry * bool) :=
  if String.eqb data "good" then Some ([entry_of "tool-1/lib" TypeDir ""; entry_of "tool-1/bin/tool" TypeReg "";
    entry_of "tool-1/bin/t" TypeSymlink "tool"; entry_of "../etc/passwd" TypeReg ""; entry_of ".." TypeReg ""], true)
  else if String.eqb data "evil" then Some ([entry_of "tool-1/a" TypeSymlink ".."; entry_of "tool-1/a/b" TypeSymlink "..";
    entry_of "tool-1/a/b/evil" TypeReg ""; entry_of "tool-1/bin/tool" TypeReg ""], true)
  else if String.eqb data "empty" then Some ([entry_of "tool-1/bin/tool" TypeDir ""], true)
  else None.

Definition demo_env : ToolchainEnv :=
  {| getenv := fun _ => ""; sha256_hex := fun data => digest (if String.eqb data "good" then "a" else "b"); untar := demo_untar;
     http_get := fun url => Ret (200, url); decode_manifest := fun _ => Fail "";
     marshal_manifest := fun _ => Ret "m"; marshal_meta := fun m => SourceSHA256 m; unmarshal_meta := fun _ => None;
     stamp := "0"; now := "now"; current_platform := {| GOOS := "linux"; GOARCH := "amd64" |};
     docker := list string;
     inspect_image := fun d ref => if existsb (String.eqb ref) d then None
                                   else Some {| unavailable := false; error_text := "No such image" |};
     pull_image := fun d ref => (ref :: d, None);
     go_build := fun _ _ _ => mret tt; run_shell := fun _ _ => mret tt |}.
#[local] Existing Instance demo_env.
#[local] Existing Instance ascii_tables.
#[local] Existing Instance AppConfig.demo_order.

Definition linux : Platform := {| GOOS := "linux"; GOARCH := "amd64" |}.
Definition archive (url sum : string) (home : bool) (n : Z) : PlatformArtifact :=
  {| Archive := "tar.gz"; URL := url; SHA256 := sum; Extract_ := "bin/tool"; Home := home; StripComponents := n;
     Build := []; BuildOutput := "" |}.
Definition tool (name : string) (e : PlatformArtifact) : Artifact :=
  {| Name := name; Kind := "binary"; Version_ := "1"; License := ""; DefaultBinary := "tool"; Binaries := [];
     Platforms := {[ "linux/amd64" := e ]}; SourceBuild := None; Images := [] |}.
Definition demo_manifest (a : Artifact) : Manifest :=
  {| SchemaVersion := ManifestSchemaVersion; ManifestVersion := 1; SourceLocks := []; Artifacts := [a] |}.
Definition demo_store (a : Artifact) : Store :=
  {| Toolchain.Dir := "/store"; RootDir := "."; s_Manifest := demo_manifest a; s_ManifestSHA256 := "m"; s_Platform := linux |}.

Definition good_entry : PlatformArtifact := archive "good" (digest "a") true 1.
Definition good : Artifact := tool "tool" good_entry.
Definition demo_world : world :=
  {| tree := {[ ["store"] := Directory; ["etc"] := Directory ]}; faults := []; cwd := [] |}.

Lemma good_placed : placed (demo_store good) good linux ["store"].
Proof. split; try by vm_compute. repeat constructor; by vm_compute. Qed.

Lemma good_links : no_upward_links "good".
Proof. unfold no_upward_links. cbn. repeat constructor. Qed.

Lemma demo_absent x y b : tree demo_world !! (x :: y :: b) = None.
Proof. unfold demo_world. cbn [tree]. by rewrite lookup_insert_ne, lookup_singleton_ne. Qed.

Lemma demo_ready : ready good ["store"] (tree demo_world).
Proof.
  split.
  - intros b c E Hb. cbn in E. destruct b as [|x [|y b]]; simplify_eq/=; [right; by vm_compute|left; by apply demo_absent].
  - intros r. by apply demo_absent.
Qed.

Lemma extraction_confined_witness :
  tree (extractArtifact "good" good good_entry "/store" demo_world).1 !! ["etc"] = Some Directory.
Proof.
  assert (stable true ["store"]) as HT by (repeat constructor; by vm_compute).
  assert (forall b, tidy ["store"] b (tree demo_world)) as Ht.
  { intros b. split; [|split].
    - intros x y E Hx. destruct x as [|z [|? ?]]; [done| |by destruct y]. injection E as <- _. by vm_compute.
    - left. by apply demo_absent.
    - intros r target. change ((["store"] ++ [b]) ++ r) with ("store" :: b :: r). by rewrite demo_absent. }
  destruct (extraction_confined ["store"] "good" good good_entry demo_world ["etc"] HT ltac:(by vm_compute) good_links
    (Ht _) (Ht _)) as [H _].
  change "/store" with (abs_path ["store"]). rewrite (H ltac:(by vm_compute)). by vm_compute.
Defined.


(** The links of this archive lead out of the directory one step at a time: a
    file is written beside the temporary directory. *)
Definition evil : Artifact := tool "tool" (archive "evil" (digest "b") true 1).

Example links_escape :
  tree (extractArtifact "evil" evil (archive "evil" (digest "b") true 1) "/store/artifacts/tool/1/.tmp"
    {| tree := <[["store"; "artifacts"; "tool"; "1"; ".tmp"] := Directory]> (<[["store"; "artifacts"; "tool"; "1"] := Directory]>
         (<[["store"; "artifacts"; "tool"] := Directory]> (<[["store"; "artifacts"] := Directory]> (tree demo_world))));
       faults := []; cwd := [] |}).1 !! ["store"; "artifacts"; "tool"; "1"; "evil"] = Some (File "#!" true).
Proof. vm_compute. reflexivity. Qed.

(** An archive in which the tool is a directory installs without an error; the
    tool is missing afterwards. *)
Definition empty_tool : Artifact := tool "tool" (archive "empty" (digest "b") true 1).

Example missing_binary_not_reported :
  match installArtifact (demo_store empty_tool) empty_tool linux demo_world with
  | (w', Ret _) => match artifactStatus (demo_store empty_tool) empty_tool linux true w' with
                   | (_, Ret st) => as_Status st = "missing"
                   | _ => False
                   end
  | _ => False
  end.
Proof. vm_compute. reflexivity. Qed.

(** An accepted manifest may have a negative number of components to strip,
    which panics, and a name that leaves the store. *)
Example negative_strip_panics :
  let a := tool "tool" (archive "good" (digest "a") true (-1)) in
  Validate (demo_manifest a) = Ret tt
  /\ (installArtifact (demo_store a) a linux demo_world).2 = Panic "slice bounds out of range".
Proof. vm_compute. by split. Qed.

Example name_leaves_store :
  let a := tool "../../etc" good_entry in
  Validate (demo_manifest a) = Ret tt /\ artifactPlatformDir (demo_store a) a linux = "/etc/1/linux-amd64".
Proof. vm_compute. by split. Qed.
End ToolchainProofs.
