(* ===== verification/StateM.v ===== *)
(** * Programs that change a state and may fail

    [Run S A] is a program over a state [S] that returns an outcome; [StateM]
    has its operations and the invariant rule: what every step keeps, the whole
    program keeps. *)
From stdpp Require Import base tactics strings.
From S2P Require Import Prelude.

Module StateM.
Definition Run (S A : Type) : Type := S -> S * outcome string A.

#[export] Instance Run_ret S : MRet (Run S) := fun _ x w => (w, Ret x).
#[export] Instance Run_bind S : MBind (Run S) := fun _ _ f m w =>
  match m w with
  | (w', Ret x) => f x w'
  | (w', Fail e) => (w', Fail e)
  | (w', Panic e) => (w', Panic e)
  end.

Section ops.
Context {S : Type}.
Definition fail {A} (e : string) : Run S A := fun w => (w, Fail e).
Definition lift {A} (o : outcome string A) : Run S A := fun w => (w, o).
Definition get : Run S S := fun w => (w, Ret w).
Definition gets {A} (f : S -> A) : Run S A := fun w => (w, Ret (f w)).
Definition modify (f : S -> S) : Run S unit := fun w => (f w, Ret tt).
Definition attempt {A} (m : Run S A) : Run S (outcome string A) := fun w => let '(w', r) := m w in (w', Ret r).
(** The error is dropped, as in [_ = f()]. *)
Definition ignore {A} (m : Run S A) : Run S unit := fun w => ((m w).1, Ret tt).
(** [defer]: [d] runs after [m], whatever came of it. *)
Definition defer {A} (d : Run S unit) (m : Run S A) : Run S A := fun w => let '(w', r) := m w in ((d w').1, r).
End ops.

(** [keeps R m]: [R] relates the states before and after [m]. *)
Definition keeps {S A} (R : S -> S -> Prop) (m : Run S A) : Prop := forall w, R w (m w).1.

Section keeps.
Context {S : Type} (R : S -> S -> Prop) `{!PreOrder R}.

Lemma keeps_ret {A} (x : A) : keeps R (mret x).
Proof. intros w. cbn. reflexivity. Qed.
Lemma keeps_fail {A} e : keeps R (fail (A:=A) e).
Proof. intros w. cbn. reflexivity. Qed.
Lemma keeps_lift {A} (o : outcome string A) : keeps R (lift o).
Proof. intros w. cbn. reflexivity. Qed.
Lemma keeps_gets {A} (f : S -> A) : keeps R (gets f).
Proof. intros w. cbn. reflexivity. Qed.
Lemma keeps_modify f : (forall w, R w (f w)) -> keeps R (modify f).
Proof. intros H w. apply H. Qed.

Lemma keeps_bind {A B} (m : Run S A) (f : A -> Run S B) : keeps R m -> (forall x, keeps R (f x)) -> keeps R (mbind f m).
Proof.
  intros Hm Hf w. specialize (Hm w). unfold mbind, Run_bind. destruct (m w) as [w' [x|e|e]]; [|done..].
  etrans; [exact Hm|apply Hf].
Qed.

Lemma keeps_attempt {A} (m : Run S A) : keeps R m -> keeps R (attempt m).
Proof. intros Hm w. specialize (Hm w). unfold attempt. by destruct (m w). Qed.

Lemma keeps_ignore {A} (m : Run S A) : keeps R m -> keeps R (ignore m).
Proof. intros Hm w. apply Hm. Qed.

Lemma keeps_defer {A} d (m : Run S A) : keeps R d -> keeps R m -> keeps R (defer d m).
Proof. intros Hd Hm w. specialize (Hm w). unfold defer. destruct (m w) as [w' r]. etrans; [exact Hm|apply Hd]. Qed.
End keeps.

(** [triple I R m Q]: from a state with [I], [m] ends in one with [I] that [R]
    relates to the first, and what it returns has [Q]. *)
Definition triple {S A} (I : S -> Prop) (R : S -> S -> Prop) (m : Run S A) (Q : A -> Prop) : Prop :=
  forall w, I w -> I (m w).1 /\ R w (m w).1 /\ forall x, (m w).2 = Ret x -> Q x.

Section triple.
Context {S : Type} (I : S -> Prop) (R : S -> S -> Prop) `{!PreOrder R}.

Lemma hoare_ret {A} (x : A) (Q : A -> Prop) : Q x -> triple I R (mret x) Q.
Proof. intros HQ w HI. cbn. split_and!; [done|reflexivity|]. by intros ? [= <-]. Qed.
Lemma hoare_fail {A} e (Q : A -> Prop) : triple I R (fail e) Q.
Proof. intros w HI. cbn. split_and!; [done|reflexivity|done]. Qed.
Lemma hoare_lift {A} (o : outcome string A) (Q : A -> Prop) : (forall x, o = Ret x -> Q x) -> triple I R (lift o) Q.
Proof. intros HQ w HI. cbn. split_and!; [done|reflexivity|done]. Qed.
Lemma hoare_gets {A} (f : S -> A) (Q : A -> Prop) : (forall w, I w -> Q (f w)) -> triple I R (gets f) Q.
Proof. intros HQ w HI. cbn. split_and!; [done|reflexivity|]. intros ? [= <-]. auto. Qed.
Lemma hoare_modify f (Q : unit -> Prop) : (forall w, I w -> I (f w) /\ R w (f w)) -> Q tt -> triple I R (modify f) Q.
Proof. intros Hf HQ w HI. cbn. destruct (Hf w HI). split_and!; [done..|]. by intros []. Qed.

Lemma hoare_bind {A B} (m : Run S A) (f : A -> Run S B) (Q : A -> Prop) (Q' : B -> Prop) :
  triple I R m Q -> (forall x, Q x -> triple I R (f x) Q') -> triple I R (mbind f m) Q'.
Proof.
  intros Hm Hf w HI. destruct (Hm w HI) as (HI' & HR & HQ). unfold mbind, Run_bind.
  destruct (m w) as [w' [x|e|e]]; cbn in *; [|by split_and!..].
  destruct (Hf x (HQ x eq_refl) w' HI') as (HI'' & HR' & HQ'). split_and!; [done|by etrans|done].
Qed.

Lemma hoare_weaken {A} (m : Run S A) (Q Q' : A -> Prop) : triple I R m Q -> (forall x, Q x -> Q' x) -> triple I R m Q'.
Proof. intros Hm HQ w HI. destruct (Hm w HI) as (? & ? & ?). split_and!; auto. Qed.

Lemma hoare_attempt {A} (m : Run S A) (Q : A -> Prop) :
  triple I R m Q -> triple I R (attempt m) (fun r => forall x, r = Ret x -> Q x).
Proof.
  intros Hm w HI. destruct (Hm w HI) as (? & ? & ?). unfold attempt. destruct (m w) as [w' r]; cbn in *.
  split_and!; [done..|]. by intros ? [= <-].
Qed.

Lemma hoare_ignore {A} (m : Run S A) (Q : A -> Prop) : triple I R m Q -> triple I R (ignore m) (fun _ => True).
Proof. intros Hm w HI. destruct (Hm w HI) as (? & ? & ?). by split_and!. Qed.
End triple.

(** A run that returned went through every step. *)
Lemma bind_returns {S A B} (m : Run S A) (f : A -> Run S B) w w' y :
  mbind f m w = (w', Ret y) -> exists w1 x, m w = (w1, Ret x) /\ f x w1 = (w', Ret y).
Proof. unfold mbind, Run_bind. destruct (m w) as [w1 [x|e|e]]; [eauto|done..]. Qed.

Lemma bind_run {S A B} (m : Run S A) (f : A -> Run S B) w w1 x : m w = (w1, Ret x) -> mbind f m w = f x w1.
Proof. intros H. unfold mbind, Run_bind. by rewrite H. Qed.

Create HintDb keeps discriminated.
#[export] Hint Resolve keeps_ret keeps_fail keeps_lift keeps_gets keeps_bind keeps_attempt keeps_ignore keeps_defer : keeps.
End StateM.
