(* ===== verification/DBBranch.v ===== *)
(** * Database branches ([cmd/scenery/db_branch_*.go], [db_postgres_branch_provider.go])

    [DBBranch] models the branches of a managed Postgres server: a worktree is
    pinned to a branch, a registry of leases says which branches there are and
    when they expire, and every branch is a database made from the parent
    database.  The world holds the registry file, the pin files, the databases
    and the faults to come: every use of a file, of a lock or of the server may
    fail without effect.  What a file holds is what decoding it gives.  Git,
    digests, times as text, durations, URLs and the schema dump are the class
    [BranchEnv]; the commands return what they print.  A map of services is
    visited in the order of [AppConfig.ObjectOrder]. *)
From stdpp Require Import base tactics list gmap strings.
From Stdlib Require Import ZArith Lia Ascii.
From S2P Require Import Prelude GoStrings AppConfig StateM.
Import StateM.

Module DBBranch.
Definition dbBranchRegistrySchemaVersion : string := "scenery.db.branch.registry.v2".
Definition dbBranchPinSchemaVersion : string := "scenery.db.branch.v1".
Definition dbBranchDefaultParentBranch : string := "main".
Definition dbBranchDefaultPolicy : string := "worktree".
Definition dbBranchDefaultNameTemplate : string := "{app}/{git_branch}".
Definition dbBranchDefaultTTL : string := "168h".
Definition dbBranchDefaultDatabase : string := "postgres".
Definition dbBranchDefaultRole : string := "scenery".
Definition postgresBranchProviderName : string := "postgres".
Definition postgresDefaultMode : string := "local".
Definition postgresDefaultBranchStrategy : string := "template_database".
Definition devPostgresDefaultIsolation : string := "database".

(** ** Data *)
Record dbBranchOptions := {
  Command : string; AppRoot : string; JSON : bool; o_Branch : string; Yes : bool; Force : bool;
  At : string; After : string; Older : string; Target : string
}.
Record worktreeDBPin := {
  SchemaVersion : string; Provider : string; Project : string; ParentBranch : string; Branch : string;
  BranchID : string; Database : string; Role : string; SessionID : string; WorktreeRoot : string;
  CreatedBy : string; TTL : string
}.
Record dbBranchEndpoint := { Host : string; Port : Z; e_Database : string; e_Role : string; SSLMode : string; Source : string }.
Record dbBranchLease := {
  Pin : worktreeDBPin; Status : string; Endpoint : option dbBranchEndpoint; CreatedAt : string; UpdatedAt : string;
  ExpiresAt : string
}.
Record dbBranchRegistry := { r_SchemaVersion : string; r_Provider : string; r_UpdatedAt : string; Leases : list dbBranchLease }.
Record dbBranchBackendStatus := { b_Status : string; b_Message : string; b_Endpoint : option dbBranchEndpoint }.
Record dbBranchResolution := { res_Pin : worktreeDBPin; res_Source : string; Created : bool; BackendStatus : dbBranchBackendStatus }.
Record dbBranchConnectionInfo := { DatabaseURL : string; DatabaseName : string; c_Endpoint : dbBranchEndpoint }.
Record dbBranchRestorePoint := {
  Ref : string; rp_Source : string; rp_Branch : string; rp_BranchID : string; rp_Project : string; rp_DatabaseName : string
}.
Record dbBranchStatusResult := {
  s_Status : string; s_Backend : dbBranchBackendStatus; s_Pin : option worktreeDBPin; s_DatabaseURLEnv : string; s_Message : string
}.
Record dbBranchListResult := { Branches : list worktreeDBPin; l_Leases : list dbBranchLease; l_Message : string }.

(** The agent session a command runs for. *)
Record session := { sess_ID : string; sess_Branch : string }.

(** The parts of a URL that are used. *)
Record url := { Scheme : string; u_Host : string; Hostname : string; u_Port : string; q_host : string; q_port : string; q_sslmode : string }.

(** A database: what it holds, and whether it lets sessions in. *)
Record database := { content : string; open : bool }.

Record world := {
  registry : option (outcome string dbBranchRegistry);   (** [branches.json]: missing, unreadable or decoded *)
  pins : gmap string (outcome string worktreeDBPin);     (** the pin of each worktree *)
  dbs : gmap string database;
  now : Z;                                               (** seconds; the clock stands still during a command *)
  faults : list bool
}.

Class BranchEnv := {
  sha256_hex : string -> string;
  rfc3339 : Z -> string;                 (** the text of a time *)
  parse_rfc3339 : string -> option Z;
  parse_duration : string -> option Z;   (** [time.ParseDuration], in seconds *)
  git_branch : string -> string;         (** [discoverDevGitBranch] *)
  admin_url : string;                    (** the admin URL, once there is a server *)
  parse_url : string -> option url;
  url_with_path : string -> string -> string;  (** [parsed.Path = ...; parsed.String()] *)
  schema_text : string -> string;        (** the dump of a database's schema *)
  text_diff : string -> string -> string -> string -> string
}.

Definition M : Type -> Type := Run world.

(** An external call that may fail. *)
Definition external : M unit := fun w =>
  match faults w with
  | [] => (w, Ret tt)
  | f :: rest =>
    ({| registry := registry w; pins := pins w; dbs := dbs w; now := now w; faults := rest |},
     if f then Fail "unavailable" else Ret tt)
  end.

Definition set_registry (r : dbBranchRegistry) : M unit := modify (fun w =>
  {| registry := Some (Ret r); pins := pins w; dbs := dbs w; now := now w; faults := faults w |}).
Definition set_pins (f : gmap string (outcome string worktreeDBPin) -> gmap string (outcome string worktreeDBPin)) : M unit :=
  modify (fun w => {| registry := registry w; pins := f (pins w); dbs := dbs w; now := now w; faults := faults w |}).
Definition set_dbs (f : gmap string database -> gmap string database) : M unit := modify (fun w =>
  {| registry := registry w; pins := pins w; dbs := f (dbs w); now := now w; faults := faults w |}).

(** ** Names *)
Definition firstNonEmpty (values : list string) : string :=
  default "" (List.find (fun v => negb (String.eqb (Strings.TrimSpace v) "")) values).

Section names.
Context {UT : UnicodeTables}.

Definition word_rune (r : Z) : bool := Unicode.IsLetter r || Unicode.IsDigit r.

(** The loop of the sanitizers: words are kept, a run of separators after
    something written becomes one [sep], other runes vanish. *)
Fixpoint sanitize_loop (sep : string) (separates : Z -> bool) (after_sep started : bool) (rs : list Z) : string :=
  match rs with
  | [] => ""
  | r :: rest =>
    if word_rune r then Utf8.encode_rune r +:+ sanitize_loop sep separates false true rest
    else if separates r && negb after_sep && started then sep +:+ sanitize_loop sep separates true started rest
    else sanitize_loop sep separates after_sep started rest
  end.

Definition named_separator (r : Z) : bool := (r =? 45) || (r =? 95) || (r =? 46) || Unicode.IsSpace r.

Definition sanitizeDBBranchSegment (value : string) : string :=
  Strings.Trim (sanitize_loop "-" named_separator false false (Utf8.runes (Strings.ToLower (Strings.TrimSpace value)))) "-".

Definition sanitizeDBIdentifier (value : string) : string :=
  Strings.Trim (sanitize_loop "_" named_separator false false (Utf8.runes (Strings.ToLower (Strings.TrimSpace value)))) "_".

Definition postgresIdentifierPart (value : string) : string :=
  Strings.Trim (sanitize_loop "_" (fun _ => true) false false (Utf8.runes (Strings.ToLower (Strings.TrimSpace value)))) "_".

Definition normalizeDBBranchName (value : string) : string :=
  Strings.Join (List.filter (fun s => negb (String.eqb s ""))
    (map sanitizeDBBranchSegment (Strings.Split (Strings.TrimSpace value) "/"))) "/".

Definition isProtectedDBParentBranch (pin : worktreeDBPin) : bool :=
  let branch := normalizeDBBranchName (Branch pin) in
  let parent := normalizeDBBranchName (ParentBranch pin) in
  negb (String.eqb branch "") && negb (String.eqb parent "") && String.eqb branch parent.
End names.

(** ** Leases *)
Definition sameDBBranch (a b : worktreeDBPin) : bool :=
  String.eqb (Project a) (Project b) && String.eqb (Branch a) (Branch b).

Definition sameDBBranchLease (a b : worktreeDBPin) : bool :=
  if negb (String.eqb (BranchID a) "") && negb (String.eqb (BranchID b) "") then String.eqb (BranchID a) (BranchID b)
  else sameDBBranch a b.

Definition dbLeaseMatchesBranchForDelete (lease : dbBranchLease) (current : worktreeDBPin) (branch : string) : bool :=
  if negb (String.eqb (Branch (Pin lease)) branch) then false
  else if String.eqb (Strings.TrimSpace (Project current)) "" then false
  else String.eqb (Project (Pin lease)) (Project current).

Definition isSceneryOwnedDBPin (pin : worktreeDBPin) : bool :=
  String.eqb (Provider pin) postgresBranchProviderName && String.eqb (CreatedBy pin) "scenery".
Definition isSceneryOwnedDBLease (lease : dbBranchLease) : bool := isSceneryOwnedDBPin (Pin lease).

Section branches.
Context {UT : UnicodeTables} {OO : AppConfig.ObjectOrder} {BE : BranchEnv}.

Definition managedPostgresDatabaseName (baseAppID sessionID : string) : string :=
  let label := postgresIdentifierPart baseAppID +:+ "_" +:+ postgresIdentifierPart sessionID in
  let label := Strings.Trim label "_" in
  let label := if String.eqb label "" then "scenery_session" else label in
  if (String.length label <=? 63)%nat then label
  else
    let suffix := "_" +:+ String.substring 0 8 (sha256_hex label) in
    Strings.TrimRightSet (Ascii.eqb "_") (String.substring 0 (63 - String.length suffix) label) +:+ suffix.

Definition managedPostgresBranchDatabaseName (project branch : string) : string :=
  managedPostgresDatabaseName (firstNonEmpty [project; "app"]) (Strings.ReplaceAll (firstNonEmpty [branch; "branch"]) "/" "_").

Definition dbLocalBranchID (project branch : string) : string :=
  "br-local-" +:+ String.substring 0 16 (sha256_hex (project +:+ String (chr 0) branch)).

Definition dbBranchLeaseExpiresAt (now : Z) (ttl : string) : string :=
  match parse_duration (Strings.TrimSpace ttl) with
  | Some d => if d <=? 0 then "" else rfc3339 (now + d)
  | None => ""
  end.

Definition dbBranchLeaseExpired (lease : dbBranchLease) (now : Z) : bool :=
  if String.eqb (ExpiresAt lease) "" then false
  else match parse_rfc3339 (ExpiresAt lease) with Some t => t <=? now | None => false end.

Definition shouldPruneDBLease (lease : dbBranchLease) (now olderThan : Z) : bool :=
  if negb (dbBranchLeaseExpired lease now) then false
  else if olderThan <=? 0 then true
  else match parse_rfc3339 (firstNonEmpty [UpdatedAt lease; CreatedAt lease]) with
       | Some updatedAt => updatedAt <? now - olderThan
       | None => true
       end.

(** ** Configuration *)
Definition managedPostgresDeclared (cfg : AppConfig.Config) : option AppConfig.DevServiceConfig :=
  snd <$> List.find AppConfig.is_postgres (AppConfig.visit (map_to_list (AppConfig.Services (AppConfig.Dev cfg)))).

Definition dbPostgresService (cfg : AppConfig.Config) : AppConfig.DevServiceConfig :=
  default AppConfig.no_service (managedPostgresDeclared cfg).

Definition branchProjectForConfig (cfg : AppConfig.Config) : string :=
  let declared := match managedPostgresDeclared cfg with Some svc => sanitizeDBIdentifier (AppConfig.Project svc) | None => "" end in
  if negb (String.eqb declared "") then declared
  else sanitizeDBIdentifier (firstNonEmpty [AppConfig.AppID cfg; "app"]).

Definition postgresBranchStrategy (cfg : AppConfig.Config) : string :=
  firstNonEmpty [Strings.TrimSpace (AppConfig.BranchStrategy (dbPostgresService cfg)); postgresDefaultBranchStrategy].

Definition postgresParentDatabaseName (cfg : AppConfig.Config) (pin : worktreeDBPin) : string :=
  let svc := dbPostgresService cfg in
  let value := sanitizeDBIdentifier (AppConfig.ParentDatabase svc) in
  if negb (String.eqb value "") then value
  else
    let parent := normalizeDBBranchName
      (firstNonEmpty [ParentBranch pin; AppConfig.ParentBranch svc; dbBranchDefaultParentBranch]) in
    managedPostgresBranchDatabaseName (Project pin) parent.

Definition postgresServiceUsesBranching (svc : AppConfig.DevServiceConfig) : bool :=
  if negb (String.eqb (firstNonEmpty [Strings.TrimSpace (AppConfig.Kind svc); "postgres"]) "postgres") then false
  else existsb (fun s => negb (String.eqb (Strings.TrimSpace s) ""))
    [AppConfig.BranchPolicy svc; AppConfig.BranchNameTemplate svc; AppConfig.BranchStrategy svc; AppConfig.ParentBranch svc;
     AppConfig.ParentDatabase svc].

(** The service's settings as the commands read them. *)
Definition setting (value fallback : string) : string := firstNonEmpty [Strings.TrimSpace value; fallback].

Definition buildWorktreeDBPinForSession (appRoot : string) (cfg : AppConfig.Config) (s : option session) (branch : string)
    : outcome string worktreeDBPin :=
  let svc := dbPostgresService cfg in
  if negb (String.eqb (setting (AppConfig.Kind svc) "postgres") "postgres")
  then Fail "dev.services.postgres kind must be postgres for db branch checkout"
  else if negb (String.eqb (setting (AppConfig.Mode svc) postgresDefaultMode) postgresDefaultMode)
  then Fail "dev.services.postgres mode is not supported for Postgres branches"
  else if negb (String.eqb (setting (AppConfig.Isolation svc) devPostgresDefaultIsolation) devPostgresDefaultIsolation)
  then Fail "dev.services.postgres isolation is not supported for Postgres branches"
  else
    let project := branchProjectForConfig cfg in
    let branch := normalizeDBBranchName branch in
    if String.eqb branch "" then Fail "db branch name is empty after sanitization"
    else Ret {|
      SchemaVersion := dbBranchPinSchemaVersion;
      Provider := postgresBranchProviderName;
      Project := project;
      ParentBranch := normalizeDBBranchName (firstNonEmpty [AppConfig.ParentBranch svc; dbBranchDefaultParentBranch]);
      Branch := branch;
      BranchID := dbLocalBranchID project branch;
      Database := managedPostgresBranchDatabaseName project branch;
      Role := sanitizeDBIdentifier (firstNonEmpty [AppConfig.Role svc; dbBranchDefaultRole]);
      SessionID := match s with Some s => Strings.TrimSpace (sess_ID s) | None => "" end;
      WorktreeRoot := appRoot;
      CreatedBy := "scenery";
      TTL := firstNonEmpty [AppConfig.TTL svc; dbBranchDefaultTTL]
    |}.

Definition buildWorktreeDBPin (appRoot : string) (cfg : AppConfig.Config) (branch : string) : outcome string worktreeDBPin :=
  buildWorktreeDBPinForSession appRoot cfg None branch.

(** The placeholders are replaced in the order of a map. *)
Definition renderDBBranchTemplate (template appRoot : string) (cfg : AppConfig.Config) (s : option session) : string :=
  let appID := firstNonEmpty [AppConfig.AppID cfg; "app"] in
  let gitBranch := git_branch appRoot in
  let worktree := Filepath.Base (Strings.TrimRightSet (Ascii.eqb "/") appRoot) in
  let sessionID := match s with Some s => Strings.TrimSpace (sess_ID s) | None => "" end in
  let gitBranch := match s with
                   | Some s => if String.eqb gitBranch "" then Strings.TrimSpace (sess_Branch s) else gitBranch
                   | None => gitBranch
                   end in
  let values := [("{app}", appID); ("{git_branch}", firstNonEmpty [gitBranch; worktree; appID]);
                 ("{worktree}", firstNonEmpty [worktree; appID]); ("{session}", firstNonEmpty [sessionID; appID])] in
  normalizeDBBranchName (fold_left (fun r e => Strings.ReplaceAll r e.1 e.2) (AppConfig.visit values) template).

Definition deriveDBBranchName (appRoot : string) (cfg : AppConfig.Config) (s : option session) : outcome string (string * string) :=
  let svc := dbPostgresService cfg in
  let policy := setting (AppConfig.BranchPolicy svc) dbBranchDefaultPolicy in
  if String.eqb policy "manual" then Fail "dev.services.postgres branch_policy manual requires a checkout"
  else if String.eqb policy "worktree" || String.eqb policy "" then
    Ret (renderDBBranchTemplate (setting (AppConfig.BranchNameTemplate svc) dbBranchDefaultNameTemplate) appRoot cfg s, "worktree")
  else if String.eqb policy "session" then
    let template := Strings.TrimSpace (AppConfig.BranchNameTemplate svc) in
    let template := if String.eqb template "" then "{app}/{session}" else template in
    Ret (renderDBBranchTemplate template appRoot cfg s, "session")
  else Fail "dev.services.postgres branch_policy is not supported".

(** ** Files *)
Definition readWorktreeDBPin (appRoot : string) : M (option worktreeDBPin) :=
  _ ← external;
  found ← gets (fun w => pins w !! appRoot);
  match found with
  | None => mret None
  | Some decoded =>
    pin ← lift decoded;
    if negb (String.eqb (SchemaVersion pin) dbBranchPinSchemaVersion) then fail "unsupported schema_version" else mret (Some pin)
  end.

Definition no_registry : dbBranchRegistry :=
  {| r_SchemaVersion := dbBranchRegistrySchemaVersion; r_Provider := postgresBranchProviderName; r_UpdatedAt := ""; Leases := [] |}.

Definition readPostgresBranchRegistry : M dbBranchRegistry :=
  _ ← external;
  file ← gets registry;
  match file with
  | None => mret no_registry
  | Some decoded =>
    r ← lift decoded;
    if negb (String.eqb (r_SchemaVersion r) dbBranchRegistrySchemaVersion) then fail "unsupported schema_version"
    else if negb (String.eqb (r_Provider r) postgresBranchProviderName) then fail "unsupported provider"
    else mret r
  end.

Definition writePostgresBranchRegistry (r : dbBranchRegistry) : M unit :=
  _ ← external;
  set_registry {| r_SchemaVersion := dbBranchRegistrySchemaVersion; r_Provider := postgresBranchProviderName;
                  r_UpdatedAt := r_UpdatedAt r; Leases := Leases r |}.

(** [lockDBBranchRegistry] and [lockPostgresBranchOperation] may time out. *)
Definition lock_ : M unit := external.

(** [mutate] sees the registry under the lock. *)
Definition mutatePostgresBranchRegistry (mutate : dbBranchRegistry -> M dbBranchRegistry) : M unit :=
  _ ← lock_;
  r ← readPostgresBranchRegistry;
  r' ← mutate r;
  writePostgresBranchRegistry r'.

Definition same_lease (lease : dbBranchLease) (pin : worktreeDBPin) : bool :=
  sameDBBranchLease (Pin lease) pin || sameDBBranch (Pin lease) pin.

Definition foreign_lease_error (pin : worktreeDBPin) : string :=
  "refusing to reuse foreign local Postgres branch lease " +:+ Branch pin.

(** The first lease of the branch is replaced, or a new one appended. *)
Fixpoint upsert_leases (pin : worktreeDBPin) (endpoint : option dbBranchEndpoint) (status nowText expiresAt : string)
    (leases : list dbBranchLease) : outcome string (list dbBranchLease) :=
  match leases with
  | [] => Ret [{| Pin := pin; Status := status; Endpoint := endpoint; CreatedAt := nowText; UpdatedAt := nowText;
                  ExpiresAt := expiresAt |}]
  | lease :: rest =>
    if same_lease lease pin then
      if negb (isSceneryOwnedDBLease lease) then Fail (foreign_lease_error pin)
      else
        let createdAt := if String.eqb (CreatedAt lease) "" then nowText else CreatedAt lease in
        let endpoint := match endpoint with None => Endpoint lease | Some e => Some e end in
        Ret ({| Pin := pin; Status := status; Endpoint := endpoint; CreatedAt := createdAt; UpdatedAt := nowText;
                ExpiresAt := expiresAt |} :: rest)
    else (rest' ← upsert_leases pin endpoint status nowText expiresAt rest; Ret (lease :: rest'))
  end.

Definition with_leases (r : dbBranchRegistry) (nowText : string) (l : list dbBranchLease) : dbBranchRegistry :=
  {| r_SchemaVersion := r_SchemaVersion r; r_Provider := r_Provider r; r_UpdatedAt := nowText; Leases := l |}.

Definition upsertPostgresBranchLease (pin : worktreeDBPin) (endpoint : option dbBranchEndpoint) (status : string) : M unit :=
  mutatePostgresBranchRegistry (fun r =>
    t ← gets now;
    let nowText := rfc3339 t in
    l ← lift (upsert_leases pin endpoint (firstNonEmpty [Strings.TrimSpace status; "pending"]) nowText
                (dbBranchLeaseExpiresAt t (TTL pin)) (Leases r));
    mret (with_leases r nowText l)).

Definition markPostgresBranchLeasePending (pin : worktreeDBPin) : M unit := upsertPostgresBranchLease pin None "pending".

Definition findPostgresBranchLease (pin : worktreeDBPin) : M (option dbBranchLease) :=
  r ← readPostgresBranchRegistry;
  mret (List.find (fun lease => isSceneryOwnedDBLease lease && same_lease lease pin) (Leases r)).

Definition validatePostgresBranchLeaseWritable (pin : worktreeDBPin) : M unit :=
  _ ← lock_;
  r ← readPostgresBranchRegistry;
  if existsb (fun lease => same_lease lease pin && negb (isSceneryOwnedDBLease lease)) (Leases r)
  then fail (foreign_lease_error pin) else mret tt.

Definition writeWorktreeDBPin (appRoot : string) (pin : worktreeDBPin) : M unit :=
  _ ← validatePostgresBranchLeaseWritable pin;
  _ ← external;   (** [ensureSceneryLocalStateIgnored] *)
  _ ← external;
  _ ← set_pins (<[appRoot := Ret pin]>);
  upsertPostgresBranchLease pin None "pending".

(** [os.Remove] of a pin file. *)
Definition remove_pin (appRoot : string) : M unit := _ ← external; set_pins (delete appRoot).

(** ** The server *)
Definition adminURL : M string := _ ← external; mret admin_url.

Definition database_exists (name : string) : M bool :=
  _ ← external; gets (fun w => bool_decide (is_Some (dbs w !! name))).

Definition drop_database (name : string) : M unit := _ ← external; set_dbs (delete name).

Definition create_database (name : string) (template : option string) : M unit :=
  _ ← external;
  all ← gets dbs;
  if bool_decide (is_Some (all !! name)) then fail "database already exists"
  else match template with
  | None => set_dbs (<[name := {| content := ""; open := true |}]>)
  | Some t =>
    match all !! t with
    | None => fail "template database does not exist"
    | Some d => set_dbs (<[name := {| content := content d; open := true |}]>)
    end
  end.

Definition allow_connections (name : string) (b : bool) : M unit :=
  _ ← external;
  all ← gets dbs;
  match all !! name with
  | None => fail "database does not exist"
  | Some d => set_dbs (<[name := {| content := content d; open := b |}]>)
  end.

(** Connecting, and ending the other sessions of a database. *)
Definition connect : M unit := external.
Definition terminate_backends : M unit := external.

Definition createPostgresDatabaseIfMissing (name : string) : M unit :=
  exists_ ← database_exists name;
  if negb exists_ then create_database name None else mret tt.

Definition dropManagedPostgresDatabase (name : string) : M unit :=
  _ ← connect;
  _ ← terminate_backends;
  drop_database name.

Definition recreateBranchDatabase (cfg : AppConfig.Config) (pin : worktreeDBPin) : M unit :=
  let parentDB := postgresParentDatabaseName cfg pin in
  if String.eqb parentDB "" then fail "Postgres parent database is empty"
  else if String.eqb (Database pin) parentDB then fail "refusing to recreate protected parent database"
  else
    _ ← connect;
    _ ← createPostgresDatabaseIfMissing parentDB;
    _ ← ignore terminate_backends;
    _ ← drop_database (Database pin);
    _ ← terminate_backends;
    _ ← allow_connections parentDB false;
    created ← attempt (_ ← create_database (Database pin) (Some parentDB); allow_connections parentDB true);
    match created with
    | Ret _ => mret tt
    | Fail e => _ ← ignore (allow_connections parentDB true); fail e
    | Panic e => lift (Panic e)
    end.

Definition ensureTemplateDatabaseBranch (cfg : AppConfig.Config) (pin : worktreeDBPin) : M unit :=
  if negb (String.eqb (postgresBranchStrategy cfg) postgresDefaultBranchStrategy)
  then fail "dev.services.postgres branch_strategy is not implemented yet"
  else
    exists_ ← database_exists (Database pin);
    if negb exists_ then recreateBranchDatabase cfg pin else mret tt.

Definition port_of (text : string) : outcome string Z :=
  match Strconv.Atoi text with Ret p => Ret p | _ => Fail "invalid port" end.

Definition postgresBranchEndpoint (pin : worktreeDBPin) : outcome string dbBranchEndpoint :=
  match parse_url (Strings.TrimSpace admin_url) with
  | None => Fail "parse url"
  | Some u =>
    '(host, port) ←
      (if negb (String.eqb (u_Port u) "") then (p ← port_of (u_Port u); Ret (Hostname u, p))
       else
         let socketHost := Strings.TrimSpace (q_host u) in
         if negb (String.eqb socketHost "") then
           let queryPort := Strings.TrimSpace (q_port u) in
           if negb (String.eqb queryPort "") then (p ← port_of queryPort; Ret (socketHost, p)) else Ret (socketHost, 5432)
         else Ret (Hostname u, 5432));
    let host := if String.eqb host "" && negb (String.eqb (u_Host u) "")
                then match Net.SplitHostPort (u_Host u) with Some (h, _) => h | None => "" end else host in
    Ret {| Host := host; Port := port; e_Database := Database pin; e_Role := Role pin;
           SSLMode := firstNonEmpty [q_sslmode u; "disable"]; Source := postgresBranchProviderName |}
  end.

Definition postgresDatabaseURL (name : string) : outcome string string :=
  match parse_url (Strings.TrimSpace admin_url) with
  | None => Fail "parse url"
  | Some u =>
    if negb (String.eqb (Scheme u) "postgres" || String.eqb (Scheme u) "postgresql")
    then Fail "managed Postgres URL must use postgres:// or postgresql://"
    else if String.eqb (u_Host u) "" && String.eqb (Strings.TrimSpace (q_host u)) ""
    then Fail "managed Postgres URL must include a host"
    else Ret (url_with_path admin_url ("/" +:+ name))
  end.

Definition normalizedDBBranchEndpoint (e : dbBranchEndpoint) (pin : worktreeDBPin) : dbBranchEndpoint :=
  {| Host := Strings.TrimSpace (Host e); Port := Port e;
     e_Database := sanitizeDBIdentifier (firstNonEmpty [e_Database e; Database pin; dbBranchDefaultDatabase]);
     e_Role := sanitizeDBIdentifier (firstNonEmpty [e_Role e; Role pin; dbBranchDefaultRole]);
     SSLMode := firstNonEmpty [Strings.TrimSpace (SSLMode e); "disable"]; Source := Strings.TrimSpace (Source e) |}.

(** ** The provider *)
Definition status_of (status message : string) (e : option dbBranchEndpoint) : dbBranchBackendStatus :=
  {| b_Status := status; b_Message := message; b_Endpoint := e |}.

Definition protected_status (pin : worktreeDBPin) : dbBranchBackendStatus :=
  status_of "protected" ("Postgres branch lease " +:+ Branch pin +:+ " is the protected parent database.") None.

Definition pending_on_error {A} (pin : worktreeDBPin) (m : M A) : M A :=
  r ← attempt m;
  match r with
  | Ret x => mret x
  | Fail e => _ ← ignore (markPostgresBranchLeasePending pin); fail e
  | Panic e => lift (Panic e)
  end.

Definition EnsureBranch (cfg : AppConfig.Config) (pin : worktreeDBPin) : M dbBranchBackendStatus :=
  if isProtectedDBParentBranch pin then
    _ ← upsertPostgresBranchLease pin None "protected";
    mret (protected_status pin)
  else
    _ ← pending_on_error pin adminURL;
    _ ← markPostgresBranchLeasePending pin;
    _ ← validatePostgresBranchLeaseWritable pin;
    _ ← pending_on_error pin lock_;
    _ ← validatePostgresBranchLeaseWritable pin;
    _ ← pending_on_error pin (ensureTemplateDatabaseBranch cfg pin);
    endpoint ← lift (postgresBranchEndpoint pin);
    _ ← upsertPostgresBranchLease pin (Some endpoint) "ready";
    mret (status_of "ready" "Postgres branch database is ready." (Some endpoint)).

Definition InspectBranch (pin : worktreeDBPin) : M dbBranchBackendStatus :=
  found ← attempt (findPostgresBranchLease pin);
  t ← gets now;
  mret (match found with
        | Fail e | Panic e => status_of "unknown" e None
        | Ret None => status_of "missing" "Local branch pin exists, but no Scenery-owned Postgres branch lease was found." None
        | Ret (Some lease) =>
          if dbBranchLeaseExpired lease t then status_of "expired" "Local Postgres branch lease is expired." None
          else if isProtectedDBParentBranch pin || String.eqb (Status lease) "protected" then protected_status pin
          else if negb (String.eqb (Status lease) "ready")
          then status_of (firstNonEmpty [Status lease; "pending"]) "Postgres branch lease is not ready yet." None
          else match Endpoint lease with
               | None => status_of "missing" "Postgres branch lease is marked ready, but endpoint metadata is missing." None
               | Some e => status_of "ready" "Postgres branch database is ready." (Some (normalizedDBBranchEndpoint e pin))
               end
        end).

(** The endpoint of a lease that is ready. *)
Definition ready_endpoint (lease : option dbBranchLease) : option dbBranchEndpoint :=
  match lease with
  | Some l => if String.eqb (Status l) "ready" then Endpoint l else None
  | None => None
  end.

Definition Connection (cfg : AppConfig.Config) (pin : worktreeDBPin) : M dbBranchConnectionInfo :=
  if isProtectedDBParentBranch pin then fail "refusing to expose the protected parent database as an app-session database connection"
  else
    lease ← findPostgresBranchLease pin;
    lease ← (match ready_endpoint lease with
             | None => (_ ← EnsureBranch cfg pin; findPostgresBranchLease pin)
             | Some _ => mret lease
             end);
    match ready_endpoint lease with
    | None => fail ("local Postgres branch lease " +:+ Branch pin +:+ " is not ready")
    | Some e =>
      _ ← adminURL;
      dsn ← lift (postgresDatabaseURL (Database pin));
      mret {| DatabaseURL := dsn; DatabaseName := Database pin; c_Endpoint := normalizedDBBranchEndpoint e pin |}
    end.

Definition ResetBranch (cfg : AppConfig.Config) (pin : worktreeDBPin) : M unit :=
  _ ← adminURL;
  _ ← lock_;
  _ ← recreateBranchDatabase cfg pin;
  endpoint ← lift (postgresBranchEndpoint pin);
  upsertPostgresBranchLease pin (Some endpoint) "ready".

Definition deletes (pin : worktreeDBPin) (branch : string) (lease : dbBranchLease) : bool :=
  isSceneryOwnedDBLease lease && dbLeaseMatchesBranchForDelete lease pin branch.

Definition droppable (lease : dbBranchLease) : bool :=
  String.eqb (Status lease) "ready" && negb (String.eqb (Strings.TrimSpace (Database (Pin lease))) "").

Fixpoint drop_all (names : list string) : M unit :=
  match names with
  | [] => mret tt
  | n :: rest => _ ← dropManagedPostgresDatabase n; drop_all rest
  end.

Definition DeleteBranch (pin : worktreeDBPin) (branch : string) (appRoot : string) : M unit :=
  _ ← adminURL;
  _ ← lock_;
  r ← readPostgresBranchRegistry;
  let branch := normalizeDBBranchName branch in
  let doomed := List.filter (deletes pin branch) (Leases r) in
  if bool_decide (doomed = []) then fail ("no Scenery-owned local Postgres branch lease found for " +:+ branch)
  else
    _ ← lock_;
    _ ← drop_all (map (fun l => Database (Pin l)) (List.filter droppable doomed));
    _ ← lock_;
    r ← readPostgresBranchRegistry;
    if negb (existsb (deletes pin branch) (Leases r))
    then fail ("no Scenery-owned local Postgres branch lease found for " +:+ branch)
    else
      t ← gets now;
      _ ← writePostgresBranchRegistry (with_leases r (rfc3339 t) (List.filter (fun l => negb (deletes pin branch l)) (Leases r)));
      if String.eqb (Branch pin) branch && negb (String.eqb (Strings.TrimSpace appRoot) "") then remove_pin appRoot else mret tt.

Definition RestoreBranch (cfg : AppConfig.Config) (pin : worktreeDBPin) (at_ : string) : M dbBranchRestorePoint :=
  _ ← ResetBranch cfg pin;
  mret {| Ref := firstNonEmpty [Strings.TrimSpace at_; "parent-template"]; rp_Source := "parent-template";
          rp_Branch := Branch pin; rp_BranchID := BranchID pin; rp_Project := Project pin; rp_DatabaseName := Database pin |}.

Definition schema_of (name : string) : M string :=
  _ ← external;
  all ← gets dbs;
  match all !! name with
  | None => fail "database does not exist"
  | Some d => if open d then mret (schema_text (content d)) else fail "database is not accepting connections"
  end.

Definition DiffBranch (cfg : AppConfig.Config) (pin : worktreeDBPin) (target : string) : M string :=
  if String.eqb (Strings.TrimSpace target) "" then fail "target branch is required"
  else
    _ ← adminURL;
    let branch := normalizeDBBranchName target in
    let targetDB :=
      if String.eqb branch (normalizeDBBranchName (firstNonEmpty [ParentBranch pin; dbBranchDefaultParentBranch]))
      then postgresParentDatabaseName cfg pin else managedPostgresBranchDatabaseName (Project pin) branch in
    currentExists ← database_exists (Database pin);
    targetExists ← database_exists targetDB;
    if negb currentExists || negb targetExists
    then mret ("current: " +:+ Database pin +:+ " target: " +:+ targetDB)
    else
      _ ← lift (postgresDatabaseURL (Database pin));
      _ ← lift (postgresDatabaseURL targetDB);
      currentSchema ← schema_of (Database pin);
      targetSchema ← schema_of targetDB;
      if String.eqb currentSchema targetSchema then mret "schemas are identical"
      else (_ ← external; mret (text_diff targetDB targetSchema (Database pin) currentSchema)).

(** ** Sessions *)
Definition ensureDBBranchPinForSession (appRoot : string) (cfg : AppConfig.Config) (s : option session) : M dbBranchResolution :=
  let fresh :=
    '(branch, source) ← lift (deriveDBBranchName appRoot cfg s);
    pin ← lift (buildWorktreeDBPinForSession appRoot cfg s branch);
    _ ← writeWorktreeDBPin appRoot pin;
    st ← EnsureBranch cfg pin;
    mret {| res_Pin := pin; res_Source := source; Created := true; BackendStatus := st |} in
  let use (existing : worktreeDBPin) :=
    st ← InspectBranch existing;
    st ← (if negb (String.eqb (b_Status st) "ready") then EnsureBranch cfg existing else mret st);
    mret {| res_Pin := existing; res_Source := "pin"; Created := false; BackendStatus := st |} in
  found ← readWorktreeDBPin appRoot;
  match found with
  | None => fresh
  | Some existing =>
    if String.eqb (setting (AppConfig.BranchPolicy (dbPostgresService cfg)) dbBranchDefaultPolicy) "session" then
      '(branch, source) ← lift (deriveDBBranchName appRoot cfg s);
      pin ← lift (buildWorktreeDBPinForSession appRoot cfg s branch);
      if negb (String.eqb (SessionID existing) (SessionID pin)) || (negb (sameDBBranchLease existing pin) && negb (sameDBBranch existing pin))
      then
        _ ← writeWorktreeDBPin appRoot pin;
        st ← EnsureBranch cfg pin;
        mret {| res_Pin := pin; res_Source := source; Created := true; BackendStatus := st |}
      else use existing
    else use existing
  end.

Definition resolveDBBranchConnection (appRoot : string) (cfg : AppConfig.Config) : M (worktreeDBPin * dbBranchConnectionInfo) :=
  found ← readWorktreeDBPin appRoot;
  match found with
  | None => fail "dev.services.postgres has no worktree branch pin"
  | Some pin => c ← Connection cfg pin; mret (pin, c)
  end.

Definition resolveDBBranchDatabaseURL (appRoot : string) (cfg : AppConfig.Config) (s : option session) : M string :=
  match s with
  | None => c ← resolveDBBranchConnection appRoot cfg; mret (DatabaseURL c.2)
  | Some _ =>
    res ← ensureDBBranchPinForSession appRoot cfg s;
    c ← Connection cfg (res_Pin res);
    mret (DatabaseURL c)
  end.

Definition dbBranchManagedPostgresEnv (appRoot : string) (cfg : AppConfig.Config) (s : option session)
    : M (list string * dbBranchResolution * dbBranchConnectionInfo) :=
  res ← ensureDBBranchPinForSession appRoot cfg s;
  c ← Connection cfg (res_Pin res);
  let envName := AppConfig.DatabaseURLEnv (AppConfig.visit (map_to_list (AppConfig.Services (AppConfig.Dev cfg)))) in
  mret ([envName +:+ "=" +:+ DatabaseURL c; "SCENERY_MANAGED_DATABASE_URL=" +:+ DatabaseURL c;
         "SCENERY_MANAGED_DATABASE_NAME=" +:+ DatabaseName c], res, c).

(** ** Commands *)
Definition dbBranchStatusMessage (pinned : bool) : string :=
  if pinned then "Current worktree database branch pin is present."
  else "No worktree database branch pin exists yet".

Definition buildDBBranchStatus (appRoot : string) (cfg : AppConfig.Config) : M dbBranchStatusResult :=
  found ← readWorktreeDBPin appRoot;
  backend ← (match found with Some pin => InspectBranch pin | None => mret (status_of "none" "" None) end);
  mret {| s_Status := match found with Some _ => "pinned" | None => "unpinned" end; s_Backend := backend; s_Pin := found;
          s_DatabaseURLEnv := AppConfig.DatabaseURLEnv (AppConfig.visit (map_to_list (AppConfig.Services (AppConfig.Dev cfg))));
          s_Message := dbBranchStatusMessage (bool_decide (is_Some found)) |}.

Definition dbBranchListLeaseFromRegistryLease (lease : dbBranchLease) : M dbBranchLease :=
  backend ← InspectBranch (Pin lease);
  mret {| Pin := Pin lease; Status := firstNonEmpty [b_Status backend; Status lease; "pending"]; Endpoint := b_Endpoint backend;
          CreatedAt := CreatedAt lease; UpdatedAt := UpdatedAt lease; ExpiresAt := ExpiresAt lease |}.

Fixpoint list_leases (leases : list dbBranchLease) : M (list dbBranchLease) :=
  match leases with
  | [] => mret []
  | l :: rest => x ← dbBranchListLeaseFromRegistryLease l; xs ← list_leases rest; mret (x :: xs)
  end.

Definition registryPins (r : dbBranchRegistry) (cfg : AppConfig.Config) : list worktreeDBPin :=
  let project := branchProjectForConfig cfg in
  map Pin (List.filter (fun l => isSceneryOwnedDBLease l && negb (negb (String.eqb project "") && negb (String.eqb (Project (Pin l)) project)))
    (Leases r)).

Definition registryListLeases (r : dbBranchRegistry) (cfg : AppConfig.Config) : M (list dbBranchLease) :=
  let project := branchProjectForConfig cfg in
  list_leases (List.filter (fun l => isSceneryOwnedDBLease l && negb (negb (String.eqb project "") && negb (String.eqb (Project (Pin l)) project)))
    (Leases r)).

Definition runDBBranchList (appRoot : string) (cfg : AppConfig.Config) : M dbBranchListResult :=
  status ← buildDBBranchStatus appRoot cfg;
  r ← readPostgresBranchRegistry;
  let listed := List.filter (fun l => isSceneryOwnedDBLease l && String.eqb (Project (Pin l)) (branchProjectForConfig cfg)) (Leases r) in
  leases ← list_leases listed;
  let extra := match s_Pin status with
               | Some pin => if existsb (fun l => String.eqb (BranchID (Pin l)) (BranchID pin)) listed then [] else [pin]
               | None => []
               end in
  let branches := map Pin listed ++ extra in
  mret {| Branches := branches;
          l_Leases := leases ++ map (fun pin => {| Pin := pin; Status := firstNonEmpty [b_Status (s_Backend status); "missing"];
                        Endpoint := b_Endpoint (s_Backend status); CreatedAt := ""; UpdatedAt := ""; ExpiresAt := "" |}) extra;
          l_Message := if bool_decide (branches = []) then "No Scenery-owned database branch leases exist for this app." else "" |}.

Definition runDBBranchCheckout (appRoot : string) (cfg : AppConfig.Config) (opts : dbBranchOptions) : M dbBranchStatusResult :=
  let branch := Strings.TrimSpace (o_Branch opts) in
  if String.eqb branch "" then fail "usage: scenery db branch checkout <name>"
  else
    pin ← lift (buildWorktreeDBPin appRoot cfg branch);
    _ ← writeWorktreeDBPin appRoot pin;
    _ ← EnsureBranch cfg pin;
    buildDBBranchStatus appRoot cfg.

Definition resolveBranchCommandTarget (appRoot : string) (cfg : AppConfig.Config) (opts : dbBranchOptions) : M worktreeDBPin :=
  let branch := normalizeDBBranchName (o_Branch opts) in
  if negb (String.eqb branch "") then lift (buildWorktreeDBPin appRoot cfg branch)
  else
    found ← readWorktreeDBPin appRoot;
    match found with
    | Some pin => if negb (String.eqb (Strings.TrimSpace (Branch pin)) "") then mret pin
                  else fail "no db branch target supplied and no worktree database branch pin exists"
    | None => fail "no db branch target supplied and no worktree database branch pin exists"
    end.

Definition expires (pin : worktreeDBPin) (lease : dbBranchLease) : bool := isSceneryOwnedDBLease lease && same_lease lease pin.

Definition expirePostgresBranchLease (pin : worktreeDBPin) (expiresAt : Z) : M unit :=
  if String.eqb (Strings.TrimSpace (Project pin)) "" || String.eqb (Strings.TrimSpace (Branch pin)) ""
  then fail "db branch expire requires a resolved Postgres project and branch"
  else mutatePostgresBranchRegistry (fun r =>
    t ← gets now;
    if negb (existsb (expires pin) (Leases r)) then fail "no Scenery-owned local Postgres branch lease found"
    else mret (with_leases r (rfc3339 t) (map (fun l =>
      if expires pin l then {| Pin := Pin l; Status := Status l; Endpoint := Endpoint l; CreatedAt := CreatedAt l;
                               UpdatedAt := rfc3339 t; ExpiresAt := rfc3339 expiresAt |} else l) (Leases r)))).

Definition runDBBranchExpire (appRoot : string) (cfg : AppConfig.Config) (opts : dbBranchOptions) : M dbBranchStatusResult :=
  if String.eqb (Strings.TrimSpace (After opts)) "" then fail "scenery db branch expire requires --after <duration>"
  else match parse_duration (Strings.TrimSpace (After opts)) with
  | None => fail "parse --after"
  | Some after =>
    target ← resolveBranchCommandTarget appRoot cfg opts;
    t ← gets now;
    _ ← expirePostgresBranchLease target (t + after);
    buildDBBranchStatus appRoot cfg
  end.

Definition pruned (project currentBranchID : string) (t olderThan : Z) (l : dbBranchLease) : bool :=
  negb (negb (isSceneryOwnedDBLease l) || negb (String.eqb (Project (Pin l)) project)
        || String.eqb (BranchID (Pin l)) currentBranchID || negb (shouldPruneDBLease l t olderThan)).

(** The databases of pruned leases are dropped while the registry is locked. *)
Definition pruneExpiredDBBranchLeases (project currentBranchID : string) (olderThan : Z) : M nat :=
  admin ← attempt adminURL;
  let connected := match admin with Ret u => negb (String.eqb u "") | _ => false end in
  t ← gets now;
  removed ← attempt (
    _ ← lock_;
    r ← readPostgresBranchRegistry;
    let doomed := List.filter (pruned project currentBranchID t olderThan) (Leases r) in
    _ ← (if connected then drop_all (map (fun l => Database (Pin l)) (List.filter droppable doomed)) else mret tt : M unit);
    _ ← writePostgresBranchRegistry
          (with_leases r (rfc3339 t) (List.filter (fun l => negb (pruned project currentBranchID t olderThan l)) (Leases r)));
    mret (length doomed));
  lift removed.

Definition runDBBranchPrune (appRoot : string) (cfg : AppConfig.Config) (opts : dbBranchOptions) : M dbBranchListResult :=
  let older := Strings.TrimSpace (Older opts) in
  olderThan ← (if String.eqb older "" then mret 0
               else match parse_duration older with Some d => mret d | None => fail "parse --older-than" end);
  current ← readWorktreeDBPin appRoot;
  n ← pruneExpiredDBBranchLeases (branchProjectForConfig cfg) (match current with Some p => BranchID p | None => "" end) olderThan;
  _ ← buildDBBranchStatus appRoot cfg;
  r ← readPostgresBranchRegistry;
  leases ← registryListLeases r cfg;
  mret {| Branches := registryPins r cfg; l_Leases := leases;
          l_Message := "Pruned " +:+ Strconv.Itoa (Z.of_nat n) +:+ " expired local database branch lease(s)." |}.

Definition no_pin_error : string := "no worktree database branch pin exists; run `scenery db branch checkout <name>` first".

Definition runDBBranchReset (appRoot : string) (cfg : AppConfig.Config) (opts : dbBranchOptions) : M unit :=
  found ← readWorktreeDBPin appRoot;
  match found with
  | None => fail no_pin_error
  | Some pin =>
    if isProtectedDBParentBranch pin then fail ("refusing to reset protected parent branch " +:+ Branch pin)
    else if negb (Yes opts) then fail "scenery db branch reset requires --yes"
    else ResetBranch cfg pin
  end.

Definition runDBBranchDelete (appRoot : string) (cfg : AppConfig.Config) (opts : dbBranchOptions) : M unit :=
  let branch := normalizeDBBranchName (o_Branch opts) in
  if String.eqb branch "" then fail "usage: scenery db branch delete <name>"
  else
    found ← readWorktreeDBPin appRoot;
    targetPin ← (match found with Some pin => mret pin | None => lift (buildWorktreeDBPin appRoot cfg branch) end);
    if String.eqb branch (ParentBranch targetPin) then fail ("refusing to delete protected parent branch " +:+ branch)
    else if match found with Some pin => String.eqb branch (Branch pin) && negb (Force opts) | None => false end
    then fail ("refusing to delete current branch " +:+ branch +:+ " without --force")
    else DeleteBranch targetPin branch appRoot.

Definition runDBBranchRestore (appRoot : string) (cfg : AppConfig.Config) (opts : dbBranchOptions) : M dbBranchRestorePoint :=
  if String.eqb (Strings.TrimSpace (At opts)) "" then fail "scenery db branch restore requires --at <timestamp-or-lsn>"
  else
    found ← readWorktreeDBPin appRoot;
    match found with
    | None => fail no_pin_error
    | Some pin =>
      if isProtectedDBParentBranch pin then fail ("refusing to restore protected parent branch " +:+ Branch pin)
      else if negb (Yes opts) then fail "scenery db branch restore requires --yes"
      else RestoreBranch cfg pin (At opts)
    end.

Definition runDBBranchDiff (appRoot : string) (cfg : AppConfig.Config) (opts : dbBranchOptions) : M string :=
  let target := Strings.TrimSpace (o_Branch opts) in
  if String.eqb target "" then fail "usage: scenery db branch diff <branch>"
  else
    found ← readWorktreeDBPin appRoot;
    match found with
    | None => fail no_pin_error
    | Some pin => DiffBranch cfg pin target
    end.

(** The lease of a worktree that goes away; the leases are compared by branch
    only. *)
Definition removeCurrentDBBranchLease (appRoot : string) : M (string * bool) :=
  found ← readWorktreeDBPin appRoot;
  match found with
  | None => mret ("", false)
  | Some pin =>
    if negb (isSceneryOwnedDBPin pin) then mret ("", false)
    else
      t ← gets now;
      before ← gets registry;
      _ ← mutatePostgresBranchRegistry (fun r =>
        mret (with_leases r (rfc3339 t) (List.filter (fun l => negb (sameDBBranchLease (Pin l) pin)) (Leases r))));
      let removed := match before with
                     | Some (Ret r) => existsb (fun l => sameDBBranchLease (Pin l) pin) (Leases r)
                     | _ => false
                     end in
      _ ← (if removed then ignore (remove_pin appRoot) else mret tt : M unit);
      mret (Branch pin, removed)
  end.

(** ** Command lines *)
Definition set_option (o : dbBranchOptions) (arg : string) : option dbBranchOptions :=
  match arg with
  | "--json" => Some {| Command := Command o; AppRoot := AppRoot o; JSON := true; o_Branch := o_Branch o; Yes := Yes o; Force := Force o; At := At o; After := After o; Older := Older o; Target := Target o |}
  | "--yes" => Some {| Command := Command o; AppRoot := AppRoot o; JSON := JSON o; o_Branch := o_Branch o; Yes := true; Force := Force o; At := At o; After := After o; Older := Older o; Target := Target o |}
  | "--force" => Some {| Command := Command o; AppRoot := AppRoot o; JSON := JSON o; o_Branch := o_Branch o; Yes := Yes o; Force := true; At := At o; After := After o; Older := Older o; Target := Target o |}
  | _ => None
  end.

Definition set_value (o : dbBranchOptions) (arg v : string) : option dbBranchOptions :=
  match arg with
  | "--app-root" => Some {| Command := Command o; AppRoot := v; JSON := JSON o; o_Branch := o_Branch o; Yes := Yes o; Force := Force o; At := At o; After := After o; Older := Older o; Target := Target o |}
  | "--at" => Some {| Command := Command o; AppRoot := AppRoot o; JSON := JSON o; o_Branch := o_Branch o; Yes := Yes o; Force := Force o; At := v; After := After o; Older := Older o; Target := Target o |}
  | "--after" => Some {| Command := Command o; AppRoot := AppRoot o; JSON := JSON o; o_Branch := o_Branch o; Yes := Yes o; Force := Force o; At := At o; After := v; Older := Older o; Target := Target o |}
  | "--older-than" => Some {| Command := Command o; AppRoot := AppRoot o; JSON := JSON o; o_Branch := o_Branch o; Yes := Yes o; Force := Force o; At := At o; After := After o; Older := v; Target := Target o |}
  | _ => None
  end.

Definition set_argument (o : dbBranchOptions) (arg : string) : outcome string dbBranchOptions :=
  if Strings.HasPrefix arg "-" then Fail ("unknown flag " +:+ arg)
  else if String.eqb (o_Branch o) ""
  then Ret {| Command := Command o; AppRoot := AppRoot o; JSON := JSON o; o_Branch := arg; Yes := Yes o; Force := Force o; At := At o; After := After o; Older := Older o; Target := Target o |}
  else if String.eqb (Target o) ""
  then Ret {| Command := Command o; AppRoot := AppRoot o; JSON := JSON o; o_Branch := o_Branch o; Yes := Yes o; Force := Force o; At := At o; After := After o; Older := Older o; Target := arg |}
  else Fail ("unexpected argument " +:+ arg).

Definition takes_value (arg : string) : bool := existsb (String.eqb arg) ["--app-root"; "--at"; "--after"; "--older-than"].

Fixpoint parse_args (o : dbBranchOptions) (args : list string) : outcome string dbBranchOptions :=
  match args with
  | [] => Ret o
  | arg :: rest =>
    if takes_value arg then
      match rest with
      | [] => Fail ("missing value for " +:+ arg)
      | v :: rest' => parse_args (default o (set_value o arg v)) rest'
      end
    else match set_option o arg with
    | Some o' => parse_args o' rest
    | None => o' ← set_argument o arg; parse_args o' rest
    end
  end.

Definition commands : list string := ["status"; "list"; "checkout"; "reset"; "delete"; "prune"; "restore"; "diff"; "expire"].

Definition parseDBBranchArgs (args : list string) : outcome string dbBranchOptions :=
  match args with
  | [] => Fail "usage: scenery db branch status|list|checkout|reset|delete|restore|diff|expire|prune"
  | command :: rest =>
    opts ← parse_args {| Command := command; AppRoot := ""; JSON := false; o_Branch := ""; Yes := false; Force := false;
                         At := ""; After := ""; Older := ""; Target := "" |} rest;
    if existsb (String.eqb command) commands then Ret opts else Fail ("unknown db branch command " +:+ command)
  end.

(** What a command prints is not modelled; [discoverConfiguredApp] has found the
    application. *)
Definition runDBBranchCommand (appRoot : string) (cfg : AppConfig.Config) (opts : dbBranchOptions) : M unit :=
  if String.eqb (Command opts) "status" then (_ ← buildDBBranchStatus appRoot cfg; mret tt)
  else if String.eqb (Command opts) "list" then (_ ← runDBBranchList appRoot cfg; mret tt)
  else if String.eqb (Command opts) "checkout" then (_ ← runDBBranchCheckout appRoot cfg opts; mret tt)
  else if String.eqb (Command opts) "reset" then runDBBranchReset appRoot cfg opts
  else if String.eqb (Command opts) "delete" then runDBBranchDelete appRoot cfg opts
  else if String.eqb (Command opts) "restore" then (_ ← runDBBranchRestore appRoot cfg opts; mret tt)
  else if String.eqb (Command opts) "diff" then (_ ← runDBBranchDiff appRoot cfg opts; mret tt)
  else if String.eqb (Command opts) "expire" then (_ ← runDBBranchExpire appRoot cfg opts; mret tt)
  else if String.eqb (Command opts) "prune" then (_ ← runDBBranchPrune appRoot cfg opts; mret tt)
  else fail ("db branch " +:+ Command opts +:+ " is not implemented yet").
End branches.
End DBBranch.
