(* ===== verification/DBBranchProofs.v ===== *)
(** * Database branches: what the commands keep

    [DBBranchProofs] proves what the commands of [DBBranch] promise, for every
    sequence of commands and every fault: the parent database is never dropped
    or written ([parent_database_kept]), a reset gives the branch the contents
    of its parent and touches no other database ([reset_copies_parent]), and
    leases of others stay ([foreign_leases_kept]).  The examples at the end show
    where two branches share one database. *)
From stdpp Require Import base tactics list gmap strings.
From Stdlib Require Import ZArith Lia Ascii.
From S2P Require Import Prelude GoStrings AppConfig StateM DBBranch.
Import StateM DBBranch.

Module DBBranchProofs.

(** What the tool does with branches, one request at a time. *)
Inductive request :=
  | Command_ (root : string) (opts : dbBranchOptions)
  | Session (root : string) (s : option session)
  | Url (root : string) (s : option session)
  | Environment (root : string) (s : option session)
  | Leave (root : string).

(** The world in which a request starts: the time, and the faults ahead. *)
Definition at_time (t : Z) (fs : list bool) (w : world) : world :=
  {| registry := registry w; pins := pins w; dbs := dbs w; now := t; faults := fs |}.

Section perform.
Context {UT : UnicodeTables} {OO : AppConfig.ObjectOrder} {BE : BranchEnv} (cfg : AppConfig.Config).

Definition perform (q : request) : M unit :=
  match q with
  | Command_ root opts => runDBBranchCommand root cfg opts
  | Session root s => (_ ← ensureDBBranchPinForSession root cfg s; mret tt)
  | Url root s => (_ ← resolveDBBranchDatabaseURL root cfg s; mret tt)
  | Environment root s => (_ ← dbBranchManagedPostgresEnv root cfg s; mret tt)
  | Leave root => (_ ← removeCurrentDBBranchLease root; mret tt)
  end.

Definition exec_one (w : world) (e : Z * list bool * request) : world :=
  let '(t, fs, q) := e in (perform q (at_time t fs w)).1.

Definition exec (w : world) (es : list (Z * list bool * request)) : world := fold_left exec_one es w.
End perform.

(** ** The parent database *)
Section parent.
Context {UT : UnicodeTables} {OO : AppConfig.ObjectOrder} {BE : BranchEnv} (cfg : AppConfig.Config).

Definition parent_branch : string :=
  normalizeDBBranchName (firstNonEmpty [AppConfig.ParentBranch (dbPostgresService cfg); dbBranchDefaultParentBranch]).

(** The database the branches of the configuration are made from. *)
Definition parent_database : string :=
  let value := sanitizeDBIdentifier (AppConfig.ParentDatabase (dbPostgresService cfg)) in
  if negb (String.eqb value "") then value
  else managedPostgresBranchDatabaseName (branchProjectForConfig cfg)
         (normalizeDBBranchName (firstNonEmpty [parent_branch; AppConfig.ParentBranch (dbPostgresService cfg); dbBranchDefaultParentBranch])).

(** No branch but the parent is given the parent's database. *)
Definition names_apart : Prop := forall root s b pin,
  buildWorktreeDBPinForSession root cfg s b = Ret pin -> isProtectedDBParentBranch pin = false -> Database pin <> parent_database.

(** A pin of this configuration. *)
Definition pin_ok (pin : worktreeDBPin) : Prop :=
  Project pin = branchProjectForConfig cfg /\ postgresParentDatabaseName cfg pin = parent_database
  /\ (isProtectedDBParentBranch pin = false -> Database pin <> parent_database).

(** A lease that delete and prune may act on. *)
Definition lease_ok (l : dbBranchLease) : Prop :=
  isSceneryOwnedDBLease l = true -> Project (Pin l) = branchProjectForConfig cfg -> Status l = "ready" ->
  Database (Pin l) <> parent_database.

Definition reg_ok (r : dbBranchRegistry) : Prop := Forall lease_ok (Leases r).

Definition inv (w : world) : Prop :=
  (forall root pin, pins w !! root = Some (Ret pin) -> pin_ok pin)
  /\ (forall r, registry w = Some (Ret r) -> reg_ok r).

Definition parent_kept (w w' : world) : Prop :=
  forall d, dbs w !! parent_database = Some d ->
  exists d', dbs w' !! parent_database = Some d' /\ content d' = content d.

#[local] Instance parent_kept_preorder : PreOrder parent_kept.
Proof.
  split; [intros w d Hd; eauto|]. intros w1 w2 w3 H1 H2 d Hd.
  destruct (H1 d Hd) as (d' & Hd' & <-). destruct (H2 d' Hd') as (d'' & ? & <-). eauto.
Qed.

Abbreviation safe m Q := (triple inv parent_kept m Q).

Lemma safe_external : safe external (fun _ => True).
Proof.
  intros w HI. unfold external. destruct w as [rg ps ds t [|f rest]]; cbn; (split_and!; [exact HI|intros d Hd; eauto|done]).
Qed.

Lemma safe_bind {A B} (m : M A) (f : A -> M B) Q Q' :
  safe m Q -> (forall x, Q x -> safe (f x) Q') -> safe (mbind f m) Q'.
Proof. apply hoare_bind, _. Qed.

Lemma safe_seq {A B} (m : M A) (f : A -> M B) Q :
  safe m (fun _ => True) -> (forall x, safe (f x) Q) -> safe (mbind f m) Q.
Proof. intros Hm Hf. eapply safe_bind; [exact Hm|]. intros x _. apply Hf. Qed.

Lemma safe_gets {A} (f : world -> A) : safe (gets f) (fun _ => True).
Proof. by apply hoare_gets; [apply _|]. Qed.

Lemma safe_readWorktreeDBPin root : safe (readWorktreeDBPin root) (fun found => forall pin, found = Some pin -> pin_ok pin).
Proof.
  apply safe_seq; [apply safe_external|]. intros _.
  eapply safe_bind; [apply (hoare_gets _ _ _ (fun found => forall pin, found = Some (Ret pin) -> pin_ok pin))|].
  { intros w [Hp _] pin. apply Hp. }
  intros [o|] Ho; [|by apply hoare_ret; [apply _|]].
  eapply safe_bind; [apply (hoare_lift _ _ _ pin_ok); intros x ->; by apply Ho|].
  intros pin Hpin. case_match; [apply hoare_fail, _|]. apply hoare_ret; [apply _|]. by intros ? [= <-].
Qed.

Lemma safe_readRegistry : safe readPostgresBranchRegistry reg_ok.
Proof.
  apply safe_seq; [apply safe_external|]. intros _.
  eapply safe_bind; [apply (hoare_gets _ _ _ (fun file => forall r, file = Some (Ret r) -> reg_ok r))|].
  { intros w [_ Hr] r. apply Hr. }
  intros [o|] Ho; [|apply hoare_ret; [apply _|apply Forall_nil_2]].
  eapply safe_bind; [apply (hoare_lift _ _ _ reg_ok); intros x ->; by apply Ho|].
  intros r Hr. repeat (case_match; [apply hoare_fail, _|]). by apply hoare_ret; [apply _|].
Qed.

Lemma safe_writeRegistry r : reg_ok r -> safe (writePostgresBranchRegistry r) (fun _ => True).
Proof.
  intros Hr. apply safe_seq; [apply safe_external|]. intros _. apply hoare_modify; [|done].
  intros w [Hp Hg]. split; [split; [apply Hp|]|intros d Hd; eauto]. by intros ? [= <-].
Qed.

Lemma safe_mutate f : (forall r, reg_ok r -> safe (f r) reg_ok) -> safe (mutatePostgresBranchRegistry f) (fun _ => True).
Proof.
  intros Hf. apply safe_seq; [apply safe_external|]. intros _.
  eapply safe_bind; [apply safe_readRegistry|]. intros r Hr.
  eapply safe_bind; [by apply Hf|]. intros r' Hr'. by apply safe_writeRegistry.
Qed.

Lemma upsert_leases_ok pin e st nowText ex ls ls' :
  (st = "ready" -> Database pin <> parent_database) -> Forall lease_ok ls ->
  upsert_leases pin e st nowText ex ls = Ret ls' -> Forall lease_ok ls'.
Proof.
  intros Hst Hls. revert ls'. induction Hls as [|l ls Hl Hls IH]; intros ls'; cbn [upsert_leases].
  - intros [= <-]. constructor; [|constructor]. intros _ _ H. by apply Hst.
  - case_match; [case_match; [done|]|].
    + intros [= <-]. constructor; [|done]. intros _ _ H'. by apply Hst.
    + destruct (upsert_leases pin e st nowText ex ls) as [ls1|err|err] eqn:E; cbn; [|done..].
      intros [= <-]. constructor; [done|]. by apply IH.
Qed.

Lemma safe_upsert pin e st :
  (firstNonEmpty [Strings.TrimSpace st; "pending"] = "ready" -> Database pin <> parent_database) ->
  safe (upsertPostgresBranchLease pin e st) (fun _ => True).
Proof.
  intros Hst. apply safe_mutate. intros r Hr. apply safe_seq; [apply safe_gets|]. intros t.
  eapply safe_bind; [apply (hoare_lift _ _ _ (Forall lease_ok)); intros ls; by apply upsert_leases_ok|].
  intros ls Hls. by apply hoare_ret; [apply _|].
Qed.

Lemma safe_pending pin : safe (markPostgresBranchLeasePending pin) (fun _ => True).
Proof. by apply safe_upsert. Qed.

Lemma safe_attempt {A} (m : M A) : safe m (fun _ => True) -> safe (attempt m) (fun _ => True).
Proof. intros Hm. eapply hoare_weaken; [by apply hoare_attempt|done]. Qed.

Lemma safe_forget {A} (m : M A) Q : safe m Q -> safe m (fun _ => True).
Proof. intros Hm. by eapply hoare_weaken. Qed.

Create HintDb safe discriminated.
#[local] Hint Resolve safe_external safe_gets safe_pending : safe.
#[local] Hint Extern 1 (triple _ _ lock_ _) => apply safe_external : safe.
#[local] Hint Extern 1 (triple _ _ connect _) => apply safe_external : safe.
#[local] Hint Extern 1 (triple _ _ terminate_backends _) => apply safe_external : safe.
#[local] Hint Extern 1 (triple _ _ readPostgresBranchRegistry _) => eapply safe_forget, safe_readRegistry : safe.
#[local] Hint Extern 1 (triple _ _ (readWorktreeDBPin _) _) => eapply safe_forget, safe_readWorktreeDBPin : safe.

(** One step of a program whose result does not matter. *)
Ltac safe_step :=
  match goal with
  | |- triple _ _ (mret _) _ => by apply hoare_ret; [apply _|]
  | |- triple _ _ (fail _) _ => apply hoare_fail, _
  | |- triple _ _ (lift _) (fun _ => True) => by apply hoare_lift; [apply _|]
  | |- triple _ _ (attempt _) _ => apply safe_attempt
  | |- triple _ _ (ignore _) _ => eapply hoare_ignore
  | |- triple _ _ (match ?x with _ => _ end) _ => let E := fresh "E" in destruct x eqn:E
  | |- triple _ _ (mbind _ _) _ => apply safe_seq; [|intros ?]
  | |- _ => by eauto with safe
  end.
Ltac safe := repeat safe_step.
(** The steps that are left are those with a condition. *)
Ltac safe_seqs := repeat match goal with |- triple _ _ (mbind _ _) _ => apply safe_seq; [try solve [safe]|intros ?] end.

Lemma safe_find pin : safe (findPostgresBranchLease pin) (fun _ => True).
Proof. unfold findPostgresBranchLease. safe. Qed.
#[local] Hint Resolve safe_find : safe.

Lemma safe_validate pin : safe (validatePostgresBranchLeaseWritable pin) (fun _ => True).
Proof. unfold validatePostgresBranchLeaseWritable. safe. Qed.
#[local] Hint Resolve safe_validate : safe.

Lemma safe_set_pins f : (forall ps root pin, (forall root pin, ps !! root = Some (Ret pin) -> pin_ok pin) -> f ps !! root = Some (Ret pin) -> pin_ok pin) ->
  safe (set_pins f) (fun _ => True).
Proof. intros Hf. apply hoare_modify; [|done]. intros w [Hp Hg]. split; [split; [eauto|done]|intros d Hd; eauto]. Qed.

Lemma safe_writePin root pin : pin_ok pin -> safe (writeWorktreeDBPin root pin) (fun _ => True).
Proof.
  intros Hpin. unfold writeWorktreeDBPin. do 4 (apply safe_seq; [try by eauto with safe|intros _]); [|by apply safe_upsert].
  apply safe_set_pins. intros ps root' pin' Hps. destruct (decide (root' = root)) as [->|Hne].
  - rewrite lookup_insert_eq. by intros [= <-].
  - rewrite lookup_insert_ne by done. apply Hps.
Qed.

Lemma safe_remove_pin root : safe (remove_pin root) (fun _ => True).
Proof.
  apply safe_seq; [apply safe_external|]. intros _. apply safe_set_pins.
  intros ps root' pin' Hps [_ H]%lookup_delete_Some. by eapply Hps.
Qed.
#[local] Hint Resolve safe_remove_pin : safe.

Lemma safe_adminURL : safe adminURL (fun _ => True).
Proof. unfold adminURL. safe. Qed.
Lemma safe_exists name : safe (database_exists name) (fun _ => True).
Proof. unfold database_exists. safe. Qed.
#[local] Hint Resolve safe_adminURL safe_exists : safe.

(** What the server does keeps the parent, when it is another database or its
    contents are not touched. *)
Lemma safe_set_dbs f : (forall m d, m !! parent_database = Some d -> exists d', f m !! parent_database = Some d' /\ content d' = content d) ->
  safe (set_dbs f) (fun _ => True).
Proof. intros Hf. apply hoare_modify; [|done]. intros w HI. split; [exact HI|]. intros d. apply Hf. Qed.

Lemma safe_drop name : name <> parent_database -> safe (drop_database name) (fun _ => True).
Proof.
  intros Hne. apply safe_seq; [apply safe_external|]. intros _. apply safe_set_dbs.
  intros m d Hd. exists d. by rewrite lookup_delete_ne.
Qed.

Lemma safe_create name t : safe (create_database name t) (fun _ => True).
Proof.
  apply safe_seq; [apply safe_external|]. intros _. intros w HI. unfold create_database, mbind, Run_bind, gets.
  case_bool_decide as Hex; [by apply hoare_fail; [apply _|]|].
  assert (Hins : forall d0, parent_kept w {| registry := registry w; pins := pins w; dbs := <[name:=d0]> (dbs w); now := now w; faults := faults w |}).
  { intros d0 d Hd. cbn. exists d. rewrite lookup_insert_ne; [done|]. intros ->. apply Hex. by exists d. }
  destruct t as [t|]; [destruct (dbs w !! t)|]; cbn; (split_and!; [exact HI|first [apply Hins|reflexivity]|done]).
Qed.

Lemma safe_allow name b : safe (allow_connections name b) (fun _ => True).
Proof.
  apply safe_seq; [apply safe_external|]. intros _. intros w HI. unfold mbind, Run_bind, gets.
  destruct (dbs w !! name) as [d0|] eqn:E; cbn; (split_and!; [exact HI| |done]); [|reflexivity].
  intros d Hd. cbn. destruct (decide (name = parent_database)) as [->|Hne].
  - rewrite lookup_insert_eq. eexists; split; [done|]. cbn. congruence.
  - rewrite lookup_insert_ne by done. eauto.
Qed.
#[local] Hint Resolve safe_create safe_allow : safe.

Lemma safe_dropManaged name : name <> parent_database -> safe (dropManagedPostgresDatabase name) (fun _ => True).
Proof. intros Hne. unfold dropManagedPostgresDatabase. safe. by apply safe_drop. Qed.

Lemma safe_drop_all names : Forall (fun n => n <> parent_database) names -> safe (drop_all names) (fun _ => True).
Proof. induction 1 as [|n names Hn _ IH]; cbn [drop_all]; [safe|]. apply safe_seq; [by apply safe_dropManaged|]. done. Qed.

(** A branch database is only recreated when it is not the parent. *)
Lemma safe_recreate pin : pin_ok pin -> safe (recreateBranchDatabase cfg pin) (fun _ => Database pin <> parent_database).
Proof.
  intros (Hproj & HP & _). unfold recreateBranchDatabase. rewrite HP.
  case_match; [apply hoare_fail, _|]. case_match eqn:E; [apply hoare_fail, _|]. apply String.eqb_neq in E.
  unfold createPostgresDatabaseIfMissing. safe_seqs; [by apply safe_drop|].
  case_match; [by apply hoare_ret; [apply _|]| |by apply hoare_lift; [apply _|]]. apply safe_seq; [safe|]. intros _. safe.
Qed.

Lemma safe_pending_on_error {A} pin (m : M A) : safe m (fun _ => True) -> safe (pending_on_error pin m) (fun _ => True).
Proof. intros Hm. unfold pending_on_error. safe. Qed.

Lemma safe_ensureTemplate pin : pin_ok pin -> safe (ensureTemplateDatabaseBranch cfg pin) (fun _ => True).
Proof.
  intros Hpin. unfold ensureTemplateDatabaseBranch. case_match; [safe|]. safe_seqs. case_match; [|safe].
  by eapply safe_forget, safe_recreate.
Qed.

Lemma safe_EnsureBranch pin : pin_ok pin -> safe (EnsureBranch cfg pin) (fun _ => True).
Proof.
  intros Hpin. unfold EnsureBranch. destruct (isProtectedDBParentBranch pin) eqn:E.
  - safe_seqs; [by apply safe_upsert|]. safe.
  - destruct (Hpin) as (_ & _ & Hdb). safe_seqs.
    1, 2: apply safe_pending_on_error; safe.
    + apply safe_pending_on_error. by apply safe_ensureTemplate.
    + apply safe_upsert. auto.
    + safe.
Qed.

Lemma safe_InspectBranch pin : safe (InspectBranch pin) (fun _ => True).
Proof. unfold InspectBranch. safe. Qed.
#[local] Hint Resolve safe_InspectBranch : safe.

(** The database an application connects to is not the parent. *)
Lemma safe_Connection pin : pin_ok pin ->
  safe (Connection cfg pin) (fun c => DatabaseName c = Database pin /\ DatabaseName c <> parent_database).
Proof.
  intros Hpin. unfold Connection. destruct (isProtectedDBParentBranch pin) eqn:E; [safe|].
  destruct (Hpin) as (_ & _ & Hdb). safe_seqs.
  - case_match; [safe|]. safe_seqs; [by apply safe_EnsureBranch|]. safe.
  - case_match; [|safe]. safe_seqs. apply hoare_ret; [apply _|]. split; [done|]. by apply Hdb.
Qed.

Lemma safe_ResetBranch pin : pin_ok pin -> safe (ResetBranch cfg pin) (fun _ => True).
Proof.
  intros Hpin. unfold ResetBranch. do 2 (apply safe_seq; [by auto with safe|intros _]).
  eapply safe_bind; [by apply safe_recreate|]. intros ? Hne. safe_seqs. by apply safe_upsert.
Qed.

Lemma ready_apart (ls : list dbBranchLease) (p : dbBranchLease -> bool) :
  Forall lease_ok ls -> (forall l, p l = true -> isSceneryOwnedDBLease l = true /\ Project (Pin l) = branchProjectForConfig cfg) ->
  Forall (fun n => n <> parent_database) (map (fun l => Database (Pin l)) (List.filter droppable (List.filter p ls))).
Proof.
  intros Hls Hp. apply Forall_forall. intros n. rewrite list_elem_of_In, in_map_iff. intros (l & <- & Hl).
  apply filter_In in Hl as [Hl Hd]. apply filter_In in Hl as [Hl Hpl]. apply andb_prop in Hd as [Hd _].
  apply String.eqb_eq in Hd. destruct (Hp l Hpl). rewrite Forall_forall in Hls. apply (Hls l); [|done..]. by apply list_elem_of_In.
Qed.

Lemma deletes_own pin b l : pin_ok pin -> deletes pin b l = true ->
  isSceneryOwnedDBLease l = true /\ Project (Pin l) = branchProjectForConfig cfg.
Proof.
  intros (Hp & _ & _). unfold deletes, dbLeaseMatchesBranchForDelete. rewrite andb_true_iff. intros [Ho Hm]. split; [done|].
  repeat (case_match; [done|]). apply String.eqb_eq in Hm. congruence.
Qed.

Lemma filter_ok r t p : reg_ok r -> reg_ok (with_leases r t (List.filter p (Leases r))).
Proof.
  unfold reg_ok. rewrite !Forall_forall. cbn. intros Hr l Hl. apply Hr. rewrite list_elem_of_In in *.
  by apply filter_In in Hl as [? _].
Qed.

Lemma safe_DeleteBranch pin b root : pin_ok pin -> safe (DeleteBranch pin b root) (fun _ => True).
Proof.
  intros Hpin. unfold DeleteBranch. do 2 (apply safe_seq; [by auto with safe|intros _]).
  eapply safe_bind; [apply safe_readRegistry|]. intros r Hr. cbv zeta. case_bool_decide; [safe|].
  apply safe_seq; [by auto with safe|intros _]. apply safe_seq; [|intros _].
  { apply safe_drop_all. apply ready_apart; [done|]. intros l. by apply deletes_own. }
  apply safe_seq; [by auto with safe|intros _]. eapply safe_bind; [apply safe_readRegistry|]. intros r' Hr'.
  case_match; [safe|]. safe_seqs; [by apply safe_writeRegistry, filter_ok|]. safe.
Qed.

Lemma safe_schema_of name : safe (schema_of name) (fun _ => True).
Proof. unfold schema_of. safe. Qed.
#[local] Hint Resolve safe_schema_of : safe.

Lemma safe_DiffBranch pin target : safe (DiffBranch cfg pin target) (fun _ => True).
Proof. unfold DiffBranch. safe. Qed.

Hypothesis apart : names_apart.

Lemma built_ok root s b pin : buildWorktreeDBPinForSession root cfg s b = Ret pin -> pin_ok pin.
Proof.
  intros Hb. pose proof (apart _ _ _ _ Hb) as Hdb. revert Hdb. unfold buildWorktreeDBPinForSession in Hb.
  repeat (case_match; [done|]). injection Hb as <-. intros Hdb. split_and!; [done| |exact Hdb].
  unfold postgresParentDatabaseName, parent_database. cbn. by repeat case_match.
Qed.

Lemma safe_build root s b : safe (lift (buildWorktreeDBPinForSession root cfg s b)) pin_ok.
Proof. apply hoare_lift; [apply _|]. intros pin. apply built_ok. Qed.

Lemma safe_status root : safe (buildDBBranchStatus root cfg) (fun _ => True).
Proof. unfold buildDBBranchStatus. safe. Qed.
#[local] Hint Resolve safe_status : safe.

Lemma safe_list_leases ls : safe (list_leases ls) (fun _ => True).
Proof. induction ls as [|l ls IH]; cbn [list_leases]; unfold dbBranchListLeaseFromRegistryLease; safe. Qed.
#[local] Hint Resolve safe_list_leases : safe.

Lemma safe_checkout root opts : safe (runDBBranchCheckout root cfg opts) (fun _ => True).
Proof.
  unfold runDBBranchCheckout. case_match; [safe|]. eapply safe_bind; [apply safe_build|]. intros pin Hpin.
  safe_seqs; [by apply safe_writePin|by apply safe_EnsureBranch|safe].
Qed.

Lemma safe_expire pin t : safe (expirePostgresBranchLease pin t) (fun _ => True).
Proof.
  unfold expirePostgresBranchLease. case_match; [safe|]. apply safe_mutate. intros r Hr. safe_seqs. case_match; [safe|].
  apply hoare_ret; [apply _|]. unfold reg_ok in *. cbn. apply Forall_map. eapply Forall_impl; [exact Hr|].
  intros l Hl. by case_match.
Qed.

Lemma safe_target root opts : safe (resolveBranchCommandTarget root cfg opts) (fun _ => True).
Proof. unfold resolveBranchCommandTarget. safe. Qed.
#[local] Hint Resolve safe_expire safe_target : safe.

Lemma safe_prune project current older : project = branchProjectForConfig cfg ->
  safe (pruneExpiredDBBranchLeases project current older) (fun _ => True).
Proof.
  intros ->. unfold pruneExpiredDBBranchLeases. apply safe_seq; [safe|intros admin]. cbv zeta.
  apply safe_seq; [safe|intros t]. apply safe_seq; [|intros; safe]. apply safe_attempt.
  apply safe_seq; [safe|intros _]. eapply safe_bind; [apply safe_readRegistry|]. intros r Hr. safe_seqs; [|by apply safe_writeRegistry, filter_ok|safe].
  case_match; [|safe]. apply safe_drop_all, ready_apart; [done|]. intros l Hl. unfold pruned in Hl.
  apply negb_true_iff in Hl. rewrite !orb_false_iff, !negb_false_iff in Hl. destruct Hl as [[[Ho Hp] _] _].
  by apply String.eqb_eq in Hp.
Qed.

Lemma safe_with_pin {A} root (f : worktreeDBPin -> M A) (e : M A) :
  (forall pin, pin_ok pin -> safe (f pin) (fun _ => True)) -> safe e (fun _ => True) ->
  safe (found ← readWorktreeDBPin root; match found with None => e | Some pin => f pin end) (fun _ => True).
Proof. intros Hf He. eapply safe_bind; [apply safe_readWorktreeDBPin|]. intros [pin|] Hpin; [|done]. by apply Hf, Hpin. Qed.

Lemma safe_delete root opts : safe (runDBBranchDelete root cfg opts) (fun _ => True).
Proof.
  unfold runDBBranchDelete. case_match; [safe|]. eapply safe_bind; [apply safe_readWorktreeDBPin|]. intros found Hf.
  eapply (safe_bind _ _ pin_ok); [destruct found as [pin|]; [apply hoare_ret; [apply _|by apply Hf]|apply safe_build]|].
  intros pin Hpin. do 2 (case_match; [safe|]). by apply safe_DeleteBranch.
Qed.

Lemma safe_command root opts : safe (runDBBranchCommand root cfg opts) (fun _ => True).
Proof.
  unfold runDBBranchCommand. repeat (case_match; [try (apply safe_seq; [|intros; by safe])|]); [by safe| | | | | | | | |safe].
  - unfold runDBBranchList. safe.
  - apply safe_checkout.
  - apply safe_with_pin; [|safe]. intros pin Hpin. do 2 (case_match; [safe|]). by apply safe_ResetBranch.
  - apply safe_delete.
  - unfold runDBBranchRestore. case_match; [safe|]. apply safe_with_pin; [|safe]. intros pin Hpin. do 2 (case_match; [safe|]).
    unfold RestoreBranch. safe_seqs; [by apply safe_ResetBranch|safe].
  - unfold runDBBranchDiff. case_match; [safe|]. apply safe_with_pin; [|safe]. intros. apply safe_DiffBranch.
  - unfold runDBBranchExpire. case_match; [safe|]. case_match; safe.
  - unfold runDBBranchPrune, registryListLeases. safe_seqs; [by apply safe_prune|safe].
Qed.

Lemma safe_session root s : safe (ensureDBBranchPinForSession root cfg s) (fun res => pin_ok (res_Pin res)).
Proof.
  assert (Hnew : forall pin (source : string) , pin_ok pin ->
    safe (_ ← writeWorktreeDBPin root pin; st ← EnsureBranch cfg pin;
          mret {| res_Pin := pin; res_Source := source; Created := true; BackendStatus := st |}) (fun res => pin_ok (res_Pin res))).
  { intros pin source Hpin. safe_seqs; [by apply safe_writePin|by apply safe_EnsureBranch|]. by apply hoare_ret; [apply _|]. }
  assert (Huse : forall pin, pin_ok pin ->
    safe (st ← InspectBranch pin; st ← (if negb (String.eqb (b_Status st) "ready") then EnsureBranch cfg pin else mret st);
          mret {| res_Pin := pin; res_Source := "pin"; Created := false; BackendStatus := st |}) (fun res => pin_ok (res_Pin res))).
  { intros pin Hpin. safe_seqs; [case_match; [by apply safe_EnsureBranch|safe]|]. by apply hoare_ret; [apply _|]. }
  unfold ensureDBBranchPinForSession. cbv zeta. eapply safe_bind; [apply safe_readWorktreeDBPin|]. intros [pin|] Hpin.
  - specialize (Hpin pin eq_refl). case_match; [|by apply Huse].
    apply safe_seq; [safe|]. intros [b src]. eapply safe_bind; [apply safe_build|]. intros pin' Hpin'. case_match; auto.
  - apply safe_seq; [safe|]. intros [b src]. eapply safe_bind; [apply safe_build|]. auto.
Qed.

Lemma safe_leave root : safe (removeCurrentDBBranchLease root) (fun _ => True).
Proof.
  apply safe_with_pin; [|safe]. intros pin Hpin. case_match; [safe|]. safe_seqs; [|cbv zeta; safe].
  apply safe_mutate. intros r Hr. apply hoare_ret; [apply _|]. by apply filter_ok.
Qed.

Lemma safe_perform q : safe (perform cfg q) (fun _ => True).
Proof.
  destruct q as [root opts|root s|root s|root s|root]; cbn [perform].
  - apply safe_command.
  - safe_seqs; [eapply safe_forget, safe_session|safe].
  - safe_seqs; [|safe]. unfold resolveDBBranchDatabaseURL, resolveDBBranchConnection. case_match.
    + eapply safe_bind; [apply safe_session|]. intros res Hres. safe_seqs; [by eapply safe_forget, safe_Connection|safe].
    + apply safe_seq; [|intros; safe]. apply safe_with_pin; [|safe]. intros pin Hpin. safe_seqs; [by eapply safe_forget, safe_Connection|safe].
  - safe_seqs; [|safe]. unfold dbBranchManagedPostgresEnv. eapply safe_bind; [apply safe_session|].
    intros res Hres. safe_seqs; [by eapply safe_forget, safe_Connection|safe].
  - safe_seqs; [apply safe_leave|safe].
Qed.

Lemma exec_safe es : forall w, inv w -> inv (exec cfg w es) /\ parent_kept w (exec cfg w es).
Proof.
  induction es as [|[[t fs] q] es IH]; intros w HI; [split; [done|reflexivity]|].
  destruct (safe_perform q (at_time t fs w) HI) as (HI' & HR & _). destruct (IH _ HI') as [HI'' HR']. split; [done|].
  intros d Hd. destruct (HR d Hd) as (d' & Hd' & <-). by apply HR'.
Qed.
End parent.

(** ** When the names are apart *)
Section names.
Context {UT : UnicodeTables} {OO : AppConfig.ObjectOrder} {BE : BranchEnv}.

Lemma TrimRightSet_head f c s : f c = false -> exists s', Strings.TrimRightSet f (String c s) = String c s'.
Proof. intros Hf. cbn. rewrite Hf. eauto. Qed.

Lemma TrimSet_head f c s : f c = false -> exists s', Strings.TrimSet f (String c s) = String c s'.
Proof. intros Hf. unfold Strings.TrimSet. cbn [Strings.TrimLeftSet]. rewrite Hf. by apply TrimRightSet_head. Qed.

Lemma substring_short n s : (String.length (String.substring 0 n s) <= n)%nat.
Proof. revert s. induction n as [|n IH]; intros [|c s]; cbn; [lia..|]. specialize (IH s). lia. Qed.

(** A branch's database begins with the project. *)
Lemma database_name_head project sess c rest :
  postgresIdentifierPart project = String c rest -> Ascii.eqb "_" c = false ->
  exists rest', managedPostgresDatabaseName project sess = String c rest'.
Proof.
  intros Hp Hc. unfold managedPostgresDatabaseName. rewrite Hp, Strings.string_app_cons. unfold Strings.Trim.
  destruct (TrimSet_head (Ascii.eqb "_") c (rest +:+ "_" +:+ postgresIdentifierPart sess) Hc) as [s' ->]. cbv zeta.
  change (String.eqb (String c s') "") with false. cbv iota. case_match; [eauto|].
  assert (Hlen : (String.length ("_" +:+ String.substring 0 8 (sha256_hex (String c s'))) <= 9)%nat).
  { rewrite Strings.string_app_cons. cbn [String.length]. change ("" +:+ ?x) with x. pose proof (substring_short 8 (sha256_hex (String c s'))). lia. }
  destruct (63 - _)%nat as [|k] eqn:Ek; [lia|]. cbn [String.substring].
  destruct (TrimRightSet_head (Ascii.eqb "_") c (String.substring 0 k s') Hc) as [s'' ->].
  rewrite Strings.string_app_cons. eauto.
Qed.

Lemma configured_parent_apart cfg c rest :
  sanitizeDBIdentifier (AppConfig.ParentDatabase (dbPostgresService cfg)) <> "" ->
  postgresIdentifierPart (firstNonEmpty [branchProjectForConfig cfg; "app"]) = String c rest -> Ascii.eqb "_" c = false ->
  String.get 0 (sanitizeDBIdentifier (AppConfig.ParentDatabase (dbPostgresService cfg))) <> Some c -> names_apart cfg.
Proof.
  intros Hset Hp Hc Hget root s b pin Hb _ Heq. unfold parent_database in Heq. apply String.eqb_neq in Hset. rewrite Hset in Heq. cbn in Heq.
  apply Hget. rewrite <- Heq. unfold buildWorktreeDBPinForSession in Hb. repeat (case_match; [done|]). injection Hb as <-. cbn [Database].
  unfold managedPostgresBranchDatabaseName. by destruct (database_name_head _ (Strings.ReplaceAll (firstNonEmpty [normalizeDBBranchName b; "branch"]) "/" "_") c rest Hp Hc) as [? ->].
Qed.
End names.

(** ** Reset *)
Section reset.
Context {UT : UnicodeTables} {OO : AppConfig.ObjectOrder} {BE : BranchEnv} (cfg : AppConfig.Config).

Definition with_dbs (m : gmap string database) (w : world) : world :=
  {| registry := registry w; pins := pins w; dbs := m; now := now w; faults := faults w |}.

Lemma external_Ret w w' x : external w = (w', Ret x) -> exists fs, w' = at_time (now w) fs w.
Proof.
  unfold external. destruct w as [rg ps ds t [|[|] rest]]; cbn; [|done|]; intros [= <- <-]; eexists; unfold at_time; reflexivity.
Qed.

Lemma external_world w : exists fs, (external w).1 = at_time (now w) fs w.
Proof. unfold external. destruct w as [rg ps ds t [|f rest]]; cbn; eexists; unfold at_time; reflexivity. Qed.

(** A step that only uses up faults. *)
Ltac skip H := let w1 := fresh "w" in let fs := fresh "fs" in let H1 := fresh "H" in
  apply bind_returns in H as (w1 & ? & H1 & H); apply external_Ret in H1 as [fs ->].

Ltac got H := apply bind_returns in H as (? & ? & [= <- <-] & H); cbn in H.

Lemma exists_Ret name w w' b : database_exists name w = (w', Ret b) ->
  (exists fs, w' = at_time (now w) fs w) /\ b = bool_decide (is_Some (dbs w !! name)).
Proof. intros H. skip H. cbn in H. injection H as <- <-. split; [by eexists|done]. Qed.

Lemma create_Ret name t w w' x : create_database name t w = (w', Ret x) ->
  dbs w !! name = None /\ exists fs c,
    w' = at_time (now w) fs (with_dbs (<[name := {| content := c; open := true |}]> (dbs w)) w)
    /\ match t with None => c = "" | Some t => content <$> dbs w !! t = Some c end.
Proof.
  intros H. skip H. got H. case_bool_decide as Hex; [done|]. split; [by apply eq_None_not_Some|].
  destruct t as [t|]; [destruct (dbs w !! t) as [d|] eqn:E; [|done]|]; cbn in H; injection H as <- <-; eexists _, _; (split; [reflexivity|done]).
Qed.

Lemma allow_Ret name b w w' x : allow_connections name b w = (w', Ret x) ->
  exists d fs, dbs w !! name = Some d /\ w' = at_time (now w) fs (with_dbs (<[name := {| content := content d; open := b |}]> (dbs w)) w).
Proof.
  intros H. skip H. got H. destruct (dbs w !! name) as [d|] eqn:E; [|done]. cbn in H. injection H as <- <-.
  eexists d, _. split; [done|reflexivity].
Qed.

Lemma createIfMissing_Ret name w w' x : createPostgresDatabaseIfMissing name w = (w', Ret x) ->
  exists fs m, w' = at_time (now w) fs (with_dbs m w) /\ m = (if dbs w !! name is Some _ then dbs w else <[name := {| content := ""; open := true |}]> (dbs w)).
Proof.
  intros H. apply bind_returns in H as (w1 & b & H1 & H). apply exists_Ret in H1 as [[fs ->] ->]. cbn in H.
  case_bool_decide as Hex; cbn in H.
  - injection H as <- <-. destruct Hex as [d Hd]. rewrite Hd. by eexists fs, _.
  - apply create_Ret in H as [Hn (fs' & c & -> & ->)]. cbn in Hn. rewrite Hn. by eexists fs', _.
Qed.

(** Recreating a branch: a copy of the parent, which is made if it is missing. *)
Lemma recreate_Ret pin w w' x : recreateBranchDatabase cfg pin w = (w', Ret x) ->
  let P := postgresParentDatabaseName cfg pin in
  let copy := {| content := default "" (content <$> dbs w !! P); open := true |} in
  Database pin <> P /\ exists fs, w' = at_time (now w) fs (with_dbs (<[Database pin := copy]> (<[P := copy]> (dbs w))) w).
Proof.
  unfold recreateBranchDatabase. set (P := postgresParentDatabaseName cfg pin). cbv zeta.
  destruct (String.eqb P ""); [done|]. destruct (String.eqb (Database pin) P) eqn:E; [done|]. apply String.eqb_neq in E. intros H. split; [done|].
  skip H. apply bind_returns in H as (w1 & u & H1 & H). apply createIfMissing_Ret in H1 as (fs1 & m & -> & Hm). cbn in Hm.
  apply bind_returns in H as (w2 & v & H2 & H). cbn in H2. injection H2 as <- <-.
  match type of H with context [(terminate_backends ?w0).1] => destruct (external_world w0 : exists fs, (terminate_backends w0).1 = _) as [fs2 Hw2] end.
  rewrite Hw2 in H. clear Hw2.
  apply bind_returns in H as (w3 & v' & H3 & H). unfold drop_database in H3. skip H3. cbn in H3. injection H3 as <- <-.
  unfold terminate_backends in H. skip H.
  apply bind_returns in H as (w5 & v5 & H5 & H). apply allow_Ret in H5 as (d & fs5 & Hd & ->). cbn in Hd.
  apply bind_returns in H as (w6 & v6 & H6 & H). unfold attempt in H6.
  match type of H6 with (let '(_, _) := ?m in _) = _ => destruct m as [w7 r7] eqn:E7 end. injection H6 as <- <-.
  destruct r7 as [[]|e|e]; [|apply bind_returns in H as (? & ? & ? & H); done|done]. injection H as <- <-.
  apply bind_returns in E7 as (w8 & v8 & H8 & E7). apply create_Ret in H8 as (_ & fs8 & c & -> & Hc). cbn in Hc.
  apply allow_Ret in E7 as (d' & fs9 & Hd' & ->). cbn in Hd'.
  rewrite lookup_insert_eq in Hc. injection Hc as <-. rewrite lookup_insert_ne, lookup_insert_eq in Hd' by done. injection Hd' as <-.
  rewrite lookup_delete_ne in Hd by done.
  assert (Hdc : content d = default "" (content <$> dbs w !! P)).
  { subst m. destruct (dbs w !! P) as [d0|] eqn:E0; [rewrite E0 in Hd; by injection Hd as <-|]. rewrite lookup_insert_eq in Hd. by injection Hd as <-. }
  exists fs9. unfold at_time, with_dbs. cbn. f_equal. rewrite <- Hdc. apply map_eq. intros k. subst m.
  destruct (decide (k = P)) as [->|Hk]; [by rewrite lookup_insert_eq, lookup_insert_ne, lookup_insert_eq|].
  rewrite lookup_insert_ne by done. destruct (decide (k = Database pin)) as [->|Hk']; [by rewrite !lookup_insert_eq|].
  rewrite !lookup_insert_ne, lookup_delete_ne by done. destruct (dbs w !! P); [done|]. by rewrite lookup_insert_ne.
Qed.

Lemma readRegistry_Ret w w' r : readPostgresBranchRegistry w = (w', Ret r) ->
  (exists fs, w' = at_time (now w) fs w) /\ r = match registry w with Some (Ret r) => r | _ => no_registry end.
Proof.
  intros H. skip H. got H. destruct (registry w) as [[r0|e|e]|]; [|done..|].
  - got H. repeat (case_match; [done|]). injection H as <- <-. split; [by eexists|done].
  - injection H as <- <-. split; [by eexists|done].
Qed.

Lemma upsert_leases_in pin e st nowText ex ls ls' : upsert_leases pin e st nowText ex ls = Ret ls' ->
  exists l, l ∈ ls' /\ Pin l = pin /\ Status l = st /\ ExpiresAt l = ex /\ (is_Some e -> Endpoint l = e).
Proof.
  revert ls'. induction ls as [|l ls IH]; intros ls'; cbn [upsert_leases].
  - intros [= <-]. eexists. split; [by apply list_elem_of_singleton|done].
  - case_match; [case_match; [done|]|].
    + intros [= <-]. eexists. split; [by left|]. cbn. split_and!; [done..|]. by intros [? ->].
    + destruct (upsert_leases pin e st nowText ex ls) as [ls1|err|err] eqn:E; cbn; [|done..].
      intros [= <-]. destruct (IH _ eq_refl) as (l' & Hl' & ?). exists l'. split; [by right|done].
Qed.

Lemma upsert_Ret pin e st w w' x : upsertPostgresBranchLease pin e st w = (w', Ret x) ->
  exists fs r, w' = {| registry := Some (Ret r); pins := pins w; dbs := dbs w; now := now w; faults := fs |}
    /\ exists l, l ∈ Leases r /\ Pin l = pin /\ Status l = firstNonEmpty [Strings.TrimSpace st; "pending"]
       /\ ExpiresAt l = dbBranchLeaseExpiresAt (now w) (TTL pin) /\ (is_Some e -> Endpoint l = e).
Proof.
  intros H. unfold upsertPostgresBranchLease, mutatePostgresBranchRegistry, lock_ in H. skip H.
  apply bind_returns in H as (w1 & r & H1 & H). apply readRegistry_Ret in H1 as [[fs1 ->] Hr].
  apply bind_returns in H as (w2 & r' & H2 & H). got H2. apply bind_returns in H2 as (w3 & ls & H3 & H2). unfold lift in H3.
  injection H3 as <- Hls. injection H2 as <- <-. apply upsert_leases_in in Hls.
  unfold writePostgresBranchRegistry in H. skip H. cbn in H. injection H as <- <-.
  eexists _, _. split; [reflexivity|]. exact Hls.
Qed.

(** What a reset leaves: the branch and the parent hold what the parent held,
    the other databases and the pins are as they were, and the branch has a
    ready lease that ends one TTL from now. *)
Definition reset_done (root : string) (w w' : world) : Prop :=
  exists pin e r l,
    pins w !! root = Some (Ret pin) /\ isProtectedDBParentBranch pin = false /\ Database pin <> postgresParentDatabaseName cfg pin
    /\ (let P := postgresParentDatabaseName cfg pin in
        let copy := {| content := default "" (content <$> dbs w !! P); open := true |} in
        dbs w' = <[Database pin := copy]> (<[P := copy]> (dbs w)))
    /\ pins w' = pins w /\ registry w' = Some (Ret r) /\ l ∈ Leases r /\ Pin l = pin /\ Status l = "ready"
    /\ postgresBranchEndpoint pin = Ret e /\ Endpoint l = Some e /\ ExpiresAt l = dbBranchLeaseExpiresAt (now w) (TTL pin).

Lemma readPin_Ret root w w' found : readWorktreeDBPin root w = (w', Ret found) ->
  (exists fs, w' = at_time (now w) fs w) /\ forall pin, found = Some pin -> pins w !! root = Some (Ret pin).
Proof.
  intros H. skip H. got H. destruct (pins w !! root) as [[p|e|e]|]; [|done..|].
  - got H. case_match; [done|]. injection H as <- <-. split; [by eexists|]. by intros ? [= <-].
  - injection H as <- <-. split; [by eexists|done].
Qed.

Lemma ResetBranch_Ret pin w w' x : ResetBranch cfg pin w = (w', Ret x) ->
  let P := postgresParentDatabaseName cfg pin in
  let copy := {| content := default "" (content <$> dbs w !! P); open := true |} in
  Database pin <> P /\ exists fs r e l, postgresBranchEndpoint pin = Ret e
    /\ w' = {| registry := Some (Ret r); pins := pins w; dbs := <[Database pin := copy]> (<[P := copy]> (dbs w)); now := now w; faults := fs |}
    /\ l ∈ Leases r /\ Pin l = pin /\ Status l = "ready" /\ Endpoint l = Some e /\ ExpiresAt l = dbBranchLeaseExpiresAt (now w) (TTL pin).
Proof.
  intros H. unfold ResetBranch, adminURL, lock_ in H. cbv zeta. apply bind_returns in H as (w1 & u & H1 & H). skip H1. injection H1 as <- <-.
  skip H. apply bind_returns in H as (w2 & v & H2 & H). apply recreate_Ret in H2 as (Hne & fs2 & ->). split; [exact Hne|].
  apply bind_returns in H as (w3 & e & H3 & H). unfold lift in H3. injection H3 as <- He.
  apply upsert_Ret in H as (fs3 & r & -> & l & Hl & Hpin & Hst & Hex & Hend).
  exists fs3, r, e, l. split_and!; try done. by apply Hend.
Qed.

Lemma reset_Ret root opts w w' : runDBBranchReset root cfg opts w = (w', Ret tt) -> reset_done root w w'.
Proof.
  intros H. apply bind_returns in H as (w1 & found & H1 & H). apply readPin_Ret in H1 as [[fs1 ->] Hf].
  destruct found as [pin|]; [|done]. specialize (Hf pin eq_refl).
  destruct (isProtectedDBParentBranch pin) eqn:Hp; [done|]. destruct (Yes opts); [|done].
  apply ResetBranch_Ret in H as (Hne & fs & r & e & l & He & -> & Hl). exists pin, e, r, l. naive_solver.
Qed.

(** *** Without faults a reset returns *)
Lemma external_ok w : faults w = [] -> external w = (w, Ret tt).
Proof. intros Hf. unfold external. by rewrite Hf. Qed.

Lemma exists_ok name w : faults w = [] -> database_exists name w = (w, Ret (bool_decide (is_Some (dbs w !! name)))).
Proof. intros Hf. unfold database_exists. by rewrite (bind_run _ _ _ _ _ (external_ok w Hf)). Qed.

Lemma create_ok name t w : faults w = [] -> dbs w !! name = None -> (forall n, t = Some n -> is_Some (dbs w !! n)) ->
  exists m, create_database name t w = (with_dbs m w, Ret tt) /\ (forall k, is_Some (dbs w !! k) -> is_Some (m !! k)) /\ is_Some (m !! name).
Proof.
  intros Hf Hn Ht. unfold create_database. rewrite (bind_run _ _ _ _ _ (external_ok w Hf)), (bind_run _ _ w w (dbs w)) by done.
  rewrite bool_decide_false by (rewrite Hn; by intros [? ?]).
  assert (Hgrow : forall d k, is_Some (dbs w !! k) -> is_Some (<[name:=d]> (dbs w) !! k)).
  { intros d k Hk. destruct (decide (name = k)) as [->|]; [by rewrite lookup_insert_eq|by rewrite lookup_insert_ne]. }
  destruct t as [n|]; [destruct (Ht n eq_refl) as [d ->]|]; eexists; (split; [reflexivity|split; [apply Hgrow|by rewrite lookup_insert_eq]]).
Qed.

Lemma allow_ok name b w : faults w = [] -> is_Some (dbs w !! name) ->
  exists m, allow_connections name b w = (with_dbs m w, Ret tt) /\ (forall k, is_Some (dbs w !! k) <-> is_Some (m !! k)).
Proof.
  intros Hf [d Hd]. unfold allow_connections. rewrite (bind_run _ _ _ _ _ (external_ok w Hf)), (bind_run _ _ w w (dbs w)) by done.
  rewrite Hd. eexists; split; [reflexivity|]. intros k.
  destruct (decide (name = k)) as [->|]; [rewrite lookup_insert_eq, Hd; split; by eexists|by rewrite lookup_insert_ne].
Qed.

Lemma drop_ok name w : faults w = [] -> drop_database name w = (with_dbs (delete name (dbs w)) w, Ret tt).
Proof. intros Hf. unfold drop_database. by rewrite (bind_run _ _ _ _ _ (external_ok w Hf)). Qed.

Lemma createIfMissing_ok name w : faults w = [] ->
  exists m, createPostgresDatabaseIfMissing name w = (with_dbs m w, Ret tt) /\ is_Some (m !! name).
Proof.
  intros Hf. unfold createPostgresDatabaseIfMissing. rewrite (bind_run _ _ _ _ _ (exists_ok name w Hf)). case_bool_decide as Hx; cbn [negb].
  - exists (dbs w). split; [by destruct w|done].
  - destruct (create_ok name None w Hf) as (m & Hm & _ & ?); [by apply eq_None_not_Some|done|]. by exists m.
Qed.

Lemma recreate_ok pin w : faults w = [] -> postgresParentDatabaseName cfg pin <> "" -> Database pin <> postgresParentDatabaseName cfg pin ->
  exists m, recreateBranchDatabase cfg pin w = (with_dbs m w, Ret tt).
Proof.
  intros Hf HP Hne. unfold recreateBranchDatabase. set (P := postgresParentDatabaseName cfg pin) in *. cbv zeta.
  rewrite (proj2 (String.eqb_neq P "") HP), (proj2 (String.eqb_neq _ _) Hne). unfold connect, terminate_backends.
  rewrite (bind_run _ _ _ _ _ (external_ok w Hf)).
  destruct (createIfMissing_ok P w Hf) as (m1 & H1 & Hm1). rewrite (bind_run _ _ _ _ _ H1).
  set (w1 := with_dbs m1 w). assert (Hf1 : faults w1 = []) by done.
  rewrite (bind_run _ _ w1 w1 tt) by (unfold ignore; by rewrite external_ok).
  rewrite (bind_run _ _ _ _ _ (drop_ok (Database pin) w1 Hf1)). set (w2 := with_dbs _ w1).
  rewrite (bind_run _ _ w2 w2 tt) by by apply external_ok.
  destruct (allow_ok P false w2) as (m3 & H3 & Hm3); [done|cbn; by rewrite lookup_delete_ne|]. rewrite (bind_run _ _ _ _ _ H3).
  set (w3 := with_dbs m3 w2).
  destruct (create_ok (Database pin) (Some P) w3) as (m4 & H4 & Hm4 & _).
  { done. } { apply eq_None_not_Some. cbn. rewrite <- Hm3. cbn. rewrite lookup_delete_eq. by intros [? ?]. }
  { intros ? [= <-]. cbn. apply Hm3. cbn. by rewrite lookup_delete_ne. }
  set (w4 := with_dbs m4 w3). destruct (allow_ok P true w4) as (m5 & H5 & _); [done|apply Hm4, Hm3; cbn; by rewrite lookup_delete_ne|].
  exists m5. rewrite (bind_run _ _ w3 (with_dbs m5 w4) (Ret tt)); [done|].
  unfold attempt. rewrite (bind_run _ _ _ _ _ H4). change (with_dbs m4 w3) with w4. by rewrite H5.
Qed.

(** The registry can be read and has no lease of others for the branch. *)
Definition writable (pin : worktreeDBPin) (w : world) : Prop :=
  match registry w with
  | None => True
  | Some (Ret r) => r_SchemaVersion r = dbBranchRegistrySchemaVersion /\ r_Provider r = postgresBranchProviderName
      /\ Forall (fun l => same_lease l pin = true -> isSceneryOwnedDBLease l = true) (Leases r)
  | Some _ => False
  end.

Lemma readRegistry_ok pin w : faults w = [] -> writable pin w ->
  exists r, readPostgresBranchRegistry w = (w, Ret r) /\ Forall (fun l => same_lease l pin = true -> isSceneryOwnedDBLease l = true) (Leases r).
Proof.
  intros Hf Hw. unfold readPostgresBranchRegistry. rewrite (bind_run _ _ _ _ _ (external_ok w Hf)), (bind_run _ _ w w (registry w)) by done.
  unfold writable in Hw. destruct (registry w) as [[r|e|e]|]; [|done..|].
  - destruct Hw as (Hs & Hp & Hl). rewrite (bind_run _ _ w w r) by done. rewrite Hs, Hp. by exists r.
  - by exists no_registry.
Qed.

Lemma upsert_leases_ok_run pin e st nowText ex ls : Forall (fun l => same_lease l pin = true -> isSceneryOwnedDBLease l = true) ls ->
  exists ls', upsert_leases pin e st nowText ex ls = Ret ls'.
Proof.
  induction 1 as [|l ls Hl _ [ls' IH]]; cbn [upsert_leases]; [by eexists|]. destruct (same_lease l pin).
  - rewrite Hl by done. by eexists.
  - rewrite IH. by eexists.
Qed.

Lemma upsert_ok pin e st w : faults w = [] -> writable pin w -> exists w', upsertPostgresBranchLease pin e st w = (w', Ret tt).
Proof.
  intros Hf Hw. unfold upsertPostgresBranchLease, mutatePostgresBranchRegistry, lock_. rewrite (bind_run _ _ _ _ _ (external_ok w Hf)).
  destruct (readRegistry_ok pin w Hf Hw) as (r & Hr & Hl). rewrite (bind_run _ _ _ _ _ Hr).
  destruct (upsert_leases_ok_run pin e (firstNonEmpty [Strings.TrimSpace st; "pending"]) (rfc3339 (now w)) (dbBranchLeaseExpiresAt (now w) (TTL pin)) _ Hl) as [ls Hls].
  eexists. rewrite (bind_run _ _ w w (with_leases r (rfc3339 (now w)) ls)).
  2: { rewrite (bind_run _ _ w w (now w)) by done. cbv zeta. by rewrite (bind_run _ _ w w ls) by (unfold lift; by rewrite Hls). }
  unfold writePostgresBranchRegistry. by rewrite (bind_run _ _ _ _ _ (external_ok w Hf)).
Qed.

Lemma reset_ok root opts pin e w :
  faults w = [] -> pins w !! root = Some (Ret pin) -> SchemaVersion pin = dbBranchPinSchemaVersion ->
  isProtectedDBParentBranch pin = false -> Yes opts = true -> postgresParentDatabaseName cfg pin <> "" ->
  Database pin <> postgresParentDatabaseName cfg pin -> postgresBranchEndpoint pin = Ret e -> writable pin w ->
  exists w', runDBBranchReset root cfg opts w = (w', Ret tt).
Proof.
  intros Hf Hpin Hsch Hprot Hyes HP Hne He Hw. unfold runDBBranchReset.
  rewrite (bind_run _ _ w w (Some pin)).
  - rewrite Hprot, Hyes. cbn [negb]. unfold ResetBranch, lock_, adminURL. rewrite (bind_run _ _ w w admin_url) by (by rewrite (bind_run _ _ _ _ _ (external_ok w Hf))).
    rewrite (bind_run _ _ _ _ _ (external_ok w Hf)). destruct (recreate_ok pin w Hf HP Hne) as [m Hm]. rewrite (bind_run _ _ _ _ _ Hm).
    rewrite (bind_run _ _ (with_dbs m w) (with_dbs m w) e) by (unfold lift; by rewrite He). by apply upsert_ok.
  - unfold readWorktreeDBPin. rewrite (bind_run _ _ _ _ _ (external_ok w Hf)), (bind_run _ _ w w (pins w !! root)), Hpin, (bind_run _ _ w w pin) by done.
    by rewrite Hsch.
Qed.
End reset.

(** ** Leases of others *)
Section foreign.
Context {UT : UnicodeTables} {OO : AppConfig.ObjectOrder} {BE : BranchEnv} (cfg : AppConfig.Config).

Definition leases_of (w : world) : list dbBranchLease := match registry w with Some (Ret r) => Leases r | _ => [] end.

Definition includes (ls ls' : list dbBranchLease) : Prop := forall l, isSceneryOwnedDBLease l = false -> l ∈ ls -> l ∈ ls'.

Definition foreign_kept (w w' : world) : Prop := includes (leases_of w) (leases_of w').

#[local] Instance foreign_kept_preorder : PreOrder foreign_kept.
Proof. split; [by intros w l|]. intros w1 w2 w3 H1 H2 l Hl Hin. by apply H2, H1. Qed.

Definition same_registry (w w' : world) : Prop := registry w' = registry w.

#[local] Instance same_registry_preorder : PreOrder same_registry.
Proof. split; [by intros w|]. intros w1 w2 w3 H1 H2. unfold same_registry in *. congruence. Qed.

Lemma same_foreign {A} (m : M A) : keeps same_registry m -> keeps foreign_kept m.
Proof. intros Hm w l. unfold leases_of. by rewrite (Hm w). Qed.

(** Programs that leave the registry alone. *)
Lemma same_external : keeps same_registry external.
Proof. intros w. unfold external, same_registry. by destruct (faults w). Qed.

Lemma same_modify f : (forall w, registry (f w) = registry w) -> keeps same_registry (modify f).
Proof. intros Hf w. apply Hf. Qed.

Ltac same_step :=
  match goal with
  | |- keeps _ (mret _) => apply keeps_ret, _
  | |- keeps _ (fail _) => apply keeps_fail, _
  | |- keeps _ (lift _) => apply keeps_lift, _
  | |- keeps _ (gets _) => apply keeps_gets, _
  | |- keeps _ (attempt _) => apply keeps_attempt
  | |- keeps _ (ignore _) => apply keeps_ignore
  | |- keeps _ (match ?x with _ => _ end) => destruct x
  | |- keeps _ (mbind _ _) => apply keeps_bind; [apply _| |intros ?]
  | |- keeps same_registry (set_dbs _) => by apply same_modify
  | |- keeps same_registry (set_pins _) => by apply same_modify
  | |- keeps same_registry external => apply same_external
  | |- keeps same_registry lock_ => apply same_external
  | |- keeps same_registry connect => apply same_external
  | |- keeps same_registry terminate_backends => apply same_external
  | |- _ => by auto with same
  end.
Ltac same := repeat same_step.
Create HintDb same discriminated.

Lemma same_read : keeps same_registry readPostgresBranchRegistry.
Proof. unfold readPostgresBranchRegistry. same. Qed.
Lemma same_readPin root : keeps same_registry (readWorktreeDBPin root).
Proof. unfold readWorktreeDBPin. same. Qed.
Lemma same_adminURL : keeps same_registry adminURL.
Proof. unfold adminURL. same. Qed.
Lemma same_remove_pin root : keeps same_registry (remove_pin root).
Proof. unfold remove_pin. same. Qed.
Lemma same_exists name : keeps same_registry (database_exists name).
Proof. unfold database_exists. same. Qed.
Lemma same_create name t : keeps same_registry (create_database name t).
Proof. unfold create_database. same. Qed.
Lemma same_drop name : keeps same_registry (drop_database name).
Proof. unfold drop_database. same. Qed.
Lemma same_allow name b : keeps same_registry (allow_connections name b).
Proof. unfold allow_connections. same. Qed.
Lemma same_schema_of name : keeps same_registry (schema_of name).
Proof. unfold schema_of. same. Qed.
#[local] Hint Resolve same_read same_readPin same_adminURL same_remove_pin same_exists same_create same_drop same_allow same_schema_of : same.

Lemma same_drop_all names : keeps same_registry (drop_all names).
Proof. induction names as [|n names IH]; cbn [drop_all]; unfold dropManagedPostgresDatabase; same. Qed.
Lemma same_recreate pin : keeps same_registry (recreateBranchDatabase cfg pin).
Proof. unfold recreateBranchDatabase, createPostgresDatabaseIfMissing. cbv zeta. same. Qed.
#[local] Hint Resolve same_drop_all same_recreate : same.

Lemma same_ensureTemplate pin : keeps same_registry (ensureTemplateDatabaseBranch cfg pin).
Proof. unfold ensureTemplateDatabaseBranch. same. Qed.
Lemma same_find pin : keeps same_registry (findPostgresBranchLease pin).
Proof. unfold findPostgresBranchLease. same. Qed.
Lemma same_validate pin : keeps same_registry (validatePostgresBranchLeaseWritable pin).
Proof. unfold validatePostgresBranchLeaseWritable. same. Qed.
#[local] Hint Resolve same_ensureTemplate same_find same_validate : same.

Lemma same_Inspect pin : keeps same_registry (InspectBranch pin).
Proof. unfold InspectBranch. same. Qed.
#[local] Hint Resolve same_Inspect : same.
Lemma same_list_leases ls : keeps same_registry (list_leases ls).
Proof. induction ls as [|l ls IH]; cbn [list_leases]; unfold dbBranchListLeaseFromRegistryLease; same. Qed.
Lemma same_status root : keeps same_registry (buildDBBranchStatus root cfg).
Proof. unfold buildDBBranchStatus. same. Qed.
Lemma same_diff pin target : keeps same_registry (DiffBranch cfg pin target).
Proof. unfold DiffBranch. cbv zeta. same. Qed.
Lemma same_target root opts : keeps same_registry (resolveBranchCommandTarget root cfg opts).
Proof. unfold resolveBranchCommandTarget. cbv zeta. same. Qed.
#[local] Hint Resolve same_list_leases same_status same_diff same_target : same.

(** A program that reads the registry and goes on with what it read. *)
Lemma foreign_read {A} (g : dbBranchRegistry -> M A) :
  (forall r w, leases_of w = Leases r -> foreign_kept w (g r w).1) -> keeps foreign_kept (r ← readPostgresBranchRegistry; g r).
Proof.
  intros Hg w. pose proof (same_foreign _ same_read w) as H1. unfold mbind, Run_bind.
  destruct (readPostgresBranchRegistry w) as [w1 [r|e|e]] eqn:E; [|done..]. etrans; [exact H1|]. apply Hg.
  apply readRegistry_Ret in E as [[fs ->] ->]. unfold leases_of. cbn. by destruct (registry w) as [[]|].
Qed.

Lemma foreign_write r w : includes (leases_of w) (Leases r) -> foreign_kept w (writePostgresBranchRegistry r w).1.
Proof.
  intros Hi. unfold writePostgresBranchRegistry, mbind, Run_bind. pose proof (same_foreign _ same_external w) as H1.
  destruct (external w) as [w1 [u|e|e]]; [|done..]. exact Hi.
Qed.

Lemma includes_filter p ls : (forall l, isSceneryOwnedDBLease l = false -> p l = true) -> includes ls (List.filter p ls).
Proof. intros Hp l Hl. rewrite !list_elem_of_In, filter_In. intros Hin. by auto. Qed.

(** A program that writes what it read, with the leases of others. *)
Lemma foreign_update {A B} (r : dbBranchRegistry) (w : world) (m : M A) (r' : A -> dbBranchRegistry) (k : A -> M B) :
  leases_of w = Leases r -> keeps same_registry m -> (forall x, includes (Leases r) (Leases (r' x))) -> (forall x, keeps same_registry (k x)) ->
  foreign_kept w ((x ← m; _ ← writePostgresBranchRegistry (r' x); k x) w).1.
Proof.
  intros Hr Hm Hi Hk. pose proof (Hm w) as H1. unfold mbind at 1, Run_bind at 1. destruct (m w) as [w1 [x|e|e]]; cbn in H1.
  2, 3: cbn; unfold foreign_kept, leases_of; intros l; by rewrite H1.
  assert (Hw1 : foreign_kept w w1) by (unfold foreign_kept, leases_of; intros l; by rewrite H1). etrans; [exact Hw1|].
  pose proof (foreign_write (r' x) w1) as H2. unfold mbind, Run_bind. destruct (writePostgresBranchRegistry (r' x) w1) as [w2 [u|e|e]]; cbn in H2.
  all: assert (Hi1 : includes (leases_of w1) (Leases (r' x))) by (unfold leases_of in *; rewrite H1, Hr; apply Hi).
  2, 3: by apply H2. etrans; [by apply H2|]. apply same_foreign, Hk.
Qed.

Lemma upsert_leases_foreign pin e st nowText ex ls ls' : upsert_leases pin e st nowText ex ls = Ret ls' -> includes ls ls'.
Proof.
  revert ls'. induction ls as [|l ls IH]; intros ls'; cbn [upsert_leases]; [intros _ ? _ H; by apply not_elem_of_nil in H|].
  case_match; [case_match eqn:Ho; [done|]|].
  - intros [= <-] l' Hl' [->|Hin]%elem_of_cons; [|by right]. apply negb_false_iff in Ho. congruence.
  - destruct (upsert_leases pin e st nowText ex ls) as [ls1|err|err] eqn:E; cbn; [|done..].
    intros [= <-] l' Hl' [->|Hin]%elem_of_cons; [by left|right]. by apply (IH _ eq_refl).
Qed.

Lemma foreign_mutate f : (forall r w, (f r w).1 = w /\ forall r', (f r w).2 = Ret r' -> includes (Leases r) (Leases r')) ->
  keeps foreign_kept (mutatePostgresBranchRegistry f).
Proof.
  intros Hf. unfold mutatePostgresBranchRegistry. apply keeps_bind; [apply _|apply same_foreign, same_external|]. intros _.
  apply foreign_read. intros r w Hr. destruct (Hf r w) as [Hw Hi]. unfold mbind, Run_bind.
  destruct (f r w) as [w1 [r'|e|e]]; cbn in Hw; subst w1; [|reflexivity..]. apply foreign_write. rewrite Hr. by apply Hi.
Qed.

Lemma foreign_upsert pin e st : keeps foreign_kept (upsertPostgresBranchLease pin e st).
Proof.
  apply foreign_mutate. intros r w. unfold mbind, Run_bind, gets, lift. cbv zeta.
  destruct (upsert_leases _ _ _ _ _ _) as [ls|err|err] eqn:E; (split; [done|]); intros r' [= <-]. by apply upsert_leases_foreign in E.
Qed.

Create HintDb foreign discriminated.
#[local] Hint Resolve foreign_upsert : foreign.
#[local] Hint Extern 1 (keeps _ (markPostgresBranchLeasePending _)) => apply foreign_upsert : foreign.
#[local] Hint Extern 2 (keeps foreign_kept _) => apply same_foreign; same; fail : foreign.

Ltac foreign_step :=
  match goal with
  | |- keeps _ (mret _) => apply keeps_ret, _
  | |- keeps _ (fail _) => apply keeps_fail, _
  | |- keeps _ (lift _) => apply keeps_lift, _
  | |- keeps _ (gets _) => apply keeps_gets, _
  | |- keeps _ (attempt _) => apply keeps_attempt
  | |- keeps _ (ignore _) => apply keeps_ignore
  | |- keeps _ (match ?x with _ => _ end) => destruct x
  | |- keeps _ (mbind _ _) => apply keeps_bind; [apply _| |intros ?]
  | |- keeps _ (pending_on_error _ _) => unfold pending_on_error
  | |- keeps foreign_kept _ => solve [auto with foreign]
  | |- keeps foreign_kept _ => apply same_foreign; solve [same]
  end.
Ltac foreign := repeat foreign_step.

Lemma foreign_Ensure pin : keeps foreign_kept (EnsureBranch cfg pin).
Proof. unfold EnsureBranch. foreign. Qed.
#[local] Hint Resolve foreign_Ensure : foreign.
Lemma foreign_Connection pin : keeps foreign_kept (Connection cfg pin).
Proof. unfold Connection. foreign. Qed.
Lemma foreign_Reset pin : keeps foreign_kept (ResetBranch cfg pin).
Proof. unfold ResetBranch. foreign. Qed.
Lemma foreign_writePin root pin : keeps foreign_kept (writeWorktreeDBPin root pin).
Proof. unfold writeWorktreeDBPin. foreign. Qed.
#[local] Hint Resolve foreign_Connection foreign_Reset foreign_writePin : foreign.

Lemma foreign_session root s : keeps foreign_kept (ensureDBBranchPinForSession root cfg s).
Proof. unfold ensureDBBranchPinForSession. cbv zeta. foreign. Qed.
#[local] Hint Resolve foreign_session : foreign.

Lemma foreign_Delete pin b root : keeps foreign_kept (DeleteBranch pin b root).
Proof.
  unfold DeleteBranch. do 3 (apply keeps_bind; [apply _|apply same_foreign; same|intros ?]). cbv zeta.
  case_bool_decide; [foreign|]. do 3 (apply keeps_bind; [apply _|apply same_foreign; same|intros ?]).
  apply foreign_read. intros r w Hr. case_match; [reflexivity|]. apply (foreign_update r); [done|same| |].
  - intros t. apply includes_filter. intros l Hl. unfold deletes. by rewrite Hl.
  - intros t. same.
Qed.

Lemma foreign_expire pin t : keeps foreign_kept (expirePostgresBranchLease pin t).
Proof.
  unfold expirePostgresBranchLease. case_match; [foreign|]. apply foreign_mutate. intros r w. unfold mbind, Run_bind, gets.
  case_match; (split; [done|]); [done|]. intros r' [= <-] l Hl Hin. cbn. apply list_elem_of_In, in_map_iff. exists l.
  unfold expires. rewrite Hl. by rewrite <- list_elem_of_In.
Qed.

Lemma foreign_prune project current older : keeps foreign_kept (pruneExpiredDBBranchLeases project current older).
Proof.
  unfold pruneExpiredDBBranchLeases. apply keeps_bind; [apply _|apply same_foreign; same|]. intros admin. cbv zeta.
  apply keeps_bind; [apply _|foreign|]. intros t. apply keeps_bind; [apply _| |intros; foreign]. apply keeps_attempt.
  apply keeps_bind; [apply _|apply same_foreign; same|]. intros _. apply foreign_read. intros r w Hr.
  apply (foreign_update r); [done|same| |intros; same]. intros _. apply includes_filter. intros l Hl. unfold pruned. by rewrite Hl.
Qed.
#[local] Hint Resolve foreign_Delete foreign_expire foreign_prune : foreign.

Lemma foreign_command root opts : keeps foreign_kept (runDBBranchCommand root cfg opts).
Proof.
  unfold runDBBranchCommand, runDBBranchList, runDBBranchCheckout, runDBBranchReset, runDBBranchDelete, runDBBranchRestore,
    RestoreBranch, runDBBranchDiff, runDBBranchExpire, runDBBranchPrune, registryListLeases. cbv zeta. foreign.
Qed.

Lemma foreign_perform q : (forall root, q <> Leave root) -> keeps foreign_kept (perform cfg q).
Proof.
  intros Hq. destruct q as [root opts|root s|root s|root s|root]; cbn [perform]; [apply foreign_command| | | |by destruct (Hq root)].
  all: unfold resolveDBBranchDatabaseURL, resolveDBBranchConnection, dbBranchManagedPostgresEnv; cbv zeta; foreign.
Qed.

Lemma foreign_exec es : Forall (fun e => forall root, e.2 <> Leave root) es -> forall w, foreign_kept w (exec cfg w es).
Proof.
  induction 1 as [|[[t fs] q] es Hq _ IH]; intros w; [by intros l|].
  pose proof (foreign_perform q Hq (at_time t fs w)) as H1. intros l Hl Hin. by apply (IH _ l), (H1 l).
Qed.
End foreign.

(** ** The promises *)
Section promises.
Context {UT : UnicodeTables} {OO : AppConfig.ObjectOrder} {BE : BranchEnv} (cfg : AppConfig.Config).

(** C28. The parent database is protected: whatever the commands, sessions and
    worktrees do, in any order and with any faults of files, locks and server,
    the database branches are made from stays, with its contents, as long as no
    other branch is given its name. *)
Theorem parent_database_kept es w d :
  names_apart cfg -> inv cfg w -> dbs w !! parent_database cfg = Some d ->
  inv cfg (exec cfg w es)
  /\ exists d', dbs (exec cfg w es) !! parent_database cfg = Some d' /\ content d' = content d.
Proof. intros Ha HI Hd. destruct (exec_safe cfg Ha es w HI) as [HI' HR]. split; [done|]. by apply HR. Qed.

(** A reset that returns has made the branch a copy of the parent, opened
    both, touched no other database and left a ready lease; and without faults,
    for a pinned branch that is not the parent and has no lease of others, it
    returns. *)
Theorem reset_copies_parent root opts w :
  (forall w', runDBBranchReset root cfg opts w = (w', Ret tt) -> reset_done cfg root w w')
  /\ (forall pin e, faults w = [] -> pins w !! root = Some (Ret pin) -> SchemaVersion pin = dbBranchPinSchemaVersion ->
      isProtectedDBParentBranch pin = false -> Yes opts = true -> postgresParentDatabaseName cfg pin <> "" ->
      Database pin <> postgresParentDatabaseName cfg pin -> postgresBranchEndpoint pin = Ret e -> writable pin w ->
      exists w', runDBBranchReset root cfg opts w = (w', Ret tt)).
Proof. split; [intros w'; apply reset_Ret|intros pin e; apply reset_ok]. Qed.

(** C29. Leases that are not Scenery's own are never changed or removed by the
    commands and sessions, whatever fails. *)
Theorem foreign_leases_kept es w l :
  Forall (fun e => forall root, e.2 <> Leave root) es -> isSceneryOwnedDBLease l = false -> l ∈ leases_of w ->
  l ∈ leases_of (exec cfg w es).
Proof. intros Hes Hl. by apply foreign_exec. Qed.
End promises.

(** ** Examples *)
#[local] Existing Instance ascii_tables.
#[local] Existing Instance AppConfig.demo_order.

#[local] Instance demo_env : BranchEnv := {|
  sha256_hex := fun s => s; rfc3339 := Strconv.Itoa;
  parse_rfc3339 := fun s => match Strconv.Atoi s with Ret t => Some t | _ => None end;
  parse_duration := fun s => if String.eqb s "168h" then Some 604800 else None;
  git_branch := fun _ => "feature/x"; admin_url := "postgres://localhost:5432/postgres";
  parse_url := fun _ => Some {| Scheme := "postgres"; u_Host := "localhost:5432"; Hostname := "localhost"; u_Port := "5432";
                                q_host := ""; q_port := ""; q_sslmode := "" |};
  url_with_path := fun u p => u +:+ p; schema_text := fun s => s; text_diff := fun _ a _ b => a +:+ b |}.

Definition demo_service (parentBranch parentDatabase : string) : AppConfig.DevServiceConfig :=
  {| AppConfig.Kind := "postgres"; AppConfig.Mode := ""; AppConfig.svc_Version := ""; AppConfig.Isolation := ""; AppConfig.Project := "shop";
     AppConfig.ParentBranch := parentBranch; AppConfig.ParentDatabase := parentDatabase; AppConfig.BranchPolicy := "";
     AppConfig.BranchNameTemplate := ""; AppConfig.BranchStrategy := ""; AppConfig.TTL := ""; AppConfig.Role := "";
     AppConfig.svc_DatabaseURLEnv := ""; AppConfig.Image := ""; AppConfig.svc_Database := ""; AppConfig.svc_Route := "";
     AppConfig.svc_Env := ∅ |}.

Definition with_service (svc : AppConfig.DevServiceConfig) : AppConfig.Config :=
  let c := AppConfig.demo_config in
  {| AppConfig.Name := AppConfig.Name c; AppConfig.ID := AppConfig.ID c; AppConfig.Build := AppConfig.Build c;
     AppConfig.Proxy := AppConfig.Proxy c; AppConfig.Dev := {| AppConfig.Services := {["postgres" := svc]}; AppConfig.Setup := [] |};
     AppConfig.Generators := AppConfig.Generators c; AppConfig.Database := AppConfig.Database c; AppConfig.Tasks := AppConfig.Tasks c;
     AppConfig.Validation := AppConfig.Validation c; AppConfig.Auth := AppConfig.Auth c;
     AppConfig.Observability := AppConfig.Observability c; AppConfig.Temporal := AppConfig.Temporal c |}.

Definition template_config : AppConfig.Config := with_service (demo_service "" "template").

Definition start (all : gmap string database) : world :=
  {| registry := None; pins := ∅; dbs := all; now := 0; faults := [] |}.

Definition opts_of (args : list string) : dbBranchOptions :=
  match parseDBBranchArgs args with
  | Ret o => o
  | _ => {| Command := ""; AppRoot := ""; JSON := false; o_Branch := ""; Yes := false; Force := false; At := ""; After := ""; Older := ""; Target := "" |}
  end.

Definition command (root : string) (args : list string) : Z * list bool * request := (0, [], Command_ root (opts_of args)).

Definition seeded : database := {| content := "seed"; open := true |}.

(** Checkout, reset with a server that fails on the way, and delete. *)
Definition demo_requests : list (Z * list bool * request) :=
  [command "/a" ["checkout"; "feature/x"]; (60, [false; false; false; false; false; false; false; true], Command_ "/a" (opts_of ["reset"; "--yes"]));
   command "/a" ["delete"; "feature/x"; "--force"]].

Lemma template_apart : names_apart template_config.
Proof.
  apply (configured_parent_apart template_config "s" "hop"); [vm_compute; discriminate|vm_compute; reflexivity|reflexivity|].
  vm_compute. discriminate.
Qed.

Lemma parent_database_kept_witness :
  let w := exec template_config (start {["template" := seeded]}) demo_requests in
  inv template_config w
  /\ exists d', dbs w !! parent_database template_config = Some d' /\ content d' = "seed".
Proof.
  apply (parent_database_kept template_config demo_requests (start {["template" := seeded]}) seeded).
  - apply template_apart.
  - split; [intros root pin H; vm_compute in H; discriminate|intros r H; discriminate].
  - vm_compute. reflexivity.
Defined.

Definition demo_pinned : world := exec template_config (start {["template" := seeded]}) [command "/a" ["checkout"; "feature/x"]].

Lemma reset_copies_parent_witness :
  exists w', runDBBranchReset "/a" template_config (opts_of ["reset"; "--yes"]) demo_pinned = (w', Ret tt)
    /\ reset_done template_config "/a" demo_pinned w'.
Proof.
  destruct (reset_copies_parent template_config "/a" (opts_of ["reset"; "--yes"]) demo_pinned) as [H1 H2].
  edestruct H2 as [w' Hw']; cycle -1; [exists w'; split; [exact Hw'|by apply H1]|vm_compute; first [reflexivity|discriminate|idtac]..].
  split_and!; [reflexivity|reflexivity|]. constructor; [reflexivity|constructor].
Defined.

(** A lease another tool wrote for a branch of the project. *)
Definition foreign_pin : worktreeDBPin :=
  {| SchemaVersion := dbBranchPinSchemaVersion; Provider := "postgres"; Project := "shop"; ParentBranch := "main"; Branch := "theirs";
     BranchID := "br-theirs"; Database := "shop_theirs"; Role := "scenery"; SessionID := ""; WorktreeRoot := "/t"; CreatedBy := "other"; TTL := "" |}.
Definition foreign_lease : dbBranchLease :=
  {| Pin := foreign_pin; Status := "ready"; Endpoint := None; CreatedAt := ""; UpdatedAt := ""; ExpiresAt := "1" |}.
Definition shared_world : world :=
  {| registry := Some (Ret {| r_SchemaVersion := dbBranchRegistrySchemaVersion; r_Provider := postgresBranchProviderName;
                              r_UpdatedAt := ""; Leases := [foreign_lease] |});
     pins := ∅; dbs := {["template" := seeded]}; now := 0; faults := [] |}.

Lemma foreign_leases_kept_witness :
  foreign_lease ∈ leases_of (exec template_config shared_world
    (demo_requests ++ [command "/a" ["delete"; "theirs"]; (5, [], Command_ "/a" (opts_of ["prune"]))])).
Proof.
  apply (foreign_leases_kept template_config); [|reflexivity|left].
  repeat constructor; intros root; discriminate.
Defined.

Definition is_ready (branch : string) (w : world) : bool :=
  existsb (fun l => String.eqb (Branch (Pin l)) branch && String.eqb (Status l) "ready") (leases_of w).

(** Two branches, one database: deleting [feature/x] drops the data of
    [feature-x], whose lease stays ready. *)
Example slash_and_dash_share_a_database :
  let w := exec template_config (start {["template" := seeded]})
    [command "/a" ["checkout"; "feature/x"]; command "/b" ["checkout"; "feature-x"]; command "/a" ["delete"; "feature/x"; "--force"]] in
  (pins w !! "/b" ≫= fun p => match p with Ret pin => Some (Branch pin, Database pin) | _ => None end) = Some ("feature-x", "shop_feature_x")
  /\ is_ready "feature-x" w = true /\ dbs w !! "shop_feature_x" = None.
Proof. vm_compute. split_and!; reflexivity. Qed.

(** The names of the parent and of a branch may meet too: the parent database is
    dropped. *)
Example branch_named_like_the_parent :
  let cfg := with_service (demo_service "release/1" "") in
  let w := start {["shop_release_1" := seeded]} in
  parent_database cfg = "shop_release_1"
  /\ dbs (exec cfg w [command "/a" ["checkout"; "release-1"]; command "/a" ["delete"; "release-1"; "--force"]]) = ∅
  /\ dbs (exec cfg w [command "/a" ["checkout"; "release/1"]; command "/a" ["delete"; "release/1"; "--force"]]) = {["shop_release_1" := seeded]}.
Proof. vm_compute. split_and!; reflexivity. Qed.

(** A worktree that goes away takes the lease of another tool with it, when both
    name one branch. *)
Example leaving_removes_a_foreign_lease :
  let pin := {| SchemaVersion := dbBranchPinSchemaVersion; Provider := "postgres"; Project := "shop"; ParentBranch := "main"; Branch := "theirs";
     BranchID := "br-theirs"; Database := "shop_theirs"; Role := "scenery"; SessionID := ""; WorktreeRoot := "/a"; CreatedBy := "scenery"; TTL := "" |} in
  let w := {| registry := registry shared_world; pins := {["/a" := Ret pin]}; dbs := ∅; now := 0; faults := [] |} in
  leases_of w = [foreign_lease] /\ leases_of (exec template_config w [(0, [], Leave "/a")]) = [].
Proof. vm_compute. split; reflexivity. Qed.

(** A server that fails right after the parent was closed, and again when it is
    reopened, leaves the parent closed. *)
Example failed_reset_leaves_the_parent_closed :
  exists fs, dbs (exec template_config demo_pinned [(0, fs, Command_ "/a" (opts_of ["reset"; "--yes"]))]) !! "template"
    = Some {| content := "seed"; open := false |}.
Proof. exists (repeat false 9 ++ [true; true]). vm_compute. reflexivity. Qed.
End DBBranchProofs.
