(* ===== verification/Globs.v ===== *)
(** * Shell patterns ([filepath.Match])

    [Globs] models [filepath.Match] as path/filepath has it on Unix: a pattern is
    cut into chunks at its stars, every chunk is matched against the name, and
    after a star the first place that fits is taken.  A bad pattern is [None].
    Both loops consume the pattern; the fuel is its length. *)
From stdpp Require Import base tactics list strings.
From Stdlib Require Import ZArith Lia Ascii.
From S2P Require Import Prelude GoStrings.

Module Globs.
Fixpoint trim_stars (p : string) : bool * string :=
  match p with
  | String "*" p' => (true, (trim_stars p').2)
  | _ => (false, p)
  end.

(** The chunk up to the next star outside of brackets, and the rest. *)
Fixpoint scan (inrange : bool) (p : string) : string * string :=
  match p with
  | EmptyString => ("", "")
  | String c p' =>
    if Ascii.eqb c "\" then
      match p' with
      | EmptyString => (String c "", "")
      | String d p'' => let '(a, b) := scan inrange p'' in (String c (String d a), b)
      end
    else if Ascii.eqb c "*" && negb inrange then ("", p)
    else
      let inrange := if Ascii.eqb c "[" then true else if Ascii.eqb c "]" then false else inrange in
      let '(a, b) := scan inrange p' in (String c a, b)
  end.

Definition scanChunk (p : string) : bool * string * string :=
  let '(star, p) := trim_stars p in
  let '(chunk, rest) := scan false p in (star, chunk, rest).

(** A rune of a character class, perhaps escaped. *)
Definition getEsc (chunk : string) : option (Z * string) :=
  match chunk with
  | EmptyString => None
  | String c rest =>
    if Ascii.eqb c "-" || Ascii.eqb c "]" then None
    else
      let body := if Ascii.eqb c "\" then rest else chunk in
      match body with
      | EmptyString => None
      | String d rest' =>
        let '(r, next) := Utf8.decode_rune d rest' in
        if (r =? Utf8.RuneError) && Nat.eqb (S (String.length next)) (String.length body) then None
        else if String.eqb next "" then None else Some (r, next)
      end
  end.

(** The ranges of a class up to its bracket; some range holds [r]. *)
Fixpoint match_ranges (fuel : nat) (r : Z) (first found : bool) (chunk : string) : option (bool * string) :=
  match fuel with
  | O => None
  | S fuel =>
    if Strings.HasPrefix chunk "]" && negb first then Some (found, Strings.TrimPrefix chunk "]")
    else match getEsc chunk with
    | None => None
    | Some (lo, chunk) =>
      if Strings.HasPrefix chunk "-" then
        match getEsc (Strings.TrimPrefix chunk "-") with
        | None => None
        | Some (hi, chunk) => match_ranges fuel r false (found || ((lo <=? r) && (r <=? hi))) chunk
        end
      else match_ranges fuel r false (found || (lo =? r)) chunk
    end
  end.

(** [s] is [None] once the match has failed: the chunk is only checked then. *)
Fixpoint match_chunk (fuel : nat) (chunk : string) (s : option string) : option (option string) :=
  match fuel with
  | O => None
  | S fuel =>
    match chunk with
    | EmptyString => Some s
    | String c chunk' =>
      let s := match s with Some EmptyString => None | _ => s end in
      let literal (d : ascii) (rest : string) :=
        match_chunk fuel rest (match s with Some (String a s') => if Ascii.eqb a d then Some s' else None | _ => None end) in
      if Ascii.eqb c "[" then
        let '(r, s) := match s with Some (String a s') => let '(r, t) := Utf8.decode_rune a s' in (r, Some t) | _ => (0, None) end in
        let '(chunk', negated) := Strings.CutPrefix chunk' "^" in
        match match_ranges (S (String.length chunk')) r true false chunk' with
        | None => None
        | Some (found, chunk'') => match_chunk fuel chunk'' (if Bool.eqb found negated then None else s)
        end
      else if Ascii.eqb c "?" then
        match_chunk fuel chunk' (match s with
          | Some (String a s') => if Ascii.eqb a "/" then None else Some (Utf8.decode_rune a s').2
          | _ => None
          end)
      else if Ascii.eqb c "\" then
        match chunk' with EmptyString => None | String d rest => literal d rest end
      else literal c chunk'
    end
  end.

Definition matchChunk (chunk s : string) : option (option string) := match_chunk (S (String.length chunk)) chunk (Some s).

(** After a star: the first place that fits, without passing a separator. *)
Fixpoint match_after (chunk : string) (last : bool) (name : string) : option (option string) :=
  match name with
  | EmptyString => Some None
  | String c name' =>
    if Ascii.eqb c "/" then Some None
    else match matchChunk chunk name' with
    | None => None
    | Some (Some t) => if last && negb (String.eqb t "") then match_after chunk last name' else Some (Some t)
    | Some None => match_after chunk last name'
    end
  end.

(** The rest of the pattern is checked before a mismatch is reported. *)
Fixpoint well_formed (fuel : nat) (pattern : string) : bool :=
  match fuel with
  | O => true
  | S fuel =>
    if String.eqb pattern "" then true
    else
      let '(_, chunk, rest) := scanChunk pattern in
      match matchChunk chunk "" with None => false | Some _ => well_formed fuel rest end
  end.

Fixpoint match_loop (fuel : nat) (pattern name : string) : option bool :=
  match fuel with
  | O => None
  | S fuel =>
    if String.eqb pattern "" then Some (String.eqb name "")
    else
      let '(star, chunk, rest) := scanChunk pattern in
      if star && String.eqb chunk "" then Some (negb (Strings.Contains name "/"))
      else
        let last := String.eqb rest "" in
        let no := if well_formed (String.length rest) rest then Some false else None in
        let after :=
          if star then
            match match_after chunk last name with
            | None => None
            | Some (Some t) => match_loop fuel rest t
            | Some None => no
            end
          else no in
        match matchChunk chunk name with
        | None => None
        | Some (Some t) => if String.eqb t "" || negb last then match_loop fuel rest t else after
        | Some None => after
        end
  end.

Definition Match (pattern name : string) : option bool := match_loop (S (String.length pattern)) pattern name.

Example match_star : Match "*.go" "main.go" = Some true /\ Match "*.go" "a/main.go" = Some false /\ Match "a/*/c" "a/b/c" = Some true
  /\ Match "*" "" = Some true.
Proof. split_and!; reflexivity. Qed.
Example match_class : Match "[a-c]x[^0-9]" "bxy" = Some true /\ Match "[a-c]x[^0-9]" "bx1" = Some false /\ Match "[]" "]" = None
  /\ Match "a[" "b" = None /\ Match "\*" "*" = Some true /\ Match "ab*cd*ef" "abXcdcdYef" = Some true.
Proof. split_and!; reflexivity. Qed.
End Globs.
