(* ===== verification/Tasks.v ===== *)
(** * Tasks ([cmd/scenery/task.go], [script.go])

    [Tasks] models the tasks of an application: those of the configuration, which
    run a shell command or a list of steps, and the code tasks, found as files.
    The world outside (files, processes, the other commands of the tool) is any
    type [W] with the operations of [TaskEnv]; what processes write goes to the
    terminal or to the buffers of a validation step.  [runConfiguredTask] follows
    the steps of tasks with the stack of active tasks; its fuel is one more than
    the number of configured tasks, which [TasksProofs] shows to be enough. *)
From stdpp Require Import base tactics list gmap strings.
From Stdlib Require Import ZArith Lia Ascii.
From S2P Require Import Prelude GoStrings Router EnvFile Paths AppConfig StateM.
Import StateM.

Module Tasks.
Definition taskKindConfigured : string := "configured".
Definition taskKindCode : string := "code".
Definition taskKindBuiltin : string := "builtin".
Definition scriptLangGo : string := "go".
Definition scriptLangTypeScript : string := "typescript".

(** ** Data *)
Record taskOptions := {
  Action : string; Target : string; AppRoot : string; Env : string; Lang : string; JSON : bool; Args : list string
}.
Record AppRef := { ar_Name : string; ar_ID : string; Root : string; ConfigPath : string }.
Record taskRecord := { tr_Name : string; tr_CWD : string; tr_Run : string; tr_Steps : list string; tr_EnvKeys : list string }.
Record taskListRecord := {
  l_Target : string; l_Kind : string; l_Source : string; l_Name : string; l_CWD : string; l_Run : string; l_Steps : list string;
  l_EnvKeys : list string; l_Language : string; l_Layout : string; l_ArgsAccepted : bool
}.
Record taskGraphNode := { n_Target : string; n_Kind : string; n_Source : string; n_Language : string; n_ArgsAccepted : bool }.
Record taskGraphEdge := { From : string; To : string; e_Kind : string }.
Record taskGraphResponse := { g_App : AppRef; g_Tasks : list taskRecord; Nodes : list taskGraphNode; Edges : list taskGraphEdge }.
Record taskListResponse := { tl_App : AppRef; tl_Tasks : list taskListRecord }.
Record taskInspectResponse := { ti_App : AppRef; ti_Task : taskListRecord; Searched : list string }.

Record scriptTarget := { Domain : string; Name : string }.
Record scriptCandidate := { c_Target : scriptTarget; c_Lang : string; Layout : string; Path : string }.
Record scriptOptions := {
  s_AppRoot : string; s_Env : string; s_EnvOverlay : gmap string string; s_Lang : string; s_Target : string; s_Args : list string
}.

(** A process the tool starts. *)
Record execRequest := { Dir : string; x_Env : list string; Program : string; x_Args : list string }.

(** An entry of a directory; a symbolic link is neither. *)
Record dirent := { d_Name : string; d_IsDir : bool; d_IsRegular : bool }.

(** The commands of the tool that steps name. *)
Inductive builtin := Check | Test | Generate | DBApply | DBSeed | DBSetup | Harness | HarnessUI.

(** Where a process writes: the terminal, or the buffers of a step. *)
Inductive sink := Terminal | Buffers.

Record world (W : Type) := { outside : W; stdout : string; stderr : string }.
Arguments outside {W}. Arguments stdout {W}. Arguments stderr {W}.

(** What something done outside returns: its result and what it wrote. *)
Definition effect (W : Type) : Type := W -> W * outcome string unit * (string * string).

Class TaskEnv (W : Type) := {
  windows : bool;                                       (** [runtime.GOOS] *)
  discover : string -> W -> outcome string (string * AppConfig.Config);   (** [discoverScriptApp] *)
  file_exists : string -> W -> bool;                    (** [os.Stat] succeeds *)
  is_dir : string -> W -> bool;
  read_dir : string -> W -> outcome string (list dirent);   (** sorted by name *)
  read_file : string -> W -> EnvFile.file;
  look_path : string -> W -> option string;
  environ : W -> list string;
  interrupted : W -> bool;                              (** a signal has come *)
  execute : execRequest -> effect W;
  command : builtin -> list string -> effect W
}.

(** ** Names of tasks *)
Fixpoint valid_segment (first : bool) (rs : list Z) : bool :=
  match rs with
  | [] => true
  | r :: rest =>
    (in_range 65 90 r || in_range 97 122 r || in_range 48 57 r || (r =? 95) || ((r =? 45) && negb first)) && valid_segment false rest
  end.

Definition validScriptSegment (value : string) : bool := negb (String.eqb value "") && valid_segment true (Utf8.runes value).

Definition count_byte (c : ascii) (s : string) : nat := (length (Strings.Split s c) - 1)%nat.

Definition parseScriptTarget (value : string) : outcome string scriptTarget :=
  let value := Strings.TrimSpace value in
  match Strings.Cut value ":" with
  | (domain, name, ok) =>
    if negb ok || Strings.Contains name ":" then Fail ("invalid code task target " +:+ value +:+ "; expected <domain>:<name>")
    else
      let target := {| Domain := Strings.TrimSpace domain; Name := Strings.TrimSpace name |} in
      if negb (validScriptSegment (Domain target)) || negb (validScriptSegment (Name target))
      then Fail ("invalid code task target " +:+ value)
      else Ret target
  end.

Definition scriptTargetString (t : scriptTarget) : string := Domain t +:+ ":" +:+ Name t.

Definition taskTargetKind (target : string) : outcome string string :=
  let target := Strings.TrimSpace target in
  if String.eqb target "" then Fail "missing task target"
  else if Strings.Contains target ":" then
    if negb (Nat.eqb (count_byte ":" target) 1) then Fail ("invalid code task target " +:+ target)
    else (_ ← parseScriptTarget target; Ret taskKindCode)
  else if negb (validScriptSegment target) then Fail ("invalid configured task target " +:+ target)
  else Ret taskKindConfigured.

Section unicode.
Context {UT : UnicodeTables}.
Definition normalizeScriptLang (value : string) : outcome string string :=
  let v := Strings.ToLower (Strings.TrimSpace value) in
  if String.eqb v "" || String.eqb v "all" then Ret ""
  else if String.eqb v "go" || String.eqb v "golang" then Ret scriptLangGo
  else if String.eqb v "typescript" || String.eqb v "ts" then Ret scriptLangTypeScript
  else Fail "--lang must be go or typescript".
End unicode.

(** ** The environment of a task *)
Definition sortedMapKeys (values : gmap string string) : list string := Router.sort_strings (map fst (map_to_list values)).

Definition cut_key (item : string) : option string :=
  match Strings.Cut item "=" with (key, _, true) => Some key | _ => None end.

(** The last entry of a key is the one replaced. *)
Definition last_index (key : string) (env : list string) : option nat :=
  (fun '(i, _) => (length env - S i)%nat) <$> list_find (fun item => cut_key item = Some key) (rev env).

Definition overlayEnv (base : list string) (values : gmap string string) : list string :=
  fold_left (fun env key =>
    let entry := key +:+ "=" +:+ default "" (values !! key) in
    match last_index key base with Some i => <[i := entry]> env | None => env ++ [entry] end) (sortedMapKeys values) base.

Definition envWithOverrides (base overrides : list string) : list string :=
  let keys := omap cut_key overrides in
  List.filter (fun item => match cut_key item with Some key => negb (existsb (String.eqb key) keys) | None => true end) base
  ++ overrides.

Definition shellInvocation (windows : bool) (command : string) : string * list string :=
  if windows then ("cmd", ["/C"; command]) else ("/bin/sh", ["-c"; command]).

Definition resolveLifecycleCWD (root cwd : string) : string :=
  if String.eqb (Strings.TrimSpace cwd) "" then root
  else if Filepath.IsAbs cwd then Filepath.Clean cwd
  else Filepath.Join [root; cwd].

(** ** Code tasks *)
Definition scriptCandidateSearch (target : scriptTarget) : list scriptCandidate :=
  let base := Filepath.Join [Domain target; "tasks"] in
  [{| c_Target := target; c_Lang := scriptLangGo; Layout := "go-file"; Path := Filepath.Join [base; Name target +:+ ".task.go"] |};
   {| c_Target := target; c_Lang := scriptLangTypeScript; Layout := "typescript-file"; Path := Filepath.Join [base; Name target +:+ ".task.ts"] |};
   {| c_Target := target; c_Lang := scriptLangGo; Layout := "go-dir"; Path := Filepath.Join [base; Name target; "main.go"] |};
   {| c_Target := target; c_Lang := scriptLangTypeScript; Layout := "typescript-dir"; Path := Filepath.Join [base; Name target; "index.ts"] |}].

Definition newline : string := String (chr 10) "".

Definition missingScriptError (target : scriptTarget) (searched : list scriptCandidate) (lang : string) : string :=
  Strings.TrimRightSet (Ascii.eqb (chr 10))
    ("code task " +:+ scriptTargetString target +:+ " not found" +:+ (if String.eqb lang "" then "" else " for language " +:+ lang)
     +:+ "; searched:" +:+ newline
     +:+ String.concat "" (map (fun c => "  " +:+ Path c +:+ newline)
           (List.filter (fun c => String.eqb lang "" || String.eqb (c_Lang c) lang) searched))).

Definition ambiguousScriptError (target : scriptTarget) (matches : list scriptCandidate) : string :=
  "code task " +:+ scriptTargetString target +:+ " is ambiguous:" +:+ newline
  +:+ String.concat "" (map (fun c => "  " +:+ Path c +:+ newline) matches)
  +:+ newline +:+ "Use --lang go or --lang typescript when language is ambiguous, or remove duplicate task layouts.".

Section env.
Context {UT : UnicodeTables} {SS : SliceSort} {W : Type} {TE : TaskEnv W}.

Definition M : Type -> Type := Run (world W).

(** What is read outside. *)
Definition look {A} (f : W -> A) : M A := gets (fun w => f (outside w)).

(** Something is done outside; what it writes goes to [to]. *)
Definition act (to : sink) (e : effect W) : M unit := fun w =>
  let '(o, r, (out, err)) := e (outside w) in
  (match to with
   | Terminal => {| outside := o; stdout := stdout w; stderr := stderr w |}
   | Buffers => {| outside := o; stdout := stdout w +:+ out; stderr := stderr w +:+ err |}
   end, r).

Definition error_text (e : EnvFile.error) : string := "invalid environment file".

Definition appEnvWithDotEnv (root : string) (names : list string) : M (list string) :=
  let names := match names with [] => [".env"] | _ => names end in
  base ← look environ;
  values ← look (fun o => EnvFile.MergeFiles (fun path => read_file path o) root names);
  match values with
  | Ret values => mret (EnvFile.AppendMissing base values)
  | Fail e => fail (error_text e)
  | Panic e => lift (Panic e)
  end.

Definition resolveScriptCandidate (root : string) (target : scriptTarget) (lang : string)
    : M (scriptCandidate * list scriptCandidate) :=
  let searched := scriptCandidateSearch target in
  matches ← look (fun o => List.filter (fun c =>
    negb (negb (String.eqb lang "") && negb (String.eqb (c_Lang c) lang)) && file_exists (Filepath.Join [root; Path c]) o) searched);
  match matches with
  | [] => fail (missingScriptError target searched lang)
  | [c] => mret (c, searched)
  | _ => fail (ambiguousScriptError target matches)
  end.

(** The code tasks a file or directory of a domain holds. *)
Definition entry_candidates (root domain : string) (o : W) (entry : dirent) : list scriptCandidate :=
  let name := d_Name entry in
  let file (suffix lang layout : string) :=
    let scriptName := Strings.TrimSuffix name suffix in
    if validScriptSegment scriptName
    then [{| c_Target := {| Domain := domain; Name := scriptName |}; c_Lang := lang; Layout := layout;
             Path := Filepath.Join [domain; "tasks"; name] |}] else [] in
  if d_IsRegular entry && Strings.HasSuffix name ".task.go" then file ".task.go" scriptLangGo "go-file"
  else if d_IsRegular entry && Strings.HasSuffix name ".task.ts" then file ".task.ts" scriptLangTypeScript "typescript-file"
  else if d_IsDir entry && validScriptSegment name then
    List.filter (fun c => file_exists (Filepath.Join [root; Path c]) o) (drop 2 (scriptCandidateSearch {| Domain := domain; Name := name |}))
  else [].

Definition listDomainScriptCandidates (root domain : string) : M (list scriptCandidate) :=
  entries ← look (read_dir (Filepath.Join [root; domain; "tasks"]));
  entries ← lift entries;
  look (fun o => List.concat (map (entry_candidates root domain o) entries)).

Fixpoint list_domains (root : string) (entries : list dirent) : M (list scriptCandidate) :=
  match entries with
  | [] => mret []
  | entry :: rest =>
    if negb (d_IsDir entry) || negb (validScriptSegment (d_Name entry)) then list_domains root rest
    else
      has_tasks ← look (is_dir (Filepath.Join [root; d_Name entry; "tasks"]));
      if negb has_tasks then list_domains root rest
      else
        candidates ← listDomainScriptCandidates root (d_Name entry);
        more ← list_domains root rest;
        mret (candidates ++ more)
  end.

Definition candidate_key (c : scriptCandidate) : string :=
  Domain (c_Target c) +:+ ":" +:+ Name (c_Target c) +:+ ":" +:+ c_Lang c +:+ ":" +:+ Layout c.

Definition listScriptCandidates (root : string) : M (list scriptCandidate) :=
  entries ← look (read_dir root);
  entries ← lift entries;
  out ← list_domains root entries;
  mret (slice_sort (fun a b => str_lt (candidate_key a) (candidate_key b)) out).

Definition typeScriptScriptCommand (path : string) : M (string * list string) :=
  bun ← look (look_path "bun");
  match bun with
  | Some bun => mret (bun, [path])
  | None =>
    node ← look (look_path "node");
    match node with
    | Some node => mret (node, ["--import"; "tsx"; path])
    | None => fail "scenery task run requires bun or node in PATH for TypeScript code tasks"
    end
  end.

Definition validateGoScriptBuildTag (path : string) : M unit :=
  data ← look (read_file path);
  match data with
  | EnvFile.Content data =>
    let '(first, _, _) := Strings.Cut data newline in
    if negb (String.eqb (Strings.TrimSpace (Strings.TrimPrefix first EnvFile.byte_order_mark)) "//go:build ignore")
    then fail ("single-file Go code task " +:+ path +:+ " must start with //go:build ignore") else mret tt
  | _ => fail "cannot read the code task"
  end.

(** A task that a signal interrupted counts as done. *)
Definition runScriptProcess (to : sink) (root : string) (cfg : AppConfig.Config) (program : string) (args : list string)
    (opts : scriptOptions) : M unit :=
  env ← appEnvWithDotEnv root [".env"; ".env.local"];
  let env := overlayEnv env (s_EnvOverlay opts) in
  let extra := ["SCENERY_APP_ID=" +:+ AppConfig.AppID cfg; "SCENERY_APP_ROOT=" +:+ root]
    ++ (if String.eqb (s_Env opts) "" then [] else ["SCENERY_ENV=" +:+ s_Env opts; "SCENERY_RUNTIME_ENV=" +:+ s_Env opts]) in
  r ← attempt (act to (execute {| Dir := root; x_Env := envWithOverrides env extra; Program := program; x_Args := args |}));
  stopped ← look interrupted;
  if negb stopped then
    match r with Ret _ => mret tt | Fail e => fail ("scenery task run exited: " +:+ e) | Panic e => lift (Panic e) end
  else mret tt.

Definition runGoScript (to : sink) (root : string) (cfg : AppConfig.Config) (c : scriptCandidate) (opts : scriptOptions) : M unit :=
  args ← (if String.eqb (Layout c) "go-file" then
            _ ← validateGoScriptBuildTag (Filepath.Join [root; Path c]);
            mret ["run"; "./" +:+ Path c]
          else if String.eqb (Layout c) "go-dir" then mret ["run"; "./" +:+ Paths.Dir (Path c)]
          else fail ("unsupported Go script layout " +:+ Layout c));
  runScriptProcess to root cfg "go" (args ++ s_Args opts) opts.

Definition runTypeScriptScript (to : sink) (root : string) (cfg : AppConfig.Config) (c : scriptCandidate) (opts : scriptOptions) : M unit :=
  '(program, args) ← typeScriptScriptCommand (Path c);
  runScriptProcess to root cfg program (args ++ s_Args opts) opts.

Definition runSceneryScript (to : sink) (opts : scriptOptions) : M unit :=
  found ← look (discover (s_AppRoot opts));
  '(root, cfg) ← lift found;
  target ← lift (parseScriptTarget (s_Target opts));
  '(c, _) ← resolveScriptCandidate root target (s_Lang opts);
  if String.eqb (c_Lang c) scriptLangGo then runGoScript to root cfg c opts
  else if String.eqb (c_Lang c) scriptLangTypeScript then runTypeScriptScript to root cfg c opts
  else fail ("unsupported script language " +:+ c_Lang c).

(** ** Configured tasks *)
Definition taskAppRef (appRoot : string) (cfg : AppConfig.Config) : AppRef :=
  {| ar_Name := AppConfig.Name cfg; ar_ID := AppConfig.ID cfg; Root := appRoot; ConfigPath := Filepath.Join [appRoot; ".scenery.json"] |}.

Definition configuredTaskListRecord (name : string) (task : AppConfig.TaskConfig) : taskListRecord :=
  {| l_Target := name; l_Kind := taskKindConfigured; l_Source := ".scenery.json"; l_Name := name; l_CWD := AppConfig.tk_CWD task;
     l_Run := AppConfig.tk_Run task; l_Steps := AppConfig.tk_Steps task; l_EnvKeys := sortedMapKeys (AppConfig.tk_Env task);
     l_Language := ""; l_Layout := ""; l_ArgsAccepted := false |}.

Definition codeTaskListRecord (c : scriptCandidate) : taskListRecord :=
  {| l_Target := scriptTargetString (c_Target c); l_Kind := taskKindCode; l_Source := Path c; l_Name := Name (c_Target c); l_CWD := "";
     l_Run := ""; l_Steps := []; l_EnvKeys := []; l_Language := c_Lang c; l_Layout := Layout c; l_ArgsAccepted := true |}.

(** The configured tasks, by name. *)
Definition sorted_tasks (cfg : AppConfig.Config) : list (string * AppConfig.TaskConfig) :=
  omap (fun name => (name,.) <$> AppConfig.Tasks cfg !! name) (Router.sort_strings (map fst (map_to_list (AppConfig.Tasks cfg)))).

Definition validateConfiguredTaskNames (cfg : AppConfig.Config) : outcome string unit :=
  match List.find (fun name => Strings.Contains name ":") (map fst (map_to_list (AppConfig.Tasks cfg))) with
  | Some name => Fail ("configured task " +:+ name +:+ " is invalid: configured task names cannot contain ':'")
  | None => Ret tt
  end.

Definition buildTaskList (appRoot : string) (cfg : AppConfig.Config) : M taskListResponse :=
  codeTasks ← listScriptCandidates appRoot;
  mret {| tl_App := taskAppRef appRoot cfg;
          tl_Tasks := map (fun '(name, task) => configuredTaskListRecord name task) (sorted_tasks cfg) ++ map codeTaskListRecord codeTasks |}.

Definition buildTaskInspect (appRoot : string) (cfg : AppConfig.Config) (opts : taskOptions) : M taskInspectResponse :=
  kind ← lift (taskTargetKind (Target opts));
  if String.eqb kind taskKindConfigured then
    match AppConfig.Tasks cfg !! Target opts with
    | None => fail ("configured task " +:+ Target opts +:+ " is not configured")
    | Some task => mret {| ti_App := taskAppRef appRoot cfg; ti_Task := configuredTaskListRecord (Target opts) task; Searched := [] |}
    end
  else
    target ← lift (parseScriptTarget (Target opts));
    '(c, searched) ← resolveScriptCandidate appRoot target (Lang opts);
    mret {| ti_App := taskAppRef appRoot cfg; ti_Task := codeTaskListRecord c; Searched := map Path searched |}.

(** Nodes are added once per kind and target. *)
Definition addNode (nodes : list taskGraphNode) (node : taskGraphNode) : list taskGraphNode :=
  if String.eqb (n_Target node) "" || existsb (fun n => String.eqb (n_Kind n) (n_Kind node) && String.eqb (n_Target n) (n_Target node)) nodes
  then nodes else nodes ++ [node].

Definition graph_step (name : string) (g : list taskGraphNode * list taskGraphEdge) (step : string)
    : list taskGraphNode * list taskGraphEdge :=
  let step := Strings.TrimSpace step in
  if String.eqb step "" then g
  else if Strings.HasPrefix step "task:" then
    let target := Strings.TrimSpace (Strings.TrimPrefix step "task:") in
    if String.eqb target "" then g
    else
      let kind := match taskTargetKind target with Ret kind => kind | _ => "invalid" end in
      (addNode g.1 {| n_Target := target; n_Kind := kind; n_Source := ""; n_Language := ""; n_ArgsAccepted := String.eqb kind taskKindCode |},
       g.2 ++ [{| From := name; To := target; e_Kind := "task" |}])
  else
    (addNode g.1 {| n_Target := step; n_Kind := taskKindBuiltin; n_Source := "scenery"; n_Language := ""; n_ArgsAccepted := false |},
     g.2 ++ [{| From := name; To := step; e_Kind := taskKindBuiltin |}]).

Definition graph_task (g : list taskGraphNode * list taskGraphEdge) (t : string * AppConfig.TaskConfig)
    : list taskGraphNode * list taskGraphEdge :=
  let '(name, task) := t in
  fold_left (graph_step name) (AppConfig.tk_Steps task)
    (addNode g.1 {| n_Target := name; n_Kind := taskKindConfigured; n_Source := ".scenery.json"; n_Language := ""; n_ArgsAccepted := false |}, g.2).

Definition buildTaskGraph (appRoot : string) (cfg : AppConfig.Config) : M taskGraphResponse :=
  let tasks := sorted_tasks cfg in
  let '(nodes, edges) := fold_left graph_task tasks ([], []) in
  codeTasks ← listScriptCandidates appRoot;
  let nodes := fold_left (fun nodes c => addNode nodes {| n_Target := scriptTargetString (c_Target c); n_Kind := taskKindCode;
    n_Source := Path c; n_Language := c_Lang c; n_ArgsAccepted := true |}) codeTasks nodes in
  mret {| g_App := taskAppRef appRoot cfg;
          g_Tasks := map (fun '(name, task) => {| tr_Name := name; tr_CWD := AppConfig.tk_CWD task; tr_Run := AppConfig.tk_Run task;
                            tr_Steps := AppConfig.tk_Steps task; tr_EnvKeys := sortedMapKeys (AppConfig.tk_Env task) |}) tasks;
          Nodes := nodes; Edges := edges |}.

Definition runTaskShellCommand (appRoot : string) (task : AppConfig.TaskConfig) : M unit :=
  env ← appEnvWithDotEnv appRoot [];
  let '(program, args) := shellInvocation windows (AppConfig.tk_Run task) in
  act Terminal (execute {| Dir := resolveLifecycleCWD appRoot (AppConfig.tk_CWD task); x_Env := overlayEnv env (AppConfig.tk_Env task);
                           Program := program; x_Args := args |}).

Definition no_script (appRoot target : string) : scriptOptions :=
  {| s_AppRoot := appRoot; s_Env := ""; s_EnvOverlay := ∅; s_Lang := ""; s_Target := target; s_Args := [] |}.

(** A step that is not a configured task. *)
Definition runBuiltinStep (appRoot step : string) : M unit :=
  let root := ["--app-root"; appRoot] in
  if String.eqb step "check" then act Terminal (command Check root)
  else if String.eqb step "test" then act Terminal (command Test root)
  else if String.eqb step "test:go" then act Terminal (command Test root)
  else if String.eqb step "generate" then act Terminal (command Generate root)
  else if String.eqb step "generate:client" then act Terminal (command Generate ("client" :: root))
  else if String.eqb step "generate:sqlc" then act Terminal (command Generate ("sqlc" :: root))
  else if String.eqb step "db:apply" then act Terminal (command DBApply root)
  else if String.eqb step "db:seed" then act Terminal (command DBSeed root)
  else if String.eqb step "db:setup" then act Terminal (command DBSetup root)
  else fail ("unknown task step " +:+ step).

(** [rec] runs a configured task on the stack of the step. *)
Definition runTaskStep (rec : string -> M unit) (appRoot : string) (cfg : AppConfig.Config) (step : string) : M unit :=
  let step := Strings.TrimSpace step in
  if Strings.HasPrefix step "task:" then
    let target := Strings.TrimSpace (Strings.TrimPrefix step "task:") in
    if String.eqb target "" then fail ("task step " +:+ step +:+ " is missing a task target")
    else
      kind ← lift (taskTargetKind target);
      if String.eqb kind taskKindConfigured then rec target
      else runSceneryScript Terminal (no_script appRoot target)
  else runBuiltinStep appRoot step.

Fixpoint all_steps {A} (f : A -> M unit) (steps : list A) : M unit :=
  match steps with
  | [] => mret tt
  | step :: rest => _ ← f step; all_steps f rest
  end.

Definition cycle_error (stack : list string) (name : string) : string :=
  "task cycle detected: " +:+ Strings.Join stack " -> " +:+ " -> " +:+ name.

Definition out_of_fuel : string := "out of fuel".

Fixpoint run_task (fuel : nat) (appRoot : string) (cfg : AppConfig.Config) (name : string) (stack : list string) : M unit :=
  match fuel with
  | O => lift (Panic out_of_fuel)
  | S fuel =>
    match AppConfig.Tasks cfg !! name with
    | None => fail ("task " +:+ name +:+ " is not configured")
    | Some task =>
      if existsb (String.eqb name) stack then fail (cycle_error stack name)
      else
        let runs := negb (String.eqb (Strings.TrimSpace (AppConfig.tk_Run task)) "") in
        if runs && negb (bool_decide (AppConfig.tk_Steps task = [])) then fail ("task " +:+ name +:+ " cannot define both run and steps")
        else if runs then runTaskShellCommand appRoot task
        else if bool_decide (AppConfig.tk_Steps task = []) then fail ("task " +:+ name +:+ " has no run command or steps")
        else all_steps (runTaskStep (fun target => run_task fuel appRoot cfg target (stack ++ [name])) appRoot cfg) (AppConfig.tk_Steps task)
    end
  end.

Definition runConfiguredTask (appRoot : string) (cfg : AppConfig.Config) (name : string) : M unit :=
  run_task (S (size (AppConfig.Tasks cfg))) appRoot cfg name [].

Definition runTaskTarget (appRoot : string) (cfg : AppConfig.Config) (opts : taskOptions) : M unit :=
  kind ← lift (taskTargetKind (Target opts));
  if String.eqb kind taskKindConfigured then
    if negb (String.eqb (Env opts) "") then fail "--env is only supported for code tasks"
    else if negb (String.eqb (Lang opts) "") then fail "--lang is only supported for code tasks"
    else if negb (bool_decide (Args opts = [])) then fail ("configured task " +:+ Target opts +:+ " does not accept arguments")
    else runConfiguredTask appRoot cfg (Target opts)
  else runSceneryScript Terminal {| s_AppRoot := appRoot; s_Env := Env opts; s_EnvOverlay := ∅; s_Lang := Lang opts; s_Target := Target opts;
                                    s_Args := Args opts |}.

(** ** The command line *)
Definition with_target (o : taskOptions) (v : string) : taskOptions :=
  {| Action := Action o; Target := v; AppRoot := AppRoot o; Env := Env o; Lang := Lang o; JSON := JSON o; Args := Args o |}.
Definition with_root (o : taskOptions) (v : string) : taskOptions :=
  {| Action := Action o; Target := Target o; AppRoot := v; Env := Env o; Lang := Lang o; JSON := JSON o; Args := Args o |}.
Definition with_env (o : taskOptions) (v : string) : taskOptions :=
  {| Action := Action o; Target := Target o; AppRoot := AppRoot o; Env := v; Lang := Lang o; JSON := JSON o; Args := Args o |}.
Definition with_lang (o : taskOptions) (v : string) : taskOptions :=
  {| Action := Action o; Target := Target o; AppRoot := AppRoot o; Env := Env o; Lang := v; JSON := JSON o; Args := Args o |}.
Definition with_json (o : taskOptions) : taskOptions :=
  {| Action := Action o; Target := Target o; AppRoot := AppRoot o; Env := Env o; Lang := Lang o; JSON := true; Args := Args o |}.
Definition with_args (o : taskOptions) (v : list string) : taskOptions :=
  {| Action := Action o; Target := Target o; AppRoot := AppRoot o; Env := Env o; Lang := Lang o; JSON := JSON o; Args := v |}.

Definition runs_or_inspects (o : taskOptions) : bool := String.eqb (Action o) "run" || String.eqb (Action o) "inspect".

Definition set_env (o : taskOptions) (v : string) : outcome string taskOptions :=
  let env := Strings.TrimSpace v in
  if String.eqb env "" then Fail "--env must not be empty" else Ret (with_env o env).

Definition set_lang (o : taskOptions) (v : string) : outcome string taskOptions :=
  lang ← normalizeScriptLang v; Ret (with_lang o lang).

Fixpoint parse_task_args (o : taskOptions) (args : list string) : outcome string taskOptions :=
  match args with
  | [] => Ret o
  | arg :: rest =>
    if String.eqb arg "--" then
      if negb (String.eqb (Action o) "run") then Fail "-- is only supported for task run" else Ret (with_args o rest)
    else if String.eqb arg "--app-root" then
      match rest with
      | [] => Fail "missing value for --app-root"
      | v :: rest' => parse_task_args (with_root o v) rest'
      end
    else if Strings.HasPrefix arg "--app-root=" then parse_task_args (with_root o (Strings.TrimPrefix arg "--app-root=")) rest
    else if String.eqb arg "--env" then
      if negb (String.eqb (Action o) "run") then Fail "--env is only supported for task run"
      else match rest with
      | [] => Fail "missing value for --env"
      | v :: rest' => o' ← set_env o v; parse_task_args o' rest'
      end
    else if Strings.HasPrefix arg "--env=" then
      if negb (String.eqb (Action o) "run") then Fail "--env is only supported for task run"
      else (o' ← set_env o (Strings.TrimPrefix arg "--env="); parse_task_args o' rest)
    else if String.eqb arg "--lang" then
      if negb (runs_or_inspects o) then Fail "--lang is only supported for task inspect and task run"
      else match rest with
      | [] => Fail "missing value for --lang"
      | v :: rest' => o' ← set_lang o v; parse_task_args o' rest'
      end
    else if Strings.HasPrefix arg "--lang=" then
      if negb (runs_or_inspects o) then Fail "--lang is only supported for task inspect and task run"
      else (o' ← set_lang o (Strings.TrimPrefix arg "--lang="); parse_task_args o' rest)
    else if String.eqb arg "--json" then parse_task_args (with_json o) rest
    else if Strings.HasPrefix arg "-" then Fail ("unknown flag " +:+ arg)
    else if negb (runs_or_inspects o) then Fail ("unexpected argument " +:+ arg)
    else if negb (String.eqb (Target o) "") then Fail ("unexpected argument " +:+ arg)
    else parse_task_args (with_target o arg) rest
  end.

Definition parseTaskArgs (args : list string) : outcome string taskOptions :=
  match args with
  | [] => Fail "usage: scenery task list|inspect|run|graph [--app-root <path>] [--json]"
  | action :: rest =>
    o ← parse_task_args {| Action := action; Target := ""; AppRoot := ""; Env := ""; Lang := ""; JSON := false; Args := [] |} rest;
    if String.eqb (Action o) "list" || String.eqb (Action o) "graph" then
      if negb (String.eqb (Target o) "") then Fail ("unexpected task target " +:+ Target o) else Ret o
    else if runs_or_inspects o then
      if String.eqb (Target o) "" then Fail "missing task target" else (_ ← taskTargetKind (Target o); Ret o)
    else Fail ("unknown task command " +:+ Action o)
  end.

(** What the command prints. *)
Inductive taskOutput :=
  | ListOutput (l : taskListResponse) | InspectOutput (i : taskInspectResponse) | GraphOutput (g : taskGraphResponse) | NoOutput.

Definition runTaskCommand (args : list string) : M taskOutput :=
  opts ← lift (parseTaskArgs args);
  found ← look (discover (AppRoot opts));
  '(appRoot, cfg) ← lift found;
  _ ← lift (validateConfiguredTaskNames cfg);
  if String.eqb (Action opts) "list" then (l ← buildTaskList appRoot cfg; mret (ListOutput l))
  else if String.eqb (Action opts) "inspect" then (i ← buildTaskInspect appRoot cfg opts; mret (InspectOutput i))
  else if String.eqb (Action opts) "graph" then
    if negb (JSON opts) then fail "scenery task graph requires --json" else (g ← buildTaskGraph appRoot cfg; mret (GraphOutput g))
  else if String.eqb (Action opts) "run" then (_ ← runTaskTarget appRoot cfg opts; mret NoOutput)
  else fail ("unknown task command " +:+ Action opts).
End env.
End Tasks.
