(* ===== verification/TasksProofs.v ===== *)
(** * Tasks: the run of a task, with and without the stack

    [TasksProofs] relates the run of a configured task, which follows the stack
    of active tasks to refuse cycles, to the plain reading of the configuration:
    run the shell command, or the steps one after the other ([naive], which gives
    up at a depth).  A task succeeds exactly when the plain reading does, so
    the refusal of cycles never refuses a task that can be run; and the fuel of
    the model does not matter ([runConfiguredTask_spec]). *)
From stdpp Require Import base tactics list gmap strings relations.
From Stdlib Require Import ZArith Lia Ascii.
From S2P Require Import Prelude GoStrings Router EnvFile Paths AppConfig StateM Tasks.
Import StateM Tasks.

Module TasksProofs.

(** A list of distinct keys of a map is not longer than the map. *)
Lemma NoDup_dom_length {A} (m : gmap string A) (l : list string) :
  NoDup l -> (forall x, x ∈ l -> is_Some (m !! x)) -> (length l <= size m)%nat.
Proof.
  intros Hnd Hl. rewrite <- size_dom, <- (size_list_to_set (C := gset string) l Hnd). apply subseteq_size.
  intros x Hx. apply elem_of_list_to_set in Hx. apply elem_of_dom. by apply Hl.
Qed.

Section runs.
Context {UT : UnicodeTables} {SS : SliceSort} {W : Type} {TE : TaskEnv W} (root : string) (cfg : AppConfig.Config).
Abbreviation M := (Run (world W)).

(** ** The plain reading *)

(** The configured task a step runs. *)
Definition step_target (step : string) : option string :=
  let step := Strings.TrimSpace step in
  if Strings.HasPrefix step "task:" then
    let target := Strings.TrimSpace (Strings.TrimPrefix step "task:") in
    match taskTargetKind target with
    | Ret kind => if String.eqb kind taskKindConfigured then Some target else None
    | _ => None
    end
  else None.

Fixpoint naive (depth : nat) (name : string) : M unit :=
  match depth with
  | O => lift (Panic out_of_fuel)
  | S depth =>
    match AppConfig.Tasks cfg !! name with
    | None => fail ("task " +:+ name +:+ " is not configured")
    | Some task =>
      let runs := negb (String.eqb (Strings.TrimSpace (AppConfig.tk_Run task)) "") in
      if runs && negb (bool_decide (AppConfig.tk_Steps task = [])) then fail ("task " +:+ name +:+ " cannot define both run and steps")
      else if runs then runTaskShellCommand root task
      else if bool_decide (AppConfig.tk_Steps task = []) then fail ("task " +:+ name +:+ " has no run command or steps")
      else all_steps (runTaskStep (naive depth) root cfg) (AppConfig.tk_Steps task)
    end
  end.

(** [edge t u]: [t] consists of steps, one of which runs [u]. *)
Definition edge (t u : string) : Prop :=
  exists task, AppConfig.Tasks cfg !! t = Some task /\ Strings.TrimSpace (AppConfig.tk_Run task) = ""
    /\ Exists (fun step => step_target step = Some u) (AppConfig.tk_Steps task).

(** A step runs its target, if it has one, and else does not use [rec]. *)
Lemma runTaskStep_target rec step :
  runTaskStep rec root cfg step = match step_target step with Some t => rec t | None => runTaskStep (fun _ => fail "") root cfg step end.
Proof.
  unfold runTaskStep, step_target. cbv zeta. destruct (Strings.HasPrefix _ "task:"); [|done].
  destruct (String.eqb _ "") eqn:E.
  - apply String.eqb_eq in E. rewrite E. done.
  - destruct (taskTargetKind _) as [kind|e|e]; unfold lift, mbind, Run_bind; [|done..].
    by destruct (String.eqb kind taskKindConfigured).
Qed.

Lemma runTaskStep_mono rec rec' step :
  (forall t w w', step_target step = Some t -> rec t w = (w', Ret tt) -> rec' t w = (w', Ret tt)) ->
  forall w w', runTaskStep rec root cfg step w = (w', Ret tt) -> runTaskStep rec' root cfg step w = (w', Ret tt).
Proof.
  intros H w w'. rewrite (runTaskStep_target rec), (runTaskStep_target rec'). destruct (step_target step) as [t|]; [by apply H|done].
Qed.

Lemma runTaskStep_ext rec rec' step : (forall t w, step_target step = Some t -> rec t w = rec' t w) ->
  forall w, runTaskStep rec root cfg step w = runTaskStep rec' root cfg step w.
Proof.
  intros H w. rewrite (runTaskStep_target rec), (runTaskStep_target rec'). destruct (step_target step) as [t|]; [by apply H|done].
Qed.

Lemma all_steps_ext {A} (f g : A -> M unit) steps : Forall (fun s => forall w, f s w = g s w) steps ->
  forall w, all_steps f steps w = all_steps g steps w.
Proof.
  induction 1 as [|s steps Hs _ IH]; intros w; [done|]. cbn [all_steps]. unfold mbind, Run_bind. rewrite Hs.
  destruct (g s w) as [w1 [x|e|e]]; [apply IH|done..].
Qed.

(** When the steps succeed with [f], and [g] succeeds wherever [f] does, they
    succeed with [g]. *)
Lemma all_steps_mono {A} (f g : A -> M unit) steps : Forall (fun s => forall w w', f s w = (w', Ret tt) -> g s w = (w', Ret tt)) steps ->
  forall w w', all_steps f steps w = (w', Ret tt) -> all_steps g steps w = (w', Ret tt).
Proof.
  induction 1 as [|s steps Hs _ IH]; intros w w'; [done|]. cbn [all_steps]. intros H.
  apply bind_returns in H as (w1 & [] & H1 & H). rewrite (bind_run _ _ _ _ _ (Hs _ _ H1)). by apply IH.
Qed.

Lemma all_steps_each {A} (f : A -> M unit) steps w w' s : all_steps f steps w = (w', Ret tt) -> s ∈ steps ->
  exists w1 w2, f s w1 = (w2, Ret tt).
Proof.
  intros H Hs. revert w H. induction Hs as [s steps|s s' steps _ IH]; intros w H; cbn [all_steps] in H;
    apply bind_returns in H as (w1 & [] & H1 & H); eauto.
Qed.

(** ** Tasks that can be run have no cycles *)
Definition succeeds (d : nat) (t : string) : Prop := exists w w', naive d t w = (w', Ret tt).

Lemma succeeds_edge d t u : succeeds d t -> edge t u -> exists d', d = S d' /\ succeeds d' u.
Proof.
  intros (w & w' & H) (task & Ht & Hrun & Hex). destruct d as [|d]; [done|]. exists d. split; [done|]. cbn [naive] in H.
  rewrite Ht, Hrun in H. cbn [String.eqb negb andb] in H. apply Exists_exists in Hex as (step & Hin & Hst).
  case_bool_decide as Hnil; [done|]. destruct (all_steps_each _ _ _ _ _ H Hin) as (w1 & w2 & H1).
  rewrite runTaskStep_target, Hst in H1. by exists w1, w2.
Qed.

Lemma succeeds_tc d t u : succeeds d t -> tc edge t u -> exists d', (d' < d)%nat /\ succeeds d' u.
Proof.
  intros Hd Htc. revert d Hd. induction Htc as [t u He|t v u He _ IH]; intros d Hd.
  - destruct (succeeds_edge _ _ _ Hd He) as (d' & -> & ?). exists d'. split; [lia|done].
  - destruct (succeeds_edge _ _ _ Hd He) as (d' & -> & Hv). destruct (IH d' Hv) as (d'' & ? & ?). exists d''. split; [lia|done].
Qed.

Lemma succeeds_acyclic d : forall t, succeeds d t -> ~ tc edge t t.
Proof.
  induction d as [d IH] using lt_wf_ind. intros t Hd Htc. destruct (succeeds_tc _ _ _ Hd Htc) as (d' & Hlt & Hd'). by apply (IH d' Hlt t).
Qed.

(** ** With the stack *)

(** The stack holds distinct configured tasks, and the fuel reaches past all. *)
Definition stack_ok (fuel : nat) (stack : list string) : Prop :=
  NoDup stack /\ (forall x, x ∈ stack -> is_Some (AppConfig.Tasks cfg !! x)) /\ (size (AppConfig.Tasks cfg) < fuel + length stack)%nat.

Lemma stack_ok_fuel stack : ~ stack_ok 0 stack.
Proof. intros (Hnd & Hin & Hlt). pose proof (NoDup_dom_length _ _ Hnd Hin). lia. Qed.

Lemma stack_ok_push fuel stack name task : stack_ok (S fuel) stack -> AppConfig.Tasks cfg !! name = Some task -> (name ∉ stack) ->
  stack_ok fuel (stack ++ [name]).
Proof.
  intros (Hnd & Hin & Hlt) Ht Hn. split_and!.
  - apply NoDup_app. split_and!; [done| |apply NoDup_singleton]. by intros x Hx ->%list_elem_of_singleton.
  - intros x [Hx| ->%list_elem_of_singleton]%elem_of_app; [by apply Hin|by exists task].
  - rewrite length_app. cbn. lia.
Qed.

Lemma stack_mem name stack : existsb (String.eqb name) stack = bool_decide (name ∈ stack).
Proof.
  apply Bool.eq_true_iff_eq. rewrite existsb_exists, bool_decide_eq_true, list_elem_of_In. split.
  - by intros (x & Hx & ->%String.eqb_eq).
  - intros Hx. exists name. split; [done|apply String.eqb_refl].
Qed.

(** More fuel changes nothing. *)
Lemma run_task_fuel fuel : forall name stack w, stack_ok fuel stack -> run_task fuel root cfg name stack w = run_task (S fuel) root cfg name stack w.
Proof.
  induction fuel as [|fuel IH]; intros name stack w Hok; [by apply stack_ok_fuel in Hok|].
  cbn [run_task]. destruct (AppConfig.Tasks cfg !! name) as [task|] eqn:Ht; [|done]. rewrite stack_mem.
  case_bool_decide as Hn; [done|]. repeat (case_match; [done|]). apply all_steps_ext, Forall_forall. intros step _.
  apply runTaskStep_ext. intros t w1 _. apply IH. by eapply stack_ok_push.
Qed.

Lemma run_task_more fuel more : forall name stack w, stack_ok fuel stack -> run_task (fuel + more) root cfg name stack w = run_task fuel root cfg name stack w.
Proof.
  induction more as [|more IH]; intros name stack w Hok; [by rewrite Nat.add_0_r|]. rewrite <- IH by done.
  rewrite Nat.add_succ_r, <- run_task_fuel; [done|]. destruct Hok as (? & ? & ?). split_and!; [done..|lia].
Qed.

Lemma run_task_naive fuel : forall name stack w w', run_task fuel root cfg name stack w = (w', Ret tt) -> naive fuel name w = (w', Ret tt).
Proof.
  induction fuel as [|fuel IH]; intros name stack w w'; [done|]. cbn [run_task naive].
  destruct (AppConfig.Tasks cfg !! name) as [task|]; [|done]. destruct (existsb _ stack); [done|]. repeat (case_match; [done|]).
  apply all_steps_mono, Forall_forall. intros step _. apply runTaskStep_mono. intros t w1 w1' _. apply IH.
Qed.

Lemma naive_run_task d : forall fuel name stack w w', naive d name w = (w', Ret tt) -> stack_ok fuel stack ->
  (forall x, x ∈ stack -> tc edge x name) -> run_task fuel root cfg name stack w = (w', Ret tt).
Proof.
  induction d as [|d IH]; intros fuel name stack w w' H Hok Hpath; [done|].
  assert (Hn : (name ∉ stack)). { intros Hin. apply (succeeds_acyclic (S d) name); [by exists w, w'|by apply Hpath]. }
  destruct fuel as [|fuel]; [by apply stack_ok_fuel in Hok|]. cbn [naive run_task] in *.
  destruct (AppConfig.Tasks cfg !! name) as [task|] eqn:Ht; [|done]. rewrite stack_mem, bool_decide_false by done.
  destruct (String.eqb (Strings.TrimSpace (AppConfig.tk_Run task)) "") eqn:Hrun; cbn [negb andb] in *; [|done].
  case_bool_decide; [done|]. revert H. apply all_steps_mono, Forall_forall. intros step Hstep.
  apply runTaskStep_mono. intros t w1 w1' Et H1.
  assert (He : edge name t).
  { exists task. split_and!; [done|by apply String.eqb_eq|]. apply Exists_exists. by exists step. }
  eapply IH; [exact H1|by eapply stack_ok_push|]. intros x [Hx| ->%list_elem_of_singleton]%elem_of_app; [|by apply tc_once].
  by eapply tc_r; [apply Hpath|].
Qed.

Lemma start_ok : stack_ok (S (size (AppConfig.Tasks cfg))) [].
Proof. split_and!; [constructor|by intros x ?%not_elem_of_nil|cbn; lia]. Qed.

(** C30. A configured task succeeds, with a final state, exactly when running its
    command or its steps one after the other does, whatever the nesting; cycles
    are refused and nothing else is, and the number of configured tasks bounds
    the depth: more fuel gives the same run. *)
Theorem runConfiguredTask_spec name w :
  (forall w', runConfiguredTask root cfg name w = (w', Ret tt) <-> exists depth, naive depth name w = (w', Ret tt))
  /\ (forall more, run_task (S (size (AppConfig.Tasks cfg)) + more) root cfg name [] w = runConfiguredTask root cfg name w).
Proof.
  split.
  - intros w'. split.
    + intros H. eexists. by eapply run_task_naive.
    + intros [d H]. eapply naive_run_task; [exact H|apply start_ok|by intros x ?%not_elem_of_nil].
  - intros more. apply run_task_more, start_ok.
Qed.
End runs.
End TasksProofs.
