(* ===== verification/Validate.v ===== *)
(** * Validation ([cmd/scenery/validate.go])

    [Validate] models the validation profiles of an application: the checks of
    their configuration, the graph of profiles and its cycles, the plan of the
    steps to run, the choice of profiles for changed files, and the run of a plan
    with its evidence.  It builds on [Tasks]; [ValidateEnv] adds the clock, git
    and the writing of files to what [TaskEnv] does outside.  The walks over
    profiles that name profiles carry fuel, one more than the number of profiles
    or of tasks; [ValidateProofs] shows that it is enough. *)
From stdpp Require Import base tactics list gmap strings.
From Stdlib Require Import ZArith Lia Ascii.
From S2P Require Import Prelude GoStrings Router Paths AppConfig StateM Globs Tasks DBBranch.
Import StateM.

Module Validate.
Import Tasks.
Definition firstNonEmpty := DBBranch.firstNonEmpty.

(** ** Data *)
Record validateOptions := {
  v_Action : string; Profile : string; v_AppRoot : string; v_JSON : bool; Write_ : bool; DryRun : bool; Base : string
}.
Record checkDiagnostic := { Stage : string; Severity : string; File : string; Message : string; SuggestedAction : string }.
Record validationProfileRecord := {
  p_Name : string; p_Description : string; p_Cost : string; p_Paths : list string; p_Steps : list string; p_EnvKeys : list string;
  p_Artifacts : list string; p_Default : bool; p_StepCount : nat
}.
Record validationListResponse := {
  vl_App : AppRef; vl_Default : string; vl_Profiles : list validationProfileRecord; vl_Diagnostics : list checkDiagnostic
}.
Record validationProfileMatch := { m_Profile : string; MatchedPaths : list string; MatchedFiles : list string }.
Record validationSelection := {
  sel_Mode : string; Requested : list string; sel_Base : string; ChangedFiles : list string; MatchedProfiles : list validationProfileMatch;
  ResolvedProfiles : list string
}.
Record validationPlanStep := {
  st_ID : string; st_Name : string; st_Kind : string; st_Profile : string; st_Command : list string; st_CWD : string;
  st_Artifact : list string; st_Env : gmap string string
}.
Record validationInspectResponse := {
  vi_App : AppRef; vi_Profile : validationProfileRecord; Resolved : list validationPlanStep; vi_Tasks : list taskListRecord;
  vi_Diagnostics : list checkDiagnostic; vi_Source : string
}.
Record validationGraphNode := { vn_ID : string; vn_Name : string; vn_Kind : string; vn_Source : string }.
Record validationGraphEdge := { ve_From : string; ve_To : string; ve_Kind : string }.
Record validationGraphResponse := {
  vg_App : AppRef; vg_Profile : string; vg_Nodes : list validationGraphNode; vg_Edges : list validationGraphEdge;
  vg_Diagnostics : list checkDiagnostic
}.
Record validationResolvedPlan := {
  pl_App : AppRef; pl_Profile : string; pl_Selection : validationSelection; pl_Profiles : list string; pl_Steps : list validationPlanStep;
  pl_Diagnostics : list checkDiagnostic
}.
Record harnessEvidenceArtifact := { a_Name : string; a_Path : string }.
Record harnessEvidence := {
  h_Command : list string; h_CWD : string; StartedAt : string; h_DurationMS : Z; ExitCode : Z; StdoutTail : string; StderrTail : string;
  h_Artifacts : list harnessEvidenceArtifact; ReproCommand : string
}.
Record validationResultStep := {
  rs_ID : string; rs_Name : string; rs_Kind : string; rs_Profile : string; OK : bool; DurationMS : Z; Evidence : harnessEvidence; Error : string
}.
Record validationArtifact := { va_Path : string; va_Kind : string }.
Record validationResultResponse := {
  r_OK : bool; GeneratedAt : string; r_App : AppRef; r_Profile : string; r_Selection : validationSelection; r_Steps : list validationResultStep;
  r_Artifacts : list validationArtifact; r_Diagnostics : list checkDiagnostic; NextActions : list string; Wrote : string
}.
Record validationArtifactContext := { x_Root : string; Enabled : bool; RunID : string }.
Record validationStepRef := { Raw : string; Kind : string; ref_Name : string }.

Class ValidateEnv (W : Type) := {
  clock : W -> Z;                          (** nanoseconds *)
  rfc3339nano : Z -> string;
  run_id : Z -> string;                    (** the layout 20060102T150405.000000000Z *)
  git : string -> list string -> W -> outcome string string;   (** a git command in a directory, and its output *)
  eval_symlinks : string -> W -> outcome string string;
  mkdir_all : string -> W -> W * outcome string unit;
  write_file : string -> string -> W -> W * outcome string unit;
  pipes : W -> outcome string unit;        (** [os.Pipe] twice *)
  exit_code : string -> option Z;          (** the code of an error that has one *)
  marshal_result : validationResultResponse -> string
}.

(** ** Steps *)
Definition parseValidationStep (step : string) : validationStepRef :=
  let raw := Strings.TrimSpace step in
  if Strings.HasPrefix raw "profile:" then {| Raw := raw; Kind := "profile"; ref_Name := Strings.TrimSpace (Strings.TrimPrefix raw "profile:") |}
  else if Strings.HasPrefix raw "task:" then {| Raw := raw; Kind := "task"; ref_Name := Strings.TrimSpace (Strings.TrimPrefix raw "task:") |}
  else {| Raw := raw; Kind := "builtin"; ref_Name := raw |}.

Definition validationStepSource (ref : validationStepRef) : string :=
  if String.eqb (Kind ref) "builtin" then "scenery" else ".scenery.json".

Definition builtin_command (appRoot name : string) : list string :=
  if String.eqb name "harness" || String.eqb name "harness:core" then ["scenery"; "harness"; "--app-root"; appRoot; "--json"]
  else if String.eqb name "harness:ui" then ["scenery"; "harness"; "ui"; "--app-root"; appRoot; "--json"]
  else if String.eqb name "check" then ["scenery"; "check"; "--app-root"; appRoot; "--json"]
  else if String.eqb name "test" || String.eqb name "test:go" then ["scenery"; "test"; "--app-root"; appRoot]
  else if String.eqb name "generate" then ["scenery"; "generate"; "--app-root"; appRoot]
  else if String.eqb name "generate:client" then ["scenery"; "generate"; "client"; "--app-root"; appRoot]
  else if String.eqb name "generate:sqlc" then ["scenery"; "generate"; "sqlc"; "--app-root"; appRoot]
  else if String.eqb name "db:apply" then ["scenery"; "db"; "apply"; "--app-root"; appRoot]
  else if String.eqb name "db:seed" then ["scenery"; "db"; "seed"; "--app-root"; appRoot]
  else if String.eqb name "db:setup" then ["scenery"; "db"; "setup"; "--app-root"; appRoot]
  else [].

Definition validationStepCommand (appRoot : string) (ref : validationStepRef) : list string :=
  if String.eqb (Kind ref) "task" then ["scenery"; "task"; "run"; ref_Name ref; "--app-root"; appRoot]
  else if String.eqb (Kind ref) "builtin" then builtin_command appRoot (ref_Name ref)
  else [].

Definition validationStepCWD (appRoot : string) (cfg : AppConfig.Config) (ref : validationStepRef) : string :=
  if String.eqb (Kind ref) "task" then
    match AppConfig.Tasks cfg !! ref_Name ref with
    | Some task => resolveLifecycleCWD appRoot (AppConfig.tk_CWD task)
    | None => appRoot
    end
  else appRoot.

Definition validationBuiltinSupported (name : string) : bool :=
  existsb (String.eqb name) ["harness"; "harness:core"; "harness:ui"; "check"; "test"; "test:go"; "generate"; "generate:client";
                             "generate:sqlc"; "db:apply"; "db:seed"; "db:setup"].

Definition validationReservedProfileName (name : string) : bool := existsb (String.eqb name) ["list"; "inspect"; "graph"; "changed"].

Definition validationDiagnostic (stage severity message : string) : checkDiagnostic :=
  {| Stage := stage; Severity := severity; File := ""; Message := message; SuggestedAction := "" |}.

Definition diag (message : string) : checkDiagnostic := validationDiagnostic "validation" "error" message.

(** ** Profiles *)
Definition profiles (cfg : AppConfig.Config) : gmap string AppConfig.ValidationProfileConfig := AppConfig.Profiles (AppConfig.Validation cfg).

Definition sorted_names (cfg : AppConfig.Config) : list string := Router.sort_strings (map fst (map_to_list (profiles cfg))).

Definition validationProfileRecordFor (cfg : AppConfig.Config) (name : string) : option validationProfileRecord :=
  prof ← profiles cfg !! name;
  let dflt := AppConfig.Default (AppConfig.Validation cfg) in
  Some {| p_Name := name; p_Description := AppConfig.vp_Description prof; p_Cost := AppConfig.vp_Cost prof; p_Paths := AppConfig.vp_Paths prof;
          p_Steps := AppConfig.vp_Steps prof; p_EnvKeys := sortedMapKeys (AppConfig.vp_Env prof); p_Artifacts := AppConfig.vp_Artifacts prof;
          p_Default := String.eqb name dflt || (String.eqb dflt "" && String.eqb name "quick"); p_StepCount := length (AppConfig.vp_Steps prof) |}.

Definition validationProfileRecords (cfg : AppConfig.Config) : list validationProfileRecord :=
  omap (validationProfileRecordFor cfg) (sorted_names cfg).

Definition resolveValidationProfileName (cfg : AppConfig.Config) (requested : string) : string :=
  let requested := Strings.TrimSpace requested in
  let dflt := Strings.TrimSpace (AppConfig.Default (AppConfig.Validation cfg)) in
  if negb (String.eqb requested "") then requested
  else if negb (String.eqb dflt "") then dflt
  else if profiles cfg !! "quick" is Some _ then "quick" else "".

(** The profiles a profile names, in order. *)
Definition children (prof : AppConfig.ValidationProfileConfig) : list string :=
  omap (fun step => let ref := parseValidationStep step in if String.eqb (Kind ref) "profile" then Some (ref_Name ref) else None)
    (AppConfig.vp_Steps prof).

Fixpoint from_active (name : string) (stack : list string) : option (list string) :=
  match stack with
  | [] => None
  | active :: rest => if String.eqb active name then Some stack else from_active name rest
  end.

(** The walk of [validationProfileCycles]. *)
Fixpoint walk_cycles (fuel : nat) (cfg : AppConfig.Config) (name : string) (stack : list string) : list (list string) :=
  match fuel with
  | O => []
  | S fuel =>
    match from_active name stack with
    | Some tail => [tail ++ [name]]
    | None =>
      match profiles cfg !! name with
      | None => []
      | Some prof => List.concat (map (fun child => walk_cycles fuel cfg child (stack ++ [name])) (children prof))
      end
    end
  end.

Definition validationProfileCycles (cfg : AppConfig.Config) : list (list string) :=
  List.concat (map (fun name => walk_cycles (S (size (profiles cfg))) cfg name []) (sorted_names cfg)).

Definition step_diags (cfg : AppConfig.Config) (name step : string) : list checkDiagnostic :=
  let ref := parseValidationStep step in
  if String.eqb (Kind ref) "profile" then
    if String.eqb (ref_Name ref) "" then [diag ("validation profile " +:+ name +:+ " has an empty profile step")]
    else match profiles cfg !! ref_Name ref with
    | Some _ => []
    | None => [diag ("validation profile " +:+ name +:+ " references unknown profile " +:+ ref_Name ref)]
    end
  else if String.eqb (Kind ref) "task" then
    if String.eqb (ref_Name ref) "" then [diag ("validation profile " +:+ name +:+ " has an empty task step")]
    else match taskTargetKind (ref_Name ref) with
    | Ret kind =>
      if String.eqb kind taskKindConfigured then
        match AppConfig.Tasks cfg !! ref_Name ref with
        | Some _ => []
        | None => [diag ("validation profile " +:+ name +:+ " references unknown task " +:+ ref_Name ref)]
        end
      else []
    | Fail e | Panic e => [diag e]
    end
  else if validationBuiltinSupported (ref_Name ref) then []
  else [diag ("validation profile " +:+ name +:+ " has unsupported step " +:+ Raw ref)].

Definition profile_diags (cfg : AppConfig.Config) (e : string * AppConfig.ValidationProfileConfig) : list checkDiagnostic :=
  let '(name, prof) := e in
  let cost := AppConfig.vp_Cost prof in
  (if negb (validScriptSegment name) || Strings.Contains name ":" then [diag ("invalid validation profile name " +:+ name)] else [])
  ++ (if validationReservedProfileName name then [diag ("validation profile name " +:+ name +:+ " is reserved by scenery validate")] else [])
  ++ (if negb (existsb (String.eqb cost) [""; "low"; "medium"; "high"])
      then [diag ("validation profile " +:+ name +:+ " has invalid cost " +:+ cost)] else [])
  ++ (if bool_decide (AppConfig.vp_Steps prof = []) then [diag ("validation profile " +:+ name +:+ " has no steps")] else [])
  ++ omap (fun glob => if String.eqb (Strings.TrimSpace glob) "" then Some (diag ("validation profile " +:+ name +:+ " has an empty path glob")) else None)
       (AppConfig.vp_Paths prof)
  ++ List.concat (map (step_diags cfg name) (AppConfig.vp_Steps prof)).

Definition default_diags (cfg : AppConfig.Config) : list checkDiagnostic :=
  let dflt := resolveValidationProfileName cfg "" in
  if negb (bool_decide (profiles cfg = ∅)) && String.eqb dflt ""
  then [diag "validation.default is not configured and profile quick does not exist"]
  else if negb (String.eqb dflt "") then
    match profiles cfg !! dflt with
    | Some _ => []
    | None => [diag ("validation default profile " +:+ dflt +:+ " is not configured")]
    end
  else [].

Definition cycle_message (cycle : list string) : string := "profile cycle detected: " +:+ Strings.Join cycle " -> ".

Definition in_file (appRoot : string) (d : checkDiagnostic) : checkDiagnostic :=
  {| Stage := Stage d; Severity := Severity d; File := Filepath.Join [appRoot; ".scenery.json"]; Message := Message d;
     SuggestedAction := SuggestedAction d |}.

Section config.
Context {OO : AppConfig.ObjectOrder}.
Definition validateValidationConfig (appRoot : string) (cfg : AppConfig.Config) : list checkDiagnostic :=
  map (in_file appRoot)
    (List.concat (map (profile_diags cfg) (AppConfig.visit (map_to_list (profiles cfg))))
     ++ default_diags cfg
     ++ map (fun cycle => diag (cycle_message cycle)) (validationProfileCycles cfg)).
End config.

(** ** Plans *)

(** [overlayStringMap]: the second map wins; an empty map stands for nil. *)
Definition overlayStringMap (base values : gmap string string) : gmap string string := values ∪ base.

(** What [addValidationProfile] builds, with the profiles it has seen. *)
Record plan_state := { ps_Profiles : list string; ps_Steps : list validationPlanStep; ps_Diagnostics : list checkDiagnostic; seen : gset string }.

Definition add_diag (d : checkDiagnostic) (s : plan_state) : plan_state :=
  {| ps_Profiles := ps_Profiles s; ps_Steps := ps_Steps s; ps_Diagnostics := ps_Diagnostics s ++ [d]; seen := seen s |}.
Definition add_step (st : validationPlanStep) (s : plan_state) : plan_state :=
  {| ps_Profiles := ps_Profiles s; ps_Steps := ps_Steps s ++ [st]; ps_Diagnostics := ps_Diagnostics s; seen := seen s |}.
Definition enter (name : string) (s : plan_state) : plan_state :=
  {| ps_Profiles := ps_Profiles s ++ [name]; ps_Steps := ps_Steps s; ps_Diagnostics := ps_Diagnostics s; seen := {[name]} ∪ seen s |}.

Definition plan_step (appRoot : string) (cfg : AppConfig.Config) (name : string) (prof : AppConfig.ValidationProfileConfig) (stack : list string)
    (env : gmap string string) (idx : nat) (ref : validationStepRef) : validationPlanStep :=
  {| st_ID := firstNonEmpty [Strings.Join (stack ++ [Raw ref]) "/"; name +:+ "/step-" +:+ Strconv.Itoa (Z.of_nat (S idx))];
     st_Name := Raw ref; st_Kind := Kind ref; st_Profile := name; st_Command := validationStepCommand appRoot ref;
     st_CWD := validationStepCWD appRoot cfg ref; st_Artifact := AppConfig.vp_Artifacts prof; st_Env := env |}.

(** [rec] adds a named profile, on the stack of the step. *)
Fixpoint add_steps (rec : string -> plan_state -> plan_state) (mk : nat -> validationStepRef -> validationPlanStep) (idx : nat)
    (steps : list string) (s : plan_state) : plan_state :=
  match steps with
  | [] => s
  | step :: rest =>
    let ref := parseValidationStep step in
    let s := if String.eqb (Kind ref) "profile" then rec (ref_Name ref) s else add_step (mk idx ref) s in
    add_steps rec mk (S idx) rest s
  end.

Fixpoint add_profile (fuel : nat) (appRoot : string) (cfg : AppConfig.Config) (stack : list string) (inherited : gmap string string)
    (name : string) (s : plan_state) : plan_state :=
  match fuel with
  | O => s
  | S fuel =>
    if bool_decide (name ∈ seen s) then s
    else match profiles cfg !! name with
    | None => add_diag (diag ("validation profile " +:+ name +:+ " is not configured")) s
    | Some prof =>
      if existsb (String.eqb name) stack then add_diag (diag (cycle_message (stack ++ [name]))) s
      else
        let env := overlayStringMap inherited (AppConfig.vp_Env prof) in
        let stack := stack ++ [name] in
        add_steps (add_profile fuel appRoot cfg stack env) (plan_step appRoot cfg name prof stack env) 0 (AppConfig.vp_Steps prof) (enter name s)
    end
  end.

Definition addValidationProfile (appRoot : string) (cfg : AppConfig.Config) (name : string) (s : plan_state) : plan_state :=
  add_profile (S (size (profiles cfg))) appRoot cfg [] ∅ name s.

Definition resolved (sel : validationSelection) (names : list string) : validationSelection :=
  {| sel_Mode := sel_Mode sel; Requested := Requested sel; sel_Base := sel_Base sel; ChangedFiles := ChangedFiles sel;
     MatchedProfiles := MatchedProfiles sel; ResolvedProfiles := names |}.

(** ** Globs and changed files *)
Definition matches_ (r : option bool) : bool := match r with Some b => b | None => false end.

Fixpoint validationGlobMatchSegments (patternParts fileParts : list string) : bool :=
  match patternParts with
  | [] => bool_decide (fileParts = [])
  | p :: ps =>
    if String.eqb p "**" then
      (fix skip (fs : list string) : bool :=
         validationGlobMatchSegments ps fs || match fs with [] => false | _ :: fs' => skip fs' end) fileParts
    else match fileParts with
    | [] => false
    | f :: fs => matches_ (Globs.Match p f) && validationGlobMatchSegments ps fs
    end
  end.

Definition validationGlobMatches (pattern file : string) : bool :=
  let pattern := Strings.TrimSpace pattern in
  let file := Strings.TrimSpace file in
  if String.eqb pattern "" || String.eqb file "" then false
  else if String.eqb pattern file then true
  else if Strings.HasSuffix pattern "/**" then
    let prefix := Strings.TrimSuffix pattern "/**" in
    String.eqb file prefix || Strings.HasPrefix file (prefix +:+ "/")
  else if validationGlobMatchSegments (Strings.Split pattern "/") (Strings.Split file "/") then true
  else if matches_ (Globs.Match pattern file) then true
  else if negb (Strings.Contains pattern "/") then matches_ (Globs.Match pattern (Filepath.Base file))
  else false.

Definition validationContainsString (values : list string) (want : string) : bool := existsb (String.eqb want) values.

Definition add_new (l : list string) (x : string) : list string := if validationContainsString l x then l else l ++ [x].

Definition match_file (pattern : string) (acc : list string * list string) (file : string) : list string * list string :=
  if validationGlobMatches pattern file then (add_new acc.1 pattern, add_new acc.2 file) else acc.

Definition match_profile (files : list string) (prof : AppConfig.ValidationProfileConfig) : list string * list string :=
  fold_left (fun acc pattern => fold_left (match_file pattern) files acc) (AppConfig.vp_Paths prof) ([], []).

Definition matchChangedValidationProfiles (cfg : AppConfig.Config) (files : list string) : list validationProfileMatch :=
  omap (fun name =>
    prof ← profiles cfg !! name;
    let '(paths, matched) := match_profile files prof in
    if bool_decide (matched = []) then None else Some {| m_Profile := name; MatchedPaths := paths; MatchedFiles := matched |}) (sorted_names cfg).

Definition selectChangedValidationProfiles (cfg : AppConfig.Config) (files : list string) : list string :=
  let dflt := resolveValidationProfileName cfg "" in
  fold_left (fun selected m => add_new selected (m_Profile m)) (matchChangedValidationProfiles cfg files)
    (if String.eqb dflt "" then [] else [dflt]).

(** [filepath.Rel] of two absolute paths. *)
Fixpoint strip_common (base target : list string) : list string * list string :=
  match base, target with
  | b :: base', t :: target' => if String.eqb b t then strip_common base' target' else (base, target)
  | _, _ => (base, target)
  end.
Definition elements (p : string) : list string := List.filter (fun e => negb (String.eqb e "")) (Strings.Split (Filepath.Clean p) "/").
Definition Rel (base target : string) : outcome string string :=
  if negb (Bool.eqb (Filepath.IsAbs base) (Filepath.IsAbs target)) then Fail "can't make target relative to base"
  else
    let '(up, down) := strip_common (elements base) (elements target) in
    match (repeat ".." (length up)) ++ down with [] => Ret "." | l => Ret (Strings.Join l "/") end.

Section plans.
Context {UT : UnicodeTables} {OO : AppConfig.ObjectOrder} {SS : SliceSort} {W : Type} {TE : TaskEnv W} {VE : ValidateEnv W}.
Abbreviation M := (Run (world W)).

Definition buildValidationMultiPlan (appRoot : string) (cfg : AppConfig.Config) (label : string) (names : list string)
    (selection : validationSelection) : validationResolvedPlan :=
  let s := fold_left (fun s name => if String.eqb (Strings.TrimSpace name) "" then s else addValidationProfile appRoot cfg name s) names
    {| ps_Profiles := []; ps_Steps := []; ps_Diagnostics := validateValidationConfig appRoot cfg; seen := ∅ |} in
  {| pl_App := taskAppRef appRoot cfg; pl_Profile := label; pl_Selection := resolved selection (ps_Profiles s); pl_Profiles := ps_Profiles s;
     pl_Steps := ps_Steps s; pl_Diagnostics := ps_Diagnostics s |}.

Definition buildValidationNamedPlan (appRoot : string) (cfg : AppConfig.Config) (profile : string) (selection : validationSelection)
    : validationResolvedPlan := buildValidationMultiPlan appRoot cfg profile [profile] selection.

Definition requested (mode : string) (names : list string) : validationSelection :=
  {| sel_Mode := mode; Requested := names; sel_Base := ""; ChangedFiles := []; MatchedProfiles := []; ResolvedProfiles := [] |}.

Definition collectValidationChangedFiles (appRoot base : string) : M (list string) :=
  top ← look (git appRoot ["rev-parse"; "--show-toplevel"]);
  top ← lift top;
  let gitRoot := Strings.TrimSpace top in
  physical ← look (eval_symlinks gitRoot);
  let gitRoot := match physical with Ret p => p | _ => gitRoot end in
  physicalApp ← look (eval_symlinks appRoot);
  let appRootForRel := match physicalApp with Ret p => p | _ => appRoot end in
  appRel ← lift (Rel gitRoot appRootForRel);
  let args :=
    if negb (String.eqb appRel ".") && negb (String.eqb appRel "")
    then ["diff"; "--name-only"; "--relative=" +:+ appRel; base +:+ "...HEAD"; "--"; appRel]
    else ["diff"; "--name-only"; base +:+ "...HEAD"] in
  out ← look (git gitRoot args);
  out ← lift out;
  mret (Router.sort_strings (List.filter (fun line => negb (String.eqb line "")) (map Strings.TrimSpace (Strings.Split out (chr 10))))).

Definition buildValidationPlan (appRoot : string) (cfg : AppConfig.Config) (opts : validateOptions) : M validationResolvedPlan :=
  if String.eqb (v_Action opts) "changed" then
    files ← collectValidationChangedFiles appRoot (Base opts);
    let names := selectChangedValidationProfiles cfg files in
    let '(profile, asked) := match names with
      | [] => let p := resolveValidationProfileName cfg "" in (p, [p])
      | [p] => (p, names)
      | _ => (Strings.Join names "+", names)
      end in
    mret (buildValidationMultiPlan appRoot cfg profile names
      {| sel_Mode := "changed"; Requested := asked; sel_Base := Base opts; ChangedFiles := files;
         MatchedProfiles := matchChangedValidationProfiles cfg files; ResolvedProfiles := [] |})
  else
    let profile := resolveValidationProfileName cfg (Profile opts) in
    mret (buildValidationNamedPlan appRoot cfg profile (requested "explicit" [profile])).

(** ** Inspection *)
Definition buildValidationListResponse (appRoot : string) (cfg : AppConfig.Config) : validationListResponse :=
  {| vl_App := taskAppRef appRoot cfg; vl_Default := AppConfig.Default (AppConfig.Validation cfg); vl_Profiles := validationProfileRecords cfg;
     vl_Diagnostics := validateValidationConfig appRoot cfg |}.

Definition task_record (cfg : AppConfig.Config) (acc : list taskListRecord * gset string) (step : validationPlanStep)
    : list taskListRecord * gset string :=
  let ref := parseValidationStep (st_Name step) in
  if negb (String.eqb (Kind ref) "task") || bool_decide (ref_Name ref ∈ acc.2) then acc
  else
    (match taskTargetKind (ref_Name ref) with
     | Ret kind =>
       if String.eqb kind taskKindConfigured then
         match AppConfig.Tasks cfg !! ref_Name ref with
         | Some task => acc.1 ++ [configuredTaskListRecord (ref_Name ref) task]
         | None => acc.1
         end
       else acc.1
     | _ => acc.1
     end, {[ref_Name ref]} ∪ acc.2).

Definition referencedValidationTasks (cfg : AppConfig.Config) (steps : list validationPlanStep) : list taskListRecord :=
  (fold_left (task_record cfg) steps ([], ∅)).1.

Definition buildValidationInspectResponse (appRoot : string) (cfg : AppConfig.Config) (profile : string) : outcome string validationInspectResponse :=
  let profile := resolveValidationProfileName cfg profile in
  match validationProfileRecordFor cfg profile with
  | None => Fail ("validation profile " +:+ profile +:+ " is not configured")
  | Some rec =>
    let plan := buildValidationNamedPlan appRoot cfg profile (requested "explicit" [profile]) in
    Ret {| vi_App := taskAppRef appRoot cfg; vi_Profile := rec; Resolved := pl_Steps plan; vi_Tasks := referencedValidationTasks cfg (pl_Steps plan);
           vi_Diagnostics := pl_Diagnostics plan; vi_Source := Filepath.Join [appRoot; ".scenery.json"] |}
  end.

(** The graph under construction: nodes, edges and diagnostics. *)
Record graph_state := { gs_Nodes : list validationGraphNode; gs_Edges : list validationGraphEdge; gs_Diagnostics : list checkDiagnostic }.

Definition add_node (node : validationGraphNode) (g : graph_state) : graph_state :=
  if String.eqb (vn_ID node) "" || existsb (fun n => String.eqb (vn_ID n) (vn_ID node)) (gs_Nodes g) then g
  else {| gs_Nodes := gs_Nodes g ++ [node]; gs_Edges := gs_Edges g; gs_Diagnostics := gs_Diagnostics g |}.
Definition add_edge (e : validationGraphEdge) (g : graph_state) : graph_state :=
  {| gs_Nodes := gs_Nodes g; gs_Edges := gs_Edges g ++ [e]; gs_Diagnostics := gs_Diagnostics g |}.
Definition note (d : checkDiagnostic) (g : graph_state) : graph_state :=
  {| gs_Nodes := gs_Nodes g; gs_Edges := gs_Edges g; gs_Diagnostics := gs_Diagnostics g ++ [d] |}.

Definition graph_child (rec : string -> graph_state -> graph_state) (id : string) (g : graph_state) (step : string) : graph_state :=
  let ref := parseValidationStep step in
  if String.eqb (ref_Name ref) "" then g
  else
    let childID := Kind ref +:+ ":" +:+ ref_Name ref in
    let g := add_node {| vn_ID := childID; vn_Name := ref_Name ref; vn_Kind := Kind ref; vn_Source := validationStepSource ref |} g in
    let g := add_edge {| ve_From := id; ve_To := childID; ve_Kind := Kind ref |} g in
    if String.eqb (Kind ref) "profile" then rec (ref_Name ref) g else g.

Fixpoint walk_graph (fuel : nat) (cfg : AppConfig.Config) (stack : list string) (name : string) (g : graph_state) : graph_state :=
  match fuel with
  | O => g
  | S fuel =>
    let id := "profile:" +:+ name in
    let g := add_node {| vn_ID := id; vn_Name := name; vn_Kind := "profile"; vn_Source := ".scenery.json" |} g in
    if existsb (String.eqb name) stack then note (diag (cycle_message (stack ++ [name]))) g
    else match profiles cfg !! name with
    | None => note (diag ("unknown validation profile " +:+ name)) g
    | Some prof => fold_left (graph_child (walk_graph fuel cfg (stack ++ [name])) id) (AppConfig.vp_Steps prof) g
    end
  end.

Definition edge_before (a b : validationGraphEdge) : bool :=
  if String.eqb (ve_From a) (ve_From b) then str_lt (ve_To a) (ve_To b) else str_lt (ve_From a) (ve_From b).

Definition buildValidationGraphResponse (appRoot : string) (cfg : AppConfig.Config) (profile : string) : outcome string validationGraphResponse :=
  let profile := resolveValidationProfileName cfg profile in
  match profiles cfg !! profile with
  | None => Fail ("validation profile " +:+ profile +:+ " is not configured")
  | Some _ =>
    let g := walk_graph (S (size (profiles cfg))) cfg [] profile {| gs_Nodes := []; gs_Edges := []; gs_Diagnostics := [] |} in
    Ret {| vg_App := taskAppRef appRoot cfg; vg_Profile := profile;
           vg_Nodes := slice_sort (fun a b => str_lt (vn_ID a) (vn_ID b)) (gs_Nodes g); vg_Edges := slice_sort edge_before (gs_Edges g);
           vg_Diagnostics := gs_Diagnostics g ++ validateValidationConfig appRoot cfg |}
  end.

(** ** Running a plan *)
Definition file_op (f : W -> W * outcome string unit) : M unit := fun w =>
  let '(o, r) := f (outside w) in ({| outside := o; stdout := stdout w; stderr := stderr w |}, r).

(** [runWithCapturedProcessOutput]: the process's output goes through pipes. *)
Definition captured (capture : bool) (m : M unit) : M unit :=
  if negb capture then m else (p ← look pipes; _ ← lift p; m).

(** A step that is not a task. *)
Definition runBuiltinValidationStep (appRoot : string) (ref : validationStepRef) (to : sink) (capture : bool) (name : string) : M unit :=
  let root := ["--app-root"; appRoot] in
  let n := ref_Name ref in
  if negb (String.eqb (Kind ref) "builtin") then fail ("unsupported validation step " +:+ name)
  else if String.eqb n "harness" || String.eqb n "harness:core" then act to (command Harness ["--app-root"; appRoot; "--json"])
  else if String.eqb n "harness:ui" then act to (command HarnessUI ["--app-root"; appRoot; "--json"])
  else if String.eqb n "check" then act to (command Check ["--app-root"; appRoot; "--json"])
  else if String.eqb n "test" || String.eqb n "test:go" then act to (command Test root)
  else if String.eqb n "generate" then act to (command Generate root)
  else if String.eqb n "generate:client" then act to (command Generate ("client" :: root))
  else if String.eqb n "generate:sqlc" then act to (command Generate ("sqlc" :: root))
  else if String.eqb n "db:apply" then captured capture (act to (command DBApply root))
  else if String.eqb n "db:seed" then captured capture (act to (command DBSeed root))
  else if String.eqb n "db:setup" then captured capture (act to (command DBSetup root))
  else fail ("unsupported validation step " +:+ name).

Definition runValidationShell (appRoot : string) (task : AppConfig.TaskConfig) (to : sink) (overlay : gmap string string) : M unit :=
  env ← appEnvWithDotEnv appRoot [];
  let env := overlayEnv (overlayEnv env overlay) (AppConfig.tk_Env task) in
  let '(program, args) := shellInvocation windows (AppConfig.tk_Run task) in
  act to (execute {| Dir := resolveLifecycleCWD appRoot (AppConfig.tk_CWD task); x_Env := env; Program := program; x_Args := args |}).

Fixpoint run_validation_task (fuel : nat) (appRoot : string) (cfg : AppConfig.Config) (to : sink) (overlay : gmap string string)
    (target : string) (stack : list string) : M unit :=
  match fuel with
  | O => lift (Panic out_of_fuel)
  | S fuel =>
    kind ← lift (taskTargetKind target);
    if String.eqb kind taskKindCode then
      runSceneryScript to {| s_AppRoot := appRoot; s_Env := ""; s_EnvOverlay := overlay; s_Lang := ""; s_Target := target; s_Args := [] |}
    else match AppConfig.Tasks cfg !! target with
    | None => fail ("task " +:+ target +:+ " is not configured")
    | Some task =>
      if existsb (String.eqb target) stack then fail (cycle_error stack target)
      else
        let runs := negb (String.eqb (Strings.TrimSpace (AppConfig.tk_Run task)) "") in
        if runs && negb (bool_decide (AppConfig.tk_Steps task = [])) then fail ("task " +:+ target +:+ " cannot define both run and steps")
        else if runs then runValidationShell appRoot task to overlay
        else if bool_decide (AppConfig.tk_Steps task = []) then fail ("task " +:+ target +:+ " has no run command or steps")
        else all_steps (fun step =>
          let ref := parseValidationStep step in
          if String.eqb (Kind ref) "task" then run_validation_task fuel appRoot cfg to overlay (ref_Name ref) (stack ++ [target])
          else runBuiltinValidationStep appRoot ref to true step) (AppConfig.tk_Steps task)
    end
  end.

Definition runValidationTask (appRoot : string) (cfg : AppConfig.Config) (to : sink) (overlay : gmap string string) (target : string) : M unit :=
  run_validation_task (S (size (AppConfig.Tasks cfg))) appRoot cfg to overlay target [].

Definition runValidationStepCommand (appRoot : string) (cfg : AppConfig.Config) (step : validationPlanStep) (capture : bool) : M unit :=
  let ref := parseValidationStep (st_Name step) in
  let to := if capture then Buffers else Terminal in
  if String.eqb (Kind ref) "task" then runValidationTask appRoot cfg to (st_Env step) (ref_Name ref)
  else runBuiltinValidationStep appRoot ref to capture (st_Name step).

(** Names and places of artifacts. *)
Definition trim_of (cutset : list ascii) (s : string) : string := Strings.TrimSet (fun c => existsb (Ascii.eqb c) cutset) s.
Definition lower_or_digit (r : Z) : bool := in_range 97 122 r || in_range 48 57 r.
Definition dashes (r : Z) : bool := (r =? 45) || (r =? 95) || (r =? 46).

Definition sanitizeHarnessArtifactName (value : string) : string :=
  let value := Strings.TrimSpace value in
  if String.eqb value "" then "artifact"
  else
    let keep (r : Z) : string :=
      if lower_or_digit r || dashes r then Utf8.encode_rune r
      else if (r =? 58) || (r =? 47) || (r =? 32) then "-" else "" in
    let out := trim_of ["-"; "_"; "."]%char (String.concat "" (map keep (Utf8.runes (Strings.ToLower value)))) in
    if String.eqb out "" then "artifact" else out.

Definition sanitizeHarnessArtifactFilename (value : string) : string :=
  let value := Filepath.Base (Strings.TrimSpace value) in
  if String.eqb value "." || String.eqb value "/" || String.eqb value "" then "artifact.log"
  else
    let keep (r : Z) : string := if lower_or_digit r || in_range 65 90 r || dashes r then Utf8.encode_rune r else "-" in
    let out := trim_of ["-"; "."]%char (String.concat "" (map keep (Utf8.runes value))) in
    if String.eqb out "" then "artifact.log" else out.

Definition formatArtifactWriteError (name err : string) : checkDiagnostic :=
  {| Stage := name; Severity := "warning"; File := ""; Message := "failed to write harness evidence artifact: " +:+ err;
     SuggestedAction := "Check `.scenery/harness/artifacts` permissions and available disk space." |}.

Definition newValidationArtifactContext (root : string) (enabled : bool) : M validationArtifactContext :=
  t ← look clock; mret {| x_Root := root; Enabled := enabled; RunID := run_id t |}.

Definition write_artifact (ctx : validationArtifactContext) (stepName kind data : string)
    : M (list harnessEvidenceArtifact * list checkDiagnostic) :=
  if String.eqb data "" then mret ([], [])
  else
    let name := sanitizeHarnessArtifactName (stepName +:+ " " +:+ kind) in
    let filename := sanitizeHarnessArtifactFilename (name +:+ "." +:+ kind +:+ ".txt") in
    let rel := Filepath.Join [".scenery"; "harness"; "validation"; "artifacts"; RunID ctx; filename] in
    let abs := Filepath.Join [x_Root ctx; rel] in
    r ← attempt (_ ← file_op (mkdir_all (Paths.Paths.Dir abs)); file_op (write_file abs data));
    match r with
    | Ret _ => mret ([{| a_Name := name; a_Path := rel |}], [])
    | Fail e => mret ([], [formatArtifactWriteError stepName e])
    | Panic e => lift (Panic e)
    end.

Definition writeValidationOutputArtifacts (ctx : validationArtifactContext) (stepName out err : string)
    : M (list harnessEvidenceArtifact * list checkDiagnostic) :=
  if negb (Enabled ctx) then mret ([], [])
  else
    '(a1, d1) ← write_artifact ctx stepName "stdout" out;
    '(a2, d2) ← write_artifact ctx stepName "stderr" err;
    mret (a1 ++ a2, d1 ++ d2).

(** Evidence. *)
Definition shell_plain (r : Z) : bool :=
  lower_or_digit r || in_range 65 90 r || existsb (Z.eqb r) [95; 45; 46; 47; 58; 61; 44; 43; 64].
Definition shellQuote (value : string) : string :=
  if String.eqb value "" then "''"
  else if forallb shell_plain (Utf8.runes value) then value
  else "'" +:+ Strings.ReplaceAll value "'" ("'" +:+ String (chr 34) "'" +:+ String (chr 34) "'") +:+ "'".

Definition reproCommand (cmd : list string) (cwd : string) : string :=
  match cmd with
  | [] => ""
  | _ => (if String.eqb (Strings.TrimSpace cwd) "" then "" else "cd " +:+ shellQuote cwd +:+ " && ") +:+ Strings.Join (map shellQuote cmd) " "
  end.

Fixpoint after_last (sep s : string) : option string :=
  match s with
  | EmptyString => None
  | String _ s' =>
    match after_last sep s' with
    | Some t => Some t
    | None => if Strings.HasPrefix s sep then Some (Strings.TrimPrefix s sep) else None
    end
  end.

Definition exitCodeFromError (r : outcome string unit) : Z :=
  match r with
  | Ret _ => 0
  | Fail e | Panic e =>
    match exit_code e with
    | Some c => c
    | None =>
      match after_last "exit status " e with
      | Some raw =>
        match Strings.Fields (Strings.TrimSpace raw) with
        | f :: _ => match Strconv.Atoi f with Ret c => c | _ => 1 end
        | [] => 1
        end
      | None => 1
      end
    end
  end.

Definition tailString (value : string) (limit : Z) : string :=
  let value := Strings.TrimSpace value in
  let n := Z.of_nat (String.length value) in
  if (limit <=? 0) || (n <=? limit) then value else Strings.sdrop (Z.to_nat (n - limit)) value.

Definition reset_buffers : M unit := modify (fun w => {| outside := outside w; stdout := ""; stderr := "" |}).

Definition runValidationStep (appRoot : string) (cfg : AppConfig.Config) (ctx : validationArtifactContext) (capture : bool)
    (step : validationPlanStep) : M validationResultStep :=
  started ← look clock;
  let cwd := firstNonEmpty [st_CWD step; appRoot] in
  _ ← reset_buffers;
  r ← attempt (runValidationStepCommand appRoot cfg step capture);
  _ ← (match r with Panic e => lift (Panic e) | _ => mret tt end : M unit);
  out ← gets stdout;
  err ← gets stderr;
  '(artifacts, diagnostics) ← writeValidationOutputArtifacts ctx (st_Name step) out err;
  ended ← look clock;
  let ok := match r with Ret _ => true | _ => false end && bool_decide (diagnostics = []) in
  let message := match r with
    | Ret _ => match diagnostics with d :: _ => Message d | [] => "" end
    | Fail e | Panic e => Strings.TrimSpace e
    end in
  let duration := (ended - started) / 1000000 in
  mret {| rs_ID := st_ID step; rs_Name := st_Name step; rs_Kind := st_Kind step; rs_Profile := st_Profile step; OK := ok; DurationMS := duration;
          Evidence := {| h_Command := st_Command step; h_CWD := cwd; StartedAt := rfc3339nano started; h_DurationMS := duration;
                         ExitCode := exitCodeFromError r; StdoutTail := tailString (Strings.TrimSpace out) 8192;
                         StderrTail := tailString (Strings.TrimSpace err) 8192; h_Artifacts := artifacts;
                         ReproCommand := reproCommand (st_Command step) cwd |};
          Error := message |}.

Definition artifact_kind (name : string) : string :=
  if Strings.Contains name "stdout" then "stdout" else if Strings.Contains name "stderr" then "stderr" else "artifact".

(** The steps up to the first that fails. *)
Fixpoint run_steps (run : validationPlanStep -> M validationResultStep) (steps : list validationPlanStep) : M (list validationResultStep) :=
  match steps with
  | [] => mret []
  | step :: rest =>
    res ← run step;
    if negb (OK res) then mret [res] else (more ← run_steps run rest; mret (res :: more))
  end.

Definition failed_step (steps : list validationResultStep) : option validationResultStep := List.find (fun s => negb (OK s)) steps.

Definition executeValidationPlan (appRoot : string) (cfg : AppConfig.Config) (plan : validationResolvedPlan) (opts : validateOptions)
    : M validationResultResponse :=
  t ← look clock;
  let result (ok : bool) (steps : list validationResultStep) (artifacts : list validationArtifact) (next : list string) :=
    {| r_OK := ok; GeneratedAt := rfc3339nano t; r_App := pl_App plan; r_Profile := pl_Profile plan; r_Selection := pl_Selection plan;
       r_Steps := steps; r_Artifacts := artifacts; r_Diagnostics := pl_Diagnostics plan; NextActions := next; Wrote := "" |} in
  ctx ← newValidationArtifactContext appRoot (Write_ opts);
  if negb (bool_decide (pl_Diagnostics plan = [])) then
    mret (result false [] [] ["Fix validation configuration diagnostics, then rerun: scenery validate " +:+ pl_Profile plan +:+ " --json --write"])
  else
    steps ← run_steps (runValidationStep appRoot cfg ctx (v_JSON opts)) (pl_Steps plan);
    let artifacts := List.concat (map (fun s =>
      map (fun a => {| va_Path := a_Path a; va_Kind := artifact_kind (a_Name a) |}) (h_Artifacts (Evidence s))) steps) in
    mret (match failed_step steps with
          | Some s => result false steps artifacts ["Fix " +:+ rs_Name s +:+ ", then rerun: scenery validate " +:+ pl_Profile plan +:+ " --json --write"]
          | None => result true steps artifacts []
          end).

Definition writeValidationResult (appRoot : string) (result : validationResultResponse) : M validationResultResponse :=
  let dir := Filepath.Join [appRoot; ".scenery"; "harness"; "validation"] in
  _ ← file_op (mkdir_all dir);
  let latest := Filepath.Join [appRoot; ".scenery"; "harness"; "validation"; "latest.json"] in
  let result := {| r_OK := r_OK result; GeneratedAt := GeneratedAt result; r_App := r_App result; r_Profile := r_Profile result;
                   r_Selection := r_Selection result; r_Steps := r_Steps result; r_Artifacts := r_Artifacts result;
                   r_Diagnostics := r_Diagnostics result; NextActions := NextActions result; Wrote := latest |} in
  let data := marshal_result result +:+ newline in
  _ ← file_op (write_file latest data);
  _ ← (if negb (String.eqb (r_Profile result) "")
       then file_op (write_file (Filepath.Join [dir; sanitizeHarnessArtifactFilename (r_Profile result +:+ "-latest.json")]) data)
       else mret tt : M unit);
  mret result.

(** ** The command line *)
Definition v_profile (o : validateOptions) (v : string) : validateOptions :=
  {| v_Action := v_Action o; Profile := v; v_AppRoot := v_AppRoot o; v_JSON := v_JSON o; Write_ := Write_ o; DryRun := DryRun o; Base := Base o |}.
Definition v_root (o : validateOptions) (v : string) : validateOptions :=
  {| v_Action := v_Action o; Profile := Profile o; v_AppRoot := v; v_JSON := v_JSON o; Write_ := Write_ o; DryRun := DryRun o; Base := Base o |}.
Definition v_flag (o : validateOptions) (flag : string) : option validateOptions :=
  if String.eqb flag "--json" then Some {| v_Action := v_Action o; Profile := Profile o; v_AppRoot := v_AppRoot o; v_JSON := true; Write_ := Write_ o; DryRun := DryRun o; Base := Base o |}
  else if String.eqb flag "--write" then Some {| v_Action := v_Action o; Profile := Profile o; v_AppRoot := v_AppRoot o; v_JSON := v_JSON o; Write_ := true; DryRun := DryRun o; Base := Base o |}
  else if String.eqb flag "--dry-run" then Some {| v_Action := v_Action o; Profile := Profile o; v_AppRoot := v_AppRoot o; v_JSON := v_JSON o; Write_ := Write_ o; DryRun := true; Base := Base o |}
  else None.
Definition v_base (o : validateOptions) (v : string) : outcome string validateOptions :=
  let base := Strings.TrimSpace v in
  if String.eqb base "" then Fail "--base must not be empty"
  else Ret {| v_Action := v_Action o; Profile := Profile o; v_AppRoot := v_AppRoot o; v_JSON := v_JSON o; Write_ := Write_ o; DryRun := DryRun o; Base := base |}.

Fixpoint parse_validate_flags (o : validateOptions) (args : list string) : outcome string validateOptions :=
  match args with
  | [] => Ret o
  | arg :: rest =>
    if String.eqb arg "--app-root" then
      match rest with
      | [] => Fail "missing value for --app-root"
      | v :: rest' => parse_validate_flags (v_root o v) rest'
      end
    else if Strings.HasPrefix arg "--app-root=" then parse_validate_flags (v_root o (Strings.TrimPrefix arg "--app-root=")) rest
    else match v_flag o arg with
    | Some o' => parse_validate_flags o' rest
    | None =>
      if String.eqb arg "--base" then
        if negb (String.eqb (v_Action o) "changed") then Fail "--base is only supported for validate changed"
        else match rest with
        | [] => Fail "missing value for --base"
        | v :: rest' => o' ← v_base o v; parse_validate_flags o' rest'
        end
      else if Strings.HasPrefix arg "--base=" then
        if negb (String.eqb (v_Action o) "changed") then Fail "--base is only supported for validate changed"
        else (o' ← v_base o (Strings.TrimPrefix arg "--base="); parse_validate_flags o' rest)
      else Fail ("unknown flag " +:+ arg)
    end
  end.

Definition take_profile (o : validateOptions) (args : list string) : validateOptions * list string :=
  match args with
  | arg :: rest => if Strings.HasPrefix arg "-" then (o, args) else (v_profile o arg, rest)
  | [] => (o, args)
  end.

Definition parseValidateArgs (args : list string) : outcome string validateOptions :=
  let '(action, args) := match args with
    | a :: rest => if validationReservedProfileName a then (a, rest) else ("run", args)
    | [] => ("run", args)
    end in
  let o := {| v_Action := action; Profile := ""; v_AppRoot := ""; v_JSON := false; Write_ := false; DryRun := false; Base := "origin/main" |} in
  if String.eqb action "inspect" && match args with [] => true | a :: _ => Strings.HasPrefix a "-" end then Fail "missing validation profile"
  else
    let '(o, args) := if String.eqb action "inspect" || String.eqb action "graph" || String.eqb action "run" then take_profile o args else (o, args) in
    o ← parse_validate_flags o args;
    if (String.eqb action "graph" || String.eqb action "list" || String.eqb action "inspect") && Write_ o
    then Fail "--write is only supported when running validation" else Ret o.

(** What the command prints. *)
Inductive validateOutput :=
  | ListResponse (l : validationListResponse) | InspectResponse (i : validationInspectResponse) | GraphResponse (g : validationGraphResponse)
  | PlanResponse (ok : bool) (p : validationResolvedPlan) | ResultResponse (r : validationResultResponse).

(** The output, and whether the command succeeds. *)
Definition runSceneryValidate (args : list string) : M (validateOutput * outcome string unit) :=
  opts ← lift (parseValidateArgs args);
  found ← look (discover (v_AppRoot opts));
  '(appRoot, cfg) ← lift found;
  if String.eqb (v_Action opts) "list" then mret (ListResponse (buildValidationListResponse appRoot cfg), Ret tt)
  else if String.eqb (v_Action opts) "inspect" then
    (i ← lift (buildValidationInspectResponse appRoot cfg (Profile opts)); mret (InspectResponse i, Ret tt))
  else if String.eqb (v_Action opts) "graph" then
    (g ← lift (buildValidationGraphResponse appRoot cfg (Profile opts)); mret (GraphResponse g, Ret tt))
  else if String.eqb (v_Action opts) "run" || String.eqb (v_Action opts) "changed" then
    plan ← buildValidationPlan appRoot cfg opts;
    if DryRun opts then mret (PlanResponse (bool_decide (pl_Diagnostics plan = [])) plan, Ret tt)
    else
      result ← executeValidationPlan appRoot cfg plan opts;
      result ← (if Write_ opts then writeValidationResult appRoot result else mret result);
      mret (ResultResponse result, if r_OK result then Ret tt else Fail "scenery validate failed")
  else fail ("unknown validate action " +:+ v_Action opts).
End plans.
End Validate.
