(* ===== verification/ValidateProofs.v ===== *)
(** * Validation: cycles, plans and runs

    [ValidateProofs] proves what the parts of [Validate] promise: the reported
    cycles of profiles are cycles and are all there is to refuse
    ([validationProfileCycles_exact]); a plan has every profile that the requested
    ones reach, once, with its steps ([plan_exact]); a run of a plan stops at the
    first failure and is successful only if every step was
    ([executeValidationPlan_spec]); and the segments of a glob match as the
    relation [Segments] says. *)
From stdpp Require Import base tactics list gmap strings relations.
From Stdlib Require Import ZArith Lia Ascii.
From S2P Require Import Prelude GoStrings Router EnvFile Paths AppConfig StateM Globs Tasks TasksProofs Validate.
Import StateM Tasks Validate TasksProofs.

Module ValidateProofs.

Section profiles.
Context (cfg : AppConfig.Config).

(** [names p q]: the profile [p] has [q] as a step. *)
Definition names (p q : string) : Prop := exists prof, profiles cfg !! p = Some prof /\ q ∈ children prof.

(** ** Cycles *)

(** A walk along [names]. *)
Fixpoint path (l : list string) : Prop :=
  match l with
  | p :: ((q :: _) as rest) => names p q /\ path rest
  | _ => True
  end.

Lemma path_snoc l p q : path (l ++ [p]) -> names p q -> path (l ++ [p; q]).
Proof.
  induction l as [|x l IH]; cbn; [done|]. destruct l as [|y l]; cbn in *; [tauto|]. intros [H1 H2] H3. split; [done|]. by apply IH.
Qed.

Lemma path_app_r l1 l2 : path (l1 ++ l2) -> path l2.
Proof.
  induction l1 as [|x l1 IH]; [done|]. cbn. destruct (l1 ++ l2) as [|y l] eqn:E; [|intros [_ H]; by apply IH].
  apply app_eq_nil in E as [-> ->]. done.
Qed.

Lemma path_tc p l q : path (p :: l ++ [q]) -> tc names p q.
Proof.
  revert p. induction l as [|x l IH]; intros p; cbn.
  - intros [H _]. by apply tc_once.
  - intros [H1 H2]. eapply tc_l; [exact H1|]. by apply IH.
Qed.

Definition is_cycle (c : list string) : Prop := exists p l, c = p :: l ++ [p] /\ path c.

Lemma from_active_Some name stack tail : from_active name stack = Some tail -> exists before l, stack = before ++ tail /\ tail = name :: l.
Proof.
  induction stack as [|a stack IH]; cbn; [done|]. destruct (String.eqb_spec a name) as [->|Hne].
  - intros [= <-]. by exists [], stack.
  - intros H. destruct (IH H) as (b & l & -> & ->). by exists (a :: b), l.
Qed.

Lemma from_active_None name stack : from_active name stack = None <-> (name ∉ stack).
Proof.
  induction stack as [|a stack IH]; cbn; [split; [by intros _ ?%not_elem_of_nil|done]|].
  destruct (String.eqb_spec a name) as [->|Hne]; [split; [done|]; intros H; exfalso; apply H; by left|].
  rewrite IH. rewrite not_elem_of_cons. naive_solver.
Qed.

(** What the walk reports is a cycle. *)
Lemma walk_sound fuel : forall name stack c, path (stack ++ [name]) -> c ∈ walk_cycles fuel cfg name stack -> is_cycle c.
Proof.
  induction fuel as [|fuel IH]; intros name stack c Hp; cbn [walk_cycles]; [by intros ?%not_elem_of_nil|].
  destruct (from_active name stack) as [tail|] eqn:E.
  - intros ->%list_elem_of_singleton. apply from_active_Some in E as (b & l & -> & ->). exists name, l. split; [done|].
    rewrite <- app_assoc in Hp. by apply path_app_r in Hp.
  - destruct (profiles cfg !! name) as [prof|] eqn:Hn; [|by intros ?%not_elem_of_nil].
    rewrite list_elem_of_In, in_concat. intros (cs & Hcs & Hc). apply in_map_iff in Hcs as (child & <- & Hchild).
    eapply (IH child (stack ++ [name]) c); [|by apply list_elem_of_In]. rewrite <- app_assoc. apply path_snoc; [done|].
    exists prof. split; [done|by apply list_elem_of_In].
Qed.

(** A profile from which a cycle can be reached. *)
Definition doomed (name : string) : Prop := exists q, rtc names name q /\ tc names q q.

Lemma doomed_child name : doomed name -> exists child, names name child /\ doomed child.
Proof.
  intros (q & Hr & Hq). inversion Hr as [|? m ? Hm Hmq]; subst.
  - inversion Hq as [? ? H1|? m ? H1 H2]; subst; [exists q|exists m].
    + split; [done|]. by exists q.
    + split; [done|]. exists q. split; [by apply tc_rtc|done].
  - exists m. split; [done|]. by exists q.
Qed.

Definition room (fuel : nat) (stack : list string) : Prop :=
  NoDup stack /\ (forall x, x ∈ stack -> is_Some (profiles cfg !! x)) /\ (size (profiles cfg) < fuel + length stack)%nat.

Lemma walk_complete fuel : forall name stack, room fuel stack -> doomed name -> walk_cycles fuel cfg name stack <> [].
Proof.
  induction fuel as [|fuel IH]; intros name stack (Hnd & Hin & Hlt) Hd; [pose proof (NoDup_dom_length _ _ Hnd Hin); lia|].
  cbn [walk_cycles]. destruct (from_active name stack) eqn:E; [done|]. apply from_active_None in E.
  destruct (doomed_child _ Hd) as (child & (prof & Hp & Hc) & Hd'). rewrite Hp.
  assert (Hroom : room fuel (stack ++ [name])).
  { split_and!; [|intros x [Hx| ->%list_elem_of_singleton]%elem_of_app; [by apply Hin|by exists prof]|rewrite length_app; cbn; lia].
    apply NoDup_app. split_and!; [done| |apply NoDup_singleton]. by intros x Hx ->%list_elem_of_singleton. }
  specialize (IH child _ Hroom Hd'). intros Hnil. apply IH. apply elem_of_nil_inv. intros c Hcc.
  assert (Hbad : c ∈ []); [|by apply not_elem_of_nil in Hbad]. rewrite <- Hnil. apply list_elem_of_In, in_concat. exists (walk_cycles fuel cfg child (stack ++ [name])).
  split; [|by apply list_elem_of_In]. apply in_map_iff. exists child. split; [done|by apply list_elem_of_In].
Qed.

Lemma sorted_names_in name : name ∈ sorted_names cfg <-> is_Some (profiles cfg !! name).
Proof.
  unfold sorted_names, Router.sort_strings. rewrite sort_stable_perm, list_elem_of_fmap. split.
  - intros ([n prof] & -> & H). apply elem_of_map_to_list in H. by exists prof.
  - intros [prof H]. exists (name, prof). split; [done|]. by apply elem_of_map_to_list.
Qed.

(** C31. Every cycle that is reported is a cycle of the profiles, and if there is
    one at all some cycle is reported: a configuration without reported cycles
    has none. *)
Theorem validationProfileCycles_exact :
  (forall c, c ∈ validationProfileCycles cfg -> is_cycle c)
  /\ (validationProfileCycles cfg = [] <-> forall p, ~ tc names p p).
Proof.
  assert (Hsound : forall c, c ∈ validationProfileCycles cfg -> is_cycle c).
  { intros c. unfold validationProfileCycles. rewrite list_elem_of_In, in_concat. intros (cs & Hcs & Hc).
    apply in_map_iff in Hcs as (name & <- & _). eapply (walk_sound _ name []); [done|by apply list_elem_of_In]. }
  split; [exact Hsound|]. split.
  - intros Hnil p Hp. assert (Hconf : is_Some (profiles cfg !! p)).
    { inversion Hp as [? ? (prof & H & _)|? ? ? (prof & H & _) _]; subst; by exists prof. }
    apply (walk_complete (S (size (profiles cfg))) p []).
    + split_and!; [constructor|by intros x ?%not_elem_of_nil|cbn; lia].
    + by exists p.
    + apply elem_of_nil_inv. intros c Hc. assert (Hbad : c ∈ []); [|by apply not_elem_of_nil in Hbad]. rewrite <- Hnil.
      apply list_elem_of_In, in_concat. exists (walk_cycles (S (size (profiles cfg))) cfg p []). split; [|by apply list_elem_of_In].
      apply in_map_iff. exists p. split; [done|]. by apply list_elem_of_In, sorted_names_in.
  - intros Hac. apply elem_of_nil_inv. intros c Hc. destruct (Hsound c Hc) as (p & l & -> & Hpath). apply (Hac p). by eapply path_tc.
Qed.
End profiles.

(** ** Plans *)
Section plans.
Context {OO : AppConfig.ObjectOrder} (root : string) (cfg : AppConfig.Config).

(** What a step of a plan says it runs. *)
Definition label (st : validationPlanStep) : string * string := (st_Name st, st_Kind st).

Definition steps_for (p : string) (steps : list validationPlanStep) : list (string * string) :=
  map label (List.filter (fun st => String.eqb (st_Profile st) p) steps).

(** The steps a list of steps has itself. *)
Definition own (steps : list string) : list (string * string) :=
  omap (fun step => let ref := parseValidationStep step in if String.eqb (Kind ref) "profile" then None else Some (Raw ref, Kind ref)) steps.

Lemma steps_for_snoc p steps st :
  steps_for p (steps ++ [st]) = steps_for p steps ++ (if String.eqb (st_Profile st) p then [label st] else []).
Proof. unfold steps_for. rewrite List.filter_app, map_app. f_equal. cbn. by case_match. Qed.

(** The plan in the making: the profiles are those seen, each once, and only
    they have steps. *)
Definition plan_ok (s : plan_state) : Prop :=
  NoDup (ps_Profiles s) /\ (forall p, p ∈ ps_Profiles s <-> p ∈ seen s) /\ (forall p, p ∈ seen s -> is_Some (profiles cfg !! p))
  /\ (forall p, (p ∉ seen s) -> steps_for p (ps_Steps s) = []).

(** From [s] to [s'] some profiles were added, with all they name, and nothing
    else changed. *)
Definition extends (s s' : plan_state) : Prop :=
  (forall p, p ∈ seen s -> p ∈ seen s' /\ steps_for p (ps_Steps s') = steps_for p (ps_Steps s))
  /\ (forall p prof, p ∈ seen s' -> (p ∉ seen s) -> profiles cfg !! p = Some prof ->
      steps_for p (ps_Steps s') = own (AppConfig.vp_Steps prof)
      /\ forall q, q ∈ children prof -> is_Some (profiles cfg !! q) -> q ∈ seen s').

Lemma extends_refl s : extends s s.
Proof. split; [done|]. intros p prof H Hn. by destruct Hn. Qed.

Lemma extends_trans s1 s2 s3 : extends s1 s2 -> extends s2 s3 -> extends s1 s3.
Proof.
  intros [A1 B1] [A2 B2]. split.
  - intros p Hp. destruct (A1 p Hp) as [H1 E1]. destruct (A2 p H1) as [H2 E2]. split; [done|congruence].
  - intros p prof Hp Hn Hprof. destruct (decide (p ∈ seen s2)) as [H2|H2]; [|by apply B2].
    destruct (A2 p H2) as [_ E2]. destruct (B1 p prof H2 Hn Hprof) as [E1 C1]. split; [congruence|].
    intros q Hq Hs. by apply A2, C1.
Qed.

(** Every profile that was added is reached from [from]. *)
Definition reached (from : string) (s s' : plan_state) : Prop := forall p, p ∈ seen s' -> p ∈ seen s \/ rtc (names cfg) from p.

(** What adding the profile [name] promises. *)
Definition adds (name : string) (s s' : plan_state) : Prop :=
  plan_ok s' /\ extends s s' /\ reached name s s' /\ (is_Some (profiles cfg !! name) -> name ∈ seen s').

(** Fuel for the profiles that were not seen yet. *)
Definition enough (fuel : nat) (s : plan_state) : Prop := (size (profiles cfg) < fuel + length (ps_Profiles s))%nat.

Lemma plan_ok_length s : plan_ok s -> (length (ps_Profiles s) <= size (profiles cfg))%nat.
Proof. intros (Hnd & Hmem & Hconf & _). apply NoDup_dom_length; [done|]. intros x Hx. by apply Hconf, Hmem. Qed.

Lemma grown s s' : plan_ok s -> plan_ok s' -> extends s s' -> (length (ps_Profiles s) <= length (ps_Profiles s'))%nat.
Proof.
  intros (Hnd & Hmem & _) (_ & Hmem' & _) [Hext _]. apply submseteq_length, NoDup_submseteq; [done|].
  intros x Hx. by apply Hmem', Hext, Hmem.
Qed.

(** While the steps of [name] are added: what was done of them is there. *)
Definition inside (name : string) (prof : AppConfig.ValidationProfileConfig) (s0 : plan_state) (done : list string) (s : plan_state) : Prop :=
  plan_ok s /\ name ∈ seen s /\ steps_for name (ps_Steps s) = own done
  /\ (forall p, p ∈ seen s0 -> p ∈ seen s /\ steps_for p (ps_Steps s) = steps_for p (ps_Steps s0))
  /\ (forall p prof', p ∈ seen s -> (p ∉ seen s0) -> p <> name -> profiles cfg !! p = Some prof' ->
      steps_for p (ps_Steps s) = own (AppConfig.vp_Steps prof') /\ forall q, q ∈ children prof' -> is_Some (profiles cfg !! q) -> q ∈ seen s)
  /\ (forall q, q ∈ omap (fun step => let ref := parseValidationStep step in if String.eqb (Kind ref) "profile" then Some (ref_Name ref) else None) done ->
      is_Some (profiles cfg !! q) -> q ∈ seen s)
  /\ (forall p, p ∈ seen s -> p ∈ seen s0 \/ rtc (names cfg) name p).

Lemma steps_for_enter p name s : steps_for p (ps_Steps (enter name s)) = steps_for p (ps_Steps s).
Proof. done. Qed.

Lemma inside_enter name prof s : plan_ok s -> (name ∉ seen s) -> profiles cfg !! name = Some prof -> inside name prof s [] (enter name s).
Proof.
  intros (Hnd & Hmem & Hconf & Hnone) Hn Hp. unfold inside, plan_ok. cbn [enter ps_Profiles ps_Steps seen]. split_and!.
  - apply NoDup_app. split_and!; [done| |apply NoDup_singleton]. intros x Hx ->%list_elem_of_singleton. by apply Hn, Hmem.
  - intros p. rewrite elem_of_app, list_elem_of_singleton, Hmem, elem_of_union, elem_of_singleton. tauto.
  - intros p [->%elem_of_singleton|Hp']%elem_of_union; [by exists prof|by apply Hconf].
  - intros p Hp'. apply Hnone. set_solver.
  - set_solver.
  - by apply Hnone.
  - intros p Hp'. split; [set_solver|done].
  - intros p prof' Hp' Hn' Hne. set_solver.
  - by intros q ?%not_elem_of_nil.
  - intros p [->%elem_of_singleton|Hp']%elem_of_union; [by right|by left].
Qed.

Lemma own_snoc done step : own (done ++ [step]) = own done ++ own [step].
Proof. unfold own. apply omap_app. Qed.

Lemma inside_step name prof s0 done s step st :
  inside name prof s0 done s -> (name ∉ seen s0) -> Kind (parseValidationStep step) <> "profile" ->
  st_Profile st = name -> label st = (Raw (parseValidationStep step), Kind (parseValidationStep step)) ->
  inside name prof s0 (done ++ [step]) (add_step st s).
Proof.
  intros ((Hnd & Hmem & Hconf & Hnone) & Hin & Hown & Hold & Hnew & Hch & Hreach) Hn Hk Hst Hlab.
  unfold inside, plan_ok. cbn [add_step ps_Profiles ps_Steps seen].
  assert (Hother : forall p, p <> name -> steps_for p (ps_Steps s ++ [st]) = steps_for p (ps_Steps s)).
  { intros p Hp. rewrite steps_for_snoc, Hst. destruct (String.eqb_spec name p) as [->|]; [done|]. by rewrite app_nil_r. }
  split_and!; [done..| | | | | | |].
  - intros p Hp. rewrite Hother; [by apply Hnone|]. by intros ->.
  - done.
  - rewrite steps_for_snoc, Hst, String.eqb_refl, own_snoc, Hown, Hlab. f_equal. unfold own. cbn.
    destruct (String.eqb_spec (Kind (parseValidationStep step)) "profile"); done.
  - intros p Hp. rewrite Hother; [by apply Hold|]. by intros ->.
  - intros p prof' Hp Hn' Hne Hprof. rewrite Hother by done. by apply Hnew.
  - intros q. rewrite omap_app, elem_of_app. intros [Hq|Hq]; [by apply Hch|]. cbn in Hq.
    destruct (String.eqb_spec (Kind (parseValidationStep step)) "profile"); [done|]. by apply not_elem_of_nil in Hq.
  - done.
Qed.

Lemma inside_profile name prof s0 done s step s' :
  inside name prof s0 done s -> (name ∉ seen s0) -> Kind (parseValidationStep step) = "profile" ->
  names cfg name (ref_Name (parseValidationStep step)) -> adds (ref_Name (parseValidationStep step)) s s' ->
  inside name prof s0 (done ++ [step]) s'.
Proof.
  intros (Hok & Hin & Hown & Hold & Hnew & Hch & Hreach) Hn Hk Hnames (Hok' & [Hext Hfresh] & Hr & Hadd).
  set (q := ref_Name (parseValidationStep step)) in *. split_and!; [done|by apply Hext| | | | |].
  - rewrite (proj2 (Hext name Hin)), own_snoc, Hown. unfold own. cbn. rewrite Hk. by rewrite app_nil_r.
  - intros p Hp. destruct (Hold p Hp) as [H1 E1]. destruct (Hext p H1) as [H2 E2]. split; [done|congruence].
  - intros p prof' Hp Hn' Hne Hprof. destruct (decide (p ∈ seen s)) as [H1|H1]; [|by apply Hfresh].
    destruct (Hnew p prof' H1 Hn' Hne Hprof) as [E1 C1]. rewrite (proj2 (Hext p H1)). split; [done|]. intros q' Hq' Hs. by apply Hext, C1.
  - intros q'. rewrite omap_app, elem_of_app. intros [Hq'|Hq'] Hs; [by apply Hext, Hch|]. cbn in Hq'. rewrite Hk in Hq'.
    apply list_elem_of_singleton in Hq' as ->. by apply Hadd.
  - intros p Hp. destruct (Hr p Hp) as [H1|H1]; [by apply Hreach|]. right. by eapply rtc_l.
Qed.

Lemma inside_adds name prof s0 s : profiles cfg !! name = Some prof -> (name ∉ seen s0) -> inside name prof s0 (AppConfig.vp_Steps prof) s -> adds name s0 s.
Proof.
  intros Hp Hn (Hok & Hin & Hown & Hold & Hnew & Hch & Hreach). split_and!; [done| |done|done]. split; [done|].
  intros p prof' Hp' Hn' Hprof. destruct (decide (p = name)) as [->|Hne]; [|by apply Hnew].
  rewrite Hp in Hprof. injection Hprof as <-. split; [done|]. intros q Hq. by apply Hch.
Qed.

Lemma inside_length name prof s0 done s : plan_ok s0 -> (name ∉ seen s0) -> inside name prof s0 done s -> (length (ps_Profiles s0) < length (ps_Profiles s))%nat.
Proof.
  intros (Hnd & Hmem & _) Hn ((Hnd' & Hmem' & _) & Hin & _ & Hold & _).
  assert (H : (length (name :: ps_Profiles s0) <= length (ps_Profiles s))%nat); [|cbn in H; lia].
  apply submseteq_length, NoDup_submseteq.
  - constructor; [by rewrite Hmem|done].
  - intros x [->|Hx]%elem_of_cons; [by apply Hmem'|]. by apply Hmem', Hold, Hmem.
Qed.

Lemma children_elem prof step : step ∈ AppConfig.vp_Steps prof -> Kind (parseValidationStep step) = "profile" ->
  ref_Name (parseValidationStep step) ∈ children prof.
Proof. intros Hs Hk. unfold children. apply list_elem_of_omap. exists step. split; [done|]. by rewrite Hk. Qed.

Lemma add_steps_inside rec mk name prof s0 :
  plan_ok s0 -> (name ∉ seen s0) -> profiles cfg !! name = Some prof ->
  (forall idx ref, st_Profile (mk idx ref) = name /\ label (mk idx ref) = (Raw ref, Kind ref)) ->
  (forall q s, plan_ok s -> name ∈ seen s -> (forall p, p ∈ seen s0 -> p ∈ seen s) -> (length (ps_Profiles s0) < length (ps_Profiles s))%nat ->
    adds q s (rec q s)) ->
  forall steps idx done s, done ++ steps = AppConfig.vp_Steps prof -> inside name prof s0 done s ->
  inside name prof s0 (AppConfig.vp_Steps prof) (add_steps rec mk idx steps s).
Proof.
  intros Hok0 Hn Hp Hmk Hrec steps. induction steps as [|step steps IH]; intros idx done s Hsplit Hins; cbn [add_steps].
  - rewrite app_nil_r in Hsplit. by subst done.
  - apply (IH _ (done ++ [step])); [by rewrite <- app_assoc|].
    destruct (String.eqb_spec (Kind (parseValidationStep step)) "profile") as [Hk|Hk].
    + eapply inside_profile; [exact Hins|done|done| |].
      * exists prof. split; [done|]. apply children_elem; [|done]. rewrite <- Hsplit. apply elem_of_app. right. by left.
      * pose proof (inside_length _ _ _ _ _ Hok0 Hn Hins). destruct Hins as (Hok & Hin & _ & Hold & _). apply Hrec; [done|done| |done]. intros p' Hp'. by apply Hold.
    + destruct (Hmk idx (parseValidationStep step)). by eapply inside_step.
Qed.

(** Adding a profile keeps its promise; the check for cycles on the way never
    fires, since the active profiles have been seen. *)
Lemma add_profile_adds fuel : forall stack env name s,
  plan_ok s -> (forall x, x ∈ stack -> x ∈ seen s) -> enough fuel s -> adds name s (add_profile fuel root cfg stack env name s).
Proof.
  induction fuel as [|fuel IH]; intros stack env name s Hok Hstack Hen.
  { pose proof (plan_ok_length _ Hok). unfold enough in Hen. lia. }
  cbn [add_profile]. case_bool_decide as Hseen; [split_and!; [done|apply extends_refl|by left|done]|].
  destruct (profiles cfg !! name) as [prof|] eqn:Hp.
  - rewrite stack_mem, bool_decide_false by (intros H; by apply Hseen, Hstack).
    eapply inside_adds; [exact Hp|done|]. apply (add_steps_inside _ _ name prof s) with (done := []); [done|done|done| | |done|].
    + intros idx ref. done.
    + intros q s1 Hok1 Hin Hold Hlen. apply IH; [done| |unfold enough in *; lia].
      intros x [Hx| ->%list_elem_of_singleton]%elem_of_app; [by apply Hold, Hstack|done].
    + by apply inside_enter.
  - split_and!; [exact Hok|split; [done|]; intros ? ? H Hn; by destruct Hn|by left|intros H; rewrite Hp in H; by destruct H].
Qed.

(** The plan of several profiles, while they are added. *)
Definition collects (asked : list string) (s : plan_state) : Prop :=
  plan_ok s
  /\ (forall p prof, p ∈ seen s -> profiles cfg !! p = Some prof ->
      steps_for p (ps_Steps s) = own (AppConfig.vp_Steps prof) /\ forall q, q ∈ children prof -> is_Some (profiles cfg !! q) -> q ∈ seen s)
  /\ (forall p, p ∈ seen s -> exists n, n ∈ asked /\ Strings.TrimSpace n <> "" /\ rtc (names cfg) n p)
  /\ (forall n, n ∈ asked -> Strings.TrimSpace n <> "" -> is_Some (profiles cfg !! n) -> n ∈ seen s).

Lemma collects_add asked s name : collects asked s -> Strings.TrimSpace name <> "" -> collects (asked ++ [name]) (addValidationProfile root cfg name s).
Proof.
  intros (Hok & Hcl & Hfrom & Hasked) Hne.
  destruct (add_profile_adds (S (size (profiles cfg))) [] ∅ name s Hok) as (Hok' & [Hext Hnew] & Hr & Hadd).
  { by intros x ?%not_elem_of_nil. } { unfold enough. lia. }
  split_and!; [done| | |].
  - intros p prof Hp Hprof. destruct (decide (p ∈ seen s)) as [H1|H1]; [|by apply Hnew].
    destruct (Hcl p prof H1 Hprof) as [E C]. unfold addValidationProfile. rewrite (proj2 (Hext p H1)). split; [done|].
    intros q Hq Hs. by apply Hext, C.
  - intros p Hp. destruct (Hr p Hp) as [H1|H1].
    + destruct (Hfrom p H1) as (n & Hn & ? & ?). exists n. split; [apply elem_of_app; by left|done].
    + exists name. split; [apply elem_of_app; right; by left|done].
  - intros n [Hn| ->%list_elem_of_singleton]%elem_of_app Hnb Hs; [by apply Hext, Hasked|by apply Hadd].
Qed.

Lemma collects_blank asked s name : collects asked s -> Strings.TrimSpace name = "" -> collects (asked ++ [name]) s.
Proof.
  intros (Hok & Hcl & Hfrom & Hasked) Hb. split_and!; [done|done| |].
  - intros p Hp. destruct (Hfrom p Hp) as (n & Hn & ? & ?). exists n. split; [apply elem_of_app; by left|done].
  - intros n [Hn| ->%list_elem_of_singleton]%elem_of_app Hnb; [by apply Hasked|done].
Qed.

Lemma collects_fold names_ : forall asked s, collects asked s ->
  collects (asked ++ names_)
    (fold_left (fun s name => if String.eqb (Strings.TrimSpace name) "" then s else addValidationProfile root cfg name s) names_ s).
Proof.
  induction names_ as [|n ns IH]; intros asked s H; [by rewrite app_nil_r|]. cbn [fold_left].
  replace (asked ++ n :: ns) with ((asked ++ [n]) ++ ns) by by rewrite <- app_assoc. apply IH.
  destruct (String.eqb_spec (Strings.TrimSpace n) "") as [Hb|Hb]; [by apply collects_blank|by apply collects_add].
Qed.

Lemma collects_nil diags : collects [] {| ps_Profiles := []; ps_Steps := []; ps_Diagnostics := diags; seen := ∅ |}.
Proof.
  split_and!; cbn.
  - split_and!; [constructor| |set_solver|done]. intros p. cbn. set_solver.
  - set_solver.
  - set_solver.
  - by intros n ?%not_elem_of_nil.
Qed.

(** C32. A plan holds exactly the configured profiles that the requested ones
    reach through their steps, each once, whatever the cycles, and for each of
    them its own steps in their order. *)
Theorem plan_exact lab asked sel :
  let plan := buildValidationMultiPlan root cfg lab asked sel in
  NoDup (pl_Profiles plan)
  /\ (forall p, p ∈ pl_Profiles plan <-> is_Some (profiles cfg !! p) /\ exists n, n ∈ asked /\ Strings.TrimSpace n <> ""
        /\ is_Some (profiles cfg !! n) /\ rtc (names cfg) n p)
  /\ (forall p, steps_for p (pl_Steps plan) =
        match profiles cfg !! p with Some prof => if bool_decide (p ∈ pl_Profiles plan) then own (AppConfig.vp_Steps prof) else [] | None => [] end).
Proof.
  cbv zeta. unfold buildValidationMultiPlan. cbn [pl_Profiles pl_Steps].
  destruct (collects_fold asked [] _ (collects_nil (validateValidationConfig root cfg))) as ((Hnd & Hmem & Hconf & Hnone) & Hcl & Hfrom & Hasked).
  set (s := fold_left _ _ _) in *. split_and!; [done| |].
  - intros p. rewrite Hmem. split.
    + intros Hp. split; [by apply Hconf|]. destruct (Hfrom p Hp) as (n & Hn & Hb & Hr). exists n. split_and!; try done.
      inversion Hr as [|? m ? (prof & H & _)]; subst; [by apply Hconf|by exists prof].
    + intros [Hs (n & Hn & Hb & Hsn & Hr)]. assert (Hin : n ∈ seen s) by by apply Hasked.
      clear Hn Hb Hsn. induction Hr as [n|n m p (prof & Hprof & Hm) Hr IH]; [done|]. apply IH; [done|].
      apply (proj2 (Hcl n prof Hin Hprof) m Hm). inversion Hr as [|? m' ? (prof' & H & _)]; subst; [done|by exists prof'].
  - intros p. destruct (decide (p ∈ seen s)) as [Hp|Hp].
    + destruct (Hconf p Hp) as [prof Hprof]. rewrite Hprof, bool_decide_true by by apply Hmem. by apply Hcl.
    + rewrite Hnone by done. case_match; [|done]. rewrite bool_decide_false; [done|]. by rewrite Hmem.
Qed.
End plans.

(** ** Runs *)
Section runs.
Context {UT : UnicodeTables} {OO : AppConfig.ObjectOrder} {SS : SliceSort} {W : Type} {TE : TaskEnv W} {VE : ValidateEnv W}.
Context (root : string) (cfg : AppConfig.Config).
Abbreviation M := (Run (world W)).

(** A program without errors: it returns or panics. *)
Definition faultless {A} (m : M A) : Prop := forall w e, (m w).2 <> Fail e.

Lemma faultless_ret {A} (x : A) : faultless (mret x).
Proof. done. Qed.
Lemma faultless_gets {A} (f : world W -> A) : faultless (gets f).
Proof. done. Qed.
Lemma faultless_attempt {A} (m : M A) : faultless (attempt m).
Proof. intros w e. unfold attempt. by destruct (m w). Qed.
Lemma faultless_panic {A} e : faultless (lift (A := A) (S := world W) (Panic e)).
Proof. done. Qed.
Lemma faultless_modify f : faultless (modify (S := world W) f).
Proof. done. Qed.
Lemma faultless_bind {A B} (m : M A) (f : A -> M B) : faultless m -> (forall x, faultless (f x)) -> faultless (mbind f m).
Proof.
  intros Hm Hf w e. unfold mbind, Run_bind. specialize (Hm w). destruct (m w) as [w' [x|e'|e']]; cbn in *; [apply Hf|by intros [= ->]; apply (Hm e)|done].
Qed.

Create HintDb faultless discriminated.
#[local] Hint Resolve faultless_ret faultless_gets faultless_attempt faultless_panic faultless_modify faultless_bind : faultless.
#[local] Hint Extern 1 (faultless (match ?x with _ => _ end)) => destruct x : faultless.
#[local] Hint Extern 1 (faultless (look _)) => apply faultless_gets : faultless.
#[local] Hint Extern 1 (faultless reset_buffers) => apply faultless_modify : faultless.
#[local] Hint Extern 1 (forall _, faultless _) => intros ? : faultless.

Lemma faultless_write_artifact ctx n k d : faultless (write_artifact ctx n k d).
Proof. unfold write_artifact. auto 9 with faultless. Qed.
#[local] Hint Resolve faultless_write_artifact : faultless.

Lemma faultless_artifacts ctx n out err : faultless (writeValidationOutputArtifacts ctx n out err).
Proof. unfold writeValidationOutputArtifacts. auto 12 with faultless. Qed.
#[local] Hint Resolve faultless_artifacts : faultless.

Lemma faultless_step ctx capture step : faultless (runValidationStep root cfg ctx capture step).
Proof. unfold runValidationStep. cbv zeta. auto 20 with faultless. Qed.
#[local] Hint Resolve faultless_step : faultless.

Lemma faultless_steps (run : validationPlanStep -> M validationResultStep) steps : (forall step, faultless (run step)) -> faultless (run_steps run steps).
Proof. intros Hrun. induction steps as [|step steps IH]; cbn [run_steps]; auto 9 with faultless. Qed.
#[local] Hint Resolve faultless_steps : faultless.

Lemma faultless_execute plan opts : faultless (executeValidationPlan root cfg plan opts).
Proof. unfold executeValidationPlan, newValidationArtifactContext. cbv zeta. auto 20 with faultless. Qed.

Lemma step_ID ctx capture step w w' res : runValidationStep root cfg ctx capture step w = (w', Ret res) -> rs_ID res = st_ID step.
Proof.
  intros H. unfold runValidationStep in H. cbv zeta in H.
  do 6 (apply bind_returns in H as (? & ? & _ & H)). apply bind_returns in H as (? & [arts diags] & _ & H).
  apply bind_returns in H as (? & ? & _ & H). by injection H as <- <-.
Qed.

(** The steps that were run: those of the plan in order, all successful but
    perhaps the last, and fewer only after a failure. *)
Definition ran (steps : list validationPlanStep) (results : list validationResultStep) : Prop :=
  (map rs_ID results = map st_ID steps /\ Forall (fun r => OK r = true) results)
  \/ exists front last, results = front ++ [last] /\ OK last = false /\ Forall (fun r => OK r = true) front
     /\ map rs_ID results `prefix_of` map st_ID steps.

Lemma run_steps_ran (run : validationPlanStep -> M validationResultStep) steps : (forall step w w' res, run step w = (w', Ret res) -> rs_ID res = st_ID step) ->
  forall w w' results, run_steps run steps w = (w', Ret results) -> ran steps results.
Proof.
  intros Hrun. induction steps as [|step steps IH]; intros w w' results H; cbn [run_steps] in H.
  - injection H as <- <-. left. by split.
  - apply bind_returns in H as (w1 & res & H1 & H). apply Hrun in H1. destruct (OK res) eqn:Hok; cbn [negb] in H.
    + apply bind_returns in H as (w2 & more & H2 & H). injection H as <- <-. destruct (IH _ _ _ H2) as [[E F]|(front & last & -> & Hl & F & P)].
      * left. split; [cbn; by rewrite H1, E|by constructor].
      * right. exists (res :: front), last. split_and!; [done|done|by constructor|]. cbn. rewrite H1. by apply prefix_cons.
    + injection H as <- <-. right. exists [], res. split_and!; [done|done|constructor|]. cbn. rewrite H1. apply prefix_cons, prefix_nil.
Qed.

Lemma failed_step_ran steps results : ran steps results ->
  match failed_step results with
  | Some last => exists front, results = front ++ [last] /\ OK last = false /\ Forall (fun r => OK r = true) front
  | None => map rs_ID results = map st_ID steps /\ Forall (fun r => OK r = true) results
  end.
Proof.
  assert (Hall : forall l, Forall (fun r => OK r = true) l -> List.find (fun s => negb (OK s)) l = None).
  { induction 1 as [|r l Hr _ IH]; [done|]. cbn. by rewrite Hr. }
  intros [[E F]|(front & last & -> & Hl & F & _)]; unfold failed_step.
  - by rewrite Hall.
  - assert (Hfind : List.find (fun s => negb (OK s)) (front ++ [last]) = Some last); [|rewrite Hfind; by exists front].
    induction F as [|r front Hr _ IH]; cbn; [by rewrite Hl|]. by rewrite Hr.
Qed.

(** C33. Executing a plan never ends in an error of its own: it returns a result
    (or a command it calls panics).  A plan with diagnostics runs nothing; else the
    steps run in their order up to the first failure, and the result is a
    success exactly when every step of the plan was run and succeeded. *)
Theorem executeValidationPlan_spec plan opts w :
  let '(w', r) := executeValidationPlan root cfg plan opts w in
  match r with
  | Fail _ => False
  | Panic _ => pl_Diagnostics plan = []
  | Ret res =>
    r_Diagnostics res = pl_Diagnostics plan
    /\ (pl_Diagnostics plan <> [] -> w' = w /\ r_Steps res = [] /\ r_OK res = false)
    /\ (pl_Diagnostics plan = [] -> ran (pl_Steps plan) (r_Steps res)
        /\ (r_OK res = true <-> map rs_ID (r_Steps res) = map st_ID (pl_Steps plan) /\ Forall (fun s => OK s = true) (r_Steps res)))
  end.
Proof.
  pose proof (faultless_execute plan opts w) as Hf. destruct (executeValidationPlan root cfg plan opts w) as [w' r] eqn:H. cbn in Hf.
  unfold executeValidationPlan, newValidationArtifactContext, look in H. cbv zeta in H. unfold gets in H.
  rewrite (bind_run _ _ w w (clock (outside w))) in H by done.
  erewrite (bind_run _ _ w w) in H by (rewrite (bind_run _ _ w w (clock (outside w))) by done; reflexivity).
  destruct (decide (pl_Diagnostics plan = [])) as [Hd|Hd]; [rewrite bool_decide_true in H by done|rewrite bool_decide_false in H by done]; cbn [negb] in H.
  - destruct r as [res|e|e]; [|by apply (Hf e)|done]. apply bind_returns in H as (w1 & results & H1 & H).
    apply run_steps_ran in H1; [|by apply step_ID]. pose proof (failed_step_ran _ _ H1) as Hfs.
    injection H as <- <-. destruct (failed_step results) as [last|]; cbn; (split_and!; [done|done|]); intros _; (split; [done|]).
    + destruct Hfs as (front & -> & Hl & _). split; [done|]. intros [_ F]. apply Forall_app in F as [_ F]. inversion F; congruence.
    + done.
  - injection H as <- <-. cbn. split_and!; [done|done|]. by intros H.
Qed.
End runs.

(** ** Globs *)

(** The segments of a pattern and of a file: two stars stand for any number of
    segments. *)
Inductive Segments : list string -> list string -> Prop :=
  | seg_nil : Segments [] []
  | seg_any ps skipped fs : Segments ps fs -> Segments ("**" :: ps) (skipped ++ fs)
  | seg_one p ps f fs : p <> "**" -> Globs.Match p f = Some true -> Segments ps fs -> Segments (p :: ps) (f :: fs).

Lemma validationGlobMatchSegments_spec ps : forall fs, validationGlobMatchSegments ps fs = true <-> Segments ps fs.
Proof.
  induction ps as [|p ps IH]; intros fs; cbn [validationGlobMatchSegments].
  - rewrite bool_decide_eq_true. split; [intros ->; constructor|by inversion 1].
  - destruct (String.eqb_spec p "**") as [->|Hp].
    + induction fs as [|f fs IHf].
      * rewrite orb_false_r, IH. split; [intros H; apply (seg_any ps [] []), H|].
        inversion 1 as [|? sk fs' H1 E1 E2|]; subst. by apply app_eq_nil in E2 as [-> ->].
      * rewrite orb_true_iff, IH, IHf. split.
        -- intros [H|H]; [by apply (seg_any ps [] (f :: fs))|]. inversion H as [|? sk fs' H1|]; subst; [|done].
           by apply (seg_any ps (f :: sk) fs').
        -- inversion 1 as [|? sk fs' H1 E1 E2|]; subst; [|done]. destruct sk as [|x sk]; cbn in E2; [left; by subst fs'|].
           injection E2 as -> <-. right. by constructor.
    + destruct fs as [|f fs]; [split; [done|by inversion 1]|]. rewrite andb_true_iff, IH. split.
      * intros [Hm H]. constructor; [done| |done]. unfold matches_ in Hm. destruct (Globs.Match p f) as [[]|]; done.
      * inversion 1; subst; [done|]. split; [|done]. by match goal with H : Globs.Match _ _ = _ |- _ => rewrite H end.
Qed.

(** A wildcard before a trailing [/**] is taken literally. *)
Example wildcard_before_stars :
  validationGlobMatches "services/*/db/**" "services/users/db/schema.sql" = false
  /\ Segments (Strings.Split "services/*/db/**" "/") (Strings.Split "services/users/db/schema.sql" "/")
  /\ validationGlobMatches "services/users/db/**" "services/users/db/schema.sql" = true.
Proof. split_and!; [reflexivity| |reflexivity]. by apply validationGlobMatchSegments_spec. Qed.

(** ** An application *)
#[local] Existing Instance ascii_tables.
#[local] Existing Instance AppConfig.demo_order.
#[local] Existing Instance stable_slice_sort.

Definition files := gmap string string.

Definition demo_task (run : string) (steps : list string) : AppConfig.TaskConfig :=
  {| AppConfig.tk_CWD := ""; AppConfig.tk_Run := run; AppConfig.tk_Steps := steps; AppConfig.tk_Env := ∅ |}.
Definition demo_profile (steps : list string) : AppConfig.ValidationProfileConfig :=
  {| AppConfig.vp_Description := ""; AppConfig.vp_Cost := ""; AppConfig.vp_Paths := []; AppConfig.vp_Steps := steps; AppConfig.vp_Env := ∅;
     AppConfig.vp_Artifacts := [] |}.

Definition demo_app (tasks : gmap string AppConfig.TaskConfig) (profs : gmap string AppConfig.ValidationProfileConfig) : AppConfig.Config :=
  let c := AppConfig.demo_config in
  {| AppConfig.Name := "demo"; AppConfig.ID := "demo"; AppConfig.Build := AppConfig.Build c; AppConfig.Proxy := AppConfig.Proxy c;
     AppConfig.Dev := AppConfig.Dev c; AppConfig.Generators := AppConfig.Generators c; AppConfig.Database := AppConfig.Database c;
     AppConfig.Tasks := tasks; AppConfig.Validation := {| AppConfig.Default := "quick"; AppConfig.Profiles := profs |};
     AppConfig.Auth := AppConfig.Auth c; AppConfig.Observability := AppConfig.Observability c; AppConfig.Temporal := AppConfig.Temporal c |}.

Definition shop : AppConfig.Config := demo_app
  (list_to_map [("build", demo_task "" ["task:compile"; "check"]); ("compile", demo_task "make" []); ("loop", demo_task "" ["task:loop"])])
  (list_to_map [("quick", demo_profile ["task:build"; "profile:full"]); ("full", demo_profile ["task:build"; "test"; "profile:quick"])]).

(** Every process prints [out]; with [stop] a signal has come and it dies. *)
Definition demo_tasks (stop : bool) : TaskEnv files := {|
  windows := false; discover := fun _ _ => Ret ("/app", shop); file_exists := fun p o => bool_decide (is_Some (o !! p)); is_dir := fun _ _ => false;
  read_dir := fun _ _ => Ret []; read_file := fun _ _ => EnvFile.NotExist; look_path := fun p _ => Some p; environ := fun _ => [];
  interrupted := fun _ => stop; execute := fun _ o => (o, if stop then Fail "signal: killed" else Ret tt, ("out", ""));
  command := fun _ _ o => (o, Ret tt, ("out", "")) |}.

#[local] Instance demo_validate : ValidateEnv files := {|
  clock := fun _ => 0; rfc3339nano := fun _ => ""; run_id := fun _ => "run"; git := fun _ _ _ => Ret ""; eval_symlinks := fun p _ => Ret p;
  mkdir_all := fun _ o => (o, Ret tt); write_file := fun p d o => (<[p := d]> o, Ret tt); pipes := fun _ => Ret tt;
  exit_code := fun _ => None; marshal_result := fun _ => "" |}.

Definition at_rest : world files := {| outside := ∅; stdout := ""; stderr := "" |}.

Example a_task_and_a_cycle :
  (runConfiguredTask (TE := demo_tasks false) "/app" shop "build" at_rest).2 = Ret tt
  /\ (runConfiguredTask (TE := demo_tasks false) "/app" shop "loop" at_rest).2 = Fail "task cycle detected: loop -> loop".
Proof. vm_compute. split; reflexivity. Qed.

(** The two profiles name each other: the plan has each once, and is refused. *)
Example a_cycle_is_reported :
  let plan := buildValidationNamedPlan "/app" shop "quick" (requested "explicit" ["quick"]) in
  pl_Profiles plan = ["quick"; "full"] /\ map st_Name (pl_Steps plan) = ["task:build"; "task:build"; "test"]
  /\ map Message (pl_Diagnostics plan) = ["profile cycle detected: full -> quick -> full"; "profile cycle detected: quick -> full -> quick"].
Proof. vm_compute. split_and!; reflexivity. Qed.

(** A code task that a signal ended counts as a success. *)
Example interrupted_task_succeeds :
  let w := {| outside := {["/app/db/tasks/load.task.ts" := ""]}; stdout := ""; stderr := "" |} in
  (runValidationTask (TE := demo_tasks true) "/app" shop Buffers ∅ "db:load" w).2 = Ret tt.
Proof. vm_compute. reflexivity. Qed.

(** Two steps of one name share the file of their output: the later one wins. *)
Example steps_share_an_artifact :
  let plan := {| pl_App := taskAppRef "/app" shop; pl_Profile := "quick"; pl_Selection := requested "explicit" ["quick"]; pl_Profiles := ["quick"];
                 pl_Steps := pl_Steps (buildValidationNamedPlan "/app" shop "quick" (requested "explicit" ["quick"])); pl_Diagnostics := [] |} in
  let opts := {| v_Action := "run"; Profile := "quick"; v_AppRoot := ""; v_JSON := true; Write_ := true; DryRun := false; Base := "" |} in
  match (executeValidationPlan (TE := demo_tasks false) "/app" shop plan opts at_rest).2 with
  | Ret res => map va_Path (r_Artifacts res)
      = [".scenery/harness/validation/artifacts/run/task-build-stdout.stdout.txt"; ".scenery/harness/validation/artifacts/run/task-build-stdout.stdout.txt";
         ".scenery/harness/validation/artifacts/run/test-stdout.stdout.txt"]
  | _ => False
  end.
Proof. vm_compute. reflexivity. Qed.
End ValidateProofs.
