(* ===== verification/Seeds.v ===== *)
(** * Database seeds ([cmd/scenery/db_seed.go])

    [Seeds] models the application of seed files: the blanking of strings,
    comments and dollar quotes, the split into statements with their lines, the
    patterns of destructive statements, and the runs against a ledger that says
    which seeds were applied.  The generated files, the digest and the database's
    address are arguments.  The server holds the ledger and the seeds whose
    transaction was committed, in order; every call may fail, and a commit may
    take effect although its answer is lost.  The patterns are regular
    expressions of ASCII words; what seed SQL does to the ledger itself is not
    modelled. *)
From stdpp Require Import base tactics list gmap strings.
From Stdlib Require Import ZArith Lia Ascii.
From S2P Require Import Prelude GoStrings Router AppConfig StateM Tasks.
Import StateM.

Module Seeds.
(** ** Data *)
Record dbSeedOptions := { AppRoot : string; DryRun : bool; JSON : bool }.
Record dbSeedPlan := { Service : string; Path : string; SQL : string; SHA256 : string }.
Record dbSeedSafetyDiagnostic := { g_Path : string; g_Line : nat; g_Message : string; Context : string }.
Record dbSeedRecord := {
  r_Service : string; r_Path : string; r_SHA256 : string; Status : string; Error : string; Diagnostics : list dbSeedSafetyDiagnostic
}.
Record dbSeedSummary := { Planned : nat; Applied : nat; Skipped : nat; Changed : nat; Failed : nat }.
Record dbSeedResult := { App : Tasks.AppRef; res_DryRun : bool; Seeds_ : list dbSeedRecord; Summary : dbSeedSummary }.
Record dbSeedSQLStatement := { Text : string; Line : nat }.

(** ** Blanking *)
Definition nl : ascii := chr 10.
Definition writeSeedSafetyBlank (b : ascii) : ascii := if Ascii.eqb b nl then nl else " "%char.

Fixpoint blank (s : string) : string := match s with EmptyString => "" | String c s' => String (writeSeedSafetyBlank c) (blank s') end.

(** The bytes up to the end of the line, and the rest. *)
Fixpoint to_newline (s : string) : string * string :=
  match s with
  | EmptyString => ("", "")
  | String c s' => if Ascii.eqb c nl then ("", s) else let '(a, b) := to_newline s' in (String c a, b)
  end.

(** A block comment up to its end, which is included. *)
Fixpoint to_comment_end (s : string) : string * string :=
  match s with
  | EmptyString => ("", "")
  | String c s' =>
    if Ascii.eqb c "*" then
      match s' with
      | String "/" s'' => (String c (String "/" ""), s'')
      | _ => let '(a, b) := to_comment_end s' in (String c a, b)
      end
    else let '(a, b) := to_comment_end s' in (String c a, b)
  end.

(** A quoted text up to its closing quote; two quotes stand for one. *)
Fixpoint to_quote (q : ascii) (s : string) : string * string :=
  match s with
  | EmptyString => ("", "")
  | String c s' =>
    if Ascii.eqb c q then
      match s' with
      | String d s'' => if Ascii.eqb d q then let '(a, b) := to_quote q s'' in (String c (String d a), b) else (String c "", s')
      | EmptyString => (String c "", "")
      end
    else let '(a, b) := to_quote q s' in (String c a, b)
  end.

Definition tag_byte (c : ascii) : bool :=
  Ascii.eqb c "_" || in_range 97 122 (code c) || in_range 65 90 (code c) || in_range 48 57 (code c).

(** After a dollar: the tag up to its closing dollar. *)
Fixpoint seedDollarTagEnd (s : string) : option (string * string) :=
  match s with
  | EmptyString => None
  | String c s' =>
    if Ascii.eqb c "$" then Some (String c "", s')
    else if tag_byte c then match seedDollarTagEnd s' with Some (a, b) => Some (String c a, b) | None => None end
    else None
  end.

(** A dollar quote's body and closing tag, or everything. *)
Definition to_tag (tag s : string) : string * string :=
  match Strings.Cut s tag with
  | (body, rest, true) => (body +:+ tag, rest)
  | _ => (s, "")
  end.

(** The next piece of SQL that is blanked or kept as a whole. *)
Definition next_piece (c : ascii) (s : string) : bool * string * string :=
  if Ascii.eqb c "-" && Strings.HasPrefix s "-" then let '(a, b) := to_newline s in (true, String c a, b)
  else if Ascii.eqb c "/" && Strings.HasPrefix s "*" then
    let '(a, b) := to_comment_end (Strings.TrimPrefix s "*") in (true, String c (String "*" a), b)
  else if Ascii.eqb c "'" || Ascii.eqb c (chr 34) then let '(a, b) := to_quote c s in (true, String c a, b)
  else if Ascii.eqb c "$" then
    match seedDollarTagEnd s with
    | None => (false, String c "", s)
    | Some (tag, body) => let '(a, b) := to_tag (String c tag) body in (true, String c tag +:+ a, b)
    end
  else (false, String c "", s).

Fixpoint sanitize_loop (fuel : nat) (sql : string) : string :=
  match fuel with
  | O => ""
  | S fuel =>
    match sql with
    | EmptyString => ""
    | String c s => let '(hidden, piece, rest) := next_piece c s in (if hidden then blank piece else piece) +:+ sanitize_loop fuel rest
    end
  end.

Definition sanitizeSQLForSeedSafety (sql : string) : string := sanitize_loop (String.length sql) sql.

(** ** Statements *)
Fixpoint split_loop (line startLine : nat) (cur sql : string) : list dbSeedSQLStatement :=
  match sql with
  | EmptyString => if String.eqb cur "" then [] else [{| Text := cur; Line := startLine |}]
  | String c rest =>
    let cur' := cur +:+ String c "" in
    if Ascii.eqb c ";" then {| Text := cur'; Line := startLine |} :: split_loop line line "" rest
    else if Ascii.eqb c nl then
      split_loop (S line) (if String.eqb (Strings.TrimSpace cur') "" then S line else startLine) cur' rest
    else split_loop line startLine cur' rest
  end.

Definition splitSQLStatements (sql : string) : list dbSeedSQLStatement := split_loop 1 1 "" sql.

(** ** Destructive statements *)
Definition re_space (c : ascii) : bool := existsb (Z.eqb (code c)) [9; 10; 12; 13; 32].
Definition re_word (c : ascii) : bool := tag_byte c.
Definition lower_byte (c : ascii) : ascii := if in_range 65 90 (code c) then chr (code c + 32) else c.

Fixpoint spaces (s : string) : string :=
  match s with String c s' => if re_space c then spaces s' else s | EmptyString => "" end.

Definition some_spaces (s : string) : option string :=
  match s with String c s' => if re_space c then Some (spaces s') else None | EmptyString => None end.

(** A word without regard to case. *)
Fixpoint word (w s : string) : option string :=
  match w, s with
  | EmptyString, _ => Some s
  | String a w', String c s' => if Ascii.eqb (lower_byte c) a then word w' s' else None
  | _, _ => None
  end.

Definition ends_word (s : string) : bool := match s with String c _ => negb (re_word c) | EmptyString => true end.

Definition found {A} (o : option A) : bool := match o with Some _ => true | None => false end.

(** [(^|;)]: at the beginning, or after a semicolon. *)
Fixpoint after_semicolon (f : string -> bool) (s : string) : bool :=
  match s with String c s' => (Ascii.eqb c ";" && f s') || after_semicolon f s' | EmptyString => false end.
Definition at_start (f : string -> bool) (s : string) : bool := f s || after_semicolon f s.

(** [\b] before a word. *)
Fixpoint at_word (f : string -> bool) (inside : bool) (s : string) : bool :=
  (negb inside && f s) || match s with String c s' => at_word f (re_word c) s' | EmptyString => false end.

Definition seedDropPattern (s : string) : bool := at_start (fun s => found (r ← word "drop" (spaces s); some_spaces r)) s.
Definition seedTruncatePattern (s : string) : bool := at_start (fun s => found (r ← word "truncate" (spaces s); some_spaces r)) s.
Definition seedDeletePattern (s : string) : bool :=
  at_start (fun s => found (r ← word "delete" (spaces s); r ← some_spaces r; r ← word "from" r; some_spaces r)) s.
Definition seedDeleteWherePattern (s : string) : bool := at_word (fun s => found (r ← word "where" s; some_spaces r)) false s.
Definition where_true (s : string) : bool :=
  at_word (fun s => match (r ← word "where" s; r ← some_spaces r; word "true" r) with Some r => ends_word r | None => false end) false s.
Definition where_one (s : string) : bool :=
  at_word (fun s =>
    match (r ← word "where" s; r ← some_spaces r; r ← word "1" r; r ← word "=" (spaces r); word "1" (spaces r)) with
    | Some r => ends_word r
    | None => false
    end) false s.

Definition broadSeedDelete (statement : string) : bool :=
  negb (seedDeleteWherePattern statement) || where_true statement || where_one statement.

Definition seedSafetyDiagnostic (path : string) (line : nat) (message context : string) : dbSeedSafetyDiagnostic :=
  let context := Strings.Join (Strings.Fields context) " " in
  let context := if (160 <? String.length context)%nat then String.substring 0 157 context +:+ "..." else context in
  {| g_Path := path; g_Line := line; g_Message := message; Context := context |}.

Definition statement_diagnostic (path : string) (stmt : dbSeedSQLStatement) : option dbSeedSafetyDiagnostic :=
  let text := Strings.TrimSpace (Text stmt) in
  if String.eqb text "" then None
  else if seedDropPattern text then Some (seedSafetyDiagnostic path (Line stmt) "seed contains destructive DROP statement" text)
  else if seedTruncatePattern text then Some (seedSafetyDiagnostic path (Line stmt) "seed contains destructive TRUNCATE statement" text)
  else if seedDeletePattern text && broadSeedDelete text
  then Some (seedSafetyDiagnostic path (Line stmt) "seed contains broad DELETE statement" text)
  else None.

Definition dbSeedSafetyDiagnostics (plan : dbSeedPlan) : list dbSeedSafetyDiagnostic :=
  omap (statement_diagnostic (Path plan)) (splitSQLStatements (sanitizeSQLForSeedSafety (SQL plan))).

Definition validateDBSeedSafety (plans : list dbSeedPlan) : gmap string (list dbSeedSafetyDiagnostic) :=
  fold_left (fun m plan =>
    match dbSeedSafetyDiagnostics plan with
    | [] => m
    | diags => <[Path plan := default [] (m !! Path plan) ++ diags]> m
    end) plans ∅.

Definition seedPlanForPath (plans : list dbSeedPlan) (path : string) : option dbSeedPlan :=
  List.find (fun p => String.eqb (Path p) path) plans.
Definition seedPlanSHAForPath (plans : list dbSeedPlan) (path : string) : string :=
  match seedPlanForPath plans path with Some p => SHA256 p | None => "" end.

(** ** Plans *)
Record artifact := { a_Kind : string; a_Role : string; a_Path : string; a_Service : string }.

Class SeedEnv := {
  sha256_hex : string -> string;
  artifacts : outcome string (list artifact);         (** the generated and written database files *)
  read_seed : string -> outcome string string;
  database_url : outcome string string                (** [resolveDatabaseURLForConfig] *)
}.

Section plans.
Context {SS : SliceSort} {SE : SeedEnv}.

Fixpoint read_plans (appRoot : string) (l : list artifact) : outcome string (list dbSeedPlan) :=
  match l with
  | [] => Ret []
  | a :: rest =>
    if negb (String.eqb (a_Kind a) "seed") || negb (String.eqb (a_Role a) "initial-data") then read_plans appRoot rest
    else
      data ← read_seed (Filepath.Join [appRoot; a_Path a]);
      more ← read_plans appRoot rest;
      Ret ({| Service := a_Service a; Path := a_Path a; SQL := data; SHA256 := sha256_hex data |} :: more)
  end.

Definition plan_before (a b : dbSeedPlan) : bool :=
  if negb (String.eqb (Service a) (Service b)) then str_lt (Service a) (Service b) else str_lt (Path a) (Path b).

Definition discoverDBSeedPlans (appRoot : string) : outcome string (list dbSeedPlan) :=
  l ← artifacts;
  plans ← read_plans appRoot l;
  Ret (slice_sort plan_before plans).
End plans.

(** ** The store *)
Inductive fault := Fine | Broken | Lost.
Record applied := { ap_App : string; ap_Path : string; ap_SHA256 : string; ap_SQL : string }.
Record world := {
  ledger : gmap (string * string) string;      (** [seed_runs]: the digest by application and path *)
  committed : list applied;                    (** the transactions that took effect *)
  faults : list fault
}.
Abbreviation M := (Run world).

Definition call : M unit := fun w =>
  match faults w with
  | [] => (w, Ret tt)
  | f :: rest => ({| ledger := ledger w; committed := committed w; faults := rest |}, match f with Fine => Ret tt | _ => Fail "unavailable" end)
  end.

(** The connection, and [EnsureLedger]. *)
Definition open_ledger : M unit := _ ← call; call.

Definition LookupSeed (appID path : string) : M (option string) := _ ← call; gets (fun w => ledger w !! (appID, path)).

(** [tx.Commit]: both effects or none; its answer may be lost. *)
Definition commit (a : applied) : M unit := fun w =>
  let rest := tail (faults w) in
  let done := {| ledger := <[(ap_App a, ap_Path a) := ap_SHA256 a]> (ledger w); committed := committed w ++ [a]; faults := rest |} in
  match head (faults w) with
  | None | Some Fine => (done, Ret tt)
  | Some Lost => (done, Fail "connection lost")
  | Some Broken => ({| ledger := ledger w; committed := committed w; faults := rest |}, Fail "unavailable")
  end.

Definition ApplySeed (appID path hash sql : string) : M unit :=
  _ ← call;
  _ ← (if negb (String.eqb (Strings.TrimSpace sql) "") then call else mret tt : M unit);
  _ ← call;
  taken ← gets (fun w => ledger w !! (appID, path));
  match taken with
  | Some _ => fail "duplicate key"
  | None => commit {| ap_App := appID; ap_Path := path; ap_SHA256 := hash; ap_SQL := sql |}
  end.

(** ** Runs *)
Definition no_summary : dbSeedSummary := {| Planned := 0; Applied := 0; Skipped := 0; Changed := 0; Failed := 0 |}.

Definition count (status : string) (s : dbSeedSummary) : dbSeedSummary :=
  {| Planned := Planned s + (if String.eqb status "planned" then 1 else 0); Applied := Applied s + (if String.eqb status "applied" then 1 else 0);
     Skipped := Skipped s + (if String.eqb status "skipped" then 1 else 0); Changed := Changed s + (if String.eqb status "changed" then 1 else 0);
     Failed := Failed s + (if String.eqb status "failed" then 1 else 0) |}.

Definition addSeedRecord (record : dbSeedRecord) (r : dbSeedResult) : dbSeedResult :=
  {| App := App r; res_DryRun := res_DryRun r; Seeds_ := Seeds_ r ++ [record]; Summary := count (Status record) (Summary r) |}.

Definition emptyDBSeedResult (appRoot : string) (cfg : AppConfig.Config) (opts : dbSeedOptions) : dbSeedResult :=
  {| App := Tasks.taskAppRef appRoot cfg; res_DryRun := DryRun opts; Seeds_ := []; Summary := no_summary |}.

Definition record (plan : dbSeedPlan) (status error : string) : dbSeedRecord :=
  {| r_Service := Service plan; r_Path := Path plan; r_SHA256 := SHA256 plan; Status := status; Error := error; Diagnostics := [] |}.

(** The records of unsafe seeds, by path, and the errors. *)
Definition unsafe_records (plans : list dbSeedPlan) (diags : gmap string (list dbSeedSafetyDiagnostic)) : list dbSeedRecord :=
  map (fun path =>
    let d := default [] (diags !! path) in
    {| r_Service := match seedPlanForPath plans path with Some p => Service p | None => "" end; r_Path := path;
       r_SHA256 := seedPlanSHAForPath plans path; Status := "failed"; Error := match d with g :: _ => g_Message g | [] => "" end; Diagnostics := d |})
    (Router.sort_strings (map fst (map_to_list diags))).

(** One seed: its record, and the error if there is one. *)
Definition run_seed (appID : string) (dry : bool) (plan : dbSeedPlan) : M (dbSeedRecord * option string) :=
  prior ← attempt (LookupSeed appID (Path plan));
  match prior with
  | Fail e => mret (record plan "failed" e, Some ("lookup seed " +:+ Path plan +:+ ": " +:+ e))
  | Panic e => lift (Panic e)
  | Ret (Some hash) =>
    if String.eqb hash (SHA256 plan) then mret (record plan "skipped" "", None)
    else mret (record plan "changed" "seed was previously applied with a different sha256",
               Some ("seed " +:+ Path plan +:+ " changed after it was applied"))
  | Ret None =>
    if dry then mret (record plan "planned" "", None)
    else
      r ← attempt (ApplySeed appID (Path plan) (SHA256 plan) (SQL plan));
      match r with
      | Fail e => mret (record plan "failed" e, Some ("apply seed " +:+ Path plan +:+ ": " +:+ e))
      | Panic e => lift (Panic e)
      | Ret _ => mret (record plan "applied" "", None)
      end
  end.

Fixpoint run_seeds (appID : string) (dry : bool) (plans : list dbSeedPlan) (result : dbSeedResult) (errs : list string)
    : M (dbSeedResult * list string) :=
  match plans with
  | [] => mret (result, errs)
  | plan :: rest =>
    '(rec, e) ← run_seed appID dry plan;
    run_seeds appID dry rest (addSeedRecord rec result) (errs ++ match e with Some e => [e] | None => [] end)
  end.

Section runs.
Context {SS : SliceSort} {SE : SeedEnv}.

(** The result, and the errors joined. *)
Definition buildDBSeedResultWithEnv (appRoot : string) (cfg : AppConfig.Config) (opts : dbSeedOptions) : M (dbSeedResult * list string) :=
  let result := emptyDBSeedResult appRoot cfg opts in
  match discoverDBSeedPlans appRoot with
  | Fail e => mret (result, [e])
  | Panic e => lift (Panic e)
  | Ret plans =>
    if bool_decide (plans = []) then mret (result, [])
    else
      let diags := validateDBSeedSafety plans in
      if negb (bool_decide (diags = ∅)) then
        let records := unsafe_records plans diags in
        mret (fold_left (fun r rec => addSeedRecord rec r) records result,
              List.concat (map (fun rec => map (fun g => g_Path g +:+ ":" +:+ Strconv.Itoa (Z.of_nat (g_Line g)) +:+ ": " +:+ g_Message g) (Diagnostics rec)) records))
      else match database_url with
      | Fail e => mret (result, [e])
      | Panic e => lift (Panic e)
      | Ret _ =>
        ready ← attempt open_ledger;
        match ready with
        | Fail e => mret (result, [e])
        | Panic e => lift (Panic e)
        | Ret _ => run_seeds (AppConfig.AppID cfg) (DryRun opts) plans result []
        end
      end
  end.
End runs.

Fixpoint parse_seed_args (o : dbSeedOptions) (args : list string) : outcome string dbSeedOptions :=
  match args with
  | [] => Ret o
  | arg :: rest =>
    if String.eqb arg "--app-root" then
      match rest with
      | [] => Fail "missing value for --app-root"
      | v :: rest' => parse_seed_args {| AppRoot := v; DryRun := DryRun o; JSON := JSON o |} rest'
      end
    else if String.eqb arg "--dry-run" then parse_seed_args {| AppRoot := AppRoot o; DryRun := true; JSON := JSON o |} rest
    else if String.eqb arg "--json" then parse_seed_args {| AppRoot := AppRoot o; DryRun := DryRun o; JSON := true |} rest
    else Fail ("unknown flag " +:+ arg)
  end.
Definition parseDBSeedArgs (args : list string) : outcome string dbSeedOptions :=
  parse_seed_args {| AppRoot := ""; DryRun := false; JSON := false |} args.
End Seeds.
