(* ===== verification/SeedsProofs.v ===== *)
(** * Database seeds: applied once, safely, with the right lines

    [SeedsProofs] proves that over any sequence of runs, with any faults and with
    files that change in between, a seed takes effect at most once and only if it
    passed the safety check, and that a run without errors leaves all its seeds
    applied ([seeds_applied_once]); that a diagnostic names the line on which its
    statement begins ([diagnostic_lines]); and, by example, what the check does
    not see. *)
From stdpp Require Import base tactics list gmap strings.
From Stdlib Require Import ZArith Lia Ascii.
From S2P Require Import Prelude GoStrings Router AppConfig StateM Tasks Seeds.
Import StateM Seeds.

Module SeedsProofs.

(** ** Runs *)
Record run := { env : SeedEnv; root : string; cfg : AppConfig.Config; opts : dbSeedOptions; ahead : list fault }.

Definition key (a : applied) : string * string := (ap_App a, ap_Path a).
Definition plan_of (a : applied) : dbSeedPlan := {| Service := ""; Path := ap_Path a; SQL := ap_SQL a; SHA256 := ap_SHA256 a |}.

Definition inv (w : world) : Prop :=
  NoDup (map key (committed w))
  /\ (forall k h, ledger w !! k = Some h <-> exists a, a ∈ committed w /\ key a = k /\ ap_SHA256 a = h)
  /\ Forall (fun a => dbSeedSafetyDiagnostics (plan_of a) = []) (committed w).

(** What is committed stays. *)
Definition grows (w w' : world) : Prop := committed w `prefix_of` committed w' /\ ledger w ⊆ ledger w'.

#[local] Instance grows_preorder : PreOrder grows.
Proof. split; [by intros w|]. intros w1 w2 w3 [? ?] [? ?]. split; by etrans. Qed.

Abbreviation safe m Q := (triple inv grows m Q).

Lemma safe_call : safe call (fun _ => True).
Proof. intros w HI. unfold call. destruct w as [l c [|[] rest]]; cbn; by split_and!. Qed.

Lemma safe_lookup app path : safe (LookupSeed app path) (fun _ => True).
Proof. eapply hoare_bind; [apply _|apply safe_call|]. intros _ _. by apply hoare_gets; [apply _|]. Qed.

Lemma commit_inv a w fs : inv w -> ledger w !! key a = None -> dbSeedSafetyDiagnostics (plan_of a) = [] ->
  inv {| ledger := <[key a := ap_SHA256 a]> (ledger w); committed := committed w ++ [a]; faults := fs |}
  /\ grows w {| ledger := <[key a := ap_SHA256 a]> (ledger w); committed := committed w ++ [a]; faults := fs |}.
Proof.
  intros (Hnd & Hled & Hsafe) Hnone Hok. assert (Hfresh : (key a ∉ map key (committed w))).
  { rewrite list_elem_of_fmap. intros (b & Hb & Hin). assert (ledger w !! key a = Some (ap_SHA256 b)); [apply Hled; by exists b|congruence]. }
  split; [|split; cbn; [by apply prefix_app_r|by apply insert_subseteq]]. unfold inv. cbn. split_and!.
  - rewrite map_app. apply NoDup_app. split_and!; [done| |apply NoDup_singleton]. by intros k Hk ->%list_elem_of_singleton.
  - intros k h. destruct (decide (k = key a)) as [->|Hne].
    + rewrite lookup_insert_eq. split.
      * intros [= <-]. exists a. split; [apply elem_of_app; right; by left|done].
      * intros (b & [Hb| ->%list_elem_of_singleton]%elem_of_app & Hk & <-); [|done]. exfalso. apply Hfresh. rewrite <- Hk. by apply list_elem_of_fmap_2.
    + rewrite lookup_insert_ne, Hled by done. split; intros (b & Hb & Hk & Hh).
      * exists b. split; [apply elem_of_app; by left|done].
      * apply elem_of_app in Hb as [Hb| ->%list_elem_of_singleton]; [by exists b|done].
  - apply Forall_app. split; [done|]. by constructor.
Qed.

Lemma safe_apply app path hash sql : dbSeedSafetyDiagnostics {| Service := ""; Path := path; SQL := sql; SHA256 := hash |} = [] ->
  safe (ApplySeed app path hash sql) (fun _ => True).
Proof.
  intros Hok. unfold ApplySeed.
  eapply hoare_bind; [apply _|apply safe_call|]. intros _ _.
  eapply hoare_bind; [apply _| |]. { case_match; [apply safe_call|by apply (hoare_ret _ _ _ (fun _ => True))]. } intros _ _.
  eapply hoare_bind; [apply _|apply safe_call|]. intros _ _. intros w HI. unfold mbind, Run_bind, gets.
  destruct (ledger w !! (app, path)) as [h|] eqn:E; [by apply hoare_fail; [apply _|]|].
  pose proof (fun fs => commit_inv {| ap_App := app; ap_Path := path; ap_SHA256 := hash; ap_SQL := sql |} w fs HI E Hok) as Hc.
  unfold commit. destruct w as [l c [|[] rest]]; cbn in *;
    first [by destruct (Hc []); split_and!|by destruct (Hc rest); split_and!|by split_and!].
Qed.

(** What a record says is so. *)
Definition truthful (app : string) (rec : dbSeedRecord) (w : world) : Prop :=
  Status rec = "applied" \/ Status rec = "skipped" -> ledger w !! (app, r_Path rec) = Some (r_SHA256 rec).

Lemma attempt_eq {A} (m : M A) w : attempt m w = ((m w).1, Ret (m w).2).
Proof. unfold attempt. by destruct (m w). Qed.

Lemma call_world w : exists fs, (call w).1 = {| ledger := ledger w; committed := committed w; faults := fs |}.
Proof. unfold call. destruct w as [l c [|f rest]]; by eexists. Qed.

Lemma lookup_Ret app path w w' o : LookupSeed app path w = (w', Ret o) -> o = ledger w' !! (app, path).
Proof. intros H. apply bind_returns in H as (w1 & [] & _ & H). by injection H as <- <-. Qed.

Lemma apply_Ret app path hash sql w w' : ApplySeed app path hash sql w = (w', Ret tt) -> ledger w' !! (app, path) = Some hash.
Proof.
  intros H. unfold ApplySeed in H. do 2 (apply bind_returns in H as (? & [] & _ & H)).
  apply bind_returns in H as (w0 & [] & _ & H). apply bind_returns in H as (w1 & o & [= <- <-] & H).
  case_match; [done|]. unfold commit in H. destruct (head (faults w0)) as [[]|]; [|done..|]; injection H as <-; cbn; by rewrite lookup_insert_eq.
Qed.

(** One seed: nothing is lost, its record is true, and without an error (and not
    dry) it is applied. *)
Lemma run_seed_spec app dry plan w : inv w -> dbSeedSafetyDiagnostics plan = [] ->
  let '(w', r) := run_seed app dry plan w in
  inv w' /\ grows w w' /\ (dry = true -> committed w' = committed w)
  /\ match r with
     | Ret (rec, e) => r_Path rec = Path plan /\ r_SHA256 rec = SHA256 plan /\ truthful app rec w'
         /\ (dry = false -> e = None -> ledger w' !! (app, Path plan) = Some (SHA256 plan))
     | _ => True
     end.
Proof.
  intros HI Hok. unfold run_seed. destruct (safe_lookup app (Path plan) w HI) as (HI1 & HG1 & _).
  assert (Hsame : committed (LookupSeed app (Path plan) w).1 = committed w).
  { unfold LookupSeed, mbind, Run_bind. destruct (call_world w) as [fs Hfs]. destruct (call w) as [w1 [x|e|e]]; cbn in *; by subst w1. }
  unfold mbind at 1, Run_bind at 1. rewrite attempt_eq. destruct (LookupSeed app (Path plan) w) as [w1 [[hash|]|e|e]] eqn:E; cbn in HI1, HG1, Hsame |- *.
  - apply lookup_Ret in E. destruct (String.eqb_spec hash (SHA256 plan)) as [->|Hne]; cbn; (split_and!; try done); unfold truthful; cbn.
    { by intros _. } by intros [?|?].
  - destruct dry; [cbn; split_and!; try done; by intros [?|?]|].
    destruct (safe_apply app (Path plan) (SHA256 plan) (SQL plan) Hok w1 HI1) as (HI2 & HG2 & _).
    unfold mbind, Run_bind. rewrite attempt_eq.
    destruct (ApplySeed app (Path plan) (SHA256 plan) (SQL plan) w1) as [w2 [[]|e|e]] eqn:Ea; cbn in *;
      (split_and!; try done; try by etrans); try by intros [?|?].
    all: intros _; by apply apply_Ret in Ea.
  - split_and!; try done. by intros [?|?].
  - by split_and!.
Qed.

Lemma truthful_grows app rec w w' : grows w w' -> truthful app rec w -> truthful app rec w'.
Proof. intros [_ Hsub] Ht Hs. eapply lookup_weaken; [by apply Ht|done]. Qed.

Lemma run_seeds_spec app dry plans : forall result errs w, inv w -> Forall (fun p => dbSeedSafetyDiagnostics p = []) plans ->
  let '(w', r) := run_seeds app dry plans result errs w in
  inv w' /\ grows w w' /\ (dry = true -> committed w' = committed w)
  /\ match r with
     | Ret (res, errs') => (Forall (fun rec => truthful app rec w) (Seeds_ result) -> Forall (fun rec => truthful app rec w') (Seeds_ res))
         /\ errs `prefix_of` errs'
         /\ (dry = false -> errs' = [] -> Forall (fun p => ledger w' !! (app, Path p) = Some (SHA256 p)) plans)
     | _ => True
     end.
Proof.
  induction plans as [|plan plans IH]; intros result errs w HI Hsafe; cbn [run_seeds].
  { cbn. split_and!; [done|reflexivity|done|done|reflexivity|done]. }
  inversion Hsafe as [|? ? Hp Hrest]; subst. pose proof (run_seed_spec app dry plan w HI Hp) as H1. unfold mbind, Run_bind.
  destruct (run_seed app dry plan w) as [w1 [[rec e]|e|e]]; [|tauto..]. destruct H1 as (HI1 & HG1 & Hd1 & Hpath & Hsha & Ht & Happ).
  specialize (IH (addSeedRecord rec result) (errs ++ match e with Some e => [e] | None => [] end) w1 HI1 Hrest).
  destruct (run_seeds app dry plans _ _ w1) as [w2 r]. destruct IH as (HI2 & HG2 & Hd2 & Hr). split_and!; [done|by etrans| |].
  - intros Hdry. rewrite Hd2, Hd1 by done. done.
  - destruct r as [[res errs']|e'|e']; [|done..]. destruct Hr as (Hrec & Herr & Hall). split_and!.
    + intros Hold. apply Hrec. cbn. apply Forall_app. split; [|by constructor]. eapply Forall_impl; [exact Hold|]. intros x. by apply truthful_grows.
    + etrans; [|exact Herr]. by apply prefix_app_r.
    + intros Hdry ->. apply prefix_nil_inv in Herr. apply app_eq_nil in Herr as [-> He]. destruct e; [done|]. constructor; [|by apply Hall].
      eapply lookup_weaken; [by apply Happ|]. apply HG2.
Qed.

Lemma validate_fold plans : forall m : gmap string (list dbSeedSafetyDiagnostic),
  fold_left (fun (m : gmap string (list dbSeedSafetyDiagnostic)) plan => match dbSeedSafetyDiagnostics plan with [] => m | diags => <[Path plan := default [] (m !! Path plan) ++ diags]> m end) plans m = ∅ ->
  m = ∅ /\ Forall (fun p => dbSeedSafetyDiagnostics p = []) plans.
Proof.
  induction plans as [|p plans IH]; intros m H; [by split|]. cbn [fold_left] in H. apply IH in H as [H1 H2].
  destruct (dbSeedSafetyDiagnostics p) eqn:E; [by split; [|constructor]|]. by apply insert_non_empty in H1.
Qed.

Lemma validate_empty plans : validateDBSeedSafety plans = ∅ -> Forall (fun p => dbSeedSafetyDiagnostics p = []) plans.
Proof. apply validate_fold. Qed.

Section runs.
Context {SS : SliceSort}.

Definition perform (r : run) : M (dbSeedResult * list string) :=
  buildDBSeedResultWithEnv (SE := env r) (root r) (cfg r) (opts r).

Definition start_run (r : run) (w : world) : world := {| ledger := ledger w; committed := committed w; faults := ahead r |}.
Definition exec (rs : list run) (w : world) : world := fold_left (fun w r => (perform r (start_run r w)).1) rs w.

Definition fresh : world := {| ledger := ∅; committed := []; faults := [] |}.

(** Records that claim nothing. *)
Lemma add_records_truthful app w records : forall result,
  Forall (fun rec => Status rec = "failed") records -> Forall (fun rec => truthful app rec w) (Seeds_ result) ->
  Forall (fun rec => truthful app rec w) (Seeds_ (fold_left (fun r rec => addSeedRecord rec r) records result)).
Proof.
  induction records as [|rec records IH]; intros result Hr Hres; [done|]. inversion Hr as [|? ? Hf Hr']; subst. cbn [fold_left]. apply IH; [done|].
  cbn. apply Forall_app. split; [done|]. constructor; [|done]. intros [H|H]; congruence.
Qed.

Lemma open_ledger_spec w : inv w -> inv (open_ledger w).1 /\ grows w (open_ledger w).1 /\ committed (open_ledger w).1 = committed w.
Proof.
  intros HI. unfold open_ledger, mbind, Run_bind. destruct (safe_call w HI) as (HI1 & HG1 & _). destruct (call_world w) as [fs1 Hw1].
  destruct (safe_call _ HI1) as (HI2 & HG2 & _). destruct (call_world (call w).1) as [fs2 Hw2].
  destruct (call w) as [w1 [x|e|e]]; cbn [fst] in *; split_and!; try done; [by etrans|by rewrite Hw2, Hw1|by rewrite Hw1..].
Qed.

(** An unsafe run reports an error. *)
Lemma validate_nonempty plans : forall m : gmap string (list dbSeedSafetyDiagnostic), map_Forall (fun _ d => d <> []) m ->
  map_Forall (fun _ d => d <> []) (fold_left (fun (m : gmap string (list dbSeedSafetyDiagnostic)) plan => match dbSeedSafetyDiagnostics plan with [] => m | diags => <[Path plan := default [] (m !! Path plan) ++ diags]> m end) plans m).
Proof.
  induction plans as [|p plans IH]; intros m Hm; [done|]. cbn [fold_left]. apply IH. destruct (dbSeedSafetyDiagnostics p); [done|].
  apply map_Forall_insert_2; [|done]. by destruct (default [] _).
Qed.

Lemma unsafe_errors plans (f : dbSeedSafetyDiagnostic -> string) : validateDBSeedSafety plans <> ∅ ->
  List.concat (map (fun rec => map f (Diagnostics rec)) (unsafe_records plans (validateDBSeedSafety plans))) <> [].
Proof.
  intros Hne Hnil. destruct (map_choose _ Hne) as (path & d & Hd).
  assert (Hd0 : d <> []) by (eapply (validate_nonempty plans ∅); [apply map_Forall_empty|exact Hd]).
  assert (Hin : In path (Router.sort_strings (map fst (map_to_list (validateDBSeedSafety plans))))).
  { eapply Permutation_in; [symmetry; apply sort_stable_perm|]. apply in_map_iff. exists (path, d). split; [done|].
    apply list_elem_of_In. by apply elem_of_map_to_list. }
  destruct d as [|g d]; [done|]. assert (Hg : In (f g) []); [|done]. rewrite <- Hnil. apply in_concat.
  exists (map f (g :: d)). split; [|by left]. apply in_map_iff. unfold unsafe_records.
  eexists. split; [|apply in_map_iff; eexists; split; [reflexivity|exact Hin]]. cbn. by rewrite Hd.
Qed.

(** What a run leaves behind, whatever fails. *)
Definition left_by (r : run) (w : world) (out : world * outcome string (dbSeedResult * list string)) : Prop :=
  inv out.1 /\ grows w out.1 /\ (DryRun (opts r) = true -> committed out.1 = committed w)
  /\ match out.2 with
     | Ret (result, errs) =>
       Forall (fun rec => truthful (AppConfig.AppID (cfg r)) rec out.1) (Seeds_ result)
       /\ (DryRun (opts r) = false -> errs = [] -> forall plans, discoverDBSeedPlans (SE := env r) (root r) = Ret plans ->
           Forall (fun p => ledger out.1 !! (AppConfig.AppID (cfg r), Path p) = Some (SHA256 p)) plans)
     | _ => True
     end.

(** A run that ends before it reaches the ledger. *)
Lemma left_early r w result errs : inv w -> Forall (fun rec => truthful (AppConfig.AppID (cfg r)) rec w) (Seeds_ result) ->
  (errs = [] -> discoverDBSeedPlans (SE := env r) (root r) = Ret []) -> left_by r w (w, Ret (result, errs)).
Proof.
  intros HI Hrec Herr. split_and!; [done|reflexivity|done|]. cbn. split; [done|]. intros _ Hnil plans Hp. rewrite Herr in Hp by done. injection Hp as <-. constructor.
Qed.

Lemma perform_spec r w : inv w -> left_by r w (perform r w).
Proof.
  intros HI. unfold perform, buildDBSeedResultWithEnv. cbv zeta.
  destruct (discoverDBSeedPlans (root r)) as [plans|e|e] eqn:Ed; [|by apply left_early|by split_and!].
  case_bool_decide as Hnil; [subst plans; by apply left_early|].
  case_bool_decide as Hv; cbn [negb].
  - destruct database_url as [url|e|e]; [|by apply left_early|by split_and!].
    destruct (open_ledger_spec w HI) as (HI2 & HG2 & Hc2). unfold mbind, Run_bind. rewrite attempt_eq.
    destruct (open_ledger w) as [w2 [x|e|e]]; cbn [fst snd] in *; [|by split_and!..].
    pose proof (run_seeds_spec (AppConfig.AppID (cfg r)) (DryRun (opts r)) plans (emptyDBSeedResult (root r) (cfg r) (opts r)) [] w2 HI2 (validate_empty _ Hv)) as H3.
    destruct (run_seeds _ _ plans _ [] w2) as [w3 res]. destruct H3 as (HI3 & HG3 & Hd3 & Hr). unfold left_by. cbn [fst snd].
    split_and!; [done|by etrans|intros Hdry; by rewrite Hd3|].
    destruct res as [[result errs]|e|e]; [|done..]. destruct Hr as (Hrec & _ & Hall). split; [by apply Hrec|].
    intros Hdry -> p Hp. rewrite Ed in Hp. injection Hp as <-. by apply Hall.
  - apply left_early; [done| |by intros ?%unsafe_errors]. apply add_records_truthful; [|constructor].
    unfold unsafe_records. apply Forall_map. by apply Forall_forall.
Qed.

(** ** Without faults *)
Lemma call_clean w : faults w = [] -> call w = (w, Ret tt).
Proof. unfold call. by intros ->. Qed.

Lemma run_seed_clean app plan w : faults w = [] -> (forall h, ledger w !! (app, Path plan) = Some h -> h = SHA256 plan) ->
  exists w' rec, run_seed app false plan w = (w', Ret (rec, None)) /\ faults w' = [] /\ ledger w' = <[(app, Path plan) := SHA256 plan]> (ledger w).
Proof.
  intros Hf Hl. unfold run_seed, LookupSeed, mbind, Run_bind. rewrite attempt_eq, call_clean by done. cbn.
  destruct (ledger w !! (app, Path plan)) as [h|] eqn:E.
  - specialize (Hl _ eq_refl) as ->. rewrite String.eqb_refl. eexists _, _. split_and!; [reflexivity|done|]. symmetry. by apply insert_id.
  - rewrite attempt_eq. unfold ApplySeed, mbind, Run_bind. rewrite call_clean by done.
    assert (Hc : (if negb (String.eqb (Strings.TrimSpace (SQL plan)) "") then call else mret tt : M unit) w = (w, Ret tt)) by (case_match; [by apply call_clean|done]).
    rewrite Hc, call_clean by done. unfold gets, commit. rewrite E, Hf. cbn. by eexists _, _.
Qed.

Lemma run_seeds_clean app plans : forall result w, faults w = [] ->
  (forall p q, p ∈ plans -> q ∈ plans -> Path p = Path q -> SHA256 p = SHA256 q) ->
  (forall p h, p ∈ plans -> ledger w !! (app, Path p) = Some h -> h = SHA256 p) ->
  exists w' res, run_seeds app false plans result [] w = (w', Ret (res, [])).
Proof.
  induction plans as [|plan plans IH]; intros result w Hf Hsame Hled; [by eexists _, _|]. cbn [run_seeds].
  destruct (run_seed_clean app plan w Hf) as (w1 & rec & Hrun & Hf1 & Hl1); [intros h; apply Hled; left|].
  unfold mbind, Run_bind. rewrite Hrun. cbn [Datatypes.app]. apply IH; [done| |].
  - intros p q Hp Hq. apply Hsame; by right.
  - intros p h Hp. rewrite Hl1. destruct (decide (Path plan = Path p)) as [Heq|Hne].
    + rewrite Heq, lookup_insert_eq. intros [= <-]. apply Hsame; [left|by right|done].
    + rewrite lookup_insert_ne by congruence. apply Hled. by right.
Qed.

(** The plans can all be applied or skipped. *)
Definition applicable (r : run) (plans : list dbSeedPlan) (w : world) : Prop :=
  discoverDBSeedPlans (SE := env r) (root r) = Ret plans /\ validateDBSeedSafety plans = ∅ /\ (exists url, database_url (SeedEnv := env r) = Ret url)
  /\ (forall p q, p ∈ plans -> q ∈ plans -> Path p = Path q -> SHA256 p = SHA256 q)
  /\ (forall p h, p ∈ plans -> ledger w !! (AppConfig.AppID (cfg r), Path p) = Some h -> h = SHA256 p).

Lemma perform_clean r plans w : faults w = [] -> DryRun (opts r) = false -> applicable r plans w ->
  exists w' result, perform r w = (w', Ret (result, [])).
Proof.
  intros Hf Hdry (Hd & Hv & [url Hu] & Hsame & Hled). unfold perform, buildDBSeedResultWithEnv. rewrite Hd. cbv zeta.
  case_bool_decide; [by eexists _, _|]. rewrite bool_decide_eq_true_2 by done. cbn [negb].
  rewrite Hu. unfold mbind, Run_bind. rewrite attempt_eq. unfold open_ledger, mbind, Run_bind.
  rewrite !call_clean by done. cbn [fst snd]. rewrite Hdry. by apply run_seeds_clean.
Qed.

Lemma exec_inv rs : forall w, inv w -> inv (exec rs w).
Proof.
  induction rs as [|r rs IH]; intros w HI; [done|]. cbn [exec fold_left]. apply IH.
  apply (perform_spec r (start_run r w)). done.
Qed.

(** C34. Over any sequence of seed runs on a fresh database, with any faults and with
    files, configurations and flags that change in between: no seed of an
    application takes effect twice; the ledger has exactly the seeds that took
    effect, with their digests; each of them had passed the safety check.  The
    next run keeps all that, commits nothing when it is dry, says that a seed is
    applied or skipped only if the ledger has it with that digest, and if it
    reports no error and is not dry then all its seeds are applied; it reports
    none if nothing fails and no seed has changed. *)
Theorem seeds_applied_once (rs : list run) (r : run) :
  let w := exec rs fresh in
  NoDup (map key (committed w))
  /\ (forall k h, ledger w !! k = Some h <-> exists a, a ∈ committed w /\ key a = k /\ ap_SHA256 a = h)
  /\ Forall (fun a => dbSeedSafetyDiagnostics (plan_of a) = []) (committed w)
  /\ left_by r (start_run r w) (perform r (start_run r w))
  /\ (forall plans, ahead r = [] -> DryRun (opts r) = false -> applicable r plans w ->
      exists w' result, perform r (start_run r w) = (w', Ret (result, []))).
Proof.
  intros w. assert (HI : inv w).
  { apply exec_inv. split_and!; [constructor| |constructor]. intros k h. cbn. rewrite lookup_empty. split; [done|]. by intros (a & ?%elem_of_nil & _). }
  split_and!; [apply HI..| |].
  - by apply perform_spec.
  - intros plans Ha Hdry Happ. by apply (perform_clean r plans).
Qed.
End runs.

(** ** Lines *)
Fixpoint newlines (s : string) : nat := match s with EmptyString => 0 | String c s' => if Ascii.eqb c nl then S (newlines s') else newlines s' end.

Lemma newlines_app s t : newlines (s +:+ t) = (newlines s + newlines t)%nat.
Proof. induction s as [|c s IH]; [done|]. rewrite Strings.string_app_cons. cbn [newlines]. case_match; lia. Qed.

Lemma blank_app s t : blank (s +:+ t) = blank s +:+ blank t.
Proof. induction s as [|c s IH]; [done|]. rewrite Strings.string_app_cons. cbn [blank]. by rewrite IH, Strings.string_app_cons. Qed.

Lemma blank_blank s : blank (blank s) = blank s.
Proof. induction s as [|c s IH]; [done|]. cbn [blank]. rewrite IH. unfold writeSeedSafetyBlank. by destruct (Ascii.eqb c nl) eqn:E; [|done]. Qed.

(** Equal after blanking: the same length and the same line ends. *)
Lemma blank_newlines s t : blank s = blank t -> String.length s = String.length t /\ newlines s = newlines t.
Proof.
  revert t. induction s as [|c s IH]; intros [|d t]; [done|done|done|]. cbn [blank newlines String.length]. intros [= Hc Hs]. apply IH in Hs as [-> ->].
  split; [done|]. unfold writeSeedSafetyBlank in Hc. by destruct (Ascii.eqb c nl), (Ascii.eqb d nl).
Qed.

(** A scanner splits its text. *)
Lemma to_newline_app s : (to_newline s).1 +:+ (to_newline s).2 = s.
Proof.
  induction s as [|c s IH]; [done|]. cbn [to_newline]. destruct (Ascii.eqb c nl); [done|].
  destruct (to_newline s) as [a b]. cbn [fst snd] in *. by rewrite Strings.string_app_cons, IH.
Qed.

Lemma to_comment_end_app s : (to_comment_end s).1 +:+ (to_comment_end s).2 = s.
Proof.
  induction s as [|c s IH]; [done|]. cbn [to_comment_end].
  assert (Hgo : (let '(a, b) := to_comment_end s in (String c a, b)).1 +:+ (let '(a, b) := to_comment_end s in (String c a, b)).2 = String c s).
  { destruct (to_comment_end s) as [a b]. cbn [fst snd] in *. by rewrite Strings.string_app_cons, IH. }
  destruct (Ascii.eqb c "*"); [|done]. destruct s as [|d s]; [done|].
  destruct (Ascii.eqb_spec d "/") as [->|Hd]; [done|]. destruct d as [[] [] [] [] [] [] [] []]; done.
Qed.

Lemma to_quote_app q s : (to_quote q s).1 +:+ (to_quote q s).2 = s.
Proof.
  induction s as [s IH] using Strings.string_length_ind. destruct s as [|c s]; [done|]. cbn [to_quote]. destruct (Ascii.eqb c q).
  - destruct s as [|d s]; [done|]. destruct (Ascii.eqb d q); [|done]. specialize (IH s ltac:(cbn; lia)).
    destruct (to_quote q s) as [a b]. cbn [fst snd] in *. by rewrite !Strings.string_app_cons, IH.
  - specialize (IH s ltac:(cbn; lia)). destruct (to_quote q s) as [a b]. cbn [fst snd] in *. by rewrite Strings.string_app_cons, IH.
Qed.

Lemma seedDollarTagEnd_app s a b : seedDollarTagEnd s = Some (a, b) -> a +:+ b = s.
Proof.
  revert a b. induction s as [|c s IH]; intros a b; [done|]. cbn [seedDollarTagEnd]. destruct (Ascii.eqb c "$"); [by intros [= <- <-]|].
  destruct (tag_byte c); [|done]. destruct (seedDollarTagEnd s) as [[a' b']|]; [|done]. intros [= <- <-]. by rewrite Strings.string_app_cons, (IH a' b').
Qed.

Lemma to_tag_app tag s : (to_tag tag s).1 +:+ (to_tag tag s).2 = s.
Proof.
  unfold to_tag, Strings.Cut. destruct (Strings.cut_opt s tag) as [[a b]|] eqn:E; [|apply Strings.string_app_nil_r].
  cbn. rewrite Strings.string_app_assoc. symmetry. by apply Strings.cut_opt_Some.
Qed.

(** The pieces make up the text, and each has a byte. *)
Lemma next_piece_app c s : let '(_, piece, rest) := next_piece c s in piece +:+ rest = String c s /\ (String.length rest <= String.length s)%nat.
Proof.
  assert (Hlen : forall d p rest, String d p +:+ rest = String c s -> String d p +:+ rest = String c s /\ (String.length rest <= String.length s)%nat).
  { intros d p rest H. split; [done|]. apply (f_equal String.length) in H. rewrite Strings.string_app_cons in H. cbn in H. rewrite AppConfig.length_string_app in H. lia. }
  unfold next_piece. destruct (Ascii.eqb c "-" && _); [|destruct (Ascii.eqb c "/" && _) eqn:E2; [|destruct (_ || _); [|destruct (Ascii.eqb c "$")]]].
  - pose proof (to_newline_app s). destruct (to_newline s) as [a b]. apply Hlen. rewrite Strings.string_app_cons. by f_equal.
  - apply andb_true_iff in E2 as [_ (r & ->)%Strings.HasPrefix_iff]. rewrite Strings.TrimPrefix_app.
    pose proof (to_comment_end_app r). destruct (to_comment_end r) as [a b]. apply Hlen. rewrite !Strings.string_app_cons. cbn [fst snd] in *. by rewrite H.
  - pose proof (to_quote_app c s). destruct (to_quote c s) as [a b]. apply Hlen. rewrite Strings.string_app_cons. by f_equal.
  - destruct (seedDollarTagEnd s) as [[tag body]|] eqn:Et; [|by apply Hlen]. apply seedDollarTagEnd_app in Et. pose proof (to_tag_app (String c tag) body) as Ha.
    destruct (to_tag (String c tag) body) as [a b]. cbn [fst snd] in *. rewrite Strings.string_app_cons. apply Hlen.
    rewrite Strings.string_app_cons, Strings.string_app_assoc, Ha. by f_equal.
  - by apply Hlen.
Qed.

Lemma sanitize_loop_blank fuel : forall sql, (String.length sql <= fuel)%nat -> blank (sanitize_loop fuel sql) = blank sql.
Proof.
  induction fuel as [|fuel IH]; intros [|c s] Hf; cbn in Hf; [done|lia|done|]. cbn [sanitize_loop].
  pose proof (next_piece_app c s) as H. destruct (next_piece c s) as [[hidden piece] rest]. destruct H as [<- Hr].
  rewrite !blank_app, IH by lia. f_equal. destruct hidden; [apply blank_blank|done].
Qed.

(** ** Statements *)
Lemma TrimLeftSpace_app_l s w : Strings.TrimLeftSpace (s +:+ w) = Strings.TrimLeftSpace (Strings.TrimLeftSpace s +:+ w).
Proof.
  induction s as [s IH] using Strings.string_length_ind. rewrite (Strings.TrimLeftSpace_step s). destruct (Strings.space_step s) as [r|] eqn:E; [|done].
  rewrite Strings.TrimLeftSpace_step, (Strings.space_step_app _ _ _ E). apply IH. by apply Strings.space_step_length.
Qed.

Lemma TrimSpace_nil s : Strings.TrimSpace s = "" <-> Strings.TrimLeftSpace s = "".
Proof.
  unfold Strings.TrimSpace. split; [|by intros ->]. intros H. destruct (Strings.TrimRightSpace_suffix (Strings.TrimLeftSpace s)) as (w & E & Hw).
  rewrite H in E. change (Strings.TrimLeftSpace s = w) in E. rewrite <- E in Hw. rewrite <- Hw.
  symmetry. apply Strings.TrimLeftSpace_id, Strings.TrimLeftSpace_no_step.
Qed.

(** A line end is a character of its own. *)
Lemma space_nl a b : Strings.space2 a nl = false /\ Strings.space3 a nl b = false /\ Strings.space3 a b nl = false.
Proof.
  unfold Strings.space2, Strings.space3, Utf8.dec2, Utf8.dec3. change (Utf8.cont nl) with false. rewrite !andb_false_r.
  split_and!; [done| |done]. assert (Hf : forall lo hi, 128 <= lo -> in_range lo hi (code nl) = false) by (intros; unfold in_range; apply andb_false_iff; left; apply Z.leb_gt; change (code nl) with 10; lia).
  rewrite Hf, andb_false_r; [done|]. case_match; lia.
Qed.

(** A text that one byte more makes blank is a part of one character. *)
Lemma space_step_snoc u c r : Strings.space_step u = None -> Strings.space_step (u +:+ String c "") = Some r ->
  r = "" /\ (u = "" \/ c <> nl /\ newlines u = 0%nat).
Proof.
  assert (Hnl : forall a, Strings.space1 a = false -> Ascii.eqb a nl = false) by (intros a Ha; by destruct (Ascii.eqb_spec a nl) as [->|]).
  intros Hu Hs. destruct u as [|a [|b [|d u]]]; rewrite ?Strings.string_app_cons in Hs; cbn in Hu; change ("" +:+ String c "") with (String c "") in Hs; cbn in Hs.
  - destruct (Strings.space1 c); [injection Hs as <-; auto|done].
  - destruct (Strings.space1 a) eqn:Ea; [done|]. destruct (Strings.space2 a c) eqn:E2; [|done]. injection Hs as <-.
    split; [done|right]. split; [intros ->; by destruct (space_nl a a) as [Hn _]; congruence|]. cbn. by rewrite Hnl.
  - destruct (Strings.space1 a) eqn:Ea; [done|]. destruct (Strings.space2 a b); [done|].
    destruct (Strings.space3 a b c) eqn:E3; [|done]. injection Hs as <-. split; [done|right]. split.
    + intros ->. destruct (space_nl a b) as (_ & _ & Hn). congruence.
    + cbn [newlines]. rewrite (Hnl a Ea). destruct (Ascii.eqb_spec b nl) as [->|]; [|done]. destruct (space_nl a c) as (_ & Hn & _). congruence.
  - destruct (Strings.space1 a); [done|]. destruct (Strings.space2 a b); [done|]. by destruct (Strings.space3 a b d).
Qed.

(** How one more byte changes the lines of the part that is not blank. *)
Lemma newlines_snoc s c : newlines (Strings.TrimLeftSpace (s +:+ String c "")) =
  if Ascii.eqb c nl then (if String.eqb (Strings.TrimLeftSpace (s +:+ String c "")) "" then 0%nat else S (newlines (Strings.TrimLeftSpace s)))
  else newlines (Strings.TrimLeftSpace s).
Proof.
  rewrite TrimLeftSpace_app_l. pose proof (Strings.TrimLeftSpace_no_step s) as Hu. set (u := Strings.TrimLeftSpace s) in *. clearbody u. clear s.
  destruct (Strings.space_step (u +:+ String c "")) as [r|] eqn:E.
  - rewrite Strings.TrimLeftSpace_step, E. apply space_step_snoc in E as [-> Hcase]; [|done]. cbn [Strings.TrimLeftSpace newlines]. destruct (Ascii.eqb_spec c nl) as [->|]; [done|].
    by destruct Hcase as [-> |[_ ->]].
  - rewrite Strings.TrimLeftSpace_id by done. rewrite newlines_app. cbn [newlines]. destruct (Ascii.eqb c nl); [|lia].
    destruct (String.eqb_spec (u +:+ String c "") "") as [H|_]; [by destruct u|lia].
Qed.


Fixpoint concat_text (l : list dbSeedSQLStatement) : string := match l with [] => "" | st :: l' => Text st +:+ concat_text l' end.

(** Each statement has the line of its first character that is not blank. *)
Fixpoint lines_right (before : nat) (l : list dbSeedSQLStatement) : Prop :=
  match l with
  | [] => True
  | st :: l' => (Line st + newlines (Strings.TrimLeftSpace (Text st)) = before + newlines (Text st))%nat /\ lines_right (before + newlines (Text st)) l'
  end.

Lemma split_loop_spec sql : forall before line startLine cur,
  line = (before + newlines cur)%nat -> (startLine + newlines (Strings.TrimLeftSpace cur) = line)%nat ->
  concat_text (split_loop line startLine cur sql) = cur +:+ sql /\ lines_right before (split_loop line startLine cur sql).
Proof.
  induction sql as [|c sql IH]; intros before line startLine cur Hl Hs; cbn [split_loop].
  - destruct (String.eqb_spec cur "") as [->|Hne]; [done|]. cbn. rewrite Hs, Hl. done.
  - assert (Hnl : newlines (cur +:+ String c "") = ((if Ascii.eqb c nl then 1 else 0) + newlines cur)%nat) by (rewrite newlines_app; cbn; case_match; lia).
    pose proof (newlines_snoc cur c) as Hc.
    assert (Happ : (cur +:+ String c "") +:+ sql = cur +:+ String c sql) by (by rewrite Strings.string_app_assoc).
    destruct (Ascii.eqb_spec c ";") as [->|_]; [|destruct (Ascii.eqb c nl)].
    + cbn in Hc, Hnl. destruct (IH line line line "") as [H1 H2]; [cbn; lia|cbn; lia|]. cbn [concat_text lines_right Text Line]. rewrite H1. split; [done|].
      split; [rewrite Hc, Hnl; lia|]. by rewrite Hnl, <- Hl.
    + rewrite <- Happ. apply IH; [lia|]. rewrite Hc. destruct (String.eqb_spec (Strings.TrimSpace (cur +:+ String c "")) "") as [Hn|Hn].
      * apply TrimSpace_nil in Hn. rewrite Hn. cbn. lia.
      * destruct (String.eqb_spec (Strings.TrimLeftSpace (cur +:+ String c "")) "") as [Hn'|_]; [by apply TrimSpace_nil in Hn'|lia].
    + rewrite <- Happ. apply IH; [lia|]. rewrite Hc. done.
Qed.

Lemma lines_right_elem l : forall before st, lines_right before l -> st ∈ l ->
  exists pre post, concat_text l = pre +:+ (Text st +:+ post) /\ (Line st + newlines (Strings.TrimLeftSpace (Text st)) = before + newlines pre + newlines (Text st))%nat.
Proof.
  induction l as [|x l IH]; intros before st [Hx Hl] [->|Hin]%elem_of_cons || intros before st _ []%elem_of_nil.
  - exists "", (concat_text l). split; [done|]. cbn [newlines]. lia.
  - destruct (IH _ st Hl Hin) as (pre & post & E & Hn). exists (Text x +:+ pre), post. cbn [concat_text]. rewrite E, newlines_app, Strings.string_app_assoc. split; [done|lia].
Qed.

Lemma TrimLeftSpace_suffix s : exists lead, s = lead +:+ Strings.TrimLeftSpace s.
Proof.
  induction s as [s IH] using Strings.string_length_ind. rewrite Strings.TrimLeftSpace_step. destruct (Strings.space_step s) as [r|] eqn:E; [|by exists ""].
  destruct (IH r (Strings.space_step_length _ _ E)) as [lead Hr]. assert (Hs : exists a, s = a +:+ r).
  { destruct s as [|c [|d [|e s]]]; cbn in E; repeat case_match; try done; injection E as <-;
      first [by exists (String c "")|by exists (String c (String d ""))|by exists (String c (String d (String e "")))]. }
  destruct Hs as [a ->]. exists (a +:+ lead). by rewrite Strings.string_app_assoc, <- Hr.
Qed.

Lemma blank_split a : forall s b, blank s = blank (a +:+ b) -> exists a' b', s = a' +:+ b' /\ blank a' = blank a /\ blank b' = blank b.
Proof.
  induction a as [|c a IH]; intros s b H; [by exists "", s|]. rewrite Strings.string_app_cons in H. destruct s as [|d s]; [done|]. injection H as Hc Hs.
  apply IH in Hs as (a' & b' & -> & Ha & Hb). exists (String d a'), b'. rewrite Strings.string_app_cons. cbn [blank]. by rewrite Hc, Ha.
Qed.

(** What the check refuses. *)
Definition destructive (statement : string) : bool :=
  seedDropPattern statement || seedTruncatePattern statement || (seedDeletePattern statement && broadSeedDelete statement).

Lemma statement_diagnostic_spec path st g : statement_diagnostic path st = Some g ->
  destructive (Strings.TrimSpace (Text st)) = true /\ Strings.TrimSpace (Text st) <> "" /\ g_Path g = path /\ g_Line g = Line st.
Proof.
  unfold statement_diagnostic, destructive. destruct (String.eqb_spec (Strings.TrimSpace (Text st)) "") as [|Hne]; [done|].
  destruct (seedDropPattern _); [by intros [= <-]|]. destruct (seedTruncatePattern _); [by intros [= <-]|].
  destruct (_ && _); [by intros [= <-]|done].
Qed.

(** A safety diagnostic names the line on which its statement begins.  The
    seed's text is [before ++ rest], the text that is checked is equal to it but
    for blanks, byte by byte; at the same place the statement, which is
    destructive, begins in the checked text, and the diagnostic's line is one
    more than the line ends before that place.  Every destructive statement of
    the checked text has a diagnostic. *)
Theorem diagnostic_lines (plan : dbSeedPlan) :
  let checked := sanitizeSQLForSeedSafety (SQL plan) in
  blank checked = blank (SQL plan)
  /\ concat_text (splitSQLStatements checked) = checked
  /\ (forall g, g ∈ dbSeedSafetyDiagnostics plan ->
      exists before rest before' rest' statement, SQL plan = before +:+ rest /\ checked = before' +:+ (statement +:+ rest')
        /\ String.length before = String.length before' /\ newlines before = newlines before'
        /\ g_Path g = Path plan /\ g_Line g = S (newlines before)
        /\ statement <> "" /\ Strings.TrimSpace statement = statement /\ destructive statement = true)
  /\ (forall st, st ∈ splitSQLStatements checked -> Strings.TrimSpace (Text st) <> "" -> destructive (Strings.TrimSpace (Text st)) = true ->
      exists g, g ∈ dbSeedSafetyDiagnostics plan /\ g_Line g = Line st).
Proof.
  intros checked. assert (Hb : blank checked = blank (SQL plan)) by (by apply sanitize_loop_blank).
  destruct (split_loop_spec checked 1 1 1 "") as [Hcat Hlines]; [done|done|]. change (split_loop 1 1 "" checked) with (splitSQLStatements checked) in *.
  change ("" +:+ checked) with checked in Hcat. split_and!; [done|done| |].
  - intros g (st & Hst & Hg)%list_elem_of_omap. apply statement_diagnostic_spec in Hg as (Hd & Hne & Hp & Hl).
    destruct (lines_right_elem _ _ _ Hlines Hst) as (pre & post & E & Hn). rewrite Hcat in E.
    destruct (TrimLeftSpace_suffix (Text st)) as [lead Hlead]. destruct (Strings.TrimRightSpace_suffix (Strings.TrimLeftSpace (Text st))) as (w & Hw & _).
    assert (Etext : checked = (pre +:+ lead) +:+ (Strings.TrimSpace (Text st) +:+ (w +:+ post))).
    { rewrite E, Hlead at 1. unfold Strings.TrimSpace. rewrite Hw at 1. by rewrite !Strings.string_app_assoc. }
    assert (Hsplit : blank (SQL plan) = blank ((pre +:+ lead) +:+ (Strings.TrimSpace (Text st) +:+ (w +:+ post)))) by (by rewrite <- Etext).
    apply blank_split in Hsplit as (before & rest & Hsql & [Hlen Hnl]%blank_newlines & _).
    exists before, rest, (pre +:+ lead), (w +:+ post), (Strings.TrimSpace (Text st)). split_and!; [done..| |done|apply Strings.TrimSpace_idemp|done].
    rewrite Hl, Hnl, newlines_app. assert (newlines (Text st) = newlines lead + newlines (Strings.TrimLeftSpace (Text st)))%nat; [|lia].
    by rewrite <- newlines_app, <- Hlead.
  - intros st Hst Hne Hd. destruct (statement_diagnostic (Path plan) st) as [g|] eqn:E.
    + exists g. split; [apply list_elem_of_omap; by exists st|]. by apply statement_diagnostic_spec in E as (_ & _ & _ & ?).
    + exfalso. unfold statement_diagnostic in E. apply String.eqb_neq in Hne. rewrite Hne in E. unfold destructive in Hd.
      destruct (seedDropPattern _); [done|]. destruct (seedTruncatePattern _); [done|]. by destruct (_ && _).
Qed.

(** ** Examples *)
Definition lf : string := String nl "".
Definition demo_plan (sql : string) : dbSeedPlan := {| Service := "shop"; Path := "shop/db/seed.sql"; SQL := sql; SHA256 := "1" |}.
Definition findings (sql : string) : list (nat * string) := map (fun g => (g_Line g, g_Message g)) (dbSeedSafetyDiagnostics (demo_plan sql)).

Example comments_and_strings : findings ("-- DROP TABLE a;" +:+ lf +:+ "INSERT INTO t VALUES ('; drop table b');" +:+ lf +:+ lf +:+ "  delete  from t" +:+ lf +:+ "where true;")
  = [(4%nat, "seed contains broad DELETE statement")].
Proof. vm_compute. reflexivity. Qed.

(** An escape string ends at the quote that it escapes, so that what follows its
    real end is taken for a string; and a dollar inside a name opens a quote. *)
Example escape_string_hides_drop : findings "SELECT E'a\''; DROP TABLE t; SELECT '';" = [].
Proof. vm_compute. reflexivity. Qed.
Example dollar_in_a_name_hides_drop : findings "SELECT 1 AS a$b$; DROP TABLE t; SELECT 1 AS a$b$;" = [].
Proof. vm_compute. reflexivity. Qed.
Example drop_is_found : findings "SELECT 1 AS a; DROP TABLE t; SELECT 1 AS a;" = [(1%nat, "seed contains destructive DROP statement")].
Proof. vm_compute. reflexivity. Qed.
(** A data-modifying query before the statement hides its kind. *)
Example with_hides_delete : findings "WITH x AS (SELECT 1) DELETE FROM t;" = [].
Proof. vm_compute. reflexivity. Qed.

(** A commit whose answer is lost: the run reports a failure, and the next skips
    the seed instead of applying it again. *)
Definition demo_env (sql : string) : SeedEnv := {|
  sha256_hex := fun s => "h" +:+ Strconv.Itoa (Z.of_nat (String.length s));
  artifacts := Ret [{| a_Kind := "seed"; a_Role := "initial-data"; a_Path := "shop/db/seed.sql"; a_Service := "shop" |}];
  read_seed := fun _ => Ret sql; database_url := Ret "postgres://localhost/shop" |}.
Definition demo_run (sql : string) (dry : bool) (fs : list fault) : run := {|
  env := demo_env sql; root := "/app"; cfg := AppConfig.demo_config; opts := {| AppRoot := ""; DryRun := dry; JSON := false |}; ahead := fs |}.
Definition statuses (r : run) (w : world) : list string * nat :=
  match (perform (SS := stable_slice_sort) r (start_run r w)).2 with
  | Ret (result, errs) => (map Status (Seeds_ result), length errs)
  | _ => ([], 0%nat)
  end.
Definition lost : run := demo_run "INSERT INTO t VALUES (1);" false [Fine; Fine; Fine; Fine; Fine; Fine; Lost].
Definition again : run := demo_run "INSERT INTO t VALUES (1);" false [].
Definition changed : run := demo_run "INSERT INTO t VALUES (12);" false [].

Example lost_commit :
  let w := exec (SS := stable_slice_sort) [lost] fresh in
  statuses (demo_run "INSERT INTO t VALUES (1);" true []) fresh = (["planned"], 0%nat)
  /\ statuses lost fresh = (["failed"], 1%nat) /\ length (committed w) = 1%nat
  /\ statuses again w = (["skipped"], 0%nat) /\ statuses changed w = (["changed"], 1%nat).
Proof. vm_compute. done. Qed.
End SeedsProofs.
