(* ===== verification/Models.v ===== *)
(** * Models: entities, their endpoints, schemas and seeds

    [Models] models what is generated from the models of an application: the
    names and normalised actions of entities ([internal/parse/parser.go],
    [internal/model/model.go]), the endpoints of their actions, and the schema and
    seed files of each service ([internal/schemagen]).  Go types and syntax trees
    are not modelled: an entity is what the parser makes of them, with its fields'
    types as text.  A package's service is its place in the list of services,
    which the generated endpoints are appended to. *)
From stdpp Require Import base tactics list gmap strings.
From Stdlib Require Import ZArith Lia Ascii.
From S2P Require Import Prelude GoStrings Router ParserRoutes Payload RuntimeServer.

Module Models.
(** ** Data *)
Definition EntitySeedString : string := "string".
Definition EntitySeedInteger : string := "integer".
Definition EntitySeedFloat : string := "float".
Definition EntitySeedBool : string := "bool".
Definition EntitySeedTimestamp : string := "timestamp".

Record EntitySeedValue := { v_Field : string; v_Kind : string; Value : string; v_TokenPos : Z }.
Record EntitySeedRow := { Values : list EntitySeedValue; row_TokenPos : Z }.

Definition EntityCRUDList : string := "list".
Definition EntityCRUDGet : string := "get".
Definition EntityCRUDCreate : string := "create".
Definition EntityCRUDUpdate : string := "update".
Definition EntityCRUDDelete : string := "delete".

Record EntityCRUDOverride := { ov_Action : string; ov_Endpoint : string }.
Record EntityCRUD := { Actions : list string; Disabled : list string; Overrides : list EntityCRUDOverride }.

Definition EntityFieldStored : string := "stored".
Definition EntityFieldRelationship : string := "relationship".
Definition EntityFieldComputed : string := "computed".

Record EntityField := {
  f_Name : string; TypeExpr : string; f_Kind : string; Column : string; EnumValues : list string; Filterable : bool; RenamedFrom : string
}.
Record Package := { RelDir : string; pkg_Service : option nat }.
Record Entity := {
  Package_ : option Package; e_Name : string; Table : string; Fields : list EntityField; Seeds_ : list EntitySeedRow; CRUD : EntityCRUD; e_TokenPos : Z
}.
Record GeneratedModelEndpoint := {
  g_Entity : string; Action : string; g_Name : string; g_Access : Runtime.Access; g_Path : string; g_Methods : list string;
  g_PathParams : list (string * Payload.ParamKind); HasPayload : bool
}.
Record Service := { s_Name : string; s_Endpoints : list string; s_Generated : list GeneratedModelEndpoint }.

(** ** Names *)
Section names.
Context `{UnicodeTables}.

(** [toSnake]: an underscore before each capital but the first byte. *)
Fixpoint snake_runes (first : bool) (rs : list Z) : list Z :=
  match rs with
  | [] => []
  | r :: rest =>
    (if in_range 65 90 r then (if first then [] else [95]) ++ [r + 32] else [r]) ++ snake_runes false rest
  end.
Definition toSnake (value : string) : string := Utf8.encode (snake_runes true (Utf8.runes value)).
Definition defaultTableName (typeName : string) : string := toSnake typeName +:+ "s".

Definition firstNonEmpty (values : list string) : string :=
  default "" (List.find (fun v => negb (String.eqb (Strings.TrimSpace v) "")) values).

(** Runs of other characters become one mark. *)
Fixpoint squash (mark : ascii) (last : bool) (rs : list Z) : string :=
  match rs with
  | [] => ""
  | r :: rest =>
    if in_range 97 122 r || in_range 48 57 r then String (chr r) (squash mark false rest)
    else if last then squash mark true rest else String mark (squash mark true rest)
  end.

Definition starts_with_digit (s : string) : bool := match s with String c _ => in_range 48 57 (code c) | EmptyString => false end.

Definition safeDatabaseIdent (value : string) : string :=
  let out := Strings.Trim (squash "_" false (Utf8.runes (Strings.ToLower (Strings.TrimSpace value)))) "_" in
  if String.eqb out "" then "app" else if starts_with_digit out then "s_" +:+ out else out.

Definition safeRouteSegment (value : string) : string :=
  Strings.Trim (squash "-" false (Utf8.runes (Strings.ToLower (Strings.Trim (Strings.TrimSpace value) "/")))) "-".

(** [safeIdent] of the schema generator. *)
Definition safeIdent (value : string) : string :=
  let out := Strings.Trim (squash "_" false (Utf8.runes (Strings.ToLower (Strings.TrimSpace value)))) "_" in
  if String.eqb out "" then "value" else if starts_with_digit out then "n_" +:+ out else out.

Section services.
Context (services : list Service).

Definition EntityService (entity : Entity) : string :=
  match Package_ entity with
  | None => "app"
  | Some pkg =>
    let name := match pkg_Service pkg with Some i => match services !! i with Some s => s_Name s | None => "" end | None => "" end in
    if negb (String.eqb (Strings.TrimSpace name) "") then name
    else
      let rel := RelDir pkg in
      if negb (String.eqb rel ".") && negb (String.eqb rel "") then
        match Strings.Cut rel "/" with (first, _, true) => first | _ => rel end
      else "app"
  end.

Definition EntityDatabaseSchema (entity : Entity) : string := safeDatabaseIdent (EntityService entity).
Definition EntityQualifiedTable (entity : option Entity) : string :=
  match entity with None => "" | Some e => EntityDatabaseSchema e +:+ "." +:+ Strings.TrimSpace (Table e) end.

Definition EntityCRUDRouteBase (entity : option Entity) : string :=
  match entity with
  | None => "/app/model"
  | Some e =>
    let service := safeRouteSegment (EntityService e) in
    let service := if String.eqb service "" then "app" else service in
    let table := safeRouteSegment (Table e) in
    let table := if String.eqb table "" then safeRouteSegment (e_Name e) else table in
    let table := if String.eqb table "" then "model" else table in
    "/" +:+ service +:+ "/" +:+ table
  end.
End services.

(** ** Actions *)
Definition defaultEntityCRUDActions : list string := [EntityCRUDList; EntityCRUDGet; EntityCRUDCreate; EntityCRUDUpdate; EntityCRUDDelete].

Definition normalizeEntityCRUDAction (value : string) : option string :=
  let v := Strings.ToLower (Strings.TrimSpace value) in
  if existsb (String.eqb v) defaultEntityCRUDActions then Some v else None.

(** The constant values of the arguments; [None] for one that is not constant. *)
Fixpoint action_args (seen : list string) (args : list (option string)) : outcome string (list string) :=
  match args with
  | [] => Ret []
  | None :: _ => Fail "actions must be constant model.Action/string values"
  | Some value :: rest =>
    match normalizeEntityCRUDAction value with
    | None => Fail ("unsupported action " +:+ value)
    | Some action => if existsb (String.eqb action) seen then action_args seen rest else l ← action_args (action :: seen) rest; Ret (action :: l)
    end
  end.
Definition parseEntityActionArgs (args : list (option string)) : outcome string (list string) :=
  match args with [] => Ret defaultEntityCRUDActions | _ => action_args [] args end.

Definition normalizeEntityCRUD (generateSet : bool) (crud : EntityCRUD) : EntityCRUD :=
  if negb generateSet then {| Actions := []; Disabled := []; Overrides := [] |}
  else
    let actions := match Actions crud with [] => defaultEntityCRUDActions | l => l end in
    {| Actions := List.filter (fun a => negb (existsb (String.eqb a) (Disabled crud))) actions; Disabled := Disabled crud; Overrides := Overrides crud |}.

(** ** Fields *)
Definition primaryKeyField (entity : Entity) : option EntityField :=
  List.find (fun field => negb (String.eqb (f_Kind field) EntityFieldComputed) && Strings.EqualFold (f_Name field) "id") (Fields entity).

Definition TenantField (entity : Entity) : option EntityField :=
  List.find (fun field => negb (String.eqb (f_Kind field) EntityFieldComputed)
    && (Strings.EqualFold (f_Name field) "TenantID" || Strings.EqualFold (Column field) "tenant_id")) (Fields entity).

(** [firstTagValue], for the value of the key in the field's tag. *)
Definition firstTagValue (value : string) : string :=
  if String.eqb (Strings.Cut value ",").1.1 "-" then "" else value.

Definition tagSetting (value setting : string) : string :=
  let value := firstTagValue value in
  default "" (head (omap (fun part =>
    match Strings.Cut (Strings.TrimSpace part) "=" with
    | (name, val, true) => if String.eqb name setting && negb (String.eqb val "") then Some val else None
    | _ => None
    end) (if String.eqb value "" then [] else Strings.Split value ","))).

(** [fieldColumnName], for the values of the tag's keys [scenery] and [db]. *)
Definition fieldColumnName (tag : option (string * string)) (fieldName : string) : string :=
  match tag with
  | None => toSnake fieldName
  | Some (scenery, db) =>
    let column := tagSetting scenery "column" in
    if negb (String.eqb column "") then column
    else if negb (String.eqb (firstTagValue db) "") then firstTagValue db
    else toSnake fieldName
  end.

Definition generatedIDParamKind (field : EntityField) : Payload.ParamKind :=
  let t := Strings.TrimPrefix (Strings.TrimSpace (TypeExpr field)) "*" in
  if String.eqb t "bool" then Payload.ParamBool
  else if String.eqb t "int" then Payload.ParamInt
  else if String.eqb t "int8" then Payload.ParamInt8
  else if String.eqb t "int16" then Payload.ParamInt16
  else if String.eqb t "int32" then Payload.ParamInt32
  else if String.eqb t "int64" then Payload.ParamInt64
  else if String.eqb t "uint" then Payload.ParamUint
  else if String.eqb t "uint8" then Payload.ParamUint8
  else if String.eqb t "uint16" then Payload.ParamUint16
  else if String.eqb t "uint32" then Payload.ParamUint32
  else if String.eqb t "uint64" then Payload.ParamUint64
  else Payload.ParamString.
End names.

(** ** [strconv.Quote] *)
Class PrintTable := { is_print : Z -> bool (** [strconv.IsPrint] above ASCII *) }.

Definition hex_digit_of (z : Z) : ascii := if z <? 10 then chr (48 + z) else chr (87 + z).
Fixpoint hex_of (n : nat) (z : Z) : string :=
  match n with O => "" | S n => hex_of n (Z.shiftr z 4) +:+ String (hex_digit_of (Z.land z 15)) "" end.

Section quote.
Context {PT : PrintTable}.

Definition print_rune (r : Z) : bool := if r <? 128 then in_range 32 126 r else is_print r.

Definition quote_rune (r : Z) : string :=
  if (r =? 34) || (r =? 92) then String "\" (String (chr r) "")
  else if print_rune r then Utf8.encode_rune r
  else if r =? 7 then "\a" else if r =? 8 then "\b" else if r =? 12 then "\f" else if r =? 10 then "\n"
  else if r =? 13 then "\r" else if r =? 9 then "\t" else if r =? 11 then "\v"
  else if (r <? 32) || (r =? 127) then "\x" +:+ hex_of 2 r
  else if negb (Utf8.ValidRune r) then "\ufffd"
  else if r <? 65536 then "\u" +:+ hex_of 4 r
  else "\U" +:+ hex_of 8 r.

(** Bytes that are no part of a character are escaped one by one. *)
Fixpoint quote_bytes (fuel : nat) (s : string) : string :=
  match fuel, s with
  | S fuel, String c s1 =>
    let '(r, rest) := Utf8.decode_rune c s1 in
    if (r =? Utf8.RuneError) && (127 <? code c) && (String.length rest =? String.length s1)%nat
    then "\x" +:+ hex_of 2 (code c) +:+ quote_bytes fuel rest
    else quote_rune r +:+ quote_bytes fuel rest
  | _, _ => ""
  end.

Definition Quote (s : string) : string :=
  let q := String Strconv.quote_byte "" in q +:+ quote_bytes (String.length s) s +:+ q.
End quote.

(** ** Generated endpoints *)
Section endpoints.
Context `{UnicodeTables} {PT : PrintTable} (sourceDiagnostic : Z -> string -> string).

Definition needs_id (entity : Entity) (what : string) : string :=
  "model " +:+ e_Name entity +:+ " needs an ID field before " +:+ what +:+ " can be generated".

Definition buildGeneratedModelEndpoint (services : list Service) (entity : Entity) (action : string) : outcome string GeneratedModelEndpoint :=
  match primaryKeyField entity with
  | None => Fail (needs_id entity "CRUD endpoints")
  | Some idField =>
    let routeBase := EntityCRUDRouteBase services (Some entity) in
    let make name path methods params payload :=
      Ret {| g_Entity := e_Name entity; Action := action; g_Name := name; g_Access := Runtime.Auth; g_Path := path; g_Methods := methods;
             g_PathParams := params; HasPayload := payload |} in
    let id := [("id", generatedIDParamKind idField)] in
    if String.eqb action EntityCRUDList then make ("List" +:+ e_Name entity +:+ "s") routeBase ["GET"] [] false
    else if String.eqb action EntityCRUDGet then make ("Get" +:+ e_Name entity) (routeBase +:+ "/:id") ["GET"] id false
    else if String.eqb action EntityCRUDCreate then make ("Create" +:+ e_Name entity) routeBase ["POST"] [] true
    else if String.eqb action EntityCRUDUpdate then make ("Update" +:+ e_Name entity) (routeBase +:+ "/:id") ["PATCH"] id true
    else if String.eqb action EntityCRUDDelete then make ("Delete" +:+ e_Name entity) (routeBase +:+ "/:id") ["DELETE"] id false
    else Fail ("unsupported generated model action " +:+ Quote action)
  end.

Definition serviceHasEndpoint (svc : Service) (name : string) : bool := existsb (String.eqb name) (s_Endpoints svc).

Definition overrides_of (crud : EntityCRUD) : gmap string string :=
  fold_left (fun m o => <[ov_Action o := ov_Endpoint o]> m) (Overrides crud) ∅.

Definition add_generated (ep : GeneratedModelEndpoint) (svc : Service) : Service :=
  {| s_Name := s_Name svc; s_Endpoints := s_Endpoints svc; s_Generated := s_Generated svc ++ [ep] |}.

(** One action of an entity whose service is the [i]th. *)
Definition attach_action (entity : Entity) (i : nat) (st : list Service * list string) (action : string) : list Service * list string :=
  let '(services, errs) := st in
  if negb (String.eqb (default "" (overrides_of (CRUD entity) !! action)) "") then st
  else match buildGeneratedModelEndpoint services entity action with
  | Ret ep => (alter (add_generated ep) i services, errs)
  | Fail e => (services, errs ++ [sourceDiagnostic (e_TokenPos entity) e])
  | Panic _ => st
  end.

Definition attach_entity (st : list Service * list string) (entity : option Entity) : list Service * list string :=
  let '(services, errs) := st in
  match entity with
  | None => st
  | Some e =>
    if bool_decide (Actions (CRUD e) = []) then st
    else match (match Package_ e with Some pkg => pkg_Service pkg | None => None end) with
    | None => (services, errs ++ ["model " +:+ e_Name e +:+ " cannot generate CRUD endpoints without a service package"])
    | Some i =>
      match primaryKeyField e with
      | None => (services, errs ++ [sourceDiagnostic (e_TokenPos e) (needs_id e "CRUD endpoints")])
      | Some _ =>
        let '(services, errs) := fold_left (attach_action e i) (Actions (CRUD e)) (services, errs) in
        let missing o := match services !! i with Some svc => negb (serviceHasEndpoint svc (ov_Endpoint o)) | None => true end in
        (services, errs ++ map (fun o =>
           sourceDiagnostic (e_TokenPos e) ("model.Override(" +:+ Quote (ov_Action o) +:+ ", " +:+ ov_Endpoint o +:+ ") references no endpoint in service "
             +:+ match services !! i with Some svc => s_Name svc | None => "" end)) (List.filter missing (Overrides (CRUD e))))
      end
    end
  end.

Definition attachGeneratedModelEndpoints (services : list Service) (entities : list (option Entity)) : list Service * list string :=
  fold_left attach_entity entities (services, []).

(** [validateEntitySeedRows], for the entity's name and fields by name. *)
Definition seed_value_errors (typeName : string) (fields : gmap string EntityField) (value : EntitySeedValue) : bool * list string :=
  let diag msg := [sourceDiagnostic (v_TokenPos value) ("model.Seed field " +:+ Quote (v_Field value) +:+ msg)] in
  match fields !! v_Field value with
  | None => (false, diag (" does not match a field on " +:+ typeName))
  | Some field =>
    if String.eqb (f_Kind field) EntityFieldComputed then (false, diag " is computed and cannot be seeded")
    else
      (Strings.EqualFold (f_Name field) "id",
       if bool_decide (EnumValues field <> []) && String.eqb (v_Kind value) EntitySeedString && negb (existsb (String.eqb (Value value)) (EnumValues field))
       then diag (" value " +:+ Quote (Value value) +:+ " is not in enum values") else [])
  end.

Definition seed_row_errors (typeName : string) (fields : gmap string EntityField) (row : EntitySeedRow) : list string :=
  let rs := map (seed_value_errors typeName fields) (Values row) in
  List.concat (map snd rs)
  ++ (if existsb fst rs then [] else [sourceDiagnostic (row_TokenPos row) ("model.Seed for " +:+ typeName +:+ " requires an ID field value")]).

Definition validateEntitySeedRows (typeName : string) (rows : list EntitySeedRow) (fields : gmap string EntityField) : list string :=
  List.concat (map (seed_row_errors typeName fields) rows).
End endpoints.

(** ** Schemas *)
Definition lf : string := String (chr 10) "".

Record ServiceSchema := { sch_Service : string; SourcePath : string; GeneratedPath : string; HCL : string; Entities : list string }.
Record Drift := { d_Service : string; d_SourcePath : string; d_GeneratedPath : string; Message : string }.
Record ServiceSeed := { sd_Service : string; sd_GeneratedPath : string; SQL : string; sd_Entities : list string }.

Section schemas.
Context `{UnicodeTables} {PT : PrintTable} {SS : SliceSort} (services : list Service).

Definition entity_before (a b : Entity) : bool :=
  if negb (String.eqb (Table a) (Table b)) then str_lt (Table a) (Table b) else str_lt (e_Name a) (e_Name b).

(** The entities of each service, and the services in order. *)
Definition add_entity (m : gmap string (list Entity)) (e : Entity) : gmap string (list Entity) :=
  <[EntityService services e := default [] (m !! EntityService services e) ++ [e]]> m.
Definition byService (entities : list Entity) : gmap string (list Entity) := fold_left add_entity entities ∅.

Definition grouped (entities : list Entity) : list (string * list Entity) :=
  let m := byService entities in
  map (fun s => (s, slice_sort entity_before (default [] (m !! s)))) (Router.sort_strings (map fst (map_to_list m))).

Definition columnNullable (typeExpr : string) : bool := Strings.HasPrefix (Strings.TrimSpace typeExpr) "*".
Definition enumName (entity : Entity) (field : EntityField) : string := safeIdent (Table entity +:+ "_" +:+ Column field).
Definition hclRef (value : string) : string := if String.eqb value (safeIdent value) then value else Quote value.

Definition columnType (entity : Entity) (field : EntityField) : string :=
  if bool_decide (EnumValues field <> []) then "enum." +:+ hclRef (EntityDatabaseSchema services entity) +:+ "." +:+ hclRef (enumName entity field)
  else
    let t := Strings.TrimPrefix (Strings.TrimSpace (TypeExpr field)) "*" in
    let one_of l := existsb (String.eqb t) l in
    if one_of ["string"] then "text" else if one_of ["bool"] then "bool"
    else if one_of ["int"; "int32"; "uint"; "uint32"] then "integer"
    else if one_of ["int64"; "uint64"] then "bigint"
    else if one_of ["float32"; "float64"] then "double_precision"
    else if one_of ["time.Time"] then "timestamptz"
    else if one_of ["[]byte"] then "bytea"
    else if Strings.HasSuffix t ".UUID" then "uuid" else "text".

Definition concat_strings (l : list string) : string := Strings.Join l "".

Definition stored_fields (entity : Entity) : list EntityField :=
  List.filter (fun f => negb (String.eqb (f_Kind f) EntityFieldComputed)) (Fields entity).

Definition render_enum (entity : Entity) (field : EntityField) : string :=
  let schema := EntityDatabaseSchema services entity in
  if bool_decide (EnumValues field = []) || String.eqb (f_Kind field) EntityFieldComputed then ""
  else "enum " +:+ Quote schema +:+ " " +:+ Quote (enumName entity field) +:+ " {" +:+ lf +:+ "  schema = schema." +:+ hclRef schema +:+ lf
       +:+ "  values = [" +:+ Strings.Join (map Quote (EnumValues field)) ", " +:+ "]" +:+ lf +:+ "}" +:+ lf +:+ lf.

Definition render_column (entity : Entity) (field : EntityField) : string :=
  "  column " +:+ Quote (Column field) +:+ " {" +:+ lf +:+ "    null = " +:+ (if columnNullable (TypeExpr field) then "true" else "false") +:+ lf
  +:+ "    type = " +:+ columnType entity field +:+ lf +:+ "  }" +:+ lf +:+ lf.

Definition render_table (entity : Entity) : string :=
  let schema := EntityDatabaseSchema services entity in
  concat_strings (map (render_enum entity) (Fields entity))
  +:+ "table " +:+ Quote schema +:+ " " +:+ Quote (Table entity) +:+ " {" +:+ lf +:+ "  schema = schema." +:+ hclRef schema +:+ lf +:+ lf
  +:+ concat_strings (map (render_column entity) (stored_fields entity))
  +:+ match primaryKeyField entity with
      | Some pk => "  primary_key {" +:+ lf +:+ "    columns = [column." +:+ hclRef (Column pk) +:+ "]" +:+ lf +:+ "  }" +:+ lf
      | None => ""
      end
  +:+ "}" +:+ lf +:+ lf.

Definition renderServiceHCL (entities : list Entity) : string :=
  let schemas := Router.sort_strings (remove_dups (map (EntityDatabaseSchema services) entities)) in
  "// Code generated by scenery generate data; DO NOT EDIT." +:+ lf +:+ lf
  +:+ concat_strings (map (fun s => "schema " +:+ Quote s +:+ " {}" +:+ lf +:+ lf) schemas)
  +:+ concat_strings (map render_table entities).

Definition Build (entities : list (option Entity)) : list ServiceSchema :=
  map (fun '(service, es) =>
    {| sch_Service := service; SourcePath := Filepath.Join [service; "db"; "schema.hcl"];
       GeneratedPath := Filepath.Join [".scenery"; "gen"; "db"; service; "schema.hcl"]; HCL := renderServiceHCL es; Entities := map e_Name es |})
    (grouped (omap id entities)).

Definition normalizeHCL (value : string) : string :=
  let value := Strings.ReplaceAll value (String (chr 13) lf) lf in
  Strings.TrimSpace (Strings.Join (map (Strings.TrimRightSet (fun c => Ascii.eqb c " " || Ascii.eqb c (chr 9))) (Strings.Split value (chr 10))) lf).

(** [read]: what the reader says about a path, [None] if there is no file. *)
Fixpoint Diff (appRoot : string) (read : string -> option (outcome string string)) (schemas : list ServiceSchema) : outcome string (list Drift) :=
  match schemas with
  | [] => Ret []
  | schema :: rest =>
    let drift msg := {| d_Service := sch_Service schema; d_SourcePath := SourcePath schema; d_GeneratedPath := GeneratedPath schema; Message := msg |} in
    match read (Filepath.Join [appRoot; SourcePath schema]) with
    | None =>
      more ← Diff appRoot read rest;
      Ret (drift ("missing source schema " +:+ SourcePath schema +:+ " for generated model schema " +:+ GeneratedPath schema) :: more)
    | Some data =>
      data ← data;
      more ← Diff appRoot read rest;
      Ret (if String.eqb (normalizeHCL data) (normalizeHCL (HCL schema)) then more
           else drift ("source schema " +:+ SourcePath schema +:+ " differs from generated model schema " +:+ GeneratedPath schema) :: more)
    end
  end.

(** ** Seeds *)
Definition quoted (q : ascii) (value : string) : string := String q (Strings.ReplaceAll value (String q "") (String q (String q "")) +:+ String q "").
Definition quoteSQLIdent (value : string) : string := quoted Strconv.quote_byte value.
Definition quoteSQLQualifiedTable (entity : Entity) : string :=
  quoteSQLIdent (EntityDatabaseSchema services entity) +:+ "." +:+ quoteSQLIdent (Table entity).

Definition seedSQLLiteral (value : EntitySeedValue) : string :=
  let kind k := String.eqb (v_Kind value) k in
  if kind EntitySeedString then quoted "'" (Value value)
  else if kind EntitySeedInteger || kind EntitySeedFloat then Value value
  else if kind EntitySeedBool then (if Strings.EqualFold (Value value) "true" then "true" else "false")
  else if kind EntitySeedTimestamp then quoted "'" (Value value) +:+ "::timestamptz"
  else "null".

Definition generatedSeedFields (entity : Entity) : list EntityField := stored_fields entity.

Definition row_values (row : EntitySeedRow) : gmap string EntitySeedValue :=
  fold_left (fun (m : gmap string EntitySeedValue) v => <[v_Field v := v]> m) (Values row) ∅.

(** The columns of a row with their values. *)
Definition row_columns (entity : Entity) (row : EntitySeedRow) : list (EntityField * EntitySeedValue) :=
  omap (fun f => match row_values row !! f_Name f with Some v => Some (f, v) | None => None end) (generatedSeedFields entity).

Definition render_row (entity : Entity) (pk : EntityField) (row : EntitySeedRow) : string :=
  let columns := row_columns entity row in
  if bool_decide (columns = []) then ""
  else
    let column c := quoteSQLIdent (Column (fst c)) in
    let updates := map (fun c => column c +:+ " = excluded." +:+ column c)
      (List.filter (fun c => negb (Strings.EqualFold (f_Name (fst c)) (f_Name pk))) columns) in
    "insert into " +:+ quoteSQLQualifiedTable entity +:+ " (" +:+ Strings.Join (map column columns) ", " +:+ ")" +:+ lf
    +:+ "values (" +:+ Strings.Join (map (fun c => seedSQLLiteral (snd c)) columns) ", " +:+ ")" +:+ lf
    +:+ "on conflict (" +:+ quoteSQLIdent (Column pk) +:+ ") "
    +:+ (if bool_decide (updates = []) then "do nothing" else "do update set" +:+ lf +:+ "  " +:+ Strings.Join updates ("," +:+ lf +:+ "  "))
    +:+ ";" +:+ lf +:+ lf.

Fixpoint render_entities (entities : list Entity) : outcome string string :=
  match entities with
  | [] => Ret ""
  | e :: rest =>
    match primaryKeyField e with
    | None => Fail (needs_id e "seed SQL")
    | Some pk => more ← render_entities rest; Ret (concat_strings (map (render_row e pk) (Seeds_ e)) +:+ more)
    end
  end.

Definition renderServiceSeedSQL (entities : list Entity) : outcome string string :=
  rest ← render_entities entities;
  Ret ("-- Code generated by scenery generate data; DO NOT EDIT." +:+ lf +:+ lf +:+ rest).

Fixpoint render_seeds (groups : list (string * list Entity)) : outcome string (list ServiceSeed) :=
  match groups with
  | [] => Ret []
  | (service, es) :: rest =>
    sql ← renderServiceSeedSQL es;
    more ← render_seeds rest;
    Ret ({| sd_Service := service; sd_GeneratedPath := Filepath.Join [".scenery"; "gen"; "db"; service; "seed.sql"]; SQL := sql; sd_Entities := map e_Name es |} :: more)
  end.

Definition BuildSeeds (entities : list (option Entity)) : outcome string (list ServiceSeed) :=
  render_seeds (grouped (List.filter (fun e => bool_decide (Seeds_ e <> [])) (omap id entities))).
End schemas.
End Models.
