(* ===== verification/ModelsProofs.v ===== *)
(** * Models: what is generated is accepted, authenticated and distinct

    [ModelsProofs] proves that the seed files generated from models always pass
    the safety check of [Seeds], whatever names and strings they contain
    ([generated_seeds_accepted]); that every generated endpoint is what its
    action says, asks for authentication and does not collide with the others of
    its entity ([generated_endpoints_exact]); and, by example, what the schema
    generator and the parser get wrong. *)
From stdpp Require Import base tactics list gmap strings.
From Stdlib Require Import ZArith Lia Ascii Sorting.Sorted.
From S2P Require Import Prelude GoStrings Router ParserRoutes Payload RuntimeServer AppConfig Paths LocalProxy Models Seeds SeedsProofs.

Module ModelsProofs.
Import Seeds SeedsProofs Models.

(** ** The sanitizer on pieces of text *)
Abbreviation san := sanitizeSQLForSeedSafety.

Lemma sanitize_fuel f : forall g s, (String.length s <= f)%nat -> (String.length s <= g)%nat -> sanitize_loop f s = sanitize_loop g s.
Proof.
  induction f as [|f IH]; intros [|g] [|c s] Hf Hg; cbn in Hf, Hg; try done; try lia. cbn [sanitize_loop].
  pose proof (next_piece_app c s) as H. destruct (next_piece c s) as [[h p] rest]. destruct H as [_ Hr]. rewrite (IH g rest) by lia. done.
Qed.

Lemma san_cons c s : san (String c s) = let '(hidden, piece, rest) := next_piece c s in (if hidden then blank piece else piece) +:+ san rest.
Proof.
  unfold sanitizeSQLForSeedSafety. cbn [String.length sanitize_loop]. pose proof (next_piece_app c s) as H.
  destruct (next_piece c s) as [[h p] rest]. destruct H as [_ Hr]. by rewrite (sanitize_fuel _ (String.length rest)) by lia.
Qed.

(** Bytes that begin nothing and, with a byte before them, end nothing. *)
Definition plain (c : ascii) : bool := negb (existsb (Ascii.eqb c) ["-"; "/"; "'"; Strconv.quote_byte; "$"; "*"]%char).
Definition quiet (c : ascii) : bool := plain c && negb (Ascii.eqb c ";").

Lemma plain_cases c : plain c = true -> c <> "-"%char /\ c <> "/"%char /\ c <> "'"%char /\ c <> Strconv.quote_byte /\ c <> "$"%char /\ c <> "*"%char.
Proof. intros H. split_and!; by intros ->. Qed.

Lemma eqb_ne c d : c <> d -> Ascii.eqb c d = false.
Proof. apply Ascii.eqb_neq. Qed.

Lemma san_plain c s : plain c = true -> san (String c s) = String c (san s).
Proof.
  intros (H1 & H2 & H3 & H4 & H5 & _)%plain_cases. rewrite san_cons. unfold next_piece. rewrite !eqb_ne by done. done.
Qed.

Lemma san_quiet p r : Strings.all_bytes quiet p = true -> san (p +:+ r) = p +:+ san r.
Proof.
  induction p as [|c p IH]; [done|]. cbn [Strings.all_bytes]. intros [[Hc _]%andb_true_iff Hp]%andb_true_iff.
  by rewrite Strings.string_app_cons, san_plain, IH, Strings.string_app_cons.
Qed.

(** Doubling the quotes, and reading up to the closing one. *)
Fixpoint double (q : ascii) (v : string) : string :=
  match v with EmptyString => "" | String c v' => if Ascii.eqb c q then String c (String c (double q v')) else String c (double q v') end.

Lemma ReplaceAll_double q v : Strings.ReplaceAll v (String q "") (String q (String q "")) = double q v.
Proof.
  unfold Strings.ReplaceAll. induction v as [|c v IH]; [done|]. cbn [Strings.replace_from double Strings.HasPrefix String.length pred].
  change (Strings.HasPrefix (String c v) (String q "")) with (Ascii.eqb c q && true). rewrite andb_true_r, IH. by destruct (Ascii.eqb_spec c q) as [->|].
Qed.

Definition starts (c : ascii) (s : string) : bool := match s with String d _ => Ascii.eqb d c | EmptyString => false end.

Lemma to_quote_double q v r : starts q r = false -> to_quote q (double q v +:+ String q r) = (double q v +:+ String q "", r).
Proof.
  intros Hr. induction v as [|c v IH]; cbn [double].
  - change ("" +:+ String q r) with (String q r). cbn [to_quote]. rewrite Ascii.eqb_refl. destruct r as [|d r]; [done|]. cbn in Hr. by rewrite Hr.
  - destruct (Ascii.eqb_spec c q) as [->|Hne].
    + rewrite !Strings.string_app_cons. cbn [to_quote]. by rewrite !Ascii.eqb_refl, IH.
    + rewrite !Strings.string_app_cons. cbn [to_quote]. by rewrite eqb_ne, IH.
Qed.

Definition is_quote (q : ascii) : Prop := q = "'"%char \/ q = Strconv.quote_byte.

Lemma san_quoted q v r : is_quote q -> starts q r = false -> san (quoted q v +:+ r) = blank (quoted q v) +:+ san r.
Proof.
  intros Hq Hr. unfold quoted. rewrite ReplaceAll_double, Strings.string_app_cons, san_cons, Strings.string_app_assoc.
  assert (Hn : forall s, next_piece q s = let '(a, b) := to_quote q s in (true, String q a, b)) by (by destruct Hq as [->| ->]).
  rewrite Hn. change (String q "" +:+ r) with (String q r). by rewrite to_quote_double.
Qed.

(** ** Text without a statement's end *)
Definition hushed (s : string) : Prop :=
  forall c r, plain c = true -> exists o, san (s +:+ String c r) = o +:+ san (String c r) /\ Strings.has_byte ";" o = false.

Lemma blank_no_semicolon s : Strings.has_byte ";" (blank s) = false.
Proof. induction s as [|c s IH]; [done|]. cbn [blank Strings.has_byte]. rewrite IH, orb_false_r. unfold writeSeedSafetyBlank. by case_match. Qed.

Lemma quiet_no_semicolon p : Strings.all_bytes quiet p = true -> Strings.has_byte ";" p = false.
Proof.
  induction p as [|c p IH]; [done|]. cbn [Strings.all_bytes Strings.has_byte]. intros [[_ Hc]%andb_true_iff Hp]%andb_true_iff.
  rewrite IH by done. by apply negb_true_iff in Hc as ->.
Qed.

Lemma hushed_quiet p : Strings.all_bytes quiet p = true -> hushed p.
Proof. intros Hp c r _. exists p. split; [by apply san_quiet|by apply quiet_no_semicolon]. Qed.

Lemma hushed_quoted q v : is_quote q -> hushed (quoted q v).
Proof.
  intros Hq c r Hc. exists (blank (quoted q v)). split; [|apply blank_no_semicolon]. apply san_quoted; [done|]. cbn.
  apply plain_cases in Hc. destruct Hq as [->| ->]; apply eqb_ne; tauto.
Qed.

Lemma hushed_pre p t : Strings.all_bytes quiet p = true -> hushed t -> hushed (p +:+ t).
Proof.
  intros Hp Ht c r Hc. destruct (Ht c r Hc) as (o & E & Ho). exists (p +:+ o).
  rewrite Strings.string_app_assoc, san_quiet, E, Strings.string_app_assoc by done. split; [done|]. by rewrite Strings.has_byte_app, quiet_no_semicolon.
Qed.

Lemma hushed_mid s c p t : hushed s -> Strings.all_bytes quiet (String c p) = true -> hushed t -> hushed (s +:+ (String c p +:+ t)).
Proof.
  intros Hs Hp Ht d r Hd. pose proof (hushed_pre (String c p) t Hp Ht d r Hd) as (o & E & Ho).
  assert (Hc : plain c = true) by (cbn in Hp; by apply andb_true_iff in Hp as [[? _]%andb_true_iff _]).
  rewrite Strings.string_app_assoc. rewrite Strings.string_app_cons in *. rewrite Strings.string_app_cons in *.
  destruct (Hs c ((p +:+ t) +:+ String d r) Hc) as (o' & E' & Ho'). exists (o' +:+ o). rewrite E', E, Strings.string_app_assoc.
  split; [done|]. by rewrite Strings.has_byte_app, Ho', Ho.
Qed.

Lemma hushed_join l c p : Strings.all_bytes quiet (String c p) = true -> Forall hushed l -> hushed (Strings.Join l (String c p)).
Proof.
  intros Hp. induction l as [|x [|y l] IH]; intros Hl; [by apply hushed_quiet|by inversion Hl|].
  inversion Hl as [|? ? Hx Hl']; subst. cbn [Strings.Join] in *. apply hushed_mid; [done|done|]. by apply IH.
Qed.

(** A number: digits, signs, points, slashes and letters, without a comment. *)
Fixpoint number_text (s : string) : bool :=
  match s with
  | EmptyString => true
  | String c s' =>
    (tag_byte c || existsb (Ascii.eqb c) ["+"; "-"; "."; "/"]%char) && negb (Ascii.eqb c "-" && Strings.HasPrefix s' "-") && number_text s'
  end.

Lemma hushed_number s : number_text s = true -> hushed s.
Proof.
  induction s as [|c s IH]; [by intros _; apply hushed_quiet|]. cbn [number_text].
  intros [[Hc Hd]%andb_true_iff Hs]%andb_true_iff e r He. destruct (IH Hs e r He) as (o & E & Ho).
  exists (String c o). rewrite Strings.string_app_cons, Strings.string_app_cons, <- E. cbn [Strings.has_byte]. rewrite Ho, orb_false_r.
  assert (Hsemi : Ascii.eqb c ";" = false) by (by destruct (Ascii.eqb_spec c ";") as [->|]). split; [|done].
  assert (Hne : c <> "'"%char /\ c <> Strconv.quote_byte /\ c <> "$"%char) by (split_and!; by intros ->). destruct Hne as (H1 & H2 & H3).
  rewrite san_cons. unfold next_piece. apply plain_cases in He as (He1 & He2 & He3 & He4 & He5 & He6).
  assert (Hdash : Ascii.eqb c "-" && Strings.HasPrefix (s +:+ String e r) "-" = false).
  { destruct (Ascii.eqb c "-"); [|done]. cbn [andb] in *. destruct s as [|d s]; [|rewrite Strings.string_app_cons; by apply negb_true_iff in Hd].
    change (Strings.HasPrefix ("" +:+ String e r) "-") with (Ascii.eqb e "-" && true). by rewrite eqb_ne. }
  assert (Hslash : Ascii.eqb c "/" && Strings.HasPrefix (s +:+ String e r) "*" = false).
  { destruct (Ascii.eqb c "/"); [|done]. destruct s as [|d s].
    - change (Strings.HasPrefix ("" +:+ String e r) "*") with (Ascii.eqb e "*" && true). by rewrite (eqb_ne e).
    - rewrite Strings.string_app_cons. change (Strings.HasPrefix (String d (s +:+ String e r)) "*") with (Ascii.eqb d "*" && true). destruct (Ascii.eqb_spec d "*") as [->|]; [|done]. by cbn in Hs. }
  rewrite Hdash, Hslash, !eqb_ne by done. done.
Qed.

(** ** One row *)
Definition numbers_plain (entity : Entity) : Prop :=
  forall row v, row ∈ Seeds_ entity -> v ∈ Values row -> v_Kind v = EntitySeedInteger \/ v_Kind v = EntitySeedFloat -> number_text (Value v) = true.

Section rows.
Context `{UnicodeTables} (services : list Service).

Lemma hushed_literal v : (v_Kind v = EntitySeedInteger \/ v_Kind v = EntitySeedFloat -> number_text (Value v) = true) -> hushed (seedSQLLiteral v).
Proof.
  intros Hv. unfold seedSQLLiteral. destruct (String.eqb_spec (v_Kind v) EntitySeedString); [apply hushed_quoted; by left|].
  destruct (String.eqb_spec (v_Kind v) EntitySeedInteger); [apply hushed_number; auto|].
  destruct (String.eqb_spec (v_Kind v) EntitySeedFloat); [apply hushed_number; auto|]. cbn [orb].
  destruct (String.eqb (v_Kind v) EntitySeedBool); [by case_match; apply hushed_quiet|].
  destruct (String.eqb (v_Kind v) EntitySeedTimestamp); [|by apply hushed_quiet].
  rewrite <- (Strings.string_app_nil_r "::timestamptz"). apply hushed_mid; [apply hushed_quoted; by left|done|by apply hushed_quiet].
Qed.

Lemma hushed_ident s : hushed (quoteSQLIdent s).
Proof. apply hushed_quoted. by right. Qed.

Lemma row_columns_elem entity row f v : (f, v) ∈ row_columns entity row -> v ∈ Values row.
Proof.
  unfold row_columns. intros (f' & _ & Hv)%list_elem_of_omap. destruct (row_values row !! f_Name f') as [v'|] eqn:E; [|done]. injection Hv as _ ->.
  revert E. unfold row_values. assert (Hgen : forall l (m : gmap string EntitySeedValue) k x,
    fold_left (fun (m : gmap string EntitySeedValue) v => <[v_Field v := v]> m) l m !! k = Some x -> x ∈ l \/ m !! k = Some x).
  { induction l as [|y l IH]; intros m k x Hx; [by right|]. cbn [fold_left] in Hx. destruct (IH _ _ _ Hx) as [Hin|Hm]; [left; by right|].
    destruct (decide (v_Field y = k)) as [<-|Hne]; [rewrite lookup_insert_eq in Hm; injection Hm as ->; left; by left|].
    rewrite lookup_insert_ne in Hm by done. by right. }
  intros E. apply Hgen in E as [?|E]; [done|]. by rewrite lookup_empty in E.
Qed.

(** A row is an insertion. *)
Lemma san_row entity pk row r : numbers_plain entity -> row ∈ Seeds_ entity ->
  render_row services entity pk row = "" \/
  exists o, Strings.has_byte ";" o = false /\ san (render_row services entity pk row +:+ r) = "insert into " +:+ (o +:+ String ";" (lf +:+ (lf +:+ san r))).
Proof.
  intros Hnum Hrow. unfold render_row. cbv zeta. case_bool_decide as Hnil; [by left|right].
  set (cols := row_columns entity row) in *. set (table := quoteSQLQualifiedTable services entity).
  assert (Htable : hushed table) by (apply hushed_mid; [apply hushed_ident|done|apply hushed_ident]).
  assert (Hcols : hushed (Strings.Join (map (fun c => quoteSQLIdent (Column c.1)) cols) ", ")).
  { apply hushed_join; [done|]. apply Forall_map, Forall_forall. intros c _. apply hushed_ident. }
  assert (Hvals : hushed (Strings.Join (map (fun c => seedSQLLiteral c.2) cols) ", ")).
  { apply hushed_join; [done|]. apply Forall_map, Forall_forall. intros [f v] Hc. apply hushed_literal. intros Hk. eapply Hnum; [done| |done]. by eapply row_columns_elem. }
  set (updates := map (fun c => quoteSQLIdent (Column c.1) +:+ " = excluded." +:+ quoteSQLIdent (Column c.1)) _).
  assert (Htail : hushed (if bool_decide (updates = []) then "do nothing" else "do update set" +:+ Models.lf +:+ "  " +:+ Strings.Join updates ("," +:+ Models.lf +:+ "  "))).
  { case_bool_decide; [by apply hushed_quiet|]. do 3 (apply hushed_pre; [done|]). apply (hushed_join _ ","%char (Models.lf +:+ "  ")); [done|].
    apply Forall_map, Forall_forall. intros c _. apply hushed_mid; [apply hushed_ident|done|apply hushed_ident]. }
  set (tail := if bool_decide (updates = []) then _ else _) in *. clearbody tail table. clear updates.
  set (names := Strings.Join (map (fun c => quoteSQLIdent (Column c.1)) cols) ", ") in *.
  set (vals := Strings.Join (map (fun c => seedSQLLiteral c.2) cols) ", ") in *. clearbody names vals.
  assert (Hbody : hushed (table +:+ (" (" +:+ (names +:+ (")" +:+ (lf +:+ ("values (" +:+ (vals +:+ (")" +:+ (lf +:+ ("on conflict (" +:+ (quoteSQLIdent (Column pk) +:+ (") " +:+ tail))))))))))))).
  { apply hushed_mid; [done|done|]. apply hushed_mid; [done|done|]. do 2 (apply hushed_pre; [done|]). apply hushed_mid; [done|done|].
    do 2 (apply hushed_pre; [done|]). apply hushed_mid; [apply hushed_ident|done|done]. }
  destruct (Hbody ";"%char (lf +:+ (lf +:+ r)) eq_refl) as (o & E & Ho). exists o. split; [done|].
  rewrite !Strings.string_app_assoc in *. rewrite san_quiet by done. f_equal. change (String ";" ?x) with (";" +:+ x) in E. rewrite E.
  change (";" +:+ ?x) with (String ";" x). rewrite san_plain, !san_quiet by done. done.
Qed.

(** ** The file *)
Inductive inserts : string -> Prop :=
| inserts_nil : inserts ""
| inserts_cons o t : Strings.has_byte ";" o = false -> inserts t -> inserts ("insert into " +:+ (o +:+ String ";" (lf +:+ (lf +:+ t)))).

Lemma inserts_rows entity pk rows r : numbers_plain entity -> (forall row, row ∈ rows -> row ∈ Seeds_ entity) -> inserts (san r) ->
  inserts (san (concat_strings (map (render_row services entity pk) rows) +:+ r)).
Proof.
  intros Hnum. unfold concat_strings. induction rows as [|row rows IH]; intros Hin Hr; [done|].
  assert (Hjoin : forall x l, Strings.Join (x :: l) "" = x +:+ Strings.Join l "").
  { intros x [|y l]; [by rewrite Strings.string_app_nil_r|done]. }
  cbn [map]. rewrite Hjoin, Strings.string_app_assoc. specialize (IH (fun row' H' => Hin row' (list_elem_of_further _ _ _ H')) Hr).
  destruct (san_row entity pk row (Strings.Join (map (render_row services entity pk) rows) "" +:+ r) Hnum) as [->|(o & Ho & ->)]; [apply Hin; left|done|].
  by constructor.
Qed.

Lemma inserts_entities entities sql : Forall numbers_plain entities -> render_entities services entities = Ret sql -> inserts (san sql).
Proof.
  revert sql. induction entities as [|e entities IH]; intros sql Hnum; cbn [render_entities]; [intros [= <-]; constructor|].
  inversion Hnum as [|? ? He Hrest]; subst. destruct (primaryKeyField e) as [pk|]; [|done].
  destruct (render_entities services entities) as [more|err|err] eqn:E; [|done..]. intros [= <-]. apply inserts_rows; [done|done|]. by apply IH.
Qed.
End rows.

(** A part without a semicolon is taken into the current statement. *)
Lemma split_skip a : forall line start cur r, Strings.has_byte ";" a = false ->
  exists line' start', split_loop line start cur (a +:+ r) = split_loop line' start' (cur +:+ a) r.
Proof.
  induction a as [|c a IH]; intros line start cur r Ha; [by exists line, start; rewrite Strings.string_app_nil_r|].
  cbn [Strings.has_byte] in Ha. apply orb_false_iff in Ha as [Hc Ha]. rewrite Strings.string_app_cons. cbn [split_loop]. rewrite Hc.
  assert (Hcur : cur +:+ String c a = (cur +:+ String c "") +:+ a) by (by rewrite Strings.string_app_assoc). rewrite Hcur.
  destruct (Ascii.eqb c nl); by apply IH.
Qed.

(** A blank text has no semicolon. *)
Lemma blank_text_no_semicolon s : Strings.TrimLeftSpace s = "" -> Strings.has_byte ";" s = false.
Proof.
  assert (Hs : forall a b, Strings.space1 ";" = false /\ Strings.space2 a ";" = false /\ Strings.space3 a ";" b = false /\ Strings.space3 a b ";" = false
    /\ Strings.space2 ";" a = false /\ Strings.space3 ";" a b = false).
  { intros a b. unfold Strings.space2, Strings.space3, Utf8.dec2, Utf8.dec3. change (Utf8.cont ";") with false. change (code ";") with 59. rewrite !andb_false_r.
    split_and!; try done. assert (Hf : forall lo hi, 128 <= lo -> in_range lo hi 59 = false) by (intros; unfold in_range; apply andb_false_iff; left; apply Z.leb_gt; lia).
    rewrite Hf, andb_false_r; [done|]. case_match; lia. }
  assert (H1 : Strings.space1 ";" = false) by done. assert (H2 : forall a, Strings.space2 a ";" = false) by (intros a; apply (Hs a a)).
  assert (H3 : forall a b, Strings.space3 a ";" b = false) by (intros a b; apply (Hs a b)). assert (H4 : forall a b, Strings.space3 a b ";" = false) by (intros a b; apply (Hs a b)).
  assert (H5 : forall a, Strings.space2 ";" a = false) by (intros a; apply (Hs a a)). assert (H6 : forall a b, Strings.space3 ";" a b = false) by (intros a b; apply (Hs a b)).
  clear Hs. induction s as [s IH] using Strings.string_length_ind. rewrite Strings.TrimLeftSpace_step. destruct (Strings.space_step s) as [r|] eqn:E; [|by intros ->].
  intros Hr. specialize (IH r (Strings.space_step_length _ _ E) Hr). destruct s as [|c s]; [done|]. cbn in E.
  destruct (Strings.space1 c) eqn:E1; [injection E as ->; cbn [Strings.has_byte]; rewrite IH, orb_false_r; destruct (Ascii.eqb_spec c ";") as [->|]; congruence|].
  destruct s as [|d s]; [done|]. destruct (Strings.space2 c d) eqn:E2.
  { injection E as ->. cbn [Strings.has_byte]. rewrite IH, orb_false_r. destruct (Ascii.eqb_spec c ";") as [->|]; [congruence|].
    destruct (Ascii.eqb_spec d ";") as [->|]; [congruence|done]. }
  destruct s as [|e s]; [done|]. destruct (Strings.space3 c d e) eqn:E3; [|done]. injection E as ->. cbn [Strings.has_byte]. rewrite IH, orb_false_r.
  destruct (Ascii.eqb_spec c ";") as [->|]; [congruence|]. destruct (Ascii.eqb_spec d ";") as [->|]; [congruence|].
  destruct (Ascii.eqb_spec e ";") as [->|]; [congruence|done].
Qed.

Lemma TrimRightSpace_end x : Strings.TrimRightSpace (x +:+ ";") = x +:+ ";".
Proof.
  induction x as [|c x IH]; [done|]. rewrite Strings.string_app_cons. cbn [Strings.TrimRightSpace].
  destruct (String.eqb_spec (Strings.TrimLeftSpace (String c (x +:+ ";"))) "") as [Hb|_]; [|by rewrite IH].
  apply blank_text_no_semicolon in Hb. cbn [Strings.has_byte] in Hb. rewrite Strings.has_byte_app in Hb. apply orb_false_iff in Hb as [_ Hb]. by rewrite orb_true_r in Hb.
Qed.

Lemma after_semicolon_end f a : Strings.has_byte ";" a = false -> f "" = false -> after_semicolon f (a +:+ ";") = false.
Proof.
  intros Ha Hf. induction a as [|c a IH]; [change ("" +:+ ";") with ";"; cbn; by rewrite Hf|]. cbn [Strings.has_byte] in Ha. apply orb_false_iff in Ha as [Hc Ha].
  rewrite Strings.string_app_cons. cbn [after_semicolon]. by rewrite Hc, IH.
Qed.

Lemma insert_harmless path cur o line : Strings.TrimLeftSpace cur = "" -> Strings.has_byte ";" o = false ->
  statement_diagnostic path {| Text := cur +:+ (("insert into " +:+ o) +:+ ";"); Line := line |} = None.
Proof.
  intros Hcur Ho. unfold statement_diagnostic. cbn [Text].
  assert (Ht : Strings.TrimSpace (cur +:+ (("insert into " +:+ o) +:+ ";")) = ("insert into " +:+ o) +:+ ";").
  { unfold Strings.TrimSpace. rewrite Strings.TrimLeftSpace_app by done. rewrite Strings.TrimLeftSpace_id; [apply TrimRightSpace_end|by apply Strings.visible_step]. }
  rewrite Ht. assert (Hsemi : Strings.has_byte ";" ("insert into " +:+ o) = false) by (by rewrite Strings.has_byte_app).
  unfold seedDropPattern, seedTruncatePattern, seedDeletePattern, at_start. rewrite !after_semicolon_end by done.
  change (("insert into " +:+ o) +:+ ";") with (String "i" (("nsert into " +:+ o) +:+ ";")). done.
Qed.

Lemma inserts_harmless path t : inserts t -> forall line start cur, Strings.TrimLeftSpace cur = "" ->
  omap (statement_diagnostic path) (split_loop line start cur t) = [].
Proof.
  induction 1 as [|o t Ho Ht IH]; intros line start cur Hcur.
  - cbn [split_loop]. destruct (String.eqb cur ""); [done|]. cbn. unfold statement_diagnostic. cbn [Text].
    rewrite (proj2 (TrimSpace_nil cur) Hcur). done.
  - rewrite <- Strings.string_app_assoc.
    destruct (split_skip ("insert into " +:+ o) line start cur (String ";" (lf +:+ (lf +:+ t)))) as (l1 & s1 & ->); [by rewrite Strings.has_byte_app|].
    cbn [split_loop]. rewrite Ascii.eqb_refl. rewrite Strings.string_app_assoc. cbn [omap list_omap]. rewrite insert_harmless by done.
    rewrite <- Strings.string_app_assoc. destruct (split_skip (lf +:+ lf) l1 l1 "" t) as (l2 & s2 & ->); [done|]. by apply IH.
Qed.

Lemma to_newline_line line r : Strings.has_byte nl line = false -> to_newline (line +:+ String nl r) = (line, String nl r).
Proof.
  induction line as [|c line IH]; [done|]. cbn [Strings.has_byte]. intros [Hc Hl]%orb_false_iff. rewrite Strings.string_app_cons. cbn [to_newline].
  by rewrite Hc, IH.
Qed.

Lemma san_comment line r : Strings.has_byte nl line = false ->
  san (String "-" (String "-" line) +:+ String nl r) = blank (String "-" (String "-" line)) +:+ san (String nl r).
Proof. intros Hl. rewrite Strings.string_app_cons, san_cons. unfold next_piece. rewrite (to_newline_line (String "-" line) r) by done. done. Qed.

Lemma TrimLeftSpace_blank s : Strings.TrimLeftSpace (blank s) = "".
Proof. induction s as [|c s IH]; [done|]. cbn [blank]. unfold writeSeedSafetyBlank. by case_match. Qed.

Section files.
Context `{UnicodeTables} {SS : SliceSort} (services : list Service).

Lemma seed_file_accepted entities plan : Forall numbers_plain entities -> renderServiceSeedSQL services entities = Ret (Seeds.SQL plan) ->
  dbSeedSafetyDiagnostics plan = [].
Proof.
  intros Hnum. unfold renderServiceSeedSQL, dbSeedSafetyDiagnostics. destruct (render_entities services entities) as [rest|e|e] eqn:E; [|done..].
  cbn [mbind outcome_bind]. intros [= <-]. pose proof (inserts_entities services entities rest Hnum E) as Hins.
  set (line := " Code generated by scenery generate data; DO NOT EDIT.").
  change (lf +:+ (lf +:+ rest)) with (String nl (lf +:+ rest)).
  rewrite san_comment, san_plain, san_quiet by done. unfold splitSQLStatements.
  change (String nl (lf +:+ ?x)) with (lf +:+ (lf +:+ x)). rewrite <- !Strings.string_app_assoc.
  set (head := (blank _ +:+ lf) +:+ lf). destruct (split_skip head 1 1 "" (san rest)) as (l1 & s1 & ->); [done|].
  by apply inserts_harmless.
Qed.

(** ** By service *)
Abbreviation of_service s := (fun e => String.eqb (EntityService services e) s).

Lemma byService_fold l : forall (m : gmap string (list Entity)) s,
  let m' := fold_left (add_entity services) l m in
  default [] (m' !! s) = default [] (m !! s) ++ List.filter (of_service s) l
  /\ (is_Some (m' !! s) <-> is_Some (m !! s) \/ exists e, e ∈ l /\ EntityService services e = s).
Proof.
  induction l as [|e l IH]; intros m s; cbn [fold_left List.filter].
  - rewrite app_nil_r. split; [done|]. split; [auto|]. intros [?|(e & ?%elem_of_nil & _)]; done.
  - destruct (IH (add_entity services m e) s) as [-> Hs]. unfold add_entity in *. split.
    + destruct (String.eqb_spec (EntityService services e) s) as [->|Hne]; [rewrite lookup_insert_eq; cbn; by rewrite <- app_assoc|by rewrite lookup_insert_ne].
    + rewrite Hs. destruct (decide (EntityService services e = s)) as [<-|Hne].
      * rewrite lookup_insert_eq. split; [intros _; right; exists e; split; [left|done]|]. intros _. by left.
      * rewrite lookup_insert_ne by done. split; [intros [?|(x & ? & ?)]; [by left|right; exists x; split; [by right|done]]|].
        intros [?|(x & [->|Hx]%elem_of_cons & Hxs)]; [by left|done|right; by exists x].
Qed.

(** Each service once, in order, with exactly its entities. *)
Lemma grouped_spec entities :
  StronglySorted (fun a b => str_lt a b = true) (map fst (grouped services entities))
  /\ (forall s es, (s, es) ∈ grouped services entities -> es ≡ₚ List.filter (of_service s) entities)
  /\ (forall e, e ∈ entities -> exists es, (EntityService services e, es) ∈ grouped services entities /\ e ∈ es).
Proof.
  unfold grouped. pose proof (byService_fold entities ∅) as Hm. cbv zeta in Hm. fold (byService services entities) in Hm. set (m := byService services entities) in *.
  assert (Hfst : forall l : list string, map fst (map (fun s => (s, slice_sort entity_before (default [] (m !! s)))) l) = l) by (intros l; rewrite map_map; apply map_id).
  assert (Hes : forall s, slice_sort entity_before (default [] (m !! s)) ≡ₚ List.filter (of_service s) entities).
  { intros s. rewrite slice_sort_perm. destruct (Hm s) as [-> _]. by rewrite lookup_empty. }
  split_and!.
  - rewrite Hfst. apply Router.sort_strings_strict. apply NoDup_fst_map_to_list.
  - intros s es Hin. apply list_elem_of_In, in_map_iff in Hin as (s' & [= -> <-] & _). apply Hes.
  - intros e He. exists (slice_sort entity_before (default [] (m !! EntityService services e))). split.
    + apply list_elem_of_In, in_map_iff. exists (EntityService services e). split; [done|]. apply list_elem_of_In. unfold Router.sort_strings. rewrite sort_stable_perm.
      apply list_elem_of_fmap. destruct (Hm (EntityService services e)) as [_ [_ Hsome]]. destruct Hsome as [es Hes']; [right; by exists e|].
      exists (EntityService services e, es). split; [done|]. by apply elem_of_map_to_list.
    + rewrite Hes. apply list_elem_of_In, filter_In. split; [by apply list_elem_of_In|apply String.eqb_refl].
Qed.

Lemma render_entities_total es : Forall (fun e => is_Some (primaryKeyField e)) es -> exists sql, render_entities services es = Ret sql.
Proof. induction 1 as [|e es [pk Hpk] _ [sql E]]; [by exists ""|]. cbn [render_entities]. rewrite Hpk, E. by eexists. Qed.

Lemma render_seeds_total groups : Forall (fun g => Forall (fun e => is_Some (primaryKeyField e)) g.2) groups ->
  exists seeds, render_seeds services groups = Ret seeds
    /\ Forall2 (fun g seed => sd_Service seed = g.1 /\ sd_Entities seed = map e_Name g.2 /\ renderServiceSeedSQL services g.2 = Ret (Models.SQL seed)) groups seeds.
Proof.
  induction 1 as [|[s es] groups Hes _ (seeds & E & Hall)]; [by exists []|]. cbn [render_seeds]. destruct (render_entities_total es Hes) as [sql Es].
  assert (Er : exists sql', renderServiceSeedSQL services es = Ret sql') by (unfold renderServiceSeedSQL; rewrite Es; by eexists).
  destruct Er as [sql' Er]. rewrite Er, E. eexists. split; [reflexivity|]. by constructor.
Qed.

(** C35. If the numbers of the seeds are numerals and each model with seeds has an ID,
    a seed file is generated for each service with seeded models, in the order of
    the services and with all its models, and every file passes the safety
    check, whatever the strings and names in it are. *)
Theorem generated_seeds_accepted (entities : list (option Entity)) :
  (forall e, Some e ∈ entities -> Seeds_ e <> [] -> is_Some (primaryKeyField e)) ->
  (forall e, Some e ∈ entities -> numbers_plain e) ->
  exists seeds, BuildSeeds services entities = Ret seeds
    /\ StronglySorted (fun a b => str_lt a b = true) (map sd_Service seeds)
    /\ (forall e, Some e ∈ entities -> Seeds_ e <> [] -> exists seed, seed ∈ seeds /\ sd_Service seed = EntityService services e /\ e_Name e ∈ sd_Entities seed)
    /\ (forall seed plan, seed ∈ seeds -> Seeds.SQL plan = Models.SQL seed -> dbSeedSafetyDiagnostics plan = []).
Proof.
  intros Hpk Hnum. unfold BuildSeeds. set (seeded := List.filter _ (omap id entities)).
  assert (Hin : forall e, e ∈ seeded <-> Some e ∈ entities /\ Seeds_ e <> []).
  { intros e. rewrite list_elem_of_In. unfold seeded. rewrite filter_In, bool_decide_eq_true, <- list_elem_of_In, list_elem_of_omap.
    split; [intros [(o & Ho & Hid) ?]; by destruct o; [injection Hid as ->|]|]. intros [? ?]. split; [by exists (Some e)|done]. }
  destruct (grouped_spec seeded) as (Hsorted & Hgroup & Hall).
  assert (Hmem : forall s es e, (s, es) ∈ grouped services seeded -> e ∈ es -> Some e ∈ entities /\ Seeds_ e <> []).
  { intros s es e Hg He. apply Hin. rewrite (Hgroup s es Hg) in He. apply list_elem_of_In, filter_In in He as [He _]. by apply list_elem_of_In. }
  destruct (render_seeds_total (grouped services seeded)) as (seeds & E & H2).
  { apply Forall_forall. intros [s es] Hg. apply Forall_forall. intros e He. apply (Hmem s es e Hg) in He as [? ?]. by apply Hpk. }
  exists seeds. split_and!; [done| | |].
  - assert (Hmap : map sd_Service seeds = map fst (grouped services seeded)); [|by rewrite Hmap].
    clear -H2. induction H2 as [|g sd gs sds (Hs & _ & _) _ IH]; [done|]. cbn [map]. by rewrite Hs, IH.
  - intros e He Hse. destruct (Hall e) as (es & Hg & Hes); [by apply Hin|].
    destruct (list_elem_of_lookup_1 _ _ Hg) as [i Hi]. destruct (Forall2_lookup_l _ _ _ _ _ H2 Hi) as (seed & Hseed & Hsv & Hsn & _).
    exists seed. split_and!; [by eapply list_elem_of_lookup_2|done|]. rewrite Hsn. cbn. by apply list_elem_of_fmap_2.
  - intros seed plan Hseed Hsql. destruct (list_elem_of_lookup_1 _ _ Hseed) as [i Hi]. destruct (Forall2_lookup_r _ _ _ _ _ H2 Hi) as ([s es] & Hg & _ & _ & Hr).
    apply list_elem_of_lookup_2 in Hg. rewrite <- Hsql in Hr. apply (seed_file_accepted es); [|done]. apply Forall_forall. intros e He. apply Hnum. by apply (Hmem s es e).
Qed.
End files.

(** ** Routes of generated endpoints *)
Definition segment_byte (c : ascii) : bool := in_range 97 122 (code c) || in_range 48 57 (code c) || Ascii.eqb c "-".
Definition segment (s : string) : Prop := s <> "" /\ Strings.all_bytes segment_byte s = true.

Lemma squash_bytes rs : forall last, Strings.all_bytes segment_byte (squash "-" last rs) = true.
Proof.
  induction rs as [|r rs IH]; intros last; [done|]. cbn [squash]. destruct (in_range 97 122 r || in_range 48 57 r) eqn:E.
  - cbn [Strings.all_bytes]. rewrite IH, andb_true_r. unfold segment_byte. rewrite Utf8Facts.code_of_chr; [by rewrite E|].
    unfold in_range in E. lia.
  - destruct last; [apply IH|]. cbn [Strings.all_bytes]. by rewrite IH.
Qed.

Section routes.
Context `{UnicodeTables}.

Lemma safeRouteSegment_bytes v : Strings.all_bytes segment_byte (safeRouteSegment v) = true.
Proof.
  unfold safeRouteSegment, Strings.Trim. set (s := squash _ _ _). assert (Hs : Strings.all_bytes segment_byte s = true) by apply squash_bytes.
  destruct (LocalProxy.TrimSet_infix (Ascii.eqb "-") s) as (a & b & E). rewrite E in Hs. by apply LocalProxy.all_bytes_infix in Hs.
Qed.

Lemma route_base services e : exists s t, segment s /\ segment t /\ EntityCRUDRouteBase services (Some e) = "/" +:+ (s +:+ ("/" +:+ t)).
Proof.
  unfold EntityCRUDRouteBase. cbv zeta. eexists _, _. split_and!; [| |reflexivity]; split.
  - destruct (String.eqb_spec (safeRouteSegment (EntityService services e)) ""); [done|done].
  - case_match; [done|apply safeRouteSegment_bytes].
  - destruct (String.eqb_spec (safeRouteSegment (Table e)) ""); [|by rewrite (proj2 (String.eqb_neq _ _))].
    destruct (String.eqb_spec (safeRouteSegment (e_Name e)) ""); [done|done].
  - repeat case_match; try done; apply safeRouteSegment_bytes.
Qed.
End routes.

Lemma segment_visible s : Strings.all_bytes segment_byte s = true -> Strings.all_bytes Strings.visible s = true /\ Strings.has_byte "/" s = false.
Proof.
  intros Hs. split; [|by apply (Strings.all_bytes_no_byte segment_byte)]. revert Hs. apply Strings.all_bytes_impl. intros c Hc.
  unfold segment_byte, Strings.visible in *. apply orb_true_iff in Hc as [Hc| ->%Ascii.eqb_eq]; [|done]. unfold in_range in *. lia.
Qed.

Lemma TrimSuffix_other a c : c <> "/"%char -> Strings.TrimSuffix (a +:+ String c "") "/" = a +:+ String c "".
Proof.
  intros Hc. induction a as [|d a IH].
  - change ("" +:+ String c "") with (String c ""). cbn [Strings.TrimSuffix]. rewrite (proj2 (String.eqb_neq _ _)); [done|]. by intros [= ->].
  - rewrite Strings.string_app_cons. cbn [Strings.TrimSuffix]. rewrite (proj2 (String.eqb_neq _ _)), IH; [done|]. intros [= _ Ha]. by destruct a.
Qed.

Lemma string_snoc s : s <> "" -> exists a c, s = a +:+ String c "".
Proof.
  induction s as [|c s IH]; [done|]. intros _. destruct s as [|d s]; [by exists "", c|]. destruct IH as (a & e & E); [done|].
  exists (String c a), e. by rewrite Strings.string_app_cons, <- E.
Qed.

(** The segments of a path whose parts are visible and not empty. *)
Lemma route_segments x : Strings.all_bytes Strings.visible x = true -> x <> "" -> (exists a c, x = a +:+ String c "" /\ c <> "/"%char) ->
  Parser.routePatternSegments ("/" +:+ x) = Strings.Split x "/".
Proof.
  intros Hv Hne (a & c & Hx & Hc). unfold Parser.routePatternSegments, Parser.cleanRoutePath. cbv zeta.
  change ("/" +:+ x) with (String "/" x). rewrite Strings.TrimSpace_visible by done.
  assert (E : String "/" x = String "/" a +:+ String c "") by (by rewrite Strings.string_app_cons, <- Hx). rewrite E, TrimSuffix_other, <- E by done.
  change (String.eqb (String "/" x) "") with false. change (Strings.HasPrefix (String "/" x) "/") with true. cbn [negb].
  destruct (String.eqb_spec (String "/" x) "/") as [Hx'|_]; [congruence|]. change (String "/" x) with ("/" +:+ x). by rewrite Strings.TrimPrefix_app.
Qed.

Section collisions.
Context `{UnicodeTables} {PT : PrintTable}.

Lemma base_segments s t : segment s -> segment t ->
  Parser.routePatternSegments ("/" +:+ (s +:+ ("/" +:+ t))) = [s; t]
  /\ Parser.routePatternSegments (("/" +:+ (s +:+ ("/" +:+ t))) +:+ "/:id") = [s; t; ":id"].
Proof.
  intros [Hs1 [Hs2 Hs3]%segment_visible] [Ht1 [Ht2 Ht3]%segment_visible]. change ("/" +:+ t) with (String "/" t).
  assert (Hsplit : Strings.Split (s +:+ String "/" t) "/" = [s; t]) by (rewrite Paths.Split_app_sep, !Paths.Split_single; done).
  assert (Hv : Strings.all_bytes Strings.visible (s +:+ String "/" t) = true) by (rewrite Strings.all_bytes_app, Hs2; cbn [Strings.all_bytes]; by rewrite Ht2).
  assert (Hne : s +:+ String "/" t <> "") by (destruct s; [done|by rewrite Strings.string_app_cons]). split.
  - rewrite route_segments; [done|done|done|]. destruct (string_snoc t Ht1) as (a & c & ->). exists (s +:+ String "/" a), c.
    rewrite Strings.string_app_assoc. split; [done|]. intros ->. rewrite Strings.has_byte_app in Ht3. apply orb_false_iff in Ht3 as [_ Ht3]. done.
  - rewrite Strings.string_app_assoc. rewrite route_segments.
    + change ("/:id") with (String "/" ":id"). rewrite Paths.Split_app_sep, Hsplit. done.
    + rewrite Strings.all_bytes_app, Hv. done.
    + destruct (s +:+ String "/" t); [done|]. by rewrite Strings.string_app_cons.
    + exists ((s +:+ String "/" t) +:+ "/:i"), "d"%char. split; [|done]. by rewrite (Strings.string_app_assoc _ "/:i").
Qed.

(** The collection and an item of it are different routes. *)
Lemma base_item_apart services e : let base := EntityCRUDRouteBase services (Some e) in
  Parser.routePathsOverlap base (base +:+ "/:id") = false /\ Parser.routePathsOverlap (base +:+ "/:id") base = false.
Proof.
  cbv zeta. destruct (route_base services e) as (s & t & Hs & Ht & ->). unfold Parser.routePathsOverlap. destruct (base_segments s t Hs Ht) as [-> ->].
  assert (Hw : forall x, segment x -> Parser.routeSegmentWildcard x = false).
  { intros [|c x] [Hne Hx]; [done|]. cbn [Strings.all_bytes] in Hx. apply andb_true_iff in Hx as [Hc _].
    change (Ascii.eqb c "*" && true = false). rewrite andb_true_r. by destruct (Ascii.eqb_spec c "*") as [->|]. }
  assert (Hm : forall x, Parser.routeSegmentsCanMatchSameValue x x = true) by (intros x; unfold Parser.routeSegmentsCanMatchSameValue; by rewrite String.eqb_refl, orb_true_r).
  cbn [Parser.routeSegmentsOverlap]. by rewrite (Hw s Hs), (Hw t Ht), !Hm.
Qed.

Definition route_of (ep : GeneratedModelEndpoint) : Parser.routeOwner := {| Parser.id := g_Name ep; Parser.path := g_Path ep; Parser.methods := g_Methods ep |}.

(** What the actions' endpoints look like. *)
Definition shape (a : string) : option (string * bool * string) :=
  if String.eqb a EntityCRUDList then Some ("List", false, "GET")
  else if String.eqb a EntityCRUDGet then Some ("Get", true, "GET")
  else if String.eqb a EntityCRUDCreate then Some ("Create", false, "POST")
  else if String.eqb a EntityCRUDUpdate then Some ("Update", true, "PATCH")
  else if String.eqb a EntityCRUDDelete then Some ("Delete", true, "DELETE")
  else None.

Definition item_path (services : list Service) (e : Entity) (item : bool) : string :=
  if item then EntityCRUDRouteBase services (Some e) +:+ "/:id" else EntityCRUDRouteBase services (Some e).

Lemma build_shape services e a ep : buildGeneratedModelEndpoint services e a = Ret ep ->
  exists name item method rest, shape a = Some (name, item, method) /\ g_Name ep = name +:+ rest /\ g_Path ep = item_path services e item /\ g_Methods ep = [method]
    /\ g_Access ep = Runtime.Auth /\ g_Entity ep = e_Name e /\ Action ep = a /\ map fst (g_PathParams ep) = (if item then ["id"] else []).
Proof.
  unfold buildGeneratedModelEndpoint, shape. destruct (primaryKeyField e) as [pk|]; [|done]. cbv zeta.
  repeat match goal with |- context [String.eqb a ?x] => destruct (String.eqb a x); [intros [= <-]; by eexists _, _, _, _|] end. done.
Qed.

Lemma shape_apart a b na ia ma nb ib mb ra rb : a <> b -> shape a = Some (na, ia, ma) -> shape b = Some (nb, ib, mb) ->
  na +:+ ra <> nb +:+ rb /\ (ia <> ib \/ Parser.routeMethodsCollide [ma] [mb] = false).
Proof.
  assert (Hc : forall m, m ∈ ["GET"; "POST"; "PATCH"; "DELETE"] -> Parser.clean_method m = m) by (intros m; rewrite !elem_of_cons, elem_of_nil; intros; destruct_or?; by subst).
  assert (Hm : forall m m', m ∈ ["GET"; "POST"; "PATCH"; "DELETE"] -> m' ∈ ["GET"; "POST"; "PATCH"; "DELETE"] -> m <> m' -> Parser.routeMethodsCollide [m] [m'] = false).
  { intros m m' H1 H2 Hne. unfold Parser.routeMethodsCollide. cbn [existsb]. rewrite !Hc by done. rewrite !bool_decide_eq_false_2 by done. cbn [orb].
    rewrite !orb_false_r. unfold Parser.methods_pair_collide. rewrite (proj2 (String.eqb_neq m m')) by done.
    rewrite !elem_of_cons, elem_of_nil in H1, H2. destruct_or?; by subst. }
  unfold shape. intros Hab.
  repeat match goal with |- context [String.eqb a ?x] => destruct (String.eqb_spec a x) as [->|]; [intros [= <- <- <-]|] end; [..|done];
  repeat match goal with |- context [String.eqb b ?x] => destruct (String.eqb_spec b x) as [->|]; [intros [= <- <- <-]|] end; try done;
  (split; [rewrite !Strings.string_app_cons; discriminate|]); first [by left|right; apply Hm; set_solver].
Qed.

(** Two actions of an entity have different names and never the same requests. *)
Lemma actions_apart services e a b epa epb : a <> b ->
  buildGeneratedModelEndpoint services e a = Ret epa -> buildGeneratedModelEndpoint services e b = Ret epb ->
  g_Name epa <> g_Name epb /\ Parser.routeOwnersCollide (route_of epa) (route_of epb) = false.
Proof.
  intros Hab (na & ia & ma & ra & Sa & -> & Pa & Ma & _)%build_shape (nb & ib & mb & rb & Sb & -> & Pb & Mb & _)%build_shape.
  destruct (shape_apart a b _ _ _ _ _ _ ra rb Hab Sa Sb) as [Hn Hr]. split; [done|].
  unfold Parser.routeOwnersCollide, route_of. cbn [Parser.path Parser.methods]. rewrite Pa, Pb, Ma, Mb. destruct (base_item_apart services e) as [H1 H2].
  destruct Hr as [Hr| ->]; [|by case_match]. unfold item_path. destruct ia, ib; [done|by rewrite H2|by rewrite H1|done].
Qed.

(** ** What is attached *)
Lemma EntityService_names l l' e : map s_Name l = map s_Name l' -> EntityService l e = EntityService l' e.
Proof.
  intros Hn. unfold EntityService. destruct (Package_ e) as [pkg|]; [|done]. destruct (pkg_Service pkg) as [i|]; [|done].
  assert (Hi : s_Name <$> l !! i = s_Name <$> l' !! i) by (rewrite <- !list_lookup_fmap; by apply (f_equal (fun x => x !! i)) in Hn).
  destruct (l !! i), (l' !! i); cbn in Hi; [injection Hi as Hi; by rewrite Hi|done..].
Qed.

Lemma build_names l l' e a : map s_Name l = map s_Name l' -> buildGeneratedModelEndpoint l e a = buildGeneratedModelEndpoint l' e a.
Proof. intros Hn. unfold buildGeneratedModelEndpoint, EntityCRUDRouteBase. by rewrite (EntityService_names l l' e Hn). Qed.

(** The endpoints that an entity adds to the [i]th service. *)
Definition wanted (services : list Service) (i : nat) (e : Entity) : list GeneratedModelEndpoint :=
  match Package_ e, primaryKeyField e with
  | Some pkg, Some _ =>
    if bool_decide (pkg_Service pkg = Some i) then
      omap (fun a => if negb (String.eqb (default "" (overrides_of (CRUD e) !! a)) "") then None
                     else match buildGeneratedModelEndpoint services e a with Ret ep => Some ep | _ => None end) (Actions (CRUD e))
    else []
  | _, _ => []
  end.

Definition extend (eps : list GeneratedModelEndpoint) (svc : Service) : Service :=
  {| s_Name := s_Name svc; s_Endpoints := s_Endpoints svc; s_Generated := s_Generated svc ++ eps |}.

Lemma extend_nil svc : extend [] svc = svc.
Proof. destruct svc. unfold extend. cbn. by rewrite app_nil_r. Qed.
Lemma extend_extend a b svc : extend b (extend a svc) = extend (a ++ b) svc.
Proof. unfold extend. cbn. by rewrite <- app_assoc. Qed.

Section attaching.
Context (diagnose : Z -> string -> string).

Lemma attach_actions e i actions : forall services errs,
  let '(services', _) := fold_left (attach_action diagnose e i) actions (services, errs) in
  services' = alter (extend (omap (fun a => if negb (String.eqb (default "" (overrides_of (CRUD e) !! a)) "") then None
    else match buildGeneratedModelEndpoint services e a with Ret ep => Some ep | _ => None end) actions)) i services.
Proof.
  induction actions as [|a actions IH]; intros services errs; cbn [fold_left].
  { cbn. symmetry. apply list_alter_id. intros. apply extend_nil. }
  unfold attach_action at 2. cbn [omap list_omap]. destruct (negb _); [apply IH|].
  destruct (buildGeneratedModelEndpoint services e a) as [ep|err|err]; [|apply IH..]. specialize (IH (alter (add_generated ep) i services) errs).
  destruct (fold_left _ actions _) as [services' errs']. rewrite IH.
  assert (Hn : map s_Name (alter (extend [ep]) i services) = map s_Name services).
  { apply list_eq. intros k. rewrite !list_lookup_fmap. destruct (decide (i = k)) as [<-|Hne]; [rewrite list_lookup_alter_eq; by destruct (services !! i)|by rewrite list_lookup_alter_ne]. }
  change (add_generated ep) with (extend [ep]). rewrite list_alter_alter_eq. apply list_alter_ext; [|done].
  intros x _. unfold compose. rewrite extend_extend. f_equal. cbn [app]. f_equal. apply list_omap_ext, Forall_Forall2_diag, Forall_forall. intros y _.
  by rewrite (build_names _ services e y Hn).
Qed.

Lemma attach_entity_services services errs e :
  (attach_entity diagnose (services, errs) (Some e)).1 = imap (fun i svc => extend (wanted services i e) svc) services.
Proof.
  assert (Hnone : (forall i, wanted services i e = []) -> imap (fun i svc => extend (wanted services i e) svc) services = services).
  { intros Hw. apply list_eq. intros k. rewrite list_lookup_imap, Hw. destruct (services !! k); [|done]. cbn. by rewrite extend_nil. }
  unfold attach_entity. case_bool_decide as Hact.
  { symmetry. apply Hnone. intros i. unfold wanted. rewrite Hact. by repeat case_match. }
  destruct (Package_ e) as [pkg|] eqn:Epkg; [|symmetry; apply Hnone; intros i; unfold wanted; by rewrite Epkg].
  destruct (pkg_Service pkg) as [i|] eqn:Ei.
  2: { symmetry. apply Hnone. intros i. unfold wanted. rewrite Epkg. destruct (primaryKeyField e); [|done]. rewrite bool_decide_eq_false_2; [done|]. by rewrite Ei. }
  destruct (primaryKeyField e) as [pk|] eqn:Epk; [|symmetry; apply Hnone; intros k; unfold wanted; by rewrite Epkg, Epk].
  pose proof (attach_actions e i (Actions (CRUD e)) services errs) as Ha. destruct (fold_left _ _ _) as [services' errs']. cbn [fst]. rewrite Ha.
  apply list_eq. intros k. rewrite list_lookup_imap. unfold wanted. rewrite Epkg, Epk, Ei. destruct (decide (i = k)) as [<-|Hne].
  - rewrite list_lookup_alter_eq, bool_decide_eq_true_2 by done. done.
  - rewrite list_lookup_alter_ne, bool_decide_eq_false_2 by congruence. destruct (services !! k); [|done]. cbn. by rewrite extend_nil.
Qed.

Lemma wanted_names l l' i e : map s_Name l = map s_Name l' -> wanted l i e = wanted l' i e.
Proof.
  intros Hn. unfold wanted. destruct (Package_ e); [|done]. destruct (primaryKeyField e); [|done]. case_bool_decide; [|done].
  apply list_omap_ext, Forall_Forall2_diag, Forall_forall. intros a _. by rewrite (build_names l l' e a Hn).
Qed.

Lemma attach_services entities : forall services errs i,
  (fold_left (attach_entity diagnose) entities (services, errs)).1 !! i = extend (List.concat (map (wanted services i) (omap id entities))) <$> services !! i.
Proof.
  induction entities as [|[e|] entities IH]; intros services errs i; cbn [fold_left].
  - cbn. destruct (services !! i); [|done]. cbn. by rewrite extend_nil.
  - pose proof (attach_entity_services services errs e) as He. destruct (attach_entity diagnose (services, errs) (Some e)) as [sv er]. cbn [fst] in He. rewrite IH.
    assert (Hn : map s_Name sv = map s_Name services).
    { subst sv. apply list_eq. intros k. rewrite !list_lookup_fmap, list_lookup_imap. by destruct (services !! k). }
    rewrite He at 2. rewrite list_lookup_imap. destruct (services !! i) as [svc|]; [|done]. cbn. rewrite extend_extend. f_equal. f_equal. f_equal.
    f_equal. apply map_ext. intros x. by apply wanted_names.
  - apply IH.
Qed.

(** Attaching the generated endpoints adds to each service exactly those of the
    actions of its models that are not overridden, in order, and changes nothing
    else; each is named and routed by its action, asks for authentication and
    carries the model's ID where its path has one; and no two actions of a model
    share a name or a request. *)
Theorem generated_endpoints_exact (services : list Service) (entities : list (option Entity)) :
  (forall i, (attachGeneratedModelEndpoints diagnose services entities).1 !! i
     = extend (List.concat (map (wanted services i) (omap id entities))) <$> services !! i)
  /\ (forall i e ep, ep ∈ wanted services i e ->
       exists name item method rest, shape (Action ep) = Some (name, item, method) /\ Action ep ∈ Actions (CRUD e)
         /\ default "" (overrides_of (CRUD e) !! Action ep) = "" /\ g_Entity ep = e_Name e /\ g_Access ep = Runtime.Auth
         /\ g_Name ep = name +:+ rest /\ g_Path ep = item_path services e item /\ g_Methods ep = [method]
         /\ map fst (g_PathParams ep) = (if item then ["id"] else []))
  /\ (forall i e ep ep', ep ∈ wanted services i e -> ep' ∈ wanted services i e -> Action ep <> Action ep' ->
       g_Name ep <> g_Name ep' /\ Parser.routeOwnersCollide (route_of ep) (route_of ep') = false).
Proof.
  assert (Hw : forall i e ep, ep ∈ wanted services i e -> exists a, a ∈ Actions (CRUD e) /\ default "" (overrides_of (CRUD e) !! a) = ""
    /\ buildGeneratedModelEndpoint services e a = Ret ep).
  { intros i e ep. unfold wanted. destruct (Package_ e); [|by intros ?%elem_of_nil]. destruct (primaryKeyField e); [|by intros ?%elem_of_nil].
    case_bool_decide; [|by intros ?%elem_of_nil]. intros (a & Ha & Hep)%list_elem_of_omap. exists a.
    destruct (String.eqb_spec (default "" (overrides_of (CRUD e) !! a)) ""); [|done]. cbn in Hep.
    by destruct (buildGeneratedModelEndpoint services e a); [injection Hep as ->|..]. }
  split_and!.
  - intros i. apply attach_services.
  - intros i e ep (a & Ha & Ho & (name & item & method & rest & H1 & H2 & H3 & H4 & H5 & H6 & <- & H8)%build_shape)%Hw. by exists name, item, method, rest.
  - intros i e ep ep' (a & _ & _ & Hb)%Hw (a' & _ & _ & Hb')%Hw Hne. apply (actions_apart services e a a'); [|done|done].
    apply build_shape in Hb as (? & ? & ? & ? & _ & _ & _ & _ & _ & _ & <- & _). apply build_shape in Hb' as (? & ? & ? & ? & _ & _ & _ & _ & _ & _ & <- & _). done.
Qed.
End attaching.
End collisions.

(** A source schema with the generated text is no drift. *)
Lemma Diff_written root read schemas : (forall s, s ∈ schemas -> exists data, read (Filepath.Join [root; SourcePath s]) = Some (Ret data) /\ normalizeHCL data = normalizeHCL (HCL s)) ->
  Diff root read schemas = Ret [].
Proof.
  induction schemas as [|s schemas IH]; intros H; [done|]. cbn [Diff]. destruct (H s) as (data & -> & Hd); [left|]. cbn [mbind outcome_bind].
  rewrite IH by (intros x Hx; apply H; by right). cbn [mbind outcome_bind]. by rewrite Hd, String.eqb_refl.
Qed.

(** ** Examples *)
Definition quote : string := String Strconv.quote_byte "".
Definition demo_field (name kind type column : string) (enum : list string) : EntityField :=
  {| f_Name := name; TypeExpr := type; f_Kind := kind; Column := column; EnumValues := enum; Filterable := false; RenamedFrom := "" |}.
Definition demo_value (field kind value : string) : EntitySeedValue := {| v_Field := field; v_Kind := kind; Value := value; v_TokenPos := 0 |}.
Definition demo_entity (table : string) (fields : list EntityField) (seeds : list EntitySeedRow) : Entity :=
  {| Package_ := Some {| RelDir := "shop"; pkg_Service := Some 0%nat |}; e_Name := "Item"; Table := table; Fields := fields; Seeds_ := seeds;
     CRUD := {| Actions := defaultEntityCRUDActions; Disabled := []; Overrides := [{| ov_Action := EntityCRUDDelete; ov_Endpoint := "Remove" |}] |}; e_TokenPos := 0 |}.
Definition demo_services : list Service := [{| s_Name := "shop"; s_Endpoints := ["Remove"]; s_Generated := [] |}].
Definition demo_item : Entity := demo_entity "items"
  [demo_field "ID" EntityFieldStored "int64" "id" []; demo_field "Name" EntityFieldStored "string" "name" []; demo_field "Price" EntityFieldStored "float64" "price" []]
  [{| Values := [demo_value "ID" EntitySeedInteger "-1"; demo_value "Name" EntitySeedString "'; DROP TABLE t; --"; demo_value "Price" EntitySeedFloat "1/2"]; row_TokenPos := 0 |}].

Lemma generated_seeds_accepted_witness : exists seeds, BuildSeeds (H := ascii_tables) (SS := stable_slice_sort) demo_services [Some demo_item; None] = Ret seeds
  /\ (forall seed plan, seed ∈ seeds -> Seeds.SQL plan = Models.SQL seed -> dbSeedSafetyDiagnostics plan = []).
Proof.
  destruct (generated_seeds_accepted (H := ascii_tables) (SS := stable_slice_sort) demo_services [Some demo_item; None]) as (seeds & E & _ & _ & Hs).
  - intros e [[= ->]|[[=]|?%elem_of_nil]%elem_of_cons]%elem_of_cons _; [|done]. vm_compute. eauto.
  - intros e [[= ->]|[[=]|?%elem_of_nil]%elem_of_cons]%elem_of_cons; [|done]. intros row v Hrow Hv Hk. cbn in Hrow. apply list_elem_of_singleton in Hrow as ->.
    cbn in Hv. rewrite !elem_of_cons, elem_of_nil in Hv. destruct Hv as [->|[->|[->|[]]]]; [done|by destruct Hk|done].
  - exists seeds. split; [exact E|exact Hs].
Defined.

(** The row of the example: the fraction is written as a division of integers,
    which is zero in SQL. *)
Example fraction_becomes_division :
  render_row (H := ascii_tables) demo_services demo_item (demo_field "ID" EntityFieldStored "int64" "id" [])
    {| Values := [demo_value "ID" EntitySeedInteger "1"; demo_value "Price" EntitySeedFloat "1/2"]; row_TokenPos := 0 |}
  = "insert into " +:+ quote +:+ "shop" +:+ quote +:+ "." +:+ quote +:+ "items" +:+ quote +:+ " (" +:+ quote +:+ "id" +:+ quote +:+ ", " +:+ quote +:+ "price" +:+ quote +:+ ")" +:+ lf
    +:+ "values (1, 1/2)" +:+ lf +:+ "on conflict (" +:+ quote +:+ "id" +:+ quote +:+ ") do update set" +:+ lf
    +:+ "  " +:+ quote +:+ "price" +:+ quote +:+ " = excluded." +:+ quote +:+ "price" +:+ quote +:+ ";" +:+ lf +:+ lf.
Proof. vm_compute. reflexivity. Qed.

(** The options of a [db] tag become a part of the column's name. *)
Example tag_options_kept : fieldColumnName (Some ("", "id,omitempty")) "ID" = "id,omitempty" /\ fieldColumnName None "UserID" = "user_i_d".
Proof. vm_compute. done. Qed.

(** Two enumerations of a schema can have one name. *)
Example enum_names_collide :
  enumName (H := ascii_tables) (demo_entity "order" [] []) (demo_field "S" EntityFieldStored "string" "item_state" ["a"])
  = enumName (H := ascii_tables) (demo_entity "order_item" [] []) (demo_field "S" EntityFieldStored "string" "state" ["b"]).
Proof. vm_compute. reflexivity. Qed.

Definition plain_print : PrintTable := {| is_print := fun _ => true |}.
Example demo_generated :
  map (fun ep => (g_Name ep, g_Methods ep, g_Path ep)) (List.concat (map s_Generated
    (attachGeneratedModelEndpoints (H := ascii_tables) (PT := plain_print) (fun _ m => m) demo_services [Some demo_item]).1))
  = [("ListItems", ["GET"], "/shop/items"); ("GetItem", ["GET"], "/shop/items/:id"); ("CreateItem", ["POST"], "/shop/items"); ("UpdateItem", ["PATCH"], "/shop/items/:id")].
Proof. vm_compute. reflexivity. Qed.

Example demo_quote : Quote (PT := plain_print) ("a" +:+ quote +:+ String (chr 10) (String (chr 200) "\")) = quote +:+ "a\" +:+ quote +:+ "\n\xc8\\" +:+ quote.
Proof. vm_compute. reflexivity. Qed.
End ModelsProofs.
