(* ===== verification/Workers.v ===== *)
(** * Worker manifests and bindings ([internal/workers/manifest.go], [bindings.go])

    [Workers] models the validation of the manifests of external workers, their
    summaries and the bindings generated from them.  The search for manifests and
    their decoding, the order in which a Go map is ranged over, which files can be
    written and the JSON of a binding's data are arguments. *)
From stdpp Require Import base tactics list gmap strings.
From Stdlib Require Import ZArith Lia Ascii.
From S2P Require Import Prelude GoStrings Router AppConfig StateM Models.
Import StateM.

Module Workers.
Definition ManifestSchemaVersion : string := "scenery.worker.manifest.v1".
Definition ManifestSchemaVersionV2 : string := "scenery.worker.manifest.v2".
Definition TypeScriptWorkerGeneratedRelDir : string := ".scenery/generated/temporal/typescript".

Record ManifestTemporal := { Namespace : string; mt_TaskQueues : list string }.
Record Activity := { a_Name : string; Input : string; Output : string }.
Record TaskQueue := { q_Name : string; q_Activities : list string; Workflows : list string; RegistrationHash : string }.
Record Manifest := {
  SchemaVersion : string; App : string; Language : string; BuildID : string; PayloadCodec : string; Temporal : ManifestTemporal;
  TaskQueues : list TaskQueue; Activities : list Activity; Path : string
}.
Record TaskQueueSummary := { ts_Name : string; ts_Activities : list string; ts_Workflows : list string; ts_RegistrationHash : string }.
Record Summary := {
  s_Path : string; s_SchemaVersion : string; s_App : string; s_Language : string; s_BuildID : string; s_PayloadCodec : string; s_Namespace : string;
  s_TaskQueues : list string; TaskQueueRegistrations : list TaskQueueSummary; s_Activities : list string
}.
Record Diagnostic := { d_Path : string; Message : string }.
Record Validation := { Checked : bool; OK : bool; Count : nat; Manifests : list Summary; Diagnostics : list Diagnostic }.

Definition empty (s : string) : bool := String.eqb (Strings.TrimSpace s) "".

Definition manifestSchemaVersion (m : Manifest) : string :=
  if empty (SchemaVersion m) then ManifestSchemaVersion else Strings.TrimSpace (SchemaVersion m).

(** [sha256:] and 64 lower-case hexadecimal digits. *)
Definition hash_char (c : ascii) : bool := in_range 48 57 (code c) || in_range 97 102 (code c).
Definition isRegistrationHash (hash : string) : bool :=
  (String.length hash =? 71)%nat && Strings.HasPrefix hash "sha256:" && Strings.all_bytes hash_char (Strings.sdrop 7 hash).

Section validation.
Context {PT : Models.PrintTable} {OO : AppConfig.ObjectOrder} {SS : SliceSort}.
Abbreviation Quote := Models.Quote.

Definition diag (m : Manifest) (message : string) : Diagnostic := {| d_Path := Path m; Message := message |}.
Definition when (b : bool) (d : Diagnostic) : list Diagnostic := if b then [d] else [].

Definition validateManifestV1Queues (m : Manifest) : list Diagnostic :=
  when (bool_decide (mt_TaskQueues (Temporal m) = [])) (diag m "temporal.task_queues must not be empty")
  ++ List.concat (map (fun q => when (empty q) (diag m "temporal.task_queues must not contain empty values")) (mt_TaskQueues (Temporal m))).

Fixpoint v2_queues (m : Manifest) (seen : list string) (queues : list TaskQueue) : list Diagnostic :=
  match queues with
  | [] => []
  | q :: rest =>
    let name := Strings.TrimSpace (q_Name q) in
    if String.eqb name "" then diag m "task_queues.name must not be empty" :: v2_queues m seen rest
    else
      let hash := Strings.TrimSpace (RegistrationHash q) in
      when (existsb (String.eqb name) seen) (diag m ("duplicate task queue " +:+ Quote name))
      ++ (if String.eqb hash "" then [diag m ("task queue " +:+ Quote name +:+ " registration_hash must not be empty")]
          else when (negb (isRegistrationHash hash))
                 (diag m ("task queue " +:+ Quote name +:+ " registration_hash must be sha256: followed by 64 lowercase hex characters")))
      ++ v2_queues m (name :: seen) rest
  end.

Definition validateManifestV2Queues (m : Manifest) : list Diagnostic :=
  when (bool_decide (mt_TaskQueues (Temporal m) <> [])) (diag m "scenery.worker.manifest.v2 uses top-level task_queues, not temporal.task_queues")
  ++ when (bool_decide (TaskQueues m = [])) (diag m "task_queues must not be empty")
  ++ v2_queues m [] (TaskQueues m).

(** The names of the activities, and what is wrong with them. *)
Fixpoint check_activities (m : Manifest) (names : list string) (activities : list Activity) : list string * list Diagnostic :=
  match activities with
  | [] => (names, [])
  | a :: rest =>
    let name := Strings.TrimSpace (a_Name a) in
    if String.eqb name "" then
      let '(names, ds) := check_activities m names rest in (names, diag m "activity name must not be empty" :: ds)
    else
      let dup := existsb (String.eqb name) names in
      let '(names, ds) := check_activities m (if dup then names else names ++ [name]) rest in
      (names, when dup (diag m ("duplicate activity " +:+ Quote name))
              ++ when (empty (Input a)) (diag m ("activity " +:+ Quote name +:+ " input must not be empty"))
              ++ when (empty (Output a)) (diag m ("activity " +:+ Quote name +:+ " output must not be empty")) ++ ds)
  end.

Definition queue_activities (m : Manifest) (activityNames : list string) (q : TaskQueue) : list Diagnostic :=
  List.concat (map (fun activity =>
    let name := Strings.TrimSpace activity in
    if String.eqb name "" then [diag m ("task queue " +:+ Quote (q_Name q) +:+ " activities must not contain empty values")]
    else when (negb (existsb (String.eqb name) activityNames)) (diag m ("task queue " +:+ Quote (q_Name q) +:+ " references undeclared activity " +:+ Quote name)))
    (q_Activities q))
  ++ List.concat (map (fun w => when (empty w) (diag m ("task queue " +:+ Quote (q_Name q) +:+ " workflows must not contain empty values"))) (Workflows q)).

Definition registered (m : Manifest) : list string :=
  List.filter (fun n => negb (String.eqb n "")) (map Strings.TrimSpace (List.concat (map q_Activities (TaskQueues m)))).

Definition validateManifestV2Activities (m : Manifest) (activityNames : list string) : list Diagnostic :=
  List.concat (map (queue_activities m activityNames) (TaskQueues m))
  ++ List.concat (map (fun name => when (negb (existsb (String.eqb name) (registered m))) (diag m ("activity " +:+ Quote name +:+ " is not registered on any task queue")))
       (AppConfig.visit activityNames)).

Definition validateManifest (m : Manifest) (appName : string) : list Diagnostic :=
  let v := manifestSchemaVersion m in
  when (negb (String.eqb v ManifestSchemaVersion) && negb (String.eqb v ManifestSchemaVersionV2))
    (diag m ("schema_version must be " +:+ Quote ManifestSchemaVersion +:+ " or " +:+ Quote ManifestSchemaVersionV2))
  ++ (if empty (App m) then [diag m "app must not be empty"]
      else when (negb (String.eqb appName "") && negb (String.eqb (App m) appName))
             (diag m ("app " +:+ Quote (App m) +:+ " does not match scenery app " +:+ Quote appName)))
  ++ when (empty (Language m)) (diag m "language must not be empty")
  ++ when (empty (BuildID m)) (diag m "build_id must not be empty")
  ++ (if empty (PayloadCodec m) then [diag m "payload_codec must not be empty"]
      else when (negb (String.eqb (PayloadCodec m) "scenery-json-v1")) (diag m "payload_codec must be scenery-json-v1"))
  ++ when (empty (Namespace (Temporal m))) (diag m "temporal.namespace must not be empty")
  ++ (if String.eqb v ManifestSchemaVersion then validateManifestV1Queues m
      else if String.eqb v ManifestSchemaVersionV2 then validateManifestV2Queues m else [])
  ++ when (bool_decide (Activities m = [])) (diag m "activities must not be empty")
  ++ (let '(names, ds) := check_activities m [] (Activities m) in
      ds ++ (if String.eqb v ManifestSchemaVersionV2 then validateManifestV2Activities m names else [])).

(** ** Summaries *)
Definition manifestTaskQueueNames (m : Manifest) : list string :=
  if String.eqb (manifestSchemaVersion m) ManifestSchemaVersionV2
  then List.filter (fun n => negb (empty n)) (map q_Name (TaskQueues m))
  else mt_TaskQueues (Temporal m).

Definition manifestTaskQueueSummaries (m : Manifest) : list TaskQueueSummary :=
  if negb (String.eqb (manifestSchemaVersion m) ManifestSchemaVersionV2) then []
  else slice_sort (fun a b => str_lt (ts_Name a) (ts_Name b))
    (map (fun q => {| ts_Name := q_Name q; ts_Activities := Router.sort_strings (q_Activities q); ts_Workflows := Router.sort_strings (Workflows q);
                      ts_RegistrationHash := RegistrationHash q |}) (TaskQueues m)).

Definition summarize (m : Manifest) : Summary :=
  {| s_Path := Path m; s_SchemaVersion := manifestSchemaVersion m; s_App := App m; s_Language := Language m; s_BuildID := BuildID m;
     s_PayloadCodec := PayloadCodec m; s_Namespace := Namespace (Temporal m); s_TaskQueues := Router.sort_strings (manifestTaskQueueNames m);
     TaskQueueRegistrations := manifestTaskQueueSummaries m;
     s_Activities := Router.sort_strings (List.filter (fun n => negb (empty n)) (map a_Name (Activities m))) |}.

(** ** Across manifests *)
Record owner := { o_path : string; o_language : string; o_registrationHash : string }.

Definition manifestRegistrationHash (s : Summary) (queue : string) : string :=
  match List.find (fun r => String.eqb (ts_Name r) queue) (TaskQueueRegistrations s) with Some r => ts_RegistrationHash r | None => "" end.

Definition share_queue (s : Summary) (st : gmap string owner * list Diagnostic) (queue : string) : gmap string owner * list Diagnostic :=
  let '(owners, ds) := st in
  let queue := Strings.TrimSpace queue in
  if String.eqb queue "" then st
  else
    let hash := manifestRegistrationHash s queue in
    match owners !! queue with
    | None => (<[queue := {| o_path := s_Path s; o_language := s_Language s; o_registrationHash := hash |}]> owners, ds)
    | Some prev =>
      if negb (String.eqb (o_registrationHash prev) "") && negb (String.eqb hash "") then
        (owners, ds ++ when (negb (String.eqb (o_registrationHash prev) hash))
           {| d_Path := s_Path s; Message := "task queue " +:+ Quote queue +:+ " registration hash " +:+ Quote hash +:+ " does not match "
                +:+ Quote (o_registrationHash prev) +:+ " from " +:+ o_path prev |})
      else
        (owners, ds ++ when (negb (String.eqb (o_language prev) (s_Language s)))
           {| d_Path := s_Path s; Message := "task queue " +:+ Quote queue +:+ " is shared by incompatible worker languages "
                +:+ Quote (o_language prev) +:+ " and " +:+ Quote (s_Language s) |})
    end.

Definition validateTaskQueueSharing (manifests : list Summary) : list Diagnostic :=
  (fold_left (fun st s => fold_left (share_queue s) (s_TaskQueues s) st) manifests (∅, [])).2.

Definition validateKnownActivities (manifests : list Summary) (knownActivities : list string) : list Diagnostic :=
  let known := List.filter (fun n => negb (empty n)) knownActivities in
  if bool_decide (known = []) then []
  else List.concat (map (fun s => List.concat (map (fun a =>
    when (negb (existsb (String.eqb a) known)) {| d_Path := s_Path s; Message := "activity " +:+ Quote a +:+ " is not declared by this scenery app" |})
    (s_Activities s))) manifests).

(** ** Files *)
Record files := {
  glob : string -> outcome string (list string);
  stat : string -> option (outcome string unit);     (** [None]: no such file *)
  decode : string -> outcome string Manifest;        (** [os.ReadFile] and [json.Unmarshal] *)
  can_write : string -> bool
}.

Definition with_path (path : string) (m : Manifest) : Manifest :=
  {| SchemaVersion := SchemaVersion m; App := App m; Language := Language m; BuildID := BuildID m; PayloadCodec := PayloadCodec m; Temporal := Temporal m;
     TaskQueues := TaskQueues m; Activities := Activities m; Path := path |}.

Definition manifestPaths (fs : files) (appRoot : string) : outcome string (list string) :=
  if empty appRoot then Ret []
  else
    matches ← glob fs (Filepath.Join [appRoot; ".scenery"; "workers"; "*.json"]);
    let generated := Filepath.Join [appRoot; TypeScriptWorkerGeneratedRelDir; "manifest.json"] in
    match stat fs generated with
    | None => Ret (Router.sort_strings matches)
    | Some (Ret _) => Ret (Router.sort_strings (matches ++ [generated]))
    | Some (Fail e) => Fail e
    | Some (Panic e) => Panic e
    end.

Definition readManifest (fs : files) (path : string) : outcome string Manifest := m ← decode fs path; Ret (with_path path m).

(** The manifests that can be read, and the diagnostics in the order of the files. *)
Fixpoint read_all (fs : files) (appName : string) (paths : list string) : list Manifest * list Diagnostic :=
  match paths with
  | [] => ([], [])
  | path :: rest =>
    let '(ms, ds) := read_all fs appName rest in
    match readManifest fs path with
    | Ret m => (m :: ms, validateManifest m appName ++ ds)
    | Fail e | Panic e => (ms, {| d_Path := path; Message := e |} :: ds)
    end
  end.

Definition ValidateWithKnownActivities (fs : files) (appRoot appName : string) (knownActivities : list string) : Validation :=
  match manifestPaths fs appRoot with
  | Ret paths =>
    let '(ms, ds) := read_all fs appName paths in
    let summaries := map summarize ms in
    let ds := ds ++ validateTaskQueueSharing summaries ++ validateKnownActivities summaries knownActivities in
    {| Checked := true; OK := bool_decide (ds = []); Count := length summaries; Manifests := summaries; Diagnostics := ds |}
  | Fail e | Panic e => {| Checked := true; OK := false; Count := 0; Manifests := []; Diagnostics := [{| d_Path := ""; Message := e |}] |}
  end.

Definition Validate (fs : files) (appRoot appName : string) : Validation := ValidateWithKnownActivities fs appRoot appName [].
End validation.

(** ** Bindings *)
Record BindingFile := { b_Path : string; b_Language : string; b_Manifest : string }.
Record BindingResult := { b_OK : bool; OutputDir : string; Files : list BindingFile; b_Diagnostics : list Diagnostic }.
Record bindingActivity := { ba_Name : string; FuncName : string; ba_Input : string; ba_Output : string }.
Record bindingData := {
  bd_App : string; bd_Language : string; bd_BuildID : string; bd_PayloadCodec : string; bd_Namespace : string; bd_TaskQueues : list string;
  bd_Activities : list bindingActivity
}.

Section bindings.
Context `{UnicodeTables} {PT : Models.PrintTable} {OO : AppConfig.ObjectOrder} {SS : SliceSort} (marshal : bindingData -> string).
Abbreviation Quote := Models.Quote.

Definition normalizeLanguage (language : string) : string :=
  let l := Strings.ToLower (Strings.TrimSpace language) in
  if existsb (String.eqb l) ["ts"; "typescript"; "javascript"; "js"; "node"] then "typescript"
  else if existsb (String.eqb l) ["py"; "python"] then "python" else l.

Fixpoint identifier_runes (last : bool) (rs : list Z) : list Z :=
  match rs with
  | [] => []
  | r :: rest =>
    if Unicode.IsLetter r || Unicode.IsDigit r then r :: identifier_runes false rest
    else if last then identifier_runes true rest else 95 :: identifier_runes true rest
  end.

Definition sanitizeIdentifier (value : string) : string :=
  let value := Strings.TrimSpace (Strings.ToLower value) in
  if String.eqb value "" then "worker"
  else
    let out := Strings.Trim (Utf8.encode (identifier_runes false (Utf8.runes value))) "_" in
    if String.eqb out "" then "worker" else if Models.starts_with_digit out then "worker_" +:+ out else out.

Definition bindingDataForManifest (m : Manifest) : bindingData :=
  {| bd_App := App m; bd_Language := Language m; bd_BuildID := BuildID m; bd_PayloadCodec := PayloadCodec m; bd_Namespace := Namespace (Temporal m);
     bd_TaskQueues := Router.sort_strings (manifestTaskQueueNames m);
     bd_Activities := slice_sort (fun a b => str_lt (ba_Name a) (ba_Name b))
       (map (fun a => {| ba_Name := a_Name a; FuncName := sanitizeIdentifier (a_Name a); ba_Input := Input a; ba_Output := Output a |}) (Activities m)) |}.

Definition nl : string := Models.lf.
Definition each {A} (f : A -> string) (l : list A) : string := Models.concat_strings (map f l).

Definition pythonBindingTemplate (d : bindingData) : string :=
  let q := String Strconv.quote_byte "" in
  "# Code generated by scenery worker bindings; DO NOT EDIT." +:+ nl +:+ nl
  +:+ "APP = " +:+ Quote (bd_App d) +:+ nl +:+ "LANGUAGE = " +:+ Quote (bd_Language d) +:+ nl +:+ "BUILD_ID = " +:+ Quote (bd_BuildID d) +:+ nl
  +:+ "PAYLOAD_CODEC = " +:+ Quote (bd_PayloadCodec d) +:+ nl +:+ "NAMESPACE = " +:+ Quote (bd_Namespace d) +:+ nl
  +:+ "TASK_QUEUES = [" +:+ each (fun t => nl +:+ "    " +:+ Quote t +:+ ",") (bd_TaskQueues d) +:+ nl +:+ "]" +:+ nl +:+ nl
  +:+ "ACTIVITIES = {"
  +:+ each (fun a => nl +:+ "    " +:+ Quote (ba_Name a) +:+ ": {" +:+ nl +:+ "        " +:+ q +:+ "input" +:+ q +:+ ": " +:+ Quote (ba_Input a) +:+ "," +:+ nl
        +:+ "        " +:+ q +:+ "output" +:+ q +:+ ": " +:+ Quote (ba_Output a) +:+ "," +:+ nl
        +:+ "        " +:+ q +:+ "function" +:+ q +:+ ": " +:+ Quote (FuncName a) +:+ "," +:+ nl +:+ "    },") (bd_Activities d)
  +:+ nl +:+ "}" +:+ nl +:+ nl
  +:+ each (fun a => nl +:+ "async def " +:+ FuncName a +:+ "(payload):" +:+ nl
        +:+ "    " +:+ q +:+ q +:+ q +:+ "Implement scenery activity " +:+ ba_Name a +:+ "." +:+ nl +:+ nl
        +:+ "    Payload codec: " +:+ bd_PayloadCodec d +:+ nl +:+ "    Input schema: " +:+ ba_Input a +:+ nl +:+ "    Output schema: " +:+ ba_Output a +:+ nl
        +:+ "    " +:+ q +:+ q +:+ q +:+ nl +:+ "    raise NotImplementedError(" +:+ Quote (ba_Name a) +:+ ")" +:+ nl) (bd_Activities d)
  +:+ nl +:+ nl +:+ "ACTIVITY_FUNCTIONS = [" +:+ each (fun a => nl +:+ "    " +:+ FuncName a +:+ ",") (bd_Activities d) +:+ nl +:+ "]" +:+ nl.

Definition typescriptBindingTemplate (d : bindingData) : string :=
  "// Code generated by scenery worker bindings; DO NOT EDIT." +:+ nl +:+ nl
  +:+ "export const app = " +:+ Quote (bd_App d) +:+ ";" +:+ nl +:+ "export const language = " +:+ Quote (bd_Language d) +:+ ";" +:+ nl
  +:+ "export const buildId = " +:+ Quote (bd_BuildID d) +:+ ";" +:+ nl +:+ "export const payloadCodec = " +:+ Quote (bd_PayloadCodec d) +:+ ";" +:+ nl
  +:+ "export const namespace = " +:+ Quote (bd_Namespace d) +:+ ";" +:+ nl
  +:+ "export const taskQueues = [" +:+ each (fun t => nl +:+ "  " +:+ Quote t +:+ ",") (bd_TaskQueues d) +:+ nl +:+ "] as const;" +:+ nl +:+ nl
  +:+ "export const activities = {"
  +:+ each (fun a => nl +:+ "  " +:+ Quote (ba_Name a) +:+ ": {" +:+ nl +:+ "    input: " +:+ Quote (ba_Input a) +:+ "," +:+ nl
        +:+ "    output: " +:+ Quote (ba_Output a) +:+ "," +:+ nl +:+ "    functionName: " +:+ Quote (FuncName a) +:+ "," +:+ nl +:+ "  },") (bd_Activities d)
  +:+ nl +:+ "} as const;" +:+ nl +:+ nl
  +:+ each (fun a => nl +:+ "export async function " +:+ FuncName a +:+ "(payload: unknown): Promise<unknown> {" +:+ nl
        +:+ "  throw new Error(" +:+ Quote ("Implement scenery activity " +:+ ba_Name a) +:+ ");" +:+ nl +:+ "}" +:+ nl) (bd_Activities d)
  +:+ nl +:+ nl +:+ "export const activityImplementations = {"
  +:+ each (fun a => nl +:+ "  " +:+ Quote (ba_Name a) +:+ ": " +:+ FuncName a +:+ ",") (bd_Activities d) +:+ nl +:+ "};" +:+ nl.

(** Where the bindings of a manifest go, and what they are. *)
Definition binding_dir (outDir : string) (m : Manifest) : string :=
  let base := Strings.TrimSuffix (Filepath.Base (Path m)) (Filepath.Ext (Path m)) in
  let base := if String.eqb base "" || String.eqb base "." then sanitizeIdentifier (Language m) else base in
  Filepath.Join [outDir; sanitizeIdentifier base].

Definition binding (outDir : string) (m : Manifest) : string * string :=
  let data := bindingDataForManifest m in
  let dir := binding_dir outDir m in
  let l := normalizeLanguage (Language m) in
  if String.eqb l "python" then (Filepath.Join [dir; "scenery_worker.py"], pythonBindingTemplate data)
  else if String.eqb l "typescript" then (Filepath.Join [dir; "scenery_worker.ts"], typescriptBindingTemplate data)
  else (Filepath.Join [dir; "scenery_worker.json"], marshal data +:+ nl).

(** The files that were written. *)
Abbreviation M := (Run (gmap string string)).

Definition write (fs : files) (path content : string) : M unit :=
  if can_write fs path then modify (fun w => <[path := content]> w) else fail ("cannot write " +:+ path).

Definition generateManifestBindings (fs : files) (outDir : string) (m : Manifest) : M (list BindingFile) :=
  let '(path, content) := binding outDir m in
  _ ← write fs path content;
  mret [{| b_Path := path; b_Language := Language m; b_Manifest := Path m |}].

(** The files of the manifests, up to the first error. *)
Fixpoint generate_all (fs : files) (outDir : string) (paths : list string) (done : list BindingFile) : M (list BindingFile * option string) :=
  match paths with
  | [] => mret (done, None)
  | path :: rest =>
    match readManifest fs path with
    | Fail e => mret (done, Some e)
    | Panic e => lift (Panic e)
    | Ret m =>
      r ← attempt (generateManifestBindings fs outDir m);
      match r with
      | Ret l => generate_all fs outDir rest (done ++ l)
      | Fail e => mret (done, Some e)
      | Panic e => lift (Panic e)
      end
    end
  end.

Definition GenerateBindingsWithKnownActivities (fs : files) (appRoot appName outDir : string) (knownActivities : list string) : M (BindingResult * option string) :=
  let outDir := if empty outDir then Filepath.Join [appRoot; ".scenery"; "workers"; "generated"] else outDir in
  let v := ValidateWithKnownActivities fs appRoot appName knownActivities in
  let result ok l ds := {| b_OK := ok; OutputDir := outDir; Files := l; b_Diagnostics := ds |} in
  if negb (OK v) then mret (result false [] (Diagnostics v), Some "worker manifest validation failed")
  else match manifestPaths fs appRoot with
  | Fail e => mret (result true [] [], Some e)
  | Panic e => lift (Panic e)
  | Ret paths =>
    '(l, e) ← generate_all fs outDir paths [];
    match e with
    | Some e => mret (result true l [], Some e)
    | None => mret (result true (slice_sort (fun a b => str_lt (b_Path a) (b_Path b)) l) [], None)
    end
  end.

Definition GenerateBindings (fs : files) (appRoot appName outDir : string) : M (BindingResult * option string) :=
  GenerateBindingsWithKnownActivities fs appRoot appName outDir [].
End bindings.
End Workers.
