(* ===== verification/WorkersProofs.v ===== *)
(** * Worker manifests: validation is exact

    [WorkersProofs] proves that the manifests of an application are accepted
    exactly when they satisfy a declarative specification ([Validate_exact]), and
    that a run that generates bindings without an error has written those of
    every manifest ([bindings_written]); examples show what the checks across
    manifests do not see and where bindings overwrite each other. *)
From stdpp Require Import base tactics list gmap strings.
From Stdlib Require Import ZArith Lia Ascii.
From S2P Require Import Prelude GoStrings Router AppConfig StateM Models Workers.
Import StateM Workers.

Module WorkersProofs.
(** ** Specification *)
Definition given (s : string) : Prop := Strings.TrimSpace s <> "".

Definition queue_ok (q : TaskQueue) : Prop := given (q_Name q) /\ given (RegistrationHash q) /\ isRegistrationHash (Strings.TrimSpace (RegistrationHash q)) = true.
Definition activity_ok (a : Activity) : Prop := given (a_Name a) /\ given (Input a) /\ given (Output a).
Definition queue_names (m : Manifest) : list string := map (fun q => Strings.TrimSpace (q_Name q)) (TaskQueues m).
Definition activity_names (m : Manifest) : list string := map (fun a => Strings.TrimSpace (a_Name a)) (Activities m).

Definition v1_ok (m : Manifest) : Prop := mt_TaskQueues (Temporal m) <> [] /\ Forall given (mt_TaskQueues (Temporal m)).
Definition v2_ok (m : Manifest) : Prop :=
  mt_TaskQueues (Temporal m) = [] /\ TaskQueues m <> [] /\ Forall queue_ok (TaskQueues m) /\ NoDup (queue_names m)
  /\ (forall q a, q ∈ TaskQueues m -> a ∈ q_Activities q -> given a /\ Strings.TrimSpace a ∈ activity_names m)
  /\ (forall q w, q ∈ TaskQueues m -> w ∈ Workflows q -> given w)
  /\ (forall n, n ∈ activity_names m -> exists q a, q ∈ TaskQueues m /\ a ∈ q_Activities q /\ Strings.TrimSpace a = n).

(** What a manifest has to be. *)
Definition well_formed (appName : string) (m : Manifest) : Prop :=
  given (App m) /\ (appName = "" \/ App m = appName) /\ given (Language m) /\ given (BuildID m) /\ PayloadCodec m = "scenery-json-v1"
  /\ given (Namespace (Temporal m)) /\ Activities m <> [] /\ Forall activity_ok (Activities m) /\ NoDup (activity_names m)
  /\ (manifestSchemaVersion m = ManifestSchemaVersion /\ v1_ok m \/ manifestSchemaVersion m = ManifestSchemaVersionV2 /\ v2_ok m).

(** ** Diagnostics *)
Section exact.
Context {PT : Models.PrintTable} {OO : AppConfig.ObjectOrder} {SS : SliceSort}.

Lemma when_nil b d : when b d = [] <-> b = false.
Proof. by destruct b. Qed.

Lemma concat_map_nil {A B} (f : A -> list B) l : List.concat (map f l) = [] <-> Forall (fun x => f x = []) l.
Proof.
  induction l as [|x l IH]; cbn; [by split|]. rewrite Forall_cons, <- IH. split; [apply app_eq_nil|by intros [-> ->]].
Qed.

Lemma app_nil {A} (a b : list A) : a ++ b = [] <-> a = [] /\ b = [].
Proof. split; [apply app_eq_nil|by intros [-> ->]]. Qed.

Lemma empty_false s : empty s = false <-> given s.
Proof. unfold empty, given. apply String.eqb_neq. Qed.

Lemma existsb_false n l : existsb (String.eqb n) l = false <-> (n ∉ l).
Proof.
  rewrite <- not_true_iff_false, existsb_exists. split; intros H.
  - intros Hin. apply H. exists n. by rewrite String.eqb_refl, <- list_elem_of_In.
  - intros (x & Hx & ->%String.eqb_eq). apply H. by apply list_elem_of_In.
Qed.

Lemma existsb_true n l : existsb (String.eqb n) l = true <-> n ∈ l.
Proof.
  destruct (existsb (String.eqb n) l) eqn:E; split; try done.
  - intros _. apply existsb_exists in E as (x & Hx & ->%String.eqb_eq). by apply list_elem_of_In.
  - intros Hn. by apply existsb_false in E.
Qed.

Lemma v2_queues_nil m l : forall seen,
  v2_queues m seen l = [] <-> Forall queue_ok l /\ NoDup (map (fun q => Strings.TrimSpace (q_Name q)) l) /\ (forall n, n ∈ map (fun q => Strings.TrimSpace (q_Name q)) l -> (n ∉ seen)).
Proof.
  induction l as [|q l IH]; intros seen; cbn [v2_queues map].
  { split; [intros _; split_and!; [constructor|constructor|by intros n ?%elem_of_nil]|done]. }
  destruct (String.eqb_spec (Strings.TrimSpace (q_Name q)) "") as [E|E].
  { split; [done|]. intros [Hf _]. inversion Hf as [|? ? [Hq _] _]; subst. done. }
  rewrite !app_nil, when_nil, existsb_false, IH, Forall_cons, NoDup_cons. unfold queue_ok at 2, given at 1.
  assert (Hhash : (if String.eqb (Strings.TrimSpace (RegistrationHash q)) "" then
      [diag m ("task queue " +:+ Models.Quote (Strings.TrimSpace (q_Name q)) +:+ " registration_hash must not be empty")]
      else when (negb (isRegistrationHash (Strings.TrimSpace (RegistrationHash q))))
        (diag m ("task queue " +:+ Models.Quote (Strings.TrimSpace (q_Name q)) +:+ " registration_hash must be sha256: followed by 64 lowercase hex characters"))) = []
    <-> given (RegistrationHash q) /\ isRegistrationHash (Strings.TrimSpace (RegistrationHash q)) = true).
  { unfold given. destruct (String.eqb_spec (Strings.TrimSpace (RegistrationHash q)) ""); [naive_solver|]. rewrite when_nil, negb_false_iff. naive_solver. }
  rewrite Hhash. split.
  - intros (Hs & [Hh1 Hh2] & Hf & Hnd & Hseen). split_and!; try done.
    + intros Hin. apply (Hseen _ Hin). left.
    + intros n [->|Hn]%elem_of_cons; [done|]. intros Hn'. apply (Hseen n Hn). by right.
  - intros (((_ & Hh1 & Hh2) & Hf) & (Hnin & Hnd) & Hseen). split_and!; try done; [apply Hseen; left|].
    intros n Hn [->|Hn']%elem_of_cons; [done|]. apply (Hseen n); [by right|done].
Qed.

Lemma check_activities_nil m l : forall seen,
  let '(names, ds) := check_activities m seen l in
  (ds = [] <-> Forall activity_ok l /\ NoDup (map (fun a => Strings.TrimSpace (a_Name a)) l) /\ (forall n, n ∈ map (fun a => Strings.TrimSpace (a_Name a)) l -> (n ∉ seen)))
  /\ (ds = [] -> names = seen ++ map (fun a => Strings.TrimSpace (a_Name a)) l).
Proof.
  induction l as [|a l IH]; intros seen; cbn [check_activities map].
  { split; [|by rewrite app_nil_r]. split; [intros _; split_and!; [constructor|constructor|by intros n ?%elem_of_nil]|done]. }
  destruct (String.eqb_spec (Strings.TrimSpace (a_Name a)) "") as [E|E].
  { destruct (check_activities m seen l). split; [|done]. split; [done|]. intros [Hf _]. inversion Hf as [|? ? [Hq _] _]; subst. done. }
  destruct (existsb (String.eqb (Strings.TrimSpace (a_Name a))) seen) eqn:Eseen.
  { destruct (check_activities m seen l). split; [|done]. split; [done|]. intros (_ & _ & Hs). apply existsb_true in Eseen. by destruct (Hs (Strings.TrimSpace (a_Name a))); [left|]. }
  specialize (IH (seen ++ [Strings.TrimSpace (a_Name a)])). destruct (check_activities m (seen ++ _) l) as [names ds]. destruct IH as [IH1 IH2]. apply existsb_false in Eseen.
  cbn [when app]. rewrite !app_nil, !when_nil, !empty_false, Forall_cons, NoDup_cons, IH1. unfold activity_ok at 3. split.
  - split.
    + intros (Hi & Ho & Hf & Hnd & Hs). split_and!; try done.
      * intros Hin. apply (Hs _ Hin). apply elem_of_app. right. by left.
      * intros n [->|Hn]%elem_of_cons; [done|]. intros Hn'. apply (Hs n Hn). apply elem_of_app. by left.
    + intros (((_ & Hi & Ho) & Hf) & (Hnin & Hnd) & Hs). split_and!; try done. intros n Hn [Hn'| ->%list_elem_of_singleton]%elem_of_app; [|done].
      apply (Hs n); [by right|done].
  - intros (_ & _ & Hd). rewrite IH2; [by rewrite <- app_assoc|]. by apply IH1.
Qed.

Lemma queue_activities_nil m names q :
  queue_activities m names q = [] <-> (forall a, a ∈ q_Activities q -> given a /\ Strings.TrimSpace a ∈ names) /\ (forall w, w ∈ Workflows q -> given w).
Proof.
  unfold queue_activities. rewrite app_nil, !concat_map_nil, !Forall_forall. split; intros [H1 H2]; split.
  - intros a Ha. specialize (H1 a Ha). cbn in H1. unfold given. destruct (String.eqb_spec (Strings.TrimSpace a) ""); [done|].
    rewrite when_nil, negb_false_iff, existsb_true in H1. done.
  - intros w Hw. specialize (H2 w Hw). by rewrite when_nil, empty_false in H2.
  - intros a Ha. destruct (H1 a Ha) as [Hg Hn]. unfold given in Hg. apply String.eqb_neq in Hg. cbn. rewrite Hg, when_nil, negb_false_iff. by apply existsb_true.
  - intros w Hw. rewrite when_nil, empty_false. by apply H2.
Qed.

Lemma registered_elem m n : n ∈ registered m <-> n <> "" /\ exists q a, q ∈ TaskQueues m /\ a ∈ q_Activities q /\ Strings.TrimSpace a = n.
Proof.
  unfold registered. rewrite list_elem_of_In, filter_In, in_map_iff, negb_true_iff, String.eqb_neq. split.
  - intros [(a & <- & (l & (q & <- & Hq)%in_map_iff & Ha)%in_concat) Hn]. split; [done|]. exists q, a. by rewrite !list_elem_of_In.
  - intros [Hn (q & a & Hq & Ha & <-)]. split; [|done]. exists a. split; [done|]. apply in_concat. exists (q_Activities q). rewrite in_map_iff.
    split; [exists q; split; [done|]|]; by apply list_elem_of_In.
Qed.

Lemma v2_activities_nil m names : Forall (fun n => n <> "") names -> validateManifestV2Activities m names = [] <->
  (forall q a, q ∈ TaskQueues m -> a ∈ q_Activities q -> given a /\ Strings.TrimSpace a ∈ names)
  /\ (forall q w, q ∈ TaskQueues m -> w ∈ Workflows q -> given w)
  /\ (forall n, n ∈ names -> exists q a, q ∈ TaskQueues m /\ a ∈ q_Activities q /\ Strings.TrimSpace a = n).
Proof.
  intros Hne. unfold validateManifestV2Activities. rewrite app_nil, !concat_map_nil, AppConfig.visit_perm, !Forall_forall.
  rewrite Forall_forall in Hne. split.
  - intros [Hq Hr]. split_and!.
    + intros q a Hin Ha. specialize (Hq q Hin). apply queue_activities_nil in Hq as [H1 _]. auto.
    + intros q w Hin Hw. specialize (Hq q Hin). apply queue_activities_nil in Hq as [_ H2]. auto.
    + intros n Hn. specialize (Hr n Hn). rewrite when_nil, negb_false_iff, existsb_true, registered_elem in Hr. apply Hr.
  - intros (H1 & H2 & H3). split.
    + intros q Hq. apply queue_activities_nil. split; [intros a; by apply H1|intros w; by apply H2].
    + intros n Hn. rewrite when_nil, negb_false_iff, existsb_true, registered_elem. split; [by apply Hne|by apply H3].
Qed.

Lemma v1_queues_nil m : validateManifestV1Queues m = [] <-> v1_ok m.
Proof.
  unfold validateManifestV1Queues, v1_ok. rewrite app_nil, when_nil, bool_decide_eq_false, concat_map_nil. apply and_iff_compat_l. rewrite !Forall_forall.
  split; intros H q Hq; specialize (H q Hq); by rewrite when_nil, empty_false in *.
Qed.

Lemma app_check_nil m appName :
  (if empty (App m) then [diag m "app must not be empty"]
   else when (negb (String.eqb appName "") && negb (String.eqb (App m) appName)) (diag m ("app " +:+ Models.Quote (App m) +:+ " does not match scenery app " +:+ Models.Quote appName))) = []
  <-> given (App m) /\ (appName = "" \/ App m = appName).
Proof.
  destruct (empty (App m)) eqn:E.
  - split; [done|]. intros [Hg _]. apply empty_false in Hg. congruence.
  - apply empty_false in E. rewrite when_nil, andb_false_iff, !negb_false_iff, !String.eqb_eq. tauto.
Qed.

Lemma codec_check_nil m :
  (if empty (PayloadCodec m) then [diag m "payload_codec must not be empty"]
   else when (negb (String.eqb (PayloadCodec m) "scenery-json-v1")) (diag m "payload_codec must be scenery-json-v1")) = [] <-> PayloadCodec m = "scenery-json-v1".
Proof.
  destruct (empty (PayloadCodec m)) eqn:E.
  - split; [done|]. intros Hc. rewrite Hc in E. done.
  - by rewrite when_nil, negb_false_iff, String.eqb_eq.
Qed.

Lemma validateManifest_nil m appName : validateManifest m appName = [] <-> well_formed appName m.
Proof.
  unfold validateManifest, well_formed. cbv zeta. rewrite !app_nil, app_check_nil, codec_check_nil, !when_nil, !empty_false, bool_decide_eq_false.
  pose proof (check_activities_nil m (Activities m) []) as Hact. destruct (check_activities m [] (Activities m)) as [names ds]. destruct Hact as [Hact Hnames].
  rewrite app_nil, Hact. fold (activity_names m).
  assert (Hseen : forall n, n ∈ activity_names m -> (n ∉ @nil string)) by (intros n _ ?%elem_of_nil; done).
  destruct (String.eqb_spec (manifestSchemaVersion m) ManifestSchemaVersion) as [E1|E1].
  - rewrite E1. change (String.eqb ManifestSchemaVersion ManifestSchemaVersionV2) with false. cbn [negb andb]. rewrite v1_queues_nil.
    assert (Hno : ManifestSchemaVersion <> ManifestSchemaVersionV2) by done. tauto.
  - destruct (String.eqb_spec (manifestSchemaVersion m) ManifestSchemaVersionV2) as [E2|E2]; cbn [negb andb]; [|naive_solver].
    unfold validateManifestV2Queues, v2_ok. rewrite !app_nil, !when_nil, !bool_decide_eq_false, v2_queues_nil. fold (queue_names m).
    assert (Hseen' : forall n, n ∈ queue_names m -> (n ∉ @nil string)) by (intros n _ ?%elem_of_nil; done).
    assert (Hdec : ~ mt_TaskQueues (Temporal m) <> [] <-> mt_TaskQueues (Temporal m) = []) by (split; [apply dec_stable|intros Hx Hn; by apply Hn]). rewrite Hdec.
    destruct (decide (ds = [])) as [->|Hds].
    + rewrite (Hnames eq_refl). destruct Hact as [(Hf & Hnd & _) _]; [done|]. cbn [app]. fold (activity_names m).
      rewrite v2_activities_nil; [tauto|]. apply Forall_map, Forall_forall. intros a Ha. rewrite Forall_forall in Hf. apply (Hf a Ha).
    + assert (Hnot : ~ (Forall activity_ok (Activities m) /\ NoDup (activity_names m) /\ (forall n, n ∈ activity_names m -> (n ∉ @nil string)))) by (by rewrite <- Hact). tauto.
Qed.

(** ** Across manifests *)
(** The queues of the manifests in order, with the manifest that has them. *)
Definition occurrences (manifests : list Summary) : list (string * Summary) :=
  List.concat (map (fun s => map (fun q => (Strings.TrimSpace q, s)) (List.filter (fun q => negb (empty q)) (s_TaskQueues s))) manifests).

Definition compatible (queue : string) (a b : Summary) : Prop :=
  let ha := manifestRegistrationHash a queue in let hb := manifestRegistrationHash b queue in
  if negb (String.eqb ha "") && negb (String.eqb hb "") then ha = hb else s_Language a = s_Language b.

Definition first_with (queue : string) (l : list (string * Summary)) : option (string * Summary) := List.find (fun o => String.eqb o.1 queue) l.

(** Every manifest agrees with the first that has the queue. *)
Definition shared_consistently (manifests : list Summary) : Prop :=
  forall before queue s after, occurrences manifests = before ++ (queue, s) :: after ->
  forall s0, first_with queue before = Some (queue, s0) -> compatible queue s0 s.

Definition owner_of (o : string * Summary) : owner :=
  {| o_path := s_Path o.2; o_language := s_Language o.2; o_registrationHash := manifestRegistrationHash o.2 o.1 |}.

Definition step (st : gmap string owner * list Diagnostic) (o : string * Summary) : gmap string owner * list Diagnostic := share_queue o.2 st o.1.

Lemma share_fold manifests : forall st,
  fold_left (fun st s => fold_left (share_queue s) (s_TaskQueues s) st) manifests st = fold_left step (occurrences manifests) st.
Proof.
  assert (Hq : forall s l st, fold_left (share_queue s) l st = fold_left step (map (fun q => (Strings.TrimSpace q, s)) (List.filter (fun q => negb (empty q)) l)) st).
  { intros s. induction l as [|q l IH]; intros st; [done|]. cbn [fold_left List.filter].
    assert (Hstep : share_queue s st q = if empty q then st else step st (Strings.TrimSpace q, s)).
    { unfold step, share_queue, empty. cbn [fst snd]. rewrite Strings.TrimSpace_idemp. destruct st. by destruct (String.eqb (Strings.TrimSpace q) ""). }
    rewrite Hstep, IH. by destruct (empty q). }
  induction manifests as [|s manifests IH]; intros st; [done|]. cbn [fold_left]. unfold occurrences in *. cbn [map List.concat]. rewrite fold_left_app, <- Hq. apply IH.
Qed.

Lemma occurrences_trimmed manifests o : o ∈ occurrences manifests -> Strings.TrimSpace o.1 = o.1 /\ o.1 <> "".
Proof.
  rewrite list_elem_of_In. unfold occurrences. intros (l & (s & <- & _)%in_map_iff & (q & <- & [_ Hq]%filter_In)%in_map_iff)%in_concat. cbn.
  apply negb_true_iff, empty_false in Hq. split; [apply Strings.TrimSpace_idemp|done].
Qed.

Lemma first_with_snoc b k x :
  first_with k (b ++ [x]) = match first_with k b with Some o => Some o | None => if String.eqb x.1 k then Some x else None end.
Proof. unfold first_with. induction b as [|y b IH]; [done|]. cbn. by destruct (String.eqb y.1 k). Qed.

Lemma step_fold l : forall before owners ds, (forall queue, owners !! queue = owner_of <$> first_with queue before) ->
  (forall o, o ∈ before ++ l -> Strings.TrimSpace o.1 = o.1 /\ o.1 <> "") ->
  (fold_left step l (owners, ds)).2 = [] <-> ds = [] /\
    forall mid queue s after, l = mid ++ (queue, s) :: after -> forall s0, first_with queue (before ++ mid) = Some (queue, s0) -> compatible queue s0 s.
Proof.
  induction l as [|[q s] l IH]; intros before owners ds Hown Htrim; cbn [fold_left].
  { cbn. split; [intros ->; split; [done|]; intros [] ? ? ? [=]|tauto]. }
  destruct (Htrim (q, s)) as [Hq Hqn]; [apply elem_of_app; right; left|]. cbn [fst] in Hq, Hqn.
  pose proof (first_with_snoc before) as Hfirst.
  assert (Hsome : forall k b o, first_with k b = Some o -> o.1 = k) by (intros k b o [_ Ho]%find_some; by apply String.eqb_eq).
  assert (Htail : forall ds', ds' = [] <-> ds = [] /\ (forall s0, first_with q before = Some (q, s0) -> compatible q s0 s) ->
    forall owners', (forall queue, owners' !! queue = owner_of <$> first_with queue (before ++ [(q, s)])) ->
    (fold_left step l (owners', ds')).2 = [] <-> ds = [] /\ forall mid queue s1 after, (q, s) :: l = mid ++ (queue, s1) :: after ->
      forall s0, first_with queue (before ++ mid) = Some (queue, s0) -> compatible queue s0 s1).
  { intros ds' Hds owners' Hown'. rewrite (IH (before ++ [(q, s)]) owners' ds' Hown'); [|by rewrite <- app_assoc]. rewrite Hds. split.
    - intros [[Hd H1] H2]. split; [done|]. intros [|y mid] queue s1 after; [intros [= <- <- _]; rewrite app_nil_r; apply H1|].
      intros [= <- E] s0. rewrite cons_middle, app_assoc. by apply H2 with (after := after).
    - intros [Hd H]. split; [split; [done|]|].
      + intros s0 Hs0. apply (H [] q s l); [done|by rewrite app_nil_r].
      + intros mid queue s1 after -> s0. rewrite <- app_assoc. apply (H ((q, s) :: mid) queue s1 after). done. }
  unfold step at 2, share_queue. cbn [fst snd]. rewrite Hq, (proj2 (String.eqb_neq q "")) by done. cbv zeta. rewrite Hown.
  destruct (first_with q before) as [[q0 s0]|] eqn:E; cbn [fmap option_fmap option_map].
  - assert (q0 = q) as -> by (by apply (Hsome q before _ E)). assert (Hown' : forall queue, owners !! queue = owner_of <$> first_with queue (before ++ [(q, s)])).
    { intros k. rewrite Hown, Hfirst. destruct (first_with k before) eqn:Ek; [done|]. cbn [fst]. destruct (String.eqb_spec q k) as [<-|]; [congruence|done]. }
    unfold owner_of at 1 2 3 4. cbn [o_registrationHash o_language fst snd].
    destruct (negb (String.eqb (manifestRegistrationHash s0 q) "") && negb (String.eqb (manifestRegistrationHash s q) "")) eqn:Eh;
      (apply Htail; [|done]); rewrite app_nil, when_nil, negb_false_iff, String.eqb_eq; apply and_iff_compat_l; unfold compatible; cbv zeta.
    all: split; [intros Hc s1 [= <-]; by rewrite Eh|intros Hc; specialize (Hc s0 eq_refl); by rewrite Eh in Hc].
  - apply Htail; [split; [intros ->; split; [done|by intros s0 [=]]|tauto]|]. intros k. rewrite Hfirst. cbn [fst]. destruct (String.eqb_spec q k) as [<-|Hne].
    + rewrite lookup_insert_eq, E. done.
    + rewrite lookup_insert_ne, Hown by done. by destruct (first_with k before).
Qed.

Lemma sharing_nil manifests : validateTaskQueueSharing manifests = [] <-> shared_consistently manifests.
Proof.
  unfold validateTaskQueueSharing, shared_consistently. rewrite share_fold, (step_fold (occurrences manifests) [] ∅ []).
  - split; [intros [_ H]; exact H|done].
  - intros queue. by rewrite lookup_empty.
  - apply occurrences_trimmed.
Qed.

Definition declared (known : list string) (manifests : list Summary) : Prop :=
  List.filter (fun n => negb (empty n)) known = [] \/ forall s a, s ∈ manifests -> a ∈ s_Activities s -> given a -> a ∈ known.

Lemma summarize_given m a : a ∈ s_Activities (summarize m) -> given a.
Proof.
  cbn. unfold Router.sort_strings. rewrite sort_stable_perm, list_elem_of_In, filter_In, negb_true_iff. intros [_ H]. by apply empty_false.
Qed.

Lemma known_nil ms known : validateKnownActivities (map summarize ms) known = [] <-> declared known (map summarize ms).
Proof.
  unfold validateKnownActivities, declared. cbv zeta. case_bool_decide as Hnil; [rewrite Hnil; split; [by left|done]|].
  rewrite concat_map_nil, Forall_forall. split.
  - intros H. right. intros s a Hs Ha _. specialize (H s Hs). rewrite concat_map_nil, Forall_forall in H. specialize (H a Ha).
    rewrite when_nil, negb_false_iff, existsb_true in H. apply list_elem_of_In, filter_In in H as [H _]. by apply list_elem_of_In.
  - intros [?|H]; [done|]. intros s Hs. rewrite concat_map_nil, Forall_forall. intros a Ha. rewrite when_nil, negb_false_iff, existsb_true.
    apply list_elem_of_In, in_map_iff in Hs as (m & <- & Hm). pose proof (summarize_given m a Ha) as Hg. apply list_elem_of_In, filter_In.
    split; [|by apply negb_true_iff, empty_false]. apply list_elem_of_In. apply (H (summarize m) a); [|done|done]. apply list_elem_of_In, in_map_iff. by exists m.
Qed.

(** ** Files *)
Lemma read_all_nil fs appName paths :
  let '(ms, ds) := read_all fs appName paths in
  ds = [] <-> Forall2 (fun path m => readManifest fs path = Ret m) paths ms /\ Forall (well_formed appName) ms.
Proof.
  induction paths as [|path paths IH]; cbn [read_all]; [split; [by split|done]|]. destruct (read_all fs appName paths) as [ms ds].
  destruct (readManifest fs path) as [m|e|e] eqn:E.
  - rewrite app_nil, validateManifest_nil, IH, Forall_cons. split; [intros [? [? ?]]; split; [by constructor|done]|].
    intros [H2 [? ?]]. inversion H2; subst. done.
  - split; [done|]. intros [H2 _]. inversion H2; subst. congruence.
  - split; [done|]. intros [H2 _]. inversion H2; subst. congruence.
Qed.

Lemma read_all_reads fs appName paths ms : Forall2 (fun path m => readManifest fs path = Ret m) paths ms -> (read_all fs appName paths).1 = ms.
Proof. induction 1 as [|path m paths ms Hm _ IH]; [done|]. cbn [read_all]. destruct (read_all fs appName paths). rewrite Hm. cbn in *. by subst. Qed.

Lemma validate_reads fs appRoot appName known : OK (ValidateWithKnownActivities fs appRoot appName known) = true ->
  exists paths ms, manifestPaths fs appRoot = Ret paths /\ Forall2 (fun path m => readManifest fs path = Ret m) paths ms /\ Forall (well_formed appName) ms.
Proof.
  unfold ValidateWithKnownActivities. destruct (manifestPaths fs appRoot) as [paths|e|e]; [|done..]. pose proof (read_all_nil fs appName paths) as Hr.
  destruct (read_all fs appName paths) as [ms ds]. cbn [OK]. rewrite bool_decide_eq_true, !app_nil. intros (Hds & _). exists paths, ms. split; [done|]. by apply Hr.
Qed.

(** C36. Validation accepts exactly the right manifests: it says OK if and only if every
    manifest file can be read, each manifest is well formed for the application
    (version, names, codec, queues with valid hashes, activities that are
    declared once and registered), each agrees with the first manifest that has
    one of its queues, and its activities are known where known ones are given;
    and the summaries are then those of the manifests. *)
Theorem Validate_exact (fs : files) (appRoot appName : string) (known : list string) :
  let v := ValidateWithKnownActivities fs appRoot appName known in
  OK v = true <-> exists paths ms, manifestPaths fs appRoot = Ret paths /\ Forall2 (fun path m => readManifest fs path = Ret m) paths ms
    /\ Forall (well_formed appName) ms /\ shared_consistently (map summarize ms) /\ declared known (map summarize ms)
    /\ Manifests v = map summarize ms.
Proof.
  cbv zeta. unfold ValidateWithKnownActivities. destruct (manifestPaths fs appRoot) as [paths|e|e]; [|split; [done|by intros (? & ? & [=] & _)]..].
  pose proof (read_all_nil fs appName paths) as Hr. destruct (read_all fs appName paths) as [ms ds] eqn:Er. cbn [OK Manifests].
  rewrite bool_decide_eq_true, !app_nil, Hr, sharing_nil, known_nil. split.
  - intros ([H1 H2] & H3 & H4). by exists paths, ms.
  - intros (paths' & ms' & [= <-] & H1 & H2 & H3 & H4 & _).
    pose proof (read_all_reads fs appName paths ms' H1) as E. rewrite Er in E. cbn in E. subst ms'. tauto.
Qed.
End exact.

(** ** Bindings *)
Section written.
Context `{UnicodeTables} {PT : Models.PrintTable} {OO : AppConfig.ObjectOrder} {SS : SliceSort} (marshal : bindingData -> string).

Definition put (outDir : string) (w : gmap string string) (m : Manifest) : gmap string string := <[(binding marshal outDir m).1 := (binding marshal outDir m).2]> w.
Definition file_of (outDir : string) (m : Manifest) : BindingFile := {| b_Path := (binding marshal outDir m).1; b_Language := Language m; b_Manifest := Path m |}.

Lemma generate_all_total fs outDir paths : (forall path, can_write fs path = true) ->
  forall ms acc w, Forall2 (fun path m => readManifest fs path = Ret m) paths ms ->
  generate_all marshal fs outDir paths acc w = (fold_left (put outDir) ms w, Ret (acc ++ map (file_of outDir) ms, None)).
Proof.
  intros Hw. induction paths as [|path paths IH]; intros ms acc w H2; inversion H2 as [|? m ? ms' Hm H2']; subst; cbn [generate_all].
  { cbn. by rewrite app_nil_r. }
  rewrite Hm. unfold mbind, Run_bind, attempt, generateManifestBindings. destruct (binding marshal outDir m) as [bp content] eqn:Eb.
  unfold write. rewrite Hw. unfold mbind, Run_bind, modify, mret, Run_ret. rewrite (IH ms') by done. cbn [fold_left map]. rewrite <- app_assoc.
  assert (Hput : put outDir w m = <[bp := content]> w) by (unfold put; by rewrite Eb). assert (Hfile : file_of outDir m = {| b_Path := bp; b_Language := Language m; b_Manifest := Path m |}) by (unfold file_of; by rewrite Eb).
  by rewrite Hput, Hfile.
Qed.

Lemma put_last outDir ms : forall w m, NoDup (map (fun m => (binding marshal outDir m).1) ms) -> m ∈ ms ->
  fold_left (put outDir) ms w !! (binding marshal outDir m).1 = Some (binding marshal outDir m).2.
Proof.
  assert (Hother : forall ms w p, (p ∉ map (fun m => (binding marshal outDir m).1) ms) -> fold_left (put outDir) ms w !! p = w !! p).
  { intros l0. induction l0 as [|x l IH]; intros w p Hp; [done|]. cbn [fold_left map] in *. apply not_elem_of_cons in Hp as [Hne Hp]. rewrite IH by done.
    unfold put. by rewrite lookup_insert_ne by congruence. }
  induction ms as [|x l IH]; intros w m Hnd Hm; [by apply elem_of_nil in Hm|]. cbn [fold_left map] in *. apply NoDup_cons in Hnd as [Hx Hnd].
  apply elem_of_cons in Hm as [->|Hm]; [|by apply IH]. rewrite Hother by done. unfold put. by rewrite lookup_insert_eq.
Qed.

(** When the manifests are accepted and the files can be written, the bindings of
    each manifest are generated and listed, nothing else is written, and unless
    two manifests have the same file each file holds its manifest's bindings. *)
Theorem bindings_written (fs : files) (appRoot appName outDir : string) (known : list string) (w : gmap string string) :
  OK (ValidateWithKnownActivities fs appRoot appName known) = true -> (forall path, can_write fs path = true) ->
  exists ms w' result, GenerateBindingsWithKnownActivities marshal fs appRoot appName outDir known w = (w', Ret (result, None))
    /\ Forall (well_formed appName) ms /\ Files result ≡ₚ map (file_of (OutputDir result)) ms /\ w' = fold_left (put (OutputDir result)) ms w
    /\ (NoDup (map b_Path (Files result)) -> forall m, m ∈ ms -> w' !! (binding marshal (OutputDir result) m).1 = Some (binding marshal (OutputDir result) m).2).
Proof.
  intros Hok Hw. destruct (validate_reads fs appRoot appName known Hok) as (paths & ms & Hp & H2 & Hwf).
  unfold GenerateBindingsWithKnownActivities. cbv zeta. rewrite Hok, Hp. cbn [negb].
  set (dir := if empty outDir then _ else _). unfold mbind, Run_bind. rewrite (generate_all_total fs dir paths Hw ms) by done.
  eexists ms, _, _. split; [reflexivity|]. cbn [OutputDir Files app]. split_and!; [done|apply slice_sort_perm|done|].
  intros Hnd m Hm. apply put_last; [|done]. rewrite slice_sort_perm, map_map in Hnd. exact Hnd.
Qed.
End written.

(** ** Examples *)
Definition demo_hash (c : string) : string := "sha256:" +:+ c +:+ "123456789abcdef0123456789abcdef0123456789abcdef0123456789abcdef".
Definition demo_manifest (name lang hash : string) (activities : list string) : Manifest := {|
  SchemaVersion := if String.eqb hash "" then "" else ManifestSchemaVersionV2; App := "shop"; Language := lang; BuildID := "1"; PayloadCodec := "scenery-json-v1";
  Temporal := {| Namespace := "default"; mt_TaskQueues := if String.eqb hash "" then ["mail"] else [] |};
  TaskQueues := if String.eqb hash "" then [] else [{| q_Name := "mail"; q_Activities := activities; Workflows := []; RegistrationHash := hash |}];
  Activities := map (fun a => {| a_Name := a; Input := "any"; Output := "any" |}) activities; Path := name |}.
Definition demo_files (ms : list (string * Manifest)) : files := {|
  glob := fun _ => Ret (map fst ms); stat := fun _ => None;
  decode := fun p => match List.find (fun x => String.eqb x.1 p) ms with Some (_, m) => Ret m | None => Fail "not found" end;
  can_write := fun _ => true |}.
Definition demo_print : Models.PrintTable := {| Models.is_print := fun _ => true |}.
Definition demo_visit : AppConfig.ObjectOrder := {| AppConfig.visit := fun A l => l; AppConfig.visit_perm := fun A l => Permutation_refl l |}.
Definition demo_validate (ms : list (string * Manifest)) : list string :=
  map Message (Diagnostics (Validate (PT := demo_print) (OO := demo_visit) (SS := stable_slice_sort) (demo_files ms) "/app" "shop")).

Example hashes_compared : demo_validate [("/a.json", demo_manifest "/a.json" "go" (demo_hash "a") ["send"]); ("/b.json", demo_manifest "/b.json" "go" (demo_hash "b") ["send"])] <> [].
Proof. vm_compute. discriminate. Qed.

(** A manifest without a hash comes first: the two others have different
    registrations for one queue, and that is not seen. *)
Example hashes_not_compared : demo_validate [("/a.json", demo_manifest "/a.json" "go" "" ["send"]); ("/b.json", demo_manifest "/b.json" "go" (demo_hash "a") ["send"]);
  ("/c.json", demo_manifest "/c.json" "go" (demo_hash "b") ["send"])] = [].
Proof. vm_compute. reflexivity. Qed.

(** Two manifests with one output file: the bindings of the first are lost. *)
Definition demo_generate (ms : list (string * Manifest)) : list (string * nat) :=
  match GenerateBindings (H := ascii_tables) (PT := demo_print) (OO := demo_visit) (SS := stable_slice_sort) (fun _ => "") (demo_files ms) "/app" "shop" "" ∅ with
  | (w, Ret (r, None)) => map (fun f => (b_Path f, size w)) (Files r)
  | _ => []
  end.
Example bindings_overwritten : demo_generate [("/w/a-b.json", demo_manifest "/w/a-b.json" "ts" "" ["send"]); ("/w/a_b.json", demo_manifest "/w/a_b.json" "ts" "" ["send"])]
  = [("/app/.scenery/workers/generated/a_b/scenery_worker.ts", 1%nat); ("/app/.scenery/workers/generated/a_b/scenery_worker.ts", 1%nat)].
Proof. vm_compute. reflexivity. Qed.

(** Two activities with one function. *)
Example functions_collide : map FuncName (bd_Activities (bindingDataForManifest (H := ascii_tables) (SS := stable_slice_sort) (demo_manifest "/a.json" "ts" "" ["mail.send"; "mail-send"])))
  = ["mail_send"; "mail_send"].
Proof. vm_compute. reflexivity. Qed.
End WorkersProofs.
