(* ===== verification/Watch.v ===== *)
(** * The file watcher ([cmd/scenery/watch.go])

    [Watch] models what the development server watches and when it rebuilds: the
    scan of the source tree with the files that Go embeds, snapshots and what
    changed between them, the loops that wait until a change has settled, and the
    handling of events.  A tree holds names, files, directories and links; what
    lies behind a link is never scanned, so a link is a leaf.  The root has no
    character that is special in a pattern.  A wait runs on the signals that its
    [select] receives, each with its time; a timer that has not run out gives no
    signal.  The text of a time and the digest are arguments, as are the processes
    and the agent, which are not modelled. *)
From stdpp Require Import base tactics list gmap strings.
From Stdlib Require Import ZArith Lia Ascii.
From S2P Require Import Prelude GoStrings Router Paths Globs.

Module Watch.
(** ** Snapshots *)
Record fileStamp := { modTime : Z; size_ : Z }.
#[export] Instance fileStamp_eq_dec : EqDecision fileStamp.
Proof. solve_decision. Defined.

Abbreviation fileSnapshot := (gmap string fileStamp).

Definition snapshotsEqual (a b : fileSnapshot) : bool :=
  bool_decide (size a = size b) && forallb (fun '(path, stamp) => bool_decide (b !! path = Some stamp)) (map_to_list a).

Definition changedPaths (before after : fileSnapshot) : list string :=
  Router.sort_strings
    (omap (fun '(path, stamp) => if bool_decide (after !! path = Some stamp) then None else Some path) (map_to_list before)
     ++ omap (fun '(path, _) => match before !! path with Some _ => None | None => Some path end) (map_to_list after)).

Class WatchLib := { format_time : Z -> string; sha256_hex : string -> string }.

Definition zero : string := String (chr 0) "".

Section fingerprint.
Context {WL : WatchLib}.
Definition fingerprint_line (snapshot : fileSnapshot) (path : string) : string :=
  let stamp := default {| modTime := 0; size_ := 0 |} (snapshot !! path) in
  path +:+ zero +:+ format_time (modTime stamp) +:+ zero +:+ Strconv.Itoa (size_ stamp) +:+ zero.
Definition fingerprint_text (snapshot : fileSnapshot) : string :=
  Strings.Join (map (fingerprint_line snapshot) (Router.sort_strings (map fst (map_to_list snapshot)))) "".
Definition snapshotFingerprint (snapshot : fileSnapshot) : string := sha256_hex (fingerprint_text snapshot).
End fingerprint.

(** ** Which files *)
Definition rootDotFiles : list string := [".env"; ".env.local"].
Definition isWatchedRootDotFile (rel : string) : bool := existsb (String.eqb rel) rootDotFiles.

Definition sourceExts : list string :=
  [".go"; ".c"; ".cc"; ".cpp"; ".cxx"; ".h"; ".hh"; ".hpp"; ".hxx"; ".f"; ".F"; ".for"; ".f90"; ".m"; ".mm"; ".s"; ".S"; ".syso"; ".swig"; ".swigcxx"].

Definition isWatchedFile (rel : string) : bool :=
  existsb (String.eqb (Filepath.Base rel)) [".scenery.json"; "go.mod"; "go.sum"; "go.work"; "go.work.sum"]
  || isWatchedRootDotFile rel || Strings.HasSuffix rel ".worker.ts" || Strings.HasSuffix rel "/db/schema.hcl"
  || existsb (String.eqb (Filepath.Ext rel)) sourceExts.

Definition skipped_name (name : string) : bool :=
  Strings.HasPrefix name "." || existsb (String.eqb name) ["node_modules"; "scenery_internal_main"].

Definition shouldSkipWatchDir (rel : string) : bool := skipped_name (Filepath.Base rel).

Definition shouldIgnoreWatchPath (rel : string) : bool :=
  let rel := Filepath.Clean rel in
  if String.eqb rel "." || String.eqb rel "" then false
  else if isWatchedRootDotFile rel then false
  else existsb (fun part => negb (String.eqb part "") && negb (String.eqb part ".") && skipped_name part) (Strings.Split rel "/").

Definition hasHiddenOrUnderscorePart (rel : string) : bool :=
  existsb (fun part => Strings.HasPrefix part "." || Strings.HasPrefix part "_") (Strings.Split rel "/").

(** ** Trees *)
Inductive node :=
| NFile (stamp : option fileStamp) (data : option string)    (** [None]: its information or its content cannot be had *)
| NLink
| NDir (entries : option (list (string * node))).             (** [None]: cannot be read *)

(** A walk in the order of the names: what it says about each file, by path. *)
Section walk.
Context {A : Type} (skip : string -> bool) (visit : string -> option fileStamp -> option string -> list A).

Definition join_rel (rel name : string) : string := if String.eqb rel "" then name else rel +:+ "/" +:+ name.

Fixpoint walk_node (rel : string) (n : node) : list A :=
  match n with
  | NLink => []
  | NFile stamp data => visit rel stamp data
  | NDir entries =>
    if negb (String.eqb rel "") && skip rel then []
    else match entries with
    | None => []
    | Some es => (fix walk_entries (es : list (string * node)) : list A :=
        match es with [] => [] | (name, n) :: rest => walk_node (join_rel rel name) n ++ walk_entries rest end) es
    end
  end.
End walk.

(** ** Embedded files *)

(** A token in double quotes or back quotes, or up to a space. *)
Definition unquote_raw (s : string) : option string :=
  match s with
  | String _ s1 =>
    match Strings.Cut s1 "`" with
    | (body, "", true) => Some (Strings.ReplaceAll body (String (chr 13) "") "")
    | _ => None
    end
  | EmptyString => None
  end.

Definition Unquote (s : string) : option string :=
  match s with
  | EmptyString => None
  | String q _ => if Ascii.eqb q "`" then unquote_raw s else Strconv.Unquote s
  end.

(** The shortest prefix that is a quoted text. *)
Fixpoint quoted_prefix (n : nat) (i : nat) (input : string) : option (string * string) :=
  match n with
  | O => None
  | S n =>
    match Unquote (Strings.stake i input) with
    | Some token => Some (token, Strings.sdrop i input)
    | None => quoted_prefix n (S i) input
    end
  end.

(** The text up to the first space, by characters. *)
Fixpoint word_loop (fuel : nat) (input : string) : string * string :=
  match fuel, input with
  | S fuel, String c s1 =>
    let '(r, rest) := Utf8.decode_rune c s1 in
    if Unicode.IsSpace r then ("", input)
    else let '(w, out) := word_loop fuel rest in (Strings.stake (String.length input - String.length rest) input +:+ w, out)
  | _, _ => ("", input)
  end.

Definition nextEmbedToken (input : string) : option (string * string) :=
  let input := Strings.TrimLeftSpace input in
  match input with
  | EmptyString => None
  | String q _ =>
    if Ascii.eqb q Strconv.quote_byte || Ascii.eqb q "`" then quoted_prefix (String.length input) 1 input
    else Some (word_loop (String.length input) input)
  end.

Fixpoint embed_tokens (fuel : nat) (rest : string) : list string :=
  match fuel with
  | O => []
  | S fuel =>
    if String.eqb rest "" then []
    else match nextEmbedToken rest with
    | None => []
    | Some (token, next) => (if String.eqb token "" then [] else [token]) ++ embed_tokens fuel next
    end
  end.

Definition parseGoEmbedPatterns (src : string) : list string :=
  List.concat (map (fun line =>
    let line := Strings.TrimSpace line in
    if negb (Strings.HasPrefix line "//go:embed") then []
    else let rest := Strings.TrimSpace (Strings.TrimPrefix line "//go:embed") in embed_tokens (String.length rest) rest)
    (Strings.Split src (chr 10))).

(** [embedPatternCache], by path. *)
Record embedPatternCacheEntry := { stamp : fileStamp; patterns : list string }.
Abbreviation cache := (gmap string embedPatternCacheEntry).

Definition embedPatternsForFile (c : cache) (path : string) (st : fileStamp) (data : option string) : cache * list string :=
  match c !! path with
  | Some e => if bool_decide (stamp e = st) then (c, patterns e)
              else match data with None => (c, []) | Some d => (<[path := {| stamp := st; patterns := parseGoEmbedPatterns d |}]> c, parseGoEmbedPatterns d) end
  | None => match data with None => (c, []) | Some d => (<[path := {| stamp := st; patterns := parseGoEmbedPatterns d |}]> c, parseGoEmbedPatterns d) end
  end.

(** [filepath.Glob] below the root: the paths that match, with their nodes. *)
Definition hasMeta (p : string) : bool := existsb (fun c => Strings.has_byte c p) ["*"; "?"; "["; "\"]%char.
Definition well_formed_pattern (p : string) : bool := match Globs.Match p "" with Some _ => true | None => false end.

Fixpoint glob_in (rel : string) (n : node) (pats : list string) : list (string * node) :=
  match pats with
  | [] => [(rel, n)]
  | p :: rest =>
    match n with
    | NDir (Some es) =>
      List.concat (map (fun '(name, child) => 
        if (if hasMeta p then bool_decide (Globs.Match p name = Some true) else String.eqb p name)
        then glob_in (join_rel rel name) child rest else []) es)
    | _ => []
    end
  end.

Definition Glob (root : node) (pattern : string) : list (string * node) :=
  if well_formed_pattern pattern then glob_in "" root (Paths.elems pattern) else [].

Definition addEmbeddedPath (rel : string) (n : node) (includeHidden : bool) : list string :=
  let take rel := if includeHidden || negb (hasHiddenOrUnderscorePart rel) then [rel] else [] in
  match n with
  | NDir _ => walk_node (fun rel => negb includeHidden && hasHiddenOrUnderscorePart rel) (fun rel _ _ => take rel) rel n
  | NFile _ _ => take rel
  | NLink => []
  end.

Definition addEmbeddedPatternFiles (root : node) (pkgDir pattern : string) : list string :=
  let includeHidden := Strings.HasPrefix pattern "all:" in
  let pattern := Strings.TrimPrefix pattern "all:" in
  if String.eqb pattern "" || Filepath.IsAbs pattern || Strings.HasPrefix pattern "../" || Strings.Contains pattern "/../" then []
  else
    let search := Filepath.Join [pkgDir; pattern] in
    if String.eqb search ".." then (if includeHidden then addEmbeddedPath "" root true else [])    (** the directory above the root *)
    else List.concat (map (fun '(rel, n) => addEmbeddedPath rel n includeHidden) (Glob root (Filepath.Join ["/"; search]))).

(** The Go files, in the order of the walk. *)
Definition go_files (root : node) : list (string * fileStamp * option string) :=
  walk_node shouldSkipWatchDir (fun rel st data =>
    match st with Some s => if String.eqb (Filepath.Ext rel) ".go" then [(rel, s, data)] else [] | None => [] end) "" root.

Definition discoverEmbeddedWatchFiles (c : cache) (root : node) : cache * list string :=
  fold_left (fun '(c, files) '(rel, st, data) =>
    let '(c, patterns) := embedPatternsForFile c rel st data in
    (c, files ++ List.concat (map (addEmbeddedPatternFiles root (Paths.Dir rel)) patterns))) (go_files root) (c, []).

(** The root: there, missing, or in error. *)
Inductive rootState := RootNode (n : node) | RootMissing | RootError (e : string).

Definition scan_files (root : node) (embedded : list string) : fileSnapshot :=
  list_to_map (walk_node shouldSkipWatchDir (fun rel st _ =>
    match st with
    | Some s => if isWatchedFile rel || existsb (String.eqb rel) embedded then [(rel, s)] else []
    | None => []
    end) "" root).

Definition scanWatchedFiles (c : cache) (root : rootState) : cache * outcome string fileSnapshot :=
  match root with
  | RootMissing => (c, Ret ∅)
  | RootError e => (c, Fail e)
  | RootNode (NDir None) => (c, Fail "permission denied")
  | RootNode (NFile _ _) | RootNode NLink => (c, Ret ∅)
  | RootNode n => let '(c, embedded) := discoverEmbeddedWatchFiles c n in (c, Ret (scan_files n embedded))
  end.

(** ** Waiting *)
Definition ms : Z := 1000000.
Record timing := { pollInterval : Z; backupPollInterval : Z; settleDelay : Z }.
Definition default_timing : timing := {| pollInterval := 250 * ms; backupPollInterval := 2000 * ms; settleDelay := 500 * ms |}.

Definition watchDurationFromEnv (value : string) (fallback : Z) : Z :=
  let value := Strings.TrimSpace value in
  if String.eqb value "" then fallback
  else match Strconv.Atoi value with
  | Ret millis => if millis <=? 0 then fallback else (millis * ms + 2 ^ 63) mod 2 ^ 64 - 2 ^ 63
  | _ => fallback
  end.

Definition applyWatchTimingOverridesFromEnv (get : string -> string) (t : timing) : timing := {|
  pollInterval := watchDurationFromEnv (get "SCENERY_TEST_WATCH_POLL_MS") (pollInterval t);
  backupPollInterval := watchDurationFromEnv (get "SCENERY_TEST_WATCH_BACKUP_POLL_MS") (backupPollInterval t);
  settleDelay := watchDurationFromEnv (get "SCENERY_TEST_WATCH_SETTLE_DELAY_MS") (settleDelay t) |}.

(** What a [select] receives: the end of the context, a tick and what a scan
    would find then, an event, the end of the events, the timer. *)
Inductive signal := SDone | STick (scan : outcome string fileSnapshot) | SEvent | SClosed | STimer.
Abbreviation trace := (list (Z * signal)).

(** Still waiting, or returned at a time with the signals that are left. *)
Inductive waited := Waiting | Returned (at_ : Z) (r : outcome string fileSnapshot) (rest : trace).

Section waits.
Context (settle : Z).

(** A timer's signal before its time cannot come: the trace is no run.  [scans]
    tells what a scan would find at a time. *)
Fixpoint waitForSnapshotToSettlePolling (deadline : Z) (current : fileSnapshot) (tr : trace) : waited :=
  match tr with
  | [] => Waiting
  | (t, s) :: rest =>
    match s with
    | SDone => Returned t (Fail "context canceled") rest
    | STimer => if t <? deadline then Waiting else Returned t (Ret current) rest
    | STick (Ret next) =>
      if snapshotsEqual current next then waitForSnapshotToSettlePolling deadline current rest
      else waitForSnapshotToSettlePolling (t + settle) next rest
    | STick (Fail e) | STick (Panic e) => Returned t (Fail e) rest
    | SEvent | SClosed => waitForSnapshotToSettlePolling deadline current rest    (** not selected here *)
    end
  end.

Fixpoint waitForStableChangePolling (current : fileSnapshot) (tr : trace) : waited :=
  match tr with
  | [] => Waiting
  | (t, s) :: rest =>
    match s with
    | SDone => Returned t (Fail "context canceled") rest
    | STick (Ret next) =>
      if snapshotsEqual current next then waitForStableChangePolling current rest
      else waitForSnapshotToSettlePolling (t + settle) next rest
    | STick (Fail e) | STick (Panic e) => Returned t (Fail e) rest
    | _ => waitForStableChangePolling current rest
    end
  end.

Context (scans : Z -> outcome string fileSnapshot).

Fixpoint waitForSnapshotToSettleEvents (deadline : Z) (tr : trace) : waited :=
  match tr with
  | [] => Waiting
  | (t, s) :: rest =>
    match s with
    | SDone => Returned t (Fail "context canceled") rest
    | STimer => if t <? deadline then Waiting else Returned t (scans t) rest
    | SEvent => waitForSnapshotToSettleEvents (t + settle) rest
    | SClosed => Returned t (scans t) rest
    | STick _ => waitForSnapshotToSettleEvents deadline rest
    end
  end.

Fixpoint waitForStableChangeEvents (fuel : nat) (current : fileSnapshot) (tr : trace) : waited :=
  match fuel, tr with
  | S fuel, (t, s) :: rest =>
    match s with
    | SDone => Returned t (Fail "context canceled") rest
    | SClosed => waitForStableChangePolling current rest
    | STick (Ret next) =>
      if snapshotsEqual current next then waitForStableChangeEvents fuel current rest
      else waitForSnapshotToSettlePolling (t + settle) next rest
    | STick (Fail e) | STick (Panic e) => Returned t (Fail e) rest
    | SEvent =>
      match waitForSnapshotToSettleEvents (t + settle) rest with
      | Returned t' (Ret next) rest' =>
        if snapshotsEqual current next then waitForStableChangeEvents fuel current rest' else Returned t' (Ret next) rest'
      | w => w
      end
    | STimer => waitForStableChangeEvents fuel current rest
    end
  | _, _ => Waiting
  end.

Definition waitForStableChange (watcher : bool) (current : fileSnapshot) (tr : trace) : waited :=
  if watcher then waitForStableChangeEvents (length tr) current tr else waitForStableChangePolling current tr.

(** The loop of [runWithWatch]: the changes it announces, and how it ends. *)
Fixpoint rebuilds (fuel : nat) (watcher : bool) (snapshot : fileSnapshot) (tr : trace) : list (fileSnapshot * list string) * option (outcome string unit) :=
  match fuel with
  | O => ([], None)
  | S fuel =>
    match waitForStableChange watcher snapshot tr with
    | Waiting => ([], None)
    | Returned _ (Ret next) rest =>
      let '(l, e) := rebuilds fuel watcher next rest in ((next, changedPaths snapshot next) :: l, e)
    | Returned _ (Fail e) _ => ([], Some (if String.eqb e "context canceled" then Ret tt else Fail e))
    | Returned _ (Panic e) _ => ([], Some (Panic e))
    end
  end.
End waits.

(** ** Events *)

(** [filepath.Rel] of two clean absolute paths, by their elements. *)
Fixpoint rel_elems (base target : list string) : list string :=
  match base, target with
  | a :: base', b :: target' => if String.eqb a b then rel_elems base' target' else map (fun _ => "..") base ++ target
  | _, _ => map (fun _ => "..") base ++ target
  end.
Definition Rel (base target : string) : string :=
  match rel_elems (Paths.elems base) (Paths.elems target) with [] => "." | l => Strings.Join l "/" end.

(** The directories that are watched, and whether a signal waits in the channel. *)
Record fileChangeWatcher := { root : string; resolvedRoot : string; watched : gset string; pending : bool }.

Definition relativeToRoot (fw : fileChangeWatcher) (path : string) : option string :=
  let escapes rel := String.eqb rel ".." || Strings.HasPrefix rel "../" in
  let one base := let rel := Rel base path in if escapes rel then None else Some rel in
  match one (root fw) with Some rel => Some rel | None => one (resolvedRoot fw) end.

Definition signal_ (fw : fileChangeWatcher) : fileChangeWatcher :=
  {| root := root fw; resolvedRoot := resolvedRoot fw; watched := watched fw; pending := true |}.

(** The directories of a tree at [path], without the ignored ones. *)
Fixpoint tree_dirs (fw : fileChangeWatcher) (path : string) (n : node) : list string :=
  match n with
  | NDir entries =>
    if match relativeToRoot fw path with Some rel => negb (String.eqb rel ".") && shouldIgnoreWatchPath rel | None => false end then []
    else path :: match entries with
      | None => []
      | Some es => (fix below (es : list (string * node)) : list string :=
          match es with [] => [] | (name, n) :: rest => tree_dirs fw (Filepath.Join [path; name]) n ++ below rest end) es
      end
  | _ => []
  end.

Definition addTree (fw : fileChangeWatcher) (path : string) (n : node) : fileChangeWatcher :=
  {| root := root fw; resolvedRoot := resolvedRoot fw; watched := list_to_set (tree_dirs fw path n) ∪ watched fw; pending := pending fw |}.

Record event := { name : string; create : bool; target : option node (** what is there now *) }.

Definition handleEvent (fw : fileChangeWatcher) (ev : event) : fileChangeWatcher :=
  let path := Filepath.Clean (name ev) in
  match relativeToRoot fw path with
  | None => signal_ fw
  | Some rel =>
    if String.eqb rel "." then fw
    else if shouldIgnoreWatchPath rel then fw
    else
      let fw := match create ev, target ev with true, Some (NDir es) => addTree fw path (NDir es) | _, _ => fw end in
      signal_ fw
  end.
End Watch.
