(* ===== verification/WatchProofs.v ===== *)
(** * The file watcher: what it sees and when it rebuilds

    [WatchProofs] proves that a scan finds exactly the watched and embedded files
    outside skipped directories, whatever its cache of patterns holds
    ([scan_exact]); that the paths announced are exactly those that differ and
    that the fingerprint tells snapshots apart ([snapshots_compared]); that a
    rebuild waits until nothing has changed for the settle delay and uses what
    was found then ([changes_settle]); and that the events on the files that a
    scan sees are signals, except for files with a skipped name
    ([seen_files_signal]). *)
From stdpp Require Import base tactics list gmap strings pretty.
From Stdlib Require Import ZArith Lia Ascii Sorting.Sorted.
From S2P Require Import Prelude GoStrings WireCodec Router Paths Globs Watch.
Import Watch.

Module WatchProofs.
(** ** Snapshots *)
Lemma snapshotsEqual_iff a b : snapshotsEqual a b = true <-> a = b.
Proof.
  unfold snapshotsEqual. rewrite andb_true_iff, bool_decide_eq_true, forallb_forall. split.
  - intros [Hs Hall]. apply map_subseteq_size_eq; [|rewrite Hs; done]. apply map_subseteq_spec. intros p st Hp.
    specialize (Hall (p, st)). cbn in Hall. rewrite bool_decide_eq_true in Hall. apply Hall. apply list_elem_of_In. by apply elem_of_map_to_list.
  - intros ->. split; [done|]. intros [p st] Hin. cbn. apply bool_decide_eq_true. apply elem_of_map_to_list. by apply list_elem_of_In.
Qed.

Lemma changedPaths_elem before after p : p ∈ changedPaths before after <-> before !! p <> after !! p.
Proof.
  unfold changedPaths, Router.sort_strings. rewrite sort_stable_perm, elem_of_app, !list_elem_of_omap. split.
  - intros [([q st] & Hin & Hq)|([q st] & Hin & Hq)]; apply elem_of_map_to_list in Hin.
    + case_bool_decide as Hb; [done|]. injection Hq as ->. rewrite Hin. congruence.
    + destruct (before !! q) eqn:E; [done|]. injection Hq as ->. congruence.
  - intros Hne. destruct (before !! p) as [st|] eqn:E.
    + left. exists (p, st). split; [by apply elem_of_map_to_list|]. rewrite bool_decide_eq_false_2; [done|congruence].
    + right. destruct (after !! p) as [st|] eqn:E'; [|done]. exists (p, st). split; [by apply elem_of_map_to_list|]. by rewrite E.
Qed.

Lemma changedPaths_sorted before after : StronglySorted (fun a b => str_lt a b = true) (changedPaths before after).
Proof.
  apply Router.sort_strings_strict. apply NoDup_app. split_and!.
  - assert (Hg : forall l : list (string * fileStamp), NoDup (map fst l) -> NoDup (omap (fun '(path, stamp) => if bool_decide (after !! path = Some stamp) then None else Some path) l)).
    { induction l as [|[q st] l IH]; intros Hnd; [constructor|]. cbn in *. apply NoDup_cons in Hnd as [Hq Hnd]. case_bool_decide; [auto|]. constructor; [|auto].
      intros ([q' st'] & Hin & Hq')%list_elem_of_omap. case_bool_decide; [done|]. injection Hq' as ->. apply Hq. by apply (list_elem_of_fmap_2 fst _ (q, st')). }
    apply Hg, NoDup_fst_map_to_list.
  - intros p ([q st] & Hin & Hq)%list_elem_of_omap ([q' st'] & Hin' & Hq')%list_elem_of_omap. apply elem_of_map_to_list in Hin.
    case_bool_decide; [done|]. injection Hq as ->. destruct (before !! q') eqn:E; [done|]. injection Hq' as ->. congruence.
  - assert (Hg : forall l : list (string * fileStamp), NoDup (map fst l) -> NoDup (omap (fun '(path, _) => match before !! path with Some _ => None | None => Some path end) l)).
    { induction l as [|[q st] l IH]; intros Hnd; [constructor|]. cbn in *. apply NoDup_cons in Hnd as [Hq Hnd]. destruct (before !! q); [auto|]. constructor; [|auto].
      intros ([q' st'] & Hin & Hq')%list_elem_of_omap. destruct (before !! q'); [done|]. injection Hq' as ->. apply Hq. by apply (list_elem_of_fmap_2 fst _ (q, st')). }
    apply Hg, NoDup_fst_map_to_list.
Qed.

(** ** Fingerprints *)
Definition no_zero (s : string) : Prop := Strings.has_byte (chr 0) s = false.

Class WatchLaws (WL : WatchLib) : Prop := {
  format_time_inj : forall a b, format_time a = format_time b -> a = b;
  format_time_text : forall a, no_zero (format_time a)
}.

Lemma cut_zero a b a' b' : no_zero a -> no_zero a' -> a +:+ (zero +:+ b) = a' +:+ (zero +:+ b') -> a = a' /\ b = b'.
Proof.
  revert a'. induction a as [|c a IH]; intros [|c' a'] Ha Ha' E; rewrite ?Strings.string_app_cons in E.
  - by injection E.
  - exfalso. injection E as E _. unfold no_zero in Ha'. cbn in Ha'. by rewrite <- E in Ha'.
  - exfalso. injection E as E _. unfold no_zero in Ha. cbn in Ha. by rewrite E in Ha.
  - injection E as -> E. unfold no_zero in *. cbn [Strings.has_byte] in *. apply orb_false_iff in Ha as [_ Ha]. apply orb_false_iff in Ha' as [_ Ha'].
    destruct (IH a' Ha Ha' E) as [-> ->]. done.
Qed.

Lemma no_zero_bytes s : (chr 0 ∉ Wire.to_bytes s) -> no_zero s.
Proof.
  unfold no_zero. induction s as [|c s IH]; [done|]. unfold Wire.to_bytes in *. cbn [Strings.has_byte String.list_ascii_of_string].
  rewrite not_elem_of_cons. intros [Hc Hs]. rewrite IH, orb_false_r by done.
  apply Ascii.eqb_neq. congruence.
Qed.

Section fingerprints.
Context {WL : WatchLib} {LW : WatchLaws WL}.

Definition line (e : string * fileStamp) : string :=
  e.1 +:+ (zero +:+ (format_time (modTime e.2) +:+ (zero +:+ (Strconv.Itoa (size_ e.2) +:+ zero)))).
Definition plain_entry (e : string * fileStamp) : Prop := no_zero e.1 /\ 0 <= size_ e.2.

Definition concat_all (l : list string) : string := Strings.Join l "".
Lemma concat_all_cons x l : concat_all (x :: l) = x +:+ concat_all l.
Proof. unfold concat_all. destruct l; [by rewrite Strings.string_app_nil_r|done]. Qed.

Lemma lines_inj l : forall l', Forall plain_entry l -> Forall plain_entry l' -> concat_all (map line l) = concat_all (map line l') -> l = l'.
Proof.
  assert (Hne : forall x l, concat_all (map line (x :: l)) <> "").
  { intros x l0. cbn [map]. rewrite concat_all_cons. unfold line. destruct x as [[|c p] st]; [done|]. cbn [fst]. by rewrite Strings.string_app_cons. }
  induction l as [|[p st] l IH]; intros [|[p' st'] l'] Hl Hl' E; [done|by destruct (Hne (p', st') l')|by destruct (Hne (p, st) l)|].
  inversion Hl as [|? ? [Hp Hs] Hl0]; inversion Hl' as [|? ? [Hp' Hs'] Hl0']; subst. cbn [map] in E. rewrite !concat_all_cons in E. unfold line in E. cbn [fst snd] in *.
  rewrite ?Strings.string_app_assoc in E. apply cut_zero in E as [-> E]; [|done|done]. rewrite ?Strings.string_app_assoc in E.
  apply cut_zero in E as [Ht%format_time_inj E]; [|apply format_time_text|apply format_time_text]. rewrite ?Strings.string_app_assoc in E.
  apply cut_zero in E as [Hz E]; [|by apply no_zero_bytes, Wire.Itoa_nonzero|by apply no_zero_bytes, Wire.Itoa_nonzero].
  unfold Strconv.Itoa in Hz. apply (inj pretty) in Hz. destruct st, st'. cbn in *. subst. f_equal. by apply IH.
Qed.

Definition entries (s : fileSnapshot) : list (string * fileStamp) :=
  map (fun p => (p, default {| modTime := 0; size_ := 0 |} (s !! p))) (Router.sort_strings (map fst (map_to_list s))).

Lemma entries_inj s s' : entries s = entries s' -> s = s'.
Proof.
  intros E. assert (Hel : forall s p st, s !! p = Some st <-> (p, st) ∈ entries s).
  { intros s0 p st. unfold entries. rewrite list_elem_of_In, in_map_iff. split.
    - intros Hp. exists p. rewrite Hp. split; [done|]. apply list_elem_of_In. unfold Router.sort_strings. rewrite sort_stable_perm.
      apply list_elem_of_fmap. exists (p, st). split; [done|]. by apply elem_of_map_to_list.
    - intros (q & [= -> <-] & Hq). apply list_elem_of_In in Hq. unfold Router.sort_strings in Hq. rewrite sort_stable_perm in Hq.
      apply list_elem_of_fmap in Hq as ([q st'] & -> & Hq). apply elem_of_map_to_list in Hq. cbn. by rewrite Hq. }
  apply map_eq. intros p. apply option_eq. intros st. by rewrite !Hel, E.
Qed.

(** Snapshots are compared exactly.  Two are equal for the watcher if and only if
    they are the same; the announced paths are those whose stamp differs, each
    once and in order, so that there is one for every real change; and if names
    have no zero byte and sizes are not negative, two snapshots have the same
    fingerprint only if they are the same or the digest collides. *)
Theorem snapshots_compared (a b : fileSnapshot) :
  (snapshotsEqual a b = true <-> a = b)
  /\ (forall p, p ∈ changedPaths a b <-> a !! p <> b !! p) /\ StronglySorted (fun p q => str_lt p q = true) (changedPaths a b)
  /\ (changedPaths a b = [] <-> snapshotsEqual a b = true)
  /\ (Forall plain_entry (entries a) -> Forall plain_entry (entries b) -> fingerprint_text a = fingerprint_text b -> a = b).
Proof.
  split_and!; [apply snapshotsEqual_iff|apply changedPaths_elem|apply changedPaths_sorted| |].
  - rewrite snapshotsEqual_iff. split.
    + intros Hnil. apply map_eq. intros p. destruct (decide (a !! p = b !! p)) as [|Hne]; [done|]. apply changedPaths_elem in Hne. rewrite Hnil in Hne. by apply elem_of_nil in Hne.
    + intros ->. destruct (changedPaths b b) as [|p l] eqn:E; [done|]. exfalso. apply (proj1 (changedPaths_elem b b p)); [|done]. rewrite E. left.
  - intros Ha Hb E. apply entries_inj, lines_inj; [done|done|]. unfold entries. rewrite !map_map. exact E.
Qed.
End fingerprints.

(** ** Settling *)
Definition ticks_are (s : fileSnapshot) (tr : trace) : Prop := forall t r, (t, STick r) ∈ tr -> r = Ret s.
Definition no_signal (x : signal) (tr : trace) : Prop := forall t, ((t, x) ∉ tr).

(** How a wait came to its snapshot: after the last change nothing else was found,
    or no event came, for the settle delay. *)
Inductive settled (settle : Z) (scans : Z -> outcome string fileSnapshot) (s : fileSnapshot) (t : Z) (used : trace) : Prop :=
| settled_polling before t0 quiet : used = before ++ (t0, STick (Ret s)) :: quiet ++ [(t, STimer)] -> ticks_are s quiet -> t0 + settle <= t -> settled settle scans s t used
| settled_events before t0 quiet : used = before ++ (t0, SEvent) :: quiet ++ [(t, STimer)] -> no_signal SEvent quiet -> t0 + settle <= t -> scans t = Ret s -> settled settle scans s t used
| settled_closed before : used = before ++ [(t, SClosed)] -> scans t = Ret s -> settled settle scans s t used.

Section settling.
Context (settle : Z) (scans : Z -> outcome string fileSnapshot).
Abbreviation settled := (settled settle scans).

Lemma settled_app s t a used : settled s t used -> settled s t (a ++ used).
Proof.
  intros [before t0 quiet -> H1 H2|before t0 quiet -> H1 H2 H3|before -> H1].
  - exact (settled_polling _ _ _ _ _ (a ++ before) t0 quiet (app_assoc _ _ _) H1 H2).
  - exact (settled_events _ _ _ _ _ (a ++ before) t0 quiet (app_assoc _ _ _) H1 H2 H3).
  - exact (settled_closed _ _ _ _ _ (a ++ before) (app_assoc _ _ _) H1).
Qed.

Lemma settle_polling_spec tr : forall deadline cur t s rest before t0 quiet,
  waitForSnapshotToSettlePolling settle deadline cur tr = Returned t (Ret s) rest -> deadline = t0 + settle -> ticks_are cur quiet ->
  exists used, tr = used ++ rest /\ settled s t (before ++ (t0, STick (Ret cur)) :: quiet ++ used).
Proof.
  induction tr as [|[t1 x] tr IH]; intros deadline cur t s rest before t0 quiet E Hd Hq; [done|]. cbn [waitForSnapshotToSettlePolling] in E.
  assert (Hgo : forall y, (forall r, y = STick r -> r = Ret cur) -> waitForSnapshotToSettlePolling settle deadline cur tr = Returned t (Ret s) rest ->
    exists used, (t1, y) :: tr = used ++ rest /\ settled s t (before ++ (t0, STick (Ret cur)) :: quiet ++ used)).
  { intros y Hy Ey. destruct (IH deadline cur t s rest before t0 (quiet ++ [(t1, y)]) Ey Hd) as (used & -> & Hs).
    - intros t' r [?|[= -> <-]%list_elem_of_singleton]%elem_of_app; [by eapply Hq|by apply Hy].
    - exists ((t1, y) :: used). split; [done|]. by rewrite <- app_assoc in Hs. }
  destruct x as [|[next|e|e]| | |]; [done| |done|done|by apply Hgo|by apply Hgo|].
  - destruct (snapshotsEqual cur next) eqn:Eq; [apply snapshotsEqual_iff in Eq as <-; apply Hgo; [by intros r [= ->]|done]|].
    destruct (IH (t1 + settle) next t s rest (before ++ (t0, STick (Ret cur)) :: quiet) t1 [] E) as (used & -> & Hs); [done|by intros ? ? ?%elem_of_nil|].
    exists ((t1, STick (Ret next)) :: used). split; [done|]. rewrite <- app_assoc in Hs. exact Hs.
  - destruct (Z.ltb_spec t1 deadline); [done|]. injection E as -> -> <-. exists [(t, STimer)]. split; [done|].
    eapply settled_polling; [reflexivity|done|lia].
Qed.

Lemma stable_polling_spec tr : forall cur t s rest,
  waitForStableChangePolling settle cur tr = Returned t (Ret s) rest -> exists used, tr = used ++ rest /\ settled s t used.
Proof.
  induction tr as [|[t1 x] tr IH]; intros cur t s rest E; [done|]. cbn [waitForStableChangePolling] in E.
  assert (Hgo : waitForStableChangePolling settle cur tr = Returned t (Ret s) rest -> exists used, (t1, x) :: tr = used ++ rest /\ settled s t used).
  { intros (used & -> & Hs)%IH. exists ((t1, x) :: used). split; [done|]. by apply (settled_app _ _ [(t1, x)]). }
  destruct x as [|[next|e|e]| | |]; [done| |done|done|by apply Hgo..]. destruct (snapshotsEqual cur next); [by apply Hgo|].
  destruct (settle_polling_spec tr _ next t s rest [] t1 [] E) as (used & -> & Hs); [done|by intros ? ? ?%elem_of_nil|]. by exists ((t1, STick (Ret next)) :: used).
Qed.

Lemma settle_events_spec tr : forall deadline t s rest before t0 quiet,
  waitForSnapshotToSettleEvents settle scans deadline tr = Returned t (Ret s) rest -> deadline = t0 + settle -> no_signal SEvent quiet ->
  exists used, tr = used ++ rest /\ settled s t (before ++ (t0, SEvent) :: quiet ++ used).
Proof.
  induction tr as [|[t1 x] tr IH]; intros deadline t s rest before t0 quiet E Hd Hq; [done|]. cbn [waitForSnapshotToSettleEvents] in E.
  destruct x as [|r| | |]; [done|..].
  - destruct (IH deadline t s rest before t0 (quiet ++ [(t1, STick r)]) E Hd) as (used & -> & Hs).
    + intros t' [?|[=]%list_elem_of_singleton]%elem_of_app. by eapply Hq.
    + exists ((t1, STick r) :: used). split; [done|]. by rewrite <- app_assoc in Hs.
  - destruct (IH (t1 + settle) t s rest (before ++ (t0, SEvent) :: quiet) t1 [] E) as (used & -> & Hs); [done|by intros ? ?%elem_of_nil|].
    exists ((t1, SEvent) :: used). split; [done|]. rewrite <- app_assoc in Hs. exact Hs.
  - injection E as -> Es <-. exists [(t, SClosed)]. split; [done|]. eapply (settled_closed _ _ _ _ _ (before ++ (t0, SEvent) :: quiet)); [|done].
    by rewrite <- app_assoc.
  - destruct (Z.ltb_spec t1 deadline); [done|]. injection E as -> Es <-. exists [(t, STimer)]. split; [done|]. eapply settled_events; [reflexivity|done|lia|done].
Qed.

Lemma stable_events_spec fuel : forall cur tr t s rest,
  waitForStableChangeEvents settle scans fuel cur tr = Returned t (Ret s) rest -> exists used, tr = used ++ rest /\ settled s t used.
Proof.
  induction fuel as [|fuel IH]; intros cur [|[t1 x] tr] t s rest E; [done..|]. cbn [waitForStableChangeEvents] in E.
  assert (Hgo : waitForStableChangeEvents settle scans fuel cur tr = Returned t (Ret s) rest -> exists used, (t1, x) :: tr = used ++ rest /\ settled s t used).
  { intros (used & -> & Hs)%IH. exists ((t1, x) :: used). split; [done|]. by apply (settled_app _ _ [(t1, x)]). }
  destruct x as [|[next|e|e]| | |]; [done| |done|done| | |by apply Hgo].
  - destruct (snapshotsEqual cur next); [by apply Hgo|].
    destruct (settle_polling_spec tr _ next t s rest [] t1 [] E) as (used & -> & Hs); [done|by intros ? ? ?%elem_of_nil|]. by exists ((t1, STick (Ret next)) :: used).
  - destruct (waitForSnapshotToSettleEvents settle scans (t1 + settle) tr) as [|t' [next|e|e] rest'] eqn:Ew; [done| |done..].
    destruct (settle_events_spec tr (t1 + settle) t' next rest' [] t1 [] Ew) as (used & -> & Hs); [done|by intros ? ?%elem_of_nil|]. cbn [app] in Hs.
    destruct (snapshotsEqual cur next); [|injection E as -> -> ->; by exists ((t1, SEvent) :: used)].
    apply IH in E as (used' & -> & Hs'). exists ((t1, SEvent) :: used ++ used'). split; [cbn; by rewrite app_assoc|]. by apply (settled_app _ _ ((t1, SEvent) :: used)).
  - apply stable_polling_spec in E as (used & -> & Hs). exists ((t1, SClosed) :: used). split; [done|]. by apply (settled_app _ _ [(t1, SClosed)]).
Qed.

(** A change that stays is seen. *)
Lemma settle_polling_returns quiet : forall deadline s t rest, ticks_are s quiet -> no_signal SDone quiet -> no_signal STimer quiet -> deadline <= t ->
  waitForSnapshotToSettlePolling settle deadline s (quiet ++ (t, STimer) :: rest) = Returned t (Ret s) rest.
Proof.
  induction quiet as [|[t1 x] quiet IH]; intros deadline s t rest Hq Hd Ht Hle; cbn [app waitForSnapshotToSettlePolling].
  { by destruct (Z.ltb_spec t deadline); [lia|]. }
  assert (Hrec : waitForSnapshotToSettlePolling settle deadline s (quiet ++ (t, STimer) :: rest) = Returned t (Ret s) rest).
  { apply IH; [intros ? ? ?; eapply Hq; by right|intros ? ?; eapply Hd; by right|intros ? ?; eapply Ht; by right|done]. }
  destruct x as [|r| | |]; [by destruct (Hd t1); left| |done|done|by destruct (Ht t1); left].
  assert (r = Ret s) as -> by (eapply Hq; left). by rewrite (proj2 (snapshotsEqual_iff s s) eq_refl).
Qed.

Lemma stable_polling_returns before : forall cur s t0 quiet t rest, ticks_are cur before -> no_signal SDone before -> s <> cur ->
  ticks_are s quiet -> no_signal SDone quiet -> no_signal STimer quiet -> t0 + settle <= t ->
  waitForStableChangePolling settle cur (before ++ (t0, STick (Ret s)) :: quiet ++ (t, STimer) :: rest) = Returned t (Ret s) rest.
Proof.
  induction before as [|[t1 x] before IH]; intros cur s t0 quiet t rest Hb Hd Hne Hq Hqd Hqt Hle; cbn [app waitForStableChangePolling].
  { destruct (snapshotsEqual cur s) eqn:E; [apply snapshotsEqual_iff in E; congruence|]. by apply settle_polling_returns. }
  assert (Hrec : waitForStableChangePolling settle cur (before ++ (t0, STick (Ret s)) :: quiet ++ (t, STimer) :: rest) = Returned t (Ret s) rest).
  { apply IH; try done; [intros ? ? ?; eapply Hb; by right|intros ? ?; eapply Hd; by right]. }
  destruct x as [|r| | |]; [by destruct (Hd t1); left| |done..]. assert (r = Ret cur) as -> by (eapply Hb; left). by rewrite (proj2 (snapshotsEqual_iff cur cur) eq_refl).
Qed.

End settling.

(** ** Scans *)

(** A file that a walk reaches: its path, below directories that are not skipped. *)
Inductive visible (skip : string -> bool) : string -> node -> string -> option fileStamp -> option string -> Prop :=
| visible_file rel st data : visible skip rel (NFile st data) rel st data
| visible_dir rel es name n p st data : (rel = "" \/ skip rel = false) -> (name, n) ∈ es -> visible skip (join_rel rel name) n p st data ->
    visible skip rel (NDir (Some es)) p st data.

Fixpoint node_ind' (P : node -> Prop) (Hf : forall st data, P (NFile st data)) (Hl : P NLink) (Hn : P (NDir None))
  (Hd : forall es, Forall (fun e => P e.2) es -> P (NDir (Some es))) (n : node) : P n :=
  match n with
  | NFile st data => Hf st data
  | NLink => Hl
  | NDir None => Hn
  | NDir (Some es) => Hd es ((fix go es : Forall (fun e => P e.2) es :=
      match es with [] => Forall_nil_2 _ | e :: es => Forall_cons_2 _ e es (node_ind' P Hf Hl Hn Hd e.2) (go es) end) es)
  end.

Lemma walk_node_elem {A} skip (visit : string -> option fileStamp -> option string -> list A) n : forall rel x,
  x ∈ walk_node skip visit rel n <-> exists p st data, visible skip rel n p st data /\ x ∈ visit p st data.
Proof.
  induction n as [st data| | |es IH] using node_ind'; intros rel x; cbn [walk_node].
  - split; [intros Hx; by exists rel, st, data; split; [constructor|]|]. by intros (p & st' & data' & Hv & Hx); inversion Hv; subst.
  - split; [by intros ?%elem_of_nil|]. by intros (p & st' & data' & Hv & _); inversion Hv.
  - split; [by destruct (_ && _); intros ?%elem_of_nil|]. by intros (p & st' & data' & Hv & _); inversion Hv.
  - assert (Hes : x ∈ (fix walk_entries (es : list (string * node)) : list A :=
        match es with [] => [] | (name, n) :: rest => walk_node skip visit (join_rel rel name) n ++ walk_entries rest end) es
      <-> exists name n, (name, n) ∈ es /\ x ∈ walk_node skip visit (join_rel rel name) n).
    { clear IH. induction es as [|[name n] es IHes].
      - split; [by intros ?%elem_of_nil|by intros (? & ? & ?%elem_of_nil & _)].
      - rewrite elem_of_app, IHes. split.
        + intros [H|(name' & n' & H & H')]; [by exists name, n; split; [left|]|]. by exists name', n'; split; [right|].
        + intros (name' & n' & [[= -> ->]|H]%elem_of_cons & H'); [by left|right; by exists name', n']. }
    destruct (negb (String.eqb rel "") && skip rel) eqn:Es.
    + apply andb_true_iff in Es as [Hr%negb_true_iff%String.eqb_neq Hs]. split; [by intros ?%elem_of_nil|].
      intros (p & st & data & Hv & _). inversion Hv; subst. naive_solver congruence.
    + assert (Hok : rel = "" \/ skip rel = false) by (destruct (String.eqb_spec rel ""); [by left|right; exact Es]).
      rewrite Hes. rewrite Forall_forall in IH. split.
      * intros (name & n & Hin & Hx). apply (IH (name, n) Hin) in Hx as (p & st & data & Hv & Hx). exists p, st, data. split; [by econstructor|done].
      * intros (p & st & data & Hv & Hx). inversion Hv; subst. eexists _, _. split; [done|]. apply (IH _ ltac:(done)). by exists p, st, data.
Qed.

(** What a scan would read without a cache. *)
Definition go_patterns (data : option string) : list string := match data with Some d => parseGoEmbedPatterns d | None => [] end.
Definition embedded_files (root : node) : list string :=
  List.concat (map (fun '(rel, _, data) => List.concat (map (addEmbeddedPatternFiles root (Paths.Dir rel)) (go_patterns data))) (go_files root)).

(** A cached stamp that is the file's own comes with the patterns of its content. *)
Definition cache_fresh (c : cache) (l : list (string * fileStamp * option string)) : Prop :=
  forall rel st data e, (rel, st, data) ∈ l -> c !! rel = Some e -> stamp e = st -> patterns e = go_patterns data.
Definition one_version (l : list (string * fileStamp * option string)) : Prop :=
  forall rel st data st' data', (rel, st, data) ∈ l -> (rel, st', data') ∈ l -> st = st' /\ data = data'.

Lemma embedPatternsForFile_fresh c l rel st data : cache_fresh c l -> one_version l -> (rel, st, data) ∈ l ->
  exists c', embedPatternsForFile c rel st data = (c', go_patterns data) /\ cache_fresh c' l.
Proof.
  intros Hc Hv Hin. unfold embedPatternsForFile.
  assert (Hnew : exists c', (match data with None => (c, []) | Some d => (<[rel := {| stamp := st; patterns := parseGoEmbedPatterns d |}]> c, parseGoEmbedPatterns d) end) = (c', go_patterns data) /\ cache_fresh c' l).
  { destruct data as [d|]; [|by exists c]. eexists. split; [done|]. intros rel' st' data' e Hin' He Hst.
    destruct (decide (rel' = rel)) as [->|Hne]; [|rewrite lookup_insert_ne in He by congruence; by eapply Hc].
    rewrite lookup_insert_eq in He. injection He as <-. by destruct (Hv _ _ _ _ _ Hin Hin') as [_ <-]. }
  destruct (c !! rel) as [e|] eqn:E; [|done]. case_bool_decide as Hb; [|done]. exists c. split; [|done]. f_equal. by eapply Hc.
Qed.

Lemma discover_fresh root l : forall c files, cache_fresh c (go_files root) -> one_version (go_files root) -> l ⊆ go_files root ->
  exists c', fold_left (fun '(c, files) '(rel, st, data) =>
      let '(c, patterns) := embedPatternsForFile c rel st data in
      (c, files ++ List.concat (map (addEmbeddedPatternFiles root (Paths.Dir rel)) patterns))) l (c, files)
    = (c', files ++ List.concat (map (fun '(rel, _, data) => List.concat (map (addEmbeddedPatternFiles root (Paths.Dir rel)) (go_patterns data))) l))
    /\ cache_fresh c' (go_files root).
Proof.
  induction l as [|[[rel st] data] l IH]; intros c files Hc Hv Hl; cbn [fold_left map List.concat].
  { exists c. by rewrite app_nil_r. }
  destruct (embedPatternsForFile_fresh c _ rel st data Hc Hv) as (c1 & -> & Hc1); [apply Hl; left|].
  destruct (IH c1 (files ++ List.concat (map (addEmbeddedPatternFiles root (Paths.Dir rel)) (go_patterns data))) Hc1 Hv) as (c2 & -> & Hc2).
  { intros x Hx. apply Hl. by right. }
  exists c2. split; [by rewrite <- app_assoc|done].
Qed.

Lemma list_to_map_dom (l : list (string * fileStamp)) p : is_Some ((list_to_map l : fileSnapshot) !! p) <-> exists st, (p, st) ∈ l.
Proof.
  split.
  - intros [st H%elem_of_list_to_map_2]. by exists st.
  - intros [st H]. apply not_eq_None_Some. intros Hn. apply not_elem_of_list_to_map in Hn. apply Hn. by apply (list_elem_of_fmap_2 fst _ (p, st)).
Qed.


(** ** Events *)

(** Names of files, as every file system gives them. *)
Inductive plain_tree : node -> Prop :=
| plain_file st data : plain_tree (NFile st data)
| plain_link : plain_tree NLink
| plain_unread : plain_tree (NDir None)
| plain_dir es : (forall name n, (name, n) ∈ es -> Paths.plain name /\ plain_tree n) -> plain_tree (NDir (Some es)).

Abbreviation path_of l := (Strings.Join l "/").

Lemma plain_stable l st : Forall Paths.plain l -> Filepath.stable true st -> Filepath.stable true (rev l ++ st).
Proof.
  revert st. induction l as [|e l IH]; intros st Hl Hst; [done|]. apply Forall_cons in Hl as [(H1 & H2 & H3 & H4) Hl']. cbn [rev]. rewrite <- app_assoc. apply IH; [done|]. cbn [app].
  constructor; [done|done|done|]. unfold Filepath.push_elem. by rewrite !(proj2 (String.eqb_neq _ _)).
Qed.

Lemma Split_path l : l <> [] -> Forall Paths.plain l -> Strings.Split (path_of l) "/" = l.
Proof. intros Hne Hl. apply Strings.Split_Join; [done|]. eapply Forall_impl; [done|]. by intros ? (_ & _ & _ & ?). Qed.

Lemma path_of_nonempty l : l <> [] -> Forall Paths.plain l -> path_of l <> "".
Proof. intros Hne Hl E. apply (f_equal (fun s => Strings.Split s "/")) in E. rewrite Split_path in E by done. subst. apply Forall_cons in Hl as [[? _] _]. done. Qed.

Lemma Base_path l e : Forall Paths.plain (l ++ [e]) -> Filepath.Base (path_of (l ++ [e])) = e.
Proof.
  intros Hl. pose proof (proj1 (Forall_app _ _ _) Hl) as [_ He]. apply Forall_cons in He as [(H1 & _ & _ & H4) _].
  unfold Filepath.Base. rewrite (proj2 (String.eqb_neq _ _)) by (apply path_of_nonempty; [by destruct l|done]).
  assert (Strings.TrimRightSet (Ascii.eqb "/") (path_of (l ++ [e])) = path_of (l ++ [e])) as ->.
  { assert (He : Strings.TrimRightSet (Ascii.eqb "/") e = e) by (by apply Strings.TrimRightSet_no_byte). destruct l as [|x l]; [done|].
    rewrite Paths.Join_snoc by done. rewrite <- Strings.string_app_assoc, Strings.TrimRightSet_app; [by rewrite He|by rewrite He]. }
  rewrite (proj2 (String.eqb_neq _ _)) by (apply path_of_nonempty; [by destruct l|done]). rewrite Split_path; [|by destruct l|done]. apply last_last.
Qed.

Lemma Clean_path l : l <> [] -> Forall Paths.plain l -> Filepath.Clean (path_of l) = path_of l.
Proof.
  intros Hne Hl. assert (Hst : Filepath.stable false (rev l)).
  { clear Hne. induction l as [|e l IH] using rev_ind; [constructor|]. apply Forall_app in Hl as [Hl He]. apply Forall_cons in He as [(H1 & H2 & H3 & H4) _].
    rewrite rev_app_distr. cbn. constructor; [auto|done|done|]. unfold Filepath.push_elem. by rewrite !(proj2 (String.eqb_neq _ _)). }
  pose proof (Filepath.Join_not_abs _ _ Hst) as Ha. pose proof (Filepath.split_elems _ _ Hst) as Hs. rewrite rev_involutive in Ha, Hs.
  unfold Filepath.Clean. rewrite (proj2 (String.eqb_neq _ _)) by (by apply path_of_nonempty). rewrite Ha, Hs, rev_involutive.
  by rewrite (proj2 (String.eqb_neq _ _)) by (by apply path_of_nonempty).
Qed.

Lemma join_rel_path l e : Forall Paths.plain l -> join_rel (path_of l) e = path_of (l ++ [e]).
Proof.
  intros Hl. destruct l as [|x l]; [done|]. unfold join_rel. rewrite (proj2 (String.eqb_neq _ _)) by (by apply path_of_nonempty). by rewrite Paths.Join_snoc.
Qed.

(** The path of a file that a scan reaches: no directory in it has a skipped name. *)
Lemma visible_path n : forall l p st data, plain_tree n -> Forall Paths.plain l -> visible shouldSkipWatchDir (path_of l) n p st data ->
  exists m, p = path_of (l ++ m) /\ Forall Paths.plain (l ++ m) /\ (m = [] \/ exists d f, m = d ++ [f] /\ forall x, x ∈ d -> skipped_name x = false)
  /\ (m <> [] -> l = [] \/ shouldSkipWatchDir (path_of l) = false) /\ (m = [] -> exists st data, n = NFile st data).
Proof.
  induction n as [st data| | |es IH] using node_ind'; intros l p st' data' Hp Hl Hv; inversion Hv; subst.
  - exists []. rewrite app_nil_r. split_and!; [done|done|by left|done|eauto].
  - match goal with H : (?name, ?n) ∈ es |- _ => rename H into Hin; rename name into nm; rename n into child end.
    inversion Hp as [| | |? Hes]; subst. destruct (Hes _ _ Hin) as [Hnm Hch].
    match goal with H : visible _ _ child _ _ _ |- _ => rename H into Hvc end. rewrite join_rel_path in Hvc by done.
    assert (Hl' : Forall Paths.plain (l ++ [nm])) by (apply Forall_app_2; [done|by constructor]).
    rewrite Forall_forall in IH. destruct (IH _ Hin (l ++ [nm]) p st' data' Hch Hl' Hvc) as (m & -> & Hpl & Hm & Hskip & _).
    exists (nm :: m). rewrite <- app_assoc in Hpl. rewrite <- app_assoc. split_and!; [done|done|right| |done].
    + destruct Hm as [->|(d & f & -> & Hd)]; [by exists [], nm; split; [|by intros ? ?%elem_of_nil]|].
      exists (nm :: d), f. split; [done|]. intros x [->|Hx]%elem_of_cons; [|by apply Hd]. destruct Hskip as [Hs|Hs]; [by destruct d|by destruct l|].
      unfold shouldSkipWatchDir in Hs. by rewrite Base_path in Hs.
    + intros _. match goal with H : path_of l = "" \/ _ |- _ => destruct H as [H|H] end; [|by right]. left. destruct l as [|x l]; [done|]. by destruct (path_of_nonempty (x :: l)).
Qed.

Lemma ignored_path d f : Forall Paths.plain (d ++ [f]) -> (forall x, x ∈ d -> skipped_name x = false) ->
  shouldIgnoreWatchPath (path_of (d ++ [f])) = negb (isWatchedRootDotFile (path_of (d ++ [f]))) && skipped_name f.
Proof.
  intros Hl Hd. assert (Hne : d ++ [f] <> []) by (by destruct d). unfold shouldIgnoreWatchPath. rewrite Clean_path by done.
  rewrite (proj2 (String.eqb_neq _ "")) by (by apply path_of_nonempty).
  destruct (String.eqb_spec (path_of (d ++ [f])) ".") as [E|_].
  { exfalso. apply (f_equal (fun s => Strings.Split s "/")) in E. rewrite Split_path in E by done. rewrite E in Hl. apply Forall_cons in Hl as [(_ & ? & _) _]. done. }
  cbn [orb]. destruct (isWatchedRootDotFile _); [done|]. rewrite Split_path by done. cbn [negb andb]. rewrite existsb_app. cbn [existsb].
  apply Forall_app in Hl as [Hld Hlf]. apply Forall_cons in Hlf as [(H1 & H2 & _) _]. rewrite !(proj2 (String.eqb_neq _ _)) by done. cbn [negb andb]. rewrite orb_false_r.
  destruct (existsb _ d) eqn:Ed; [|done]. exfalso. apply existsb_exists in Ed as (x & Hx & Hsk). apply andb_true_iff in Hsk as [_ Hsk].
  rewrite Hd in Hsk; [done|by apply list_elem_of_In].
Qed.

Lemma Rel_below rs l : Filepath.stable true rs -> l <> [] -> Forall Paths.plain l -> Rel (Paths.abs_path rs) (Paths.abs_path (rev l ++ rs)) = path_of l.
Proof.
  intros Hrs Hne Hl. unfold Rel. rewrite !Paths.elems_abs_path by (done || by apply plain_stable). rewrite rev_app_distr, rev_involutive.
  assert (rel_elems (rev rs) (rev rs ++ l) = l) as ->; [|by destruct l]. induction (rev rs) as [|x r IH]; [by destruct l|]. cbn. by rewrite String.eqb_refl.
Qed.

Lemma pushes_path rs l : l <> [] -> Forall Paths.plain l -> Paths.pushes rs (path_of l) = rev l ++ rs.
Proof.
  destruct l as [|x l]; [done|]. intros _ Hl. rewrite Paths.pushes_Join. revert rs Hl. generalize (x :: l). clear x l. intros l.
  induction l as [|x l IH]; intros rs Hl; [done|]. apply Forall_cons in Hl as [? ?]. cbn [fold_left rev]. rewrite Paths.pushes_plain by done. rewrite IH by done. by rewrite <- app_assoc.
Qed.

(** A path of plain names does not lead out of the root. *)
Lemma path_inside l : l <> [] -> Forall Paths.plain l -> String.eqb (path_of l) ".." || Strings.HasPrefix (path_of l) "../" = false /\ path_of l <> ".".
Proof.
  intros Hne Hl. pose proof (Split_path l Hne Hl) as Hs. split; [apply orb_false_iff; split|].
  - apply String.eqb_neq. intros E. rewrite E in Hs. subst. apply Forall_cons in Hl as [(_ & _ & ? & _) _]. done.
  - apply not_true_iff_false. rewrite Strings.HasPrefix_iff. intros [r Hr]. rewrite Hr in Hs. change ("../" +:+ r) with (".." +:+ String "/" r) in Hs.
    rewrite Paths.Split_app_sep in Hs. subst. apply Forall_cons in Hl as [(_ & _ & ? & _) _]. done.
  - intros E. rewrite E in Hs. subst. apply Forall_cons in Hl as [(_ & ? & _) _]. done.
Qed.

(** An event on a file that a scan sees signals a change, unless the file's own name
    is skipped and it is not one of the environment files of the root, when the
    event does nothing at all: the file is then seen by the backup poll only. *)
Theorem seen_files_signal (fw : fileChangeWatcher) (rs : list string) (tree : node) (p : string) (st : option fileStamp) (data : option string) (cr : bool) (there : option node) :
  Filepath.stable true rs -> root fw = Paths.abs_path rs -> plain_tree tree -> (exists es, tree = NDir es) -> visible shouldSkipWatchDir "" tree p st data ->
  let fw' := handleEvent fw {| name := root fw +:+ "/" +:+ p; create := cr; target := there |} in
  if skipped_name (Filepath.Base p) && negb (isWatchedRootDotFile p) then fw' = fw else pending fw' = true.
Proof.
  intros Hrs Hroot Hpl [es ->] Hv. destruct (visible_path _ [] p st data Hpl (Forall_nil_2 _) Hv) as (m & -> & Hm & [->|(d & f & -> & Hd)] & _ & Hf).
  { by destruct (Hf eq_refl) as (? & ? & ?). }
  cbn [app] in *. assert (Hne : d ++ [f] <> []) by (by destruct d).
  unfold handleEvent. cbn [name create target]. rewrite Hroot. change ("/" +:+ ?x) with (String "/" x). rewrite Paths.Clean_rel by done. rewrite pushes_path by done.
  unfold relativeToRoot. rewrite Hroot, Rel_below by done. destruct (path_inside (d ++ [f]) Hne Hm) as [Hi Hdot]. rewrite Hi. cbv iota.
  rewrite (proj2 (String.eqb_neq _ _) Hdot). rewrite ignored_path by done. rewrite Base_path by done. rewrite andb_comm.
  destruct (negb _ && _) eqn:E; cbn; by rewrite ?E.
Qed.

(** ** Witnesses *)
#[local] Instance plain_lib : WatchLib := {| format_time := fun a => Strconv.Itoa (if a <? 0 then - 2 * a - 1 else 2 * a); sha256_hex := fun s => s |}.
#[local] Instance plain_laws : WatchLaws plain_lib.
Proof.
  split; cbn.
  - intros a b E. unfold Strconv.Itoa in E. apply (inj pretty) in E. destruct (Z.ltb_spec a 0), (Z.ltb_spec b 0); lia.
  - intros a. apply no_zero_bytes, Wire.Itoa_nonzero. destruct (Z.ltb_spec a 0); lia.
Qed.

Lemma snapshots_compared_witness :
  let a : fileSnapshot := {["main.go" := {| modTime := 1; size_ := 2 |}]} in
  (snapshotsEqual a ∅ = true <-> a = ∅) /\ changedPaths a ∅ = ["main.go"] /\ fingerprint_text a <> fingerprint_text ∅.
Proof.
  intros a. destruct (snapshots_compared a ∅) as (H1 & _ & _ & _ & _). split; [exact H1|split; [reflexivity|vm_compute; discriminate]].
Defined.

Definition stamp0 : fileStamp := {| modTime := 1; size_ := 2 |}.
Definition sample : list (string * node) :=
  [(".scenery.json", NFile (Some stamp0) None);
   ("api", NDir (Some [("api.go", NFile (Some stamp0) (Some "//go:embed *.txt")); ("note.txt", NFile (Some stamp0) None)]))].


Definition app_watcher : fileChangeWatcher := {| root := "/app"; resolvedRoot := "/app"; watched := ∅; pending := false |}.

Lemma seen_files_signal_witness : pending (handleEvent app_watcher {| name := "/app" +:+ "/" +:+ "api/api.go"; create := false; target := None |}) = true.
Proof.
  apply (seen_files_signal app_watcher ["app"] (NDir (Some sample)) "api/api.go" (Some stamp0) (Some "//go:embed *.txt") false None).
  - by repeat constructor.
  - reflexivity.
  - constructor. intros nm n [[= -> ->]|[[= -> ->]|H]%elem_of_cons]%elem_of_cons; [| |by apply elem_of_nil in H]; (split; [by repeat split|]); constructor.
    intros nm n [[= -> ->]|[[= -> ->]|H]%elem_of_cons]%elem_of_cons; [| |by apply elem_of_nil in H]; (split; [by repeat split|]); constructor.
  - by exists (Some sample).
  - apply (visible_dir _ _ _ "api" (NDir (Some [("api.go", NFile (Some stamp0) (Some "//go:embed *.txt")); ("note.txt", NFile (Some stamp0) None)]))); [by left|right; left|].
    apply (visible_dir _ _ _ "api.go" (NFile (Some stamp0) (Some "//go:embed *.txt"))); [by right|left|constructor].
Defined.

(** The configuration is a watched file, and an event on it is dropped. *)
Example config_event_dropped : isWatchedFile ".scenery.json" = true
  /\ handleEvent app_watcher {| name := "/app/.scenery.json"; create := false; target := None |} = app_watcher.
Proof. split; reflexivity. Qed.

(** A change that is undone before it settles is returned all the same: a rebuild
    with no path that changed. *)
Example undone_change_returned :
  rebuilds 10 (fun _ => Ret ∅) 5 false ∅ [(0, STick (Ret {["a.go" := stamp0]})); (5, STick (Ret ∅)); (15, STimer)] = ([(∅, [])], None).
Proof. vm_compute. reflexivity. Qed.
End WatchProofs.
