(* ===== verification/Build.v ===== *)
(** * Build workspaces ([internal/build])

    [Build] models how an application is built: its source files are mirrored
    into a workspace, generated files are written over them, what is not expected
    is removed, fingerprints of sources, dependencies and workspace are taken, the
    binary is compiled and the build's state is saved, so that a later run can
    reuse the binary or the application graph.  The application is a tree that
    ends at its root; the target of a link is what it finally names.  The
    workspace holds files and directories by relative path, with the saved state
    as decoding gives it and the last manifest; a file system operation fails
    only when a file is in the place of a directory or the other way round.  The
    go command, the library that edits go.mod, the parser that finds and replaces
    imports, the digest and the fingerprint of the generator are the class
    [BuildEnv]; the generated code is an argument.  The inspection files below
    [.scenery/gen] are not modelled. *)
From stdpp Require Import base tactics list gmap strings.
From Stdlib Require Import ZArith Lia Ascii.
From S2P Require Import Prelude GoStrings Router Paths Globs AppConfig StateM Watch.
Import StateM.

Module Build.
(** ** The application's files *)
Record SourceStamp := { Size : Z; ModTimeNano : Z; Perm : Z }.
#[export] Instance SourceStamp_eq_dec : EqDecision SourceStamp.
Proof. solve_decision. Defined.

Inductive node :=
| NFile (regular : bool) (info : SourceStamp) (data : outcome string string)
| NLink (target : option node)
| NDir (entries : outcome string (list (string * node))).

(** What [os.Stat] sees. *)
Definition resolve (n : node) : option node := match n with NLink t => t | _ => Some n end.

Definition shouldSkipDir (rel : string) : bool :=
  let base := Filepath.Base rel in
  Strings.HasPrefix base "." || existsb (String.eqb base) ["node_modules"; "scenery_internal_main"; "__MACOSX"; "coverage"].

Definition shouldSkipRuntimeArtifactDir (rel : string) : bool :=
  let rel := Strings.Trim rel "/" in
  existsb (fun d => String.eqb rel d || Strings.HasPrefix rel (d +:+ "/")) ["var/browser"; "var/chrome"; "var/playwright"].

Definition shouldSkipFile (rel : string) : bool :=
  let base := Filepath.Base rel in
  String.eqb base ".DS_Store" || String.eqb base ".env" || Strings.HasPrefix base ".env.".

Definition shouldSkipNonRegularFile (n : node) : bool := match n with NFile regular _ _ => negb regular | _ => false end.

Definition shouldSkipSymlink (n : node) : bool :=
  match n with
  | NLink None => true
  | NLink (Some (NDir _)) => true
  | _ => false
  end.

Definition isGoWorkspaceSourceFile (rel : string) : bool :=
  existsb (String.eqb (Filepath.Base rel)) ["go.mod"; "go.sum"; "go.work"; "go.work.sum"]
  || existsb (String.eqb (Filepath.Ext rel)) Watch.sourceExts.

(** ** Embedded files *)
Definition parseGeneratorGoEmbedPatterns (src : string) : list string := Watch.parseGoEmbedPatterns src.
Definition hasGeneratorHiddenOrUnderscorePart (rel : string) : bool := Watch.hasHiddenOrUnderscorePart rel.

Fixpoint glob_in (rel : string) (n : node) (pats : list string) : list (string * node) :=
  match pats with
  | [] => [(rel, n)]
  | p :: rest =>
    match resolve n with
    | Some (NDir (Ret es)) =>
      List.concat (map (fun '(name, child) =>
        if (if Watch.hasMeta p then bool_decide (Globs.Match p name = Some true) else String.eqb p name)
        then glob_in (Watch.join_rel rel name) child rest else []) es)
    | _ => []
    end
  end.

Definition Glob (root : node) (pattern : string) : list (string * node) :=
  if Watch.well_formed_pattern pattern then glob_in "" root (Paths.elems pattern) else [].

Section embedded.
Context (includeHidden : bool).
Definition take_rel (rel : string) : list string :=
  if includeHidden || negb (hasGeneratorHiddenOrUnderscorePart rel) then [rel] else [].

Fixpoint walk_embedded (rel : string) (n : node) : outcome string (list string) :=
  match n with
  | NFile _ _ _ => Ret (take_rel rel)
  | NLink _ => Ret []
  | NDir entries =>
    if negb (String.eqb rel "") && negb includeHidden && hasGeneratorHiddenOrUnderscorePart rel then Ret []
    else match entries with
    | Ret es => (fix go (es : list (string * node)) : outcome string (list string) :=
        match es with
        | [] => Ret []
        | (name, n) :: rest => a ← walk_embedded (Watch.join_rel rel name) n; b ← go rest; Ret (a ++ b)
        end) es
    | Fail e => Fail e
    | Panic e => Panic e
    end
  end.

Definition addGeneratorEmbeddedPath (rel : string) (n : node) : outcome string (list string) :=
  match n with
  | NLink (Some (NFile _ _ _)) => Ret (take_rel rel)
  | _ => walk_embedded rel n
  end.
End embedded.

Fixpoint concat_all {A B} (f : A -> outcome string (list B)) (l : list A) : outcome string (list B) :=
  match l with
  | [] => Ret []
  | x :: l => a ← f x; b ← concat_all f l; Ret (a ++ b)
  end.

Definition addGeneratorEmbeddedPatternFiles (root : node) (pkgDir pattern : string) : outcome string (list string) :=
  let includeHidden := Strings.HasPrefix pattern "all:" in
  let pattern := Strings.TrimPrefix pattern "all:" in
  if String.eqb pattern "" || Filepath.IsAbs pattern || Strings.HasPrefix pattern "../" || Strings.Contains pattern "/../" then Ret []
  else
    let search := Filepath.Join [pkgDir; pattern] in
    if String.eqb search ".." then (if includeHidden then walk_embedded true "" root else Ret [])
    else concat_all (fun '(rel, n) => addGeneratorEmbeddedPath includeHidden rel n) (Glob root (Filepath.Join ["/"; search])).

Definition file_data (n : node) : outcome string string :=
  match resolve n with
  | Some (NFile _ _ data) => data
  | Some (NDir _) => Fail "is a directory"
  | _ => Fail "no such file or directory"
  end.

Definition addAppEmbeddedFiles (root : node) (goRel : string) (n : node) : outcome string (list string) :=
  data ← file_data n;
  concat_all (addGeneratorEmbeddedPatternFiles root (Paths.Dir goRel)) (parseGeneratorGoEmbedPatterns data).

(** ** Source files *)
Definition skipped_file (rel : string) (n : node) : bool :=
  negb (isGoWorkspaceSourceFile rel) || shouldSkipFile rel || shouldSkipSymlink n || shouldSkipNonRegularFile n.

Definition add_source (root : node) (rel : string) (n : node) : outcome string (list string) :=
  if skipped_file rel n then Ret []
  else if String.eqb (Filepath.Ext rel) ".go" then embedded ← addAppEmbeddedFiles root rel n; Ret (rel :: embedded)
  else Ret [rel].

Fixpoint walk_sources (root : node) (rel : string) (n : node) : outcome string (list string) :=
  match n with
  | NDir entries =>
    if negb (String.eqb rel "") && (shouldSkipDir rel || shouldSkipRuntimeArtifactDir rel) then Ret []
    else match entries with
    | Ret es => (fix go (es : list (string * node)) : outcome string (list string) :=
        match es with
        | [] => Ret []
        | (name, n) :: rest => a ← walk_sources root (Watch.join_rel rel name) n; b ← go rest; Ret (a ++ b)
        end) es
    | Fail e => Fail e
    | Panic e => Panic e
    end
  | _ => if String.eqb rel "" then Ret [] else add_source root rel n
  end.

Definition sortedKeys (l : list string) : list string := Router.sort_strings (elements (list_to_set l : gset string)).

Definition listSourceFiles (appRoot : node) : outcome string (list string) :=
  files ← walk_sources appRoot "" appRoot; Ret (sortedKeys files).

(** The node that a relative path names, links followed. *)
Fixpoint lookup_elems (n : node) (els : list string) : option node :=
  match els with
  | [] => resolve n
  | e :: els =>
    match resolve n with
    | Some (NDir (Ret es)) => match find (fun x => String.eqb x.1 e) es with Some (_, child) => lookup_elems child els | None => None end
    | _ => None
    end
  end.
Definition lookup_rel (root : node) (rel : string) : option node := lookup_elems root (Paths.elems rel).

Definition sourceStampFromInfo (n : node) : SourceStamp :=
  match n with NFile _ info _ => info | _ => {| Size := 0; ModTimeNano := 0; Perm := 493 |} end.
Definition stat_source (root : node) (rel : string) : option SourceStamp := sourceStampFromInfo <$> lookup_rel root rel.

(** ** The workspace *)
Abbreviation stamps := (gmap string SourceStamp).

Record buildState := {
  Version : string; DependencyFingerprint : string; SourceFingerprint : string; SourceMetadataFingerprint : string;
  GeneratorFingerprint : string; BuildFingerprint : string; GraphFingerprint : string; Metadata : string; APIEncoding : string;
  SourceStamps : stamps; GeneratedFiles : list string; GoBuildFlags : list string
}.
Definition no_state : buildState := {|
  Version := ""; DependencyFingerprint := ""; SourceFingerprint := ""; SourceMetadataFingerprint := ""; GeneratorFingerprint := "";
  BuildFingerprint := ""; GraphFingerprint := ""; Metadata := ""; APIEncoding := ""; SourceStamps := ∅; GeneratedFiles := []; GoBuildFlags := [] |}.

Definition buildStateFile : string := ".scenery-build-state.json".
Definition buildStateVersion : string := "4".

Record LatestBuildManifest := {
  m_Name : string; m_ID : string; m_Root : string; m_ConfigPath : string; Phase : string; WorkspaceDir : string; BinaryPath : string;
  WorkspaceExists : bool; BinaryExists : bool; m_BuildStatePath : string; BuildStateExists : bool; m_BuildStateVersion : string;
  m_DependencyFingerprint : string; m_GraphFingerprint : string; MetadataPresent : bool; APIEncodingPresent : bool;
  SourceFileCount : Z; GeneratedFileCount : Z
}.

(** [saved]: no state file, one that cannot be decoded, or the state. *)
Record workspace := {
  files : gmap string string; dirs : gset string; saved : option (outcome string buildState); latest : option LatestBuildManifest
}.
Definition with_files (w : workspace) (fs : gmap string string) (ds : gset string) : workspace :=
  {| files := fs; dirs := ds; saved := saved w; latest := latest w |}.

(** The directories above a path, the nearest first. *)
Fixpoint dirs_above (fuel : nat) (dir : string) : list string :=
  match fuel with
  | O => []
  | S fuel => if String.eqb dir "." || String.eqb dir "/" then [] else dir :: dirs_above fuel (Paths.Dir dir)
  end.
Definition parents (rel : string) : list string := dirs_above (S (String.length rel)) (Paths.Dir rel).

(** A file where a directory would have to be. *)
Definition blocked (w : workspace) (rel : string) : bool := existsb (fun d => bool_decide (is_Some (files w !! d))) (parents rel).

Definition exists_in (w : workspace) (rel : string) : bool := bool_decide (is_Some (files w !! rel)) || bool_decide (rel ∈ dirs w).

(** Whether [os.Stat] finds it; an error other than that it is missing. *)
Definition stat (w : workspace) (rel : string) : outcome string bool :=
  if exists_in w rel then Ret true else if blocked w rel then Fail "not a directory" else Ret false.

(** [os.MkdirAll], from the top. *)
Fixpoint mkdir_all (ds : list string) (w : workspace) : workspace * outcome string unit :=
  match ds with
  | [] => (w, Ret tt)
  | d :: ds => if decide (is_Some (files w !! d)) then (w, Fail "not a directory") else mkdir_all ds (with_files w (files w) ({[d]} ∪ dirs w))
  end.

Definition writeFileIfChanged (rel data : string) : Run workspace unit :=
  _ ← mkdir_all (rev (parents rel));
  w ← get;
  if decide (rel ∈ dirs w) then fail "is a directory"
  else if decide (files w !! rel = Some data) then mret tt
  else modify (fun w => with_files w (<[rel := data]> (files w)) (dirs w)).

Definition has_child (w : workspace) (d : string) : bool :=
  existsb (fun p => Strings.HasPrefix p (d +:+ "/")) (map fst (map_to_list (files w)) ++ elements (dirs w)).

(** [os.Remove]; a missing file is no error here. *)
Definition remove (rel : string) : Run workspace unit := fun w =>
  if decide (is_Some (files w !! rel)) then (with_files w (delete rel (files w)) (dirs w), Ret tt)
  else if decide (rel ∈ dirs w) then
    if has_child w rel then (w, Fail "directory not empty") else (with_files w (files w) (dirs w ∖ {[rel]}), Ret tt)
  else if blocked w rel then (w, Fail "not a directory") else (w, Ret tt).

Fixpoint each {A} (f : A -> Run workspace unit) (l : list A) : Run workspace unit :=
  match l with
  | [] => mret tt
  | x :: l => _ ← f x; each f l
  end.

(** ** What is not of the sources *)
Class BuildEnv := {
  sha256_hex : string -> string;                                       (** the digest as text *)
  generator : outcome string string;                                   (** [currentGeneratorFingerprint] *)
  repo_go_sum : outcome string (option string);                        (** go.sum of the scenery repository *)
  repo_root : string;                                                  (** the scenery repository *)
  modfile : Type; mod_Parse : string -> outcome string modfile; mod_AddRequire : modfile -> string -> string -> modfile * option string;
  mod_DropReplace : modfile -> string -> modfile; mod_AddReplace : modfile -> string -> string -> outcome string modfile; mod_Format : modfile -> outcome string string;
  rewrite_pgxpool : string -> string -> outcome string string;         (** the import of pgxpool replaced *)
  import_literals : string -> outcome string (list string);            (** the quoted imports of a file, as the parser has them *)
  run_go : list string -> Run workspace unit                           (** the go command in the workspace *)
}.

Section build.
Context {OO : AppConfig.ObjectOrder} {BE : BuildEnv} `{UnicodeTables}.

(** A map is visited in some order. *)
Definition visit {A} (m : gmap string A) : list (string * A) := AppConfig.visit (map_to_list m).

Definition pgxpoolPath : string := "github.com/jackc/pgx/v5/pgxpool".
Definition rewriteSceneryImports (path src : string) : outcome string string :=
  if Strings.Contains src pgxpoolPath then rewrite_pgxpool path src else Ret src.

Definition patchGoModData (data : string) : outcome string string :=
  file ← mod_Parse data;
  let '(file, err) := mod_AddRequire file "scenery.sh" "v0.0.0" in
  _ ← match err with
    | Some e => if Strings.Contains e "already exists" then Ret tt else Fail e
    | None => Ret tt
    end;
  (file ← mod_AddReplace (mod_DropReplace file "scenery.sh") "scenery.sh" repo_root; mod_Format file).

Definition goImports (src : string) : outcome string (list string) :=
  literals ← import_literals src; Ret (Router.sort_strings (map (fun v => Strings.Trim v Strconv.quote_byte) literals)).

Definition sourceFileData (root : node) (rel : string) : outcome string string :=
  data ← match lookup_rel root rel with Some n => file_data n | None => Fail "no such file or directory" end;
  if String.eqb rel "go.mod" then patchGoModData data
  else if String.eqb (Filepath.Ext rel) ".go" then rewriteSceneryImports rel data
  else Ret data.

(** ** Mirroring *)
Definition sourceFilesFromStamps (s : stamps) : list string := Router.sort_strings (map fst (map_to_list s)).

Definition sync_file (appRoot : node) (prevStamps : stamps) (skip : gset string) (rel : string) (stamp : SourceStamp) : Run workspace unit :=
  if decide (rel ∈ skip) then mret tt
  else
    w ← get;
    fresh ← (if decide (prevStamps !! rel = Some stamp) then lift (stat w rel) else mret false);
    if (fresh : bool) then mret tt
    else data ← lift (sourceFileData appRoot rel); writeFileIfChanged rel data.

Fixpoint sync_files (appRoot : node) (prevStamps : stamps) (skip : gset string) (l : list string) (acc : stamps) : Run workspace stamps :=
  match l with
  | [] => mret acc
  | rel :: l =>
    match stat_source appRoot rel with
    | None => sync_files appRoot prevStamps skip l acc
    | Some stamp => _ ← sync_file appRoot prevStamps skip rel stamp; sync_files appRoot prevStamps skip l (<[rel := stamp]> acc)
    end
  end.

Definition syncSourceFiles (appRoot : node) (prevStamps : stamps) (skip : gset string) : Run workspace (list string * stamps) :=
  currentFiles ← lift (listSourceFiles appRoot);
  s ← sync_files appRoot prevStamps skip currentFiles ∅;
  _ ← each (fun '(rel, _) => if decide (is_Some (s !! rel)) then mret tt else remove rel) (visit prevStamps);
  mret (sourceFilesFromStamps s, s).

Record Output := { Rewritten : gmap string string; Generated : gmap string string }.

Fixpoint rewrite_all (l : list (string * string)) (acc : gmap string string) : outcome string (gmap string string) :=
  match l with
  | [] => Ret acc
  | (rel, data) :: l =>
    data ← (if String.eqb (Filepath.Ext rel) ".go" then rewriteSceneryImports rel data else Ret data);
    rewrite_all l (<[rel := data]> acc)
  end.

Definition next_generated (gen : Output) : outcome string (gmap string string) :=
  r ← rewrite_all (visit (Rewritten gen)) ∅; Ret (Generated gen ∪ r).

Definition syncGeneratedFiles (gen : Output) (prev sourceFiles : list string) : Run workspace (list string) :=
  next ← lift (next_generated gen);
  _ ← each (fun '(rel, data) => writeFileIfChanged rel data) (visit next);
  _ ← each (fun rel =>
      if decide (is_Some (next !! rel)) then mret tt
      else if decide (rel ∈ sourceFiles) then mret tt
      else remove rel) prev;
  mret (Router.sort_strings (map fst (map_to_list next))).

(** What stays, apart from the files of the lists. *)
Definition kept_file (keep : list string) (rel : string) : bool :=
  existsb (String.eqb rel) keep || existsb (String.eqb rel) ["scenery-app"; ".scenery-workspace.lock"; buildStateFile; "go.sum"]
  || Strings.HasPrefix rel "scenery-app-".

Definition longer (a b : string) : bool := Nat.ltb (String.length b) (String.length a).

Definition removeUnexpectedFilesFromLists (sourceFiles generatedFiles : list string) : Run workspace unit :=
  let keep := sourceFiles ++ generatedFiles in
  let keepDirs := "." :: List.concat (map parents keep) in
  w ← get;
  _ ← each remove (List.filter (fun rel => negb (kept_file keep rel)) (map fst (map_to_list (files w))));
  each (fun d => if decide (d ∈ keepDirs) then mret tt else ignore (remove d))
    (sort_stable (fun a b => Nat.leb (String.length b) (String.length a)) (elements (dirs w))).

(** The lines of both go.sum files. *)
Definition sum_lines (text : string) : list string :=
  List.filter (fun l => negb (String.eqb l "")) (map Strings.TrimSpace (Strings.Split text (chr 10))).

Definition newline : string := String (chr 10) "".
Definition merged_sum (workspaceSum repoSum : string) : list string := sortedKeys (sum_lines workspaceSum ++ sum_lines repoSum).

Definition seedSceneryGoSum : Run workspace unit :=
  repoSum ← lift repo_go_sum;
  match repoSum with
  | None => mret tt
  | Some repoSum =>
    w ← get;
    if decide ("go.sum" ∈ dirs w) then fail "is a directory"
    else
      let merged := merged_sum (default "" (files w !! "go.sum")) repoSum in
      if bool_decide (merged = []) then mret tt else writeFileIfChanged "go.sum" (Strings.Join merged newline +:+ newline)
  end.

(** ** Fingerprints *)
Definition zero : string := Watch.zero.

Fixpoint octal_digits (fuel : nat) (n : Z) : string :=
  match fuel with
  | O => ""
  | S fuel => if n <? 8 then String (chr (48 + n)) "" else octal_digits fuel (n / 8) +:+ String (chr (48 + n mod 8)) ""
  end.
Definition octal (n : Z) : string := octal_digits 22 n.

Definition stamp_text (s : SourceStamp) : string := Strconv.Itoa (Size s) +:+ ":" +:+ Strconv.Itoa (ModTimeNano s) +:+ ":" +:+ octal (Perm s).
Definition sourceStampsFingerprint (s : stamps) : string :=
  sha256_hex (Strings.Join (map (fun rel => rel +:+ zero +:+ stamp_text (default {| Size := 0; ModTimeNano := 0; Perm := 0 |} (s !! rel)) +:+ zero) (sourceFilesFromStamps s)) "").

(** A path and its content, as they are hashed. *)
Definition hashed (rel data : string) : string := rel +:+ zero +:+ data +:+ zero.

Fixpoint hash_sources (root : node) (l : list string) : outcome string string :=
  match l with
  | [] => Ret ""
  | rel :: l => data ← sourceFileData root rel; rest ← hash_sources root l; Ret (hashed rel data +:+ rest)
  end.

(** The configuration file, if there is one. *)
Definition config_text (root : node) : outcome string string :=
  match lookup_rel root ".scenery.json" with
  | None => Ret ""
  | Some n => data ← file_data n; Ret (hashed ".scenery.json" data)
  end.

Definition currentAppSourceFingerprint (appRoot : node) : outcome string string :=
  fs ← listSourceFiles appRoot;
  config ← config_text appRoot;
  text ← hash_sources appRoot fs;
  Ret (sha256_hex (config +:+ text)).

Definition normalizeGoBuildFlags (flags : list string) : list string :=
  List.filter (fun f => negb (String.eqb f "")) (map Strings.TrimSpace flags).

(** [os.ReadFile]: [None] if there is none. *)
Definition read_file (w : workspace) (rel : string) : outcome string (option string) :=
  match files w !! rel with
  | Some data => Ret (Some data)
  | None => there ← stat w rel; if (there : bool) then Fail "is a directory" else Ret None
  end.

Fixpoint hash_files (w : workspace) (l : list string) : outcome string string :=
  match l with
  | [] => Ret ""
  | rel :: l =>
    data ← read_file w rel;
    rest ← hash_files w l;
    Ret (match data with Some data => hashed rel data +:+ rest | None => rest end)
  end.

Definition flags_text (flags : list string) : string :=
  "go_build_flags" +:+ zero +:+ Strings.Join (map (fun f => f +:+ zero) (normalizeGoBuildFlags flags)) "".

Definition workspaceBuildFingerprint (w : workspace) (flags : list string) (groups : list (list string)) : outcome string string :=
  let paths := sortedKeys (List.filter (fun rel => negb (String.eqb rel "")) (List.concat groups)) in
  text ← hash_files w paths; Ret (sha256_hex (flags_text flags +:+ text)).

Definition workspace_go_files (w : workspace) : list string :=
  Router.sort_strings (List.filter (fun rel => String.eqb (Filepath.Ext rel) ".go" && negb (existsb shouldSkipDir (parents rel))) (map fst (map_to_list (files w)))).

Fixpoint hash_imports (w : workspace) (l : list string) : outcome string string :=
  match l with
  | [] => Ret ""
  | rel :: l =>
    imports ← goImports (default "" (files w !! rel));
    rest ← hash_imports w l;
    Ret (rel +:+ zero +:+ Strings.Join (map (fun i => i +:+ zero) imports) "" +:+ rest)
  end.

Definition dependencyFingerprintFromWorkspace (w : workspace) : outcome string string :=
  let part name := match files w !! name with Some data => name +:+ zero +:+ data | None => "" end in
  text ← hash_imports w (workspace_go_files w);
  Ret (sha256_hex (part "go.mod" +:+ part "go.sum" +:+ text)).

(** ** Names *)

(** Runs of other characters become one dash. *)
Fixpoint label_loop (lastDash : bool) (rs : list Z) : string :=
  match rs with
  | [] => ""
  | r :: rs =>
    if ((97 <=? r) && (r <=? 122)) || ((48 <=? r) && (r <=? 57)) then String (chr r) (label_loop false rs)
    else if lastDash then label_loop true rs
    else String "-" (label_loop true rs)
  end.
Definition sanitizeWorkspaceLabel (value : string) : string :=
  Strings.Trim (label_loop false (Utf8.runes (Strings.TrimSpace (Strings.ToLower value)))) "-".

Definition workspaceDir (cacheRoot absRoot appName : string) : string :=
  let name := sanitizeWorkspaceLabel appName in
  let name := if String.eqb name "" then "app" else name in
  Filepath.Join [cacheRoot; "build"; name +:+ "-" +:+ Strings.stake 16 (sha256_hex absRoot)].

Definition workspaceBinaryName (absRoot buildFingerprint : string) : string :=
  if negb (String.eqb buildFingerprint "") then "scenery-app-" +:+ Strings.stake 16 buildFingerprint
  else "scenery-app-" +:+ Strings.stake 16 (sha256_hex absRoot).

Definition goBuildArgs (binary : string) (flags : list string) : list string :=
  ["build"] ++ normalizeGoBuildFlags flags ++ ["-buildvcs=false"; "-o"; binary; "./scenery_internal_main"].

(** ** Results *)
Record Result := {
  r_AppRoot : string; r_AppName : string; r_AppID : string; r_Dir : string; r_Binary : string; NeedsTidy : bool;
  r_DependencyFingerprint : string; r_SourceFingerprint : string; r_SourceMetadataFingerprint : string; r_GeneratorFingerprint : string;
  r_BuildFingerprint : string; r_GraphFingerprint : string; r_Metadata : string; r_APIEncoding : string; r_SourceFiles : list string;
  r_SourceStamps : stamps; r_GeneratedFiles : list string; ReuseCompiled : bool; r_GoBuildFlags : list string
}.

(** The application: its root as it is given and absolute, its name and id, its
    flags, and its workspace. *)
Record target := { appRoot : string; absRoot : string; Name : string; ID : string; GoFlags : list string; dir : string }.

Definition loadBuildState (w : workspace) : outcome string buildState := default (Ret no_state) (saved w).

Definition binary_name (t : target) (fingerprint : string) : string := workspaceBinaryName (absRoot t) fingerprint.
Definition binary_path (t : target) (fingerprint : string) : string := Filepath.Join [dir t; binary_name t fingerprint].

(** What a saved state says of a build. *)
Definition result_of_state (t : target) (s : buildState) (reuse : bool) : Result := {|
  r_AppRoot := appRoot t; r_AppName := Name t; r_AppID := ID t; r_Dir := dir t; r_Binary := binary_path t (BuildFingerprint s);
  NeedsTidy := false; r_DependencyFingerprint := DependencyFingerprint s; r_SourceFingerprint := SourceFingerprint s;
  r_SourceMetadataFingerprint := SourceMetadataFingerprint s; r_GeneratorFingerprint := GeneratorFingerprint s;
  r_BuildFingerprint := BuildFingerprint s; r_GraphFingerprint := GraphFingerprint s; r_Metadata := Metadata s; r_APIEncoding := APIEncoding s;
  r_SourceFiles := sourceFilesFromStamps (SourceStamps s); r_SourceStamps := SourceStamps s; r_GeneratedFiles := GeneratedFiles s;
  ReuseCompiled := reuse; r_GoBuildFlags := normalizeGoBuildFlags (GoFlags t) |}.

Definition LoadReusableBinary (t : target) (tree : node) (w : workspace) : outcome string (option Result) :=
  sourceFingerprint ← currentAppSourceFingerprint tree;
  generatorFingerprint ← generator;
  s ← loadBuildState w;
  if negb (String.eqb (Version s) buildStateVersion) || String.eqb (SourceFingerprint s) "" || negb (String.eqb (SourceFingerprint s) sourceFingerprint)
     || String.eqb (GeneratorFingerprint s) "" || negb (String.eqb (GeneratorFingerprint s) generatorFingerprint) || String.eqb (BuildFingerprint s) ""
     || negb (bool_decide (GoBuildFlags s = normalizeGoBuildFlags (GoFlags t))) then Ret None
  else if negb (exists_in w (binary_name t (BuildFingerprint s))) then Ret None
  else Ret (Some (result_of_state t s true)).

Definition main_file : string := "scenery_internal_main/main.go".

Definition LoadCachedGraph (t : target) (w : workspace) (graphFingerprint : string) : outcome string (option Result) :=
  s ← loadBuildState w;
  if negb (String.eqb (Version s) buildStateVersion) then Ret None
  else if String.eqb (GraphFingerprint s) "" || negb (String.eqb (GraphFingerprint s) graphFingerprint) then Ret None
  else
    generatorFingerprint ← generator;
    if String.eqb (GeneratorFingerprint s) "" || negb (String.eqb (GeneratorFingerprint s) generatorFingerprint) then Ret None
    else if negb (bool_decide (GoBuildFlags s = normalizeGoBuildFlags (GoFlags t))) then Ret None
    else if negb (exists_in w main_file) then Ret None
    else if String.eqb (BuildFingerprint s) "" then Ret None
    else Ret (Some (result_of_state t s false)).

(** ** The manifest of the last build *)
Definition json_name : string := ".scenery.json".
Definition WriteLatestBuildManifest (t : target) (r : Result) (phase : string) : Run workspace unit :=
  if String.eqb (r_AppRoot r) "" then fail "missing app root for latest build manifest"
  else
    w ← get;
    s ← lift (loadBuildState w);
    modify (fun w => {| files := files w; dirs := dirs w; saved := saved w; latest := Some {|
      m_Name := r_AppName r; m_ID := r_AppID r; m_Root := r_AppRoot r; m_ConfigPath := Filepath.Join [r_AppRoot r; json_name]; Phase := phase;
      WorkspaceDir := r_Dir r; BinaryPath := r_Binary r; WorkspaceExists := true; BinaryExists := exists_in w (binary_name t (r_BuildFingerprint r));
      m_BuildStatePath := Filepath.Join [dir t; buildStateFile]; BuildStateExists := bool_decide (is_Some (saved w)); m_BuildStateVersion := Version s;
      m_DependencyFingerprint := DependencyFingerprint s; m_GraphFingerprint := GraphFingerprint s; MetadataPresent := negb (String.eqb (Metadata s) "");
      APIEncodingPresent := negb (String.eqb (APIEncoding s) ""); SourceFileCount := Z.of_nat (size (SourceStamps s));
      GeneratedFileCount := Z.of_nat (length (GeneratedFiles s)) |} |}).

(** ** Building *)
Definition Prepare (t : target) (tree : node) (gen : outcome string Output) : Run workspace Result :=
  let goBuildFlags := normalizeGoBuildFlags (GoFlags t) in
  gen ← lift gen;
  w ← get;
  s ← lift (loadBuildState w);
  sourceFingerprint ← lift (currentAppSourceFingerprint tree);
  '(sourceFiles, sourceStamps) ← syncSourceFiles tree (SourceStamps s) ∅;
  generatedFiles ← syncGeneratedFiles gen (GeneratedFiles s) sourceFiles;
  _ ← removeUnexpectedFilesFromLists sourceFiles generatedFiles;
  _ ← seedSceneryGoSum;
  generatorFingerprint ← lift generator;
  w ← get;
  depFingerprint ← lift (dependencyFingerprintFromWorkspace w);
  buildFingerprint ← lift (workspaceBuildFingerprint w goBuildFlags [sourceFiles; generatedFiles]);
  let r := {|
    r_AppRoot := appRoot t; r_AppName := Name t; r_AppID := ID t; r_Dir := dir t; r_Binary := binary_path t buildFingerprint;
    NeedsTidy := negb (String.eqb (DependencyFingerprint s) depFingerprint); r_DependencyFingerprint := depFingerprint;
    r_SourceFingerprint := sourceFingerprint; r_SourceMetadataFingerprint := sourceStampsFingerprint sourceStamps;
    r_GeneratorFingerprint := generatorFingerprint; r_BuildFingerprint := buildFingerprint; r_GraphFingerprint := ""; r_Metadata := "";
    r_APIEncoding := ""; r_SourceFiles := sourceFiles; r_SourceStamps := sourceStamps; r_GeneratedFiles := generatedFiles;
    ReuseCompiled := negb (String.eqb buildFingerprint "") && exists_in w (binary_name t buildFingerprint); r_GoBuildFlags := goBuildFlags |} in
  _ ← WriteLatestBuildManifest t r "prepared";
  mret r.

(** The generated files must all be there; [None] if one is not. *)
Fixpoint all_there (w : workspace) (l : list string) : outcome string bool :=
  match l with
  | [] => Ret true
  | rel :: l => there ← stat w rel; if (there : bool) then all_there w l else Ret false
  end.

Definition RefreshCachedWorkspace (t : target) (tree : node) (r : Result) : Run workspace (option Result) :=
  w ← get;
  ok ← lift (all_there w (r_GeneratedFiles r));
  if negb (ok : bool) then mret None
  else
    '(sourceFiles, sourceStamps) ← syncSourceFiles tree (r_SourceStamps r) (list_to_set (r_GeneratedFiles r));
    _ ← removeUnexpectedFilesFromLists sourceFiles (r_GeneratedFiles r);
    _ ← seedSceneryGoSum;
    w ← get;
    depFingerprint ← lift (dependencyFingerprintFromWorkspace w);
    buildFingerprint ← lift (workspaceBuildFingerprint w (r_GoBuildFlags r) [sourceFiles; r_GeneratedFiles r]);
    mret (Some {|
      r_AppRoot := r_AppRoot r; r_AppName := r_AppName r; r_AppID := r_AppID r; r_Dir := r_Dir r; r_Binary := binary_path t buildFingerprint;
      NeedsTidy := negb (String.eqb (r_DependencyFingerprint r) depFingerprint); r_DependencyFingerprint := depFingerprint;
      r_SourceFingerprint := r_SourceFingerprint r; r_SourceMetadataFingerprint := sourceStampsFingerprint sourceStamps;
      r_GeneratorFingerprint := r_GeneratorFingerprint r; r_BuildFingerprint := buildFingerprint; r_GraphFingerprint := r_GraphFingerprint r;
      r_Metadata := r_Metadata r; r_APIEncoding := r_APIEncoding r; r_SourceFiles := sourceFiles; r_SourceStamps := sourceStamps;
      r_GeneratedFiles := r_GeneratedFiles r; ReuseCompiled := exists_in w (binary_name t buildFingerprint); r_GoBuildFlags := r_GoBuildFlags r |}).

Definition state_of_result (r : Result) : buildState := {|
  Version := buildStateVersion; DependencyFingerprint := r_DependencyFingerprint r; SourceFingerprint := r_SourceFingerprint r;
  SourceMetadataFingerprint := r_SourceMetadataFingerprint r; GeneratorFingerprint := r_GeneratorFingerprint r;
  BuildFingerprint := r_BuildFingerprint r; GraphFingerprint := r_GraphFingerprint r; Metadata := r_Metadata r; APIEncoding := r_APIEncoding r;
  SourceStamps := r_SourceStamps r; GeneratedFiles := r_GeneratedFiles r; GoBuildFlags := r_GoBuildFlags r |}.

Definition saveBuildState (s : buildState) : Run workspace unit :=
  modify (fun w => {| files := files w; dirs := dirs w; saved := Some (Ret s); latest := latest w |}).

Definition savePrimedWorkspace (t : target) (r : Result) : Run workspace unit :=
  _ ← saveBuildState (state_of_result r);
  WriteLatestBuildManifest t r "primed".

(** The result after its dependencies were found. *)
Definition tidied (r : Result) (fingerprint : string) : Result := {|
  r_AppRoot := r_AppRoot r; r_AppName := r_AppName r; r_AppID := r_AppID r; r_Dir := r_Dir r; r_Binary := r_Binary r; NeedsTidy := false;
  r_DependencyFingerprint := fingerprint; r_SourceFingerprint := r_SourceFingerprint r;
  r_SourceMetadataFingerprint := r_SourceMetadataFingerprint r; r_GeneratorFingerprint := r_GeneratorFingerprint r;
  r_BuildFingerprint := r_BuildFingerprint r; r_GraphFingerprint := r_GraphFingerprint r; r_Metadata := r_Metadata r;
  r_APIEncoding := r_APIEncoding r; r_SourceFiles := r_SourceFiles r; r_SourceStamps := r_SourceStamps r;
  r_GeneratedFiles := r_GeneratedFiles r; ReuseCompiled := ReuseCompiled r; r_GoBuildFlags := r_GoBuildFlags r |}.

Definition tidyWorkspace (r : Result) : Run workspace Result :=
  _ ← run_go ["mod"; "tidy"];
  w ← get;
  fingerprint ← lift (dependencyFingerprintFromWorkspace w);
  mret (tidied r fingerprint).

Definition PrimeWorkspaceContext (t : target) (r : Result) : Run workspace Result :=
  r ← (if NeedsTidy r then tidyWorkspace r else mret r);
  _ ← savePrimedWorkspace t r;
  mret r.

Definition goBuildNeedsWorkspaceTidy (text : string) : bool :=
  Strings.Contains text "missing go.sum entry" || Strings.Contains text "updates to go.mod needed" || Strings.Contains text "go.mod updates are needed".

Definition CompileContext (t : target) (r : Result) : Run workspace Result :=
  if ReuseCompiled r then
    let r := tidied r (r_DependencyFingerprint r) in
    _ ← savePrimedWorkspace t r;
    _ ← WriteLatestBuildManifest t r "compiled";
    mret r
  else
    _ ← (if NeedsTidy r then mret tt else savePrimedWorkspace t r);
    built ← attempt (run_go (goBuildArgs (r_Binary r) (r_GoBuildFlags r)));
    r ← match built with
      | Ret _ => mret r
      | Fail e | Panic e =>
        if NeedsTidy r || goBuildNeedsWorkspaceTidy e then
          r ← tidyWorkspace r;
          _ ← savePrimedWorkspace t r;
          _ ← run_go (goBuildArgs (r_Binary r) (r_GoBuildFlags r));
          mret r
        else fail e
      end;
    r ← (if NeedsTidy r then
        w ← get;
        fingerprint ← lift (dependencyFingerprintFromWorkspace w);
        let r := tidied r fingerprint in
        _ ← savePrimedWorkspace t r;
        mret r
      else mret r);
    _ ← WriteLatestBuildManifest t r "compiled";
    mret r.
End build.
End Build.
