(* ===== verification/BuildProofs.v ===== *)
(** * Build workspaces: what is built is what is there

    [BuildProofs] proves that preparing a workspace makes it the mirror of the
    sources with the generated files over them and nothing else
    ([workspace_mirrors]), from a saved state that is honest about the workspace
    to one that is again; and that a binary that was compiled is found again as
    long as sources, generator and flags are the same, and not otherwise
    ([compiled_reusable]). *)
From stdpp Require Import base tactics list gmap strings.
From Stdlib Require Import ZArith Lia Ascii.
From S2P Require Import Prelude GoStrings Router Paths Globs AppConfig StateM Watch Build.
Import StateM Build.

Module BuildProofs.
(** ** Operations on the workspace *)

(** No path is a file and a directory. *)
Definition wf (w : workspace) : Prop := forall rel, is_Some (files w !! rel) -> (rel ∉ dirs w).

Lemma mkdir_all_spec ds : forall w w', mkdir_all ds w = (w', Ret tt) ->
  files w' = files w /\ saved w' = saved w /\ latest w' = latest w /\ dirs w ⊆ dirs w' /\ (forall d, d ∈ dirs w' -> d ∈ dirs w \/ d ∈ ds) /\ (wf w -> wf w').
Proof.
  induction ds as [|d ds IH]; intros w w' E; cbn [mkdir_all] in E.
  { injection E as <-. split_and!; auto. }
  destruct (decide (is_Some (files w !! d))) as [|Hd]; [done|]. apply IH in E as (Hf & Hs & Hl & Hsub & Hnew & Hwf). cbn in *.
  split_and!; [done|done|done|set_solver|intros x Hx; destruct (Hnew x Hx); set_solver|].
  intros Hw. apply Hwf. intros rel Hrel. cbn in *. apply not_elem_of_union. split; [|by apply Hw]. intros ->%elem_of_singleton. done.
Qed.

Lemma write_spec rel data w w' : writeFileIfChanged rel data w = (w', Ret tt) ->
  files w' = <[rel := data]> (files w) /\ saved w' = saved w /\ (forall d, d ∈ dirs w' -> d ∈ dirs w \/ d ∈ parents rel) /\ (wf w -> wf w').
Proof.
  unfold writeFileIfChanged. intros E. apply bind_returns in E as (w1 & [] & Em & E). apply mkdir_all_spec in Em as (Hf & Hs & _ & _ & Hl & Hw).
  assert (Hl' : forall d, d ∈ dirs w1 -> d ∈ dirs w \/ d ∈ parents rel) by (intros d Hd; destruct (Hl d Hd) as [|Hr]; [by left|right; apply list_elem_of_In, in_rev; by apply list_elem_of_In]).
  apply bind_returns in E as (w2 & w3 & [= -> ->] & E). destruct (decide (rel ∈ dirs w3)) as [|Hd]; [done|].
  destruct (decide (files w3 !! rel = Some data)) as [He|He].
  - injection E as <-. rewrite Hf in He. split_and!; [by rewrite Hf, insert_id|done|done|done].
  - injection E as <-. cbn. rewrite Hf. split_and!; [done|done|done|]. intros Hwf rel' Hrel'. cbn in *. destruct (decide (rel' = rel)) as [->|Hne]; [done|].
    rewrite lookup_insert_ne in Hrel' by done. by apply Hw; [|rewrite Hf].
Qed.

Lemma remove_spec rel w w' : remove rel w = (w', Ret tt) ->
  files w' = delete rel (files w) /\ saved w' = saved w /\ latest w' = latest w /\ (wf w -> wf w').
Proof.
  unfold remove. intros E. destruct (decide (is_Some (files w !! rel))) as [Hr|Hr].
  - injection E as <-. cbn. split_and!; try done. intros Hw x Hx. cbn in *. apply Hw. apply lookup_delete_is_Some in Hx. tauto.
  - assert (Hn : delete rel (files w) = files w) by (apply delete_id; by destruct (files w !! rel); [destruct Hr|]).
    destruct (decide (rel ∈ dirs w)).
    + destruct (has_child w rel); [done|]. injection E as <-. cbn. split_and!; try done. intros Hw x Hx. cbn in *. specialize (Hw x Hx). set_solver.
    + destruct (blocked w rel); [done|]. injection E as <-. by split_and!.
Qed.

(** A rule for loops: each step keeps what is related. *)
Lemma each_spec {A} (f : A -> Run workspace unit) (R : list A -> workspace -> Prop) (l : list A) :
  (forall done x w w', x ∈ l -> R done w -> f x w = (w', Ret tt) -> R (done ++ [x]) w') ->
  forall acc w w', R acc w -> each f l w = (w', Ret tt) -> R (acc ++ l) w'.
Proof.
  induction l as [|x l IH]; intros Hstep acc w w' HR E; cbn [each] in E.
  - injection E as <-. by rewrite app_nil_r.
  - apply bind_returns in E as (w1 & [] & Ex & E). assert (acc ++ x :: l = (acc ++ [x]) ++ l) as -> by (by rewrite <- app_assoc).
    eapply IH; [|by eapply Hstep; [left|..]|done]. intros acc' y w2 w3 Hy. apply Hstep. by right.
Qed.

(** Removing some files: the others stay. *)
Lemma each_remove {A} (f : A -> Run workspace unit) (g : A -> option string) (l : list A) w w' :
  (forall x w w', f x w = (w', Ret tt) -> match g x with
     | Some rel => files w' = delete rel (files w) /\ saved w' = saved w /\ latest w' = latest w /\ (wf w -> wf w')
     | None => w' = w end) ->
  each f l w = (w', Ret tt) ->
  (forall p, (p ∈ omap g l -> files w' !! p = None) /\ ((p ∉ omap g l) -> files w' !! p = files w !! p)) /\ saved w' = saved w /\ (wf w -> wf w').
Proof.
  intros Hf E.
  refine (each_spec f (fun acc w' => (forall p, (p ∈ omap g acc -> files w' !! p = None) /\ ((p ∉ omap g acc) -> files w' !! p = files w !! p))
    /\ saved w' = saved w /\ (wf w -> wf w')) l _ [] w w' _ E).
  - intros acc x w1 w2 _ (HR & Hs & Hw) Ex. specialize (Hf x w1 w2 Ex). rewrite omap_app. cbn [omap list_omap]. destruct (g x) as [rel|].
    + destruct Hf as (Hfl & Hsv & _ & Hwf). split_and!; [|by rewrite Hsv|by auto]. intros p. rewrite Hfl. destruct (HR p) as [H1 H2]. destruct (decide (p = rel)) as [->|Hne].
      * rewrite lookup_delete_eq. set_solver.
      * rewrite lookup_delete_ne by done. set_solver.
    + subst w2. rewrite app_nil_r. by split_and!.
  - split_and!; [|done|done]. intros p. cbn. set_solver.
Qed.

Lemma ignore_remove d w : exists w', ignore (remove d) w = (w', Ret tt) /\ (d ∉ dom (files w) -> files w' = files w) /\ saved w' = saved w /\ (wf w -> wf w').
Proof.
  unfold ignore. eexists. split; [done|]. destruct (remove d w) as [w1 [[]|e|e]] eqn:E; cbn.
  - apply remove_spec in E as (Hf & Hs & _ & Hw). split_and!; [|done|done]. intros Hd. rewrite Hf. apply delete_id. by apply not_elem_of_dom.
  - unfold remove in E. repeat case_decide; repeat case_match; simplify_eq; by split_and!.
  - unfold remove in E. repeat case_decide; repeat case_match; by simplify_eq.
Qed.

Section mirror.
Context {OO : AppConfig.ObjectOrder} {BE : BuildEnv}.

Lemma sync_file_spec tree prev skip rel st w w' : sync_file tree prev skip rel st w = (w', Ret tt) ->
  saved w' = saved w /\ (wf w -> wf w') /\ (forall d, d ∈ dirs w' -> d ∈ dirs w \/ d ∈ parents rel) /\ (forall p, p <> rel -> files w' !! p = files w !! p)
  /\ (rel ∈ skip -> files w' = files w)
  /\ ((rel ∉ skip) -> (files w' = files w /\ prev !! rel = Some st /\ exists_in w rel = true) \/ exists d, sourceFileData tree rel = Ret d /\ files w' = <[rel := d]> (files w)).
Proof.
  unfold sync_file. intros E. destruct (decide (rel ∈ skip)); [injection E as <-; split_and!; auto; done|].
  apply bind_returns in E as (w1 & w2 & [= <- <-] & E). apply bind_returns in E as (w1 & fresh & Ef & E).
  assert (w1 = w) as -> by (destruct (decide (prev !! rel = Some st)); by injection Ef).
  destruct fresh.
  - injection E as <-. split_and!; [done|done|by left|done|done|]. intros _. left. split_and!; [done| |].
    + destruct (decide (prev !! rel = Some st)); [done|by injection Ef].
    + destruct (decide (prev !! rel = Some st)); [|by injection Ef]. cbn in Ef. injection Ef as Ef. unfold stat in Ef. destruct (exists_in w rel); [done|]. by destruct (blocked w rel).
  - apply bind_returns in E as (w1 & d & Ed & E). cbn in Ed. injection Ed as <- Ed. apply write_spec in E as (Hf & Hs & Hd & Hw).
    split_and!; [done|done|done| |done|intros _; right; by exists d]. intros p Hp. rewrite Hf. by rewrite lookup_insert_ne.
Qed.

(** No file is where a directory of another has to be. *)
Definition no_nesting (l : list string) : Prop := forall a b, a ∈ l -> b ∈ l -> (a ∉ parents b).

Lemma sync_files_spec tree prev skip L l : forall acc w w' s, l ⊆ L -> NoDup l -> no_nesting L ->
  (forall p, p ∈ L -> prev !! p = stat_source tree p -> is_Some (prev !! p) -> (p ∉ dirs w)) ->
  sync_files tree prev skip l acc w = (w', Ret s) ->
  saved w' = saved w /\ (wf w -> wf w')
  /\ (forall p st, p ∈ l -> stat_source tree p = Some st -> s !! p = Some st) /\ (forall p, ((p ∉ l) \/ stat_source tree p = None) -> s !! p = acc !! p)
  /\ (forall p, ((p ∉ l) \/ stat_source tree p = None \/ p ∈ skip) -> files w' !! p = files w !! p)
  /\ (forall p st, p ∈ l -> stat_source tree p = Some st -> (p ∉ skip) ->
      (exists d, sourceFileData tree p = Ret d /\ files w' !! p = Some d) \/ (prev !! p = Some st /\ files w' !! p = files w !! p /\ is_Some (files w !! p))).
Proof.
  induction l as [|rel l IH]; intros acc w w' s Hl Hnd Hnest Hdir E; cbn [sync_files] in E.
  { injection E as <- <-. split_and!; auto; intros p st Hp; by apply elem_of_nil in Hp. }
  apply NoDup_cons in Hnd as [Hrel Hnd]. assert (Hrl : rel ∈ L) by (apply Hl; left). assert (Hl' : l ⊆ L) by (intros x Hx; apply Hl; by right).
  destruct (stat_source tree rel) as [st|] eqn:Est.
  - apply bind_returns in E as (w1 & [] & Ex & E). apply sync_file_spec in Ex as (Hs1 & Hw1 & Hd1 & Ho1 & Hsk1 & Hf1).
    apply IH in E as (Hs2 & Hw2 & Hst2 & Hsn2 & Ho2 & Hf2); [|done|done|done|].
    2: { intros p Hp Hpp Hsome Hin. destruct (Hd1 p Hin) as [Hin'|Hin']; [by eapply Hdir|exact (Hnest p rel Hp Hrl Hin')]. }
    split_and!; [by rewrite Hs2|auto| | | |].
    + intros p st' [->|Hp]%elem_of_cons Hst; [|by apply Hst2]. rewrite Hsn2 by (by left). rewrite lookup_insert_eq. congruence.
    + intros p Hp. rewrite not_elem_of_cons in Hp. destruct (decide (p = rel)) as [->|Hne]; [exfalso; destruct Hp as [[]|]; congruence|].
      rewrite Hsn2 by tauto. by rewrite lookup_insert_ne.
    + intros p Hp. destruct (decide (p = rel)) as [->|Hne].
      * rewrite Ho2 by (by left). destruct Hp as [Hp|[Hp|Hp]]; [exfalso; apply Hp; left|congruence|]. by rewrite Hsk1.
      * rewrite Ho2; [by apply Ho1|]. rewrite not_elem_of_cons in Hp. tauto.
    + intros p st' Hp Hst Hsk. destruct (decide (p = rel)) as [->|Hne].
      * rewrite (Ho2 rel) by (by left). assert (st' = st) as -> by congruence. destruct (Hf1 Hsk) as [(Hf & Hpv & Hex)|(d & Hd & Hf)].
        -- right. rewrite Hf. split_and!; [done|done|]. unfold exists_in in Hex. apply orb_true_iff in Hex as [Hex|Hex]; apply bool_decide_eq_true in Hex; [done|].
           exfalso. apply (Hdir rel); [done|by rewrite Hpv|by rewrite Hpv|done].
        -- left. exists d. split; [done|]. rewrite Hf. apply lookup_insert_eq.
      * apply elem_of_cons in Hp as [?|Hp]; [done|]. destruct (Hf2 p st' Hp Hst Hsk) as [|(H1 & H2 & H3)]; [by left|]. right. rewrite Ho1 in H2, H3 by done. by split_and!.
  - apply IH in E as (Hs2 & Hw2 & Hst2 & Hsn2 & Ho2 & Hf2); [|done|done|done|done]. split_and!; [done|done| | | |].
    + intros p st' [->|Hp]%elem_of_cons Hst; [congruence|by apply Hst2].
    + intros p Hp. rewrite not_elem_of_cons in Hp. apply Hsn2. destruct (decide (p = rel)) as [->|]; tauto.
    + intros p Hp. apply Ho2. rewrite not_elem_of_cons in Hp. destruct (decide (p = rel)) as [->|]; tauto.
    + intros p st' [->|Hp]%elem_of_cons Hst Hsk; [congruence|]. by apply Hf2.
Qed.

Lemma sortedKeys_elem l p : p ∈ sortedKeys l <-> p ∈ l.
Proof. unfold sortedKeys, Router.sort_strings. rewrite sort_stable_perm, elem_of_elements, elem_of_list_to_set. done. Qed.
Lemma sortedKeys_NoDup l : NoDup (sortedKeys l).
Proof. unfold sortedKeys, Router.sort_strings. rewrite sort_stable_perm. apply NoDup_elements. Qed.

Lemma keys_elem {A} (m : gmap string A) p : p ∈ Router.sort_strings (map fst (map_to_list m)) <-> is_Some (m !! p).
Proof.
  unfold Router.sort_strings. rewrite sort_stable_perm. split.
  - intros ([q x] & -> & Hx)%list_elem_of_fmap. apply elem_of_map_to_list in Hx. by exists x.
  - intros [x Hx]. apply list_elem_of_fmap. exists (p, x). split; [done|]. by apply elem_of_map_to_list.
Qed.

Lemma visit_elem {A} (m : gmap string A) p x : (p, x) ∈ visit m <-> m !! p = Some x.
Proof. unfold visit. rewrite AppConfig.visit_perm. apply elem_of_map_to_list. Qed.

(** What a path holds after the sources were mirrored. *)
Definition mirrored (tree : node) (prev : stamps) (skip : gset string) (w w' : workspace) (p : string) : Prop :=
  match stat_source tree p with
  | Some st => (p ∈ skip /\ files w' !! p = files w !! p) \/ (exists d, sourceFileData tree p = Ret d /\ files w' !! p = Some d)
               \/ (prev !! p = Some st /\ files w' !! p = files w !! p /\ is_Some (files w !! p))
  | None => True
  end.

Lemma syncSourceFiles_spec tree prev skip w w' fs s l : listSourceFiles tree = Ret l -> no_nesting l ->
  (forall p, p ∈ l -> prev !! p = stat_source tree p -> is_Some (prev !! p) -> (p ∉ dirs w)) ->
  syncSourceFiles tree prev skip w = (w', Ret (fs, s)) ->
  fs = sourceFilesFromStamps s /\ saved w' = saved w /\ (wf w -> wf w')
  /\ (forall p, s !! p = if decide (p ∈ l) then stat_source tree p else None)
  /\ (forall p, is_Some (s !! p) -> mirrored tree prev skip w w' p)
  /\ (forall p, s !! p = None -> files w' !! p = match prev !! p with Some _ => None | None => files w !! p end).
Proof.
  intros Hl Hnest Hdir E. unfold syncSourceFiles in E. rewrite Hl in E. cbn in E.
  apply bind_returns in E as (w0 & l0 & [= <- <-] & E). apply bind_returns in E as (w1 & s1 & Es & E).
  apply (sync_files_spec tree prev skip l) in Es as (Hs1 & Hw1 & Hst1 & Hsn1 & Ho1 & Hf1); [|done| |done|done].
  2: { unfold listSourceFiles in Hl. destruct (walk_sources tree "" tree); [|done..]. injection Hl as <-. apply sortedKeys_NoDup. }
  apply bind_returns in E as (w2 & [] & Er & E). injection E as <- <- <-.
  apply (each_remove _ (fun '(rel, _) => if decide (is_Some (s1 !! rel)) then None else Some rel)) in Er as (Hf2 & Hs2 & Hw2).
  2: { intros [rel st] u u' Eu. destruct (decide (is_Some (s1 !! rel))); [by injection Eu|]. by apply remove_spec. }
  assert (Hom : forall p, p ∈ omap (fun '(rel, _) => if decide (is_Some (s1 !! rel)) then None else Some rel) (visit prev) <-> is_Some (prev !! p) /\ s1 !! p = None).
  { intros p. rewrite list_elem_of_omap. split.
    - intros ([q st] & Hin & Hq). apply visit_elem in Hin. destruct (decide (is_Some (s1 !! q))) as [|Hn]; [done|]. injection Hq as ->. split; [by exists st|]. by apply eq_None_not_Some.
    - intros [[st Hst] Hn]. exists (p, st). split; [by apply visit_elem|]. rewrite Hn. rewrite decide_False; [done|]. by intros [? ?]. }
  assert (Hs : forall p, s1 !! p = if decide (p ∈ l) then stat_source tree p else None).
  { intros p. destruct (decide (p ∈ l)) as [Hin|Hin]; [|rewrite Hsn1 by (by left); apply lookup_empty].
    destruct (stat_source tree p) as [st|] eqn:Est; [by apply Hst1|]. rewrite Hsn1 by (by right). apply lookup_empty. }
  split_and!; [done|congruence|auto|done| |].
  - intros p [st Hp]. destruct (Hf2 p) as [_ Hf2']. unfold mirrored. rewrite Hs in Hp. destruct (decide (p ∈ l)) as [Hin|]; [|done]. rewrite Hp.
    rewrite Hf2' by (rewrite Hom, Hs, decide_True, Hp by done; by intros [_ ?]).
    destruct (decide (p ∈ skip)) as [Hsk|Hsk]; [left; split; [done|]; apply Ho1; tauto|right]. by apply Hf1.
  - intros p Hp. destruct (Hf2 p) as [Ha Hb]. destruct (prev !! p) as [st|] eqn:Epv.
    + apply Ha. rewrite Hom. by rewrite Epv.
    + rewrite Hb by (rewrite Hom, Epv; by intros [[? ?] ?]). apply Ho1. rewrite Hs in Hp. destruct (decide (p ∈ l)); tauto.
Qed.

Lemma syncGeneratedFiles_spec gen prev sources w w' out : syncGeneratedFiles gen prev sources w = (w', Ret out) ->
  exists next, next_generated gen = Ret next /\ (forall p, p ∈ out <-> is_Some (next !! p)) /\ saved w' = saved w /\ (wf w -> wf w')
  /\ (forall p, files w' !! p = match next !! p with Some d => Some d | None => if decide (p ∈ prev /\ (p ∉ sources)) then None else files w !! p end).
Proof.
  unfold syncGeneratedFiles. intros E. apply bind_returns in E as (w0 & next & En & E). cbn in En. injection En as <- En.
  apply bind_returns in E as (w1 & [] & Ew & E). apply bind_returns in E as (w2 & [] & Er & E). injection E as <- <-.
  exists next. split; [done|]. split; [intros p; apply keys_elem|].
  assert (H1 : (forall p, ((exists d, (p, d) ∈ visit next) -> files w1 !! p = next !! p) /\ (~ (exists d, (p, d) ∈ visit next) -> files w1 !! p = files w !! p)) /\ saved w1 = saved w /\ (wf w -> wf w1)).
  { refine (each_spec _ (fun acc u => (forall p, ((exists d, (p, d) ∈ acc) -> files u !! p = next !! p) /\ (~ (exists d, (p, d) ∈ acc) -> files u !! p = files w !! p))
      /\ saved u = saved w /\ (wf w -> wf u)) (visit next) _ [] w w1 _ Ew).
    - intros acc [rel d] u u' Hin (HR & Hs & Hw) Eu. apply write_spec in Eu as (Hf & Hsv & _ & Hwf). apply visit_elem in Hin. split_and!; [|congruence|auto].
      intros p. rewrite Hf. destruct (HR p) as [Ha Hb]. destruct (decide (p = rel)) as [->|Hne].
      + rewrite lookup_insert_eq. split; [done|]. intros Hno. exfalso. apply Hno. exists d. apply elem_of_app. right. by apply list_elem_of_singleton.
      + rewrite lookup_insert_ne by done. split.
        * intros [x [Hx|[= -> _]%list_elem_of_singleton]%elem_of_app]; [|done]. apply Ha. by exists x.
        * intros Hno. apply Hb. intros [x Hx]. apply Hno. exists x. apply elem_of_app. by left.
    - split_and!; [|done|done]. intros p. split; [by intros [? ?%elem_of_nil]|done]. }
  destruct H1 as (Hf1 & Hs1 & Hw1).
  apply (each_remove _ (fun rel => if decide (is_Some (next !! rel)) then None else if decide (rel ∈ sources) then None else Some rel)) in Er as (Hf2 & Hs2 & Hw2).
  2: { intros rel u u' Eu. destruct (decide (is_Some (next !! rel))); [by injection Eu|]. destruct (decide (rel ∈ sources)); [by injection Eu|]. by apply remove_spec. }
  split_and!; [congruence|auto|]. intros p. destruct (Hf2 p) as [Ha Hb]. destruct (Hf1 p) as [Hc Hd].
  assert (Hom : p ∈ omap (fun rel => if decide (is_Some (next !! rel)) then None else if decide (rel ∈ sources) then None else Some rel) prev <-> p ∈ prev /\ next !! p = None /\ (p ∉ sources)).
  { rewrite list_elem_of_omap. split.
    - intros (q & Hin & Hq). destruct (decide (is_Some (next !! q))) as [|Hn]; [done|]. destruct (decide (q ∈ sources)); [done|]. injection Hq as ->. split_and!; [done|by apply eq_None_not_Some|done].
    - intros (Hin & Hn & Hns). exists p. split; [done|]. rewrite decide_False by (rewrite Hn; by intros [? ?]). by rewrite decide_False. }
  destruct (next !! p) as [d|] eqn:Enx.
  - rewrite Hb by (rewrite Hom; naive_solver). apply Hc. exists d. by apply visit_elem.
  - destruct (decide (p ∈ prev /\ (p ∉ sources))) as [[Hp1 Hp2]|Hp].
    + apply Ha. apply Hom. by split_and!.
    + rewrite Hb by (rewrite Hom; naive_solver). apply Hd. intros [d Hin%visit_elem]. congruence.
Qed.

Lemma removeUnexpected_spec sources gens w w' : wf w -> removeUnexpectedFilesFromLists sources gens w = (w', Ret tt) ->
  saved w' = saved w /\ wf w' /\ forall p, files w' !! p = if kept_file (sources ++ gens) p then files w !! p else None.
Proof.
  unfold removeUnexpectedFilesFromLists. intros Hw E. apply bind_returns in E as (w0 & w0' & [= <- <-] & E). apply bind_returns in E as (w1 & [] & Er & E).
  apply (each_remove _ Some) in Er as (Hf1 & Hs1 & Hw1); [|intros rel u u' Eu; by apply remove_spec].
  assert (Hf : forall p, files w1 !! p = if kept_file (sources ++ gens) p then files w !! p else None).
  { intros p. destruct (Hf1 p) as [Ha Hb].
    assert (Hom : p ∈ omap Some (List.filter (fun rel => negb (kept_file (sources ++ gens) rel)) (map fst (map_to_list (files w)))) <-> is_Some (files w !! p) /\ kept_file (sources ++ gens) p = false).
    { rewrite list_elem_of_omap. split.
      - intros (q & Hq & [= ->]). apply list_elem_of_In, filter_In in Hq as [Hq%list_elem_of_In Hk]. apply negb_true_iff in Hk. split; [|done].
        apply list_elem_of_fmap in Hq as ([r x] & -> & Hx). apply elem_of_map_to_list in Hx. by exists x.
      - intros [[x Hx] Hk]. exists p. split; [|done]. apply list_elem_of_In, filter_In. rewrite Hk. split; [|done]. apply list_elem_of_In, list_elem_of_fmap.
        exists (p, x). split; [done|]. by apply elem_of_map_to_list. }
    rewrite Hom in Ha, Hb. destruct (kept_file (sources ++ gens) p); [apply Hb; by intros [_ ?]|].
    destruct (files w !! p) as [x|] eqn:Ex; [apply Ha; by split; [exists x|]|]. rewrite Hb; [done|]. by intros [[? ?] _]. }
  assert (H2 : files w' = files w1 /\ saved w' = saved w1 /\ wf w').
  { refine (each_spec _ (fun _ u => files u = files w1 /\ saved u = saved w1 /\ wf u) _ _ [] w1 w' _ E); [|by split_and!; [| |apply Hw1]].
    intros acc d u u' Hd (Hfu & Hsu & Hwu) Eu. rewrite sort_stable_perm, elem_of_elements in Hd. destruct (decide (d ∈ _)); [by injection Eu as <-|].
    destruct (ignore_remove d u) as (u2 & Eu2 & Hfd & Hsd & Hwd). rewrite Eu2 in Eu. injection Eu as <-. split_and!; [|congruence|auto].
    rewrite Hfd; [done|]. rewrite Hfu, not_elem_of_dom, Hf. destruct (kept_file _ d); [|done]. apply eq_None_not_Some. intros Hsome. by apply (Hw d Hsome). }
  destruct H2 as (H2 & H3 & H4). split_and!; [congruence|done|]. intros p. rewrite H2. apply Hf.
Qed.

Lemma seed_spec w w' : seedSceneryGoSum w = (w', Ret tt) -> saved w' = saved w /\ (wf w -> wf w') /\ (forall p, p <> "go.sum" -> files w' !! p = files w !! p)
  /\ (is_Some (files w !! "go.sum") -> is_Some (files w' !! "go.sum")).
Proof.
  unfold seedSceneryGoSum. intros E. apply bind_returns in E as (w0 & sum & Es & E). cbn in Es. injection Es as <- _. destruct sum as [sum|]; [|injection E as <-; by split_and!].
  apply bind_returns in E as (w1 & w2 & [= <- <-] & E). destruct (decide ("go.sum" ∈ dirs w)); [done|]. cbv zeta in E.
  destruct (bool_decide _); [injection E as <-; by split_and!|]. apply write_spec in E as (Hf & Hs & _ & Hw). split_and!; [done|done| |].
  - intros p Hp. rewrite Hf. by rewrite lookup_insert_ne.
  - intros _. rewrite Hf, lookup_insert_eq. by eexists.
Qed.

(** A saved state is honest about a workspace: a file whose stamp was recorded is
    not a directory, and if the source still has that stamp, the workspace holds
    what the source gives, unless the file was generated or the go command edits it. *)
Record honest (s : buildState) (w : workspace) (tree : node) : Prop := {
  honest_wf : wf w;
  honest_dirs : forall p, is_Some (SourceStamps s !! p) -> (p ∉ dirs w);
  honest_copies : forall p c, is_Some (SourceStamps s !! p) -> SourceStamps s !! p = stat_source tree p -> files w !! p = Some c ->
    p ∈ GeneratedFiles s \/ p ∈ ["go.mod"; "go.sum"] \/ sourceFileData tree p = Ret c
}.

(** A stamp stands for one content. *)
Definition stamped (tree tree' : node) : Prop :=
  forall p st, stat_source tree p = Some st -> stat_source tree' p = Some st -> sourceFileData tree' p = sourceFileData tree p.

(** The files of a prepared workspace, given what is generated and the sources. *)
Record mirror (tree : node) (next : gmap string string) (l : list string) (w : workspace) : Prop := {
  mirror_generated : forall p d, next !! p = Some d -> p <> "go.sum" -> files w !! p = Some d;
  mirror_sources : forall p, p ∈ l -> is_Some (stat_source tree p) -> next !! p = None -> (p ∉ ["go.mod"; "go.sum"]) ->
    exists d, sourceFileData tree p = Ret d /\ files w !! p = Some d;
  mirror_only : forall p, next !! p = None -> (p ∉ l) -> kept_file [] p = false -> files w !! p = None
}.

Lemma kept_in keep p : p ∈ keep -> kept_file keep p = true.
Proof. intros Hp. unfold kept_file. apply orb_true_iff. left. apply orb_true_iff. left. apply existsb_exists. exists p. split; [by apply list_elem_of_In|apply String.eqb_refl]. Qed.

Lemma kept_out keep p : (p ∉ keep) -> kept_file keep p = kept_file [] p.
Proof.
  intros Hp. unfold kept_file. cbn [existsb]. destruct (existsb (String.eqb p) keep) eqn:E; [|done]. exfalso. apply existsb_exists in E as (q & Hq & ->%String.eqb_eq). apply Hp. by apply list_elem_of_In.
Qed.

(** The steps of [Prepare] up to the fingerprints. *)
Lemma prepare_steps t tree gen w w' r : Prepare t tree (Ret gen) w = (w', Ret r) ->
  exists s w1 w2 w3 w4 next, loadBuildState w = Ret s /\ syncSourceFiles tree (SourceStamps s) ∅ w = (w1, Ret (r_SourceFiles r, r_SourceStamps r))
  /\ syncGeneratedFiles gen (GeneratedFiles s) (r_SourceFiles r) w1 = (w2, Ret (r_GeneratedFiles r))
  /\ removeUnexpectedFilesFromLists (r_SourceFiles r) (r_GeneratedFiles r) w2 = (w3, Ret tt) /\ seedSceneryGoSum w3 = (w4, Ret tt)
  /\ next_generated gen = Ret next /\ files w' = files w4 /\ dirs w' = dirs w4 /\ saved w' = saved w4
  /\ currentAppSourceFingerprint tree = Ret (r_SourceFingerprint r) /\ generator = Ret (r_GeneratorFingerprint r)
  /\ workspaceBuildFingerprint w4 (normalizeGoBuildFlags (GoFlags t)) [r_SourceFiles r; r_GeneratedFiles r] = Ret (r_BuildFingerprint r)
  /\ ReuseCompiled r = negb (String.eqb (r_BuildFingerprint r) "") && exists_in w4 (binary_name t (r_BuildFingerprint r))
  /\ r_GoBuildFlags r = normalizeGoBuildFlags (GoFlags t) /\ r_Binary r = binary_path t (r_BuildFingerprint r) /\ r_AppRoot r = appRoot t.
Proof.
  unfold Prepare. intros E. apply bind_returns in E as (? & g & Eg & E). cbn in Eg. injection Eg as <- <-.
  apply bind_returns in E as (? & ? & [= <- <-] & E). apply bind_returns in E as (? & s & Es & E). cbn in Es. injection Es as <- Es.
  apply bind_returns in E as (? & sf & Esf & E). cbn in Esf. injection Esf as <- Esf.
  apply bind_returns in E as (w1 & [fs st] & E1 & E). apply bind_returns in E as (w2 & gf & E2 & E). apply bind_returns in E as (w3 & [] & E3 & E).
  apply bind_returns in E as (w4 & [] & E4 & E). apply bind_returns in E as (? & g & Eg & E). cbn in Eg. injection Eg as <- Eg.
  apply bind_returns in E as (? & ? & [= <- <-] & E). apply bind_returns in E as (? & dep & Ed & E). cbn in Ed. injection Ed as <- Ed.
  apply bind_returns in E as (? & bf & Eb & E). cbn in Eb. injection Eb as <- Eb.
  apply bind_returns in E as (w5 & [] & Em & E). injection E as <- <-. cbn.
  destruct (syncGeneratedFiles_spec _ _ _ _ _ _ E2) as (next & Hnext & _).
  exists s, w1, w2, w3, w4, next. unfold WriteLatestBuildManifest in Em. cbn in Em. destruct (String.eqb (appRoot t) ""); [done|].
  apply bind_returns in Em as (? & ? & [= <- <-] & Em). apply bind_returns in Em as (? & s' & Es' & Em). cbn in Es'. injection Es' as <- Es'. injection Em as <-. by split_and!.
Qed.

(** A source that is no longer rewritten has changed. *)
Definition rewrites_kept (s : buildState) (tree : node) (next : gmap string string) : Prop :=
  forall p, p ∈ GeneratedFiles s -> next !! p = None -> is_Some (SourceStamps s !! p) -> SourceStamps s !! p <> stat_source tree p.

Lemma prepare_files t tree gen w w' r s next l : loadBuildState w = Ret s -> honest s w tree -> listSourceFiles tree = Ret l -> no_nesting l ->
  next_generated gen = Ret next -> rewrites_kept s tree next -> Prepare t tree (Ret gen) w = (w', Ret r) ->
  wf w' /\ mirror tree next l w' /\ (forall p, p ∈ r_GeneratedFiles r <-> is_Some (next !! p))
  /\ (forall p, r_SourceStamps r !! p = if decide (p ∈ l) then stat_source tree p else None)
  /\ (forall p, is_Some (r_SourceStamps r !! p) -> is_Some (files w' !! p)).
Proof.
  intros Hs Hh Hl Hnest Hnext Hkept E. destruct (prepare_steps _ _ _ _ _ _ E) as (s' & w1 & w2 & w3 & w4 & next' & Hs' & E1 & E2 & E3 & E4 & Hn' & Hf' & Hd' & _).
  rewrite Hs in Hs'. injection Hs' as <-. rewrite Hnext in Hn'. injection Hn' as <-. destruct Hh as [Hwf Hdirs Hcop].
  apply (syncSourceFiles_spec _ _ _ _ _ _ _ l) in E1 as (Hfs & _ & Hw1 & Hst & Hmir & Hno); [|done|done|intros p _ _ Hp; by apply Hdirs].
  apply syncGeneratedFiles_spec in E2 as (next' & Hn' & Hgf & _ & Hw2 & Hf2). rewrite Hnext in Hn'. injection Hn' as <-.
  apply removeUnexpected_spec in E3 as (_ & Hw3 & Hf3); [|auto]. apply seed_spec in E4 as (_ & Hw4 & Hf4 & Hsum).
  assert (Hsrc : forall p, p ∈ r_SourceFiles r <-> is_Some (r_SourceStamps r !! p)) by (intros p; rewrite Hfs; apply keys_elem).
  assert (Hkeep : forall p, is_Some (r_SourceStamps r !! p) \/ is_Some (next !! p) -> files w3 !! p = files w2 !! p).
  { intros p Hp. rewrite Hf3, kept_in; [done|]. apply elem_of_app. by rewrite Hsrc, Hgf. }
  assert (Hsource : forall p, is_Some (r_SourceStamps r !! p) -> is_Some (files w3 !! p) /\
     (next !! p = None -> (p ∉ ["go.mod"; "go.sum"]) -> exists d, sourceFileData tree p = Ret d /\ files w3 !! p = Some d)).
  { intros p Hp. rewrite Hkeep by (by left). rewrite Hf2. destruct (next !! p) as [d|] eqn:En; [split; [by eexists|done]|].
    rewrite decide_False by (rewrite Hsrc; tauto). specialize (Hmir p Hp). unfold mirrored in Hmir. pose proof Hp as [st Hst']. rewrite Hst in Hst'.
    destruct (decide (p ∈ l)); [|done]. rewrite Hst' in Hmir. destruct Hmir as [[? _]|[(d & Hd & ->)|(Hpv & -> & [c Hc])]]; [set_solver|eauto|].
    rewrite Hc. split; [by eexists|]. intros _ Hne. destruct (Hcop p c) as [Hg|[Hg|Hg]]; [by rewrite Hpv|by rewrite Hpv|done| |done|by exists c].
    exfalso. apply (Hkept p Hg En); [by rewrite Hpv|by rewrite Hpv]. }
  split_and!.
  - intros p Hp. rewrite Hd'. rewrite Hf' in Hp. by apply Hw4.
  - split.
    + intros p d Hp Hne. rewrite Hf', Hf4, Hkeep by (done || right; by rewrite Hp). by rewrite Hf2, Hp.
    + intros p Hp Hstat Hn Hne. assert (Hs2 : is_Some (r_SourceStamps r !! p)) by (rewrite Hst, decide_True by done; done).
      destruct (Hsource p Hs2) as [_ Hd]. rewrite Hf', Hf4 by set_solver. by apply Hd.
    + intros p Hn Hp Hk. assert (p <> "go.sum") by (by intros ->). rewrite Hf', Hf4 by done. rewrite Hf3, kept_out, Hk; [done|].
      rewrite elem_of_app, Hsrc, Hgf, Hn, Hst, decide_False by done. by intros [[? ?]|[? ?]].
  - exact Hgf.
  - exact Hst.
  - intros p Hp. destruct (Hsource p Hp) as [Hin _]. rewrite Hf'. destruct (decide (p = "go.sum")) as [->|]; [by apply Hsum|by rewrite Hf4].
Qed.

End mirror.

(** ** Reuse *)

(** Digests are not empty; the go command leaves the saved state alone, and a
    build that returns has written its binary. *)
Class GoLaws {BE : BuildEnv} (t : target) : Prop := {
  digest_text : forall x, sha256_hex x <> "";
  generator_text : generator <> Ret "";
  go_saved : forall args w, saved (run_go args w).1 = saved w;
  go_builds : forall x flags w w', run_go (goBuildArgs (binary_path t (sha256_hex x)) flags) w = (w', Ret tt) -> exists_in w' (binary_name t (sha256_hex x)) = true
}.

Section reuse.
Context {OO : AppConfig.ObjectOrder} {BE : BuildEnv} (t : target) {GL : GoLaws t}.

Lemma manifest_spec r phase w w' : WriteLatestBuildManifest t r phase w = (w', Ret tt) -> files w' = files w /\ dirs w' = dirs w /\ saved w' = saved w.
Proof.
  unfold WriteLatestBuildManifest. destruct (String.eqb (r_AppRoot r) ""); [done|]. intros E. apply bind_returns in E as (? & ? & [= <- <-] & E).
  apply bind_returns in E as (? & s & Es & E). cbn in Es. injection Es as <- _. injection E as <-. done.
Qed.

Lemma save_spec r w w' : savePrimedWorkspace t r w = (w', Ret tt) -> files w' = files w /\ dirs w' = dirs w /\ saved w' = Some (Ret (state_of_result r)).
Proof.
  unfold savePrimedWorkspace. intros E. apply bind_returns in E as (w1 & [] & [= <-] & E). apply manifest_spec in E as (-> & -> & ->). done.
Qed.

Lemma exists_in_ext w w' p : files w' = files w -> dirs w' = dirs w -> exists_in w' p = exists_in w p.
Proof. unfold exists_in. by intros -> ->. Qed.

(** What a compilation leaves of a result. *)
Definition same_build (r r' : Result) : Prop := exists f, r' = tidied r f \/ (r' = r /\ NeedsTidy r = false).

Lemma same_build_facts r r' : same_build r r' ->
  r_Binary r' = r_Binary r /\ r_BuildFingerprint r' = r_BuildFingerprint r /\ r_SourceFingerprint r' = r_SourceFingerprint r
  /\ r_GeneratorFingerprint r' = r_GeneratorFingerprint r /\ r_GoBuildFlags r' = r_GoBuildFlags r.
Proof. by intros [f [-> | [-> _]]]. Qed.

Lemma compile_spec r w w' r' fp : (exists x, fp = sha256_hex x) -> r_Binary r = binary_path t fp -> (ReuseCompiled r = true -> exists_in w (binary_name t fp) = true) ->
  CompileContext t r w = (w', Ret r') -> same_build r r' /\ saved w' = Some (Ret (state_of_result r')) /\ exists_in w' (binary_name t fp) = true.
Proof.
  intros [x ->] Hb Hre E. unfold CompileContext in E. destruct (ReuseCompiled r).
  { cbv zeta in E. apply bind_returns in E as (w1 & [] & Es & E). apply bind_returns in E as (w2 & [] & Em & E). injection E as <- <-.
    apply save_spec in Es as (Hf1 & Hd1 & Hs1). apply manifest_spec in Em as (Hf2 & Hd2 & Hs2). split_and!; [eexists; by left|congruence|].
    rewrite (exists_in_ext w) by congruence. by apply Hre. }
  apply bind_returns in E as (w1 & [] & Es & E). apply bind_returns in E as (w2 & built & Eb & E). unfold attempt in Eb.
  destruct (run_go (goBuildArgs (r_Binary r) (r_GoBuildFlags r)) w1) as [w2' o] eqn:Ego. injection Eb as <- <-.
  pose proof (go_saved (goBuildArgs (r_Binary r) (r_GoBuildFlags r)) w1) as Hgs. rewrite Ego in Hgs. cbn in Hgs.
  apply bind_returns in E as (w3 & r1 & E1 & E). apply bind_returns in E as (w4 & r2 & E2 & E). apply bind_returns in E as (w5 & [] & Em & E). injection E as <- <-.
  apply manifest_spec in Em as (Hf5 & Hd5 & Hs5). rewrite (exists_in_ext w4 w5) by done. rewrite Hs5.
  assert (H3 : (r1 = r /\ (NeedsTidy r = false -> saved w3 = Some (Ret (state_of_result r))) /\ exists_in w3 (binary_name t (sha256_hex x)) = true)
    \/ (exists f, r1 = tidied r f /\ saved w3 = Some (Ret (state_of_result r1)) /\ exists_in w3 (binary_name t (sha256_hex x)) = true)).
  { assert (Hretry : forall e, (if NeedsTidy r || goBuildNeedsWorkspaceTidy e then r ← tidyWorkspace r; _ ← savePrimedWorkspace t r; _ ← run_go (goBuildArgs (r_Binary r) (r_GoBuildFlags r)); mret r else fail e) w2' = (w3, Ret r1) ->
      exists f, r1 = tidied r f /\ saved w3 = Some (Ret (state_of_result r1)) /\ exists_in w3 (binary_name t (sha256_hex x)) = true).
    { intros e Er. destruct (_ || _); [|done]. apply bind_returns in Er as (u1 & rt & Et & Er). unfold tidyWorkspace in Et.
      apply bind_returns in Et as (u0 & [] & _ & Et). apply bind_returns in Et as (? & ? & [= <- <-] & Et). apply bind_returns in Et as (? & f & Ef & Et). cbn in Ef. injection Ef as <- _. injection Et as <- <-.
      apply bind_returns in Er as (u2 & [] & Esv & Er). apply save_spec in Esv as (_ & _ & Hsv). apply bind_returns in Er as (u3 & [] & Ego2 & Er). injection Er as <- <-. cbn [tidied r_Binary r_GoBuildFlags] in Ego2.
      exists f. split; [done|]. pose proof (go_saved (goBuildArgs (r_Binary r) (r_GoBuildFlags r)) u2) as Hg2. rewrite Ego2 in Hg2. cbn in Hg2. split; [by rewrite Hg2, Hsv|].
      rewrite Hb in Ego2. by apply go_builds in Ego2. }
    destruct o as [[]|e|e]; [left|right; by eapply Hretry|right; by eapply Hretry]. injection E1 as <- <-. rewrite Hb in Ego. split_and!; [done| |by apply go_builds in Ego].
    intros Hnt. rewrite Hgs. rewrite Hnt in Es. by apply save_spec in Es as (_ & _ & ->). }
  destruct H3 as [(-> & Hsv & Hex)|(f & -> & Hsv & Hex)].
  - destruct (NeedsTidy r) eqn:Hnt.
    + apply bind_returns in E2 as (? & ? & [= <- <-] & E2). apply bind_returns in E2 as (? & f & Ef & E2). cbn in Ef. injection Ef as <- _. cbv zeta in E2.
      apply bind_returns in E2 as (w6 & [] & Esv & E2). injection E2 as <- <-. apply save_spec in Esv as (Hf6 & Hd6 & Hs6). split_and!; [exists f; by left|done|].
      by rewrite (exists_in_ext w3).
    + injection E2 as <- <-. split_and!; [exists ""; by right|by apply Hsv|done].
  - cbn in E2. injection E2 as <- <-. split_and!; [exists f; by left|done|done].
Qed.

(** C39. A compiled binary is found again exactly as long as it is current.  After an
    application was prepared and compiled, the same binary is reused if its
    sources are as they were, and none is if their fingerprint or the flags
    differ. *)
Theorem compiled_reusable (tree : node) (gen : Output) (w w1 w2 : workspace) (r r' : Result) :
  Prepare t tree (Ret gen) w = (w1, Ret r) -> CompileContext t r w1 = (w2, Ret r') ->
  (exists found, LoadReusableBinary t tree w2 = Ret (Some found) /\ r_Binary found = r_Binary r /\ r_BuildFingerprint found = r_BuildFingerprint r /\ ReuseCompiled found = true)
  /\ (forall tree' f, currentAppSourceFingerprint tree' = Ret f -> f <> r_SourceFingerprint r -> LoadReusableBinary t tree' w2 = Ret None)
  /\ (forall t', normalizeGoBuildFlags (GoFlags t') <> normalizeGoBuildFlags (GoFlags t) -> LoadReusableBinary t' tree w2 = Ret None).
Proof.
  intros Ep Ec. destruct (prepare_steps _ _ _ _ _ _ Ep) as (s & w01 & w02 & w03 & w04 & next & _ & _ & _ & _ & _ & _ & Hf & Hd & _ & Hsf & Hgen & Hbf & Hre & Hfl & Hbin & _).
  assert (Hdig : exists x, r_BuildFingerprint r = sha256_hex x).
  { unfold workspaceBuildFingerprint in Hbf. cbv zeta in Hbf. destruct (hash_files w04 _); [|done..]. cbn in Hbf. injection Hbf as <-. by eexists. }
  destruct (compile_spec r w1 w2 r' (r_BuildFingerprint r) Hdig Hbin) as (Hsame & Hsv & Hex); [|exact Ec|].
  { rewrite Hre. intros [_ Hx]%andb_true_iff. by rewrite (exists_in_ext w04). }
  destruct (same_build_facts r r' Hsame) as (Hbin' & Hbf' & Hsf' & Hgen' & Hfl').
  assert (Hld : loadBuildState w2 = Ret (state_of_result r')) by (unfold loadBuildState; by rewrite Hsv).
  assert (Hne1 : String.eqb (r_SourceFingerprint r) "" = false).
  { apply String.eqb_neq. unfold currentAppSourceFingerprint in Hsf. destruct (listSourceFiles tree); [|done..]. cbn in Hsf. destruct (config_text tree); [|done..]. cbn in Hsf.
    destruct (hash_sources tree a); [|done..]. cbn in Hsf. injection Hsf as <-. apply digest_text. }
  assert (Hne2 : String.eqb (r_GeneratorFingerprint r) "" = false) by (apply String.eqb_neq; intros Hz; rewrite Hz in Hgen; by apply generator_text).
  assert (Hne3 : String.eqb (r_BuildFingerprint r) "" = false) by (apply String.eqb_neq; destruct Hdig as [x ->]; apply digest_text).
  split_and!.
  - eexists. unfold LoadReusableBinary. rewrite Hsf, Hgen, Hld. cbn -[String.eqb]. rewrite Hsf', Hgen', Hbf', Hfl', Hfl, Hne1, Hne2, Hne3, !String.eqb_refl, Hex.
    rewrite bool_decide_eq_true_2 by done. cbn -[String.eqb]. split; [reflexivity|]. cbn. by rewrite Hbf'.
  - intros tree' f Hf' Hne. unfold LoadReusableBinary. rewrite Hf', Hgen, Hld. cbn -[String.eqb]. rewrite Hsf', Hgen', Hbf', Hfl', Hne1, Hne2, Hne3.
    rewrite (proj2 (String.eqb_neq (r_SourceFingerprint r) f)) by congruence. done.
  - intros t' Hne. unfold LoadReusableBinary. rewrite Hsf, Hgen, Hld. cbn -[String.eqb]. rewrite Hsf', Hgen', Hbf', Hfl', Hfl, Hne1, Hne2, Hne3, !String.eqb_refl.
    rewrite bool_decide_eq_false_2 by congruence. done.
Qed.
End reuse.

(** ** Witnesses *)
#[local] Instance in_order : AppConfig.ObjectOrder := AppConfig.demo_order.

(** Two digests; the go command writes its binary. *)
Definition sample_env (gen patch : string) (go : bool) : BuildEnv := {|
  sha256_hex := fun x => if Strings.Contains x "v2" then "2222222222222222" else "1111111111111111";
  generator := Ret gen; repo_go_sum := Ret (Some "m v1 h1:a"); repo_root := patch; modfile := string; mod_Parse := Ret;
  mod_AddRequire := fun f _ _ => (f, Some "requirement already exists"); mod_DropReplace := fun f _ => f; mod_AddReplace := fun f _ root => Ret (f +:+ root); mod_Format := Ret;
  rewrite_pgxpool := fun _ d => Ret d;
  import_literals := fun d => Ret (if Strings.Contains d "v2" then ["v2"] else []);
  run_go := fun args w =>
    if negb go then (w, Fail "go failed")
    else if bool_decide (head args = Some "build") then (with_files w (<[Filepath.Base (List.nth 1 (rev args) "") := "binary"]> (files w)) (dirs w), Ret tt)
    else (w, Ret tt) |}.

Definition sample_target : target := {| appRoot := "/app"; absRoot := "/app"; Name := "app"; ID := ""; GoFlags := []; dir := "/cache/build/app-1" |}.
Definition file (time : Z) (text : string) : node := NFile true {| Size := 0; ModTimeNano := time; Perm := 420 |} (Ret text).
Definition sample_tree (time : Z) (text : string) : node := NDir (Ret [("go.mod", file 1 "module app"); ("main.go", file time text)]).
Definition sample_gen : Output := {| Rewritten := ∅; Generated := {["scenery_internal_main/main.go" := "package main"]} |}.
Definition empty_workspace : workspace := {| files := ∅; dirs := ∅; saved := None; latest := None |}.

Definition env1 : BuildEnv := sample_env "g1" "" true.
#[local] Instance sample_laws : @GoLaws env1 sample_target.
Proof.
  split.
  - intros x. cbn. by destruct (Strings.Contains x "v2").
  - done.
  - intros args w. cbn. by destruct (bool_decide _).
  - intros x flags w w'. unfold goBuildArgs. cbn [env1 sample_env run_go negb head app]. rewrite bool_decide_eq_true_2 by done. intros [= <-].
    unfold exists_in. cbn [files with_files]. apply orb_true_iff. left. apply bool_decide_eq_true. cbn [rev]. rewrite rev_app_distr. cbn [rev app List.nth].
    cbn [env1 sample_env sha256_hex]. destruct (Strings.Contains x "v2").
    + change (Filepath.Base (@binary_path env1 sample_target "2222222222222222")) with (@binary_name env1 sample_target "2222222222222222"). by rewrite lookup_insert_eq.
    + change (Filepath.Base (@binary_path env1 sample_target "1111111111111111")) with (@binary_name env1 sample_target "1111111111111111"). by rewrite lookup_insert_eq.
Qed.

Definition run_prepare (env : BuildEnv) (tree : node) (w : workspace) : workspace * outcome string Result := @Prepare in_order env sample_target tree (Ret sample_gen) w.
Definition prepared : workspace := (run_prepare env1 (sample_tree 1 "package v1") empty_workspace).1.
Definition prepared_result : Result := match (run_prepare env1 (sample_tree 1 "package v1") empty_workspace).2 with Ret r => r | _ => result_of_state (BE := env1) sample_target no_state false end.
Definition compiled : workspace := (@CompileContext env1 sample_target prepared_result prepared).1.

Lemma prepared_run : run_prepare env1 (sample_tree 1 "package v1") empty_workspace = (prepared, Ret prepared_result).
Proof. vm_compute. reflexivity. Qed.

Lemma sample_nesting : no_nesting ["go.mod"; "main.go"].
Proof. intros a b Ha Hb. repeat (apply elem_of_cons in Ha as [->|Ha]; [repeat (apply elem_of_cons in Hb as [->|Hb]; [vm_compute; set_solver|]); by apply elem_of_nil in Hb|]). by apply elem_of_nil in Ha. Qed.


Lemma compiled_reusable_witness : exists found, @LoadReusableBinary env1 sample_target (sample_tree 1 "package v1") compiled = Ret (Some found) /\ r_Binary found = "/cache/build/app-1/scenery-app-1111111111111111".
Proof.
  destruct (compiled_reusable (OO := in_order) (BE := env1) sample_target (sample_tree 1 "package v1") sample_gen empty_workspace prepared compiled prepared_result
    (match (@CompileContext env1 sample_target prepared_result prepared).2 with Ret r => r | _ => prepared_result end)) as [(found & Hf & Hb & _) _].
  - exact prepared_run.
  - vm_compute. reflexivity.
  - exists found. split; [exact Hf|]. rewrite Hb. vm_compute. reflexivity.
Defined.

(** The runtime is part of the generator's fingerprint.  When it changes, the saved
    binary is not reused, but preparing finds a binary of the same sources and
    nothing is compiled: the old binary is then recorded as current. *)
Definition env2 : BuildEnv := sample_env "g2" "" false.
Example stale_runtime :
  @LoadReusableBinary env2 sample_target (sample_tree 1 "package v1") compiled = Ret None
  /\ match run_prepare env2 (sample_tree 1 "package v1") compiled with
     | (w, Ret r) => match @CompileContext env2 sample_target r w with
       | (w, Ret _) => files w !! "scenery-app-1111111111111111" = Some "binary"
           /\ match @LoadReusableBinary env2 sample_target (sample_tree 1 "package v1") w with Ret (Some _) => True | _ => False end
       | _ => False end
     | _ => False end.
Proof. vm_compute. repeat split. Qed.

(** The edit of go.mod names the scenery repository.  When the repository is
    elsewhere, an unchanged go.mod keeps the old edit. *)
Example stale_go_mod :
  match run_prepare (sample_env "g2" " // new root" true) (sample_tree 1 "package v1") compiled with
  | (w, Ret _) => files w !! "go.mod" = Some "module app" | _ => False end.
Proof. vm_compute. reflexivity. Qed.

(** A build with new imports that fails saves no state: when the
    file is then put back with its time, its stamp is the recorded one and the
    workspace keeps the other content. *)
Example restored_file_stale :
  match run_prepare env1 (sample_tree 2 "package v2") compiled with
  | (w, Ret r) => match @CompileContext (sample_env "g1" "" false) sample_target r w with
    | (w, Fail _) => match run_prepare env1 (sample_tree 1 "package v1") w with
      | (w, Ret r) => files w !! "main.go" = Some "package v2" /\ r_Binary r = "/cache/build/app-1/scenery-app-2222222222222222"
      | _ => False end
    | _ => False end
  | _ => False end.
Proof. vm_compute. repeat split. Qed.

(** An embedded file that becomes a directory cannot be mirrored any more: the
    directory is made before the old file is removed. *)
Definition embedding (data : node) : node := NDir (Ret [("data", data); ("main.go", file 1 "//go:embed data")]).
Example file_becomes_directory :
  match run_prepare env1 (embedding (file 1 "x")) empty_workspace with
  | (w, Ret r) => (run_prepare env1 (embedding (NDir (Ret [("x.txt", file 1 "x")]))) (@saveBuildState (state_of_result r) w).1).2 = Fail "not a directory"
  | _ => False end.
Proof. vm_compute. reflexivity. Qed.

(** Contents are not delimited in a fingerprint: a file with zero bytes stands for
    two files. *)
Example fingerprints_ambiguous :
  hashed "a.syso" ("x" +:+ zero +:+ "b.syso" +:+ zero +:+ "y") = hashed "a.syso" "x" +:+ hashed "b.syso" "y".
Proof. vm_compute. reflexivity. Qed.
End BuildProofs.
