(* ===== verification/Edge.v ===== *)
(** * The edge ([cmd/scenery/edge.go], the route names of [watch.go])

    [Edge] models the parts of the edge that decide: the hosts and labels of
    routes, the arguments of the commands, the files that dnsmasq, the resolver,
    Caddy and launchd read, the choice of stale processes, and the check that the
    privileged helper makes of its target before it forwards a connection.  What
    a process is, is the class [Processes]; the resolver directory is a map.  The
    texts of errors are shortened where they quote a library's.  Starting and
    stopping processes and the network are not modelled. *)
From stdpp Require Import base tactics list gmap strings.
From Stdlib Require Import ZArith Lia Ascii.
From S2P Require Import Prelude GoStrings Router Paths AppConfig AgentSession AgentRegistry AgentServer LocalProxy.

Module Edge.
Definition defaultEdgePublicAddr : string := "127.0.0.1:443".
Definition defaultEdgeDNSDomain : string := Agent.DefaultRouteBaseDomain.
Definition defaultEdgeDNSListen : string := "127.0.0.1:53535".
Definition defaultEdgeDNSAddress : string := "127.0.0.1".
Definition edgeHighPortMin : Z := 19000.
Definition edgeHighPortMax : Z := 19999.
Definition edgeHelperLabel : string := "dev.scenery.edge-helper".
Definition edgeHelperBinaryPath : string := "/usr/local/libexec/scenery-edge-helper".
Definition edgeHelperLogPath : string := "/Library/Application Support/Scenery/edge-helper/edge-helper.log".

Definition newline : string := String (chr 10) "".
Definition lines (l : list string) : string := Strings.Join (map (fun x => x +:+ newline) l) "".

Section edge.
Context {UT : UnicodeTables}.

(** The first value that is not blank, as it is. *)
Fixpoint firstNonEmpty (values : list string) : string :=
  match values with
  | [] => ""
  | v :: values => if negb (String.eqb (Strings.TrimSpace v) "") then v else firstNonEmpty values
  end.

(** ** Hosts and labels *)
Definition normalizeRouteNamespaceHost (value : string) : string :=
  let value := Strings.ToLower (Strings.TrimSpace value) in
  if String.eqb value "" then ""
  else
    let value := match Strings.cut_opt value "://" with Some (_, rest) => rest | None => value end in
    let value := match Strings.cut_opt value "/" with Some (before, _) => before | None => value end in
    let value := match Net.SplitHostPort value with Some (host, _) => host | None => value end in
    LocalProxy.trim_brackets value.

Definition sanitizeRouteLabel (value : string) : string := Agent.sanitizeLabel value.

Context {OO : AppConfig.ObjectOrder}.
Definition addHost (hosts : gmap string string) (route host : string) : gmap string string :=
  let route := sanitizeRouteLabel route in
  let host := normalizeRouteNamespaceHost host in
  if String.eqb route "" || String.eqb host "" then hosts else <[route := host]> hosts.

Definition routeNamespaceForConfig (cfg : AppConfig.Config) : Agent.RouteNamespace :=
  let p := AppConfig.Proxy cfg in
  let hosts := addHost ∅ Agent.RouteAPI (AppConfig.APIHost p) in
  let hosts := addHost hosts "console" (AppConfig.ConsoleHost p) in
  let hosts := addHost hosts Agent.RouteTemporal (AppConfig.TemporalHost p) in
  let hosts := addHost hosts Agent.RouteGrafana (AppConfig.GrafanaHost p) in
  let hosts := fold_left (fun hosts '(name, frontend) => addHost hosts name (AppConfig.fc_Host frontend)) (AppConfig.visit (map_to_list (AppConfig.Frontends p))) hosts in
  let workspace := sanitizeRouteLabel (AppConfig.Workspace p) in
  let workspace := if String.eqb workspace "" && bool_decide (hosts = ∅) then sanitizeRouteLabel (AppConfig.AppID cfg) else workspace in
  let baseDomain := normalizeRouteNamespaceHost (AppConfig.RouteBaseDomain p) in
  let baseDomain := if String.eqb baseDomain "" then Agent.DefaultRouteBaseDomain else baseDomain in
  {| Agent.Workspace := workspace; Agent.BaseDomain := baseDomain; Agent.Hosts := hosts |}.

(** ** Arguments *)
Record edgeOptions := { JSON : bool; o_Domain : string }.

Fixpoint parse_edge_args (args : list string) (opts : edgeOptions) : outcome string edgeOptions :=
  match args with
  | [] => Ret opts
  | arg :: rest =>
    if String.eqb arg "--json" then parse_edge_args rest {| JSON := true; o_Domain := o_Domain opts |}
    else if String.eqb arg "--domain" then
      match rest with
      | [] => Fail "missing value for --domain"
      | v :: rest =>
        let domain := normalizeRouteNamespaceHost v in
        if String.eqb domain "" then Fail "--domain must be a valid domain" else parse_edge_args rest {| JSON := JSON opts; o_Domain := domain |}
      end
    else Fail ("unknown flag " +:+ arg)
  end.
Definition parseEdgeArgs (args : list string) : outcome string edgeOptions := parse_edge_args args {| JSON := false; o_Domain := "" |}.

Record edgeDNSHelperOptions := { Domain : string; Nameserver : string; Port : string }.

Fixpoint parse_dns_args (args : list string) (opts : edgeDNSHelperOptions) : outcome string edgeDNSHelperOptions :=
  match args with
  | [] => Ret opts
  | arg :: rest =>
    if negb (existsb (String.eqb arg) ["--domain"; "--nameserver"; "--port"]) then Fail ("unknown flag " +:+ arg)
    else match rest with
    | [] => Fail (arg +:+ " requires a value")
    | raw :: rest =>
      parse_dns_args rest
        (if String.eqb arg "--domain" then {| Domain := normalizeRouteNamespaceHost raw; Nameserver := Nameserver opts; Port := Port opts |}
         else if String.eqb arg "--nameserver" then {| Domain := Domain opts; Nameserver := Strings.TrimSpace raw; Port := Port opts |}
         else {| Domain := Domain opts; Nameserver := Nameserver opts; Port := Strings.TrimSpace raw |})
    end
  end.

Definition parseEdgeDNSHelperArgs (args : list string) : outcome string edgeDNSHelperOptions :=
  opts ← parse_dns_args args {| Domain := ""; Nameserver := "127.0.0.1"; Port := "53535" |};
  if String.eqb (Domain opts) "" then Fail "--domain is required"
  else if bool_decide (Net.ParseIP (Nameserver opts) = None) then Fail "--nameserver must be an IP address"
  else match Strconv.Atoi (Port opts) with
  | Ret _ => if String.eqb (Port opts) "" then Fail "--port must be an integer" else Ret opts
  | _ => Fail "--port must be an integer"
  end.

Record edgeHelperOptions := { OwnerUID : Z; OwnerGID : Z; OwnerHome : string; HelperTargetState : string; RouterAddr : string }.

Fixpoint parse_helper_args (args : list string) (o : edgeHelperOptions) : outcome string edgeHelperOptions :=
  match args with
  | [] => Ret o
  | arg :: rest =>
    if negb (existsb (String.eqb arg) ["--owner-uid"; "--owner-gid"; "--owner-home"; "--helper-target-state"; "--router-addr"]) then Fail ("unknown flag " +:+ arg)
    else match rest with
    | [] => Fail (arg +:+ " requires a value")
    | raw :: rest =>
      if String.eqb arg "--owner-uid" then
        match Strconv.Atoi raw with
        | Ret uid => parse_helper_args rest {| OwnerUID := uid; OwnerGID := OwnerGID o; OwnerHome := OwnerHome o; HelperTargetState := HelperTargetState o; RouterAddr := RouterAddr o |}
        | _ => Fail "--owner-uid must be an integer"
        end
      else if String.eqb arg "--owner-gid" then
        match Strconv.Atoi raw with
        | Ret gid => parse_helper_args rest {| OwnerUID := OwnerUID o; OwnerGID := gid; OwnerHome := OwnerHome o; HelperTargetState := HelperTargetState o; RouterAddr := RouterAddr o |}
        | _ => Fail "--owner-gid must be an integer"
        end
      else if String.eqb arg "--owner-home" then
        parse_helper_args rest {| OwnerUID := OwnerUID o; OwnerGID := OwnerGID o; OwnerHome := raw; HelperTargetState := HelperTargetState o; RouterAddr := RouterAddr o |}
      else if String.eqb arg "--helper-target-state" then
        parse_helper_args rest {| OwnerUID := OwnerUID o; OwnerGID := OwnerGID o; OwnerHome := OwnerHome o; HelperTargetState := raw; RouterAddr := RouterAddr o |}
      else parse_helper_args rest {| OwnerUID := OwnerUID o; OwnerGID := OwnerGID o; OwnerHome := OwnerHome o; HelperTargetState := HelperTargetState o; RouterAddr := raw |}
    end
  end.
Definition parseEdgeHelperArgs (args : list string) : outcome string edgeHelperOptions :=
  parse_helper_args args {| OwnerUID := 0; OwnerGID := 0; OwnerHome := ""; HelperTargetState := ""; RouterAddr := "" |}.

Definition requireEdgeHelperOwnerOptions (o : edgeHelperOptions) : outcome string unit :=
  if OwnerUID o <=? 0 then Fail "--owner-uid is required"
  else if OwnerGID o <=? 0 then Fail "--owner-gid is required"
  else if String.eqb (Strings.TrimSpace (OwnerHome o)) "" then Fail "--owner-home is required"
  else if String.eqb (Strings.TrimSpace (HelperTargetState o)) "" then Fail "--helper-target-state is required"
  else Ret tt.

(** ** Names to addresses *)
Definition splitHostPort (addr : string) : string * string := default ("", "") (Net.SplitHostPort (Strings.TrimSpace addr)).
Definition host_or (addr fallback : string) : string := let h := (splitHostPort addr).1 in if String.eqb h "" then fallback else h.
Definition port_or (addr fallback : string) : string := let p := (splitHostPort addr).2 in if String.eqb p "" then fallback else p.

(** Each domain once, sorted. *)
Definition normalizeEdgeDNSDomains (domains : list string) : list string :=
  Router.sort_strings (elements (list_to_set (List.filter (fun d => negb (String.eqb d "")) (map normalizeRouteNamespaceHost domains)) : gset string)).

Definition dnsmasqEdgeConfig (domains : list string) (listen address : string) : string :=
  let domains := normalizeEdgeDNSDomains domains in
  let domains := if bool_decide (domains = []) then [defaultEdgeDNSDomain] else domains in
  lines (["no-daemon"; "bind-interfaces"; "listen-address=" +:+ host_or listen "127.0.0.1"; "port=" +:+ port_or listen "53535"]
    ++ map (fun domain => "address=/" +:+ domain +:+ "/" +:+ address) domains
    ++ ["domain-needed"; "bogus-priv"; "no-resolv"]).

Definition config_serves (data domain : string) : bool :=
  existsb (fun line => Strings.HasPrefix (Strings.TrimSpace line) ("address=/" +:+ domain +:+ "/")) (Strings.Split data (chr 10)).

Definition edgeDNSConfigServesDomain (file : option string) (domain : string) : bool :=
  let domain := normalizeRouteNamespaceHost domain in
  match file with
  | Some data => negb (String.eqb domain "") && config_serves data domain
  | None => false
  end.

Definition edgeDNSInstallCommand (domain : string) : string :=
  if String.eqb domain "" || String.eqb domain defaultEdgeDNSDomain then "scenery system edge dns install" else "scenery system edge dns install --domain " +:+ domain.

(** The files of /etc/resolver, by path; [None] for a directory. *)
Abbreviation resolvers := (gmap string string).
Definition managed_mark : string := "Managed by scenery edge dns".

Definition edgeDNSResolverPath (domain : string) : string :=
  let domain := normalizeRouteNamespaceHost domain in
  Filepath.Join ["/etc/resolver"; if String.eqb domain "" then defaultEdgeDNSDomain else domain].

Definition edgeDNSResolverFile (domain nameserver port : string) : string :=
  lines ["# Managed by scenery edge dns"; "domain " +:+ domain; "nameserver " +:+ nameserver; "port " +:+ port].

(** The managed domains, by the names of their files. *)
Definition managedEdgeDNSResolverDomains (entries : list (string * string)) : list string :=
  omap (fun '(name, data) =>
    let domain := normalizeRouteNamespaceHost name in
    if String.eqb domain "" || negb (Strings.Contains data managed_mark) then None else Some domain) entries.

Definition edgeDNSConfigDomains (darwin : bool) (entries : list (string * string)) (domain : string) : list string :=
  normalizeEdgeDNSDomains ([defaultEdgeDNSDomain; domain] ++ (if darwin then managedEdgeDNSResolverDomains entries else [])).

Definition parse_resolver_line (fields : gmap string string) (line : string) : gmap string string :=
  let line := Strings.TrimSpace line in
  if String.eqb line "" || Strings.HasPrefix line "#" then fields
  else match Strings.Fields line with k :: v :: _ => <[k := v]> fields | _ => fields end.
Definition parseResolverFile (data : string) : gmap string string := fold_left parse_resolver_line (Strings.Split data (chr 10)) ∅.

Record edgeDNSResolverState := { Installed : bool; State : string; r_Domain : string; Path : string; r_Nameserver : string; r_Port : string; Message : string }.

Definition edgeDNSResolverStatus (darwin : bool) (fs : resolvers) (domain listen : string) : edgeDNSResolverState :=
  if negb darwin then {| Installed := false; State := "unsupported"; r_Domain := domain; Path := ""; r_Nameserver := ""; r_Port := "";
    Message := "scoped resolver configuration is currently managed on macOS" |}
  else
    let path := edgeDNSResolverPath domain in
    let host := host_or listen "127.0.0.1" in
    let port := port_or listen "53535" in
    let status installed state message := {| Installed := installed; State := state; r_Domain := domain; Path := path; r_Nameserver := host; r_Port := port; Message := message |} in
    match fs !! path with
    | None => status false "missing" "run `scenery system edge dns install`"
    | Some data =>
      let fields := parseResolverFile data in
      if bool_decide (default "" (fields !! "domain") = domain) && bool_decide (default "" (fields !! "nameserver") = host) && bool_decide (default "" (fields !! "port") = port)
      then status true "installed" ""
      else status false "mismatch" "resolver file exists but does not match scenery system edge dns"
    end.

(** The helper runs as root. *)
Definition edgeDNSHelperInstall (darwin root : bool) (o : edgeDNSHelperOptions) (fs : resolvers) : outcome string resolvers :=
  if negb darwin then Fail "scenery system edge dns-helper install is currently supported on macOS"
  else if negb root then Fail "scenery system edge dns-helper install must run as root; use `scenery system edge dns install`"
  else Ret (<[edgeDNSResolverPath (Domain o) := edgeDNSResolverFile (Domain o) (Nameserver o) (Port o)]> fs).

Definition edgeDNSHelperUninstall (darwin root : bool) (o : edgeDNSHelperOptions) (fs : resolvers) : outcome string resolvers :=
  if negb darwin then Fail "scenery system edge dns-helper uninstall is currently supported on macOS"
  else if negb root then Fail "scenery system edge dns-helper uninstall must run as root; use `scenery system edge dns uninstall`"
  else
    let path := edgeDNSResolverPath (Domain o) in
    Ret (match fs !! path with Some data => if Strings.Contains data managed_mark then delete path fs else fs | None => fs end).

Definition edgeDNSHelperCommand (darwin root : bool) (args : list string) (fs : resolvers) : outcome string resolvers :=
  match args with
  | [] => Fail "usage: scenery system edge dns-helper install|uninstall --domain <domain> [--nameserver <ip>] [--port <port>]"
  | cmd :: args =>
    opts ← parseEdgeDNSHelperArgs args;
    if String.eqb cmd "install" then edgeDNSHelperInstall darwin root opts fs
    else if String.eqb cmd "uninstall" then edgeDNSHelperUninstall darwin root opts fs
    else Fail ("unknown edge dns-helper command " +:+ cmd)
  end.

(** What [sudo] runs: the helper with these arguments. *)
Definition edgeDNSInstallResolver (darwin root : bool) (domain listen : string) (fs : resolvers) : outcome string resolvers :=
  if negb darwin then Ret fs
  else if root then Fail "do not run `sudo scenery system edge dns install`; run it as your normal user"
  else
    let host := host_or listen "127.0.0.1" in
    let port := port_or listen "53535" in
    if String.eqb (State (edgeDNSResolverStatus darwin fs domain (LocalProxy.JoinHostPort host port))) "installed" then Ret fs
    else edgeDNSHelperCommand darwin true ["install"; "--domain"; domain; "--nameserver"; host; "--port"; port] fs.

(** ** Texts for other programs *)
Definition publicBaseForEdge (addr : string) : string :=
  let addr := Strings.TrimSpace addr in
  let addr := if String.eqb addr "" then defaultEdgePublicAddr else addr in
  match Net.SplitHostPort addr with
  | None => "https://" +:+ addr
  | Some (host, port) => if String.eqb port "443" then "https://" +:+ host else "https://" +:+ addr
  end.

Definition unixURL (path : string) : string := if String.eqb (Strings.TrimSpace path) "" then "" else "unix://" +:+ path.

Record caddyEdgeConfigOptions := { ListenAddr : string; PublicPort : string; Upstream : string; AskURL : string; AdminSocket : string; Token : string }.

Definition tab : string := String (chr 9) "".
Definition caddyEdgeConfig (o : caddyEdgeConfigOptions) : string :=
  let publicPort := Strings.TrimSpace (PublicPort o) in
  let publicPort := if String.eqb publicPort "" then "443" else publicPort in
  lines [
    "{"; tab +:+ "default_bind " +:+ host_or (ListenAddr o) "127.0.0.1"; tab +:+ "auto_https disable_redirects"; tab +:+ "local_certs";
    tab +:+ "on_demand_tls {"; tab +:+ tab +:+ "ask " +:+ AskURL o; tab +:+ "}"; tab +:+ "admin unix//" +:+ AdminSocket o;
    tab +:+ "servers {"; tab +:+ tab +:+ "strict_sni_host on"; tab +:+ "}"; "}"; "";
    "https://:" +:+ port_or (ListenAddr o) "19443" +:+ " {"; tab +:+ "tls internal {"; tab +:+ tab +:+ "on_demand"; tab +:+ "}";
    tab +:+ "reverse_proxy " +:+ Upstream o +:+ " {"; tab +:+ tab +:+ "flush_interval -1"; tab +:+ tab +:+ "header_up Host {host}";
    tab +:+ tab +:+ "header_up X-Forwarded-Proto https"; tab +:+ tab +:+ "header_up X-Forwarded-Port " +:+ publicPort;
    tab +:+ tab +:+ "header_up X-Scenery-Edge-Token " +:+ Token o; tab +:+ "}"; "}"].

Definition escape_char (c : ascii) : string :=
  if Ascii.eqb c "&" then "&amp;" else if Ascii.eqb c "<" then "&lt;" else if Ascii.eqb c ">" then "&gt;"
  else if Ascii.eqb c (chr 34) then "&quot;" else if Ascii.eqb c "'" then "&apos;" else String c "".
Fixpoint escapePlistString (value : string) : string :=
  match value with EmptyString => "" | String c value => escape_char c +:+ escapePlistString value end.

(** The arguments that launchd gives the helper. *)
Definition helper_args (o : edgeHelperOptions) (defaultRouter : string) : list string :=
  ["--owner-uid"; Strconv.Itoa (OwnerUID o); "--owner-gid"; Strconv.Itoa (OwnerGID o); "--owner-home"; OwnerHome o;
   "--helper-target-state"; HelperTargetState o; "--router-addr"; firstNonEmpty [RouterAddr o; defaultRouter]].

Definition quote : string := String (chr 34) "".
Definition plist_string (v : string) : string := "<string>" +:+ escapePlistString v +:+ "</string>".
Definition edgeHelperPlist (o : edgeHelperOptions) (defaultRouter : string) : string :=
  lines ([
    "<?xml version=" +:+ quote +:+ "1.0" +:+ quote +:+ " encoding=" +:+ quote +:+ "UTF-8" +:+ quote +:+ "?>";
    "<!DOCTYPE plist PUBLIC " +:+ quote +:+ "-//Apple//DTD PLIST 1.0//EN" +:+ quote +:+ " " +:+ quote +:+ "http://www.apple.com/DTDs/PropertyList-1.0.dtd" +:+ quote +:+ ">";
    "<plist version=" +:+ quote +:+ "1.0" +:+ quote +:+ ">"; "<dict>"; tab +:+ "<key>Label</key>"; tab +:+ plist_string edgeHelperLabel;
    tab +:+ "<key>ProgramArguments</key>"; tab +:+ "<array>"]
   ++ map (fun v => tab +:+ tab +:+ plist_string v) ([edgeHelperBinaryPath; "system"; "edge"; "privileged-helper"; "run"] ++ helper_args o defaultRouter)
   ++ [tab +:+ "</array>"; tab +:+ "<key>RunAtLoad</key>"; tab +:+ "<true/>"; tab +:+ "<key>KeepAlive</key>"; tab +:+ "<true/>";
    tab +:+ "<key>StandardOutPath</key>"; tab +:+ plist_string edgeHelperLogPath; tab +:+ "<key>StandardErrorPath</key>"; tab +:+ plist_string edgeHelperLogPath;
    "</dict>"; "</plist>"]).

(** The state and the process that [launchctl print] names first. *)
Definition launch_line (acc : string * Z) (line : string) : string * Z :=
  let line := Strings.TrimSpace line in
  let '(state, pid) := acc in
  let state := if String.eqb state "" && Strings.HasPrefix line "state = " then Strings.TrimSpace (Strings.TrimPrefix line "state = ") else state in
  let pid := if (pid =? 0) && Strings.HasPrefix line "pid = " then
      match Strconv.Atoi (Strings.TrimSpace (Strings.TrimPrefix line "pid = ")) with Ret p => p | _ => pid end
    else pid in
  (state, pid).
Definition parseEdgeHelperLaunchStatus (output : string) : string * Z := fold_left launch_line (Strings.Split output (chr 10)) ("", 0).

(** The token file: what it holds, and what it holds afterwards. *)
Definition ensureEdgeToken (file : option string) (random_hex : outcome string string) : outcome string (string * option string) :=
  let stored := match file with Some data => Strings.TrimSpace data | None => "" end in
  if negb (String.eqb stored "") then Ret (stored, file)
  else token ← random_hex; Ret (token, Some (token +:+ newline)).

(** The end of a log, from an offset, of at most [limit] bytes. *)
Definition tailFileFromOffset (data : string) (offset limit : Z) : string :=
  let size := Z.of_nat (String.length data) in
  let offset := Z.min (Z.max offset 0) size in
  let offset := if limit <? size - offset then size - limit else offset in
  Strings.TrimSpace (Strings.stake (Z.to_nat limit) (Strings.sdrop (Z.to_nat offset) data)).

(** ** Stale processes *)
Definition edgeAgentCommandMatches (command socketPath routerAddr : string) : bool :=
  Strings.Contains command "scenery system agent" && Strings.Contains command ("--socket " +:+ socketPath) && Strings.Contains command ("--router-listen " +:+ routerAddr).

(** A line of [ps]: process, user and command. *)
Definition ps_line (line : string) : option (Z * Z * string) :=
  match Strings.Fields (Strings.TrimSpace line) with
  | pid :: uid :: word :: command =>
    match Strconv.Atoi pid, Strconv.Atoi uid with
    | Ret pid, Ret uid => Some (pid, uid, Strings.Join (word :: command) " ")
    | _, _ => None
    end
  | _ => None
  end.
Definition ps_processes (out : string) : list (Z * Z * string) := omap ps_line (Strings.Split out (chr 10)).

(** The processes that are stopped. *)
Definition stopStaleEdgeAgentProcesses (out : string) (self : Z) (socketPath routerAddr : string) (skipPID : Z) : list Z :=
  omap (fun '(pid, uid, command) =>
    if negb (uid =? self) || (pid <=? 0) || (pid =? skipPID) then None
    else if edgeAgentCommandMatches command socketPath routerAddr then Some pid else None) (ps_processes out).

Definition stopStaleRootSceneryEdgeAgent (out ownerHome routerAddr defaultRouter : string) : list Z :=
  let socketPath := Filepath.Join [ownerHome; "run"; "agent.sock"] in
  let routerAddr := Strings.TrimSpace routerAddr in
  let routerAddr := if String.eqb routerAddr "" then defaultRouter else routerAddr in
  omap (fun '(pid, uid, command) =>
    if negb (uid =? 0) || (pid <=? 0) then None else if edgeAgentCommandMatches command socketPath routerAddr then Some pid else None) (ps_processes out).

(** Only the first. *)
Definition stopStaleRootCaddyEdge (out ownerHome : string) : option Z :=
  let configPath := Filepath.Join [ownerHome; "agent"; "edge"; "Caddyfile"] in
  head (omap (fun '(pid, uid, command) =>
    if negb (uid =? 0) || (pid <=? 0) then None
    else if negb (Strings.Contains command "caddy run") || negb (Strings.Contains command ("--config " +:+ configPath)) then None
    else Some pid) (ps_processes out)).

(** ** The target of the privileged helper *)
Class Processes := { alive : Z -> bool; process_uid : Z -> option Z; process_start : Z -> option string; process_command : Z -> option string }.

(** The metadata file: permissions, owner, content. *)
Record metadata := { perm : Z; m_uid : Z; m_gid : Z; content : outcome string (option AgentServer.EdgeTargetState) }.

Definition isLoopbackHost (host : string) : bool :=
  match Net.ParseIP (LocalProxy.trim_brackets host) with Some ip => Net.IsLoopback ip | None => false end.

Definition validateEdgeTargetOwner (m : metadata) (ownerUID ownerGID : Z) : outcome string unit :=
  if negb (m_uid m =? ownerUID) || negb (m_gid m =? ownerGID) then Fail "edge target metadata owner does not match expected" else Ret tt.

Context {PR : Processes}.
Definition check_process (st : AgentServer.EdgeTargetState) (ownerUID : Z) : outcome string string :=
  let pid := AgentServer.et_PID st in
  if negb (alive pid) then Fail "edge target pid is not running"
  else if negb (bool_decide (process_uid pid = Some ownerUID)) then Fail "edge target pid owner mismatch"
  else if negb (String.eqb (AgentServer.et_ProcessStart st) "") && negb (bool_decide (process_start pid = Some (AgentServer.et_ProcessStart st)))
  then Fail "edge target pid start time mismatch"
  else if negb (String.eqb (AgentServer.et_Executable st) "") then
    match process_command pid with
    | None => Fail "edge target pid command check failed"
    | Some command =>
      if negb (Strings.Contains command (AgentServer.et_Executable st)) && negb (String.eqb (Filepath.Base (AgentServer.et_Executable st)) "caddy")
      then Fail "edge target pid is not the managed Caddy process" else Ret (AgentServer.et_TargetAddr st)
    end
  else Ret (AgentServer.et_TargetAddr st).

Definition no_target : AgentServer.EdgeTargetState := {|
  AgentServer.et_SchemaVersion := ""; AgentServer.et_Kind := ""; AgentServer.et_TargetAddr := ""; AgentServer.et_PID := 0; AgentServer.et_OwnerUID := 0;
  AgentServer.et_OwnerGID := 0; AgentServer.et_ProcessStart := ""; AgentServer.et_Executable := ""; AgentServer.et_UpdatedAt := 0 |}.

Definition validateEdgeTarget (file : outcome string metadata) (ownerUID ownerGID : Z) : outcome string string :=
  m ← file;
  if negb (Z.land (perm m) 18 =? 0) then Fail "edge target metadata must not be group/world writable"
  else
    _ ← validateEdgeTargetOwner m ownerUID ownerGID;
    loaded ← AgentServer.LoadEdgeTargetState (content m);
    let st := default no_target loaded in
    if negb (String.eqb (AgentServer.et_SchemaVersion st) AgentServer.EdgeTargetSchemaVersion) || negb (String.eqb (AgentServer.et_Kind st) AgentServer.EdgeKindCaddy)
    then Fail "edge target metadata has unexpected kind"
    else match Net.SplitHostPort (AgentServer.et_TargetAddr st) with
    | None => Fail "edge target address is invalid"
    | Some (host, portRaw) =>
      if negb (isLoopbackHost host) then Fail "edge target address must be loopback"
      else match Strconv.Atoi portRaw with
      | Ret port => if (port <? edgeHighPortMin) || (edgeHighPortMax <? port) then Fail "edge target port must be in 19000-19999" else check_process st ownerUID
      | _ => Fail "edge target port must be in 19000-19999"
      end
    end.

(** Where a connection goes, if anywhere. *)
Definition handleEdgeHelperConn (o : edgeHelperOptions) (file : outcome string metadata) : option string :=
  match validateEdgeTarget file (OwnerUID o) (OwnerGID o) with Ret addr => Some addr | _ => None end.

(** The helper serves only with its owner given. *)
Definition edgePrivilegedHelperRun (root : bool) (o : edgeHelperOptions) : outcome string (list string) :=
  if negb root then Fail "scenery system edge privileged-helper run must run as root"
  else _ ← requireEdgeHelperOwnerOptions o; Ret ["127.0.0.1:443"; "[::1]:443"].
End edge.
End Edge.
