(* ===== verification/EdgeProofs.v ===== *)
(** * The edge: where connections go and what the helpers write

    [EdgeProofs] proves that the privileged helper forwards a connection exactly
    to a loopback address with a high port that a process of the owner's serves,
    as a file says that only the owner can write ([helper_target_exact]); that
    installing a resolver for a domain makes its status installed, in one file
    directly below /etc/resolver ([resolver_installed]); that the name server
    serves exactly the domains of its configuration ([dns_config_exact]); and that
    launchd gives the helper the options it was installed with
    ([helper_options_kept]). *)
From stdpp Require Import base tactics list gmap strings.
From Stdlib Require Import ZArith Lia Ascii.
From S2P Require Import Prelude GoStrings Router Paths AppConfig AgentSession AgentServer LocalProxy Edge.
Import Edge.

Module EdgeProofs.
(** ** The target of the helper *)

(** What the helper demands of its target. *)
Record edge_target {UT : UnicodeTables} {PR : Processes} (o : edgeHelperOptions) (m : metadata) (st : AgentServer.EdgeTargetState) (addr : string) : Prop := {
  target_private : Z.testbit (perm m) 4 = false /\ Z.testbit (perm m) 1 = false;
  target_owner : m_uid m = OwnerUID o /\ m_gid m = OwnerGID o;
  target_loaded : AgentServer.LoadEdgeTargetState (content m) = Ret (Some st);
  target_kind : AgentServer.et_SchemaVersion st = AgentServer.EdgeTargetSchemaVersion /\ AgentServer.et_Kind st = AgentServer.EdgeKindCaddy;
  target_addr : addr = AgentServer.et_TargetAddr st /\ exists host portRaw port ip, Net.SplitHostPort addr = Some (host, portRaw)
    /\ Net.ParseIP (LocalProxy.trim_brackets host) = Some ip /\ Net.IsLoopback ip = true /\ Strconv.Atoi portRaw = Ret port /\ 19000 <= port <= 19999;
  target_process : alive (AgentServer.et_PID st) = true /\ process_uid (AgentServer.et_PID st) = Some (OwnerUID o);
  target_start : AgentServer.et_ProcessStart st = "" \/ process_start (AgentServer.et_PID st) = Some (AgentServer.et_ProcessStart st);
  target_command : AgentServer.et_Executable st = "" \/ exists command, process_command (AgentServer.et_PID st) = Some command
    /\ (Strings.Contains command (AgentServer.et_Executable st) = true \/ Filepath.Base (AgentServer.et_Executable st) = "caddy")
}.

Section target.
Context {UT : UnicodeTables} {PR : Processes}.

Lemma land_writable p : (Z.land p 18 =? 0) = true <-> Z.testbit p 4 = false /\ Z.testbit p 1 = false.
Proof.
  rewrite Z.eqb_eq. split.
  - intros E. split; [assert (H := f_equal (fun z => Z.testbit z 4) E)|assert (H := f_equal (fun z => Z.testbit z 1) E)];
      cbv beta in H; rewrite Z.land_spec, Z.bits_0 in H; change (Z.testbit 18 4) with true in H; change (Z.testbit 18 1) with true in H; by rewrite andb_true_r in H.
  - intros [H4 H1]. apply Z.bits_inj'. intros n Hn. rewrite Z.land_spec, Z.bits_0. destruct (Z.eq_dec n 4) as [->|N4]; [by rewrite H4|]. destruct (Z.eq_dec n 1) as [->|N1]; [by rewrite H1|].
    assert (Z.testbit 18 n = false) as ->; [|by rewrite andb_false_r].
    destruct (Z.lt_ge_cases n 5) as [Hlt|Hge].
    + assert (n = 0 \/ n = 2 \/ n = 3) as [->|[->| ->]] by lia; reflexivity.
    + apply Z.bits_above_log2; [lia|]. change (Z.log2 18) with 4. lia.
Qed.

Lemma check_process_iff st uid addr : check_process st uid = Ret addr <-> addr = AgentServer.et_TargetAddr st
  /\ (alive (AgentServer.et_PID st) = true /\ process_uid (AgentServer.et_PID st) = Some uid)
  /\ (AgentServer.et_ProcessStart st = "" \/ process_start (AgentServer.et_PID st) = Some (AgentServer.et_ProcessStart st))
  /\ (AgentServer.et_Executable st = "" \/ exists command, process_command (AgentServer.et_PID st) = Some command
    /\ (Strings.Contains command (AgentServer.et_Executable st) = true \/ Filepath.Base (AgentServer.et_Executable st) = "caddy")).
Proof.
  unfold check_process. destruct (alive _); [|naive_solver]. cbn [negb]. case_bool_decide as Hu; [|naive_solver]. cbn [negb].
  assert (Hcmd : (if negb (String.eqb (AgentServer.et_Executable st) "") then
      match process_command (AgentServer.et_PID st) with
      | None => Fail "edge target pid command check failed"
      | Some command => if negb (Strings.Contains command (AgentServer.et_Executable st)) && negb (String.eqb (Filepath.Base (AgentServer.et_Executable st)) "caddy")
          then Fail "edge target pid is not the managed Caddy process" else Ret (AgentServer.et_TargetAddr st)
      end else Ret (AgentServer.et_TargetAddr st)) = Ret addr <-> addr = AgentServer.et_TargetAddr st
    /\ (AgentServer.et_Executable st = "" \/ exists command, process_command (AgentServer.et_PID st) = Some command
      /\ (Strings.Contains command (AgentServer.et_Executable st) = true \/ Filepath.Base (AgentServer.et_Executable st) = "caddy"))).
  { destruct (String.eqb_spec (AgentServer.et_Executable st) "") as [He|He]; cbn [negb].
    { split; [intros [= <-]; split; [done|by left]|]. by intros [-> _]. }
    destruct (process_command _) as [command|].
    2: { split; [done|]. intros (_ & [|(c & [=] & _)]); done. }
    destruct (Strings.Contains command (AgentServer.et_Executable st)) eqn:Ec; cbn [negb andb].
    { split; [intros [= <-]; split; [done|right; exists command; by split; [|left]]|]. by intros [-> _]. }
    destruct (String.eqb_spec (Filepath.Base (AgentServer.et_Executable st)) "caddy") as [Hc|Hc]; cbn [negb].
    { split; [intros [= <-]; split; [done|right; exists command; by split; [|right]]|]. by intros [-> _]. }
    split; [done|]. intros (_ & [|(c & [= <-] & [|])]); congruence. }
  destruct (String.eqb_spec (AgentServer.et_ProcessStart st) "") as [Hs|Hs]; cbn [negb andb]; [rewrite Hcmd; tauto|].
  case_bool_decide as Hst; cbn [negb]; [rewrite Hcmd; tauto|]. split; [done|]. intros (_ & _ & [|] & _); done.
Qed.

End target.

(** ** Lines and words *)
Abbreviation visible_text s := (Strings.all_bytes Strings.visible s = true).

Lemma lines_cons x l : lines (x :: l) = x +:+ String (chr 10) (lines l).
Proof.
  unfold lines, newline. cbn [map]. destruct l as [|y l]; cbn [map Strings.Join]; [done|]. by rewrite Strings.string_app_assoc.
Qed.

Lemma Split_lines l : Forall (fun x => Strings.has_byte (chr 10) x = false) l -> Strings.Split (lines l) (chr 10) = l ++ [""].
Proof.
  induction 1 as [|x l Hx Hl IH]; [done|]. rewrite lines_cons, Paths.Split_app_sep, Paths.Split_single by done. by rewrite IH.
Qed.

Lemma visible_spaces c : Strings.visible c = true -> Strings.space1 c = false /\ (forall d, Strings.space2 c d = false) /\ (forall d e, Strings.space3 c d e = false).
Proof. destruct c as [[] [] [] [] [] [] [] []]; first [discriminate 1|intros _; repeat split; reflexivity]. Qed.

Lemma fields_aux_visible w : forall x, visible_text w -> Strings.fields_aux (w +:+ x) = (w +:+ (Strings.fields_aux x).1, (Strings.fields_aux x).2).
Proof.
  induction w as [|c w IH]; intros x Hw; [change ("" +:+ x) with x; by destruct (Strings.fields_aux x)|]. cbn [Strings.all_bytes] in Hw. apply andb_true_iff in Hw as [Hc Hw].
  destruct (visible_spaces c Hc) as (H1 & H2 & H3). rewrite !Strings.string_app_cons. specialize (IH x Hw). cbn [Strings.fields_aux]. rewrite H1.
  destruct (w +:+ x) as [|d y] eqn:E; [by rewrite IH|]. rewrite H2. destruct y as [|e z]; [by rewrite IH|]. by rewrite H3, IH.
Qed.

Lemma Fields_words k v : visible_text k -> visible_text v -> k <> "" -> v <> "" -> Strings.Fields (k +:+ String " " v) = [k; v].
Proof.
  intros Hk Hv Hk0 Hv0. unfold Strings.Fields. rewrite fields_aux_visible by done.
  assert (Ev : Strings.fields_aux v = (v, [])) by (rewrite <- (Strings.string_app_nil_r v) at 1; rewrite fields_aux_visible by done; cbn; by rewrite Strings.string_app_nil_r).
  assert (Es : Strings.fields_aux (String " " v) = ("", [v])) by (cbn [Strings.fields_aux]; change (Strings.space1 " ") with true; cbv iota; rewrite Ev; unfold Strings.push_field; by rewrite (proj2 (String.eqb_neq _ _) Hv0)).
  rewrite Es. cbn [fst snd]. rewrite Strings.string_app_nil_r. unfold Strings.push_field. by rewrite (proj2 (String.eqb_neq _ _) Hk0).
Qed.

Lemma TrimRight_visible v : visible_text v -> Strings.TrimRightSpace v = v.
Proof.
  induction v as [|c v IH]; [done|]. cbn [Strings.all_bytes]. rewrite andb_true_iff. intros [Hc Hv]. cbn [Strings.TrimRightSpace].
  rewrite Strings.TrimLeftSpace_id by (by apply Strings.visible_step). by rewrite (proj2 (String.eqb_neq _ _)), IH by done.
Qed.

Lemma TrimSpace_words k v : visible_text k -> visible_text v -> k <> "" -> v <> "" -> Strings.TrimSpace (k +:+ String " " v) = k +:+ String " " v.
Proof.
  intros Hk Hv Hk0 Hv0. assert (Hr : forall k, visible_text k -> Strings.TrimRightSpace (k +:+ String " " v) = k +:+ String " " v).
  { clear k Hk Hk0. induction k as [|c k IH]; cbn [Strings.all_bytes].
    - intros _. change ("" +:+ String " " v) with (String " " v). cbn [Strings.TrimRightSpace]. change (Strings.TrimLeftSpace (String " " v)) with (Strings.TrimLeftSpace v).
      assert (Hl : Strings.TrimLeftSpace v = v) by (destruct v as [|d v]; [done|]; apply Strings.TrimLeftSpace_id, Strings.visible_step; by apply andb_true_iff in Hv as [? _]).
      rewrite Hl, (proj2 (String.eqb_neq _ _) Hv0). by rewrite TrimRight_visible.
    - rewrite andb_true_iff. intros [Hc Hk]. rewrite Strings.string_app_cons. cbn [Strings.TrimRightSpace]. rewrite Strings.TrimLeftSpace_id by (by apply Strings.visible_step).
      by rewrite (proj2 (String.eqb_neq _ _)), IH by done. }
  unfold Strings.TrimSpace. rewrite Strings.TrimLeftSpace_id; [by apply Hr|]. destruct k as [|c k]; [done|]. rewrite Strings.string_app_cons. apply Strings.visible_step. by apply andb_true_iff in Hk as [? _].
Qed.

Lemma visible_no_newline s : visible_text s -> Strings.has_byte (chr 10) s = false.
Proof. by apply Strings.all_bytes_no_byte. Qed.

Lemma resolver_line m k v : visible_text k -> visible_text v -> k <> "" -> v <> "" -> Strings.HasPrefix k "#" = false -> parse_resolver_line m (k +:+ String " " v) = <[k := v]> m.
Proof.
  intros Hk Hv Hk0 Hv0 Hh. unfold parse_resolver_line. rewrite TrimSpace_words, Fields_words by done. destruct k as [|c k]; [done|]. rewrite Strings.string_app_cons.
  rewrite (proj2 (String.eqb_neq _ _)) by done. cbn [orb]. assert (Strings.HasPrefix (String c (k +:+ String " " v)) "#" = Strings.HasPrefix (String c k) "#") as -> by done. by rewrite Hh.
Qed.

Lemma parse_resolver_file d n p : visible_text d -> visible_text n -> visible_text p -> d <> "" -> n <> "" -> p <> "" ->
  parseResolverFile (edgeDNSResolverFile d n p) = <["port" := p]> (<["nameserver" := n]> (<["domain" := d]> ∅)).
Proof.
  intros Hd Hn Hp Hd0 Hn0 Hp0. unfold parseResolverFile, edgeDNSResolverFile. rewrite Split_lines.
  - cbn [app fold_left]. change (parse_resolver_line ∅ "# Managed by scenery edge dns") with (∅ : gmap string string).
    change ("domain " +:+ d) with ("domain" +:+ String " " d). change ("nameserver " +:+ n) with ("nameserver" +:+ String " " n). change ("port " +:+ p) with ("port" +:+ String " " p).
    by rewrite !resolver_line.
  - repeat constructor; rewrite ?Strings.has_byte_app, ?(visible_no_newline d), ?(visible_no_newline n), ?(visible_no_newline p) by done; done.
Qed.

(** ** Resolvers *)

(** A host name, an IPv4 address or a port. *)
Definition plain_char (c : ascii) : bool := Strings.visible c && negb (existsb (Ascii.eqb c) [":"; "["; "]"; "%"]%char).
Definition plain_host (h : string) : Prop := Strings.all_bytes plain_char h = true /\ h <> "".

Lemma plain_visible h : plain_host h -> visible_text h.
Proof. intros [H _]. eapply Strings.all_bytes_impl; [|done]. intros c [? _]%andb_true_iff. done. Qed.

Lemma plain_without h c : plain_host h -> plain_char c = false -> Strings.has_byte c h = false.
Proof. intros [H _] Hc. by eapply Strings.all_bytes_no_byte. Qed.

Lemma last_colon_none p : Strings.has_byte ":" p = false -> Net.last_colon p = None.
Proof. induction p as [|c p IH]; [done|]. cbn [Strings.has_byte Net.last_colon]. rewrite orb_false_iff, Ascii.eqb_sym. intros [Hc Hp]. by rewrite IH, Hc. Qed.

Lemma last_colon_split h p : Strings.has_byte ":" p = false -> Net.last_colon (h +:+ String ":" p) = Some (h, p).
Proof.
  intros Hp. induction h as [|c h IH].
  - change ("" +:+ String ":" p) with (String ":" p). cbn [Net.last_colon]. by rewrite last_colon_none.
  - rewrite Strings.string_app_cons. cbn [Net.last_colon]. by rewrite IH.
Qed.

Lemma join_split h p : plain_host h -> plain_host p -> splitHostPort (LocalProxy.JoinHostPort h p) = (h, p).
Proof.
  intros Hh Hp. assert (Hno : forall c, plain_char c = false -> Strings.has_byte c h = false /\ Strings.has_byte c p = false) by (intros c Hc; split; by apply plain_without).
  unfold LocalProxy.JoinHostPort. rewrite !LocalProxy.has_byte_Contains by (by apply (Hno _)). cbn [orb]. change (":" +:+ p) with (String ":" p).
  unfold splitHostPort. rewrite Strings.TrimSpace_visible.
  2: { rewrite Strings.all_bytes_app. cbn [Strings.all_bytes]. by rewrite (plain_visible h), (plain_visible p). }
  unfold Net.SplitHostPort. rewrite last_colon_split by (by apply (Hno _)).
  assert (Strings.HasPrefix (h +:+ String ":" p) "[" = false) as ->.
  { destruct Hh as [Hh H0]. destruct h as [|c h]; [done|]. rewrite Strings.string_app_cons. apply andb_true_iff in Hh as [Hc _]. apply andb_true_iff in Hc as [_ Hc].
    apply not_true_iff_false. intros Hb%Strings.HasPrefix_iff. destruct Hb as [r Hr]. rewrite Strings.string_app_cons in Hr. injection Hr as -> _. done. }
  assert (Hb : forall c, plain_char c = false -> c <> ":"%char -> Strings.has_byte c (h +:+ String ":" p) = false).
  { intros c Hc Hne. rewrite Strings.has_byte_app. cbn [Strings.has_byte]. destruct (Hno c Hc) as [-> ->]. rewrite orb_false_r. by apply Ascii.eqb_neq. }
  rewrite (LocalProxy.has_byte_Contains ":" h) by (by apply Hno). rewrite (LocalProxy.has_byte_Contains "[") by (by apply Hb). by rewrite (LocalProxy.has_byte_Contains "]") by (by apply Hb).
Qed.

Section resolver.
Context {UT : UnicodeTables}.

Lemma status_installed fs domain listen d n p : fs !! edgeDNSResolverPath domain = Some (edgeDNSResolverFile d n p) ->
  visible_text d -> visible_text n -> visible_text p -> d <> "" -> n <> "" -> p <> "" -> d = domain -> n = host_or listen "127.0.0.1" -> p = port_or listen "53535" ->
  State (edgeDNSResolverStatus true fs domain listen) = "installed".
Proof.
  intros Hf Hd Hn Hp Hd0 Hn0 Hp0 Ed En Ep. unfold edgeDNSResolverStatus. cbn [negb]. rewrite Hf, parse_resolver_file by done.
  rewrite (lookup_insert_ne _ "port" "domain"), (lookup_insert_ne _ "nameserver" "domain"), lookup_insert_eq by done.
  rewrite (lookup_insert_ne _ "port" "nameserver"), lookup_insert_eq by done. rewrite lookup_insert_eq. cbn [default from_option id].
  by rewrite !bool_decide_eq_true_2 by done.
Qed.

(** Installing the resolver of a domain works.  For a domain in normal form and a
    host and port without special characters, if the installation through the
    privileged helper returns, the status of the domain is installed, and no
    other file of the resolver directory was touched. *)
Theorem resolver_installed (fs fs' : gmap string string) (domain listen : string) :
  let host := host_or listen "127.0.0.1" in let port := port_or listen "53535" in
  normalizeRouteNamespaceHost domain = domain -> domain <> "" -> visible_text domain -> plain_host host -> plain_host port ->
  edgeDNSInstallResolver true false domain listen fs = Ret fs' ->
  State (edgeDNSResolverStatus true fs' domain listen) = "installed" /\ forall path, path <> edgeDNSResolverPath domain -> fs' !! path = fs !! path.
Proof.
  intros host port Hnorm Hd0 Hd Hh Hp E. unfold edgeDNSInstallResolver in E. cbn [negb] in E. cbv iota in E. fold host port in E.
  assert (Hh' : Strings.TrimSpace host = host) by (by apply Strings.TrimSpace_visible, plain_visible).
  assert (Hp' : Strings.TrimSpace port = port) by (by apply Strings.TrimSpace_visible, plain_visible).
  destruct (String.eqb_spec (State (edgeDNSResolverStatus true fs domain (LocalProxy.JoinHostPort host port))) "installed") as [Hi|Hi].
  - injection E as <-. split; [|done]. rewrite <- Hi. unfold edgeDNSResolverStatus. cbn [negb]. fold host port.
    assert (host_or (LocalProxy.JoinHostPort host port) "127.0.0.1" = host /\ port_or (LocalProxy.JoinHostPort host port) "53535" = port) as [-> ->]; [|done].
    destruct Hh as [? Hh0], Hp as [? Hp0]. split; [unfold host_or|unfold port_or]; (rewrite join_split by done); cbn [fst snd]; by rewrite (proj2 (String.eqb_neq _ _)).
  - unfold edgeDNSHelperCommand, parseEdgeDNSHelperArgs in E. cbn [parse_dns_args existsb String.eqb negb orb mbind outcome_bind] in E.
    cbn -[normalizeRouteNamespaceHost Net.ParseIP Strconv.Atoi Strings.TrimSpace edgeDNSHelperInstall String.eqb] in E. rewrite Hnorm, Hh', Hp' in E.
    rewrite (proj2 (String.eqb_neq domain "") Hd0) in E. case_bool_decide; [done|]. destruct (Strconv.Atoi port); [|done..]. destruct Hp as [Hp1 Hp0].
    rewrite (proj2 (String.eqb_neq port "") Hp0) in E. cbn in E. injection E as <-. destruct Hh as [Hh1 Hh0]. split.
    + eapply status_installed; [apply lookup_insert_eq|done|by apply plain_visible|by apply plain_visible|done|done|done|done|done|done].
    + intros path Hpath. by rewrite lookup_insert_ne.
Qed.

(** ** The name server *)
Lemma cut_slash s : match Strings.cut_opt s "/" with Some (a, _) => Strings.has_byte "/" a = false | None => Strings.has_byte "/" s = false end.
Proof.
  induction s as [|c s IH]; [done|]. cbn [Strings.cut_opt]. destruct (Strings.HasPrefix (String c s) "/") eqn:E; [done|].
  assert (Hc : Ascii.eqb c "/" = false). { apply Ascii.eqb_neq. intros ->. apply not_true_iff_false in E. apply E, Strings.HasPrefix_iff. by exists s. }
  destruct (Strings.cut_opt s "/") as [[a b]|]; cbn [Strings.has_byte]; by rewrite IH, orb_false_r, Ascii.eqb_sym.
Qed.

Lemma last_colon_text s a b : Net.last_colon s = Some (a, b) -> s = a +:+ String ":" b.
Proof.
  revert a b. induction s as [|c s IH]; intros a b; [done|]. cbn [Net.last_colon]. destruct (Net.last_colon s) as [[a' b']|].
  - intros [= <- <-]. rewrite Strings.string_app_cons. f_equal. by apply IH.
  - destruct (Ascii.eqb_spec c ":") as [->|]; [|done]. by intros [= <- <-].
Qed.

Lemma no_byte_sdrop c n s : Strings.has_byte c s = false -> Strings.has_byte c (Strings.sdrop n s) = false.
Proof. revert s. induction n as [|n IH]; intros [|d s]; try done. cbn [Strings.has_byte Strings.sdrop]. rewrite orb_false_iff. intros [_ ?]. auto. Qed.

Lemma no_byte_host c s h p : Strings.has_byte c s = false -> Net.SplitHostPort s = Some (h, p) -> Strings.has_byte c h = false.
Proof.
  intros Hs. unfold Net.SplitHostPort. destruct (Net.last_colon s) as [[a b]|] eqn:El; [|done]. destruct (Strings.HasPrefix s "[").
  - destruct (Strings.cut_opt s "]") as [[before after]|] eqn:Ec; [|done]. destruct (String.eqb _ _); [|done]. cbv zeta. destruct (_ || _); [done|]. intros [= <- _].
    apply Strings.cut_opt_Some in Ec. rewrite Ec, Strings.has_byte_app, orb_false_iff in Hs. apply (no_byte_sdrop c 1). tauto.
  - destruct (Strings.Contains a ":"); [done|]. destruct (_ || _); [done|]. intros [= <- _]. apply last_colon_text in El. rewrite El, Strings.has_byte_app, orb_false_iff in Hs. tauto.
Qed.

Lemma no_byte_TrimSet c f s : Strings.has_byte c s = false -> Strings.has_byte c (Strings.TrimSet f s) = false.
Proof.
  intros Hs. unfold Strings.TrimSet. assert (Hl : Strings.has_byte c (Strings.TrimLeftSet f s) = false).
  { induction s as [|d s IH]; [done|]. cbn [Strings.TrimLeftSet]. cbn [Strings.has_byte] in Hs. pose proof Hs as Hs'. apply orb_false_iff in Hs as [_ Hs]. destruct (f d); [auto|done]. }
  revert Hl. generalize (Strings.TrimLeftSet f s). clear s Hs. induction s as [|d s IH]; [done|]. cbn [Strings.has_byte Strings.TrimRightSet]. rewrite orb_false_iff. intros [Hd Hs].
  destruct (_ && _); [done|]. cbn [Strings.has_byte]. by rewrite Hd, IH.
Qed.

(** A normal host has no slash: it is one name of a directory. *)
Lemma normal_no_slash v : Strings.has_byte "/" (normalizeRouteNamespaceHost v) = false.
Proof.
  unfold normalizeRouteNamespaceHost. cbv zeta. destruct (String.eqb _ ""); [done|]. apply no_byte_TrimSet.
  set (x := match Strings.cut_opt _ "://" with Some _ => _ | None => _ end). pose proof (cut_slash x) as Hx.
  set (y := match Strings.cut_opt x "/" with Some _ => _ | None => _ end).
  assert (Hy : Strings.has_byte "/" y = false) by (subst y; by destruct (Strings.cut_opt x "/") as [[a b]|]).
  destruct (Net.SplitHostPort y) as [[h p]|] eqn:Eh; [by eapply no_byte_host|done].
Qed.

Lemma prefix_line d d' address : Strings.has_byte "/" d = false -> Strings.has_byte "/" d' = false ->
  Strings.HasPrefix ("address=/" +:+ d' +:+ "/" +:+ address) ("address=/" +:+ d +:+ "/") = true <-> d = d'.
Proof.
  intros Hd Hd'. rewrite Strings.HasPrefix_iff. split; [|intros ->; exists address; by rewrite !Strings.string_app_assoc].
  intros [r Hr]. rewrite !Strings.string_app_assoc in Hr.
  assert (Hr' : d' +:+ String "/" address = d +:+ String "/" r) by (by apply (inj (String.append "address=/")) in Hr).
  apply (f_equal (fun s => Strings.Split s "/")) in Hr'. rewrite !Paths.Split_app_sep, (Paths.Split_single d), (Paths.Split_single d') in Hr' by done. by injection Hr'.
Qed.

Definition dns_domains (domains : list string) : list string :=
  let l := normalizeEdgeDNSDomains domains in if bool_decide (l = []) then [defaultEdgeDNSDomain] else l.

Lemma dns_domains_no_slash domains d : d ∈ dns_domains domains -> Strings.has_byte "/" d = false.
Proof.
  unfold dns_domains. cbv zeta. case_bool_decide; [by intros ->%list_elem_of_singleton|]. unfold normalizeEdgeDNSDomains, Router.sort_strings.
  rewrite sort_stable_perm, elem_of_elements, elem_of_list_to_set. intros Hd. apply list_elem_of_In, filter_In in Hd as [Hd _]. apply in_map_iff in Hd as (v & <- & _). apply normal_no_slash.
Qed.

(** The name server that is configured for some domains serves exactly those: a
    domain in normal form is found in the configuration if and only if it is one
    of them, or the default when there is none. *)
Theorem dns_config_exact (domains : list string) (listen address domain : string) :
  Forall (fun d => visible_text d) (dns_domains domains) -> visible_text (host_or listen "127.0.0.1") -> visible_text (port_or listen "53535") -> visible_text address ->
  normalizeRouteNamespaceHost domain <> "" ->
  edgeDNSConfigServesDomain (Some (dnsmasqEdgeConfig domains listen address)) domain = true <-> normalizeRouteNamespaceHost domain ∈ dns_domains domains.
Proof.
  intros Hds Hh Hp Ha Hne. unfold edgeDNSConfigServesDomain. cbv zeta. rewrite (proj2 (String.eqb_neq _ _) Hne). cbn [negb andb]. unfold config_serves, dnsmasqEdgeConfig. cbv zeta.
  fold (dns_domains domains). set (d := normalizeRouteNamespaceHost domain). assert (Hd : Strings.has_byte "/" d = false) by apply normal_no_slash.
  assert (Hl : forall d', visible_text d' -> visible_text ("address=/" +:+ d' +:+ "/" +:+ address)) by (intros d' H'; rewrite !Strings.all_bytes_app, H', Ha; done).
  assert (Hvis : Forall (fun x => visible_text x) (["no-daemon"; "bind-interfaces"; "listen-address=" +:+ host_or listen "127.0.0.1"; "port=" +:+ port_or listen "53535"]
      ++ map (fun domain => "address=/" +:+ domain +:+ "/" +:+ address) (dns_domains domains) ++ ["domain-needed"; "bogus-priv"; "no-resolv"])).
  { apply Forall_app. split; [repeat constructor; rewrite ?Strings.all_bytes_app, ?Hh, ?Hp; done|]. apply Forall_app. split; [|by repeat constructor].
    rewrite Forall_forall in Hds. apply Forall_forall. intros x Hx. apply list_elem_of_In, in_map_iff in Hx as (d' & <- & Hin). apply Hl, Hds. by apply list_elem_of_In. }
  rewrite Split_lines by (eapply Forall_impl; [exact Hvis|]; intros x; apply visible_no_newline).
  rewrite existsb_exists. split.
  - intros (x & Hx & Hpre). apply in_app_iff in Hx as [Hx|[<-|[]]]; [|done]. rewrite Forall_forall in Hvis. rewrite Strings.TrimSpace_visible in Hpre by (apply Hvis; by apply list_elem_of_In).
    apply in_app_iff in Hx as [Hx|Hx].
    + exfalso. repeat destruct Hx as [<-|Hx]; try done; apply Strings.HasPrefix_iff in Hpre as [r Hr]; repeat (rewrite Strings.string_app_cons in Hr); discriminate.
    + apply in_app_iff in Hx as [Hx|Hx]; [|exfalso; repeat destruct Hx as [<-|Hx]; try done; apply Strings.HasPrefix_iff in Hpre as [r Hr]; repeat (rewrite Strings.string_app_cons in Hr); discriminate].
      apply in_map_iff in Hx as (d' & <- & Hin%list_elem_of_In). apply prefix_line in Hpre as ->; [done|done|by eapply dns_domains_no_slash].
  - intros Hin. exists ("address=/" +:+ d +:+ "/" +:+ address). split.
    + apply in_app_iff. left. apply in_app_iff. right. apply in_app_iff. left. apply in_map_iff. exists d. split; [done|]. by apply list_elem_of_In.
    + rewrite Forall_forall in Hds. rewrite Strings.TrimSpace_visible by (by apply Hl, Hds). by apply prefix_line.
Qed.
End resolver.

(** ** The plist of the helper *)
Definition special (c : ascii) : bool := existsb (Ascii.eqb c) ["&"; "<"; ">"; chr 34; "'"]%char.

Lemma escape_plain c : special c = false -> escape_char c = String c "".
Proof. unfold special, escape_char. cbn [existsb]. rewrite !orb_false_iff. by intros (-> & -> & -> & -> & -> & _). Qed.

Lemma special_cases c : special c = true -> c = "&"%char \/ c = "<"%char \/ c = ">"%char \/ c = chr 34 \/ c = "'"%char.
Proof. unfold special. intros (d & Hd & ->%Ascii.eqb_eq)%existsb_exists. cbn in Hd. naive_solver. Qed.

Lemma escape_inj a : forall b, escapePlistString a = escapePlistString b -> a = b.
Proof.
  assert (Hamp : forall c x y d, special c = true -> special d = false -> escape_char c +:+ x <> String d y).
  { intros c x y d Hc Hd. apply special_cases in Hc as [->|[->|[->|[->| ->]]]]; unfold escape_char; cbn -[String.append]; rewrite Strings.string_app_cons; intros [= <- _]; done. }
  induction a as [|c a IH]; intros [|d b] E; cbn [escapePlistString] in E.
  - done.
  - exfalso. destruct (special d) eqn:Hd; [apply special_cases in Hd as [->|[->|[->|[->| ->]]]]; by vm_compute in E|]. by rewrite escape_plain, Strings.string_app_cons in E.
  - exfalso. destruct (special c) eqn:Hc; [apply special_cases in Hc as [->|[->|[->|[->| ->]]]]; by vm_compute in E|]. by rewrite escape_plain, Strings.string_app_cons in E.
  - destruct (special c) eqn:Hc, (special d) eqn:Hd.
    + apply special_cases in Hc as [->|[->|[->|[->| ->]]]]; apply special_cases in Hd as [->|[->|[->|[->| ->]]]];
        unfold escape_char in E; cbn -[String.append] in E; repeat (rewrite Strings.string_app_cons in E); try discriminate E; repeat injection E as E; f_equal; by apply IH.
    + exfalso. rewrite (escape_plain d) in E by done. rewrite Strings.string_app_cons in E. by eapply Hamp.
    + exfalso. rewrite (escape_plain c) in E by done. rewrite Strings.string_app_cons in E. by eapply Hamp.
    + rewrite !escape_plain, !Strings.string_app_cons in E by done. injection E as -> E. f_equal. by apply IH.
Qed.

Lemma escape_no_markup v c : c = "<"%char \/ c = ">"%char -> Strings.has_byte c (escapePlistString v) = false.
Proof.
  intros Hc. induction v as [|d v IH]; [done|]. cbn [escapePlistString]. rewrite Strings.has_byte_app, IH, orb_false_r. destruct (special d) eqn:Hd.
  - apply special_cases in Hd as [->|[->|[->|[->| ->]]]]; destruct Hc as [-> | ->]; reflexivity.
  - rewrite escape_plain by done. cbn [Strings.has_byte]. rewrite orb_false_r. apply Ascii.eqb_neq. intros <-. by destruct Hc as [-> | ->].
Qed.

(** The helper runs with the options it was installed with: the arguments in its
    plist parse to them, the router's address being the one given or else the
    default, and what is written for an argument has no markup and stands for no
    other argument. *)
Theorem helper_options_kept (o : edgeHelperOptions) (defaultRouter : string) :
  - 2 ^ 63 <= OwnerUID o < 2 ^ 63 -> - 2 ^ 63 <= OwnerGID o < 2 ^ 63 ->
  parseEdgeHelperArgs (helper_args o defaultRouter) = Ret {| OwnerUID := OwnerUID o; OwnerGID := OwnerGID o; OwnerHome := OwnerHome o;
    HelperTargetState := HelperTargetState o; RouterAddr := firstNonEmpty [RouterAddr o; defaultRouter] |}
  /\ (forall v c, c = "<"%char \/ c = ">"%char -> Strings.has_byte c (escapePlistString v) = false)
  /\ (forall a b, escapePlistString a = escapePlistString b -> a = b).
Proof.
  intros Hu Hg. split_and!; [|apply escape_no_markup|intros a b; apply escape_inj].
  unfold parseEdgeHelperArgs, helper_args. cbn [parse_helper_args existsb String.eqb negb orb]. cbn -[Strconv.Itoa Strconv.Atoi firstNonEmpty]. unfold Strconv.Atoi.
  rewrite !Strconv.ParseInt_Itoa by lia. reflexivity.
Qed.

(** ** Witnesses *)
#[local] Existing Instance ascii_tables.

Lemma resolver_installed_witness :
  State (edgeDNSResolverStatus true {["/etc/resolver/local.dev" := edgeDNSResolverFile "local.dev" "127.0.0.1" "53535"]} "local.dev" defaultEdgeDNSListen) = "installed".
Proof.
  apply (resolver_installed ∅ _ "local.dev" defaultEdgeDNSListen).
  - vm_compute. reflexivity.
  - discriminate.
  - vm_compute. reflexivity.
  - split; [vm_compute; reflexivity|vm_compute; discriminate].
  - split; [vm_compute; reflexivity|vm_compute; discriminate].
  - vm_compute. reflexivity.
Defined.

(** A domain with a space is taken for valid, and its resolver never counts as
    installed. *)
Example blank_domain_accepted :
  parseEdgeArgs ["--domain"; "a b"] = Ret {| JSON := false; o_Domain := "a b" |}
  /\ match edgeDNSInstallResolver true false "a b" defaultEdgeDNSListen ∅ with
     | Ret fs => State (edgeDNSResolverStatus true fs "a b" defaultEdgeDNSListen) = "mismatch" | _ => False end.
Proof. vm_compute. split; reflexivity. Qed.

(** The command of the target's process does not matter when the recorded program
    is called caddy, as the managed one is. *)
#[local] Instance other_process : Processes := {| alive := fun _ => true; process_uid := fun _ => Some 501; process_start := fun _ => None; process_command := fun _ => Some "/usr/bin/nc -l 19443" |}.
Definition caddy_state : AgentServer.EdgeTargetState := {|
  AgentServer.et_SchemaVersion := "scenery.edge.target.v1"; AgentServer.et_Kind := "caddy"; AgentServer.et_TargetAddr := "127.0.0.1:19443"; AgentServer.et_PID := 7;
  AgentServer.et_OwnerUID := 501; AgentServer.et_OwnerGID := 20; AgentServer.et_ProcessStart := ""; AgentServer.et_Executable := "/home/u/.scenery/toolchain/caddy"; AgentServer.et_UpdatedAt := 1 |}.
Example command_not_checked :
  handleEdgeHelperConn {| OwnerUID := 501; OwnerGID := 20; OwnerHome := "/home/u"; HelperTargetState := "/home/u/t"; RouterAddr := "" |}
    (Ret {| perm := 384; m_uid := 501; m_gid := 20; content := Ret (Some caddy_state) |}) = Some "127.0.0.1:19443".
Proof. vm_compute. reflexivity. Qed.

(** Of several stale root processes only one is stopped. *)
Example one_root_caddy_stopped :
  let line pid := pid +:+ " 0 /opt/caddy run --config /home/u/agent/edge/Caddyfile" +:+ newline in
  stopStaleRootCaddyEdge (line "10" +:+ line "11") "/home/u" = Some 10.
Proof. vm_compute. reflexivity. Qed.
End EdgeProofs.
